(* ===== verification/_CoqProject ===== *)
-Q . S2P
Prelude.v
RustInt.v
Bytes.v
ProtoTypes.v
ProtoFrame.v
ProtoMessage.v
ProtoDisplay.v
ProtoInput.v
ProtoControl.v
ProtoTelemetry.v
RustTime.v
CoreNegotiation.v
CoreSession.v
CoreLatency.v
CoreQuality.v
MediaMetadata.v
MediaScheduler.v
MediaSynthetic.v
TransportPacket.v
TransportLoopback.v
TransportStream.v
TransportTcp.v
TransportTcpLink.v
TransportToken.v
TransportPairing.v
TransportAoa.v
HostMode.v
HostHandshake.v
RustText.v
HostPlatform.v
HostState.v
HostStream.v
HostReconnect.v
HostLoopback.v
HostTether.v
HostRuntime.v
HostThreads.v
HostTurns.v
WinDisplay.v
WinInput.v
WinInputHeld.v
WinCapture.v
RustIo.v
HostMac.v
WinH264.v
WinEncoder.v
WinEncoderFacts.v
WinUsb.v
WinUsbOpen.v
WinUsbManager.v
WinVirtualDisplay.v
WinVirtualFacts.v
WinTether.v
WinTetherFacts.v
WinVideo.v
WinMediaKept.v
WinCaptureLive.v
WinCaptureEnds.v
WinCaptureFeed.v
WinCaptureSetup.v
WinCaptureFacts.v
WinCaptureClean.v
WinSession.v
HostShell.v
