(* ===== verification/Prelude.v ===== *)
(** * LadoFlow: a verification library of the host

    LadoFlow turns a tablet into a second display. A host captures its virtual
    screen, encodes it and sends it to a display over USB or TCP in LDFL, a framed
    binary protocol; the display answers with input events and telemetry. This
    library models the Rust of the repository: the crates both sides share, the
    host's runtime and shell, and its Windows and macOS platform layers; and proves
    them correct. Paths below are under [src/]; [P], [C], [M] and [T] are the [src]
    directories of [crates/ladoflow-protocol], [ladoflow-core], [ladoflow-media] and
    [ladoflow-transport], [A] is [apps/desktop/src-tauri/src], and [W] is
    [A/platform/windows].

    ** The parts and how they interact

    Payloads (a hello, a capability list, a video frame, an input event) are
    encoded to bytes and wrapped in numbered frames. Frames travel as packets on
    one of two lanes, control and media, of a [PacketTransport]: the bounded
    in-memory link, or that link bridged to a TCP socket or to the bulk endpoints
    of a USB accessory, where the two lanes are merged into one byte stream in
    sequence order and separated again by the incremental frame decoder. Over a
    tethered network the socket is first authenticated by a pairing handshake;
    over USB the device is first switched to accessory mode. The host then
    exchanges introductions with the display, [negotiate] turns them into an
    agreement, a display mode is chosen, and a session state machine follows the
    connection through losses and reconnects.

    The runtime starts and stops one worker thread: a session over USB, one over
    the tethered network, or a preview over the in-memory link. A session asks the
    platform for a captured stream and for an input controller ([NativePlatform]).
    On Windows the stream comes from a capture thread, whose pipeline paces the
    captured frames, converts each with the video processor and encodes it with a
    hardware encoder; the controller injects the display's input; the virtual
    display is switched on and off by a controller program. The shell around the
    runtime serves the tray and the commands of the user interface and ends the
    process in order.

    ** Files

    - [Prelude], [RustInt], [Bytes], [RustTime], [RustText]: outcomes and their
      notation, tactics, machine integers, big-endian fields, slices, UTF-8,
      durations, text of numbers and addresses. [RustIo]: the monad of code that
      calls the outside.
    - [ProtoTypes], [ProtoFrame]: [P/error.rs], [P/frame.rs] and the payload
      trait of [P/message.rs]. [FrameDecoder.push] keeps the Rust method's
      buffer; [decode_loop] is its [while let].
    - [ProtoMessage], [ProtoDisplay], [ProtoInput], [ProtoControl],
      [ProtoTelemetry]: the payloads of [P/message.rs], [P/display.rs],
      [P/input.rs], [P/control.rs], [P/telemetry.rs].
    - [CoreNegotiation], [CoreSession], [CoreLatency], [CoreQuality]:
      [C/negotiation.rs], [C/session.rs], [C/telemetry.rs], [C/quality.rs].
    - [MediaMetadata], [MediaScheduler], [MediaSynthetic]: [M/metadata.rs],
      [M/scheduler.rs], [M/synthetic.rs].
    - [TransportPacket]: [T/packet.rs] and the trait of [T/transport.rs] as the
      class [PacketTransport] with its laws. [TransportLoopback]: [T/loopback.rs],
      which discharges the laws. [TransportStream]: [T/ldfl_stream.rs], proved
      against the laws only. [TransportTcp], [TransportTcpLink]: the worker and the
      handle of [T/tcp.rs].
    - [TransportToken], [TransportPairing]: [T/pairing.rs]. [TransportAoa]:
      [T/aoa.rs].
    - [HostMode], [HostHandshake]: [A/host_protocol.rs]. [HostTether]:
      [A/tether.rs]. [HostPlatform]: [A/platform/mod.rs], with the adapters of
      systems that have none of their own.
    - [HostState], [HostStream], [HostReconnect], [HostLoopback], [HostRuntime],
      [HostThreads], [HostTurns]: [A/runtime.rs], as the shared state, the session
      over one link, the workers that renew a session, the preview, [DesktopRuntime]
      with its methods run through one at a time, the same methods as steps of threads
      that run beside each other, and what is shown while they take turns.
      [HostShell]: [A/shell.rs], [A/commands.rs] and [A/lib.rs].
    - [WinDisplay]: monitors and the mode switch of [A/platform/windows.rs].
      [WinInput], [WinInputHeld]: [W/input_injector.rs]. [WinUsb], [WinUsbOpen],
      [WinUsbManager]: [W/usb_accessory.rs]. [WinVirtualDisplay],
      [WinVirtualFacts]: [W/virtual_display.rs]. [WinTether], [WinTetherFacts]:
      [W/tether_discovery.rs].
    - [WinH264], [WinEncoder], [WinEncoderFacts]: [W/media_foundation.rs].
      [WinVideo]: [W/video_processor.rs]. [WinCapture], [WinCaptureLive],
      [WinCaptureSetup]: [W/capture_stream.rs] and the capture part of
      [A/platform/windows.rs]; the first is the pipeline over observed answers, the
      second the same pipeline over the processor and the encoder, the third what
      surrounds it. [WinMediaKept], [WinCaptureEnds], [WinCaptureFeed],
      [WinCaptureFacts], [WinCaptureClean] prove their composition.
    - [WinSession]: the session of [HostStream] and the USB worker of
      [HostReconnect] with the Windows adapters in place of their classes.
    - [HostMac]: [A/platform/macos.rs].

    Each type of the sources is a module with a record or inductive type [t],
    and each method a definition of that module with the method's name. A method
    with [&mut self] returns the new state beside its result, on every path;
    [let?] is the early return of [?] that keeps the state reached so far. Code
    that calls the system is in the monad [io], with [let*].

    ** What the theorems show

    - Codecs: decoding accepts exactly the encodings of well-formed values and
      no input makes a decoder panic. The contract is the class
      [WirePayloadLaws]; frames carry any lawful payload.
    - Framing: the decoder refines a relational specification of the stream
      ([stream]), so every way of cutting a stream into chunks gives the same
      frames; its buffer stays bounded; errors are final.
    - Negotiation and session: the agreement is the best both advertisements
      allow; reachable sessions are consistent, move along the phase diagram,
      account for every sequence number and reconnect boundedly often with
      capped exponential delays.
    - Media: every frame that is given to the scheduler is handed on, reported to
      have been dropped or still waiting, and is counted as what became of it; the
      newest wins, dispatched frames are on time, timestamps do not drift and invert
      exactly.
    - Statistics and policy: windows hold the last samples, snapshots are the
      exact order statistics, recommendations stay within negotiated limits.
    - Transport: queues keep their byte and packet bounds and supersede exactly
      the obsolete packets; lanes are first-in first-out; a disconnect accounts
      for everything lost; the multiplexer restores sequence order when the
      frames are queued before it runs; what the TCP worker writes is always a
      prefix of the frames it took, what it delivers is the frames it read.
    - Pairing and accessory mode: tokens and records round-trip, the host accepts
      exactly the peers that hold the token and dials local addresses only, two
      honest roles on the two ends of one connection complete without waiting for each
      other, the accessory exchange makes exactly the documented requests.
    - Handshake: the chosen mode is the best of the ladder, the configuration lies
      within the agreement, the handshake completes exactly on one Hello and one
      Capabilities in either order, the driver sends its three frames in order
      and reads nothing else, and no wait outlives its deadline.
    - Runtime: what a session sends has consecutive sequence numbers, what it
      injects is fresh and of a kind whose bit both sides announced, a cancelled session
      ends, a worker that is gone leaves no live session, recovery stays within its
      window, the preview keeps its accounts. Whatever commands run beside each other,
      every worker has one owner, at most one works that no stop has taken, and no
      two commands wait for each other; commands that take turns refine a small
      lifecycle ([Life]), and what is shown is true inside them too.
    - Shell: the process ends only by the quit item of the menu, once, with the code
      that what has happened calls for, and in order; the ending thread gets there; the
      window is independent of the session; the virtual display is disabled only at rest.
    - Windows displays and input: of the structure Windows returned, the mode switch
      changes the size and the rate of the virtual display and nothing else, and only if
      it is asked to; the controller remembers exactly what Windows holds down, and
      dropping it releases everything.
    - Windows USB and tethering: opening touches devices in order and leaks none,
      the manager closes every device it opened, offered gateways are on USB, and
      the handles of the discovery are closed.
    - Windows virtual display: the controller's reports are parsed exactly, its
      process never outlives its limit, and a report of success is true.
    - Windows encoder and capture: encoders are opened, fed and closed in order;
      the contract of asynchronous transforms is kept; every output with bytes becomes
      a unit, handed over once and in order; the encoder is paced, and what a live
      capture gives it is, too; captured frames are closed; conversions are in order; the
      live pipeline refines the observed one, its parts fit and it ends; apartments, Media Foundation and capture sessions are undone in
      reverse order on every path; the worker answers in order.
    - Sessions on Windows, composed of the host's session, the input controller, the
      display and the USB manager: nothing stays pressed, and no USB device stays open,
      when a session is over, however it ended.
    - macOS: the probe counts every sample, a started capture is stopped, display
      identifiers round-trip.

    Modelling showed four places where the code does not do what it means to.
    [HostThreads.ThreadsExamples.overlapped_start_is_shown_stopped] and
    [overlapped_pairing_hides_a_session]: [stop] joins its worker and
    [pair_android_tether] dials without the lock of the worker slot, so a session that
    another thread starts meanwhile is shown as Stopped, or as an idle tether, while it
    is at work.
    [TransportTcp.TcpExamples.interleaved_sends_overtake]: the multiplexer can let a
    media frame overtake an earlier control frame when both are queued between its two
    polls. [HostLoopback.LoopbackPreviewExamples.stalled_preview_miscounts]: the queue
    depth of the preview can stay too high.
    [WinTetherFacts.TetherDiscoveryExamples.shared_endpoints_are_listed_twice]: an
    endpoint that two adapters report can be offered twice. Besides, a USB preparation
    that is cancelled leaves an existing session at work although the status says the
    link is ready.

    ** Conventions and bounds

    - An integer of width [w] is a [Z]; [chk] is an operator that panics on
      overflow, so [returns] includes the absence of overflow. [usize] has 64
      bits.
    - A panic is [Fault Panicked]. Fuel that runs out is [Fault OutOfFuel], and a
      theorem excludes it: [decode_loop] has one unit per buffered byte and one
      more, and each frame consumes a header; the synthetic payload loop has one
      per byte; the symbol loop of a token has one per pending bit; waits of the
      encoder, of a USB device and of the controller have one per poll until their
      timeout. Where the clock must advance for that, a law of the class says so,
      and a clock beyond [2^80] nanoseconds is excepted. Loops that wait for the
      outside run as long as their list of observations (random draws, socket
      answers, polls of the clock and the cancel flag).
    - A duration or an instant is a number of nanoseconds. A Rust string is its
      UTF-8 bytes, or a list of scalar values where the code goes through its
      characters; error texts are Rocq strings, as are paths and the strings the
      structures of Windows point to. Texts of errors of other crates are
      arguments.
    - HMAC-SHA-256, the random source, the socket and the clock are arguments. What
      one thread does under one lock is one step; other users of a shared link act
      between steps ([SharedEndpoint]). The methods of [DesktopRuntime] take and give up
      several locks; [HostThreads] has these steps in any order, [HostRuntime] a method
      run through. The shell calls the methods run through. A call of the Windows USB
      manager runs through as well, although it gives its locks up between its parts: the
      worker calls it from one thread, and the window makes one call at a time.
    - The calls of an operating system are the operations of a class ([DisplayOs],
      [InputOs], [UsbOs], [ControllerOs], [TetherOs], [MediaOs], [D3dOs],
      [CaptureOs], [MacOs]) on a world. A theorem that needs documented behaviour
      has it as a law of a further class, and an instance shows that it can hold.
      Statements about the order of calls are over an instance that records them,
      as automata that accept every recording. COM references are released
      implicitly when they are dropped; linked lists the system returns are lists.
    - A worker thread is its code run on what it has observed so far; a run that
      is out of observations goes on. The theorems on the lifecycle and on what is
      shown are for workers that do not panic. A thread of the shell advances a step at a time, between any
      other events.
    - The termination of the synchronous encoder's output loop rests on a law that
      bounds its backlog. A texture keeps the description it was made with
      ([D3dTextures]).

    ** Not modelled

    Tauri, the webview and the macros that register commands and serialize their
    answers are libraries. The unit tests, and [SyntheticH264Stream], which exists
    for them only, are left out, as are the [Debug] texts of values. Memory that
    Windows allocates and the code frees (the array of activations), and locks that
    a panic poisoned, which are taken all the same, are not distinguished. The Android
    application (Kotlin), the user interface (TypeScript) and the display driver
    (C++) are other languages. *)
From stdpp Require Export base tactics list strings.
From Stdlib Require Export ZArith Lia Sorting.Sorted.

(** ** Outcomes of fallible Rust code *)

(** How an execution can go wrong outside the code's own [Result]: a panic
    (index out of range, arithmetic overflow under overflow checks, [expect])
    or, for loops modelled with fuel, fuel exhaustion. *)
Inductive fault : Type :=
| Panicked
| OutOfFuel.

(** The value of a fallible computation: [Result::Ok], [Result::Err], or a
    fault of the execution. *)
Inductive outcome (E A : Type) : Type :=
| Ok (a : A)
| Err (e : E)
| Fault (f : fault).
Arguments Ok {E A} a.
Arguments Err {E A} e.
Arguments Fault {E A} f.

#[export] Instance fault_eq_dec : EqDecision fault.
Proof. solve_decision. Defined.
#[export] Instance outcome_eq_dec `{EqDecision E, EqDecision A} :
  EqDecision (outcome E A).
Proof. solve_decision. Defined.

(** [m?] followed by [k]: errors and faults propagate. *)
Definition obind {E A B} (m : outcome E A) (k : A -> outcome E B) : outcome E B :=
  match m with
  | Ok a => k a
  | Err e => Err e
  | Fault f => Fault f
  end.

(** [m?] inside a method with [&mut self]: the early return keeps state [s]. *)
Definition otry {S E A B} (s : S) (m : outcome E A) (k : A -> S * outcome E B)
  : S * outcome E B :=
  match m with
  | Ok a => k a
  | Err e => (s, Err e)
  | Fault f => (s, Fault f)
  end.

(** [Result::map_err]. *)
Definition map_err {E F A} (g : E -> F) (m : outcome E A) : outcome F A :=
  match m with
  | Ok a => Ok a
  | Err e => Err (g e)
  | Fault f => Fault f
  end.

(** [Option::ok_or]. *)
Definition ok_or {E A} (o : option A) (e : E) : outcome E A :=
  match o with
  | Some a => Ok a
  | None => Err e
  end.

(** [Option::expect] and [Option::unwrap]. *)
Definition expect {E A} (o : option A) : outcome E A :=
  match o with
  | Some a => Ok a
  | None => Fault Panicked
  end.

(** Code with no error of its own. *)
Abbreviation panics_or := (outcome Empty_set).

(** The tests of [debug_assert!] panic where they are compiled in. *)
Definition debug_assert {E} (b : bool) : outcome E unit :=
  if b then Ok tt else Fault Panicked.

Declare Scope rust_scope.
Delimit Scope rust_scope with rust.
Notation "'let!' x ':=' m 'in' k" := (obind m (fun x => k))
  (at level 10, x pattern, m at level 100, k at level 200,
   format "'[v' 'let!'  x  ':='  m  'in' '/' k ']'") : rust_scope.
Notation "'let?' x ':=' m 'keeping' s 'in' k" := (otry s m (fun x => k))
  (at level 10, x pattern, m at level 100, s at level 100, k at level 200,
   format "'[v' 'let?'  x  ':='  m  'keeping'  s  'in' '/' k ']'") : rust_scope.
#[global] Open Scope rust_scope.

(** The execution ended in the code's own [Ok] or [Err]. *)
Definition returns {E A} (m : outcome E A) : Prop :=
  match m with
  | Fault _ => False
  | _ => True
  end.

(** The execution ended in [Ok]. *)
Definition succeeds {E A} (m : outcome E A) : Prop := exists a, m = Ok a.

#[export] Instance returns_dec {E A} (m : outcome E A) : Decision (returns m).
Proof. destruct m; unfold returns; apply _. Defined.

(** ** Lemmas on outcomes *)
Section outcome_lemmas.
Context {S E F A B : Type}.

Lemma obind_ok_inv (m : outcome E A) (k : A -> outcome E B) b :
  obind m k = Ok b -> exists a, m = Ok a /\ k a = Ok b.
Proof. destruct m; simpl; naive_solver. Qed.

Lemma obind_ok (m : outcome E A) (k : A -> outcome E B) a :
  m = Ok a -> obind m k = k a.
Proof. by intros ->. Qed.

Lemma map_err_ok_inv (g : E -> F) (m : outcome E A) a :
  map_err g m = Ok a -> m = Ok a.
Proof. destruct m; simpl; naive_solver. Qed.

Lemma ok_or_ok_inv (o : option A) (e : E) a : ok_or o e = Ok a -> o = Some a.
Proof. destruct o; simpl; naive_solver. Qed.

Lemma otry_ok_inv (s s' : S) (m : outcome E A) (k : A -> S * outcome E B) b :
  otry s m k = (s', Ok b) -> exists a, m = Ok a /\ k a = (s', Ok b).
Proof. destruct m; simpl; naive_solver. Qed.

Lemma returns_obind (m : outcome E A) (k : A -> outcome E B) :
  returns m -> (forall a, m = Ok a -> returns (k a)) -> returns (obind m k).
Proof. destruct m; simpl; naive_solver. Qed.

Lemma returns_ok (a : A) : returns (@Ok E A a).
Proof. exact I. Qed.

Lemma returns_err (e : E) : returns (@Err E A e).
Proof. exact I. Qed.

Lemma returns_map_err (g : E -> F) (m : outcome E A) :
  returns m -> returns (map_err g m).
Proof. by destruct m. Qed.

Lemma returns_ok_or (o : option A) (e : E) : returns (ok_or o e).
Proof. by destruct o. Qed.

Lemma returns_if (b : bool) (m n : outcome E A) :
  (b = true -> returns m) -> (b = false -> returns n) ->
  returns (if b then m else n).
Proof. destruct b; auto. Qed.
End outcome_lemmas.

Create HintDb rust discriminated.
#[export] Hint Resolve returns_obind returns_ok returns_err returns_map_err
  returns_ok_or returns_if : rust.

(** ** Tactics of the development *)

(** Invert every hypothesis that states the success of a sequence. *)
Ltac inv_ok :=
  repeat match goal with
  | H : obind _ _ = Ok _ |- _ =>
      apply obind_ok_inv in H; destruct H as (? & ? & H)
  | H : otry _ _ _ = (_, Ok _) |- _ =>
      apply otry_ok_inv in H; destruct H as (? & ? & H)
  | H : map_err _ _ = Ok _ |- _ => apply map_err_ok_inv in H
  | H : ok_or _ _ = Ok _ |- _ => apply ok_or_ok_inv in H
  | H : Ok _ = Ok _ |- _ => injection H as H
  | H : Err _ = Ok _ |- _ => discriminate H
  | H : Fault _ = Ok _ |- _ => discriminate H
  | H : Ok _ = Err _ |- _ => discriminate H
  | H : Fault _ = Err _ |- _ => discriminate H
  | H : (if ?b then _ else _) = Ok _ |- _ =>
      let Hb := fresh "Hb" in destruct b eqn:Hb
  end.

(** Turn boolean tests on integers into propositions. *)
Ltac bool_to_Z :=
  repeat match goal with
  | H : (_ && _)%bool = true |- _ => apply andb_true_iff in H; destruct H
  | H : (_ && _)%bool = false |- _ => apply andb_false_iff in H
  | H : (_ || _)%bool = true |- _ => apply orb_true_iff in H
  | H : (_ || _)%bool = false |- _ => apply orb_false_iff in H; destruct H
  | H : negb _ = true |- _ => apply negb_true_iff in H
  | H : negb _ = false |- _ => apply negb_false_iff in H
  | H : Z.eqb _ _ = true |- _ => apply Z.eqb_eq in H
  | H : Z.eqb _ _ = false |- _ => apply Z.eqb_neq in H
  | H : Z.leb _ _ = true |- _ => apply Z.leb_le in H
  | H : Z.leb _ _ = false |- _ => apply Z.leb_gt in H
  | H : Z.ltb _ _ = true |- _ => apply Z.ltb_lt in H
  | H : Z.ltb _ _ = false |- _ => apply Z.ltb_ge in H
  | H : bool_decide _ = true |- _ => apply bool_decide_eq_true_1 in H
  | H : bool_decide _ = false |- _ => apply bool_decide_eq_false_1 in H
  end.

(** ** Lists *)
Abbreviation zlen l := (Z.of_nat (length l)).

(** A list of length at least [n] is [n] explicit elements and a rest. *)
Lemma list_split_at {A} (n : nat) (l : list A) :
  n <= length l -> exists a b, l = a ++ b /\ length a = n.
Proof.
  intros Hn. exists (take n l), (drop n l).
  rewrite take_drop, length_take. split; [done|lia].
Qed.

Lemma take_length_app {A} (a b : list A) n : length a = n -> take n (a ++ b) = a.
Proof. intros <-. by rewrite take_app_length. Qed.

Lemma drop_length_app {A} (a b : list A) n : length a = n -> drop n (a ++ b) = b.
Proof. intros <-. by rewrite drop_app_length. Qed.

(** Expose the elements of a list whose length is known. *)
Ltac explode_list l :=
  repeat match goal with
  | H : length l = S _ |- _ =>
      destruct l as [|? l]; [discriminate H|]; simpl in H; injection H as H
  | H : length l = 0 |- _ => destruct l; [clear H|discriminate H]
  end.

(** ** Sorting

    [slice::sort_by] keeps equal elements in their order; [le] is the test
    [cmp(a, b) != Greater]. *)
Section sorting.
Context {A : Type} (le : A -> A -> bool).

Fixpoint insert_by (x : A) (l : list A) : list A :=
  match l with
  | [] => [x]
  | y :: l' => if le x y then x :: l else y :: insert_by x l'
  end.
Definition sort_by (l : list A) : list A := foldr insert_by [] l.

Lemma insert_by_perm x l : insert_by x l ≡ₚ x :: l.
Proof.
  induction l as [|y l IH]; simpl; [done|]. case_match; [done|].
  rewrite IH. apply Permutation_swap.
Qed.

Lemma sort_by_perm l : sort_by l ≡ₚ l.
Proof. induction l as [|x l IH]; simpl; [done|]. by rewrite insert_by_perm, IH. Qed.

Lemma elem_of_sort_by x l : x ∈ sort_by l <-> x ∈ l.
Proof. by rewrite sort_by_perm. Qed.

Context (le_total : forall a b, le a b = false -> le b a = true)
        (le_trans : forall a b c, le a b = true -> le b c = true -> le a c = true).

Lemma insert_by_sorted x l :
  StronglySorted (fun a b => le a b = true) l ->
  StronglySorted (fun a b => le a b = true) (insert_by x l).
Proof.
  induction 1 as [|y l Hl IH Hy]; simpl; [by repeat constructor|]. destruct (le x y) eqn:Hxy.
  - constructor; [by constructor|]. constructor; [done|]. eapply Forall_impl; [exact Hy|]. eauto.
  - constructor; [exact IH|]. rewrite insert_by_perm. constructor; auto.
Qed.

Lemma sort_by_sorted l : StronglySorted (fun a b => le a b = true) (sort_by l).
Proof. induction l; [constructor|]. by apply insert_by_sorted. Qed.
End sorting.

Lemma sublist_sorted {A} (R : A -> A -> Prop) l k :
  l `sublist_of` k -> StronglySorted R k -> StronglySorted R l.
Proof.
  induction 1 as [|x l k Hs IH|x l k Hs IH]; intros Hk; [done|..];
    apply StronglySorted_inv in Hk as [Hk Hx]; [|auto].
  constructor; [auto|]. rewrite Forall_forall in *. intros y Hy. apply Hx.
  by eapply elem_of_submseteq; [|apply sublist_submseteq].
Qed.

(** [slice::dedup]: one of each run of equal elements stays. *)
Fixpoint dedup {A} `{EqDecision A} (l : list A) : list A :=
  match l with
  | [] => []
  | a :: r =>
    match r with
    | [] => [a]
    | b :: _ => if decide (a = b) then dedup r else a :: dedup r
    end
  end.

Lemma elem_of_dedup {A} `{EqDecision A} (x : A) l : x ∈ dedup l <-> x ∈ l.
Proof.
  induction l as [|a [|b r] IH]; [done|done|].
  change (dedup (a :: b :: r)) with (if decide (a = b) then dedup (b :: r) else a :: dedup (b :: r)).
  revert IH. generalize (dedup (b :: r)) as d. intros d IH. rewrite (elem_of_cons (b :: r)), <-IH.
  case_decide as Hab; [subst|rewrite elem_of_cons]; [|done].
  split; [by right|]. intros [->|Hx]; [|done]. apply IH. by left.
Qed.
