(* ===== verification/RustInt.v ===== *)
(** * Machine integers of the Rust sources

    An integer of width [w] is a [Z] with the range predicate [in_u w]
    (unsigned) or [in_i w] (signed). [chk] is the plain operator [+], [-], [*]
    or a narrowing [expect]: it panics out of range, so a theorem that a
    function [returns] also says that no operator of it wraps in a build
    without overflow checks. The [checked_], [saturating_] and [wrapping_]
    methods of the standard library have their own functions. [usize] is 64
    bits wide, the width of every supported host. *)
From S2P Require Export Prelude.
Local Open Scope Z_scope.

Definition usize_bits : Z := 64.

Definition in_u (w x : Z) : Prop := 0 <= x < 2 ^ w.
Definition in_i (w x : Z) : Prop := - 2 ^ (w - 1) <= x < 2 ^ (w - 1).

#[export] Instance in_u_dec w x : Decision (in_u w x).
Proof. unfold in_u; apply _. Defined.
#[export] Instance in_i_dec w x : Decision (in_i w x).
Proof. unfold in_i; apply _. Defined.

(** [u<w>::MAX]. *)
Definition u_max (w : Z) : Z := 2 ^ w - 1.

(** The mathematical result of an operator, checked against the width. *)
Definition chk {E} (w x : Z) : outcome E Z :=
  if (0 <=? x) && (x <? 2 ^ w) then Ok x else Fault Panicked.

(** [checked_add], [checked_sub], [try_from]: the result, or [None]. *)
Definition checked (w x : Z) : option Z :=
  if (0 <=? x) && (x <? 2 ^ w) then Some x else None.

Definition saturating_add (w a b : Z) : Z := Z.min (a + b) (u_max w).
Definition saturating_mul (w a b : Z) : Z := Z.min (a * b) (u_max w).
Definition saturating_sub (a b : Z) : Z := Z.max (a - b) 0.
Definition wrapping (w x : Z) : Z := x mod 2 ^ w.
Definition abs_diff (a b : Z) : Z := Z.abs (a - b).
Definition clamp (x lo hi : Z) : Z := if x <? lo then lo else if x >? hi then hi else x.

(** [rotate_left] on a [w]-bit word, for a rotation below [w]. *)
Definition rotate_left (w x k : Z) : Z :=
  Z.lor (wrapping w (Z.shiftl x k)) (Z.shiftr x (w - k)).

(** [checked_shl(1, k)] on a [w]-bit word: [None] when [k] is at least the
    width, as in the standard library. *)
Definition checked_shl (w x k : Z) : option Z :=
  if k <? w then Some (wrapping w (Z.shiftl x k)) else None.

(** Signed operators. *)
Definition chk_i {E} (w x : Z) : outcome E Z := if bool_decide (in_i w x) then Ok x else Fault Panicked.
Definition checked_i (w x : Z) : option Z := if bool_decide (in_i w x) then Some x else None.
Definition saturating_i (w x : Z) : Z := Z.max (- 2 ^ (w - 1)) (Z.min x (2 ^ (w - 1) - 1)).
(** Division truncates and panics on zero. *)
Definition div_i {E} (a b : Z) : outcome E Z := if b =? 0 then Fault Panicked else Ok (Z.quot a b).

(** The [div_ceil] method. *)
Definition div_ceil (a b : Z) : Z := (a + b - 1) / b.

Ltac unfold_int :=
  unfold saturating_add, saturating_mul, saturating_sub, abs_diff in *;
  unfold in_u, in_i, u_max, usize_bits in *.

Section int_lemmas.
Context {E : Type}.

Lemma chk_ok w x : in_u w x -> chk (E:=E) w x = Ok x.
Proof.
  intros [H1 H2]. unfold chk. apply Z.leb_le in H1. apply Z.ltb_lt in H2.
  by rewrite H1, H2.
Qed.

Lemma chk_ok_inv w x y : chk (E:=E) w x = Ok y -> y = x /\ in_u w x.
Proof.
  unfold chk. destruct ((0 <=? x) && (x <? 2 ^ w)) eqn:Hb; [|done].
  intros [= <-]. bool_to_Z. done.
Qed.

Lemma returns_chk w x : in_u w x -> returns (chk (E:=E) w x).
Proof. intros H. by rewrite chk_ok. Qed.

Lemma checked_Some w x y : checked w x = Some y <-> y = x /\ in_u w x.
Proof.
  unfold checked, in_u. destruct ((0 <=? x) && (x <? 2 ^ w)) eqn:Hb.
  - bool_to_Z. naive_solver.
  - split; [done|]. intros [-> [H1 H2]]. apply Z.leb_le in H1. apply Z.ltb_lt in H2.
    by rewrite H1, H2 in Hb.
Qed.

Lemma checked_in w x : in_u w x -> checked w x = Some x.
Proof. intros H. by apply checked_Some. Qed.

Lemma checked_None w x : checked w x = None <-> ~ in_u w x.
Proof.
  split.
  - intros H Hin. by rewrite checked_in in H.
  - intros H. destruct (checked w x) eqn:Hc; [|done].
    apply checked_Some in Hc. naive_solver.
Qed.

Lemma saturating_add_in w a b :
  0 < w -> in_u w a -> 0 <= b -> in_u w (saturating_add w a b).
Proof. unfold_int. lia. Qed.

Lemma saturating_add_exact w a b :
  a + b < 2 ^ w -> saturating_add w a b = a + b.
Proof. unfold_int. lia. Qed.

Lemma saturating_sub_le a b : b <= a -> saturating_sub a b = a - b.
Proof. unfold_int. lia. Qed.

Lemma wrapping_in w x : 0 <= w -> in_u w (wrapping w x).
Proof. intros. apply Z.mod_pos_bound. lia. Qed.

Lemma wrapping_small w x : in_u w x -> wrapping w x = x.
Proof. apply Z.mod_small. Qed.

Lemma clamp_bounds x lo hi : lo <= hi -> lo <= clamp x lo hi <= hi.
Proof.
  intros. unfold clamp. destruct (x <? lo) eqn:?; [lia|].
  rewrite Z.gtb_ltb. destruct (hi <? x) eqn:?; bool_to_Z; lia.
Qed.
End int_lemmas.

#[export] Hint Resolve returns_chk : rust.

(** ** Bit masks

    The flag types of the protocol test [bits & !MASK == 0] and
    [self & other == other]. [lnot] at width [w] is [2^w - 1 - x]. *)
Definition bit_not (w x : Z) : Z := u_max w - x.


(** [bits & !(2^n - 1) == 0] holds exactly below [2^n]. *)
Lemma land_bit_not_ones w n x :
  0 <= n <= w -> in_u w x ->
  Z.land x (bit_not w (Z.ones n)) = Z.shiftl (x / 2 ^ n) n.
Proof.
  intros Hn Hx. unfold in_u in Hx.
  assert (Hsplit : bit_not w (Z.ones n) = Z.shiftl (Z.ones (w - n)) n).
  { unfold bit_not, u_max. rewrite Z.shiftl_mul_pow2, !Z.ones_equiv by lia.
    rewrite Z.mul_pred_l, <- Z.pow_add_r by lia.
    replace (w - n + n) with w by lia. lia. }
  rewrite Hsplit. apply Z.bits_inj'. intros i Hi.
  rewrite Z.land_spec. destruct (decide (i < n)) as [Hlt|Hge].
  - rewrite !Z.shiftl_spec_low by done. apply andb_false_r.
  - rewrite !Z.shiftl_spec by lia.
    rewrite Z.testbit_ones_nonneg, <- Z.shiftr_div_pow2, Z.shiftr_spec by lia.
    replace (i - n + n) with i by lia.
    destruct (Z.ltb_spec (i - n) (w - n)); [apply andb_true_r|].
    rewrite andb_false_r. symmetry.
    destruct (decide (x = 0)) as [->|Hx0]; [apply Z.bits_0|].
    apply Z.bits_above_log2; [lia|].
    apply Z.log2_lt_pow2; [lia|].
    apply Z.lt_le_trans with (2 ^ w); [lia|]. apply Z.pow_le_mono_r; lia.
Qed.

Lemma mask_unknown_zero w n x :
  0 <= n <= w -> in_u w x ->
  (Z.land x (bit_not w (Z.ones n)) =? 0) = (x <? 2 ^ n).
Proof.
  intros Hn Hx. rewrite land_bit_not_ones by done.
  pose proof (Z.pow_pos_nonneg 2 n). unfold in_u in Hx.
  rewrite Z.shiftl_mul_pow2 by lia.
  destruct (Z.ltb_spec x (2 ^ n)).
  - rewrite Z.div_small by lia. apply Z.eqb_refl.
  - apply Z.eqb_neq. pose proof (Z.div_le_lower_bound x (2 ^ n) 1). nia.
Qed.

(** The shape of every [from_bits]: the mask of the [n] known flags is tested
    against a [w]-bit value. *)
Lemma from_bits_iff {E T} (w n mask b : Z) (mk : Z -> T) (e : E) (f : T) :
  mask = Z.ones n -> 0 <= n <= w -> in_u w b ->
  (if Z.land b (bit_not w mask) =? 0 then Ok (mk b) else Err e) = Ok f <->
  f = mk b /\ 0 <= b < 2 ^ n.
Proof.
  intros -> Hn Hb. rewrite mask_unknown_zero by done. unfold in_u in Hb.
  destruct (Z.ltb_spec b (2 ^ n)); split.
  - intros [= <-]. split; [done|lia].
  - by intros [-> _].
  - done.
  - lia.
Qed.

(** [self & other == other]: every bit of [other] is set in [self]. *)
Lemma land_contains a b :
  Z.land a b = b <-> forall i, 0 <= i -> Z.testbit b i = true -> Z.testbit a i = true.
Proof.
  split.
  - intros H i Hi Hb. rewrite <- H, Z.land_spec in Hb. by apply andb_true_iff in Hb as [-> _].
  - intros H. apply Z.bits_inj'. intros i Hi. rewrite Z.land_spec.
    destruct (Z.testbit b i) eqn:Hb; [|apply andb_false_r].
    by rewrite (H i Hi Hb).
Qed.

Lemma land_below n a b : 0 <= n -> 0 <= a < 2 ^ n -> 0 <= b -> 0 <= Z.land a b < 2 ^ n.
Proof.
  intros Hn Ha Hb. split; [apply Z.land_nonneg; lia|].
  destruct (decide (Z.land a b = 0)) as [->|H0]; [lia|].
  apply Z.log2_lt_pow2; [pose proof (Z.land_nonneg a b); lia|].
  pose proof (Z.log2_land a b ltac:(lia) Hb).
  destruct (decide (a = 0)) as [->|]; [by rewrite Z.land_0_l in H0|].
  assert (Z.log2 a < n) by (apply Z.log2_lt_pow2; lia). lia.
Qed.

Lemma lor_below n a b : 0 <= n -> 0 <= a < 2 ^ n -> 0 <= b < 2 ^ n -> 0 <= Z.lor a b < 2 ^ n.
Proof.
  intros Hn Ha Hb.
  replace (Z.lor a b) with (Z.lor a b mod 2 ^ n); [apply Z.mod_pos_bound; lia|].
  by rewrite <- Z.land_ones, Z.land_lor_distr_l, !Z.land_ones, !Z.mod_small by lia.
Qed.
