(* ===== verification/Bytes.v ===== *)
(** * Bytes, big-endian fields and UTF-8

    A byte is the Standard Library's [byte], so every byte string is a legal
    input and no range condition is needed. Slice indexing panics out of
    range. A Rust [String] or [&str] is its UTF-8 bytes. *)
From Stdlib Require Export Strings.Byte.
From Stdlib Require Strings.String.
From S2P Require Export RustInt.
Local Open Scope Z_scope.

#[export] Instance byte_eq_dec : EqDecision byte := Byte.byte_eq_dec.

Definition byte_to_Z (b : byte) : Z := Z.of_N (Byte.to_N b).

Definition byte_of_Z (z : Z) : byte :=
  match Byte.of_N (Z.to_N (z mod 256)) with
  | Some b => b
  | None => x00
  end.

Lemma byte_to_Z_range b : 0 <= byte_to_Z b < 256.
Proof. unfold byte_to_Z. pose proof (Byte.to_N_bounded b). lia. Qed.

Lemma byte_of_to_Z b : byte_of_Z (byte_to_Z b) = b.
Proof.
  unfold byte_of_Z. rewrite Z.mod_small by apply byte_to_Z_range.
  unfold byte_to_Z. by rewrite N2Z.id, Byte.of_to_N.
Qed.

Lemma byte_to_of_Z z : byte_to_Z (byte_of_Z z) = z mod 256.
Proof.
  unfold byte_of_Z. pose proof (Z.mod_pos_bound z 256 ltac:(lia)).
  destruct (Byte.of_N (Z.to_N (z mod 256))) as [b|] eqn:Hb.
  - apply Byte.to_of_N in Hb. unfold byte_to_Z. lia.
  - apply Byte.of_N_None_iff in Hb. lia.
Qed.

Lemma byte_to_Z_inj a b : byte_to_Z a = byte_to_Z b -> a = b.
Proof. intros H. by rewrite <- (byte_of_to_Z a), H, byte_of_to_Z. Qed.

(** ** Big-endian integers *)

(** [to_be_bytes] of an [n]-byte integer. *)
Fixpoint be_bytes (n : nat) (x : Z) : list byte :=
  match n with
  | O => []
  | S m => byte_of_Z (x / 256 ^ Z.of_nat m) :: be_bytes m x
  end.

(** [from_be_bytes]. *)
Fixpoint be_value (l : list byte) : Z :=
  match l with
  | [] => 0
  | b :: t => byte_to_Z b * 256 ^ Z.of_nat (length t) + be_value t
  end.

Lemma length_be_bytes n x : length (be_bytes n x) = n.
Proof. induction n; simpl; auto. Qed.

Lemma be_value_range l : 0 <= be_value l < 256 ^ zlen l.
Proof.
  induction l as [|b l IH]; [simpl; lia|].
  cbn [be_value length]. pose proof (byte_to_Z_range b).
  rewrite Nat2Z.inj_succ, Z.pow_succ_r by lia. nia.
Qed.

Lemma be_value_be_bytes_mod n x : be_value (be_bytes n x) = x mod 256 ^ Z.of_nat n.
Proof.
  induction n as [|n IH]; [simpl; by rewrite Z.mod_1_r|].
  cbn [be_value be_bytes]. rewrite IH, length_be_bytes, byte_to_of_Z.
  rewrite Nat2Z.inj_succ, Z.pow_succ_r by lia.
  rewrite (Z.mul_comm 256), Z.rem_mul_r by (pose proof (Z.pow_pos_nonneg 256 (Z.of_nat n)); lia).
  lia.
Qed.

Lemma be_value_be_bytes n x :
  0 <= x < 256 ^ Z.of_nat n -> be_value (be_bytes n x) = x.
Proof. intros H. rewrite be_value_be_bytes_mod. by apply Z.mod_small. Qed.

Lemma be_bytes_add n x y :
  be_bytes n (y * 256 ^ Z.of_nat n + x) = be_bytes n x.
Proof.
  revert x y. induction n as [|n IH]; intros x y; [done|].
  cbn [be_bytes]. pose proof (Z.pow_pos_nonneg 256 (Z.of_nat n)).
  rewrite Nat2Z.inj_succ, Z.pow_succ_r by lia. f_equal.
  - apply byte_to_Z_inj. rewrite !byte_to_of_Z.
    replace (y * (256 * 256 ^ Z.of_nat n) + x)
      with (x + (y * 256) * 256 ^ Z.of_nat n) by ring.
    rewrite Z.div_add by lia. by rewrite Z.mod_add by lia.
  - replace (y * (256 * 256 ^ Z.of_nat n) + x)
      with ((y * 256) * 256 ^ Z.of_nat n + x) by ring. apply IH.
Qed.

Lemma be_bytes_be_value l : be_bytes (length l) (be_value l) = l.
Proof.
  induction l as [|b l IH]; [done|].
  cbn [be_bytes be_value length]. rewrite be_bytes_add, IH. f_equal.
  pose proof (be_value_range l). pose proof (Z.pow_pos_nonneg 256 (zlen l)).
  rewrite Z.add_comm, Z.div_add by lia. rewrite Z.div_small by lia.
  apply byte_of_to_Z.
Qed.

Lemma be_bytes_inj n x y :
  0 <= x < 256 ^ Z.of_nat n -> 0 <= y < 256 ^ Z.of_nat n ->
  be_bytes n x = be_bytes n y -> x = y.
Proof.
  intros Hx Hy H. apply (f_equal be_value) in H.
  by rewrite !be_value_be_bytes in H.
Qed.

#[global] Opaque be_bytes be_value.

(** Compute the length of a byte string built from fields and literals. *)
Ltac measure_bytes :=
  repeat first [rewrite length_app | rewrite length_be_bytes | progress cbn [length]].

(** Every in-range integer is the value of its bytes: the form in which the
    codec proofs meet both directions. *)
Lemma be_field n w x :
  in_u w x -> w = 8 * Z.of_nat n ->
  exists l, length l = n /\ x = be_value l.
Proof.
  intros H ->. exists (be_bytes n x). rewrite length_be_bytes. split; [done|].
  rewrite be_value_be_bytes; [done|]. unfold in_u in H.
  replace 256 with (2 ^ 8) by done. by rewrite <- Z.pow_mul_r by lia.
Qed.

(** Replace the in-range integer [x] of [n] bytes by its bytes. *)
Ltac open_field n w x :=
  let l := fresh "l" in let Hl := fresh "Hl" in
  destruct (be_field n w x) as (l & Hl & ->);
  [first [assumption | unfold in_u in *; simpl in *; lia] | reflexivity | explode_list l].

Lemma be_value_in_u w l : w = 8 * zlen l -> in_u w (be_value l).
Proof.
  intros ->. unfold in_u. rewrite Z.pow_mul_r by lia. apply be_value_range.
Qed.

Lemma be_bytes_value_2 a b : be_bytes 2 (be_value [a; b]) = [a; b].
Proof. apply (be_bytes_be_value [a; b]). Qed.
Lemma be_bytes_value_4 a b c d : be_bytes 4 (be_value [a; b; c; d]) = [a; b; c; d].
Proof. apply (be_bytes_be_value [a; b; c; d]). Qed.
Lemma be_bytes_value_8 a b c d e f g h :
  be_bytes 8 (be_value [a; b; c; d; e; f; g; h]) = [a; b; c; d; e; f; g; h].
Proof. apply (be_bytes_be_value [a; b; c; d; e; f; g; h]). Qed.
Create Rewrite HintDb bytes.
#[export] Hint Rewrite be_bytes_value_2 be_bytes_value_4 be_bytes_value_8
  byte_of_to_Z : bytes.

(** [i16::to_be_bytes] and [i16::from_be_bytes]: two's complement. *)
Definition i16_to_be (x : Z) : list byte := be_bytes 2 (x mod 2 ^ 16).
Definition i16_from_be (l : list byte) : Z :=
  let v := be_value l in if v <? 2 ^ 15 then v else v - 2 ^ 16.

Lemma i16_from_be_range a b : in_i 16 (i16_from_be [a; b]).
Proof.
  pose proof (be_value_range [a; b]) as H. simpl length in H.
  unfold i16_from_be, in_i. simpl Z.sub.
  destruct (Z.ltb_spec (be_value [a; b]) (2 ^ 15)); lia.
Qed.

Lemma i16_to_from_be a b : i16_to_be (i16_from_be [a; b]) = [a; b].
Proof.
  pose proof (be_value_range [a; b]) as H. simpl length in H.
  unfold i16_from_be, i16_to_be.
  assert (Hm : (if be_value [a; b] <? 2 ^ 15 then be_value [a; b]
          else be_value [a; b] - 2 ^ 16) mod 2 ^ 16 = be_value [a; b]).
  { destruct (Z.ltb_spec (be_value [a; b]) (2 ^ 15)).
    - apply Z.mod_small. lia.
    - rewrite <- (Z.mod_add _ 1) by lia.
      rewrite Z.mod_small by lia. lia. }
  rewrite Hm. apply be_bytes_value_2.
Qed.
#[export] Hint Rewrite i16_to_from_be : bytes.

Lemma i16_field x :
  in_i 16 x -> exists a b, x = i16_from_be [a; b].
Proof.
  intros Hx. unfold in_i in Hx. simpl Z.sub in Hx.
  destruct (be_field 2 16 (x mod 2 ^ 16)) as (l & Hl & Hv); [|done|].
  { apply Z.mod_pos_bound. lia. }
  explode_list l. exists b, b0. unfold i16_from_be. rewrite <- Hv.
  destruct (decide (0 <= x)).
  - rewrite Z.mod_small by lia. destruct (Z.ltb_spec x (2 ^ 15)); lia.
  - rewrite <- (Z.mod_add _ 1) by lia. rewrite Z.mod_small by lia.
    destruct (Z.ltb_spec (x + 1 * 2 ^ 16) (2 ^ 15)); lia.
Qed.

(** ** Slices *)

(** [bytes[i]]: panics out of range. *)
Definition index {E} (l : list byte) (i : nat) : outcome E byte :=
  match l !! i with
  | Some b => Ok b
  | None => Fault Panicked
  end.

(** [bytes[a..b]]: panics unless [a <= b <= len]. *)
Definition slice {E} (l : list byte) (a b : nat) : outcome E (list byte) :=
  if (a <=? b)%nat && (b <=? length l)%nat then Ok (take (b - a) (drop a l))
  else Fault Panicked.

(** [bytes[a..]]. *)
Definition slice_from {E} (l : list byte) (a : nat) : outcome E (list byte) :=
  slice l a (length l).

(** The helpers [read_u16], [read_u32] and [read_u64] that every codec file of
    the protocol crate repeats. *)
Definition read_u16 {E} (l : list byte) (o : nat) : outcome E Z :=
  let! a := index l o in let! b := index l (o + 1) in
  Ok (be_value [a; b]).

Definition read_i16 {E} (l : list byte) (o : nat) : outcome E Z :=
  let! a := index l o in let! b := index l (o + 1) in
  Ok (i16_from_be [a; b]).

Definition read_u32 {E} (l : list byte) (o : nat) : outcome E Z :=
  let! a := index l o in let! b := index l (o + 1) in
  let! c := index l (o + 2) in let! d := index l (o + 3) in
  Ok (be_value [a; b; c; d]).

Definition read_u64 {E} (l : list byte) (o : nat) : outcome E Z :=
  let! a := index l o in let! b := index l (o + 1) in
  let! c := index l (o + 2) in let! d := index l (o + 3) in
  let! e := index l (o + 4) in let! f := index l (o + 5) in
  let! g := index l (o + 6) in let! h := index l (o + 7) in
  Ok (be_value [a; b; c; d; e; f; g; h]).

Lemma slice_ok {E} l a b :
  (a <= b <= length l)%nat -> slice (E:=E) l a b = Ok (take (b - a) (drop a l)).
Proof.
  intros [H1 H2]. unfold slice. apply Nat.leb_le in H1, H2. by rewrite H1, H2.
Qed.

Lemma returns_slice {E} l a b : (a <= b <= length l)%nat -> returns (slice (E:=E) l a b).
Proof. intros H. by rewrite slice_ok. Qed.

Lemma index_ok {E} l i : (i < length l)%nat -> exists b, index (E:=E) l i = Ok b.
Proof.
  intros H. unfold index. destruct (lookup_lt_is_Some_2 l i H) as [b ->]. by exists b.
Qed.

Lemma returns_index {E} l i : (i < length l)%nat -> returns (index (E:=E) l i).
Proof. intros H. by destruct (index_ok (E:=E) l i H) as [b ->]. Qed.

Lemma returns_read_u16 {E} l o : (o + 2 <= length l)%nat -> returns (read_u16 (E:=E) l o).
Proof. intros. unfold read_u16. repeat (apply returns_obind; [apply returns_index; lia|intros]). done. Qed.
Lemma returns_read_i16 {E} l o : (o + 2 <= length l)%nat -> returns (read_i16 (E:=E) l o).
Proof. intros. unfold read_i16. repeat (apply returns_obind; [apply returns_index; lia|intros]). done. Qed.
Lemma returns_read_u32 {E} l o : (o + 4 <= length l)%nat -> returns (read_u32 (E:=E) l o).
Proof. intros. unfold read_u32. repeat (apply returns_obind; [apply returns_index; lia|intros]). done. Qed.
Lemma returns_read_u64 {E} l o : (o + 8 <= length l)%nat -> returns (read_u64 (E:=E) l o).
Proof. intros. unfold read_u64. repeat (apply returns_obind; [apply returns_index; lia|intros]). done. Qed.

(** Prove that a computation returns: every index is in range by [lia], every
    branch is taken in turn, and the rest is in the hint database. *)
Ltac solve_returns :=
  repeat first
    [ exact I
    | apply returns_index; lia
    | apply returns_read_u16; lia
    | apply returns_read_i16; lia
    | apply returns_read_u32; lia
    | apply returns_read_u64; lia
    | apply returns_slice; lia
    | progress intros
    | match goal with
      | |- returns (obind _ _) => apply returns_obind
      | |- returns (map_err _ _) => apply returns_map_err
      | |- returns (ok_or _ _) => apply returns_ok_or
      | |- returns (if ?b then _ else _) => destruct b eqn:?
      | |- returns (match ?x with _ => _ end) => destruct x eqn:?
      end
    | solve [eauto with rust] ].

(** ** UTF-8 *)

Definition byte_in (b : byte) (lo hi : Z) : bool :=
  (lo <=? byte_to_Z b) && (byte_to_Z b <=? hi).
Definition continuation (b : byte) : bool := byte_in b 0x80 0xBF.

(** Second bytes allowed after the first byte of a three-byte sequence:
    no overlong form and no surrogate. *)
Definition second_of_three (b0 b1 : byte) : bool :=
  if byte_in b0 0xE0 0xE0 then byte_in b1 0xA0 0xBF
  else if byte_in b0 0xED 0xED then byte_in b1 0x80 0x9F
  else byte_in b0 0xE1 0xEF && continuation b1.

Definition second_of_four (b0 b1 : byte) : bool :=
  if byte_in b0 0xF0 0xF0 then byte_in b1 0x90 0xBF
  else if byte_in b0 0xF4 0xF4 then byte_in b1 0x80 0x8F
  else byte_in b0 0xF1 0xF3 && continuation b1.

(** What [String::from_utf8] accepts. *)
Fixpoint utf8_valid (l : list byte) : bool :=
  match l with
  | [] => true
  | b0 :: l0 =>
    if byte_in b0 0 0x7F then utf8_valid l0
    else match l0 with
    | [] => false
    | b1 :: l1 =>
      if byte_in b0 0xC2 0xDF then continuation b1 && utf8_valid l1
      else match l1 with
      | [] => false
      | b2 :: l2 =>
        if byte_in b0 0xE0 0xEF then
          second_of_three b0 b1 && continuation b2 && utf8_valid l2
        else match l2 with
        | [] => false
        | b3 :: l3 =>
          second_of_four b0 b1 && continuation b2 && continuation b3 && utf8_valid l3
        end
      end
    end
  end.

(** The UTF-8 bytes of one scalar value, as [char::encode_utf8]. *)
Definition utf8_encode (c : Z) : list byte :=
  let tail n := byte_of_Z (0x80 + (c / 64 ^ n) mod 64) in
  if c <? 0x80 then [byte_of_Z c]
  else if c <? 0x800 then [byte_of_Z (0xC0 + c / 64); tail 0]
  else if c <? 0x10000 then [byte_of_Z (0xE0 + c / 64 ^ 2); tail 1; tail 0]
  else [byte_of_Z (0xF0 + c / 64 ^ 3); tail 2; tail 1; tail 0].

(** The bytes of an ASCII string literal of the sources. *)
Definition str (s : string) : list byte := String.list_byte_of_string s.
(** The text of a diagnostic carried by a message. *)
Definition text (l : list byte) : string := String.string_of_list_byte l.

(** [str::contains('\0')]: in UTF-8 the byte zero only encodes the null character. *)
Definition contains_nul (l : list byte) : bool := existsb (fun b => bool_decide (b = x00)) l.
