(* ===== verification/ProtoTypes.v ===== *)
(** * Message families, frame flags, protocol errors and the payload interface

    Models [error.rs], the identifiers of [frame.rs] and the [WirePayload]
    trait of [message.rs] in [crates/ladoflow-protocol]. The class
    [WirePayloadLaws] is what every payload type promises to the framing
    layer; the payload files discharge it. *)
From stdpp Require Import pretty.
From S2P Require Export Bytes.
Local Open Scope string_scope.
Local Open Scope list_scope.
Local Open Scope Z_scope.

Definition PROTOCOL_VERSION : Z := 1.
Definition FRAME_HEADER_LEN : Z := 24.
Definition MAX_CONTROL_PAYLOAD : Z := 64 * 1024.
Definition MAX_MEDIA_PAYLOAD : Z := 16 * 1024 * 1024.
Definition MAX_BUFFERED_BYTES : Z := 2 * (FRAME_HEADER_LEN + MAX_MEDIA_PAYLOAD).
Definition FRAME_MAGIC : list byte := str "LDFL".

Module MessageType.
Inductive t : Type :=
| Hello
| Capabilities
| DisplayConfig
| VideoFrame
| Input
| Telemetry
| Ping
| Pong
| Error.

#[global] Instance t_eq_dec : EqDecision t.
Proof. solve_decision. Defined.

Definition payload_limit (k : t) : Z :=
  match k with
  | VideoFrame => MAX_MEDIA_PAYLOAD
  | Hello | Capabilities | DisplayConfig | Input | Telemetry | Ping | Pong | Error =>
      MAX_CONTROL_PAYLOAD
  end.

(** The discriminant, [kind as u16]. *)
Definition to_u16 (k : t) : Z :=
  match k with
  | Hello => 1
  | Capabilities => 2
  | DisplayConfig => 3
  | VideoFrame => 4
  | Input => 5
  | Telemetry => 6
  | Ping => 7
  | Pong => 8
  | Error => 9
  end.

(** The derived [Debug]. *)
Definition debug (k : t) : string :=
  match k with
  | Hello => "Hello"
  | Capabilities => "Capabilities"
  | DisplayConfig => "DisplayConfig"
  | VideoFrame => "VideoFrame"
  | Input => "Input"
  | Telemetry => "Telemetry"
  | Ping => "Ping"
  | Pong => "Pong"
  | Error => "Error"
  end.
End MessageType.

(** ** Formatting used by [Display] *)
Module Fmt.
Definition hex_digit (d : Z) : string :=
  match String.get (Z.to_nat d) "0123456789abcdef" with
  | Some c => String c EmptyString
  | None => EmptyString
  end.

(** [n] lower-case hexadecimal digits. *)
Fixpoint hex (n : nat) (x : Z) : string :=
  match n with
  | O => EmptyString
  | S m => hex_digit ((x / 16 ^ Z.of_nat m) mod 16) +:+ hex m x
  end.

(** The [{:02x?}] of a byte array. *)
Definition hex_bytes (l : list byte) : string :=
  "[" +:+ String.concat ", " (map (fun b => hex 2 (byte_to_Z b)) l) +:+ "]".
End Fmt.

Module ProtocolError.
Inductive t : Type :=
| InvalidMagic (found : list byte)
| InvalidHeaderLength (found : Z)
| UnsupportedVersion (found supported : Z)
| UnknownMessageType (value : Z)
| UnknownFrameFlags (bits : Z)
| PayloadTooLarge (kind : MessageType.t) (length limit : Z)
| PayloadLengthMismatch (declared actual : Z)
| BufferLimitExceeded (attempted limit : Z)
| UnexpectedMessageType (expected actual : MessageType.t)
| InvalidPayload (reason : string)
| InvalidUtf8.

#[global] Instance t_eq_dec : EqDecision t.
Proof. solve_decision. Defined.

(** [impl fmt::Display]. *)
Definition to_string (e : t) : string :=
  match e with
  | InvalidMagic found => "invalid frame magic: " +:+ Fmt.hex_bytes found
  | InvalidHeaderLength found => "invalid frame header length: " +:+ pretty found
  | UnsupportedVersion found supported =>
      "unsupported protocol version " +:+ pretty found +:+
      "; supported version is " +:+ pretty supported
  | UnknownMessageType value => "unknown message type: " +:+ pretty value
  | UnknownFrameFlags bits => "unknown frame flags: 0x" +:+ Fmt.hex 4 bits
  | PayloadTooLarge kind length limit =>
      MessageType.debug kind +:+ " payload is " +:+ pretty length +:+
      " bytes; limit is " +:+ pretty limit +:+ " bytes"
  | PayloadLengthMismatch declared actual =>
      "payload length mismatch: header declares " +:+ pretty declared +:+
      " bytes, got " +:+ pretty actual
  | BufferLimitExceeded attempted limit =>
      "decoder buffer would grow to " +:+ pretty attempted +:+
      " bytes; limit is " +:+ pretty limit +:+ " bytes"
  | UnexpectedMessageType expected actual =>
      "expected " +:+ MessageType.debug expected +:+ " payload, received " +:+
      MessageType.debug actual
  | InvalidPayload reason => "invalid payload: " +:+ reason
  | InvalidUtf8 => "protocol string is not valid UTF-8"
  end.
End ProtocolError.

(** [Result<T, ProtocolError>]. *)
Abbreviation presult := (outcome ProtocolError.t).
Abbreviation invalid s := (Err (ProtocolError.InvalidPayload s)).

(** [impl TryFrom<u16> for MessageType]. *)
Definition MessageType_try_from (value : Z) : presult MessageType.t :=
  match value with
  | 1 => Ok MessageType.Hello
  | 2 => Ok MessageType.Capabilities
  | 3 => Ok MessageType.DisplayConfig
  | 4 => Ok MessageType.VideoFrame
  | 5 => Ok MessageType.Input
  | 6 => Ok MessageType.Telemetry
  | 7 => Ok MessageType.Ping
  | 8 => Ok MessageType.Pong
  | 9 => Ok MessageType.Error
  | unknown => Err (ProtocolError.UnknownMessageType unknown)
  end.

(** ** Frame flags *)
Module FrameFlags.
Record t : Type := mk { bits : Z }.

#[global] Instance t_eq_dec : EqDecision t.
Proof. solve_decision. Defined.

Definition NONE : t := mk 0.
Definition KEYFRAME : t := mk (Z.shiftl 1 0).
Definition END_OF_STREAM : t := mk (Z.shiftl 1 1).
Definition ACK_REQUIRED : t := mk (Z.shiftl 1 2).
Definition KNOWN_MASK : Z :=
  Z.lor (Z.lor (bits KEYFRAME) (bits END_OF_STREAM)) (bits ACK_REQUIRED).

Definition from_bits (b : Z) : presult t :=
  if Z.land b (bit_not 16 KNOWN_MASK) =? 0 then Ok (mk b)
  else Err (ProtocolError.UnknownFrameFlags b).

Definition contains (self other : t) : bool :=
  Z.land (bits self) (bits other) =? bits other.

Definition bitor (self rhs : t) : t := mk (Z.lor (bits self) (bits rhs)).

(** Only flags of this protocol version. *)
Definition wf (f : t) : Prop := 0 <= bits f < 8.

Lemma from_bits_spec b f :
  in_u 16 b -> from_bits b = Ok f <-> f = mk b /\ wf (mk b).
Proof. by apply (from_bits_iff 16 3). Qed.

Lemma bitor_wf f g : wf f -> wf g -> wf (bitor f g).
Proof. unfold wf, bitor. simpl. intros. by apply (lor_below 3). Qed.
End FrameFlags.

(** ** The payload interface *)

(** [trait WirePayload]. *)
Class WirePayload (P : Type) := {
  KIND : MessageType.t;
  wire_encode : P -> presult (list byte);
  wire_decode : list byte -> presult P;
}.

(** What a payload type promises: [wire_wf] is the invariant its constructor
    establishes, decoding is exactly the inverse of encoding on it, no input
    makes either panic, and an encoding fits its family's frame. *)
Class WirePayloadLaws (P : Type) `{WirePayload P} := {
  wire_wf : P -> Prop;
  wire_decode_returns : forall bs, returns (wire_decode (P:=P) bs);
  wire_encode_returns : forall p : P, returns (wire_encode p);
  wire_decode_iff : forall bs (p : P),
    wire_decode bs = Ok p <-> wire_wf p /\ wire_encode p = Ok bs;
  wire_wf_encodes : forall p : P, wire_wf p -> succeeds (wire_encode p);
  wire_encode_fits : forall (p : P) bs,
    wire_wf p -> wire_encode p = Ok bs -> zlen bs <= MessageType.payload_limit KIND;
}.

(** The contract as one statement: neither direction panics, decoding accepts
    exactly the encodings of well-formed values, and every well-formed value
    has an encoding that fits its family's frame. *)
Definition exact_codec {P} `{WirePayload P} (wf : P -> Prop) : Prop :=
  (forall bs, returns (wire_decode (P:=P) bs)) /\
  (forall p : P, returns (wire_encode p)) /\
  (forall bs (p : P), wire_decode bs = Ok p <-> wf p /\ wire_encode p = Ok bs) /\
  (forall p : P, wf p ->
     exists bs, wire_encode p = Ok bs /\ zlen bs <= MessageType.payload_limit KIND).

Lemma laws_exact_codec `{WirePayloadLaws P} : exact_codec (wire_wf (P:=P)).
Proof.
  split; [apply wire_decode_returns|]. split; [apply wire_encode_returns|].
  split; [apply wire_decode_iff|]. intros p Hp.
  destruct (wire_wf_encodes p Hp) as [bs Hbs]. exists bs. split; [done|].
  by eapply wire_encode_fits.
Qed.

(** ** Facts on identifiers *)

(** [try_from] of an enum inverts its discriminant: [f v = Ok x <-> v = d x]. *)
Ltac solve_enum_iff f v x :=
  split;
  [ unfold f; destruct v as [|v|v]; try done; repeat (destruct v as [v|v|]; try done);
    by intros [= <-]
  | intros ->; by destruct x ].

Lemma MessageType_try_from_iff v k :
  MessageType_try_from v = Ok k <-> v = MessageType.to_u16 k.
Proof.
  solve_enum_iff MessageType_try_from v k.
Qed.

Lemma returns_MessageType_try_from v : returns (MessageType_try_from v).
Proof.
  unfold MessageType_try_from. by repeat case_match.
Qed.
#[export] Hint Resolve returns_MessageType_try_from : rust.

Lemma to_u16_in_u k : in_u 16 (MessageType.to_u16 k).
Proof. destruct k; unfold in_u; simpl; lia. Qed.

Lemma payload_limit_pos k : 0 < MessageType.payload_limit k <= MAX_MEDIA_PAYLOAD.
Proof. destruct k; unfold MessageType.payload_limit, MAX_MEDIA_PAYLOAD, MAX_CONTROL_PAYLOAD; lia. Qed.
