(* ===== verification/ProtoFrame.v ===== *)
(** * The binary frame layer

    Models [crates/ladoflow-protocol/src/frame.rs]: the fixed header, owned
    frames, parsing of a possibly incomplete prefix, and the incremental
    [FrameDecoder]. *)
From S2P Require Export ProtoTypes.
Local Open Scope Z_scope.

Definition FRAME_HEADER_LEN_U16 : Z := 24.

Definition validate_payload_len (kind : MessageType.t) (payload_len : Z) : presult unit :=
  let limit := MessageType.payload_limit kind in
  if payload_len >? limit
  then Err (ProtocolError.PayloadTooLarge kind payload_len limit)
  else Ok tt.

Definition payload_len_to_usize (kind : MessageType.t) (payload_len : Z) : presult Z :=
  ok_or (checked usize_bits payload_len)
    (ProtocolError.PayloadTooLarge kind (u_max usize_bits) (MessageType.payload_limit kind)).

Module FrameHeader.
Record t : Type := mk {
  version : Z;
  kind : MessageType.t;
  flags : FrameFlags.t;
  sequence : Z;
  payload_len : Z;
}.

#[global] Instance t_eq_dec : EqDecision t.
Proof. solve_decision. Defined.

Definition new (kind : MessageType.t) (flags : FrameFlags.t) (sequence payload_len : Z)
  : presult t :=
  let! _ := validate_payload_len kind payload_len in
  let! payload_len := ok_or (checked 32 payload_len)
    (ProtocolError.PayloadTooLarge kind payload_len (MessageType.payload_limit kind)) in
  Ok (mk PROTOCOL_VERSION kind flags sequence payload_len).

(** The fields occupy the ranges [0..4], [4..6], [6..8], [8..10], [10..12],
    [12..20] and [20..24] of the array. *)
Definition encode (self : t) : list byte :=
  FRAME_MAGIC ++
  be_bytes 2 (version self) ++
  be_bytes 2 FRAME_HEADER_LEN_U16 ++
  be_bytes 2 (MessageType.to_u16 (kind self)) ++
  be_bytes 2 (FrameFlags.bits (flags self)) ++
  be_bytes 8 (sequence self) ++
  be_bytes 4 (payload_len self).

Definition decode (bytes : list byte) : presult t :=
  let! b0 := index bytes 0 in let! b1 := index bytes 1 in
  let! b2 := index bytes 2 in let! b3 := index bytes 3 in
  let found_magic := [b0; b1; b2; b3] in
  if bool_decide (found_magic <> FRAME_MAGIC)
  then Err (ProtocolError.InvalidMagic found_magic) else
  let! version := read_u16 bytes 4 in
  if negb (version =? PROTOCOL_VERSION)
  then Err (ProtocolError.UnsupportedVersion version PROTOCOL_VERSION) else
  let! header_len := read_u16 bytes 6 in
  if negb (header_len =? FRAME_HEADER_LEN)
  then Err (ProtocolError.InvalidHeaderLength header_len) else
  let! kind_bits := read_u16 bytes 8 in
  let! kind := MessageType_try_from kind_bits in
  let! flag_bits := read_u16 bytes 10 in
  let! flags := FrameFlags.from_bits flag_bits in
  let! sequence := read_u64 bytes 12 in
  let! payload_len := read_u32 bytes 20 in
  let! payload_len_usize := payload_len_to_usize kind payload_len in
  let! _ := validate_payload_len kind payload_len_usize in
  Ok (mk version kind flags sequence payload_len).

(** The invariant of the private fields. *)
Record wf (h : t) : Prop := {
  wf_version : version h = PROTOCOL_VERSION;
  wf_flags : FrameFlags.wf (flags h);
  wf_sequence : in_u 64 (sequence h);
  wf_len : 0 <= payload_len h <= MessageType.payload_limit (kind h);
}.
End FrameHeader.

Module Frame.
Record t : Type := mk {
  header : FrameHeader.t;
  payload : list byte;
}.

#[global] Instance t_eq_dec : EqDecision t.
Proof. solve_decision. Defined.

Definition new (kind : MessageType.t) (flags : FrameFlags.t) (sequence : Z)
  (payload : list byte) : presult t :=
  let! header := FrameHeader.new kind flags sequence (zlen payload) in
  Ok (mk header payload).

Definition from_payload {P} `{WirePayload P} (flags : FrameFlags.t) (sequence : Z)
  (payload : P) : presult t :=
  let! bytes := wire_encode payload in
  new KIND flags sequence bytes.

Definition decode_payload (P : Type) `{WirePayload P} (self : t) : presult P :=
  if bool_decide (FrameHeader.kind (header self) <> KIND)
  then Err (ProtocolError.UnexpectedMessageType KIND (FrameHeader.kind (header self)))
  else wire_decode (payload self).

Definition encoded_len (self : t) : Z := FRAME_HEADER_LEN + zlen (payload self).

Definition encode (self : t) : list byte :=
  FrameHeader.encode (header self) ++ payload self.

Record wf (f : t) : Prop := {
  wf_header : FrameHeader.wf (header f);
  wf_payload : zlen (payload f) = FrameHeader.payload_len (header f);
}.
End Frame.

Module DecodeOutcome.
Inductive t : Type :=
| Complete (frame : Frame.t) (consumed : Z)
| NeedMoreData (minimum : Z).
#[global] Instance t_eq_dec : EqDecision t.
Proof. solve_decision. Defined.
End DecodeOutcome.

(** [Frame::decode_prefix]. *)
Definition decode_prefix (bytes : list byte) : presult DecodeOutcome.t :=
  if zlen bytes <? FRAME_HEADER_LEN
  then Ok (DecodeOutcome.NeedMoreData FRAME_HEADER_LEN) else
  let! head := slice bytes 0 (Z.to_nat FRAME_HEADER_LEN) in
  let! header := FrameHeader.decode head in
  let! payload_len :=
    payload_len_to_usize (FrameHeader.kind header) (FrameHeader.payload_len header) in
  let! total_len := chk usize_bits (FRAME_HEADER_LEN + payload_len) in
  if zlen bytes <? total_len
  then Ok (DecodeOutcome.NeedMoreData total_len) else
  let! payload := slice bytes (Z.to_nat FRAME_HEADER_LEN) (Z.to_nat total_len) in
  Ok (DecodeOutcome.Complete (Frame.mk header payload) total_len).

Module FrameDecoder.
Record t : Type := mk {
  buffer : list byte;
  buffer_limit : Z;
}.

Definition new : t := mk [] MAX_BUFFERED_BYTES.
Definition with_buffer_limit (buffer_limit : Z) : t := mk [] buffer_limit.
Definition set_buffer (self : t) (buffer : list byte) : t := mk buffer (buffer_limit self).

(** The [while let] loop of [push]. Every complete frame consumes at least the
    header, so [length buffer + 1] iterations are enough. *)
Fixpoint decode_loop (fuel : nat) (buffer : list byte) (frames : list Frame.t)
  (consumed_total : Z) : presult (list Frame.t * Z) :=
  match fuel with
  | O => Fault OutOfFuel
  | S fuel =>
    let! rest := slice_from buffer (Z.to_nat consumed_total) in
    let! result := decode_prefix rest in
    match result with
    | DecodeOutcome.Complete frame consumed =>
        let! consumed_total := chk usize_bits (consumed_total + consumed) in
        decode_loop fuel buffer (frames ++ [frame]) consumed_total
    | DecodeOutcome.NeedMoreData _ => Ok (frames, consumed_total)
    end
  end.

(** An error found by the loop leaves the extended buffer in place, and the
    frames decoded before it are dropped with the local vector. *)
Definition push (self : t) (chunk : list byte) : t * presult (list Frame.t) :=
  let? attempted :=
    ok_or (checked usize_bits (zlen (buffer self) + zlen chunk))
      (ProtocolError.BufferLimitExceeded (u_max usize_bits) (buffer_limit self))
    keeping self in
  if attempted >? buffer_limit self
  then (self, Err (ProtocolError.BufferLimitExceeded attempted (buffer_limit self)))
  else
    let self := set_buffer self (buffer self ++ chunk) in
    let? (frames, consumed_total) :=
      decode_loop (S (length (buffer self))) (buffer self) [] 0 keeping self in
    if consumed_total >? 0 then
      let? rest := slice_from (buffer self) (Z.to_nat consumed_total) keeping self in
      (set_buffer self rest, Ok frames)
    else (self, Ok frames).

Definition buffered_len (self : t) : Z := zlen (buffer self).
Definition clear (self : t) : t := set_buffer self [].

Record wf (d : t) : Prop := {
  wf_limit : in_u usize_bits (buffer_limit d);
  wf_buffer : zlen (buffer d) <= buffer_limit d;
}.
End FrameDecoder.

(** ** The header codec *)
#[local] Arguments validate_payload_len : simpl never.
#[local] Arguments payload_len_to_usize : simpl never.
#[local] Arguments MessageType_try_from : simpl never.
#[local] Arguments FrameFlags.from_bits : simpl never.
#[local] Arguments PROTOCOL_VERSION : simpl never.
#[local] Arguments FRAME_HEADER_LEN : simpl never.
#[local] Arguments Z.eqb : simpl never.


Lemma validate_payload_len_ok kind len :
  validate_payload_len kind len = Ok tt <-> len <= MessageType.payload_limit kind.
Proof.
  unfold validate_payload_len. rewrite Z.gtb_ltb.
  destruct (Z.ltb_spec (MessageType.payload_limit kind) len);
    split; intros; (done || lia).
Qed.

Lemma payload_len_to_usize_ok kind len :
  0 <= len < 2 ^ 64 -> payload_len_to_usize kind len = Ok len.
Proof. intros H. unfold payload_len_to_usize. by rewrite checked_in. Qed.

Lemma FRAME_MAGIC_bytes : FRAME_MAGIC = [x4c; x44; x46; x4c].
Proof. reflexivity. Qed.

Lemma length_header_encode h : length (FrameHeader.encode h) = 24%nat.
Proof.
  unfold FrameHeader.encode. rewrite !length_app, !length_be_bytes, FRAME_MAGIC_bytes. done.
Qed.

Lemma zlen_frame_encode f : zlen (Frame.encode f) = Frame.encoded_len f.
Proof.
  unfold Frame.encode, Frame.encoded_len, FRAME_HEADER_LEN.
  rewrite length_app, length_header_encode. lia.
Qed.

Lemma FrameHeader_wf_len_u32 h : FrameHeader.wf h -> in_u 32 (FrameHeader.payload_len h).
Proof.
  intros [_ _ _ Hl]. pose proof (payload_limit_pos (FrameHeader.kind h)).
  unfold in_u, MAX_MEDIA_PAYLOAD in *. lia.
Qed.

Lemma header_decode_encode h : FrameHeader.wf h -> FrameHeader.decode (FrameHeader.encode h) = Ok h.
Proof.
  intros Hwf. pose proof (FrameHeader_wf_len_u32 h Hwf) as Hl32.
  destruct Hwf as [Hv Hf Hs Hl]. destruct h as [v k [fb] s pl]. simpl in *. subst v.
  assert (Hfb : in_u 16 fb) by (unfold FrameFlags.wf, in_u in *; simpl in *; lia).
  pose proof (to_u16_in_u k) as Hk.
  destruct (be_field 2 16 (MessageType.to_u16 k)) as (lk & Hlk & Ek); [done..|].
  destruct (be_field 2 16 fb) as (lf & Hlf & ->); [done..|].
  destruct (be_field 8 64 s) as (ls & Hls & ->); [done..|].
  destruct (be_field 4 32 pl) as (lp & Hlp & ->); [done..|].
  explode_list lk; explode_list lf; explode_list ls; explode_list lp.
  unfold FrameHeader.encode. simpl.
  rewrite Ek. autorewrite with bytes.
  replace (be_bytes 2 PROTOCOL_VERSION) with [x00; x01] by (by vm_compute).
  replace (be_bytes 2 FRAME_HEADER_LEN_U16) with [x00; x18] by (by vm_compute).
  unfold FrameHeader.decode. simpl.
  change (be_value [x00; x01] =? PROTOCOL_VERSION) with true.
  change (be_value [x00; x18] =? FRAME_HEADER_LEN) with true. simpl.
  rewrite <- Ek, (proj2 (MessageType_try_from_iff _ k) eq_refl). simpl.
  rewrite (proj2 (FrameFlags.from_bits_spec _ _ Hfb)) by done. simpl.
  rewrite payload_len_to_usize_ok by (unfold in_u in *; lia). simpl.
  by rewrite (proj2 (validate_payload_len_ok _ _)) by lia.
Qed.

Lemma header_decode_inv bs h :
  length bs = 24%nat -> FrameHeader.decode bs = Ok h ->
  FrameHeader.wf h /\ FrameHeader.encode h = bs.
Proof.
  intros Hlen Hd. explode_list bs. unfold FrameHeader.decode in Hd. simpl in Hd.
  destruct (bool_decide_reflect ([b; b0; b1; b2] <> FRAME_MAGIC)) as [|Hm]; [done|].
  apply dec_stable in Hm.
  destruct (be_value [b3; b4] =? PROTOCOL_VERSION) eqn:Hv; [|done]. simpl in Hd.
  destruct (be_value [b5; b6] =? FRAME_HEADER_LEN) eqn:Hh; [|done]. simpl in Hd.
  inv_ok. bool_to_Z.
  match goal with H : MessageType_try_from _ = Ok ?k |- _ =>
    apply MessageType_try_from_iff in H; rename H into Hk end.
  match goal with H : FrameFlags.from_bits _ = Ok ?f |- _ =>
    apply FrameFlags.from_bits_spec in H as [-> Hf]; [|by apply be_value_in_u] end.
  pose proof (be_value_in_u 32 [b19; b20; b21; b22] eq_refl) as Hp32.
  match goal with H : payload_len_to_usize _ _ = Ok _ |- _ =>
    rewrite payload_len_to_usize_ok in H by (unfold in_u in *; lia);
    injection H as <- end.
  match goal with H : validate_payload_len _ _ = Ok ?u |- _ =>
    destruct u; apply validate_payload_len_ok in H; rename H into Hl end.
  subst h. split.
  - split; simpl; [done|done|by apply be_value_in_u|unfold in_u in *; lia].
  - unfold FrameHeader.encode. rewrite <- Hm. simpl. rewrite <- Hk.
    replace (be_bytes 2 FRAME_HEADER_LEN_U16) with [b5; b6]
      by (rewrite <- be_bytes_value_2, Hh; done).
    by autorewrite with bytes.
Qed.

Lemma returns_validate_payload_len k n : returns (validate_payload_len k n).
Proof. unfold validate_payload_len. by destruct (n >? _). Qed.
Lemma returns_payload_len_to_usize k n : returns (payload_len_to_usize k n).
Proof. apply returns_ok_or. Qed.
Lemma returns_from_bits b : returns (FrameFlags.from_bits b).
Proof. unfold FrameFlags.from_bits. by destruct (Z.land _ _ =? 0). Qed.
#[local] Hint Resolve returns_validate_payload_len returns_payload_len_to_usize
  returns_from_bits : rust.

Lemma returns_header_decode bs : length bs = 24%nat -> returns (FrameHeader.decode bs).
Proof.
  intros Hlen. unfold FrameHeader.decode.
  solve_returns.
Qed.

(** ** Parsing a prefix *)
#[local] Opaque FrameHeader.encode.

Lemma decode_prefix_short bs :
  zlen bs < 24 -> decode_prefix bs = Ok (DecodeOutcome.NeedMoreData 24).
Proof.
  intros H. unfold decode_prefix, FRAME_HEADER_LEN. apply Z.ltb_lt in H. by rewrite H.
Qed.

(** After a complete header, the outcome is a function of the header and the
    number of bytes. *)
Lemma decode_prefix_header a b :
  length a = 24%nat ->
  decode_prefix (a ++ b) =
    (let! h := FrameHeader.decode a in
     let total := 24 + FrameHeader.payload_len h in
     if zlen (a ++ b) <? total then Ok (DecodeOutcome.NeedMoreData total)
     else Ok (DecodeOutcome.Complete
                (Frame.mk h (take (Z.to_nat (FrameHeader.payload_len h)) b)) total)).
Proof.
  intros Ha. unfold decode_prefix, FRAME_HEADER_LEN.
  destruct (Z.ltb_spec (zlen (a ++ b)) 24) as [Hlt|_]; [rewrite length_app in Hlt; lia|].
  rewrite slice_ok by (rewrite length_app; lia). simpl obind.
  change (Z.to_nat 24 - 0)%nat with 24%nat. rewrite drop_0, take_length_app by done.
  destruct (FrameHeader.decode a) as [h|e|f] eqn:Hd; [|done..]. simpl.
  destruct (header_decode_inv a h Ha Hd) as [Hwf _].
  pose proof (FrameHeader_wf_len_u32 h Hwf) as Hl. unfold in_u in Hl.
  rewrite payload_len_to_usize_ok by lia. simpl.
  rewrite chk_ok by (unfold_int; lia). simpl.
  destruct (Z.ltb_spec (zlen (a ++ b)) (24 + FrameHeader.payload_len h)) as [|Hge]; [done|].
  rewrite slice_ok by lia. simpl. change (Pos.to_nat 24) with 24%nat.
  rewrite drop_length_app by done. do 4 f_equal. lia.
Qed.

(** A complete frame is read back, whatever follows it. *)
Lemma decode_prefix_encode f rest :
  Frame.wf f ->
  decode_prefix (Frame.encode f ++ rest) =
    Ok (DecodeOutcome.Complete f (Frame.encoded_len f)).
Proof.
  intros [Hh Hp]. unfold Frame.encode. rewrite <- app_assoc.
  rewrite decode_prefix_header by apply length_header_encode.
  rewrite header_decode_encode by done. simpl. rewrite <- Hp.
  destruct (Z.ltb_spec (zlen (FrameHeader.encode (Frame.header f) ++ Frame.payload f ++ rest))
    (24 + zlen (Frame.payload f))) as [Hlt|_].
  { rewrite !length_app, length_header_encode in Hlt. lia. }
  unfold Frame.encoded_len. rewrite Nat2Z.id, take_length_app by done.
  destruct f. reflexivity.
Qed.

(** What a successful parse says of the bytes. *)
Lemma decode_prefix_complete_inv bs f n :
  decode_prefix bs = Ok (DecodeOutcome.Complete f n) ->
  Frame.wf f /\ n = Frame.encoded_len f /\ exists rest, bs = Frame.encode f ++ rest.
Proof.
  intros Hd. destruct (decide (24 <= length bs)%nat) as [Hge|Hlt].
  2:{ rewrite decode_prefix_short in Hd by lia. done. }
  destruct (list_split_at 24 bs Hge) as (a & b & -> & Ha).
  rewrite decode_prefix_header in Hd by done.
  destruct (FrameHeader.decode a) as [h|e|ft] eqn:Hh; [|done..]. simpl in Hd.
  destruct (header_decode_inv a h Ha Hh) as [Hwf <-].
  destruct (Z.ltb_spec (zlen (FrameHeader.encode h ++ b)) (24 + FrameHeader.payload_len h))
    as [|Hge2]; [done|]. injection Hd as <- <-.
  rewrite length_app, Ha in Hge2. pose proof (FrameHeader.wf_len _ Hwf) as Hl.
  assert (Hlen : zlen (take (Z.to_nat (FrameHeader.payload_len h)) b)
                 = FrameHeader.payload_len h) by (rewrite length_take; lia).
  split; [by split|]. split; [unfold Frame.encoded_len, FRAME_HEADER_LEN; simpl; lia|].
  exists (drop (Z.to_nat (FrameHeader.payload_len h)) b).
  unfold Frame.encode. simpl. by rewrite <- app_assoc, take_drop.
Qed.

(** [decode_prefix] never panics, whatever the bytes. *)
Lemma returns_decode_prefix bs : returns (decode_prefix bs).
Proof.
  destruct (decide (24 <= length bs)%nat) as [Hge|Hlt].
  2:{ by rewrite decode_prefix_short by lia. }
  destruct (list_split_at 24 bs Hge) as (a & b & -> & Ha).
  rewrite decode_prefix_header by done.
  apply returns_obind; [by apply returns_header_decode|]. intros. cbv zeta. by case_match.
Qed.
#[export] Hint Resolve returns_decode_prefix : rust.

(** A proper prefix of an encoded frame asks for more bytes. *)
Lemma decode_prefix_incomplete f a b :
  Frame.wf f -> b <> [] -> a ++ b = Frame.encode f ->
  exists m, decode_prefix a = Ok (DecodeOutcome.NeedMoreData m).
Proof.
  intros [Hh Hp] Hb Heq. destruct (decide (24 <= length a)%nat) as [Hge|Hlt].
  2:{ exists 24. apply decode_prefix_short. lia. }
  destruct (list_split_at 24 a Hge) as (a1 & a2 & -> & Ha).
  rewrite <- app_assoc in Heq. unfold Frame.encode in Heq.
  pose proof (length_header_encode (Frame.header f)) as Hl.
  apply app_inj_1 in Heq as [-> Heq]; [|congruence].
  rewrite decode_prefix_header, header_decode_encode by done. simpl. rewrite <- Hp, <- Heq.
  eexists. destruct (Z.ltb_spec (zlen (FrameHeader.encode (Frame.header f) ++ a2))
    (24 + zlen (a2 ++ b))) as [|Hge2]; [done|].
  rewrite !length_app in Hge2. destruct b; [done|simpl in *; lia].
Qed.

(** More bytes do not change a rejection. *)
Lemma decode_prefix_error_stable a b e :
  decode_prefix a = Err e -> decode_prefix (a ++ b) = Err e.
Proof.
  intros Hd. destruct (decide (24 <= length a)%nat) as [Hge|Hlt].
  2:{ by rewrite decode_prefix_short in Hd by lia. }
  destruct (list_split_at 24 a Hge) as (a1 & a2 & -> & Ha).
  rewrite decode_prefix_header in Hd by done.
  rewrite <- app_assoc, decode_prefix_header by done.
  destruct (FrameHeader.decode a1); simpl in *; [|done|done].
  by destruct (_ <? _) in Hd.
Qed.

(** The outcome [NeedMoreData minimum] is accurate: fewer than [minimum] bytes
    are there. *)
Lemma decode_prefix_need_more bs m :
  decode_prefix bs = Ok (DecodeOutcome.NeedMoreData m) ->
  zlen bs < m <= FRAME_HEADER_LEN + MAX_MEDIA_PAYLOAD.
Proof.
  intros Hd. destruct (decide (24 <= length bs)%nat) as [Hge|Hlt].
  2:{ rewrite decode_prefix_short in Hd by lia. injection Hd as <-.
      unfold FRAME_HEADER_LEN, MAX_MEDIA_PAYLOAD. lia. }
  destruct (list_split_at 24 bs Hge) as (a & b & -> & Ha).
  rewrite decode_prefix_header in Hd by done.
  destruct (FrameHeader.decode a) as [h|e|ft] eqn:Hh; [|done..]. simpl in Hd.
  destruct (header_decode_inv a h Ha Hh) as [[_ _ _ Hl] _].
  pose proof (payload_limit_pos (FrameHeader.kind h)).
  destruct (Z.ltb_spec (zlen (a ++ b)) (24 + FrameHeader.payload_len h)); [|done].
  injection Hd as <-. unfold FRAME_HEADER_LEN. lia.
Qed.

#[local] Opaque Frame.encode.

(** ** The stream specification

    [stream bs fs tail]: the byte string [bs] is the encodings of the frames
    [fs] followed by [tail], which does not yet hold a complete frame. This is
    the contract of the incremental decoder, stated without its buffer. *)
Inductive stream : list byte -> list Frame.t -> list byte -> Prop :=
| stream_pending tail m :
    decode_prefix tail = Ok (DecodeOutcome.NeedMoreData m) ->
    stream tail [] tail
| stream_frame bs f rest fs tail :
    bs = Frame.encode f ++ rest -> Frame.wf f -> stream rest fs tail ->
    stream bs (f :: fs) tail.

(** The encodings of a list of frames, as they travel on a link. *)
Definition encode_all (fs : list Frame.t) : list byte := concat (map Frame.encode fs).

Lemma encode_all_app fs gs : encode_all (fs ++ gs) = encode_all fs ++ encode_all gs.
Proof. unfold encode_all. by rewrite map_app, concat_app. Qed.

Lemma Frame_encode_nonempty f : (24 <= length (Frame.encode f))%nat.
Proof. pose proof (zlen_frame_encode f). unfold Frame.encoded_len, FRAME_HEADER_LEN in *. lia. Qed.

Lemma Frame_encode_inj f g a b :
  Frame.wf f -> Frame.wf g -> Frame.encode f ++ a = Frame.encode g ++ b ->
  f = g /\ a = b.
Proof.
  intros Hf Hg Heq. pose proof (decode_prefix_encode f a Hf) as H1.
  rewrite Heq, decode_prefix_encode in H1 by done. injection H1 as -> _.
  split; [done|]. by apply app_inv_head in Heq.
Qed.

Lemma stream_encode_all bs fs tail : stream bs fs tail -> bs = encode_all fs ++ tail.
Proof.
  induction 1 as [|bs f rest fs tail -> Hf _ ->]; [done|].
  unfold encode_all. simpl. by rewrite app_assoc.
Qed.

Lemma stream_wf bs fs tail : stream bs fs tail -> Forall Frame.wf fs.
Proof. induction 1; by constructor. Qed.

Lemma stream_tail bs fs tail :
  stream bs fs tail -> exists m, decode_prefix tail = Ok (DecodeOutcome.NeedMoreData m).
Proof. induction 1; eauto. Qed.

Lemma stream_app fs bs :
  Forall Frame.wf fs ->
  forall gs tail, stream bs gs tail -> stream (encode_all fs ++ bs) (fs ++ gs) tail.
Proof.
  unfold encode_all. induction 1 as [|f fs Hf _ IH]; intros gs tail Hs; [done|].
  simpl. rewrite <- app_assoc. econstructor; eauto.
Qed.

(** A byte string has at most one reading. *)
Lemma stream_deterministic bs fs tail :
  stream bs fs tail -> forall fs' tail', stream bs fs' tail' -> fs = fs' /\ tail = tail'.
Proof.
  induction 1 as [tail m Hm|bs f rest fs tail -> Hf Hs IH]; intros fs' tail' Hs'.
  - destruct Hs' as [|bs f' rest' fs1 tail1 -> Hf' Hs1]; [done|].
    by rewrite decode_prefix_encode in Hm.
  - inversion Hs' as [tail1 m Hm|bs f' rest' fs1 tail1 Heq Hf' Hs1]; subst.
    { by rewrite decode_prefix_encode in Hm. }
    apply Frame_encode_inj in Heq as [-> ->]; [|done..].
    by destruct (IH _ _ Hs1) as [-> ->].
Qed.

(** A byte string that reads as a stream holds no rejected header. *)
Lemma stream_no_error bs fs tail :
  stream bs fs tail -> forall fs' bad e,
  Forall Frame.wf fs' -> bs = encode_all fs' ++ bad -> decode_prefix bad <> Err e.
Proof.
  induction 1 as [tail m Hm|bs f rest fs tail -> Hf _ IH]; intros fs' bad e Hfs' Heq.
  - destruct Hfs' as [|f' gs Hf' _]; [simpl in Heq; by subst tail; rewrite Hm|].
    unfold encode_all in Heq. simpl in Heq. rewrite <- app_assoc in Heq. subst tail.
    by rewrite decode_prefix_encode in Hm.
  - destruct Hfs' as [|f' gs Hf' Hgs].
    + simpl in Heq. subst bad. by rewrite decode_prefix_encode.
    + unfold encode_all in Heq. simpl in Heq. rewrite <- app_assoc in Heq.
      apply Frame_encode_inj in Heq as [-> Heq]; [|done..]. by eapply IH.
Qed.

(** The first rejected header of a byte string is unique. *)
Lemma rejected_once fs1 bad1 e1 :
  Forall Frame.wf fs1 -> decode_prefix bad1 = Err e1 -> forall fs2 bad2 e2,
  Forall Frame.wf fs2 -> encode_all fs1 ++ bad1 = encode_all fs2 ++ bad2 ->
  decode_prefix bad2 = Err e2 -> e1 = e2.
Proof.
  intros Hfs1 Hb1. unfold encode_all.
  induction Hfs1 as [|f fs1 Hf _ IH]; intros fs2 bad2 e2 Hfs2 Heq Hb2;
    destruct Hfs2 as [|g gs Hg Hgs]; simpl in Heq.
  - congruence.
  - rewrite <- app_assoc in Heq. subst bad1. by rewrite decode_prefix_encode in Hb1.
  - rewrite <- app_assoc in Heq. subst bad2. by rewrite decode_prefix_encode in Hb2.
  - rewrite <- !app_assoc in Heq. apply Frame_encode_inj in Heq as [-> Heq]; [|done..].
    by eapply IH.
Qed.

(** Any prefix of a well-formed stream reads as whole frames and a tail that
    the rest of the stream completes. *)
Lemma stream_prefix fs a b :
  Forall Frame.wf fs -> a ++ b = encode_all fs ->
  exists fs1 fs2 tail, fs = fs1 ++ fs2 /\ stream a fs1 tail /\
    tail ++ b = encode_all fs2 /\
    (forall f gs, fs2 = f :: gs -> zlen tail < Frame.encoded_len f) /\
    (fs2 = [] -> tail = []).
Proof.
  unfold encode_all. intros Hwf. revert a. induction Hwf as [|f fs Hf _ IH]; intros a Heq.
  - exists [], [], []. simpl in Heq. apply app_nil in Heq as [-> ->].
    repeat split; [|done]. by apply (stream_pending [] 24).
  - simpl in Heq. destruct (decide (length (Frame.encode f) <= length a)%nat) as [Hge|Hlt].
    + destruct (list_split_at _ a Hge) as (a1 & a2 & -> & Ha).
      rewrite <- app_assoc in Heq. apply app_inj_1 in Heq as [-> Heq]; [|done].
      destruct (IH _ Heq) as (fs1 & fs2 & tail & -> & Hs & Hb & Ht & He).
      exists (f :: fs1), fs2, tail. repeat split; [|done..]. by econstructor.
    + exists [], (f :: fs), a.
      assert (Hpre : exists c, c <> [] /\ a ++ c = Frame.encode f).
      { exists (drop (length a) (Frame.encode f)). split.
        - intros Hn. apply (f_equal length) in Hn. rewrite length_drop in Hn.
          simpl in Hn. lia.
        - rewrite <- (take_drop (length a) (Frame.encode f)) at 2. f_equal.
          assert (Ht : take (length a) (a ++ b)
                       = take (length a) (Frame.encode f ++ concat (map Frame.encode fs)))
            by by rewrite Heq.
          rewrite take_app_length, take_app_le in Ht by lia. done. }
      destruct Hpre as (c & Hc & Hac).
      destruct (decode_prefix_incomplete f a c Hf Hc Hac) as [m Hm].
      repeat split; [by apply (stream_pending a m)|done| |done].
      intros f' gs [= <- <-]. rewrite <- zlen_frame_encode. lia.
Qed.

(** ** The decoder loop *)

(** The loop reads the stream from the offset it has reached; the fuel that is
    left covers the bytes that are left. *)
Lemma decode_loop_spec fuel done_bytes rest frames :
  (length rest < fuel)%nat -> in_u usize_bits (zlen (done_bytes ++ rest)) ->
  match FrameDecoder.decode_loop fuel (done_bytes ++ rest) frames (zlen done_bytes) with
  | Ok (out, n) =>
      exists fs tail, stream rest fs tail /\ out = frames ++ fs /\
        n = zlen done_bytes + zlen (encode_all fs)
  | Err e => exists fs bad, rest = encode_all fs ++ bad /\ Forall Frame.wf fs /\
        decode_prefix bad = Err e
  | Fault _ => False
  end.
Proof.
  revert done_bytes rest frames. induction fuel as [|fuel IH]; intros d rest frames Hf Hu; [lia|].
  cbn [FrameDecoder.decode_loop]. rewrite Nat2Z.id. unfold slice_from.
  rewrite slice_ok by (rewrite length_app; lia). cbn [obind].
  rewrite drop_app_length, length_app.
  replace (length d + length rest - length d)%nat with (length rest) by lia.
  rewrite firstn_all. pose proof (returns_decode_prefix rest) as Hr.
  destruct (decode_prefix rest) as [[f n|m]|e|ft] eqn:Hd; cbn [obind]; [| | |done].
  - apply decode_prefix_complete_inv in Hd as (Hwf & -> & rest' & ->).
    rewrite <- zlen_frame_encode. rewrite chk_ok.
    2:{ unfold_int. rewrite !length_app in Hu. lia. }
    cbn [obind]. rewrite length_app in Hf. pose proof (Frame_encode_nonempty f).
    rewrite app_assoc in Hu.
    specialize (IH (d ++ Frame.encode f) rest' (frames ++ [f]) ltac:(lia) Hu).
    rewrite <- app_assoc in IH.
    replace (zlen (d ++ Frame.encode f)) with (zlen d + zlen (Frame.encode f)) in IH
      by (rewrite length_app; lia).
    destruct (FrameDecoder.decode_loop fuel _ _ _) as [[out n]|e|ft]; [| |done].
    + destruct IH as (fs & tail & Hs & -> & ->). exists (f :: fs), tail.
      split; [by econstructor|]. rewrite <- app_assoc. split; [done|].
      unfold encode_all. simpl. rewrite length_app. lia.
    + destruct IH as (fs & bad & -> & Hfs & Hb). exists (f :: fs), bad.
      unfold encode_all. simpl. rewrite <- app_assoc. repeat split; [by constructor|done].
  - exists [], rest. repeat split; [by apply (stream_pending rest m)|by rewrite app_nil_r|].
    unfold encode_all. simpl. lia.
  - by exists [], rest.
Qed.

(** ** [FrameDecoder::push] *)

(** What one push does, on every branch. *)
Lemma push_spec d chunk :
  FrameDecoder.wf d ->
  let all := FrameDecoder.buffer d ++ chunk in
  match FrameDecoder.push d chunk with
  | (d', Ok fs) =>
      zlen all <= FrameDecoder.buffer_limit d /\
      FrameDecoder.buffer_limit d' = FrameDecoder.buffer_limit d /\
      stream all fs (FrameDecoder.buffer d')
  | (d', Err e) =>
      (d' = d /\ FrameDecoder.buffer_limit d < zlen all) \/
      (zlen all <= FrameDecoder.buffer_limit d /\ d' = FrameDecoder.set_buffer d all /\
       exists fs bad, all = encode_all fs ++ bad /\ Forall Frame.wf fs /\
         decode_prefix bad = Err e)
  | (_, Fault _) => False
  end.
Proof.
  intros [Hlim Hbuf] all. unfold FrameDecoder.push.
  assert (Hall : zlen (FrameDecoder.buffer d) + zlen chunk = zlen all)
    by (unfold all; rewrite length_app; lia).
  rewrite Hall. destruct (checked usize_bits (zlen all)) as [att|] eqn:Hc; cbn [otry ok_or].
  2:{ left. split; [done|]. apply checked_None in Hc. unfold_int. lia. }
  apply checked_Some in Hc as [-> Hu]. rewrite Z.gtb_ltb.
  destruct (Z.ltb_spec (FrameDecoder.buffer_limit d) (zlen all)) as [|Hle]; [by left|].
  pose proof (decode_loop_spec (S (length all)) [] all [] ltac:(lia) Hu) as Hloop.
  cbn [app length] in Hloop. change (Z.of_nat 0) with 0 in Hloop. cbn [FrameDecoder.set_buffer FrameDecoder.buffer].
  fold all. clearbody all.
  destruct (FrameDecoder.decode_loop _ all [] 0) as [[out n]|e|f]; cbn [otry]; [| |done].
  - destruct Hloop as (fs & tail & Hs & -> & ->). rewrite Z.gtb_ltb.
    pose proof (stream_encode_all _ _ _ Hs) as Heq.
    destruct (Z.ltb_spec 0 (0 + zlen (encode_all fs))) as [Hpos|Hnp].
    + cbn [FrameDecoder.set_buffer FrameDecoder.buffer].
      assert (Hlen : (Z.to_nat (0 + zlen (encode_all fs)) <= length all)%nat).
      { rewrite Heq, length_app. lia. }
      unfold slice_from. rewrite slice_ok by lia. cbn [otry]. split; [done|]. split; [done|].
      simpl. rewrite Z.add_0_l.
      replace (drop (Z.to_nat (zlen (encode_all fs))) all) with tail
        by (rewrite Heq, drop_length_app by lia; done).
      rewrite firstn_all2; [done|]. rewrite Heq, length_app. lia.
    + split; [done|]. split; [done|]. simpl.
      assert (length (encode_all fs) = 0)%nat as Hz by lia.
      destruct fs as [|f fs]; [simpl in Heq; by rewrite <- Heq in Hs|].
      unfold encode_all in Hz. simpl in Hz. rewrite length_app in Hz.
      pose proof (Frame_encode_nonempty f). lia.
  - right. split; [done|]. split; [done|].
    destruct Hloop as (fs & bad & -> & Hfs & Hb). by exists fs, bad.
Qed.

(** ** Constructors *)

Lemma Frame_new_iff kind flags seq payload f :
  FrameFlags.wf flags -> in_u 64 seq ->
  Frame.new kind flags seq payload = Ok f <->
  f = Frame.mk (FrameHeader.mk PROTOCOL_VERSION kind flags seq (zlen payload)) payload /\
  zlen payload <= MessageType.payload_limit kind.
Proof.
  intros Hf Hs. unfold Frame.new, FrameHeader.new, validate_payload_len. rewrite Z.gtb_ltb.
  pose proof (payload_limit_pos kind) as Hk. unfold MAX_MEDIA_PAYLOAD in Hk.
  destruct (Z.ltb_spec (MessageType.payload_limit kind) (zlen payload)); cbn [obind].
  - split; [done|]. intros [_ ?]. lia.
  - rewrite checked_in by (unfold in_u; lia). cbn [obind ok_or]. naive_solver.
Qed.

Lemma Frame_new_wf kind flags seq payload f :
  FrameFlags.wf flags -> in_u 64 seq -> Frame.new kind flags seq payload = Ok f -> Frame.wf f.
Proof.
  intros Hf Hs Hn. apply Frame_new_iff in Hn as [-> Hl]; [|done..].
  split; simpl; [split; simpl; (done || lia)|done].
Qed.

Lemma returns_Frame_new kind flags seq payload : returns (Frame.new kind flags seq payload).
Proof.
  unfold Frame.new, FrameHeader.new, validate_payload_len. solve_returns.
Qed.
#[export] Hint Resolve returns_Frame_new : rust.

(** ** Feeding a decoder chunk by chunk *)

(** A transport that pushes one chunk after the other and stops at the first
    error. *)
Fixpoint push_all (d : FrameDecoder.t) (chunks : list (list byte))
  : FrameDecoder.t * presult (list Frame.t) :=
  match chunks with
  | [] => (d, Ok [])
  | c :: cs =>
    let (d, r) := FrameDecoder.push d c in
    let? fs := r keeping d in
    let (d, r) := push_all d cs in
    let? gs := r keeping d in
    (d, Ok (fs ++ gs))
  end.

Lemma stream_app_tail bs fs tail more gs tail' :
  stream bs fs tail -> stream (tail ++ more) gs tail' -> stream (bs ++ more) (fs ++ gs) tail'.
Proof.
  intros H1 H2. rewrite (stream_encode_all _ _ _ H1), <- app_assoc.
  apply stream_app; [by apply (stream_wf _ _ _ H1)|done].
Qed.

Lemma push_wf d chunk d' r :
  FrameDecoder.wf d -> FrameDecoder.push d chunk = (d', r) -> FrameDecoder.wf d'.
Proof.
  intros Hwf Hp. pose proof (push_spec d chunk Hwf) as H. rewrite Hp in H.
  destruct Hwf as [Hl Hb]. destruct r as [fs|e|]; [| |done].
  - destruct H as (Hle & Heq & Hs). split; rewrite Heq; [done|].
    apply stream_encode_all in Hs. rewrite Hs, length_app in Hle. lia.
  - destruct H as [[-> _]|(Hle & -> & _)]; [done|]. by split.
Qed.

Lemma push_all_stream chunks d d' fs :
  FrameDecoder.wf d ->
  (exists m, decode_prefix (FrameDecoder.buffer d) = Ok (DecodeOutcome.NeedMoreData m)) ->
  push_all d chunks = (d', Ok fs) ->
  stream (FrameDecoder.buffer d ++ concat chunks) fs (FrameDecoder.buffer d').
Proof.
  revert d fs. induction chunks as [|c cs IH]; intros d fs Hwf [m Hm] Hp; simpl in Hp.
  - injection Hp as <- <-. rewrite app_nil_r. by apply (stream_pending _ m).
  - pose proof (push_spec d c Hwf) as Hspec.
    destruct (FrameDecoder.push d c) as [d1 [fs1|e|f]] eqn:Hpush; simpl in Hp; [|done..].
    destruct Hspec as (_ & _ & Hs1).
    destruct (push_all d1 cs) as [d2 [gs|e|f]] eqn:Hrest; simpl in Hp; [|done..].
    injection Hp as <- <-. simpl. rewrite app_assoc.
    apply (stream_app_tail _ _ _ _ _ _ Hs1). apply IH; [|by eapply stream_tail|done].
    by eapply push_wf.
Qed.

Lemma new_decoder_wf : FrameDecoder.wf FrameDecoder.new.
Proof. split; vm_compute; [split; [discriminate|done]|discriminate]. Qed.

(** The bytes a decoder keeps between pushes of a well-formed stream are
    fewer than the frame in progress, so the default ceiling never rejects a
    chunk of up to one maximal frame. *)
Lemma push_all_reassembles chunks d fs :
  FrameDecoder.wf d -> FrameDecoder.buffer_limit d = MAX_BUFFERED_BYTES ->
  Forall Frame.wf fs ->
  (forall f gs, fs = f :: gs -> zlen (FrameDecoder.buffer d) < Frame.encoded_len f) ->
  (fs = [] -> FrameDecoder.buffer d = []) ->
  FrameDecoder.buffer d ++ concat chunks = encode_all fs ->
  Forall (fun c => zlen c <= FRAME_HEADER_LEN + MAX_MEDIA_PAYLOAD) chunks ->
  push_all d chunks = (FrameDecoder.set_buffer d [], Ok fs).
Proof.
  revert d fs. induction chunks as [|c cs IH]; intros d fs Hwf Hlim Hfs Hlt Hnil Heq Hcs.
  - simpl in *. rewrite app_nil_r in Heq. destruct fs as [|f gs].
    + by destruct d; rewrite <- Hnil by done.
    + specialize (Hlt f gs eq_refl). rewrite Heq in Hlt. unfold encode_all in Hlt.
      simpl in Hlt. rewrite length_app in Hlt. pose proof (zlen_frame_encode f). lia.
  - apply Forall_cons in Hcs as [Hc Hcs]. simpl in Heq. rewrite app_assoc in Heq.
    destruct (stream_prefix fs _ _ Hfs Heq) as (fs1 & fs2 & tail & -> & Hs & Hrest & Ht & Hn).
    apply Forall_app in Hfs as [Hfs1 Hfs2].
    pose proof (push_spec d c Hwf) as Hspec. cbn [push_all].
    destruct (FrameDecoder.push d c) as [d1 [out|e|ft]] eqn:Hpush; [| |done].
    + destruct Hspec as (_ & Hl1 & Hs1).
      destruct (stream_deterministic _ _ _ Hs _ _ Hs1) as [<- ->].
      cbn [otry]. erewrite (IH d1 fs2); [|by eapply push_wf|congruence|done..].
      cbn [otry]. unfold FrameDecoder.set_buffer. by rewrite Hl1.
    + exfalso. destruct Hspec as [[_ Hover]|(_ & _ & fs' & bad & Hall & Hfs' & Hbad)].
      * rewrite length_app, Hlim in Hover. unfold MAX_BUFFERED_BYTES in Hover.
        destruct (fs1 ++ fs2) as [|f gs] eqn:Hcat.
        { rewrite Hnil in Hover by done. simpl in Hover. unfold FRAME_HEADER_LEN, MAX_MEDIA_PAYLOAD in *. lia. }
        specialize (Hlt f gs eq_refl).
        assert (Hf : Frame.wf f).
        { assert (Forall Frame.wf (f :: gs)) as Hall by (rewrite <- Hcat; by apply Forall_app).
          by apply Forall_cons in Hall as [? _]. }
        destruct Hf as [[_ _ _ Hpl] Hpay]. unfold Frame.encoded_len in Hlt.
        pose proof (payload_limit_pos (FrameHeader.kind (Frame.header f))). lia.
      * by apply (stream_no_error _ _ _ Hs fs' bad e).
Qed.

(** ** Properties of the frame layer *)

(** C1: bytes that carry whole frames are reassembled exactly, however the
    transport cuts them into chunks of at most one maximal frame, and nothing
    stays behind in the buffer. *)
Theorem decoder_reassembles_any_chunking fs chunks :
  Forall Frame.wf fs -> concat chunks = encode_all fs ->
  Forall (fun c => zlen c <= FRAME_HEADER_LEN + MAX_MEDIA_PAYLOAD) chunks ->
  push_all FrameDecoder.new chunks = (FrameDecoder.new, Ok fs).
Proof.
  intros Hfs Heq Hcs.
  apply (push_all_reassembles chunks FrameDecoder.new fs new_decoder_wf); [done..| |done|done|done].
  intros f gs _. unfold Frame.encoded_len, FRAME_HEADER_LEN. simpl. lia.
Qed.

(** C2: [push] implements the stream specification: within the memory ceiling
    it succeeds exactly when the buffered bytes followed by the chunk read as
    frames and an incomplete tail, it returns those frames and keeps that tail. *)
Theorem push_refines_stream d chunk fs tail :
  FrameDecoder.wf d ->
  zlen (FrameDecoder.buffer d ++ chunk) <= FrameDecoder.buffer_limit d ->
  FrameDecoder.push d chunk = (FrameDecoder.set_buffer d tail, Ok fs) <->
  stream (FrameDecoder.buffer d ++ chunk) fs tail.
Proof.
  intros Hwf Hle. pose proof (push_spec d chunk Hwf) as Hspec. split.
  - intros Hp. rewrite Hp in Hspec. by destruct Hspec as (_ & _ & ?).
  - intros Hs. destruct (FrameDecoder.push d chunk) as [d' [out|e|f]]; [| |done].
    + destruct Hspec as (_ & Hl & Hs').
      destruct (stream_deterministic _ _ _ Hs _ _ Hs') as [-> ->].
      unfold FrameDecoder.set_buffer. rewrite <- Hl. by destruct d'.
    + destruct Hspec as [[_ ?]|(_ & _ & fs' & bad & Hall & Hfs' & Hbad)]; [lia|].
      by destruct (stream_no_error _ _ _ Hs fs' bad e).
Qed.

(** C39: two runs over the same bytes, cut into chunks in two ways, that both
    succeed produce the same frames and the same buffered tail. *)
Theorem chunk_boundaries_are_invisible d d1 d2 cs1 cs2 fs1 fs2 :
  FrameDecoder.wf d ->
  (exists m, decode_prefix (FrameDecoder.buffer d) = Ok (DecodeOutcome.NeedMoreData m)) ->
  concat cs1 = concat cs2 ->
  push_all d cs1 = (d1, Ok fs1) -> push_all d cs2 = (d2, Ok fs2) ->
  fs1 = fs2 /\ FrameDecoder.buffer d1 = FrameDecoder.buffer d2.
Proof.
  intros Hwf Hm Heq H1 H2. apply push_all_stream in H1, H2; [|done..].
  rewrite Heq in H1. by eapply stream_deterministic.
Qed.

(** A push that the memory ceiling refuses leaves the decoder as it was, and
    after a rejected header the decoder stays rejected: the bytes are kept, so
    every later push within the ceiling reports the same error until [clear]. *)
Theorem push_error_is_sticky d chunk d' e :
  FrameDecoder.wf d -> FrameDecoder.push d chunk = (d', Err e) ->
  (d' = d /\ FrameDecoder.buffer_limit d < zlen (FrameDecoder.buffer d ++ chunk)) \/
  (forall more, zlen (FrameDecoder.buffer d' ++ more) <= FrameDecoder.buffer_limit d' ->
     snd (FrameDecoder.push d' more) = Err e).
Proof.
  intros Hwf Hp. pose proof (push_spec d chunk Hwf) as Hspec. rewrite Hp in Hspec.
  destruct Hspec as [|(Hle & -> & fs & bad & Hall & Hfs & Hbad)]; [by left|right].
  intros more Hmore. assert (Hwf' := push_wf _ _ _ _ Hwf Hp).
  pose proof (push_spec _ more Hwf') as Hspec. simpl in *. rewrite Hall, <- app_assoc in *.
  apply (decode_prefix_error_stable _ more) in Hbad.
  destruct (FrameDecoder.push _ more) as [d2 [out|e2|ft]]; [| |done].
  - destruct Hspec as (_ & _ & Hs). by destruct (stream_no_error _ _ _ Hs fs (bad ++ more) e).
  - simpl. destruct Hspec as [[_ ?]|(_ & _ & fs2 & bad2 & Heq2 & Hfs2 & Hbad2)]; [lia|].
    f_equal. by apply (rejected_once fs2 bad2 e2 Hfs2 Hbad2 fs (bad ++ more) e).
Qed.

(** No input makes the decoder panic or loop, and its buffer never exceeds
    the configured ceiling. *)
Theorem decoder_bounded_and_total d chunk :
  FrameDecoder.wf d ->
  returns (snd (FrameDecoder.push d chunk)) /\
  FrameDecoder.buffered_len (fst (FrameDecoder.push d chunk)) <= FrameDecoder.buffer_limit d /\
  FrameDecoder.wf (fst (FrameDecoder.push d chunk)).
Proof.
  intros Hwf. pose proof (push_spec d chunk Hwf) as Hspec.
  destruct (FrameDecoder.push d chunk) as [d' r] eqn:Hp. pose proof (push_wf _ _ _ _ Hwf Hp) as Hwf'.
  simpl. split; [by destruct r|]. split; [|done].
  destruct Hwf' as [_ Hb]. unfold FrameDecoder.buffered_len.
  destruct r as [fs|e|]; [destruct Hspec as (_ & <- & _); done| |done].
  by destruct Hspec as [[-> _]|(? & -> & _)].
Qed.

(** [decode_prefix] recognises exactly the encodings of well-formed frames
    at the front of the bytes, and reports their encoded length. *)
Theorem decode_prefix_iff bs f n :
  decode_prefix bs = Ok (DecodeOutcome.Complete f n) <->
  Frame.wf f /\ n = Frame.encoded_len f /\ exists rest, bs = Frame.encode f ++ rest.
Proof.
  split; [apply decode_prefix_complete_inv|].
  intros (Hwf & -> & rest & ->). by apply decode_prefix_encode.
Qed.

Lemma from_payload_spec `{WirePayloadLaws P} flags seq (p : P) :
  wire_wf p -> FrameFlags.wf flags -> in_u 64 seq ->
  exists f, Frame.from_payload flags seq p = Ok f /\ Frame.wf f /\
    Frame.decode_payload P f = Ok p /\
    FrameHeader.kind (Frame.header f) = KIND (P:=P) /\
    FrameHeader.sequence (Frame.header f) = seq /\
    FrameHeader.flags (Frame.header f) = flags /\
    (forall rest, decode_prefix (Frame.encode f ++ rest) =
       Ok (DecodeOutcome.Complete f (Frame.encoded_len f))).
Proof.
  intros Hp Hf Hs. destruct (wire_wf_encodes p Hp) as [bs Hbs].
  unfold Frame.from_payload. rewrite Hbs. cbn [obind].
  eexists. assert (Hnew : Frame.new (KIND (P:=P)) flags seq bs =
    Ok (Frame.mk (FrameHeader.mk PROTOCOL_VERSION KIND flags seq (zlen bs)) bs)).
  { apply Frame_new_iff; [done..|]. split; [done|]. by apply (wire_encode_fits p). }
  pose proof (Frame_new_wf _ _ _ _ _ Hf Hs Hnew) as Hwf.
  split; [exact Hnew|]. split; [exact Hwf|]. split.
  { unfold Frame.decode_payload. simpl. rewrite bool_decide_eq_false_2 by naive_solver.
    by apply wire_decode_iff. }
  repeat (split; [done|]). intros rest. by apply decode_prefix_encode.
Qed.

(** A typed payload survives the trip through a frame, and no other payload
    family accepts it. *)
Theorem typed_frame_roundtrip `{WirePayloadLaws P} flags seq (p : P) :
  wire_wf p -> FrameFlags.wf flags -> in_u 64 seq ->
  exists f, Frame.from_payload flags seq p = Ok f /\ Frame.wf f /\
    Frame.decode_payload P f = Ok p /\
    FrameHeader.kind (Frame.header f) = KIND (P:=P) /\
    FrameHeader.sequence (Frame.header f) = seq /\
    FrameHeader.flags (Frame.header f) = flags /\
    (forall rest, decode_prefix (Frame.encode f ++ rest) =
       Ok (DecodeOutcome.Complete f (Frame.encoded_len f))).
Proof. apply from_payload_spec. Qed.

(** ** The properties at concrete inputs *)
Module FrameExamples.
(** A keyframe of three bytes and an empty ping. *)
Definition video : Frame.t :=
  Frame.mk (FrameHeader.mk PROTOCOL_VERSION MessageType.VideoFrame FrameFlags.KEYFRAME 7 3)
    [x01; x02; x03].
Definition ping : Frame.t :=
  Frame.mk (FrameHeader.mk PROTOCOL_VERSION MessageType.Ping FrameFlags.NONE 8 0) [].
Definition traffic : list byte := encode_all [video; ping].
(** The traffic cut inside the first header and inside the first payload. *)
Definition cuts : list (list byte) :=
  [take 10 traffic; take 16 (drop 10 traffic); drop 26 traffic].
Definition noise : list byte := repeat x00 24.

Lemma video_wf : Frame.wf video.
Proof. split; [split; vm_compute; (done || split; (done || discriminate))|reflexivity]. Qed.
Lemma ping_wf : Frame.wf ping.
Proof. split; [split; vm_compute; (done || split; (done || discriminate))|reflexivity]. Qed.
Lemma frames_wf : Forall Frame.wf [video; ping].
Proof. repeat constructor; apply video_wf || apply ping_wf. Qed.
Lemma small_wf : FrameDecoder.wf (FrameDecoder.with_buffer_limit 64).
Proof. split; vm_compute; [split; (done || discriminate)|discriminate]. Qed.

Lemma decoder_reassembles_any_chunking_witness :
  push_all FrameDecoder.new cuts = (FrameDecoder.new, Ok [video; ping]).
Proof.
  apply (decoder_reassembles_any_chunking [video; ping] cuts frames_wf);
    [vm_compute; reflexivity|repeat constructor; vm_compute; discriminate].
Defined.

Lemma push_refines_stream_witness :
  stream (take 30 traffic) [video] (take 3 (drop 27 traffic)).
Proof.
  apply (push_refines_stream (FrameDecoder.with_buffer_limit 64) (take 30 traffic) [video]
    (take 3 (drop 27 traffic)) small_wf); vm_compute; (discriminate || reflexivity).
Defined.

Lemma chunk_boundaries_are_invisible_witness :
  exists d1 d2 fs1 fs2,
    push_all FrameDecoder.new cuts = (d1, Ok fs1) /\
    push_all FrameDecoder.new [traffic] = (d2, Ok fs2) /\ fs1 = fs2.
Proof.
  exists FrameDecoder.new, FrameDecoder.new, [video; ping], [video; ping].
  assert (H1 : push_all FrameDecoder.new cuts = (FrameDecoder.new, Ok [video; ping]))
    by (vm_compute; reflexivity).
  assert (H2 : push_all FrameDecoder.new [traffic] = (FrameDecoder.new, Ok [video; ping]))
    by (vm_compute; reflexivity).
  split; [exact H1|]. split; [exact H2|].
  apply (chunk_boundaries_are_invisible FrameDecoder.new FrameDecoder.new FrameDecoder.new cuts
    [traffic] [video; ping] [video; ping] new_decoder_wf);
    [by exists 24|vm_compute; reflexivity|exact H1|exact H2].
Defined.

Lemma push_error_is_sticky_witness :
  exists d', FrameDecoder.push (FrameDecoder.with_buffer_limit 64) noise =
      (d', Err (ProtocolError.InvalidMagic [x00; x00; x00; x00])) /\
    snd (FrameDecoder.push d' [x01]) = Err (ProtocolError.InvalidMagic [x00; x00; x00; x00]).
Proof.
  eexists. split; [vm_compute; reflexivity|].
  edestruct (push_error_is_sticky (FrameDecoder.with_buffer_limit 64) noise) as [[_ H]|H];
    [apply small_wf|vm_compute; reflexivity|discriminate H|].
  apply H. vm_compute. discriminate.
Defined.

Lemma decoder_bounded_and_total_witness :
  returns (snd (FrameDecoder.push (FrameDecoder.with_buffer_limit 64) (repeat xff 65))).
Proof. apply (decoder_bounded_and_total (FrameDecoder.with_buffer_limit 64)), small_wf. Defined.
End FrameExamples.
