(* ===== verification/ProtoMessage.v ===== *)
(** * Hello and Capabilities

    Models [crates/ladoflow-protocol/src/message.rs]: endpoint roles, the
    capability masks, the two negotiation payloads and their codecs. *)
From S2P Require Export ProtoTypes.
Local Open Scope string_scope.
Local Open Scope list_scope.
Local Open Scope Z_scope.

Definition HELLO_PREFIX_LEN : Z := 22.
Definition CAPABILITIES_LEN : Z := 20.
Definition MAX_IMPLEMENTATION_NAME_BYTES : Z := 64.

Module Role.
Inductive t : Type :=
| Host
| Display.

#[global] Instance t_eq_dec : EqDecision t.
Proof. solve_decision. Defined.

Definition to_u8 (r : t) : Z :=
  match r with
  | Host => 1
  | Display => 2
  end.

Definition try_from (value : Z) : presult t :=
  match value with
  | 1 => Ok Host
  | 2 => Ok Display
  | _ => invalid "unknown endpoint role"
  end.
End Role.

Definition validate_protocol_range (min_protocol max_protocol : Z) : presult unit :=
  if min_protocol =? 0 then invalid "minimum protocol version must be non-zero"
  else if min_protocol >? max_protocol then invalid "minimum protocol version exceeds maximum"
  else Ok tt.

Definition validate_implementation_name (name : list byte) : presult unit :=
  if bool_decide (name = []) then invalid "implementation name must not be empty"
  else if zlen name >? MAX_IMPLEMENTATION_NAME_BYTES then invalid "implementation name is too long"
  else if contains_nul name then invalid "implementation name contains a null byte"
  else Ok tt.

Module Hello.
Record t : Type := mk {
  min_protocol : Z;
  max_protocol : Z;
  role : Role.t;
  nonce : list byte;
  implementation_name : list byte;
}.

#[global] Instance t_eq_dec : EqDecision t.
Proof. solve_decision. Defined.

Definition new (min_protocol max_protocol : Z) (role : Role.t) (nonce : list byte)
  (implementation_name : list byte) : presult t :=
  let! _ := validate_protocol_range min_protocol max_protocol in
  let! _ := validate_implementation_name implementation_name in
  Ok (mk min_protocol max_protocol role nonce implementation_name).

Definition encode (self : t) : presult (list byte) :=
  let! _ := validate_protocol_range (min_protocol self) (max_protocol self) in
  let! _ := validate_implementation_name (implementation_name self) in
  let name := implementation_name self in
  let! name_len := ok_or (checked 8 (zlen name))
    (ProtocolError.InvalidPayload "implementation name is too long") in
  Ok (be_bytes 2 (min_protocol self) ++ be_bytes 2 (max_protocol self) ++
      [byte_of_Z (Role.to_u8 (role self))] ++ [byte_of_Z name_len] ++
      nonce self ++ name).

Definition decode (payload : list byte) : presult t :=
  if zlen payload <? HELLO_PREFIX_LEN then invalid "hello payload is truncated" else
  let! min_protocol := read_u16 payload 0 in
  let! max_protocol := read_u16 payload 2 in
  let! role_byte := index payload 4 in
  let! role := Role.try_from (byte_to_Z role_byte) in
  let! len_byte := index payload 5 in
  let name_len := byte_to_Z len_byte in
  let! expected_len := chk usize_bits (HELLO_PREFIX_LEN + name_len) in
  if negb (zlen payload =? expected_len)
  then invalid "hello implementation-name length does not match payload" else
  let! nonce := slice payload 6 22 in
  let! name := slice_from payload 22 in
  let! implementation_name :=
    if utf8_valid name then Ok name else Err ProtocolError.InvalidUtf8 in
  new min_protocol max_protocol role nonce implementation_name.

(** What [new] establishes of its typed arguments. *)
Record wf (h : t) : Prop := {
  wf_min : in_u 16 (min_protocol h);
  wf_max : in_u 16 (max_protocol h);
  wf_range : 0 < min_protocol h <= max_protocol h;
  wf_nonce : length (nonce h) = 16%nat;
  wf_name_len : 0 < zlen (implementation_name h) <= MAX_IMPLEMENTATION_NAME_BYTES;
  wf_name_nul : contains_nul (implementation_name h) = false;
  wf_name_utf8 : utf8_valid (implementation_name h) = true;
}.
End Hello.

(** ** Capability masks *)

Module CodecSet.
Record t : Type := mk { bits : Z }.
#[global] Instance t_eq_dec : EqDecision t.
Proof. solve_decision. Defined.
Definition H264 : t := mk (Z.shiftl 1 0).
Definition HEVC : t := mk (Z.shiftl 1 1).
Definition AV1 : t := mk (Z.shiftl 1 2).
Definition KNOWN_MASK : Z := Z.lor (Z.lor (bits H264) (bits HEVC)) (bits AV1).
Definition from_bits (b : Z) : presult t :=
  if Z.land b (bit_not 16 KNOWN_MASK) =? 0 then Ok (mk b)
  else invalid "unknown codec capability".
Definition contains (self other : t) : bool :=
  Z.land (bits self) (bits other) =? bits other.
Definition is_empty (self : t) : bool := bits self =? 0.
Definition bitor (self rhs : t) : t := mk (Z.lor (bits self) (bits rhs)).
Definition wf (s : t) : Prop := 0 <= bits s < 8.
End CodecSet.

Module InputCapabilities.
Record t : Type := mk { bits : Z }.
#[global] Instance t_eq_dec : EqDecision t.
Proof. solve_decision. Defined.
(** The derived [Default]. *)
Definition default : t := mk 0.
Definition POINTER : t := mk (Z.shiftl 1 0).
Definition TOUCH : t := mk (Z.shiftl 1 1).
Definition KEYBOARD : t := mk (Z.shiftl 1 2).
Definition KNOWN_MASK : Z := Z.lor (Z.lor (bits POINTER) (bits TOUCH)) (bits KEYBOARD).
Definition from_bits (b : Z) : presult t :=
  if Z.land b (bit_not 16 KNOWN_MASK) =? 0 then Ok (mk b)
  else invalid "unknown input capability".
Definition contains (self other : t) : bool :=
  Z.land (bits self) (bits other) =? bits other.
Definition bitor (self rhs : t) : t := mk (Z.lor (bits self) (bits rhs)).
Definition wf (s : t) : Prop := 0 <= bits s < 8.
End InputCapabilities.

Module FeatureFlags.
Record t : Type := mk { bits : Z }.
#[global] Instance t_eq_dec : EqDecision t.
Proof. solve_decision. Defined.
Definition default : t := mk 0.
Definition DYNAMIC_ROTATION : t := mk (Z.shiftl 1 0).
Definition REMOTE_CURSOR : t := mk (Z.shiftl 1 1).
Definition AUDIO : t := mk (Z.shiftl 1 2).
Definition KNOWN_MASK : Z := Z.lor (Z.lor (bits DYNAMIC_ROTATION) (bits REMOTE_CURSOR)) (bits AUDIO).
Definition from_bits (b : Z) : presult t :=
  if Z.land b (bit_not 32 KNOWN_MASK) =? 0 then Ok (mk b)
  else invalid "unknown feature capability".
Definition contains (self other : t) : bool :=
  Z.land (bits self) (bits other) =? bits other.
Definition bitor (self rhs : t) : t := mk (Z.lor (bits self) (bits rhs)).
Definition wf (s : t) : Prop := 0 <= bits s < 8.
End FeatureFlags.

Module Capabilities.
Record t : Type := mk {
  max_width : Z;
  max_height : Z;
  max_refresh_millihz : Z;
  max_bitrate_kbps : Z;
  codecs : CodecSet.t;
  input : InputCapabilities.t;
  features : FeatureFlags.t;
}.

#[global] Instance t_eq_dec : EqDecision t.
Proof. solve_decision. Defined.

Definition new (max_width max_height max_refresh_millihz max_bitrate_kbps : Z)
  (codecs : CodecSet.t) (input : InputCapabilities.t) (features : FeatureFlags.t)
  : presult t :=
  if (max_width =? 0) || (max_height =? 0)
  then invalid "maximum display dimensions must be non-zero" else
  if max_refresh_millihz =? 0 then invalid "maximum refresh rate must be non-zero" else
  if max_bitrate_kbps =? 0 then invalid "maximum bitrate must be non-zero" else
  if CodecSet.is_empty codecs then invalid "at least one codec must be supported" else
  Ok (mk max_width max_height max_refresh_millihz max_bitrate_kbps codecs input features).

Definition encode (self : t) : presult (list byte) :=
  let! _ := new (max_width self) (max_height self) (max_refresh_millihz self)
    (max_bitrate_kbps self) (codecs self) (input self) (features self) in
  Ok (be_bytes 2 (max_width self) ++ be_bytes 2 (max_height self) ++
      be_bytes 4 (max_refresh_millihz self) ++ be_bytes 4 (max_bitrate_kbps self) ++
      be_bytes 2 (CodecSet.bits (codecs self)) ++
      be_bytes 2 (InputCapabilities.bits (input self)) ++
      be_bytes 4 (FeatureFlags.bits (features self))).

Definition decode (payload : list byte) : presult t :=
  if negb (zlen payload =? CAPABILITIES_LEN)
  then invalid "capabilities payload must be exactly 20 bytes" else
  let! max_width := read_u16 payload 0 in
  let! max_height := read_u16 payload 2 in
  let! max_refresh_millihz := read_u32 payload 4 in
  let! max_bitrate_kbps := read_u32 payload 8 in
  let! codec_bits := read_u16 payload 12 in
  let! codecs := CodecSet.from_bits codec_bits in
  let! input_bits := read_u16 payload 14 in
  let! input := InputCapabilities.from_bits input_bits in
  let! feature_bits := read_u32 payload 16 in
  let! features := FeatureFlags.from_bits feature_bits in
  new max_width max_height max_refresh_millihz max_bitrate_kbps codecs input features.

Record wf (c : t) : Prop := {
  wf_width : 0 < max_width c < 2 ^ 16;
  wf_height : 0 < max_height c < 2 ^ 16;
  wf_refresh : 0 < max_refresh_millihz c < 2 ^ 32;
  wf_bitrate : 0 < max_bitrate_kbps c < 2 ^ 32;
  wf_codecs : CodecSet.wf (codecs c) /\ CodecSet.bits (codecs c) <> 0;
  wf_input : InputCapabilities.wf (input c);
  wf_features : FeatureFlags.wf (features c);
}.
End Capabilities.

#[export] Instance Hello_payload : WirePayload Hello.t := {
  KIND := MessageType.Hello;
  wire_encode := Hello.encode;
  wire_decode := Hello.decode;
}.

#[export] Instance Capabilities_payload : WirePayload Capabilities.t := {
  KIND := MessageType.Capabilities;
  wire_encode := Capabilities.encode;
  wire_decode := Capabilities.decode;
}.

(** ** Masks *)
Lemma codec_from_bits_spec b f :
  in_u 16 b -> CodecSet.from_bits b = Ok f <-> f = CodecSet.mk b /\ CodecSet.wf (CodecSet.mk b).
Proof. by apply (from_bits_iff 16 3). Qed.

Lemma input_from_bits_spec b f :
  in_u 16 b -> InputCapabilities.from_bits b = Ok f <->
  f = InputCapabilities.mk b /\ InputCapabilities.wf (InputCapabilities.mk b).
Proof. by apply (from_bits_iff 16 3). Qed.

Lemma feature_from_bits_spec b f :
  in_u 32 b -> FeatureFlags.from_bits b = Ok f <->
  f = FeatureFlags.mk b /\ FeatureFlags.wf (FeatureFlags.mk b).
Proof. by apply (from_bits_iff 32 3). Qed.

Lemma returns_codec_from_bits b : returns (CodecSet.from_bits b).
Proof. unfold CodecSet.from_bits. by case_match. Qed.
Lemma returns_input_from_bits b : returns (InputCapabilities.from_bits b).
Proof. unfold InputCapabilities.from_bits. by case_match. Qed.
Lemma returns_feature_from_bits b : returns (FeatureFlags.from_bits b).
Proof. unfold FeatureFlags.from_bits. by case_match. Qed.
#[export] Hint Resolve returns_codec_from_bits returns_input_from_bits
  returns_feature_from_bits : rust.

(** ** Hello *)
Lemma Role_try_from_iff v r : Role.try_from v = Ok r <-> v = Role.to_u8 r.
Proof.
  solve_enum_iff Role.try_from v r.
Qed.

Lemma returns_Role_try_from v : returns (Role.try_from v).
Proof.
  unfold Role.try_from. by repeat case_match.
Qed.
#[export] Hint Resolve returns_Role_try_from : rust.

Lemma validate_protocol_range_ok a b :
  0 <= a -> validate_protocol_range a b = Ok tt <-> 0 < a <= b.
Proof.
  intros Ha. unfold validate_protocol_range. rewrite Z.gtb_ltb.
  destruct (Z.eqb_spec a 0); [split; [done|lia]|].
  destruct (Z.ltb_spec b a); split; (done || lia).
Qed.

Lemma validate_implementation_name_ok n :
  validate_implementation_name n = Ok tt <->
  0 < zlen n <= MAX_IMPLEMENTATION_NAME_BYTES /\ contains_nul n = false.
Proof.
  unfold validate_implementation_name. rewrite Z.gtb_ltb.
  case_bool_decide as Hn; [subst; split; [done|]; simpl; lia|].
  assert (0 < zlen n) by (destruct n; simpl; [done|lia]).
  destruct (Z.ltb_spec MAX_IMPLEMENTATION_NAME_BYTES (zlen n)); [split; [done|lia]|].
  destruct (contains_nul n); naive_solver.
Qed.

Lemma returns_validate_protocol_range a b : returns (validate_protocol_range a b).
Proof. unfold validate_protocol_range. solve_returns. Qed.
Lemma returns_validate_implementation_name n : returns (validate_implementation_name n).
Proof. unfold validate_implementation_name. solve_returns. Qed.
#[export] Hint Resolve returns_validate_protocol_range returns_validate_implementation_name : rust.

Lemma Hello_new_iff mn mx r nonce name h :
  0 <= mn ->
  Hello.new mn mx r nonce name = Ok h <->
  h = Hello.mk mn mx r nonce name /\ 0 < mn <= mx /\
  0 < zlen name <= MAX_IMPLEMENTATION_NAME_BYTES /\ contains_nul name = false.
Proof.
  intros Hmn. unfold Hello.new.
  rewrite <- (validate_protocol_range_ok mn mx), <- validate_implementation_name_ok by done.
  destruct (validate_protocol_range mn mx) as [[]|e|f], (validate_implementation_name name) as [[]|e'|f'];
    simpl; naive_solver.
Qed.

Lemma Hello_new_wf mn mx r nonce name h :
  in_u 16 mn -> in_u 16 mx -> length nonce = 16%nat -> utf8_valid name = true ->
  Hello.new mn mx r nonce name = Ok h -> Hello.wf h.
Proof.
  intros Hmn Hmx Hn Hu Hnew. apply Hello_new_iff in Hnew as (-> & Hr & Hl & Hc);
    [|unfold in_u in *; lia]. by split.
Qed.

Lemma Hello_encode_wf h :
  Hello.wf h -> Hello.encode h =
    Ok (be_bytes 2 (Hello.min_protocol h) ++ be_bytes 2 (Hello.max_protocol h) ++
        [byte_of_Z (Role.to_u8 (Hello.role h))] ++
        [byte_of_Z (zlen (Hello.implementation_name h))] ++
        Hello.nonce h ++ Hello.implementation_name h).
Proof.
  intros [_ _ Hr _ Hl Hc _]. unfold Hello.encode.
  rewrite (proj2 (validate_protocol_range_ok (Hello.min_protocol h) _ ltac:(lia)) Hr).
  cbn [obind]. rewrite (proj2 (validate_implementation_name_ok _) (conj Hl Hc)).
  unfold MAX_IMPLEMENTATION_NAME_BYTES in Hl.
  cbn [obind]. by rewrite checked_in by (unfold in_u; lia).
Qed.

Lemma returns_Hello_new a b r n m : returns (Hello.new a b r n m).
Proof. unfold Hello.new. solve_returns. Qed.
#[export] Hint Resolve returns_Hello_new : rust.

#[local] Arguments Z.eqb : simpl never.
#[local] Arguments Z.ltb : simpl never.
#[local] Arguments Z.of_nat : simpl never.
#[local] Arguments HELLO_PREFIX_LEN : simpl never.
#[local] Arguments CAPABILITIES_LEN : simpl never.

(** After its 22-byte prefix, a hello is a function of the fields and the name. *)
Lemma Hello_decode_prefix b0 b1 b2 b3 b4 b5 nonce name :
  length nonce = 16%nat ->
  Hello.decode ([b0; b1; b2; b3; b4; b5] ++ nonce ++ name) =
    (let! role := Role.try_from (byte_to_Z b4) in
     if negb (zlen name =? byte_to_Z b5)
     then invalid "hello implementation-name length does not match payload" else
     let! name := if utf8_valid name then Ok name else Err ProtocolError.InvalidUtf8 in
     Hello.new (be_value [b0; b1]) (be_value [b2; b3]) role nonce name).
Proof.
  intros Hn. unfold Hello.decode, HELLO_PREFIX_LEN.
  assert (Hlen : zlen ([b0; b1; b2; b3; b4; b5] ++ nonce ++ name) = 22 + zlen name)
    by (rewrite !length_app, Hn; simpl; lia).
  rewrite Hlen. destruct (Z.ltb_spec (22 + zlen name) 22); [lia|].
  assert (Hnat : length ([b0; b1; b2; b3; b4; b5] ++ nonce ++ name) = (22 + length name)%nat) by lia.
  unfold slice_from. rewrite (slice_ok _ 22), (slice_ok _ 6) by lia. rewrite Hnat.
  change ([b0; b1; b2; b3; b4; b5] ++ nonce ++ name)
    with (b0 :: b1 :: b2 :: b3 :: b4 :: b5 :: nonce ++ name).
  cbn [read_u16 index lookup list_lookup obind Nat.add]. simpl.
  destruct (Role.try_from (byte_to_Z b4)) as [r|e|f]; [|done..]. cbn [obind].
  pose proof (byte_to_Z_range b5). rewrite chk_ok by (unfold_int; lia). cbn [obind].
  destruct (Z.eqb_spec (22 + zlen name) (22 + byte_to_Z b5)),
    (Z.eqb_spec (zlen name) (byte_to_Z b5)); try lia; [|done]. cbn [negb].
  rewrite drop_0, take_length_app, drop_length_app by done.
  by rewrite firstn_all2 by lia.
Qed.

Lemma Hello_decode_short (bs : list byte) :
  zlen bs < 22 -> Hello.decode bs = invalid "hello payload is truncated".
Proof. intros H. unfold Hello.decode, HELLO_PREFIX_LEN. apply Z.ltb_lt in H. by rewrite H. Qed.

(** Every byte string is too short or a prefix, a nonce and a name. *)
Lemma Hello_split (bs : list byte) :
  22 <= zlen bs -> exists b0 b1 b2 b3 b4 b5 nonce name,
    bs = [b0; b1; b2; b3; b4; b5] ++ nonce ++ name /\ length nonce = 16%nat.
Proof.
  intros H. destruct (list_split_at 6 bs) as (a & r & -> & Ha); [lia|].
  rewrite length_app in H. destruct (list_split_at 16 r) as (n & m & -> & Hn); [lia|].
  explode_list a. by exists b, b0, b1, b2, b3, b4, n, m.
Qed.

Lemma returns_Hello_decode bs : returns (Hello.decode bs).
Proof.
  destruct (Z.ltb_spec (zlen bs) 22); [by rewrite Hello_decode_short|].
  destruct (Hello_split bs) as (b0 & b1 & b2 & b3 & b4 & b5 & nonce & name & -> & Hn); [done|].
  rewrite Hello_decode_prefix by done. solve_returns.
Qed.

Lemma Hello_decode_iff bs h : Hello.decode bs = Ok h <-> Hello.wf h /\ Hello.encode h = Ok bs.
Proof.
  split.
  - intros Hd. destruct (Z.ltb_spec (zlen bs) 22); [by rewrite Hello_decode_short in Hd|].
    destruct (Hello_split bs) as (b0 & b1 & b2 & b3 & b4 & b5 & nonce & name & -> & Hn); [done|].
    rewrite Hello_decode_prefix in Hd by done.
    apply obind_ok_inv in Hd as (r & Hr & Hd). apply Role_try_from_iff in Hr.
    destruct (Z.eqb_spec (zlen name) (byte_to_Z b5)) as [Hlen|]; [|done]. cbn [negb] in Hd.
    destruct (utf8_valid name) eqn:Hu; [|done]. cbn [obind] in Hd.
    pose proof (Hello_new_wf _ _ _ _ _ _ (be_value_in_u 16 [b0; b1] eq_refl)
      (be_value_in_u 16 [b2; b3] eq_refl) Hn Hu Hd) as Hwf.
    apply Hello_new_iff in Hd as (-> & _); [|apply be_value_range].
    split; [done|]. rewrite Hello_encode_wf by done. simpl.
    rewrite <- Hr, Hlen. by autorewrite with bytes.
  - intros [Hwf Henc]. rewrite Hello_encode_wf in Henc by done. injection Henc as <-.
    pose proof Hwf as [Hmn Hmx Hr Hn Hl Hc Hu]. destruct h as [mn mx r nonce name]. simpl in *.
    open_field 2%nat 16 mn; open_field 2%nat 16 mx. autorewrite with bytes.
    change (([b; b0] ++ [b1; b2] ++ ?x :: ?y :: ?l)) with ([b; b0; b1; b2; x; y] ++ l).
    rewrite Hello_decode_prefix by done.
    unfold MAX_IMPLEMENTATION_NAME_BYTES in Hl.
    rewrite !byte_to_of_Z, Z.mod_small by (destruct r; simpl; lia).
    rewrite (proj2 (Role_try_from_iff _ r) eq_refl). cbn [obind].
    rewrite Z.mod_small, Z.eqb_refl by lia. cbn [negb]. rewrite Hu. cbn [obind].
    apply Hello_new_iff; [lia|]. done.
Qed.

(** ** Capabilities *)

Lemma Capabilities_new_iff w h r b c i f cap :
  0 <= w -> 0 <= h -> 0 <= r -> 0 <= b ->
  Capabilities.new w h r b c i f = Ok cap <->
  cap = Capabilities.mk w h r b c i f /\
  0 < w /\ 0 < h /\ 0 < r /\ 0 < b /\ CodecSet.bits c <> 0.
Proof.
  intros. unfold Capabilities.new, CodecSet.is_empty.
  destruct (Z.eqb_spec w 0), (Z.eqb_spec h 0), (Z.eqb_spec r 0), (Z.eqb_spec b 0),
    (Z.eqb_spec (CodecSet.bits c) 0); simpl; split;
    try (intros [=]; fail); try (intros [-> ?]; lia);
    [intros [= <-]; repeat split; lia|by intros [-> _]].
Qed.

Lemma returns_Capabilities_new w h r b c i f : returns (Capabilities.new w h r b c i f).
Proof. unfold Capabilities.new. solve_returns. Qed.
#[export] Hint Resolve returns_Capabilities_new : rust.

Lemma Capabilities_new_wf w h r b c i f cap :
  in_u 16 w -> in_u 16 h -> in_u 32 r -> in_u 32 b ->
  CodecSet.wf c -> InputCapabilities.wf i -> FeatureFlags.wf f ->
  Capabilities.new w h r b c i f = Ok cap -> Capabilities.wf cap.
Proof.
  unfold in_u. intros Hw Hh Hr Hb Hc Hi Hf Hn.
  apply Capabilities_new_iff in Hn as (-> & ? & ? & ? & ? & ?); [|lia..].
  split; simpl; (done || lia).
Qed.

Lemma Capabilities_new_self c :
  Capabilities.wf c ->
  Capabilities.new (Capabilities.max_width c) (Capabilities.max_height c)
    (Capabilities.max_refresh_millihz c) (Capabilities.max_bitrate_kbps c)
    (Capabilities.codecs c) (Capabilities.input c) (Capabilities.features c) = Ok c.
Proof.
  intros [Hw Hh Hr Hb [_ Hc] _ _]. apply Capabilities_new_iff; [lia..|].
  destruct c. simpl in *. repeat split; (done || lia).
Qed.

Lemma returns_Capabilities_decode bs : returns (Capabilities.decode bs).
Proof.
  unfold Capabilities.decode, CAPABILITIES_LEN. destruct (Z.eqb_spec (zlen bs) 20); [|done].
  cbn [negb]. solve_returns.
Qed.

Lemma Capabilities_decode_iff bs c :
  Capabilities.decode bs = Ok c <-> Capabilities.wf c /\ Capabilities.encode c = Ok bs.
Proof.
  split.
  - unfold Capabilities.decode, CAPABILITIES_LEN.
    destruct (Z.eqb_spec (zlen bs) 20) as [Hl|]; [|done]. intros Hd.
    assert (length bs = 20%nat) as Hlen by lia. clear Hl. explode_list bs. simpl in Hd.
    apply obind_ok_inv in Hd as (cs & Hcs & Hd).
    apply codec_from_bits_spec in Hcs as [-> Hcs]; [|by apply be_value_in_u].
    apply obind_ok_inv in Hd as (inp & Hin & Hd).
    apply input_from_bits_spec in Hin as [-> Hin]; [|by apply be_value_in_u].
    apply obind_ok_inv in Hd as (fe & Hfe & Hd).
    apply feature_from_bits_spec in Hfe as [-> Hfe]; [|by apply be_value_in_u].
    assert (Hwf : Capabilities.wf c)
      by (eapply Capabilities_new_wf in Hd; [done|by apply be_value_in_u..|done|done|done]).
    split; [done|]. unfold Capabilities.encode. rewrite Capabilities_new_self by done.
    apply Capabilities_new_iff in Hd as (-> & _); [|apply be_value_range..].
    simpl. by autorewrite with bytes.
  - intros [Hwf He]. unfold Capabilities.encode in He.
    rewrite Capabilities_new_self in He by done. simpl in He. injection He as <-.
    pose proof (Capabilities_new_self c Hwf) as Hnew.
    destruct Hwf as [Hw Hh Hr Hb [Hc Hc0] Hi Hf].
    destruct c as [w h r b [cb] [ib] [fb]]. simpl in *.
    assert (in_u 16 cb /\ in_u 16 ib /\ in_u 32 fb) as (Hcb & Hib & Hfb)
      by (unfold CodecSet.wf, InputCapabilities.wf, FeatureFlags.wf, in_u in *; simpl in *; lia).
    open_field 2%nat 16 w; open_field 2%nat 16 h; open_field 4%nat 32 r; open_field 4%nat 32 b;
      open_field 2%nat 16 cb; open_field 2%nat 16 ib; open_field 4%nat 32 fb.
    autorewrite with bytes. unfold Capabilities.decode. simpl.
    rewrite (proj2 (codec_from_bits_spec _ _ Hcb)) by done. simpl.
    rewrite (proj2 (input_from_bits_spec _ _ Hib)) by done. simpl.
    by rewrite (proj2 (feature_from_bits_spec _ _ Hfb)) by done.
Qed.

(** ** The payload interface *)

#[export, refine] Instance Hello_laws : WirePayloadLaws Hello.t := {
  wire_wf := Hello.wf;
  wire_decode_returns := returns_Hello_decode;
  wire_decode_iff := Hello_decode_iff;
}.
Proof.
  - intros h. unfold wire_encode, Hello_payload, Hello.encode. solve_returns.
  - intros h Hwf. eexists. by apply Hello_encode_wf.
  - intros h bs Hwf He. unfold wire_encode, Hello_payload in He.
    rewrite Hello_encode_wf in He by done. injection He as <-.
    destruct Hwf as [_ _ _ Hn [_ Hl] _ _]. unfold MAX_IMPLEMENTATION_NAME_BYTES in Hl.
    measure_bytes. rewrite Hn.
    change (MessageType.payload_limit KIND) with MAX_CONTROL_PAYLOAD.
    unfold MAX_CONTROL_PAYLOAD. lia.
Defined.

#[export, refine] Instance Capabilities_laws : WirePayloadLaws Capabilities.t := {
  wire_wf := Capabilities.wf;
  wire_decode_returns := returns_Capabilities_decode;
  wire_decode_iff := Capabilities_decode_iff;
}.
Proof.
  - intros c. unfold wire_encode, Capabilities_payload, Capabilities.encode. solve_returns.
  - intros c Hwf. unfold wire_encode, Capabilities_payload, Capabilities.encode.
    rewrite Capabilities_new_self by done. by eexists.
  - intros c bs Hwf He. unfold wire_encode, Capabilities_payload, Capabilities.encode in He.
    rewrite Capabilities_new_self in He by done. injection He as <-.
    rewrite !length_app, !length_be_bytes. simpl. unfold MAX_CONTROL_PAYLOAD. lia.
Defined.

(** ** Properties of the negotiation payloads *)

(** A hello is decoded exactly from its encodings: the version range is
    non-empty and starts above zero, the role is known, the name is 1 to 64
    bytes of UTF-8 without a null byte and as long as its length byte says; any
    other byte string is refused, never a panic. *)
Theorem hello_codec_is_exact : exact_codec Hello.wf.
Proof. exact (laws_exact_codec (P:=Hello.t)). Qed.

(** Capabilities are decoded exactly from their 20-byte encodings, with
    non-zero limits, at least one codec and no unknown capability bit. *)
Theorem capabilities_codec_is_exact : exact_codec Capabilities.wf.
Proof. exact (laws_exact_codec (P:=Capabilities.t)). Qed.
