(* ===== verification/ProtoDisplay.v ===== *)
(** * Display configuration and encoded video frames

    Models [crates/ladoflow-protocol/src/display.rs]: codecs and their
    profiles, the negotiated display configuration, and the bounded video
    access unit with its fixed-size metadata. *)
From S2P Require Export ProtoMessage.
Local Open Scope string_scope.
Local Open Scope list_scope.
Local Open Scope Z_scope.

Definition DISPLAY_CONFIG_LEN : Z := 14.
Definition VIDEO_FRAME_METADATA_LEN : Z := 28.
Definition MAX_ENCODED_VIDEO_BYTES : Z := MAX_MEDIA_PAYLOAD - VIDEO_FRAME_METADATA_LEN.

Module VideoCodec.
Inductive t : Type :=
| H264
| Hevc
| Av1.
#[global] Instance t_eq_dec : EqDecision t.
Proof. solve_decision. Defined.

Definition to_u8 (c : t) : Z :=
  match c with
  | H264 => 1
  | Hevc => 2
  | Av1 => 3
  end.

Definition capability (self : t) : CodecSet.t :=
  match self with
  | H264 => CodecSet.H264
  | Hevc => CodecSet.HEVC
  | Av1 => CodecSet.AV1
  end.

Definition try_from (value : Z) : presult t :=
  match value with
  | 1 => Ok H264
  | 2 => Ok Hevc
  | 3 => Ok Av1
  | _ => invalid "unknown video codec"
  end.
End VideoCodec.

Module CodecProfile.
Inductive t : Type :=
| H264Baseline
| H264Main
| H264High
| HevcMain
| HevcMain10
| Av1Main.
#[global] Instance t_eq_dec : EqDecision t.
Proof. solve_decision. Defined.

Definition to_u8 (p : t) : Z :=
  match p with
  | H264Baseline => 1
  | H264Main => 2
  | H264High => 3
  | HevcMain => 16
  | HevcMain10 => 17
  | Av1Main => 32
  end.

Definition codec (self : t) : VideoCodec.t :=
  match self with
  | H264Baseline | H264Main | H264High => VideoCodec.H264
  | HevcMain | HevcMain10 => VideoCodec.Hevc
  | Av1Main => VideoCodec.Av1
  end.

Definition try_from (value : Z) : presult t :=
  match value with
  | 1 => Ok H264Baseline
  | 2 => Ok H264Main
  | 3 => Ok H264High
  | 16 => Ok HevcMain
  | 17 => Ok HevcMain10
  | 32 => Ok Av1Main
  | _ => invalid "unknown codec profile"
  end.
End CodecProfile.

Module DisplayConfig.
Record t : Type := mk {
  width : Z;
  height : Z;
  refresh_millihz : Z;
  bitrate_kbps : Z;
  codec : VideoCodec.t;
  profile : CodecProfile.t;
}.
#[global] Instance t_eq_dec : EqDecision t.
Proof. solve_decision. Defined.

Definition new (width height refresh_millihz bitrate_kbps : Z)
  (codec : VideoCodec.t) (profile : CodecProfile.t) : presult t :=
  if (width =? 0) || (height =? 0)
  then invalid "display dimensions must be non-zero"
  else if refresh_millihz =? 0
  then invalid "display refresh rate must be non-zero"
  else if bitrate_kbps =? 0
  then invalid "display bitrate must be non-zero"
  else if bool_decide (CodecProfile.codec profile <> codec)
  then invalid "codec profile does not belong to selected codec"
  else Ok (mk width height refresh_millihz bitrate_kbps codec profile).

Definition encode (self : t) : presult (list byte) :=
  let! _ := new (width self) (height self) (refresh_millihz self) (bitrate_kbps self)
    (codec self) (profile self) in
  Ok (be_bytes 2 (width self) ++ be_bytes 2 (height self) ++
      be_bytes 4 (refresh_millihz self) ++ be_bytes 4 (bitrate_kbps self) ++
      [byte_of_Z (VideoCodec.to_u8 (codec self))] ++
      [byte_of_Z (CodecProfile.to_u8 (profile self))]).

Definition decode (payload : list byte) : presult t :=
  if negb (zlen payload =? DISPLAY_CONFIG_LEN)
  then invalid "display-config payload must be exactly 14 bytes" else
  let! width := read_u16 payload 0 in
  let! height := read_u16 payload 2 in
  let! refresh_millihz := read_u32 payload 4 in
  let! bitrate_kbps := read_u32 payload 8 in
  let! codec_byte := index payload 12 in
  let! codec := VideoCodec.try_from (byte_to_Z codec_byte) in
  let! profile_byte := index payload 13 in
  let! profile := CodecProfile.try_from (byte_to_Z profile_byte) in
  new width height refresh_millihz bitrate_kbps codec profile.

Record wf (c : t) : Prop := {
  wf_width : 0 < width c < 2 ^ 16;
  wf_height : 0 < height c < 2 ^ 16;
  wf_refresh : 0 < refresh_millihz c < 2 ^ 32;
  wf_bitrate : 0 < bitrate_kbps c < 2 ^ 32;
  wf_profile : CodecProfile.codec (profile c) = codec c;
}.
End DisplayConfig.

Module VideoFrameMetadata.
Record t : Type := mk {
  frame_id : Z;
  capture_timestamp_micros : Z;
  presentation_timestamp_micros : Z;
  duration_micros : Z;
}.
#[global] Instance t_eq_dec : EqDecision t.
Proof. solve_decision. Defined.

Definition new (frame_id capture_timestamp_micros presentation_timestamp_micros
  duration_micros : Z) : presult t :=
  if duration_micros =? 0 then invalid "video frame duration must be non-zero"
  else Ok (mk frame_id capture_timestamp_micros presentation_timestamp_micros duration_micros).

Definition encode_into (self : t) (payload : list byte) : list byte :=
  payload ++ be_bytes 8 (frame_id self) ++ be_bytes 8 (capture_timestamp_micros self) ++
  be_bytes 8 (presentation_timestamp_micros self) ++ be_bytes 4 (duration_micros self).

Definition decode (payload : list byte) : presult t :=
  let! frame_id := read_u64 payload 0 in
  let! capture_timestamp_micros := read_u64 payload 8 in
  let! presentation_timestamp_micros := read_u64 payload 16 in
  let! duration_micros := read_u32 payload 24 in
  new frame_id capture_timestamp_micros presentation_timestamp_micros duration_micros.

Record wf (m : t) : Prop := {
  wf_frame_id : in_u 64 (frame_id m);
  wf_capture : in_u 64 (capture_timestamp_micros m);
  wf_presentation : in_u 64 (presentation_timestamp_micros m);
  wf_duration : 0 < duration_micros m < 2 ^ 32;
}.
End VideoFrameMetadata.

Definition validate_encoded_bytes (encoded_bytes : list byte) : presult unit :=
  if bool_decide (encoded_bytes = [])
  then invalid "encoded video access unit must not be empty"
  else if zlen encoded_bytes >? MAX_ENCODED_VIDEO_BYTES
  then Err (ProtocolError.PayloadTooLarge MessageType.VideoFrame
    (saturating_add usize_bits VIDEO_FRAME_METADATA_LEN (zlen encoded_bytes)) MAX_MEDIA_PAYLOAD)
  else Ok tt.

Module VideoFrame.
Record t : Type := mk {
  metadata : VideoFrameMetadata.t;
  encoded_bytes : list byte;
}.
#[global] Instance t_eq_dec : EqDecision t.
Proof. solve_decision. Defined.

Definition new (metadata : VideoFrameMetadata.t) (encoded_bytes : list byte) : presult t :=
  let! _ := validate_encoded_bytes encoded_bytes in
  Ok (mk metadata encoded_bytes).

Definition encode (self : t) : presult (list byte) :=
  let! _ := validate_encoded_bytes (encoded_bytes self) in
  Ok (VideoFrameMetadata.encode_into (metadata self) [] ++ encoded_bytes self).

Definition decode (payload : list byte) : presult t :=
  if zlen payload >? MAX_MEDIA_PAYLOAD
  then Err (ProtocolError.PayloadTooLarge MessageType.VideoFrame (zlen payload) MAX_MEDIA_PAYLOAD)
  else if zlen payload <=? VIDEO_FRAME_METADATA_LEN
  then invalid "video-frame payload is missing metadata or encoded bytes"
  else
    let! head := slice payload 0 (Z.to_nat VIDEO_FRAME_METADATA_LEN) in
    let! metadata := VideoFrameMetadata.decode head in
    let! encoded_bytes := slice_from payload (Z.to_nat VIDEO_FRAME_METADATA_LEN) in
    new metadata encoded_bytes.

Record wf (f : t) : Prop := {
  wf_metadata : VideoFrameMetadata.wf (metadata f);
  wf_encoded : 0 < zlen (encoded_bytes f) <= MAX_ENCODED_VIDEO_BYTES;
}.
End VideoFrame.

#[export] Instance DisplayConfig_payload : WirePayload DisplayConfig.t := {
  KIND := MessageType.DisplayConfig;
  wire_encode := DisplayConfig.encode;
  wire_decode := DisplayConfig.decode;
}.

#[export] Instance VideoFrame_payload : WirePayload VideoFrame.t := {
  KIND := MessageType.VideoFrame;
  wire_encode := VideoFrame.encode;
  wire_decode := VideoFrame.decode;
}.

(** ** Codecs and profiles *)
Lemma VideoCodec_try_from_iff v c : VideoCodec.try_from v = Ok c <-> v = VideoCodec.to_u8 c.
Proof. solve_enum_iff VideoCodec.try_from v c. Qed.
Lemma CodecProfile_try_from_iff v p : CodecProfile.try_from v = Ok p <-> v = CodecProfile.to_u8 p.
Proof. solve_enum_iff CodecProfile.try_from v p. Qed.

Lemma returns_VideoCodec_try_from v : returns (VideoCodec.try_from v).
Proof. unfold VideoCodec.try_from. by repeat case_match. Qed.
Lemma returns_CodecProfile_try_from v : returns (CodecProfile.try_from v).
Proof. unfold CodecProfile.try_from. by repeat case_match. Qed.

Lemma VideoCodec_byte c : byte_to_Z (byte_of_Z (VideoCodec.to_u8 c)) = VideoCodec.to_u8 c.
Proof. by destruct c. Qed.
Lemma CodecProfile_byte p : byte_to_Z (byte_of_Z (CodecProfile.to_u8 p)) = CodecProfile.to_u8 p.
Proof. by destruct p. Qed.

(** ** Display configuration *)
Lemma DisplayConfig_new_iff w h r b c p d :
  0 <= w -> 0 <= h -> 0 <= r -> 0 <= b ->
  DisplayConfig.new w h r b c p = Ok d <->
  d = DisplayConfig.mk w h r b c p /\
  0 < w /\ 0 < h /\ 0 < r /\ 0 < b /\ CodecProfile.codec p = c.
Proof.
  intros. unfold DisplayConfig.new.
  destruct (Z.eqb_spec w 0), (Z.eqb_spec h 0), (Z.eqb_spec r 0), (Z.eqb_spec b 0);
    simpl; try (split; [done|intros [-> ?]; lia]).
  case_bool_decide; (split; [intros [= <-]|]); [naive_solver..|naive_solver lia|naive_solver].
Qed.

Lemma returns_DisplayConfig_new w h r b c p : returns (DisplayConfig.new w h r b c p).
Proof. unfold DisplayConfig.new. solve_returns. Qed.
#[export] Hint Resolve returns_VideoCodec_try_from returns_CodecProfile_try_from
  returns_DisplayConfig_new : rust.

Lemma DisplayConfig_new_self d :
  DisplayConfig.wf d ->
  DisplayConfig.new (DisplayConfig.width d) (DisplayConfig.height d)
    (DisplayConfig.refresh_millihz d) (DisplayConfig.bitrate_kbps d)
    (DisplayConfig.codec d) (DisplayConfig.profile d) = Ok d.
Proof.
  intros [Hw Hh Hr Hb Hp]. apply DisplayConfig_new_iff; [lia..|].
  destruct d; simpl in *. repeat split; (done || lia).
Qed.

Lemma returns_DisplayConfig_decode bs : returns (DisplayConfig.decode bs).
Proof.
  unfold DisplayConfig.decode, DISPLAY_CONFIG_LEN. destruct (Z.eqb_spec (zlen bs) 14); [|done].
  cbn [negb]. solve_returns.
Qed.

Lemma DisplayConfig_decode_iff bs d :
  DisplayConfig.decode bs = Ok d <-> DisplayConfig.wf d /\ DisplayConfig.encode d = Ok bs.
Proof.
  split.
  - unfold DisplayConfig.decode, DISPLAY_CONFIG_LEN.
    destruct (Z.eqb_spec (zlen bs) 14) as [Hl|]; [|done]. intros Hd.
    assert (length bs = 14%nat) as Hlen by lia. clear Hl. explode_list bs. simpl in Hd.
    apply obind_ok_inv in Hd as (c & Hc & Hd). apply VideoCodec_try_from_iff in Hc.
    apply obind_ok_inv in Hd as (p & Hp & Hd). apply CodecProfile_try_from_iff in Hp.
    apply DisplayConfig_new_iff in Hd as (-> & Hw & Hh & Hr & Hb & Hcp);
      [|apply be_value_range..].
    assert (Hwf : DisplayConfig.wf (DisplayConfig.mk (be_value [b; b0]) (be_value [b1; b2])
      (be_value [b3; b4; b5; b6]) (be_value [b7; b8; b9; b10]) c p)).
    { pose proof (be_value_range [b; b0]). pose proof (be_value_range [b1; b2]).
      pose proof (be_value_range [b3; b4; b5; b6]).
      pose proof (be_value_range [b7; b8; b9; b10]). simpl in *.
      split; simpl; (done || lia). }
    split; [done|]. unfold DisplayConfig.encode. rewrite DisplayConfig_new_self by done.
    simpl. rewrite <- Hc, <- Hp. by autorewrite with bytes.
  - intros [Hwf He]. unfold DisplayConfig.encode in He.
    rewrite DisplayConfig_new_self in He by done. simpl in He. injection He as <-.
    pose proof (DisplayConfig_new_self d Hwf) as Hnew.
    destruct Hwf as [Hw Hh Hr Hb Hp]. destruct d as [w h r b c p]. simpl in *.
    open_field 2%nat 16 w; open_field 2%nat 16 h; open_field 4%nat 32 r; open_field 4%nat 32 b.
    autorewrite with bytes. unfold DisplayConfig.decode. simpl.
    rewrite VideoCodec_byte, CodecProfile_byte.
    rewrite (proj2 (VideoCodec_try_from_iff _ c) eq_refl). simpl.
    by rewrite (proj2 (CodecProfile_try_from_iff _ p) eq_refl).
Qed.

#[export, refine] Instance DisplayConfig_laws : WirePayloadLaws DisplayConfig.t := {
  wire_wf := DisplayConfig.wf;
  wire_decode_returns := returns_DisplayConfig_decode;
  wire_decode_iff := DisplayConfig_decode_iff;
}.
Proof.
  - intros d. unfold wire_encode, DisplayConfig_payload, DisplayConfig.encode. solve_returns.
  - intros d Hwf. unfold wire_encode, DisplayConfig_payload, DisplayConfig.encode.
    rewrite DisplayConfig_new_self by done. by eexists.
  - intros d bs Hwf He. unfold wire_encode, DisplayConfig_payload, DisplayConfig.encode in He.
    rewrite DisplayConfig_new_self in He by done. injection He as <-.
    measure_bytes. by vm_compute.
Defined.

(** ** Video frames *)
Lemma VideoFrameMetadata_new_iff i c p d m :
  0 <= d -> VideoFrameMetadata.new i c p d = Ok m <->
  m = VideoFrameMetadata.mk i c p d /\ 0 < d.
Proof.
  intros. unfold VideoFrameMetadata.new. destruct (Z.eqb_spec d 0); split;
    [done|intros [_ ?]; lia|intros [= <-]; split; [done|lia]|by intros [-> _]].
Qed.

Lemma returns_VideoFrameMetadata_new i c p d : returns (VideoFrameMetadata.new i c p d).
Proof. unfold VideoFrameMetadata.new. solve_returns. Qed.
#[export] Hint Resolve returns_VideoFrameMetadata_new : rust.

Lemma VideoFrameMetadata_decode_iff bs m :
  length bs = 28%nat ->
  VideoFrameMetadata.decode bs = Ok m <->
  VideoFrameMetadata.wf m /\ VideoFrameMetadata.encode_into m [] = bs.
Proof.
  intros Hlen. split.
  - intros Hd. explode_list bs. unfold VideoFrameMetadata.decode in Hd. simpl in Hd.
    apply VideoFrameMetadata_new_iff in Hd as (-> & Hd); [|apply be_value_range].
    pose proof (be_value_range [b23; b24; b25; b26]) as Hr. simpl in Hr. split.
    + split; simpl; [by apply be_value_in_u..|lia].
    + unfold VideoFrameMetadata.encode_into. simpl. by autorewrite with bytes.
  - intros [[Hi Hc Hp Hd] <-]. destruct m as [i c p d]. simpl in *.
    unfold VideoFrameMetadata.encode_into. simpl.
    open_field 8%nat 64 i; open_field 8%nat 64 c; open_field 8%nat 64 p; open_field 4%nat 32 d.
    autorewrite with bytes. unfold VideoFrameMetadata.decode. simpl.
    apply VideoFrameMetadata_new_iff; [lia|]. split; [done|lia].
Qed.

Lemma returns_VideoFrameMetadata_decode bs :
  (28 <= length bs)%nat -> returns (VideoFrameMetadata.decode bs).
Proof. intros. unfold VideoFrameMetadata.decode. solve_returns. Qed.

Lemma validate_encoded_bytes_ok bs :
  validate_encoded_bytes bs = Ok tt <-> 0 < zlen bs <= MAX_ENCODED_VIDEO_BYTES.
Proof.
  unfold validate_encoded_bytes. rewrite Z.gtb_ltb.
  case_bool_decide as Hn; [subst; split; [done|]; simpl; lia|].
  assert (0 < zlen bs) by (destruct bs; simpl; [done|lia]).
  destruct (Z.ltb_spec MAX_ENCODED_VIDEO_BYTES (zlen bs)); split; (done || lia).
Qed.

Lemma returns_validate_encoded_bytes bs : returns (validate_encoded_bytes bs).
Proof. unfold validate_encoded_bytes. solve_returns. Qed.
#[export] Hint Resolve returns_validate_encoded_bytes : rust.

Lemma VideoFrame_encode_wf f :
  VideoFrame.wf f ->
  VideoFrame.encode f =
    Ok (VideoFrameMetadata.encode_into (VideoFrame.metadata f) [] ++ VideoFrame.encoded_bytes f).
Proof.
  intros [_ H]. unfold VideoFrame.encode. by rewrite (proj2 (validate_encoded_bytes_ok _) H).
Qed.

Lemma length_metadata m : length (VideoFrameMetadata.encode_into m []) = 28%nat.
Proof. unfold VideoFrameMetadata.encode_into. measure_bytes. done. Qed.

(** A payload with a metadata prefix is decoded field by field. *)
Lemma VideoFrame_decode_prefix a b :
  length a = 28%nat -> 0 < zlen b <= MAX_ENCODED_VIDEO_BYTES ->
  VideoFrame.decode (a ++ b) =
    (let! m := VideoFrameMetadata.decode a in Ok (VideoFrame.mk m b)).
Proof.
  intros Ha Hb. unfold VideoFrame.decode. pose proof Hb as Hv.
  unfold MAX_ENCODED_VIDEO_BYTES, VIDEO_FRAME_METADATA_LEN in *.
  assert (Hlen : zlen (a ++ b) = 28 + zlen b) by (rewrite length_app; lia).
  rewrite Hlen, Z.gtb_ltb. destruct (Z.ltb_spec MAX_MEDIA_PAYLOAD (28 + zlen b)); [lia|].
  destruct (Z.leb_spec (28 + zlen b) 28); [lia|].
  unfold slice_from. rewrite !slice_ok by lia. cbn [obind].
  change (Z.to_nat 28) with 28%nat. rewrite drop_0, Nat.sub_0_r, take_length_app by done.
  destruct (VideoFrameMetadata.decode a) as [m|e|f]; cbn [obind]; [|done..].
  rewrite drop_length_app, firstn_all2 by lia.
  unfold VideoFrame.new. by rewrite (proj2 (validate_encoded_bytes_ok _) Hv).
Qed.

Lemma VideoFrame_decode_bounds bs f :
  VideoFrame.decode bs = Ok f -> VIDEO_FRAME_METADATA_LEN < zlen bs <= MAX_MEDIA_PAYLOAD.
Proof.
  unfold VideoFrame.decode. rewrite Z.gtb_ltb.
  destruct (Z.ltb_spec MAX_MEDIA_PAYLOAD (zlen bs)); [done|].
  destruct (Z.leb_spec (zlen bs) VIDEO_FRAME_METADATA_LEN); [done|]. lia.
Qed.

Lemma VideoFrame_split (bs : list byte) :
  VIDEO_FRAME_METADATA_LEN < zlen bs <= MAX_MEDIA_PAYLOAD ->
  exists a b, bs = a ++ b /\ length a = 28%nat /\ 0 < zlen b <= MAX_ENCODED_VIDEO_BYTES.
Proof.
  unfold MAX_ENCODED_VIDEO_BYTES, VIDEO_FRAME_METADATA_LEN. intros H.
  destruct (list_split_at 28 bs) as (a & b & -> & Ha); [lia|].
  rewrite length_app in H. exists a, b. repeat split; (done || lia).
Qed.

Lemma VideoFrame_decode_iff bs f :
  VideoFrame.decode bs = Ok f <-> VideoFrame.wf f /\ VideoFrame.encode f = Ok bs.
Proof.
  split.
  - intros Hd. destruct (VideoFrame_split bs) as (a & b & -> & Ha & Hb);
      [by eapply VideoFrame_decode_bounds|].
    rewrite VideoFrame_decode_prefix in Hd by done. inv_ok. subst f.
    match goal with H : VideoFrameMetadata.decode a = Ok _ |- _ =>
      apply VideoFrameMetadata_decode_iff in H as [Hm <-]; [|done] end.
    split; [done|]. by rewrite VideoFrame_encode_wf.
  - intros [Hwf He]. rewrite VideoFrame_encode_wf in He by done. injection He as <-.
    destruct Hwf as [Hm Hb]. rewrite VideoFrame_decode_prefix by (done || apply length_metadata).
    rewrite (proj2 (VideoFrameMetadata_decode_iff _ (VideoFrame.metadata f) (length_metadata _)))
      by done. by destruct f.
Qed.

Lemma returns_VideoFrame_decode bs : returns (VideoFrame.decode bs).
Proof.
  destruct (decide (VIDEO_FRAME_METADATA_LEN < zlen bs <= MAX_MEDIA_PAYLOAD)) as [H|H].
  - destruct (VideoFrame_split bs H) as (a & b & -> & Ha & Hb).
    rewrite VideoFrame_decode_prefix by done. apply returns_obind; [|done].
    apply returns_VideoFrameMetadata_decode. lia.
  - unfold VideoFrame.decode. rewrite Z.gtb_ltb.
    destruct (Z.ltb_spec MAX_MEDIA_PAYLOAD (zlen bs)); [done|].
    destruct (Z.leb_spec (zlen bs) VIDEO_FRAME_METADATA_LEN); [done|]. lia.
Qed.

#[export, refine] Instance VideoFrame_laws : WirePayloadLaws VideoFrame.t := {
  wire_wf := VideoFrame.wf;
  wire_decode_returns := returns_VideoFrame_decode;
  wire_decode_iff := VideoFrame_decode_iff;
}.
Proof.
  - intros f. unfold wire_encode, VideoFrame_payload, VideoFrame.encode. solve_returns.
  - intros f Hwf. eexists. by apply VideoFrame_encode_wf.
  - intros f bs Hwf He. unfold wire_encode, VideoFrame_payload in He.
    rewrite VideoFrame_encode_wf in He by done. injection He as <-.
    destruct Hwf as [_ Hb]. rewrite length_app, length_metadata.
    change (MessageType.payload_limit KIND) with MAX_MEDIA_PAYLOAD.
    unfold MAX_ENCODED_VIDEO_BYTES, VIDEO_FRAME_METADATA_LEN in Hb. lia.
Defined.

(** ** Properties of the media payloads *)

(** A display configuration is decoded exactly from its 14-byte encodings,
    with non-zero figures and a profile of its own codec. *)
Theorem display_config_codec_is_exact : exact_codec DisplayConfig.wf.
Proof. exact (laws_exact_codec (P:=DisplayConfig.t)). Qed.

(** A video frame is decoded exactly from its metadata followed by a
    non-empty access unit, up to the media limit, and its duration is not
    zero. *)
Theorem video_frame_codec_is_exact : exact_codec VideoFrame.wf.
Proof. exact (laws_exact_codec (P:=VideoFrame.t)). Qed.
