(* ===== verification/ProtoInput.v ===== *)
(** * Input events

    Models [crates/ladoflow-protocol/src/input.rs]: the bounded input event
    variants of the display, their variable-length encoding and validation. *)
From S2P Require Export ProtoMessage.
Local Open Scope string_scope.
Local Open Scope list_scope.
Local Open Scope Z_scope.

Definition INPUT_HEADER_LEN : Z := 9.
Definition POINTER_MOVE_LEN : Z := INPUT_HEADER_LEN + 4.
Definition POINTER_BUTTON_LEN : Z := INPUT_HEADER_LEN + 2.
Definition WHEEL_LEN : Z := INPUT_HEADER_LEN + 4.
Definition KEY_LEN : Z := INPUT_HEADER_LEN + 5.
Definition TOUCH_LEN : Z := INPUT_HEADER_LEN + 8.
Definition FOCUS_LEN : Z := INPUT_HEADER_LEN + 1.
Definition MAX_TOUCH_CONTACTS : Z := 16.

Module ButtonState.
Inductive t : Type :=
| Released
| Pressed.
#[global] Instance t_eq_dec : EqDecision t.
Proof. solve_decision. Defined.
Definition to_u8 (s : t) : Z :=
  match s with
  | Released => 0
  | Pressed => 1
  end.
Definition try_from (value : Z) : presult t :=
  match value with
  | 0 => Ok Released
  | 1 => Ok Pressed
  | _ => invalid "unknown button state"
  end.
End ButtonState.

Module PointerButton.
Inductive t : Type :=
| Primary
| Secondary
| Middle
| Back
| Forward.
#[global] Instance t_eq_dec : EqDecision t.
Proof. solve_decision. Defined.
Definition to_u8 (b : t) : Z :=
  match b with
  | Primary => 1
  | Secondary => 2
  | Middle => 3
  | Back => 4
  | Forward => 5
  end.
Definition try_from (value : Z) : presult t :=
  match value with
  | 1 => Ok Primary
  | 2 => Ok Secondary
  | 3 => Ok Middle
  | 4 => Ok Back
  | 5 => Ok Forward
  | _ => invalid "unknown pointer button"
  end.
End PointerButton.

Module TouchPhase.
Inductive t : Type :=
| Begin
| Move
| End_
| Cancel.
#[global] Instance t_eq_dec : EqDecision t.
Proof. solve_decision. Defined.
Definition to_u8 (p : t) : Z :=
  match p with
  | Begin => 1
  | Move => 2
  | End_ => 3
  | Cancel => 4
  end.
Definition try_from (value : Z) : presult t :=
  match value with
  | 1 => Ok Begin
  | 2 => Ok Move
  | 3 => Ok End_
  | 4 => Ok Cancel
  | _ => invalid "unknown touch phase"
  end.
End TouchPhase.

Module KeyModifiers.
Record t : Type := mk { bits : Z }.
#[global] Instance t_eq_dec : EqDecision t.
Proof. solve_decision. Defined.
Definition default : t := mk 0.
Definition SHIFT : t := mk (Z.shiftl 1 0).
Definition CONTROL : t := mk (Z.shiftl 1 1).
Definition ALT : t := mk (Z.shiftl 1 2).
Definition META : t := mk (Z.shiftl 1 3).
Definition CAPS_LOCK : t := mk (Z.shiftl 1 4).
Definition NUM_LOCK : t := mk (Z.shiftl 1 5).
Definition KNOWN_MASK : Z :=
  Z.lor (Z.lor (Z.lor (Z.lor (Z.lor (bits SHIFT) (bits CONTROL)) (bits ALT)) (bits META))
    (bits CAPS_LOCK)) (bits NUM_LOCK).
Definition from_bits (b : Z) : presult t :=
  if Z.land b (bit_not 16 KNOWN_MASK) =? 0 then Ok (mk b)
  else invalid "unknown keyboard modifier".
Definition contains (self other : t) : bool :=
  Z.land (bits self) (bits other) =? bits other.
Definition bitor (self rhs : t) : t := mk (Z.lor (bits self) (bits rhs)).
Definition wf (s : t) : Prop := 0 <= bits s < 64.
End KeyModifiers.

Module InputEventKind.
Inductive t : Type :=
| PointerMove (x y : Z)
| PointerButton (button : PointerButton.t) (state : ButtonState.t)
| Wheel (delta_x delta_y : Z)
| Key (usage : Z) (state : ButtonState.t) (modifiers : KeyModifiers.t)
| Touch (contact_id : Z) (phase : TouchPhase.t) (x y pressure : Z)
| Focus (focused : bool).
#[global] Instance t_eq_dec : EqDecision t.
Proof. solve_decision. Defined.

Definition wire_kind (self : t) : Z :=
  match self with
  | PointerMove _ _ => 1
  | PointerButton _ _ => 2
  | Wheel _ _ => 3
  | Key _ _ _ => 4
  | Touch _ _ _ _ _ => 5
  | Focus _ => 6
  end.

Definition encoded_len (self : t) : Z :=
  match self with
  | PointerMove _ _ => POINTER_MOVE_LEN
  | PointerButton _ _ => POINTER_BUTTON_LEN
  | Wheel _ _ => WHEEL_LEN
  | Key _ _ _ => KEY_LEN
  | Touch _ _ _ _ _ => TOUCH_LEN
  | Focus _ => FOCUS_LEN
  end.

Definition validate (self : t) : presult unit :=
  match self with
  | Key 0 _ _ => invalid "keyboard usage must be non-zero"
  | Touch contact_id _ _ _ _ =>
      if contact_id >=? MAX_TOUCH_CONTACTS
      then invalid "touch contact identifier is out of range" else Ok tt
  | _ => Ok tt
  end.

(** The widths of the fields. *)
Definition typed (k : t) : Prop :=
  match k with
  | PointerMove x y => in_u 16 x /\ in_u 16 y
  | PointerButton _ _ => True
  | Wheel dx dy => in_i 16 dx /\ in_i 16 dy
  | Key usage _ m => in_u 16 usage /\ KeyModifiers.wf m
  | Touch c _ x y p => in_u 8 c /\ in_u 16 x /\ in_u 16 y /\ in_u 16 p
  | Focus _ => True
  end.
End InputEventKind.

Definition require_len (payload : list byte) (expected : Z) : presult unit :=
  if zlen payload =? expected then Ok tt
  else invalid "input event length does not match its kind".

Definition decode_bool (value : Z) : presult bool :=
  match value with
  | 0 => Ok false
  | 1 => Ok true
  | _ => invalid "boolean input field must be zero or one"
  end.

Module InputEvent.
Record t : Type := mk {
  timestamp_micros : Z;
  kind : InputEventKind.t;
}.
#[global] Instance t_eq_dec : EqDecision t.
Proof. solve_decision. Defined.

Definition new (timestamp_micros : Z) (kind : InputEventKind.t) : presult t :=
  let! _ := InputEventKind.validate kind in
  Ok (mk timestamp_micros kind).

Definition encode_kind (kind : InputEventKind.t) : list byte :=
  match kind with
  | InputEventKind.PointerMove x y => be_bytes 2 x ++ be_bytes 2 y
  | InputEventKind.PointerButton button state =>
      [byte_of_Z (PointerButton.to_u8 button); byte_of_Z (ButtonState.to_u8 state)]
  | InputEventKind.Wheel delta_x delta_y => i16_to_be delta_x ++ i16_to_be delta_y
  | InputEventKind.Key usage state modifiers =>
      be_bytes 2 usage ++ [byte_of_Z (ButtonState.to_u8 state)] ++
      be_bytes 2 (KeyModifiers.bits modifiers)
  | InputEventKind.Touch contact_id phase x y pressure =>
      [byte_of_Z contact_id; byte_of_Z (TouchPhase.to_u8 phase)] ++
      be_bytes 2 x ++ be_bytes 2 y ++ be_bytes 2 pressure
  | InputEventKind.Focus focused => [byte_of_Z (if focused then 1 else 0)]
  end.

Definition encode (self : t) : presult (list byte) :=
  let! _ := InputEventKind.validate (kind self) in
  Ok (be_bytes 8 (timestamp_micros self) ++
      [byte_of_Z (InputEventKind.wire_kind (kind self))] ++ encode_kind (kind self)).

Definition decode_kind (payload : list byte) (wire_kind : Z) : presult InputEventKind.t :=
  match wire_kind with
  | 1 =>
    let! _ := require_len payload POINTER_MOVE_LEN in
    let! x := read_u16 payload 9 in
    let! y := read_u16 payload 11 in
    Ok (InputEventKind.PointerMove x y)
  | 2 =>
    let! _ := require_len payload POINTER_BUTTON_LEN in
    let! b := index payload 9 in
    let! button := PointerButton.try_from (byte_to_Z b) in
    let! s := index payload 10 in
    let! state := ButtonState.try_from (byte_to_Z s) in
    Ok (InputEventKind.PointerButton button state)
  | 3 =>
    let! _ := require_len payload WHEEL_LEN in
    let! delta_x := read_i16 payload 9 in
    let! delta_y := read_i16 payload 11 in
    Ok (InputEventKind.Wheel delta_x delta_y)
  | 4 =>
    let! _ := require_len payload KEY_LEN in
    let! usage := read_u16 payload 9 in
    let! s := index payload 11 in
    let! state := ButtonState.try_from (byte_to_Z s) in
    let! m := read_u16 payload 12 in
    let! modifiers := KeyModifiers.from_bits m in
    Ok (InputEventKind.Key usage state modifiers)
  | 5 =>
    let! _ := require_len payload TOUCH_LEN in
    let! contact_id := index payload 9 in
    let! p := index payload 10 in
    let! phase := TouchPhase.try_from (byte_to_Z p) in
    let! x := read_u16 payload 11 in
    let! y := read_u16 payload 13 in
    let! pressure := read_u16 payload 15 in
    Ok (InputEventKind.Touch (byte_to_Z contact_id) phase x y pressure)
  | 6 =>
    let! _ := require_len payload FOCUS_LEN in
    let! b := index payload 9 in
    let! focused := decode_bool (byte_to_Z b) in
    Ok (InputEventKind.Focus focused)
  | _ => invalid "unknown input event kind"
  end.

Definition decode (payload : list byte) : presult t :=
  if zlen payload <? INPUT_HEADER_LEN then invalid "input payload is truncated" else
  let! timestamp_micros := read_u64 payload 0 in
  let! wire_kind := index payload 8 in
  let! kind := decode_kind payload (byte_to_Z wire_kind) in
  new timestamp_micros kind.

Record wf (e : t) : Prop := {
  wf_timestamp : in_u 64 (timestamp_micros e);
  wf_typed : InputEventKind.typed (kind e);
  wf_valid : InputEventKind.validate (kind e) = Ok tt;
}.
End InputEvent.

#[export] Instance InputEvent_payload : WirePayload InputEvent.t := {
  KIND := MessageType.Input;
  wire_encode := InputEvent.encode;
  wire_decode := InputEvent.decode;
}.

(** ** Enumerations and masks *)
Lemma ButtonState_try_from_iff v s : ButtonState.try_from v = Ok s <-> v = ButtonState.to_u8 s.
Proof. solve_enum_iff ButtonState.try_from v s. Qed.
Lemma PointerButton_try_from_iff v b : PointerButton.try_from v = Ok b <-> v = PointerButton.to_u8 b.
Proof. solve_enum_iff PointerButton.try_from v b. Qed.
Lemma TouchPhase_try_from_iff v p : TouchPhase.try_from v = Ok p <-> v = TouchPhase.to_u8 p.
Proof. solve_enum_iff TouchPhase.try_from v p. Qed.
Lemma decode_bool_iff v b : decode_bool v = Ok b <-> v = if b then 1 else 0.
Proof. solve_enum_iff decode_bool v b. Qed.

Lemma modifiers_from_bits_spec b f :
  in_u 16 b -> KeyModifiers.from_bits b = Ok f <->
  f = KeyModifiers.mk b /\ KeyModifiers.wf (KeyModifiers.mk b).
Proof. by apply (from_bits_iff 16 6). Qed.

Lemma require_len_ok bs n : require_len bs n = Ok tt <-> zlen bs = n.
Proof. unfold require_len. destruct (Z.eqb_spec (zlen bs) n); naive_solver. Qed.

Lemma validate_cases k :
  InputEventKind.validate k = Ok tt \/ exists s, InputEventKind.validate k = invalid s.
Proof. unfold InputEventKind.validate. repeat case_match; eauto. Qed.

Lemma returns_validate k : returns (InputEventKind.validate k).
Proof. by destruct (validate_cases k) as [->|[s ->]]. Qed.
Lemma returns_decode_bool v : returns (decode_bool v).
Proof. unfold decode_bool. by repeat case_match. Qed.
Lemma returns_modifiers_from_bits v : returns (KeyModifiers.from_bits v).
Proof. unfold KeyModifiers.from_bits. by case_match. Qed.
Lemma returns_ButtonState v : returns (ButtonState.try_from v).
Proof. unfold ButtonState.try_from. by repeat case_match. Qed.
Lemma returns_PointerButton v : returns (PointerButton.try_from v).
Proof. unfold PointerButton.try_from. by repeat case_match. Qed.
Lemma returns_TouchPhase v : returns (TouchPhase.try_from v).
Proof. unfold TouchPhase.try_from. by repeat case_match. Qed.
#[export] Hint Resolve returns_validate returns_decode_bool returns_modifiers_from_bits
  returns_ButtonState returns_PointerButton returns_TouchPhase : rust.

(** ** The codec of one event *)

(** After the length test, a payload is nine header bytes and a body. *)
Lemma InputEvent_split (bs : list byte) :
  9 <= zlen bs -> exists ts k body, bs = ts ++ k :: body /\ length ts = 8%nat.
Proof.
  intros H. destruct (list_split_at 8 bs) as (a & r & -> & Ha); [lia|].
  rewrite length_app in H. destruct r as [|k body]; [simpl in H; lia|]. eauto.
Qed.

Lemma returns_decode_kind bs k : returns (InputEvent.decode_kind bs k).
Proof.
  unfold InputEvent.decode_kind, require_len.
  unfold POINTER_MOVE_LEN, POINTER_BUTTON_LEN, WHEEL_LEN, KEY_LEN, TOUCH_LEN, FOCUS_LEN, INPUT_HEADER_LEN.
  repeat match goal with
  | |- returns (match ?k with _ => _ end) => is_var k; destruct k
  | |- returns (obind (if zlen bs =? ?n then _ else _) _) =>
      destruct (Z.eqb_spec (zlen bs) n); cbn [obind]; [|done]
  end; solve_returns.
Qed.
#[export] Hint Resolve returns_decode_kind : rust.

Lemma returns_InputEvent_decode bs : returns (InputEvent.decode bs).
Proof.
  unfold InputEvent.decode, INPUT_HEADER_LEN, InputEvent.new.
  destruct (Z.ltb_spec (zlen bs) 9); [done|]. solve_returns.
Qed.

Lemma small_byte n x : n = byte_to_Z x -> byte_of_Z n = x.
Proof. intros ->. apply byte_of_to_Z. Qed.

Lemma ButtonState_byte s : byte_to_Z (byte_of_Z (ButtonState.to_u8 s)) = ButtonState.to_u8 s.
Proof. by destruct s. Qed.
Lemma PointerButton_byte s : byte_to_Z (byte_of_Z (PointerButton.to_u8 s)) = PointerButton.to_u8 s.
Proof. by destruct s. Qed.
Lemma TouchPhase_byte s : byte_to_Z (byte_of_Z (TouchPhase.to_u8 s)) = TouchPhase.to_u8 s.
Proof. by destruct s. Qed.
(** Read every enumeration of a successful decoding back to its byte. *)
Ltac invert_enums :=
  repeat match goal with
  | H : ButtonState.try_from _ = Ok _ |- _ => apply ButtonState_try_from_iff in H
  | H : PointerButton.try_from _ = Ok _ |- _ => apply PointerButton_try_from_iff in H
  | H : TouchPhase.try_from _ = Ok _ |- _ => apply TouchPhase_try_from_iff in H
  | H : decode_bool _ = Ok _ |- _ => apply decode_bool_iff in H
  | H : KeyModifiers.from_bits _ = Ok _ |- _ =>
      apply modifiers_from_bits_spec in H as [-> ?]; [|by apply be_value_in_u]
  end.

(** The body length that [require_len] leaves, as a numeral. *)
Lemma body_length (ts : list byte) k body n :
  length ts = 8%nat -> zlen (ts ++ k :: body) = n -> length body = Z.to_nat (n - 9).
Proof. intros Hts H. rewrite length_app in H. simpl in H. lia. Qed.

Lemma decode_kind_ok_inv ts k body kd :
  length ts = 8%nat ->
  InputEvent.decode_kind (ts ++ k :: body) (byte_to_Z k) = Ok kd ->
  InputEventKind.typed kd /\ k = byte_of_Z (InputEventKind.wire_kind kd) /\
  body = InputEvent.encode_kind kd.
Proof.
  intros Hts Hd. remember (byte_to_Z k) as v eqn:Hk. unfold InputEvent.decode_kind in Hd.
  repeat (destruct v as [|v|v]; try done; repeat (destruct v as [v|v|]; try done)).
  all: apply small_byte in Hk; rewrite <- Hk in *.
  all: apply obind_ok_inv in Hd as ([] & Hl & Hd).
  all: apply require_len_ok, (body_length _ _ _ _ Hts) in Hl;
    match type of Hl with _ = ?n => let m := eval vm_compute in n in change n with m in Hl end.
  all: explode_list ts; explode_list body; simpl in Hd; inv_ok; invert_enums; subst.
  all: split; [simpl; split_and?;
    first [done | by apply be_value_in_u | apply i16_from_be_range | apply byte_to_Z_range] |].
  all: split; [done|].
  all: simpl; autorewrite with bytes; try done.
  all: repeat match goal with
    | H : byte_to_Z _ = _ |- _ => apply eq_sym, small_byte in H; rewrite H end; done.
Qed.

Lemma decode_kind_encode ts kd :
  length ts = 8%nat -> InputEventKind.typed kd ->
  InputEvent.decode_kind
    (ts ++ byte_of_Z (InputEventKind.wire_kind kd) :: InputEvent.encode_kind kd)
    (InputEventKind.wire_kind kd) = Ok kd.
Proof.
  intros Hts Hty. explode_list ts.
  destruct kd as [x y|bt st|dx dy|us st [m]|c ph x y p|fc]; simpl in Hty.
  - destruct Hty. open_field 2%nat 16 x; open_field 2%nat 16 y. simpl. by autorewrite with bytes.
  - simpl. rewrite PointerButton_byte, (proj2 (PointerButton_try_from_iff _ _) eq_refl). simpl.
    by rewrite ButtonState_byte, (proj2 (ButtonState_try_from_iff _ _) eq_refl).
  - destruct Hty as [Hx Hy].
    destruct (i16_field dx Hx) as (a1 & a2 & ->), (i16_field dy Hy) as (c1 & c2 & ->).
    simpl. by rewrite !i16_to_from_be.
  - destruct Hty as [Hu Hm]. assert (in_u 16 m) as Hm16
      by (unfold KeyModifiers.wf, in_u in *; simpl in Hm; lia).
    open_field 2%nat 16 us; open_field 2%nat 16 m. simpl. autorewrite with bytes. simpl.
    rewrite ButtonState_byte, (proj2 (ButtonState_try_from_iff _ _) eq_refl). simpl.
    by rewrite (proj2 (modifiers_from_bits_spec _ _ Hm16) (conj eq_refl Hm)).
  - destruct Hty as (Hc & Hx & Hy & Hp).
    open_field 2%nat 16 x; open_field 2%nat 16 y; open_field 2%nat 16 p. simpl.
    autorewrite with bytes. simpl.
    rewrite TouchPhase_byte, (proj2 (TouchPhase_try_from_iff _ _) eq_refl). simpl.
    rewrite byte_to_of_Z, Z.mod_small; [done|]. by unfold in_u in Hc.
  - by destruct fc.
Qed.

Lemma wire_kind_byte k :
  byte_to_Z (byte_of_Z (InputEventKind.wire_kind k)) = InputEventKind.wire_kind k.
Proof. by destruct k. Qed.

Lemma length_encode_kind k : 9 + zlen (InputEvent.encode_kind k) = InputEventKind.encoded_len k.
Proof.
  destruct k; unfold InputEvent.encode_kind, i16_to_be; measure_bytes; reflexivity.
Qed.

Lemma InputEvent_decode_split ts k body :
  length ts = 8%nat ->
  InputEvent.decode (ts ++ k :: body) =
    (let! kind := InputEvent.decode_kind (ts ++ k :: body) (byte_to_Z k) in
     InputEvent.new (be_value ts) kind).
Proof.
  intros Hts. unfold InputEvent.decode, INPUT_HEADER_LEN.
  destruct (Z.ltb_spec (zlen (ts ++ k :: body)) 9) as [Hlt|_].
  { rewrite length_app in Hlt. simpl in Hlt. lia. }
  by explode_list ts.
Qed.

Lemma InputEvent_decode_iff bs e :
  InputEvent.decode bs = Ok e <-> InputEvent.wf e /\ InputEvent.encode e = Ok bs.
Proof.
  split.
  - intros Hd. destruct (Z.ltb_spec (zlen bs) 9) as [Hlt|Hge].
    { unfold InputEvent.decode, INPUT_HEADER_LEN in Hd. apply Z.ltb_lt in Hlt.
      by rewrite Hlt in Hd. }
    destruct (InputEvent_split bs Hge) as (ts & k & body & -> & Hts).
    rewrite InputEvent_decode_split in Hd by done.
    apply obind_ok_inv in Hd as (kd & Hkd & Hd).
    apply decode_kind_ok_inv in Hkd as (Hty & -> & ->); [|done].
    unfold InputEvent.new in Hd. apply obind_ok_inv in Hd as ([] & Hv & Hd).
    injection Hd as <-. split.
    + split; [apply be_value_in_u; rewrite Hts; done|done|done].
    + unfold InputEvent.encode. simpl. rewrite Hv. simpl.
      rewrite <- Hts, be_bytes_be_value. done.
  - intros [[Ht Hty Hv] He]. unfold InputEvent.encode in He. rewrite Hv in He.
    injection He as <-. destruct e as [ts kd]. simpl in *.
    rewrite InputEvent_decode_split by apply length_be_bytes.
    rewrite wire_kind_byte, decode_kind_encode by (apply length_be_bytes || done).
    cbn [obind]. rewrite be_value_be_bytes by done. unfold InputEvent.new. by rewrite Hv.
Qed.

Lemma InputEvent_encode_wf e :
  InputEvent.wf e ->
  exists bs, InputEvent.encode e = Ok bs /\ zlen bs = InputEventKind.encoded_len (InputEvent.kind e).
Proof.
  intros [_ _ Hv]. unfold InputEvent.encode. rewrite Hv. cbn [obind].
  eexists. split; [done|]. measure_bytes. rewrite <- length_encode_kind. lia.
Qed.

#[export, refine] Instance InputEvent_laws : WirePayloadLaws InputEvent.t := {
  wire_wf := InputEvent.wf;
  wire_decode_returns := returns_InputEvent_decode;
  wire_decode_iff := InputEvent_decode_iff;
}.
Proof.
  - intros e. unfold wire_encode, InputEvent_payload, InputEvent.encode. solve_returns.
  - intros e Hwf. destruct (InputEvent_encode_wf e Hwf) as (bs & Hbs & _). by exists bs.
  - intros e bs Hwf He. destruct (InputEvent_encode_wf e Hwf) as (bs' & Hbs & Hl).
    unfold wire_encode, InputEvent_payload in He. rewrite Hbs in He. injection He as <-.
    rewrite Hl. by destruct (InputEvent.kind e).
Defined.

(** ** The wire format

    A field holds an unsigned number, most significant byte first. *)
Definition holds (field : list byte) (width : nat) (v : Z) : Prop :=
  length field = width /\ v = foldl (fun acc b => acc * 256 + byte_to_Z b) 0 field.

(** A signed 16-bit number is in two's complement. *)
Definition holds_signed (field : list byte) (v : Z) : Prop :=
  -32768 <= v < 32768 /\ holds field 2 (if v <? 0 then v + 65536 else v).

Definition button_code (button : PointerButton.t) : byte :=
  match button with
  | PointerButton.Primary => x01 | PointerButton.Secondary => x02 | PointerButton.Middle => x03
  | PointerButton.Back => x04 | PointerButton.Forward => x05
  end.
Definition pressed_code (state : ButtonState.t) : byte :=
  match state with ButtonState.Released => x00 | ButtonState.Pressed => x01 end.
Definition phase_code (phase : TouchPhase.t) : byte :=
  match phase with
  | TouchPhase.Begin => x01 | TouchPhase.Move => x02 | TouchPhase.End_ => x03 | TouchPhase.Cancel => x04
  end.

(** The kind byte of an event and the bytes after it. A key has a usage; its
    modifiers are six bits; there are sixteen contacts. *)
Inductive wire_body : InputEventKind.t -> byte -> list byte -> Prop :=
| wire_move x y fx fy : holds fx 2 x -> holds fy 2 y ->
    wire_body (InputEventKind.PointerMove x y) x01 (fx ++ fy)
| wire_button button state :
    wire_body (InputEventKind.PointerButton button state) x02 [button_code button; pressed_code state]
| wire_wheel dx dy fx fy : holds_signed fx dx -> holds_signed fy dy ->
    wire_body (InputEventKind.Wheel dx dy) x03 (fx ++ fy)
| wire_key usage state modifiers fu fm : holds fu 2 usage -> usage <> 0 -> holds fm 2 modifiers -> modifiers < 64 ->
    wire_body (InputEventKind.Key usage state (KeyModifiers.mk modifiers)) x04 (fu ++ [pressed_code state] ++ fm)
| wire_touch contact phase x y pressure fc fx fy fp : holds [fc] 1 contact -> contact < 16 ->
    holds fx 2 x -> holds fy 2 y -> holds fp 2 pressure ->
    wire_body (InputEventKind.Touch contact phase x y pressure) x05 ([fc; phase_code phase] ++ fx ++ fy ++ fp)
| wire_focus (focused : bool) :
    wire_body (InputEventKind.Focus focused) x06 [if focused then x01 else x00].

(** An event: its time in eight bytes, the kind byte and the body. *)
Inductive on_wire : InputEvent.t -> list byte -> Prop :=
| wire_event time kind ft tag body : holds ft 8 time -> wire_body kind tag body ->
    on_wire (InputEvent.mk time kind) (ft ++ tag :: body).

Definition wire_length (kind : InputEventKind.t) : Z :=
  match kind with
  | InputEventKind.PointerMove _ _ | InputEventKind.Wheel _ _ => 13
  | InputEventKind.PointerButton _ _ => 11
  | InputEventKind.Key _ _ _ => 14
  | InputEventKind.Touch _ _ _ _ _ => 17
  | InputEventKind.Focus _ => 10
  end.

Lemma foldl_be_value l acc :
  foldl (fun acc b => acc * 256 + byte_to_Z b) acc l = acc * 256 ^ zlen l + be_value l.
Proof.
  revert acc. induction l as [|b l IH]; intros acc; [by rewrite Z.mul_1_r, Z.add_0_r|].
  cbn [foldl]. rewrite IH. with_strategy transparent [be_value] cbn [be_value].
  cbn [length]. rewrite Nat2Z.inj_succ, Z.pow_succ_r by lia. lia.
Qed.

Lemma be_bytes_single v : be_bytes 1 v = [byte_of_Z v].
Proof. with_strategy transparent [be_bytes] cbn. by rewrite Z.div_1_r. Qed.

Lemma holds_iff field width v :
  holds field width v <-> in_u (8 * Z.of_nat width) v /\ field = be_bytes width v.
Proof.
  unfold holds. rewrite foldl_be_value, Z.mul_0_l, Z.add_0_l. split.
  - intros [<- ->]. split; [by apply be_value_in_u|]. by rewrite be_bytes_be_value.
  - intros [Hv ->]. split; [apply length_be_bytes|]. rewrite be_value_be_bytes; [done|].
    unfold in_u in Hv. by rewrite Z.pow_mul_r in Hv by lia.
Qed.

Lemma holds_signed_iff field v : holds_signed field v <-> in_i 16 v /\ field = i16_to_be v.
Proof.
  unfold holds_signed, i16_to_be. rewrite holds_iff.
  assert (Hmod : -32768 <= v < 32768 -> v mod 2 ^ 16 = if v <? 0 then v + 65536 else v).
  { intros Hv. destruct (Z.ltb_spec v 0).
    - symmetry. apply (Z.mod_unique _ _ (-1)); lia.
    - apply Z.mod_small. lia. }
  assert (Hin : in_i 16 v <-> -32768 <= v < 32768) by (unfold in_i; cbn; lia). rewrite Hin. clear Hin. split.
  - intros (Hv & _ & ->). rewrite Hmod by done. split; [lia|done].
  - intros [Hv ->]. rewrite Hmod by lia. split; [lia|]. split; [|done].
    unfold in_u. destruct (Z.ltb_spec v 0); lia.
Qed.

Lemma button_byte b : byte_of_Z (PointerButton.to_u8 b) = button_code b.
Proof. by destruct b. Qed.
Lemma state_byte s : byte_of_Z (ButtonState.to_u8 s) = pressed_code s.
Proof. by destruct s. Qed.
Lemma phase_byte p : byte_of_Z (TouchPhase.to_u8 p) = phase_code p.
Proof. by destruct p. Qed.

Lemma valid_kind k : InputEventKind.typed k ->
  InputEventKind.validate k = Ok tt <->
  match k with
  | InputEventKind.Key usage _ _ => usage <> 0
  | InputEventKind.Touch contact _ _ _ _ => contact < 16
  | _ => True
  end.
Proof.
  intros Hk. destruct k as [| | |[|u|u] s m|c ph x y p|]; cbn; try done.
  unfold MAX_TOUCH_CONTACTS. destruct (Z.geb_spec c 16); split; (done || lia).
Qed.

(** The body of a kind is the one the code writes. *)
Lemma wire_body_iff k tag body :
  wire_body k tag body <->
  InputEventKind.typed k /\ InputEventKind.validate k = Ok tt /\
  tag = byte_of_Z (InputEventKind.wire_kind k) /\ body = InputEvent.encode_kind k.
Proof.
  split.
  - intros Hb.
    assert (Hk : InputEventKind.typed k /\ tag = byte_of_Z (InputEventKind.wire_kind k) /\ body = InputEvent.encode_kind k /\
      match k with
      | InputEventKind.Key usage _ _ => usage <> 0
      | InputEventKind.Touch contact _ _ _ _ => contact < 16
      | _ => True
      end).
    { destruct Hb as [x y fx fy [Hx ->]%holds_iff [Hy ->]%holds_iff|b s|dx dy fx fy [Hx ->]%holds_signed_iff
        [Hy ->]%holds_signed_iff|u s m fu fm [Hu ->]%holds_iff Hne [Hm ->]%holds_iff Hlt
        |c ph x y p fc fx fy fp [Hc Hfc]%holds_iff Hlt [Hx ->]%holds_iff [Hy ->]%holds_iff [Hp ->]%holds_iff|f];
        cbn [InputEventKind.typed InputEventKind.wire_kind InputEvent.encode_kind];
        rewrite ?button_byte, ?state_byte, ?phase_byte.
      - by split_and!.
      - by split_and!.
      - by split_and!.
      - split_and!; [done| |done..]. unfold KeyModifiers.wf, in_u in *. cbn. lia.
      - rewrite be_bytes_single in Hfc. injection Hfc as ->. by split_and!.
      - split_and!; [done..| |done]. by destruct f. }
    destruct Hk as (Ht & -> & -> & Hv). split_and!; [done|by apply valid_kind|done..].
  - intros (Ht & Hv & -> & ->). apply (valid_kind _ Ht) in Hv.
    destruct k as [x y|b s|dx dy|u s [m]|c ph x y p|f]; cbn in *; rewrite ?button_byte, ?state_byte, ?phase_byte.
    + destruct Ht. apply wire_move; by apply holds_iff.
    + apply wire_button.
    + destruct Ht. apply wire_wheel; by apply holds_signed_iff.
    + destruct Ht as [Hu Hm]. unfold KeyModifiers.wf in Hm. cbn in Hm.
      apply wire_key; try apply holds_iff; [done|done|unfold in_u; split; [lia|done]|lia].
    + destruct Ht as (Hc & Hx & Hy & Hp).
      apply wire_touch; try apply holds_iff; [by rewrite be_bytes_single|done..].
    + destruct f; [apply (wire_focus true)|apply (wire_focus false)].
Qed.

Lemma on_wire_iff e bs : on_wire e bs <-> InputEvent.wf e /\ InputEvent.encode e = Ok bs.
Proof.
  split.
  - intros [time kind ft tag body Ht%holds_iff (Hk & Hv & -> & ->)%wire_body_iff]. destruct Ht as [Ht ->].
    split; [by split|]. unfold InputEvent.encode. cbn [InputEvent.kind]. by rewrite Hv.
  - intros [[Ht Hk Hv] He]. unfold InputEvent.encode in He. rewrite Hv in He. injection He as <-.
    destruct e as [time kind]. cbn in *. constructor; [by apply holds_iff|by apply wire_body_iff].
Qed.

Lemma on_wire_length e bs : on_wire e bs -> zlen bs = wire_length (InputEvent.kind e).
Proof.
  intros Hw. apply on_wire_iff in Hw as [Hwf He]. destruct (InputEvent_encode_wf e Hwf) as (bs' & He' & Hl).
  rewrite He in He'. injection He' as <-. rewrite Hl. by destruct (InputEvent.kind e).
Qed.

(** C40: an input event is decoded exactly from its bytes on the wire: a time, a kind
    byte and the fields of that kind, no byte more or less, with a key's usage not zero,
    no modifier beyond six bits, fewer than sixteen contacts and booleans of zero or one;
    all other byte strings are refused, never with a panic. An event of the Rust types is
    encoded to these bytes, and refused where it has none: the reserved usage and the
    contacts beyond the table. *)
Theorem input_codec_is_exact :
  (forall bs, returns (InputEvent.decode bs) /\ forall e, InputEvent.decode bs = Ok e <-> on_wire e bs) /\
  (forall e, in_u 64 (InputEvent.timestamp_micros e) -> InputEventKind.typed (InputEvent.kind e) ->
    returns (InputEvent.encode e) /\ forall bs, InputEvent.encode e = Ok bs <-> on_wire e bs) /\
  (forall e bs, on_wire e bs -> zlen bs = wire_length (InputEvent.kind e)) /\
  forall e, (exists bs, on_wire e bs) <->
    in_u 64 (InputEvent.timestamp_micros e) /\ InputEventKind.typed (InputEvent.kind e) /\
    match InputEvent.kind e with
    | InputEventKind.Key usage _ _ => usage <> 0
    | InputEventKind.Touch contact _ _ _ _ => contact < 16
    | _ => True
    end.
Proof.
  split_and!.
  - intros bs. split; [apply returns_InputEvent_decode|]. intros e. rewrite on_wire_iff. apply InputEvent_decode_iff.
  - intros e Ht Hk. split; [exact (wire_encode_returns (P:=InputEvent.t) e)|]. intros bs. rewrite on_wire_iff.
    split; [|by intros []]. intros He. split; [|done]. split; [done..|]. unfold InputEvent.encode in He.
    by destruct (InputEventKind.validate (InputEvent.kind e)) as [[]| |].
  - apply on_wire_length.
  - intros e. split.
    + intros [bs [[Ht Hk Hv] _]%on_wire_iff]. split_and!; [done..|]. by apply valid_kind.
    + intros (Ht & Hk & Hv). apply valid_kind in Hv; [|done].
      destruct (InputEvent_encode_wf e) as (bs & He & _); [by split|]. exists bs. apply on_wire_iff. split; [by split|done].
Qed.

(** A key, the reserved usage and a contact too many. *)
Definition key_bytes : list byte :=
  [x00; x00; x00; x00; x00; x00; x01; x00; x04; x00; x2c; x01; x00; x03].
Definition key_event : InputEvent.t :=
  InputEvent.mk 256 (InputEventKind.Key 0x2c ButtonState.Pressed (KeyModifiers.mk 3)).
Lemma input_codec_is_exact_witness :
  on_wire key_event key_bytes /\ InputEvent.encode key_event = Ok key_bytes /\
  (forall e, ~ on_wire e [x00; x00; x00; x00; x00; x00; x01; x00; x04; x00; x00; x01; x00; x03]) /\
  ~ exists bs, on_wire (InputEvent.mk 0 (InputEventKind.Touch 16 TouchPhase.Begin 1 2 3)) bs.
Proof.
  destruct input_codec_is_exact as (Hd & He & _ & Hx).
  assert (Hk : on_wire key_event key_bytes) by (apply (Hd key_bytes); vm_compute; reflexivity).
  split; [exact Hk|]. split.
  - apply He; [split; vm_compute; [discriminate|reflexivity]| |exact Hk].
    split; split; vm_compute; first [discriminate|reflexivity].
  - split.
    + intros e Hw. apply Hd in Hw. vm_compute in Hw. discriminate Hw.
    + intros Hw. apply Hx in Hw as (_ & _ & Hc). cbn in Hc. lia.
Defined.
