(* ===== verification/ProtoControl.v ===== *)
(** * Liveness probes and error messages

    Models [crates/ladoflow-protocol/src/control.rs]. *)
From S2P Require Export ProtoFrame ProtoMessage.
Local Open Scope string_scope.
Local Open Scope list_scope.
Local Open Scope Z_scope.

Definition PING_LEN : Z := 16.
Definition PONG_LEN : Z := 32.
Definition ERROR_PREFIX_LEN : Z := 5.
Definition MAX_ERROR_DIAGNOSTIC_BYTES : Z := 1024.

Module Ping.
Record t : Type := mk {
  token : Z;
  client_send_timestamp_micros : Z;
}.
#[global] Instance t_eq_dec : EqDecision t.
Proof. solve_decision. Defined.

Definition encode (self : t) : presult (list byte) :=
  Ok (be_bytes 8 (token self) ++ be_bytes 8 (client_send_timestamp_micros self)).

Definition decode (payload : list byte) : presult t :=
  if negb (zlen payload =? PING_LEN) then invalid "ping payload must be exactly 16 bytes" else
  let! token := read_u64 payload 0 in
  let! client_send := read_u64 payload 8 in
  Ok (mk token client_send).

Definition wf (p : t) : Prop :=
  in_u 64 (token p) /\ in_u 64 (client_send_timestamp_micros p).
End Ping.

Module Pong.
Record t : Type := mk {
  token : Z;
  client_send_timestamp_micros : Z;
  server_receive_timestamp_micros : Z;
  server_send_timestamp_micros : Z;
}.
#[global] Instance t_eq_dec : EqDecision t.
Proof. solve_decision. Defined.

Definition new (token client_send server_receive server_send : Z) : presult t :=
  if server_send <? server_receive
  then invalid "pong server send timestamp precedes receive timestamp"
  else Ok (mk token client_send server_receive server_send).

Definition encode (self : t) : presult (list byte) :=
  let! _ := new (token self) (client_send_timestamp_micros self)
    (server_receive_timestamp_micros self) (server_send_timestamp_micros self) in
  Ok (be_bytes 8 (token self) ++ be_bytes 8 (client_send_timestamp_micros self) ++
      be_bytes 8 (server_receive_timestamp_micros self) ++
      be_bytes 8 (server_send_timestamp_micros self)).

Definition decode (payload : list byte) : presult t :=
  if negb (zlen payload =? PONG_LEN) then invalid "pong payload must be exactly 32 bytes" else
  let! token := read_u64 payload 0 in
  let! client_send := read_u64 payload 8 in
  let! server_receive := read_u64 payload 16 in
  let! server_send := read_u64 payload 24 in
  new token client_send server_receive server_send.

Record wf (p : t) : Prop := {
  wf_token : in_u 64 (token p);
  wf_client : in_u 64 (client_send_timestamp_micros p);
  wf_receive : in_u 64 (server_receive_timestamp_micros p);
  wf_send : in_u 64 (server_send_timestamp_micros p);
  wf_order : server_receive_timestamp_micros p <= server_send_timestamp_micros p;
}.
End Pong.

Module ErrorCode.
Inductive t : Type :=
| ProtocolViolation
| Unsupported
| ConfigurationRejected
| Unauthorized
| Busy
| EncoderFailure
| DecoderFailure
| InputRejected
| ResourceExhausted
| Internal.
#[global] Instance t_eq_dec : EqDecision t.
Proof. solve_decision. Defined.

Definition to_u16 (c : t) : Z :=
  match c with
  | ProtocolViolation => 1
  | Unsupported => 2
  | ConfigurationRejected => 3
  | Unauthorized => 4
  | Busy => 5
  | EncoderFailure => 6
  | DecoderFailure => 7
  | InputRejected => 8
  | ResourceExhausted => 9
  | Internal => 10
  end.

Definition try_from (value : Z) : presult t :=
  match value with
  | 1 => Ok ProtocolViolation
  | 2 => Ok Unsupported
  | 3 => Ok ConfigurationRejected
  | 4 => Ok Unauthorized
  | 5 => Ok Busy
  | 6 => Ok EncoderFailure
  | 7 => Ok DecoderFailure
  | 8 => Ok InputRejected
  | 9 => Ok ResourceExhausted
  | 10 => Ok Internal
  | _ => invalid "unknown error code"
  end.
(** The derived [Debug]. *)
Definition debug (c : t) : string :=
  match c with
  | ProtocolViolation => "ProtocolViolation"
  | Unsupported => "Unsupported"
  | ConfigurationRejected => "ConfigurationRejected"
  | Unauthorized => "Unauthorized"
  | Busy => "Busy"
  | EncoderFailure => "EncoderFailure"
  | DecoderFailure => "DecoderFailure"
  | InputRejected => "InputRejected"
  | ResourceExhausted => "ResourceExhausted"
  | Internal => "Internal"
  end.
End ErrorCode.

Definition validate_diagnostic (diagnostic : list byte) : presult unit :=
  if zlen diagnostic >? MAX_ERROR_DIAGNOSTIC_BYTES then invalid "error diagnostic is too long"
  else if contains_nul diagnostic then invalid "error diagnostic contains a null byte"
  else Ok tt.

Module ErrorMessage.
Record t : Type := mk {
  code : ErrorCode.t;
  retryable : bool;
  diagnostic : list byte;
}.
#[global] Instance t_eq_dec : EqDecision t.
Proof. solve_decision. Defined.

Definition new (code : ErrorCode.t) (retryable : bool) (diagnostic : list byte) : presult t :=
  let! _ := validate_diagnostic diagnostic in
  Ok (mk code retryable diagnostic).

(** The [decode_bool] of [control.rs]. *)
Definition decode_bool (value : Z) : presult bool :=
  match value with
  | 0 => Ok false
  | 1 => Ok true
  | _ => invalid "boolean error field must be zero or one"
  end.

Definition encode (self : t) : presult (list byte) :=
  let! _ := validate_diagnostic (diagnostic self) in
  let! diagnostic_len := ok_or (checked 16 (zlen (diagnostic self)))
    (ProtocolError.InvalidPayload "error diagnostic is too long") in
  Ok (be_bytes 2 (ErrorCode.to_u16 (code self)) ++
      [byte_of_Z (if retryable self then 1 else 0)] ++
      be_bytes 2 diagnostic_len ++ diagnostic self).

Definition decode (payload : list byte) : presult t :=
  if zlen payload <? ERROR_PREFIX_LEN then invalid "error payload is truncated"
  else if zlen payload >? ERROR_PREFIX_LEN + MAX_ERROR_DIAGNOSTIC_BYTES
  then invalid "error diagnostic is too long"
  else
    let! code_bits := read_u16 payload 0 in
    let! code := ErrorCode.try_from code_bits in
    let! retry_byte := index payload 2 in
    let! retryable := decode_bool (byte_to_Z retry_byte) in
    let! diagnostic_len := read_u16 payload 3 in
    let! expected_len := chk usize_bits (ERROR_PREFIX_LEN + diagnostic_len) in
    if negb (zlen payload =? expected_len)
    then invalid "error diagnostic length does not match payload" else
    let! rest := slice_from payload (Z.to_nat ERROR_PREFIX_LEN) in
    let! diagnostic := if utf8_valid rest then Ok rest else Err ProtocolError.InvalidUtf8 in
    new code retryable diagnostic.

Record wf (m : t) : Prop := {
  wf_len : zlen (diagnostic m) <= MAX_ERROR_DIAGNOSTIC_BYTES;
  wf_nul : contains_nul (diagnostic m) = false;
  wf_utf8 : utf8_valid (diagnostic m) = true;
}.
End ErrorMessage.

#[export] Instance Ping_payload : WirePayload Ping.t := {
  KIND := MessageType.Ping; wire_encode := Ping.encode; wire_decode := Ping.decode }.
#[export] Instance Pong_payload : WirePayload Pong.t := {
  KIND := MessageType.Pong; wire_encode := Pong.encode; wire_decode := Pong.decode }.
#[export] Instance ErrorMessage_payload : WirePayload ErrorMessage.t := {
  KIND := MessageType.Error;
  wire_encode := ErrorMessage.encode;
  wire_decode := ErrorMessage.decode;
}.

(** ** Ping *)
Lemma Ping_decode_iff bs p : Ping.decode bs = Ok p <-> Ping.wf p /\ Ping.encode p = Ok bs.
Proof.
  unfold Ping.encode. split.
  - unfold Ping.decode, PING_LEN. destruct (Z.eqb_spec (zlen bs) 16) as [Hl|]; [|done].
    assert (length bs = 16%nat) as Hlen by lia. clear Hl. intros Hd. explode_list bs.
    simpl in Hd. injection Hd as <-. simpl. autorewrite with bytes.
    split; [|done]. by split; apply be_value_in_u.
  - destruct p as [tk cs]. intros [[Ht Hc] [= <-]]. simpl in *.
    open_field 8%nat 64 tk; open_field 8%nat 64 cs. by autorewrite with bytes.
Qed.

Lemma returns_Ping_decode bs : returns (Ping.decode bs).
Proof.
  unfold Ping.decode, PING_LEN. destruct (Z.eqb_spec (zlen bs) 16); [|done].
  cbn [negb]. solve_returns.
Qed.

#[export, refine] Instance Ping_laws : WirePayloadLaws Ping.t := {
  wire_wf := Ping.wf;
  wire_decode_returns := returns_Ping_decode;
  wire_decode_iff := Ping_decode_iff;
}.
Proof.
  - done.
  - intros p _. by eexists.
  - intros p bs _ [= <-]. measure_bytes. by vm_compute.
Defined.

(** ** Pong *)
Lemma Pong_new_iff tk c r s p :
  Pong.new tk c r s = Ok p <-> p = Pong.mk tk c r s /\ r <= s.
Proof.
  unfold Pong.new. destruct (Z.ltb_spec s r); split;
    [done|intros [_ ?]; lia|by intros [= <-]|by intros [-> _]].
Qed.

Lemma Pong_new_self p :
  Pong.wf p ->
  Pong.new (Pong.token p) (Pong.client_send_timestamp_micros p)
    (Pong.server_receive_timestamp_micros p) (Pong.server_send_timestamp_micros p) = Ok p.
Proof. intros [_ _ _ _ Ho]. apply Pong_new_iff. by destruct p. Qed.

Lemma returns_Pong_new a b c d : returns (Pong.new a b c d).
Proof. unfold Pong.new. solve_returns. Qed.
#[export] Hint Resolve returns_Pong_new : rust.

Lemma Pong_decode_iff bs p : Pong.decode bs = Ok p <-> Pong.wf p /\ Pong.encode p = Ok bs.
Proof.
  split.
  - unfold Pong.decode, PONG_LEN. destruct (Z.eqb_spec (zlen bs) 32) as [Hl|]; [|done].
    assert (length bs = 32%nat) as Hlen by lia. clear Hl. intros Hd. explode_list bs.
    simpl in Hd. apply Pong_new_iff in Hd as [-> Ho].
    assert (Hwf : Pong.wf (Pong.mk
      (be_value [b; b0; b1; b2; b3; b4; b5; b6]) (be_value [b7; b8; b9; b10; b11; b12; b13; b14])
      (be_value [b15; b16; b17; b18; b19; b20; b21; b22])
      (be_value [b23; b24; b25; b26; b27; b28; b29; b30]))).
    { split; simpl; [by apply be_value_in_u..|done]. }
    split; [done|]. unfold Pong.encode. rewrite Pong_new_self by done.
    simpl. by autorewrite with bytes.
  - intros [Hwf He]. unfold Pong.encode in He. rewrite Pong_new_self in He by done.
    injection He as <-. pose proof (Pong_new_self p Hwf) as Hnew. destruct Hwf as [Ht Hc Hr Hs _].
    destruct p as [tk c r s]. simpl in *.
    open_field 8%nat 64 tk; open_field 8%nat 64 c; open_field 8%nat 64 r; open_field 8%nat 64 s.
    by autorewrite with bytes.
Qed.

Lemma returns_Pong_decode bs : returns (Pong.decode bs).
Proof.
  unfold Pong.decode, PONG_LEN. destruct (Z.eqb_spec (zlen bs) 32); [|done].
  cbn [negb]. solve_returns.
Qed.

#[export, refine] Instance Pong_laws : WirePayloadLaws Pong.t := {
  wire_wf := Pong.wf;
  wire_decode_returns := returns_Pong_decode;
  wire_decode_iff := Pong_decode_iff;
}.
Proof.
  - intros p. unfold wire_encode, Pong_payload, Pong.encode. solve_returns.
  - intros p Hwf. unfold wire_encode, Pong_payload, Pong.encode.
    rewrite Pong_new_self by done. by eexists.
  - intros p bs Hwf He. unfold wire_encode, Pong_payload, Pong.encode in He.
    rewrite Pong_new_self in He by done. injection He as <-. measure_bytes. by vm_compute.
Defined.

(** ** Error messages *)
Lemma ErrorCode_try_from_iff v c : ErrorCode.try_from v = Ok c <-> v = ErrorCode.to_u16 c.
Proof. solve_enum_iff ErrorCode.try_from v c. Qed.
Lemma error_decode_bool_iff v b : ErrorMessage.decode_bool v = Ok b <-> v = if b then 1 else 0.
Proof. solve_enum_iff ErrorMessage.decode_bool v b. Qed.
Lemma returns_ErrorCode_try_from v : returns (ErrorCode.try_from v).
Proof. unfold ErrorCode.try_from. by repeat case_match. Qed.
Lemma returns_error_decode_bool v : returns (ErrorMessage.decode_bool v).
Proof. unfold ErrorMessage.decode_bool. by repeat case_match. Qed.

Lemma validate_diagnostic_ok d :
  validate_diagnostic d = Ok tt <->
  zlen d <= MAX_ERROR_DIAGNOSTIC_BYTES /\ contains_nul d = false.
Proof.
  unfold validate_diagnostic. rewrite Z.gtb_ltb.
  destruct (Z.ltb_spec MAX_ERROR_DIAGNOSTIC_BYTES (zlen d)); [split; [done|lia]|].
  destruct (contains_nul d); naive_solver.
Qed.

Lemma returns_validate_diagnostic d : returns (validate_diagnostic d).
Proof. unfold validate_diagnostic. solve_returns. Qed.
#[export] Hint Resolve returns_ErrorCode_try_from returns_error_decode_bool
  returns_validate_diagnostic : rust.

Lemma ErrorMessage_encode_wf m :
  ErrorMessage.wf m ->
  ErrorMessage.encode m =
    Ok (be_bytes 2 (ErrorCode.to_u16 (ErrorMessage.code m)) ++
        [byte_of_Z (if ErrorMessage.retryable m then 1 else 0)] ++
        be_bytes 2 (zlen (ErrorMessage.diagnostic m)) ++ ErrorMessage.diagnostic m).
Proof.
  intros [Hl Hn _]. unfold ErrorMessage.encode.
  rewrite (proj2 (validate_diagnostic_ok _) (conj Hl Hn)). cbn [obind].
  unfold MAX_ERROR_DIAGNOSTIC_BYTES in Hl. by rewrite checked_in by (unfold in_u; lia).
Qed.

(** After its five-byte prefix, an error is a function of the fields and the
    diagnostic. *)
Lemma ErrorMessage_decode_prefix b0 b1 b2 b3 b4 d :
  zlen d <= MAX_ERROR_DIAGNOSTIC_BYTES ->
  ErrorMessage.decode ([b0; b1; b2; b3; b4] ++ d) =
    (let! code := ErrorCode.try_from (be_value [b0; b1]) in
     let! retryable := ErrorMessage.decode_bool (byte_to_Z b2) in
     if negb (zlen d =? be_value [b3; b4])
     then invalid "error diagnostic length does not match payload" else
     let! d := if utf8_valid d then Ok d else Err ProtocolError.InvalidUtf8 in
     ErrorMessage.new code retryable d).
Proof.
  intros Hd. unfold ErrorMessage.decode, ERROR_PREFIX_LEN.
  assert (Hlen : zlen ([b0; b1; b2; b3; b4] ++ d) = 5 + zlen d) by (rewrite length_app; cbn [length]; lia).
  rewrite Hlen, Z.gtb_ltb. destruct (Z.ltb_spec (5 + zlen d) 5); [lia|].
  destruct (Z.ltb_spec (5 + MAX_ERROR_DIAGNOSTIC_BYTES) (5 + zlen d)); [lia|].
  unfold slice_from. rewrite slice_ok by lia.
  cbn [app read_u16 index lookup list_lookup obind Nat.add].
  destruct (ErrorCode.try_from _) as [c|e|f]; [|done..]. cbn [obind].
  destruct (ErrorMessage.decode_bool _) as [r|e|f]; [|done..]. cbn [obind].
  pose proof (be_value_range [b3; b4]) as Hr.
  change (256 ^ zlen [b3; b4]) with 65536 in Hr.
  rewrite chk_ok by (unfold_int; lia). cbn [obind].
  destruct (Z.eqb_spec (5 + zlen d) (5 + be_value [b3; b4])),
    (Z.eqb_spec (zlen d) (be_value [b3; b4])); try lia; [|done]. cbn [negb].
  change (drop (Z.to_nat 5) (b0 :: b1 :: b2 :: b3 :: b4 :: d)) with d.
  by rewrite firstn_all2 by (cbn [length]; lia).
Qed.

Lemma ErrorMessage_decode_out (bs : list byte) :
  ~ (5 <= zlen bs <= 5 + MAX_ERROR_DIAGNOSTIC_BYTES) ->
  exists s, ErrorMessage.decode bs = invalid s.
Proof.
  intros H. unfold ErrorMessage.decode, ERROR_PREFIX_LEN. rewrite Z.gtb_ltb.
  destruct (Z.ltb_spec (zlen bs) 5); [eauto|].
  destruct (Z.ltb_spec (5 + MAX_ERROR_DIAGNOSTIC_BYTES) (zlen bs)); [eauto|lia].
Qed.

Lemma ErrorMessage_split (bs : list byte) :
  5 <= zlen bs <= 5 + MAX_ERROR_DIAGNOSTIC_BYTES ->
  exists b0 b1 b2 b3 b4 d,
    bs = [b0; b1; b2; b3; b4] ++ d /\ zlen d <= MAX_ERROR_DIAGNOSTIC_BYTES.
Proof.
  intros H. destruct (list_split_at 5 bs) as (a & d & -> & Ha); [lia|].
  rewrite length_app in H. explode_list a.
  exists b, b0, b1, b2, b3, d. split; [done|]. cbn [length] in H. lia.
Qed.

Lemma returns_ErrorMessage_decode bs : returns (ErrorMessage.decode bs).
Proof.
  destruct (decide (5 <= zlen bs <= 5 + MAX_ERROR_DIAGNOSTIC_BYTES)) as [H|H].
  - destruct (ErrorMessage_split bs H) as (b0 & b1 & b2 & b3 & b4 & d & -> & Hd).
    rewrite ErrorMessage_decode_prefix by done. unfold ErrorMessage.new. solve_returns.
  - by destruct (ErrorMessage_decode_out bs H) as [s ->].
Qed.

Lemma ErrorMessage_decode_iff bs m :
  ErrorMessage.decode bs = Ok m <-> ErrorMessage.wf m /\ ErrorMessage.encode m = Ok bs.
Proof.
  split.
  - intros Hd. destruct (decide (5 <= zlen bs <= 5 + MAX_ERROR_DIAGNOSTIC_BYTES)) as [H|H].
    2:{ destruct (ErrorMessage_decode_out bs H) as [s Hs]. by rewrite Hs in Hd. }
    destruct (ErrorMessage_split bs H) as (b0 & b1 & b2 & b3 & b4 & d & -> & Hl).
    rewrite ErrorMessage_decode_prefix in Hd by done.
    apply obind_ok_inv in Hd as (c & Hc & Hd). apply ErrorCode_try_from_iff in Hc.
    apply obind_ok_inv in Hd as (r & Hr & Hd). apply error_decode_bool_iff in Hr.
    destruct (Z.eqb_spec (zlen d) (be_value [b3; b4])) as [Hlen|]; [|done].
    destruct (utf8_valid d) eqn:Hu; [|done]. cbn [negb obind] in Hd.
    unfold ErrorMessage.new in Hd. apply obind_ok_inv in Hd as ([] & Hv & Hd).
    injection Hd as <-. apply validate_diagnostic_ok in Hv as [_ Hn].
    assert (Hwf : ErrorMessage.wf (ErrorMessage.mk c r d)) by by split.
    split; [done|]. rewrite ErrorMessage_encode_wf by done. simpl.
    rewrite <- Hc, <- Hr, Hlen. by autorewrite with bytes.
  - intros [Hwf He]. rewrite ErrorMessage_encode_wf in He by done. injection He as <-.
    pose proof Hwf as [Hl Hn Hu]. destruct m as [c r d]. simpl in *.
    assert (Hc : in_u 16 (ErrorCode.to_u16 c)) by (destruct c; unfold in_u; simpl; lia).
    assert (Hd : in_u 16 (zlen d)) by (unfold in_u, MAX_ERROR_DIAGNOSTIC_BYTES in *; lia).
    destruct (be_field 2 16 _ Hc eq_refl) as (lc & Hlc & Ec).
    destruct (be_field 2 16 _ Hd eq_refl) as (ld & Hld & Ed).
    explode_list lc; explode_list ld. rewrite Ec, Ed. autorewrite with bytes.
    change ([b; b0] ++ ?x :: [b1; b2] ++ d) with ([b; b0; x; b1; b2] ++ d).
    rewrite ErrorMessage_decode_prefix, <- Ec, <- Ed by done.
    rewrite (proj2 (ErrorCode_try_from_iff _ c) eq_refl). cbn [obind].
    replace (byte_to_Z (byte_of_Z (if r then 1 else 0))) with (if r then 1 else 0) by by destruct r.
    rewrite (proj2 (error_decode_bool_iff _ r) eq_refl), Z.eqb_refl. cbn [obind negb].
    rewrite Hu. cbn [obind]. unfold ErrorMessage.new.
    by rewrite (proj2 (validate_diagnostic_ok _) (conj Hl Hn)).
Qed.

#[export, refine] Instance ErrorMessage_laws : WirePayloadLaws ErrorMessage.t := {
  wire_wf := ErrorMessage.wf;
  wire_decode_returns := returns_ErrorMessage_decode;
  wire_decode_iff := ErrorMessage_decode_iff;
}.
Proof.
  - intros m. unfold wire_encode, ErrorMessage_payload, ErrorMessage.encode. solve_returns.
  - intros m Hwf. eexists. by apply ErrorMessage_encode_wf.
  - intros m bs Hwf He. unfold wire_encode, ErrorMessage_payload in He.
    rewrite ErrorMessage_encode_wf in He by done. injection He as <-.
    destruct Hwf as [Hl _ _]. unfold MAX_ERROR_DIAGNOSTIC_BYTES in Hl. measure_bytes.
    change (MessageType.payload_limit KIND) with MAX_CONTROL_PAYLOAD.
    unfold MAX_CONTROL_PAYLOAD. lia.
Defined.

(** ** Properties of the control payloads *)

(** Pings, pongs and error messages are decoded exactly from their
    encodings; a pong never leaves its server before it arrived, and an error's
    diagnostic is bounded UTF-8 of the announced length. *)
Theorem control_codecs_are_exact :
  exact_codec Ping.wf /\ exact_codec Pong.wf /\ exact_codec ErrorMessage.wf.
Proof.
  exact (conj (laws_exact_codec (P:=Ping.t))
    (conj (laws_exact_codec (P:=Pong.t)) (laws_exact_codec (P:=ErrorMessage.t)))).
Qed.

Lemma typed_frame_roundtrip_witness :
  exists f, Frame.from_payload FrameFlags.ACK_REQUIRED 41 (Ping.mk 5 9) = Ok f /\
    Frame.decode_payload Ping.t f = Ok (Ping.mk 5 9).
Proof.
  destruct (typed_frame_roundtrip FrameFlags.ACK_REQUIRED 41 (Ping.mk 5 9)) as (f & H1 & _ & H2 & _).
  - split; vm_compute; (split; (done || discriminate)).
  - vm_compute. split; (done || discriminate).
  - vm_compute. split; (done || discriminate).
  - by exists f.
Defined.
