(* ===== verification/ProtoTelemetry.v ===== *)
(** * Telemetry samples

    Models [crates/ladoflow-protocol/src/telemetry.rs]. *)
From S2P Require Export ProtoMessage.
Local Open Scope string_scope.
Local Open Scope list_scope.
Local Open Scope Z_scope.

Definition TELEMETRY_LEN : Z := 51.
Definition MAX_STAGE_DURATION_MICROS : Z := 60000000.
Definition MAX_TELEMETRY_QUEUE_DEPTH : Z := 4096.
Definition MAX_LOSS_PARTS_PER_MILLION : Z := 1000000.

Module ThermalState.
Inductive t : Type :=
| Unknown
| Nominal
| Fair
| Serious
| Critical.
#[global] Instance t_eq_dec : EqDecision t.
Proof. solve_decision. Defined.

Definition to_u8 (s : t) : Z :=
  match s with
  | Unknown => 0
  | Nominal => 1
  | Fair => 2
  | Serious => 3
  | Critical => 4
  end.

Definition try_from (value : Z) : presult t :=
  match value with
  | 0 => Ok Unknown
  | 1 => Ok Nominal
  | 2 => Ok Fair
  | 3 => Ok Serious
  | 4 => Ok Critical
  | _ => invalid "unknown thermal state"
  end.
End ThermalState.

Module StageTimings.
Record t : Type := mk {
  capture : Z;
  encode : Z;
  transport : Z;
  decode : Z;
  presentation : Z;
}.
#[global] Instance t_eq_dec : EqDecision t.
Proof. solve_decision. Defined.

Definition durations (self : t) : list Z :=
  [capture self; encode self; transport self; decode self; presentation self].

Definition validate (self : t) : presult unit :=
  if existsb (fun duration => duration >? MAX_STAGE_DURATION_MICROS) (durations self)
  then invalid "telemetry stage duration exceeds version-one limit"
  else Ok tt.

Definition new (capture encode transport decode presentation : Z) : presult t :=
  let timings := mk capture encode transport decode presentation in
  let! _ := validate timings in
  Ok timings.

Definition encode_into (self : t) (payload : list byte) : list byte :=
  payload ++ be_bytes 4 (capture self) ++ be_bytes 4 (encode self) ++
  be_bytes 4 (transport self) ++ be_bytes 4 (decode self) ++ be_bytes 4 (presentation self).

Definition wf (s : t) : Prop :=
  Forall (fun d => 0 <= d <= MAX_STAGE_DURATION_MICROS) (durations s).
End StageTimings.

Module Telemetry.
Record t : Type := mk {
  sample_timestamp_micros : Z;
  frame_id : Z;
  timings : StageTimings.t;
  queue_depth : Z;
  loss_parts_per_million : Z;
  dropped_frames : Z;
  late_frames : Z;
  thermal_state : ThermalState.t;
}.
#[global] Instance t_eq_dec : EqDecision t.
Proof. solve_decision. Defined.

Definition new (sample_timestamp_micros frame_id : Z) (timings : StageTimings.t)
  (queue_depth loss_parts_per_million dropped_frames late_frames : Z)
  (thermal_state : ThermalState.t) : presult t :=
  let! _ := StageTimings.validate timings in
  if queue_depth >? MAX_TELEMETRY_QUEUE_DEPTH
  then invalid "telemetry queue depth exceeds version-one limit"
  else if loss_parts_per_million >? MAX_LOSS_PARTS_PER_MILLION
  then invalid "telemetry loss ratio exceeds one million parts per million"
  else Ok (mk sample_timestamp_micros frame_id timings queue_depth loss_parts_per_million
             dropped_frames late_frames thermal_state).

Definition renew (self : t) : presult t :=
  new (sample_timestamp_micros self) (frame_id self) (timings self) (queue_depth self)
    (loss_parts_per_million self) (dropped_frames self) (late_frames self) (thermal_state self).

Definition encode (self : t) : presult (list byte) :=
  let! _ := renew self in
  let payload := be_bytes 8 (sample_timestamp_micros self) ++ be_bytes 8 (frame_id self) in
  let payload := StageTimings.encode_into (timings self) payload in
  Ok (payload ++ be_bytes 2 (queue_depth self) ++ be_bytes 4 (loss_parts_per_million self) ++
      be_bytes 4 (dropped_frames self) ++ be_bytes 4 (late_frames self) ++
      [byte_of_Z (ThermalState.to_u8 (thermal_state self))]).

Definition decode (payload : list byte) : presult t :=
  if negb (zlen payload =? TELEMETRY_LEN)
  then invalid "telemetry payload must be exactly 51 bytes" else
  let! sample_timestamp_micros := read_u64 payload 0 in
  let! frame_id := read_u64 payload 8 in
  let! capture := read_u32 payload 16 in
  let! encode := read_u32 payload 20 in
  let! transport := read_u32 payload 24 in
  let! decode := read_u32 payload 28 in
  let! presentation := read_u32 payload 32 in
  let! timings := StageTimings.new capture encode transport decode presentation in
  let! queue_depth := read_u16 payload 36 in
  let! loss := read_u32 payload 38 in
  let! dropped_frames := read_u32 payload 42 in
  let! late_frames := read_u32 payload 46 in
  let! thermal := index payload 50 in
  let! thermal_state := ThermalState.try_from (byte_to_Z thermal) in
  new sample_timestamp_micros frame_id timings queue_depth loss dropped_frames late_frames
    thermal_state.

Record wf (s : t) : Prop := {
  wf_sample : in_u 64 (sample_timestamp_micros s);
  wf_frame : in_u 64 (frame_id s);
  wf_timings : StageTimings.wf (timings s);
  wf_queue : 0 <= queue_depth s <= MAX_TELEMETRY_QUEUE_DEPTH;
  wf_loss : 0 <= loss_parts_per_million s <= MAX_LOSS_PARTS_PER_MILLION;
  wf_dropped : in_u 32 (dropped_frames s);
  wf_late : in_u 32 (late_frames s);
}.
End Telemetry.

#[export] Instance Telemetry_payload : WirePayload Telemetry.t := {
  KIND := MessageType.Telemetry;
  wire_encode := Telemetry.encode;
  wire_decode := Telemetry.decode;
}.

Lemma ThermalState_try_from_iff v s : ThermalState.try_from v = Ok s <-> v = ThermalState.to_u8 s.
Proof. solve_enum_iff ThermalState.try_from v s. Qed.
Lemma returns_ThermalState_try_from v : returns (ThermalState.try_from v).
Proof. unfold ThermalState.try_from. by repeat case_match. Qed.

Lemma StageTimings_validate_ok s :
  Forall (fun d => 0 <= d) (StageTimings.durations s) ->
  StageTimings.validate s = Ok tt <-> StageTimings.wf s.
Proof.
  unfold StageTimings.validate, StageTimings.wf. generalize (StageTimings.durations s). intros l Hl.
  destruct (existsb _ l) eqn:Hx.
  - split; [done|]. intros Hf. apply existsb_exists in Hx as (d & Hin & Hd).
    rewrite Forall_forall in Hf. apply list_elem_of_In, Hf in Hin.
    rewrite Z.gtb_ltb in Hd. bool_to_Z. lia.
  - split; [|done]. intros _. rewrite Forall_forall in Hl |- *. intros d Hin.
    split; [by apply Hl|]. destruct (Z.leb_spec d MAX_STAGE_DURATION_MICROS) as [|Hgt]; [done|].
    assert (existsb (fun duration => duration >? MAX_STAGE_DURATION_MICROS) l = true); [|congruence].
    apply existsb_exists. exists d. split; [by apply list_elem_of_In|].
    rewrite Z.gtb_ltb. by apply Z.ltb_lt.
Qed.

Lemma returns_StageTimings_validate s : returns (StageTimings.validate s).
Proof. unfold StageTimings.validate. by case_match. Qed.
#[export] Hint Resolve returns_ThermalState_try_from returns_StageTimings_validate : rust.

Lemma returns_Telemetry_new a b c d e f g h : returns (Telemetry.new a b c d e f g h).
Proof. unfold Telemetry.new. solve_returns. Qed.
#[export] Hint Resolve returns_Telemetry_new : rust.

Lemma StageTimings_wf_nonneg s :
  StageTimings.wf s -> Forall (fun d => 0 <= d) (StageTimings.durations s).
Proof. intros H. eapply Forall_impl; [exact H|]. simpl. lia. Qed.

Lemma Telemetry_new_iff ts fid tm q l dr la th s :
  Forall (fun d => 0 <= d) (StageTimings.durations tm) ->
  Telemetry.new ts fid tm q l dr la th = Ok s <->
  s = Telemetry.mk ts fid tm q l dr la th /\ StageTimings.wf tm /\
  q <= MAX_TELEMETRY_QUEUE_DEPTH /\ l <= MAX_LOSS_PARTS_PER_MILLION.
Proof.
  intros Hn. unfold Telemetry.new. rewrite !Z.gtb_ltb.
  pose proof (StageTimings_validate_ok tm Hn) as Hv.
  destruct (StageTimings.validate tm) as [[]|e|f]; cbn [obind]; [|naive_solver..].
  destruct (Z.ltb_spec MAX_TELEMETRY_QUEUE_DEPTH q); [split; [done|naive_solver lia]|].
  destruct (Z.ltb_spec MAX_LOSS_PARTS_PER_MILLION l); [split; [done|naive_solver lia]|].
  naive_solver.
Qed.

Lemma Telemetry_renew_wf s : Telemetry.wf s -> Telemetry.renew s = Ok s.
Proof.
  intros [_ _ Ht Hq Hl _ _]. apply Telemetry_new_iff; [by apply StageTimings_wf_nonneg|].
  destruct s; simpl in *. repeat split; (done || lia).
Qed.

Lemma StageTimings_new_iff a b c d e s :
  0 <= a -> 0 <= b -> 0 <= c -> 0 <= d -> 0 <= e ->
  StageTimings.new a b c d e = Ok s <->
  s = StageTimings.mk a b c d e /\ StageTimings.wf s.
Proof.
  intros. unfold StageTimings.new.
  assert (Hn : Forall (fun d => 0 <= d) (StageTimings.durations (StageTimings.mk a b c d e)))
    by by repeat constructor.
  pose proof (StageTimings_validate_ok _ Hn) as Hv.
  destruct (StageTimings.validate _) as [[]|x|x]; cbn [obind]; naive_solver.
Qed.

Lemma StageTimings_new_self s :
  StageTimings.wf s ->
  StageTimings.new (StageTimings.capture s) (StageTimings.encode s) (StageTimings.transport s)
    (StageTimings.decode s) (StageTimings.presentation s) = Ok s.
Proof.
  intros Hwf. pose proof Hwf as H. unfold StageTimings.wf, StageTimings.durations in H.
  repeat (apply Forall_cons in H as [? H]).
  apply StageTimings_new_iff; [lia..|]. by destruct s.
Qed.

Lemma returns_Telemetry_decode bs : returns (Telemetry.decode bs).
Proof.
  unfold Telemetry.decode, TELEMETRY_LEN, StageTimings.new.
  destruct (Z.eqb_spec (zlen bs) 51); [|done]. cbn [negb]. solve_returns.
Qed.

Lemma Telemetry_decode_iff bs s :
  Telemetry.decode bs = Ok s <-> Telemetry.wf s /\ Telemetry.encode s = Ok bs.
Proof.
  split.
  - unfold Telemetry.decode, TELEMETRY_LEN. destruct (Z.eqb_spec (zlen bs) 51) as [Hl|]; [|done].
    assert (length bs = 51%nat) as Hlen by lia. clear Hl. intros Hd. explode_list bs.
    simpl in Hd. apply obind_ok_inv in Hd as (tm & Htm & Hd).
    apply StageTimings_new_iff in Htm as [Htm Hwt]; [|apply be_value_range..].
    apply obind_ok_inv in Hd as (th & Hth & Hd). apply ThermalState_try_from_iff in Hth.
    apply Telemetry_new_iff in Hd as (-> & _ & Hq & Hl); [|by apply StageTimings_wf_nonneg].
    match goal with |- Telemetry.wf ?s /\ _ => assert (Hwf : Telemetry.wf s) end.
    { split; simpl; try done; try (by apply be_value_in_u);
        (split; [apply be_value_range|done]). }
    split; [done|]. unfold Telemetry.encode. rewrite Telemetry_renew_wf by done.
    subst tm. cbn [obind]. unfold StageTimings.encode_into. simpl. rewrite <- Hth.
    by autorewrite with bytes.
  - intros [Hwf He]. unfold Telemetry.encode in He. rewrite Telemetry_renew_wf in He by done.
    injection He as <-. pose proof (Telemetry_renew_wf s Hwf) as Hnew. unfold Telemetry.renew in Hnew.
    destruct Hwf as [Hs Hf Ht Hq Hl Hd Hla]. destruct s as [ts fid [a b c d e] q l dr la th].
    pose proof (StageTimings_new_self _ Ht) as Htn. pose proof Ht as Ht'. unfold StageTimings.wf, StageTimings.durations in Ht'.
    repeat (apply Forall_cons in Ht' as [? Ht']). clear Ht'.
    unfold MAX_STAGE_DURATION_MICROS, MAX_TELEMETRY_QUEUE_DEPTH, MAX_LOSS_PARTS_PER_MILLION in *.
    simpl in *. unfold StageTimings.encode_into. simpl.
    open_field 8%nat 64 ts; open_field 8%nat 64 fid; open_field 4%nat 32 a; open_field 4%nat 32 b;
      open_field 4%nat 32 c; open_field 4%nat 32 d; open_field 4%nat 32 e; open_field 2%nat 16 q;
      open_field 4%nat 32 l; open_field 4%nat 32 dr; open_field 4%nat 32 la.
    autorewrite with bytes. unfold Telemetry.decode. simpl.
    rewrite Htn. cbn [obind].
    replace (byte_to_Z (byte_of_Z (ThermalState.to_u8 th))) with (ThermalState.to_u8 th) by by destruct th.
    by rewrite (proj2 (ThermalState_try_from_iff _ th) eq_refl).
Qed.

#[export, refine] Instance Telemetry_laws : WirePayloadLaws Telemetry.t := {
  wire_wf := Telemetry.wf;
  wire_decode_returns := returns_Telemetry_decode;
  wire_decode_iff := Telemetry_decode_iff;
}.
Proof.
  - intros s. unfold wire_encode, Telemetry_payload, Telemetry.encode, Telemetry.renew. solve_returns.
  - intros s Hwf. unfold wire_encode, Telemetry_payload, Telemetry.encode.
    rewrite Telemetry_renew_wf by done. by eexists.
  - intros s bs Hwf He. unfold wire_encode, Telemetry_payload, Telemetry.encode in He.
    rewrite Telemetry_renew_wf in He by done. injection He as <-.
    unfold StageTimings.encode_into. measure_bytes. by vm_compute.
Defined.

(** ** Property of the telemetry payload *)

(** A telemetry sample is decoded exactly from its 51-byte encoding, within
    the bounds on stage durations, queue depth and loss ratio. *)
Theorem telemetry_codec_is_exact : exact_codec Telemetry.wf.
Proof. exact (laws_exact_codec (P:=Telemetry.t)). Qed.
