(* ===== verification/RustTime.v ===== *)
(** * [std::time::Duration]

    A duration is its number of nanoseconds. The type holds a [u64] of seconds
    and less than a second of nanoseconds, so [MAX] is the largest value; the
    saturating operations stop there and the plain ones panic. *)
From S2P Require Export RustInt.
Local Open Scope Z_scope.

Module Duration.
Definition MAX : Z := (2 ^ 64 - 1) * 1000000000 + 999999999.
Definition ZERO : Z := 0.
Definition valid (d : Z) : Prop := 0 <= d <= MAX.
#[global] Instance valid_dec d : Decision (valid d).
Proof. unfold valid; apply _. Defined.

Definition from_nanos (n : Z) : Z := n.
Definition from_micros (n : Z) : Z := n * 1000.
Definition from_millis (n : Z) : Z := n * 1000000.
Definition from_secs (n : Z) : Z := n * 1000000000.
Definition as_nanos (d : Z) : Z := d.
Definition as_micros (d : Z) : Z := d / 1000.
Definition as_millis (d : Z) : Z := d / 1000000.
Definition as_secs (d : Z) : Z := d / 1000000000.

Definition saturating_mul (d n : Z) : Z := Z.min (d * n) MAX.
Definition saturating_add (a b : Z) : Z := Z.min (a + b) MAX.
Definition saturating_sub (a b : Z) : Z := Z.max (a - b) 0.
Definition checked_add (a b : Z) : option Z :=
  if a + b <=? MAX then Some (a + b) else None.
Definition checked_mul (d n : Z) : option Z := if d * n <=? MAX then Some (d * n) else None.
(** The operator [+]. *)
Definition add {E} (a b : Z) : outcome E Z := expect (checked_add a b).

Lemma from_micros_valid n : in_u 64 n -> valid (from_micros n).
Proof. unfold in_u, valid, from_micros, MAX. lia. Qed.
Lemma from_millis_valid n : in_u 64 n -> valid (from_millis n).
Proof. unfold in_u, valid, from_millis, MAX. lia. Qed.
Lemma saturating_mul_valid d n : valid d -> 0 <= n -> valid (saturating_mul d n).
Proof. unfold valid, saturating_mul, MAX. nia. Qed.
Lemma saturating_mul_mono d n m :
  0 <= d -> n <= m -> saturating_mul d n <= saturating_mul d m.
Proof. unfold saturating_mul. nia. Qed.
End Duration.
