(* ===== verification/CoreNegotiation.v ===== *)
(** * Version and capability negotiation

    Models [crates/ladoflow-core/src/negotiation.rs]: two hellos and two
    capability advertisements become one agreement, or the reason there is
    none. *)
From S2P Require Export ProtoMessage.
Local Open Scope string_scope.
Local Open Scope list_scope.
Local Open Scope Z_scope.

Module NegotiatedCapabilities.
Record t : Type := mk {
  max_width : Z;
  max_height : Z;
  max_refresh_millihz : Z;
  max_bitrate_kbps : Z;
  codec_bits : Z;
  input_bits : Z;
  feature_bits : Z;
}.
#[global] Instance t_eq_dec : EqDecision t.
Proof. solve_decision. Defined.

(** What negotiation guarantees of the limits. *)
Record wf (c : t) : Prop := {
  wf_width : 0 < max_width c < 2 ^ 16;
  wf_height : 0 < max_height c < 2 ^ 16;
  wf_refresh : 0 < max_refresh_millihz c < 2 ^ 32;
  wf_bitrate : 0 < max_bitrate_kbps c < 2 ^ 32;
  wf_codecs : 0 < codec_bits c < 8;
  wf_input : 0 <= input_bits c < 8;
  wf_features : 0 <= feature_bits c < 8;
}.
End NegotiatedCapabilities.

Module NegotiatedSession.
Record t : Type := mk {
  protocol_version : Z;
  capabilities : NegotiatedCapabilities.t;
}.
#[global] Instance t_eq_dec : EqDecision t.
Proof. solve_decision. Defined.
End NegotiatedSession.

Module NegotiationError.
Inductive t : Type :=
| MatchingRoles
| NoProtocolOverlap
| NoCommonCodec.
#[global] Instance t_eq_dec : EqDecision t.
Proof. solve_decision. Defined.

Definition to_string (e : t) : string :=
  match e with
  | MatchingRoles => "both endpoints advertise the same role"
  | NoProtocolOverlap => "endpoint protocol ranges do not overlap"
  | NoCommonCodec => "endpoints share no video codec"
  end.
End NegotiationError.

Definition negotiate (local_hello : Hello.t) (local_capabilities : Capabilities.t)
  (remote_hello : Hello.t) (remote_capabilities : Capabilities.t)
  : outcome NegotiationError.t NegotiatedSession.t :=
  if bool_decide (Hello.role local_hello = Hello.role remote_hello)
  then Err NegotiationError.MatchingRoles else
  let lowest_shared_version :=
    Z.max (Hello.min_protocol local_hello) (Hello.min_protocol remote_hello) in
  let highest_shared_version :=
    Z.min (Hello.max_protocol local_hello) (Hello.max_protocol remote_hello) in
  if lowest_shared_version >? highest_shared_version
  then Err NegotiationError.NoProtocolOverlap else
  let codec_bits := Z.land (CodecSet.bits (Capabilities.codecs local_capabilities))
    (CodecSet.bits (Capabilities.codecs remote_capabilities)) in
  if codec_bits =? 0 then Err NegotiationError.NoCommonCodec else
  Ok (NegotiatedSession.mk highest_shared_version
    (NegotiatedCapabilities.mk
      (Z.min (Capabilities.max_width local_capabilities)
             (Capabilities.max_width remote_capabilities))
      (Z.min (Capabilities.max_height local_capabilities)
             (Capabilities.max_height remote_capabilities))
      (Z.min (Capabilities.max_refresh_millihz local_capabilities)
             (Capabilities.max_refresh_millihz remote_capabilities))
      (Z.min (Capabilities.max_bitrate_kbps local_capabilities)
             (Capabilities.max_bitrate_kbps remote_capabilities))
      codec_bits
      (Z.land (InputCapabilities.bits (Capabilities.input local_capabilities))
              (InputCapabilities.bits (Capabilities.input remote_capabilities)))
      (Z.land (FeatureFlags.bits (Capabilities.features local_capabilities))
              (FeatureFlags.bits (Capabilities.features remote_capabilities))))).

(** ** The contract

    A hello speaks the versions of its range. An agreement is the best that
    both advertisements allow: the highest version both speak, the greatest
    limits neither exceeds, and the features both have. *)
Definition speaks (h : Hello.t) (v : Z) : Prop :=
  Hello.min_protocol h <= v <= Hello.max_protocol h.

(** [m] is the greatest lower bound of [a] and [b]. *)
Definition glb (a b m : Z) : Prop := forall w, w <= m <-> w <= a /\ w <= b.

(** [m] has exactly the bits that [a] and [b] share. *)
Definition shared_bits (a b m : Z) : Prop :=
  forall i, 0 <= i -> Z.testbit m i = Z.testbit a i && Z.testbit b i.

Record agreement (lh : Hello.t) (lc : Capabilities.t) (rh : Hello.t) (rc : Capabilities.t)
  (s : NegotiatedSession.t) : Prop := {
  agreed_roles : Hello.role lh <> Hello.role rh;
  agreed_version : speaks lh (NegotiatedSession.protocol_version s) /\
    speaks rh (NegotiatedSession.protocol_version s);
  agreed_highest : forall v, speaks lh v -> speaks rh v ->
    v <= NegotiatedSession.protocol_version s;
  agreed_codec : NegotiatedCapabilities.codec_bits (NegotiatedSession.capabilities s) <> 0;
  agreed_limits :
    let c := NegotiatedSession.capabilities s in
    glb (Capabilities.max_width lc) (Capabilities.max_width rc)
      (NegotiatedCapabilities.max_width c) /\
    glb (Capabilities.max_height lc) (Capabilities.max_height rc)
      (NegotiatedCapabilities.max_height c) /\
    glb (Capabilities.max_refresh_millihz lc) (Capabilities.max_refresh_millihz rc)
      (NegotiatedCapabilities.max_refresh_millihz c) /\
    glb (Capabilities.max_bitrate_kbps lc) (Capabilities.max_bitrate_kbps rc)
      (NegotiatedCapabilities.max_bitrate_kbps c);
  agreed_masks :
    let c := NegotiatedSession.capabilities s in
    shared_bits (CodecSet.bits (Capabilities.codecs lc)) (CodecSet.bits (Capabilities.codecs rc))
      (NegotiatedCapabilities.codec_bits c) /\
    shared_bits (InputCapabilities.bits (Capabilities.input lc))
      (InputCapabilities.bits (Capabilities.input rc)) (NegotiatedCapabilities.input_bits c) /\
    shared_bits (FeatureFlags.bits (Capabilities.features lc))
      (FeatureFlags.bits (Capabilities.features rc)) (NegotiatedCapabilities.feature_bits c);
}.

Lemma glb_min a b m : glb a b m <-> m = Z.min a b.
Proof.
  split; [|intros ->; intros w; lia]. intros H.
  pose proof (proj1 (H m) ltac:(lia)). pose proof (proj2 (H (Z.min a b)) ltac:(lia)). lia.
Qed.

Lemma shared_bits_land a b m : shared_bits a b m <-> m = Z.land a b.
Proof.
  unfold shared_bits. split.
  - intros H. apply Z.bits_inj'. intros i Hi. by rewrite Z.land_spec, H.
  - intros -> i Hi. by rewrite Z.land_spec.
Qed.

Lemma shared_version lh rh :
  (exists v, speaks lh v /\ speaks rh v) <->
  Z.max (Hello.min_protocol lh) (Hello.min_protocol rh) <=
  Z.min (Hello.max_protocol lh) (Hello.max_protocol rh).
Proof.
  unfold speaks. split; [intros (v & ? & ?); lia|].
  intros H. exists (Z.max (Hello.min_protocol lh) (Hello.min_protocol rh)). lia.
Qed.

Lemma highest_version lh rh v :
  (speaks lh v /\ speaks rh v) /\ (forall w, speaks lh w -> speaks rh w -> w <= v) <->
  v = Z.min (Hello.max_protocol lh) (Hello.max_protocol rh) /\
  Z.max (Hello.min_protocol lh) (Hello.min_protocol rh) <= v.
Proof.
  unfold speaks. split.
  - intros [[H1 H2] Hv].
    pose proof (Hv (Z.min (Hello.max_protocol lh) (Hello.max_protocol rh))). lia.
  - intros [-> ?]. split; [lia|]. intros. lia.
Qed.

(** The contract determines the agreement field by field. *)
Lemma agreement_iff lh lc rh rc s : agreement lh lc rh rc s <-> negotiate lh lc rh rc = Ok s.
Proof.
  unfold negotiate. rewrite Z.gtb_ltb. split.
  - intros [Hr Hv Hh Hc (Hw & Hht & Hrf & Hb) (Hcm & Him & Hfm)].
    destruct (proj1 (highest_version lh rh (NegotiatedSession.protocol_version s))
      (conj Hv Hh)) as [Hveq Hle].
    apply glb_min in Hw, Hht, Hrf, Hb. apply shared_bits_land in Hcm, Him, Hfm.
    rewrite bool_decide_eq_false_2 by done. rewrite <- Hveq, <- Hcm, <- Him, <- Hfm.
    destruct (Z.ltb_spec (NegotiatedSession.protocol_version s)
      (Z.max (Hello.min_protocol lh) (Hello.min_protocol rh))); [lia|].
    destruct (Z.eqb_spec (NegotiatedCapabilities.codec_bits (NegotiatedSession.capabilities s)) 0);
      [done|]. rewrite <- Hw, <- Hht, <- Hrf, <- Hb. by destruct s as [? []].
  - case_bool_decide as Hr; [done|].
    destruct (Z.ltb_spec (Z.min (Hello.max_protocol lh) (Hello.max_protocol rh))
      (Z.max (Hello.min_protocol lh) (Hello.min_protocol rh))) as [|Hle]; [done|].
    destruct (Z.eqb_spec (Z.land (CodecSet.bits (Capabilities.codecs lc))
      (CodecSet.bits (Capabilities.codecs rc))) 0); [done|].
    intros [= <-].
    destruct (proj2 (highest_version lh rh _) (conj eq_refl Hle)) as [Hv Hh].
    split; simpl; try done; [repeat split; lia|by repeat split; apply shared_bits_land].
Qed.

Lemma negotiate_wf lh lc rh rc s :
  Capabilities.wf lc -> Capabilities.wf rc -> negotiate lh lc rh rc = Ok s ->
  NegotiatedCapabilities.wf (NegotiatedSession.capabilities s).
Proof.
  intros [Hw Hh Hr Hb [Hc _] Hi Hf] [Hw' Hh' Hr' Hb' [Hc' _] Hi' Hf'] Hn.
  apply agreement_iff in Hn as [_ _ _ Hc0 (Hwm & Hhm & Hrm & Hbm) (Hcm & Him & Hfm)].
  apply glb_min in Hwm, Hhm, Hrm, Hbm. apply shared_bits_land in Hcm, Him, Hfm.
  unfold CodecSet.wf, InputCapabilities.wf, FeatureFlags.wf in *.
  split; [lia..| | |].
  - pose proof (land_below 3 _ _ ltac:(lia) Hc (proj1 Hc')). rewrite <- Hcm in *. lia.
  - rewrite Him. apply (land_below 3); lia.
  - rewrite Hfm. apply (land_below 3); lia.
Qed.

(** ** Properties of negotiation *)

(** C38: negotiation succeeds exactly with the best agreement both
    advertisements allow, and otherwise names the first reason there is none:
    equal roles, no version both speak, no codec both have. It never panics. *)
Theorem negotiate_meets_contract lh lc rh rc :
  (forall s, negotiate lh lc rh rc = Ok s <-> agreement lh lc rh rc s) /\
  (negotiate lh lc rh rc = Err NegotiationError.MatchingRoles <->
     Hello.role lh = Hello.role rh) /\
  (negotiate lh lc rh rc = Err NegotiationError.NoProtocolOverlap <->
     Hello.role lh <> Hello.role rh /\ ~ (exists v, speaks lh v /\ speaks rh v)) /\
  (negotiate lh lc rh rc = Err NegotiationError.NoCommonCodec <->
     Hello.role lh <> Hello.role rh /\ (exists v, speaks lh v /\ speaks rh v) /\
     Z.land (CodecSet.bits (Capabilities.codecs lc)) (CodecSet.bits (Capabilities.codecs rc)) = 0) /\
  returns (negotiate lh lc rh rc).
Proof.
  split; [intros s; symmetry; apply agreement_iff|].
  rewrite shared_version. unfold negotiate. rewrite Z.gtb_ltb.
  case_bool_decide as Hr; [naive_solver|].
  destruct (Z.ltb_spec (Z.min (Hello.max_protocol lh) (Hello.max_protocol rh))
    (Z.max (Hello.min_protocol lh) (Hello.min_protocol rh))); [naive_solver lia|].
  destruct (Z.eqb_spec (Z.land (CodecSet.bits (Capabilities.codecs lc))
    (CodecSet.bits (Capabilities.codecs rc))) 0); naive_solver lia.
Qed.

(** Both endpoints reach the same verdict: negotiation is symmetric in the
    two advertisements, so the host and the display never hold different
    agreements. *)
Theorem negotiate_symmetric lh lc rh rc :
  negotiate lh lc rh rc = negotiate rh rc lh lc.
Proof.
  unfold negotiate.
  rewrite (Z.max_comm (Hello.min_protocol lh)), (Z.min_comm (Hello.max_protocol lh)).
  rewrite (Z.land_comm (CodecSet.bits (Capabilities.codecs lc))).
  rewrite (Z.land_comm (InputCapabilities.bits (Capabilities.input lc))).
  rewrite (Z.land_comm (FeatureFlags.bits (Capabilities.features lc))).
  rewrite (Z.min_comm (Capabilities.max_width lc)), (Z.min_comm (Capabilities.max_height lc)),
    (Z.min_comm (Capabilities.max_refresh_millihz lc)),
    (Z.min_comm (Capabilities.max_bitrate_kbps lc)).
  by case_bool_decide; case_bool_decide.
Qed.
