(* ===== verification/CoreSession.v ===== *)
(** * The session state machine

    Models [crates/ladoflow-core/src/session.rs]: the lifecycle of one logical
    display session, its receive cursor and its bounded reconnects. Every
    method is a function from the state to the new state and its result; the
    relation [step] and the function [run] compose them into executions. *)
From stdpp Require Import relations sorting.
From S2P Require Export RustTime CoreNegotiation.
Local Open Scope string_scope.
Local Open Scope list_scope.
Local Open Scope Z_scope.

Module SessionPhase.
Inductive t : Type :=
| Idle
| Negotiating
| Active
| WaitingToReconnect
| ReconnectScheduled
| Closed.
#[global] Instance t_eq_dec : EqDecision t.
Proof. solve_decision. Defined.

(** The derived [Debug]. *)
Definition debug (p : t) : string :=
  match p with
  | Idle => "Idle"
  | Negotiating => "Negotiating"
  | Active => "Active"
  | WaitingToReconnect => "WaitingToReconnect"
  | ReconnectScheduled => "ReconnectScheduled"
  | Closed => "Closed"
  end.
End SessionPhase.

Module StreamContinuity.
Inductive t : Type :=
| Restart
| Resume.
#[global] Instance t_eq_dec : EqDecision t.
Proof. solve_decision. Defined.
End StreamContinuity.

Module SequenceDisposition.
Inductive t : Type :=
| Accepted (skipped : Z)
| Duplicate
| Stale (highest_accepted : Z).
#[global] Instance t_eq_dec : EqDecision t.
Proof. solve_decision. Defined.
End SequenceDisposition.

Module ReconnectPolicyError.
Inductive t : Type :=
| InitialDelayExceedsMaximum.
Definition to_string (e : t) : string :=
  match e with
  | InitialDelayExceedsMaximum => "initial reconnect delay exceeds maximum delay"
  end.
End ReconnectPolicyError.

Module ReconnectPolicy.
Record t : Type := mk {
  max_attempts : Z;
  initial_delay : Z;
  max_delay : Z;
}.

Definition new (max_attempts initial_delay max_delay : Z) : outcome ReconnectPolicyError.t t :=
  if initial_delay >? max_delay then Err ReconnectPolicyError.InitialDelayExceedsMaximum
  else Ok (mk max_attempts initial_delay max_delay).

Definition delay_for_attempt (self : t) (attempt : Z) : option Z :=
  if (attempt =? 0) || (attempt >? max_attempts self) then None else
  let shift := attempt - 1 in
  let multiplier := default (u_max 32) (checked_shl 32 1 shift) in
  Some (Z.min (Duration.saturating_mul (initial_delay self) multiplier) (max_delay self)).

Definition default_policy : t := mk 5 (Duration.from_millis 250) (Duration.from_secs 8).

Record wf (p : t) : Prop := {
  wf_attempts : in_u 32 (max_attempts p);
  wf_initial : Duration.valid (initial_delay p);
  wf_max : Duration.valid (max_delay p);
  wf_order : initial_delay p <= max_delay p;
}.
End ReconnectPolicy.

Module ReconnectDecision.
Inductive t : Type :=
| RetryAfter (attempt : Z) (delay : Z) (resume_after : option Z)
| GiveUp.
End ReconnectDecision.

Module SessionError.
Inductive t : Type :=
| InvalidTransition (phase : SessionPhase.t) (operation : string)
| CannotResumeInitialConnection
| AgreementChangedDuringResume
| ConnectionGenerationExhausted.

Definition to_string (e : t) : string :=
  match e with
  | InvalidTransition phase operation =>
      "cannot " +:+ operation +:+ " while session is " +:+ SessionPhase.debug phase
  | CannotResumeInitialConnection => "initial connection cannot resume a prior stream"
  | AgreementChangedDuringResume => "resumed stream changed its negotiated agreement"
  | ConnectionGenerationExhausted => "connection generation counter is exhausted"
  end.
End SessionError.

Abbreviation sresult := (outcome SessionError.t).

Module Session.
Record t : Type := mk {
  phase : SessionPhase.t;
  agreement : option NegotiatedSession.t;
  connection_generation : Z;
  reconnect_attempts : Z;
  highest_sequence : option Z;
}.

Definition new : t := mk SessionPhase.Idle None 0 0 None.

Definition set_phase (self : t) (phase : SessionPhase.t) : t :=
  mk phase (agreement self) (connection_generation self) (reconnect_attempts self)
    (highest_sequence self).
Definition set_highest (self : t) (highest : option Z) : t :=
  mk (phase self) (agreement self) (connection_generation self) (reconnect_attempts self) highest.

Definition invalid_transition (self : t) (operation : string) : SessionError.t :=
  SessionError.InvalidTransition (phase self) operation.

Definition require_phase (self : t) (expected : SessionPhase.t) (operation : string)
  : sresult unit :=
  if bool_decide (phase self = expected) then Ok tt
  else Err (invalid_transition self operation).

Definition start (self : t) : t * sresult unit :=
  let? _ := require_phase self SessionPhase.Idle "start" keeping self in
  (set_phase self SessionPhase.Negotiating, Ok tt).

Definition establish (self : t) (agreed : NegotiatedSession.t)
  (continuity : StreamContinuity.t) : t * sresult unit :=
  let? _ := require_phase self SessionPhase.Negotiating "establish" keeping self in
  let? next_generation := ok_or (checked 64 (connection_generation self + 1))
    SessionError.ConnectionGenerationExhausted keeping self in
  let finish (self : t) :=
    (mk SessionPhase.Active (Some agreed) next_generation 0 (highest_sequence self), Ok tt) in
  match continuity with
  | StreamContinuity.Restart => finish (set_highest self None)
  | StreamContinuity.Resume =>
      if connection_generation self =? 0
      then (self, Err SessionError.CannotResumeInitialConnection)
      else if bool_decide (agreement self <> Some agreed)
      then (self, Err SessionError.AgreementChangedDuringResume)
      else finish self
  end.

Definition observe_sequence (self : t) (sequence : Z)
  : t * sresult SequenceDisposition.t :=
  let? _ := require_phase self SessionPhase.Active "observe sequence" keeping self in
  match highest_sequence self with
  | None => (set_highest self (Some sequence), Ok (SequenceDisposition.Accepted 0))
  | Some highest =>
      if sequence >? highest then
        let self' := set_highest self (Some sequence) in
        let? gap := chk 64 (sequence - highest) keeping self' in
        let? skipped := chk 64 (gap - 1) keeping self' in
        (self', Ok (SequenceDisposition.Accepted skipped))
      else if sequence =? highest then (self, Ok SequenceDisposition.Duplicate)
      else (self, Ok (SequenceDisposition.Stale highest))
  end.

Definition transport_lost (self : t) : t * sresult unit :=
  match phase self with
  | SessionPhase.Active | SessionPhase.Negotiating =>
      (set_phase self SessionPhase.WaitingToReconnect, Ok tt)
  | _ => (self, Err (invalid_transition self "record transport loss"))
  end.

Definition schedule_reconnect (self : t) (policy : ReconnectPolicy.t)
  : t * sresult ReconnectDecision.t :=
  let? _ := require_phase self SessionPhase.WaitingToReconnect "schedule reconnect" keeping self in
  let giving_up := (set_phase self SessionPhase.Closed, Ok ReconnectDecision.GiveUp) in
  match checked 32 (reconnect_attempts self + 1) with
  | None => giving_up
  | Some attempt =>
    match ReconnectPolicy.delay_for_attempt policy attempt with
    | None => giving_up
    | Some delay =>
        (mk SessionPhase.ReconnectScheduled (agreement self) (connection_generation self) attempt
           (highest_sequence self),
         Ok (ReconnectDecision.RetryAfter attempt delay (highest_sequence self)))
    end
  end.

Definition begin_reconnect (self : t) : t * sresult unit :=
  let? _ := require_phase self SessionPhase.ReconnectScheduled "begin reconnect" keeping self in
  (set_phase self SessionPhase.Negotiating, Ok tt).

Definition close (self : t) : t := set_phase self SessionPhase.Closed.
End Session.

(** ** Executions *)

(** The public operations, with their arguments. *)
Module Op.
Inductive t : Type :=
| Start
| Establish (agreed : NegotiatedSession.t) (continuity : StreamContinuity.t)
| Observe (sequence : Z)
| Lost
| Schedule (policy : ReconnectPolicy.t)
| Begin
| Close.

(** The widths of the arguments. *)
Definition typed (o : t) : Prop :=
  match o with
  | Observe s => in_u 64 s
  | Schedule p => ReconnectPolicy.wf p
  | _ => True
  end.
End Op.

(** What an operation answers. *)
Module Answer.
Inductive t : Type :=
| Done
| Sequence (d : SequenceDisposition.t)
| Decision (d : ReconnectDecision.t).
End Answer.

Definition answer {A} (g : A -> Answer.t) (r : Session.t * sresult A) : Session.t * sresult Answer.t :=
  (fst r, let! a := snd r in Ok (g a)).

Definition apply (o : Op.t) (s : Session.t) : Session.t * sresult Answer.t :=
  match o with
  | Op.Start => answer (fun _ => Answer.Done) (Session.start s)
  | Op.Establish a c => answer (fun _ => Answer.Done) (Session.establish s a c)
  | Op.Observe n => answer Answer.Sequence (Session.observe_sequence s n)
  | Op.Lost => answer (fun _ => Answer.Done) (Session.transport_lost s)
  | Op.Schedule p => answer Answer.Decision (Session.schedule_reconnect s p)
  | Op.Begin => answer (fun _ => Answer.Done) (Session.begin_reconnect s)
  | Op.Close => (Session.close s, Ok Answer.Done)
  end.

(** One step of the machine: any operation, in any state. *)
Inductive step : Session.t -> Session.t -> Prop :=
| step_apply s o : Op.typed o -> step s (fst (apply o s)).

Definition reachable : Session.t -> Prop := rtc step Session.new.

(** A sequence of operations and their answers. *)
Fixpoint run (os : list Op.t) (s : Session.t) : Session.t * list (sresult Answer.t) :=
  match os with
  | [] => (s, [])
  | o :: os =>
    let (s, r) := apply o s in
    let (s, rs) := run os s in
    (s, r :: rs)
  end.

(** ** The invariant *)
Record session_inv (s : Session.t) : Prop := {
  inv_generation : in_u 64 (Session.connection_generation s);
  inv_attempts : in_u 32 (Session.reconnect_attempts s);
  inv_agreement : Session.connection_generation s = 0 <-> Session.agreement s = None;
  inv_active : Session.phase s = SessionPhase.Active ->
    is_Some (Session.agreement s) /\ Session.reconnect_attempts s = 0;
  inv_idle : Session.phase s = SessionPhase.Idle -> s = Session.new;
  inv_scheduled : Session.phase s = SessionPhase.ReconnectScheduled ->
    0 < Session.reconnect_attempts s;
  inv_cursor : forall n, Session.highest_sequence s = Some n ->
    in_u 64 n /\ is_Some (Session.agreement s);
}.

Lemma session_inv_new : session_inv Session.new.
Proof. split; simpl; try done; unfold in_u; lia. Qed.

(** The skip count of an accepted sequence is computed without overflow. *)
Lemma observe_accepts s h n :
  Session.phase s = SessionPhase.Active -> Session.highest_sequence s = Some h ->
  in_u 64 h -> in_u 64 n -> h < n ->
  Session.observe_sequence s n =
    (Session.set_highest s (Some n), Ok (SequenceDisposition.Accepted (n - h - 1))).
Proof.
  unfold in_u. intros Hp Hh Hhr Hn Hlt. unfold Session.observe_sequence, Session.require_phase.
  rewrite bool_decide_eq_true_2, Hh, Z.gtb_ltb by done. cbn [otry].
  apply Z.ltb_lt in Hlt as Hb. rewrite Hb.
  rewrite chk_ok by (unfold in_u; lia). cbn [otry]. by rewrite chk_ok by (unfold in_u; lia).
Qed.

Lemma set_phase_inv s p :
  session_inv s ->
  (p = SessionPhase.Active -> is_Some (Session.agreement s) /\ Session.reconnect_attempts s = 0) ->
  p <> SessionPhase.Idle -> (p = SessionPhase.ReconnectScheduled -> 0 < Session.reconnect_attempts s) ->
  session_inv (Session.set_phase s p).
Proof. intros [Hg Ha Hag Hac Hi Hs Hc] H1 H2 H3. by split. Qed.

Lemma establish_spec s a c :
  let (s', r) := Session.establish s a c in
  (s' = s /\ exists e, r = Err e) \/
  (r = Ok tt /\ Session.phase s = SessionPhase.Negotiating /\
   in_u 64 (Session.connection_generation s + 1) /\
   (c = StreamContinuity.Resume ->
      Session.connection_generation s <> 0 /\ Session.agreement s = Some a) /\
   s' = Session.mk SessionPhase.Active (Some a) (Session.connection_generation s + 1) 0
     (match c with
      | StreamContinuity.Restart => None
      | StreamContinuity.Resume => Session.highest_sequence s
      end)).
Proof.
  unfold Session.establish, Session.require_phase.
  case_bool_decide as Hp; cbn [otry]; [|eauto].
  destruct (checked 64 _) as [g|] eqn:Hg; cbn [otry ok_or]; [|eauto].
  apply checked_Some in Hg as [-> Hg]. destruct c; [by right|].
  destruct (Z.eqb_spec (Session.connection_generation s) 0); [eauto|].
  case_bool_decide as Ha; [eauto|]. right. by rewrite Ha.
Qed.

Lemma observe_spec s n :
  session_inv s -> in_u 64 n ->
  let (s', r) := Session.observe_sequence s n in
  (s' = s /\ ((exists e, r = Err e) \/ (Session.phase s = SessionPhase.Active /\
     exists h, Session.highest_sequence s = Some h /\ n <= h /\
       r = Ok (if n =? h then SequenceDisposition.Duplicate else SequenceDisposition.Stale h)))) \/
  (Session.phase s = SessionPhase.Active /\ s' = Session.set_highest s (Some n) /\
   exists k, r = Ok (SequenceDisposition.Accepted k) /\
     match Session.highest_sequence s with
     | None => k = 0
     | Some h => h < n /\ k = n - h - 1
     end).
Proof.
  intros Hinv Hn. destruct (decide (Session.phase s = SessionPhase.Active)) as [Hp|Hp].
  2:{ unfold Session.observe_sequence, Session.require_phase.
      rewrite bool_decide_eq_false_2 by done. cbn [otry]. eauto. }
  destruct (Session.highest_sequence s) as [h|] eqn:Hh.
  - destruct (Z.ltb_spec h n).
    + rewrite (observe_accepts s h n) by (try done; by apply (inv_cursor s Hinv h)).
      right. do 2 (split; [done|]). eexists. split; [done|]. lia.
    + unfold Session.observe_sequence, Session.require_phase.
      rewrite bool_decide_eq_true_2, Hh, Z.gtb_ltb by done. cbn [otry].
      destruct (Z.ltb_spec h n); [lia|].
      destruct (n =? h) eqn:He; left; (split; [done|]); right; (split; [done|]); exists h;
        by rewrite ?He.
  - unfold Session.observe_sequence, Session.require_phase.
    rewrite bool_decide_eq_true_2, Hh by done. cbn [otry]. right.
    do 2 (split; [done|]). by exists 0.
Qed.

Lemma delay_positive_attempt p a d :
  ReconnectPolicy.delay_for_attempt p a = Some d -> a <> 0 /\ a <= ReconnectPolicy.max_attempts p.
Proof.
  unfold ReconnectPolicy.delay_for_attempt. rewrite Z.gtb_ltb.
  destruct (Z.eqb_spec a 0), (Z.ltb_spec (ReconnectPolicy.max_attempts p) a); done.
Qed.

Lemma schedule_spec s p :
  let (s', r) := Session.schedule_reconnect s p in
  (s' = s /\ exists e, r = Err e) \/
  (Session.phase s = SessionPhase.WaitingToReconnect /\
   s' = Session.set_phase s SessionPhase.Closed /\ r = Ok ReconnectDecision.GiveUp) \/
  (Session.phase s = SessionPhase.WaitingToReconnect /\
   in_u 32 (Session.reconnect_attempts s + 1) /\
   Session.reconnect_attempts s + 1 <= ReconnectPolicy.max_attempts p /\
   s' = Session.mk SessionPhase.ReconnectScheduled (Session.agreement s)
          (Session.connection_generation s) (Session.reconnect_attempts s + 1)
          (Session.highest_sequence s) /\
   exists d, ReconnectPolicy.delay_for_attempt p (Session.reconnect_attempts s + 1) = Some d /\
     r = Ok (ReconnectDecision.RetryAfter (Session.reconnect_attempts s + 1) d
               (Session.highest_sequence s))).
Proof.
  unfold Session.schedule_reconnect, Session.require_phase.
  case_bool_decide as Hp; cbn [otry]; [|eauto].
  destruct (checked 32 _) as [a|] eqn:Ha; [|right; left; eauto].
  apply checked_Some in Ha as [-> Ha].
  destruct (ReconnectPolicy.delay_for_attempt p _) as [d|] eqn:Hd; [|right; left; eauto].
  pose proof (delay_positive_attempt _ _ _ Hd) as [_ Hmax]. right. right.
  do 4 (split; [done|]). by exists d.
Qed.

(** The phase-only operations. *)
Lemma start_spec s :
  Session.start s = (s, Err (Session.invalid_transition s "start")) \/
  (Session.phase s = SessionPhase.Idle /\
   Session.start s = (Session.set_phase s SessionPhase.Negotiating, Ok tt)).
Proof. unfold Session.start, Session.require_phase. case_bool_decide; [by right|by left]. Qed.

Lemma begin_spec s :
  Session.begin_reconnect s = (s, Err (Session.invalid_transition s "begin reconnect")) \/
  (Session.phase s = SessionPhase.ReconnectScheduled /\
   Session.begin_reconnect s = (Session.set_phase s SessionPhase.Negotiating, Ok tt)).
Proof.
  unfold Session.begin_reconnect, Session.require_phase. case_bool_decide; [by right|by left].
Qed.

Lemma lost_spec s :
  Session.transport_lost s = (s, Err (Session.invalid_transition s "record transport loss")) \/
  ((Session.phase s = SessionPhase.Active \/ Session.phase s = SessionPhase.Negotiating) /\
   Session.transport_lost s = (Session.set_phase s SessionPhase.WaitingToReconnect, Ok tt)).
Proof. unfold Session.transport_lost. destruct (Session.phase s); auto. Qed.

Lemma apply_inv o s : Op.typed o -> session_inv s -> session_inv (fst (apply o s)).
Proof.
  intros Ho Hinv. destruct o as [|a c|n| |p| |]; simpl in *; unfold answer; cbn [fst].
  - destruct (start_spec s) as [->|[_ ->]]; [done|]. by apply set_phase_inv.
  - pose proof (establish_spec s a c) as H. destruct (Session.establish s a c) as [s' r].
    destruct H as [[-> _]|(_ & Hp & Hu & Hc & ->)]; [done|].
    destruct Hinv as [Hg Ha Hag Hac Hi Hs Hcur].
    split; simpl; try done; [unfold in_u in *; split; [lia|done]|].
    intros m Hm. destruct c; [done|]. destruct (Hcur m Hm). split; [done|by eexists].
  - pose proof (observe_spec s n Hinv Ho) as H. destruct (Session.observe_sequence s n) as [s' r].
    destruct H as [[-> _]|(Hp & -> & _)]; [done|].
    destruct Hinv as [Hg Ha Hag Hac Hi Hs Hcur]. destruct (Hac Hp).
    split; simpl; try done; [by rewrite Hp|]. by intros m [= <-].
  - destruct (lost_spec s) as [->|[_ ->]]; [done|]. by apply set_phase_inv.
  - pose proof (schedule_spec s p) as H. destruct (Session.schedule_reconnect s p) as [s' r].
    destruct H as [[-> _]|[(_ & -> & _)|(Hp & Hu & _ & -> & _)]]; [done|by apply set_phase_inv|].
    destruct Hinv as [Hg Ha Hag Hac Hi Hs Hcur]. split; simpl; try done.
    unfold in_u in Ha. lia.
  - destruct (begin_spec s) as [->|[_ ->]]; [done|]. by apply set_phase_inv.
  - by apply set_phase_inv.
Qed.

Lemma returns_apply o s : Op.typed o -> session_inv s -> returns (snd (apply o s)).
Proof.
  intros Ho Hinv. destruct o as [|a c|n| |p| |]; simpl in *; unfold answer; cbn [snd].
  - by destruct (start_spec s) as [->|[_ ->]].
  - pose proof (establish_spec s a c) as H. destruct (Session.establish s a c) as [s' r].
    by destruct H as [(_ & e & ->)|(-> & _)].
  - pose proof (observe_spec s n Hinv Ho) as H. destruct (Session.observe_sequence s n) as [s' r].
    by destruct H as [[_ [[e ->]|(_ & h & _ & _ & ->)]]|(_ & _ & k & -> & _)].
  - by destruct (lost_spec s) as [->|[_ ->]].
  - pose proof (schedule_spec s p) as H. destruct (Session.schedule_reconnect s p) as [s' r].
    by destruct H as [(_ & e & ->)|[(_ & _ & ->)|(_ & _ & _ & _ & d & _ & ->)]].
  - by destruct (begin_spec s) as [->|[_ ->]].
  - done.
Qed.

Lemma reachable_inv s : reachable s -> session_inv s.
Proof.
  intros H. unfold reachable in H. revert H.
  apply (rtc_ind_r session_inv); [apply session_inv_new|].
  intros x y _ [s' o Ho] Hx. by apply apply_inv.
Qed.

(** ** Rejections and the transition table *)

Lemma apply_rejected o s e :
  snd (apply o s) = Err e -> session_inv s -> Op.typed o -> fst (apply o s) = s.
Proof.
  intros He Hinv Ho. destruct o as [|a c|n| |p| |]; simpl in *; unfold answer in *; cbn [fst snd] in *.
  - by destruct (start_spec s) as [H|[_ H]]; rewrite H in *.
  - pose proof (establish_spec s a c) as H. destruct (Session.establish s a c) as [s' r].
    cbn [fst snd obind] in *.
    by destruct H as [[-> _]|(-> & _)].
  - pose proof (observe_spec s n Hinv Ho) as H. destruct (Session.observe_sequence s n) as [s' r].
    cbn [fst snd obind] in *.
    by destruct H as [[-> _]|(_ & _ & k & -> & _)].
  - by destruct (lost_spec s) as [H|[_ H]]; rewrite H in *.
  - pose proof (schedule_spec s p) as H. destruct (Session.schedule_reconnect s p) as [s' r].
    cbn [fst snd obind] in *.
    by destruct H as [[-> _]|[(_ & _ & ->)|(_ & _ & _ & _ & d & _ & ->)]].
  - by destruct (begin_spec s) as [H|[_ H]]; rewrite H in *.
  - done.
Qed.

(** The phases in which an operation is legal. *)
Definition legal_phase (o : Op.t) (p : SessionPhase.t) : bool :=
  match o, p with
  | Op.Start, SessionPhase.Idle => true
  | Op.Establish _ _, SessionPhase.Negotiating => true
  | Op.Observe _, SessionPhase.Active => true
  | Op.Lost, (SessionPhase.Active | SessionPhase.Negotiating) => true
  | Op.Schedule _, SessionPhase.WaitingToReconnect => true
  | Op.Begin, SessionPhase.ReconnectScheduled => true
  | Op.Close, _ => true
  | _, _ => false
  end.

(** The phase after a successful operation: the edges of the machine. *)
Definition edge (o : Op.t) (r : Answer.t) (p q : SessionPhase.t) : Prop :=
  legal_phase o p = true /\
  match o, r with
  | Op.Start, _ | Op.Begin, _ => q = SessionPhase.Negotiating
  | Op.Establish _ _, _ => q = SessionPhase.Active
  | Op.Observe _, _ => q = p
  | Op.Lost, _ => q = SessionPhase.WaitingToReconnect
  | Op.Schedule _, Answer.Decision ReconnectDecision.GiveUp => q = SessionPhase.Closed
  | Op.Schedule _, _ => q = SessionPhase.ReconnectScheduled
  | Op.Close, _ => q = SessionPhase.Closed
  end.

Lemma apply_edge o s r :
  session_inv s -> Op.typed o -> snd (apply o s) = Ok r ->
  edge o r (Session.phase s) (Session.phase (fst (apply o s))).
Proof.
  intros Hinv Ho Hr. unfold edge.
  destruct o as [|a c|n| |p| |]; simpl in *; unfold answer in *; cbn [fst snd] in *.
  - by destruct (start_spec s) as [H|[Hp H]]; rewrite H in *; [|rewrite Hp].
  - pose proof (establish_spec s a c) as H. destruct (Session.establish s a c) as [s' r'].
    cbn [fst snd obind] in *.
    by destruct H as [(_ & e & ->)|(-> & -> & _ & _ & ->)].
  - pose proof (observe_spec s n Hinv Ho) as H. destruct (Session.observe_sequence s n) as [s' r'].
    cbn [fst snd obind] in *.
    by destruct H as [[-> [[e ->]|(-> & _)]]|(Hp & -> & _)]; [| |simpl; rewrite Hp].
  - by destruct (lost_spec s) as [H|[[Hp|Hp] H]]; rewrite H in *; [|rewrite Hp..].
  - pose proof (schedule_spec s p) as H. destruct (Session.schedule_reconnect s p) as [s' r'].
    cbn [fst snd obind] in *.
    destruct H as [(_ & e & ->)|[(-> & -> & ->)|(-> & _ & _ & -> & d & _ & ->)]]; [done|..];
      by injection Hr as <-.
  - by destruct (begin_spec s) as [H|[Hp H]]; rewrite H in *; [|rewrite Hp].
  - by destruct (Session.phase s).
Qed.

Lemma run_app os1 os2 s :
  run (os1 ++ os2) s =
    (let (s1, r1) := run os1 s in let (s2, r2) := run os2 s1 in (s2, r1 ++ r2)).
Proof.
  revert s. induction os1 as [|o os IH]; intros s; simpl; [by destruct (run os2 s)|].
  destruct (apply o s) as [s1 r]. rewrite IH.
  destruct (run os s1) as [s2 rs]. by destruct (run os2 s2).
Qed.

Lemma run_inv os s : Forall Op.typed os -> session_inv s -> session_inv (fst (run os s)).
Proof.
  intros Hos. revert s. induction Hos as [|o os Ho _ IH]; intros s Hs; [done|]. simpl.
  pose proof (apply_inv o s Ho Hs). destruct (apply o s) as [s1 r]. simpl in *.
  specialize (IH s1 H). by destruct (run os s1).
Qed.

(** Every execution visits reachable states only. *)
Lemma run_reachable os s : Forall Op.typed os -> rtc step s (fst (run os s)).
Proof.
  intros Hos. revert s. induction Hos as [|o os Ho _ IH]; intros s; [constructor|]. simpl.
  pose proof (step_apply s o Ho) as Hst. destruct (apply o s) as [s1 r]. simpl in *.
  specialize (IH s1). destruct (run os s1). by eapply rtc_l.
Qed.

(** ** Retries *)
Definition is_retry (r : sresult Answer.t) : bool :=
  match r with
  | Ok (Answer.Decision (ReconnectDecision.RetryAfter _ _ _)) => true
  | _ => false
  end.

Definition retries (rs : list (sresult Answer.t)) : Z := zlen (filter (fun r => is_retry r = true) rs).

(** No [Establish] in between, and one policy throughout. *)
Definition outage_op (p : ReconnectPolicy.t) (o : Op.t) : Prop :=
  match o with
  | Op.Establish _ _ => False
  | Op.Schedule q => q = p
  | _ => True
  end.

Lemma retries_cons r rs : retries (r :: rs) = (if is_retry r then 1 else 0) + retries rs.
Proof.
  unfold retries. rewrite filter_cons. destruct (is_retry r); case_decide; try done; simpl; lia.
Qed.

(** A step of an outage grants at most one retry, and counts it. *)
Lemma outage_step p o s :
  session_inv s -> Op.typed o -> outage_op p o ->
  Session.reconnect_attempts (fst (apply o s)) =
    Session.reconnect_attempts s + (if is_retry (snd (apply o s)) then 1 else 0) /\
  (is_retry (snd (apply o s)) = true ->
     Session.reconnect_attempts s + 1 <= ReconnectPolicy.max_attempts p).
Proof.
  intros Hinv Ho Hp. destruct o as [|a c|n| |q| |]; simpl in *; unfold answer; cbn [fst snd].
  - destruct (start_spec s) as [->|[_ ->]]; simpl; (split; [lia|done]).
  - done.
  - pose proof (observe_spec s n Hinv Ho) as H. destruct (Session.observe_sequence s n) as [s' r'].
    destruct H as [[-> [[e ->]|(_ & h & _ & _ & ->)]]|(_ & -> & k & -> & _)]; simpl;
      (split; [lia|done]).
  - destruct (lost_spec s) as [->|[_ ->]]; simpl; (split; [lia|done]).
  - subst q. pose proof (schedule_spec s p) as H. destruct (Session.schedule_reconnect s p) as [s' r'].
    destruct H as [(-> & e & ->)|[(_ & -> & ->)|(_ & _ & Hm & -> & d & _ & ->)]]; simpl;
      (split; [lia|done]).
  - destruct (begin_spec s) as [->|[_ ->]]; simpl; (split; [lia|done]).
  - simpl. split; [lia|done].
Qed.

Lemma outage_run p os s :
  session_inv s -> Forall Op.typed os -> Forall (outage_op p) os ->
  Session.reconnect_attempts (fst (run os s)) =
    Session.reconnect_attempts s + retries (snd (run os s)) /\
  (0 < retries (snd (run os s)) ->
     Session.reconnect_attempts s + retries (snd (run os s)) <= ReconnectPolicy.max_attempts p).
Proof.
  revert s. induction os as [|o os IH]; intros s Hinv Ht Ho; simpl.
  { unfold retries. simpl. lia. }
  apply Forall_cons in Ht as [Ht1 Ht], Ho as [Ho1 Ho].
  pose proof (outage_step p o s Hinv Ht1 Ho1) as [Heq Hle].
  pose proof (apply_inv o s Ht1 Hinv) as Hinv1.
  destruct (apply o s) as [s1 r]. cbn [fst snd] in *.
  destruct (IH s1 Hinv1 Ht Ho) as [IH1 IH2].
  destruct (run os s1) as [s2 rs]. cbn [fst snd] in *. rewrite retries_cons.
  assert (0 <= retries rs) by (unfold retries; lia).
  destruct (is_retry r); [specialize (Hle eq_refl)|]; lia.
Qed.

(** ** The receive cursor *)
Definition restarts (o : Op.t) : bool :=
  match o with
  | Op.Establish _ StreamContinuity.Restart => true
  | _ => false
  end.

(** The sequences an execution accepted, in order. *)
Fixpoint accepted (os : list Op.t) (rs : list (sresult Answer.t)) : list Z :=
  match os, rs with
  | Op.Observe n :: os, Ok (Answer.Sequence (SequenceDisposition.Accepted _)) :: rs =>
      n :: accepted os rs
  | _ :: os, _ :: rs => accepted os rs
  | _, _ => []
  end.

(** The sequences reported missing before each accepted one. *)
Fixpoint skipped (rs : list (sresult Answer.t)) : Z :=
  match rs with
  | Ok (Answer.Sequence (SequenceDisposition.Accepted k)) :: rs => k + skipped rs
  | _ :: rs => skipped rs
  | [] => 0
  end.

(** A step that does not restart the stream either accepts a sequence above
    the cursor and moves it there, or leaves the cursor alone. *)
Lemma cursor_step o s h :
  session_inv s -> Op.typed o -> restarts o = false -> Session.highest_sequence s = Some h ->
  (exists n, o = Op.Observe n /\ h < n /\ snd (apply o s) =
     Ok (Answer.Sequence (SequenceDisposition.Accepted (n - h - 1))) /\
     Session.highest_sequence (fst (apply o s)) = Some n) \/
  (Session.highest_sequence (fst (apply o s)) = Some h /\
   forall k, snd (apply o s) <> Ok (Answer.Sequence (SequenceDisposition.Accepted k))).
Proof.
  intros Hinv Ho Hr Hh. destruct o as [|a c|n| |p| |]; simpl in *; unfold answer; cbn [fst snd].
  - destruct (start_spec s) as [->|[_ ->]]; by right.
  - pose proof (establish_spec s a c) as H. destruct (Session.establish s a c) as [s' r'].
    destruct c; [done|]. by destruct H as [(-> & e & ->)|(-> & _ & _ & _ & ->)]; right.
  - pose proof (observe_spec s n Hinv Ho) as H. destruct (Session.observe_sequence s n) as [s' r'].
    rewrite Hh in H.
    destruct H as [[-> [[e ->]|(_ & h' & _ & _ & ->)]]|(_ & -> & k & -> & Hlt & ->)].
    + by right.
    + right. split; [done|]. intros k. simpl. by case_match.
    + left. by exists n.
  - destruct (lost_spec s) as [->|[_ ->]]; by right.
  - pose proof (schedule_spec s p) as H. destruct (Session.schedule_reconnect s p) as [s' r'].
    by destruct H as [(-> & e & ->)|[(_ & -> & ->)|(_ & _ & _ & -> & d & _ & ->)]]; right.
  - destruct (begin_spec s) as [->|[_ ->]]; by right.
  - by right.
Qed.

Lemma skipped_cons_other r rs :
  (forall k, r <> Ok (Answer.Sequence (SequenceDisposition.Accepted k))) ->
  skipped (r :: rs) = skipped rs.
Proof. intros H. simpl. repeat case_match; try done. subst. by destruct (H skipped0). Qed.

Lemma accepted_cons_other o os r rs :
  (forall k, r <> Ok (Answer.Sequence (SequenceDisposition.Accepted k))) ->
  accepted (o :: os) (r :: rs) = accepted os rs.
Proof. intros H. simpl. repeat case_match; try done. subst. by destruct (H skipped0). Qed.

(** The cursor accounts for every sequence number: each is accepted or
    reported skipped, once, and what is accepted increases. *)
Lemma cursor_run os s h :
  session_inv s -> Forall Op.typed os -> forallb (fun o => negb (restarts o)) os = true ->
  Session.highest_sequence s = Some h ->
  let rs := snd (run os s) in
  Session.highest_sequence (fst (run os s)) = Some (h + zlen (accepted os rs) + skipped rs) /\
  StronglySorted Z.lt (h :: accepted os rs) /\ 0 <= skipped rs.
Proof.
  revert s h. induction os as [|o os IH]; intros s h Hinv Ht Hr Hh.
  { simpl. rewrite Hh, !Z.add_0_r. split; [done|]. split; [by repeat constructor|lia]. }
  cbn [run]. apply Forall_cons in Ht as [Ht1 Ht]. simpl in Hr. apply andb_true_iff in Hr as [Hr1 Hr].
  apply negb_true_iff in Hr1.
  pose proof (cursor_step o s h Hinv Ht1 Hr1 Hh) as Hstep.
  pose proof (apply_inv o s Ht1 Hinv) as Hinv1.
  destruct (apply o s) as [s1 r]. cbn [fst snd] in *.
  destruct Hstep as [(n & -> & Hlt & -> & Hh1)|[Hh1 Hother]].
  - specialize (IH s1 n Hinv1 Ht Hr Hh1). cbv zeta in IH.
    destruct (run os s1) as [s2 rs]. cbn [fst snd] in *. destruct IH as (IH1 & IH2 & IH3).
    rewrite IH1. cbn [accepted skipped length]. split; [f_equal; lia|].
    split; [|lia]. constructor; [done|]. constructor; [done|].
    apply StronglySorted_inv in IH2 as [_ IH2]. eapply Forall_impl; [exact IH2|]. simpl. lia.
  - specialize (IH s1 h Hinv1 Ht Hr Hh1). cbv zeta in IH.
    destruct (run os s1) as [s2 rs]. cbn [fst snd] in *.
    cbv zeta. by rewrite skipped_cons_other, accepted_cons_other.
Qed.

(** ** Backoff *)
Definition multiplier (attempt : Z) : Z := default (u_max 32) (checked_shl 32 1 (attempt - 1)).

Lemma multiplier_exact a : 1 <= a <= 32 -> multiplier a = 2 ^ (a - 1).
Proof.
  intros H. unfold multiplier, checked_shl. destruct (Z.ltb_spec (a - 1) 32); [|lia]. simpl default.
  rewrite Z.shiftl_1_l. apply wrapping_small. unfold in_u.
  split; [apply Z.pow_nonneg; lia|]. apply Z.pow_lt_mono_r; lia.
Qed.

Lemma multiplier_saturates a : 32 < a -> multiplier a = u_max 32.
Proof. intros H. unfold multiplier, checked_shl. by destruct (Z.ltb_spec (a - 1) 32); [lia|]. Qed.

Lemma multiplier_mono a b : 1 <= a <= b -> 1 <= multiplier a <= multiplier b.
Proof.
  intros H. destruct (decide (b <= 32)).
  - rewrite !multiplier_exact by lia. split; [|apply Z.pow_le_mono_r; lia].
    pose proof (Z.pow_pos_nonneg 2 (a - 1)). lia.
  - rewrite (multiplier_saturates b) by lia. destruct (decide (a <= 32)).
    + rewrite multiplier_exact by lia. pose proof (Z.pow_pos_nonneg 2 (a - 1)).
      pose proof (Z.pow_le_mono_r 2 (a - 1) 31). unfold u_max. lia.
    + rewrite multiplier_saturates by lia. unfold u_max. lia.
Qed.

Lemma delay_for_attempt_Some p a :
  1 <= a <= ReconnectPolicy.max_attempts p ->
  ReconnectPolicy.delay_for_attempt p a =
    Some (Z.min (Duration.saturating_mul (ReconnectPolicy.initial_delay p) (multiplier a))
            (ReconnectPolicy.max_delay p)).
Proof.
  intros H. unfold ReconnectPolicy.delay_for_attempt. rewrite Z.gtb_ltb.
  destruct (Z.eqb_spec a 0); [lia|].
  by destruct (Z.ltb_spec (ReconnectPolicy.max_attempts p) a); [lia|].
Qed.

(** ** Properties of the session *)

(** C30: whatever the callers do, a session that started idle is consistent: an
    active session holds an agreement and has no retries outstanding, an idle
    one is untouched, the receive cursor only exists after an establishment,
    the counters stay in their width, and no operation panics. *)
Theorem reachable_sessions_consistent s o :
  reachable s -> Op.typed o ->
  session_inv s /\ session_inv (fst (apply o s)) /\ returns (snd (apply o s)).
Proof.
  intros Hs Ho. pose proof (reachable_inv s Hs) as Hinv.
  split; [done|]. split; [by apply apply_inv|by apply returns_apply].
Qed.

(** The lifecycle. An accepted operation follows an edge of the phase
    diagram, a rejected one changes nothing, and once closed a session stays
    closed under every further sequence of operations. *)
Theorem session_lifecycle s :
  session_inv s ->
  (forall o r, Op.typed o -> snd (apply o s) = Ok r ->
     edge o r (Session.phase s) (Session.phase (fst (apply o s)))) /\
  (forall o e, Op.typed o -> snd (apply o s) = Err e -> fst (apply o s) = s) /\
  (forall os, Forall Op.typed os -> Session.phase s = SessionPhase.Closed ->
     Session.phase (fst (run os s)) = SessionPhase.Closed).
Proof.
  intros Hinv. split; [by intros; apply apply_edge|]. split; [by intros; eapply apply_rejected|].
  intros os. revert s Hinv. induction os as [|o os IH]; intros s Hinv Ht Hp; [done|]. simpl.
  apply Forall_cons in Ht as [Ht1 Ht].
  pose proof (apply_inv o s Ht1 Hinv) as Hinv1. pose proof (returns_apply o s Ht1 Hinv) as Hret.
  assert (Hp1 : Session.phase (fst (apply o s)) = SessionPhase.Closed).
  { destruct (snd (apply o s)) as [r|e|f] eqn:Hr; [| |done].
    - pose proof (apply_edge o s r Hinv Ht1 Hr) as [Hl He]. rewrite Hp in Hl, He.
      by destruct o.
    - by rewrite (apply_rejected o s e Hr Hinv Ht1). }
  destruct (apply o s) as [s1 r]. cbn [fst snd] in *.
  specialize (IH s1 Hinv1 Ht Hp1). by destruct (run os s1).
Qed.

(** Reconnects are bounded. Between two establishments, under one policy,
    at most [max_attempts] retries are granted, however losses, closes and
    rejected calls interleave; they are numbered consecutively, and when the
    budget is spent the next request closes the session. *)
Theorem reconnects_are_bounded p os s :
  session_inv s -> Forall Op.typed os -> Forall (outage_op p) os ->
  Session.reconnect_attempts s = 0 -> 0 <= ReconnectPolicy.max_attempts p ->
  let s' := fst (run os s) in
  retries (snd (run os s)) <= ReconnectPolicy.max_attempts p /\
  Session.reconnect_attempts s' = retries (snd (run os s)) /\
  (Session.phase s' = SessionPhase.WaitingToReconnect ->
   ReconnectPolicy.max_attempts p <= retries (snd (run os s)) ->
   Session.schedule_reconnect s' p =
     (Session.close s', Ok ReconnectDecision.GiveUp)).
Proof.
  intros Hinv Ht Ho H0 Hmax s'. destruct (outage_run p os s Hinv Ht Ho) as [H1 H2].
  fold s' in H1. assert (0 <= retries (snd (run os s))) by (unfold retries; lia).
  rewrite H0, Z.add_0_l in H1, H2. split; [lia|]. split; [done|]. intros Hp Hspent.
  pose proof (schedule_spec s' p) as Hs.
  assert (Hreq : Session.require_phase s' SessionPhase.WaitingToReconnect "schedule reconnect" = Ok tt)
    by (unfold Session.require_phase; by rewrite bool_decide_eq_true_2).
  unfold Session.schedule_reconnect in *. rewrite Hreq in *. cbn [otry] in *.
  destruct (checked 32 _); [|done].
  destruct (ReconnectPolicy.delay_for_attempt _ _); [|done].
  destruct Hs as [(? & ? & ?)|[(_ & ? & ?)|(_ & _ & Hle & _)]]; [done..|lia].
Qed.

(** The receive cursor never loses or repeats a sequence number. While the
    stream is not restarted, through any number of losses and resumptions, the
    accepted numbers strictly increase above the cursor, and the cursor
    advances by exactly the accepted numbers plus those reported skipped. *)
Theorem receive_cursor_accounts os s h :
  session_inv s -> Forall Op.typed os -> forallb (fun o => negb (restarts o)) os = true ->
  Session.highest_sequence s = Some h ->
  let rs := snd (run os s) in
  Session.highest_sequence (fst (run os s)) = Some (h + zlen (accepted os rs) + skipped rs) /\
  StronglySorted Z.lt (h :: accepted os rs) /\ 0 <= skipped rs.
Proof. apply cursor_run. Qed.

(** The backoff of a retry is [initial * 2^(attempt - 1)] up to the cap
    for the first 32 attempts, grows with the attempt, always lies between the
    initial delay and the cap, and is defined for exactly the attempts of the
    policy. *)
Theorem backoff_is_capped_exponential p a :
  ReconnectPolicy.wf p -> in_u 32 a ->
  match ReconnectPolicy.delay_for_attempt p a with
  | Some d =>
      1 <= a <= ReconnectPolicy.max_attempts p /\
      ReconnectPolicy.initial_delay p <= d <= ReconnectPolicy.max_delay p /\
      (a <= 32 -> d = Z.min (ReconnectPolicy.initial_delay p * 2 ^ (a - 1))
                        (ReconnectPolicy.max_delay p)) /\
      (forall b e, a <= b -> ReconnectPolicy.delay_for_attempt p b = Some e -> d <= e)
  | None => ~ (1 <= a <= ReconnectPolicy.max_attempts p)
  end.
Proof.
  intros [Hm [Hi _] [_ Hx] Ho] Ha. unfold in_u in Ha.
  destruct (decide (1 <= a <= ReconnectPolicy.max_attempts p)) as [Hr|Hr].
  - rewrite delay_for_attempt_Some by done. unfold Duration.saturating_mul.
    pose proof (multiplier_mono a a ltac:(lia)). unfold Duration.valid in *.
    split; [done|]. split; [nia|]. split.
    + intros H32. rewrite multiplier_exact by lia. lia.
    + intros b e Hab He. destruct (delay_positive_attempt _ _ _ He).
      rewrite delay_for_attempt_Some in He by lia. injection He as <-.
      pose proof (multiplier_mono a b ltac:(lia)). unfold Duration.saturating_mul. nia.
  - unfold ReconnectPolicy.delay_for_attempt. rewrite Z.gtb_ltb.
    destruct (Z.eqb_spec a 0); [done|].
    by destruct (Z.ltb_spec (ReconnectPolicy.max_attempts p) a); [|lia].
Qed.

(** ** The properties at concrete inputs *)
Module SessionExamples.
Definition caps : NegotiatedCapabilities.t := NegotiatedCapabilities.mk 1920 1080 60000 20000 1 0 0.
Definition agreed : NegotiatedSession.t := NegotiatedSession.mk 1 caps.
Definition policy : ReconnectPolicy.t := ReconnectPolicy.mk 2 100 250.
Definition live : Session.t :=
  Session.mk SessionPhase.Active (Some agreed) 1 0 (Some 10).

Lemma live_inv : session_inv live.
Proof. split; try done. intros n [= <-]. split; [done|by eexists]. Qed.

Lemma policy_wf : ReconnectPolicy.wf policy.
Proof. split; done. Qed.

Example run_of_the_tests :
  snd (run [Op.Start; Op.Establish agreed StreamContinuity.Restart; Op.Observe 10; Op.Observe 13;
            Op.Observe 13; Op.Observe 12] Session.new) =
  [Ok Answer.Done; Ok Answer.Done; Ok (Answer.Sequence (SequenceDisposition.Accepted 0));
   Ok (Answer.Sequence (SequenceDisposition.Accepted 2));
   Ok (Answer.Sequence SequenceDisposition.Duplicate);
   Ok (Answer.Sequence (SequenceDisposition.Stale 13))].
Proof. reflexivity. Qed.

Lemma reachable_sessions_consistent_witness :
  reachable Session.new /\ returns (snd (apply Op.Start Session.new)).
Proof.
  assert (H : reachable Session.new) by constructor. split; [exact H|].
  apply (reachable_sessions_consistent Session.new Op.Start H I).
Defined.

Lemma session_lifecycle_witness :
  snd (apply (Op.Observe 4) live) = Ok (Answer.Sequence (SequenceDisposition.Stale 10)) /\
  edge (Op.Observe 4) (Answer.Sequence (SequenceDisposition.Stale 10)) SessionPhase.Active
    SessionPhase.Active.
Proof.
  split; [reflexivity|].
  apply (proj1 (session_lifecycle live live_inv) (Op.Observe 4)); [by vm_compute|reflexivity].
Defined.

Definition outage : list Op.t :=
  [Op.Lost; Op.Schedule policy; Op.Begin; Op.Lost; Op.Schedule policy; Op.Begin; Op.Lost].

Lemma reconnects_are_bounded_witness :
  retries (snd (run outage live)) = 2 /\
  Session.schedule_reconnect (fst (run outage live)) policy =
    (Session.close (fst (run outage live)), Ok ReconnectDecision.GiveUp).
Proof.
  split; [reflexivity|].
  apply (reconnects_are_bounded policy outage live live_inv);
    [repeat constructor; done|repeat constructor|reflexivity|done|reflexivity|done].
Defined.

Definition traffic : list Op.t :=
  [Op.Observe 12; Op.Lost; Op.Schedule policy; Op.Begin;
   Op.Establish agreed StreamContinuity.Resume; Op.Observe 12; Op.Observe 20].

Lemma receive_cursor_accounts_witness :
  Session.highest_sequence (fst (run traffic live)) = Some (10 + 2 + 8).
Proof.
  apply (receive_cursor_accounts traffic live 10 live_inv);
    [repeat constructor; done|reflexivity|reflexivity].
Defined.

Lemma backoff_is_capped_exponential_witness :
  ReconnectPolicy.delay_for_attempt policy 2 = Some 200 /\ 200 <= 250.
Proof.
  split; [reflexivity|].
  pose proof (backoff_is_capped_exponential policy 2 policy_wf ltac:(by vm_compute)) as H.
  apply H.
Defined.
End SessionExamples.
