(* ===== verification/CoreLatency.v ===== *)
(** * Rolling latency statistics

    Models [crates/ladoflow-core/src/telemetry.rs]: the bounded window of
    samples and its deterministic summary. *)
From stdpp Require Import sorting.
From S2P Require Export RustTime.
Local Open Scope string_scope.
Local Open Scope list_scope.
Local Open Scope Z_scope.

Module TelemetryError.
Inductive t : Type :=
| SampleTooLarge.
Definition to_string (e : t) : string :=
  match e with
  | SampleTooLarge => "latency sample exceeds microsecond representation"
  end.
End TelemetryError.

Module LatencySnapshot.
Record t : Type := mk {
  sample_count : Z;
  total_sample_count : Z;
  min : Z;
  mean : Z;
  p50 : Z;
  p95 : Z;
  max : Z;
  jitter : Z;
}.
End LatencySnapshot.

Fixpoint sum_u128 (acc : Z) (l : list Z) : panics_or Z :=
  match l with
  | [] => Ok acc
  | x :: l => let! acc := chk 128 (acc + x) in sum_u128 acc l
  end.

Definition sort_unstable (l : list Z) : list Z := merge_sort Z.le l.

Definition nearest_rank (sorted : list Z) (percentile : Z) : panics_or Z :=
  let! _ := debug_assert (negb (bool_decide (sorted = []))) in
  let! _ := debug_assert ((1 <=? percentile) && (percentile <=? 100)) in
  let quotient := zlen sorted / 100 in
  let remainder := zlen sorted mod 100 in
  let! a := chk usize_bits (quotient * percentile) in
  let! b := chk usize_bits (remainder * percentile) in
  let! rank := chk usize_bits (a + div_ceil b 100) in
  let! i := chk usize_bits (Z.max rank 1 - 1) in
  Ok (default 0 (sorted !! Z.to_nat i)).

(** The loop of [mean_adjacent_difference]. *)
Fixpoint difference_loop (previous difference_sum : Z) (l : list Z) : panics_or Z :=
  match l with
  | [] => Ok difference_sum
  | current :: l =>
    let! difference_sum := chk 128 (difference_sum + abs_diff current previous) in
    difference_loop current difference_sum l
  end.

Definition mean_adjacent_difference (samples : list Z) : panics_or Z :=
  if zlen samples <? 2 then Ok 0 else
  match samples with
  | [] => Ok 0
  | previous :: rest =>
    let! difference_sum := difference_loop previous 0 rest in
    let! difference_count := chk usize_bits (zlen samples - 1) in
    Ok (default (u_max 64) (checked 64 (difference_sum / difference_count)))
  end.

Module LatencyAggregator.
Record t : Type := mk {
  samples_micros : list Z;
  capacity : Z;
  total_sample_count : Z;
}.

Definition new (capacity : Z) : t := mk [] capacity 0.
Definition len (self : t) : Z := zlen (samples_micros self).
Definition is_empty (self : t) : bool := bool_decide (samples_micros self = []).

Definition record (self : t) (latency : Z) : t * outcome TelemetryError.t unit :=
  let? micros := ok_or (checked 64 (Duration.as_micros latency)) TelemetryError.SampleTooLarge
    keeping self in
  let samples :=
    if len self =? capacity self then tl (samples_micros self) else samples_micros self in
  (mk (samples ++ [micros]) (capacity self) (saturating_add 64 (total_sample_count self) 1), Ok tt).

(** [None] for the [None] of the code; the [ok()?] conversions are total on
    64-bit hosts. *)
Definition snapshot (self : t) : panics_or (option LatencySnapshot.t) :=
  if is_empty self then Ok None else
  let sorted := sort_unstable (samples_micros self) in
  let sample_count := zlen sorted in
  let! sum := sum_u128 0 sorted in
  match checked 64 (sum / sample_count) with
  | None => Ok None
  | Some mean_micros =>
    let! jitter_micros := mean_adjacent_difference (samples_micros self) in
    match head sorted, last sorted with
    | Some min_micros, Some max_micros =>
      let! p50 := nearest_rank sorted 50 in
      let! p95 := nearest_rank sorted 95 in
      Ok (Some (LatencySnapshot.mk sample_count (total_sample_count self)
        (Duration.from_micros min_micros) (Duration.from_micros mean_micros)
        (Duration.from_micros p50) (Duration.from_micros p95)
        (Duration.from_micros max_micros) (Duration.from_micros jitter_micros)))
    | _, _ => Ok None
    end
  end.

(** [NonZeroUsize] capacity, at most that many samples, each a [u64]. *)
Record wf (a : t) : Prop := {
  wf_capacity : 0 < capacity a < 2 ^ 64;
  wf_len : zlen (samples_micros a) <= capacity a;
  wf_samples : Forall (in_u 64) (samples_micros a);
  wf_total : in_u 64 (total_sample_count a);
}.
End LatencyAggregator.

(** Record every latency of a list. *)
Fixpoint record_all (a : LatencyAggregator.t) (ls : list Z) : LatencyAggregator.t :=
  match ls with
  | [] => a
  | l :: ls => record_all (fst (LatencyAggregator.record a l)) ls
  end.

(** ** Sums *)
Definition sum (l : list Z) : Z := foldr Z.add 0 l.

Lemma sum_app l k : sum (l ++ k) = sum l + sum k.
Proof. unfold sum. induction l; simpl; lia. Qed.

Lemma sum_perm l k : l ≡ₚ k -> sum l = sum k.
Proof. unfold sum. induction 1; simpl; lia. Qed.

Lemma sum_bounds lo hi l :
  Forall (fun x => lo <= x <= hi) l -> lo * zlen l <= sum l <= hi * zlen l.
Proof. unfold sum. induction 1; cbn [foldr length]; lia. Qed.

Lemma sum_u128_ok l acc :
  Forall (in_u 64) l -> 0 <= acc -> acc + 2 ^ 64 * zlen l < 2 ^ 128 -> sum_u128 acc l = Ok (acc + sum l).
Proof.
  intros Hl. revert acc. unfold sum.
  induction Hl as [|x l Hx _ IH]; intros acc Ha Hb; cbn [sum_u128 foldr length] in *; [f_equal; lia|].
  unfold in_u in Hx. rewrite chk_ok by (unfold in_u; lia). cbn [obind].
  rewrite IH by lia. f_equal. lia.
Qed.

(** The absolute differences of adjacent samples. *)
Fixpoint adjacent_differences (l : list Z) : list Z :=
  match l with
  | x :: ((y :: _) as l') => Z.abs (y - x) :: adjacent_differences l'
  | _ => []
  end.

Lemma length_adjacent_differences l : length (adjacent_differences l) = (length l - 1)%nat.
Proof.
  induction l as [|x [|y l] IH]; [done..|]. cbn [adjacent_differences length] in *. lia.
Qed.

Lemma adjacent_differences_bounds lo hi l :
  Forall (fun x => lo <= x <= hi) l ->
  Forall (fun d => 0 <= d <= hi - lo) (adjacent_differences l).
Proof.
  induction l as [|x [|y l] IH]; intros Hl; [constructor..|].
  apply Forall_cons in Hl as [Hx Hl]. cbn [adjacent_differences]. constructor; [|by apply IH].
  apply Forall_cons in Hl as [Hy _]. lia.
Qed.

Lemma difference_loop_ok l p acc :
  Forall (in_u 64) (p :: l) -> 0 <= acc -> acc + 2 ^ 64 * zlen l < 2 ^ 128 ->
  difference_loop p acc l = Ok (acc + sum (adjacent_differences (p :: l))).
Proof.
  revert p acc. induction l as [|x l IH]; intros p acc Hl Ha Hb.
  { cbn [difference_loop adjacent_differences]. unfold sum. simpl. f_equal. lia. }
  apply Forall_cons in Hl as [Hp Hl]. pose proof Hl as Hl'. apply Forall_cons in Hl' as [Hx _].
  cbn [difference_loop length] in *. unfold in_u in Hp, Hx.
  assert (abs_diff x p < 2 ^ 64) by (unfold abs_diff; lia).
  assert (0 <= abs_diff x p) by (unfold abs_diff; lia).
  rewrite chk_ok by (unfold in_u; lia). cbn [obind]. rewrite IH by (done || lia).
  f_equal. unfold sum, abs_diff. cbn [adjacent_differences foldr]. lia.
Qed.

(** The jitter is the mean of the adjacent differences; the fall-backs of the
    code are never taken. *)
Lemma mean_adjacent_difference_ok l :
  Forall (in_u 64) l -> zlen l < 2 ^ 64 ->
  mean_adjacent_difference l =
    Ok (sum (adjacent_differences l) / Z.max 1 (zlen l - 1)).
Proof.
  intros Hl Hlen. unfold mean_adjacent_difference.
  destruct (Z.ltb_spec (zlen l) 2) as [Hlt|Hge].
  { destruct l as [|x [|y l]]; [reflexivity..|cbn [length] in Hlt; lia]. }
  destruct l as [|p l]; [done|]. cbn [length] in *.
  rewrite difference_loop_ok by (done || lia). cbn [obind]. rewrite Z.add_0_l.
  rewrite chk_ok by (unfold_int; lia). cbn [obind].
  rewrite Z.max_r by lia.
  assert (Hb : Forall (fun x => 0 <= x <= 2 ^ 64 - 1) (p :: l))
    by (eapply Forall_impl; [exact Hl|]; unfold in_u; simpl; lia).
  apply adjacent_differences_bounds, sum_bounds in Hb.
  rewrite length_adjacent_differences in Hb. cbn [length] in Hb.
  rewrite checked_in; [done|]. split; [apply Z.div_pos; lia|].
  apply Z.div_lt_upper_bound; nia.
Qed.

(** ** Percentiles *)
Definition count_le (v : Z) (l : list Z) : Z := zlen (filter (fun x => x <= v) l).
Definition count_lt (v : Z) (l : list Z) : Z := zlen (filter (fun x => x < v) l).

(** The nearest-rank percentile: a sample that at least [p] percent of the
    samples do not exceed, and that fewer than [p] percent are below. *)
Record is_percentile (p : Z) (l : list Z) (v : Z) : Prop := {
  percentile_sample : v ∈ l;
  percentile_enough : p * zlen l <= 100 * count_le v l;
  percentile_least : 100 * count_lt v l < p * zlen l;
}.

Lemma is_percentile_perm p l k v : l ≡ₚ k -> is_percentile p l v -> is_percentile p k v.
Proof.
  intros Hp [H1 H2 H3]. unfold count_le, count_lt in *. split.
  - by rewrite <- Hp.
  - unfold count_le. by rewrite <- (Permutation_length Hp), <- (Permutation_length (filter_Permutation _ _ _ Hp)).
  - unfold count_lt. by rewrite <- (Permutation_length Hp), <- (Permutation_length (filter_Permutation _ _ _ Hp)).
Qed.

Lemma filter_all {A} (P : A -> Prop) `{forall x, Decision (P x)} l :
  Forall P l -> filter P l = l.
Proof. induction 1 as [|x l Hx _ IH]; [done|]. rewrite filter_cons_True by done. by rewrite IH. Qed.

Lemma filter_none {A} (P : A -> Prop) `{forall x, Decision (P x)} l :
  Forall (fun x => ~ P x) l -> filter P l = [].
Proof. induction 1 as [|x l Hx _ IH]; [done|]. by rewrite filter_cons_False. Qed.

Lemma sorted_around a v b :
  StronglySorted Z.le (a ++ v :: b) -> Forall (fun x => x <= v) a /\ Forall (fun x => v <= x) b.
Proof.
  induction a as [|x a IH]; simpl; intros Hs; apply StronglySorted_inv in Hs as [Hs Hf].
  - split; [constructor|done].
  - destruct (IH Hs) as [Ha Hb]. split; [|done]. constructor; [|done].
    apply Forall_app in Hf as [_ Hf]. by apply Forall_cons in Hf as [? _].
Qed.

Lemma rank_div n p :
  0 <= n -> 0 <= p -> n / 100 * p + div_ceil (n mod 100 * p) 100 = div_ceil (n * p) 100.
Proof.
  intros Hn Hp. unfold div_ceil. pose proof (Z.div_mod n 100 ltac:(lia)) as Hd.
  rewrite Hd at 3. replace ((100 * (n / 100) + n mod 100) * p + 100 - 1)
    with (n mod 100 * p + 100 - 1 + n / 100 * p * 100) by ring.
  rewrite Z.div_add by lia. lia.
Qed.

Lemma div_ceil_bounds a : 0 < a -> 100 * (div_ceil a 100 - 1) < a <= 100 * div_ceil a 100.
Proof. intros Ha. unfold div_ceil. pose proof (Z.div_mod (a + 100 - 1) 100). pose proof (Z.mod_pos_bound (a + 100 - 1) 100). lia. Qed.

Lemma nearest_rank_ok l p :
  l <> [] -> zlen l < 2 ^ 64 -> 1 <= p <= 100 ->
  exists v, nearest_rank l p = Ok v /\ l !! Z.to_nat (div_ceil (zlen l * p) 100 - 1) = Some v.
Proof.
  intros Hl Hlen Hp. unfold nearest_rank, debug_assert. rewrite bool_decide_eq_false_2 by done.
  cbn [negb obind]. rewrite (proj2 (Z.leb_le 1 p)), (proj2 (Z.leb_le p 100)) by lia. cbn [andb obind].
  assert (Hn : 0 < zlen l) by (destruct l; [done|cbn [length]; lia]).
  pose proof (rank_div (zlen l) p ltac:(lia) ltac:(lia)) as Hrank.
  pose proof (Z.div_pos (zlen l) 100 ltac:(lia) ltac:(lia)).
  pose proof (Z.div_le_upper_bound (zlen l) 100 (zlen l) ltac:(lia) ltac:(lia)).
  pose proof (Z.mod_pos_bound (zlen l) 100 ltac:(lia)).
  pose proof (div_ceil_bounds (zlen l * p) ltac:(nia)).
  assert (zlen l / 100 * p <= zlen l).
  { pose proof (Z.div_mod (zlen l) 100 ltac:(lia)). nia. }
  rewrite chk_ok by (unfold_int; nia). cbn [obind].
  rewrite chk_ok by (unfold_int; nia). cbn [obind]. rewrite Hrank.
  assert (1 <= div_ceil (zlen l * p) 100 <= zlen l) by nia.
  rewrite chk_ok by (unfold_int; lia). cbn [obind].
  rewrite Z.max_l by lia. rewrite chk_ok by (unfold_int; lia). cbn [obind].
  destruct (lookup_lt_is_Some_2 l (Z.to_nat (div_ceil (zlen l * p) 100 - 1))) as [v Hv]; [lia|].
  exists v. by rewrite Hv.
Qed.

Lemma nearest_rank_percentile l p :
  l <> [] -> zlen l < 2 ^ 64 -> 1 <= p <= 100 -> StronglySorted Z.le l ->
  exists v, nearest_rank l p = Ok v /\ is_percentile p l v.
Proof.
  intros Hl Hlen Hp Hs. destruct (nearest_rank_ok l p Hl Hlen Hp) as (v & Hv & Hk).
  exists v. split; [done|]. set (k := Z.to_nat (div_ceil (zlen l * p) 100 - 1)) in *.
  assert (Hn : 0 < zlen l) by (destruct l; [done|cbn [length]; lia]).
  pose proof (div_ceil_bounds (zlen l * p) ltac:(nia)) as Hb.
  pose proof (take_drop_middle l k v Hk) as Hmid.
  assert (Hlk : length (take k l) = k).
  { rewrite length_take. apply lookup_lt_Some in Hk. lia. }
  assert (Hkz : Z.of_nat k = div_ceil (zlen l * p) 100 - 1) by lia.
  rewrite <- Hmid in Hs. destruct (sorted_around _ _ _ Hs) as [Ha Hafter].
  split.
  - by eapply list_elem_of_lookup_2.
  - unfold count_le. rewrite <- Hmid at 2. rewrite filter_app, length_app.
    rewrite filter_all by done. rewrite filter_cons_True by lia. cbn [length].
    rewrite Hlk. lia.
  - unfold count_lt. rewrite <- Hmid at 1. rewrite filter_app, length_app.
    rewrite filter_cons_False by lia.
    rewrite (filter_none _ (drop (S k) l)).
    2:{ eapply Forall_impl; [exact Hafter|]. simpl. lia. }
    pose proof (length_filter (fun x => x < v) (take k l)). cbn [length]. rewrite Hlk in *. lia.
Qed.

(** ** The window *)
Lemma record_spec a d :
  LatencyAggregator.wf a -> 0 <= d ->
  LatencyAggregator.record a d =
    if Duration.as_micros d <? 2 ^ 64 then
      (LatencyAggregator.mk
         ((if zlen (LatencyAggregator.samples_micros a) =? LatencyAggregator.capacity a
           then tl (LatencyAggregator.samples_micros a) else LatencyAggregator.samples_micros a)
            ++ [Duration.as_micros d])
         (LatencyAggregator.capacity a)
         (saturating_add 64 (LatencyAggregator.total_sample_count a) 1), Ok tt)
    else (a, Err TelemetryError.SampleTooLarge).
Proof.
  intros Hwf Hd. unfold LatencyAggregator.record, LatencyAggregator.len.
  assert (0 <= Duration.as_micros d) by (apply Z.div_pos; lia).
  destruct (Z.ltb_spec (Duration.as_micros d) (2 ^ 64)).
  - by rewrite checked_in by (unfold in_u; lia).
  - by rewrite (proj2 (checked_None _ _)) by (unfold in_u; lia).
Qed.

Lemma record_wf a d :
  LatencyAggregator.wf a -> 0 <= d -> LatencyAggregator.wf (fst (LatencyAggregator.record a d)).
Proof.
  intros Hwf Hd. rewrite record_spec by done. case_match eqn:Hlt; [|done]. apply Z.ltb_lt in Hlt.
  assert (0 <= Duration.as_micros d) by (apply Z.div_pos; lia).
  destruct Hwf as [Hc Hl Hs Ht]. split; cbn [fst LatencyAggregator.capacity
    LatencyAggregator.samples_micros LatencyAggregator.total_sample_count]; [done|..].
  - rewrite length_app. cbn [length].
    destruct (Z.eqb_spec (zlen (LatencyAggregator.samples_micros a)) (LatencyAggregator.capacity a));
      [|lia]. destruct (LatencyAggregator.samples_micros a); cbn [tl length] in *; lia.
  - apply Forall_app. split; [|by repeat constructor].
    case_match; [|done]. destruct Hs; [constructor|done].
  - apply saturating_add_in; (done || lia).
Qed.

Lemma drop_app_snoc {A} (l : list A) x n :
  (n <= length l)%nat -> drop n (l ++ [x]) = drop n l ++ [x].
Proof. intros H. by rewrite drop_app_le. Qed.

(** The window is the last [capacity] samples recorded so far. *)
Definition lastn {A} (n : nat) (l : list A) : list A := drop (length l - n) l.

Lemma lastn_snoc {A} n (l : list A) x :
  (0 < n)%nat ->
  (if (length (lastn n l) =? n)%nat then tl (lastn n l) else lastn n l) ++ [x] = lastn n (l ++ [x]).
Proof.
  intros Hn. unfold lastn. rewrite length_drop, length_app. cbn [length].
  destruct (Nat.eqb_spec (length l - (length l - n)) n).
  - rewrite drop_app_snoc by lia. f_equal.
    replace (length l + 1 - n)%nat with (S (length l - n)) by lia.
    by rewrite <- (drop_drop l (length l - n) 1) || (rewrite <- Nat.add_1_r, <- drop_drop; by destruct (drop _ l)).
  - replace (length l - n)%nat with 0%nat by lia.
    replace (length l + 1 - n)%nat with 0%nat by lia. done.
Qed.

Lemma record_all_spec ds seen cap tot :
  0 < cap < 2 ^ 64 -> in_u 64 tot ->
  Forall (in_u 64) seen -> Forall (fun d => 0 <= d /\ Duration.as_micros d < 2 ^ 64) ds ->
  record_all (LatencyAggregator.mk (lastn (Z.to_nat cap) seen) cap tot) ds =
    LatencyAggregator.mk (lastn (Z.to_nat cap) (seen ++ map Duration.as_micros ds)) cap
      (Z.min (tot + zlen ds) (u_max 64)).
Proof.
  intros Hcap Htot Hseen Hds. revert seen tot Htot Hseen.
  induction Hds as [|d ds [Hd Hm] _ IH]; intros seen tot Htot Hseen; cbn [record_all map].
  { rewrite app_nil_r. f_equal. unfold in_u, u_max in *. simpl. lia. }
  assert (Hlen : (length (lastn (Z.to_nat cap) seen) <= Z.to_nat cap)%nat).
  { unfold lastn. rewrite length_drop. lia. }
  assert (Hwf : LatencyAggregator.wf (LatencyAggregator.mk (lastn (Z.to_nat cap) seen) cap tot)).
  { split; simpl; [done|lia|by apply Forall_drop|done]. }
  rewrite record_spec by done. apply Z.ltb_lt in Hm as Hb. rewrite Hb. cbn [fst].
  cbn [LatencyAggregator.samples_micros LatencyAggregator.capacity
    LatencyAggregator.total_sample_count].
  replace (zlen (lastn (Z.to_nat cap) seen) =? cap)
    with (length (lastn (Z.to_nat cap) seen) =? Z.to_nat cap)%nat.
  2:{ destruct (Nat.eqb_spec (length (lastn (Z.to_nat cap) seen)) (Z.to_nat cap)),
        (Z.eqb_spec (zlen (lastn (Z.to_nat cap) seen)) cap); (done || lia). }
  rewrite lastn_snoc by lia.
  rewrite IH; [|apply saturating_add_in; (done || lia)|].
  - rewrite <- app_assoc. cbn [app]. f_equal. unfold saturating_add, u_max, in_u in *.
    cbn [length]. lia.
  - apply Forall_app. split; [done|]. repeat constructor; [apply Z.div_pos; lia|done].
Qed.

(** ** The summary *)
Lemma sort_sorted l : StronglySorted Z.le (sort_unstable l).
Proof. apply (StronglySorted_merge_sort Z.le). Qed.

Lemma sort_perm l : sort_unstable l ≡ₚ l.
Proof. apply merge_sort_Permutation. Qed.

Lemma sorted_ends (l : list Z) lo hi :
  StronglySorted Z.le l -> head l = Some lo -> last l = Some hi ->
  Forall (fun x => lo <= x <= hi) l.
Proof.
  intros Hs. revert lo. induction Hs as [|x l Hs IH Hx]; intros lo Hlo Hhi; [done|].
  injection Hlo as ->. destruct l as [|y l].
  { injection Hhi as ->. repeat constructor; lia. }
  cbn [last] in Hhi. specialize (IH y eq_refl Hhi).
  pose proof (Forall_inv Hx) as H1. pose proof (Forall_inv IH) as H2. simpl in H1, H2.
  constructor; [lia|]. eapply Forall_impl; [exact IH|]. simpl. lia.
Qed.

(** The contract of a summary, over the samples in arrival order. *)
Record summarizes (l : list Z) (total : Z) (s : LatencySnapshot.t) : Prop := {
  sum_count : LatencySnapshot.sample_count s = zlen l;
  sum_total : LatencySnapshot.total_sample_count s = total;
  sum_min : exists m, LatencySnapshot.min s = Duration.from_micros m /\ m ∈ l /\ Forall (fun x => m <= x) l;
  sum_max : exists m, LatencySnapshot.max s = Duration.from_micros m /\ m ∈ l /\ Forall (fun x => x <= m) l;
  sum_mean : LatencySnapshot.mean s = Duration.from_micros (sum l / zlen l);
  sum_p50 : exists v, LatencySnapshot.p50 s = Duration.from_micros v /\ is_percentile 50 l v;
  sum_p95 : exists v, LatencySnapshot.p95 s = Duration.from_micros v /\ is_percentile 95 l v;
  sum_jitter : LatencySnapshot.jitter s =
    Duration.from_micros (sum (adjacent_differences l) / Z.max 1 (zlen l - 1));
}.

Lemma snapshot_spec a :
  LatencyAggregator.wf a -> LatencyAggregator.samples_micros a <> [] ->
  exists s, LatencyAggregator.snapshot a = Ok (Some s) /\
    summarizes (LatencyAggregator.samples_micros a) (LatencyAggregator.total_sample_count a) s.
Proof.
  intros [Hc Hl Hs Ht] Hne. unfold LatencyAggregator.snapshot, LatencyAggregator.is_empty.
  rewrite bool_decide_eq_false_2 by done.
  set (l := LatencyAggregator.samples_micros a) in *. set (k := sort_unstable l).
  pose proof (sort_perm l) as Hperm. fold k in Hperm. pose proof (sort_sorted l) as Hsort. fold k in Hsort.
  pose proof (Permutation_length Hperm) as Hlen.
  assert (Hk : Forall (in_u 64) k) by by rewrite Hperm.
  assert (Hk0 : k <> []) by (intros E; rewrite E in Hlen; by destruct l).
  assert (Hpos : 0 < zlen l) by (destruct l; [done|cbn [length]; lia]).
  rewrite sum_u128_ok by (try done; rewrite Hlen; lia). cbn [obind]. rewrite Z.add_0_l, Hlen.
  rewrite (sum_perm k l Hperm).
  assert (Hb : Forall (fun x => 0 <= x <= 2 ^ 64 - 1) l)
    by (eapply Forall_impl; [exact Hs|]; unfold in_u; simpl; lia).
  apply sum_bounds in Hb.
  rewrite checked_in by (split; [apply Z.div_pos; lia|apply Z.div_lt_upper_bound; nia]).
  rewrite mean_adjacent_difference_ok by (done || lia). cbn [obind].
  destruct (head k) as [lo|] eqn:Hlo; [|by destruct k].
  destruct (last k) as [hi|] eqn:Hhi; [|by apply last_None in Hhi].
  destruct (nearest_rank_percentile k 50) as (v50 & -> & H50); [done|lia|lia|done|].
  cbn [obind].
  destruct (nearest_rank_percentile k 95) as (v95 & -> & H95); [done|lia|lia|done|].
  cbn [obind]. eexists. split; [reflexivity|].
  pose proof (sorted_ends k lo hi Hsort Hlo Hhi) as Hends. rewrite Hperm in Hends.
  split; cbn; try done.
  - exists lo. split; [done|]. split; [rewrite <- Hperm; by apply head_Some_elem_of|].
    eapply Forall_impl; [exact Hends|]. simpl. lia.
  - exists hi. split; [done|]. split; [rewrite <- Hperm; by apply last_Some_elem_of|].
    eapply Forall_impl; [exact Hends|]. simpl. lia.
  - exists v50. split; [done|]. by eapply is_percentile_perm.
  - exists v95. split; [done|]. by eapply is_percentile_perm.
Qed.

Lemma length_filter_mono {A} (P Q : A -> Prop) `{forall x, Decision (P x)}
  `{forall x, Decision (Q x)} (l : list A) :
  (forall x, P x -> Q x) -> (length (filter P l) <= length (filter Q l))%nat.
Proof.
  intros HPQ. induction l as [|x l IH]; [done|]. rewrite !filter_cons.
  repeat case_decide; simpl; try lia. naive_solver.
Qed.

Lemma percentile_mono l p q v w :
  p <= q -> is_percentile p l v -> is_percentile q l w -> v <= w.
Proof.
  intros Hpq [_ _ Hv] [_ Hw _]. destruct (Z.le_gt_cases v w) as [|Hlt]; [done|exfalso].
  pose proof (length_filter_mono (fun x => x <= w) (fun x => x < v) l ltac:(simpl; lia)).
  unfold count_lt, count_le in *. nia.
Qed.

(** The figures of a summary are ordered as their names say. *)
Lemma summarizes_ordered l total s :
  l <> [] -> summarizes l total s ->
  LatencySnapshot.min s <= LatencySnapshot.p50 s <= LatencySnapshot.p95 s /\
  LatencySnapshot.p95 s <= LatencySnapshot.max s /\
  LatencySnapshot.min s <= LatencySnapshot.mean s <= LatencySnapshot.max s /\
  0 <= LatencySnapshot.jitter s <= LatencySnapshot.max s - LatencySnapshot.min s.
Proof.
  intros Hne [_ _ (lo & -> & Hlo & Hmin) (hi & -> & Hhi & Hmax) -> (v & -> & Hv) (w & -> & Hw) ->].
  pose proof (percentile_mono l 50 95 v w ltac:(lia) Hv Hw).
  assert (Hpos : 0 < zlen l) by (destruct l; [done|cbn [length]; lia]).
  assert (Hb : Forall (fun x => lo <= x <= hi) l).
  { rewrite Forall_forall in Hmin, Hmax |- *. intros x Hx. split; [by apply Hmin|by apply Hmax]. }
  pose proof (sum_bounds lo hi l Hb) as Hs.
  pose proof (adjacent_differences_bounds lo hi l Hb) as Hd. apply sum_bounds in Hd.
  rewrite length_adjacent_differences in Hd.
  rewrite Forall_forall in Hmin, Hmax.
  pose proof (Hmin v (percentile_sample _ _ _ Hv)). pose proof (Hmax w (percentile_sample _ _ _ Hw)).
  pose proof (Hmin hi Hhi).
  assert (lo <= sum l / zlen l <= hi)
    by (split; [apply Z.div_le_lower_bound|apply Z.div_le_upper_bound]; lia).
  assert (0 <= sum (adjacent_differences l) / Z.max 1 (zlen l - 1) <= hi - lo).
  { split; [apply Z.div_pos; lia|]. apply Z.div_le_upper_bound; [lia|]. nia. }
  unfold Duration.from_micros. lia.
Qed.

(** ** Properties of the collector *)

(** The collector keeps exactly the most recent [capacity] samples, in
    arrival order and truncated to microseconds, counts all of them, and
    refuses, unchanged, a latency that 64 bits of microseconds cannot hold. *)
Theorem latency_window_is_last_samples cap ds d :
  0 < cap < 2 ^ 64 -> Forall (fun d => 0 <= d /\ Duration.as_micros d < 2 ^ 64) ds -> 0 <= d ->
  let a := record_all (LatencyAggregator.new cap) ds in
  a = LatencyAggregator.mk (lastn (Z.to_nat cap) (map Duration.as_micros ds)) cap
        (Z.min (zlen ds) (u_max 64)) /\
  LatencyAggregator.wf a /\
  (2 ^ 64 <= Duration.as_micros d ->
     LatencyAggregator.record a d = (a, Err TelemetryError.SampleTooLarge)).
Proof.
  intros Hcap Hds Hd a.
  assert (Ha : a = LatencyAggregator.mk (lastn (Z.to_nat cap) (map Duration.as_micros ds)) cap
        (Z.min (zlen ds) (u_max 64))) by (apply (record_all_spec ds []); done).
  assert (Hwf : LatencyAggregator.wf a).
  { rewrite Ha. split; cbn [LatencyAggregator.capacity LatencyAggregator.samples_micros
      LatencyAggregator.total_sample_count]; [done|..].
    - unfold lastn. rewrite length_drop. lia.
    - apply Forall_drop, Forall_map. eapply Forall_impl; [exact Hds|].
      intros x [Hx Hm]. simpl. split; [apply Z.div_pos; lia|done].
    - unfold in_u, u_max. lia. }
  split; [done|]. split; [done|]. intros Hbig. rewrite record_spec by done.
  by destruct (Z.ltb_spec (Duration.as_micros d) (2 ^ 64)); [lia|].
Qed.

(** A summary exists exactly when there are samples; it reports their exact
    minimum, maximum, truncated mean, nearest-rank 50th and 95th percentiles
    and mean adjacent difference, in the order
    [min <= p50 <= p95 <= max], with the mean between the extremes and the
    jitter within their distance. No sum or product overflows. *)
Theorem snapshot_is_exact a :
  LatencyAggregator.wf a ->
  (LatencyAggregator.samples_micros a = [] /\ LatencyAggregator.snapshot a = Ok None) \/
  (exists s, LatencyAggregator.snapshot a = Ok (Some s) /\
     summarizes (LatencyAggregator.samples_micros a) (LatencyAggregator.total_sample_count a) s /\
     LatencySnapshot.min s <= LatencySnapshot.p50 s <= LatencySnapshot.p95 s /\
     LatencySnapshot.p95 s <= LatencySnapshot.max s /\
     LatencySnapshot.min s <= LatencySnapshot.mean s <= LatencySnapshot.max s /\
     0 <= LatencySnapshot.jitter s <= LatencySnapshot.max s - LatencySnapshot.min s).
Proof.
  intros Hwf. destruct (decide (LatencyAggregator.samples_micros a = [])) as [He|Hne].
  - left. split; [done|]. unfold LatencyAggregator.snapshot, LatencyAggregator.is_empty.
    by rewrite bool_decide_eq_true_2.
  - right. destruct (snapshot_spec a Hwf Hne) as (s & Hs & Hsum). exists s.
    split; [done|]. split; [done|]. by eapply summarizes_ordered.
Qed.

Module LatencyExamples.
(** The window of the crate's own test: five samples into four places. *)
Definition millis : list Z := map Duration.from_millis [10; 20; 40; 80; 100].

Example snapshot_of_the_tests :
  LatencyAggregator.snapshot (record_all (LatencyAggregator.new 4) millis) =
  Ok (Some (LatencySnapshot.mk 4 5 (Duration.from_millis 20) (Duration.from_millis 60)
    (Duration.from_millis 40) (Duration.from_millis 100) (Duration.from_millis 100)
    (Duration.from_micros (80000 / 3)))).
Proof. vm_compute. reflexivity. Qed.

Lemma latency_window_is_last_samples_witness :
  LatencyAggregator.samples_micros (record_all (LatencyAggregator.new 4) millis) =
    [20000; 40000; 80000; 100000] /\
  LatencyAggregator.wf (record_all (LatencyAggregator.new 4) millis).
Proof.
  split; [reflexivity|]. apply (latency_window_is_last_samples 4 millis 0); [lia| |lia].
  repeat constructor; vm_compute; (done || discriminate).
Defined.

Definition window : LatencyAggregator.t := LatencyAggregator.mk [30; 55; 30; 55] 4 9.
Lemma window_wf : LatencyAggregator.wf window.
Proof.
  split; [vm_compute; done|vm_compute; discriminate| |vm_compute; split; (done || discriminate)].
  repeat constructor; vm_compute; (done || discriminate).
Qed.

Lemma snapshot_is_exact_witness :
  exists s, LatencyAggregator.snapshot window = Ok (Some s) /\
    LatencySnapshot.p50 s <= LatencySnapshot.p95 s /\ LatencySnapshot.jitter s = 25000.
Proof.
  destruct (snapshot_is_exact window window_wf) as [[H _]|(s & Hs & _ & [_ H] & _)]; [discriminate H|].
  exists s. split; [exact Hs|]. split; [exact H|].
  assert (E : LatencyAggregator.snapshot window = Ok (Some (LatencySnapshot.mk 4 9 30000 42000 30000 55000 55000 25000)))
    by (vm_compute; reflexivity).
  rewrite E in Hs. injection Hs as <-. reflexivity.
Defined.
End LatencyExamples.
