(* ===== verification/CoreQuality.v ===== *)
(** * The quality policy

    Models [crates/ladoflow-core/src/quality.rs]: latency evidence and the
    negotiated limits become the limits of the next encoder configuration. *)
From S2P Require Export CoreNegotiation CoreLatency.
Local Open Scope string_scope.
Local Open Scope list_scope.
Local Open Scope Z_scope.

Module QualityTier.
Inductive t : Type :=
| High
| Balanced
| Constrained.
#[global] Instance t_eq_dec : EqDecision t.
Proof. solve_decision. Defined.
End QualityTier.

Module QualityRecommendation.
Record t : Type := mk {
  tier : QualityTier.t;
  width : Z;
  height : Z;
  refresh_millihz : Z;
  bitrate_kbps : Z;
}.
End QualityRecommendation.

Module QualityPolicyError.
Inductive t : Type :=
| ThresholdsOutOfOrder.
Definition to_string (e : t) : string :=
  match e with
  | ThresholdsOutOfOrder => "quality thresholds are not strictly ordered"
  end.
End QualityPolicyError.

Definition scale_u16_percent (value percent : Z) : panics_or Z :=
  let! _ := debug_assert (percent <=? 100) in
  let! whole := chk 16 (value / 100 * percent) in
  let! product := chk 16 (value mod 100 * percent) in
  let remainder := product / 100 in
  let! scaled := chk 16 (whole + remainder) in
  Ok (Z.max scaled 1).

Definition scale_u32_percent (value percent : Z) : panics_or Z :=
  let! _ := debug_assert (percent <=? 100) in
  let! whole := chk 32 (value / 100 * percent) in
  let! product := chk 32 (value mod 100 * percent) in
  let remainder := product / 100 in
  let! scaled := chk 32 (whole + remainder) in
  Ok (Z.max scaled 1).

Module QualityPolicy.
Record t : Type := mk {
  high_p95 : Z;
  high_jitter : Z;
  constrained_p95 : Z;
  constrained_jitter : Z;
}.

Definition new (high_p95 high_jitter constrained_p95 constrained_jitter : Z)
  : outcome QualityPolicyError.t t :=
  if (high_p95 >=? constrained_p95) || (high_jitter >=? constrained_jitter)
  then Err QualityPolicyError.ThresholdsOutOfOrder
  else Ok (mk high_p95 high_jitter constrained_p95 constrained_jitter).

(** The closure that [recommend] maps over the snapshot. *)
Definition tier_of (self : t) (snapshot : LatencySnapshot.t) : QualityTier.t :=
  if (LatencySnapshot.p95 snapshot <=? high_p95 self) &&
     (LatencySnapshot.jitter snapshot <=? high_jitter self) then QualityTier.High
  else if (LatencySnapshot.p95 snapshot >=? constrained_p95 self) ||
          (LatencySnapshot.jitter snapshot >=? constrained_jitter self)
  then QualityTier.Constrained
  else QualityTier.Balanced.

(** The percentages and the refresh cap of a tier. *)
Definition tier_limits (tier : QualityTier.t) : Z * Z * Z :=
  match tier with
  | QualityTier.High => (100, 100, u_max 32)
  | QualityTier.Balanced => (75, 70, 60000)
  | QualityTier.Constrained => (50, 40, 30000)
  end.

Definition recommend (self : t) (capabilities : NegotiatedCapabilities.t)
  (snapshot : option LatencySnapshot.t) : panics_or QualityRecommendation.t :=
  let tier := from_option (tier_of self) QualityTier.Balanced snapshot in
  let '(dimension_percent, bitrate_percent, refresh_cap) := tier_limits tier in
  let! width :=
    scale_u16_percent (NegotiatedCapabilities.max_width capabilities) dimension_percent in
  let! height :=
    scale_u16_percent (NegotiatedCapabilities.max_height capabilities) dimension_percent in
  let refresh_millihz :=
    Z.min (NegotiatedCapabilities.max_refresh_millihz capabilities) refresh_cap in
  let! bitrate_kbps :=
    scale_u32_percent (NegotiatedCapabilities.max_bitrate_kbps capabilities) bitrate_percent in
  Ok (QualityRecommendation.mk tier width height refresh_millihz bitrate_kbps).

Definition default_policy : t :=
  mk (Duration.from_millis 40) (Duration.from_millis 8)
     (Duration.from_millis 90) (Duration.from_millis 20).
End QualityPolicy.

(** ** Scaling *)

(** The split into hundreds and remainder computes the truncated percentage,
    without the overflow of [value * percent]. *)
Lemma scaled_split v p : v / 100 * p + v mod 100 * p / 100 = v * p / 100.
Proof.
  pose proof (Z.div_mod v 100 ltac:(lia)) as Hd. rewrite Hd at 3.
  replace ((100 * (v / 100) + v mod 100) * p)
    with (v mod 100 * p + v / 100 * p * 100) by ring.
  rewrite Z.div_add by lia. lia.
Qed.

Definition scaled (v p : Z) : Z := Z.max (v * p / 100) 1.

Lemma scale_fits w v p :
  7 <= w -> 0 <= v < 2 ^ w -> 0 <= p <= 100 -> 10000 <= 2 ^ w ->
  in_u w (v / 100 * p) /\ in_u w (v mod 100 * p) /\ in_u w (v / 100 * p + v mod 100 * p / 100).
Proof.
  intros Hw Hv Hp H. rewrite scaled_split.
  pose proof (Z.div_mod v 100 ltac:(lia)). pose proof (Z.mod_pos_bound v 100 ltac:(lia)).
  pose proof (Z.div_pos v 100 ltac:(lia) ltac:(lia)).
  assert (0 <= v * p / 100 <= v)
    by (split; [apply Z.div_pos|apply Z.div_le_upper_bound]; nia).
  unfold in_u. split_and!; nia.
Qed.

Lemma scale_u16_ok v p :
  in_u 16 v -> 0 <= p <= 100 -> scale_u16_percent v p = Ok (scaled v p).
Proof.
  intros Hv Hp. destruct (scale_fits 16 v p) as (H1 & H2 & H3); [lia|done|done|lia|].
  unfold scale_u16_percent, debug_assert. rewrite (proj2 (Z.leb_le p 100)) by lia. cbn [obind].
  rewrite !chk_ok by done. cbn [obind]. rewrite chk_ok by done. cbn [obind].
  by rewrite scaled_split.
Qed.

Lemma scale_u32_ok v p :
  in_u 32 v -> 0 <= p <= 100 -> scale_u32_percent v p = Ok (scaled v p).
Proof.
  intros Hv Hp. destruct (scale_fits 32 v p) as (H1 & H2 & H3); [lia|done|done|lia|].
  unfold scale_u32_percent, debug_assert. rewrite (proj2 (Z.leb_le p 100)) by lia. cbn [obind].
  rewrite !chk_ok by done. cbn [obind]. rewrite chk_ok by done. cbn [obind].
  by rewrite scaled_split.
Qed.

Lemma scaled_mono v p q : 0 <= v -> p <= q -> scaled v p <= scaled v q.
Proof.
  intros. unfold scaled. pose proof (Z.div_le_mono (v * p) (v * q) 100 ltac:(lia) ltac:(nia)). lia.
Qed.

Lemma scaled_bounds v p : 0 < v -> 0 <= p <= 100 -> 1 <= scaled v p <= v.
Proof.
  intros. unfold scaled. pose proof (Z.div_le_upper_bound (v * p) 100 v ltac:(lia) ltac:(nia)). lia.
Qed.

Lemma scaled_full v : 0 < v -> scaled v 100 = v.
Proof. intros. unfold scaled. rewrite Z.div_mul by lia. lia. Qed.

(** The recommendation of a tier, as a function of the limits. *)
Definition tier_recommendation (c : NegotiatedCapabilities.t) (t : QualityTier.t)
  : QualityRecommendation.t :=
  let '(d, b, r) := QualityPolicy.tier_limits t in
  QualityRecommendation.mk t
    (scaled (NegotiatedCapabilities.max_width c) d)
    (scaled (NegotiatedCapabilities.max_height c) d)
    (Z.min (NegotiatedCapabilities.max_refresh_millihz c) r)
    (scaled (NegotiatedCapabilities.max_bitrate_kbps c) b).

Lemma recommend_spec q c o :
  NegotiatedCapabilities.wf c ->
  QualityPolicy.recommend q c o =
    Ok (tier_recommendation c (from_option (QualityPolicy.tier_of q) QualityTier.Balanced o)).
Proof.
  intros [Hw Hh Hr Hb _ _ _]. unfold QualityPolicy.recommend, tier_recommendation.
  destruct (from_option _ _ o); cbn [QualityPolicy.tier_limits];
    rewrite !scale_u16_ok by (unfold in_u; lia); cbn [obind];
    by rewrite scale_u32_ok by (unfold in_u; lia).
Qed.

(** [r] asks no more of the stream than [s] does. *)
Definition no_more_than (r s : QualityRecommendation.t) : Prop :=
  QualityRecommendation.width r <= QualityRecommendation.width s /\
  QualityRecommendation.height r <= QualityRecommendation.height s /\
  QualityRecommendation.refresh_millihz r <= QualityRecommendation.refresh_millihz s /\
  QualityRecommendation.bitrate_kbps r <= QualityRecommendation.bitrate_kbps s.

Lemma tier_order c :
  NegotiatedCapabilities.wf c ->
  no_more_than (tier_recommendation c QualityTier.Constrained)
    (tier_recommendation c QualityTier.Balanced) /\
  no_more_than (tier_recommendation c QualityTier.Balanced)
    (tier_recommendation c QualityTier.High).
Proof.
  intros [Hw Hh Hr Hb _ _ _]. unfold no_more_than, tier_recommendation, u_max.
  cbn [QualityPolicy.tier_limits QualityRecommendation.width QualityRecommendation.height
    QualityRecommendation.refresh_millihz QualityRecommendation.bitrate_kbps].
  split; split_and!; first [apply scaled_mono; lia | unfold u_max; lia].
Qed.

(** The tier as a function of the thresholds, and its dependence on them. *)
Lemma tier_of_cases q s :
  QualityPolicy.high_p95 q < QualityPolicy.constrained_p95 q ->
  QualityPolicy.high_jitter q < QualityPolicy.constrained_jitter q ->
  (QualityPolicy.tier_of q s = QualityTier.High <->
     LatencySnapshot.p95 s <= QualityPolicy.high_p95 q /\
     LatencySnapshot.jitter s <= QualityPolicy.high_jitter q) /\
  (QualityPolicy.tier_of q s = QualityTier.Constrained <->
     QualityPolicy.constrained_p95 q <= LatencySnapshot.p95 s \/
     QualityPolicy.constrained_jitter q <= LatencySnapshot.jitter s).
Proof.
  intros H1 H2. unfold QualityPolicy.tier_of. rewrite !Z.geb_leb.
  destruct (Z.leb_spec (LatencySnapshot.p95 s) (QualityPolicy.high_p95 q)),
    (Z.leb_spec (LatencySnapshot.jitter s) (QualityPolicy.high_jitter q)),
    (Z.leb_spec (QualityPolicy.constrained_p95 q) (LatencySnapshot.p95 s)),
    (Z.leb_spec (QualityPolicy.constrained_jitter q) (LatencySnapshot.jitter s));
    simpl; (split; split; (done || lia)).
Qed.

(** ** Properties of the policy *)

(** Within negotiated limits the policy always answers: the tier is the one
    the thresholds name, balanced without evidence, every recommended limit is
    positive and within the negotiated maximum, high quality is exactly the
    maximum, and a worse tier never asks for more. No intermediate product
    overflows its 16 or 32 bits. *)
Theorem recommendation_within_limits hp hj cp cj q c o :
  QualityPolicy.new hp hj cp cj = Ok q -> NegotiatedCapabilities.wf c ->
  let tier := from_option (QualityPolicy.tier_of q) QualityTier.Balanced o in
  let r := tier_recommendation c tier in
  QualityPolicy.recommend q c o = Ok r /\
  (forall s, o = Some s ->
     (tier = QualityTier.High <-> LatencySnapshot.p95 s <= hp /\ LatencySnapshot.jitter s <= hj) /\
     (tier = QualityTier.Constrained <->
        cp <= LatencySnapshot.p95 s \/ cj <= LatencySnapshot.jitter s)) /\
  0 < QualityRecommendation.width r <= NegotiatedCapabilities.max_width c /\
  0 < QualityRecommendation.height r <= NegotiatedCapabilities.max_height c /\
  0 < QualityRecommendation.refresh_millihz r <= NegotiatedCapabilities.max_refresh_millihz c /\
  0 < QualityRecommendation.bitrate_kbps r <= NegotiatedCapabilities.max_bitrate_kbps c /\
  (tier = QualityTier.High ->
     r = QualityRecommendation.mk QualityTier.High (NegotiatedCapabilities.max_width c)
       (NegotiatedCapabilities.max_height c) (NegotiatedCapabilities.max_refresh_millihz c)
       (NegotiatedCapabilities.max_bitrate_kbps c)) /\
  no_more_than (tier_recommendation c QualityTier.Constrained)
    (tier_recommendation c QualityTier.Balanced) /\
  no_more_than (tier_recommendation c QualityTier.Balanced)
    (tier_recommendation c QualityTier.High).
Proof.
  intros Hnew Hwf tier r. split; [by apply recommend_spec|].
  unfold QualityPolicy.new in Hnew. rewrite !Z.geb_leb in Hnew.
  destruct (Z.leb_spec cp hp), (Z.leb_spec cj hj); try done. injection Hnew as <-.
  split. { intros s ->. by apply (tier_of_cases (QualityPolicy.mk hp hj cp cj)). }
  pose proof (tier_order c Hwf) as Hord. destruct Hwf as [Hw Hh Hr Hb _ _ _].
  unfold r, tier_recommendation. clearbody tier.
  destruct tier; cbn [QualityPolicy.tier_limits QualityRecommendation.width
    QualityRecommendation.height QualityRecommendation.refresh_millihz
    QualityRecommendation.bitrate_kbps]; unfold u_max;
  repeat match goal with
  | |- context [scaled ?v ?p] =>
      lazymatch goal with
      | _ : 1 <= scaled v p <= v |- _ => fail
      | _ => pose proof (scaled_bounds v p ltac:(lia) ltac:(lia))
      end
  end; split_and!; try done; try (unfold u_max; lia); try apply Hord.
  intros _. rewrite !scaled_full by lia. f_equal. unfold u_max. lia.
Qed.

Module QualityExamples.
Definition caps : NegotiatedCapabilities.t :=
  NegotiatedCapabilities.mk 2000 1200 120000 10000 1 0 0.
Lemma caps_wf : NegotiatedCapabilities.wf caps.
Proof. split; done. Qed.

Lemma recommendation_within_limits_witness :
  QualityPolicy.recommend QualityPolicy.default_policy caps None =
    Ok (QualityRecommendation.mk QualityTier.Balanced 1500 900 60000 7000).
Proof.
  refine (proj1 (recommendation_within_limits (Duration.from_millis 40) (Duration.from_millis 8)
    (Duration.from_millis 90) (Duration.from_millis 20) QualityPolicy.default_policy caps None
    _ caps_wf)).
  reflexivity.
Defined.
End QualityExamples.
