(* ===== verification/MediaMetadata.v ===== *)
(** * Frame rates, formats and media frames

    Models [crates/ladoflow-media/src/metadata.rs]: the exact rational
    timeline of a stream and the codec-neutral frame records. *)
From S2P Require Export RustTime Bytes.
Local Open Scope string_scope.
Local Open Scope list_scope.
Local Open Scope Z_scope.

Definition NANOS_PER_SECOND : Z := 1000000000.

Module FrameRateError.
Inductive t : Type :=
| ZeroNumerator
| ZeroDenominator.
Definition to_string (e : t) : string :=
  match e with
  | ZeroNumerator => "frame-rate numerator must be non-zero"
  | ZeroDenominator => "frame-rate denominator must be non-zero"
  end.
End FrameRateError.

Module FrameRate.
Record t : Type := mk {
  numerator : Z;
  denominator : Z;
}.
#[global] Instance t_eq_dec : EqDecision t.
Proof. solve_decision. Defined.

Definition new (numerator denominator : Z) : outcome FrameRateError.t t :=
  if numerator =? 0 then Err FrameRateError.ZeroNumerator
  else if denominator =? 0 then Err FrameRateError.ZeroDenominator
  else Ok (mk numerator denominator).

Definition from_hz (frames_per_second : Z) : outcome FrameRateError.t t :=
  new frames_per_second 1.

Definition timestamp (self : t) (frame_index : Z) : panics_or Z :=
  let! scaled_seconds := chk 128 (frame_index * denominator self) in
  let rate_numerator := numerator self in
  let whole_seconds := scaled_seconds / rate_numerator in
  let fractional_units := scaled_seconds mod rate_numerator in
  match checked 64 whole_seconds with
  | None => Ok Duration.MAX
  | Some whole_seconds =>
    let! product := chk 128 (fractional_units * NANOS_PER_SECOND) in
    match checked 32 (product / rate_numerator) with
    | None => Ok Duration.MAX
    | Some nanos => Ok (whole_seconds * NANOS_PER_SECOND + nanos)
    end
  end.

Definition frame_duration (self : t) (frame_index : Z) : panics_or Z :=
  let next_index := saturating_add 64 frame_index 1 in
  let! next := timestamp self next_index in
  let! this := timestamp self frame_index in
  Ok (Duration.saturating_sub next this).

Definition frame_at_or_before (self : t) (elapsed : Z) : panics_or Z :=
  let! exclusive_nanos := chk 128 (Duration.as_nanos elapsed + 1) in
  let! product := chk 128 (exclusive_nanos * numerator self) in
  let! scaled := chk 128 (product - 1) in
  let! divisor := chk 128 (denominator self * NANOS_PER_SECOND) in
  Ok (default (u_max 64) (checked 64 (scaled / divisor))).

(** Two [NonZeroU32]. *)
Record wf (r : t) : Prop := {
  wf_numerator : 0 < numerator r < 2 ^ 32;
  wf_denominator : 0 < denominator r < 2 ^ 32;
}.
End FrameRate.

Module FrameDimensionsError.
Inductive t : Type :=
| ZeroWidth
| ZeroHeight.
Definition to_string (e : t) : string :=
  match e with
  | ZeroWidth => "frame width must be non-zero"
  | ZeroHeight => "frame height must be non-zero"
  end.
End FrameDimensionsError.

Module FrameDimensions.
Record t : Type := mk {
  width : Z;
  height : Z;
}.
#[global] Instance t_eq_dec : EqDecision t.
Proof. solve_decision. Defined.

Definition new (width height : Z) : outcome FrameDimensionsError.t t :=
  if width =? 0 then Err FrameDimensionsError.ZeroWidth
  else if height =? 0 then Err FrameDimensionsError.ZeroHeight
  else Ok (mk width height).

Definition pixel_count (self : t) : panics_or Z := chk 64 (width self * height self).

Definition wf (d : t) : Prop := 0 < width d < 2 ^ 32 /\ 0 < height d < 2 ^ 32.
End FrameDimensions.

Module VideoFormat.
Record t : Type := mk {
  dimensions : FrameDimensions.t;
  frame_rate : FrameRate.t;
}.
#[global] Instance t_eq_dec : EqDecision t.
Proof. solve_decision. Defined.
End VideoFormat.

Module FrameKind.
Inductive t : Type :=
| Key
| Delta.
#[global] Instance t_eq_dec : EqDecision t.
Proof. solve_decision. Defined.
End FrameKind.

Module FrameMetadata.
Record t : Type := mk {
  sequence : Z;
  capture_time : Z;
  presentation_time : Z;
  duration : Z;
  kind : FrameKind.t;
  format : VideoFormat.t;
}.
#[global] Instance t_eq_dec : EqDecision t.
Proof. solve_decision. Defined.
End FrameMetadata.

Module MediaFrame.
Record t : Type := mk {
  metadata : FrameMetadata.t;
  payload : list byte;
}.
#[global] Instance t_eq_dec : EqDecision t.
Proof. solve_decision. Defined.
Definition payload_len (self : t) : Z := zlen (payload self).
Definition is_empty (self : t) : bool := bool_decide (payload self = []).
Definition into_parts (self : t) : FrameMetadata.t * list byte := (metadata self, payload self).
End MediaFrame.

(** ** The timeline *)

(** The presentation time of a frame on the mathematical timeline, truncated
    to a nanosecond once. *)
Definition exact_timestamp (r : FrameRate.t) (i : Z) : Z :=
  i * FrameRate.denominator r * NANOS_PER_SECOND / FrameRate.numerator r.

(** Seconds and fraction, divided separately, are the truncation of the whole. *)
Lemma split_division s n : 0 < n ->
  s / n * NANOS_PER_SECOND + s mod n * NANOS_PER_SECOND / n = s * NANOS_PER_SECOND / n.
Proof.
  intros Hn. pose proof (Z.div_mod s n ltac:(lia)) as Hd. rewrite Hd at 3.
  replace ((n * (s / n) + s mod n) * NANOS_PER_SECOND)
    with (s mod n * NANOS_PER_SECOND + s / n * NANOS_PER_SECOND * n) by ring.
  rewrite Z.div_add by lia. lia.
Qed.

Lemma timestamp_ok r i :
  FrameRate.wf r -> in_u 64 i ->
  FrameRate.timestamp r i = Ok (Z.min (exact_timestamp r i) Duration.MAX).
Proof.
  intros [Hn Hd] Hi. unfold FrameRate.timestamp, in_u in *.
  rewrite chk_ok by (unfold in_u; nia). cbn [obind]. unfold exact_timestamp.
  set (s := i * FrameRate.denominator r) in *. set (n := FrameRate.numerator r) in *.
  assert (Hs : 0 <= s) by nia.
  pose proof (split_division s n ltac:(lia)) as Hsplit.
  pose proof (Z.mod_pos_bound s n ltac:(lia)) as Hm.
  pose proof (Z.div_pos s n Hs ltac:(lia)) as Hq.
  assert (Hf : 0 <= s mod n * NANOS_PER_SECOND / n < NANOS_PER_SECOND).
  { split; [apply Z.div_pos; unfold NANOS_PER_SECOND; lia|].
    apply Z.div_lt_upper_bound; unfold NANOS_PER_SECOND; nia. }
  rewrite <- Hsplit. unfold NANOS_PER_SECOND in *. unfold Duration.MAX.
  destruct (checked 64 (s / n)) as [w|] eqn:Hw.
  - apply checked_Some in Hw as [-> Hw]. unfold in_u in Hw.
    rewrite chk_ok by (unfold in_u; lia). cbn [obind].
    rewrite checked_in by (unfold in_u; lia). f_equal. lia.
  - apply checked_None in Hw. unfold in_u in Hw. f_equal. lia.
Qed.

Lemma exact_timestamp_mono r i j :
  FrameRate.wf r -> i <= j -> exact_timestamp r i <= exact_timestamp r j.
Proof.
  intros [Hn Hd] Hij. unfold exact_timestamp, NANOS_PER_SECOND. apply Z.div_le_mono; nia.
Qed.

Lemma exact_timestamp_nonneg r i : FrameRate.wf r -> 0 <= i -> 0 <= exact_timestamp r i.
Proof. intros [Hn Hd] Hi. unfold exact_timestamp, NANOS_PER_SECOND. apply Z.div_pos; nia. Qed.

(** The slot the inverse selects, before it is capped at 64 bits. *)
Definition exact_slot (r : FrameRate.t) (e : Z) : Z :=
  ((e + 1) * FrameRate.numerator r - 1) / (FrameRate.denominator r * NANOS_PER_SECOND).

(** Truncated division and its exclusive upper bound are adjoint. *)
Lemma exact_adjoint r i e :
  FrameRate.wf r -> exact_timestamp r i <= e <-> i <= exact_slot r e.
Proof.
  intros [Hn Hd]. unfold exact_timestamp, exact_slot.
  set (D := FrameRate.denominator r * NANOS_PER_SECOND).
  assert (HD : 0 < D) by (unfold D, NANOS_PER_SECOND; lia).
  replace (i * FrameRate.denominator r * NANOS_PER_SECOND) with (i * D) by (unfold D; ring).
  set (n := FrameRate.numerator r) in *. split; intros H.
  - apply Z.div_le_lower_bound; [lia|].
    assert (i * D / n < e + 1) as Hlt by lia. pose proof (Z.div_mod (i * D) n ltac:(lia)).
    pose proof (Z.mod_pos_bound (i * D) n ltac:(lia)). nia.
  - assert (i * D / n < e + 1); [|lia]. apply Z.div_lt_upper_bound; [lia|].
    pose proof (Z.div_mod ((e + 1) * n - 1) D ltac:(lia)).
    pose proof (Z.mod_pos_bound ((e + 1) * n - 1) D ltac:(lia)). nia.
Qed.

Lemma exact_slot_nonneg r e : FrameRate.wf r -> 0 <= e -> 0 <= exact_slot r e.
Proof.
  intros [Hn Hd] He. unfold exact_slot, NANOS_PER_SECOND. apply Z.div_pos; nia.
Qed.

Lemma frame_at_or_before_ok r e :
  FrameRate.wf r -> Duration.valid e ->
  FrameRate.frame_at_or_before r e = Ok (Z.min (exact_slot r e) (u_max 64)).
Proof.
  intros Hwf He. pose proof (exact_slot_nonneg r e Hwf (proj1 He)) as Hs.
  destruct Hwf as [Hn Hd]. unfold FrameRate.frame_at_or_before, Duration.as_nanos.
  unfold Duration.valid, Duration.MAX in He.
  rewrite chk_ok by (unfold in_u; lia). cbn [obind].
  rewrite chk_ok by (unfold in_u; nia). cbn [obind].
  rewrite chk_ok by (unfold in_u; nia). cbn [obind].
  rewrite chk_ok by (unfold in_u, NANOS_PER_SECOND; nia). cbn [obind].
  fold (exact_slot r e). f_equal. unfold u_max.
  destruct (checked 64 (exact_slot r e)) as [x|] eqn:Hx; simpl default.
  - apply checked_Some in Hx as [-> Hx]. unfold in_u in Hx. lia.
  - apply checked_None in Hx. unfold in_u in Hx. unfold u_max. lia.
Qed.

Lemma period_bounds r i :
  FrameRate.wf r -> 0 <= i ->
  exact_timestamp r 1 <= exact_timestamp r (i + 1) - exact_timestamp r i <= exact_timestamp r 1 + 1.
Proof.
  intros [Hn Hd] Hi. unfold exact_timestamp. set (n := FrameRate.numerator r) in *.
  set (D := FrameRate.denominator r * NANOS_PER_SECOND).
  replace (1 * FrameRate.denominator r * NANOS_PER_SECOND) with D by (unfold D; ring).
  replace (i * FrameRate.denominator r * NANOS_PER_SECOND) with (i * D) by (unfold D; ring).
  replace ((i + 1) * FrameRate.denominator r * NANOS_PER_SECOND) with (i * D + D) by (unfold D; ring).
  pose proof (Z.div_mod (i * D) n ltac:(lia)). pose proof (Z.mod_pos_bound (i * D) n ltac:(lia)).
  pose proof (Z.div_mod D n ltac:(lia)). pose proof (Z.mod_pos_bound D n ltac:(lia)).
  pose proof (Z.div_mod (i * D + D) n ltac:(lia)). pose proof (Z.mod_pos_bound (i * D + D) n ltac:(lia)).
  nia.
Qed.

Lemma exact_slot_timestamp r i :
  FrameRate.wf r -> FrameRate.numerator r <= FrameRate.denominator r * NANOS_PER_SECOND ->
  0 <= i -> exact_slot r (exact_timestamp r i) = i.
Proof.
  intros Hwf Hle Hi. pose proof (proj1 (exact_adjoint r i _ Hwf) (Z.le_refl _)) as H1.
  destruct (Z.le_gt_cases (exact_slot r (exact_timestamp r i)) i) as [|Hgt]; [lia|exfalso].
  assert (H2 : i + 1 <= exact_slot r (exact_timestamp r i)) by lia.
  apply exact_adjoint in H2; [|done]. pose proof (period_bounds r i Hwf Hi) as Hp.
  assert (1 <= exact_timestamp r 1); [|lia].
  unfold exact_timestamp. destruct Hwf as [Hn _]. apply Z.div_le_lower_bound; lia.
Qed.

(** ** Properties of the timeline *)

(** Timestamps carry no accumulated rounding: frame [i] is due at the
    truncation of [i * denominator / numerator] seconds, capped at the largest
    duration; they grow with the index, and until the cap every frame lasts the
    truncated nominal period or one nanosecond more. Nothing overflows 128
    bits. *)
Theorem timestamps_do_not_drift r i :
  FrameRate.wf r -> in_u 64 i ->
  FrameRate.timestamp r i = Ok (Z.min (exact_timestamp r i) Duration.MAX) /\
  (forall j, i <= j -> exact_timestamp r i <= exact_timestamp r j) /\
  (in_u 64 (i + 1) -> exact_timestamp r (i + 1) <= Duration.MAX ->
   exists d, FrameRate.frame_duration r i = Ok d /\
     exact_timestamp r 1 <= d <= exact_timestamp r 1 + 1).
Proof.
  intros Hwf Hi. split; [by apply timestamp_ok|]. split; [by intros; apply exact_timestamp_mono|].
  intros Hi1 Hmax. unfold FrameRate.frame_duration.
  rewrite saturating_add_exact by (unfold in_u in Hi1; lia).
  rewrite !timestamp_ok by done. cbn [obind]. eexists. split; [done|].
  pose proof (exact_timestamp_mono r i (i + 1) Hwf ltac:(lia)).
  pose proof (period_bounds r i Hwf (proj1 Hi)). unfold Duration.saturating_sub. lia.
Qed.

(** [frame_at_or_before] inverts the timeline: for every time short of the
    cap, frame [i] is due at or before it exactly when [i] is at most the
    selected frame; and up to one frame per nanosecond, the frame selected at
    the timestamp of [i] is [i]. *)
Theorem frame_lookup_inverts_timestamps r i e :
  FrameRate.wf r -> in_u 64 i -> Duration.valid e -> e < Duration.MAX ->
  exists n t, FrameRate.frame_at_or_before r e = Ok n /\ FrameRate.timestamp r i = Ok t /\
    (t <= e <-> i <= n) /\
    (t < Duration.MAX -> FrameRate.numerator r <= FrameRate.denominator r * NANOS_PER_SECOND ->
     FrameRate.frame_at_or_before r t = Ok i).
Proof.
  intros Hwf Hi He Hlt. exists (Z.min (exact_slot r e) (u_max 64)), (Z.min (exact_timestamp r i) Duration.MAX).
  split; [by apply frame_at_or_before_ok|]. split; [by apply timestamp_ok|]. split.
  - pose proof (exact_adjoint r i e Hwf). unfold in_u, u_max in *. lia.
  - intros Hcap Hrate. pose proof (exact_timestamp_nonneg r i Hwf (proj1 Hi)).
    rewrite Z.min_l in * by lia. rewrite frame_at_or_before_ok by (done || (split; lia)).
    rewrite exact_slot_timestamp by (done || apply Hi). unfold in_u, u_max in *. f_equal. lia.
Qed.

Module TimelineExamples.
(** 60 Hz and 30000/1001 Hz. *)
Definition hz60 : FrameRate.t := FrameRate.mk 60 1.
Definition ntsc : FrameRate.t := FrameRate.mk 30000 1001.
Lemma hz60_wf : FrameRate.wf hz60.
Proof. split; done. Qed.
Lemma ntsc_wf : FrameRate.wf ntsc.
Proof. split; done. Qed.

Lemma timestamps_do_not_drift_witness :
  FrameRate.timestamp hz60 3 = Ok 50000000 /\
  exists d, FrameRate.frame_duration hz60 2 = Ok d /\ 16666666 <= d <= 16666667.
Proof.
  split; [apply (timestamps_do_not_drift hz60 3 hz60_wf); done|].
  apply (timestamps_do_not_drift hz60 2 hz60_wf); vm_compute; (split || idtac); (done || discriminate).
Defined.

Lemma frame_lookup_inverts_timestamps_witness :
  exists n t, FrameRate.frame_at_or_before ntsc 1000000000 = Ok n /\
    FrameRate.timestamp ntsc 29 = Ok t /\ (t <= 1000000000 <-> 29 <= n).
Proof.
  destruct (frame_lookup_inverts_timestamps ntsc 29 1000000000 ntsc_wf) as (n & t & H1 & H2 & H3 & _);
    [by vm_compute|by vm_compute|reflexivity|].
  by exists n, t.
Defined.
End TimelineExamples.
