(* ===== verification/MediaScheduler.v ===== *)
(** * Frame pacing and the latest-frame scheduler

    Models [crates/ladoflow-media/src/scheduler.rs]: the absolute-deadline
    pacer, the one-frame byte-capped queue that feeds it, and the diagnostic
    counters of both. *)
From stdpp Require Import sorting.
From S2P Require Export MediaMetadata.
Local Open Scope string_scope.
Local Open Scope list_scope.
Local Open Scope Z_scope.

Module PacingTick.
Record t : Type := mk {
  index : Z;
  deadline : Z;
  skipped : Z;
}.
End PacingTick.

Module PaceDecision.
Inductive t : Type :=
| Due (tick : PacingTick.t)
| WaitUntil (deadline : Z)
| Exhausted.
End PaceDecision.

Module FramePacer.
Record t : Type := mk {
  frame_rate : FrameRate.t;
  origin : Z;
  next_tick : option Z;
}.

Definition new (frame_rate : FrameRate.t) (origin : Z) : t := mk frame_rate origin (Some 0).

Definition deadline (self : t) (tick : Z) : panics_or Z :=
  let! ts := FrameRate.timestamp (frame_rate self) tick in
  Ok (Duration.saturating_add (origin self) ts).

Definition next_deadline (self : t) : panics_or (option Z) :=
  match next_tick self with
  | None => Ok None
  | Some tick => let! d := deadline self tick in Ok (Some d)
  end.

Definition poll (self : t) (now : Z) : t * panics_or PaceDecision.t :=
  match next_tick self with
  | None => (self, Ok PaceDecision.Exhausted)
  | Some next_tick =>
    let? next_deadline := deadline self next_tick keeping self in
    if now <? next_deadline then (self, Ok (PaceDecision.WaitUntil next_deadline)) else
    let elapsed := Duration.saturating_sub now (origin self) in
    let? at_or_before := FrameRate.frame_at_or_before (frame_rate self) elapsed keeping self in
    let due_tick := Z.max at_or_before next_tick in
    let? due_deadline := deadline self due_tick keeping self in
    let? skipped := chk 64 (due_tick - next_tick) keeping self in
    (mk (frame_rate self) (origin self) (checked 64 (due_tick + 1)),
     Ok (PaceDecision.Due (PacingTick.mk due_tick due_deadline skipped)))
  end.

Record wf (p : t) : Prop := {
  wf_rate : FrameRate.wf (frame_rate p);
  wf_origin : Duration.valid (origin p);
  wf_next : forall n, next_tick p = Some n -> in_u 64 n;
}.
End FramePacer.

Module SchedulerConfigError.
Inductive t : Type :=
| ZeroFrameByteLimit.
Definition to_string (e : t) : string :=
  match e with
  | ZeroFrameByteLimit => "scheduler frame-byte limit must be non-zero"
  end.
End SchedulerConfigError.

Module SchedulerConfig.
Record t : Type := mk {
  frame_rate : FrameRate.t;
  max_frame_age : Z;
  max_frame_bytes : Z;
}.

Definition new (frame_rate : FrameRate.t) (max_frame_age max_frame_bytes : Z)
  : outcome SchedulerConfigError.t t :=
  if max_frame_bytes =? 0 then Err SchedulerConfigError.ZeroFrameByteLimit
  else Ok (mk frame_rate max_frame_age max_frame_bytes).
End SchedulerConfig.

Module SubmitOutcome.
Inductive t : Type :=
| Queued
| Replaced (dropped_sequence : Z)
| DroppedStale (sequence : Z)
| DroppedSuperseded (sequence kept_sequence : Z)
| DroppedOversized (sequence payload_bytes limit : Z).
End SubmitOutcome.

Module IdleReason.
Inductive t : Type :=
| QueueEmpty
| FrameNotDue.
End IdleReason.

Module ScheduledFrame.
Record t : Type := mk {
  frame : MediaFrame.t;
  pacing_tick : PacingTick.t;
  queue_time : Z;
  pacing_lateness : Z;
  frame_latency : Z;
}.
End ScheduledFrame.

Module PollOutcome.
Inductive t : Type :=
| Ready (frame : ScheduledFrame.t)
| WaitingUntil (deadline : Z)
| Idle (tick : PacingTick.t) (reason : IdleReason.t)
| DroppedStale (sequence : Z) (tick : PacingTick.t)
| Exhausted.
End PollOutcome.

(** [nanos / 1e9] seconds and the rest; the largest duration when the seconds
    do not fit. *)
Definition duration_from_nanos (nanos : Z) : panics_or Z :=
  match checked 64 (nanos / NANOS_PER_SECOND) with
  | None => Ok Duration.MAX
  | Some seconds =>
    let! subsecond_nanos := expect (checked 32 (nanos mod NANOS_PER_SECOND)) in
    Ok (seconds * NANOS_PER_SECOND + subsecond_nanos)
  end.

Definition duration_average (total samples : Z) : panics_or (option Z) :=
  if samples =? 0 then Ok None
  else let! d := duration_from_nanos (Duration.as_nanos total / samples) in Ok (Some d).

Module SchedulerMetrics.
Record t : Type := mk {
  submitted_frames : Z;
  presented_frames : Z;
  dropped_stale_frames : Z;
  dropped_superseded_frames : Z;
  dropped_oversized_frames : Z;
  pacing_ticks : Z;
  skipped_pacing_ticks : Z;
  idle_pacing_ticks : Z;
  total_queue_time : Z;
  max_queue_time : Z;
  total_pacing_lateness : Z;
  max_pacing_lateness : Z;
  total_frame_latency : Z;
  max_frame_latency : Z;
}.

Definition zero : t := mk 0 0 0 0 0 0 0 0 0 0 0 0 0 0.

Definition dropped_frames (self : t) : Z :=
  saturating_add 64
    (saturating_add 64 (dropped_stale_frames self) (dropped_superseded_frames self))
    (dropped_oversized_frames self).

Definition average_queue_time (self : t) : panics_or (option Z) :=
  duration_average (total_queue_time self) (presented_frames self).
Definition average_pacing_lateness (self : t) : panics_or (option Z) :=
  duration_average (total_pacing_lateness self) (presented_frames self).
Definition average_frame_latency (self : t) : panics_or (option Z) :=
  duration_average (total_frame_latency self) (presented_frames self).

(** The updates of single counters. *)
Definition count_submitted (m : t) : t :=
  mk (saturating_add 64 (submitted_frames m) 1) (presented_frames m) (dropped_stale_frames m)
    (dropped_superseded_frames m) (dropped_oversized_frames m) (pacing_ticks m)
    (skipped_pacing_ticks m) (idle_pacing_ticks m) (total_queue_time m) (max_queue_time m)
    (total_pacing_lateness m) (max_pacing_lateness m) (total_frame_latency m) (max_frame_latency m).
Definition count_stale (m : t) : t :=
  mk (submitted_frames m) (presented_frames m) (saturating_add 64 (dropped_stale_frames m) 1)
    (dropped_superseded_frames m) (dropped_oversized_frames m) (pacing_ticks m)
    (skipped_pacing_ticks m) (idle_pacing_ticks m) (total_queue_time m) (max_queue_time m)
    (total_pacing_lateness m) (max_pacing_lateness m) (total_frame_latency m) (max_frame_latency m).
Definition count_superseded (m : t) : t :=
  mk (submitted_frames m) (presented_frames m) (dropped_stale_frames m)
    (saturating_add 64 (dropped_superseded_frames m) 1) (dropped_oversized_frames m) (pacing_ticks m)
    (skipped_pacing_ticks m) (idle_pacing_ticks m) (total_queue_time m) (max_queue_time m)
    (total_pacing_lateness m) (max_pacing_lateness m) (total_frame_latency m) (max_frame_latency m).
Definition count_oversized (m : t) : t :=
  mk (submitted_frames m) (presented_frames m) (dropped_stale_frames m)
    (dropped_superseded_frames m) (saturating_add 64 (dropped_oversized_frames m) 1) (pacing_ticks m)
    (skipped_pacing_ticks m) (idle_pacing_ticks m) (total_queue_time m) (max_queue_time m)
    (total_pacing_lateness m) (max_pacing_lateness m) (total_frame_latency m) (max_frame_latency m).

Definition record_pacing_tick (m : t) (tick : PacingTick.t) : t :=
  mk (submitted_frames m) (presented_frames m) (dropped_stale_frames m)
    (dropped_superseded_frames m) (dropped_oversized_frames m)
    (saturating_add 64 (pacing_ticks m) 1)
    (saturating_add 64 (skipped_pacing_ticks m) (PacingTick.skipped tick))
    (idle_pacing_ticks m) (total_queue_time m) (max_queue_time m)
    (total_pacing_lateness m) (max_pacing_lateness m) (total_frame_latency m) (max_frame_latency m).

Definition record_idle_tick (m : t) : t :=
  mk (submitted_frames m) (presented_frames m) (dropped_stale_frames m)
    (dropped_superseded_frames m) (dropped_oversized_frames m) (pacing_ticks m)
    (skipped_pacing_ticks m) (saturating_add 64 (idle_pacing_ticks m) 1)
    (total_queue_time m) (max_queue_time m)
    (total_pacing_lateness m) (max_pacing_lateness m) (total_frame_latency m) (max_frame_latency m).

Definition record_presented (m : t) (queue_time pacing_lateness frame_latency : Z) : t :=
  mk (submitted_frames m) (saturating_add 64 (presented_frames m) 1) (dropped_stale_frames m)
    (dropped_superseded_frames m) (dropped_oversized_frames m) (pacing_ticks m)
    (skipped_pacing_ticks m) (idle_pacing_ticks m)
    (Duration.saturating_add (total_queue_time m) queue_time)
    (Z.max (max_queue_time m) queue_time)
    (Duration.saturating_add (total_pacing_lateness m) pacing_lateness)
    (Z.max (max_pacing_lateness m) pacing_lateness)
    (Duration.saturating_add (total_frame_latency m) frame_latency)
    (Z.max (max_frame_latency m) frame_latency).
End SchedulerMetrics.

Module PendingFrame.
Record t : Type := mk {
  frame : MediaFrame.t;
  enqueued_at : Z;
}.
End PendingFrame.

(** The order of [(presentation_time, sequence)]. *)
Definition frame_order_le (a b : FrameMetadata.t) : bool :=
  (FrameMetadata.presentation_time a <? FrameMetadata.presentation_time b) ||
  ((FrameMetadata.presentation_time a =? FrameMetadata.presentation_time b) &&
   (FrameMetadata.sequence a <=? FrameMetadata.sequence b)).

Module LatestFrameScheduler.
Record t : Type := mk {
  config : SchedulerConfig.t;
  stream_origin : Z;
  pacer : FramePacer.t;
  pending : option PendingFrame.t;
  metrics : SchedulerMetrics.t;
}.

Definition new (config : SchedulerConfig.t) (stream_origin : Z) : t :=
  mk config stream_origin (FramePacer.new (SchedulerConfig.frame_rate config) stream_origin)
    None SchedulerMetrics.zero.

Definition has_pending_frame (self : t) : bool :=
  match pending self with
  | Some _ => true
  | None => false
  end.

Definition pending_sequence (self : t) : option Z :=
  match pending self with
  | Some p => Some (FrameMetadata.sequence (MediaFrame.metadata (PendingFrame.frame p)))
  | None => None
  end.

Definition set_metrics (self : t) (m : SchedulerMetrics.t) : t :=
  mk (config self) (stream_origin self) (pacer self) (pending self) m.
Definition set_pending (self : t) (p : option PendingFrame.t) : t :=
  mk (config self) (stream_origin self) (pacer self) p (metrics self).
Definition set_pacer (self : t) (p : FramePacer.t) : t :=
  mk (config self) (stream_origin self) p (pending self) (metrics self).

Definition take_metrics (self : t) : t * SchedulerMetrics.t :=
  (set_metrics self SchedulerMetrics.zero, metrics self).

Definition absolute_time (self : t) (stream_time : Z) : Z :=
  Duration.saturating_add (stream_origin self) stream_time.

Definition is_stale (self : t) (metadata : FrameMetadata.t) (now : Z) : bool :=
  let stale_after := Duration.saturating_add
    (absolute_time self (FrameMetadata.presentation_time metadata))
    (SchedulerConfig.max_frame_age (config self)) in
  now >? stale_after.

Definition submit (self : t) (frame : MediaFrame.t) (now : Z) : t * SubmitOutcome.t :=
  let self := set_metrics self (SchedulerMetrics.count_submitted (metrics self)) in
  let metadata := MediaFrame.metadata frame in
  let sequence := FrameMetadata.sequence metadata in
  let payload_bytes := MediaFrame.payload_len frame in
  if payload_bytes >? SchedulerConfig.max_frame_bytes (config self)
  then (set_metrics self (SchedulerMetrics.count_oversized (metrics self)),
        SubmitOutcome.DroppedOversized sequence payload_bytes
          (SchedulerConfig.max_frame_bytes (config self)))
  else if is_stale self metadata now
  then (set_metrics self (SchedulerMetrics.count_stale (metrics self)),
        SubmitOutcome.DroppedStale sequence)
  else
    let entry := PendingFrame.mk frame now in
    match pending self with
    | None => (set_pending self (Some entry), SubmitOutcome.Queued)
    | Some old =>
      let kept_metadata := MediaFrame.metadata (PendingFrame.frame old) in
      if frame_order_le metadata kept_metadata
      then (set_metrics self (SchedulerMetrics.count_superseded (metrics self)),
            SubmitOutcome.DroppedSuperseded sequence (FrameMetadata.sequence kept_metadata))
      else
        let self := set_pending self (Some entry) in
        (set_metrics self (SchedulerMetrics.count_superseded (metrics self)),
         SubmitOutcome.Replaced (FrameMetadata.sequence kept_metadata))
    end.

(** What [poll] does with a due slot. *)
Definition dispatch (self : t) (tick : PacingTick.t) (now : Z) : t * PollOutcome.t :=
  let self := set_metrics self (SchedulerMetrics.record_pacing_tick (metrics self) tick) in
  match pending self with
  | None =>
      (set_metrics self (SchedulerMetrics.record_idle_tick (metrics self)),
       PollOutcome.Idle tick IdleReason.QueueEmpty)
  | Some entry =>
    let self := set_pending self None in
    let metadata := MediaFrame.metadata (PendingFrame.frame entry) in
    if is_stale self metadata now then
      (set_metrics self (SchedulerMetrics.record_idle_tick
         (SchedulerMetrics.count_stale (metrics self))),
       PollOutcome.DroppedStale (FrameMetadata.sequence metadata) tick)
    else
      let presentation_target :=
        absolute_time self (FrameMetadata.presentation_time metadata) in
      if now <? presentation_target then
        let self := set_pending self (Some entry) in
        (set_metrics self (SchedulerMetrics.record_idle_tick (metrics self)),
         PollOutcome.Idle tick IdleReason.FrameNotDue)
      else
        let queue_time := Duration.saturating_sub now (PendingFrame.enqueued_at entry) in
        let pacing_lateness := Duration.saturating_sub now (PacingTick.deadline tick) in
        let capture_time := absolute_time self (FrameMetadata.capture_time metadata) in
        let frame_latency := Duration.saturating_sub now capture_time in
        (set_metrics self (SchedulerMetrics.record_presented (metrics self)
           queue_time pacing_lateness frame_latency),
         PollOutcome.Ready (ScheduledFrame.mk (PendingFrame.frame entry) tick
           queue_time pacing_lateness frame_latency))
  end.

Definition poll (self : t) (now : Z) : t * panics_or PollOutcome.t :=
  let (pacer, decision) := FramePacer.poll (pacer self) now in
  let self := set_pacer self pacer in
  let? decision := decision keeping self in
  match decision with
  | PaceDecision.Due tick => let (self, out) := dispatch self tick now in (self, Ok out)
  | PaceDecision.WaitUntil deadline => (self, Ok (PollOutcome.WaitingUntil deadline))
  | PaceDecision.Exhausted => (self, Ok PollOutcome.Exhausted)
  end.
End LatestFrameScheduler.

(** ** The pacer *)

(** The absolute deadline of a slot. *)
Definition slot_deadline (p : FramePacer.t) (i : Z) : Z :=
  Z.min (FramePacer.origin p + exact_timestamp (FramePacer.frame_rate p) i) Duration.MAX.

Lemma deadline_ok p i :
  FramePacer.wf p -> in_u 64 i -> FramePacer.deadline p i = Ok (slot_deadline p i).
Proof.
  intros [Hr Ho _] Hi. unfold FramePacer.deadline. rewrite timestamp_ok by done. cbn [obind].
  unfold slot_deadline, Duration.saturating_add, Duration.valid in *. f_equal. lia.
Qed.

(** [poll] on every branch. *)
Lemma pacer_poll_spec p now :
  FramePacer.wf p -> Duration.valid now ->
  match FramePacer.next_tick p with
  | None => FramePacer.poll p now = (p, Ok PaceDecision.Exhausted)
  | Some n =>
      (now < slot_deadline p n /\
       FramePacer.poll p now = (p, Ok (PaceDecision.WaitUntil (slot_deadline p n)))) \/
      (exists i, n <= i /\ in_u 64 i /\ slot_deadline p i <= now /\
         (now < Duration.MAX -> forall j, in_u 64 j -> i < j -> now < slot_deadline p j) /\
         FramePacer.poll p now =
           (FramePacer.mk (FramePacer.frame_rate p) (FramePacer.origin p) (checked 64 (i + 1)),
            Ok (PaceDecision.Due (PacingTick.mk i (slot_deadline p i) (i - n)))))
  end.
Proof.
  intros Hwf Hnow. unfold FramePacer.poll.
  destruct (FramePacer.next_tick p) as [n|] eqn:Hn; [|done].
  pose proof (FramePacer.wf_next p Hwf n Hn) as Hnu.
  rewrite deadline_ok by done. cbn [otry].
  destruct (Z.ltb_spec now (slot_deadline p n)) as [|Hge]; [by left|]. right.
  pose proof Hwf as [Hr Ho _]. unfold Duration.valid in *.
  set (e := Duration.saturating_sub now (FramePacer.origin p)).
  assert (He : Duration.valid e) by (unfold e, Duration.valid, Duration.saturating_sub; lia).
  rewrite frame_at_or_before_ok by done. cbn [otry].
  pose proof (exact_slot_nonneg (FramePacer.frame_rate p) e Hr (proj1 He)).
  set (i := Z.max (Z.min (exact_slot (FramePacer.frame_rate p) e) (u_max 64)) n).
  unfold in_u, u_max in *.
  assert (Hi : in_u 64 i) by (unfold in_u, i; lia).
  rewrite deadline_ok by done. cbn [otry]. rewrite chk_ok by (unfold in_u, i in *; lia). cbn [otry].
  exists i. split; [unfold i; lia|]. split; [done|].
  assert (Hadj : forall j, exact_timestamp (FramePacer.frame_rate p) j <= e <->
    j <= exact_slot (FramePacer.frame_rate p) e) by (intros j; by apply exact_adjoint).
  pose proof (exact_timestamp_nonneg (FramePacer.frame_rate p) n Hr (proj1 Hnu)).
  unfold slot_deadline in *.
  assert (Hee : e = Z.max (now - FramePacer.origin p) 0) by done. clearbody e.
  split; [|split; [|done]].
  - destruct (Z.le_gt_cases (Z.min (exact_slot (FramePacer.frame_rate p) e) (2 ^ 64 - 1)) n).
    + unfold i. by rewrite Z.max_r.
    + pose proof (proj2 (Hadj i) ltac:(unfold i; lia)). unfold i in *. lia.
  - intros Hlt j Hj Hij. pose proof (Hadj j). unfold i in *. lia.
Qed.

Lemma pacer_poll_wf p now :
  FramePacer.wf p -> Duration.valid now -> FramePacer.wf (fst (FramePacer.poll p now)).
Proof.
  intros Hwf Hnow. pose proof (pacer_poll_spec p now Hwf Hnow) as H.
  destruct (FramePacer.next_tick p) as [n|] eqn:Hn; [|by rewrite H].
  destruct H as [[_ ->]|(i & _ & _ & _ & _ & ->)]; [done|].
  destruct Hwf as [Hr Ho _]. split; simpl; [done..|]. intros m Hm. by apply checked_Some in Hm as [-> ?].
Qed.

(** Poll at each of a list of times and collect the slots that were due. *)
Fixpoint poll_all (p : FramePacer.t) (nows : list Z) : FramePacer.t * list PacingTick.t :=
  match nows with
  | [] => (p, [])
  | now :: nows =>
    let (p, d) := FramePacer.poll p now in
    let (p, ticks) := poll_all p nows in
    (p, match d with
        | Ok (PaceDecision.Due tick) => tick :: ticks
        | _ => ticks
        end)
  end.

(** The slots that a list of ticks issues or reports skipped. *)
Definition slots (ticks : list PacingTick.t) : Z :=
  foldr (fun t acc => PacingTick.skipped t + 1 + acc) 0 ticks.

Lemma poll_all_accounts nows p n :
  FramePacer.wf p -> Forall Duration.valid nows -> FramePacer.next_tick p = Some n ->
  let (p', ticks) := poll_all p nows in
  (match FramePacer.next_tick p' with
   | Some m => m = n + slots ticks
   | None => 2 ^ 64 = n + slots ticks
   end) /\ Forall (fun t => n <= PacingTick.index t) ticks /\
  StronglySorted (fun a b => PacingTick.index a < PacingTick.index b) ticks.
Proof.
  revert p n. induction nows as [|now nows IH]; intros p n Hwf Hnows Hn; cbn [poll_all].
  { rewrite Hn. unfold slots. simpl. split; [lia|]. split; constructor. }
  apply Forall_cons in Hnows as [Hnow Hnows].
  pose proof (pacer_poll_spec p now Hwf Hnow) as Hspec. pose proof (pacer_poll_wf p now Hwf Hnow) as Hwf1.
  rewrite Hn in Hspec. destruct Hspec as [[_ E]|(i & Hni & Hi & _ & _ & E)]; rewrite E in *.
  - specialize (IH p n Hwf Hnows Hn). by destruct (poll_all p nows).
  - cbn [fst] in Hwf1. destruct (checked 64 (i + 1)) as [m|] eqn:Hc.
    + apply checked_Some in Hc as [-> Hc]. specialize (IH _ (i + 1) Hwf1 Hnows eq_refl).
      destruct (poll_all _ nows) as [p' ticks]. destruct IH as (H1 & H2 & H3).
      unfold slots. cbn [foldr PacingTick.skipped]. fold (slots ticks).
      split; [destruct (FramePacer.next_tick p'); lia|]. split.
      * constructor; [simpl; lia|]. eapply Forall_impl; [exact H2|]. simpl. lia.
      * constructor; [done|]. eapply Forall_impl; [exact H2|]. simpl. lia.
    + apply checked_None in Hc. unfold in_u in *.
      assert (Hnone : forall q ns, FramePacer.next_tick q = None -> poll_all q ns = (q, [])).
      { intros q ns Hq. induction ns as [|x ns IHn]; [done|]. cbn [poll_all].
        unfold FramePacer.poll. by rewrite Hq, IHn. }
      rewrite Hnone by done. cbn. unfold slots. simpl. split; [lia|].
      split; repeat constructor. simpl. lia.
Qed.

(** ** Submission and dispatch *)

(** Every scheduler state that the operations build: its queued frame passed
    the byte ceiling, and its pacer is well formed. *)
Record scheduler_wf (s : LatestFrameScheduler.t) : Prop := {
  sched_pacer : FramePacer.wf (LatestFrameScheduler.pacer s);
  sched_pending : forall e, LatestFrameScheduler.pending s = Some e ->
    MediaFrame.payload_len (PendingFrame.frame e) <=
    SchedulerConfig.max_frame_bytes (LatestFrameScheduler.config s);
}.

Lemma submit_wf s f now : scheduler_wf s -> scheduler_wf (fst (LatestFrameScheduler.submit s f now)).
Proof.
  intros [Hp He]. unfold LatestFrameScheduler.submit. rewrite Z.gtb_ltb.
  destruct (Z.ltb_spec (SchedulerConfig.max_frame_bytes (LatestFrameScheduler.config
    (LatestFrameScheduler.set_metrics s
      (SchedulerMetrics.count_submitted (LatestFrameScheduler.metrics s))))) (MediaFrame.payload_len f));
    simpl in *; [by split|].
  destruct (LatestFrameScheduler.is_stale _ _ _); [by split|].
  destruct (LatestFrameScheduler.pending s) as [old|] eqn:Hold.
  - destruct (frame_order_le _ _); split; simpl; try done; [..|by intros e [= <-]]; by rewrite Hold.
  - split; simpl; [done|]. by intros e [= <-].
Qed.

Lemma dispatch_wf s tick now :
  scheduler_wf s -> scheduler_wf (fst (LatestFrameScheduler.dispatch s tick now)).
Proof.
  intros [Hp He]. unfold LatestFrameScheduler.dispatch. simpl.
  destruct (LatestFrameScheduler.pending s) as [old|] eqn:Hold; [|split; simpl; [done|by rewrite Hold]].
  destruct (LatestFrameScheduler.is_stale _ _ _); [by split|].
  destruct (now <? _); by split.
Qed.

Lemma poll_wf s now :
  scheduler_wf s -> Duration.valid now -> scheduler_wf (fst (LatestFrameScheduler.poll s now)).
Proof.
  intros [Hp He] Hnow. unfold LatestFrameScheduler.poll.
  pose proof (pacer_poll_wf _ now Hp Hnow) as Hp1.
  destruct (FramePacer.poll (LatestFrameScheduler.pacer s) now) as [p d]. cbn [fst] in Hp1.
  assert (Hs : scheduler_wf (LatestFrameScheduler.set_pacer s p)) by by split.
  destruct d as [[tick|dl|]|x|f]; cbn [otry]; try done.
  pose proof (dispatch_wf _ tick now Hs). by destruct (LatestFrameScheduler.dispatch _ tick now).
Qed.

Lemma returns_poll s now :
  scheduler_wf s -> Duration.valid now -> returns (snd (LatestFrameScheduler.poll s now)).
Proof.
  intros [Hp He] Hnow. unfold LatestFrameScheduler.poll.
  pose proof (pacer_poll_spec _ now Hp Hnow) as Hspec.
  destruct (FramePacer.next_tick (LatestFrameScheduler.pacer s)) as [n|]; [|by rewrite Hspec].
  destruct Hspec as [[_ ->]|(i & _ & _ & _ & _ & ->)]; [done|]. cbn [otry].
  by destruct (LatestFrameScheduler.dispatch _ _ now).
Qed.

(** ** The ledger of frames and ticks *)
Module SchedulerOp.
Inductive t : Type :=
| Submit (frame : MediaFrame.t) (now : Z)
| Poll (now : Z).
Definition time (o : t) : Z :=
  match o with
  | Submit _ now => now
  | Poll now => now
  end.
Definition typed (o : t) : Prop := Duration.valid (time o).
Definition is_submit (o : t) : bool :=
  match o with
  | Submit _ _ => true
  | Poll _ => false
  end.
End SchedulerOp.

Definition exec1 (s : LatestFrameScheduler.t) (o : SchedulerOp.t) : LatestFrameScheduler.t :=
  match o with
  | SchedulerOp.Submit f now => fst (LatestFrameScheduler.submit s f now)
  | SchedulerOp.Poll now => fst (LatestFrameScheduler.poll s now)
  end.

Definition exec (os : list SchedulerOp.t) (s : LatestFrameScheduler.t) : LatestFrameScheduler.t :=
  foldl exec1 s os.

Definition queued (s : LatestFrameScheduler.t) : Z :=
  if LatestFrameScheduler.has_pending_frame s then 1 else 0.

(** A running total of [n] values, none above [mx]. *)
Definition averaged (n total mx : Z) : Prop := 0 <= mx /\ 0 <= total <= n * mx /\ total <= Duration.MAX.

(** After [k] operations without a reset. *)
Record ledger (k : Z) (s : LatestFrameScheduler.t) : Prop := {
  ledger_frames :
    let m := LatestFrameScheduler.metrics s in
    SchedulerMetrics.submitted_frames m =
      SchedulerMetrics.presented_frames m + SchedulerMetrics.dropped_stale_frames m +
      SchedulerMetrics.dropped_superseded_frames m + SchedulerMetrics.dropped_oversized_frames m +
      queued s;
  ledger_ticks :
    let m := LatestFrameScheduler.metrics s in
    SchedulerMetrics.pacing_ticks m =
      SchedulerMetrics.presented_frames m + SchedulerMetrics.idle_pacing_ticks m;
  ledger_bounds :
    let m := LatestFrameScheduler.metrics s in
    SchedulerMetrics.submitted_frames m <= k /\ SchedulerMetrics.pacing_ticks m <= k /\
    0 <= SchedulerMetrics.presented_frames m /\ 0 <= SchedulerMetrics.dropped_stale_frames m /\
    0 <= SchedulerMetrics.dropped_superseded_frames m /\
    0 <= SchedulerMetrics.dropped_oversized_frames m /\ 0 <= SchedulerMetrics.idle_pacing_ticks m;
  ledger_times :
    let m := LatestFrameScheduler.metrics s in
    averaged (SchedulerMetrics.presented_frames m) (SchedulerMetrics.total_queue_time m)
      (SchedulerMetrics.max_queue_time m) /\
    averaged (SchedulerMetrics.presented_frames m) (SchedulerMetrics.total_pacing_lateness m)
      (SchedulerMetrics.max_pacing_lateness m) /\
    averaged (SchedulerMetrics.presented_frames m) (SchedulerMetrics.total_frame_latency m)
      (SchedulerMetrics.max_frame_latency m);
}.

Lemma averaged_add n total mx v :
  0 <= n -> 0 <= v -> averaged n total mx ->
  averaged (n + 1) (Duration.saturating_add total v) (Z.max mx v).
Proof. unfold averaged, Duration.saturating_add, Duration.MAX. intros. nia. Qed.

(** The counters that one operation moves, as integers. *)
Ltac ledger_step :=
  unfold queued, LatestFrameScheduler.has_pending_frame in *;
  cbn [fst snd LatestFrameScheduler.set_metrics LatestFrameScheduler.set_pending
    LatestFrameScheduler.set_pacer LatestFrameScheduler.metrics LatestFrameScheduler.pending
    SchedulerMetrics.count_submitted SchedulerMetrics.count_stale SchedulerMetrics.count_superseded
    SchedulerMetrics.count_oversized SchedulerMetrics.record_pacing_tick
    SchedulerMetrics.record_idle_tick SchedulerMetrics.record_presented
    SchedulerMetrics.submitted_frames SchedulerMetrics.presented_frames
    SchedulerMetrics.dropped_stale_frames SchedulerMetrics.dropped_superseded_frames
    SchedulerMetrics.dropped_oversized_frames SchedulerMetrics.pacing_ticks
    SchedulerMetrics.idle_pacing_ticks SchedulerMetrics.total_queue_time
    SchedulerMetrics.max_queue_time SchedulerMetrics.total_pacing_lateness
    SchedulerMetrics.max_pacing_lateness SchedulerMetrics.total_frame_latency
    SchedulerMetrics.max_frame_latency] in *;
  try match goal with H : LatestFrameScheduler.pending _ = _ |- _ => rewrite ?H in * end;
  unfold saturating_add, u_max in *.

Lemma submit_ledger k s f now :
  0 <= k < 2 ^ 64 - 1 -> ledger k s -> ledger (k + 1) (fst (LatestFrameScheduler.submit s f now)).
Proof.
  intros Hk [Hf Ht Hb Hd]. cbv zeta in *. unfold LatestFrameScheduler.submit. cbv zeta.
  change (LatestFrameScheduler.pending (LatestFrameScheduler.set_metrics s _))
    with (LatestFrameScheduler.pending s).
  destruct (LatestFrameScheduler.pending s) as [old|] eqn:Hold;
    (destruct (_ >? _); [|destruct (LatestFrameScheduler.is_stale _ _ _)]);
    try destruct (frame_order_le _ _);
    ledger_step; split; ledger_step; (done || lia).
Qed.

Lemma dispatch_ledger k s tick now :
  0 <= k < 2 ^ 64 - 1 -> ledger k s -> ledger (k + 1) (fst (LatestFrameScheduler.dispatch s tick now)).
Proof.
  intros Hk [Hf Ht Hb Hd]. cbv zeta in *. unfold LatestFrameScheduler.dispatch. cbv zeta.
  change (LatestFrameScheduler.pending (LatestFrameScheduler.set_metrics s _))
    with (LatestFrameScheduler.pending s).
  destruct (LatestFrameScheduler.pending s) as [old|] eqn:Hold;
    [destruct (LatestFrameScheduler.is_stale _ _ _); [|destruct (now <? _)]|];
    ledger_step; split; ledger_step; try (done || lia).
  rewrite Z.min_l by lia.
  destruct Hd as (H1 & H2 & H3). unfold Duration.saturating_sub.
  split_and!; apply averaged_add; (done || lia).
Qed.

Lemma ledger_weaken k s : ledger k s -> ledger (k + 1) s.
Proof. intros [Hf Ht Hb Hd]. split; try done. cbv zeta in *. lia. Qed.

Lemma poll_ledger k s now :
  0 <= k < 2 ^ 64 - 1 -> ledger k s -> ledger (k + 1) (fst (LatestFrameScheduler.poll s now)).
Proof.
  intros Hk Hl. unfold LatestFrameScheduler.poll.
  destruct (FramePacer.poll (LatestFrameScheduler.pacer s) now) as [p d].
  assert (Hs : ledger k (LatestFrameScheduler.set_pacer s p)) by by destruct Hl.
  destruct d as [[tick|dl|]|x|f]; cbn [otry fst]; try by apply ledger_weaken.
  pose proof (dispatch_ledger k _ tick now Hk Hs).
  by destruct (LatestFrameScheduler.dispatch _ tick now).
Qed.

Lemma exec_ledger os k s :
  0 <= k -> k + zlen os < 2 ^ 64 -> ledger k s -> ledger (k + zlen os) (exec os s).
Proof.
  unfold exec. revert k s. induction os as [|o os IH]; intros k s Hk Hlen Hl; cbn [foldl length] in *.
  { by replace (k + Z.of_nat 0) with k by lia. }
  replace (k + Z.of_nat (S (length os))) with (k + 1 + zlen os) by lia.
  apply IH; [lia|lia|]. destruct o; [apply submit_ledger|apply poll_ledger]; (done || lia).
Qed.

Lemma exec_wf os s :
  Forall SchedulerOp.typed os -> scheduler_wf s -> scheduler_wf (exec os s).
Proof.
  unfold exec. intros Hos. revert s. induction Hos as [|o os Ho _ IH]; intros s Hs; [done|].
  cbn [foldl]. apply IH. destruct o; [by apply submit_wf|by apply poll_wf].
Qed.

Lemma new_scheduler_wf c origin :
  FrameRate.wf (SchedulerConfig.frame_rate c) -> Duration.valid origin ->
  scheduler_wf (LatestFrameScheduler.new c origin).
Proof. intros Hr Ho. split; simpl; [|done]. split; simpl; [done..|]. by intros n [= <-]. Qed.

Lemma new_ledger c origin : ledger 0 (LatestFrameScheduler.new c origin).
Proof. split; vm_compute; split_and?; (done || discriminate || idtac); split_and?; (done || discriminate). Qed.

(** ** What is observed of the frames

    A run with what its calls answer. *)
Inductive SchedulerEvent : Type :=
| Submitted (frame : MediaFrame.t) (out : SubmitOutcome.t)
| Polled (out : panics_or PollOutcome.t).

Definition observe1 (s : LatestFrameScheduler.t) (o : SchedulerOp.t) : LatestFrameScheduler.t * SchedulerEvent :=
  match o with
  | SchedulerOp.Submit frame now =>
      let (s, out) := LatestFrameScheduler.submit s frame now in (s, Submitted frame out)
  | SchedulerOp.Poll now => let (s, out) := LatestFrameScheduler.poll s now in (s, Polled out)
  end.
Fixpoint observe (os : list SchedulerOp.t) (s : LatestFrameScheduler.t)
  : LatestFrameScheduler.t * list SchedulerEvent :=
  match os with
  | [] => (s, [])
  | o :: os =>
    let (s, e) := observe1 s o in
    let (s, es) := observe os s in (s, e :: es)
  end.

Definition sequence_of (f : MediaFrame.t) : Z := FrameMetadata.sequence (MediaFrame.metadata f).

(** The frame an operation hands over, the frame an answer hands on, and the
    sequence number of the frame it reports as dropped. *)
Definition given (o : SchedulerOp.t) : list MediaFrame.t :=
  match o with SchedulerOp.Submit frame _ => [frame] | _ => [] end.
Definition handed_on (e : SchedulerEvent) : list MediaFrame.t :=
  match e with Polled (Ok (PollOutcome.Ready f)) => [ScheduledFrame.frame f] | _ => [] end.
Definition reported (e : SchedulerEvent) : list Z :=
  match e with
  | Submitted _ (SubmitOutcome.Replaced n) | Submitted _ (SubmitOutcome.DroppedStale n)
  | Submitted _ (SubmitOutcome.DroppedSuperseded n _) | Submitted _ (SubmitOutcome.DroppedOversized n _ _)
  | Polled (Ok (PollOutcome.DroppedStale n _)) => [n]
  | _ => []
  end.
Definition waiting (s : LatestFrameScheduler.t) : list MediaFrame.t :=
  match LatestFrameScheduler.pending s with Some p => [PendingFrame.frame p] | None => [] end.

(** The answers that each counter counts. *)
Definition is_submitted (e : SchedulerEvent) : bool := if e is Submitted _ _ then true else false.
Definition is_presented (e : SchedulerEvent) : bool := if e is Polled (Ok (PollOutcome.Ready _)) then true else false.
Definition is_stale_report (e : SchedulerEvent) : bool :=
  match e with
  | Submitted _ (SubmitOutcome.DroppedStale _) | Polled (Ok (PollOutcome.DroppedStale _ _)) => true
  | _ => false
  end.
Definition is_superseded (e : SchedulerEvent) : bool :=
  match e with
  | Submitted _ (SubmitOutcome.Replaced _) | Submitted _ (SubmitOutcome.DroppedSuperseded _ _) => true
  | _ => false
  end.
Definition is_oversized (e : SchedulerEvent) : bool :=
  if e is Submitted _ (SubmitOutcome.DroppedOversized _ _ _) then true else false.
Definition is_tick (e : SchedulerEvent) : bool :=
  match e with
  | Polled (Ok (PollOutcome.Ready _)) | Polled (Ok (PollOutcome.Idle _ _))
  | Polled (Ok (PollOutcome.DroppedStale _ _)) => true
  | _ => false
  end.
Definition is_idle (e : SchedulerEvent) : bool :=
  match e with Polled (Ok (PollOutcome.Idle _ _)) | Polled (Ok (PollOutcome.DroppedStale _ _)) => true | _ => false end.

Definition number (p : SchedulerEvent -> bool) (es : list SchedulerEvent) : Z := zlen (List.filter p es).

(** The counters moved by as many as there were such answers. *)
Record counted (m m' : SchedulerMetrics.t) (es : list SchedulerEvent) : Prop := {
  counted_submitted : SchedulerMetrics.submitted_frames m' = SchedulerMetrics.submitted_frames m + number is_submitted es;
  counted_presented : SchedulerMetrics.presented_frames m' = SchedulerMetrics.presented_frames m + number is_presented es;
  counted_stale : SchedulerMetrics.dropped_stale_frames m' = SchedulerMetrics.dropped_stale_frames m + number is_stale_report es;
  counted_superseded : SchedulerMetrics.dropped_superseded_frames m' =
    SchedulerMetrics.dropped_superseded_frames m + number is_superseded es;
  counted_oversized : SchedulerMetrics.dropped_oversized_frames m' =
    SchedulerMetrics.dropped_oversized_frames m + number is_oversized es;
  counted_ticks : SchedulerMetrics.pacing_ticks m' = SchedulerMetrics.pacing_ticks m + number is_tick es;
  counted_idle : SchedulerMetrics.idle_pacing_ticks m' = SchedulerMetrics.idle_pacing_ticks m + number is_idle es;
}.

(** No counter is above [k]. *)
Record below (k : Z) (m : SchedulerMetrics.t) : Prop := {
  below_submitted : 0 <= SchedulerMetrics.submitted_frames m <= k;
  below_presented : 0 <= SchedulerMetrics.presented_frames m <= k;
  below_stale : 0 <= SchedulerMetrics.dropped_stale_frames m <= k;
  below_superseded : 0 <= SchedulerMetrics.dropped_superseded_frames m <= k;
  below_oversized : 0 <= SchedulerMetrics.dropped_oversized_frames m <= k;
  below_ticks : 0 <= SchedulerMetrics.pacing_ticks m <= k;
  below_idle : 0 <= SchedulerMetrics.idle_pacing_ticks m <= k;
}.

(** The frames of a run: the given and the waiting ones before it are those handed
    on, some dropped ones and the waiting ones after it. *)
Definition passed (s s' : LatestFrameScheduler.t) (os : list SchedulerOp.t) (es : list SchedulerEvent) : Prop :=
  exists dropped, map sequence_of dropped = es ≫= reported /\
    (os ≫= given) ++ waiting s ≡ₚ (es ≫= handed_on) ++ dropped ++ waiting s'.

Lemma number_cons p e es : number p (e :: es) = number p [e] + number p es.
Proof. unfold number. cbn. destruct (p e); cbn [length]; lia. Qed.
Lemma number_one p e : 0 <= number p [e] <= 1.
Proof. unfold number. cbn. destruct (p e); cbn; lia. Qed.

Lemma counted_cons m m1 m2 e es : counted m m1 [e] -> counted m1 m2 es -> counted m m2 (e :: es).
Proof. intros [] []. split; rewrite number_cons; lia. Qed.
Lemma below_counted k m m' e : below k m -> counted m m' [e] -> below (k + 1) m'.
Proof.
  intros [] []. split;
    match goal with H : ?x = _ + number ?p [e] |- 0 <= ?x <= _ => pose proof (number_one p e); lia end.
Qed.

Ltac count_event Hk Hb :=
  destruct Hb; split; cbn; unfold saturating_add, u_max, number; cbn; lia.

Lemma submit_counted k s f now s' out : k < 2 ^ 64 - 1 -> below k (LatestFrameScheduler.metrics s) ->
  LatestFrameScheduler.submit s f now = (s', out) ->
  counted (LatestFrameScheduler.metrics s) (LatestFrameScheduler.metrics s') [Submitted f out] /\
  passed s s' [SchedulerOp.Submit f now] [Submitted f out].
Proof.
  intros Hk Hb. unfold LatestFrameScheduler.submit. cbv zeta.
  change (LatestFrameScheduler.pending (LatestFrameScheduler.set_metrics s _)) with (LatestFrameScheduler.pending s).
  unfold passed, waiting.
  destruct (_ >? _); [|destruct (LatestFrameScheduler.is_stale _ _ _);
    [|destruct (LatestFrameScheduler.pending s) as [old|] eqn:Hold; [destruct (frame_order_le _ _)|]]];
    intros [= <- <-]; (split; [count_event Hk Hb|]); cbn; rewrite ?Hold.
  - by exists [f].
  - by exists [f].
  - by exists [f].
  - exists [PendingFrame.frame old]. split; [done|]. cbn. apply Permutation_swap.
  - by exists [].
Qed.

Lemma dispatch_counted k s tick now s' out : k < 2 ^ 64 - 1 -> below k (LatestFrameScheduler.metrics s) ->
  LatestFrameScheduler.dispatch s tick now = (s', out) ->
  counted (LatestFrameScheduler.metrics s) (LatestFrameScheduler.metrics s') [Polled (Ok out)] /\
  passed s s' [SchedulerOp.Poll now] [Polled (Ok out)].
Proof.
  intros Hk Hb. unfold LatestFrameScheduler.dispatch. cbv zeta.
  change (LatestFrameScheduler.pending (LatestFrameScheduler.set_metrics s _)) with (LatestFrameScheduler.pending s).
  unfold passed, waiting.
  destruct (LatestFrameScheduler.pending s) as [old|] eqn:Hold;
    [destruct (LatestFrameScheduler.is_stale _ _ _); [|destruct (now <? _)]|];
    intros [= <- <-]; (split; [count_event Hk Hb|]); cbn; rewrite ?Hold.
  - by exists [PendingFrame.frame old].
  - by exists [].
  - by exists [].
  - by exists [].
Qed.

Lemma observe1_counted k s o s' e : k < 2 ^ 64 - 1 -> below k (LatestFrameScheduler.metrics s) ->
  observe1 s o = (s', e) ->
  counted (LatestFrameScheduler.metrics s) (LatestFrameScheduler.metrics s') [e] /\ passed s s' [o] [e].
Proof.
  intros Hk Hb. destruct o as [f now|now]; cbn.
  - destruct (LatestFrameScheduler.submit s f now) as [s1 out] eqn:Hs. intros [= <- <-]. by eapply submit_counted.
  - unfold LatestFrameScheduler.poll. destruct (FramePacer.poll _ now) as [p d].
    destruct d as [[tick|dl|]|x|f]; cbn [otry].
    + destruct (LatestFrameScheduler.dispatch _ tick now) as [s1 out] eqn:Hd. intros [= <- <-].
      by apply (dispatch_counted k (LatestFrameScheduler.set_pacer s p) tick now).
    + intros [= <- <-]. split; [split; unfold number; cbn; lia|by exists []].
    + intros [= <- <-]. split; [split; unfold number; cbn; lia|by exists []].
    + done.
    + intros [= <- <-]. split; [split; unfold number; cbn; lia|by exists []].
Qed.

Lemma passed_cons s s1 s2 o e os es :
  passed s s1 [o] [e] -> passed s1 s2 os es -> passed s s2 (o :: os) (e :: es).
Proof.
  intros (d1 & Hd1 & H1) (d2 & Hd2 & H2). exists (d1 ++ d2). cbn in *. rewrite app_nil_r in *.
  split; [by rewrite map_app, Hd1, Hd2|].
  transitivity ((os ≫= given) ++ (given o ++ waiting s)); [solve_Permutation|]. rewrite H1.
  transitivity (handed_on e ++ d1 ++ ((os ≫= given) ++ waiting s1)); [solve_Permutation|]. rewrite H2. solve_Permutation.
Qed.

Lemma observe_counted os : forall k s s' es, 0 <= k -> k + zlen os < 2 ^ 64 -> below k (LatestFrameScheduler.metrics s) ->
  observe os s = (s', es) ->
  counted (LatestFrameScheduler.metrics s) (LatestFrameScheduler.metrics s') es /\ passed s s' os es.
Proof.
  induction os as [|o os IH]; intros k s s' es H0 Hk Hb; cbn.
  { intros [= <- <-]. split; [split; unfold number; cbn; lia|]. exists []. by split. }
  destruct (observe1 s o) as [s1 e] eqn:He, (observe os s1) as [s2 es2] eqn:Hes. intros [= <- <-].
  cbn [length] in Hk. destruct (observe1_counted k s o s1 e) as [Hc Hp]; [lia|done..|].
  destruct (IH (k + 1) s1 s2 es2) as [Hcs Hps]; [lia|lia|by eapply below_counted|done|].
  split; [by eapply counted_cons|by eapply passed_cons].
Qed.

Lemma observe_exec os s : fst (observe os s) = exec os s.
Proof.
  revert s. induction os as [|o os IH]; intros s; [done|]. cbn [observe]. unfold exec in *. cbn [foldl].
  assert (Ho : exec1 s o = fst (observe1 s o)).
  { unfold exec1, observe1. destruct o as [f now|now];
      [by destruct (LatestFrameScheduler.submit s f now)|by destruct (LatestFrameScheduler.poll s now)]. }
  rewrite Ho. destruct (observe1 s o) as [s1 e]. cbn [fst]. rewrite <-IH. by destruct (observe os s1).
Qed.

Lemma zero_below : below 0 SchedulerMetrics.zero.
Proof. split; cbn; lia. Qed.

Lemma observe_sizes os s :
  let (s', es) := observe os s in
  number is_submitted es = zlen (os ≫= given) /\
  number is_presented es = zlen (es ≫= handed_on) /\
  number is_stale_report es + number is_superseded es + number is_oversized es = zlen (es ≫= reported) /\
  number is_tick es = number is_presented es + number is_idle es.
Proof.
  revert s. induction os as [|o os IH]; intros s; [done|]. cbn [observe].
  destruct (observe1 s o) as [s1 e] eqn:He. specialize (IH s1). destruct (observe os s1) as [s2 es].
  destruct IH as (I1 & I2 & I3 & I4). rewrite !(number_cons _ e es). cbn [mbind list_bind]. rewrite !length_app, !Nat2Z.inj_add.
  assert (Hone : number is_submitted [e] = zlen (given o) /\ number is_presented [e] = zlen (handed_on e) /\
    number is_stale_report [e] + number is_superseded [e] + number is_oversized [e] = zlen (reported e) /\
    number is_tick [e] = number is_presented [e] + number is_idle [e]).
  { destruct o as [f now|now]; unfold observe1 in He.
    - destruct (LatestFrameScheduler.submit s f now) as [s' out]. injection He as <- <-. by destruct out.
    - destruct (LatestFrameScheduler.poll s now) as [s' out]. injection He as <- <-. by destruct out as [[]| |]. }
  destruct Hone as (O1 & O2 & O3 & O4). split_and!; lia.
Qed.

(** Whatever was handed over was handed on, reported or waits; the counters are the
    numbers of the answers. *)
Lemma run_accounts c origin os : zlen os < 2 ^ 64 ->
  let (s, es) := observe os (LatestFrameScheduler.new c origin) in
  counted SchedulerMetrics.zero (LatestFrameScheduler.metrics s) es /\
  passed (LatestFrameScheduler.new c origin) s os es.
Proof.
  intros Hlen. destruct (observe os _) as [s es] eqn:Hos.
  by apply (observe_counted os 0 (LatestFrameScheduler.new c origin) s es); [lia|lia|apply zero_below|].
Qed.

(** ** Averages *)
Lemma duration_from_nanos_ok n : Duration.valid n -> duration_from_nanos n = Ok n.
Proof.
  unfold Duration.valid, Duration.MAX. intros Hn. unfold duration_from_nanos, NANOS_PER_SECOND.
  pose proof (Z.div_mod n 1000000000 ltac:(lia)). pose proof (Z.mod_pos_bound n 1000000000 ltac:(lia)).
  rewrite checked_in by (split; [apply Z.div_pos; lia|apply Z.div_lt_upper_bound; lia]).
  rewrite checked_in by (unfold in_u; lia). simpl. f_equal. lia.
Qed.

Lemma average_ok n total mx :
  0 <= n -> averaged n total mx ->
  duration_average total n = Ok (if n =? 0 then None else Some (total / n)) /\
  (0 < n -> 0 <= total / n <= mx).
Proof.
  intros Hn (Hmx & Ht & Hmax). unfold duration_average, Duration.as_nanos.
  destruct (Z.eqb_spec n 0); [split; [done|lia]|].
  assert (H : 0 <= total / n <= mx)
    by (split; [apply Z.div_pos; lia|apply Z.div_le_upper_bound; lia]).
  pose proof (Z.div_le_upper_bound total n total ltac:(lia) ltac:(nia)).
  rewrite duration_from_nanos_ok by (unfold Duration.valid; lia). by split.
Qed.

Lemma averages_hold s k : ledger k s -> forall total mx avg,
  let m := LatestFrameScheduler.metrics s in
  (total, mx, avg) = (SchedulerMetrics.total_queue_time m, SchedulerMetrics.max_queue_time m,
    SchedulerMetrics.average_queue_time m) \/
  (total, mx, avg) = (SchedulerMetrics.total_pacing_lateness m,
    SchedulerMetrics.max_pacing_lateness m, SchedulerMetrics.average_pacing_lateness m) \/
  (total, mx, avg) = (SchedulerMetrics.total_frame_latency m,
    SchedulerMetrics.max_frame_latency m, SchedulerMetrics.average_frame_latency m) ->
  avg = Ok (if SchedulerMetrics.presented_frames m =? 0 then None
            else Some (total / SchedulerMetrics.presented_frames m)) /\
  (0 < SchedulerMetrics.presented_frames m -> 0 <= total / SchedulerMetrics.presented_frames m <= mx).
Proof.
  intros [Hf Ht Hb (H1 & H2 & H3)] total mx avg m Hcase. cbv zeta in *. fold m in Hf, Ht, Hb, H1, H2, H3.
  unfold SchedulerMetrics.average_queue_time, SchedulerMetrics.average_pacing_lateness,
    SchedulerMetrics.average_frame_latency in Hcase.
  destruct Hcase as [[= -> -> ->]|[[= -> -> ->]|[= -> -> ->]]]; apply average_ok; (done || lia).
Qed.

(** ** The newest frame wins *)

(** A frame the queue may hold at [now]: small enough and not past its age. *)
Definition eligible (s : LatestFrameScheduler.t) (f : MediaFrame.t) (now : Z) : Prop :=
  MediaFrame.payload_len f <= SchedulerConfig.max_frame_bytes (LatestFrameScheduler.config s) /\
  now <= Duration.saturating_add
    (LatestFrameScheduler.absolute_time s
      (FrameMetadata.presentation_time (MediaFrame.metadata f)))
    (SchedulerConfig.max_frame_age (LatestFrameScheduler.config s)).

(** The frame is newer, by presentation time and then sequence. *)
Definition newer (a b : FrameMetadata.t) : Prop :=
  FrameMetadata.presentation_time b < FrameMetadata.presentation_time a \/
  (FrameMetadata.presentation_time b = FrameMetadata.presentation_time a /\
   FrameMetadata.sequence b < FrameMetadata.sequence a).

Lemma frame_order_le_newer a b : frame_order_le a b = false <-> newer a b.
Proof.
  unfold frame_order_le, newer.
  destruct (Z.ltb_spec (FrameMetadata.presentation_time a) (FrameMetadata.presentation_time b)),
    (Z.eqb_spec (FrameMetadata.presentation_time a) (FrameMetadata.presentation_time b)),
    (Z.leb_spec (FrameMetadata.sequence a) (FrameMetadata.sequence b)); simpl;
    (split; [intros ?; try done; lia|intros ?; try lia; done]).
Qed.

Lemma is_stale_iff s m now :
  LatestFrameScheduler.is_stale s m now = false <->
  now <= Duration.saturating_add
    (LatestFrameScheduler.absolute_time s (FrameMetadata.presentation_time m))
    (SchedulerConfig.max_frame_age (LatestFrameScheduler.config s)).
Proof.
  unfold LatestFrameScheduler.is_stale. rewrite Z.gtb_ltb. apply Z.ltb_ge.
Qed.

(** ** Properties of pacing and scheduling *)

(** The pacer selects the newest due slot. It waits exactly while the next
    deadline is in the future, with its state unchanged; otherwise it issues a
    slot whose deadline has passed and after which no slot is due yet, so a
    second poll at the same time waits instead of bursting. *)
Theorem pacer_selects_newest_due_slot p now n :
  FramePacer.wf p -> Duration.valid now -> now < Duration.MAX -> FramePacer.next_tick p = Some n ->
  (now < slot_deadline p n /\
   FramePacer.poll p now = (p, Ok (PaceDecision.WaitUntil (slot_deadline p n)))) \/
  (exists i p', FramePacer.poll p now =
      (p', Ok (PaceDecision.Due (PacingTick.mk i (slot_deadline p i) (i - n)))) /\
    n <= i /\ slot_deadline p i <= now /\
    (forall j, in_u 64 j -> i < j -> now < slot_deadline p j) /\
    (forall m, FramePacer.next_tick p' = Some m ->
       FramePacer.poll p' now = (p', Ok (PaceDecision.WaitUntil (slot_deadline p' m))))).
Proof.
  intros Hwf Hnow Hlt Hn. pose proof (pacer_poll_spec p now Hwf Hnow) as Hspec.
  pose proof (pacer_poll_wf p now Hwf Hnow) as Hwf'.
  rewrite Hn in Hspec. destruct Hspec as [[H E]|(i & Hni & Hi & Hd & Hnew & E)]; [by left|right].
  rewrite E in Hwf'. cbn [fst] in Hwf'. exists i. eexists. split; [exact E|].
  specialize (Hnew Hlt). split; [done|]. split; [done|]. split; [done|].
  intros m Hm. pose proof (pacer_poll_spec _ now Hwf' Hnow) as Hspec'. rewrite Hm in Hspec'.
  cbn [FramePacer.next_tick] in Hm. apply checked_Some in Hm as [-> Hm].
  destruct Hspec' as [[_ E']|(j & Hj & _ & Hdj & _)]; [done|exfalso].
  pose proof (Hnew (i + 1) Hm ltac:(lia)) as Hfut.
  pose proof (exact_timestamp_mono (FramePacer.frame_rate p) (i + 1) j (FramePacer.wf_rate p Hwf) Hj).
  unfold slot_deadline in *. simpl in Hdj. lia.
Qed.

(** Over any sequence of polls every pacing slot is issued once or reported
    skipped once: the slots of the ticks add up to the advance of the next
    slot, and the issued indices strictly increase. *)
Theorem pacer_accounts_for_every_slot p nows n :
  FramePacer.wf p -> Forall Duration.valid nows -> FramePacer.next_tick p = Some n ->
  let (p', ticks) := poll_all p nows in
  (match FramePacer.next_tick p' with
   | Some m => m = n + slots ticks
   | None => 2 ^ 64 = n + slots ticks
   end) /\ Forall (fun t => n <= PacingTick.index t) ticks /\
  StronglySorted (fun a b => PacingTick.index a < PacingTick.index b) ticks.
Proof. apply poll_all_accounts. Qed.

(** C35: no frame is lost or counted twice. From a new scheduler, through any
    sequence of submissions and polls, the frames submitted are those handed on by a
    poll, those whose sequence number an answer reported as dropped, and the one still
    queued, each as often as it was submitted; the counters are the numbers of
    submissions, of frames handed on and of reports of each kind, and the ticks are
    those that handed on a frame and the idle ones; the averages never exceed the
    maxima. *)
Theorem scheduler_conserves_frames c origin os :
  zlen os < 2 ^ 64 ->
  let '(s, es) := observe os (LatestFrameScheduler.new c origin) in
  let m := LatestFrameScheduler.metrics s in
  (exists dropped, map sequence_of dropped = es ≫= reported /\
    os ≫= given ≡ₚ (es ≫= handed_on) ++ dropped ++ waiting s) /\
  SchedulerMetrics.submitted_frames m = zlen (os ≫= given) /\
  SchedulerMetrics.presented_frames m = zlen (es ≫= handed_on) /\
  SchedulerMetrics.dropped_frames m = zlen (es ≫= reported) /\
  SchedulerMetrics.dropped_stale_frames m = number is_stale_report es /\
  SchedulerMetrics.dropped_superseded_frames m = number is_superseded es /\
  SchedulerMetrics.dropped_oversized_frames m = number is_oversized es /\
  SchedulerMetrics.pacing_ticks m = number is_tick es /\
  SchedulerMetrics.pacing_ticks m = SchedulerMetrics.presented_frames m + SchedulerMetrics.idle_pacing_ticks m /\
  (forall total mx avg,
     (total, mx, avg) = (SchedulerMetrics.total_queue_time m, SchedulerMetrics.max_queue_time m,
       SchedulerMetrics.average_queue_time m) \/
     (total, mx, avg) = (SchedulerMetrics.total_pacing_lateness m,
       SchedulerMetrics.max_pacing_lateness m, SchedulerMetrics.average_pacing_lateness m) \/
     (total, mx, avg) = (SchedulerMetrics.total_frame_latency m,
       SchedulerMetrics.max_frame_latency m, SchedulerMetrics.average_frame_latency m) ->
     avg = Ok (if SchedulerMetrics.presented_frames m =? 0 then None
               else Some (total / SchedulerMetrics.presented_frames m)) /\
     (0 < SchedulerMetrics.presented_frames m ->
        0 <= total / SchedulerMetrics.presented_frames m <= mx)).
Proof.
  intros Hlen. pose proof (run_accounts c origin os Hlen) as Hrun.
  pose proof (exec_ledger os 0 _ ltac:(lia) ltac:(lia) (new_ledger c origin)) as Hledger.
  rewrite <-observe_exec in Hledger. pose proof (observe_sizes os (LatestFrameScheduler.new c origin)) as Hsize.
  destruct (observe os (LatestFrameScheduler.new c origin)) as [s es]. cbn [fst] in Hledger.
  pose proof (averages_hold _ _ Hledger) as Havg.
  destruct Hrun as [[Hs Hp Hst Hsu Hov Hti Hid] (dropped & Hd & Hperm)], Hledger as [Hf Ht Hb Htimes].
  cbn [SchedulerMetrics.zero SchedulerMetrics.submitted_frames SchedulerMetrics.presented_frames
    SchedulerMetrics.dropped_stale_frames SchedulerMetrics.dropped_superseded_frames
    SchedulerMetrics.dropped_oversized_frames SchedulerMetrics.pacing_ticks SchedulerMetrics.idle_pacing_ticks] in *.
  destruct Hsize as (Hs1 & Hs2 & Hs3 & Hs4). cbv zeta in *. split_and!; try lia.
  - exists dropped. split; [done|]. cbn in Hperm. by rewrite app_nil_r in Hperm.
  - unfold SchedulerMetrics.dropped_frames, saturating_add, u_max. unfold queued in Hf.
    destruct (LatestFrameScheduler.has_pending_frame s); lia.
  - exact Havg.
Qed.

(** [submit] keeps the newest eligible frame. An oversized or stale frame
    never displaces the queued one; otherwise the later of the two by
    presentation time and sequence stays, and the outcome names the frame that
    was dropped. *)
Theorem submit_keeps_newest s f now :
  let (s', out) := LatestFrameScheduler.submit s f now in
  let mine := MediaFrame.metadata f in
  LatestFrameScheduler.pacer s' = LatestFrameScheduler.pacer s /\
  match LatestFrameScheduler.pending s with
  | None =>
      (eligible s f now /\ out = SubmitOutcome.Queued /\
       LatestFrameScheduler.pending s' = Some (PendingFrame.mk f now)) \/
      (~ eligible s f now /\ LatestFrameScheduler.pending s' = None)
  | Some old =>
      let theirs := MediaFrame.metadata (PendingFrame.frame old) in
      (eligible s f now /\ newer mine theirs /\
       out = SubmitOutcome.Replaced (FrameMetadata.sequence theirs) /\
       LatestFrameScheduler.pending s' = Some (PendingFrame.mk f now)) \/
      (eligible s f now /\ ~ newer mine theirs /\
       out = SubmitOutcome.DroppedSuperseded (FrameMetadata.sequence mine)
               (FrameMetadata.sequence theirs) /\
       LatestFrameScheduler.pending s' = Some old) \/
      (~ eligible s f now /\ LatestFrameScheduler.pending s' = Some old)
  end.
Proof.
  unfold LatestFrameScheduler.submit, eligible. cbv zeta. rewrite Z.gtb_ltb.
  set (s1 := LatestFrameScheduler.set_metrics s _).
  change (LatestFrameScheduler.pending s1) with (LatestFrameScheduler.pending s).
  change (LatestFrameScheduler.config s1) with (LatestFrameScheduler.config s).
  destruct (Z.ltb_spec (SchedulerConfig.max_frame_bytes (LatestFrameScheduler.config s))
    (MediaFrame.payload_len f)) as [Hbig|Hsmall].
  { split; [done|]. cbn. destruct (LatestFrameScheduler.pending s); [right|]; right; (split; [lia|done]). }
  destruct (LatestFrameScheduler.is_stale s1 (MediaFrame.metadata f) now) eqn:Hst.
  { split; [done|]. assert (Hns : ~ LatestFrameScheduler.is_stale s1 (MediaFrame.metadata f) now = false)
      by by rewrite Hst.
    rewrite is_stale_iff in Hns. cbn.
    destruct (LatestFrameScheduler.pending s); [right|]; right; (split; [naive_solver|done]). }
  apply is_stale_iff in Hst.
  destruct (LatestFrameScheduler.pending s) as [old|] eqn:Hold; [|by split; [|left]].
  destruct (frame_order_le _ _) eqn:Hord.
  - split; [done|]. right. left. split; [done|]. split; [|done].
    rewrite <- frame_order_le_newer. by rewrite Hord.
  - split; [done|]. left. apply frame_order_le_newer in Hord. done.
Qed.

(** A dispatched frame is the queued one, on time and measured truthfully:
    it is within the byte ceiling, its presentation time has come and its age
    budget has not run out, and the reported times are the distances from
    submission, slot deadline and capture. Polling never panics. *)
Theorem dispatched_frames_are_on_time s now s' out :
  scheduler_wf s -> Duration.valid now ->
  LatestFrameScheduler.poll s now = (s', Ok out) ->
  match out with
  | PollOutcome.Ready sf =>
      exists e, LatestFrameScheduler.pending s = Some e /\
        ScheduledFrame.frame sf = PendingFrame.frame e /\
        LatestFrameScheduler.pending s' = None /\
        eligible s (PendingFrame.frame e) now /\
        LatestFrameScheduler.absolute_time s
          (FrameMetadata.presentation_time (MediaFrame.metadata (PendingFrame.frame e))) <= now /\
        PacingTick.deadline (ScheduledFrame.pacing_tick sf) <= now /\
        ScheduledFrame.pacing_lateness sf = now - PacingTick.deadline (ScheduledFrame.pacing_tick sf) /\
        ScheduledFrame.queue_time sf = Z.max (now - PendingFrame.enqueued_at e) 0 /\
        ScheduledFrame.frame_latency sf = Z.max (now - LatestFrameScheduler.absolute_time s
          (FrameMetadata.capture_time (MediaFrame.metadata (PendingFrame.frame e)))) 0
  | PollOutcome.DroppedStale n _ =>
      exists e, LatestFrameScheduler.pending s = Some e /\
        FrameMetadata.sequence (MediaFrame.metadata (PendingFrame.frame e)) = n /\
        ~ eligible s (PendingFrame.frame e) now /\ LatestFrameScheduler.pending s' = None
  | _ => LatestFrameScheduler.pending s' = LatestFrameScheduler.pending s
  end.
Proof.
  intros [Hp He] Hnow Hpoll. unfold LatestFrameScheduler.poll in Hpoll.
  pose proof (pacer_poll_spec _ now Hp Hnow) as Hspec.
  destruct (FramePacer.next_tick (LatestFrameScheduler.pacer s)) as [n|] eqn:Hn.
  2:{ rewrite Hspec in Hpoll. by injection Hpoll as <- <-. }
  destruct Hspec as [[_ E]|(i & _ & _ & Hd & _ & E)]; rewrite E in Hpoll; cbn [otry] in Hpoll;
    [by injection Hpoll as <- <-|].
  unfold LatestFrameScheduler.dispatch in Hpoll. cbn in Hpoll.
  destruct (LatestFrameScheduler.pending s) as [e|] eqn:Hpend; [|by injection Hpoll as <- <-].
  match type of Hpoll with context [LatestFrameScheduler.is_stale ?t _ _] =>
    change (LatestFrameScheduler.is_stale t) with (LatestFrameScheduler.is_stale s) in Hpoll;
    change (LatestFrameScheduler.absolute_time t) with (LatestFrameScheduler.absolute_time s) in Hpoll
  end.
  destruct (LatestFrameScheduler.is_stale s _ _) eqn:Hst.
  { injection Hpoll as <- <-. exists e. split; [done|]. split; [done|]. split; [|done].
    intros [_ H]. apply is_stale_iff in H. by rewrite Hst in H. }
  destruct (Z.ltb_spec now (LatestFrameScheduler.absolute_time s
    (FrameMetadata.presentation_time (MediaFrame.metadata (PendingFrame.frame e))))) as [|Hdue];
    injection Hpoll as <- <-; [done|].
  exists e. split; [done|]. split; [done|]. split; [done|]. split.
  { split; [by apply He|]. by apply is_stale_iff in Hst. }
  split; [done|]. cbn [ScheduledFrame.pacing_tick PacingTick.deadline ScheduledFrame.pacing_lateness].
  split; [done|]. split; [unfold Duration.saturating_sub; lia|]. by split.
Qed.

Module SchedulerExamples.
Import MediaMetadata.TimelineExamples.
Definition pacer : FramePacer.t := FramePacer.new hz60 1000.
Lemma pacer_wf : FramePacer.wf pacer.
Proof. split; [apply hz60_wf|vm_compute; split; discriminate|]. by intros n [= <-]. Qed.

Definition format : VideoFormat.t := VideoFormat.mk (FrameDimensions.mk 640 480) hz60.
Definition picture (n at_ : Z) : MediaFrame.t :=
  MediaFrame.mk (FrameMetadata.mk n at_ at_ 16666666 FrameKind.Key format) [x00; x01].
Definition config : SchedulerConfig.t := SchedulerConfig.mk hz60 5000000 16.
Definition scheduler : LatestFrameScheduler.t := LatestFrameScheduler.new config 0.
Definition loaded : LatestFrameScheduler.t :=
  fst (LatestFrameScheduler.submit scheduler (picture 4 100) 50).

Lemma loaded_wf : scheduler_wf loaded.
Proof. apply submit_wf, new_scheduler_wf; [apply hz60_wf|vm_compute; split; discriminate]. Qed.

(** A poll 40 ms late skips the two slots it missed. *)
Lemma pacer_selects_newest_due_slot_witness :
  exists p', FramePacer.poll pacer 40000000 =
    (p', Ok (PaceDecision.Due (PacingTick.mk 2 (slot_deadline pacer 2) 2))).
Proof.
  destruct (pacer_selects_newest_due_slot pacer 40000000 0 pacer_wf) as [[H _]|(i & p' & H & _)];
    [vm_compute; split; discriminate|reflexivity|reflexivity|vm_compute in H; discriminate|].
  exists p'. rewrite H. assert (i = 2) as ->; [|reflexivity].
  assert (E : snd (FramePacer.poll pacer 40000000) =
    Ok (PaceDecision.Due (PacingTick.mk 2 33334333 2))) by (vm_compute; reflexivity).
  rewrite H in E. by injection E.
Defined.

Lemma pacer_accounts_for_every_slot_witness :
  let (p', ticks) := poll_all pacer [0; 1000; 40000000; 40000000] in
  FramePacer.next_tick p' = Some 3 /\ slots ticks = 3.
Proof.
  pose proof (pacer_accounts_for_every_slot pacer [0; 1000; 40000000; 40000000] 0 pacer_wf) as H.
  destruct (poll_all pacer [0; 1000; 40000000; 40000000]) as [p' ticks] eqn:E.
  assert (Hn : FramePacer.next_tick p' = Some 3)
    by (change p' with (fst (p', ticks)); rewrite <- E; vm_compute; reflexivity).
  rewrite Hn in H. split; [exact Hn|].
  destruct H as [H _]; [repeat constructor; vm_compute; discriminate|reflexivity|]. by rewrite H.
Defined.

Definition busy : list SchedulerOp.t :=
  [SchedulerOp.Submit (picture 1 100) 50; SchedulerOp.Submit (picture 2 200) 60;
   SchedulerOp.Submit (picture 1 100) 70; SchedulerOp.Poll 300; SchedulerOp.Poll 17000000].

Lemma scheduler_conserves_frames_witness :
  let (s, es) := observe busy scheduler in
  es ≫= reported = [1; 1] /\ map sequence_of (es ≫= handed_on) = [2] /\
  SchedulerMetrics.dropped_frames (LatestFrameScheduler.metrics s) = 2 /\
  exists dropped, map sequence_of dropped = [1; 1] /\
    [picture 1 100; picture 2 200; picture 1 100] ≡ₚ (es ≫= handed_on) ++ dropped.
Proof.
  pose proof (scheduler_conserves_frames config 0 busy eq_refl) as Hs.
  change (LatestFrameScheduler.new config 0) with scheduler in Hs.
  destruct (observe busy scheduler) as [s es] eqn:Hos.
  assert (Hout : es ≫= reported = [1; 1] /\ map sequence_of (es ≫= handed_on) = [2] /\ waiting s = [])
    by (vm_compute in Hos; injection Hos as <- <-; by split_and!).
  destruct Hout as (Hr & Hh & Hw), Hs as ((dropped & Hd & Hp) & _ & _ & Hdropped & _).
  split; [exact Hr|]. split; [exact Hh|]. split; [by rewrite Hdropped, Hr|].
  exists dropped. split; [by rewrite Hd|]. rewrite Hw, app_nil_r in Hp. exact Hp.
Defined.

Lemma dispatched_frames_are_on_time_witness :
  exists s' sf, LatestFrameScheduler.poll loaded 120 = (s', Ok (PollOutcome.Ready sf)) /\
    ScheduledFrame.queue_time sf = 70 /\ eligible loaded (picture 4 100) 120.
Proof.
  destruct (LatestFrameScheduler.poll loaded 120) as [s' r] eqn:E.
  assert (Hr : exists sf, r = Ok (PollOutcome.Ready sf) /\ ScheduledFrame.queue_time sf = 70).
  { change r with (snd (s', r)). rewrite <- E. vm_compute. eexists. split; reflexivity. }
  destruct Hr as (sf & -> & Hq). exists s', sf. split; [reflexivity|]. split; [exact Hq|].
  destruct (dispatched_frames_are_on_time loaded 120 s' (PollOutcome.Ready sf) loaded_wf)
    as (e & He & _ & _ & Helig & _); [vm_compute; split; discriminate|exact E|].
  vm_compute in He. injection He as <-. exact Helig.
Defined.
End SchedulerExamples.
