(* ===== verification/MediaSynthetic.v ===== *)
(** * The deterministic synthetic stream

    Models [crates/ladoflow-media/src/synthetic.rs]: validated settings, the
    frame iterator and the mixing function that fills its payloads. *)
From stdpp Require Import pretty.
From S2P Require Export MediaMetadata.
Local Open Scope string_scope.
Local Open Scope list_scope.
Local Open Scope Z_scope.

Definition MAX_SYNTHETIC_PAYLOAD_BYTES : Z := 16 * 1024 * 1024.

Module SyntheticConfigError.
Inductive t : Type :=
| EmptyPayload
| PayloadTooLarge (requested limit : Z)
| ZeroKeyframeInterval.
Definition to_string (e : t) : string :=
  match e with
  | EmptyPayload => "synthetic payload must be non-empty"
  | PayloadTooLarge requested limit =>
      "synthetic payload of " +:+ pretty requested +:+ " bytes exceeds the " +:+
      pretty limit +:+ "-byte limit"
  | ZeroKeyframeInterval => "key-frame interval must be non-zero"
  end.
End SyntheticConfigError.

Module SyntheticConfig.
Record t : Type := mk {
  format : VideoFormat.t;
  payload_bytes : Z;
  keyframe_interval : Z;
  seed : Z;
}.

Definition new (format : VideoFormat.t) (payload_bytes keyframe_interval : Z)
  : outcome SyntheticConfigError.t t :=
  if payload_bytes =? 0 then Err SyntheticConfigError.EmptyPayload
  else if payload_bytes >? MAX_SYNTHETIC_PAYLOAD_BYTES
  then Err (SyntheticConfigError.PayloadTooLarge payload_bytes MAX_SYNTHETIC_PAYLOAD_BYTES)
  else if keyframe_interval =? 0 then Err SyntheticConfigError.ZeroKeyframeInterval
  else Ok (mk format payload_bytes keyframe_interval 0).

Definition with_seed (self : t) (seed : Z) : t :=
  mk (format self) (payload_bytes self) (keyframe_interval self) seed.

Record wf (c : t) : Prop := {
  wf_rate : FrameRate.wf (VideoFormat.frame_rate (format c));
  wf_bytes : 0 < payload_bytes c <= MAX_SYNTHETIC_PAYLOAD_BYTES;
  wf_interval : 0 < keyframe_interval c < 2 ^ 64;
  wf_seed : in_u 64 (seed c);
}.
End SyntheticConfig.

(** [value ^ (value >> k)]. *)
Definition xorshift (value k : Z) : Z := Z.lxor value (Z.shiftr value k).

Definition mix64 (value : Z) : Z :=
  let value := wrapping 64 (value + 0x9e3779b97f4a7c15) in
  let value := wrapping 64 (xorshift value 30 * 0xbf58476d1ce4e5b9) in
  let value := wrapping 64 (xorshift value 27 * 0x94d049bb133111eb) in
  xorshift value 31.

(** [to_le_bytes] of a 64-bit word. *)
Definition to_le_bytes (x : Z) : list byte := rev (be_bytes 8 x).

(** The word that fills one eight-byte block. *)
Definition block_word (sequence seed block_index : Z) : Z :=
  mix64 (Z.lxor (Z.lxor seed (rotate_left 64 sequence 17))
           (wrapping 64 (block_index * 0xd6e8feb86659fd93))).

(** The loop over [chunks_mut(8)]: every block but the last has eight bytes.
    Each iteration takes at least one byte, so [remaining] is enough fuel. *)
Fixpoint fill_chunks (fuel : nat) (sequence seed block_index : Z) (remaining : nat) : list byte :=
  match fuel, remaining with
  | S fuel, S _ =>
    let chunk_len := Nat.min 8 remaining in
    take chunk_len (to_le_bytes (block_word sequence seed block_index)) ++
    fill_chunks fuel sequence seed (block_index + 1) (remaining - chunk_len)
  | _, _ => []
  end.

Definition make_payload (sequence seed payload_bytes : Z) : list byte :=
  fill_chunks (Z.to_nat payload_bytes) sequence seed 0 (Z.to_nat payload_bytes).

Module SyntheticFrameProducer.
Record t : Type := mk {
  config : SyntheticConfig.t;
  next_sequence : option Z;
}.

Definition new (config : SyntheticConfig.t) : t := mk config (Some 0).

Definition advance_to_sequence (self : t) (sequence : Z) : t * panics_or Z :=
  match next_sequence self with
  | None => (self, Ok 0)
  | Some current =>
    if sequence <=? current then (self, Ok 0)
    else
      let self := mk (config self) (Some sequence) in
      let? skipped := chk 64 (sequence - current) keeping self in
      (self, Ok skipped)
  end.

Definition next (self : t) : t * panics_or (option MediaFrame.t) :=
  match next_sequence self with
  | None => (self, Ok None)
  | Some sequence =>
    let self := mk (config self) (checked 64 (sequence + 1)) in
    let c := config self in
    let rate := VideoFormat.frame_rate (SyntheticConfig.format c) in
    let? presentation_time := FrameRate.timestamp rate sequence keeping self in
    let kind :=
      if sequence mod SyntheticConfig.keyframe_interval c =? 0
      then FrameKind.Key else FrameKind.Delta in
    let? duration := FrameRate.frame_duration rate sequence keeping self in
    let metadata := FrameMetadata.mk sequence presentation_time presentation_time duration kind
      (SyntheticConfig.format c) in
    let payload := make_payload sequence (SyntheticConfig.seed c) (SyntheticConfig.payload_bytes c) in
    (self, Ok (Some (MediaFrame.mk metadata payload)))
  end.

Definition next_frame : t -> t * panics_or (option MediaFrame.t) := next.

Record wf (p : t) : Prop := {
  wf_config : SyntheticConfig.wf (config p);
  wf_next : forall n, next_sequence p = Some n -> in_u 64 n;
}.
End SyntheticFrameProducer.

(** ** The mixing function is injective *)

Lemma xorshift_in k x : 0 < k -> in_u 64 x -> in_u 64 (xorshift x k).
Proof.
  intros Hk Hx. unfold in_u in *. unfold xorshift. pose proof Hx as [H0 Hlt].
  assert (Hs : 0 <= Z.shiftr x k) by (by apply Z.shiftr_nonneg).
  split; [apply Z.lxor_nonneg; tauto|].
  destruct (decide (Z.lxor x (Z.shiftr x k) = 0)) as [->|Hne]; [lia|].
  apply Z.log2_lt_pow2; [pose proof (proj2 (Z.lxor_nonneg x (Z.shiftr x k))); lia|].
  pose proof (Z.log2_lxor x (Z.shiftr x k) H0 Hs) as Hl.
  destruct (decide (x = 0)) as [->|Hx0]; [by rewrite Z.shiftr_0_l in Hne|].
  assert (Z.log2 x < 64) by (apply Z.log2_lt_pow2; lia).
  assert (Z.log2 (Z.shiftr x k) <= Z.log2 x).
  { apply Z.log2_le_mono. rewrite Z.shiftr_div_pow2 by lia.
    pose proof (Z.pow_pos_nonneg 2 k). apply Z.div_le_upper_bound; nia. }
  lia.
Qed.

Lemma testbit_above x i : in_u 64 x -> 64 <= i -> Z.testbit x i = false.
Proof.
  intros [H0 Hlt] Hi. destruct (decide (x = 0)) as [->|Hx]; [apply Z.bits_0|].
  apply Z.bits_above_log2; [lia|]. assert (Z.log2 x < 64) by (apply Z.log2_lt_pow2; lia). lia.
Qed.

(** The high bits are visible, and each lower bit is masked by a higher one. *)
Lemma xorshift_inj k x y :
  0 < k -> in_u 64 x -> in_u 64 y -> xorshift x k = xorshift y k -> x = y.
Proof.
  intros Hk Hx Hy Heq. apply Z.bits_inj'. intros i Hi.
  assert (Hall : forall n i, 0 <= i -> 64 - Z.of_nat n <= i -> Z.testbit x i = Z.testbit y i).
  { induction n as [|n IH]; intros j Hj Hn; [by rewrite !testbit_above by (done || lia)|].
    pose proof (f_equal (fun z => Z.testbit z j) Heq) as Hb. unfold xorshift in Hb. cbv beta in Hb.
    rewrite !Z.lxor_spec, !Z.shiftr_spec in Hb by lia.
    rewrite (IH (j + k)) in Hb by lia.
    by destruct (Z.testbit x j), (Z.testbit y j), (Z.testbit y (j + k)). }
  apply (Hall 64%nat); lia.
Qed.

Lemma wrapping_add_inj c x y :
  in_u 64 x -> in_u 64 y -> wrapping 64 (x + c) = wrapping 64 (y + c) -> x = y.
Proof.
  unfold wrapping, in_u. intros Hx Hy Heq.
  assert (H : (x - y) mod 2 ^ 64 = 0).
  { replace (x - y) with ((x + c) - (y + c)) by ring. rewrite Zminus_mod, Heq, Z.sub_diag. done. }
  apply Z.mod_divide in H as [q Hq]; [|lia]. nia.
Qed.

Lemma wrapping_mul_inj c x y :
  Z.gcd (2 ^ 64) c = 1 -> in_u 64 x -> in_u 64 y ->
  wrapping 64 (x * c) = wrapping 64 (y * c) -> x = y.
Proof.
  unfold wrapping, in_u. intros Hc Hx Hy Heq.
  assert (H : (2 ^ 64 | c * (x - y))).
  { apply Z.mod_divide; [lia|]. replace (c * (x - y)) with (x * c - y * c) by ring.
    rewrite Zminus_mod, Heq, Z.sub_diag. done. }
  apply Z.gauss in H as [q Hq]; [|done]. nia.
Qed.

Lemma mix64_in x : in_u 64 (mix64 x).
Proof. unfold mix64. apply xorshift_in; [lia|]. apply wrapping_in. lia. Qed.

Lemma mix64_inj x y : in_u 64 x -> in_u 64 y -> mix64 x = mix64 y -> x = y.
Proof.
  intros Hx Hy H. unfold mix64 in H.
  apply xorshift_inj in H; [|lia|apply wrapping_in; lia..].
  apply wrapping_mul_inj in H; [|by vm_compute|apply xorshift_in; [lia|apply wrapping_in; lia]..].
  apply xorshift_inj in H; [|lia|apply wrapping_in; lia..].
  apply wrapping_mul_inj in H; [|by vm_compute|apply xorshift_in; [lia|apply wrapping_in; lia]..].
  apply xorshift_inj in H; [|lia|apply wrapping_in; lia..].
  by apply wrapping_add_inj in H.
Qed.

Lemma rotate_bit x i :
  in_u 64 x -> 0 <= i < 64 ->
  Z.testbit (rotate_left 64 x 17) i = Z.testbit x (if i <? 17 then i + 47 else i - 17).
Proof.
  intros Hx Hi. unfold rotate_left, wrapping. rewrite Z.lor_spec.
  rewrite Z.mod_pow2_bits_low, Z.shiftl_spec, Z.shiftr_spec by lia.
  destruct (Z.ltb_spec i 17).
  - rewrite Z.testbit_neg_r by lia. done.
  - rewrite (testbit_above x (i + (64 - 17))) by (done || lia). by rewrite orb_false_r.
Qed.

Lemma rotate_inj x y :
  in_u 64 x -> in_u 64 y -> rotate_left 64 x 17 = rotate_left 64 y 17 -> x = y.
Proof.
  intros Hx Hy Heq. apply Z.bits_inj'. intros j Hj.
  destruct (Z.le_gt_cases 64 j); [by rewrite !testbit_above|].
  set (i := if j <? 47 then j + 17 else j - 47).
  assert (Hi : 0 <= i < 64) by (unfold i; destruct (Z.ltb_spec j 47); lia).
  pose proof (f_equal (fun z => Z.testbit z i) Heq) as Hb. cbv beta in Hb.
  rewrite !rotate_bit in Hb by done.
  replace (if i <? 17 then i + 47 else i - 17) with j in Hb; [done|].
  unfold i. destruct (Z.ltb_spec j 47) as [H1|H1].
  - destruct (Z.ltb_spec (j + 17) 17); lia.
  - destruct (Z.ltb_spec (j - 47) 17); lia.
Qed.

Lemma lxor_in a b : in_u 64 a -> in_u 64 b -> in_u 64 (Z.lxor a b).
Proof.
  unfold in_u. intros [Ha Ha'] [Hb Hb'].
  split; [apply Z.lxor_nonneg; tauto|].
  destruct (decide (Z.lxor a b = 0)) as [->|Hne]; [lia|].
  pose proof (proj2 (Z.lxor_nonneg a b) ltac:(tauto)).
  apply Z.log2_lt_pow2; [lia|]. pose proof (Z.log2_lxor a b Ha Hb).
  assert (forall z, 0 <= z < 2 ^ 64 -> Z.log2 z < 64).
  { intros z Hz. destruct (decide (z = 0)) as [->|]; [done|]. apply Z.log2_lt_pow2; lia. }
  pose proof (H1 a). pose proof (H1 b). lia.
Qed.

Lemma lxor_cancel_l s a b : Z.lxor s a = Z.lxor s b -> a = b.
Proof.
  intros H. apply (f_equal (Z.lxor s)) in H.
  by rewrite <- !Z.lxor_assoc, Z.lxor_nilpotent, !Z.lxor_0_l in H.
Qed.

Lemma rotate_in x : in_u 64 x -> in_u 64 (rotate_left 64 x 17).
Proof.
  intros Hx. unfold rotate_left. apply (lor_below 64); [lia|apply wrapping_in; lia|].
  unfold in_u in *. split; [apply Z.shiftr_nonneg; lia|].
  rewrite Z.shiftr_div_pow2 by lia. apply Z.div_lt_upper_bound; lia.
Qed.

(** The first block distinguishes sequences, and it distinguishes seeds. *)
Lemma block_word_inj n n' s s' :
  in_u 64 n -> in_u 64 n' -> in_u 64 s -> in_u 64 s' ->
  block_word n s 0 = block_word n' s' 0 -> Z.lxor s (rotate_left 64 n 17) = Z.lxor s' (rotate_left 64 n' 17).
Proof.
  intros Hn Hn' Hs Hs' H. unfold block_word in H. cbn [Z.mul] in H.
  change (wrapping 64 0) with 0 in H. rewrite !Z.lxor_0_r in H.
  apply mix64_inj in H; [done|..]; apply lxor_in; try done; by apply rotate_in.
Qed.

Lemma length_to_le_bytes x : length (to_le_bytes x) = 8%nat.
Proof. unfold to_le_bytes. by rewrite length_rev, length_be_bytes. Qed.

Lemma to_le_bytes_inj x y : in_u 64 x -> in_u 64 y -> to_le_bytes x = to_le_bytes y -> x = y.
Proof.
  intros Hx Hy H. unfold to_le_bytes in H. apply (f_equal (@rev byte)) in H.
  rewrite !rev_involutive in H. by apply (be_bytes_inj 8) in H.
Qed.

Lemma length_fill_chunks fuel n s b r : (r <= fuel)%nat -> length (fill_chunks fuel n s b r) = r.
Proof.
  revert b r. induction fuel as [|fuel IH]; intros b r Hr; [simpl; lia|].
  destruct r as [|r]; [done|]. cbn [fill_chunks].
  rewrite length_app, length_take, length_to_le_bytes, IH by lia. lia.
Qed.

Lemma length_make_payload n s b : 0 <= b -> zlen (make_payload n s b) = b.
Proof. intros Hb. unfold make_payload. rewrite length_fill_chunks by lia. lia. Qed.

Lemma make_payload_first_block n s b :
  8 <= b -> take 8 (make_payload n s b) = to_le_bytes (block_word n s 0).
Proof.
  intros Hb. unfold make_payload. destruct (Z.to_nat b) as [|m] eqn:Hm; [lia|].
  cbn [fill_chunks]. rewrite Nat.min_l by lia.
  rewrite (firstn_all2 (to_le_bytes _)) by (rewrite length_to_le_bytes; lia).
  apply take_length_app, length_to_le_bytes.
Qed.

(** ** The producer *)

(** The frame with a sequence number is a function of the settings alone. *)
Definition frame_of (c : SyntheticConfig.t) (n : Z) : MediaFrame.t :=
  let rate := VideoFormat.frame_rate (SyntheticConfig.format c) in
  let at_ := Z.min (exact_timestamp rate n) Duration.MAX in
  let next_ := Z.min (exact_timestamp rate (Z.min (n + 1) (u_max 64))) Duration.MAX in
  MediaFrame.mk
    (FrameMetadata.mk n at_ at_ (Z.max (next_ - at_) 0)
       (if n mod SyntheticConfig.keyframe_interval c =? 0 then FrameKind.Key else FrameKind.Delta)
       (SyntheticConfig.format c))
    (make_payload n (SyntheticConfig.seed c) (SyntheticConfig.payload_bytes c)).

Lemma next_ok p n :
  SyntheticFrameProducer.wf p -> SyntheticFrameProducer.next_sequence p = Some n ->
  SyntheticFrameProducer.next p =
    (SyntheticFrameProducer.mk (SyntheticFrameProducer.config p) (checked 64 (n + 1)),
     Ok (Some (frame_of (SyntheticFrameProducer.config p) n))).
Proof.
  intros [[Hr Hb Hi Hs] Hn] E. pose proof (Hn n E) as Hnu. unfold SyntheticFrameProducer.next.
  rewrite E. cbn [SyntheticFrameProducer.config]. rewrite timestamp_ok by done. cbn [otry].
  unfold FrameRate.frame_duration. rewrite !timestamp_ok by (try done; unfold saturating_add, in_u, u_max in *; lia).
  done.
Qed.

Lemma advance_ok p n :
  SyntheticFrameProducer.wf p -> in_u 64 n ->
  SyntheticFrameProducer.advance_to_sequence p n =
    match SyntheticFrameProducer.next_sequence p with
    | None => (p, Ok 0)
    | Some current =>
        (SyntheticFrameProducer.mk (SyntheticFrameProducer.config p) (Some (Z.max current n)),
         Ok (Z.max (n - current) 0))
    end.
Proof.
  intros [Hc Hp] Hn. unfold SyntheticFrameProducer.advance_to_sequence.
  destruct p as [c [current|]]; [|done]. simpl in *. specialize (Hp current eq_refl).
  unfold in_u in *. destruct (Z.leb_spec n current).
  - by rewrite Z.max_l, Z.max_r by lia.
  - rewrite chk_ok by (unfold in_u; lia). cbn [otry]. by rewrite Z.max_r, Z.max_l by lia.
Qed.

(** ** Properties of the synthetic stream *)

(** The iterator emits, for every sequence number in turn, the frame that
    the settings determine: stamped from the exact timeline, a key frame at
    every multiple of the interval, with exactly the configured number of
    payload bytes; skipping forward never rewinds and reports the frames
    passed over; after the last 64-bit sequence the stream ends. *)
Theorem producer_follows_its_settings p n m :
  SyntheticFrameProducer.wf p -> in_u 64 m ->
  SyntheticFrameProducer.next_sequence p = Some n ->
  (exists p' f, SyntheticFrameProducer.next p = (p', Ok (Some f)) /\
     f = frame_of (SyntheticFrameProducer.config p) n /\ SyntheticFrameProducer.wf p' /\
     SyntheticFrameProducer.config p' = SyntheticFrameProducer.config p /\
     SyntheticFrameProducer.next_sequence p' = (if n =? u_max 64 then None else Some (n + 1)) /\
     MediaFrame.payload_len f = SyntheticConfig.payload_bytes (SyntheticFrameProducer.config p) /\
     (FrameMetadata.kind (MediaFrame.metadata f) = FrameKind.Key <->
        (SyntheticConfig.keyframe_interval (SyntheticFrameProducer.config p) | n))) /\
  SyntheticFrameProducer.advance_to_sequence p m =
    (SyntheticFrameProducer.mk (SyntheticFrameProducer.config p) (Some (Z.max n m)),
     Ok (Z.max (m - n) 0)).
Proof.
  intros Hwf Hm E. split; [|by rewrite advance_ok, E].
  pose proof Hwf as [[Hr Hb Hi Hs] Hn]. pose proof (Hn n E) as Hnu.
  eexists _, _. split; [by apply next_ok|]. split; [done|]. split.
  { split; [by destruct Hwf|]. simpl. intros k Hk. by apply checked_Some in Hk as [-> ?]. }
  split; [done|]. split.
  { simpl. unfold in_u, u_max in *. destruct (Z.eqb_spec n (2 ^ 64 - 1)).
    - apply checked_None. unfold in_u. lia.
    - apply checked_in. unfold in_u. lia. }
  split; [apply length_make_payload; lia|]. simpl.
  rewrite <- Z.mod_divide by lia.
  by destruct (Z.eqb_spec (n mod SyntheticConfig.keyframe_interval (SyntheticFrameProducer.config p)) 0).
Qed.

(** Payloads of at least eight bytes tell frames apart: under one seed two
    sequence numbers never share a payload, and for one sequence number two
    seeds never do. *)
Theorem payloads_distinguish_frames n n' s s' b :
  in_u 64 n -> in_u 64 n' -> in_u 64 s -> in_u 64 s' -> 8 <= b ->
  (make_payload n s b = make_payload n' s b -> n = n') /\
  (make_payload n s b = make_payload n s' b -> s = s').
Proof.
  intros Hn Hn' Hs Hs' Hb.
  assert (Hword : forall a a' t t', in_u 64 a -> in_u 64 a' -> in_u 64 t -> in_u 64 t' ->
    make_payload a t b = make_payload a' t' b ->
    Z.lxor t (rotate_left 64 a 17) = Z.lxor t' (rotate_left 64 a' 17)).
  { intros a a' t t' Ha Ha' Ht Ht' H. apply (f_equal (take 8)) in H.
    rewrite !make_payload_first_block in H by done.
    apply to_le_bytes_inj in H; [|apply mix64_in..]. by apply block_word_inj. }
  split; intros H.
  - apply Hword in H; [|done..]. apply lxor_cancel_l in H. by apply rotate_inj.
  - apply Hword in H; [|done..]. rewrite !(Z.lxor_comm _ (rotate_left 64 n 17)) in H.
    by apply lxor_cancel_l in H.
Qed.

Module SyntheticExamples.
Import MediaMetadata.TimelineExamples.
Definition config : SyntheticConfig.t :=
  SyntheticConfig.mk (VideoFormat.mk (FrameDimensions.mk 64 64) hz60) 12 30 7.
Definition producer : SyntheticFrameProducer.t := SyntheticFrameProducer.mk config (Some 60).
Lemma producer_wf : SyntheticFrameProducer.wf producer.
Proof.
  split; [split; [apply hz60_wf|by vm_compute|by vm_compute|by vm_compute]|]. by intros n [= <-].
Qed.

Lemma producer_follows_its_settings_witness :
  exists p' f, SyntheticFrameProducer.next producer = (p', Ok (Some f)) /\
    FrameMetadata.kind (MediaFrame.metadata f) = FrameKind.Key /\ MediaFrame.payload_len f = 12.
Proof.
  destruct (producer_follows_its_settings producer 60 90 producer_wf) as [(p' & f & H1 & _ & _ & _ & _ & H2 & H3) _];
    [by vm_compute|reflexivity|].
  exists p', f. split; [exact H1|]. split; [|exact H2]. apply H3. by exists 2.
Defined.

Lemma payloads_distinguish_frames_witness : make_payload 5 7 12 <> make_payload 6 7 12.
Proof.
  destruct (payloads_distinguish_frames 5 6 7 7 12) as [H1 _];
    [vm_compute; split; (discriminate || reflexivity)..|vm_compute; discriminate|].
  intros H. apply H1 in H. discriminate H.
Defined.
End SyntheticExamples.
