(* ===== verification/TransportPacket.v ===== *)
(** * Packets, limits and the transport interface

    Models [packet.rs] and [transport.rs] of [crates/ladoflow-transport]. The
    trait [PacketTransport] is a class; [PacketTransportLaws] states what its
    documentation promises, over the packets an endpoint may still send and
    receive, and an implementation discharges it. *)
From stdpp Require Import pretty.
From S2P Require Export Bytes.
Local Open Scope string_scope.
Local Open Scope list_scope.
Local Open Scope Z_scope.

Module Channel.
Inductive t : Type :=
| Control
| Media.
#[global] Instance t_eq_dec : EqDecision t.
Proof. solve_decision. Defined.
(** The derived [Debug]. *)
Definition debug (c : t) : string :=
  match c with
  | Control => "Control"
  | Media => "Media"
  end.
End Channel.

Module SupersessionKey.
Record t : Type := new { get : Z }.
#[global] Instance t_eq_dec : EqDecision t.
Proof. solve_decision. Defined.
End SupersessionKey.

Module Packet.
Record t : Type := mk {
  channel : Channel.t;
  supersession_key : option SupersessionKey.t;
  payload : list byte;
}.
#[global] Instance t_eq_dec : EqDecision t.
Proof. solve_decision. Defined.

Definition control (payload : list byte) : t := mk Channel.Control None payload.
Definition media (payload : list byte) : t := mk Channel.Media None payload.
Definition replaceable_media (key : SupersessionKey.t) (payload : list byte) : t :=
  mk Channel.Media (Some key) payload.
Definition len (self : t) : Z := zlen (payload self).
Definition is_empty (self : t) : bool := bool_decide (payload self = []).

(** The packets the constructors build: only media carries a key. *)
Definition wf (p : t) : Prop := channel p = Channel.Control -> supersession_key p = None.
End Packet.

Module ConnectionState.
Inductive t : Type :=
| Connected
| Disconnected.
#[global] Instance t_eq_dec : EqDecision t.
Proof. solve_decision. Defined.
End ConnectionState.

Module QueueLimitsError.
Inductive t : Type :=
| ZeroPacketCapacity
| ZeroByteCapacity
| ZeroPacketSizeLimit
| PacketSizeLimitExceedsCapacity (max_packet_bytes max_queued_bytes : Z).
Definition to_string (e : t) : string :=
  match e with
  | ZeroPacketCapacity => "packet capacity must be nonzero"
  | ZeroByteCapacity => "byte capacity must be nonzero"
  | ZeroPacketSizeLimit => "per-packet byte limit must be nonzero"
  | PacketSizeLimitExceedsCapacity max_packet_bytes max_queued_bytes =>
      "per-packet byte limit " +:+ pretty max_packet_bytes +:+
      " exceeds queue byte capacity " +:+ pretty max_queued_bytes
  end.
End QueueLimitsError.

Module QueueLimits.
Record t : Type := mk {
  packet_capacity : Z;
  byte_capacity : Z;
  packet_size_limit : Z;
}.
#[global] Instance t_eq_dec : EqDecision t.
Proof. solve_decision. Defined.

Definition new (max_packets max_queued_bytes max_packet_bytes : Z)
  : outcome QueueLimitsError.t t :=
  if max_packets =? 0 then Err QueueLimitsError.ZeroPacketCapacity
  else if max_queued_bytes =? 0 then Err QueueLimitsError.ZeroByteCapacity
  else if max_packet_bytes =? 0 then Err QueueLimitsError.ZeroPacketSizeLimit
  else if max_packet_bytes >? max_queued_bytes
  then Err (QueueLimitsError.PacketSizeLimitExceedsCapacity max_packet_bytes max_queued_bytes)
  else Ok (mk max_packets max_queued_bytes max_packet_bytes).

Record wf (l : t) : Prop := {
  wf_packets : 0 < packet_capacity l < 2 ^ 64;
  wf_bytes : byte_capacity l < 2 ^ 64;
  wf_size : 0 < packet_size_limit l <= byte_capacity l;
}.
End QueueLimits.

Module QueueDepth.
Record t : Type := new {
  packets : Z;
  bytes : Z;
}.
#[global] Instance t_eq_dec : EqDecision t.
Proof. solve_decision. Defined.
Definition default : t := new 0 0.
Definition saturating_add (self other : t) : t :=
  new (RustInt.saturating_add usize_bits (packets self) (packets other))
      (RustInt.saturating_add usize_bits (bytes self) (bytes other)).
Definition is_empty (self : t) : bool := packets self =? 0.
End QueueDepth.

Module SendReport.
Record t : Type := new { superseded : QueueDepth.t }.
#[global] Instance t_eq_dec : EqDecision t.
Proof. solve_decision. Defined.
End SendReport.

Module SendError.
Inductive t : Type :=
| Disconnected (packet : Packet.t)
| Full (packet : Packet.t) (depth : QueueDepth.t) (limits : QueueLimits.t)
| PacketTooLarge (packet : Packet.t) (size limit : Z).
#[global] Instance t_eq_dec : EqDecision t.
Proof. solve_decision. Defined.

(** [packet] and [into_packet]. *)
Definition packet (e : t) : Packet.t :=
  match e with
  | Disconnected p => p
  | Full p _ _ => p
  | PacketTooLarge p _ _ => p
  end.

Definition to_string (e : t) : string :=
  match e with
  | Disconnected p => Channel.debug (Packet.channel p) +:+ " channel is disconnected"
  | Full p _ _ => Channel.debug (Packet.channel p) +:+ " channel queue is full"
  | PacketTooLarge p size limit =>
      Channel.debug (Packet.channel p) +:+ " packet has " +:+ pretty size +:+
      " bytes, exceeding the " +:+ pretty limit +:+ "-byte limit"
  end.
End SendError.

Module ReceiveError.
Inductive t : Type :=
| Disconnected.
#[global] Instance t_eq_dec : EqDecision t.
Proof. solve_decision. Defined.
Definition to_string (e : t) : string :=
  match e with
  | Disconnected => "transport is disconnected"
  end.
End ReceiveError.

(** [trait PacketTransport]. *)
Class PacketTransport (T : Type) := {
  connection_state : T -> ConnectionState.t;
  try_send : T -> Packet.t -> T * outcome SendError.t SendReport.t;
  try_receive : T -> Channel.t -> T * outcome ReceiveError.t (option Packet.t);
}.

(** The packets of a queue that a new packet makes obsolete, and the others. *)
Definition obsoletes (p q : Packet.t) : Prop :=
  Packet.supersession_key p <> None /\ Packet.supersession_key q = Packet.supersession_key p.
#[export] Instance obsoletes_dec p q : Decision (obsoletes p q).
Proof. unfold obsoletes; apply _. Defined.

Definition superseded_packets (p : Packet.t) (l : list Packet.t) : list Packet.t :=
  filter (obsoletes p) l.
Definition retained_packets (p : Packet.t) (l : list Packet.t) : list Packet.t :=
  filter (fun q => ~ obsoletes p q) l.

(** What the trait promises of an endpoint whose invariant holds: [outgoing]
    and [incoming] are the packets accepted but not yet received, oldest
    first, in each direction. *)
Class PacketTransportLaws (T : Type) `{PacketTransport T} := {
  endpoint_wf : T -> Prop;
  outgoing : T -> Channel.t -> list Packet.t;
  incoming : T -> Channel.t -> list Packet.t;
  send_disconnected : forall t p, connection_state t = ConnectionState.Disconnected ->
    try_send t p = (t, Err (SendError.Disconnected p));
  receive_disconnected : forall t c, connection_state t = ConnectionState.Disconnected ->
    try_receive t c = (t, Err ReceiveError.Disconnected);
  send_keeps_packet : forall t p t' e, endpoint_wf t ->
    try_send t p = (t', Err e) -> t' = t /\ SendError.packet e = p;
  send_appends : forall t p t' r, endpoint_wf t -> try_send t p = (t', Ok r) ->
    outgoing t' (Packet.channel p) =
      retained_packets p (outgoing t (Packet.channel p)) ++ [p] /\
    (forall c, c <> Packet.channel p -> outgoing t' c = outgoing t c) /\
    (forall c, incoming t' c = incoming t c) /\
    connection_state t' = connection_state t;
  receive_pops : forall t c, endpoint_wf t ->
    connection_state t = ConnectionState.Connected ->
    exists t', try_receive t c = (t', Ok (head (incoming t c))) /\
      incoming t' c = tail (incoming t c) /\
      (forall d, d <> c -> incoming t' d = incoming t d) /\
      (forall d, outgoing t' d = outgoing t d) /\
      connection_state t' = connection_state t;
  send_returns : forall t p, endpoint_wf t -> returns (snd (try_send t p));
  send_wf : forall t p, endpoint_wf t -> endpoint_wf (fst (try_send t p));
  receive_wf : forall t c, endpoint_wf t -> endpoint_wf (fst (try_receive t c));
}.

(** ** Facts on limits and obsolescence *)
Lemma QueueLimits_new_iff a b c l :
  in_u usize_bits a -> in_u usize_bits b -> in_u usize_bits c ->
  QueueLimits.new a b c = Ok l <-> l = QueueLimits.mk a b c /\ QueueLimits.wf l.
Proof.
  unfold_int. intros Ha Hb Hc. unfold QueueLimits.new. rewrite Z.gtb_ltb.
  destruct (Z.eqb_spec a 0), (Z.eqb_spec b 0), (Z.eqb_spec c 0), (Z.ltb_spec b c); split;
    try (intros [=]; fail); try (intros [-> [? ? ?]]; simpl in *; lia).
  - intros [= <-]. split; [done|]. split; simpl; lia.
  - by intros [-> _].
Qed.

Lemma retained_plain p l : Packet.supersession_key p = None -> retained_packets p l = l.
Proof.
  intros Hk. unfold retained_packets. induction l as [|q l IH]; [done|].
  rewrite filter_cons_True; [by rewrite IH|]. unfold obsoletes. naive_solver.
Qed.

Lemma retained_sublist p l : retained_packets p l `sublist_of` l.
Proof. apply sublist_filter. Qed.

(** ** Endpoints a loop can rely on *)

(** What a loop over an endpoint needs of it, whatever else happens on the link
    between two of its calls. *)
Class EndpointSafety (T : Type) `{PacketTransport T} := {
  safe : T -> Prop;
  safe_send : forall t p, safe t -> safe (fst (try_send t p)) /\ returns (snd (try_send t p));
  safe_receive : forall t c, safe t ->
    safe (fst (try_receive t c)) /\ returns (snd (try_receive t c));
  safe_full : forall t p t' q d l, safe t ->
    try_send t p = (t', Err (SendError.Full q d l)) -> q = p;
}.

(** An endpoint that keeps the transport laws is one. *)
#[export, refine] Instance lawful_safety `{PacketTransportLaws T} : EndpointSafety T := {
  safe := endpoint_wf;
}.
Proof.
  - intros t p Ht. split; [by apply send_wf|by apply send_returns].
  - intros t c Ht. split; [by apply receive_wf|].
    destruct (connection_state t) eqn:Hc.
    + destruct (receive_pops t c Ht Hc) as (t' & -> & _). done.
    + by rewrite receive_disconnected.
  - intros t p t' q d l Ht Hs. by apply send_keeps_packet in Hs as [_ <-].
Defined.
