(* ===== verification/TransportLoopback.v ===== *)
(** * The bounded in-memory link

    Models [crates/ladoflow-transport/src/loopback.rs]: byte- and
    packet-bounded queues with supersession, two directions of two lanes, and
    the link both endpoints share. An endpoint's value is the shared link under
    its mutex together with its side, so every method is one atomic step on the
    link. *)
From S2P Require Export TransportPacket.
Local Open Scope string_scope.
Local Open Scope list_scope.
Local Open Scope Z_scope.

Definition valid_limits (max_packets max_queued_bytes max_packet_bytes : Z)
  : outcome Empty_set QueueLimits.t :=
  match QueueLimits.new max_packets max_queued_bytes max_packet_bytes with
  | Ok limits => Ok limits
  | _ => Fault Panicked
  end.

Module LoopbackConfig.
Record t : Type := new {
  control : QueueLimits.t;
  media : QueueLimits.t;
}.

Definition default_config : outcome Empty_set t :=
  let! control := valid_limits 64 (4 * 1024 * 1024) (64 * 1024) in
  let! media := valid_limits 3 (32 * 1024 * 1024) (16 * 1024 * 1024) in
  Ok (new control media).

Definition wf (c : t) : Prop := QueueLimits.wf (control c) /\ QueueLimits.wf (media c).
End LoopbackConfig.

Module BoundedQueue.
Record t : Type := mk {
  limits : QueueLimits.t;
  packets : list Packet.t;
  queued_bytes : Z;
}.

Definition new (limits : QueueLimits.t) : t := mk limits [] 0.
Definition depth (self : t) : QueueDepth.t :=
  QueueDepth.new (zlen (packets self)) (queued_bytes self).

(** The loop of [superseded_by]. *)
Fixpoint superseded_loop (key : SupersessionKey.t) (packets bytes : Z) (l : list Packet.t)
  : QueueDepth.t :=
  match l with
  | [] => QueueDepth.new packets bytes
  | queued :: l =>
    if bool_decide (Packet.supersession_key queued = Some key)
    then superseded_loop key (saturating_add usize_bits packets 1)
           (saturating_add usize_bits bytes (Packet.len queued)) l
    else superseded_loop key packets bytes l
  end.

Definition superseded_by (self : t) (packet : Packet.t) : QueueDepth.t :=
  match Packet.supersession_key packet with
  | None => QueueDepth.default
  | Some key => superseded_loop key 0 0 (packets self)
  end.

Definition try_push (self : t) (packet : Packet.t) : t * outcome SendError.t SendReport.t :=
  let packet_size := Packet.len packet in
  if packet_size >? QueueLimits.packet_size_limit (limits self)
  then (self, Err (SendError.PacketTooLarge packet packet_size
                     (QueueLimits.packet_size_limit (limits self))))
  else
    let superseded := superseded_by self packet in
    let? retained_packets := chk usize_bits (zlen (packets self) - QueueDepth.packets superseded)
      keeping self in
    let? retained_bytes := chk usize_bits (queued_bytes self - QueueDepth.bytes superseded)
      keeping self in
    let packet_slots_full := retained_packets >=? QueueLimits.packet_capacity (limits self) in
    let? free := chk usize_bits (QueueLimits.byte_capacity (limits self) - retained_bytes)
      keeping self in
    let byte_capacity_full := packet_size >? free in
    if packet_slots_full || byte_capacity_full
    then (self, Err (SendError.Full packet (depth self) (limits self)))
    else
      let kept :=
        match Packet.supersession_key packet with
        | Some key => filter (fun queued => Packet.supersession_key queued <> Some key) (packets self)
        | None => packets self
        end in
      let? queued_bytes := chk usize_bits (retained_bytes + packet_size)
        keeping (mk (limits self) kept (queued_bytes self)) in
      (mk (limits self) (kept ++ [packet]) queued_bytes, Ok (SendReport.new superseded)).

Definition pop (self : t) : t * outcome Empty_set (option Packet.t) :=
  match packets self with
  | [] => (self, Ok None)
  | packet :: rest =>
    let? queued_bytes := chk usize_bits (queued_bytes self - Packet.len packet)
      keeping (mk (limits self) rest (queued_bytes self)) in
    (mk (limits self) rest queued_bytes, Ok (Some packet))
  end.

Definition clear (self : t) : t * QueueDepth.t := (mk (limits self) [] 0, depth self).
End BoundedQueue.

Module ClearedQueues.
Record t : Type := mk {
  control : QueueDepth.t;
  media : QueueDepth.t;
}.
Definition saturating_add (self other : t) : t :=
  mk (QueueDepth.saturating_add (control self) (control other))
     (QueueDepth.saturating_add (media self) (media other)).
End ClearedQueues.

Module Direction.
Record t : Type := mk {
  control : BoundedQueue.t;
  media : BoundedQueue.t;
}.

Definition new (config : LoopbackConfig.t) : t :=
  mk (BoundedQueue.new (LoopbackConfig.control config))
     (BoundedQueue.new (LoopbackConfig.media config)).

Definition lane (self : t) (channel : Channel.t) : BoundedQueue.t :=
  match channel with
  | Channel.Control => control self
  | Channel.Media => media self
  end.

Definition set_lane (self : t) (channel : Channel.t) (q : BoundedQueue.t) : t :=
  match channel with
  | Channel.Control => mk q (media self)
  | Channel.Media => mk (control self) q
  end.

Definition try_push (self : t) (packet : Packet.t) : t * outcome SendError.t SendReport.t :=
  let (q, r) := BoundedQueue.try_push (lane self (Packet.channel packet)) packet in
  (set_lane self (Packet.channel packet) q, r).

Definition pop (self : t) (channel : Channel.t) : t * outcome Empty_set (option Packet.t) :=
  let (q, r) := BoundedQueue.pop (lane self channel) in
  (set_lane self channel q, r).

Definition clear (self : t) : t * ClearedQueues.t :=
  let (c, dc) := BoundedQueue.clear (control self) in
  let (m, dm) := BoundedQueue.clear (media self) in
  (mk c m, ClearedQueues.mk dc dm).
End Direction.

Module Side.
Inductive t : Type :=
| First
| Second.
#[global] Instance t_eq_dec : EqDecision t.
Proof. solve_decision. Defined.
End Side.

Module DisconnectReport.
Record t : Type := mk {
  was_connected : bool;
  discarded_control : QueueDepth.t;
  discarded_media : QueueDepth.t;
}.
End DisconnectReport.

Module Link.
Record t : Type := mk {
  connected : bool;
  first_to_second : Direction.t;
  second_to_first : Direction.t;
}.

Definition new (config : LoopbackConfig.t) : t :=
  mk true (Direction.new config) (Direction.new config).

(** [outgoing_mut] and [incoming_mut]: a view and its update. *)
Definition outgoing (self : t) (side : Side.t) : Direction.t :=
  match side with
  | Side.First => first_to_second self
  | Side.Second => second_to_first self
  end.
Definition set_outgoing (self : t) (side : Side.t) (d : Direction.t) : t :=
  match side with
  | Side.First => mk (connected self) d (second_to_first self)
  | Side.Second => mk (connected self) (first_to_second self) d
  end.
Definition incoming (self : t) (side : Side.t) : Direction.t :=
  match side with
  | Side.First => second_to_first self
  | Side.Second => first_to_second self
  end.
Definition set_incoming (self : t) (side : Side.t) (d : Direction.t) : t :=
  match side with
  | Side.First => mk (connected self) (first_to_second self) d
  | Side.Second => mk (connected self) d (second_to_first self)
  end.

Definition clear (self : t) : t * ClearedQueues.t :=
  let (a, ca) := Direction.clear (first_to_second self) in
  let (b, cb) := Direction.clear (second_to_first self) in
  (mk (connected self) a b, ClearedQueues.saturating_add ca cb).

Definition set_connected (self : t) (connected : bool) : t :=
  mk connected (first_to_second self) (second_to_first self).
End Link.

Module LoopbackEndpoint.
Record t : Type := mk {
  side : Side.t;
  link : Link.t;
}.
Definition set_link (self : t) (link : Link.t) : t := mk (side self) link.

Definition disconnect (self : t) : t * DisconnectReport.t :=
  let was_connected := Link.connected (link self) in
  let l := Link.set_connected (link self) false in
  let (l, discarded) := Link.clear l in
  (set_link self l,
   DisconnectReport.mk was_connected (ClearedQueues.control discarded)
     (ClearedQueues.media discarded)).

Definition reconnect (self : t) : t * bool :=
  if Link.connected (link self) then (self, false)
  else
    let (l, _) := Link.clear (link self) in
    (set_link self (Link.set_connected l true), true).

Definition connection_state (self : t) : ConnectionState.t :=
  if Link.connected (link self) then ConnectionState.Connected else ConnectionState.Disconnected.

Definition try_send (self : t) (packet : Packet.t) : t * outcome SendError.t SendReport.t :=
  if negb (Link.connected (link self)) then (self, Err (SendError.Disconnected packet))
  else
    let (d, r) := Direction.try_push (Link.outgoing (link self) (side self)) packet in
    (set_link self (Link.set_outgoing (link self) (side self) d), r).

Definition try_receive (self : t) (channel : Channel.t)
  : t * outcome ReceiveError.t (option Packet.t) :=
  if negb (Link.connected (link self)) then (self, Err ReceiveError.Disconnected)
  else
    let (d, r) := Direction.pop (Link.incoming (link self) (side self)) channel in
    (set_link self (Link.set_incoming (link self) (side self) d),
     match r with
     | Ok p => Ok p
     | Err e => match e with end
     | Fault f => Fault f
     end).
End LoopbackEndpoint.

(** [loopback_pair]: two sides of one link. *)
Definition loopback_pair (config : LoopbackConfig.t) : LoopbackEndpoint.t * LoopbackEndpoint.t :=
  let link := Link.new config in
  (LoopbackEndpoint.mk Side.First link, LoopbackEndpoint.mk Side.Second link).

#[export] Instance loopback_transport : PacketTransport LoopbackEndpoint.t := {
  connection_state := LoopbackEndpoint.connection_state;
  try_send := LoopbackEndpoint.try_send;
  try_receive := LoopbackEndpoint.try_receive;
}.

(** ** Queue accounting *)
Definition bytes_of (l : list Packet.t) : Z := foldr (fun p acc => Packet.len p + acc) 0 l.

Record queue_wf (q : BoundedQueue.t) : Prop := {
  queue_limits : QueueLimits.wf (BoundedQueue.limits q);
  queue_packets : zlen (BoundedQueue.packets q) <= QueueLimits.packet_capacity (BoundedQueue.limits q);
  queue_counted : BoundedQueue.queued_bytes q = bytes_of (BoundedQueue.packets q);
  queue_bytes : BoundedQueue.queued_bytes q <= QueueLimits.byte_capacity (BoundedQueue.limits q);
}.

Lemma bytes_of_app a b : bytes_of (a ++ b) = bytes_of a + bytes_of b.
Proof. unfold bytes_of. induction a; simpl; lia. Qed.

Lemma bytes_of_nonneg l : 0 <= bytes_of l.
Proof. unfold bytes_of, Packet.len. induction l; cbn [foldr]; lia. Qed.

Lemma split_by_obsolescence p l :
  bytes_of (superseded_packets p l) + bytes_of (retained_packets p l) = bytes_of l /\
  zlen (superseded_packets p l) + zlen (retained_packets p l) = zlen l.
Proof.
  unfold superseded_packets, retained_packets. induction l as [|q l [IH1 IH2]]; [done|].
  rewrite !filter_cons. unfold bytes_of in *. destruct (decide (obsoletes p q)) as [H|H].
  - rewrite (decide_False (P := ~ obsoletes p q)) by naive_solver. simpl in *. lia.
  - rewrite (decide_True (P := ~ obsoletes p q)) by done. simpl in *. lia.
Qed.

Lemma superseded_loop_ok key p l n b :
  Packet.supersession_key p = Some key ->
  0 <= n -> 0 <= b -> n + zlen l < 2 ^ 64 -> b + bytes_of l < 2 ^ 64 ->
  BoundedQueue.superseded_loop key n b l =
    QueueDepth.new (n + zlen (superseded_packets p l)) (b + bytes_of (superseded_packets p l)).
Proof.
  intros Hk. revert n b. unfold superseded_packets.
  induction l as [|q l IH]; intros n b Hn Hb Hnl Hbl.
  { rewrite filter_nil. unfold bytes_of. simpl. by rewrite !Z.add_0_r. }
  cbn [BoundedQueue.superseded_loop length] in *.
  unfold bytes_of in Hbl. cbn [foldr] in Hbl. fold (bytes_of l) in Hbl.
  pose proof (bytes_of_nonneg l). unfold Packet.len in *.
  assert (Hiff : obsoletes p q <-> Packet.supersession_key q = Some key)
    by (unfold obsoletes; rewrite Hk; naive_solver).
  case_bool_decide as Hq.
  - rewrite filter_cons_True by by apply Hiff. rewrite IH.
    + unfold saturating_add, u_max, usize_bits, bytes_of, Packet.len. cbn [foldr length]. f_equal; lia.
    + unfold saturating_add, u_max, usize_bits. lia.
    + unfold saturating_add, u_max, usize_bits. lia.
    + unfold saturating_add, u_max, usize_bits. lia.
    + unfold saturating_add, u_max, usize_bits, Packet.len. lia.
  - rewrite filter_cons_False by by rewrite Hiff. apply IH; (done || lia).
Qed.

Lemma superseded_by_ok q p :
  queue_wf q ->
  BoundedQueue.superseded_by q p =
    QueueDepth.new (zlen (superseded_packets p (BoundedQueue.packets q)))
      (bytes_of (superseded_packets p (BoundedQueue.packets q))).
Proof.
  intros [[Hp Hby Hs] Hn Hc Hb]. unfold BoundedQueue.superseded_by.
  destruct (Packet.supersession_key p) as [key|] eqn:Hk.
  - rewrite (superseded_loop_ok key p) by (done || lia). f_equal; lia.
  - pose proof (split_by_obsolescence p (BoundedQueue.packets q)) as [H1 H2].
    rewrite (retained_plain p) in H1, H2 by done. unfold QueueDepth.default. f_equal; lia.
Qed.

(** What one push does, on every branch: nothing panics. *)
Lemma try_push_spec q p :
  queue_wf q ->
  let kept := retained_packets p (BoundedQueue.packets q) in
  let gone := superseded_packets p (BoundedQueue.packets q) in
  let l := BoundedQueue.limits q in
  BoundedQueue.try_push q p =
    if Packet.len p >? QueueLimits.packet_size_limit l
    then (q, Err (SendError.PacketTooLarge p (Packet.len p) (QueueLimits.packet_size_limit l)))
    else if (zlen kept >=? QueueLimits.packet_capacity l) ||
            (Packet.len p + bytes_of kept >? QueueLimits.byte_capacity l)
    then (q, Err (SendError.Full p (BoundedQueue.depth q) l))
    else (BoundedQueue.mk l (kept ++ [p]) (bytes_of kept + Packet.len p),
          Ok (SendReport.new (QueueDepth.new (zlen gone) (bytes_of gone)))).
Proof.
  intros Hwf. cbv zeta. unfold BoundedQueue.try_push. rewrite superseded_by_ok by done.
  cbn [QueueDepth.packets QueueDepth.bytes].
  pose proof Hwf as [[Hp Hby Hs] Hn Hc Hb].
  pose proof (split_by_obsolescence p (BoundedQueue.packets q)) as [H1 H2].
  set (kept := retained_packets p (BoundedQueue.packets q)) in *.
  set (gone := superseded_packets p (BoundedQueue.packets q)) in *.
  pose proof (bytes_of_nonneg kept). pose proof (bytes_of_nonneg gone).
  destruct (_ >? _) eqn:Hsize; [done|]. rewrite Z.gtb_ltb in Hsize. apply Z.ltb_ge in Hsize.
  assert (0 <= Packet.len p) by (unfold Packet.len; lia).
  rewrite chk_ok by (unfold_int; lia). cbn [otry].
  rewrite chk_ok by (unfold_int; lia). cbn [otry].
  rewrite chk_ok by (unfold_int; lia). cbn [otry].
  replace (zlen (BoundedQueue.packets q) - zlen gone) with (zlen kept) by lia.
  replace (BoundedQueue.queued_bytes q - bytes_of gone) with (bytes_of kept) by lia.
  rewrite !Z.gtb_ltb.
  destruct (Z.ltb_spec (QueueLimits.byte_capacity (BoundedQueue.limits q) - bytes_of kept)
      (Packet.len p)),
    (Z.ltb_spec (QueueLimits.byte_capacity (BoundedQueue.limits q)) (Packet.len p + bytes_of kept));
    try lia; destruct (_ >=? _); cbn [orb]; try done.
  rewrite chk_ok by (unfold_int; lia). cbn [otry].
  assert (Hkept : (match Packet.supersession_key p with
    | Some key => filter (fun queued => Packet.supersession_key queued <> Some key)
        (BoundedQueue.packets q)
    | None => BoundedQueue.packets q
    end) = kept); [|by rewrite Hkept].
  unfold kept. destruct (Packet.supersession_key p) as [key|] eqn:Hk.
  - unfold retained_packets. apply list_filter_iff. intros x. unfold obsoletes. rewrite Hk. naive_solver.
  - by rewrite retained_plain.
Qed.

Lemma try_push_wf q p : queue_wf q -> queue_wf (fst (BoundedQueue.try_push q p)).
Proof.
  intros Hwf. rewrite try_push_spec by done.
  destruct (_ >? _); [done|]. rewrite Z.geb_leb, Z.gtb_ltb.
  destruct (Z.leb_spec (QueueLimits.packet_capacity (BoundedQueue.limits q))
    (zlen (retained_packets p (BoundedQueue.packets q)))); [done|].
  destruct (Z.ltb_spec (QueueLimits.byte_capacity (BoundedQueue.limits q))
    (Packet.len p + bytes_of (retained_packets p (BoundedQueue.packets q)))); [done|].
  destruct Hwf as [Hl _ _ _]. split; simpl; [done|..].
  - rewrite length_app. cbn [length]. lia.
  - rewrite bytes_of_app. unfold bytes_of at 3. simpl. lia.
  - lia.
Qed.

Lemma pop_spec q :
  queue_wf q ->
  BoundedQueue.pop q =
    (BoundedQueue.mk (BoundedQueue.limits q) (tail (BoundedQueue.packets q))
       (bytes_of (tail (BoundedQueue.packets q))), Ok (head (BoundedQueue.packets q))).
Proof.
  intros [[Hp Hby Hs] Hn Hc Hb]. unfold BoundedQueue.pop.
  destruct q as [l [|p ps] b]; simpl in *; [by subst b|].
  unfold bytes_of in Hc. cbn [foldr] in Hc. fold (bytes_of ps) in Hc.
  pose proof (bytes_of_nonneg ps). assert (0 <= Packet.len p) by (unfold Packet.len; lia).
  rewrite chk_ok by (unfold_int; lia). cbn [otry].
  by replace (b - Packet.len p) with (bytes_of ps) by lia.
Qed.

Lemma pop_wf q : queue_wf q -> queue_wf (fst (BoundedQueue.pop q)).
Proof.
  intros Hwf. rewrite pop_spec by done. destruct Hwf as [Hl Hn Hc Hb].
  pose proof Hl as [? ? ?]. destruct q as [l [|p ps] b]; cbn [BoundedQueue.limits BoundedQueue.packets
    BoundedQueue.queued_bytes fst tail length] in *.
  - split; cbn; [done|lia|done|lia].
  - unfold bytes_of in Hc. cbn [foldr] in Hc. fold (bytes_of ps) in Hc. unfold Packet.len in Hc.
    split; cbn [BoundedQueue.limits BoundedQueue.packets BoundedQueue.queued_bytes]; [done|lia|done|lia].
Qed.

Lemma empty_queue_wf l : QueueLimits.wf l -> queue_wf (BoundedQueue.new l).
Proof. intros Hl. pose proof Hl as [? ? ?]. split; simpl; [done|lia|done|lia]. Qed.

(** ** The link as two directions of two lanes *)

Definition other (s : Side.t) : Side.t :=
  match s with
  | Side.First => Side.Second
  | Side.Second => Side.First
  end.

(** The queue that carries [c] traffic sent by side [s]. *)
Definition lane_queue (l : Link.t) (s : Side.t) (c : Channel.t) : BoundedQueue.t :=
  Direction.lane (Link.outgoing l s) c.
Definition lane_packets (l : Link.t) (s : Side.t) (c : Channel.t) : list Packet.t :=
  BoundedQueue.packets (lane_queue l s c).

(** Replace that queue. *)
Definition set_lane_queue (l : Link.t) (s : Side.t) (c : Channel.t) (q : BoundedQueue.t) : Link.t :=
  Link.set_outgoing l s (Direction.set_lane (Link.outgoing l s) c q).

Definition link_wf (l : Link.t) : Prop := forall s c, queue_wf (lane_queue l s c).

Lemma lane_set_same l s c q : lane_queue (set_lane_queue l s c q) s c = q.
Proof. by destruct s, c. Qed.

Lemma lane_set_other l s c q s' c' :
  (s', c') <> (s, c) -> lane_queue (set_lane_queue l s c q) s' c' = lane_queue l s' c'.
Proof. by destruct s, c, s', c'. Qed.

Lemma lane_packets_set_same l s c q :
  lane_packets (set_lane_queue l s c q) s c = BoundedQueue.packets q.
Proof. unfold lane_packets. by rewrite lane_set_same. Qed.

Lemma lane_packets_set_other l s c q s' c' :
  (s', c') <> (s, c) -> lane_packets (set_lane_queue l s c q) s' c' = lane_packets l s' c'.
Proof. intros H. unfold lane_packets. by rewrite lane_set_other. Qed.

Lemma connected_set_lane l s c q : Link.connected (set_lane_queue l s c q) = Link.connected l.
Proof. by destruct s. Qed.

Lemma set_lane_wf l s c q : link_wf l -> queue_wf q -> link_wf (set_lane_queue l s c q).
Proof.
  intros Hl Hq s' c'. destruct (decide ((s', c') = (s, c))) as [[= -> ->]|Hne].
  - by rewrite lane_set_same.
  - rewrite lane_set_other by done. apply Hl.
Qed.

Lemma new_link_wf config : LoopbackConfig.wf config -> link_wf (Link.new config).
Proof. intros [Hc Hm] [] []; by apply empty_queue_wf. Qed.

(** The methods of an endpoint act on one lane. *)
Lemma send_connected s l p :
  Link.connected l = true ->
  LoopbackEndpoint.try_send (LoopbackEndpoint.mk s l) p =
    (LoopbackEndpoint.mk s (set_lane_queue l s (Packet.channel p)
       (fst (BoundedQueue.try_push (lane_queue l s (Packet.channel p)) p))),
     snd (BoundedQueue.try_push (lane_queue l s (Packet.channel p)) p)).
Proof.
  intros Hc. unfold LoopbackEndpoint.try_send. simpl. rewrite Hc. simpl.
  unfold Direction.try_push, lane_queue, set_lane_queue.
  by destruct (BoundedQueue.try_push _ p) as [q r].
Qed.

Lemma receive_connected s l c :
  Link.connected l = true -> link_wf l ->
  LoopbackEndpoint.try_receive (LoopbackEndpoint.mk s l) c =
    (LoopbackEndpoint.mk s (set_lane_queue l (other s) c
       (fst (BoundedQueue.pop (lane_queue l (other s) c)))),
     Ok (head (lane_packets l (other s) c))).
Proof.
  intros Hc Hwf. unfold LoopbackEndpoint.try_receive. simpl. rewrite Hc. simpl.
  unfold Direction.pop, lane_packets, lane_queue, set_lane_queue.
  destruct s; cbn [Link.incoming other Link.outgoing Link.set_incoming Link.set_outgoing].
  - rewrite (pop_spec (Direction.lane (Link.second_to_first l) c)) by apply (Hwf Side.Second). done.
  - rewrite (pop_spec (Direction.lane (Link.first_to_second l) c)) by apply (Hwf Side.First). done.
Qed.

Lemma set_lane_id l s c : set_lane_queue l s c (lane_queue l s c) = l.
Proof. by destruct l as [? [] []], s, c. Qed.

Lemma push_error_unchanged q p q' e :
  queue_wf q -> BoundedQueue.try_push q p = (q', Err e) -> q' = q /\ SendError.packet e = p.
Proof.
  intros Hwf. rewrite try_push_spec by done. repeat case_match; intros [= <- <-]; done.
Qed.

Lemma push_ok_inv q p q' r :
  queue_wf q -> BoundedQueue.try_push q p = (q', Ok r) ->
  BoundedQueue.packets q' = retained_packets p (BoundedQueue.packets q) ++ [p] /\
  r = SendReport.new (QueueDepth.new (zlen (superseded_packets p (BoundedQueue.packets q)))
        (bytes_of (superseded_packets p (BoundedQueue.packets q)))).
Proof.
  intros Hwf. rewrite try_push_spec by done. repeat case_match; intros [= <- <-]; done.
Qed.

Lemma returns_try_push q p : queue_wf q -> returns (snd (BoundedQueue.try_push q p)).
Proof. intros Hwf. rewrite try_push_spec by done. by repeat case_match. Qed.

Lemma endpoint_connected e :
  LoopbackEndpoint.connection_state e = ConnectionState.Connected <->
  Link.connected (LoopbackEndpoint.link e) = true.
Proof. unfold LoopbackEndpoint.connection_state. by destruct (Link.connected _). Qed.

Lemma endpoint_disconnected e :
  LoopbackEndpoint.connection_state e = ConnectionState.Disconnected <->
  Link.connected (LoopbackEndpoint.link e) = false.
Proof. unfold LoopbackEndpoint.connection_state. by destruct (Link.connected _). Qed.

Lemma channel_side_ne c d s : c <> d -> (s : Side.t, c : Channel.t) <> (s, d).
Proof. congruence. Qed.

Lemma other_ne s c d : (other s, c : Channel.t) <> (s, d).
Proof. destruct s; discriminate. Qed.

(** The loopback endpoint keeps the promises of the transport trait. *)
#[export, refine] Instance loopback_laws : PacketTransportLaws LoopbackEndpoint.t := {
  endpoint_wf := fun e => link_wf (LoopbackEndpoint.link e);
  outgoing := fun e c => lane_packets (LoopbackEndpoint.link e) (LoopbackEndpoint.side e) c;
  incoming := fun e c => lane_packets (LoopbackEndpoint.link e) (other (LoopbackEndpoint.side e)) c;
}.
Proof.
  - intros e p He. apply endpoint_disconnected in He. cbn. unfold LoopbackEndpoint.try_send.
    by rewrite He.
  - intros e c He. apply endpoint_disconnected in He. cbn. unfold LoopbackEndpoint.try_receive.
    by rewrite He.
  - intros [s l] p t' e Hwf Hs. cbn in Hwf, Hs.
    destruct (Link.connected l) eqn:Hc.
    + rewrite send_connected in Hs by done.
      destruct (BoundedQueue.try_push _ p) as [q r] eqn:Hp. cbn in Hs. injection Hs as <- ->.
      apply push_error_unchanged in Hp as [-> ->]; [|apply Hwf]. by rewrite set_lane_id.
    + unfold LoopbackEndpoint.try_send in Hs. simpl in Hs. rewrite Hc in Hs.
      by injection Hs as <- <-.
  - intros [s l] p t' r Hwf Hs. cbn in Hwf, Hs. destruct (Link.connected l) eqn:Hc.
    2:{ unfold LoopbackEndpoint.try_send in Hs. simpl in Hs. by rewrite Hc in Hs. }
    rewrite send_connected in Hs by done.
    destruct (BoundedQueue.try_push _ p) as [q r'] eqn:Hp. cbn in Hs. injection Hs as <- ->.
    apply push_ok_inv in Hp as [Hq _]; [|apply Hwf]. cbn. unfold lane_packets.
    rewrite lane_set_same. split; [done|]. split.
    { intros c Hne. rewrite lane_set_other; [done|]. by apply channel_side_ne. }
    split; [intros c; rewrite lane_set_other; [done|apply other_ne]|].
    unfold LoopbackEndpoint.connection_state. simpl. by rewrite connected_set_lane.
  - intros [s l] c Hwf Hc. cbn in Hwf. apply endpoint_connected in Hc. simpl in Hc. cbn in Hc.
    exists (LoopbackEndpoint.mk s (set_lane_queue l (other s) c
      (fst (BoundedQueue.pop (lane_queue l (other s) c))))).
    split; [by apply receive_connected|].
    cbn [LoopbackEndpoint.link LoopbackEndpoint.side]. unfold lane_packets. rewrite lane_set_same.
    rewrite pop_spec by apply Hwf. split; [done|].
    split; [intros d Hne; rewrite lane_set_other; [done|by apply channel_side_ne]|].
    split; [intros d; rewrite lane_set_other; [done|by destruct s]|].
    cbn [connection_state loopback_transport]. unfold LoopbackEndpoint.connection_state.
    cbn [LoopbackEndpoint.link]. by rewrite connected_set_lane.
  - intros [s l] p Hwf. cbn in *. destruct (Link.connected l) eqn:Hc.
    + rewrite send_connected by done. apply returns_try_push, Hwf.
    + unfold LoopbackEndpoint.try_send. simpl. by rewrite Hc.
  - intros [s l] p Hwf. cbn in *. destruct (Link.connected l) eqn:Hc.
    + rewrite send_connected by done. apply set_lane_wf; [done|]. apply try_push_wf, Hwf.
    + unfold LoopbackEndpoint.try_send. simpl. by rewrite Hc.
  - intros [s l] c Hwf. cbn in *. destruct (Link.connected l) eqn:Hc.
    + rewrite receive_connected by done. apply set_lane_wf; [done|]. apply pop_wf, Hwf.
    + unfold LoopbackEndpoint.try_receive. simpl. by rewrite Hc.
Defined.

(** ** A queue's accounting and freshness *)

(** At most one queued packet carries a given key. *)
Definition fresh_keys (l : list Packet.t) : Prop := NoDup (omap Packet.supersession_key l).

Lemma omap_key_in (k : SupersessionKey.t) (l : list Packet.t) :
  k ∈ omap Packet.supersession_key l <-> exists q, q ∈ l /\ Packet.supersession_key q = Some k.
Proof. rewrite list_elem_of_omap. naive_solver. Qed.

Lemma omap_sublist {A B} (f : A -> option B) (l k : list A) : l `sublist_of` k -> omap f l `sublist_of` omap f k.
Proof. induction 1; simpl; [done|..]; case_match; by try constructor. Qed.

Lemma fresh_sublist l k : l `sublist_of` k -> fresh_keys k -> fresh_keys l.
Proof. intros Hs Hk. eapply sublist_NoDup; [exact Hk|by apply omap_sublist]. Qed.

Lemma fresh_after_push p l : fresh_keys l -> fresh_keys (retained_packets p l ++ [p]).
Proof.
  intros Hl. unfold fresh_keys. rewrite omap_app. apply NoDup_app. split.
  { by apply (fresh_sublist _ l); [apply retained_sublist|]. }
  simpl. destruct (Packet.supersession_key p) as [k|] eqn:Hk.
  - split; [|apply NoDup_singleton]. intros k' Hk' ->%list_elem_of_singleton.
    apply omap_key_in in Hk' as (q & Hq & Hqk). unfold retained_packets in Hq.
    apply list_elem_of_filter in Hq as [Hno _]. apply Hno. unfold obsoletes. by rewrite Hk, Hqk.
  - split; [|constructor]. by intros k' _ ?%not_elem_of_nil.
Qed.

(** A push to a bounded queue never panics and decides exactly: a packet above the size limit
    is refused as too large; a packet that does not fit once the packets it supersedes are left out
    is refused as full with the queue's true depth; any other is appended after the retained
    packets, reporting exactly the packets and bytes superseded. The queue keeps its packet and byte
    bounds, and holds at most one packet per key. *)
Theorem queue_push_is_exact q p (Hwf : queue_wf q) (Hfresh : fresh_keys (BoundedQueue.packets q)) :
  let l := BoundedQueue.limits q in
  let kept := retained_packets p (BoundedQueue.packets q) in
  let gone := superseded_packets p (BoundedQueue.packets q) in
  let (q', r) := BoundedQueue.try_push q p in
  queue_wf q' /\ fresh_keys (BoundedQueue.packets q') /\ BoundedQueue.limits q' = l /\
  ((QueueLimits.packet_size_limit l < Packet.len p /\ q' = q /\
    r = Err (SendError.PacketTooLarge p (Packet.len p) (QueueLimits.packet_size_limit l))) \/
   (Packet.len p <= QueueLimits.packet_size_limit l /\
    (QueueLimits.packet_capacity l <= zlen kept \/
     QueueLimits.byte_capacity l < bytes_of kept + Packet.len p) /\ q' = q /\
    r = Err (SendError.Full p (QueueDepth.new (zlen (BoundedQueue.packets q))
               (bytes_of (BoundedQueue.packets q))) l)) \/
   (Packet.len p <= QueueLimits.packet_size_limit l /\ zlen kept < QueueLimits.packet_capacity l /\
    bytes_of kept + Packet.len p <= QueueLimits.byte_capacity l /\
    BoundedQueue.packets q' = kept ++ [p] /\
    r = Ok (SendReport.new (QueueDepth.new (zlen gone) (bytes_of gone))))).
Proof.
  cbv zeta. pose proof (try_push_wf q p Hwf) as Hwf'. rewrite try_push_spec in * by done.
  pose proof (queue_counted q Hwf) as Hcount.
  unfold BoundedQueue.depth in *. rewrite Hcount in *.
  rewrite Z.geb_leb, !Z.gtb_ltb in *.
  destruct (Z.ltb_spec (QueueLimits.packet_size_limit (BoundedQueue.limits q)) (Packet.len p)).
  { split_and!; [done..|]. by left. }
  destruct (Z.leb_spec (QueueLimits.packet_capacity (BoundedQueue.limits q))
    (zlen (retained_packets p (BoundedQueue.packets q)))).
  { split_and!; [done..|]. right. left. split_and!; [done|by left|done..]. }
  destruct (Z.ltb_spec (QueueLimits.byte_capacity (BoundedQueue.limits q))
    (Packet.len p + bytes_of (retained_packets p (BoundedQueue.packets q)))).
  { split_and!; [done..|]. right. left. split_and!; [done|right; lia|done..]. }
  split_and!; [done|by apply fresh_after_push|done|]. right. right. split_and!; (done || lia).
Qed.

(** ** Runs of the link *)

(** One call on either endpoint. *)
Module LinkCall.
Inductive t : Type :=
| Send (side : Side.t) (packet : Packet.t)
| Receive (side : Side.t) (channel : Channel.t)
| Disconnect (side : Side.t)
| Reconnect (side : Side.t).
End LinkCall.

(** What the caller learns of a packet accepted from, or delivered on, the lane
    of a sending side. *)
Module LinkEvent.
Inductive t : Type :=
| Accepted (side : Side.t) (packet : Packet.t) (superseded : QueueDepth.t)
| Delivered (side : Side.t) (channel : Channel.t) (packet : Packet.t).
End LinkEvent.

Definition link_call (l : Link.t) (c : LinkCall.t) : Link.t * list LinkEvent.t :=
  match c with
  | LinkCall.Send s p =>
    let (e, r) := LoopbackEndpoint.try_send (LoopbackEndpoint.mk s l) p in
    (LoopbackEndpoint.link e,
     match r with
     | Ok report => [LinkEvent.Accepted s p (SendReport.superseded report)]
     | _ => []
     end)
  | LinkCall.Receive s ch =>
    let (e, r) := LoopbackEndpoint.try_receive (LoopbackEndpoint.mk s l) ch in
    (LoopbackEndpoint.link e,
     match r with
     | Ok (Some p) => [LinkEvent.Delivered (other s) ch p]
     | _ => []
     end)
  | LinkCall.Disconnect s =>
    (LoopbackEndpoint.link (fst (LoopbackEndpoint.disconnect (LoopbackEndpoint.mk s l))), [])
  | LinkCall.Reconnect s =>
    (LoopbackEndpoint.link (fst (LoopbackEndpoint.reconnect (LoopbackEndpoint.mk s l))), [])
  end.

Fixpoint link_run (l : Link.t) (cs : list LinkCall.t) : Link.t * list LinkEvent.t :=
  match cs with
  | [] => (l, [])
  | c :: cs =>
    let (l, evs) := link_call l c in
    let (l', evs') := link_run l cs in
    (l', evs ++ evs')
  end.

Definition is_disconnect (c : LinkCall.t) : Prop :=
  match c with
  | LinkCall.Disconnect _ => True
  | _ => False
  end.

Definition accepted (s : Side.t) (c : Channel.t) (evs : list LinkEvent.t) : list Packet.t :=
  omap (fun ev => match ev with
    | LinkEvent.Accepted s' p _ =>
      if decide ((s', Packet.channel p) = (s, c)) then Some p else None
    | LinkEvent.Delivered _ _ _ => None
    end) evs.

Definition delivered (s : Side.t) (c : Channel.t) (evs : list LinkEvent.t) : list Packet.t :=
  omap (fun ev => match ev with
    | LinkEvent.Delivered s' c' p => if decide ((s', c') = (s, c)) then Some p else None
    | LinkEvent.Accepted _ _ _ => None
    end) evs.

(** The packets the accepted sends of one lane report as superseded. *)
Definition reported (s : Side.t) (c : Channel.t) (evs : list LinkEvent.t) : Z :=
  foldr (fun ev acc => match ev with
    | LinkEvent.Accepted s' p d =>
      if decide ((s', Packet.channel p) = (s, c)) then QueueDepth.packets d + acc else acc
    | LinkEvent.Delivered _ _ _ => acc
    end) 0 evs.

(** One lane across a call: what it held and accepted against what it delivered
    and still holds. *)
Record lane_flow (held taken given left : list Packet.t) (dropped : Z) : Prop := {
  flow_order : given ++ left `sublist_of` held ++ taken;
  flow_count : zlen given + zlen left + dropped = zlen held + zlen taken;
  flow_exact : Forall (fun p => Packet.supersession_key p = None) taken ->
    given ++ left = held ++ taken;
}.

Lemma flow_id l : lane_flow l [] [] l 0.
Proof. split; simpl; rewrite ?app_nil_r; (done || lia). Qed.

Lemma flow_send p l :
  lane_flow l [p] [] (retained_packets p l ++ [p]) (zlen (superseded_packets p l)).
Proof.
  pose proof (split_by_obsolescence p l) as [_ Hn]. split.
  - simpl. apply sublist_app; [apply retained_sublist|done].
  - rewrite length_app. cbn [length]. lia.
  - intros Hp. apply Forall_cons_1 in Hp as [Hp _]. simpl. by rewrite retained_plain.
Qed.

Lemma flow_receive l : lane_flow l [] (option_list (head l)) (tail l) 0.
Proof. destruct l; split; simpl; rewrite ?app_nil_r; (done || lia). Qed.

Lemma flow_trans h t1 g1 m d1 t2 g2 r d2 :
  lane_flow h t1 g1 m d1 -> lane_flow m t2 g2 r d2 ->
  lane_flow h (t1 ++ t2) (g1 ++ g2) r (d1 + d2).
Proof.
  intros [Ho1 Hc1 He1] [Ho2 Hc2 He2]. split.
  - rewrite <-(assoc_L (++)), (assoc_L (++) h). etrans; [by apply sublist_app|].
    rewrite (assoc_L (++)). by apply sublist_app.
  - rewrite !length_app. lia.
  - intros [H1 H2]%Forall_app. by rewrite <-(assoc_L (++)), He2, (assoc_L (++)), He1, (assoc_L (++)).
Qed.

Lemma accepted_app s c a b : accepted s c (a ++ b) = accepted s c a ++ accepted s c b.
Proof. apply omap_app. Qed.
Lemma delivered_app s c a b : delivered s c (a ++ b) = delivered s c a ++ delivered s c b.
Proof. apply omap_app. Qed.
Lemma reported_app s c a b : reported s c (a ++ b) = reported s c a + reported s c b.
Proof.
  unfold reported. induction a as [|e a IH]; [done|]. cbn [app foldr]. rewrite IH.
  destruct e; [case_decide; lia|done].
Qed.

Lemma call_flow l c l' evs :
  link_wf l -> Link.connected l = true -> ~ is_disconnect c -> link_call l c = (l', evs) ->
  link_wf l' /\ Link.connected l' = true /\
  forall s ch, lane_flow (lane_packets l s ch) (accepted s ch evs) (delivered s ch evs)
                 (lane_packets l' s ch) (reported s ch evs).
Proof.
  intros Hwf Hc Hnd. destruct c as [s p|s ch|s|s]; cbn [link_call].
  - rewrite send_connected by done.
    destruct (BoundedQueue.try_push _ p) as [q r] eqn:Hp. cbn [fst snd LoopbackEndpoint.link].
    pose proof (try_push_wf _ p (Hwf s (Packet.channel p))) as Hq. rewrite Hp in Hq.
    pose proof (returns_try_push _ p (Hwf s (Packet.channel p))) as Hr. rewrite Hp in Hr.
    destruct r as [rep|e|]; [|..|done]; intros [= <- <-].
    + apply push_ok_inv in Hp as [Hq' ->]; [|apply Hwf]. split; [by apply set_lane_wf|].
      split; [by rewrite connected_set_lane|]. intros s' ch'. unfold lane_packets.
      unfold accepted, delivered, reported. cbn [omap list_omap foldr].
      case_decide as Hd.
      * injection Hd as <- <-. rewrite lane_set_same, Hq'. cbn [SendReport.superseded QueueDepth.packets].
        rewrite Z.add_0_r. apply flow_send.
      * rewrite lane_set_other by done. apply flow_id.
    + apply push_error_unchanged in Hp as [-> _]; [|apply Hwf]. rewrite set_lane_id.
      split_and!; [done..|]. intros. apply flow_id.
  - rewrite receive_connected by done. cbn [LoopbackEndpoint.link]. intros [= <- <-].
    split; [by apply set_lane_wf, pop_wf|]. split; [by rewrite connected_set_lane|].
    intros s' ch'. unfold accepted, delivered, reported.
    destruct (decide ((s', ch') = (other s, ch))) as [[= -> ->]|Hne].
    + rewrite lane_packets_set_same, pop_spec by apply Hwf. fold (lane_packets l (other s) ch).
      cbn [fst BoundedQueue.packets]. fold (lane_packets l (other s) ch).
      pose proof (flow_receive (lane_packets l (other s) ch)) as Hf.
      destruct (lane_packets l (other s) ch); cbn [omap list_omap foldr head]; [done|].
      by rewrite decide_True by done.
    + rewrite lane_packets_set_other by done.
      destruct (lane_packets l (other s) ch); cbn [omap list_omap foldr head]; [apply flow_id|].
      rewrite decide_False by congruence. apply flow_id.
  - by destruct Hnd.
  - unfold LoopbackEndpoint.reconnect. cbn [LoopbackEndpoint.link]. rewrite Hc. intros [= <- <-].
    split_and!; [done..|]. intros. apply flow_id.
Qed.

Lemma run_flow l cs :
  link_wf l -> Link.connected l = true -> Forall (fun c => ~ is_disconnect c) cs ->
  link_wf (fst (link_run l cs)) /\ Link.connected (fst (link_run l cs)) = true /\
  forall s c, lane_flow (lane_packets l s c) (accepted s c (snd (link_run l cs)))
    (delivered s c (snd (link_run l cs))) (lane_packets (fst (link_run l cs)) s c)
    (reported s c (snd (link_run l cs))).
Proof.
  intros Hwf Hup Hcs. revert l Hwf Hup.
  induction Hcs as [|c cs Hc _ IH]; intros l Hwf Hup.
  { split_and!; [done..|]. intros. apply flow_id. }
  cbn [link_run]. destruct (link_call l c) as [l1 evs1] eqn:H1.
  apply call_flow in H1 as (Hwf1 & Hup1 & Hf1); [|done..].
  specialize (IH l1 Hwf1 Hup1). destruct (link_run l1 cs) as [l2 evs2].
  destruct IH as (Hwf2 & Hup2 & Hf2). split_and!; [done..|]. intros s ch.
  cbn [fst snd]. rewrite accepted_app, delivered_app, reported_app.
  by eapply flow_trans.
Qed.

(** C31: while the link stays connected, each lane is an ordered, loss-accounted channel: over any
    interleaving of sends and receives of both endpoints, what a lane delivered and still holds is
    an in-order selection of what it held and accepted; the difference is exactly the packets the
    accepted sends reported as superseded; and a lane that accepts no replaceable packet (control
    traffic) delivers everything, unchanged and in order. *)
Theorem connected_link_is_fifo l cs
  (Hwf : link_wf l) (Hup : Link.connected l = true) (Hcs : Forall (fun c => ~ is_disconnect c) cs) :
  let (l', evs) := link_run l cs in
  link_wf l' /\ Link.connected l' = true /\
  forall s c,
    delivered s c evs ++ lane_packets l' s c `sublist_of` lane_packets l s c ++ accepted s c evs /\
    zlen (delivered s c evs) + zlen (lane_packets l' s c) + reported s c evs =
      zlen (lane_packets l s c) + zlen (accepted s c evs) /\
    (Forall (fun p => Packet.supersession_key p = None) (accepted s c evs) ->
     delivered s c evs ++ lane_packets l' s c = lane_packets l s c ++ accepted s c evs).
Proof.
  pose proof (run_flow l cs Hwf Hup Hcs) as Hflow.
  destruct (link_run l cs) as [l' evs]. destruct Hflow as (H1 & H2 & Hf).
  split_and!; [done..|]. intros s c. destruct (Hf s c). by split_and!.
Qed.

(** Disconnecting either endpoint empties every lane and reports, per channel, exactly the
    packets and bytes both directions held (saturating); until a reconnect every send fails handing
    its packet back and every receive fails, at both endpoints; disconnecting again reports nothing;
    a reconnect succeeds once and gives an empty connected link, so no packet crosses a generation. *)
Theorem disconnect_accounts_and_isolates s l (Hwf : link_wf l) :
  let (e, report) := LoopbackEndpoint.disconnect (LoopbackEndpoint.mk s l) in
  let down := LoopbackEndpoint.link e in
  let depth c := QueueDepth.saturating_add (BoundedQueue.depth (lane_queue l Side.First c))
                   (BoundedQueue.depth (lane_queue l Side.Second c)) in
  report = DisconnectReport.mk (Link.connected l) (depth Channel.Control) (depth Channel.Media) /\
  (forall s' p, LoopbackEndpoint.try_send (LoopbackEndpoint.mk s' down) p =
     (LoopbackEndpoint.mk s' down, Err (SendError.Disconnected p))) /\
  (forall s' c, LoopbackEndpoint.try_receive (LoopbackEndpoint.mk s' down) c =
     (LoopbackEndpoint.mk s' down, Err ReceiveError.Disconnected)) /\
  (forall s', LoopbackEndpoint.disconnect (LoopbackEndpoint.mk s' down) =
     (LoopbackEndpoint.mk s' down, DisconnectReport.mk false QueueDepth.default QueueDepth.default)) /\
  forall s', let (e', fresh) := LoopbackEndpoint.reconnect (LoopbackEndpoint.mk s' down) in
    let up := LoopbackEndpoint.link e' in
    fresh = true /\ Link.connected up = true /\ link_wf up /\
    (forall s c, lane_packets up s c = [] /\ BoundedQueue.limits (lane_queue up s c) =
                   BoundedQueue.limits (lane_queue l s c)) /\
    forall s'', snd (LoopbackEndpoint.reconnect (LoopbackEndpoint.mk s'' up)) = false.
Proof.
  split_and!; [done..|]. intros s'. cbn. split_and!; [done..| | |done].
  - intros s1 c. pose proof (queue_limits _ (Hwf s1 c)) as Hl.
    destruct s1, c; cbn; by apply empty_queue_wf.
  - intros s1 c. by destruct s1, c.
Qed.

(** ** A link with other users *)

(** One side of a link whose other users act between its calls: [script] holds
    the calls that run before each of them. *)
Module SharedEndpoint.
Record t : Type := mk {
  side : Side.t;
  link : Link.t;
  script : list (list LinkCall.t);
}.

Definition advance (self : t) : t :=
  match script self with
  | [] => self
  | calls :: script => mk (side self) (fst (link_run (link self) calls)) script
  end.

Definition try_send (self : t) (packet : Packet.t) : t * outcome SendError.t SendReport.t :=
  let self := advance self in
  let (e, r) := LoopbackEndpoint.try_send (LoopbackEndpoint.mk (side self) (link self)) packet in
  (mk (side self) (LoopbackEndpoint.link e) (script self), r).

Definition try_receive (self : t) (channel : Channel.t)
  : t * outcome ReceiveError.t (option Packet.t) :=
  let self := advance self in
  let (e, r) := LoopbackEndpoint.try_receive (LoopbackEndpoint.mk (side self) (link self)) channel in
  (mk (side self) (LoopbackEndpoint.link e) (script self), r).

Definition connection_state (self : t) : ConnectionState.t :=
  LoopbackEndpoint.connection_state (LoopbackEndpoint.mk (side self) (link self)).
End SharedEndpoint.

#[export] Instance shared_transport : PacketTransport SharedEndpoint.t := {
  connection_state := SharedEndpoint.connection_state;
  try_send := SharedEndpoint.try_send;
  try_receive := SharedEndpoint.try_receive;
}.

Lemma link_call_wf l c : link_wf l -> link_wf (fst (link_call l c)).
Proof.
  intros Hl. destruct c as [s p|s ch|s|s]; cbn [link_call].
  - pose proof (proj1 (safe_send (LoopbackEndpoint.mk s l) p Hl)) as Hs. cbn in Hs.
    by destruct (LoopbackEndpoint.try_send _ p).
  - pose proof (proj1 (safe_receive (LoopbackEndpoint.mk s l) ch Hl)) as Hs. cbn in Hs.
    by destruct (LoopbackEndpoint.try_receive _ ch).
  - intros s' c. pose proof (queue_limits _ (Hl s' c)). destruct s', c; by apply empty_queue_wf.
  - unfold LoopbackEndpoint.reconnect. cbn [LoopbackEndpoint.link].
    destruct (Link.connected l); [done|]. intros s' c.
    pose proof (queue_limits _ (Hl s' c)). destruct s', c; by apply empty_queue_wf.
Qed.

Lemma link_run_wf cs l : link_wf l -> link_wf (fst (link_run l cs)).
Proof.
  revert l. induction cs as [|c cs IH]; intros l Hl; [done|]. cbn [link_run].
  pose proof (link_call_wf l c Hl) as H1. destruct (link_call l c) as [l1 e1].
  specialize (IH l1 H1). by destruct (link_run l1 cs).
Qed.

Lemma advance_wf e :
  link_wf (SharedEndpoint.link e) -> link_wf (SharedEndpoint.link (SharedEndpoint.advance e)).
Proof.
  destruct e as [s l [|cs script]]; cbn; [done|]. apply link_run_wf.
Qed.

#[export, refine] Instance shared_safety : EndpointSafety SharedEndpoint.t := {
  safe := fun e => link_wf (SharedEndpoint.link e);
}.
Proof.
  - intros e p He%advance_wf. cbn. unfold SharedEndpoint.try_send. cbv zeta.
    set (e1 := SharedEndpoint.advance e) in *.
    pose proof (safe_send (LoopbackEndpoint.mk (SharedEndpoint.side e1) (SharedEndpoint.link e1)) p He)
      as Hs. cbn in Hs. by destruct (LoopbackEndpoint.try_send _ p).
  - intros e c He%advance_wf. cbn. unfold SharedEndpoint.try_receive. cbv zeta.
    set (e1 := SharedEndpoint.advance e) in *.
    pose proof (safe_receive
      (LoopbackEndpoint.mk (SharedEndpoint.side e1) (SharedEndpoint.link e1)) c He) as Hs.
    cbn in Hs. by destruct (LoopbackEndpoint.try_receive _ c).
  - intros e p e' q d l He%advance_wf Hs. cbn in Hs. unfold SharedEndpoint.try_send in Hs.
    cbv zeta in Hs. set (e1 := SharedEndpoint.advance e) in *.
    destruct (LoopbackEndpoint.try_send _ p) as [e2 r] eqn:Hp. injection Hs as _ ->.
    exact (safe_full (LoopbackEndpoint.mk (SharedEndpoint.side e1) (SharedEndpoint.link e1))
      p e2 q d l He Hp).
Defined.

Module LoopbackExamples.
Definition limits : QueueLimits.t := QueueLimits.mk 2 8 4.
Lemma limits_wf : QueueLimits.wf limits.
Proof. split; simpl; lia. Qed.

Definition frame (key : Z) (b : byte) : Packet.t :=
  Packet.replaceable_media (SupersessionKey.new key) [b].

Definition link : Link.t := Link.new (LoopbackConfig.new limits limits).
Lemma link_is_wf : link_wf link.
Proof. apply new_link_wf. split; apply limits_wf. Qed.

Definition calls : list LinkCall.t := [
  LinkCall.Send Side.First (frame 1 x01); LinkCall.Send Side.First (frame 2 x02);
  LinkCall.Send Side.First (frame 1 x03); LinkCall.Send Side.Second (Packet.control [x09]);
  LinkCall.Send Side.First (frame 3 x04); LinkCall.Receive Side.Second Channel.Media;
  LinkCall.Receive Side.First Channel.Control ].

Example default_limits_are_valid : exists c, LoopbackConfig.default_config = Ok c.
Proof. by eexists. Qed.

Example superseded_frame_never_arrives :
  delivered Side.First Channel.Media (snd (link_run link calls)) = [frame 2 x02].
Proof. vm_compute. reflexivity. Qed.

Definition full_queue : BoundedQueue.t :=
  BoundedQueue.mk limits [frame 1 x01; frame 2 x02] 2.

Lemma queue_push_is_exact_witness :
  queue_wf full_queue /\ fresh_keys (BoundedQueue.packets full_queue) /\
  (let (q', r) := BoundedQueue.try_push full_queue (frame 1 x05) in
   queue_wf q' /\ BoundedQueue.packets q' = [frame 2 x02; frame 1 x05] /\
   r = Ok (SendReport.new (QueueDepth.new 1 1))).
Proof.
  assert (Hwf : queue_wf full_queue) by (split; [apply limits_wf|done..]).
  assert (Hf : fresh_keys (BoundedQueue.packets full_queue))
    by (unfold fresh_keys; apply (bool_decide_unpack _); vm_compute; exact I).
  split; [exact Hwf|]. split; [exact Hf|].
  pose proof (queue_push_is_exact full_queue (frame 1 x05) Hwf Hf) as H.
  destruct (BoundedQueue.try_push full_queue (frame 1 x05)) as [q' r] eqn:Hp.
  split; [apply H|]. vm_compute in Hp. injection Hp as <- <-. by split.
Defined.

Lemma connected_link_is_fifo_witness :
  let (l', evs) := link_run link calls in
  Forall (fun p => Packet.supersession_key p = None) (accepted Side.Second Channel.Control evs) /\
  delivered Side.Second Channel.Control evs ++ lane_packets l' Side.Second Channel.Control =
    [Packet.control [x09]] /\
  zlen (delivered Side.First Channel.Media evs) + zlen (lane_packets l' Side.First Channel.Media) +
    reported Side.First Channel.Media evs = 3.
Proof.
  assert (Hcs : Forall (fun c => ~ is_disconnect c) calls)
    by (unfold calls; repeat constructor; intros []).
  pose proof (connected_link_is_fifo link calls link_is_wf eq_refl Hcs) as H.
  destruct (link_run link calls) as [l' evs] eqn:Hr. destruct H as (_ & _ & H).
  assert (Hc : Forall (fun p => Packet.supersession_key p = None)
                 (accepted Side.Second Channel.Control evs))
    by (vm_compute in Hr; injection Hr as <- <-; vm_compute; repeat constructor).
  split; [exact Hc|]. split.
  - destruct (H Side.Second Channel.Control) as (_ & _ & Heq). rewrite (Heq Hc).
    vm_compute in Hr. injection Hr as <- <-. reflexivity.
  - destruct (H Side.First Channel.Media) as (_ & Hn & _). rewrite Hn.
    vm_compute in Hr. injection Hr as <- <-. reflexivity.
Defined.

Lemma disconnect_accounts_and_isolates_witness :
  link_wf (fst (link_run link calls)) /\
  snd (LoopbackEndpoint.disconnect (LoopbackEndpoint.mk Side.Second (fst (link_run link calls)))) =
    DisconnectReport.mk true QueueDepth.default (QueueDepth.new 1 1).
Proof.
  assert (Hcs : Forall (fun c => ~ is_disconnect c) calls)
    by (unfold calls; repeat constructor; intros []).
  assert (Hwf : link_wf (fst (link_run link calls)))
    by (apply run_flow; [exact link_is_wf|reflexivity|exact Hcs]).
  split; [exact Hwf|].
  pose proof (disconnect_accounts_and_isolates Side.Second _ Hwf) as H.
  destruct (LoopbackEndpoint.disconnect _) as [e report]. destruct H as [-> _].
  vm_compute. reflexivity.
Defined.
End LoopbackExamples.
