(* ===== verification/TransportStream.v ===== *)
(** * Between the LDFL byte stream and the packet lanes

    Models [crates/ladoflow-transport/src/ldfl_stream.rs]: the decoder that
    turns stream bytes into packets on the lane of their message family, and
    the multiplexer that merges the two lanes back into one ordered stream. The
    multiplexer is proved against [PacketTransportLaws], for any endpoint. *)
From Stdlib Require Import Sorting.Sorted.
From stdpp Require Import pretty.
From S2P Require Export ProtoFrame TransportPacket.
From S2P Require Import TransportLoopback.
Local Open Scope string_scope.
Local Open Scope list_scope.
Local Open Scope Z_scope.

Module LdflStreamError.
Inductive t : Type :=
| Decode (detail : string)
| PartialPacket
| TrailingBytes
| WrongChannel (kind : MessageType.t) (actual expected : Channel.t)
| DuplicateSequence (sequence : Z)
| QueueDisconnected (channel : Channel.t).
#[global] Instance t_eq_dec : EqDecision t.
Proof. solve_decision. Defined.

Definition to_string (e : t) : string :=
  match e with
  | Decode detail => "invalid LDFL byte stream: " +:+ detail
  | PartialPacket => "outbound packet contains a partial LDFL frame"
  | TrailingBytes => "outbound LDFL packet contains trailing bytes"
  | WrongChannel kind actual expected =>
      "outbound " +:+ MessageType.debug kind +:+ " frame is queued on " +:+
      Channel.debug actual +:+ ", expected " +:+ Channel.debug expected
  | DuplicateSequence sequence =>
      "control and media queues contain duplicate LDFL sequence " +:+ pretty sequence
  | QueueDisconnected channel => "outbound " +:+ Channel.debug channel +:+ " queue disconnected"
  end.
End LdflStreamError.

Definition channel_for_message (kind : MessageType.t) : Channel.t :=
  match kind with
  | MessageType.VideoFrame => Channel.Media
  | _ => Channel.Control
  end.

Definition packet_from_frame (frame : Frame.t) : Packet.t :=
  if bool_decide (channel_for_message (FrameHeader.kind (Frame.header frame)) = Channel.Media)
  then Packet.media (Frame.encode frame)
  else Packet.control (Frame.encode frame).

Definition ldfl_packet_sequence (packet : Packet.t) : outcome LdflStreamError.t Z :=
  let! outcome := map_err (fun error => LdflStreamError.Decode (ProtocolError.to_string error))
    (decode_prefix (Packet.payload packet)) in
  match outcome with
  | DecodeOutcome.NeedMoreData _ => Err LdflStreamError.PartialPacket
  | DecodeOutcome.Complete frame consumed =>
    if negb (consumed =? Packet.len packet) then Err LdflStreamError.TrailingBytes
    else
      let kind := FrameHeader.kind (Frame.header frame) in
      let expected := channel_for_message kind in
      if bool_decide (Packet.channel packet <> expected)
      then Err (LdflStreamError.WrongChannel kind (Packet.channel packet) expected)
      else Ok (FrameHeader.sequence (Frame.header frame))
  end.

Module LdflPacketDecoder.
Record t : Type := mk { decoder : FrameDecoder.t }.

Definition new : t := mk FrameDecoder.new.

Definition push (self : t) (bytes : list byte) : t * outcome LdflStreamError.t (list Packet.t) :=
  let (decoder, r) := FrameDecoder.push (decoder self) bytes in
  (mk decoder,
   map_err (fun error => LdflStreamError.Decode (ProtocolError.to_string error))
     (let! frames := r in Ok (map packet_from_frame frames))).
End LdflPacketDecoder.

Module LdflPacketMux.
Record t : Type := mk {
  control : option Packet.t;
  media : option Packet.t;
}.

Definition default : t := mk None None.

(** Receive from a lane whose slot is empty. *)
Definition fill {T} `{PacketTransport T} (held : option Packet.t) (channel : Channel.t)
  (endpoint : T) : T * outcome LdflStreamError.t (option Packet.t) :=
  match held with
  | Some packet => (endpoint, Ok (Some packet))
  | None =>
    let (endpoint, r) := try_receive endpoint channel in
    (endpoint, map_err (fun _ => LdflStreamError.QueueDisconnected channel) r)
  end.

(** The choice between the two held packets: the slot of the earlier one is
    emptied, an invalid or duplicate packet stays in its slot. *)
Definition take_earlier (self : t) : t * outcome LdflStreamError.t (option Packet.t) :=
  match control self, media self with
  | Some control_packet, Some media_packet =>
    let? control_sequence := ldfl_packet_sequence control_packet keeping self in
    let? media_sequence := ldfl_packet_sequence media_packet keeping self in
    if control_sequence =? media_sequence
    then (self, Err (LdflStreamError.DuplicateSequence control_sequence))
    else if control_sequence <? media_sequence
    then (mk None (media self), Ok (control self))
    else (mk (control self) None, Ok (media self))
  | Some control_packet, None =>
    let? _ := ldfl_packet_sequence control_packet keeping self in
    (mk None (media self), Ok (control self))
  | None, Some media_packet =>
    let? _ := ldfl_packet_sequence media_packet keeping self in
    (mk (control self) None, Ok (media self))
  | None, None => (self, Ok None)
  end.

Definition next {T} `{PacketTransport T} (self : t) (endpoint : T)
  : (t * T) * outcome LdflStreamError.t (option Packet.t) :=
  let (endpoint, r) := fill (control self) Channel.Control endpoint in
  let? c := r keeping (self, endpoint) in
  let self := mk c (media self) in
  let (endpoint, r) := fill (media self) Channel.Media endpoint in
  let? m := r keeping (self, endpoint) in
  let self := mk (control self) m in
  let (self, r) := take_earlier self in
  ((self, endpoint), r).

(** Read until the lanes are empty or an error stops the reader; [n] bounds
    the calls. *)
Fixpoint drain {T} `{PacketTransport T} (n : nat) (self : t) (endpoint : T)
  : (t * T) * outcome LdflStreamError.t (list Packet.t) :=
  match n with
  | O => ((self, endpoint), Ok [])
  | S n =>
    match next self endpoint with
    | ((self, endpoint), Ok (Some packet)) =>
      let (s, r) := drain n self endpoint in
      (s, let! packets := r in Ok (packet :: packets))
    | ((self, endpoint), Ok None) => ((self, endpoint), Ok [])
    | ((self, endpoint), Err e) => ((self, endpoint), Err e)
    | ((self, endpoint), Fault f) => ((self, endpoint), Fault f)
    end
  end.
End LdflPacketMux.

(** ** Packets that carry one frame *)

(** [p] is the frame [f], whole and alone, on its lane. *)
Definition carries (p : Packet.t) (f : Frame.t) : Prop :=
  Frame.wf f /\ Packet.payload p = Frame.encode f /\
  Packet.channel p = channel_for_message (FrameHeader.kind (Frame.header f)).

Definition sequence_of (f : Frame.t) : Z := FrameHeader.sequence (Frame.header f).

Lemma packet_from_frame_carries f : Frame.wf f -> carries (packet_from_frame f) f.
Proof. intros Hf. unfold carries, packet_from_frame. by destruct (channel_for_message _). Qed.

Lemma carries_sequence p f : carries p f -> ldfl_packet_sequence p = Ok (sequence_of f).
Proof.
  intros (Hf & Hp & Hc). unfold ldfl_packet_sequence. rewrite Hp, <-(app_nil_r (Frame.encode f)).
  rewrite decode_prefix_encode by done. cbn [map_err obind]. unfold Packet.len.
  rewrite Hp, zlen_frame_encode, Z.eqb_refl. cbn [negb].
  by rewrite bool_decide_eq_false_2 by (rewrite Hc; tauto).
Qed.

Lemma returns_packet_sequence p : returns (ldfl_packet_sequence p).
Proof.
  unfold ldfl_packet_sequence. apply returns_obind; [apply returns_map_err, returns_decode_prefix|].
  intros [f n|m] _; [|done]. by repeat case_match.
Qed.

Lemma sequence_carries p s :
  ldfl_packet_sequence p = Ok s -> exists f, carries p f /\ s = sequence_of f.
Proof.
  unfold ldfl_packet_sequence. intros H. inv_ok. destruct x as [f n|m]; [|done].
  apply decode_prefix_complete_inv in H0 as (Hf & -> & rest & Hp).
  destruct (Z.eqb_spec (Frame.encoded_len f) (Packet.len p)) as [Hlen|]; [|done].
  cbn [negb] in H. case_bool_decide as Hc; [done|]. injection H as <-. exists f.
  unfold Packet.len in Hlen. rewrite Hp, length_app, Nat2Z.inj_add, zlen_frame_encode in Hlen.
  destruct rest; [|simpl in Hlen; lia]. by rewrite app_nil_r in Hp.
Qed.

(** The check on outbound packets accepts a packet exactly when it is one whole well-formed
    frame, with nothing after it, on the lane of its message family; it then answers that frame's
    sequence number, and it answers something for every packet. *)
Theorem packet_check_is_exact p :
  returns (ldfl_packet_sequence p) /\
  forall s, ldfl_packet_sequence p = Ok s <-> exists f, carries p f /\ s = sequence_of f.
Proof.
  split; [apply returns_packet_sequence|]. intros s. split; [apply sequence_carries|].
  intros (f & Hc & ->). by apply carries_sequence.
Qed.

Lemma packets_carry fs : Forall Frame.wf fs -> Forall2 carries (map packet_from_frame fs) fs.
Proof. induction 1; cbn [map]; constructor; [by apply packet_from_frame_carries|done]. Qed.

Lemma packets_payload fs : concat (map Packet.payload (map packet_from_frame fs)) = encode_all fs.
Proof.
  unfold encode_all. rewrite map_map. f_equal. apply map_ext. intros f.
  unfold packet_from_frame. by case_bool_decide.
Qed.

(** The packet decoder keeps the frame decoder's contract and sorts by family: pushing stream
    bytes yields one packet per complete frame, in stream order, each holding exactly its frame's
    bytes on its family's lane, and keeps the incomplete tail; a framing error is reported with the
    frame decoder's text and state. *)
Theorem packet_decoder_classifies d bytes (Hwf : FrameDecoder.wf (LdflPacketDecoder.decoder d)) :
  match LdflPacketDecoder.push d bytes with
  | (d', Ok ps) => exists fs,
      stream (FrameDecoder.buffer (LdflPacketDecoder.decoder d) ++ bytes) fs
        (FrameDecoder.buffer (LdflPacketDecoder.decoder d')) /\
      Forall2 carries ps fs /\ concat (map Packet.payload ps) = encode_all fs
  | (d', Err e) => exists pe,
      FrameDecoder.push (LdflPacketDecoder.decoder d) bytes =
        (LdflPacketDecoder.decoder d', Err pe) /\
      e = LdflStreamError.Decode (ProtocolError.to_string pe)
  | (_, Fault _) => False
  end.
Proof.
  unfold LdflPacketDecoder.push. pose proof (push_spec _ bytes Hwf) as Hp. cbv zeta in Hp.
  destruct (FrameDecoder.push _ bytes) as [d' [fs|e|f]]; cbn [obind map_err]; [| |done].
  - exists fs. destruct Hp as (_ & _ & Hs). split; [done|].
    split; [by eapply packets_carry, stream_wf|apply packets_payload].
  - by exists e.
Qed.

(** ** The multiplexer over any lawful endpoint *)
Section Mux.
Context {T : Type} `{Laws : PacketTransportLaws T}.

Definition held (m : LdflPacketMux.t) (c : Channel.t) : option Packet.t :=
  match c with
  | Channel.Control => LdflPacketMux.control m
  | Channel.Media => LdflPacketMux.media m
  end.

(** What a lane still owes the stream: the held packet, then the queue. *)
Definition pending (m : LdflPacketMux.t) (t : T) (c : Channel.t) : list Packet.t :=
  option_list (held m c) ++ incoming t c.

Definition usable (t : T) : Prop :=
  endpoint_wf t /\ connection_state t = ConnectionState.Connected.

Lemma fill_spec slot c t :
  usable t ->
  exists t', LdflPacketMux.fill slot c t = (t', Ok (head (option_list slot ++ incoming t c))) /\
    option_list (head (option_list slot ++ incoming t c)) ++ incoming t' c =
      option_list slot ++ incoming t c /\
    (forall d, d <> c -> incoming t' d = incoming t d) /\ usable t'.
Proof.
  intros [Hwf Hc]. destruct slot as [p|]; simpl; [by exists t|].
  destruct (receive_pops t c Hwf Hc) as (t' & Hr & Hin & Hoth & _ & Hs).
  pose proof (receive_wf t c Hwf) as Hwf'. rewrite Hr in *. exists t'.
  split; [done|]. split; [|split; [done|split; [done|congruence]]].
  rewrite Hin. by destruct (incoming t c).
Qed.

(** One call: both slots are filled with the heads of their lanes, and the
    choice is made between them; no packet is lost. *)
Lemma next_spec m t :
  usable t ->
  let m1 := LdflPacketMux.mk (head (pending m t Channel.Control)) (head (pending m t Channel.Media)) in
  exists t', usable t' /\ (forall c, pending m1 t' c = pending m t c) /\
    LdflPacketMux.next m t =
      ((fst (LdflPacketMux.take_earlier m1), t'), snd (LdflPacketMux.take_earlier m1)).
Proof.
  intros Hu. cbv zeta. unfold LdflPacketMux.next.
  destruct (fill_spec (LdflPacketMux.control m) Channel.Control t Hu) as (t1 & -> & Hp1 & Ho1 & Hu1).
  cbn [otry LdflPacketMux.media LdflPacketMux.control].
  destruct (fill_spec (LdflPacketMux.media m) Channel.Media t1 Hu1) as (t2 & -> & Hp2 & Ho2 & Hu2).
  cbn [otry LdflPacketMux.media LdflPacketMux.control].
  rewrite (Ho1 Channel.Media) in * by done. fold (held m Channel.Control) (held m Channel.Media) in *.
  fold (pending m t Channel.Control) (pending m t Channel.Media) in *.
  exists t2. split; [done|]. split.
  - intros []; unfold pending at 1; cbn [held LdflPacketMux.media LdflPacketMux.control].
    + by rewrite (Ho2 Channel.Control).
    + done.
  - by destruct (LdflPacketMux.take_earlier _).
Qed.

(** The packet [p] leaves lane [c], the other lane keeps its packets. *)
Definition leaves (m : LdflPacketMux.t) (t : T) (m' : LdflPacketMux.t) (t' : T) (c : Channel.t)
  (p : Packet.t) : Prop :=
  pending m t c = p :: pending m' t' c /\
  forall d, d <> c -> pending m' t' d = pending m t d.

Lemma pending_nil m t c : pending m t c = [] -> held m c = None /\ incoming t c = [].
Proof. unfold pending. by destruct (held m c). Qed.

Lemma leaves_slot m t m1 m' t' c p :
  (forall d, pending m1 t' d = pending m t d) -> held m1 c = Some p -> held m' c = None ->
  (forall d, d <> c -> held m' d = held m1 d) -> leaves m t m' t' c p.
Proof.
  intros Hp H1 H' Ho. split.
  - rewrite <-Hp. unfold pending. by rewrite H1, H'.
  - intros d Hd. rewrite <-Hp. unfold pending. by rewrite Ho.
Qed.

(** What the choice does to the slots: hand over the earlier packet, or report
    a slot's packet and keep both. *)
Lemma take_earlier_spec m :
  let '(m', r) := LdflPacketMux.take_earlier m in
  match r with
  | Ok None => m' = m /\ forall c, held m c = None
  | Ok (Some p) => exists c f, held m c = Some p /\ carries p f /\ held m' c = None /\
      (forall d, d <> c -> held m' d = held m d) /\
      forall d q g, d <> c -> held m d = Some q -> carries q g -> sequence_of f < sequence_of g
  | Err e => m' = m /\
      ((exists c q, held m c = Some q /\ ldfl_packet_sequence q = Err e) \/
       exists s, e = LdflStreamError.DuplicateSequence s /\
         forall c, exists q, held m c = Some q /\ ldfl_packet_sequence q = Ok s)
  | Fault _ => False
  end.
Proof.
  destruct m as [[c|] [d|]]; unfold LdflPacketMux.take_earlier;
    cbn [LdflPacketMux.control LdflPacketMux.media].
  4: by split; [|intros []].
  - pose proof (returns_packet_sequence c). pose proof (returns_packet_sequence d).
    destruct (ldfl_packet_sequence c) as [sc|e|] eqn:Hc; cbn [otry]; [| |done].
    2:{ split; [done|]. left. by exists Channel.Control, c. }
    destruct (ldfl_packet_sequence d) as [sd|e|] eqn:Hd; cbn [otry]; [| |done].
    2:{ split; [done|]. left. by exists Channel.Media, d. }
    destruct (Z.eqb_spec sc sd) as [->|Hne].
    { split; [done|]. right. exists sd. split; [done|]. intros []; eauto. }
    destruct (sequence_carries _ _ Hc) as (f & Hf & ->).
    destruct (sequence_carries _ _ Hd) as (g & Hg & ->).
    destruct (Z.ltb_spec (sequence_of f) (sequence_of g)).
    + exists Channel.Control, f. split_and!; [done..|by intros []|].
      intros [] q g' Hne' Hq Hg'; [done|]. injection Hq as <-.
      apply carries_sequence in Hg'. rewrite Hg' in Hd. injection Hd as ->. lia.
    + exists Channel.Media, g. split_and!; [done..|by intros []|].
      intros [] q g' Hne' Hq Hg'; [|done]. injection Hq as <-.
      apply carries_sequence in Hg'. rewrite Hg' in Hc. injection Hc as ->. lia.
  - pose proof (returns_packet_sequence c).
    destruct (ldfl_packet_sequence c) as [sc|e|] eqn:Hc; cbn [otry]; [| |done].
    + destruct (sequence_carries _ _ Hc) as (f & Hf & ->). exists Channel.Control, f.
      split_and!; [done..|by intros []|by intros []].
    + split; [done|]. left. by exists Channel.Control, c.
  - pose proof (returns_packet_sequence d).
    destruct (ldfl_packet_sequence d) as [sd|e|] eqn:Hd; cbn [otry]; [| |done].
    + destruct (sequence_carries _ _ Hd) as (f & Hf & ->). exists Channel.Media, f.
      split_and!; [done..|by intros []|by intros []].
    + split; [done|]. left. by exists Channel.Media, d.
Qed.

(** The multiplexer loses nothing and is never ahead of order: one call on a connected
    endpoint either finds both lanes empty, or hands over the oldest packet of one lane, a whole
    valid frame earlier in sequence than the oldest packet of the other lane, or reports an
    invalid oldest packet, or that both oldest packets share a sequence number, and leaves what both
    lanes owe unchanged. *)
Theorem mux_hands_over_earliest m t (Hu : usable t) :
  let '((m', t'), r) := LdflPacketMux.next m t in
  usable t' /\
  match r with
  | Ok None => (forall c, pending m t c = []) /\ (forall c, pending m' t' c = [])
  | Ok (Some p) => exists c f, carries p f /\ leaves m t m' t' c p /\
      forall d q g, d <> c -> head (pending m t d) = Some q -> carries q g ->
        sequence_of f < sequence_of g
  | Err e => (forall c, pending m' t' c = pending m t c) /\
      ((exists c q, head (pending m t c) = Some q /\ ldfl_packet_sequence q = Err e) \/
       exists s, e = LdflStreamError.DuplicateSequence s /\
         forall c, exists q, head (pending m t c) = Some q /\ ldfl_packet_sequence q = Ok s)
  | Fault _ => False
  end.
Proof.
  destruct (next_spec m t Hu) as (t' & Hu' & Hp & ->). cbv zeta in Hp.
  set (m1 := LdflPacketMux.mk _ _) in *. cbv zeta.
  assert (Hheld : forall c, held m1 c = head (pending m t c)) by by intros [].
  pose proof (take_earlier_spec m1) as Ht.
  destruct (LdflPacketMux.take_earlier m1) as [m' r]. cbn [fst snd]. split; [done|].
  destruct r as [[p|]|e|]; [| | |done].
  - destruct Ht as (c & f & Hc & Hf & Hn & Ho & Hlt). exists c, f. split; [done|].
    split; [by apply (leaves_slot m t m1)|]. intros d q g. rewrite <-Hheld. apply Hlt.
  - destruct Ht as [-> Hn]. assert (He : forall c, pending m t c = []).
    { intros c. specialize (Hn c). rewrite Hheld in Hn. by destruct (pending m t c). }
    split; [done|]. intros c. by rewrite Hp.
  - destruct Ht as [-> [(c & q & Hc & Hq)|(s & -> & Hs)]]; (split; [done|]).
    + left. exists c, q. by rewrite <-Hheld.
    + right. exists s. split; [done|]. intros c. rewrite <-Hheld. apply Hs.
Qed.

Definition strictly_increasing (fs : list Frame.t) : Prop :=
  StronglySorted (fun f g => sequence_of f < sequence_of g) fs.

(** The packets of a frame list that travel on lane [c]. *)
Definition lane_of (fs : list Frame.t) (c : Channel.t) : list Packet.t :=
  filter (fun p => Packet.channel p = c) (map packet_from_frame fs).

Lemma packet_channel f :
  Packet.channel (packet_from_frame f) =
    channel_for_message (FrameHeader.kind (Frame.header f)).
Proof. unfold packet_from_frame. by destruct (channel_for_message _). Qed.

Lemma lane_of_cons f fs c :
  lane_of (f :: fs) c =
    if decide (channel_for_message (FrameHeader.kind (Frame.header f)) = c)
    then packet_from_frame f :: lane_of fs c else lane_of fs c.
Proof.
  unfold lane_of. cbn [map]. rewrite filter_cons.
  pose proof (packet_channel f). repeat case_decide; congruence.
Qed.

Lemma lane_of_in fs c p :
  p ∈ lane_of fs c -> exists f, f ∈ fs /\ p = packet_from_frame f.
Proof.
  intros [_ Hp]%list_elem_of_filter. apply list_elem_of_In, in_map_iff in Hp as (f & <- & Hf).
  exists f. by rewrite list_elem_of_In.
Qed.

(** The next packet of two lanes split from an increasing frame list is its
    first frame. *)
Lemma next_of_split m t f fs :
  usable t -> Forall Frame.wf (f :: fs) -> strictly_increasing (f :: fs) ->
  (forall c, pending m t c = lane_of (f :: fs) c) ->
  exists m' t', LdflPacketMux.next m t = ((m', t'), Ok (Some (packet_from_frame f))) /\
    usable t' /\ forall c, pending m' t' c = lane_of fs c.
Proof.
  intros Hu Hwf Hs Hl. destruct (next_spec m t Hu) as (t' & Hu' & Hp & Hn). cbv zeta in Hp, Hn.
  inversion Hs as [|? ? Hs' Hall]; subst. inversion Hwf as [|? ? Hf Hwf']; subst.
  set (cf := channel_for_message (FrameHeader.kind (Frame.header f))) in *.
  set (m1 := LdflPacketMux.mk _ _) in *.
  assert (Hheld : forall c, held m1 c = head (pending m t c)) by by intros [].
  assert (Hmine : held m1 cf = Some (packet_from_frame f)).
  { rewrite Hheld, Hl, lane_of_cons. fold cf. by rewrite decide_True. }
  assert (Hother : forall d q, d <> cf -> held m1 d = Some q ->
    exists g, carries q g /\ sequence_of f < sequence_of g).
  { intros d q Hd Hq. rewrite Hheld, Hl, lane_of_cons in Hq. fold cf in Hq.
    rewrite decide_False in Hq by congruence.
    destruct (lane_of fs d) eqn:Hfd; [done|]. injection Hq as ->.
    destruct (lane_of_in fs d q) as (g & Hg & ->); [rewrite Hfd; left|].
    exists g. rewrite Forall_forall in Hwf', Hall. split; [|by apply Hall].
    by apply packet_from_frame_carries, Hwf'. }
  pose proof (packet_from_frame_carries f Hf) as Hcf.
  pose proof (take_earlier_spec m1) as Ht.
  destruct (LdflPacketMux.take_earlier m1) as [m' r]. cbn [fst snd] in Hn.
  destruct r as [[p|]|e|]; [| | |done].
  - destruct Ht as (c & f' & Hc & Hf' & Hnone & Ho & Hlt).
    destruct (decide (c = cf)) as [->|Hne].
    + rewrite Hmine in Hc. injection Hc as <-. exists m', t'. split; [done|]. split; [done|].
      destruct (leaves_slot m t m1 m' t' cf (packet_from_frame f) Hp Hmine Hnone Ho) as [Hl1 Hl2].
      intros c. specialize (Hl c). rewrite lane_of_cons in Hl. fold cf in Hl.
      destruct (decide (cf = c)) as [<-|Hc]; [congruence|]. rewrite Hl2 by congruence. done.
    + destruct (Hother c p Hne Hc) as (g & Hg & Hlt').
      specialize (Hlt cf _ f ltac:(congruence) Hmine Hcf).
      apply carries_sequence in Hg, Hf'. rewrite Hg in Hf'. injection Hf' as Heq. lia.
  - destruct Ht as [_ Hnone]. by rewrite Hnone in Hmine.
  - exfalso. destruct Ht as [_ [(c & q & Hc & Hq)|(s & -> & Hs2)]].
    + destruct (decide (c = cf)) as [->|Hne].
      * rewrite Hmine in Hc. injection Hc as <-. by rewrite (carries_sequence _ f) in Hq.
      * destruct (Hother c q Hne Hc) as (g & Hg & _). by rewrite (carries_sequence _ g) in Hq.
    + set (d := if decide (cf = Channel.Control) then Channel.Media else Channel.Control).
      assert (Hd : d <> cf) by (unfold d; by destruct cf).
      destruct (Hs2 d) as (q & Hq & Hsq). destruct (Hs2 cf) as (q' & Hq' & Hsq').
      rewrite Hmine in Hq'. injection Hq' as <-. rewrite (carries_sequence _ f) in Hsq' by done.
      destruct (Hother d q Hd Hq) as (g & Hg & Hlt). rewrite (carries_sequence _ g) in Hsq by done.
      injection Hsq as Hsq. injection Hsq' as Hsq'. lia.
Qed.

Lemma drain_S n m (t : T) :
  LdflPacketMux.drain (S n) m t =
    match LdflPacketMux.next m t with
    | ((m, t), Ok (Some packet)) =>
      let (s, r) := LdflPacketMux.drain n m t in
      (s, let! packets := r in Ok (packet :: packets))
    | ((m, t), Ok None) => ((m, t), Ok [])
    | ((m, t), Err e) => ((m, t), Err e)
    | ((m, t), Fault f) => ((m, t), Fault f)
    end.
Proof. done. Qed.

Lemma drain_of_split fs : forall m t,
  usable t -> Forall Frame.wf fs -> strictly_increasing fs ->
  (forall c, pending m t c = lane_of fs c) ->
  exists m' t', LdflPacketMux.drain (S (length fs)) m t = ((m', t'), Ok (map packet_from_frame fs)) /\
    usable t' /\ forall c, pending m' t' c = [].
Proof.
  induction fs as [|f fs IH]; intros m t Hu Hwf Hs Hl.
  - destruct (next_spec m t Hu) as (t' & Hu' & Hp & Hn). cbv zeta in Hp, Hn.
    rewrite !Hl in Hp, Hn. cbn in Hn. cbn [length LdflPacketMux.drain]. rewrite Hn. eexists _, _.
    split; [done|]. split; [done|]. intros c. by rewrite Hp, Hl.
  - destruct (next_of_split m t f fs) as (m1 & t1 & Hn & Hu1 & Hl1); [done..|].
    inversion Hs; inversion Hwf; subst.
    destruct (IH m1 t1) as (m2 & t2 & Hd & Hu2 & Hl2); [done..|].
    exists m2, t2. cbn [length]. rewrite drain_S, Hn, Hd. by split_and!.
Qed.

(** C25: splitting a stream over the two lanes and merging it again is the identity: when the lanes
    of any endpoint that keeps the transport laws hold the packets of well-formed frames with
    increasing sequence numbers, each on the lane of its family, the multiplexer hands back those
    packets in exactly the stream's order and then reports empty lanes, so the bytes written are the
    bytes of the stream. *)
Theorem mux_restores_stream m t fs (Hu : usable t) (Hwf : Forall Frame.wf fs)
  (Hs : strictly_increasing fs) (Hl : forall c, pending m t c = lane_of fs c) :
  exists m' t' ps, LdflPacketMux.drain (S (length fs)) m t = ((m', t'), Ok ps) /\
    concat (map Packet.payload ps) = encode_all fs /\ Forall2 carries ps fs /\
    usable t' /\ forall c, pending m' t' c = [].
Proof.
  destruct (drain_of_split fs m t) as (m' & t' & Hd & Hu' & Hl'); [done..|].
  exists m', t', (map packet_from_frame fs). split; [done|].
  split; [apply packets_payload|]. split; [by apply packets_carry|done].
Qed.
End Mux.

Module StreamExamples.
Import FrameExamples.
Definition limits : QueueLimits.t := QueueLimits.mk 4 256 64.
Lemma mux_limits_wf : QueueLimits.wf limits.
Proof. split; simpl; lia. Qed.

(** A video frame and a later ping on their lanes. *)
Definition calls : list LinkCall.t :=
  [LinkCall.Send Side.First (packet_from_frame ping);
   LinkCall.Send Side.First (packet_from_frame video)].
Definition link : Link.t := Link.new (LoopbackConfig.new limits limits).
Definition queued : Link.t := fst (link_run link calls).
Definition reader : LoopbackEndpoint.t := LoopbackEndpoint.mk Side.Second queued.

Lemma reader_usable : usable reader.
Proof.
  assert (Hl : link_wf link) by (apply new_link_wf; split; apply mux_limits_wf).
  destruct (run_flow link calls Hl) as (Hwf & Hup & _);
    [reflexivity|repeat constructor; intros []|].
  split; [exact Hwf|reflexivity].
Qed.

Lemma packet_decoder_classifies_witness :
  exists d ps fs, LdflPacketDecoder.push LdflPacketDecoder.new (take 30 traffic) = (d, Ok ps) /\
    Forall2 carries ps fs /\ length ps = 1%nat.
Proof.
  pose proof (packet_decoder_classifies LdflPacketDecoder.new (take 30 traffic)
    ltac:(apply new_decoder_wf)) as H.
  destruct (LdflPacketDecoder.push LdflPacketDecoder.new (take 30 traffic)) as [d r] eqn:Hp.
  assert (Hr : exists ps, r = Ok ps /\ length ps = 1%nat)
    by (vm_compute in Hp; injection Hp as <- <-; by eexists).
  destruct Hr as (ps & -> & Hn). destruct H as (fs & _ & Hc & _). by exists d, ps, fs.
Defined.

Lemma mux_hands_over_earliest_witness :
  usable reader /\ exists m t p f,
    LdflPacketMux.next LdflPacketMux.default reader = ((m, t), Ok (Some p)) /\ carries p f.
Proof.
  split; [exact reader_usable|].
  pose proof (mux_hands_over_earliest LdflPacketMux.default reader reader_usable) as H.
  destruct (LdflPacketMux.next LdflPacketMux.default reader) as [[m t] r] eqn:Hn.
  assert (Hr : exists p, r = Ok (Some p))
    by (vm_compute in Hn; injection Hn as <- <- <-; by eexists).
  destruct Hr as [p ->]. destruct H as (_ & c & f & Hc & _). by exists m, t, p, f.
Defined.

Lemma mux_restores_stream_witness :
  exists m t ps, LdflPacketMux.drain 3 LdflPacketMux.default reader = ((m, t), Ok ps) /\
    concat (map Packet.payload ps) = traffic.
Proof.
  destruct (mux_restores_stream LdflPacketMux.default reader [video; ping]) as
    (m & t & ps & Hd & Hc & _).
  - exact reader_usable.
  - exact frames_wf.
  - repeat constructor.
  - intros []; vm_compute; reflexivity.
  - exists m, t, ps. by split.
Defined.
End StreamExamples.
