(* ===== verification/TransportTcp.v ===== *)
(** * The TCP byte-stream worker

    Models [crates/ladoflow-transport/src/tcp.rs]: the loop that moves packets
    between the worker's endpoint and a nonblocking socket. The socket's
    answers and the cancel flag are inputs of each iteration; an iteration
    returns, beside the new state of the loop's variables, the events that
    cross its boundary. The endpoint is any transport, so the calls the
    application makes between two of the worker's own calls are part of the
    endpoint's behaviour ([SharedEndpoint]). *)
From S2P Require Export TransportStream TransportLoopback.
Local Open Scope string_scope.
Local Open Scope list_scope.
Local Open Scope Z_scope.

Definition TCP_IO_CHUNK_BYTES : Z := 64 * 1024.

(** [TCP_QUEUE_CONFIG]: evaluated at compile time, a [panic!] if invalid. *)
Definition TCP_QUEUE_CONFIG : outcome Empty_set LoopbackConfig.t :=
  let! control := valid_limits 64 (4 * 1024 * 1024) (FRAME_HEADER_LEN + MAX_CONTROL_PAYLOAD) in
  let! media := valid_limits 3 (32 * 1024 * 1024) (FRAME_HEADER_LEN + MAX_MEDIA_PAYLOAD) in
  Ok (LoopbackConfig.new control media).

(** [std::net::SocketAddr]: an IPv4 or IPv6 address and a port. *)
Module SocketAddr.
Record t : Type := mk {
  ip : list byte;
  port : Z;
}.
End SocketAddr.

Module TcpTransportStatus.
Record t : Type := mk {
  state : ConnectionState.t;
  local_addr : SocketAddr.t;
  peer_addr : SocketAddr.t;
  bytes_read : Z;
  bytes_written : Z;
  frames_read : Z;
  frames_written : Z;
  last_error : option string;
}.

(** The value [from_authenticated_stream] starts with. *)
Definition initial (local_addr peer_addr : SocketAddr.t) : t :=
  mk ConnectionState.Connected local_addr peer_addr 0 0 0 0 None.

(** The counter updates of the loop. *)
Definition count_read (s : t) (count packets : Z) : t :=
  mk (state s) (local_addr s) (peer_addr s) (saturating_add 64 (bytes_read s) count)
     (bytes_written s) (saturating_add 64 (frames_read s) packets) (frames_written s) (last_error s).
Definition count_written (s : t) (written : Z) : t :=
  mk (state s) (local_addr s) (peer_addr s) (bytes_read s)
     (saturating_add 64 (bytes_written s) written) (frames_read s) (frames_written s) (last_error s).
Definition count_frame_written (s : t) : t :=
  mk (state s) (local_addr s) (peer_addr s) (bytes_read s) (bytes_written s) (frames_read s)
     (saturating_add 64 (frames_written s) 1) (last_error s).
Definition set_disconnected (s : t) : t :=
  mk ConnectionState.Disconnected (local_addr s) (peer_addr s) (bytes_read s) (bytes_written s)
     (frames_read s) (frames_written s) (last_error s).
Definition set_error (s : t) (error : string) : t :=
  mk (state s) (local_addr s) (peer_addr s) (bytes_read s) (bytes_written s)
     (frames_read s) (frames_written s) (Some error).
End TcpTransportStatus.

Module PendingWrite.
Record t : Type := mk {
  packet : Packet.t;
  offset : Z;
}.
End PendingWrite.

(** ** The socket's answers *)

(** A nonblocking [read]: the bytes that have arrived (none at the end of the
    stream), of which the call takes what fits its buffer; or an error. *)
Module SocketRead.
Inductive t : Type :=
| Available (bytes : list byte)
| WouldBlock
| Interrupted
| Failed (error : string).
End SocketRead.

(** A nonblocking [write]: the room in the socket's buffer, of which the call
    uses what it needs; or an error. *)
Module SocketWrite.
Inductive t : Type :=
| Room (bytes : Z)
| WouldBlock
| Interrupted
| Failed (error : string).
End SocketWrite.

(** What one iteration finds: the cancel flag and the socket's answers. *)
Module Turn.
Record t : Type := mk {
  cancelled : bool;
  write : SocketWrite.t;
  read : SocketRead.t;
}.
End Turn.

(** ** What crosses the worker's boundary *)
Module PumpEvent.
Inductive t : Type :=
| Took (packet : Packet.t)
| Wrote (bytes : list byte)
| FrameDone
| Read (bytes : list byte)
| Delivered (packet : Packet.t).
End PumpEvent.

Section Pump.
Context {T : Type} `{PacketTransport T}.

(** The variables of [pump_tcp_stream] that live across iterations. *)
Record pump : Type := mk_pump {
  endpoint : T;
  status : TcpTransportStatus.t;
  decoder : LdflPacketDecoder.t;
  mux : LdflPacketMux.t;
  outgoing : option PendingWrite.t;
  inbound : list Packet.t;
}.

Definition start_pump (endpoint : T) (status : TcpTransportStatus.t) : pump :=
  mk_pump endpoint status LdflPacketDecoder.new LdflPacketMux.default None [].

(** [drain_inbound]: recursion on the queue; the events are the accepted
    packets. *)
Fixpoint drain_inbound (endpoint : T) (inbound : list Packet.t) (made_progress : bool)
  : (T * list Packet.t) * list PumpEvent.t * outcome string bool :=
  match inbound with
  | [] => ((endpoint, []), [], Ok made_progress)
  | packet :: rest =>
    match try_send endpoint packet with
    | (endpoint, Ok _) =>
      let '(s, events, r) := drain_inbound endpoint rest true in
      (s, PumpEvent.Delivered packet :: events, r)
    | (endpoint, Err (SendError.Full packet _ _)) => ((endpoint, packet :: rest), [], Ok made_progress)
    | (endpoint, Err error) =>
      ((endpoint, rest), [],
       Err ("inbound LDFL TCP queue rejected a frame: " +:+ SendError.to_string error))
    | (endpoint, Fault f) => ((endpoint, rest), [], Fault f)
    end
  end.

Definition write_pending (answer : SocketWrite.t) (pending : PendingWrite.t)
  (status : TcpTransportStatus.t)
  : (PendingWrite.t * TcpTransportStatus.t) * list PumpEvent.t * outcome string bool :=
  let payload := Packet.payload (PendingWrite.packet pending) in
  let offset := PendingWrite.offset pending in
  let stop := Z.min (saturating_add usize_bits offset TCP_IO_CHUNK_BYTES) (zlen payload) in
  match slice (E:=string) payload (Z.to_nat offset) (Z.to_nat stop) with
  | Ok chunk =>
    match answer with
    | SocketWrite.Room bytes =>
      let written := Z.min bytes (zlen chunk) in
      if written <=? 0
      then ((pending, status), [], Err "LDFL TCP write made no progress")
      else
        ((PendingWrite.mk (PendingWrite.packet pending) (saturating_add usize_bits offset written),
          TcpTransportStatus.count_written status written),
         [PumpEvent.Wrote (take (Z.to_nat written) chunk)], Ok true)
    | SocketWrite.WouldBlock | SocketWrite.Interrupted => ((pending, status), [], Ok false)
    | SocketWrite.Failed error => ((pending, status), [], Err ("LDFL TCP write failed: " +:+ error))
    end
  | Err e => ((pending, status), [], Err e)
  | Fault f => ((pending, status), [], Fault f)
  end.

(** The step that takes the next outbound packet when none is in flight. *)
Definition take_outgoing (self : pump) : pump * list PumpEvent.t * outcome string unit :=
  match outgoing self with
  | Some _ => (self, [], Ok tt)
  | None =>
    let '((mux, endpoint), r) := LdflPacketMux.next (mux self) (endpoint self) in
    let self := mk_pump endpoint (status self) (decoder self) mux None (inbound self) in
    match r with
    | Ok (Some packet) =>
      (mk_pump endpoint (status self) (decoder self) mux (Some (PendingWrite.mk packet 0))
         (inbound self), [PumpEvent.Took packet], Ok tt)
    | Ok None => (self, [], Ok tt)
    | Err error =>
      (self, [], Err ("outbound LDFL TCP queue is invalid: " +:+ LdflStreamError.to_string error))
    | Fault f => (self, [], Fault f)
    end
  end.

(** The step that writes the packet in flight and retires it when complete. *)
Definition write_outgoing (answer : SocketWrite.t) (self : pump)
  : pump * list PumpEvent.t * outcome string bool :=
  match outgoing self with
  | None => (self, [], Ok false)
  | Some pending =>
    let '((pending, status), events, r) := write_pending answer pending (status self) in
    let self := mk_pump (endpoint self) status (decoder self) (mux self) (Some pending)
                  (inbound self) in
    match r with
    | Ok progress =>
      if PendingWrite.offset pending =? Packet.len (PendingWrite.packet pending)
      then (mk_pump (endpoint self) (TcpTransportStatus.count_frame_written status) (decoder self)
              (mux self) None (inbound self), events ++ [PumpEvent.FrameDone], Ok progress)
      else (self, events, Ok progress)
    | Err e => (self, events, Err e)
    | Fault f => (self, events, Fault f)
    end
  end.

(** Whether the loop goes on or returns [Ok(())]. *)
Inductive flow : Type :=
| Continue
| Return.

(** The step that reads the socket once every inbound packet is delivered. *)
Definition read_inbound (answer : SocketRead.t) (self : pump)
  : pump * list PumpEvent.t * outcome string flow :=
  match inbound self with
  | _ :: _ => (self, [], Ok Continue)
  | [] =>
    match answer with
    | SocketRead.Available [] => (self, [], Ok Return)
    | SocketRead.Available bytes =>
      let bytes := take (Z.to_nat TCP_IO_CHUNK_BYTES) bytes in
      let (decoder, r) := LdflPacketDecoder.push (decoder self) bytes in
      match r with
      | Ok packets =>
        (mk_pump (endpoint self)
           (TcpTransportStatus.count_read (status self) (zlen bytes) (zlen packets))
           decoder (mux self) (outgoing self) (inbound self ++ packets),
         [PumpEvent.Read bytes], Ok Continue)
      | Err error =>
        (mk_pump (endpoint self) (status self) decoder (mux self) (outgoing self) (inbound self),
         [PumpEvent.Read bytes],
         Err ("inbound LDFL TCP stream is invalid: " +:+ LdflStreamError.to_string error))
      | Fault f =>
        (mk_pump (endpoint self) (status self) decoder (mux self) (outgoing self) (inbound self),
         [PumpEvent.Read bytes], Fault f)
      end
    | SocketRead.WouldBlock | SocketRead.Interrupted => (self, [], Ok Continue)
    | SocketRead.Failed error => (self, [], Err ("LDFL TCP read failed: " +:+ error))
    end
  end.

(** One iteration of the [while] loop. *)
Definition pump_turn (turn : Turn.t) (self : pump) : pump * list PumpEvent.t * outcome string flow :=
  if Turn.cancelled turn then (self, [], Ok Return)
  else
    let '((endpoint, inbound), e1, r) := drain_inbound (endpoint self) (inbound self) false in
    let self := mk_pump endpoint (status self) (decoder self) (mux self) (outgoing self) inbound in
    match r with
    | Ok _ =>
      let '(self, e2, r) := take_outgoing self in
      match r with
      | Ok _ =>
        let '(self, e3, r) := write_outgoing (Turn.write turn) self in
        match r with
        | Ok _ =>
          let '(self, e4, r) := read_inbound (Turn.read turn) self in
          (self, e1 ++ e2 ++ e3 ++ e4, r)
        | Err e => (self, e1 ++ e2 ++ e3, Err e)
        | Fault f => (self, e1 ++ e2 ++ e3, Fault f)
        end
      | Err e => (self, e1 ++ e2, Err e)
      | Fault f => (self, e1 ++ e2, Fault f)
      end
    | Err e => (self, e1, Err e)
    | Fault f => (self, e1, Fault f)
    end.

(** [pump_tcp_stream] over the turns it is given; [Continue] when it is still
    running after the last. *)
Fixpoint pump_tcp_stream (turns : list Turn.t) (self : pump)
  : pump * list PumpEvent.t * outcome string flow :=
  match turns with
  | [] => (self, [], Ok Continue)
  | turn :: turns =>
    let '(self, events, r) := pump_turn turn self in
    match r with
    | Ok Continue =>
      let '(self, more, r) := pump_tcp_stream turns self in (self, events ++ more, r)
    | _ => (self, events, r)
    end
  end.
End Pump.
Arguments pump T : clear implicits.

(** ** What the events amount to *)
Definition took (tr : list PumpEvent.t) : list Packet.t :=
  omap (fun e => match e with PumpEvent.Took p => Some p | _ => None end) tr.
Definition delivered_in (tr : list PumpEvent.t) : list Packet.t :=
  omap (fun e => match e with PumpEvent.Delivered p => Some p | _ => None end) tr.
Definition wrote (tr : list PumpEvent.t) : list byte :=
  concat (omap (fun e => match e with PumpEvent.Wrote b => Some b | _ => None end) tr).
Definition read (tr : list PumpEvent.t) : list byte :=
  concat (omap (fun e => match e with PumpEvent.Read b => Some b | _ => None end) tr).
Definition frames_done (tr : list PumpEvent.t) : nat :=
  length (omap (fun e => match e with PumpEvent.FrameDone => Some tt | _ => None end) tr).

Lemma took_app a b : took (a ++ b) = took a ++ took b.
Proof. apply omap_app. Qed.
Lemma delivered_in_app a b : delivered_in (a ++ b) = delivered_in a ++ delivered_in b.
Proof. apply omap_app. Qed.
Lemma wrote_app a b : wrote (a ++ b) = wrote a ++ wrote b.
Proof. unfold wrote. by rewrite omap_app, concat_app. Qed.
Lemma read_app a b : read (a ++ b) = read a ++ read b.
Proof. unfold read. by rewrite omap_app, concat_app. Qed.
Lemma frames_done_app a b : frames_done (a ++ b) = (frames_done a + frames_done b)%nat.
Proof. unfold frames_done. by rewrite omap_app, length_app. Qed.

Create HintDb trace.
#[export] Hint Rewrite took_app delivered_in_app wrote_app read_app frames_done_app : trace.

Section PumpInvariant.
Context {T : Type} `{Safety : EndpointSafety T}.
Implicit Types (st : pump T) (tr : list PumpEvent.t).

(** The part of the packet in flight that the socket already has. *)
Definition in_flight (o : option PendingWrite.t) : list byte :=
  match o with
  | Some pw => take (Z.to_nat (PendingWrite.offset pw)) (Packet.payload (PendingWrite.packet pw))
  | None => []
  end.

Definition flying (o : option PendingWrite.t) : list Packet.t :=
  match o with
  | Some pw => [PendingWrite.packet pw]
  | None => []
  end.

Record outbound_ok tr st : Prop := {
  out_order : exists finished, took tr = finished ++ flying (outgoing st) /\
    frames_done tr = length finished /\
    wrote tr = concat (map Packet.payload finished) ++ in_flight (outgoing st);
  out_frames : Forall (fun p => exists f, carries p f) (took tr);
  out_offset : match outgoing st with
    | Some pw => 0 <= PendingWrite.offset pw < Packet.len (PendingWrite.packet pw)
    | None => True
    end;
  out_bytes : TcpTransportStatus.bytes_written (status st) = Z.min (zlen (wrote tr)) (u_max 64);
  out_count : TcpTransportStatus.frames_written (status st) =
    Z.min (Z.of_nat (frames_done tr)) (u_max 64);
}.

Record inbound_ok tr st : Prop := {
  in_order : exists fs,
    stream (read tr) fs (FrameDecoder.buffer (LdflPacketDecoder.decoder (decoder st))) /\
    delivered_in tr ++ inbound st = map packet_from_frame fs /\
    TcpTransportStatus.frames_read (status st) = Z.min (zlen fs) (u_max 64);
  in_decoder : FrameDecoder.wf (LdflPacketDecoder.decoder (decoder st));
  in_bytes : TcpTransportStatus.bytes_read (status st) = Z.min (zlen (read tr)) (u_max 64);
}.

(** What is left of [inbound_ok] when the loop stops on an error: everything
    delivered came from the stream, in order. *)
Definition delivered_ok tr : Prop :=
  exists bytes fs tail, bytes `prefix_of` read tr /\ stream bytes fs tail /\
    delivered_in tr `prefix_of` map packet_from_frame fs.

(** Events that concern only one direction. *)
Definition out_quiet tr : Prop := took tr = [] /\ wrote tr = [] /\ frames_done tr = 0%nat.
Definition in_quiet tr : Prop := read tr = [] /\ delivered_in tr = [].

Lemma outbound_frame tr ev st st' :
  outbound_ok tr st -> out_quiet ev -> outgoing st' = outgoing st ->
  TcpTransportStatus.bytes_written (status st') = TcpTransportStatus.bytes_written (status st) ->
  TcpTransportStatus.frames_written (status st') = TcpTransportStatus.frames_written (status st) ->
  outbound_ok (tr ++ ev) st'.
Proof.
  intros [(fin & H1 & H2 & H3) Hf Ho Hb Hc] (Ht & Hw & Hd) Hout Hbw Hfw.
  split; rewrite ?Hout, ?Hbw, ?Hfw; autorewrite with trace; rewrite ?Ht, ?Hw, ?Hd, ?app_nil_r;
    [|done..|lia]. exists fin. split_and!; [done|lia|done].
Qed.

Lemma inbound_frame tr ev st st' :
  inbound_ok tr st -> in_quiet ev -> inbound st' = inbound st -> decoder st' = decoder st ->
  TcpTransportStatus.bytes_read (status st') = TcpTransportStatus.bytes_read (status st) ->
  TcpTransportStatus.frames_read (status st') = TcpTransportStatus.frames_read (status st) ->
  inbound_ok (tr ++ ev) st'.
Proof.
  intros [(fs & Hs & Hd & Hn) Hw Hb] [Hr Hdl] Hin Hdec Hbr Hfr.
  split; rewrite ?Hdec, ?Hbr; autorewrite with trace; rewrite ?Hr, ?Hdl, ?app_nil_r; [|done..].
  exists fs. by rewrite Hin, Hfr.
Qed.

Lemma inbound_delivered tr st : inbound_ok tr st -> delivered_ok tr.
Proof.
  intros [(fs & Hs & Hd & _) _ _]. eexists _, fs, _. split; [done|]. split; [done|].
  rewrite <-Hd. by apply prefix_app_r.
Qed.

(** A step of the loop: it never panics, it keeps the outbound accounting and
    the order of deliveries, and if the loop goes on everything is kept. *)
Definition step_ok {A} tr (x : pump T * list PumpEvent.t * outcome string A) : Prop :=
  let '(st, ev, r) := x in
  returns r /\ outbound_ok (tr ++ ev) st /\ delivered_ok (tr ++ ev) /\
  match r with
  | Ok _ => inbound_ok (tr ++ ev) st /\ safe (endpoint st)
  | _ => True
  end.

Lemma drain_inbound_spec inb : forall e b, safe e ->
  let '((e', inb'), ev, r) := drain_inbound e inb b in
  safe e' /\ returns r /\ out_quiet ev /\ read ev = [] /\ delivered_in ev `prefix_of` inb /\
  forall x, r = Ok x -> delivered_in ev ++ inb' = inb.
Proof.
  induction inb as [|p rest IH]; intros e b He; cbn [drain_inbound]; [done|].
  pose proof (safe_send e p He) as [He' Hr]. pose proof (safe_full e p) as Hfull.
  destruct (try_send e p) as [e' [rep|err|f]]; cbn [fst snd] in *; [| |done].
  - specialize (IH e' true He'). destruct (drain_inbound e' rest true) as [[[e2 inb2] ev] r].
    destruct IH as (H1 & H2 & (Ht & Hw & Hd) & H4 & H5 & H6).
    split_and!; [done|done|by split_and!|done| |].
    + cbn. by apply prefix_cons.
    + intros x Hx. cbn. f_equal. by apply (H6 x).
  - destruct err as [q|q d l|q n l].
    1, 3: split_and!; [done..|apply prefix_nil|done].
    split_and!; [done..|apply prefix_nil|]. intros _ _. cbn. f_equal. by eapply Hfull.
Qed.

Lemma drain_step_ok tr st : safe (endpoint st) -> outbound_ok tr st -> inbound_ok tr st ->
  step_ok tr
    (let '((e, inb), ev, r) := drain_inbound (endpoint st) (inbound st) false in
     (mk_pump e (status st) (decoder st) (mux st) (outgoing st) inb, ev, r)).
Proof.
  intros He Ho Hi. pose proof (drain_inbound_spec (inbound st) (endpoint st) false He) as Hd.
  destruct (drain_inbound _ _ _) as [[[e inb] ev] r].
  destruct Hd as (He' & Hr & Hq & Hrd & Hpre & Hall). unfold step_ok.
  split; [done|]. split; [by apply (outbound_frame tr ev st)|].
  destruct Hi as [(fs & Hs & Hfs & Hn) Hw Hb].
  split.
  - exists (read tr), fs, (FrameDecoder.buffer (LdflPacketDecoder.decoder (decoder st))).
    autorewrite with trace. split; [by apply prefix_app_r|]. split; [done|].
    rewrite <-Hfs. by apply prefix_app.
  - destruct r as [x|err|f]; [|done|done]. split; [|done]. specialize (Hall x eq_refl).
    split; autorewrite with trace; cbn [decoder inbound status]; rewrite ?Hrd, ?app_nil_r;
      [|done..]. exists fs. rewrite <-(assoc_L (++)), Hall. done.
Qed.

Lemma next_carries m (e : T) m' e' p :
  LdflPacketMux.next m e = ((m', e'), Ok (Some p)) -> exists f, carries p f.
Proof.
  unfold LdflPacketMux.next. destruct (LdflPacketMux.fill _ Channel.Control _) as [e1 [c|?|?]];
    cbn [otry]; [|done..].
  destruct (LdflPacketMux.fill _ Channel.Media _) as [e2 [d|?|?]]; cbn [otry]; [|done..].
  pose proof (take_earlier_spec (LdflPacketMux.mk c d)) as Ht.
  cbn [LdflPacketMux.control LdflPacketMux.media] in *.
  destruct (LdflPacketMux.take_earlier (LdflPacketMux.mk c d)) as [m1 r]. intros [= -> -> ->].
  destruct Ht as (? & f & _ & Hf & _). by exists f.
Qed.

Lemma fill_safe slot c (e : T) :
  safe e -> safe (fst (LdflPacketMux.fill slot c e)) /\ returns (snd (LdflPacketMux.fill slot c e)).
Proof.
  intros He. destruct slot; cbn; [done|]. pose proof (safe_receive e c He) as [H1 H2].
  destruct (try_receive e c) as [e' r]. cbn in *. split; [done|by apply returns_map_err].
Qed.

Lemma next_safe m (e : T) :
  safe e -> safe (snd (fst (LdflPacketMux.next m e))) /\ returns (snd (LdflPacketMux.next m e)).
Proof.
  intros He. unfold LdflPacketMux.next.
  pose proof (fill_safe (LdflPacketMux.control m) Channel.Control e He) as [H1 H2].
  destruct (LdflPacketMux.fill _ Channel.Control e) as [e1 [c|?|?]]; cbn [otry fst snd] in *;
    [|done..].
  pose proof (fill_safe (LdflPacketMux.media m) Channel.Media e1 H1) as [H3 H4].
  cbn [LdflPacketMux.control LdflPacketMux.media].
  destruct (LdflPacketMux.fill _ Channel.Media e1) as [e2 [d|?|?]]; cbn [otry fst snd] in *;
    [|done..].
  pose proof (take_earlier_spec (LdflPacketMux.mk c d)) as Ht.
  destruct (LdflPacketMux.take_earlier (LdflPacketMux.mk c d)) as [m1 r]. cbn [fst snd].
  split; [done|]. by destruct r.
Qed.

Lemma carries_len p f : carries p f -> 0 < Packet.len p < 2 ^ 32.
Proof.
  intros ([[_ _ _ Hl] Hp] & Hpay & _). unfold Packet.len.
  rewrite Hpay, zlen_frame_encode. unfold Frame.encoded_len, FRAME_HEADER_LEN.
  pose proof (payload_limit_pos (FrameHeader.kind (Frame.header f))).
  unfold MAX_MEDIA_PAYLOAD in *. lia.
Qed.

Lemma take_step_ok tr st : safe (endpoint st) -> outbound_ok tr st -> inbound_ok tr st ->
  step_ok tr (take_outgoing st).
Proof.
  intros He Ho Hi. unfold take_outgoing. destruct (outgoing st) as [pw|] eqn:Hout.
  { unfold step_ok. rewrite app_nil_r. split_and!; [done|done|by eapply inbound_delivered|done|done]. }
  pose proof (next_safe (mux st) (endpoint st) He) as [He' Hr].
  pose proof (next_carries (mux st) (endpoint st)) as Hc.
  destruct (LdflPacketMux.next _ _) as [[m e] r]. cbn [fst snd] in *.
  assert (Hquiet : step_ok tr (mk_pump e (status st) (decoder st) m None (inbound st), [], @Ok string _ tt)).
  { unfold step_ok. rewrite app_nil_r. split; [done|].
    split; [rewrite <-(app_nil_r tr); by apply (outbound_frame tr [] st)|].
    split; [by eapply inbound_delivered|]. split; [|done].
    rewrite <-(app_nil_r tr). by apply (inbound_frame tr [] st). }
  destruct r as [[p|]|err|f]; [|done| |done].
  2:{ destruct Hquiet as (_ & H1 & H2 & _). by split_and!. }
  destruct (Hc m e p eq_refl) as [f Hf]. pose proof (carries_len p f Hf).
  assert (Hi' : inbound_ok (tr ++ [PumpEvent.Took p])
    (mk_pump e (status st) (decoder st) m (Some (PendingWrite.mk p 0)) (inbound st)))
    by by apply (inbound_frame tr _ st).
  unfold step_ok. split; [done|]. split; [|split; [by eapply inbound_delivered|done]].
  destruct Ho as [(fin & H1 & H2 & H3) Hfr _ Hb Hn]. rewrite Hout in *.
  split; autorewrite with trace; cbn [outgoing status]; change (wrote [PumpEvent.Took p]) with (@nil byte);
    change (frames_done [PumpEvent.Took p]) with 0%nat; rewrite ?app_nil_r, ?Nat.add_0_r; [|..].
  - exists fin. rewrite H1. cbn. by rewrite !app_nil_r in *.
  - apply Forall_app. split; [done|]. constructor; [by exists f|constructor].
  - cbn. lia.
  - done.
  - done.
Qed.

(** One write: the socket gets the next bytes of the packet, in order. *)
Lemma write_pending_spec answer pw s :
  0 <= PendingWrite.offset pw < Packet.len (PendingWrite.packet pw) ->
  Packet.len (PendingWrite.packet pw) < 2 ^ 32 ->
  let '((pw', s'), ev, r) := write_pending answer pw s in
  returns r /\ in_quiet ev /\ took ev = [] /\ frames_done ev = 0%nat /\
  PendingWrite.packet pw' = PendingWrite.packet pw /\
  0 <= PendingWrite.offset pw' <= Packet.len (PendingWrite.packet pw) /\
  (PendingWrite.offset pw' = Packet.len (PendingWrite.packet pw) -> exists x, r = Ok x) /\
  in_flight (Some pw') = in_flight (Some pw) ++ wrote ev /\
  TcpTransportStatus.bytes_written s' =
    (if decide (wrote ev = []) then TcpTransportStatus.bytes_written s
     else saturating_add 64 (TcpTransportStatus.bytes_written s) (zlen (wrote ev))) /\
  TcpTransportStatus.frames_written s' = TcpTransportStatus.frames_written s /\
  TcpTransportStatus.bytes_read s' = TcpTransportStatus.bytes_read s /\
  TcpTransportStatus.frames_read s' = TcpTransportStatus.frames_read s.
Proof.
  destruct pw as [p o]. cbn [PendingWrite.offset PendingWrite.packet]. unfold Packet.len.
  intros Ho Hlen. unfold write_pending. cbn [PendingWrite.offset PendingWrite.packet].
  set (stop := Z.min _ (zlen (Packet.payload p))).
  assert (Hstop : o < stop <= zlen (Packet.payload p))
    by (unfold stop, saturating_add, u_max, usize_bits, TCP_IO_CHUNK_BYTES; lia).
  rewrite slice_ok by lia. set (chunk := take _ (drop _ _)).
  assert (Hchunk : zlen chunk = stop - o) by (unfold chunk; rewrite length_take, length_drop; lia).
  clearbody stop.
  destruct answer as [room| | |err]; cbv beta iota zeta.
  2, 3, 4: split_and!; cbn [PendingWrite.offset]; try done; try lia; symmetry; apply app_nil_r.
  destruct (Z.leb_spec (Z.min room (zlen chunk)) 0).
  { split_and!; cbn [PendingWrite.offset]; try done; try lia; symmetry; apply app_nil_r. }
  set (n := Z.min room (zlen chunk)) in *.
  assert (Hn : 0 < n <= stop - o) by lia. clearbody n.
  assert (Hw : wrote [PumpEvent.Wrote (take (Z.to_nat n) chunk)] = take (Z.to_nat n) chunk)
    by (unfold wrote; cbn; by rewrite app_nil_r).
  rewrite Hw. cbn [PendingWrite.offset PendingWrite.packet].
  assert (Ho' : saturating_add usize_bits o n = o + n)
    by (unfold saturating_add, u_max, usize_bits; lia).
  rewrite Ho'. assert (Htl : zlen (take (Z.to_nat n) chunk) = n) by (rewrite length_take; lia).
  split_and!; try done; try lia.
  - by eexists.
  - unfold in_flight. cbn [PendingWrite.offset PendingWrite.packet]. unfold chunk.
    rewrite take_take. replace (Z.to_nat n `min` (Z.to_nat stop - Z.to_nat o))%nat with (Z.to_nat n) by lia.
    rewrite take_take_drop. f_equal. lia.
  - rewrite decide_False by (intros Hnil; rewrite Hnil in Htl; simpl in Htl; lia).
    rewrite Htl. done.
Qed.

Lemma saturating_total a b : 0 <= a -> 0 <= b ->
  saturating_add 64 (Z.min a (u_max 64)) b = Z.min (a + b) (u_max 64).
Proof. unfold saturating_add, u_max. lia. Qed.

(** A frame being written; it may just have become complete. *)
Record writing tr (pw : PendingWrite.t) (s : TcpTransportStatus.t) : Prop := {
  wr_order : exists finished, took tr = finished ++ [PendingWrite.packet pw] /\
    frames_done tr = length finished /\
    wrote tr = concat (map Packet.payload finished) ++ in_flight (Some pw);
  wr_frames : Forall (fun p => exists f, carries p f) (took tr);
  wr_offset : 0 <= PendingWrite.offset pw <= Packet.len (PendingWrite.packet pw);
  wr_bytes : TcpTransportStatus.bytes_written s = Z.min (zlen (wrote tr)) (u_max 64);
  wr_count : TcpTransportStatus.frames_written s = Z.min (Z.of_nat (frames_done tr)) (u_max 64);
}.

Lemma outbound_writing tr st pw : outgoing st = Some pw -> outbound_ok tr st -> writing tr pw (status st).
Proof. intros Hout [Ho Hfr Hoff Hb Hn]. rewrite Hout in Ho, Hoff. by split; [..|lia| |]. Qed.
Lemma writing_len tr pw s : writing tr pw s -> Packet.len (PendingWrite.packet pw) < 2 ^ 32.
Proof.
  intros [(fin & H1 & _ & _) Hfr _ _ _]. rewrite H1 in Hfr. apply Forall_app in Hfr as [_ Hfr].
  apply Forall_cons_1 in Hfr as [[f Hf] _]. apply (carries_len _ f Hf).
Qed.
Lemma writing_more tr pw s st :
  writing tr pw s -> outgoing st = Some pw -> status st = s ->
  PendingWrite.offset pw <> Packet.len (PendingWrite.packet pw) -> outbound_ok tr st.
Proof. intros [Ho Hfr Hoff Hb Hn] Hout <- Hne. split; rewrite ?Hout; (done || lia). Qed.
Lemma writing_done tr pw s st :
  writing tr pw s -> outgoing st = None -> status st = TcpTransportStatus.count_frame_written s ->
  PendingWrite.offset pw = Packet.len (PendingWrite.packet pw) -> outbound_ok (tr ++ [PumpEvent.FrameDone]) st.
Proof.
  intros [(fin & H1 & H2 & H3) Hfr Hoff Hb Hn] Hout Hst Hlen.
  assert (Hwd : wrote (tr ++ [PumpEvent.FrameDone]) = wrote tr)
    by (autorewrite with trace; change (wrote [PumpEvent.FrameDone]) with (@nil byte); by rewrite app_nil_r).
  assert (Hfd : frames_done (tr ++ [PumpEvent.FrameDone]) = S (length fin))
    by (autorewrite with trace; rewrite H2; cbn; lia).
  assert (Htk : took (tr ++ [PumpEvent.FrameDone]) = took tr) by (rewrite took_app; cbn; by rewrite app_nil_r).
  split; rewrite ?Hwd, ?Hfd, ?Htk, ?Hout, ?Hst; [|done|done|done|].
  - exists (fin ++ [PendingWrite.packet pw]). cbn [flying in_flight]. rewrite !app_nil_r. split; [done|].
    rewrite length_app. split; [cbn [length]; lia|].
    rewrite H3, map_app, concat_app. f_equal. cbn. rewrite app_nil_r. apply firstn_all2. unfold Packet.len in Hlen. lia.
  - change (saturating_add 64 (TcpTransportStatus.frames_written s) 1 = Z.min (Z.of_nat (S (length fin))) (u_max 64)).
    rewrite Hn, H2, saturating_total by lia. f_equal. lia.
Qed.
Lemma write_pending_writing answer tr pw s : writing tr pw s ->
  PendingWrite.offset pw < Packet.len (PendingWrite.packet pw) ->
  let '((pw', s'), ev, r) := write_pending answer pw s in writing (tr ++ ev) pw' s'.
Proof.
  intros Hwr Hlt. pose proof (writing_len _ _ _ Hwr) as Hlen.
  destruct Hwr as [(fin & H1 & H2 & H3) Hfr Hoff Hb Hn].
  pose proof (write_pending_spec answer pw s ltac:(lia) Hlen) as Hw.
  destruct (write_pending answer pw s) as [[[pw' s'] ev] r].
  destruct Hw as (_ & _ & Ht & Hd & Hp & Ho' & _ & Hfl & Hbw & Hfw & _).
  split; autorewrite with trace; rewrite ?Ht, ?Hd, ?app_nil_r, ?Nat.add_0_r, ?Hp; [|done|done| |by rewrite Hfw].
  - exists fin. split; [done|]. split; [done|]. by rewrite H3, Hfl, (assoc_L (++)).
  - rewrite Hbw, Hb, length_app, Nat2Z.inj_add. case_decide as Hnil.
    + rewrite Hnil. cbn [length]. f_equal. lia.
    + by rewrite saturating_total by lia.
Qed.

Lemma write_step_ok answer tr st : safe (endpoint st) -> outbound_ok tr st -> inbound_ok tr st ->
  step_ok tr (write_outgoing answer st).
Proof.
  intros He Ho Hi. unfold write_outgoing. destruct (outgoing st) as [pw|] eqn:Hout.
  2:{ unfold step_ok. rewrite app_nil_r. split_and!; [done|done|by eapply inbound_delivered|done|done]. }
  pose proof (outbound_writing _ _ _ Hout Ho) as Hwr.
  pose proof (out_offset _ _ Ho) as Hoff. rewrite Hout in Hoff.
  pose proof (write_pending_spec answer pw (status st) Hoff (writing_len _ _ _ Hwr)) as Hw.
  pose proof (write_pending_writing answer tr pw (status st) Hwr ltac:(lia)) as Hwr'.
  destruct (write_pending answer pw (status st)) as [[[pw' s'] ev] r].
  destruct Hw as (Hr & Hq & _ & _ & Hp & _ & Hfull & _ & _ & _ & Hbr & Hfrd).
  set (st1 := mk_pump _ s' _ _ _ _).
  assert (Hi1 : inbound_ok (tr ++ ev) st1) by by apply (inbound_frame tr ev st).
  destruct (Z.eqb_spec (PendingWrite.offset pw') (Packet.len (PendingWrite.packet pw'))) as [Hdone|Hmore].
  - destruct (Hfull ltac:(by rewrite Hp in Hdone)) as [x ->]. unfold step_ok. rewrite (assoc_L (++)).
    assert (Hi2 : inbound_ok ((tr ++ ev) ++ [PumpEvent.FrameDone])
      (mk_pump (endpoint st1) (TcpTransportStatus.count_frame_written s') (decoder st1) (mux st1) None
         (inbound st1))) by by apply (inbound_frame (tr ++ ev) _ st1).
    split; [done|]. split; [by eapply writing_done|]. split; [by eapply inbound_delivered|done].
  - assert (Ho1 : outbound_ok (tr ++ ev) st1) by by eapply writing_more.
    destruct r; [|by split_and!; [..|by eapply inbound_delivered|]|done].
    by split_and!; [..|by eapply inbound_delivered| |].
Qed.

Lemma quiet_step_ok {A} tr st (a : A) :
  safe (endpoint st) -> outbound_ok tr st -> inbound_ok tr st -> step_ok tr (st, [], @Ok string _ a).
Proof.
  intros. unfold step_ok. rewrite app_nil_r. split_and!; try done. by eapply inbound_delivered.
Qed.

Lemma quiet_error_ok {A} tr st e :
  outbound_ok tr st -> inbound_ok tr st -> step_ok tr (st, [], @Err string A e).
Proof.
  intros. unfold step_ok. rewrite app_nil_r. split_and!; try done. by eapply inbound_delivered.
Qed.

Lemma delivered_more tr ev : delivered_ok tr -> delivered_in ev = [] -> delivered_ok (tr ++ ev).
Proof.
  intros (b & fs & tail & Hb & Hs & Hd) Hev. exists b, fs, tail. autorewrite with trace.
  rewrite Hev, app_nil_r. split_and!; [by apply prefix_app_r|done..].
Qed.

Lemma read_step_ok answer tr st : safe (endpoint st) -> outbound_ok tr st -> inbound_ok tr st ->
  step_ok tr (read_inbound answer st).
Proof.
  intros He Ho Hi. unfold read_inbound. destruct (inbound st) eqn:Hin; [|by apply quiet_step_ok].
  destruct answer as [[|b bs]| | |err]; try (by apply quiet_step_ok); [|by apply quiet_error_ok].
  set (bytes := take _ (b :: bs)). clearbody bytes. clear b bs.
  pose proof (inbound_delivered tr st Hi) as Hdel.
  destruct Hi as [(fs & Hs & Hd & Hn) Hw Hb]. rewrite Hin, app_nil_r in Hd.
  unfold LdflPacketDecoder.push. pose proof (push_spec _ bytes Hw) as Hp. cbv zeta in Hp.
  pose proof (push_wf (LdflPacketDecoder.decoder (decoder st)) bytes) as Hw'.
  destruct (FrameDecoder.push _ bytes) as [d' r]. specialize (Hw' d' r Hw eq_refl).
  assert (Hread : read [PumpEvent.Read bytes] = bytes) by (unfold read; cbn; apply app_nil_r).
  destruct r as [gs|e|f]; cbn [obind map_err]; [| |done].
  - unfold step_ok. split; [done|].
    split; [by apply (outbound_frame tr _ st)|]. split; [by apply delivered_more|].
    split; [|done]. destruct Hp as (_ & _ & Hg).
    split; autorewrite with trace; rewrite ?Hread; cbn [decoder inbound status LdflPacketDecoder.decoder].
    + exists (fs ++ gs). split; [by eapply stream_app_tail|]. split.
      * cbn. by rewrite app_nil_r, map_app, Hd.
      * change (saturating_add 64 (TcpTransportStatus.frames_read (status st))
          (zlen (map packet_from_frame gs)) = Z.min (zlen (fs ++ gs)) (u_max 64)).
        rewrite Hn, saturating_total, length_map, length_app by lia. f_equal. lia.
    + done.
    + change (saturating_add 64 (TcpTransportStatus.bytes_read (status st)) (zlen bytes) =
        Z.min (zlen (read tr ++ bytes)) (u_max 64)).
      rewrite Hb, saturating_total, length_app by lia. f_equal. lia.
  - unfold step_ok. split; [done|]. split; [by apply (outbound_frame tr _ st)|].
    split; [by apply delivered_more|done].
Qed.

Lemma step_error {A B} tr st ev (r : outcome string A) :
  step_ok tr (st, ev, r) ->
  match r with
  | Ok _ => True
  | Err e => step_ok tr (st, ev, @Err string B e)
  | Fault f => step_ok tr (st, ev, @Fault string B f)
  end.
Proof. by destruct r. Qed.

(** A later step sees the events of the earlier ones. *)
Lemma step_after {A} tr ev (x : pump T * list PumpEvent.t * outcome string A) :
  step_ok (tr ++ ev) x -> let '(st, ev', r) := x in step_ok tr (st, ev ++ ev', r).
Proof. destruct x as [[st ev'] r]. unfold step_ok. by rewrite <-(assoc_L (++)). Qed.

Lemma turn_ok turn tr st : safe (endpoint st) -> outbound_ok tr st -> inbound_ok tr st ->
  step_ok tr (pump_turn turn st).
Proof.
  intros He Ho Hi. unfold pump_turn. destruct (Turn.cancelled turn); [by apply quiet_step_ok|].
  pose proof (drain_step_ok tr st He Ho Hi) as H1.
  destruct (drain_inbound _ _ _) as [[[e inb] e1] r1].
  destruct r1 as [x1|err|f]; [|by apply (step_error (B:=flow)) in H1..].
  destruct H1 as (_ & Ho1 & _ & Hi1 & He1).
  pose proof (take_step_ok _ _ He1 Ho1 Hi1) as H2.
  destruct (take_outgoing _) as [[st2 e2] r2]. apply step_after in H2.
  destruct r2 as [x2|err|f]; [|by apply (step_error (B:=flow)) in H2..].
  destruct H2 as (_ & Ho2 & _ & Hi2 & He2).
  pose proof (write_step_ok (Turn.write turn) _ _ He2 Ho2 Hi2) as H3.
  destruct (write_outgoing _ _) as [[st3 e3] r3]. apply step_after in H3.
  rewrite <-(assoc_L (++)) in H3.
  destruct r3 as [x3|err|f]; [|by apply (step_error (B:=flow)) in H3..].
  destruct H3 as (_ & Ho3 & _ & Hi3 & He3).
  pose proof (read_step_ok (Turn.read turn) _ _ He3 Ho3 Hi3) as H4.
  destruct (read_inbound _ _) as [[st4 e4] r4]. apply step_after in H4.
  by rewrite <-!(assoc_L (++)) in H4.
Qed.

Lemma pump_ok turns : forall tr st, safe (endpoint st) -> outbound_ok tr st -> inbound_ok tr st ->
  step_ok tr (pump_tcp_stream turns st).
Proof.
  induction turns as [|turn turns IH]; intros tr st He Ho Hi; [by apply quiet_step_ok|].
  cbn [pump_tcp_stream]. pose proof (turn_ok turn tr st He Ho Hi) as H1.
  destruct (pump_turn turn st) as [[st1 e1] r1].
  destruct r1 as [[|]|err|f]; [|done..].
  destruct H1 as (_ & Ho1 & _ & Hi1 & He1). specialize (IH _ _ He1 Ho1 Hi1).
  destruct (pump_tcp_stream turns st1) as [[st2 e2] r2]. by apply step_after in IH.
Qed.

Lemma start_ok (e : T) local peer :
  safe e -> let st := start_pump e (TcpTransportStatus.initial local peer) in
  safe (endpoint st) /\ outbound_ok [] st /\ inbound_ok [] st.
Proof.
  intros He. split; [done|]. split.
  - split; cbn; [|by constructor|done..]. by exists [].
  - split; cbn; [|apply new_decoder_wf|done]. exists []. split_and!; [|done..].
    by apply (stream_pending [] 24).
Qed.

Lemma carried_frames ps :
  Forall (fun p => exists f, carries p f) ps ->
  exists fs, Forall2 carries ps fs /\ Forall Frame.wf fs /\ concat (map Packet.payload ps) = encode_all fs.
Proof.
  induction 1 as [|p ps [f Hf] _ (fs & H1 & H2 & H3)]; [by exists []|].
  exists (f :: fs). pose proof Hf as (Hwf & Hp & _). split_and!; [by constructor..|].
  unfold encode_all in *. cbn. by rewrite Hp, H3.
Qed.

(** A packet in flight has not put its whole frame on the wire. *)
Lemma in_flight_pending o :
  Forall (fun p => exists f, carries p f) (flying o) ->
  match o with
  | Some pw => 0 <= PendingWrite.offset pw < Packet.len (PendingWrite.packet pw)
  | None => True
  end -> stream (in_flight o) [] (in_flight o).
Proof.
  destruct o as [[p n]|]; cbn; [|intros; by apply (stream_pending [] 24)].
  intros Hp Hn. apply Forall_cons_1 in Hp as [(f & Hwf & Hpay & _) _]. unfold Packet.len in Hn.
  destruct (decode_prefix_incomplete f (take (Z.to_nat n) (Packet.payload p))
    (drop (Z.to_nat n) (Packet.payload p)) Hwf) as [m Hm]; [|by rewrite take_drop|by eapply stream_pending].
  intros Hnil%(f_equal length). rewrite length_drop in Hnil. simpl in Hnil. lia.
Qed.

(** C5: whatever the application does on the link between the worker's calls and however the socket
    accepts bytes, the bytes the worker has written are always a well-formed LDFL stream with at
    most one frame incomplete: the frames of the packets taken from the link, in the order taken,
    each written whole before the next; the byte and frame counters say exactly what was written
    (saturating), and the worker does not panic. *)
Theorem tcp_output_is_a_frame_stream (e : T) local peer turns (He : safe e) :
  let '(st, tr, r) := pump_tcp_stream turns (start_pump e (TcpTransportStatus.initial local peer)) in
  returns r /\
  exists fs part, stream (wrote tr) fs part /\
    (exists next, Forall2 carries (took tr) (fs ++ next) /\ (length next <= 1)%nat) /\
    TcpTransportStatus.frames_written (status st) = Z.min (zlen fs) (u_max 64) /\
    TcpTransportStatus.bytes_written (status st) = Z.min (zlen (wrote tr)) (u_max 64).
Proof.
  destruct (start_ok e local peer He) as (H1 & H2 & H3).
  pose proof (pump_ok turns [] _ H1 H2 H3) as Hok.
  destruct (pump_tcp_stream turns _) as [[st tr] r]. destruct Hok as (Hr & Hout & _ & _).
  cbn [app] in Hout. split; [done|]. destruct Hout as [(fin & Ht & Hd & Hw) Hf Ho Hb Hc].
  rewrite Ht in Hf. apply Forall_app in Hf as [Hf1 Hf2].
  destruct (carried_frames fin Hf1) as (fs & Hfs & Hwf & Henc).
  destruct (carried_frames _ Hf2) as (gs & Hgs & _ & _).
  exists fs, (in_flight (outgoing st)). split.
  { rewrite Hw, Henc. rewrite <-(app_nil_r fs) at 2. apply stream_app; [done|].
    by apply in_flight_pending. }
  split; [exists gs; split|].
  - rewrite Ht. by apply Forall2_app.
  - rewrite <-(Forall2_length _ _ _ Hgs). destruct (outgoing st); cbn; lia.
  - by rewrite <-(Forall2_length _ _ _ Hfs), <-Hd.
Qed.

(** C6: the packets the worker hands to the link are exactly those of the bytes it read, in stream
    order: at any time they are the packets of a prefix of the frames read, a framing or queue error
    delivers nothing out of order, and while the worker runs the delivered packets and those waiting
    for room are all the complete frames read, the unread tail being kept; the counters agree. *)
Theorem tcp_input_is_delivered_in_order (e : T) local peer turns (He : safe e) :
  let '(st, tr, r) := pump_tcp_stream turns (start_pump e (TcpTransportStatus.initial local peer)) in
  (exists bytes fs tail, bytes `prefix_of` read tr /\ stream bytes fs tail /\
     delivered_in tr `prefix_of` map packet_from_frame fs) /\
  (succeeds r -> exists fs,
     stream (read tr) fs (FrameDecoder.buffer (LdflPacketDecoder.decoder (decoder st))) /\
     delivered_in tr ++ inbound st = map packet_from_frame fs /\
     TcpTransportStatus.frames_read (status st) = Z.min (zlen fs) (u_max 64) /\
     TcpTransportStatus.bytes_read (status st) = Z.min (zlen (read tr)) (u_max 64)).
Proof.
  destruct (start_ok e local peer He) as (H1 & H2 & H3).
  pose proof (pump_ok turns [] _ H1 H2 H3) as Hok.
  destruct (pump_tcp_stream turns _) as [[st tr] r]. destruct Hok as (_ & _ & Hdel & Hin).
  split; [exact Hdel|]. intros [x ->]. destruct Hin as [[(fs & Hs & Hd & Hn) _ Hb] _].
  by exists fs.
Qed.
End PumpInvariant.

(** ** The worker's end *)

(** [run_tcp_stream] after the loop: the link is disconnected and the status
    says why, unless the worker was cancelled. A panic would end the thread
    before these updates. *)
Definition run_tcp_stream (turns : list Turn.t) (cancelled_at_exit : bool)
  (self : pump LoopbackEndpoint.t)
  : LoopbackEndpoint.t * TcpTransportStatus.t * list PumpEvent.t :=
  let '(self, events, result) := pump_tcp_stream turns self in
  match result with
  | Fault _ => (endpoint self, status self, events)
  | Ok _ | Err _ =>
    let (endpoint, _) := LoopbackEndpoint.disconnect (endpoint self) in
    let current := TcpTransportStatus.set_disconnected (status self) in
    let current :=
      if cancelled_at_exit then current
      else
        TcpTransportStatus.set_error current
          match result with
          | Err error => error
          | _ => "LDFL TCP peer closed the stream"
          end in
    (endpoint, current, events)
  end.

Module TcpExamples.
Import FrameExamples.

(** A control frame and the video frame sent after it. *)
Definition early : Frame.t :=
  Frame.mk (FrameHeader.mk PROTOCOL_VERSION MessageType.Pong FrameFlags.NONE 7 2) [x01; x02].
Definition late : Frame.t :=
  Frame.mk (FrameHeader.mk PROTOCOL_VERSION MessageType.VideoFrame FrameFlags.KEYFRAME 8 1) [x03].

Lemma early_wf : Frame.wf early.
Proof. split; [split; vm_compute; (done || split; (done || discriminate))|reflexivity]. Qed.
Lemma late_wf : Frame.wf late.
Proof. split; [split; vm_compute; (done || split; (done || discriminate))|reflexivity]. Qed.

Definition limits : QueueLimits.t := QueueLimits.mk 4 256 64.
Lemma tcp_limits_wf : QueueLimits.wf limits.
Proof. split; simpl; lia. Qed.
Definition link : Link.t := Link.new (LoopbackConfig.new limits limits).
Lemma tcp_link_is_wf : link_wf link.
Proof. apply new_link_wf. split; apply tcp_limits_wf. Qed.

Definition send (f : Frame.t) : LinkCall.t := LinkCall.Send Side.First (packet_from_frame f).

(** The application sends both frames between the multiplexer's look at the
    control lane and its look at the media lane. *)
Definition raced : SharedEndpoint.t := SharedEndpoint.mk Side.Second link [[]; [send early; send late]].

(** The later frame of the application leaves first. *)
Theorem interleaved_sends_overtake :
  safe raced /\ sequence_of early < sequence_of late /\
  let '((m, e), first) := LdflPacketMux.next LdflPacketMux.default raced in
  first = Ok (Some (packet_from_frame late)) /\
  snd (LdflPacketMux.next m e) = Ok (Some (packet_from_frame early)).
Proof.
  split; [exact tcp_link_is_wf|]. split; [reflexivity|]. vm_compute. split; reflexivity.
Qed.

(** The worker with both frames queued, a socket that takes 30 bytes at a time
    and delivers a frame in two pieces. *)
Definition worker : SharedEndpoint.t :=
  SharedEndpoint.mk Side.Second link [[send early; send late]].
Definition address : SocketAddr.t := SocketAddr.mk [x7f; x00; x00; x01] 4000.
Definition start : pump SharedEndpoint.t :=
  start_pump worker (TcpTransportStatus.initial address address).
Definition turns : list Turn.t := [
  Turn.mk false (SocketWrite.Room 20) (SocketRead.Available (take 30 traffic));
  Turn.mk false SocketWrite.WouldBlock SocketRead.WouldBlock;
  Turn.mk false (SocketWrite.Room 20) (SocketRead.Available (drop 30 traffic));
  Turn.mk false (SocketWrite.Room 20) SocketRead.Interrupted ].

Lemma worker_safe : safe worker.
Proof. exact tcp_link_is_wf. Qed.

Lemma tcp_output_is_a_frame_stream_witness :
  safe worker /\ exists st tr r fs part, pump_tcp_stream turns start = (st, tr, r) /\
    stream (wrote tr) fs part /\ length (wrote tr) = 46%nat /\
    TcpTransportStatus.frames_written (status st) = 1.
Proof.
  split; [exact worker_safe|].
  pose proof (tcp_output_is_a_frame_stream worker address address turns worker_safe) as H.
  fold start in H. destruct (pump_tcp_stream turns start) as [[st tr] r] eqn:Hp.
  destruct H as (_ & fs & part & Hs & _ & _). exists st, tr, r, fs, part.
  split; [reflexivity|]. split; [exact Hs|]. vm_compute in Hp. injection Hp as <- <- <-.
  split; vm_compute; reflexivity.
Defined.

Lemma tcp_input_is_delivered_in_order_witness :
  safe worker /\ exists st tr r, pump_tcp_stream turns start = (st, tr, r) /\ succeeds r /\
    delivered_in tr ++ inbound st = map packet_from_frame [video; ping].
Proof.
  split; [exact worker_safe|].
  pose proof (tcp_input_is_delivered_in_order worker address address turns worker_safe) as H.
  fold start in H. destruct (pump_tcp_stream turns start) as [[st tr] r] eqn:Hp.
  assert (Hr : succeeds r) by (vm_compute in Hp; injection Hp as <- <- <-; eexists; reflexivity).
  destruct H as [_ H]. destruct (H Hr) as (fs & Hs & Hd & _).
  exists st, tr, r. split; [reflexivity|]. split; [exact Hr|]. rewrite Hd. f_equal.
  assert (Ht : stream (read tr) [video; ping] []).
  { assert (Hrd : read tr = encode_all [video; ping] ++ [])
      by (vm_compute in Hp; injection Hp as <- <- <-; vm_compute; reflexivity).
    rewrite Hrd. apply (stream_app [video; ping] [] frames_wf []). by apply (stream_pending [] 24). }
  destruct (stream_deterministic _ _ _ Hs _ _ Ht) as [-> _]. reflexivity.
Defined.
End TcpExamples.
