(* ===== verification/TransportTcpLink.v ===== *)
(** * The handle of a TCP link

    Models the rest of [crates/ladoflow-transport/src/tcp.rs]: how a socket that
    is connected and authenticated becomes a [TcpPacketTransport], and how that
    is stopped. What the operating system answers about the socket is an
    argument; the worker's own steps are [TransportTcp]. *)
From S2P Require Export TransportTcp.
Local Open Scope string_scope.
Local Open Scope list_scope.
Local Open Scope Z_scope.

(** The answers to the calls of the set-up, in their order: an error's text or
    the value asked for. *)
Module SocketSetup.
Record t : Type := mk {
  local_addr : string + SocketAddr.t;
  peer_addr : string + SocketAddr.t;
  set_nodelay : string + unit;
  set_nonblocking : string + unit;
  spawn : string + unit;
}.
End SocketSetup.

Definition os_answer {A} (r : string + A) : outcome string A :=
  match r with
  | inl error => Err error
  | inr a => Ok a
  end.

(** The worker's thread: its variables while the loop runs, or how it ended. *)
Module Worker.
Inductive t : Type :=
| Running (variables : pump LoopbackEndpoint.t)
| Finished
| Panicked.
End Worker.

Module TcpPacketTransport.
(** [endpoint] is the application's end of the link. [worker] is there until it
    is joined; its end is the other side of the same link, so its own copy of
    the link is not looked at. *)
Record t : Type := mk {
  endpoint : LoopbackEndpoint.t;
  cancel : bool;
  worker : option Worker.t;
  status : TcpTransportStatus.t;
}.

Definition from_authenticated_stream (setup : SocketSetup.t) : outcome string t :=
  let! local_addr := map_err (fun error => "failed to read local TCP address: " +:+ error)
    (os_answer (SocketSetup.local_addr setup)) in
  let! peer_addr := map_err (fun error => "failed to read peer TCP address: " +:+ error)
    (os_answer (SocketSetup.peer_addr setup)) in
  let! _ := map_err (fun error => "failed to enable TCP_NODELAY: " +:+ error)
    (os_answer (SocketSetup.set_nodelay setup)) in
  let! _ := map_err (fun error => "failed to make the LDFL TCP stream nonblocking: " +:+ error)
    (os_answer (SocketSetup.set_nonblocking setup)) in
  let! config := map_err (fun e : Empty_set => match e with end) TCP_QUEUE_CONFIG in
  let (endpoint, network_endpoint) := loopback_pair config in
  let status := TcpTransportStatus.initial local_addr peer_addr in
  let! _ := map_err (fun error => "failed to start the LDFL TCP worker: " +:+ error)
    (os_answer (SocketSetup.spawn setup)) in
  Ok (mk endpoint false (Some (Worker.Running (start_pump network_endpoint status))) status).

Definition connection_state (self : t) : ConnectionState.t :=
  LoopbackEndpoint.connection_state (endpoint self).
Definition try_send (self : t) (packet : Packet.t) : t * outcome SendError.t SendReport.t :=
  let (e, r) := LoopbackEndpoint.try_send (endpoint self) packet in
  (mk e (cancel self) (worker self) (status self), r).
Definition try_receive (self : t) (channel : Channel.t)
  : t * outcome ReceiveError.t (option Packet.t) :=
  let (e, r) := LoopbackEndpoint.try_receive (endpoint self) channel in
  (mk e (cancel self) (worker self) (status self), r).

(** The worker sees the link as the application left it. *)
Definition at_link (self : t) (w : pump LoopbackEndpoint.t) : pump LoopbackEndpoint.t :=
  mk_pump (LoopbackEndpoint.set_link (TransportTcp.endpoint w) (LoopbackEndpoint.link (endpoint self)))
    (status self) (decoder w) (mux w) (outgoing w) (inbound w).

(** Iterations of the worker's loop between two calls of the application. When
    the loop ends, so does the thread, by [run_tcp_stream]. *)
Definition work (turns : list Turn.t) (self : t) : t * list PumpEvent.t :=
  match worker self with
  | Some (Worker.Running w) =>
    let w := at_link self w in
    let at_end (e : LoopbackEndpoint.t) := LoopbackEndpoint.set_link (endpoint self) (LoopbackEndpoint.link e) in
    let '(network_endpoint, ended_status, _) := run_tcp_stream turns (cancel self) w in
    let '(w, events, result) := pump_tcp_stream turns w in
    match result with
    | Ok Continue =>
      (mk (at_end (TransportTcp.endpoint w)) (cancel self) (Some (Worker.Running w))
         (TransportTcp.status w), events)
    | Fault _ =>
      (mk (at_end network_endpoint) (cancel self) (Some Worker.Panicked) ended_status, events)
    | _ => (mk (at_end network_endpoint) (cancel self) (Some Worker.Finished) ended_status, events)
    end
  | _ => (self, [])
  end.

(** What the worker meets once the flag is set. *)
Definition flagged : Turn.t := Turn.mk true SocketWrite.WouldBlock SocketRead.WouldBlock.

(** [shutdown]: [turns] are the iterations the worker makes before it sees the
    flag; [join] waits for its end. *)
Definition shutdown (turns : list Turn.t) (self : t) : t * outcome string TcpTransportStatus.t :=
  let self := mk (endpoint self) true (worker self) (status self) in
  let (self, _) := work (turns ++ [flagged]) self in
  let joined := worker self in
  let self := mk (endpoint self) true None (status self) in
  match joined with
  | Some Worker.Panicked => (self, Err "LDFL TCP worker panicked while stopping")
  | _ => (self, Ok (status self))
  end.
End TcpPacketTransport.

#[export] Instance tcp_transport : PacketTransport TcpPacketTransport.t := {
  connection_state := TcpPacketTransport.connection_state;
  try_send := TcpPacketTransport.try_send;
  try_receive := TcpPacketTransport.try_receive;
}.

(** ** A link and its end *)

(** What the application does with the link, and the worker between. *)
Module Step.
Inductive t : Type :=
| Send (packet : Packet.t)
| Receive (channel : Channel.t)
| Work (turns : list Turn.t).
End Step.

Definition step (s : Step.t) (self : TcpPacketTransport.t) : TcpPacketTransport.t :=
  match s with
  | Step.Send packet => fst (TcpPacketTransport.try_send self packet)
  | Step.Receive channel => fst (TcpPacketTransport.try_receive self channel)
  | Step.Work turns => fst (TcpPacketTransport.work turns self)
  end.
Definition steps (l : list Step.t) (self : TcpPacketTransport.t) : TcpPacketTransport.t :=
  fold_left (fun self s => step s self) l self.

(** The link is down, empty, and the status says so. *)
Record closed (self : TcpPacketTransport.t) : Prop := {
  closed_link : Link.connected (LoopbackEndpoint.link (TcpPacketTransport.endpoint self)) = false;
  closed_lanes s c : lane_packets (LoopbackEndpoint.link (TcpPacketTransport.endpoint self)) s c = [];
  closed_status : TcpTransportStatus.state (TcpPacketTransport.status self) = ConnectionState.Disconnected;
}.

(** A running worker's accounts are right for what it has read and written; a
    finished one has closed the link. *)
Definition kept (self : TcpPacketTransport.t) : Prop :=
  match TcpPacketTransport.worker self with
  | Some (Worker.Running w) =>
    link_wf (LoopbackEndpoint.link (TcpPacketTransport.endpoint self)) /\
    exists tr, outbound_ok tr (TcpPacketTransport.at_link self w) /\
               inbound_ok tr (TcpPacketTransport.at_link self w)
  | Some Worker.Finished => closed self
  | _ => False
  end.

Lemma disconnect_closes (e : LoopbackEndpoint.t) :
  let l := LoopbackEndpoint.link (fst (LoopbackEndpoint.disconnect e)) in
  Link.connected l = false /\ forall s c, lane_packets l s c = [].
Proof. split; [done|]. by intros [] []. Qed.

Lemma run_closes turns cancelled w w' events result :
  pump_tcp_stream turns w = (w', events, result) -> returns result ->
  let '(e, status, _) := run_tcp_stream turns cancelled w in
  Link.connected (LoopbackEndpoint.link e) = false /\
  (forall s c, lane_packets (LoopbackEndpoint.link e) s c = []) /\
  TcpTransportStatus.state status = ConnectionState.Disconnected.
Proof.
  intros Hp Hr. unfold run_tcp_stream. rewrite Hp.
  pose proof (disconnect_closes (TransportTcp.endpoint w')) as [Hc Hl].
  destruct (LoopbackEndpoint.disconnect _) as [e ?]. destruct result; [| |done]; by destruct cancelled.
Qed.

Lemma work_keeps turns self : kept self -> kept (fst (TcpPacketTransport.work turns self)).
Proof.
  unfold kept at 1, TcpPacketTransport.work.
  destruct (TcpPacketTransport.worker self) as [[w| |]|] eqn:Hw; [|by cbn [fst]; unfold kept; rewrite Hw|done..].
  intros (Hwf & tr & Hout & Hin).
  pose proof (pump_ok turns tr (TcpPacketTransport.at_link self w) Hwf Hout Hin) as Hok.
  destruct (pump_tcp_stream turns _) as [[w' events] result] eqn:Hp.
  destruct Hok as (Hr & Hout' & _ & Hrest).
  pose proof (run_closes turns (TcpPacketTransport.cancel self) _ _ _ _ Hp Hr) as Hclosed.
  destruct (run_tcp_stream _ _ _) as [[e st] ?]. destruct Hclosed as (Hc & Hl & Hs).
  destruct result as [[|]|error|f]; [|by split..|done].
  destruct Hrest as [Hin' Hsafe]. split; [done|]. exists (tr ++ events). split.
  - rewrite <- (app_nil_r (tr ++ events)). by eapply outbound_frame.
  - rewrite <- (app_nil_r (tr ++ events)). by eapply inbound_frame.
Qed.

Lemma call_keeps self e :
  kept self -> (Link.connected (LoopbackEndpoint.link (TcpPacketTransport.endpoint self)) = false ->
    e = TcpPacketTransport.endpoint self) ->
  (link_wf (LoopbackEndpoint.link (TcpPacketTransport.endpoint self)) -> link_wf (LoopbackEndpoint.link e)) ->
  kept (TcpPacketTransport.mk e (TcpPacketTransport.cancel self) (TcpPacketTransport.worker self)
          (TcpPacketTransport.status self)).
Proof.
  intros Hk Hd Hwf. unfold kept in *. cbn.
  destruct (TcpPacketTransport.worker self) as [[w| |]|] eqn:Hw; [|..|done|done].
  - destruct Hk as (Hl & tr & Hout & Hin). split; [by apply Hwf|]. exists tr.
    rewrite <- (app_nil_r tr). split; [by eapply outbound_frame|by eapply inbound_frame].
  - destruct Hk as [Hc Hl Hs]. by rewrite (Hd Hc).
Qed.

Lemma step_keeps s self : kept self -> kept (step s self).
Proof.
  intros Hk. destruct s as [packet|channel|turns]; [| |by apply work_keeps]; cbn [step].
  - unfold TcpPacketTransport.try_send.
    pose proof (safe_send (TcpPacketTransport.endpoint self) packet) as Hs. cbn in Hs.
    assert (Hd : Link.connected (LoopbackEndpoint.link (TcpPacketTransport.endpoint self)) = false ->
      fst (LoopbackEndpoint.try_send (TcpPacketTransport.endpoint self) packet) =
        TcpPacketTransport.endpoint self) by (intros E; unfold LoopbackEndpoint.try_send; by rewrite E).
    destruct (LoopbackEndpoint.try_send _ _) as [e r]. apply call_keeps; [done|exact Hd|exact (fun Hl => proj1 (Hs Hl))].
  - unfold TcpPacketTransport.try_receive.
    pose proof (safe_receive (TcpPacketTransport.endpoint self) channel) as Hs. cbn in Hs.
    assert (Hd : Link.connected (LoopbackEndpoint.link (TcpPacketTransport.endpoint self)) = false ->
      fst (LoopbackEndpoint.try_receive (TcpPacketTransport.endpoint self) channel) =
        TcpPacketTransport.endpoint self) by (intros E; unfold LoopbackEndpoint.try_receive; by rewrite E).
    destruct (LoopbackEndpoint.try_receive _ _) as [e r]. apply call_keeps; [done|exact Hd|exact (fun Hl => proj1 (Hs Hl))].
Qed.

Lemma steps_keep l self : kept self -> kept (steps l self).
Proof.
  revert self. induction l as [|s l IH]; intros self Hk; [done|]. by apply IH, step_keeps.
Qed.

(** The loop ends at the latest when it meets the flag. *)
Lemma flagged_ends turns (w : pump LoopbackEndpoint.t) :
  snd (pump_tcp_stream (turns ++ [TcpPacketTransport.flagged]) w) <> Ok Continue.
Proof.
  revert w. induction turns as [|turn turns IH]; intros w; [done|]. cbn.
  destruct (pump_turn turn w) as [[w1 e1] [[|]|?|?]]; [|done..]. specialize (IH w1).
  by destruct (pump_tcp_stream _ w1) as [[w2 e2] r].
Qed.

Lemma shutdown_closes turns self : kept self ->
  let (ended, result) := TcpPacketTransport.shutdown turns self in
  closed ended /\ TcpPacketTransport.worker ended = None /\
  result = Ok (TcpPacketTransport.status ended).
Proof.
  intros Hk. unfold TcpPacketTransport.shutdown.
  set (self1 := TcpPacketTransport.mk _ _ _ _).
  assert (Hk1 : kept self1).
  { unfold kept in *. cbn. destruct (TcpPacketTransport.worker self) as [[]|]; [done| |done..].
    by destruct Hk. }
  pose proof (work_keeps (turns ++ [TcpPacketTransport.flagged]) self1 Hk1) as Hw.
  assert (Hend : forall w, TcpPacketTransport.worker (fst (TcpPacketTransport.work
    (turns ++ [TcpPacketTransport.flagged]) self1)) <> Some (Worker.Running w)).
  { intros w. unfold TcpPacketTransport.work.
    destruct (TcpPacketTransport.worker self1) as [[v| |]|] eqn:E; [|by cbn [fst]; rewrite E..]. cbv zeta.
    pose proof (flagged_ends turns (TcpPacketTransport.at_link self1 v)) as Hf.
    destruct (run_tcp_stream _ _ _) as [[??]?].
    destruct (pump_tcp_stream _ _) as [[? ?] [[|]|?|?]]; done. }
  destruct (TcpPacketTransport.work _ self1) as [ended ev]. cbn [fst] in *.
  unfold kept in Hw. destruct (TcpPacketTransport.worker ended) as [[w| |]|]; [by destruct (Hend w)|..|done|done].
  destruct Hw as [Hc Hl Hs]. by split_and!.
Qed.

Lemma from_authenticated_stream_inv setup self :
  TcpPacketTransport.from_authenticated_stream setup = Ok self ->
  exists local peer config, TCP_QUEUE_CONFIG = Ok config /\
    SocketSetup.local_addr setup = inr local /\ SocketSetup.peer_addr setup = inr peer /\
    self = TcpPacketTransport.mk (fst (loopback_pair config)) false
      (Some (Worker.Running (start_pump (snd (loopback_pair config))
        (TcpTransportStatus.initial local peer)))) (TcpTransportStatus.initial local peer).
Proof.
  unfold TcpPacketTransport.from_authenticated_stream, os_answer.
  destruct (SocketSetup.local_addr setup) as [|local]; [done|].
  destruct (SocketSetup.peer_addr setup) as [|peer]; [done|].
  destruct (SocketSetup.set_nodelay setup); [done|]. destruct (SocketSetup.set_nonblocking setup); [done|].
  destruct (SocketSetup.spawn setup); cbn [map_err obind];
    intros (config & Hc%map_err_ok_inv & E)%obind_ok_inv; [done|]. injection E as <-.
  by exists local, peer, config.
Qed.

Lemma from_authenticated_stream_kept setup self :
  TcpPacketTransport.from_authenticated_stream setup = Ok self -> kept self.
Proof.
  intros (local & peer & config & Hc & _ & _ & ->)%from_authenticated_stream_inv.
  assert (Hwf : link_wf (Link.new config)).
  { injection Hc as <-. apply new_link_wf. by split; split; vm_compute. }
  assert (Hsafe : safe (EndpointSafety:=lawful_safety) (snd (loopback_pair config))) by exact Hwf.
  destruct (start_ok (snd (loopback_pair config)) local peer Hsafe) as (_ & Hout & Hin).
  split; [done|]. by exists [].
Qed.

(** ** The link as a session uses it

    The worker runs beside the calls of the application: before each call it
    makes the next iterations of the script, as in [SharedEndpoint]. *)
Module LiveLink.
Record t : Type := mk {
  handle : TcpPacketTransport.t;
  script : list (list Turn.t);
}.

Definition advance (self : t) : t :=
  match script self with
  | [] => self
  | turns :: script => mk (fst (TcpPacketTransport.work turns (handle self))) script
  end.
Definition try_send (self : t) (packet : Packet.t) : t * outcome SendError.t SendReport.t :=
  let self := advance self in
  let (h, r) := TcpPacketTransport.try_send (handle self) packet in (mk h (script self), r).
Definition try_receive (self : t) (channel : Channel.t) : t * outcome ReceiveError.t (option Packet.t) :=
  let self := advance self in
  let (h, r) := TcpPacketTransport.try_receive (handle self) channel in (mk h (script self), r).
Definition connection_state (self : t) : ConnectionState.t :=
  TcpPacketTransport.connection_state (handle self).
End LiveLink.

#[export] Instance live_transport : PacketTransport LiveLink.t := {
  connection_state := LiveLink.connection_state;
  try_send := LiveLink.try_send;
  try_receive := LiveLink.try_receive;
}.

(** The queues are in order, or the link is down. *)
Lemma kept_safe self (Hk : kept self) :
  link_wf (LoopbackEndpoint.link (TcpPacketTransport.endpoint self)) \/
  Link.connected (LoopbackEndpoint.link (TcpPacketTransport.endpoint self)) = false.
Proof.
  unfold kept in Hk. destruct (TcpPacketTransport.worker self) as [[]|]; [|right|done|done].
  - left. apply Hk.
  - apply Hk.
Qed.

Lemma kept_send self p : kept self ->
  returns (snd (TcpPacketTransport.try_send self p)) /\
  forall self' q d l, TcpPacketTransport.try_send self p = (self', Err (SendError.Full q d l)) -> q = p.
Proof.
  intros Hk. unfold TcpPacketTransport.try_send. destruct (kept_safe self Hk) as [Hwf|Hd].
  - pose proof (safe_send (TcpPacketTransport.endpoint self) p Hwf) as [_ Hr].
    pose proof (safe_full (TcpPacketTransport.endpoint self) p) as Hf. cbn in Hr, Hf.
    destruct (LoopbackEndpoint.try_send _ p) as [e r]. split; [done|]. cbn.
    intros self' q d l [= <- ->]. by eapply Hf.
  - unfold LoopbackEndpoint.try_send. by rewrite Hd.
Qed.

Lemma kept_receive self c : kept self -> returns (snd (TcpPacketTransport.try_receive self c)).
Proof.
  intros Hk. unfold TcpPacketTransport.try_receive. destruct (kept_safe self Hk) as [Hwf|Hd].
  - pose proof (safe_receive (TcpPacketTransport.endpoint self) c Hwf) as [_ Hr]. cbn in Hr.
    by destruct (LoopbackEndpoint.try_receive _ c).
  - unfold LoopbackEndpoint.try_receive. by rewrite Hd.
Qed.

Lemma advance_kept l : kept (LiveLink.handle l) -> kept (LiveLink.handle (LiveLink.advance l)).
Proof. intros Hk. unfold LiveLink.advance. destruct (LiveLink.script l); [done|by apply work_keeps]. Qed.

#[export, refine] Instance live_safety : EndpointSafety LiveLink.t := {
  safe := fun l => kept (LiveLink.handle l);
}.
Proof.
  - intros l p Hk%advance_kept. cbn. unfold LiveLink.try_send. cbv zeta.
    pose proof (step_keeps (Step.Send p) _ Hk) as Hs. pose proof (kept_send _ p Hk) as [Hr _].
    cbn [step] in Hs. by destruct (TcpPacketTransport.try_send _ p).
  - intros l c Hk%advance_kept. cbn. unfold LiveLink.try_receive. cbv zeta.
    pose proof (step_keeps (Step.Receive c) _ Hk) as Hs. pose proof (kept_receive _ c Hk) as Hr.
    cbn [step] in Hs. by destruct (TcpPacketTransport.try_receive _ c).
  - intros l p l' q d lim Hk%advance_kept. cbn. unfold LiveLink.try_send. cbv zeta.
    destruct (TcpPacketTransport.try_send _ p) as [h r] eqn:Hs. intros [= <- ->].
    by eapply (proj2 (kept_send _ p Hk)).
Defined.

(** Stopping a TCP link always works, whatever the application and the worker did on it before
    and however many iterations the worker still makes: a link that was started on a socket is, after
    [shutdown], without a worker, disconnected and empty in both directions and lanes, its status says
    so, every later packet is refused and handed back, and the worker has not panicked; a second
    [shutdown], as by [drop], changes nothing. *)
Theorem tcp_link_shuts_down setup self l turns turns' packet channel
  (Hstart : TcpPacketTransport.from_authenticated_stream setup = Ok self) :
  let (ended, result) := TcpPacketTransport.shutdown turns (steps l self) in
  result = Ok (TcpPacketTransport.status ended) /\
  TcpTransportStatus.state (TcpPacketTransport.status ended) = ConnectionState.Disconnected /\
  TcpPacketTransport.worker ended = None /\
  (forall s c, lane_packets (LoopbackEndpoint.link (TcpPacketTransport.endpoint ended)) s c = []) /\
  try_send ended packet = (ended, Err (SendError.Disconnected packet)) /\
  try_receive ended channel = (ended, Err ReceiveError.Disconnected) /\
  TcpPacketTransport.shutdown turns' ended = (ended, result).
Proof.
  pose proof (shutdown_closes turns (steps l self)
    (steps_keep l self (from_authenticated_stream_kept setup self Hstart))) as Hs.
  assert (Hflag : TcpPacketTransport.cancel (fst (TcpPacketTransport.shutdown turns (steps l self))) = true).
  { unfold TcpPacketTransport.shutdown. destruct (TcpPacketTransport.work _ _) as [ended ?].
    by destruct (TcpPacketTransport.worker ended) as [[]|]. }
  destruct (TcpPacketTransport.shutdown turns _) as [[e c w st] result]. cbn in Hflag.
  destruct Hs as ([Hc Hl Hst] & Hw & ->). cbn in Hc, Hl, Hst, Hw |- *. subst c w.
  split_and!; [done..| | |done].
  - unfold TcpPacketTransport.try_send, LoopbackEndpoint.try_send. cbn. by rewrite Hc.
  - unfold TcpPacketTransport.try_receive, LoopbackEndpoint.try_receive. cbn. by rewrite Hc.
Qed.

(** ** Concrete runs *)
Module TcpLinkExamples.
Definition at_host : SocketAddr.t := SocketAddr.mk [x0a; x00; x00; x01] 50000.
Definition at_peer : SocketAddr.t := SocketAddr.mk [x0a; x00; x00; x02] 49231.
Definition setup : SocketSetup.t := SocketSetup.mk (inr at_host) (inr at_peer) (inr tt) (inr tt) (inr tt).
Definition idle : TcpPacketTransport.t :=
  let config := LoopbackConfig.new
    (QueueLimits.mk 64 (4 * 1024 * 1024) (FRAME_HEADER_LEN + MAX_CONTROL_PAYLOAD))
    (QueueLimits.mk 3 (32 * 1024 * 1024) (FRAME_HEADER_LEN + MAX_MEDIA_PAYLOAD)) in
  let status := TcpTransportStatus.initial at_host at_peer in
  TcpPacketTransport.mk (fst (loopback_pair config)) false
    (Some (Worker.Running (start_pump (snd (loopback_pair config)) status))) status.

(** One frame is queued, half of it goes out, and the link is stopped. *)
Definition busy : list Step.t :=
  [Step.Send (packet_from_frame TcpExamples.early);
   Step.Work [Turn.mk false (SocketWrite.Room 10) SocketRead.WouldBlock]].
Example ten_bytes_out :
  TcpTransportStatus.bytes_written (TcpPacketTransport.status (steps busy idle)) = 10.
Proof. vm_compute. reflexivity. Qed.

Lemma tcp_link_shuts_down_witness :
  TcpPacketTransport.from_authenticated_stream setup = Ok idle /\
  let (ended, result) := TcpPacketTransport.shutdown [] (steps busy idle) in
  result = Ok (TcpPacketTransport.status ended) /\
  TcpTransportStatus.state (TcpPacketTransport.status ended) = ConnectionState.Disconnected /\
  TcpPacketTransport.worker ended = None /\
  (forall s c, lane_packets (LoopbackEndpoint.link (TcpPacketTransport.endpoint ended)) s c = []) /\
  try_send ended (packet_from_frame TcpExamples.early) =
    (ended, Err (SendError.Disconnected (packet_from_frame TcpExamples.early))) /\
  try_receive ended Channel.Control = (ended, Err ReceiveError.Disconnected) /\
  TcpPacketTransport.shutdown [] ended = (ended, result).
Proof.
  split; [reflexivity|]. apply (tcp_link_shuts_down setup idle busy). reflexivity.
Defined.
End TcpLinkExamples.
