(* ===== verification/TransportToken.v ===== *)
(** * Pairing tokens

    Models [TetherPairingToken] of [crates/ladoflow-transport/src/pairing.rs]:
    eighty bits shown to the user as sixteen Crockford Base32 symbols in groups
    of four, and read back from what the user typed. Texts are lists of Unicode
    scalar values. *)
From stdpp Require Import pretty.
From S2P Require Export RustTime Bytes.
Local Open Scope string_scope.
Local Open Scope list_scope.
Local Open Scope Z_scope.

Definition TETHER_PAIRING_TOKEN_SYMBOLS : Z := 16.
Definition PAIRING_TOKEN_BYTES : Z := 10.
Definition CROCKFORD_ALPHABET : list byte := str "0123456789ABCDEFGHJKMNPQRSTVWXYZ".

(** [char::to_ascii_uppercase]. *)
Definition to_ascii_uppercase (c : Z) : Z := if (97 <=? c) && (c <=? 122) then c - 32 else c.

(** The first index of an alphabet symbol, as [Iterator::position]. *)
Fixpoint position (c : Z) (l : list byte) : option Z :=
  match l with
  | [] => None
  | candidate :: l =>
    if byte_to_Z candidate =? c then Some 0 else (i ← position c l; Some (i + 1))
  end.

Definition decode_crockford (character : Z) : option Z :=
  let normalized := to_ascii_uppercase character in
  if normalized =? 79 then Some 0
  else if (normalized =? 73) || (normalized =? 76) then Some 1
  else index ← position normalized CROCKFORD_ALPHABET; checked 8 index.

(** The low bits an accumulator keeps. *)
Definition keep_bits (accumulator bits : Z) : Z :=
  Z.land accumulator (if bits =? 0 then 0 else Z.shiftl 1 bits - 1).

Module TetherPairingTokenError.
Inductive t : Type :=
| WrongSymbolCount (actual : Z)
| InvalidSymbol (symbol : Z).
#[global] Instance t_eq_dec : EqDecision t.
Proof. solve_decision. Defined.
(** The message names the symbol in UTF-8. *)
Definition to_string (e : t) : string :=
  match e with
  | WrongSymbolCount actual =>
    "pairing token must contain " +:+ pretty TETHER_PAIRING_TOKEN_SYMBOLS +:+ " symbols, got " +:+
    pretty actual
  | InvalidSymbol symbol =>
    "pairing token contains invalid symbol `" +:+ text (utf8_encode symbol) +:+ "`"
  end.
End TetherPairingTokenError.

Module TetherPairingToken.
Record t : Type := from_bytes { as_bytes : list byte }.

(** The type's array length. *)
Definition wf (self : t) : Prop := zlen (as_bytes self) = PAIRING_TOKEN_BYTES.

(** The variables of [expose_grouped]. *)
Record writer : Type := mk_writer {
  accumulator : Z;
  bits : Z;
  symbols : Z;
  output : list Z;
}.

(** The inner [while bits >= 5]; [fuel] is the number of bits on entry. *)
Fixpoint emit (fuel : nat) (w : writer) : panics_or writer :=
  if bits w >=? 5 then
    match fuel with
    | O => Fault OutOfFuel
    | S fuel =>
      let! bits := chk 8 (bits w - 5) in
      let output :=
        if (symbols w >? 0) && (symbols w mod 4 =? 0) then output w ++ [45] else output w in
      let index := default 0 (checked 8 (Z.land (Z.shiftr (accumulator w) bits) 0x1f)) in
      let! symbol := expect (CROCKFORD_ALPHABET !! Z.to_nat index) in
      let! symbols := chk usize_bits (symbols w + 1) in
      emit fuel (mk_writer (keep_bits (accumulator w) bits) bits symbols
                   (output ++ [byte_to_Z symbol]))
    end
  else Ok w.

Definition write_byte (w : writer) (b : byte) : panics_or writer :=
  let accumulator := Z.lor (wrapping 32 (Z.shiftl (accumulator w) 8)) (byte_to_Z b) in
  let! bits := chk 8 (bits w + 8) in
  emit (Z.to_nat bits) (mk_writer accumulator bits (symbols w) (output w)).

Fixpoint write_bytes (w : writer) (l : list byte) : panics_or writer :=
  match l with
  | [] => Ok w
  | b :: l => let! w := write_byte w b in write_bytes w l
  end.

Definition expose_grouped (self : t) : panics_or (list Z) :=
  let! w := write_bytes (mk_writer 0 0 0 []) (as_bytes self) in
  let! _ := debug_assert (bits w =? 0) in
  let! _ := debug_assert (symbols w =? TETHER_PAIRING_TOKEN_SYMBOLS) in
  Ok (output w).

(** The variables of [from_str]; the array is written by index. *)
Record reader : Type := mk_reader {
  bytes_out : list byte;
  acc_in : Z;
  bits_in : Z;
  output_index : Z;
}.

Definition read_symbol (r : reader) (character : Z)
  : outcome TetherPairingTokenError.t reader :=
  let! value := ok_or (decode_crockford character)
    (TetherPairingTokenError.InvalidSymbol character) in
  let accumulator := Z.lor (wrapping 32 (Z.shiftl (acc_in r) 5)) value in
  let! bits := chk 8 (bits_in r + 5) in
  if bits >=? 8 then
    let! bits := chk 8 (bits - 8) in
    let! byte := expect (checked 8 (Z.land (Z.shiftr accumulator bits) 0xff)) in
    if output_index r <? zlen (bytes_out r) then
      let output := <[Z.to_nat (output_index r) := byte_of_Z byte]> (bytes_out r) in
      let! output_index := chk usize_bits (output_index r + 1) in
      Ok (mk_reader output (keep_bits accumulator bits) bits output_index)
    else Fault Panicked
  else Ok (mk_reader (bytes_out r) accumulator bits (output_index r)).

Fixpoint read_symbols (r : reader) (l : list Z) : outcome TetherPairingTokenError.t reader :=
  match l with
  | [] => Ok r
  | c :: l => let! r := read_symbol r c in read_symbols r l
  end.

(** The symbols of a typed text: everything but hyphens and spaces. *)
Definition symbols_of (value : list Z) : list Z := filter (fun c => c <> 45 /\ c <> 32) value.

Definition from_str (value : list Z) : outcome TetherPairingTokenError.t t :=
  let symbols := symbols_of value in
  if negb (zlen symbols =? TETHER_PAIRING_TOKEN_SYMBOLS)
  then Err (TetherPairingTokenError.WrongSymbolCount (zlen symbols))
  else
    let! r := read_symbols (mk_reader (repeat x00 (Z.to_nat PAIRING_TOKEN_BYTES)) 0 0 0) symbols in
    let! _ := debug_assert (bits_in r =? 0) in
    let! _ := debug_assert (output_index r =? PAIRING_TOKEN_BYTES) in
    Ok (from_bytes (bytes_out r)).
End TetherPairingToken.

(** ** Digit strings *)

(** The value of big-endian digits. *)
Definition base (b : Z) (l : list Z) : Z := foldl (fun v d => v * b + d) 0 l.

Lemma base_snoc b l d : base b (l ++ [d]) = base b l * b + d.
Proof. unfold base. by rewrite foldl_app. Qed.

Lemma base_range b l : 0 < b -> Forall (fun d => 0 <= d < b) l -> 0 <= base b l < b ^ zlen l.
Proof.
  intros Hb. induction l as [|d l IH] using rev_ind; intros Hl; [done|].
  apply Forall_app in Hl as [Hl Hd%Forall_cons_1]. destruct Hd as [Hd _].
  specialize (IH Hl). rewrite base_snoc, length_app. cbn [length].
  replace (Z.of_nat (length l + 1)) with (zlen l + 1) by lia.
  rewrite Z.pow_add_r by lia. nia.
Qed.

(** Digit strings of one length have different values. *)
Lemma base_inj b l : 0 < b -> Forall (fun d => 0 <= d < b) l -> forall k,
  Forall (fun d => 0 <= d < b) k -> length l = length k -> base b l = base b k -> l = k.
Proof.
  intros Hb. induction l as [|d l IH] using rev_ind; intros Hl k Hk Hlen Heq.
  { by destruct k. }
  destruct k as [|e k' _] using rev_ind; [rewrite length_app in Hlen; simpl in Hlen; lia|].
  rewrite !base_snoc in Heq. rewrite !length_app in Hlen. simpl in Hlen.
  apply Forall_app in Hl as [Hl [Hd _]%Forall_cons_1].
  apply Forall_app in Hk as [Hk [He _]%Forall_cons_1].
  assert (Hde : d = e).
  { apply (f_equal (fun x => x mod b)) in Heq.
    rewrite !(Z.add_comm (_ * b)), !Z.mod_add, !Z.mod_small in Heq by lia. done. }
  subst e. assert (base b l = base b k') by nia.
  f_equal. apply IH; (done || lia).
Qed.

Lemma byte_digits l : Forall (fun d => 0 <= d < 256) (map byte_to_Z l).
Proof. induction l; cbn [map]; constructor; [apply byte_to_Z_range|done]. Qed.

(** ** The accumulators *)
Lemma lor_shift a b k : 0 <= k -> 0 <= b < 2 ^ k -> Z.lor (Z.shiftl a k) b = a * 2 ^ k + b.
Proof.
  intros Hk Hb.
  assert (Hz : Z.land (Z.shiftl a k) b = 0).
  { rewrite <-(Z.mod_small b (2 ^ k)), <-Z.land_ones by lia. apply Z.bits_inj_0. intros n.
    rewrite !Z.land_spec. destruct (Z.ltb_spec n k).
    - destruct (Z.ltb_spec n 0); [by rewrite !Z.testbit_neg_r|]. by rewrite Z.shiftl_spec_low.
    - by rewrite Z.ones_spec_high, !andb_false_r by lia. }
  by rewrite <-Z.lxor_lor, <-Z.add_nocarry_lxor, Z.shiftl_mul_pow2 by done.
Qed.

Lemma keep_bits_mod a b : 0 <= b -> keep_bits a b = a mod 2 ^ b.
Proof.
  intros Hb. unfold keep_bits. destruct (Z.eqb_spec b 0) as [->|].
  - by rewrite Z.land_0_r, Z.mod_1_r.
  - by rewrite <-Z.land_ones by done.
Qed.

Lemma low_bits a n : 0 <= n -> Z.land a (2 ^ n - 1) = a mod 2 ^ n.
Proof.
  intros Hn. by rewrite <-Z.land_ones, Z.ones_equiv, Z.sub_1_r by done.
Qed.

(** ** The alphabet *)
Definition symbol (v : Z) : Z := default 0 (byte_to_Z <$> CROCKFORD_ALPHABET !! Z.to_nat v).

(** Every value below 32 has a symbol, which no separator is and which reads
    back as the value. *)
Lemma alphabet_ok :
  forallb (fun n => match CROCKFORD_ALPHABET !! n with
    | Some b => bool_decide (decode_crockford (byte_to_Z b) = Some (Z.of_nat n)) &&
        negb (byte_to_Z b =? 45) && negb (byte_to_Z b =? 32)
    | None => false
    end) (seq 0 32) = true.
Proof. vm_compute. reflexivity. Qed.

Lemma symbol_spec v : 0 <= v < 32 ->
  exists b, CROCKFORD_ALPHABET !! Z.to_nat v = Some b /\ byte_to_Z b = symbol v /\
    decode_crockford (symbol v) = Some v /\ symbol v <> 45 /\ symbol v <> 32.
Proof.
  intros Hv. pose proof (proj1 (forallb_forall _ _) alphabet_ok (Z.to_nat v)) as H.
  specialize (H ltac:(apply in_seq; lia)). cbv beta in H. unfold symbol.
  destruct (CROCKFORD_ALPHABET !! Z.to_nat v) as [b|]; [|done]. exists b. cbn [fmap option_fmap option_map default].
  bool_to_Z. rewrite Z2Nat.id in * by lia. by split_and!.
Qed.

Lemma position_range c l i : position c l = Some i -> 0 <= i < zlen l.
Proof.
  revert i. induction l as [|b l IH]; intros i; cbn [position]; [done|].
  destruct (_ =? _); [intros [= <-]; cbn; lia|]. intros Hp.
  destruct (position c l) as [j|]; cbn in Hp; [|discriminate].
  injection Hp as <-. specialize (IH j eq_refl). cbn [length]. lia.
Qed.

Lemma decode_range c v : decode_crockford c = Some v -> 0 <= v < 32.
Proof.
  unfold decode_crockford. repeat case_match; [intros [= <-]; lia..|].
  destruct (position _ _) as [i|] eqn:Hp; cbn; [|done].
  intros [-> _]%checked_Some. apply position_range in Hp.
  change (zlen CROCKFORD_ALPHABET) with 32 in Hp. lia.
Qed.

(** ** Writing *)

(** Hyphens before every fourth symbol but the first, counting from [k]. *)
Definition hyphen (k : Z) : list Z := if (k >? 0) && (k mod 4 =? 0) then [45] else [].
Fixpoint group_from (k : Z) (l : list Z) : list Z :=
  match l with
  | [] => []
  | c :: l => hyphen k ++ c :: group_from (k + 1) l
  end.

Lemma group_snoc k l c : group_from k (l ++ [c]) = group_from k l ++ hyphen (k + zlen l) ++ [c].
Proof.
  revert k. induction l as [|d l IH]; intros k; cbn [app group_from length].
  - by rewrite Z.add_0_r.
  - rewrite IH, <-(assoc_L (++)). cbn [app]. by replace (k + 1 + zlen l) with (k + Z.of_nat (S (length l))) by lia.
Qed.

Definition value_of (bs : list byte) : Z := base 256 (map byte_to_Z bs).

Lemma value_snoc bs b : value_of (bs ++ [b]) = value_of bs * 256 + byte_to_Z b.
Proof. unfold value_of. rewrite map_app. apply base_snoc. Qed.

(** The writer after the bytes [bs]: the symbols [vs] and the accumulator
    together are the value read so far. *)
Record writing (bs : list byte) (vs : list Z) (w : TetherPairingToken.writer) : Prop := {
  writing_value :
    base 32 vs * 2 ^ TetherPairingToken.bits w + TetherPairingToken.accumulator w = value_of bs;
  writing_bits : 0 <= TetherPairingToken.bits w;
  writing_acc : 0 <= TetherPairingToken.accumulator w < 2 ^ TetherPairingToken.bits w;
  writing_digits : Forall (fun v => 0 <= v < 32) vs;
  writing_count : TetherPairingToken.symbols w = zlen vs;
  writing_total : 5 * zlen vs + TetherPairingToken.bits w = 8 * zlen bs;
  writing_output : TetherPairingToken.output w = group_from 0 (map symbol vs);
}.

Lemma div_digit k acc b : 0 <= k -> 0 <= b -> 0 <= acc < 2 ^ (b + k) ->
  0 <= acc / 2 ^ b < 2 ^ k /\ acc / 2 ^ b * 2 ^ b + acc mod 2 ^ b = acc /\
  0 <= acc mod 2 ^ b < 2 ^ b.
Proof.
  intros Hk Hb Ha. assert (0 < 2 ^ b) by (apply Z.pow_pos_nonneg; lia).
  rewrite Z.pow_add_r in Ha by lia. pose proof (Z.div_mod acc (2 ^ b) ltac:(lia)).
  pose proof (Z.mod_pos_bound acc (2 ^ b) ltac:(lia)).
  split; [|lia]. split; [apply Z.div_pos; lia|apply Z.div_lt_upper_bound; lia].
Qed.

Lemma emit_ok bs fuel : forall vs w,
  writing bs vs w -> TetherPairingToken.bits w <= Z.of_nat fuel -> TetherPairingToken.bits w < 256 ->
  zlen vs + TetherPairingToken.bits w < 2 ^ 32 ->
  exists vs' w', TetherPairingToken.emit fuel w = Ok w' /\ writing bs vs' w' /\
    TetherPairingToken.bits w' < 5.
Proof.
  induction fuel as [|fuel IH]; intros vs w Hw Hf Hb8 Hlen; cbn [TetherPairingToken.emit].
  all: rewrite Z.geb_leb; destruct (Z.leb_spec 5 (TetherPairingToken.bits w)) as [Hge|Hlt];
    [|by exists vs, w].
  { destruct Hw. lia. }
  destruct Hw as [Hv Hb Ha Hd Hc Ht Ho]. destruct w as [acc b n out].
  cbn [TetherPairingToken.accumulator TetherPairingToken.bits TetherPairingToken.symbols
    TetherPairingToken.output] in *.
  rewrite chk_ok by (unfold_int; lia). cbn [obind].
  destruct (div_digit 5 acc (b - 5)) as (Hdig & Hsplit & Hmod); [lia..|by replace (b - 5 + 5) with b by lia|].
  rewrite Z.shiftr_div_pow2 by lia. change 0x1f with (2 ^ 5 - 1).
  rewrite low_bits, Z.mod_small by lia. rewrite (checked_in 8) by (unfold_int; lia). cbn [from_option id].
  destruct (symbol_spec (acc / 2 ^ (b - 5)) Hdig) as (sy & Hsy & Hsym & _). rewrite Hsy.
  cbn [expect obind]. rewrite chk_ok by (unfold_int; lia). cbn [obind].
  rewrite keep_bits_mod by lia.
  apply (IH (vs ++ [acc / 2 ^ (b - 5)])); cbn [TetherPairingToken.bits].
  - split; cbn [TetherPairingToken.accumulator TetherPairingToken.bits TetherPairingToken.symbols
      TetherPairingToken.output].
    + rewrite base_snoc, <-Hv. replace (2 ^ b) with (32 * 2 ^ (b - 5))
        by (change 32 with (2 ^ 5); rewrite <-Z.pow_add_r by lia; f_equal; lia). nia.
    + lia.
    + done.
    + apply Forall_app. split; [done|]. by constructor.
    + rewrite length_app. cbn [length]. lia.
    + rewrite length_app. cbn [length]. lia.
    + rewrite map_app. cbn [map]. rewrite group_snoc, length_map, <-Ho, Z.add_0_l, <-Hc, Hsym.
      unfold hyphen. rewrite (assoc_L (++)). by destruct (_ && _); rewrite ?app_nil_r.
  - lia.
  - lia.
  - rewrite length_app. cbn [length]. lia.
Qed.

Lemma write_bytes_ok l : forall bs vs w,
  writing bs vs w -> TetherPairingToken.bits w < 5 -> zlen (bs ++ l) < 2 ^ 16 ->
  exists vs' w', TetherPairingToken.write_bytes w l = Ok w' /\ writing (bs ++ l) vs' w' /\
    TetherPairingToken.bits w' < 5.
Proof.
  induction l as [|c l IH]; intros bs vs w Hw Hb Hlen.
  { exists vs, w. by rewrite app_nil_r. }
  cbn [TetherPairingToken.write_bytes]. unfold TetherPairingToken.write_byte.
  pose proof Hw as [Hv Hb0 Ha Hd Hc Ht Ho]. destruct w as [acc b n out].
  cbn [TetherPairingToken.accumulator TetherPairingToken.bits TetherPairingToken.symbols
    TetherPairingToken.output] in *.
  rewrite chk_ok by (unfold_int; lia). cbn [obind].
  assert (Hacc : acc < 2 ^ 5)
    by (apply Z.lt_le_trans with (2 ^ b); [lia|apply Z.pow_le_mono_r; lia]).
  pose proof (byte_to_Z_range c).
  rewrite Z.shiftl_mul_pow2, wrapping_small, <-Z.shiftl_mul_pow2, lor_shift by (unfold_int; lia).
  rewrite length_app in Hlen. cbn [length] in Hlen.
  destruct (emit_ok (bs ++ [c]) (Z.to_nat (b + 8)) vs
    (TetherPairingToken.mk_writer (acc * 2 ^ 8 + byte_to_Z c) (b + 8) n out))
    as (vs1 & w1 & Hw1 & Hi1 & Hb1).
  - split; cbn [TetherPairingToken.accumulator TetherPairingToken.bits TetherPairingToken.symbols
      TetherPairingToken.output]; [|lia| |done|done| |done].
    + rewrite value_snoc, <-Hv, Z.pow_add_r by lia. lia.
    + rewrite Z.pow_add_r by lia. lia.
    + rewrite length_app. cbn [length]. lia.
  - cbn [TetherPairingToken.bits]. lia.
  - cbn [TetherPairingToken.bits]. lia.
  - cbn [TetherPairingToken.bits]. lia.
  - rewrite Hw1. cbn [obind]. replace (bs ++ c :: l) with ((bs ++ [c]) ++ l) by by rewrite <-(assoc_L (++)).
    apply (IH _ vs1 w1); [done|done|]. rewrite !length_app. cbn [length]. lia.
Qed.

(** ** Reading *)

(** The reader after symbols of values [vs]: the bytes [outs] written and the
    accumulator together are the value read so far. *)
Record reading (vs : list Z) (outs : list byte) (r : TetherPairingToken.reader) : Prop := {
  reading_value :
    value_of outs * 2 ^ TetherPairingToken.bits_in r + TetherPairingToken.acc_in r = base 32 vs;
  reading_bits : 0 <= TetherPairingToken.bits_in r < 8;
  reading_acc : 0 <= TetherPairingToken.acc_in r < 2 ^ TetherPairingToken.bits_in r;
  reading_total : 8 * zlen outs + TetherPairingToken.bits_in r = 5 * zlen vs;
  reading_index : TetherPairingToken.output_index r = zlen outs;
  reading_room : (length outs <= 10)%nat;
  reading_array : TetherPairingToken.bytes_out r = outs ++ repeat x00 (10 - length outs);
}.

Lemma insert_next (outs : list byte) (b : byte) :
  (length outs < 10)%nat ->
  <[length outs := b]> (outs ++ repeat x00 (10 - length outs)) =
    (outs ++ [b]) ++ repeat x00 (10 - length (outs ++ [b])).
Proof.
  intros Hl. rewrite length_app. cbn [length].
  replace (10 - length outs)%nat with (S (10 - (length outs + 1))) by lia. cbn [repeat].
  rewrite <-(Nat.add_0_r (length outs)) at 1. rewrite insert_app_r. cbn.
  by rewrite <-(assoc_L (++)).
Qed.

Lemma read_symbol_ok vs outs r c v :
  reading vs outs r -> decode_crockford c = Some v -> zlen vs < 16 ->
  exists outs' r', TetherPairingToken.read_symbol r c = Ok r' /\ reading (vs ++ [v]) outs' r'.
Proof.
  intros [Hv Hb Ha Ht Hi Hr Harr] Hc Hlen. pose proof (decode_range c v Hc) as Hvr.
  destruct r as [arr acc b n].
  cbn [TetherPairingToken.bits_in TetherPairingToken.acc_in TetherPairingToken.output_index
    TetherPairingToken.bytes_out] in *. subst n arr.
  unfold TetherPairingToken.read_symbol. rewrite Hc.
  cbn [ok_or obind TetherPairingToken.bits_in TetherPairingToken.acc_in
    TetherPairingToken.output_index TetherPairingToken.bytes_out].
  assert (Hacc : acc < 2 ^ 8)
    by (apply Z.lt_le_trans with (2 ^ b); [lia|apply Z.pow_le_mono_r; lia]).
  rewrite Z.shiftl_mul_pow2, wrapping_small, <-Z.shiftl_mul_pow2, lor_shift by (unfold_int; lia).
  rewrite chk_ok by (unfold_int; lia). cbn [obind].
  assert (Hval : value_of outs * 2 ^ (b + 5) + (acc * 2 ^ 5 + v) = base 32 (vs ++ [v]))
    by (rewrite base_snoc, <-Hv, Z.pow_add_r by lia; change (2 ^ 5) with 32; ring).
  assert (Hacc5 : 0 <= acc * 2 ^ 5 + v < 2 ^ (b + 5))
    by (rewrite Z.pow_add_r by lia; change (2 ^ 5) with 32; lia).
  set (acc' := acc * 2 ^ 5 + v) in *. clearbody acc'.
  assert (Hl1 : zlen (vs ++ [v]) = zlen vs + 1) by (rewrite length_app; cbn [length]; lia).
  rewrite Z.geb_leb. destruct (Z.leb_spec 8 (b + 5)) as [Hge|Hlt].
  2:{ exists outs. eexists. split; [done|].
      split; cbn [TetherPairingToken.bits_in TetherPairingToken.acc_in
        TetherPairingToken.output_index TetherPairingToken.bytes_out]; (done || lia). }
  rewrite chk_ok by (unfold_int; lia). cbn [obind].
  destruct (div_digit 8 acc' (b + 5 - 8)) as (Hbyte & Hsplit & Hmod);
    [lia..|by replace (b + 5 - 8 + 8) with (b + 5) by lia|].
  rewrite Z.shiftr_div_pow2 by lia. change 0xff with (2 ^ 8 - 1).
  rewrite low_bits, Z.mod_small, (checked_in 8) by (unfold_int; lia). cbn [expect obind].
  rewrite length_app, repeat_length.
  destruct (Z.ltb_spec (zlen outs) (Z.of_nat (length outs + (10 - length outs)))); [|lia].
  rewrite chk_ok by (unfold_int; lia). cbn [obind]. rewrite Nat2Z.id, insert_next, keep_bits_mod by lia.
  exists (outs ++ [byte_of_Z (acc' / 2 ^ (b + 5 - 8))]). eexists. split; [done|].
  split; cbn [TetherPairingToken.bits_in TetherPairingToken.acc_in TetherPairingToken.output_index
    TetherPairingToken.bytes_out]; rewrite ?length_app; cbn [length]; try (done || lia).
  rewrite value_snoc, byte_to_of_Z, Z.mod_small, <-Hval by lia.
  replace (2 ^ (b + 5)) with (256 * 2 ^ (b + 5 - 8))
    by (change 256 with (2 ^ 8); rewrite <-Z.pow_add_r by lia; f_equal; lia).
  rewrite Z.mul_add_distr_r, <-Z.add_assoc, Hsplit. ring.
Qed.

Lemma read_symbols_ok l : forall vs us outs r,
  reading vs outs r -> map decode_crockford l = map Some us -> zlen (vs ++ us) <= 16 ->
  exists outs' r', TetherPairingToken.read_symbols r l = Ok r' /\ reading (vs ++ us) outs' r'.
Proof.
  induction l as [|c l IH]; intros vs us outs r Hr Hl Hlen; cbn [TetherPairingToken.read_symbols].
  - destruct us; [|done]. rewrite app_nil_r. by exists outs, r.
  - destruct us as [|v us]; [done|]. injection Hl as Hc Hl. rewrite length_app in Hlen.
    cbn [length] in Hlen. destruct (read_symbol_ok vs outs r c v) as (outs1 & r1 & -> & H1);
      [done..|lia|]. cbn [obind].
    replace (vs ++ v :: us) with ((vs ++ [v]) ++ us) by by rewrite <-(assoc_L (++)).
    apply (IH _ us outs1); [done|done|]. rewrite !length_app. cbn [length]. lia.
Qed.

(** The first symbol that is not one is the reported one. *)
Lemma read_symbols_error l : forall vs outs r,
  reading vs outs r -> zlen vs + zlen l <= 16 ->
  (exists us, map decode_crockford l = map Some us) \/
  exists a c b us, l = a ++ c :: b /\ map decode_crockford a = map Some us /\
    decode_crockford c = None /\
    TetherPairingToken.read_symbols r l = Err (TetherPairingTokenError.InvalidSymbol c).
Proof.
  induction l as [|c l IH]; intros vs outs r Hr Hlen; [left; by exists []|].
  cbn [length] in Hlen. destruct (decode_crockford c) as [v|] eqn:Hc.
  - destruct (read_symbol_ok vs outs r c v) as (outs1 & r1 & Hr1 & H1); [done..|lia|].
    destruct (IH _ _ _ H1) as [[us Hus]|(a & d & b & us & -> & Ha & Hd & He)].
    { rewrite length_app. cbn [length]. lia. }
    + left. exists (v :: us). cbn [map]. by rewrite Hc, Hus.
    + right. exists (c :: a), d, b, (v :: us). cbn [map TetherPairingToken.read_symbols].
      rewrite Hc, Ha, Hr1. by split_and!.
  - right. exists [], c, l, []. cbn [TetherPairingToken.read_symbols].
    unfold TetherPairingToken.read_symbol. by rewrite Hc.
Qed.

Lemma reading_start :
  reading [] [] (TetherPairingToken.mk_reader (repeat x00 (Z.to_nat PAIRING_TOKEN_BYTES)) 0 0 0).
Proof. split; cbn; (done || lia). Qed.

(** Sixteen symbols fill the array and leave no bits. *)
Lemma reading_done vs outs r :
  reading vs outs r -> zlen vs = 16 ->
  TetherPairingToken.bits_in r = 0 /\ TetherPairingToken.output_index r = 10 /\
  TetherPairingToken.bytes_out r = outs /\ zlen outs = 10 /\ value_of outs = base 32 vs.
Proof.
  intros [Hv Hb Ha Ht Hi Hr Harr] Hlen. assert (Hz : TetherPairingToken.bits_in r = 0) by lia.
  assert (Ho : zlen outs = 10) by lia. rewrite Hz in *. split_and!; [done|lia| |done|lia].
  rewrite Harr. replace (10 - length outs)%nat with 0%nat by lia. by rewrite app_nil_r.
Qed.

Lemma from_str_values value vs :
  map decode_crockford (TetherPairingToken.symbols_of value) = map Some vs -> zlen vs = 16 ->
  exists t, TetherPairingToken.from_str value = Ok t /\ TetherPairingToken.wf t /\
    value_of (TetherPairingToken.as_bytes t) = base 32 vs.
Proof.
  intros Hm Hlen. unfold TetherPairingToken.from_str. cbv zeta.
  assert (Hs : zlen (TetherPairingToken.symbols_of value) = 16)
    by (apply (f_equal length) in Hm; rewrite !length_map in Hm; lia).
  rewrite Hs. cbn [negb TETHER_PAIRING_TOKEN_SYMBOLS Z.eqb Pos.eqb].
  destruct (read_symbols_ok _ [] vs [] _ reading_start Hm ltac:(cbn; lia)) as (outs & r & -> & Hr).
  cbn [obind app] in *. destruct (reading_done _ _ _ Hr Hlen) as (-> & -> & -> & Ho & Hv).
  exists (TetherPairingToken.from_bytes outs). by split_and!.
Qed.

Lemma symbols_of_group vs k :
  Forall (fun v => 0 <= v < 32) vs ->
  TetherPairingToken.symbols_of (group_from k (map symbol vs)) = map symbol vs.
Proof.
  intros Hvs. revert k. unfold TetherPairingToken.symbols_of.
  induction Hvs as [|v vs Hv _ IH]; intros k; [done|]. cbn [map group_from].
  rewrite filter_app, filter_cons_True.
  - rewrite IH. unfold hyphen. by destruct (_ && _).
  - destruct (symbol_spec v Hv) as (_ & _ & _ & _ & H1 & H2). done.
Qed.

(** Every eighty-bit token is shown as sixteen symbols in four hyphenated groups, without
    panicking, and the shown text reads back as the same token. *)
Theorem token_text_roundtrip t (Hwf : TetherPairingToken.wf t) :
  exists text, TetherPairingToken.expose_grouped t = Ok text /\ zlen text = 19 /\
    TetherPairingToken.from_str text = Ok t.
Proof.
  destruct t as [bs]. unfold TetherPairingToken.wf, PAIRING_TOKEN_BYTES in Hwf.
  cbn [TetherPairingToken.as_bytes] in Hwf. unfold TetherPairingToken.expose_grouped.
  cbn [TetherPairingToken.as_bytes].
  assert (Hstart : writing [] [] (TetherPairingToken.mk_writer 0 0 0 []))
    by (split; cbn; (done || lia)).
  destruct (write_bytes_ok bs [] [] _ Hstart) as (vs & w & -> & [Hv Hb Ha Hd Hc Ht Ho] & Hb5);
    [cbn; lia|cbn [app]; lia|]. cbn [app obind] in *.
  assert (Hz : TetherPairingToken.bits w = 0) by lia. assert (Hlen : zlen vs = 16) by lia.
  rewrite Hz, Hc, Hlen in *. cbn [Z.eqb debug_assert obind TETHER_PAIRING_TOKEN_SYMBOLS Pos.eqb].
  exists (TetherPairingToken.output w). split; [done|]. rewrite Ho. split.
  { assert (Hn : length vs = 16%nat) by lia. clear -Hn. by explode_list vs. }
  destruct (from_str_values (group_from 0 (map symbol vs)) vs) as (t & -> & Hwft & Hvt); [|done|].
  { rewrite symbols_of_group, map_map by done. clear -Hd.
    induction Hd as [|v vs Hv _ IH]; [done|]. cbn [map].
    destruct (symbol_spec v Hv) as (_ & _ & _ & -> & _). by rewrite IH. }
  f_equal. destruct t as [bs']. f_equal. cbn [TetherPairingToken.as_bytes] in *.
  unfold TetherPairingToken.wf, PAIRING_TOKEN_BYTES in Hwft. cbn [TetherPairingToken.as_bytes] in Hwft.
  assert (Hbase : map byte_to_Z bs' = map byte_to_Z bs).
  { apply (base_inj 256); [lia|apply byte_digits..|rewrite !length_map; lia|].
    change (value_of bs' = value_of bs). rewrite Hvt, <-Hv. lia. }
  clear -Hbase. revert bs Hbase. induction bs' as [|b bs' IH]; intros [|c bs]; cbn [map]; try done.
  intros [= Hbc Hl]. apply byte_to_Z_inj in Hbc as ->. f_equal. by apply IH.
Qed.

(** Reading a typed token decides every text: hyphens and spaces are ignored; the number of
    other symbols must be sixteen; the first symbol outside the alphabet and its aliases (either
    case, O for 0, I and L for 1) is reported; and an accepted text gives exactly the ten bytes
    whose big-endian value is the value of the symbols in base thirty-two. It never panics. *)
Theorem token_parse_is_exact value :
  let symbols := TetherPairingToken.symbols_of value in
  match TetherPairingToken.from_str value with
  | Ok t => TetherPairingToken.wf t /\ exists vs, map decode_crockford symbols = map Some vs /\
      zlen vs = 16 /\ value_of (TetherPairingToken.as_bytes t) = base 32 vs
  | Err (TetherPairingTokenError.WrongSymbolCount n) => n = zlen symbols /\ n <> 16
  | Err (TetherPairingTokenError.InvalidSymbol c) => zlen symbols = 16 /\
      exists a b us, symbols = a ++ c :: b /\ map decode_crockford a = map Some us /\
        decode_crockford c = None
  | Fault _ => False
  end.
Proof.
  cbv zeta. destruct (Z.eqb_spec (zlen (TetherPairingToken.symbols_of value)) 16) as [Hlen|Hlen].
  - destruct (read_symbols_error (TetherPairingToken.symbols_of value) [] [] _ reading_start)
      as [[us Hus]|(a & c & b & us & Hs & Ha & Hc & He)]; [cbn; lia| |].
    + assert (Hul : zlen us = 16)
        by (apply (f_equal length) in Hus; rewrite !length_map in Hus; lia).
      destruct (from_str_values value us Hus Hul) as (t & -> & Hwf & Hv).
      split; [done|]. by exists us.
    + unfold TetherPairingToken.from_str. cbv zeta. rewrite Hlen.
      cbn [negb TETHER_PAIRING_TOKEN_SYMBOLS Z.eqb Pos.eqb]. rewrite He. cbn [obind].
      split; [done|]. by exists a, b, us.
  - unfold TetherPairingToken.from_str, TETHER_PAIRING_TOKEN_SYMBOLS. cbv zeta.
    apply Z.eqb_neq in Hlen as Hb. rewrite Hb. by cbn [negb].
Qed.

Module TokenExamples.
Definition token : TetherPairingToken.t :=
  TetherPairingToken.from_bytes [x12; x34; x56; x78; x9a; xbc; xde; xf0; x0f; xff].

(** The text of the token, and how a user may type it. *)
Example shown : TetherPairingToken.expose_grouped token = Ok (map byte_to_Z (str "28T5-CY4T-QKFF-03ZZ")).
Proof. vm_compute. reflexivity. Qed.
Example typed :
  TetherPairingToken.from_str (map byte_to_Z (str "28t5 cy4t qkff O3zz")) = Ok token.
Proof. vm_compute. reflexivity. Qed.

Lemma token_text_roundtrip_witness :
  exists text, TetherPairingToken.expose_grouped token = Ok text /\ zlen text = 19 /\
    TetherPairingToken.from_str text = Ok token.
Proof. apply (token_text_roundtrip token). reflexivity. Defined.
End TokenExamples.
