(* ===== verification/TransportPairing.v ===== *)
(** * The USB-tether pairing handshake

    Models the record layer and the two roles of the pairing preface of
    [crates/ladoflow-transport/src/pairing.rs] over a small state monad on the
    socket. HMAC-SHA-256 is a parameter: the code only relies on its being a
    function of key and message with 32-byte tags that [verify_slice] compares. *)
From stdpp Require Import pretty relations.
From S2P Require Export TransportToken.
Local Open Scope string_scope.
Local Open Scope list_scope.
Local Open Scope Z_scope.

Definition TETHER_PAIRING_VERSION : Z := 1.
Definition TETHER_PAIRING_RECORD_LEN : Z := 56.
Definition PAIRING_MAGIC : list byte := str "LDFP".
Definition PAIRING_NONCE_LEN : Z := 16.
Definition PAIRING_TAG_LEN : Z := 32.
Definition PAIRING_CONTEXT : list byte := str "LadoFlow USB tether pairing v1" ++ [x00].

Definition zeros (n : Z) : list byte := repeat x00 (Z.to_nat n).

Module TetherPairingError.
Inductive t : Type :=
| ZeroTimeout
| Random (detail : string)
| Io (error : string)
| BadMagic
| UnsupportedVersion (version : Z)
| UnexpectedKind (expected actual : Z)
| NonCanonicalRecord
| AuthenticationFailed.
#[global] Instance t_eq_dec : EqDecision t.
Proof. solve_decision. Defined.

Definition to_string (e : t) : string :=
  match e with
  | ZeroTimeout => "tether pairing timeout must be nonzero"
  | Random detail => "secure pairing randomness failed: " +:+ detail
  | Io error => "tether pairing I/O failed: " +:+ error
  | BadMagic => "peer sent invalid tether pairing magic"
  | UnsupportedVersion version =>
      "peer uses unsupported tether pairing version " +:+ pretty version
  | UnexpectedKind expected actual =>
      "peer sent tether pairing record kind " +:+ pretty actual +:+ ", expected " +:+ pretty expected
  | NonCanonicalRecord => "peer sent a non-canonical tether pairing record"
  | AuthenticationFailed => "tether pairing authentication failed"
  end.
End TetherPairingError.

Module PairingRecordKind.
Inductive t : Type :=
| HostHello
| DisplayHello
| HostFinished
| DisplayFinished.
#[global] Instance t_eq_dec : EqDecision t.
Proof. solve_decision. Defined.

Definition value (k : t) : Z :=
  match k with
  | HostHello => 1
  | DisplayHello => 2
  | HostFinished => 3
  | DisplayFinished => 4
  end.
End PairingRecordKind.

Module PairingRecord.
Record t : Type := mk {
  kind : Z;
  nonce : list byte;
  tag : list byte;
}.
#[global] Instance t_eq_dec : EqDecision t.
Proof. solve_decision. Defined.

(** The field types: a byte and two arrays. *)
Record wf (r : t) : Prop := {
  wf_kind : in_u 8 (kind r);
  wf_nonce : zlen (nonce r) = PAIRING_NONCE_LEN;
  wf_tag : zlen (tag r) = PAIRING_TAG_LEN;
}.
End PairingRecord.

Definition encode_record (record : PairingRecord.t) : list byte :=
  PAIRING_MAGIC ++ be_bytes 2 TETHER_PAIRING_VERSION ++ [byte_of_Z (PairingRecord.kind record)] ++
  [x00] ++ PairingRecord.nonce record ++ PairingRecord.tag record.

Definition decode_record (bytes : list byte) : outcome TetherPairingError.t PairingRecord.t :=
  let! magic := slice bytes 0 4 in
  if bool_decide (magic <> PAIRING_MAGIC) then Err TetherPairingError.BadMagic else
  let! version := read_u16 bytes 4 in
  if negb (version =? TETHER_PAIRING_VERSION)
  then Err (TetherPairingError.UnsupportedVersion version) else
  let! reserved := index bytes 7 in
  if bool_decide (reserved <> x00) then Err TetherPairingError.NonCanonicalRecord else
  let! nonce := slice bytes 8 24 in
  let! tag := slice_from bytes 24 in
  let! kind := index bytes 6 in
  Ok (PairingRecord.mk (byte_to_Z kind) nonce tag).

(** ** The socket *)

(** [incoming] is what the peer sends; [answers] the results of the next system
    calls, [None] for success (a call beyond the list succeeds); [starved] the
    error of a read that the peer's bytes do not fill. *)
Module Stream.
Record t : Type := mk {
  incoming : list byte;
  answers : list (option string);
  starved : string;
  sent : list byte;
  read_timeout : option Z;
  write_timeout : option Z;
}.
Definition set_incoming (s : t) (l : list byte) : t :=
  mk l (answers s) (starved s) (sent s) (read_timeout s) (write_timeout s).
Definition set_answers (s : t) (l : list (option string)) : t :=
  mk (incoming s) l (starved s) (sent s) (read_timeout s) (write_timeout s).
Definition push_sent (s : t) (l : list byte) : t :=
  mk (incoming s) (answers s) (starved s) (sent s ++ l) (read_timeout s) (write_timeout s).
Definition with_read_timeout (s : t) (d : option Z) : t :=
  mk (incoming s) (answers s) (starved s) (sent s) d (write_timeout s).
Definition with_write_timeout (s : t) (d : option Z) : t :=
  mk (incoming s) (answers s) (starved s) (sent s) (read_timeout s) d.
End Stream.

(** ** A monad of socket programs *)
Definition pairing (A : Type) : Type := Stream.t -> Stream.t * outcome TetherPairingError.t A.

Definition pret {A} (m : outcome TetherPairingError.t A) : pairing A := fun s => (s, m).

Definition pbind {A B} (m : pairing A) (k : A -> pairing B) : pairing B := fun s =>
  let (s, r) := m s in
  match r with
  | Ok a => k a s
  | Err e => (s, Err e)
  | Fault f => (s, Fault f)
  end.

Declare Scope pairing_scope.
Delimit Scope pairing_scope with pairing.
Notation "'let*' x ':=' m 'in' k" := (pbind m (fun x => k))
  (at level 10, x pattern, m at level 100, k at level 200,
   format "'[v' 'let*'  x  ':='  m  'in' '/' k ']'") : pairing_scope.
#[local] Open Scope pairing_scope.

(** A system call that changes the stream by [f] when it succeeds. *)
Definition syscall (f : Stream.t -> Stream.t) : pairing unit := fun s =>
  match Stream.answers s with
  | Some error :: rest => (Stream.set_answers s rest, Err (TetherPairingError.Io error))
  | None :: rest => (f (Stream.set_answers s rest), Ok tt)
  | [] => (f s, Ok tt)
  end.

Definition set_read_timeout (d : option Z) : pairing unit :=
  syscall (fun s => Stream.with_read_timeout s d).
Definition set_write_timeout (d : option Z) : pairing unit :=
  syscall (fun s => Stream.with_write_timeout s d).
Definition write_all (bytes : list byte) : pairing unit := syscall (fun s => Stream.push_sent s bytes).
Definition read_exact (n : Z) : pairing (list byte) :=
  let* _ := syscall id in
  fun s =>
    if zlen (Stream.incoming s) <? n
    then (Stream.set_incoming s [], Err (TetherPairingError.Io (Stream.starved s)))
    else (Stream.set_incoming s (drop (Z.to_nat n) (Stream.incoming s)),
          Ok (take (Z.to_nat n) (Stream.incoming s))).

Definition write_record (record : PairingRecord.t) : pairing unit := write_all (encode_record record).
Definition read_record : pairing PairingRecord.t :=
  let* bytes := read_exact TETHER_PAIRING_RECORD_LEN in pret (decode_record bytes).

Definition configure_pairing_timeouts (timeout : Z) : pairing unit :=
  if timeout =? 0 then pret (Err TetherPairingError.ZeroTimeout)
  else let* _ := set_read_timeout (Some timeout) in set_write_timeout (Some timeout).

Definition clear_pairing_timeouts : pairing unit :=
  let* _ := set_read_timeout None in set_write_timeout None.

Definition validate_record_kind (record : PairingRecord.t) (expected : PairingRecordKind.t)
  : outcome TetherPairingError.t unit :=
  if PairingRecord.kind record =? PairingRecordKind.value expected then Ok tt
  else Err (TetherPairingError.UnexpectedKind (PairingRecordKind.value expected)
              (PairingRecord.kind record)).

(** [generate_nonce] over the draws of the random source. *)
Fixpoint generate_nonce (draws : list (string + list byte))
  : outcome TetherPairingError.t (list byte) :=
  match draws with
  | [] => Fault OutOfFuel
  | inl error :: _ => Err (TetherPairingError.Random error)
  | inr nonce :: draws =>
    if bool_decide (nonce <> zeros PAIRING_NONCE_LEN) then Ok nonce else generate_nonce draws
  end.

(** The bytes under the tag of one step. *)
Definition pairing_message (kind : PairingRecordKind.t) (host_nonce display_nonce : list byte)
  : list byte :=
  PAIRING_CONTEXT ++ be_bytes 2 TETHER_PAIRING_VERSION ++
  [byte_of_Z (PairingRecordKind.value kind)] ++ host_nonce ++ display_nonce.

Section Handshake.
(** [hmac key message]: HMAC-SHA-256, which takes keys of every length. *)
Variable hmac : list byte -> list byte -> list byte.

Definition pairing_tag (token : TetherPairingToken.t) (kind : PairingRecordKind.t)
  (host_nonce display_nonce : list byte) : outcome TetherPairingError.t (list byte) :=
  Ok (hmac (TetherPairingToken.as_bytes token) (pairing_message kind host_nonce display_nonce)).

Definition verify_pairing_tag (token : TetherPairingToken.t) (kind : PairingRecordKind.t)
  (host_nonce display_nonce tag : list byte) : outcome TetherPairingError.t unit :=
  if bool_decide (hmac (TetherPairingToken.as_bytes token)
                    (pairing_message kind host_nonce display_nonce) = tag)
  then Ok tt else Err TetherPairingError.AuthenticationFailed.

Definition finished_record (token : TetherPairingToken.t) (kind : PairingRecordKind.t)
  (host_nonce display_nonce : list byte) : outcome TetherPairingError.t PairingRecord.t :=
  let! tag := pairing_tag token kind host_nonce display_nonce in
  Ok (PairingRecord.mk (PairingRecordKind.value kind) (zeros PAIRING_NONCE_LEN) tag).

Definition validate_finished_record (token : TetherPairingToken.t) (record : PairingRecord.t)
  (expected : PairingRecordKind.t) (host_nonce display_nonce : list byte)
  : outcome TetherPairingError.t unit :=
  let! _ := validate_record_kind record expected in
  if bool_decide (PairingRecord.nonce record <> zeros PAIRING_NONCE_LEN)
  then Err TetherPairingError.NonCanonicalRecord
  else verify_pairing_tag token expected host_nonce display_nonce (PairingRecord.tag record).

Definition authenticate_tether_host_stream_with_nonce (token : TetherPairingToken.t) (timeout : Z)
  (host_nonce : list byte) : pairing unit :=
  let* _ := configure_pairing_timeouts timeout in
  let* _ := write_record (PairingRecord.mk (PairingRecordKind.value PairingRecordKind.HostHello)
              host_nonce (zeros PAIRING_TAG_LEN)) in
  let* display_hello := read_record in
  let* _ := pret (validate_record_kind display_hello PairingRecordKind.DisplayHello) in
  if bool_decide (PairingRecord.nonce display_hello = zeros PAIRING_NONCE_LEN)
  then pret (Err TetherPairingError.NonCanonicalRecord) else
  let* _ := pret (verify_pairing_tag token PairingRecordKind.DisplayHello host_nonce
              (PairingRecord.nonce display_hello) (PairingRecord.tag display_hello)) in
  let* finished := pret (finished_record token PairingRecordKind.HostFinished host_nonce
                     (PairingRecord.nonce display_hello)) in
  let* _ := write_record finished in
  let* display_finished := read_record in
  let* _ := pret (validate_finished_record token display_finished
              PairingRecordKind.DisplayFinished host_nonce (PairingRecord.nonce display_hello)) in
  clear_pairing_timeouts.

Definition authenticate_tether_display_stream_with_nonce (token : TetherPairingToken.t)
  (timeout : Z) (display_nonce : list byte) : pairing unit :=
  let* _ := configure_pairing_timeouts timeout in
  let* host_hello := read_record in
  let* _ := pret (validate_record_kind host_hello PairingRecordKind.HostHello) in
  if bool_decide (PairingRecord.nonce host_hello = zeros PAIRING_NONCE_LEN) ||
     bool_decide (PairingRecord.tag host_hello <> zeros PAIRING_TAG_LEN)
  then pret (Err TetherPairingError.NonCanonicalRecord) else
  let* tag := pret (pairing_tag token PairingRecordKind.DisplayHello
                (PairingRecord.nonce host_hello) display_nonce) in
  let* _ := write_record (PairingRecord.mk (PairingRecordKind.value PairingRecordKind.DisplayHello)
              display_nonce tag) in
  let* host_finished := read_record in
  let* _ := pret (validate_finished_record token host_finished PairingRecordKind.HostFinished
              (PairingRecord.nonce host_hello) display_nonce) in
  let* finished := pret (finished_record token PairingRecordKind.DisplayFinished
                     (PairingRecord.nonce host_hello) display_nonce) in
  let* _ := write_record finished in
  clear_pairing_timeouts.

Definition authenticate_tether_host_stream (draws : list (string + list byte))
  (token : TetherPairingToken.t) (timeout : Z) : pairing unit :=
  let* host_nonce := pret (generate_nonce draws) in
  authenticate_tether_host_stream_with_nonce token timeout host_nonce.

Definition authenticate_tether_display_stream (draws : list (string + list byte))
  (token : TetherPairingToken.t) (timeout : Z) : pairing unit :=
  let* display_nonce := pret (generate_nonce draws) in
  authenticate_tether_display_stream_with_nonce token timeout display_nonce.
End Handshake.

(** ** The record layer *)
Lemma length_zeros n : 0 <= n -> zlen (zeros n) = n.
Proof. intros Hn. unfold zeros. rewrite repeat_length. lia. Qed.

Lemma encode_record_length r : PairingRecord.wf r -> length (encode_record r) = 56%nat.
Proof.
  intros [_ Hn Ht]. unfold encode_record. rewrite !length_app, length_be_bytes. cbn [length].
  unfold PAIRING_NONCE_LEN, PAIRING_TAG_LEN in *. change (length PAIRING_MAGIC) with 4%nat. lia.
Qed.

(** The fixed part of a record and its two arrays, as the decoder reads them. *)
Lemma decode_record_layout a b c d v1 v2 k z nonce tag :
  length nonce = 16%nat -> length tag = 32%nat ->
  decode_record ([a; b; c; d; v1; v2; k; z] ++ nonce ++ tag) =
    if bool_decide ([a; b; c; d] <> PAIRING_MAGIC) then Err TetherPairingError.BadMagic else
    if negb (be_value [v1; v2] =? TETHER_PAIRING_VERSION)
    then Err (TetherPairingError.UnsupportedVersion (be_value [v1; v2])) else
    if bool_decide (z <> x00) then Err TetherPairingError.NonCanonicalRecord
    else Ok (PairingRecord.mk (byte_to_Z k) nonce tag).
Proof.
  intros Hn Ht. unfold decode_record.
  assert (Hlen : length ([a; b; c; d; v1; v2; k; z] ++ nonce ++ tag) = 56%nat)
    by (rewrite !length_app, Hn, Ht; done).
  rewrite slice_ok by (rewrite Hlen; lia). cbn [app drop take Nat.sub obind].
  case_bool_decide; [done|].
  assert (Hv : read_u16 (E:=TetherPairingError.t) (a :: b :: c :: d :: v1 :: v2 :: k :: z :: nonce ++ tag) 4
    = Ok (be_value [v1; v2])) by reflexivity.
  rewrite Hv. cbn [obind]. destruct (negb _); [done|].
  assert (Hz : index (E:=TetherPairingError.t) (a :: b :: c :: d :: v1 :: v2 :: k :: z :: nonce ++ tag) 7
    = Ok z) by reflexivity.
  rewrite Hz. cbn [obind]. case_bool_decide; [done|].
  cbn [app] in Hlen. unfold slice_from. rewrite Hlen, !slice_ok by (rewrite Hlen; lia).
  cbn [obind drop Nat.sub].
  rewrite drop_0. rewrite take_length_app by done. rewrite drop_length_app by done.
  rewrite firstn_all2 by lia. reflexivity.
Qed.

Lemma decode_encode_record r : PairingRecord.wf r -> decode_record (encode_record r) = Ok r.
Proof.
  intros [Hk Hn Ht]. destruct r as [k n t].
  cbn [PairingRecord.kind PairingRecord.nonce PairingRecord.tag] in *.
  unfold PAIRING_NONCE_LEN, PAIRING_TAG_LEN in *. unfold encode_record.
  cbn [PairingRecord.kind PairingRecord.nonce PairingRecord.tag].
  change (PAIRING_MAGIC ++ be_bytes 2 TETHER_PAIRING_VERSION ++ [byte_of_Z k] ++ [x00] ++ n ++ t)
    with ([x4c; x44; x46; x50; x00; x01; byte_of_Z k; x00] ++ n ++ t).
  rewrite decode_record_layout by lia. cbn [negb]. vm_compute bool_decide.
  change (be_value [x00; x01] =? TETHER_PAIRING_VERSION) with true. cbn [negb].
  rewrite byte_to_of_Z, Z.mod_small; [done|]. unfold in_u in Hk. lia.
Qed.

Lemma decode_record_inv bytes r :
  zlen bytes = 56 -> decode_record bytes = Ok r -> PairingRecord.wf r /\ bytes = encode_record r.
Proof.
  intros Hlen. destruct (list_split_at 8 bytes) as (h & rest & -> & Hh); [lia|].
  rewrite length_app in Hlen. destruct (list_split_at 16 rest) as (nonce & tag & -> & Hnonce); [lia|].
  rewrite length_app in Hlen. assert (Htag : length tag = 32%nat) by lia.
  explode_list h. rewrite decode_record_layout by done. case_bool_decide as Hm; [done|].
  destruct (be_value [b3; b4] =? TETHER_PAIRING_VERSION) eqn:Hv; [|done]. cbn [negb].
  case_bool_decide as Hz; [done|]. intros [= <-]. split.
  - split; cbn; unfold PAIRING_NONCE_LEN, PAIRING_TAG_LEN; [|lia..].
    pose proof (byte_to_Z_range b5). unfold in_u. lia.
  - unfold encode_record. cbn [PairingRecord.kind PairingRecord.nonce PairingRecord.tag].
    rewrite byte_of_to_Z, <-Hm, Hz. apply Z.eqb_eq in Hv. by rewrite <-Hv, be_bytes_value_2.
Qed.

Lemma returns_decode_record bytes : zlen bytes = 56 -> returns (decode_record bytes).
Proof.
  intros Hlen. destruct (list_split_at 8 bytes) as (h & rest & -> & Hh); [lia|].
  rewrite length_app in Hlen. destruct (list_split_at 16 rest) as (nonce & tag & -> & Hnonce); [lia|].
  rewrite length_app in Hlen. assert (Htag : length tag = 32%nat) by lia.
  explode_list h. rewrite decode_record_layout by done. by repeat case_match.
Qed.

(** A pairing record is read exactly when it is the encoding of a record: fifty-six bytes
    decode to [r] if and only if they are [r]'s encoding, other bytes give the magic, version or
    canonical-form error, and decoding never panics. *)
Theorem pairing_record_codec_is_exact bytes (Hlen : zlen bytes = TETHER_PAIRING_RECORD_LEN) :
  returns (decode_record bytes) /\
  forall r, decode_record bytes = Ok r <-> PairingRecord.wf r /\ bytes = encode_record r.
Proof.
  split; [by apply returns_decode_record|]. intros r. split; [by apply decode_record_inv|].
  intros [Hwf ->]. by apply decode_encode_record.
Qed.

(** ** Running socket programs *)
Lemma pbind_ok_inv {A B} (m : pairing A) (k : A -> pairing B) s s' b :
  pbind m k s = (s', Ok b) -> exists a s1, m s = (s1, Ok a) /\ k a s1 = (s', Ok b).
Proof. unfold pbind. destruct (m s) as [s1 [a|e|f]]; [|done..]. intros H. by exists a, s1. Qed.

Lemma pbind_ok {A B} (m : pairing A) (k : A -> pairing B) s s1 a :
  m s = (s1, Ok a) -> pbind m k s = k a s1.
Proof. unfold pbind. by intros ->. Qed.

Lemma pret_ok_inv {A} (m : outcome TetherPairingError.t A) s s' a :
  pret m s = (s', Ok a) -> s' = s /\ m = Ok a.
Proof. by intros [= -> ->]. Qed.

(** Reading a record takes it off the front of what the peer sent. *)
Lemma read_record_inv s s' r :
  read_record s = (s', Ok r) -> exists rest,
    Stream.incoming s = encode_record r ++ rest /\ PairingRecord.wf r /\
    s' = Stream.set_incoming (Stream.set_answers s (tail (Stream.answers s))) rest.
Proof.
  unfold read_record. intros (bytes & s1 & Hr & [-> Hd]%pret_ok_inv)%pbind_ok_inv.
  unfold read_exact in Hr. apply pbind_ok_inv in Hr as ([] & s2 & Hs & Hr).
  assert (Hs2 : s2 = Stream.set_answers s (tail (Stream.answers s))).
  { unfold syscall in Hs. destruct (Stream.answers s) as [|[?|] ?] eqn:Ha; [|done|].
    - injection Hs as <-. unfold Stream.set_answers. destruct s; cbn in *. by subst.
    - by injection Hs as <-. }
  subst s2. cbn [Stream.incoming Stream.set_answers] in Hr.
  destruct (Z.ltb_spec (zlen (Stream.incoming s)) TETHER_PAIRING_RECORD_LEN) as [|Hlen]; [done|].
  injection Hr as <- <-. unfold TETHER_PAIRING_RECORD_LEN in Hlen.
  change (Z.to_nat TETHER_PAIRING_RECORD_LEN) with 56%nat in *.
  assert (Htl : zlen (take 56 (Stream.incoming s)) = 56) by (rewrite length_take; lia).
  apply decode_record_inv in Hd as [Hwf He]; [|done].
  exists (drop 56 (Stream.incoming s)). by rewrite <-He, take_drop.
Qed.

Lemma read_record_encode s r rest :
  PairingRecord.wf r -> Stream.answers s = [] -> Stream.incoming s = encode_record r ++ rest ->
  read_record s = (Stream.set_incoming s rest, Ok r).
Proof.
  intros Hwf Ha Hi. unfold read_record, read_exact, syscall, pbind, pret. rewrite Ha. cbn [id].
  pose proof (encode_record_length r Hwf) as Hl.
  destruct (Z.ltb_spec (zlen (Stream.incoming s)) TETHER_PAIRING_RECORD_LEN) as [Hlt|_].
  { rewrite Hi, length_app in Hlt. unfold TETHER_PAIRING_RECORD_LEN in Hlt. lia. }
  change (Z.to_nat TETHER_PAIRING_RECORD_LEN) with 56%nat.
  by rewrite Hi, take_length_app, drop_length_app, decode_encode_record.
Qed.

Lemma write_record_inv r s s' u :
  write_record r s = (s', Ok u) ->
  s' = Stream.push_sent (Stream.set_answers s (tail (Stream.answers s))) (encode_record r).
Proof.
  unfold write_record, write_all, syscall.
  destruct (Stream.answers s) as [|[?|] ?] eqn:Ha; [|done|]; intros [= <-]; [|done].
  unfold Stream.set_answers. destruct s; cbn in *. by subst.
Qed.

(** A successful change of both timeouts. *)
Lemma set_timeouts_inv d s s' u :
  (let* _ := set_read_timeout d in set_write_timeout d) s = (s', Ok u) ->
  Stream.read_timeout s' = d /\ Stream.write_timeout s' = d /\
  Stream.incoming s' = Stream.incoming s /\ Stream.sent s' = Stream.sent s.
Proof.
  intros ([] & s1 & H1 & H2)%pbind_ok_inv. unfold set_read_timeout, set_write_timeout, syscall in *.
  destruct (Stream.answers s) as [|[?|] ?]; [|done|]; injection H1 as <-; cbn in H2;
    (destruct (Stream.answers _) as [|[?|] ?]; [|done|] || idtac);
    repeat case_match; try done; injection H2 as <-; by cbn.
Qed.

(** ** The joint exchange

    Both parties on one connection. A party that has received [delivered] so far has
    written what its run on these bytes sends, and waits at a read they do not fill;
    none of its calls fails. *)
Definition on (role : pairing unit) (delivered : list byte) : Stream.t * outcome TetherPairingError.t unit :=
  role (Stream.mk delivered [] "waiting" [] None None).
Definition written (role : pairing unit) (delivered : list byte) : list byte := Stream.sent (fst (on role delivered)).

(** What each side has received. *)
Module Connection.
Record t : Type := mk { host_has : list byte; display_has : list byte }.
End Connection.

(** Some of the bytes under way arrive, in order, on one side. *)
Inductive delivers (host display : pairing unit) (c : Connection.t) : Connection.t -> Prop :=
| delivers_to_display bytes more : bytes <> [] ->
    written host (Connection.host_has c) = Connection.display_has c ++ bytes ++ more ->
    delivers host display c (Connection.mk (Connection.host_has c) (Connection.display_has c ++ bytes))
| delivers_to_host bytes more : bytes <> [] ->
    written display (Connection.display_has c) = Connection.host_has c ++ bytes ++ more ->
    delivers host display c (Connection.mk (Connection.host_has c ++ bytes) (Connection.display_has c)).

Definition both_done (host display : pairing unit) (c : Connection.t) : Prop :=
  snd (on host (Connection.host_has c)) = Ok tt /\ snd (on display (Connection.display_has c)) = Ok tt.

Lemma read_record_starved s : Stream.answers s = [] -> (length (Stream.incoming s) < 56)%nat ->
  read_record s = (Stream.set_incoming s [], Err (TetherPairingError.Io (Stream.starved s))).
Proof.
  intros Ha Hl. unfold read_record, read_exact, syscall, pbind. rewrite Ha. cbn [id].
  destruct (Z.ltb_spec (zlen (Stream.incoming s)) TETHER_PAIRING_RECORD_LEN) as [_|Hge]; [done|].
  unfold TETHER_PAIRING_RECORD_LEN in Hge. lia.
Qed.

Lemma pbind_err {A B} (m : pairing A) (k : A -> pairing B) s s1 e :
  m s = (s1, Err e) -> pbind m k s = (s1, Err e).
Proof. unfold pbind. by intros ->. Qed.

#[local] Opaque encode_record.

Section Roles.
Context (hmac : list byte -> list byte -> list byte).
Context (hmac_length : forall key message, zlen (hmac key message) = PAIRING_TAG_LEN).
Implicit Types (token : TetherPairingToken.t) (hn dn : list byte).

(** The records of a run of the protocol. *)
Definition tag_of token (k : PairingRecordKind.t) hn dn : list byte :=
  hmac (TetherPairingToken.as_bytes token) (pairing_message k hn dn).
Definition host_hello hn : PairingRecord.t := PairingRecord.mk 1 hn (zeros PAIRING_TAG_LEN).
Definition display_hello token hn dn : PairingRecord.t :=
  PairingRecord.mk 2 dn (tag_of token PairingRecordKind.DisplayHello hn dn).
Definition host_finished token hn dn : PairingRecord.t :=
  PairingRecord.mk 3 (zeros PAIRING_NONCE_LEN) (tag_of token PairingRecordKind.HostFinished hn dn).
Definition display_finished token hn dn : PairingRecord.t :=
  PairingRecord.mk 4 (zeros PAIRING_NONCE_LEN) (tag_of token PairingRecordKind.DisplayFinished hn dn).

Definition nonce_ok (n : list byte) : Prop :=
  zlen n = PAIRING_NONCE_LEN /\ n <> zeros PAIRING_NONCE_LEN.

Lemma tag_length token k hn dn : zlen (tag_of token k hn dn) = PAIRING_TAG_LEN.
Proof. apply hmac_length. Qed.

Lemma hello_wf hn : zlen hn = PAIRING_NONCE_LEN -> PairingRecord.wf (host_hello hn).
Proof. intros Hn. split; cbn; [unfold in_u; lia|done|done]. Qed.
Lemma display_hello_wf token hn dn :
  zlen dn = PAIRING_NONCE_LEN -> PairingRecord.wf (display_hello token hn dn).
Proof. intros Hn. split; cbn; [unfold in_u; lia|done|apply tag_length]. Qed.
Lemma host_finished_wf token hn dn : PairingRecord.wf (host_finished token hn dn).
Proof. split; cbn; [unfold in_u; lia|done|apply tag_length]. Qed.
Lemma display_finished_wf token hn dn : PairingRecord.wf (display_finished token hn dn).
Proof. split; cbn; [unfold in_u; lia|done|apply tag_length]. Qed.

(** A validated record of a later step is the one its sender's step builds. *)
Lemma finished_inv token r k hn dn :
  validate_finished_record hmac token r k hn dn = Ok tt ->
  r = PairingRecord.mk (PairingRecordKind.value k) (zeros PAIRING_NONCE_LEN) (tag_of token k hn dn).
Proof.
  unfold validate_finished_record, validate_record_kind, verify_pairing_tag.
  destruct (Z.eqb_spec (PairingRecord.kind r) (PairingRecordKind.value k)); [|done]. cbn [obind].
  case_bool_decide as Hz; [done|]. case_bool_decide as Ht; [|done]. intros _.
  destruct r. cbn in *. by subst.
Qed.

Lemma finished_ok token k hn dn :
  validate_finished_record hmac token
    (PairingRecord.mk (PairingRecordKind.value k) (zeros PAIRING_NONCE_LEN) (tag_of token k hn dn))
    k hn dn = Ok tt.
Proof.
  unfold validate_finished_record, validate_record_kind, verify_pairing_tag.
  cbn [PairingRecord.kind PairingRecord.nonce PairingRecord.tag].
  rewrite Z.eqb_refl. cbn [obind]. rewrite bool_decide_eq_false_2 by tauto.
  by rewrite bool_decide_eq_true_2.
Qed.

(** The host's run against the records of a display that holds the token. *)
Lemma host_run token timeout hn dn rest s :
  zlen hn = PAIRING_NONCE_LEN -> nonce_ok dn -> timeout <> 0 -> Stream.answers s = [] ->
  Stream.incoming s = encode_record (display_hello token hn dn) ++
    encode_record (display_finished token hn dn) ++ rest ->
  authenticate_tether_host_stream_with_nonce hmac token timeout hn s =
    (Stream.mk rest [] (Stream.starved s)
       (Stream.sent s ++ encode_record (host_hello hn) ++ encode_record (host_finished token hn dn))
       None None, Ok tt).
Proof.
  intros Hn [Hdn Hnz] Ht Ha Hin. destruct s as [inc ans st snt rt wt]. cbn in Ha, Hin. subst ans.
  unfold authenticate_tether_host_stream_with_nonce, configure_pairing_timeouts.
  rewrite (proj2 (Z.eqb_neq timeout 0)) by done.
  erewrite pbind_ok by reflexivity. erewrite pbind_ok by reflexivity.
  erewrite pbind_ok by (apply read_record_encode; [by apply display_hello_wf|reflexivity|exact Hin]).
  erewrite pbind_ok by reflexivity. cbn [PairingRecord.nonce display_hello].
  rewrite bool_decide_eq_false_2 by done.
  erewrite pbind_ok by (unfold pret, verify_pairing_tag; by rewrite bool_decide_eq_true_2).
  erewrite pbind_ok by reflexivity. erewrite pbind_ok by reflexivity.
  erewrite pbind_ok by (apply read_record_encode; [apply display_finished_wf|reflexivity|reflexivity]).
  erewrite pbind_ok
    by (unfold pret; f_equal; apply (finished_ok token PairingRecordKind.DisplayFinished hn dn)).
  cbn [Stream.sent Stream.starved]. by rewrite (assoc_L (++)).
Qed.

(** C32: the host accepts a peer exactly when the peer proves the token: authentication succeeds
    only if the timeout is nonzero and the peer sent a display hello with a fresh nonzero nonce and
    the tag of this token for the host's own nonce, then a display-finished record with the tag of
    that step; the host has then sent its hello and the host-finished proof, left the bytes that
    follow unread and cleared both timeouts; and when no system call fails, such a peer is always
    accepted. *)
Theorem host_accepts_exactly token timeout hn s (Hn : zlen hn = PAIRING_NONCE_LEN) :
  let run := authenticate_tether_host_stream_with_nonce hmac token timeout hn s in
  let proves s' := exists dn rest, nonce_ok dn /\
    Stream.incoming s = encode_record (display_hello token hn dn) ++
      encode_record (display_finished token hn dn) ++ rest /\
    Stream.incoming s' = rest /\
    Stream.sent s' = Stream.sent s ++ encode_record (host_hello hn) ++
      encode_record (host_finished token hn dn) /\
    Stream.read_timeout s' = None /\ Stream.write_timeout s' = None in
  (forall s', run = (s', Ok tt) -> timeout <> 0 /\ proves s') /\
  (Stream.answers s = [] -> timeout <> 0 ->
   (exists s', proves s') -> exists s', run = (s', Ok tt) /\ proves s').
Proof.
  cbv zeta. split.
  - intros s' Hrun. unfold authenticate_tether_host_stream_with_nonce in Hrun.
    apply pbind_ok_inv in Hrun as ([] & s1 & Hc & Hrun).
    unfold configure_pairing_timeouts in Hc. destruct (Z.eqb_spec timeout 0); [done|].
    split; [done|]. apply set_timeouts_inv in Hc as (_ & _ & Hi1 & Hs1).
    apply pbind_ok_inv in Hrun as ([] & s2 & Hw1 & Hrun). apply write_record_inv in Hw1 as ->.
    apply pbind_ok_inv in Hrun as (dh & s3 & Hr1 & Hrun).
    apply read_record_inv in Hr1 as (rest1 & Hin1 & Hwf1 & ->).
    apply pbind_ok_inv in Hrun as ([] & s4 & [-> Hk]%pret_ok_inv & Hrun).
    unfold validate_record_kind in Hk.
    destruct (Z.eqb_spec (PairingRecord.kind dh) (PairingRecordKind.value PairingRecordKind.DisplayHello))
      as [Hkind|]; [|done]. clear Hk.
    case_bool_decide as Hz; [done|].
    apply pbind_ok_inv in Hrun as ([] & s5 & [-> Hv]%pret_ok_inv & Hrun).
    unfold verify_pairing_tag in Hv. case_bool_decide as Ht; [|done]. clear Hv.
    apply pbind_ok_inv in Hrun as (fin & s6 & [-> [= <-]]%pret_ok_inv & Hrun).
    apply pbind_ok_inv in Hrun as ([] & s7 & Hw2 & Hrun). apply write_record_inv in Hw2 as ->.
    apply pbind_ok_inv in Hrun as (df & s8 & Hr2 & Hrun).
    apply read_record_inv in Hr2 as (rest2 & Hin2 & Hwf2 & ->).
    apply pbind_ok_inv in Hrun as ([] & s9 & [-> Hfin]%pret_ok_inv & Hrun).
    apply set_timeouts_inv in Hrun as (Hrt & Hwt & Hi9 & Hs9).
    apply finished_inv in Hfin. cbn in Hin1, Hin2, Hi9, Hs9.
    rewrite Hi1 in Hin1. rewrite Hs1 in Hs9.
    destruct dh as [k dn tag]. cbn in *. subst k tag. destruct Hwf1 as [_ Hdn _]. cbn in Hdn.
    exists dn, rest2. split; [done|]. subst df rest1. split_and!; [done|done| |done|done].
    rewrite Hs9. by rewrite <-(assoc_L (++)).
  - intros Ha Ht (sf & dn & rest & [Hdn Hnz] & Hin & _).
    eexists. split; [by apply (host_run token timeout hn dn rest)|].
    exists dn, rest. by split_and!.
Qed.

(** The display's run against the records of a host that holds the token. *)
Lemma display_run token timeout hn dn rest s :
  nonce_ok hn -> timeout <> 0 -> Stream.answers s = [] ->
  Stream.incoming s = encode_record (host_hello hn) ++ encode_record (host_finished token hn dn) ++ rest ->
  authenticate_tether_display_stream_with_nonce hmac token timeout dn s =
    (Stream.mk rest [] (Stream.starved s)
       (Stream.sent s ++ encode_record (display_hello token hn dn) ++
          encode_record (display_finished token hn dn)) None None, Ok tt).
Proof.
  intros [Hn Hnz] Ht Ha Hin. destruct s as [inc ans st snt rt wt]. cbn in Ha, Hin. subst ans.
  unfold authenticate_tether_display_stream_with_nonce, configure_pairing_timeouts.
  rewrite (proj2 (Z.eqb_neq timeout 0)) by done.
  erewrite pbind_ok by reflexivity.
  erewrite pbind_ok by (apply read_record_encode; [by apply hello_wf|reflexivity|exact Hin]).
  erewrite pbind_ok by reflexivity. cbn [PairingRecord.nonce PairingRecord.tag host_hello].
  rewrite bool_decide_eq_false_2 by done. rewrite bool_decide_eq_false_2 by tauto. cbn [orb].
  erewrite pbind_ok by reflexivity. erewrite pbind_ok by reflexivity.
  erewrite pbind_ok by (apply read_record_encode; [apply host_finished_wf|reflexivity|reflexivity]).
  erewrite pbind_ok
    by (unfold pret; f_equal; apply (finished_ok token PairingRecordKind.HostFinished hn dn)).
  erewrite pbind_ok by reflexivity. erewrite pbind_ok by reflexivity.
  cbn [Stream.sent Stream.starved]. by rewrite (assoc_L (++)).
Qed.

(** The display accepts a peer exactly when the peer proves the token: authentication succeeds
    only if the timeout is nonzero and the peer sent a host hello with a nonzero nonce and an empty
    tag, then a host-finished record with the tag of this token for that nonce and the display's
    own; the display has then sent its hello and its finished proof, left the bytes that follow
    unread and cleared both timeouts; and when no system call fails, such a peer is always
    accepted. *)
Theorem display_accepts_exactly token timeout dn s :
  let run := authenticate_tether_display_stream_with_nonce hmac token timeout dn s in
  let proves s' := exists hn rest, nonce_ok hn /\
    Stream.incoming s = encode_record (host_hello hn) ++
      encode_record (host_finished token hn dn) ++ rest /\
    Stream.incoming s' = rest /\
    Stream.sent s' = Stream.sent s ++ encode_record (display_hello token hn dn) ++
      encode_record (display_finished token hn dn) /\
    Stream.read_timeout s' = None /\ Stream.write_timeout s' = None in
  (forall s', run = (s', Ok tt) -> timeout <> 0 /\ proves s') /\
  (Stream.answers s = [] -> timeout <> 0 ->
   (exists s', proves s') -> exists s', run = (s', Ok tt) /\ proves s').
Proof.
  cbv zeta. split.
  - intros s' Hrun. unfold authenticate_tether_display_stream_with_nonce in Hrun.
    apply pbind_ok_inv in Hrun as ([] & s1 & Hc & Hrun).
    unfold configure_pairing_timeouts in Hc. destruct (Z.eqb_spec timeout 0); [done|].
    split; [done|]. apply set_timeouts_inv in Hc as (_ & _ & Hi1 & Hs1).
    apply pbind_ok_inv in Hrun as (hh & s2 & Hr1 & Hrun).
    apply read_record_inv in Hr1 as (rest1 & Hin1 & Hwf1 & ->).
    apply pbind_ok_inv in Hrun as ([] & s3 & [-> Hk]%pret_ok_inv & Hrun).
    unfold validate_record_kind in Hk.
    destruct (Z.eqb_spec (PairingRecord.kind hh) (PairingRecordKind.value PairingRecordKind.HostHello))
      as [Hkind|]; [|done]. clear Hk.
    case_bool_decide as Hz; [done|]. case_bool_decide as Htag; [done|]. cbn [orb] in Hrun.
    apply pbind_ok_inv in Hrun as (tag & s4 & [-> [= <-]]%pret_ok_inv & Hrun).
    apply pbind_ok_inv in Hrun as ([] & s5 & Hw1 & Hrun). apply write_record_inv in Hw1 as ->.
    apply pbind_ok_inv in Hrun as (hf & s6 & Hr2 & Hrun).
    apply read_record_inv in Hr2 as (rest2 & Hin2 & Hwf2 & ->).
    apply pbind_ok_inv in Hrun as ([] & s7 & [-> Hfin]%pret_ok_inv & Hrun).
    apply pbind_ok_inv in Hrun as (fin & s8 & [-> [= <-]]%pret_ok_inv & Hrun).
    apply pbind_ok_inv in Hrun as ([] & s9 & Hw2 & Hrun). apply write_record_inv in Hw2 as ->.
    apply set_timeouts_inv in Hrun as (Hrt & Hwt & Hi9 & Hs9).
    apply finished_inv in Hfin. cbn in Hin1, Hin2, Hi9, Hs9.
    rewrite Hi1 in Hin1. rewrite Hs1 in Hs9.
    destruct hh as [k hn tag]. cbn in *. subst k tag. destruct Hwf1 as [_ Hhn _]. cbn in Hhn.
    exists hn, rest2. split; [done|]. subst hf rest1. split_and!; [done|done| |done|done].
    rewrite Hs9. by rewrite <-(assoc_L (++)).
  - intros Ha Ht (sf & hn & rest & Hhn & Hin & _).
    eexists. split; [by apply (display_run token timeout hn dn rest)|].
    exists hn, rest. by split_and!.
Qed.

(** *** Both roles on one connection *)
Section Joint.
Context (token : TetherPairingToken.t) (host_timeout display_timeout : Z) (hn dn : list byte).
Context (Hh : nonce_ok hn) (Hd : nonce_ok dn) (Hth : host_timeout <> 0) (Htd : display_timeout <> 0).
Notation host := (authenticate_tether_host_stream_with_nonce hmac token host_timeout hn).
Notation display := (authenticate_tether_display_stream_with_nonce hmac token display_timeout dn).
Notation host1 := (encode_record (host_hello hn)).
Notation host2 := (encode_record (host_finished token hn dn)).
Notation display1 := (encode_record (display_hello token hn dn)).
Notation display2 := (encode_record (display_finished token hn dn)).

Lemma records_long : length host1 = 56%nat /\ length host2 = 56%nat /\ length display1 = 56%nat /\ length display2 = 56%nat.
Proof.
  split_and!; apply encode_record_length; [apply hello_wf, Hh|apply host_finished_wf|apply display_hello_wf, Hd|apply display_finished_wf].
Qed.

(** The host on the first of the display's bytes, and the display on the host's. *)
Lemma host_waits_hello l : (length l < 56)%nat -> exists s e, on host l = (s, Err e) /\ Stream.sent s = host1.
Proof.
  intros Hl. eexists _, _. unfold on, authenticate_tether_host_stream_with_nonce, configure_pairing_timeouts.
  rewrite (proj2 (Z.eqb_neq host_timeout 0)) by done.
  erewrite pbind_ok by reflexivity. erewrite pbind_ok by reflexivity.
  erewrite pbind_err by (by apply read_record_starved). by split.
Qed.
Lemma host_waits_finished l : (length l < 56)%nat ->
  exists s e, on host (display1 ++ l) = (s, Err e) /\ Stream.sent s = host1 ++ host2.
Proof.
  intros Hl. eexists _, _. unfold on, authenticate_tether_host_stream_with_nonce, configure_pairing_timeouts.
  rewrite (proj2 (Z.eqb_neq host_timeout 0)) by done.
  erewrite pbind_ok by reflexivity. erewrite pbind_ok by reflexivity.
  erewrite pbind_ok by (apply read_record_encode; [apply display_hello_wf, Hd|reflexivity|reflexivity]).
  erewrite pbind_ok by reflexivity. cbn [PairingRecord.nonce display_hello].
  rewrite bool_decide_eq_false_2 by apply Hd.
  erewrite pbind_ok by (unfold pret, verify_pairing_tag; by rewrite bool_decide_eq_true_2).
  erewrite pbind_ok by reflexivity. erewrite pbind_ok by reflexivity.
  erewrite pbind_err by (by apply read_record_starved). by split.
Qed.
Lemma display_waits_hello l : (length l < 56)%nat -> exists s e, on display l = (s, Err e) /\ Stream.sent s = [].
Proof.
  intros Hl. eexists _, _. unfold on, authenticate_tether_display_stream_with_nonce, configure_pairing_timeouts.
  rewrite (proj2 (Z.eqb_neq display_timeout 0)) by done.
  erewrite pbind_ok by reflexivity. erewrite pbind_err by (by apply read_record_starved). by split.
Qed.
Lemma display_waits_finished l : (length l < 56)%nat ->
  exists s e, on display (host1 ++ l) = (s, Err e) /\ Stream.sent s = display1.
Proof.
  intros Hl. eexists _, _. unfold on, authenticate_tether_display_stream_with_nonce, configure_pairing_timeouts.
  rewrite (proj2 (Z.eqb_neq display_timeout 0)) by done.
  erewrite pbind_ok by reflexivity.
  erewrite pbind_ok by (apply read_record_encode; [apply hello_wf, Hh|reflexivity|reflexivity]).
  erewrite pbind_ok by reflexivity. cbn [PairingRecord.nonce PairingRecord.tag host_hello].
  rewrite bool_decide_eq_false_2 by apply Hh. rewrite bool_decide_eq_false_2 by tauto. cbn [orb].
  erewrite pbind_ok by reflexivity. erewrite pbind_ok by reflexivity.
  erewrite pbind_err by (by apply read_record_starved). by split.
Qed.

(** A prefix of two records of a length: of the first, of both, or all. *)
Lemma prefix_cases (a b l : list byte) : length a = 56%nat -> length b = 56%nat -> l `prefix_of` a ++ b ->
  (length l < 56)%nat \/ (exists m, l = a ++ m /\ (length m < 56)%nat) \/ l = a ++ b.
Proof.
  intros Ha Hb [r Hr]. destruct (decide (length l < 56)%nat) as [|Hl]; [by left|right].
  assert (Hsplit : l = a ++ drop 56 l).
  { rewrite <-(take_drop 56 l) at 1. f_equal. rewrite <-(take_length_app a b 56), Hr by done. by rewrite take_app_le by lia. }
  assert (Hrest : b = drop 56 l ++ r).
  { rewrite Hsplit in Hr. rewrite <-(assoc_L (++)) in Hr. by apply app_inv_head in Hr. }
  destruct (decide (length (drop 56 l) < 56)%nat) as [|Hm]; [left; eauto|right].
  assert (r = []) as -> by (apply (f_equal length) in Hrest; rewrite length_app in Hrest; apply nil_length_inv; lia).
  rewrite app_nil_r in Hrest. by rewrite Hrest.
Qed.

Lemma host_on l : l `prefix_of` display1 ++ display2 ->
  (length l < 56)%nat /\ written host l = host1 /\ snd (on host l) <> Ok tt \/
  (56 <= length l < 112)%nat /\ written host l = host1 ++ host2 /\ snd (on host l) <> Ok tt \/
  l = display1 ++ display2 /\ written host l = host1 ++ host2 /\ snd (on host l) = Ok tt.
Proof.
  destruct records_long as (H1 & H2 & H3 & H4). intros Hl. apply prefix_cases in Hl; [|done..].
  unfold written. destruct Hl as [Hl|[(m & -> & Hm)| ->]].
  - left. destruct (host_waits_hello l Hl) as (s & e & -> & Hs). by split_and!.
  - right. left. destruct (host_waits_finished m Hm) as (s & e & -> & Hs). rewrite length_app. split_and!; [lia|lia|done..].
  - right. right. unfold on. rewrite (host_run token host_timeout hn dn []) by (try apply Hh; cbn; rewrite ?app_nil_r; done).
    done.
Qed.
Lemma display_on l : l `prefix_of` host1 ++ host2 ->
  (length l < 56)%nat /\ written display l = [] /\ snd (on display l) <> Ok tt \/
  (56 <= length l < 112)%nat /\ written display l = display1 /\ snd (on display l) <> Ok tt \/
  l = host1 ++ host2 /\ written display l = display1 ++ display2 /\ snd (on display l) = Ok tt.
Proof.
  destruct records_long as (H1 & H2 & H3 & H4). intros Hl. apply prefix_cases in Hl; [|done..].
  unfold written. destruct Hl as [Hl|[(m & -> & Hm)| ->]].
  - left. destruct (display_waits_hello l Hl) as (s & e & -> & Hs). by split_and!.
  - right. left. destruct (display_waits_finished m Hm) as (s & e & -> & Hs). rewrite length_app. split_and!; [lia|lia|done..].
  - right. right. unfold on. rewrite (display_run token display_timeout hn dn []) by (try apply Hh; cbn; rewrite ?app_nil_r; done).
    done.
Qed.

(** What has arrived is the beginning of what the other side writes in all. *)
Definition in_order (c : Connection.t) : Prop :=
  Connection.host_has c `prefix_of` display1 ++ display2 /\ Connection.display_has c `prefix_of` host1 ++ host2 /\
  Connection.host_has c `prefix_of` written display (Connection.display_has c) /\
  Connection.display_has c `prefix_of` written host (Connection.host_has c).

Lemma host_writes l : l `prefix_of` display1 ++ display2 -> written host l `prefix_of` host1 ++ host2.
Proof. intros [(_ & -> & _)|[(_ & -> & _)|(_ & -> & _)]]%host_on; [by apply prefix_app_r|done..]. Qed.
Lemma display_writes l : l `prefix_of` host1 ++ host2 -> written display l `prefix_of` display1 ++ display2.
Proof. intros [(_ & -> & _)|[(_ & -> & _)|(_ & -> & _)]]%display_on; [apply prefix_nil|by apply prefix_app_r|done]. Qed.

(** Nothing is taken back when more arrives. *)
Lemma host_grows l l' : l `prefix_of` l' -> l' `prefix_of` display1 ++ display2 -> written host l `prefix_of` written host l'.
Proof.
  intros Hll Hl'. pose proof (prefix_length _ _ Hll) as Hlen. assert (Hl : l `prefix_of` display1 ++ display2) by (by etrans).
  destruct (host_on l Hl) as [(H1 & -> & _)|[(H1 & -> & _)|(-> & -> & _)]],
    (host_on l' Hl') as [(H2 & -> & _)|[(H2 & -> & _)|(-> & -> & _)]]; try done; try lia; try by apply prefix_app_r.
  destruct records_long as (? & ? & ? & ?). rewrite length_app in Hlen. lia.
Qed.
Lemma display_grows l l' : l `prefix_of` l' -> l' `prefix_of` host1 ++ host2 -> written display l `prefix_of` written display l'.
Proof.
  intros Hll Hl'. pose proof (prefix_length _ _ Hll) as Hlen. assert (Hl : l `prefix_of` host1 ++ host2) by (by etrans).
  destruct (display_on l Hl) as [(H1 & -> & _)|[(H1 & -> & _)|(-> & -> & _)]],
    (display_on l' Hl') as [(H2 & -> & _)|[(H2 & -> & _)|(-> & -> & _)]]; try done; try lia;
    try apply prefix_nil; try by apply prefix_app_r.
  all: destruct records_long as (? & ? & ? & ?); rewrite length_app in Hlen; lia.
Qed.

Lemma in_order_start : in_order (Connection.mk [] []).
Proof. split_and!; apply prefix_nil. Qed.

Lemma in_order_step c c' : in_order c -> delivers host display c c' -> in_order c'.
Proof.
  intros (Hhost & Hdisplay & Hhas & Hdhas) [bytes more Hne Hw|bytes more Hne Hw]; unfold in_order; cbn.
  - assert (Hpre : Connection.display_has c ++ bytes `prefix_of` written host (Connection.host_has c))
      by (rewrite Hw, (assoc_L (++)); by apply prefix_app_r).
    assert (Hnew : Connection.display_has c ++ bytes `prefix_of` host1 ++ host2) by (etrans; [exact Hpre|by apply host_writes]).
    split_and!; [done|done| |done]. etrans; [exact Hhas|]. by apply display_grows; [apply prefix_app_r|].
  - assert (Hpre : Connection.host_has c ++ bytes `prefix_of` written display (Connection.display_has c))
      by (rewrite Hw, (assoc_L (++)); by apply prefix_app_r).
    assert (Hnew : Connection.host_has c ++ bytes `prefix_of` display1 ++ display2) by (etrans; [exact Hpre|by apply display_writes]).
    split_and!; [done|done|done|]. etrans; [exact Hdhas|]. by apply host_grows; [apply prefix_app_r|].
Qed.

Lemma in_flight (has all : list byte) : has `prefix_of` all -> has <> all ->
  exists bytes more, bytes <> [] /\ all = has ++ bytes ++ more.
Proof. intros [[|b r] ->] Hne; [by rewrite app_nil_r in Hne|]. exists [b], r. by split. Qed.

(** Neither side waits for bytes that the other has not written. *)
Lemma in_order_goes_on c : in_order c -> both_done host display c \/ exists c', delivers host display c c'.
Proof.
  intros (Hhost & Hdisplay & Hhas & Hdhas).
  destruct (decide (Connection.display_has c = written host (Connection.host_has c))) as [Hd1|Hd1].
  2: { right. destruct (in_flight _ _ Hdhas Hd1) as (bytes & more & Hne & Hw). eexists. by eapply delivers_to_display. }
  destruct (decide (Connection.host_has c = written display (Connection.display_has c))) as [Hh1|Hh1].
  2: { right. destruct (in_flight _ _ Hhas Hh1) as (bytes & more & Hne & Hw). eexists. by eapply delivers_to_host. }
  left. destruct records_long as (L1 & L2 & L3 & L4).
  destruct (host_on _ Hhost) as [(B1 & W1 & _)|[(B1 & W1 & _)|(E1 & W1 & R1)]],
    (display_on _ Hdisplay) as [(B2 & W2 & _)|[(B2 & W2 & _)|(E2 & W2 & R2)]];
    try (by split); exfalso; rewrite W1 in Hd1; rewrite W2 in Hh1; rewrite Hd1 in *; rewrite Hh1 in *;
    rewrite ?length_app, ?L1, ?L2, ?L3, ?L4 in *; cbn in *; lia.
Qed.

Lemma in_order_growth c c' : in_order c -> delivers host display c c' ->
  written host (Connection.host_has c) `prefix_of` written host (Connection.host_has c') /\
  written display (Connection.display_has c) `prefix_of` written display (Connection.display_has c').
Proof.
  intros Hc Hstep. pose proof (in_order_step c c' Hc Hstep) as (Hhost & Hdisplay & _ & _).
  split; [apply host_grows|apply display_grows]; try done; destruct Hstep; cbn; (done || by apply prefix_app_r).
Qed.

(** Every arrival brings a byte. *)
Definition arrived (c : Connection.t) : nat := length (Connection.host_has c) + length (Connection.display_has c).
Lemma in_order_steps n c c' : nsteps (delivers host display) n c c' -> in_order c ->
  in_order c' /\ (n + arrived c <= arrived c')%nat.
Proof.
  induction 1 as [c|n c1 c2 c3 Hstep _ IH]; intros Hc; [by split|].
  destruct (IH (in_order_step _ _ Hc Hstep)) as [Hc3 Hn]. split; [done|].
  enough (S (arrived c1) <= arrived c2)%nat by lia. unfold arrived.
  destruct Hstep as [bytes more Hne _|bytes more Hne _]; cbn; rewrite length_app; destruct bytes; try done; cbn; lia.
Qed.
Lemma in_order_bound n c : in_order c -> (n + arrived (Connection.mk [] []) <= arrived c)%nat -> (n <= 224)%nat.
Proof.
  intros (Hhost%prefix_length & Hdisplay%prefix_length & _ & _). unfold arrived. cbn.
  destruct records_long as (? & ? & ? & ?). rewrite !length_app in *. lia.
Qed.
Lemma in_order_done c : in_order c -> both_done host display c ->
  c = Connection.mk (display1 ++ display2) (host1 ++ host2).
Proof.
  intros (Hhost & Hdisplay & _ & _) [R1 R2].
  destruct (host_on _ Hhost) as [(_ & _ & B1)|[(_ & _ & B1)|(E1 & _ & _)]]; [done..|].
  destruct (display_on _ Hdisplay) as [(_ & _ & B2)|[(_ & _ & B2)|(E2 & _ & _)]]; [done..|].
  destruct c. cbn in *. by subst.
Qed.
End Joint.

(** C34: the handshake completes and agrees: a host and a display that hold one token, with
    their own nonzero nonces and nonzero timeouts, run on one connection from nothing; bytes
    arrive in order and in any portions, whichever side they go to first, no call fails and no
    read times out. Then, wherever the exchange has got to, either both have authenticated or
    bytes are under way, so neither waits for the other forever; there are at most 224
    arrivals; what a side has written it does not take back; and when no bytes are under way
    both have authenticated, each from exactly the other's two records. What follows these on
    the connection is left for the LDFL stream. *)
Theorem pairing_completes token host_timeout display_timeout hn dn
  (Hh : nonce_ok hn) (Hd : nonce_ok dn) (Hth : host_timeout <> 0) (Htd : display_timeout <> 0) :
  let host := authenticate_tether_host_stream_with_nonce hmac token host_timeout hn in
  let display := authenticate_tether_display_stream_with_nonce hmac token display_timeout dn in
  let to_host := encode_record (display_hello token hn dn) ++
                 encode_record (display_finished token hn dn) in
  let to_display := encode_record (host_hello hn) ++ encode_record (host_finished token hn dn) in
  (forall n c, nsteps (delivers host display) n (Connection.mk [] []) c ->
    (n <= 224)%nat /\
    (both_done host display c \/ exists c', delivers host display c c') /\
    (forall c', delivers host display c c' ->
       written host (Connection.host_has c) `prefix_of` written host (Connection.host_has c') /\
       written display (Connection.display_has c) `prefix_of` written display (Connection.display_has c')) /\
    (both_done host display c -> c = Connection.mk to_host to_display)) /\
  forall more_host more_display starved_host starved_display,
  host (Stream.mk (to_host ++ more_host) [] starved_host [] None None) =
    (Stream.mk more_host [] starved_host to_display None None, Ok tt) /\
  display (Stream.mk (to_display ++ more_display) [] starved_display [] None None) =
    (Stream.mk more_display [] starved_display to_host None None, Ok tt).
Proof.
  cbv zeta. split.
  - intros n c Hsteps.
    destruct (in_order_steps token host_timeout display_timeout hn dn Hh Hd Hth Htd n _ c Hsteps) as [Hc Hn];
      [by apply in_order_start|].
    split_and!; [by apply (in_order_bound token host_timeout display_timeout hn dn Hh Hd n c)| | |].
    + by apply in_order_goes_on.
    + intros c' Hstep. by apply in_order_growth.
    + by apply in_order_done.
  - intros. rewrite (host_run token host_timeout hn dn more_host), (display_run token display_timeout hn dn more_display);
      try done; try apply Hh; cbn; by rewrite <-?(assoc_L (++)).
Qed.
End Roles.

(** The tagged messages separate the steps and the sessions: two messages are equal only for
    the same step and the same two nonces, so a tag made for one step, role or session is the tag
    of another only if the keyed hash collides. *)
Theorem tags_bind_step_and_nonces k k' hn hn' dn dn'
  (H1 : zlen hn = PAIRING_NONCE_LEN) (H2 : zlen hn' = PAIRING_NONCE_LEN) :
  pairing_message k hn dn = pairing_message k' hn' dn' -> k = k' /\ hn = hn' /\ dn = dn'.
Proof.
  unfold pairing_message. intros Heq. apply app_inv_head in Heq. apply app_inv_head in Heq.
  cbn [app] in Heq. injection Heq as Hk Hrest. apply app_inj_1 in Hrest as [-> ->]; [|lia].
  split; [|done]. by destruct k, k'.
Qed.

Module PairingExamples.
(** A stand-in for the keyed hash with 32-byte results. *)
Definition keyed (key message : list byte) : list byte :=
  take 32 (key ++ rev message ++ zeros 32).
Lemma keyed_length key message : zlen (keyed key message) = PAIRING_TAG_LEN.
Proof.
  unfold keyed, PAIRING_TAG_LEN. rewrite length_take, !length_app. unfold zeros.
  rewrite repeat_length. lia.
Qed.

Definition token : TetherPairingToken.t := TetherPairingToken.from_bytes (repeat x2a 10).
Definition hn : list byte := repeat x01 16.
Definition dn : list byte := repeat x02 16.
Lemma hn_ok : nonce_ok hn.
Proof. split; [reflexivity|discriminate]. Qed.
Lemma dn_ok : nonce_ok dn.
Proof. split; [reflexivity|discriminate]. Qed.

Definition to_host : list byte :=
  encode_record (display_hello keyed token hn dn) ++ encode_record (display_finished keyed token hn dn).
Definition to_display : list byte :=
  encode_record (host_hello hn) ++ encode_record (host_finished keyed token hn dn).
Definition host_stream : Stream.t := Stream.mk to_host [] "timed out" [] None None.
Definition display_stream : Stream.t := Stream.mk to_display [] "timed out" [] None None.

(** A wrong token is refused. *)
Example wrong_token :
  snd (authenticate_tether_host_stream_with_nonce keyed
         (TetherPairingToken.from_bytes (repeat x2b 10)) 5 hn host_stream) =
    Err TetherPairingError.AuthenticationFailed.
Proof. vm_compute. reflexivity. Qed.

Lemma pairing_record_codec_is_exact_witness :
  zlen (encode_record (host_hello hn)) = TETHER_PAIRING_RECORD_LEN /\
  returns (decode_record (encode_record (host_hello hn))).
Proof.
  split; [vm_compute; reflexivity|].
  apply (pairing_record_codec_is_exact (encode_record (host_hello hn))). vm_compute. reflexivity.
Defined.

Lemma host_accepts_exactly_witness :
  zlen hn = PAIRING_NONCE_LEN /\ exists s',
    authenticate_tether_host_stream_with_nonce keyed token 5 hn host_stream = (s', Ok tt) /\
    Stream.read_timeout s' = None.
Proof.
  split; [reflexivity|].
  destruct (host_accepts_exactly keyed keyed_length token 5 hn host_stream eq_refl) as [_ H].
  destruct (H eq_refl ltac:(discriminate)) as (s' & Hrun & dn' & rest & _ & _ & _ & _ & Hrt & _).
  - exists (Stream.mk [] [] "" to_display None None), dn, [].
    split; [exact dn_ok|]. split; [vm_compute; reflexivity|]. repeat split.
  - by exists s'.
Defined.

Lemma display_accepts_exactly_witness :
  exists s',
    authenticate_tether_display_stream_with_nonce keyed token 5 dn display_stream = (s', Ok tt) /\
    Stream.read_timeout s' = None.
Proof.
  destruct (display_accepts_exactly keyed keyed_length token 5 dn display_stream) as [_ H].
  destruct (H eq_refl ltac:(discriminate)) as (s' & Hrun & hn' & rest & _ & _ & _ & _ & Hrt & _).
  - exists (Stream.mk [] [] "" to_host None None), hn, [].
    split; [exact hn_ok|]. split; [vm_compute; reflexivity|]. repeat split.
  - by exists s'.
Defined.

(** The exchange in four arrivals, one of them of part of a record; a host that waited
    for the display first would leave both waiting from the start. *)
Definition exchange : list Connection.t :=
  [Connection.mk [] []; Connection.mk [] (take 30 to_display); Connection.mk [] (take 56 to_display);
   Connection.mk (take 56 to_host) (take 56 to_display); Connection.mk (take 56 to_host) to_display;
   Connection.mk to_host to_display].
Lemma pairing_completes_witness :
  nonce_ok hn /\ nonce_ok dn /\
  let host := authenticate_tether_host_stream_with_nonce keyed token 5 hn in
  let display := authenticate_tether_display_stream_with_nonce keyed token 7 dn in
  (forall n c, nsteps (delivers host display) n (Connection.mk [] []) c ->
     both_done host display c \/ exists c', delivers host display c c') /\
  both_done host display (List.last exchange (Connection.mk [] [])) /\
  (exists c', delivers host display (Connection.mk [] []) c') /\
  snd (host (Stream.mk (to_host ++ [x4c]) [] "timed out" [] None None)) = Ok tt.
Proof.
  split; [exact hn_ok|]. split; [exact dn_ok|].
  destruct (pairing_completes keyed keyed_length token 5 7 hn dn hn_ok dn_ok ltac:(discriminate) ltac:(discriminate))
    as [Hrun Hmore]. cbv zeta. split_and!.
  - intros n c Hn. exact (proj1 (proj2 (Hrun n c Hn))).
  - split; vm_compute; reflexivity.
  - destruct (Hrun 0%nat (Connection.mk [] []) ltac:(constructor)) as (_ & [[Hx _]|Hx] & _); [|exact Hx].
    vm_compute in Hx. discriminate Hx.
  - exact (f_equal snd (proj1 (Hmore [x4c] [] "timed out"%string "timed out"%string))).
Defined.

Lemma tags_bind_step_and_nonces_witness :
  zlen hn = PAIRING_NONCE_LEN /\ PairingRecordKind.HostHello = PairingRecordKind.HostHello /\
  hn = hn /\ dn = dn.
Proof.
  split; [reflexivity|].
  apply (tags_bind_step_and_nonces PairingRecordKind.HostHello PairingRecordKind.HostHello hn hn dn dn);
    reflexivity.
Defined.
End PairingExamples.
