(* ===== verification/TransportAoa.v ===== *)
(** * Android Open Accessory negotiation

    Models [crates/ladoflow-transport/src/aoa.rs]: the identification strings,
    the endpoint-zero request sequence that switches a device to accessory
    mode, and the recognition of a switched device. The device is an arbitrary
    function from the requests already made to its reply. *)
From stdpp Require Import pretty.
From S2P Require Export Bytes.
Local Open Scope string_scope.
Local Open Scope list_scope.
Local Open Scope Z_scope.

Definition AOA_GOOGLE_VENDOR_ID : Z := 0x18d1.
Definition AOA_ACCESSORY_PRODUCT_ID : Z := 0x2d00.
Definition AOA_ACCESSORY_ADB_PRODUCT_ID : Z := 0x2d01.
Definition AOA_ACCESSORY_AUDIO_PRODUCT_ID : Z := 0x2d04.
Definition AOA_ACCESSORY_AUDIO_ADB_PRODUCT_ID : Z := 0x2d05.
Definition AOA_CONTROL_READ_TYPE : Z := 0xc0.
Definition AOA_CONTROL_WRITE_TYPE : Z := 0x40.
Definition AOA_GET_PROTOCOL : Z := 51.
Definition AOA_SEND_IDENTIFICATION : Z := 52.
Definition AOA_START_ACCESSORY : Z := 53.
Definition AOA_MAX_IDENTIFICATION_BYTES : Z := 256.
(** [Duration::from_secs(1)], in nanoseconds. *)
Definition AOA_CONTROL_TIMEOUT : Z := 1000000000.

Module AccessoryIdentityError.
Inductive t : Type :=
| MissingRequiredField (field : string)
| EmbeddedNull (field : string)
| FieldTooLong (field : string) (encoded_bytes : Z).
#[global] Instance t_eq_dec : EqDecision t.
Proof. solve_decision. Defined.

Definition to_string (e : t) : string :=
  match e with
  | MissingRequiredField field => "AOA " +:+ field +:+ " must not be empty"
  | EmbeddedNull field => "AOA " +:+ field +:+ " must not contain a null byte"
  | FieldTooLong field encoded_bytes =>
      "AOA " +:+ field +:+ " uses " +:+ pretty encoded_bytes +:+
      " bytes including its terminator; maximum is " +:+ pretty AOA_MAX_IDENTIFICATION_BYTES
  end.
End AccessoryIdentityError.

Definition validate_identification (field : string) (value : list byte) (required : bool)
  : outcome AccessoryIdentityError.t unit :=
  if required && bool_decide (value = [])
  then Err (AccessoryIdentityError.MissingRequiredField field)
  else if contains_nul value then Err (AccessoryIdentityError.EmbeddedNull field)
  else
    let encoded_bytes := saturating_add usize_bits (zlen value) 1 in
    if encoded_bytes >? AOA_MAX_IDENTIFICATION_BYTES
    then Err (AccessoryIdentityError.FieldTooLong field encoded_bytes)
    else Ok tt.

Module AccessoryIdentity.
Record t : Type := mk {
  manufacturer : list byte;
  model : list byte;
  description : list byte;
  version : list byte;
  uri : list byte;
  serial : list byte;
}.
#[global] Instance t_eq_dec : EqDecision t.
Proof. solve_decision. Defined.

Definition fields (self : t) : list (string * list byte * bool) :=
  [ ("manufacturer", manufacturer self, true);
    ("model", model self, true);
    ("description", description self, false);
    ("version", version self, false);
    ("uri", uri self, false);
    ("serial", serial self, false) ].

Definition indexed_fields (self : t) : list (Z * string * list byte) :=
  [ (0, "manufacturer", manufacturer self);
    (1, "model", model self);
    (2, "description", description self);
    (3, "version", version self);
    (4, "uri", uri self);
    (5, "serial", serial self) ].

(** The loop of [new]. *)
Fixpoint validate_all (l : list (string * list byte * bool)) : outcome AccessoryIdentityError.t unit :=
  match l with
  | [] => Ok tt
  | (field, value, required) :: l =>
    let! _ := validate_identification field value required in validate_all l
  end.

Definition new (manufacturer model description version uri serial : list byte)
  : outcome AccessoryIdentityError.t t :=
  let identity := mk manufacturer model description version uri serial in
  let! _ := validate_all (fields identity) in
  Ok identity.

Definition ladoflow (description version serial : list byte) : outcome AccessoryIdentityError.t t :=
  new (str "LadoFlow") (str "LadoFlow Host") description version
    (str "https://github.com/tianrking/LadoFlow") serial.
End AccessoryIdentity.

Module AoaProtocolVersion.
Record t : Type := mk { get : Z }.
#[global] Instance t_eq_dec : EqDecision t.
Proof. solve_decision. Defined.
Definition supports_aoa2 (self : t) : bool := get self >=? 2.
End AoaProtocolVersion.

Module AoaNegotiationError.
Inductive t (E : Type) : Type :=
| Control (stage : string) (source : E)
| InvalidProtocolResponseLength (actual : Z)
| UnsupportedProtocol
| ShortIdentificationWrite (field : string) (expected actual : Z)
| UnexpectedStartResponse (actual : Z).
Arguments Control {E} stage source.
Arguments InvalidProtocolResponseLength {E} actual.
Arguments UnsupportedProtocol {E}.
Arguments ShortIdentificationWrite {E} field expected actual.
Arguments UnexpectedStartResponse {E} actual.

Definition to_string {E} (show : E -> string) (e : t E) : string :=
  match e with
  | Control stage source => "AOA " +:+ stage +:+ " failed: " +:+ show source
  | InvalidProtocolResponseLength actual =>
      "AOA protocol response was " +:+ pretty actual +:+ " bytes; expected exactly 2"
  | UnsupportedProtocol => "device returned unsupported AOA version 0"
  | ShortIdentificationWrite field expected actual =>
      "AOA " +:+ field +:+ " write transferred " +:+ pretty actual +:+ " of " +:+
      pretty expected +:+ " bytes"
  | UnexpectedStartResponse actual =>
      "AOA start request transferred " +:+ pretty actual +:+ " bytes; expected zero"
  end.
End AoaNegotiationError.

(** A control transfer; a write carries its bytes, a read its buffer's size. *)
Module Request.
Inductive t : Type :=
| Read (request_type request value index buffer_len timeout : Z)
| Write (request_type request value index : Z) (buffer : list byte) (timeout : Z).
#[global] Instance t_eq_dec : EqDecision t.
Proof. solve_decision. Defined.
End Request.

(** The reply: the transferred count, with the buffer's bytes after a read. *)
Module Reply.
Inductive t (E : Type) : Type :=
| Transferred (count : Z) (b0 b1 : byte)
| Failed (error : E).
Arguments Transferred {E} count b0 b1.
Arguments Failed {E} error.
End Reply.

Section Negotiation.
Context {E : Type}.
(** [trait AccessoryControlIo]: what the device replies to a request after the
    requests before it. *)
Variable device : list Request.t -> Request.t -> Reply.t E.
Notation result := (outcome (AoaNegotiationError.t E)).

(** A transfer extends the history of requests. *)
Definition control (stage : string) (history : list Request.t) (request : Request.t)
  : list Request.t * result (Z * byte * byte) :=
  (history ++ [request],
   match device history request with
   | Reply.Transferred count b0 b1 => Ok (count, b0, b1)
   | Reply.Failed source => Err (AoaNegotiationError.Control stage source)
   end).

(** The loop over the identification strings. *)
Fixpoint send_identification (history : list Request.t) (l : list (Z * string * list byte))
  : list Request.t * result unit :=
  match l with
  | [] => (history, Ok tt)
  | (index, field, value) :: l =>
    let encoded := value ++ [x00] in
    let (history, reply) := control field history
      (Request.Write AOA_CONTROL_WRITE_TYPE AOA_SEND_IDENTIFICATION 0 index encoded
         AOA_CONTROL_TIMEOUT) in
    let? (count, _, _) := reply keeping history in
    if negb (count =? zlen encoded)
    then (history, Err (AoaNegotiationError.ShortIdentificationWrite field (zlen encoded) count))
    else send_identification history l
  end.

Definition negotiate_accessory_mode (identity : AccessoryIdentity.t)
  : list Request.t * result AoaProtocolVersion.t :=
  let (history, reply) := control "protocol query" []
    (Request.Read AOA_CONTROL_READ_TYPE AOA_GET_PROTOCOL 0 0 2 AOA_CONTROL_TIMEOUT) in
  let? (count, b0, b1) := reply keeping history in
  if negb (count =? 2) then (history, Err (AoaNegotiationError.InvalidProtocolResponseLength count))
  else
    let protocol := byte_to_Z b0 + 256 * byte_to_Z b1 in
    if protocol =? 0 then (history, Err AoaNegotiationError.UnsupportedProtocol)
    else
      let (history, sent) := send_identification history (AccessoryIdentity.indexed_fields identity) in
      let? _ := sent keeping history in
      let (history, reply) := control "accessory start" history
        (Request.Write AOA_CONTROL_WRITE_TYPE AOA_START_ACCESSORY 0 0 [] AOA_CONTROL_TIMEOUT) in
      let? (count, _, _) := reply keeping history in
      if negb (count =? 0) then (history, Err (AoaNegotiationError.UnexpectedStartResponse count))
      else (history, Ok (AoaProtocolVersion.mk protocol)).
End Negotiation.

Definition is_aoa_app_accessory (vendor_id product_id : Z) : bool :=
  (vendor_id =? AOA_GOOGLE_VENDOR_ID) &&
  ((product_id =? AOA_ACCESSORY_PRODUCT_ID) || (product_id =? AOA_ACCESSORY_ADB_PRODUCT_ID) ||
   (product_id =? AOA_ACCESSORY_AUDIO_PRODUCT_ID) ||
   (product_id =? AOA_ACCESSORY_AUDIO_ADB_PRODUCT_ID)).

(** ** The identification strings *)

(** What the device's six fields may hold: at most 255 bytes, no NUL. *)
Definition field_ok (value : list byte) : Prop := zlen value <= 255 /\ x00 ∉ value.

Lemma contains_nul_false l : contains_nul l = false <-> x00 ∉ l.
Proof.
  unfold contains_nul. rewrite <-not_true_iff_false, existsb_exists. split.
  - intros H Hin. apply H. exists x00. rewrite <-list_elem_of_In. by rewrite bool_decide_eq_true.
  - intros H (b & Hb & ->%bool_decide_eq_true). apply H. by apply list_elem_of_In.
Qed.

Lemma validate_identification_iff field value required :
  validate_identification field value required = Ok tt <->
  field_ok value /\ (required = true -> value <> []).
Proof.
  unfold validate_identification, field_ok, AOA_MAX_IDENTIFICATION_BYTES.
  rewrite <-contains_nul_false, Z.gtb_ltb.
  destruct (required && _) eqn:Hr.
  - apply andb_true_iff in Hr as [-> ->%bool_decide_eq_true]. naive_solver.
  - destruct (contains_nul value); [naive_solver|].
    unfold saturating_add, u_max, usize_bits.
    destruct (Z.ltb_spec 256 (Z.min (zlen value + 1) (2 ^ 64 - 1))); split; try done; try lia.
    intros _. split; [lia|]. intros -> ->. by rewrite bool_decide_eq_true_2 in Hr.
Qed.

Lemma validate_all_iff l :
  AccessoryIdentity.validate_all l = Ok tt <->
  Forall (fun '(_, value, required) => field_ok value /\ (required = true -> value <> [])) l.
Proof.
  induction l as [|[[f x] r] l IH]; cbn [AccessoryIdentity.validate_all]; [by rewrite Forall_nil|].
  rewrite Forall_cons, <-IH, <-(validate_identification_iff f).
  destruct (validate_identification f x r) as [[]| |]; cbn [obind]; naive_solver.
Qed.

(** An identity is built exactly from six strings of at most 255 bytes without a NUL, of which
    the manufacturer and the model are not empty, so that every string with its terminator fits the
    256 bytes the accessory protocol allows; it then holds the strings as given. *)
Theorem identity_is_valid_exactly m n d v u s i :
  AccessoryIdentity.new m n d v u s = Ok i <->
  i = AccessoryIdentity.mk m n d v u s /\
  Forall field_ok [m; n; d; v; u; s] /\ m <> [] /\ n <> [].
Proof.
  unfold AccessoryIdentity.new. cbv zeta.
  set (i' := AccessoryIdentity.mk m n d v u s).
  pose proof (validate_all_iff (AccessoryIdentity.fields i')) as Hall.
  assert (Hf : Forall (fun '(_, value, required) => field_ok value /\ (required = true -> value <> []))
      (AccessoryIdentity.fields i') <-> Forall field_ok [m; n; d; v; u; s] /\ m <> [] /\ n <> []).
  { unfold AccessoryIdentity.fields, i'. cbn [AccessoryIdentity.manufacturer
      AccessoryIdentity.model AccessoryIdentity.description AccessoryIdentity.version
      AccessoryIdentity.uri AccessoryIdentity.serial].
    rewrite !Forall_cons, !Forall_nil. intuition discriminate. }
  rewrite Hf in Hall. clear Hf.
  destruct (AccessoryIdentity.validate_all _) as [[]|e|f]; cbn [obind]; split.
  - intros [= <-]. split; [done|]. by apply Hall.
  - by intros [-> _].
  - done.
  - intros [_ H]. by apply Hall in H.
  - done.
  - intros [_ H]. by apply Hall in H.
Qed.

Lemma returns_ladoflow description version serial : returns (AccessoryIdentity.ladoflow description version serial).
Proof.
  unfold AccessoryIdentity.ladoflow, AccessoryIdentity.new. apply returns_obind; [|done].
  induction (AccessoryIdentity.fields _) as [|[[field value] required] l IH]; cbn [AccessoryIdentity.validate_all]; [done|].
  apply returns_obind; [|done]. unfold validate_identification. by repeat case_match.
Qed.

Lemma returns_send_identification {E} (device : list Request.t -> Request.t -> Reply.t E) l h :
  returns (snd (send_identification device h l)).
Proof.
  revert h. induction l as [|[[index field] value] l IH]; intros h; cbn [send_identification]; [done|].
  unfold control. destruct (device _ _) as [count b0 b1|source]; cbn [otry]; [|done]. by destruct (negb _).
Qed.
Lemma returns_negotiate_accessory_mode {E} (device : list Request.t -> Request.t -> Reply.t E) identity :
  returns (snd (negotiate_accessory_mode device identity)).
Proof.
  unfold negotiate_accessory_mode, control. destruct (device [] _) as [count b0 b1|source]; cbn [otry]; [|done].
  destruct (negb (count =? 2)); [done|]. cbv zeta. destruct (_ =? 0); [done|].
  pose proof (returns_send_identification device (AccessoryIdentity.indexed_fields identity)
    ([] ++ [Request.Read AOA_CONTROL_READ_TYPE AOA_GET_PROTOCOL 0 0 2 AOA_CONTROL_TIMEOUT])) as Hs.
  destruct (send_identification device _ _) as [history [u|e|f]]; cbn in *; [|done..].
  destruct (device history _) as [count' c0 c1|source]; cbn; [|done]. by destruct (negb _).
Qed.

(** ** The request sequence *)

(** The requests of a complete negotiation, in order. *)
Definition query_request : Request.t :=
  Request.Read AOA_CONTROL_READ_TYPE AOA_GET_PROTOCOL 0 0 2 AOA_CONTROL_TIMEOUT.
Definition ident_request (f : Z * string * list byte) : Request.t :=
  let '(index, _, value) := f in
  Request.Write AOA_CONTROL_WRITE_TYPE AOA_SEND_IDENTIFICATION 0 index (value ++ [x00])
    AOA_CONTROL_TIMEOUT.
Definition start_request : Request.t :=
  Request.Write AOA_CONTROL_WRITE_TYPE AOA_START_ACCESSORY 0 0 [] AOA_CONTROL_TIMEOUT.
Definition full_script (identity : AccessoryIdentity.t) : list Request.t :=
  query_request :: map ident_request (AccessoryIdentity.indexed_fields identity) ++ [start_request].

Section Script.
Context {E : Type}.
Implicit Types (device : list Request.t -> Request.t -> Reply.t E).

(** The reply a step needs to go on. *)
Definition good_reply (request : Request.t) (reply : Reply.t E) : Prop :=
  match request, reply with
  | Request.Read _ _ _ _ _ _, Reply.Transferred count b0 b1 =>
      count = 2 /\ byte_to_Z b0 + 256 * byte_to_Z b1 <> 0
  | Request.Write _ _ _ _ buffer _, Reply.Transferred count _ _ => count = zlen buffer
  | _, Reply.Failed _ => False
  end.

(** Every request, made after those before it, gets a good reply. *)
Fixpoint answered device (history requests : list Request.t) : Prop :=
  match requests with
  | [] => True
  | request :: rest =>
    good_reply request (device history request) /\ answered device (history ++ [request]) rest
  end.

Lemma answered_app device h a b :
  answered device h (a ++ b) <-> answered device h a /\ answered device (h ++ a) b.
Proof.
  revert h. induction a as [|r a IH]; intros h; cbn [app answered].
  - rewrite app_nil_r. tauto.
  - rewrite IH, <-(assoc_L (++)). tauto.
Qed.

(** The sequence [script] stops at its first request without a good reply. *)
Definition stops_at device (script history : list Request.t) : Prop :=
  exists before request after, script = before ++ request :: after /\
    history = before ++ [request] /\ answered device [] before /\
    ~ good_reply request (device before request).

Lemma send_identification_ok device l : forall h,
  answered device [] h ->
  let '(h', r) := send_identification device h l in
  match r with
  | Ok _ => h' = h ++ map ident_request l /\ answered device [] h'
  | Err _ => forall tl, stops_at device (h ++ map ident_request l ++ tl) h'
  | Fault _ => False
  end.
Proof.
  induction l as [|[[index field] value] l IH]; intros h Hh; cbn [send_identification].
  { cbn. by rewrite app_nil_r. }
  unfold control. set (request := Request.Write _ _ _ _ _ _).
  assert (Hreq : ident_request (index, field, value) = request) by done.
  assert (Hbad : ~ good_reply request (device h request) -> forall tl,
    stops_at device (h ++ map ident_request ((index, field, value) :: l) ++ tl) (h ++ [request]))
    by (intros Hb tl; exists h, request, (map ident_request l ++ tl); by split_and!).
  destruct (device h request) as [count b0 b1|e] eqn:Hd; cbn [otry].
  2:{ apply Hbad. cbn. tauto. }
  destruct (Z.eqb_spec count (zlen (value ++ [x00]))) as [Hc|Hc]; cbn [negb].
  2:{ apply Hbad. cbn. done. }
  specialize (IH (h ++ [request])).
  assert (Hh1 : answered device [] (h ++ [request])).
  { apply answered_app. split; [done|]. cbn. by rewrite Hd. }
  specialize (IH Hh1). destruct (send_identification device (h ++ [request]) l) as [h' r].
  cbn [map]. rewrite Hreq. rewrite <-(assoc_L (++)) in IH. destruct r as [u|e|f]; [done| |done].
  intros tl. specialize (IH tl). by rewrite <-(assoc_L (++)) in IH.
Qed.

(** Against any device, accessory negotiation makes exactly the prescribed requests in order
    (the protocol query, the six identification strings with their terminators at indices zero to
    five, the start request) and stops at the first one whose reply is a failure, a short or
    over-long count or version zero; it reports success, with the device's little-endian version,
    exactly when every request of the sequence was answered as prescribed. *)
Theorem aoa_negotiation_is_exact device identity :
  let '(history, result) := negotiate_accessory_mode device identity in
  match result with
  | Ok version => history = full_script identity /\ answered device [] history /\
      exists b0 b1, device [] query_request = Reply.Transferred 2 b0 b1 /\
        AoaProtocolVersion.get version = byte_to_Z b0 + 256 * byte_to_Z b1 /\
        0 < AoaProtocolVersion.get version < 2 ^ 16
  | Err _ => stops_at device (full_script identity) history
  | Fault _ => False
  end.
Proof.
  unfold negotiate_accessory_mode. unfold control at 1. cbn [app].
  fold query_request. unfold full_script. set (idents := AccessoryIdentity.indexed_fields identity).
  clearbody idents.
  assert (Hbad : ~ good_reply query_request (device [] query_request) -> stops_at device
    (query_request :: map ident_request idents ++ [start_request]) [query_request])
    by (intros Hb; exists [], query_request; eexists; by split_and!).
  destruct (device [] query_request) as [count b0 b1|e] eqn:Hq; cbn [otry].
  2:{ apply Hbad. cbn. tauto. }
  destruct (Z.eqb_spec count 2) as [->|Hc]; cbn [negb].
  2:{ apply Hbad. cbn. tauto. }
  destruct (Z.eqb_spec (byte_to_Z b0 + 256 * byte_to_Z b1) 0) as [Hz|Hz].
  { apply Hbad. cbn. tauto. }
  assert (H1 : answered device [] [query_request]) by (cbn; by rewrite Hq).
  pose proof (send_identification_ok device idents [query_request] H1) as Hs.
  destruct (send_identification device [query_request] idents) as [h r].
  destruct r as [u|e|f]; cbn [otry]; [|apply (Hs [start_request])|done].
  destruct Hs as [-> Ha]. unfold control. fold start_request. set (h := [query_request] ++ _) in *.
  assert (Hbad2 : ~ good_reply start_request (device h start_request) -> stops_at device
    (query_request :: map ident_request idents ++ [start_request]) (h ++ [start_request]))
    by (intros Hb; exists h, start_request, []; by split_and!).
  destruct (device h start_request) as [n c0 c1|e] eqn:Hd; cbn [otry].
  2:{ apply Hbad2. cbn. tauto. }
  destruct (Z.eqb_spec n 0) as [->|Hn]; cbn [negb].
  2:{ apply Hbad2. cbn. tauto. }
  split; [done|]. split.
  { apply answered_app. split; [done|]. cbn [app answered]. by rewrite Hd. }
  exists b0, b1. cbn [AoaProtocolVersion.get].
  pose proof (byte_to_Z_range b0). pose proof (byte_to_Z_range b1). split_and!; (done || lia).
Qed.
End Script.

Module AoaExamples.
Definition identity : AccessoryIdentity.t :=
  AccessoryIdentity.mk (str "LadoFlow") (str "LadoFlow Host") [] [] (str "uri") (str "1").

(** A device that speaks version 2 and takes every string, and one that
    stops taking strings at the third. *)
Definition willing (history : list Request.t) (request : Request.t) : Reply.t string :=
  match request with
  | Request.Read _ _ _ _ _ _ => Reply.Transferred 2 x02 x00
  | Request.Write _ _ _ _ buffer _ => Reply.Transferred (zlen buffer) x00 x00
  end.
Definition stalling (history : list Request.t) (request : Request.t) : Reply.t string :=
  if (length history <? 3)%nat then willing history request else Reply.Failed "stall".

Example willing_device_switches :
  snd (negotiate_accessory_mode willing identity) = Ok (AoaProtocolVersion.mk 2).
Proof. vm_compute. reflexivity. Qed.
Example stalling_device_stops :
  let '(history, result) := negotiate_accessory_mode stalling identity in
  length history = 4%nat /\ result = Err (AoaNegotiationError.Control "description" "stall").
Proof. vm_compute. by split. Qed.
End AoaExamples.
