(* ===== verification/HostMode.v ===== *)
(** * The host's choice of display mode

    Models the mode and bitrate selection of
    [apps/desktop/src-tauri/src/host_protocol.rs]: from the user's request and
    the negotiated limits to the configuration announced to the display. Error
    texts are the code's. *)
From stdpp Require Import pretty.
From S2P Require Export CoreNegotiation ProtoDisplay.
Local Open Scope string_scope.
Local Open Scope list_scope.
Local Open Scope Z_scope.

Definition NEGOTIATED_LANDSCAPE_MODES : list (Z * Z) := [
  (2732, 2048); (2560, 1600); (2560, 1440); (2048, 1536); (1920, 1200); (1920, 1080);
  (1600, 1200); (1366, 768); (1280, 800); (1280, 720); (1024, 768); (1024, 640);
  (960, 600); (960, 540); (800, 600); (800, 500); (640, 480); (640, 400) ].

Module HostProtocolConfig.
Record t : Type := mk {
  width : Z;
  height : Z;
  refresh_hz : Z;
}.
#[global] Instance t_eq_dec : EqDecision t.
Proof. solve_decision. Defined.

Definition new (width height refresh_hz : Z) : outcome string t :=
  if (width =? 0) || (height =? 0) then Err "host protocol dimensions must be non-zero"
  else if negb ((refresh_hz =? 30) || (refresh_hz =? 60))
  then Err "host protocol refresh rate must be 30 or 60 Hz"
  else Ok (mk width height refresh_hz).

Record wf (c : t) : Prop := {
  wf_width : 0 < width c < 2 ^ 16;
  wf_height : 0 < height c < 2 ^ 16;
  wf_refresh : refresh_hz c = 30 \/ refresh_hz c = 60;
}.
End HostProtocolConfig.

(** The closure [aspect_delta], in 64-bit arithmetic. *)
Definition aspect_delta {E} (requested_width requested_height : Z) (mode : Z * Z) : outcome E Z :=
  let! a := chk 64 (fst mode * requested_height) in
  let! b := chk 64 (requested_width * snd mode) in
  Ok (abs_diff a b).

Definition compare_mode_fit {E} (left right : Z * Z) (requested_width requested_height : Z)
  : outcome E comparison :=
  let! left_delta := aspect_delta requested_width requested_height left in
  let! right_delta := aspect_delta requested_width requested_height right in
  let! a := chk 64 (left_delta * snd right) in
  let! b := chk 64 (right_delta * snd left) in
  match a ?= b with
  | Eq =>
    let! left_area := chk 64 (fst left * snd left) in
    let! right_area := chk 64 (fst right * snd right) in
    Ok (right_area ?= left_area)
  | c => Ok c
  end.

(** [Iterator::min_by]: the first of the smallest elements. *)
Fixpoint min_by {A E} (compare : A -> A -> outcome E comparison) (best : A) (l : list A)
  : outcome E A :=
  match l with
  | [] => Ok best
  | x :: l =>
    let! c := compare best x in
    match c with
    | Gt => min_by compare x l
    | _ => min_by compare best l
    end
  end.

(** The test of the closure given to [filter]. *)
Definition mode_fits (requested_width requested_height max_width max_height : Z) (mode : Z * Z) : bool :=
  let '(width, height) := mode in
  Bool.eqb (width >=? height) (requested_width >=? requested_height) &&
  (width <=? requested_width) && (height <=? requested_height) &&
  (width <=? max_width) && (height <=? max_height).

Definition select_bounded_display_dimensions
  (requested_width requested_height max_width max_height : Z) : outcome string (Z * Z) :=
  if (requested_width <=? max_width) && (requested_height <=? max_height)
  then Ok (requested_width, requested_height)
  else
    match List.filter (mode_fits requested_width requested_height max_width max_height)
            NEGOTIATED_LANDSCAPE_MODES with
    | [] =>
      Err ("display maximum " +:+ pretty max_width +:+ "x" +:+ pretty max_height +:+
           " cannot fit a supported mode for the requested " +:+ pretty requested_width +:+ "x" +:+
           pretty requested_height +:+ " session")
    | first :: rest =>
      min_by (fun left right => compare_mode_fit left right requested_width requested_height)
        first rest
    end.

Definition target_h264_bitrate (width height refresh_millihz : Z) : Z :=
  let pixels_per_second :=
    saturating_mul 64 (saturating_mul 64 width height) refresh_millihz / 1000 in
  let estimate_kbps := saturating_mul 64 pixels_per_second 12 / 100000 in
  clamp (default (u_max 32) (checked 32 estimate_kbps)) 4000 40000.

Definition select_display_config (requested : HostProtocolConfig.t) (agreement : NegotiatedSession.t)
  : outcome string DisplayConfig.t :=
  let capabilities := NegotiatedSession.capabilities agreement in
  if Z.land (NegotiatedCapabilities.codec_bits capabilities) (CodecSet.bits CodecSet.H264) =? 0
  then Err "the display did not negotiate H.264 support" else
  let! (width, height) := select_bounded_display_dimensions
    (HostProtocolConfig.width requested) (HostProtocolConfig.height requested)
    (NegotiatedCapabilities.max_width capabilities)
    (NegotiatedCapabilities.max_height capabilities) in
  let! requested_refresh := chk 32 (HostProtocolConfig.refresh_hz requested * 1000) in
  let! refresh_millihz :=
    if NegotiatedCapabilities.max_refresh_millihz capabilities >=? requested_refresh
    then Ok requested_refresh
    else if (HostProtocolConfig.refresh_hz requested =? 60) &&
            (NegotiatedCapabilities.max_refresh_millihz capabilities >=? 30000)
    then Ok 30000
    else Err ("display maximum refresh " +:+
              pretty (NegotiatedCapabilities.max_refresh_millihz capabilities) +:+
              " mHz cannot satisfy a 30 Hz session") in
  let bitrate_kbps := Z.min (target_h264_bitrate width height refresh_millihz)
    (NegotiatedCapabilities.max_bitrate_kbps capabilities) in
  map_err ProtocolError.to_string
    (DisplayConfig.new width height refresh_millihz bitrate_kbps VideoCodec.H264 CodecProfile.H264Main).

(** ** Choosing the best mode *)

(** [a] fits the requested aspect at least as well as [b]: its relative
    distortion is smaller, or equal with at least the area. *)
Definition distortion (rw rh : Z) (mode : Z * Z) : Z := Z.abs (fst mode * rh - rw * snd mode).
Definition better (rw rh : Z) (a b : Z * Z) : Prop :=
  distortion rw rh a * snd b < distortion rw rh b * snd a \/
  (distortion rw rh a * snd b = distortion rw rh b * snd a /\ fst b * snd b <= fst a * snd a).

Definition small (mode : Z * Z) : Prop := 0 < fst mode < 2 ^ 12 /\ 0 < snd mode < 2 ^ 12.

Lemma modes_small : Forall small NEGOTIATED_LANDSCAPE_MODES.
Proof. repeat constructor. Qed.

Lemma distortion_bound rw rh m :
  0 < rw < 2 ^ 16 -> 0 < rh < 2 ^ 16 -> small m -> 0 <= distortion rw rh m < 2 ^ 28.
Proof.
  intros Hw Hh [H1 H2]. unfold distortion. destruct m as [x y]. cbn [fst snd] in *.
  assert (0 <= x * rh < 2 ^ 28) by nia. assert (0 <= rw * y < 2 ^ 28) by nia. lia.
Qed.

Lemma compare_mode_fit_spec {E} rw rh a b :
  0 < rw < 2 ^ 16 -> 0 < rh < 2 ^ 16 -> small a -> small b ->
  exists c, compare_mode_fit (E:=E) a b rw rh = Ok c /\
    (c <> Gt -> better rw rh a b) /\ (c = Gt -> better rw rh b a).
Proof.
  intros Hw Hh Ha Hb. unfold compare_mode_fit, aspect_delta.
  pose proof (distortion_bound rw rh a Hw Hh Ha) as Hda.
  pose proof (distortion_bound rw rh b Hw Hh Hb) as Hdb.
  destruct Ha as [Ha1 Ha2], Hb as [Hb1 Hb2]. destruct a as [aw ah], b as [bw bh].
  unfold better. cbn [fst snd] in *.
  rewrite (chk_ok 64 (aw * rh)) by (unfold_int; nia). cbn [obind].
  rewrite (chk_ok 64 (rw * ah)) by (unfold_int; nia). cbn [obind].
  rewrite (chk_ok 64 (bw * rh)) by (unfold_int; nia). cbn [obind].
  rewrite (chk_ok 64 (rw * bh)) by (unfold_int; nia). cbn [obind].
  change (abs_diff (aw * rh) (rw * ah)) with (distortion rw rh (aw, ah)).
  change (abs_diff (bw * rh) (rw * bh)) with (distortion rw rh (bw, bh)).
  set (da := distortion rw rh (aw, ah)) in *. set (db := distortion rw rh (bw, bh)) in *.
  clearbody da db.
  rewrite (chk_ok 64 (da * bh)) by (unfold_int; nia). cbn [obind].
  rewrite (chk_ok 64 (db * ah)) by (unfold_int; nia). cbn [obind].
  rewrite (chk_ok 64 (aw * ah)) by (unfold_int; nia).
  rewrite (chk_ok 64 (bw * bh)) by (unfold_int; nia). cbn [obind].
  destruct (Z.compare_spec (da * bh) (db * ah)).
  - destruct (Z.compare_spec (bw * bh) (aw * ah)); eexists; (split; [done|]); split; intros; try done; lia.
  - eexists. split; [done|]. split; intros; [lia|done].
  - eexists. split; [done|]. split; intros; [done|lia].
Qed.

Lemma better_refl rw rh a : better rw rh a a.
Proof. right. lia. Qed.

Lemma better_trans rw rh a b c :
  0 < snd a -> 0 < snd b -> 0 < snd c ->
  better rw rh a b -> better rw rh b c -> better rw rh a c.
Proof.
  unfold better. destruct a as [aw ah], b as [bw bh], c as [cw ch]. cbn [fst snd].
  generalize (distortion rw rh (aw, ah)) (distortion rw rh (bw, bh)) (distortion rw rh (cw, ch)).
  intros da db dc Ha Hb Hc H1 H2.
  assert (Hle1 : da * bh <= db * ah) by lia. assert (Hle2 : db * ch <= dc * bh) by lia.
  assert (E1 : da * bh * ch <= db * ah * ch) by nia.
  assert (E2 : db * ch * ah <= dc * bh * ah) by nia.
  destruct (Z.lt_trichotomy (da * ch) (dc * ah)) as [Hlt|[Heq|Hgt]]; [by left| |exfalso; nia].
  right. split; [done|].
  destruct H1 as [H1|[H1 A1]]; [exfalso; assert (da * bh * ch < db * ah * ch) by nia; nia|].
  destruct H2 as [H2|[H2 A2]]; [exfalso; assert (db * ch * ah < dc * bh * ah) by nia; nia|]. lia.
Qed.

Lemma min_by_best {E} rw rh l : forall best,
  0 < rw < 2 ^ 16 -> 0 < rh < 2 ^ 16 -> small best -> Forall small l ->
  exists m, min_by (E:=E) (fun a b => compare_mode_fit a b rw rh) best l = Ok m /\
    m ∈ best :: l /\ Forall (better rw rh m) (best :: l).
Proof.
  induction l as [|x l IH]; intros best Hw Hh Hb Hl; cbn [min_by].
  { exists best. split; [done|]. split; [left|]. constructor; [apply better_refl|constructor]. }
  apply Forall_cons_1 in Hl as [Hx Hl].
  destruct (compare_mode_fit_spec (E:=E) rw rh best x Hw Hh Hb Hx) as (c & -> & Hle & Hgt).
  cbn [obind].
  assert (Hnext : exists next other, (next = best /\ other = x \/ next = x /\ other = best) /\
    better rw rh next other /\ small next /\ small other /\
    match c with
    | Gt => min_by (E:=E) (fun a b => compare_mode_fit a b rw rh) x l
    | _ => min_by (E:=E) (fun a b => compare_mode_fit a b rw rh) best l
    end = min_by (E:=E) (fun a b => compare_mode_fit a b rw rh) next l).
  { destruct c.
    1, 2: exists best, x; split_and!; [by left|by apply Hle|done..].
    exists x, best. split_and!; [by right|by apply Hgt|done..]. }
  destruct Hnext as (next & other & Hno & Hbet & Hn & Ho & ->).
  destruct (IH next Hw Hh Hn Hl) as (m & Hm & Hin & Hall). exists m. split; [done|].
  assert (Hms : small m).
  { apply elem_of_cons in Hin as [->|Hin]; [done|]. rewrite Forall_forall in Hl. by apply Hl. }
  apply Forall_cons_1 in Hall as [Hmn Hall].
  assert (Hmo : better rw rh m other)
    by (apply (better_trans rw rh m next other); [apply Hms|apply Hn|apply Ho|done..]).
  split.
  - apply elem_of_cons in Hin as [->|Hin].
    + destruct Hno as [[-> ->]|[-> ->]]; [left|right; left].
    + right. by right.
  - destruct Hno as [[-> ->]|[-> ->]]; constructor; [done|by constructor|done|by constructor].
Qed.

(** The ladder's modes a request may fall back to. *)
Definition candidate (rw rh mw mh : Z) (m : Z * Z) : Prop :=
  m ∈ NEGOTIATED_LANDSCAPE_MODES /\ (fst m >= snd m <-> rw >= rh) /\
  fst m <= rw /\ snd m <= rh /\ fst m <= mw /\ snd m <= mh.

Lemma mode_fits_iff rw rh mw mh m :
  mode_fits rw rh mw mh m = true <->
  (fst m >= snd m <-> rw >= rh) /\ fst m <= rw /\ snd m <= rh /\ fst m <= mw /\ snd m <= mh.
Proof.
  destruct m as [w h]. unfold mode_fits. cbn [fst snd]. rewrite !Z.geb_leb.
  rewrite !andb_true_iff, !Z.leb_le, eqb_true_iff.
  destruct (Z.leb_spec h w), (Z.leb_spec rh rw); split; intros; split_and?; try lia; try done.
Qed.

Lemma candidates_list rw rh mw mh m :
  m ∈ List.filter (mode_fits rw rh mw mh) NEGOTIATED_LANDSCAPE_MODES <-> candidate rw rh mw mh m.
Proof.
  unfold candidate. rewrite <-mode_fits_iff, list_elem_of_In, filter_In, list_elem_of_In. done.
Qed.

(** The dimensions offered to a display are chosen as documented: a request within the
    display's limits is kept; otherwise one whole mode of the ladder is chosen that has the
    request's orientation and exceeds neither the request nor the limits in either dimension, and
    among those one of least relative aspect distortion, of greatest area among equals; the request
    is refused exactly when no ladder mode qualifies, and no comparison overflows. *)
Theorem mode_selection_is_optimal rw rh mw mh
  (Hrw : 0 < rw < 2 ^ 16) (Hrh : 0 < rh < 2 ^ 16) :
  match select_bounded_display_dimensions rw rh mw mh with
  | Ok m => (rw <= mw /\ rh <= mh /\ m = (rw, rh)) \/
      (~ (rw <= mw /\ rh <= mh) /\ candidate rw rh mw mh m /\
       forall m', candidate rw rh mw mh m' -> better rw rh m m')
  | Err _ => ~ (rw <= mw /\ rh <= mh) /\ forall m, ~ candidate rw rh mw mh m
  | Fault _ => False
  end.
Proof.
  unfold select_bounded_display_dimensions.
  destruct (Z.leb_spec rw mw), (Z.leb_spec rh mh); cbn [andb]; [by left| | |];
    (assert (Hout : ~ (rw <= mw /\ rh <= mh)) by lia);
    pose proof (candidates_list rw rh mw mh) as Hcand;
    (assert (Hsmall : Forall small (List.filter (mode_fits rw rh mw mh) NEGOTIATED_LANDSCAPE_MODES))
      by (rewrite Forall_forall; intros m Hm; apply Hcand in Hm as [Hm _];
          revert m Hm; rewrite <-Forall_forall; exact modes_small));
    (destruct (List.filter _ _) as [|first rest];
     [split; [done|]; intros m Hm; by apply Hcand, not_elem_of_nil in Hm|]);
    apply Forall_cons_1 in Hsmall as [Hf Hr];
    destruct (min_by_best (E:=string) rw rh rest first Hrw Hrh Hf Hr) as (m & -> & Hin & Hall);
    right; (split; [done|]); (split; [by apply Hcand|]);
    intros m' Hm'; rewrite Forall_forall in Hall; by apply Hall, Hcand.
Qed.

Lemma target_bitrate_bounds w h r : 4000 <= target_h264_bitrate w h r <= 40000.
Proof. unfold target_h264_bitrate. apply clamp_bounds. lia. Qed.

(** What selection returns, as a lemma for its clients. *)
Lemma select_spec rw rh mw mh :
  0 < rw < 2 ^ 16 -> 0 < rh < 2 ^ 16 -> 0 < mw -> 0 < mh ->
  match select_bounded_display_dimensions rw rh mw mh with
  | Ok m => 0 < fst m <= Z.min rw mw /\ 0 < snd m <= Z.min rh mh
  | Err _ => ~ (rw <= mw /\ rh <= mh) /\ forall m, ~ candidate rw rh mw mh m
  | Fault _ => False
  end.
Proof.
  intros Hrw Hrh Hmw Hmh. unfold select_bounded_display_dimensions.
  destruct (Z.leb_spec rw mw), (Z.leb_spec rh mh); cbn [andb]; [cbn; lia|..];
    pose proof (candidates_list rw rh mw mh) as Hcand;
    (assert (Hsmall : Forall small (List.filter (mode_fits rw rh mw mh) NEGOTIATED_LANDSCAPE_MODES))
      by (rewrite Forall_forall; intros m Hm; apply Hcand in Hm as [Hm _];
          revert m Hm; rewrite <-Forall_forall; exact modes_small));
    (destruct (List.filter _ _) as [|first rest];
     [split; [lia|]; intros m Hm; by apply Hcand, not_elem_of_nil in Hm|]);
    pose proof Hsmall as Hall; apply Forall_cons_1 in Hsmall as [Hf Hr];
    destruct (min_by_best (E:=string) rw rh rest first Hrw Hrh Hf Hr) as (m & -> & Hin & _);
    rewrite Forall_forall in Hall; specialize (Hall m Hin) as [Hm1 Hm2];
    apply Hcand in Hin as (_ & _ & Hb); lia.
Qed.

Lemma select_display_config_spec c a
  (Hc : HostProtocolConfig.wf c) (Ha : NegotiatedCapabilities.wf (NegotiatedSession.capabilities a)) :
  let caps := NegotiatedSession.capabilities a in
  match select_display_config c a with
  | Ok d => DisplayConfig.wf d /\
      DisplayConfig.width d <= Z.min (HostProtocolConfig.width c) (NegotiatedCapabilities.max_width caps) /\
      DisplayConfig.height d <= Z.min (HostProtocolConfig.height c) (NegotiatedCapabilities.max_height caps) /\
      DisplayConfig.refresh_millihz d =
        (if (HostProtocolConfig.refresh_hz c =? 60) &&
            (60000 <=? NegotiatedCapabilities.max_refresh_millihz caps) then 60000 else 30000) /\
      DisplayConfig.refresh_millihz d <= NegotiatedCapabilities.max_refresh_millihz caps /\
      DisplayConfig.bitrate_kbps d <= Z.min 40000 (NegotiatedCapabilities.max_bitrate_kbps caps) /\
      DisplayConfig.codec d = VideoCodec.H264 /\
      Z.land (NegotiatedCapabilities.codec_bits caps) (CodecSet.bits CodecSet.H264) <> 0
  | Err _ =>
      Z.land (NegotiatedCapabilities.codec_bits caps) (CodecSet.bits CodecSet.H264) = 0 \/
      (forall m, ~ candidate (HostProtocolConfig.width c) (HostProtocolConfig.height c)
         (NegotiatedCapabilities.max_width caps) (NegotiatedCapabilities.max_height caps) m) \/
      NegotiatedCapabilities.max_refresh_millihz caps < 30000
  | Fault _ => False
  end.
Proof.
  cbv zeta. destruct Hc as [Hw Hh Hr]. destruct Ha as [Aw Ah Ar Ab _ _ _].
  unfold select_display_config. set (caps := NegotiatedSession.capabilities a) in *.
  destruct (Z.eqb_spec (Z.land (NegotiatedCapabilities.codec_bits caps) (CodecSet.bits CodecSet.H264)) 0)
    as [|Hcodec]; [by left|].
  pose proof (select_spec _ _ (NegotiatedCapabilities.max_width caps)
    (NegotiatedCapabilities.max_height caps) Hw Hh ltac:(lia) ltac:(lia)) as Hs.
  destruct (select_bounded_display_dimensions _ _ _ _) as [[w h]|e|f]; cbn [obind fst snd] in *;
    [|right; left; apply Hs|done].
  rewrite chk_ok by (unfold_int; lia). cbn [obind]. rewrite !Z.geb_leb.
  set (mr := NegotiatedCapabilities.max_refresh_millihz caps) in *.
  set (rate := if (HostProtocolConfig.refresh_hz c =? 60) && (60000 <=? mr) then 60000 else 30000).
  assert (Hrate : (if HostProtocolConfig.refresh_hz c * 1000 <=? mr
      then Ok (HostProtocolConfig.refresh_hz c * 1000)
      else if (HostProtocolConfig.refresh_hz c =? 60) && (30000 <=? mr) then Ok 30000
      else Err ("display maximum refresh " +:+ pretty mr +:+ " mHz cannot satisfy a 30 Hz session"))
    = Ok rate /\ rate <= mr \/ mr < 30000).
  { unfold rate. destruct Hr as [-> | ->]; cbn [Z.eqb Pos.eqb andb Z.mul].
    - change (30 * 1000) with 30000. destruct (Z.leb_spec 30000 mr); [by left|right; lia].
    - change (60 * 1000) with 60000.
      destruct (Z.leb_spec 60000 mr), (Z.leb_spec 30000 mr); (by left) || (right; lia). }
  pose proof (target_bitrate_bounds w h rate) as Hbr.
  assert (Hrr : 30000 <= rate <= 60000) by (unfold rate; destruct (_ && _); lia).
  destruct Hrate as [[-> Hle]|Hlow]; cbn [obind].
  - assert (Hd : DisplayConfig.new w h rate
      (Z.min (target_h264_bitrate w h rate) (NegotiatedCapabilities.max_bitrate_kbps caps))
      VideoCodec.H264 CodecProfile.H264Main = Ok (DisplayConfig.mk w h rate
      (Z.min (target_h264_bitrate w h rate) (NegotiatedCapabilities.max_bitrate_kbps caps))
      VideoCodec.H264 CodecProfile.H264Main)).
    { apply DisplayConfig_new_iff; try lia. split_and!; (done || lia). }
    rewrite Hd. cbn [map_err]. cbn.
    split; [split; cbn; (done || lia)|]. split_and!; (done || lia).
  - destruct (HostProtocolConfig.refresh_hz c * 1000 <=? mr) eqn:H1;
      [apply Z.leb_le in H1; lia|].
    destruct (Z.leb_spec 30000 mr); [lia|]. rewrite andb_false_r. cbn [obind]. by right; right.
Qed.

(** The configuration announced to the display lies within both the request and the negotiated
    agreement and is valid on the wire: positive dimensions no greater than either, sixty hertz
    when both sides allow it and thirty otherwise, a bitrate within the agreement and at most forty
    megabits, H.264 main with H.264 agreed; selection fails only when H.264 was not agreed, no
    ladder mode qualifies, or the display cannot refresh at thirty hertz. *)
Theorem display_config_respects_agreement c a
  (Hc : HostProtocolConfig.wf c) (Ha : NegotiatedCapabilities.wf (NegotiatedSession.capabilities a)) :
  let caps := NegotiatedSession.capabilities a in
  match select_display_config c a with
  | Ok d => DisplayConfig.wf d /\
      DisplayConfig.width d <= Z.min (HostProtocolConfig.width c) (NegotiatedCapabilities.max_width caps) /\
      DisplayConfig.height d <= Z.min (HostProtocolConfig.height c) (NegotiatedCapabilities.max_height caps) /\
      DisplayConfig.refresh_millihz d =
        (if (HostProtocolConfig.refresh_hz c =? 60) &&
            (60000 <=? NegotiatedCapabilities.max_refresh_millihz caps) then 60000 else 30000) /\
      DisplayConfig.refresh_millihz d <= NegotiatedCapabilities.max_refresh_millihz caps /\
      DisplayConfig.bitrate_kbps d <= Z.min 40000 (NegotiatedCapabilities.max_bitrate_kbps caps) /\
      DisplayConfig.codec d = VideoCodec.H264 /\
      Z.land (NegotiatedCapabilities.codec_bits caps) (CodecSet.bits CodecSet.H264) <> 0
  | Err _ =>
      Z.land (NegotiatedCapabilities.codec_bits caps) (CodecSet.bits CodecSet.H264) = 0 \/
      (forall m, ~ candidate (HostProtocolConfig.width c) (HostProtocolConfig.height c)
         (NegotiatedCapabilities.max_width caps) (NegotiatedCapabilities.max_height caps) m) \/
      NegotiatedCapabilities.max_refresh_millihz caps < 30000
  | Fault _ => False
  end.
Proof. exact (select_display_config_spec c a Hc Ha). Qed.

Module HostModeExamples.
(** A 2560x1600 request at 60 Hz, a tablet limited to 2048x1536. *)
Definition request : HostProtocolConfig.t := HostProtocolConfig.mk 2560 1600 60.
Definition tablet : NegotiatedSession.t :=
  NegotiatedSession.mk 1 (NegotiatedCapabilities.mk 2048 1536 60000 20000 1 3 0).

Example tablet_mode : select_bounded_display_dimensions 2560 1600 2048 1536 = Ok (1920, 1200).
Proof. vm_compute. reflexivity. Qed.

(** The ladder holds landscape modes only. *)
Example portrait_needs_exact_support :
  exists e, select_bounded_display_dimensions 1200 1920 1080 1920 = Err e.
Proof. eexists. vm_compute. reflexivity. Qed.

Lemma mode_selection_is_optimal_witness :
  0 < 2560 < 2 ^ 16 /\ exists m, select_bounded_display_dimensions 2560 1600 2048 1536 = Ok m /\
    better 2560 1600 m (2048, 1536).
Proof.
  split; [lia|].
  pose proof (mode_selection_is_optimal 2560 1600 2048 1536 ltac:(lia) ltac:(lia)) as H.
  destruct (select_bounded_display_dimensions 2560 1600 2048 1536) as [m|e|f] eqn:Hs.
  - exists m. split; [reflexivity|]. destruct H as [(H1 & _)|(_ & _ & H)]; [lia|].
    apply H. unfold candidate. cbn [fst snd]. split_and!; try lia.
    apply (bool_decide_unpack _). vm_compute. exact I.
  - vm_compute in Hs. discriminate Hs.
  - destruct H.
Defined.

Lemma display_config_respects_agreement_witness :
  HostProtocolConfig.wf request /\ exists d, select_display_config request tablet = Ok d /\
    DisplayConfig.bitrate_kbps d <= 20000.
Proof.
  assert (Hr : HostProtocolConfig.wf request) by (split; cbn; [lia|lia|by right]).
  assert (Ha : NegotiatedCapabilities.wf (NegotiatedSession.capabilities tablet))
    by (split; cbn; lia).
  split; [exact Hr|].
  pose proof (display_config_respects_agreement request tablet Hr Ha) as H. cbv zeta in H.
  destruct (select_display_config request tablet) as [d|e|f] eqn:Hs.
  - exists d. split; [reflexivity|]. destruct H as (_ & _ & _ & _ & _ & H & _).
    cbn in H. lia.
  - vm_compute in Hs. discriminate Hs.
  - destruct H.
Defined.
End HostModeExamples.
