(* ===== verification/HostHandshake.v ===== *)
(** * The host's handshake

    Models the rest of [apps/desktop/src-tauri/src/host_protocol.rs]: the
    handshake object fed with the display's packets, and the driver that runs
    it over a transport against a deadline and a cancel flag. The driver's
    environment is the transport, which any user of the interface may share
    with others, and the list of what the successive [check_wait] calls see:
    the cancel flag and the clock. An instant is the time since the clock's
    origin, a [Duration]. *)
From stdpp Require Import pretty.
From S2P Require Export CoreSession TransportLoopback TransportStream HostMode.
Local Open Scope string_scope.
Local Open Scope list_scope.
Local Open Scope Z_scope.

Definition HELLO_SEQUENCE : Z := 0.
Definition CAPABILITIES_SEQUENCE : Z := 1.
Definition DISPLAY_CONFIG_SEQUENCE : Z := 2.
Definition FIRST_ACTIVE_SEQUENCE : Z := 3.

Module EstablishedHostSession.
Record t : Type := mk {
  session : Session.t;
  display_config : DisplayConfig.t;
  peer_name : list byte;
  next_sequence : Z;
}.
End EstablishedHostSession.

Definition control_packet {P} `{WirePayload P} (sequence : Z) (payload : P) : outcome string Packet.t :=
  let! frame := map_err ProtocolError.to_string (Frame.from_payload FrameFlags.NONE sequence payload) in
  Ok (Packet.control (Frame.encode frame)).

Module HostHandshake.
Record t : Type := mk {
  config : HostProtocolConfig.t;
  host_hello : Hello.t;
  host_capabilities : Capabilities.t;
  display_hello : option Hello.t;
  display_capabilities : option Capabilities.t;
  highest_display_sequence : option Z;
}.

Definition set_hello (self : t) (hello : Hello.t) : t :=
  mk (config self) (host_hello self) (host_capabilities self) (Some hello)
    (display_capabilities self) (highest_display_sequence self).
Definition set_capabilities (self : t) (capabilities : Capabilities.t) : t :=
  mk (config self) (host_hello self) (host_capabilities self) (display_hello self)
    (Some capabilities) (highest_display_sequence self).
Definition set_highest (self : t) (sequence : Z) : t :=
  mk (config self) (host_hello self) (host_capabilities self) (display_hello self)
    (display_capabilities self) (Some sequence).

Definition with_nonce (config : HostProtocolConfig.t) (nonce : list byte) : outcome string t :=
  let! host_hello := map_err ProtocolError.to_string
    (Hello.new PROTOCOL_VERSION PROTOCOL_VERSION Role.Host nonce (str "LadoFlow desktop")) in
  let! refresh := chk 32 (HostProtocolConfig.refresh_hz config * 1000) in
  let! host_capabilities := map_err ProtocolError.to_string
    (Capabilities.new (HostProtocolConfig.width config) (HostProtocolConfig.height config)
      refresh 40000 CodecSet.H264
      (InputCapabilities.bitor (InputCapabilities.bitor InputCapabilities.POINTER
         InputCapabilities.TOUCH) InputCapabilities.KEYBOARD)
      FeatureFlags.REMOTE_CURSOR) in
  Ok (mk config host_hello host_capabilities None None None).

(** [random] is the answer of the random source. *)
Definition new (random : string + list byte) (config : HostProtocolConfig.t) : outcome string t :=
  match random with
  | inl error => Err ("failed to generate the host session nonce: " +:+ error)
  | inr nonce => with_nonce config nonce
  end.

Definition initial_packets (self : t) : outcome string (Packet.t * Packet.t) :=
  let! hello := control_packet HELLO_SEQUENCE (host_hello self) in
  let! capabilities := control_packet CAPABILITIES_SEQUENCE (host_capabilities self) in
  Ok (hello, capabilities).

Definition establish (self : t) : outcome string EstablishedHostSession.t :=
  let! display_hello := ok_or (display_hello self) "display Hello is missing" in
  let! display_capabilities :=
    ok_or (display_capabilities self) "display Capabilities are missing" in
  let! agreement := map_err NegotiationError.to_string
    (negotiate (host_hello self) (host_capabilities self) display_hello display_capabilities) in
  let! display_config := select_display_config (config self) agreement in
  let (session, started) := Session.start Session.new in
  let! _ := map_err SessionError.to_string started in
  let (session, established) := Session.establish session agreement StreamContinuity.Restart in
  let! _ := map_err SessionError.to_string established in
  let! session :=
    match highest_display_sequence self with
    | Some sequence =>
      let (session, observed) := Session.observe_sequence session sequence in
      let! _ := map_err SessionError.to_string observed in
      Ok session
    | None => Ok session
    end in
  Ok (EstablishedHostSession.mk session display_config
        (Hello.implementation_name display_hello) FIRST_ACTIVE_SEQUENCE).

(** The dispatch on the frame's family. *)
Definition store (self : t) (frame : Frame.t) : t * outcome string unit :=
  match FrameHeader.kind (Frame.header frame) with
  | MessageType.Hello =>
    if bool_decide (display_hello self <> None)
    then (self, Err "display sent Hello more than once") else
    let? hello := map_err ProtocolError.to_string (Frame.decode_payload Hello.t frame) keeping self in
    (set_hello self hello, Ok tt)
  | MessageType.Capabilities =>
    if bool_decide (display_capabilities self <> None)
    then (self, Err "display sent Capabilities more than once") else
    let? capabilities :=
      map_err ProtocolError.to_string (Frame.decode_payload Capabilities.t frame) keeping self in
    (set_capabilities self capabilities, Ok tt)
  | kind =>
    (self, Err ("display sent " +:+ MessageType.debug kind +:+
                " before Hello and Capabilities completed"))
  end.

Definition accept (self : t) (packet : Packet.t)
  : t * outcome string (option EstablishedHostSession.t) :=
  if bool_decide (Packet.channel packet <> Channel.Control)
  then (self, Err "display sent media before LDFL negotiation completed") else
  let packet_len := Packet.len packet in
  let packet_bytes := Packet.payload packet in
  let? decoded := map_err ProtocolError.to_string (decode_prefix packet_bytes) keeping self in
  match decoded with
  | DecodeOutcome.NeedMoreData _ => (self, Err "display sent a partial LDFL control frame")
  | DecodeOutcome.Complete frame consumed =>
    if negb (consumed =? packet_len)
    then (self, Err "display control packet contains trailing LDFL bytes") else
    let sequence := FrameHeader.sequence (Frame.header frame) in
    if match highest_display_sequence self with Some highest => sequence <=? highest | None => false end
    then (self, Err ("display LDFL sequence " +:+ pretty sequence +:+
                     " is not newer than the prior sequence")) else
    let self := set_highest self sequence in
    let (self, stored) := store self frame in
    let? _ := stored keeping self in
    if bool_decide (display_hello self <> None) && bool_decide (display_capabilities self <> None)
    then (self, let! established := establish self in Ok (Some established))
    else (self, Ok None)
  end.
End HostHandshake.

(** ** The driver *)

(** What one [check_wait] sees: the cancel flag and the clock. *)
Module Poll.
Record t : Type := mk {
  cancelled : bool;
  now : Z;
}.
End Poll.

Definition check_wait (poll : Poll.t) (deadline : Z) : outcome string unit :=
  if Poll.cancelled poll then Err "LDFL negotiation was cancelled"
  else if Poll.now poll >=? deadline
  then Err "LDFL negotiation timed out waiting for the display"
  else Ok tt.

Section Driver.
Context {T : Type} `{PacketTransport T}.

(** The loops run as long as there are polls; [OutOfFuel] says that the call
    still waits after the last of them. *)
Fixpoint send_reliable_control (polls : list Poll.t) (transport : T) (packet : Packet.t)
  (deadline : Z) : (T * list Poll.t) * outcome string unit :=
  match polls with
  | [] => ((transport, []), Fault OutOfFuel)
  | poll :: polls =>
    let? _ := check_wait poll deadline keeping (transport, polls) in
    match try_send transport packet with
    | (transport, Ok _report) => ((transport, polls), Ok tt)
    | (transport, Err (SendError.Full retry _ _)) =>
        send_reliable_control polls transport retry deadline
    | (transport, Err error) =>
        ((transport, polls), Err ("LDFL control send failed: " +:+ SendError.to_string error))
    | (transport, Fault f) => ((transport, polls), Fault f)
    end
  end.

(** [started] is the clock at the call. *)
Definition send_control_payload {P} `{WirePayload P} (polls : list Poll.t) (transport : T)
  (sequence : Z) (payload : P) (timeout started : Z) : (T * list Poll.t) * outcome string unit :=
  if timeout =? 0
  then ((transport, polls), Err "LDFL control-send timeout must be non-zero") else
  let? packet := control_packet sequence payload keeping (transport, polls) in
  let? deadline := Duration.add started timeout keeping (transport, polls) in
  send_reliable_control polls transport packet deadline.

(** The receiving loop of [negotiate_host_transport]. *)
Fixpoint await_display (polls : list Poll.t) (transport : T) (handshake : HostHandshake.t)
  (deadline : Z) : (T * list Poll.t) * outcome string EstablishedHostSession.t :=
  match polls with
  | [] => ((transport, []), Fault OutOfFuel)
  | poll :: polls =>
    let? _ := check_wait poll deadline keeping (transport, polls) in
    match try_receive transport Channel.Control with
    | (transport, Ok (Some packet)) =>
      let (handshake, r) := HostHandshake.accept handshake packet in
      let? accepted := r keeping (transport, polls) in
      match accepted with
      | Some established =>
        let? config_packet := control_packet DISPLAY_CONFIG_SEQUENCE
          (EstablishedHostSession.display_config established) keeping (transport, polls) in
        let (s, sent) := send_reliable_control polls transport config_packet deadline in
        let? _ := sent keeping s in
        (s, Ok established)
      | None => await_display polls transport handshake deadline
      end
    | (transport, Ok None) => await_display polls transport handshake deadline
    | (transport, Err error) =>
      ((transport, polls),
       Err ("LDFL negotiation transport failed: " +:+ ReceiveError.to_string error))
    | (transport, Fault f) => ((transport, polls), Fault f)
    end
  end.

Definition negotiate_host_transport (polls : list Poll.t) (transport : T)
  (config : HostProtocolConfig.t) (random : string + list byte) (timeout started : Z)
  : (T * list Poll.t) * outcome string EstablishedHostSession.t :=
  if timeout =? 0
  then ((transport, polls), Err "LDFL negotiation timeout must be non-zero") else
  let? deadline := Duration.add started timeout keeping (transport, polls) in
  let? handshake := HostHandshake.new random config keeping (transport, polls) in
  let? (hello, capabilities) := HostHandshake.initial_packets handshake keeping (transport, polls) in
  let (s, sent) := send_reliable_control polls transport hello deadline in
  let? _ := sent keeping s in
  let (s, sent) := send_reliable_control (snd s) (fst s) capabilities deadline in
  let? _ := sent keeping s in
  await_display (snd s) (fst s) handshake deadline.
End Driver.

(** ** What completes a handshake *)

(** The display's packets, handed to [accept] in order until it answers
    something other than [Ok(None)]; the driver reads no further. *)
Fixpoint accept_all (self : HostHandshake.t) (packets : list Packet.t)
  : HostHandshake.t * outcome string (option EstablishedHostSession.t) :=
  match packets with
  | [] => (self, Ok None)
  | packet :: packets =>
    match HostHandshake.accept self packet with
    | (self, Ok None) => accept_all self packets
    | r => r
    end
  end.

(** [p] is one whole frame numbered [s] with the payload [v]. *)
Definition delivers {P} `{WirePayload P} (p : Packet.t) (s : Z) (v : P) : Prop :=
  exists f, carries p f /\ sequence_of f = s /\ Frame.decode_payload P f = Ok v.

(** Both introductions, in either order, the second numbered [s] and newer
    than the first. *)
Definition introduces (p1 p2 : Packet.t) (hello : Hello.t) (caps : Capabilities.t) (s : Z) : Prop :=
  exists s1, s1 < s /\
    (delivers p1 s1 hello /\ delivers p2 s caps \/ delivers p1 s1 caps /\ delivers p2 s hello).

(** The session the host then starts. *)
Definition agreed_session (h : HostHandshake.t) (hello : Hello.t) (caps : Capabilities.t) (s : Z)
  (est : EstablishedHostSession.t) : Prop :=
  exists agreement config,
    negotiate (HostHandshake.host_hello h) (HostHandshake.host_capabilities h) hello caps = Ok agreement /\
    select_display_config (HostHandshake.config h) agreement = Ok config /\
    est = EstablishedHostSession.mk
      (Session.mk SessionPhase.Active (Some agreement) 1 0 (Some s))
      config (Hello.implementation_name hello) 3.

Record fresh (h : HostHandshake.t) : Prop := {
  fresh_hello : HostHandshake.display_hello h = None;
  fresh_capabilities : HostHandshake.display_capabilities h = None;
  fresh_sequence : HostHandshake.highest_display_sequence h = None;
}.

(** *** Receiving one packet *)

(** Every packet is one frame on the control lane, or changes nothing. *)
Lemma accept_frame h p :
  (exists f, Frame.wf f /\ Packet.payload p = Frame.encode f /\ Packet.channel p = Channel.Control) \/
  exists e, HostHandshake.accept h p = (h, Err e).
Proof.
  unfold HostHandshake.accept. case_bool_decide as Hc; [by right; eexists|].
  pose proof (returns_decode_prefix (Packet.payload p)) as Hr.
  destruct (decode_prefix (Packet.payload p)) as [[f n|m]|e|f] eqn:Hd; cbn [map_err otry];
    [|by right; eexists|by right; eexists|done].
  apply decode_prefix_complete_inv in Hd as (Hf & -> & rest & Hp).
  destruct (Z.eqb_spec (Frame.encoded_len f) (Packet.len p)) as [Hl|]; [|by right; eexists].
  left. exists f. unfold Packet.len in Hl.
  rewrite Hp, length_app, Nat2Z.inj_add, zlen_frame_encode in Hl.
  destruct rest; [|simpl in Hl; lia]. rewrite app_nil_r in Hp.
  destruct (Packet.channel p); [done|by destruct Hc].
Qed.

(** What [accept] does with a frame. *)
Definition accept_step (h : HostHandshake.t) (f : Frame.t)
  : HostHandshake.t * outcome string (option EstablishedHostSession.t) :=
  if match HostHandshake.highest_display_sequence h with
     | Some highest => sequence_of f <=? highest | None => false end
  then (h, Err ("display LDFL sequence " +:+ pretty (sequence_of f) +:+
                " is not newer than the prior sequence")) else
  let h := HostHandshake.set_highest h (sequence_of f) in
  let (h, stored) := HostHandshake.store h f in
  let? _ := stored keeping h in
  if bool_decide (HostHandshake.display_hello h <> None) &&
     bool_decide (HostHandshake.display_capabilities h <> None)
  then (h, let! established := HostHandshake.establish h in Ok (Some established))
  else (h, Ok None).

Lemma accept_of_frame h p f :
  Frame.wf f -> Packet.payload p = Frame.encode f -> Packet.channel p = Channel.Control ->
  HostHandshake.accept h p = accept_step h f.
Proof.
  intros Hf Hp Hc. unfold HostHandshake.accept. rewrite bool_decide_eq_false_2 by (rewrite Hc; tauto).
  cbv zeta. rewrite Hp, <-(app_nil_r (Frame.encode f)), decode_prefix_encode by done.
  cbn [map_err otry]. unfold Packet.len. by rewrite Hp, zlen_frame_encode, Z.eqb_refl.
Qed.

Definition newer (h : HostHandshake.t) (s : Z) : Prop :=
  match HostHandshake.highest_display_sequence h with
  | Some highest => highest < s
  | None => True
  end.

Definition conclude (h : HostHandshake.t) : outcome string (option EstablishedHostSession.t) :=
  match HostHandshake.display_hello h, HostHandshake.display_capabilities h with
  | Some _, Some _ => let! established := HostHandshake.establish h in Ok (Some established)
  | _, _ => Ok None
  end.

(** The state after an introduction in frame [f]. *)
Definition introduced (h h' : HostHandshake.t) (f : Frame.t) : Prop :=
  (HostHandshake.display_hello h = None /\ exists v,
     Frame.decode_payload Hello.t f = Ok v /\
     h' = HostHandshake.set_hello (HostHandshake.set_highest h (sequence_of f)) v) \/
  (HostHandshake.display_capabilities h = None /\ exists v,
     Frame.decode_payload Capabilities.t f = Ok v /\
     h' = HostHandshake.set_capabilities (HostHandshake.set_highest h (sequence_of f)) v).

Lemma decode_payload_kind {P} `{WirePayload P} f (v : P) :
  Frame.decode_payload P f = Ok v -> FrameHeader.kind (Frame.header f) = KIND (P:=P).
Proof. unfold Frame.decode_payload. case_bool_decide as Hk; [done|]. by intros _. Qed.

Lemma store_ok h f s h' :
  HostHandshake.store (HostHandshake.set_highest h s) f = (h', Ok tt) <->
  (HostHandshake.display_hello h = None /\ exists v,
     Frame.decode_payload Hello.t f = Ok v /\
     h' = HostHandshake.set_hello (HostHandshake.set_highest h s) v) \/
  (HostHandshake.display_capabilities h = None /\ exists v,
     Frame.decode_payload Capabilities.t f = Ok v /\
     h' = HostHandshake.set_capabilities (HostHandshake.set_highest h s) v).
Proof.
  unfold HostHandshake.store. split.
  - destruct (FrameHeader.kind (Frame.header f)) eqn:Hk; try done;
      cbn [HostHandshake.set_highest HostHandshake.display_hello HostHandshake.display_capabilities];
      (case_bool_decide as Hn; [done|]); intros Hs.
    + left. split; [done|]. destruct (Frame.decode_payload Hello.t f) as [v|e|ft]; try done.
      cbn [map_err otry] in Hs. injection Hs as <-. by exists v.
    + right. split; [done|]. destruct (Frame.decode_payload Capabilities.t f) as [v|e|ft]; try done.
      cbn [map_err otry] in Hs. injection Hs as <-. by exists v.
  - intros [(Hn & v & Hd & ->)|(Hn & v & Hd & ->)];
      rewrite (decode_payload_kind f v Hd);
      cbn [KIND Hello_payload Capabilities_payload HostHandshake.set_highest
           HostHandshake.display_hello HostHandshake.display_capabilities];
      rewrite Hn, bool_decide_eq_false_2 by tauto; by rewrite Hd.
Qed.

Lemma accept_step_iff h f h' r :
  accept_step h f = (h', Ok r) <->
  newer h (sequence_of f) /\ introduced h h' f /\ conclude h' = Ok r.
Proof.
  unfold accept_step, newer. set (s := sequence_of f).
  assert (Htail : forall h1, (if bool_decide (HostHandshake.display_hello h1 <> None) &&
      bool_decide (HostHandshake.display_capabilities h1 <> None)
    then (h1, let! established := HostHandshake.establish h1 in Ok (Some established))
    else (h1, Ok None)) = (h1, conclude h1)).
  { intros h1. unfold conclude. by destruct (HostHandshake.display_hello h1),
      (HostHandshake.display_capabilities h1). }
  set (guard := match HostHandshake.highest_display_sequence h with
    | Some highest => s <=? highest | None => false end).
  assert (Hg : guard = false <-> newer h s).
  { unfold guard, newer. destruct (HostHandshake.highest_display_sequence h); [|done]. apply Z.leb_gt. }
  fold (newer h s). rewrite <-Hg. destruct guard; [by split; [|intros (? & _)]|].
  cbv zeta. destruct (HostHandshake.store _ f) as [h1 stored] eqn:Hst.
  assert (Hi : introduced h h' f <-> (h1, stored) = (h', Ok tt)).
  { by rewrite <-Hst, store_ok. }
  rewrite Hi. destruct stored as [[]|e|ft]; cbn [otry];
    [rewrite Htail|split; [done|intros (_ & [=] & _)]..].
  split; [by intros [= <- ->]|by intros (_ & [= <-] & ->)].
Qed.

Lemma introduced_sequence h h' f :
  introduced h h' f -> HostHandshake.highest_display_sequence h' = Some (sequence_of f).
Proof. by intros [(_ & v & _ & ->)|(_ & v & _ & ->)]. Qed.

(** The session of a handshake with both introductions. *)
Lemma establish_iff h hello caps s est :
  HostHandshake.display_hello h = Some hello -> HostHandshake.display_capabilities h = Some caps ->
  HostHandshake.highest_display_sequence h = Some s ->
  HostHandshake.establish h = Ok est <-> agreed_session h hello caps s est.
Proof.
  intros Hh Hc Hs. unfold HostHandshake.establish, agreed_session. rewrite Hh, Hc, Hs. cbn [ok_or obind].
  destruct (negotiate _ _ hello caps) as [a|e|f]; cbn [map_err obind];
    [|by split; [|intros (? & ? & [=] & _)]..].
  destruct (select_display_config _ a) as [d|e|f] eqn:Hd; cbn [obind];
    [|split; [done|intros (? & ? & [= <-] & Hs' & _); by rewrite Hd in Hs']..].
  split; [intros [= <-]; by exists a, d|].
  intros (? & ? & [= <-] & Hs' & ->). rewrite Hd in Hs'. by injection Hs' as <-.
Qed.

Lemma conclude_iff h hello caps s r :
  HostHandshake.display_hello h = Some hello -> HostHandshake.display_capabilities h = Some caps ->
  HostHandshake.highest_display_sequence h = Some s ->
  conclude h = Ok r <-> exists est, agreed_session h hello caps s est /\ r = Some est.
Proof.
  intros Hh Hc Hs. unfold conclude. rewrite Hh, Hc.
  pose proof (fun est => establish_iff h hello caps s est Hh Hc Hs) as He.
  destruct (HostHandshake.establish h) as [est|e|f]; cbn [obind].
  - split; [intros [= <-]; exists est; split; [by apply He|done]|].
    intros (est' & Ha%He & ->). by injection Ha as ->.
  - split; [done|]. by intros (est' & Ha%He & _).
  - split; [done|]. by intros (est' & Ha%He & _).
Qed.

(** *** The whole exchange *)

Lemma accept_ok h p h' r :
  HostHandshake.accept h p = (h', Ok r) <->
  exists f, Frame.wf f /\ Packet.payload p = Frame.encode f /\ Packet.channel p = Channel.Control /\
    newer h (sequence_of f) /\ introduced h h' f /\ conclude h' = Ok r.
Proof.
  split.
  - intros Ha. destruct (accept_frame h p) as [(f & Hf & Hp & Hc)|[e He]]; [|by rewrite He in Ha].
    rewrite (accept_of_frame h p f) in Ha by done. exists f. by rewrite accept_step_iff in Ha.
  - intros (f & Hf & Hp & Hc & Hr). rewrite (accept_of_frame h p f) by done. by apply accept_step_iff.
Qed.

Lemma delivers_control {P} `{WirePayload P} p f (v : P) :
  channel_for_message (KIND (P:=P)) = Channel.Control ->
  Frame.wf f -> Packet.payload p = Frame.encode f -> Packet.channel p = Channel.Control ->
  Frame.decode_payload P f = Ok v -> delivers p (sequence_of f) v.
Proof.
  intros Hk Hf Hp Hc Hd. exists f. split; [|by split]. split; [done|].
  split; [done|]. by rewrite (decode_payload_kind f v Hd), Hk, Hc.
Qed.

Lemma delivered_control {P} `{WirePayload P} p s (v : P) :
  channel_for_message (KIND (P:=P)) = Channel.Control -> delivers p s v ->
  exists f, Frame.wf f /\ Packet.payload p = Frame.encode f /\ Packet.channel p = Channel.Control /\
    sequence_of f = s /\ Frame.decode_payload P f = Ok v.
Proof.
  intros Hk (f & (Hf & Hp & Hc) & Hs & Hd). exists f.
  by rewrite (decode_payload_kind f v Hd), Hk in Hc.
Qed.

(** After one introduction the handshake waits, with that introduction held. *)
Lemma first_accept h p h' r (Hfr : fresh h) :
  HostHandshake.accept h p = (h', Ok r) <->
  r = None /\ exists s,
    (exists v, delivers p s v /\ h' = HostHandshake.set_hello (HostHandshake.set_highest h s) v) \/
    (exists v, delivers p s v /\ h' = HostHandshake.set_capabilities (HostHandshake.set_highest h s) v).
Proof.
  destruct Hfr as [Hh Hc Hq]. rewrite accept_ok. unfold newer, introduced. rewrite Hq, Hh, Hc. split.
  - intros (f & Hf & Hp & Hch & _ & [(_ & v & Hd & ->)|(_ & v & Hd & ->)] & Hr);
      unfold conclude in Hr; cbn in Hr; rewrite ?Hh, ?Hc in Hr; injection Hr as <-;
      (split; [done|]); exists (sequence_of f); [left|right]; exists v; (split; [|done]);
      by apply delivers_control.
  - intros (-> & s & [(v & Hd & ->)|(v & Hd & ->)]);
      (apply delivered_control in Hd as (f & Hf & Hp & Hch & <- & Hd); [|done]); exists f;
      split_and!; try done; [left| |right|]; try (by split; [|exists v]);
      unfold conclude; cbn; by rewrite ?Hh, ?Hc.
Qed.

Lemma after_hello h s hello p h2 r (Hfr : fresh h) :
  HostHandshake.accept (HostHandshake.set_hello (HostHandshake.set_highest h s) hello) p = (h2, Ok r) <->
  exists s2 caps est, s < s2 /\ delivers p s2 caps /\ agreed_session h hello caps s2 est /\ r = Some est /\
    h2 = HostHandshake.set_capabilities (HostHandshake.set_highest
           (HostHandshake.set_hello (HostHandshake.set_highest h s) hello) s2) caps.
Proof.
  destruct Hfr as [Hh Hc Hq]. rewrite accept_ok. unfold introduced, newer. cbn. rewrite Hc. split.
  - intros (f & Hf & Hp & Hch & Hs & [(? & _)|(_ & caps & Hd & ->)] & Hr); [done|].
    apply (conclude_iff _ hello caps (sequence_of f)) in Hr as (est & He & ->); [|done..].
    exists (sequence_of f), caps, est. split_and!; [done|by apply delivers_control|done..].
  - intros (s2 & caps & est & Hs & Hd & He & -> & ->).
    apply delivered_control in Hd as (f & Hf & Hp & Hch & <- & Hd); [|done]. exists f.
    split_and!; try done; [right; split; [done|by exists caps]|].
    apply (conclude_iff _ hello caps (sequence_of f)); [done..|by exists est].
Qed.

Lemma after_capabilities h s caps p h2 r (Hfr : fresh h) :
  HostHandshake.accept (HostHandshake.set_capabilities (HostHandshake.set_highest h s) caps) p = (h2, Ok r) <->
  exists s2 hello est, s < s2 /\ delivers p s2 hello /\ agreed_session h hello caps s2 est /\ r = Some est /\
    h2 = HostHandshake.set_hello (HostHandshake.set_highest
           (HostHandshake.set_capabilities (HostHandshake.set_highest h s) caps) s2) hello.
Proof.
  destruct Hfr as [Hh Hc Hq]. rewrite accept_ok. unfold introduced, newer. cbn. rewrite Hh. split.
  - intros (f & Hf & Hp & Hch & Hs & [(_ & hello & Hd & ->)|(? & _)] & Hr); [|done].
    apply (conclude_iff _ hello caps (sequence_of f)) in Hr as (est & He & ->); [|done..].
    exists (sequence_of f), hello, est. split_and!; [done|by apply delivers_control|done..].
  - intros (s2 & hello & est & Hs & Hd & He & -> & ->).
    apply delivered_control in Hd as (f & Hf & Hp & Hch & <- & Hd); [|done]. exists f.
    split_and!; try done; [left; split; [done|by exists hello]|].
    apply (conclude_iff _ hello caps (sequence_of f)); [done..|by exists est].
Qed.

Lemma accept_all_established h ps est (Hfr : fresh h) :
  snd (accept_all h ps) = Ok (Some est) <->
  exists p1 p2 rest hello caps s, ps = p1 :: p2 :: rest /\ introduces p1 p2 hello caps s /\
    agreed_session h hello caps s est.
Proof.
  split.
  - destruct ps as [|p1 ps]; [done|]. cbn [accept_all].
    destruct (HostHandshake.accept h p1) as [h1 [r|e|f]] eqn:H1; [|done..].
    apply first_accept in H1 as (-> & s1 & H1); [|done].
    destruct ps as [|p2 rest]; [done|]. cbn [accept_all].
    destruct (HostHandshake.accept h1 p2) as [h2 [r|e|f]] eqn:H2; [|done..].
    unfold introduces. destruct H1 as [(v & Hd & ->)|(v & Hd & ->)].
    + apply after_hello in H2 as (s2 & caps & est' & Hs & Hd2 & He & -> & _); [|done].
      cbn. intros [= <-]. exists p1, p2, rest, v, caps, s2. naive_solver.
    + apply after_capabilities in H2 as (s2 & hello & est' & Hs & Hd2 & He & -> & _); [|done].
      cbn. intros [= <-]. exists p1, p2, rest, hello, v, s2. naive_solver.
  - intros (p1 & p2 & rest & hello & caps & s & -> & (s1 & Hs & [[H1 H2]|[H1 H2]]) & He);
      cbn [accept_all].
    + rewrite (proj2 (first_accept h p1 (HostHandshake.set_hello (HostHandshake.set_highest h s1) hello)
        None Hfr)) by (split; [done|]; exists s1; left; by exists hello).
      cbn [accept_all]. rewrite (proj2 (after_hello h s1 hello p2
        (HostHandshake.set_capabilities (HostHandshake.set_highest (HostHandshake.set_hello (HostHandshake.set_highest h s1) hello) s) caps) (Some est) Hfr)); [done|].
      by exists s, caps, est.
    + rewrite (proj2 (first_accept h p1 (HostHandshake.set_capabilities (HostHandshake.set_highest h s1) caps)
        None Hfr)) by (split; [done|]; exists s1; right; by exists caps).
      cbn [accept_all]. rewrite (proj2 (after_capabilities h s1 caps p2
        (HostHandshake.set_hello (HostHandshake.set_highest (HostHandshake.set_capabilities (HostHandshake.set_highest h s1) caps) s) hello) (Some est) Hfr)); [done|].
      by exists s, hello, est.
Qed.

(** *** No panic *)

Record handshake_wf (h : HostHandshake.t) : Prop := {
  hw_config : HostProtocolConfig.wf (HostHandshake.config h);
  hw_host : Capabilities.wf (HostHandshake.host_capabilities h);
  hw_display : forall c, HostHandshake.display_capabilities h = Some c -> Capabilities.wf c;
}.

Lemma returns_negotiate lh lc rh rc : returns (negotiate lh lc rh rc).
Proof. unfold negotiate. by repeat case_match. Qed.

Lemma select_returns c a :
  HostProtocolConfig.wf c -> NegotiatedCapabilities.wf (NegotiatedSession.capabilities a) ->
  returns (select_display_config c a).
Proof.
  intros Hc Ha. pose proof (select_display_config_spec c a Hc Ha) as Hs. cbv zeta in Hs.
  by destruct (select_display_config c a).
Qed.

Lemma returns_establish h : handshake_wf h -> returns (HostHandshake.establish h).
Proof.
  intros [Hc Hh Hd]. unfold HostHandshake.establish.
  apply returns_obind; [apply returns_ok_or|intros hello _].
  apply returns_obind; [apply returns_ok_or|intros caps Hcaps%ok_or_ok_inv].
  apply returns_obind; [apply returns_map_err, returns_negotiate|intros a Ha%map_err_ok_inv].
  apply returns_obind; [|intros d _].
  - apply select_returns; [done|]. eapply negotiate_wf; [done|by apply Hd|done].
  - cbn. by destruct (HostHandshake.highest_display_sequence h).
Qed.

Lemma store_wf h f : handshake_wf h ->
  handshake_wf (fst (HostHandshake.store h f)) /\ returns (snd (HostHandshake.store h f)).
Proof.
  intros Hw. unfold HostHandshake.store. destruct (FrameHeader.kind _) eqn:Hk; try done.
  - case_bool_decide; [done|]. unfold Frame.decode_payload. rewrite Hk.
    rewrite bool_decide_eq_false_2 by (cbn; tauto).
    pose proof (wire_decode_returns (P:=Hello.t) (Frame.payload f)) as Hr.
    destruct (wire_decode _) as [v|e|ft]; cbn; [|done..]. split; [|done].
    by destruct Hw as [Hc Hh Hd].
  - case_bool_decide; [done|]. unfold Frame.decode_payload. rewrite Hk.
    rewrite bool_decide_eq_false_2 by (cbn; tauto).
    pose proof (wire_decode_returns (P:=Capabilities.t) (Frame.payload f)) as Hr.
    destruct (wire_decode _) as [v|e|ft] eqn:Hv; cbn; [|done..]. split; [|done].
    apply (wire_decode_iff (P:=Capabilities.t)) in Hv as [Hv _].
    destruct Hw as [Hc Hh Hd]. split; cbn; [done..|]. by intros c [= <-].
Qed.

Lemma accept_wf h p : handshake_wf h ->
  handshake_wf (fst (HostHandshake.accept h p)) /\ returns (snd (HostHandshake.accept h p)).
Proof.
  intros Hw. destruct (accept_frame h p) as [(f & Hf & Hp & Hc)|[e ->]]; [|done].
  rewrite (accept_of_frame h p f) by done. unfold accept_step.
  destruct (match HostHandshake.highest_display_sequence h with Some _ => _ | None => _ end); [done|].
  assert (Hw1 : handshake_wf (HostHandshake.set_highest h (sequence_of f))) by (by destruct Hw).
  destruct (store_wf _ f Hw1) as [Hw2 Hr]. cbv zeta.
  destruct (HostHandshake.store _ f) as [h2 [[]|e|ft]]; cbn in *; [|done..].
  destruct (bool_decide _ && bool_decide _); [|done]. cbn. split; [done|].
  apply returns_obind; [by apply returns_establish|done].
Qed.

Lemma accept_all_wf h ps : handshake_wf h -> returns (snd (accept_all h ps)).
Proof.
  revert h. induction ps as [|p ps IH]; intros h Hw; [done|]. cbn [accept_all].
  destruct (accept_wf h p Hw) as [Hw' Hr].
  destruct (HostHandshake.accept h p) as [h' [[est|]|e|f]]; cbn in *; try done. by apply IH.
Qed.

(** *** The host's own packets *)

Definition host_hello_of (nonce : list byte) : Hello.t :=
  Hello.mk 1 1 Role.Host nonce (str "LadoFlow desktop").
Definition host_capabilities_of (c : HostProtocolConfig.t) : Capabilities.t :=
  Capabilities.mk (HostProtocolConfig.width c) (HostProtocolConfig.height c)
    (HostProtocolConfig.refresh_hz c * 1000) 40000 (CodecSet.mk 1) (InputCapabilities.mk 7)
    (FeatureFlags.mk 2).

Lemma with_nonce_ok c nonce : HostProtocolConfig.wf c -> length nonce = 16%nat ->
  exists h, HostHandshake.with_nonce c nonce = Ok h /\ fresh h /\ handshake_wf h /\
    Hello.wf (HostHandshake.host_hello h) /\ HostHandshake.config h = c /\
    HostHandshake.host_hello h = host_hello_of nonce /\
    HostHandshake.host_capabilities h = host_capabilities_of c.
Proof.
  intros [Hw Hh Hr] Hn. unfold HostHandshake.with_nonce.
  assert (Hhello : Hello.new PROTOCOL_VERSION PROTOCOL_VERSION Role.Host nonce
      (str "LadoFlow desktop") = Ok (host_hello_of nonce)) by reflexivity.
  assert (Hhw : Hello.wf (host_hello_of nonce)) by (by eapply Hello_new_wf, Hhello).
  rewrite Hhello. cbn [map_err obind]. rewrite chk_ok by (unfold_int; lia). cbn [obind].
  assert (Hcaps : Capabilities.new (HostProtocolConfig.width c) (HostProtocolConfig.height c)
      (HostProtocolConfig.refresh_hz c * 1000) 40000 CodecSet.H264
      (InputCapabilities.bitor (InputCapabilities.bitor InputCapabilities.POINTER
         InputCapabilities.TOUCH) InputCapabilities.KEYBOARD)
      FeatureFlags.REMOTE_CURSOR = Ok (host_capabilities_of c)).
  { apply Capabilities_new_iff; [lia..|]. split; [reflexivity|]. split_and!; (done || lia). }
  assert (Hcw : Capabilities.wf (host_capabilities_of c)).
  { eapply Capabilities_new_wf, Hcaps; unfold in_u;
      (lia || by apply (bool_decide_unpack _); vm_compute). }
  rewrite Hcaps. eexists. split; [reflexivity|]. cbn. by split_and!.
Qed.

Lemma control_packet_delivers `{WirePayloadLaws P} s (v : P) :
  channel_for_message (KIND (P:=P)) = Channel.Control -> wire_wf v -> in_u 64 s ->
  exists p, control_packet s v = Ok p /\ delivers p s v.
Proof.
  intros Hk Hv Hs.
  destruct (from_payload_spec FrameFlags.NONE s v Hv ltac:(done) Hs)
    as (f & Hf & Hwf & Hd & Hkind & Hseq & _).
  unfold control_packet. rewrite Hf. cbn [map_err obind]. eexists. split; [done|].
  exists f. split; [|by split]. split; [done|]. split; [done|]. by rewrite Hkind, Hk.
Qed.

Lemma initial_packets_ok h : Hello.wf (HostHandshake.host_hello h) -> handshake_wf h ->
  exists p0 p1, HostHandshake.initial_packets h = Ok (p0, p1) /\
    delivers p0 0 (HostHandshake.host_hello h) /\ delivers p1 1 (HostHandshake.host_capabilities h).
Proof.
  intros Hh Hw. unfold HostHandshake.initial_packets.
  pose proof (control_packet_delivers HELLO_SEQUENCE (HostHandshake.host_hello h)) as H0.
  pose proof (control_packet_delivers CAPABILITIES_SEQUENCE (HostHandshake.host_capabilities h)) as H1.
  destruct (H0 eq_refl Hh ltac:(done)) as (p0 & -> & Hd0).
  destruct (H1 eq_refl (hw_host _ Hw) ltac:(done)) as (p1 & -> & Hd1).
  by exists p0, p1.
Qed.

(** ** The handshake *)

(** Fed with the display's packets, the host's handshake completes exactly when the first two of
    them are one Hello and one Capabilities, each a whole valid control frame, in either order and
    with increasing sequence numbers, and both sides' advertisements allow an agreement and a
    configuration; the result is then an active first-generation session of that agreement whose
    receive cursor stands at the second frame, with that configuration, the display's name and
    three as the next sequence number. Every other packet sequence waits or fails, without panic. *)
Theorem handshake_completes_exactly c nonce
  (Hc : HostProtocolConfig.wf c) (Hn : length nonce = 16%nat) :
  exists h, HostHandshake.with_nonce c nonce = Ok h /\ forall ps,
    returns (snd (accept_all h ps)) /\
    forall est, snd (accept_all h ps) = Ok (Some est) <->
      exists p1 p2 rest hello caps s, ps = p1 :: p2 :: rest /\ introduces p1 p2 hello caps s /\
        agreed_session h hello caps s est.
Proof.
  destruct (with_nonce_ok c nonce Hc Hn) as (h & Hh & Hfr & Hw & _).
  exists h. split; [done|]. intros ps. split; [by apply accept_all_wf|].
  intros est. by apply accept_all_established.
Qed.

(** ** The driver over any endpoint that answers *)

(** An endpoint that remembers what it accepted and handed out. *)
Module Recorder.
Record t (T : Type) : Type := mk {
  inner : T;
  sent : list Packet.t;
  received : list Packet.t;
}.
Arguments mk {T} inner sent received.
Arguments inner {T} t.
Arguments sent {T} t.
Arguments received {T} t.
End Recorder.

#[export] Instance recorder_transport `{PacketTransport T} : PacketTransport (Recorder.t T) := {
  connection_state r := connection_state (Recorder.inner r);
  try_send r p :=
    let (t, a) := try_send (Recorder.inner r) p in
    (Recorder.mk t (Recorder.sent r ++ match a with Ok _ => [p] | _ => [] end) (Recorder.received r), a);
  try_receive r c :=
    let (t, a) := try_receive (Recorder.inner r) c in
    (Recorder.mk t (Recorder.sent r)
       (Recorder.received r ++ match a with Ok (Some p) => [p] | _ => [] end), a);
}.

(** Some poll sees the cancel flag or a clock at the deadline. *)
Definition stops (deadline : Z) (polls : list Poll.t) : Prop :=
  Exists (fun p => Poll.cancelled p = true \/ deadline <= Poll.now p) polls.

Section Exchange.
Context {T : Type} `{Safety : EndpointSafety T}.
Implicit Types (r : Recorder.t T) (polls : list Poll.t).

Lemma check_wait_ok poll deadline :
  check_wait poll deadline = Ok tt <-> ~ (Poll.cancelled poll = true \/ deadline <= Poll.now poll).
Proof.
  unfold check_wait. rewrite Z.geb_leb. destruct (Poll.cancelled poll); [naive_solver|].
  destruct (Z.leb_spec deadline (Poll.now poll)); split; try done; intros; [naive_solver|].
  intros [?|?]; [done|lia].
Qed.

Lemma returns_check_wait poll deadline : returns (check_wait poll deadline).
Proof. unfold check_wait. by repeat case_match. Qed.

Lemma stops_cons deadline poll polls :
  check_wait poll deadline = Ok tt -> stops deadline (poll :: polls) <-> stops deadline polls.
Proof. rewrite check_wait_ok. unfold stops. rewrite Exists_cons. tauto. Qed.

(** What one reliable send did. *)
Definition send_done polls deadline r p (x : (Recorder.t T * list Poll.t) * outcome string unit) : Prop :=
  let '((r', polls'), out) := x in
  safe (Recorder.inner r') /\ Recorder.received r' = Recorder.received r /\
  match out with
  | Ok _ => Recorder.sent r' = Recorder.sent r ++ [p] /\ (stops deadline polls -> stops deadline polls')
  | Err _ => Recorder.sent r' = Recorder.sent r
  | Fault f => f = OutOfFuel /\ Recorder.sent r' = Recorder.sent r /\ ~ stops deadline polls
  end.

Lemma send_reliable_control_spec deadline p polls r :
  safe (Recorder.inner r) -> send_done polls deadline r p (send_reliable_control polls r p deadline).
Proof.
  revert r. induction polls as [|poll polls IH]; intros r Hr; cbn [send_reliable_control].
  { split_and!; try done. intros Hs. by apply Exists_nil in Hs. }
  pose proof (returns_check_wait poll deadline) as Hret.
  destruct (check_wait poll deadline) as [[]|e|f] eqn:Hw; cbn [otry]; [|done..].
  cbn [try_send recorder_transport].
  destruct (safe_send (Recorder.inner r) p Hr) as [Hs Ha].
  pose proof (safe_full (Recorder.inner r) p) as Hfull.
  destruct (try_send (Recorder.inner r) p) as [t' [rep|[q|q d l|q s l]|f]] eqn:Hsend; cbn in Hs, Ha.
  - split_and!; try done. by rewrite stops_cons.
  - by split_and!; rewrite ?app_nil_r.
  - rewrite (Hfull t' q d l Hr eq_refl). rewrite app_nil_r.
    specialize (IH (Recorder.mk t' (Recorder.sent r) (Recorder.received r)) Hs).
    destruct (send_reliable_control polls _ p deadline) as [[r' polls'] [[]|e|f]];
      cbn in IH |- *; by rewrite ?stops_cons.
  - by split_and!; rewrite ?app_nil_r.
  - done.
Qed.

Lemma establish_config_wf h est :
  handshake_wf h -> HostHandshake.establish h = Ok est ->
  DisplayConfig.wf (EstablishedHostSession.display_config est).
Proof.
  intros [Hc Hh Hd] He. unfold HostHandshake.establish in He.
  apply obind_ok_inv in He as (hello & _ & He).
  apply obind_ok_inv in He as (caps & Hcaps%ok_or_ok_inv & He).
  apply obind_ok_inv in He as (a & Ha%map_err_ok_inv & He).
  apply obind_ok_inv in He as (d & Hsel & He).
  pose proof (select_display_config_spec _ a Hc (negotiate_wf _ _ _ _ _ Hh (Hd _ Hcaps) Ha)) as Hs.
  cbv zeta in Hs. rewrite Hsel in Hs. destruct Hs as [Hs _].
  cbn in He. destruct (HostHandshake.highest_display_sequence h); cbn in He; by injection He as <-.
Qed.

Lemma accept_config_wf h p h' est :
  handshake_wf h -> HostHandshake.accept h p = (h', Ok (Some est)) ->
  DisplayConfig.wf (EstablishedHostSession.display_config est).
Proof.
  intros Hw Ha. pose proof (proj1 (accept_wf h p Hw)) as Hw'. rewrite Ha in Hw'. cbn in Hw'.
  apply accept_ok in Ha as (f & _ & _ & _ & _ & _ & Hr). unfold conclude in Hr.
  destruct (HostHandshake.display_hello h'), (HostHandshake.display_capabilities h'); try done.
  destruct (HostHandshake.establish h') as [est'|e|ft] eqn:He; try done.
  injection Hr as <-. by apply (establish_config_wf h').
Qed.

(** What the receiving loop did from handshake [h] on: the packets [ps] it
    read, and the answer. *)
Definition awaited polls deadline r h
    (x : (Recorder.t T * list Poll.t) * outcome string EstablishedHostSession.t) : Prop :=
  let '((r', polls'), out) := x in
  exists ps, Recorder.received r' = Recorder.received r ++ ps /\
  match out with
  | Ok est => exists before p h1 h2 config, ps = before ++ [p] /\
      accept_all h before = (h1, Ok None) /\ HostHandshake.accept h1 p = (h2, Ok (Some est)) /\
      delivers config 2 (EstablishedHostSession.display_config est) /\
      Recorder.sent r' = Recorder.sent r ++ [config]
  | Err _ => Recorder.sent r' = Recorder.sent r
  | Fault f => f = OutOfFuel /\ Recorder.sent r' = Recorder.sent r /\ ~ stops deadline polls
  end.

(** One packet that completes nothing, then the rest of the loop. *)
Lemma awaited_more polls deadline r h p h1 t x :
  HostHandshake.accept h p = (h1, Ok None) ->
  awaited polls deadline (Recorder.mk t (Recorder.sent r) (Recorder.received r ++ [p])) h1 x ->
  awaited polls deadline r h x.
Proof.
  intros Ha. destruct x as [[r' polls'] out]. cbn. intros (ps & Hps & Hout). exists (p :: ps).
  split; [by rewrite Hps, <-app_assoc|]. destruct out as [est|e|f]; [|done..].
  destruct Hout as (before & q & h2 & h3 & config & -> & Hb & Hout).
  exists (p :: before), q, h2, h3, config. split; [done|]. cbn [accept_all]. by rewrite Ha.
Qed.

Lemma awaited_poll poll polls deadline r h x :
  check_wait poll deadline = Ok tt -> awaited polls deadline r h x ->
  awaited (poll :: polls) deadline r h x.
Proof.
  intros Hw. destruct x as [[r' polls'] [est|e|f]]; cbn; [done..|].
  intros (ps & Hps & -> & Hs & Hn). exists ps. by rewrite stops_cons.
Qed.

(** The last packet arrived: the configuration is sent and the call ends. *)
Lemma finish_spec polls deadline r r1 h p h1 est :
  handshake_wf h -> safe (Recorder.inner r1) ->
  Recorder.sent r1 = Recorder.sent r -> Recorder.received r1 = Recorder.received r ++ [p] ->
  HostHandshake.accept h p = (h1, Ok (Some est)) ->
  awaited polls deadline r h
    (let? config_packet := control_packet DISPLAY_CONFIG_SEQUENCE
       (EstablishedHostSession.display_config est) keeping (r1, polls) in
     let (s, sent) := send_reliable_control polls r1 config_packet deadline in
     let? _ := sent keeping s in
     (s, Ok est)).
Proof.
  intros Hw Hr1 Hsent Hrecv Ha.
  pose proof (control_packet_delivers DISPLAY_CONFIG_SEQUENCE
    (EstablishedHostSession.display_config est)) as Hk.
  destruct (Hk eq_refl (accept_config_wf h p h1 est Hw Ha) ltac:(done)) as (k & -> & Hd).
  clear Hk. cbn [otry].
  pose proof (send_reliable_control_spec deadline k polls r1 Hr1) as Hs.
  destruct (send_reliable_control polls r1 k deadline) as [[r' polls'] out].
  destruct Hs as (_ & Hrec & Hs). rewrite Hrecv in Hrec. rewrite Hsent in Hs.
  destruct out as [[]|e|f]; exists [p]; (split; [done|]); [|done..].
  exists [], p, h, h1, k. destruct Hs as [Hs _]. by split_and!.
Qed.

Lemma await_display_spec deadline polls r h :
  safe (Recorder.inner r) -> handshake_wf h ->
  awaited polls deadline r h (await_display polls r h deadline).
Proof.
  revert r h. induction polls as [|poll polls IH]; intros r h Hr Hw; cbn [await_display].
  { exists []. rewrite app_nil_r. split_and!; try done. intros Hs. by apply Exists_nil in Hs. }
  assert (Hnone : forall r', Recorder.received r' = Recorder.received r ->
    Recorder.sent r' = Recorder.sent r -> forall polls' e,
    awaited (poll :: polls) deadline r h ((r', polls'), Err e)).
  { intros r' Hrec Hs polls' e. exists []. by rewrite app_nil_r. }
  pose proof (returns_check_wait poll deadline) as Hret.
  destruct (check_wait poll deadline) as [[]|e|f] eqn:Hcw; cbn [otry]; [|by apply Hnone|done].
  apply awaited_poll; [done|]. cbn [try_receive recorder_transport].
  destruct (safe_receive (Recorder.inner r) Channel.Control Hr) as [Hs Ha].
  destruct (try_receive (Recorder.inner r) Channel.Control) as [t' [[p|]|e|f]]; cbn in Hs, Ha.
  - destruct (accept_wf h p Hw) as [Hw' Hra].
    destruct (HostHandshake.accept h p) as [h1 [[est|]|e|f]] eqn:Hacc; cbn [otry fst snd] in *.
    + by eapply finish_spec.
    + eapply awaited_more; [done|]. by apply IH.
    + exists [p]. done.
    + done.
  - rewrite !app_nil_r. destruct r as [ri rs rr]. cbn in *. by apply (IH (Recorder.mk t' rs rr)).
  - exists []. by rewrite !app_nil_r.
  - done.
Qed.

Lemma accept_all_app h before h1 l :
  accept_all h before = (h1, Ok None) -> accept_all h (before ++ l) = accept_all h1 l.
Proof.
  revert h. induction before as [|p before IH]; intros h Hb; [by injection Hb as <-|].
  cbn [app accept_all] in *. destruct (HostHandshake.accept h p) as [h' [[est|]|e|f]]; try done.
  by apply IH.
Qed.

(** The loop reads exactly the two introductions. *)
Lemma two_introductions h before p h1 h2 est :
  fresh h -> accept_all h before = (h1, Ok None) ->
  HostHandshake.accept h1 p = (h2, Ok (Some est)) ->
  exists q1 q2 hello caps s, before ++ [p] = [q1; q2] /\ introduces q1 q2 hello caps s /\
    agreed_session h hello caps s est.
Proof.
  intros Hfr Hb Ha.
  assert (Hall : snd (accept_all h (before ++ [p])) = Ok (Some est))
    by (rewrite (accept_all_app h before h1 [p] Hb); cbn [accept_all]; by rewrite Ha).
  apply accept_all_established in Hall as (q1 & q2 & rest & hello & caps & s & Hps & Hi & He); [|done].
  destruct rest as [|q rest _] using rev_ind; [by exists q1, q2, hello, caps, s|].
  rewrite !app_comm_cons in Hps. apply app_inj_tail in Hps as [-> _].
  assert (Hsome : snd (accept_all h (q1 :: q2 :: rest)) = Ok (Some est))
    by (apply accept_all_established; [done|]; by exists q1, q2, rest, hello, caps, s).
  by rewrite Hb in Hsome.
Qed.

(** What the host has said when no session came about. *)
Definition greeted (c : HostProtocolConfig.t) (random : string + list byte) (sent : list Packet.t) : Prop :=
  sent = [] \/ exists nonce p0 p1, random = inr nonce /\ delivers p0 0 (host_hello_of nonce) /\
    delivers p1 1 (host_capabilities_of c) /\ (sent = [p0] \/ sent = [p0; p1]).

(** The outcome of a negotiation over a recorded endpoint. *)
Definition negotiated polls (c : HostProtocolConfig.t) (random : string + list byte) (deadline : Z)
    (x : (Recorder.t T * list Poll.t) * outcome string EstablishedHostSession.t) : Prop :=
  let '((r, _), out) := x in
  match out with
  | Ok est => exists nonce h p0 p1 p2 q1 q2 hello caps s,
      random = inr nonce /\ HostHandshake.with_nonce c nonce = Ok h /\
      Recorder.sent r = [p0; p1; p2] /\
      delivers p0 0 (host_hello_of nonce) /\ delivers p1 1 (host_capabilities_of c) /\
      delivers p2 2 (EstablishedHostSession.display_config est) /\
      Recorder.received r = [q1; q2] /\ introduces q1 q2 hello caps s /\
      agreed_session h hello caps s est
  | Err _ => greeted c random (Recorder.sent r)
  | Fault f => f = OutOfFuel /\ greeted c random (Recorder.sent r) /\ ~ stops deadline polls
  end.

Lemma negotiate_host_transport_spec polls (t : T) c random timeout started :
  safe t -> HostProtocolConfig.wf c -> (forall nonce, random = inr nonce -> length nonce = 16%nat) ->
  Duration.valid (started + timeout) ->
  negotiated polls c random (started + timeout)
    (negotiate_host_transport polls (Recorder.mk t [] []) c random timeout started).
Proof.
  intros Ht Hc Hn Hd. unfold negotiate_host_transport.
  destruct (timeout =? 0); [by left|].
  unfold Duration.add, Duration.checked_add. rewrite (proj2 (Z.leb_le _ _) (proj2 Hd)).
  cbn [expect otry]. set (deadline := started + timeout).
  destruct random as [e|nonce]; [by left|].
  destruct (with_nonce_ok c nonce Hc (Hn nonce eq_refl))
    as (h & Hh & Hfr & Hw & Hhw & _ & Hhello & Hcaps).
  cbn [HostHandshake.new]. rewrite Hh. cbn [otry].
  destruct (initial_packets_ok h Hhw Hw) as (p0 & p1 & -> & H0 & H1). cbn [otry].
  rewrite Hhello in H0. rewrite Hcaps in H1.
  pose proof (send_reliable_control_spec deadline p0 polls (Recorder.mk t [] []) Ht) as Hs0.
  destruct (send_reliable_control polls _ p0 deadline) as [[r1 polls1] [[]|e|f]];
    destruct Hs0 as (Hr1 & Hrec1 & Hs0); cbn [otry Recorder.sent Recorder.received app] in *;
    [|by left|destruct Hs0 as (-> & Hs & Hns); split_and!; [done|by left|done]].
  destruct Hs0 as [Hsent1 Hst1]. cbn [fst snd].
  pose proof (send_reliable_control_spec deadline p1 polls1 r1 Hr1) as Hs1.
  assert (Hg1 : greeted c (inr nonce) [p0]) by (right; exists nonce, p0, p1; tauto).
  assert (Hg2 : greeted c (inr nonce) [p0; p1]) by (right; exists nonce, p0, p1; tauto).
  destruct (send_reliable_control polls1 r1 p1 deadline) as [[r2 polls2] [[]|e|f]];
    destruct Hs1 as (Hr2 & Hrec2 & Hs1); rewrite Hsent1 in Hs1; cbn [otry app] in *;
    [|cbn; by rewrite Hs1|destruct Hs1 as (-> & Hs & Hns); cbn; rewrite Hs; tauto].
  destruct Hs1 as [Hsent2 Hst2]. cbn [fst snd].
  pose proof (await_display_spec deadline polls2 r2 h Hr2 Hw) as Ha.
  destruct (await_display polls2 r2 h deadline) as [[r3 polls3] out].
  destruct Ha as (ps & Hps & Ha). rewrite Hrec2, Hrec1 in Hps. rewrite Hsent2 in Ha. cbn [app] in *.
  destruct out as [est|e|f]; cbn.
  - destruct Ha as (before & p & h1 & h2 & p2 & -> & Hb & Hacc & H2 & Hsent3).
    destruct (two_introductions h before p h1 h2 est Hfr Hb Hacc)
      as (q1 & q2 & hello & caps & s & Hq & Hi & He).
    rewrite Hq in Hps. exists nonce, h, p0, p1, p2, q1, q2, hello, caps, s. by split_and!.
  - by rewrite Ha.
  - destruct Ha as (-> & -> & Hns). tauto.
Qed.
End Exchange.

(** C26: over any endpoint that answers, whatever its other users do meanwhile, a negotiation that
    succeeds has sent exactly the host's Hello, Capabilities and the display configuration, as
    frames 0, 1 and 2 in this order, and has read exactly the display's two introductions, from
    which the returned session follows; one that fails or still waits has sent no configuration,
    only its Hello and Capabilities in that order, or less; it never panics. *)
Theorem negotiation_exchanges_exactly `{Safety : EndpointSafety T} polls (t : T) c random timeout started
  (Ht : safe t) (Hc : HostProtocolConfig.wf c)
  (Hn : forall nonce, random = inr nonce -> length nonce = 16%nat)
  (Hd : Duration.valid (started + timeout)) :
  negotiated polls c random (started + timeout)
    (negotiate_host_transport polls (Recorder.mk t [] []) c random timeout started).
Proof. by apply negotiate_host_transport_spec. Qed.

(** ** Recording changes nothing *)
Section Erasure.
Context {T : Type} `{PacketTransport T}.
Implicit Types (r : Recorder.t T) (polls : list Poll.t).

Definition erase {A} (x : (Recorder.t T * list Poll.t) * outcome string A)
  : (T * list Poll.t) * outcome string A :=
  ((Recorder.inner (fst (fst x)), snd (fst x)), snd x).

Lemma send_erase polls r p deadline :
  send_reliable_control polls (Recorder.inner r) p deadline =
  erase (send_reliable_control polls r p deadline).
Proof.
  revert r p. induction polls as [|poll polls IH]; intros r p; [done|].
  cbn [send_reliable_control]. destruct (check_wait poll deadline) as [[]|e|f]; [|done..].
  cbn [otry try_send recorder_transport].
  destruct (try_send (Recorder.inner r) p) as [t' [rep|[q|q d l|q s l]|f]]; try done.
  by rewrite <-IH.
Qed.

Lemma await_erase polls r h deadline :
  await_display polls (Recorder.inner r) h deadline = erase (await_display polls r h deadline).
Proof.
  revert r h. induction polls as [|poll polls IH]; intros r h; [done|].
  cbn [await_display]. destruct (check_wait poll deadline) as [[]|e|f]; [|done..].
  cbn [otry try_receive recorder_transport].
  destruct (try_receive (Recorder.inner r) Channel.Control) as [t' [[p|]|e|f]]; try done;
    [|by rewrite <-IH].
  destruct (HostHandshake.accept h p) as [h1 [[est|]|e|f]]; cbn [otry]; try done; [|by rewrite <-IH].
  destruct (control_packet _ _) as [k|e|f]; cbn [otry]; try done.
  set (r' := Recorder.mk t' (Recorder.sent r) (Recorder.received r ++ [p])).
  change t' with (Recorder.inner r'). rewrite send_erase. unfold r'.
  by destruct (send_reliable_control polls _ k deadline) as [[r2 polls2] [[]|e|f]].
Qed.

Lemma negotiate_erase polls r c random timeout started :
  negotiate_host_transport polls (Recorder.inner r) c random timeout started =
  erase (negotiate_host_transport polls r c random timeout started).
Proof.
  unfold negotiate_host_transport. destruct (timeout =? 0); [done|].
  destruct (Duration.add started timeout) as [deadline|e|f]; cbn [otry]; [|done..].
  destruct (HostHandshake.new random c) as [h|e|f]; cbn [otry]; [|done..].
  destruct (HostHandshake.initial_packets h) as [[p0 p1]|e|f]; cbn [otry]; [|done..].
  rewrite send_erase.
  destruct (send_reliable_control polls r p0 deadline) as [[r1 polls1] [[]|e|f]]; cbn; [|done..].
  rewrite send_erase.
  destruct (send_reliable_control polls1 r1 p1 deadline) as [[r2 polls2] [[]|e|f]]; cbn; [|done..].
  apply await_erase.
Qed.
End Erasure.

(** ** The endpoint stays usable *)
Section Kept.
Context {T : Type} `{Safety : EndpointSafety T}.

Lemma send_safe polls (t : T) p deadline :
  safe t -> safe (fst (fst (send_reliable_control polls t p deadline))).
Proof.
  revert t p. induction polls as [|poll polls IH]; intros t p Ht; [done|].
  cbn [send_reliable_control]. destruct (check_wait poll deadline) as [[]|e|f]; [|done..].
  cbn [otry]. destruct (safe_send t p Ht) as [Hs _].
  destruct (try_send t p) as [t' [rep|[q|q d l|q s l]|f]]; try done. by apply IH.
Qed.

Lemma await_safe polls (t : T) h deadline :
  safe t -> safe (fst (fst (await_display polls t h deadline))).
Proof.
  revert t h. induction polls as [|poll polls IH]; intros t h Ht; [done|].
  cbn [await_display]. destruct (check_wait poll deadline) as [[]|e|f]; [|done..].
  cbn [otry]. destruct (safe_receive t Channel.Control Ht) as [Hs _].
  destruct (try_receive t Channel.Control) as [t' [[p|]|e|f]]; try done; [|by apply IH].
  destruct (HostHandshake.accept h p) as [h1 [[est|]|e|f]]; cbn [otry]; try done; [|by apply IH].
  destruct (control_packet _ _) as [k|e|f]; cbn [otry]; try done.
  pose proof (send_safe polls t' k deadline Hs) as Hs'.
  by destruct (send_reliable_control polls t' k deadline) as [x [[]|e|f]].
Qed.

Lemma negotiate_safe polls (t : T) c random timeout started :
  safe t -> safe (fst (fst (negotiate_host_transport polls t c random timeout started))).
Proof.
  intros Ht. unfold negotiate_host_transport. destruct (timeout =? 0); [done|].
  destruct (Duration.add started timeout) as [d|e|f]; cbn [otry]; [|done..].
  destruct (HostHandshake.new random c) as [h|e|f]; cbn [otry]; [|done..].
  destruct (HostHandshake.initial_packets h) as [[p0 p1]|e|f]; cbn [otry]; [|done..].
  pose proof (send_safe polls t p0 d Ht) as Hs.
  destruct (send_reliable_control polls t p0 d) as [[t1 polls1] [[]|e|f]]; cbn in Hs |- *; [|done..].
  pose proof (send_safe polls1 t1 p1 d Hs) as Hs1.
  destruct (send_reliable_control polls1 t1 p1 d) as [[t2 polls2] [[]|e|f]]; cbn in Hs1 |- *; [|done..].
  by apply await_safe.
Qed.
End Kept.

(** No wait outlives its deadline: once a poll sees the cancel flag or a clock at the deadline,
    a negotiation and a control send have ended, with an answer or an error and without panic,
    whatever the endpoint and its other users do. *)
Theorem waits_end_by_deadline `{Safety : EndpointSafety T} `{WirePayloadLaws P} polls (t : T) c random
  s (payload : P) timeout started
  (Ht : safe t) (Hc : HostProtocolConfig.wf c)
  (Hn : forall nonce, random = inr nonce -> length nonce = 16%nat)
  (Hp : wire_wf payload) (Hs : in_u 64 s) (Hd : Duration.valid (started + timeout))
  (Hstop : stops (started + timeout) polls) :
  returns (snd (negotiate_host_transport polls t c random timeout started)) /\
  returns (snd (send_control_payload polls t s payload timeout started)).
Proof.
  split.
  - change t with (Recorder.inner (Recorder.mk t [] [])). rewrite negotiate_erase.
    pose proof (negotiate_host_transport_spec polls t c random timeout started Ht Hc Hn Hd) as Hx.
    destruct (negotiate_host_transport polls _ c random timeout started) as [[r polls'] [est|e|f]];
      cbn in *; tauto.
  - unfold send_control_payload. destruct (timeout =? 0); [done|].
    destruct (from_payload_spec FrameFlags.NONE s payload Hp ltac:(done) Hs) as (f & Hf & _).
    unfold control_packet. rewrite Hf. cbn [map_err obind otry].
    unfold Duration.add, Duration.checked_add. rewrite (proj2 (Z.leb_le _ _) (proj2 Hd)).
    cbn [expect otry]. change t with (Recorder.inner (Recorder.mk t [] [])). rewrite send_erase.
    pose proof (send_reliable_control_spec (started + timeout) (Packet.control (Frame.encode f)) polls
      (Recorder.mk t [] []) Ht) as Hx.
    destruct (send_reliable_control polls _ _ _) as [[r polls'] [[]|e|ft]]; cbn in *; tauto.
Qed.

Module HandshakeExamples.
Definition request : HostProtocolConfig.t := HostProtocolConfig.mk 1920 1080 60.
Definition nonce : list byte := repeat x48 16.
Definition display_hello : Hello.t :=
  Hello.mk 1 1 Role.Display (repeat x44 16) (str "LadoFlow Android").
Definition display_capabilities : Capabilities.t :=
  Capabilities.mk 1280 800 60000 12000 CodecSet.H264
    (InputCapabilities.bitor InputCapabilities.POINTER InputCapabilities.TOUCH)
    FeatureFlags.DYNAMIC_ROTATION.

Definition packet_of {P} `{WirePayload P} (s : Z) (v : P) : Packet.t :=
  match control_packet s v with Ok p => p | _ => Packet.control [] end.
Definition second : Packet.t := packet_of 8 display_hello.
Definition first : Packet.t := packet_of 7 display_capabilities.

Lemma request_wf : HostProtocolConfig.wf request.
Proof. split; cbn; [lia|lia|by right]. Qed.

(** The capabilities may come first; the mode is bounded by the display. *)
Lemma handshake_completes_exactly_witness :
  exists h, HostHandshake.with_nonce request nonce = Ok h /\ exists est,
    snd (accept_all h [first; second]) = Ok (Some est) /\
    EstablishedHostSession.next_sequence est = 3.
Proof.
  destruct (handshake_completes_exactly request nonce request_wf eq_refl) as (h & Hh & H).
  exists h. split; [exact Hh|].
  destruct (H [first; second]) as [Hret Hiff].
  assert (Hh' : HostHandshake.with_nonce request nonce = Ok (HostHandshake.mk request
    (host_hello_of nonce) (host_capabilities_of request) None None None)) by (vm_compute; reflexivity).
  rewrite Hh in Hh'. injection Hh' as ->.
  destruct (accept_all _ [first; second]) as [h' [[est|]|e|f]] eqn:Ha.
  - exists est. split; [reflexivity|].
    destruct (proj1 (Hiff est) eq_refl) as (p1 & p2 & rest & hello & caps & s & _ & _ & a & d & _ & _ & ->).
    reflexivity.
  - vm_compute in Ha. discriminate Ha.
  - vm_compute in Ha. discriminate Ha.
  - destruct Hret.
Defined.

(** A display that answers once both host packets are queued. *)
Definition limits : QueueLimits.t := QueueLimits.mk 4 256 128.
Lemma handshake_limits_wf : QueueLimits.wf limits.
Proof. split; cbn; lia. Qed.
Definition shared : SharedEndpoint.t :=
  SharedEndpoint.mk Side.First (Link.new (LoopbackConfig.new limits limits))
    [[]; []; [LinkCall.Send Side.Second first; LinkCall.Send Side.Second second]].
Definition polls : list Poll.t := map (Poll.mk false) [10; 20; 30; 40; 50; 60; 1010].

Lemma shared_safe : safe shared.
Proof. intros s c. destruct s, c; by apply empty_queue_wf, handshake_limits_wf. Qed.

Lemma nonce_len : forall n, @inr string _ nonce = inr n -> length n = 16%nat.
Proof. by intros n [= <-]. Qed.

Lemma negotiation_exchanges_exactly_witness :
  safe shared /\ exists r polls' est,
    negotiate_host_transport polls (Recorder.mk shared [] []) request (inr nonce) 1000 10 =
      ((r, polls'), Ok est) /\
    length (Recorder.sent r) = 3%nat /\ Recorder.received r = [first; second].
Proof.
  split; [exact shared_safe|].
  pose proof (negotiation_exchanges_exactly polls shared request (inr nonce) 1000 10
    shared_safe request_wf nonce_len ltac:(unfold Duration.valid, Duration.MAX; lia)) as H.
  destruct (negotiate_host_transport polls (Recorder.mk shared [] []) request (inr nonce) 1000 10)
    as [[r polls'] [est|e|f]] eqn:Hrun.
  - exists r, polls', est. split; [reflexivity|].
    destruct H as (n & h & p0 & p1 & p2 & q1 & q2 & hello & caps & s & _ & _ & Hs & _).
    split; [rewrite Hs; reflexivity|].
    assert (Hr : Recorder.received (fst (fst (negotiate_host_transport polls
      (Recorder.mk shared [] []) request (inr nonce) 1000 10))) = [first; second])
      by (vm_compute; reflexivity).
    rewrite Hrun in Hr. exact Hr.
  - vm_compute in Hrun. discriminate Hrun.
  - vm_compute in Hrun. discriminate Hrun.
Defined.

(** A silent display: the clock ends the wait. *)
Definition silent : SharedEndpoint.t :=
  SharedEndpoint.mk Side.First (Link.new (LoopbackConfig.new limits limits)) [].

Lemma silent_safe : safe silent.
Proof. intros s c. destruct s, c; by apply empty_queue_wf, handshake_limits_wf. Qed.

Lemma waits_end_by_deadline_witness :
  stops (10 + 1000) polls /\
  returns (snd (negotiate_host_transport polls silent request (inr nonce) 1000 10)) /\
  returns (snd (send_control_payload polls silent 0 display_hello 1000 10)).
Proof.
  assert (Hstop : stops (10 + 1000) polls)
    by (apply Exists_exists; exists (Poll.mk false 1010); split;
        [apply list_elem_of_In; cbn; tauto|right; cbn; lia]).
  split; [exact Hstop|].
  apply (waits_end_by_deadline polls silent request (inr nonce) 0 display_hello 1000 10
    silent_safe request_wf nonce_len); [|split; lia|unfold Duration.valid, Duration.MAX; lia|exact Hstop].
  split; (done || (apply (bool_decide_unpack _); vm_compute; exact I)).
Defined.

Example silent_display_times_out :
  snd (negotiate_host_transport polls silent request (inr nonce) 1000 10) =
  Err "LDFL negotiation timed out waiting for the display".
Proof. vm_compute. reflexivity. Qed.
End HandshakeExamples.
