(* ===== verification/RustText.v ===== *)
(** * Text operations of the standard library

    The parts of [str] and [std::net] the host uses, on the UTF-8 bytes of a
    string: trimming white space, decimal numbers, and the text of IPv4
    addresses and sockets. *)
From stdpp Require Import pretty.
From S2P Require Export Bytes.
Local Open Scope list_scope.
Local Open Scope Z_scope.

(** ** [str::trim] *)

(** The rest of the string after one character of the Unicode property
    White_Space. *)
Definition strip_white (l : list byte) : option (list byte) :=
  match l with
  | x09 :: r | x0a :: r | x0b :: r | x0c :: r | x0d :: r | x20 :: r => Some r
  | xc2 :: x85 :: r | xc2 :: xa0 :: r => Some r
  | xe1 :: x9a :: x80 :: r => Some r
  | xe2 :: x80 :: x80 :: r | xe2 :: x80 :: x81 :: r | xe2 :: x80 :: x82 :: r
  | xe2 :: x80 :: x83 :: r | xe2 :: x80 :: x84 :: r | xe2 :: x80 :: x85 :: r
  | xe2 :: x80 :: x86 :: r | xe2 :: x80 :: x87 :: r | xe2 :: x80 :: x88 :: r
  | xe2 :: x80 :: x89 :: r | xe2 :: x80 :: x8a :: r | xe2 :: x80 :: xa8 :: r
  | xe2 :: x80 :: xa9 :: r | xe2 :: x80 :: xaf :: r => Some r
  | xe2 :: x81 :: x9f :: r => Some r
  | xe3 :: x80 :: x80 :: r => Some r
  | _ => None
  end.

(** The same from the end, on the reversed string. *)
Definition strip_white_rev (l : list byte) : option (list byte) :=
  match l with
  | x09 :: r | x0a :: r | x0b :: r | x0c :: r | x0d :: r | x20 :: r => Some r
  | x85 :: xc2 :: r | xa0 :: xc2 :: r => Some r
  | a :: b :: c :: r =>
    match strip_white [c; b; a] with
    | Some [] => Some r
    | _ => None
    end
  | _ => None
  end.

(** One unit of fuel per byte: each step removes at least one. *)
Fixpoint strip_all (strip : list byte -> option (list byte)) (fuel : nat) (l : list byte) : list byte :=
  match fuel with
  | O => l
  | S fuel => match strip l with Some r => strip_all strip fuel r | None => l end
  end.

Definition trim (l : list byte) : list byte :=
  let l := strip_all strip_white (length l) l in
  rev (strip_all strip_white_rev (length l) (rev l)).

(** ** Characters *)

(** [str::chars]: the scalar values of a valid string. *)
Fixpoint chars (l : list byte) : list Z :=
  let low b n := Z.land (byte_to_Z b) (2 ^ n - 1) in
  match l with
  | [] => []
  | b0 :: l0 =>
    if byte_to_Z b0 <? 0x80 then byte_to_Z b0 :: chars l0
    else match l0 with
    | [] => []
    | b1 :: l1 =>
      if byte_to_Z b0 <? 0xE0 then low b0 5 * 2 ^ 6 + low b1 6 :: chars l1
      else match l1 with
      | [] => []
      | b2 :: l2 =>
        if byte_to_Z b0 <? 0xF0 then low b0 4 * 2 ^ 12 + low b1 6 * 2 ^ 6 + low b2 6 :: chars l2
        else match l2 with
        | [] => []
        | b3 :: l3 =>
          low b0 3 * 2 ^ 18 + low b1 6 * 2 ^ 12 + low b2 6 * 2 ^ 6 + low b3 6 :: chars l3
        end
      end
    end
  end.

(** ** Text that need not be valid *)

(** [String::from_utf16_lossy]: a surrogate without its partner becomes U+FFFD. *)
Fixpoint from_utf16_lossy (units : list Z) : list byte :=
  match units with
  | [] => []
  | u :: units =>
    if (0xD800 <=? u) && (u <? 0xDC00) then
      match units with
      | v :: rest =>
        if (0xDC00 <=? v) && (v <? 0xE000)
        then utf8_encode (0x10000 + (u - 0xD800) * 0x400 + (v - 0xDC00)) ++ from_utf16_lossy rest
        else utf8_encode 0xFFFD ++ from_utf16_lossy units
      | [] => utf8_encode 0xFFFD
      end
    else if (0xDC00 <=? u) && (u <? 0xE000) then utf8_encode 0xFFFD ++ from_utf16_lossy units
    else utf8_encode u ++ from_utf16_lossy units
  end.

(** The length of the character at the front of [l], or how many bytes
    [from_utf8_lossy] replaces together. *)
Definition lossy_step (l : list byte) : nat + nat :=
  match l with
  | [] => inl 0%nat
  | b0 :: rest =>
    if byte_in b0 0 0x7F then inl 1%nat
    else match rest with
    | [] => inr 1%nat
    | b1 :: rest =>
      if byte_in b0 0xC2 0xDF then if continuation b1 then inl 2%nat else inr 1%nat
      else if byte_in b0 0xE0 0xEF then
        if negb (second_of_three b0 b1) then inr 1%nat
        else match rest with
        | b2 :: _ => if continuation b2 then inl 3%nat else inr 2%nat
        | [] => inr 2%nat
        end
      else if byte_in b0 0xF0 0xF4 then
        if negb (second_of_four b0 b1) then inr 1%nat
        else match rest with
        | b2 :: rest =>
          if negb (continuation b2) then inr 2%nat
          else match rest with
          | b3 :: _ => if continuation b3 then inl 4%nat else inr 3%nat
          | [] => inr 3%nat
          end
        | [] => inr 2%nat
        end
      else inr 1%nat
    end
  end.
Fixpoint from_utf8_lossy (fuel : nat) (l : list byte) : list byte :=
  match fuel, l with
  | S fuel, _ :: _ =>
    match lossy_step l with
    | inl n => take n l ++ from_utf8_lossy fuel (drop n l)
    | inr n => utf8_encode 0xFFFD ++ from_utf8_lossy fuel (drop n l)
    end
  | _, _ => []
  end.

Definition to_ascii_lowercase (s : string) : string :=
  text (map (fun b => let v := byte_to_Z b in if (65 <=? v) && (v <=? 90) then byte_of_Z (v + 32) else b)
    (String.list_byte_of_string s)).

(** The order of strings: Rust compares the bytes. *)
Definition string_le (a b : string) : bool :=
  match String.compare a b with Gt => false | _ => true end.

(** ** Decimal numbers *)

Definition digit_value (b : byte) : option Z :=
  let v := byte_to_Z b in if (48 <=? v) && (v <=? 57) then Some (v - 48) else None.

(** The leading digits, and the rest. *)
Fixpoint span_digits (l : list byte) : list Z * list byte :=
  match l with
  | [] => ([], [])
  | b :: r =>
    match digit_value b with
    | Some d => let (ds, rest) := span_digits r in (d :: ds, rest)
    | None => ([], l)
    end
  end.

Definition digits_value (ds : list Z) : Z := fold_left (fun acc d => acc * 10 + d) ds 0.

(** ** [std::net] *)

(** [read_number] for an octet: one to three digits, no leading zero, at most 255. *)
Definition read_octet (l : list byte) : option (Z * list byte) :=
  let (ds, rest) := span_digits l in
  match ds with
  | [] => None
  | 0 :: _ :: _ => None
  | _ => if (zlen ds <=? 3) && (digits_value ds <=? 255) then Some (digits_value ds, rest) else None
  end.

Definition read_char (c : byte) (l : list byte) : option (list byte) :=
  match l with
  | b :: r => if bool_decide (b = c) then Some r else None
  | [] => None
  end.

Module Ipv4Addr.
(** Four octets. *)
Record t : Type := mk { a : Z; b : Z; c : Z; d : Z }.
#[global] Instance t_eq_dec : EqDecision t.
Proof. solve_decision. Defined.

Definition wf (x : t) : Prop :=
  0 <= a x < 256 /\ 0 <= b x < 256 /\ 0 <= c x < 256 /\ 0 <= d x < 256.

Definition read (l : list byte) : option (t * list byte) :=
  '(a, l) ← read_octet l; l ← read_char x2e l;
  '(b, l) ← read_octet l; l ← read_char x2e l;
  '(c, l) ← read_octet l; l ← read_char x2e l;
  '(d, l) ← read_octet l; Some (mk a b c d, l).

(** [parse::<Ipv4Addr>]: the whole string. *)
Definition parse (l : list byte) : option t :=
  match read l with
  | Some (x, []) => Some x
  | _ => None
  end.

Definition is_private (x : t) : bool :=
  (a x =? 10) || ((a x =? 172) && (16 <=? b x) && (b x <=? 31)) || ((a x =? 192) && (b x =? 168)).
Definition is_link_local (x : t) : bool := (a x =? 169) && (b x =? 254).
Definition is_loopback (x : t) : bool := a x =? 127.
Definition is_unspecified (x : t) : bool := bool_decide (x = mk 0 0 0 0).
Definition is_broadcast (x : t) : bool := bool_decide (x = mk 255 255 255 255).
Definition is_multicast (x : t) : bool := (224 <=? a x) && (a x <=? 239).
End Ipv4Addr.

Module SocketAddrV4.
Record t : Type := mk { ip : Ipv4Addr.t; port : Z }.
#[global] Instance t_eq_dec : EqDecision t.
Proof. solve_decision. Defined.

(** The port is a decimal [u16]; leading zeros are allowed. *)
Definition read_port (l : list byte) : option (Z * list byte) :=
  let (ds, rest) := span_digits l in
  match ds with
  | [] => None
  | _ => if digits_value ds <=? 65535 then Some (digits_value ds, rest) else None
  end.

Definition parse (l : list byte) : option t :=
  '(x, l) ← Ipv4Addr.read l; l ← read_char x3a l; '(p, l) ← read_port l;
  match l with [] => Some (mk x p) | _ => None end.
End SocketAddrV4.

(** ** [SocketAddrV6]

    Only whether a string is one: its value is never used. *)
Module SocketAddrV6.
Definition hex_value (b : byte) : option Z :=
  let v := byte_to_Z b in
  if (48 <=? v) && (v <=? 57) then Some (v - 48)
  else if (65 <=? v) && (v <=? 70) then Some (v - 55)
  else if (97 <=? v) && (v <=? 102) then Some (v - 87)
  else None.

(** One to four hexadecimal digits: more than four is no number at all. *)
Fixpoint hex_digits (l : list byte) : nat * list byte :=
  match l with
  | b :: r => if hex_value b is Some _ then let (n, rest) := hex_digits r in (S n, rest) else (O, l)
  | [] => (O, [])
  end.
Definition read_group (l : list byte) : option (list byte) :=
  let (n, rest) := hex_digits l in if (1 <=? n)%nat && (n <=? 4)%nat then Some rest else None.

(** A group after the first is preceded by a colon. *)
Definition separated (first : bool) (l : list byte) : option (list byte) :=
  if first then Some l else read_char x3a l.

(** Up to [limit] groups: their number, whether the last two are an IPv4
    address, and the rest. *)
Fixpoint read_groups (limit : nat) (first : bool) (l : list byte) : nat * bool * list byte :=
  match limit with
  | O => (O, false, l)
  | S limit' =>
    match (if (2 <=? limit)%nat then l' ← separated first l; Ipv4Addr.read l' else None) with
    | Some (_, rest) => (2%nat, true, rest)
    | None =>
      match (l' ← separated first l; read_group l') with
      | Some rest => let '(n, v4, rest) := read_groups limit' false rest in (S n, v4, rest)
      | None => (O, false, l)
      end
    end
  end.

Definition read_ip (l : list byte) : option (list byte) :=
  let '(head, head_v4, rest) := read_groups 8 true l in
  if (head =? 8)%nat then Some rest
  else if head_v4 then None
  else
    rest ← read_char x3a rest; rest ← read_char x3a rest;
    let '(_, _, rest) := read_groups (8 - (head + 1)) true rest in Some rest.

(** [%] and a decimal [u32]. *)
Definition read_scope (l : list byte) : option (list byte) :=
  l ← read_char x25 l;
  let (ds, rest) := span_digits l in
  if negb (bool_decide (ds = [])) && (digits_value ds <? 2 ^ 32) then Some rest else None.

Definition parses (l : list byte) : bool :=
  bool_decide (is_Some (
    l ← read_char x5b l; l ← read_ip l;
    l ← read_char x5d (default l (read_scope l)); l ← read_char x3a l;
    '(_, l) ← SocketAddrV4.read_port l;
    match l with [] => Some tt | _ => None end)).
End SocketAddrV6.

(** ** Printing *)
Definition digit_byte (d : Z) : byte := byte_of_Z (48 + d).

(** [u32::from_str]: a plus sign may lead, and no digit may be missing or too many. *)
Definition parse_u32 (l : list byte) : option Z :=
  let l := match l with x2b :: r => r | _ => l end in
  let (ds, rest) := span_digits l in
  match ds, rest with
  | _ :: _, [] => checked 32 (digits_value ds)
  | _, _ => None
  end.

(** The decimal text, from at most [fuel] digits. *)
Fixpoint decimal (fuel : nat) (n : Z) : list byte :=
  match fuel with
  | O => []
  | S fuel => (if n <? 10 then [] else decimal fuel (n / 10)) ++ [digit_byte (n mod 10)]
  end.

Definition show_ip (x : Ipv4Addr.t) : list byte :=
  decimal 3 (Ipv4Addr.a x) ++ [x2e] ++ decimal 3 (Ipv4Addr.b x) ++ [x2e] ++
  decimal 3 (Ipv4Addr.c x) ++ [x2e] ++ decimal 3 (Ipv4Addr.d x).
Definition show_socket (s : SocketAddrV4.t) : list byte :=
  show_ip (SocketAddrV4.ip s) ++ [x3a] ++ decimal 5 (SocketAddrV4.port s).

(** ** What printing and parsing agree on *)
Definition no_digit_first (l : list byte) : Prop :=
  match l with [] => True | b :: _ => digit_value b = None end.

Lemma digit_value_byte d : 0 <= d < 10 -> digit_value (digit_byte d) = Some d.
Proof.
  intros ?. unfold digit_value, digit_byte. rewrite byte_to_of_Z, Z.mod_small by lia. cbn zeta.
  replace ((48 <=? 48 + d) && (48 + d <=? 57)) with true by lia. f_equal; lia.
Qed.

Lemma span_digits_app ds rest :
  Forall (fun d => 0 <= d < 10) ds -> no_digit_first rest ->
  span_digits (map digit_byte ds ++ rest) = (ds, rest).
Proof.
  intros Hds Hrest. induction Hds as [|d ds Hd _ IH]; simpl.
  - destruct rest as [|b rest]; simpl in *; [done|]. by rewrite Hrest.
  - by rewrite (digit_value_byte d Hd), IH.
Qed.

(** The digits [decimal] prints. *)
Fixpoint digits (fuel : nat) (n : Z) : list Z :=
  match fuel with
  | O => []
  | S fuel => (if n <? 10 then [] else digits fuel (n / 10)) ++ [n mod 10]
  end.

Lemma decimal_digits fuel n : decimal fuel n = map digit_byte (digits fuel n).
Proof.
  revert n. induction fuel as [|fuel IH]; intros n; [done|]. cbn [decimal digits].
  rewrite map_app, IH. by destruct (n <? 10).
Qed.

Lemma digits_value_app ds d : digits_value (ds ++ [d]) = digits_value ds * 10 + d.
Proof. unfold digits_value. by rewrite fold_left_app. Qed.

Record prints (fuel : nat) (n : Z) (ds : list Z) : Prop := {
  prints_digits : Forall (fun d => 0 <= d < 10) ds;
  prints_value : digits_value ds = n;
  prints_length : (1 <= length ds <= fuel)%nat;
  prints_canonical : forall d r, ds = 0 :: d :: r -> False;
}.

Lemma digits_print fuel n : 0 <= n < 10 ^ Z.of_nat fuel -> (0 < fuel)%nat -> prints fuel n (digits fuel n).
Proof.
  revert n. induction fuel as [|fuel IH]; intros n Hn Hf; [lia|]. cbn [digits].
  destruct (n <? 10) eqn:Hs.
  - apply Z.ltb_lt in Hs. rewrite Z.mod_small by lia.
    cbn [app].
    split; [apply Forall_singleton; lia|done|simpl; lia|done].
  - apply Z.ltb_ge in Hs. rewrite Nat2Z.inj_succ, Z.pow_succ_r in Hn by lia.
    destruct (IH (n / 10)) as [Hds Hv Hl Hc].
    { split; [apply Z.div_pos; lia|apply Z.div_lt_upper_bound; lia]. }
    { destruct fuel; [simpl in Hn; lia|lia]. }
    pose proof (Z.mod_pos_bound n 10 ltac:(lia)).
    split.
    + apply Forall_app; split; [done|apply Forall_singleton; lia].
    + rewrite digits_value_app, Hv. pose proof (Z.div_mod n 10). lia.
    + rewrite length_app; simpl; lia.
    + intros d r E. destruct (digits fuel (n / 10)) as [|a [|b l]] eqn:Ed; simpl in *; [lia| |].
      * simplify_eq. unfold digits_value in Hv; simpl in Hv.
        assert (n / 10 > 0) by (apply Z.lt_gt, Z.div_str_pos; lia). lia.
      * simplify_eq. by eapply Hc.
Qed.

Lemma read_octet_decimal n rest :
  0 <= n < 256 -> no_digit_first rest -> read_octet (decimal 3 n ++ rest) = Some (n, rest).
Proof.
  intros Hn Hrest. destruct (digits_print 3 n) as [Hds Hv Hl Hc]; [simpl; lia|lia|].
  unfold read_octet. rewrite decimal_digits, span_digits_app by done.
  rewrite Hv. replace (zlen (digits 3 n) <=? 3) with true by lia.
  replace (n <=? 255) with true by lia. cbn [andb].
  destruct (digits 3 n) as [|[|a|a] [|b l]] eqn:E; simpl in Hl; try lia; try done.
  by destruct (Hc b l).
Qed.

Lemma read_port_decimal n rest :
  in_u 16 n -> no_digit_first rest -> SocketAddrV4.read_port (decimal 5 n ++ rest) = Some (n, rest).
Proof.
  unfold in_u. intros Hn Hrest. destruct (digits_print 5 n) as [Hds Hv Hl Hc]; [simpl; lia|lia|].
  unfold SocketAddrV4.read_port. rewrite decimal_digits, span_digits_app by done. rewrite Hv.
  replace (n <=? 65535) with true by lia.
  by destruct (digits 5 n); simpl in Hl; [lia|].
Qed.

Lemma str_text l : str (text l) = l.
Proof. apply String.list_byte_of_string_of_list_byte. Qed.
(** A [u32] is read back from its decimal text. *)
Lemma parse_u32_decimal n : in_u 32 n -> parse_u32 (decimal 10 n) = Some n.
Proof.
  unfold in_u. intros Hn. destruct (digits_print 10 n) as [Hds Hv Hl Hc]; [simpl; lia|lia|].
  unfold parse_u32. assert (Hplus : match decimal 10 n with x2b :: r => r | _ => decimal 10 n end = decimal 10 n).
  { rewrite decimal_digits. destruct (digits 10 n) as [|d ds]; [done|]. inversion Hds as [|? ? Hd]; subst. cbn [map].
    assert (Hb : digit_byte d <> x2b) by (intros Hb; pose proof (digit_value_byte d Hd) as Hdv; rewrite Hb in Hdv; done).
    destruct (digit_byte d); try done. }
  rewrite Hplus, decimal_digits. pose proof (span_digits_app (digits 10 n) [] Hds I) as Hspan. rewrite app_nil_r in Hspan. rewrite Hspan, Hv.
  destruct (digits 10 n); simpl in Hl; [lia|]. unfold checked. by replace ((0 <=? n) && (n <? 2 ^ 32)) with true by lia.
Qed.

#[local] Arguments decimal : simpl never.
#[local] Arguments read_octet : simpl never.

#[local] Arguments read_char : simpl never.

Lemma read_char_same c l : read_char c (c :: l) = Some l.
Proof. unfold read_char. by rewrite bool_decide_eq_true_2. Qed.

Lemma read_show_ip x rest :
  Ipv4Addr.wf x -> no_digit_first rest -> Ipv4Addr.read (show_ip x ++ rest) = Some (x, rest).
Proof.
  intros (?&?&?&?) Hrest. destruct x as [a b c d]. unfold Ipv4Addr.read, show_ip. cbn in *.
  repeat progress (rewrite <- ?app_assoc; cbn [app]).
  repeat (rewrite read_octet_decimal by done; cbn; rewrite ?read_char_same; cbn).
  done.
Qed.

Lemma parse_show_ip x : Ipv4Addr.wf x -> Ipv4Addr.parse (show_ip x) = Some x.
Proof.
  intros Hx. unfold Ipv4Addr.parse. pose proof (read_show_ip x [] Hx I) as E.
  rewrite app_nil_r in E. by rewrite E.
Qed.

Lemma parse_show_socket s :
  Ipv4Addr.wf (SocketAddrV4.ip s) -> in_u 16 (SocketAddrV4.port s) ->
  SocketAddrV4.parse (show_socket s) = Some s.
Proof.
  intros Hx Hp. destruct s as [x p]. unfold SocketAddrV4.parse, show_socket. cbn in *.
  rewrite read_show_ip by done. cbn -[show_ip]. rewrite read_char_same. cbn.
  pose proof (read_port_decimal p [] Hp I) as E. rewrite app_nil_r in E. by rewrite E.
Qed.

(** An address without a port is no socket. *)
Lemma parse_socket_show_ip x : Ipv4Addr.wf x -> SocketAddrV4.parse (show_ip x) = None.
Proof.
  intros Hx. unfold SocketAddrV4.parse. pose proof (read_show_ip x [] Hx I) as E.
  rewrite app_nil_r in E. by rewrite E.
Qed.

Lemma digits_value_range ds : Forall (fun d => 0 <= d) ds -> 0 <= digits_value ds.
Proof.
  intros H. unfold digits_value. assert (Hgen : forall acc, 0 <= acc ->
    0 <= fold_left (fun acc d => acc * 10 + d) ds acc).
  { induction H as [|d ds ? _ IH]; intros acc Hacc; [done|]. simpl. apply IH. lia. }
  by apply Hgen.
Qed.

Lemma digit_value_range b d : digit_value b = Some d -> 0 <= d < 10.
Proof. unfold digit_value. cbn zeta. case_match; [|done]. intros; simplify_eq. lia. Qed.

Lemma span_digits_range l : Forall (fun d => 0 <= d) (fst (span_digits l)).
Proof.
  induction l as [|b l IH]; simpl; [constructor|]. destruct (digit_value b) eqn:E; [|constructor].
  destruct (span_digits l) as [ds rest]. constructor; [|done]. apply digit_value_range in E. lia.
Qed.

Lemma read_octet_range l n rest : read_octet l = Some (n, rest) -> 0 <= n < 256.
Proof.
  unfold read_octet. pose proof (span_digits_range l) as Hr.
  destruct (span_digits l) as [ds l']. apply digits_value_range in Hr. cbn [fst] in Hr.
  assert (Hin : (if (zlen ds <=? 3) && (digits_value ds <=? 255) then Some (digits_value ds, l') else None) =
    Some (n, rest) -> 0 <= n < 256).
  { destruct (_ && _) eqn:E; intros; simplify_eq. lia. }
  by destruct ds as [|[|?|?] [|]].
Qed.

Lemma read_ip_wf l x rest : Ipv4Addr.read l = Some (x, rest) -> Ipv4Addr.wf x.
Proof.
  unfold Ipv4Addr.read. intros H.
  repeat match type of H with
  | (read_octet ?l ≫= _) = Some _ =>
    let E := fresh "E" in destruct (read_octet l) as [[? ?]|] eqn:E; cbn in H; [|done];
    apply read_octet_range in E
  | (read_char ?c ?l ≫= _) = Some _ => destruct (read_char c l); cbn in H; [|done]
  end.
  by simplify_eq.
Qed.

Lemma parse_ip_wf l x : Ipv4Addr.parse l = Some x -> Ipv4Addr.wf x.
Proof.
  unfold Ipv4Addr.parse. destruct (Ipv4Addr.read l) as [[y [|]]|] eqn:E; intros; simplify_eq.
  by eapply read_ip_wf.
Qed.

Lemma parse_socket_wf l s : SocketAddrV4.parse l = Some s ->
  Ipv4Addr.wf (SocketAddrV4.ip s) /\ in_u 16 (SocketAddrV4.port s).
Proof.
  unfold SocketAddrV4.parse. intros H.
  destruct (Ipv4Addr.read l) as [[x l1]|] eqn:E; cbn in H; [|done]. apply read_ip_wf in E.
  destruct (read_char _ l1) as [l2|]; cbn in H; [|done].
  unfold SocketAddrV4.read_port in H. pose proof (span_digits_range l2) as Hr.
  destruct (span_digits l2) as [ds l3]. apply digits_value_range in Hr. cbn [fst] in Hr.
  destruct ds as [|d ds]; [done|]. destruct (_ <=? 65535) eqn:Hp; [|done]. cbn in H.
  destruct l3; simplify_eq. split; [done|]. unfold in_u, digits_value in *; cbn in *; lia.
Qed.

(** ** Trimming *)
Definition ascii_white (b : byte) : Prop := b ∈ [x09; x0a; x0b; x0c; x0d; x20].
Definition stays (l : list byte) : Prop :=
  (exists b r, l = b :: r /\ is_Some (digit_value b)) /\ (exists b r, l = r ++ [b] /\ is_Some (digit_value b)).

Lemma ascii_white_cases (P : byte -> Prop) :
  P x09 -> P x0a -> P x0b -> P x0c -> P x0d -> P x20 -> forall b, ascii_white b -> P b.
Proof. 
  intros ?????? b Hb. unfold ascii_white in Hb.
  repeat (apply elem_of_cons in Hb as [-> | Hb]; [done|]). by apply elem_of_nil in Hb.
Qed.

Lemma strip_white_ascii b r : ascii_white b -> strip_white (b :: r) = Some r.
Proof. revert b. by apply ascii_white_cases. Qed.
Lemma strip_white_rev_ascii b r : ascii_white b -> strip_white_rev (b :: r) = Some r.
Proof. revert b. by apply ascii_white_cases. Qed.

Lemma strip_all_app (strip : list byte -> option (list byte)) ws l fuel :
  (forall b r, ascii_white b -> strip (b :: r) = Some r) -> Forall ascii_white ws ->
  strip l = None -> (length ws <= fuel)%nat -> strip_all strip fuel (ws ++ l) = l.
Proof.
  intros Hs Hws Hl. revert fuel. induction Hws as [|b ws Hb _ IH]; intros fuel Hf; simpl in *.
  - destruct fuel; simpl; [done|by rewrite Hl].
  - destruct fuel as [|fuel]; [lia|]. simpl. rewrite Hs by done. apply IH. lia.
Qed.

Lemma strip_white_digit b r : is_Some (digit_value b) -> strip_white (b :: r) = None.
Proof. intros [d Hd]. by destruct b. Qed.

Lemma strip_white_third a b c : is_Some (digit_value c) -> strip_white [a; b; c] <> Some [] .
Proof.
  intros [d Hd]. destruct (strip_white [a; b; c]) as [l|] eqn:E; [|done].
  intros [= ->]. destruct a; try discriminate E; destruct b; try discriminate E; cbn in E.
  all: destruct c; first [discriminate E | discriminate Hd].
Qed.

Lemma strip_white_rev_digit b r : is_Some (digit_value b) -> strip_white_rev (b :: r) = None.
Proof.
  intros Hb. assert (Hgen : match r with
    | b' :: c' :: r' => match strip_white [c'; b'; b] with Some [] => Some r' | _ => None end
    | _ => None end = None).
  { destruct r as [|b' [|c' r']]; [done..|]. pose proof (strip_white_third c' b' b Hb).
    by destruct (strip_white [c'; b'; b]) as [[|]|]. }
  destruct Hb as [d Hd]. by destruct b; try done; exact Hgen.
Qed.

Lemma trim_padded pre post l :
  Forall ascii_white pre -> Forall ascii_white post -> stays l -> trim (pre ++ l ++ post) = l.
Proof.
  intros Hpre Hpost [(b & r & Hb & Hd) (e & q & He & Hde)]. unfold trim.
  rewrite (strip_all_app strip_white) by (auto using strip_white_ascii; first [done |
    by rewrite Hb; apply strip_white_digit | rewrite length_app; lia]).
  rewrite rev_app_distr, (strip_all_app strip_white_rev); [by rewrite rev_involutive|..].
  - auto using strip_white_rev_ascii.
  - by apply Forall_rev.
  - rewrite He, rev_app_distr. by apply strip_white_rev_digit.
  - rewrite length_rev, length_app. lia.
Qed.
