(* ===== verification/HostPlatform.v ===== *)
(** * The boundary between the host and the operating system

    Models [apps/desktop/src-tauri/src/platform/mod.rs]: the records every
    platform adapter exchanges with the runtime, the validated stream settings,
    and the adapters of the targets that have none ([Portable]), for which the
    name of the operating system is an argument. The Windows adapters have
    files of their own. *)
From stdpp Require Import pretty.
From Stdlib Require Import Floats.SpecFloat.
From S2P Require Export RustTime TransportPacket.
Local Open Scope string_scope.
Local Open Scope list_scope.
Local Open Scope Z_scope.

Module DisplaySource.
Record t : Type := mk {
  id : string;
  name : string;
  width : Z;
  height : Z;
  primary : bool;
  virtual_display : bool;
}.
#[global] Instance t_eq_dec : EqDecision t.
Proof. solve_decision. Defined.
End DisplaySource.

Module VirtualDisplayState.
Inductive t : Type :=
| Unsupported
| ClientMissing
| NotInstalled
| ServiceStopped
| Ready
| Enabling
| Enabled
| Disabling
| Failed
| Stopping.
#[global] Instance t_eq_dec : EqDecision t.
Proof. solve_decision. Defined.
End VirtualDisplayState.

Module VirtualDisplayStatus.
Record t : Type := mk {
  state : VirtualDisplayState.t;
  detail : string;
  service_installed : bool;
  service_state : string;
  enabled : bool;
  device_instance_id : option string;
  last_error : option string;
  generation : Z;
}.
#[global] Instance t_eq_dec : EqDecision t.
Proof. solve_decision. Defined.

Definition unsupported (detail : string) : t :=
  mk VirtualDisplayState.Unsupported detail false "unsupported" false None None 0.
End VirtualDisplayStatus.

Module VirtualDisplayActionReport.
Record t : Type := mk {
  passed : bool;
  status : VirtualDisplayStatus.t;
  selected_display_id : option string;
  elapsed_ms : Z;
}.
End VirtualDisplayActionReport.

Module CapturePermission.
Inductive t : Type :=
| Granted
| Required
| Unsupported.
#[global] Instance t_eq_dec : EqDecision t.
Proof. solve_decision. Defined.
End CapturePermission.

Module UsbLinkState.
Inductive t : Type :=
| Unsupported
| Ready
| Connecting
| Connected
| Failed.
#[global] Instance t_eq_dec : EqDecision t.
Proof. solve_decision. Defined.
End UsbLinkState.

Module PlatformStatus.
Record t : Type := mk {
  capture_backend : string;
  encoder_status : string;
  usb_link_state : UsbLinkState.t;
  usb_status : string;
  capture_permission : CapturePermission.t;
  virtual_display : VirtualDisplayStatus.t;
  displays : list DisplaySource.t;
}.
#[global] Instance t_eq_dec : EqDecision t.
Proof. solve_decision. Defined.

(** Assignment of the two USB fields. *)
Definition set_usb (self : t) (state : UsbLinkState.t) (status : string) : t :=
  mk (capture_backend self) (encoder_status self) state status (capture_permission self)
    (virtual_display self) (displays self).
End PlatformStatus.

Module UsbAccessoryProbeReport.
Record t : Type := mk {
  passed : bool;
  state : string;
  detail : string;
  protocol_version : option Z;
  bus_number : option Z;
  device_address : option Z;
  vendor_id : option Z;
  product_id : option Z;
  interface_number : option Z;
  input_endpoint : option Z;
  output_endpoint : option Z;
  max_packet_size : option Z;
}.
#[global] Instance t_eq_dec : EqDecision t.
Proof. solve_decision. Defined.

Definition failed (detail : string) : t :=
  mk false "unavailable" detail None None None None None None None None None.
End UsbAccessoryProbeReport.

(** The two [f64] fields are binary64 numbers. *)
Module CaptureProbeReport.
Record t : Type := mk {
  backend : string;
  display_id : string;
  display_name : string;
  width : Z;
  height : Z;
  target_fps : Z;
  elapsed_ms : Z;
  callbacks : Z;
  content_frames : Z;
  idle_frames : Z;
  incomplete_frames : Z;
  frames_with_surface : Z;
  dirty_rects : Z;
  observed_fps : spec_float;
  startup_latency_ms : option spec_float;
  pixel_format : option string;
  passed : bool;
}.
End CaptureProbeReport.

Module H264StreamConfig.
Record t : Type := mk {
  width : Z;
  height : Z;
  fps : Z;
  bitrate_kbps : Z;
}.
#[global] Instance t_eq_dec : EqDecision t.
Proof. solve_decision. Defined.

Definition new (width height fps bitrate_kbps : Z) : outcome string t :=
  if (width =? 0) || (height =? 0) || negb (width mod 2 =? 0) || negb (height mod 2 =? 0)
  then Err "H.264 dimensions must be non-zero and even"
  else if negb ((fps =? 30) || (fps =? 60))
  then Err "H.264 stream frame rate must be 30 or 60 Hz"
  else if bitrate_kbps =? 0 then Err "H.264 stream bitrate must be non-zero"
  else Ok (mk width height fps bitrate_kbps).

Record wf (c : t) : Prop := {
  wf_width : 0 < width c < 2 ^ 16 /\ Z.even (width c) = true;
  wf_height : 0 < height c < 2 ^ 16 /\ Z.even (height c) = true;
  wf_fps : fps c = 30 \/ fps c = 60;
  wf_bitrate : 0 < bitrate_kbps c < 2 ^ 32;
}.
End H264StreamConfig.

Module H264AccessUnit.
Record t : Type := mk {
  bytes : list byte;
  timestamp : Z;
  duration : Z;
  keyframe : bool;
}.
#[global] Instance t_eq_dec : EqDecision t.
Proof. solve_decision. Defined.
End H264AccessUnit.

Module H264StreamBatch.
Record t : Type := mk {
  encoder_name : string;
  access_units : list H264AccessUnit.t;
}.
End H264StreamBatch.

(** The adapters of a target without native ones, called [os]. *)
Module Portable.
Definition prepare_capture_display_mode (_display_id : option string) (_width _height : Z)
  : outcome string unit := Ok tt.

Module CapturedH264Stream.
Definition start (os : string) (_config : H264StreamConfig.t) (_display_id : option string)
  : outcome string unit :=
  Err ("native capture/H.264 streaming is not implemented for " +:+ os).
Definition try_next_batch (os : string) : outcome string (option H264StreamBatch.t) :=
  Err ("native capture/H.264 streaming is not implemented for " +:+ os).
End CapturedH264Stream.

Module NativeInputController.
Definition new (os : string) (_display_id : option string) (_stream_width _stream_height : Z)
  : outcome string unit :=
  Err ("native input injection is not implemented for " +:+ os).
End NativeInputController.

Module UsbAccessoryManager.
Inductive t : Type := mk.
Definition prepare (os : string) (_self : t) : UsbAccessoryProbeReport.t :=
  UsbAccessoryProbeReport.failed
    ("Android Open Accessory preparation is not implemented for " +:+ os +:+ " yet").
Definition reconnect (os : string) (_self : t) (_cancel : bool) : outcome string unit :=
  Err ("Android Open Accessory reconnection is not implemented for " +:+ os +:+ " yet").
Definition disconnect (_self : t) : outcome string unit := Ok tt.
Definition close_runtime_session (_self : t) : outcome string unit := Ok tt.
Definition runtime_status (_self : t) : option (UsbLinkState.t * string) := None.

Definition connection_state (_self : t) : ConnectionState.t := ConnectionState.Disconnected.
Definition try_send (self : t) (packet : Packet.t) : t * outcome SendError.t SendReport.t :=
  (self, Err (SendError.Disconnected packet)).
Definition try_receive (self : t) (_channel : Channel.t)
  : t * outcome ReceiveError.t (option Packet.t) :=
  (self, Err ReceiveError.Disconnected).
End UsbAccessoryManager.

Definition enable_virtual_display (os : string) : outcome string VirtualDisplayActionReport.t :=
  Err ("virtual-display lifecycle control is not implemented for " +:+ os).
Definition disable_virtual_display (os : string) : outcome string VirtualDisplayActionReport.t :=
  Err ("virtual-display lifecycle control is not implemented for " +:+ os).

Definition collect_status (os : string) : PlatformStatus.t :=
  let backend :=
    if bool_decide (os = "windows") then "Windows Graphics Capture adapter boundary"
    else if bool_decide (os = "linux") then "Wayland/X11 capture adapter boundary"
    else "Native capture adapter boundary" in
  PlatformStatus.mk backend
    ("Native encoder capability probe is not implemented for " +:+ os)
    UsbLinkState.Unsupported
    "Android Open Accessory host is not implemented on this platform yet."
    CapturePermission.Unsupported
    (VirtualDisplayStatus.unsupported
      "Native virtual-display lifecycle control is not implemented on this platform yet.")
    [].

Definition request_capture_access (os : string) : PlatformStatus.t := collect_status os.

Definition probe_screen_capture (os : string) (_display_id : option string) (_fps : Z)
  : outcome string CaptureProbeReport.t :=
  Err ("native capture probe is not implemented for " +:+ os).
End Portable.

#[export] Instance portable_transport : PacketTransport Portable.UsbAccessoryManager.t := {
  connection_state := Portable.UsbAccessoryManager.connection_state;
  try_send := Portable.UsbAccessoryManager.try_send;
  try_receive := Portable.UsbAccessoryManager.try_receive;
}.

(** The placeholder keeps the transport interface: it is a link that is never
    connected. *)
#[export, refine] Instance portable_laws : PacketTransportLaws Portable.UsbAccessoryManager.t := {
  endpoint_wf _ := True;
  outgoing _ _ := [];
  incoming _ _ := [];
}.
Proof.
  all: try done.
  intros t p t' e _ [= <- <-]. done.
Defined.

Lemma H264StreamConfig_new_iff w h f b c :
  in_u 16 w -> in_u 16 h -> in_u 32 b ->
  H264StreamConfig.new w h f b = Ok c <-> c = H264StreamConfig.mk w h f b /\ H264StreamConfig.wf c.
Proof.
  unfold in_u. intros Hw Hh Hb. unfold H264StreamConfig.new.
  destruct (Z.eqb_spec w 0), (Z.eqb_spec h 0); cbn [orb];
    try (split; [done|intros [-> [? ? ? ?]]; cbn in *; lia]).
  destruct (Z.eqb_spec (w mod 2) 0) as [He|He], (Z.eqb_spec (h mod 2) 0) as [Ho|Ho]; cbn [orb negb];
    rewrite Zmod_even in He, Ho;
    destruct (Z.even w) eqn:Ew, (Z.even h) eqn:Eh; try done;
    try (split; [done|intros [-> [[? ?] [? ?] ? ?]]; cbn in *; congruence]).
  destruct (Z.eqb_spec f 30), (Z.eqb_spec f 60), (Z.eqb_spec b 0); cbn [orb negb];
    split; try done; try (intros [-> [? ? ? ?]]; cbn in *; lia);
    try (by intros [-> _]); intros [= <-]; (split; [done|]); split; cbn; split_and?; (done || lia).
Qed.
