(* ===== verification/HostState.v ===== *)
(** * The host runtime's shared state

    Models the state every part of
    [apps/desktop/src-tauri/src/runtime.rs] shares ([SharedState]) with all its
    transitions, its snapshot, and the pure functions beside it: the negotiated
    parameters, the input gate, the accounting of telemetry, the reconnect
    delays and the conversions. The mutex makes each method one step. An
    instant is the time since the clock's origin; [now] is the clock at the
    call. An [f64] is a binary64 number of the Standard Library. *)
From stdpp Require Import pretty sorting.
From Stdlib Require Import Floats.SpecFloat.
From S2P Require Export CoreSession CoreLatency ProtoInput ProtoTelemetry HostPlatform HostHandshake.
Local Open Scope string_scope.
Local Open Scope list_scope.
Local Open Scope Z_scope.

Definition LATENCY_WINDOW : Z := 240.
Definition USB_NEGOTIATION_TIMEOUT : Z := Duration.from_secs 5.
Definition USB_CONTROL_SEND_TIMEOUT : Z := Duration.from_secs 1.
Definition USB_RECONNECT_WINDOW : Z := Duration.from_secs 60.
Definition USB_RECONNECT_INITIAL_DELAY : Z := Duration.from_millis 250.
Definition USB_RECONNECT_MAX_DELAY : Z := Duration.from_secs 2.
Definition SENT_VIDEO_HISTORY : Z := 1024.
Definition LOOPBACK_TRANSPORT_NAME : string := "In-memory duplex".
Definition USB_TRANSPORT_NAME : string := "Android Open Accessory USB".
Definition TETHER_TRANSPORT_NAME : string := "Android USB tether TCP".

Module LoopbackConfig.
Record t : Type := mk {
  width : Z;
  height : Z;
  fps : Z;
}.
#[global] Instance t_eq_dec : EqDecision t.
Proof. solve_decision. Defined.

Definition validate (self : t) : outcome string t :=
  if (width self =? 0) || (height self =? 0) then Err "loopback dimensions must be non-zero"
  else if negb ((fps self =? 30) || (fps self =? 60))
  then Err "loopback refresh rate must be 30 or 60 Hz"
  else Ok self.

Record wf (c : t) : Prop := {
  wf_width : 0 < width c < 2 ^ 16;
  wf_height : 0 < height c < 2 ^ 16;
  wf_fps : fps c = 30 \/ fps c = 60;
}.
End LoopbackConfig.

Module SessionPhaseView.
Inductive t : Type :=
| Idle
| Negotiating
| Connected
| Streaming
| Recovering
| Stopped
| Failed.
#[global] Instance t_eq_dec : EqDecision t.
Proof. solve_decision. Defined.
End SessionPhaseView.

Definition duration_micros_u64 (duration : Z) : Z :=
  default (u_max 64) (checked 64 (Duration.as_micros duration)).

Definition duration_micros_u32 (duration : Z) : outcome string Z :=
  ok_or (checked 32 (Duration.as_micros duration)) "synthetic frame duration exceeds protocol range".

(** ** Binary64 *)
Definition f64_of (n : Z) : spec_float := binary_normalize 53 1024 n 0 false.
Definition f64_add : spec_float -> spec_float -> spec_float := SFadd 53 1024.
Definition f64_mul : spec_float -> spec_float -> spec_float := SFmul 53 1024.
Definition f64_div : spec_float -> spec_float -> spec_float := SFdiv 53 1024.

(** [Duration::as_secs_f64]. *)
Definition as_secs_f64 (d : Z) : spec_float :=
  f64_add (f64_of (Duration.as_secs d)) (f64_div (f64_of (d mod 1000000000)) (f64_of 1000000000)).

Definition measured_fps (frames uptime : Z) : spec_float :=
  if uptime =? 0 then S754_zero false else f64_div (f64_of frames) (as_secs_f64 uptime).

Definition duration_millis (duration : Z) : spec_float := f64_mul (as_secs_f64 duration) (f64_of 1000).

(** ** Snapshots *)
Module SessionSnapshot.
Record t : Type := mk {
  phase : SessionPhaseView.t;
  transport : string;
  peer_name : option (list byte);
  last_error : option string;
  configured_width : option Z;
  configured_height : option Z;
  configured_fps : option Z;
}.
End SessionSnapshot.

Module TelemetrySnapshot.
Record t : Type := mk {
  frames_produced : Z;
  frames_presented : Z;
  frames_dropped : Z;
  frames_superseded : Z;
  actual_fps : spec_float;
  p50_latency_ms : option spec_float;
  p95_latency_ms : option spec_float;
  queue_depth : Z;
  uptime_ms : Z;
}.
End TelemetrySnapshot.

(** The compile-time strings of the target are arguments of [snapshot]. *)
Module HostSnapshot.
Record t : Type := mk {
  app_version : string;
  os : string;
  architecture : string;
  protocol_version : Z;
  session : SessionSnapshot.t;
  telemetry : TelemetrySnapshot.t;
  platform : PlatformStatus.t;
}.
End HostSnapshot.

(** ** The shared state *)
Module SharedState.
Record t : Type := mk {
  phase : SessionPhaseView.t;
  session : option Session.t;
  config : option LoopbackConfig.t;
  transport : string;
  peer_name : option (list byte);
  last_error : option string;
  started_at : option Z;
  latency : LatencyAggregator.t;
  frames_produced : Z;
  frames_presented : Z;
  frames_dropped : Z;
  frames_superseded : Z;
  queue_depth : Z;
  sent_video_ordinals : list (Z * Z);
}.

Definition new : t :=
  mk SessionPhaseView.Idle None None "No active transport" None None None
    (LatencyAggregator.new LATENCY_WINDOW) 0 0 0 0 0 [].

(** Assignments to single fields. *)
Definition set_phase (s : t) (v : SessionPhaseView.t) : t :=
  mk v (session s) (config s) (transport s) (peer_name s) (last_error s) (started_at s) (latency s)
    (frames_produced s) (frames_presented s) (frames_dropped s) (frames_superseded s)
    (queue_depth s) (sent_video_ordinals s).
Definition set_session (s : t) (v : option Session.t) : t :=
  mk (phase s) v (config s) (transport s) (peer_name s) (last_error s) (started_at s) (latency s)
    (frames_produced s) (frames_presented s) (frames_dropped s) (frames_superseded s)
    (queue_depth s) (sent_video_ordinals s).
Definition set_latency (s : t) (v : LatencyAggregator.t) : t :=
  mk (phase s) (session s) (config s) (transport s) (peer_name s) (last_error s) (started_at s) v
    (frames_produced s) (frames_presented s) (frames_dropped s) (frames_superseded s)
    (queue_depth s) (sent_video_ordinals s).
Definition set_presented (s : t) (v : Z) : t :=
  mk (phase s) (session s) (config s) (transport s) (peer_name s) (last_error s) (started_at s)
    (latency s) (frames_produced s) v (frames_dropped s) (frames_superseded s)
    (queue_depth s) (sent_video_ordinals s).
Definition set_dropped (s : t) (v : Z) : t :=
  mk (phase s) (session s) (config s) (transport s) (peer_name s) (last_error s) (started_at s)
    (latency s) (frames_produced s) (frames_presented s) v (frames_superseded s)
    (queue_depth s) (sent_video_ordinals s).
Definition set_queue_depth (s : t) (v : Z) : t :=
  mk (phase s) (session s) (config s) (transport s) (peer_name s) (last_error s) (started_at s)
    (latency s) (frames_produced s) (frames_presented s) (frames_dropped s) (frames_superseded s)
    v (sent_video_ordinals s).
Definition set_produced (s : t) (v : Z) : t :=
  mk (phase s) (session s) (config s) (transport s) (peer_name s) (last_error s) (started_at s)
    (latency s) v (frames_presented s) (frames_dropped s) (frames_superseded s)
    (queue_depth s) (sent_video_ordinals s).
Definition set_superseded (s : t) (v : Z) : t :=
  mk (phase s) (session s) (config s) (transport s) (peer_name s) (last_error s) (started_at s)
    (latency s) (frames_produced s) (frames_presented s) (frames_dropped s) v
    (queue_depth s) (sent_video_ordinals s).
Definition set_ordinals (s : t) (v : list (Z * Z)) : t :=
  mk (phase s) (session s) (config s) (transport s) (peer_name s) (last_error s) (started_at s)
    (latency s) (frames_produced s) (frames_presented s) (frames_dropped s) (frames_superseded s)
    (queue_depth s) v.

Definition reset_for_start (self : t) (config : LoopbackConfig.t) (session : Session.t) (now : Z) : t :=
  mk SessionPhaseView.Streaming (Some session) (Some config) LOOPBACK_TRANSPORT_NAME
    (Some (str "LadoFlow synthetic display")) None (Some now) (LatencyAggregator.new LATENCY_WINDOW)
    0 0 0 0 0 [].

Definition reset_for_android_negotiation (self : t) (config : LoopbackConfig.t) (transport : string)
  (now : Z) : t :=
  mk SessionPhaseView.Negotiating None (Some config) transport None None (Some now)
    (LatencyAggregator.new LATENCY_WINDOW) 0 0 0 0 0 [].

Definition establish_android_control (self : t) (config : LoopbackConfig.t) (session : Session.t)
  (peer_name : list byte) : t :=
  mk SessionPhaseView.Connected (Some session) (Some config) (transport self) (Some peer_name) None
    (started_at self) (latency self) (frames_produced self) (frames_presented self)
    (frames_dropped self) (frames_superseded self) (queue_depth self) (sent_video_ordinals self).

(** [transport_lost] acts on the session that is then discarded. *)
Definition begin_usb_recovery (self : t) (error : string) (attempt delay : Z) : t :=
  mk SessionPhaseView.Recovering None (config self) (transport self) None
    (Some ("USB link lost: " +:+ error +:+ ". Reconnect attempt " +:+ pretty attempt +:+
           " starts in " +:+ pretty (Duration.as_millis delay) +:+ " ms"))
    (started_at self) (latency self) (frames_produced self) (frames_presented self)
    (frames_dropped self) (frames_superseded self) 0 [].

Definition begin_usb_renegotiation (self : t) (config : LoopbackConfig.t) : t :=
  mk SessionPhaseView.Negotiating None (Some config) (transport self) None None
    (started_at self) (latency self) (frames_produced self) (frames_presented self)
    (frames_dropped self) (frames_superseded self) 0 [].

Definition fail_android_session (self : t) (error : string) : t :=
  mk SessionPhaseView.Failed None (config self) (transport self) None (Some error)
    (started_at self) (latency self) (frames_produced self) (frames_presented self)
    (frames_dropped self) (frames_superseded self) 0 [].

(** The reset at the end of [pair_android_tether]. *)
Definition reset_for_tether (self : t) : t :=
  mk SessionPhaseView.Idle None None TETHER_TRANSPORT_NAME None None None
    (LatencyAggregator.new LATENCY_WINDOW) 0 0 0 0 0 [].

(** The end of [stop]. *)
Definition stopped (self : t) : t :=
  set_phase (set_session self (Session.close <$> session self)) SessionPhaseView.Stopped.

Definition snapshot (self : t) (platform : PlatformStatus.t) (now : Z) (app_version os arch : string)
  : panics_or HostSnapshot.t :=
  let uptime := match started_at self with
    | Some start => Duration.saturating_sub now start | None => Duration.ZERO end in
  let! latency := LatencyAggregator.snapshot (latency self) in
  let config := config self in
  Ok (HostSnapshot.mk app_version os arch PROTOCOL_VERSION
    (SessionSnapshot.mk (phase self) (transport self) (peer_name self) (last_error self)
      (LoopbackConfig.width <$> config) (LoopbackConfig.height <$> config)
      (LoopbackConfig.fps <$> config))
    (TelemetrySnapshot.mk (frames_produced self) (frames_presented self) (frames_dropped self)
      (frames_superseded self) (measured_fps (frames_presented self) uptime)
      ((fun value => duration_millis (LatencySnapshot.p50 value)) <$> latency)
      ((fun value => duration_millis (LatencySnapshot.p95 value)) <$> latency)
      (queue_depth self) (default (u_max 64) (checked 64 (Duration.as_millis uptime))))
    platform).
End SharedState.

(** ** Parameters of a session *)
Definition integer_refresh_hz (refresh_millihz : Z) : outcome string Z :=
  if negb (refresh_millihz mod 1000 =? 0)
  then Err ("negotiated refresh rate " +:+ pretty refresh_millihz +:+
            " mHz cannot drive the integer-Hz runtime")
  else ok_or (checked 16 (refresh_millihz / 1000))
         "negotiated refresh rate exceeds the desktop range".

Definition negotiated_runtime_parameters (established : EstablishedHostSession.t)
  : outcome string (LoopbackConfig.t * InputCapabilities.t) :=
  let! agreement := ok_or (Session.agreement (EstablishedHostSession.session established))
    "established USB session has no negotiated agreement" in
  let! input := map_err ProtocolError.to_string
    (InputCapabilities.from_bits
      (NegotiatedCapabilities.input_bits (NegotiatedSession.capabilities agreement))) in
  let display := EstablishedHostSession.display_config established in
  let! fps := integer_refresh_hz (DisplayConfig.refresh_millihz display) in
  Ok (LoopbackConfig.mk (DisplayConfig.width display) (DisplayConfig.height display) fps, input).

(** The derived [Debug] of the mask. *)
Definition debug_input (c : InputCapabilities.t) : string :=
  "InputCapabilities(" +:+ pretty (InputCapabilities.bits c) +:+ ")".

Definition require_negotiated_input (event : InputEvent.t) (capabilities : InputCapabilities.t)
  : outcome string unit :=
  let check required :=
    if InputCapabilities.contains capabilities required then Ok tt
    else Err ("Android sent " +:+ debug_input required +:+
              " input without negotiating that capability") in
  match InputEvent.kind event with
  | InputEventKind.PointerMove _ _ | InputEventKind.PointerButton _ _ | InputEventKind.Wheel _ _ =>
      check InputCapabilities.POINTER
  | InputEventKind.Key _ _ _ => check InputCapabilities.KEYBOARD
  | InputEventKind.Touch _ _ _ _ _ => check InputCapabilities.TOUCH
  | InputEventKind.Focus _ =>
      if negb (InputCapabilities.bits capabilities =? 0) then Ok tt
      else Err "Android sent focus input without a negotiated input capability"
  end.

(** [iter().rev().find(...)]: the newest entry of the sequence. *)
Definition sent_ordinal (ordinals : list (Z * Z)) (sequence : Z) : option Z :=
  snd <$> List.find (fun entry => fst entry =? sequence) (rev ordinals).

(** The [while] of the history: at most [SENT_VIDEO_HISTORY] entries stay. *)
Fixpoint trim_history (ordinals : list (Z * Z)) : list (Z * Z) :=
  match ordinals with
  | [] => []
  | _ :: rest => if zlen ordinals >? SENT_VIDEO_HISTORY then trim_history rest else ordinals
  end.

(** The accounting at the end of [send_usb_h264_access_unit]. *)
Definition count_sent (state : SharedState.t) (sequence : Z) : SharedState.t :=
  let state := SharedState.set_phase state SessionPhaseView.Streaming in
  let state := SharedState.set_produced state
    (saturating_add 64 (SharedState.frames_produced state) 1) in
  let ordinal := SharedState.frames_produced state in
  SharedState.set_ordinals state
    (trim_history (SharedState.sent_video_ordinals state ++ [(sequence, ordinal)])).

Definition total_latency_micros (timings : StageTimings.t) : Z :=
  saturating_add 64 (saturating_add 64 (saturating_add 64 (saturating_add 64
    (StageTimings.capture timings) (StageTimings.encode timings))
    (StageTimings.transport timings)) (StageTimings.decode timings))
    (StageTimings.presentation timings).

Definition apply_usb_telemetry (state : SharedState.t) (telemetry : Telemetry.t)
  : SharedState.t * outcome string unit :=
  let state := SharedState.set_dropped state (Telemetry.dropped_frames telemetry) in
  let state := SharedState.set_queue_depth state (Telemetry.queue_depth telemetry) in
  let presented_ordinal :=
    if negb (Telemetry.frame_id telemetry =? 0)
    then sent_ordinal (SharedState.sent_video_ordinals state) (Telemetry.frame_id telemetry)
    else None in
  let state := match presented_ordinal with
    | Some ordinal => SharedState.set_presented state
        (saturating_sub ordinal (SharedState.frames_dropped state))
    | None => state
    end in
  let total := total_latency_micros (Telemetry.timings telemetry) in
  if total >? 0 then
    let (latency, r) := LatencyAggregator.record (SharedState.latency state)
      (Duration.from_micros total) in
    (SharedState.set_latency state latency, map_err TelemetryError.to_string r)
  else (state, Ok tt).

(** The local session of the loopback preview. *)
Definition negotiated_session (config : LoopbackConfig.t) : outcome string Session.t :=
  let! host_hello := map_err ProtocolError.to_string
    (Hello.new PROTOCOL_VERSION PROTOCOL_VERSION Role.Host (repeat x48 16)
      (str "LadoFlow desktop")) in
  let! display_hello := map_err ProtocolError.to_string
    (Hello.new PROTOCOL_VERSION PROTOCOL_VERSION Role.Display (repeat x44 16)
      (str "LadoFlow synthetic display")) in
  let! refresh := chk 32 (LoopbackConfig.fps config * 1000) in
  let! host_capabilities := map_err ProtocolError.to_string
    (Capabilities.new (LoopbackConfig.width config) (LoopbackConfig.height config) refresh 40000
      (CodecSet.bitor CodecSet.H264 CodecSet.HEVC)
      (InputCapabilities.bitor (InputCapabilities.bitor InputCapabilities.POINTER
         InputCapabilities.TOUCH) InputCapabilities.KEYBOARD)
      FeatureFlags.REMOTE_CURSOR) in
  let! display_capabilities := map_err ProtocolError.to_string
    (Capabilities.new (LoopbackConfig.width config) (LoopbackConfig.height config) refresh 20000
      CodecSet.H264 (InputCapabilities.bitor InputCapabilities.POINTER InputCapabilities.TOUCH)
      FeatureFlags.REMOTE_CURSOR) in
  let! agreement := map_err NegotiationError.to_string
    (negotiate host_hello host_capabilities display_hello display_capabilities) in
  let (session, started) := Session.start Session.new in
  let! _ := map_err SessionError.to_string started in
  let (session, established) := Session.establish session agreement StreamContinuity.Restart in
  let! _ := map_err SessionError.to_string established in
  Ok session.

(** ** Reconnect delays *)
Definition usb_reconnect_delay (attempt : Z) : Z :=
  let exponent := Z.min (saturating_sub attempt 1) 3 in
  Z.min (Duration.saturating_mul USB_RECONNECT_INITIAL_DELAY (wrapping 32 (Z.shiftl 1 exponent)))
        USB_RECONNECT_MAX_DELAY.

(** ** Facts *)
Example delays : map usb_reconnect_delay [0; 1; 2; 3; 4; 4294967295] =
  map Duration.from_millis [250; 250; 500; 1000; 2000; 2000].
Proof. vm_compute. reflexivity. Qed.

Lemma usb_reconnect_delay_bounds a : 0 <= a ->
  USB_RECONNECT_INITIAL_DELAY <= usb_reconnect_delay a <= USB_RECONNECT_MAX_DELAY.
Proof.
  intros Ha. unfold usb_reconnect_delay, saturating_sub.
  assert (Hx : exists e, Z.min (Z.max (a - 1) 0) 3 = e /\ (e = 0 \/ e = 1 \/ e = 2 \/ e = 3))
    by (eexists; split; [reflexivity|lia]).
  destruct Hx as (e & -> & [->|[->|[->| ->]]]); vm_compute; split; discriminate.
Qed.

Lemma usb_reconnect_delay_mono a b : 0 <= a <= b -> usb_reconnect_delay a <= usb_reconnect_delay b.
Proof.
  intros Hab. unfold usb_reconnect_delay, saturating_sub.
  assert (Hx : exists e f, Z.min (Z.max (a - 1) 0) 3 = e /\ Z.min (Z.max (b - 1) 0) 3 = f /\
    e <= f /\ (e = 0 \/ e = 1 \/ e = 2 \/ e = 3) /\ (f = 0 \/ f = 1 \/ f = 2 \/ f = 3))
    by (eexists _, _; split; [reflexivity|]; split; [reflexivity|lia]).
  destruct Hx as (e & f & -> & -> & Hle & [->|[->|[->| ->]]] & [->|[->|[->| ->]]]);
    try lia; vm_compute; discriminate.
Qed.

Lemma trim_history_drop l : trim_history l = drop (length l - 1024) l.
Proof.
  induction l as [|x l IH]; [done|]. cbn [trim_history]. unfold SENT_VIDEO_HISTORY.
  rewrite Z.gtb_ltb. destruct (Z.ltb_spec 1024 (zlen (x :: l))) as [Hlt|Hge]; cbn [length] in *.
  - rewrite IH. replace (S (length l) - 1024)%nat with (S (length l - 1024)) by lia. done.
  - by replace (S (length l) - 1024)%nat with 0%nat by lia.
Qed.

(** Compute the fields of a state after assignments. *)
Ltac state_fields :=
  cbn [SharedState.set_phase SharedState.set_session SharedState.set_latency SharedState.set_presented
    SharedState.set_dropped SharedState.set_queue_depth SharedState.set_produced
    SharedState.set_superseded SharedState.set_ordinals SharedState.phase SharedState.session
    SharedState.config SharedState.transport SharedState.peer_name SharedState.last_error
    SharedState.started_at SharedState.latency SharedState.frames_produced SharedState.frames_presented
    SharedState.frames_dropped SharedState.frames_superseded SharedState.queue_depth
    SharedState.sent_video_ordinals].

(** *** The accounts of a running session *)

(** The entries of the history number frames the host has sent below [next],
    in the order they were sent, with their ordinals among all frames. *)
Definition earlier (a b : Z * Z) : Prop := fst a < fst b /\ snd a <= snd b.
Record accounts (s : SharedState.t) (next : Z) : Prop := {
  acc_sorted : StronglySorted earlier (SharedState.sent_video_ordinals s);
  acc_range : Forall (fun e => 0 < fst e < next /\ 0 < snd e <= SharedState.frames_produced s)
    (SharedState.sent_video_ordinals s);
  acc_len : zlen (SharedState.sent_video_ordinals s) <= SENT_VIDEO_HISTORY;
  acc_produced : in_u 64 (SharedState.frames_produced s);
  acc_presented : 0 <= SharedState.frames_presented s <= SharedState.frames_produced s;
  acc_latency : LatencyAggregator.wf (SharedState.latency s);
  acc_session : forall x, SharedState.session s = Some x -> session_inv x;
}.

Lemma accounts_later s next later : accounts s next -> next <= later -> accounts s later.
Proof.
  intros [Hs Hr Hl Hp Hq Hla Hse] Hle. split; try done.
  eapply Forall_impl; [exact Hr|]. intros [a b]; cbn [fst snd]. lia.
Qed.

Lemma fresh_latency_wf : LatencyAggregator.wf (LatencyAggregator.new LATENCY_WINDOW).
Proof. split; cbn; try done. Qed.

Lemma sorted_drop {A} (R : A -> A -> Prop) n l : StronglySorted R l -> StronglySorted R (drop n l).
Proof. rewrite <-(take_drop n l) at 1. apply StronglySorted_app_1_r. Qed.

Lemma earlier_key l a b c :
  StronglySorted earlier l -> (a, b) ∈ l -> (a, c) ∈ l -> b = c.
Proof.
  induction 1 as [|[x y] l Hs IH Hx]; [by intros Hn%not_elem_of_nil|].
  rewrite Forall_forall in Hx. rewrite !elem_of_cons.
  intros [[= -> ->]|H1] [[= H2]|H2]; [by subst| | |by apply IH].
  - apply Hx in H2 as [H2 _]; cbn [fst] in H2; lia.
  - subst. apply Hx in H1 as [H1 _]; cbn [fst] in H1; lia.
Qed.

Lemma count_sent_accounts s next sequence :
  accounts s next -> next <= sequence -> 0 < sequence -> accounts (count_sent s sequence) (sequence + 1).
Proof.
  intros [Hs Hr Hl Hp Hq Hla Hse] Hn H0.
  assert (Hsat : SharedState.frames_produced s <= saturating_add 64 (SharedState.frames_produced s) 1 /\
    in_u 64 (saturating_add 64 (SharedState.frames_produced s) 1) /\
    0 < saturating_add 64 (SharedState.frames_produced s) 1)
    by (unfold_int; lia).
  destruct Hsat as (Hsat & Hin & Hpos).
  set (l := SharedState.sent_video_ordinals s ++ [(sequence, saturating_add 64 (SharedState.frames_produced s) 1)]).
  assert (Hlen : length l = S (length (SharedState.sent_video_ordinals s)))
    by (unfold l; rewrite length_app; cbn [length]; lia).
  split; unfold count_sent; state_fields; fold l; rewrite ?trim_history_drop; try done.
  - apply sorted_drop, StronglySorted_app_2; [|done|by repeat constructor].
    intros x y Hx [= ->]%list_elem_of_singleton. rewrite Forall_forall in Hr.
    apply Hr in Hx as [? ?]. split; cbn [fst snd]; lia.
  - apply Forall_drop, Forall_app. split; [|repeat constructor; cbn [fst snd]; lia].
    eapply Forall_impl; [exact Hr|]. intros [a b] [Ha Hb]; cbn [fst snd] in *; lia.
  - rewrite length_drop, Hlen. unfold SENT_VIDEO_HISTORY in *. lia.
  - lia.
Qed.

(** The search from the newest end finds the one entry of a number. *)
Lemma sent_ordinal_Some s next sequence ordinal :
  accounts s next ->
  sent_ordinal (SharedState.sent_video_ordinals s) sequence = Some ordinal <->
  (sequence, ordinal) ∈ SharedState.sent_video_ordinals s.
Proof.
  intros [Hs _ _ _ _ _ _]. unfold sent_ordinal. revert Hs.
  generalize (SharedState.sent_video_ordinals s). intros l Hs. split.
  - intros (e & Hf & He)%fmap_Some. apply List.find_some in Hf as [Hin Heq].
    apply in_rev, list_elem_of_In in Hin. bool_to_Z. destruct e; cbn [fst snd] in *. by subst.
  - intros Hin. destruct (List.find _ (rev l)) as [[a b]|] eqn:Hf.
    + apply List.find_some in Hf as [Hab Heq]. apply in_rev, list_elem_of_In in Hab.
      cbn [fst] in Heq. bool_to_Z. subst a. cbn. f_equal.
      by apply (earlier_key l sequence).
    + pose proof (List.find_none _ _ Hf (sequence, ordinal)) as Hx. cbn [fst] in Hx.
      rewrite Z.eqb_refl in Hx. apply list_elem_of_In, in_rev in Hin.
      by discriminate Hx.
Qed.

(** The sum of the five stages does not saturate. *)
Lemma total_latency_exact t :
  StageTimings.wf t -> total_latency_micros t = sum (StageTimings.durations t) /\
    0 <= total_latency_micros t <= 300000000.
Proof.
  unfold StageTimings.wf, StageTimings.durations, MAX_STAGE_DURATION_MICROS. intros Ht.
  repeat (apply Forall_cons in Ht as [? Ht]). unfold total_latency_micros, sum. cbn [foldr].
  unfold_int. lia.
Qed.

Lemma record_micros a n :
  LatencyAggregator.wf a -> in_u 64 n ->
  LatencyAggregator.record a (Duration.from_micros n) =
    (LatencyAggregator.mk
       ((if zlen (LatencyAggregator.samples_micros a) =? LatencyAggregator.capacity a
         then tl (LatencyAggregator.samples_micros a) else LatencyAggregator.samples_micros a) ++ [n])
       (LatencyAggregator.capacity a) (saturating_add 64 (LatencyAggregator.total_sample_count a) 1),
     Ok tt) /\
  LatencyAggregator.wf (fst (LatencyAggregator.record a (Duration.from_micros n))).
Proof.
  unfold in_u, Duration.from_micros. intros Ha Hn. split; [|apply record_wf; [done|lia]].
  rewrite record_spec by (done || lia). unfold Duration.as_micros. rewrite Z.div_mul by lia.
  by rewrite (proj2 (Z.ltb_lt n (2 ^ 64))) by lia.
Qed.

(** What a report changes. *)
Record reported (s s' : SharedState.t) (t : Telemetry.t) : Prop := {
  rep_dropped : SharedState.frames_dropped s' = Telemetry.dropped_frames t;
  rep_queue : SharedState.queue_depth s' = Telemetry.queue_depth t;
  rep_known : forall ordinal, (Telemetry.frame_id t, ordinal) ∈ SharedState.sent_video_ordinals s ->
    SharedState.frames_presented s' = Z.max (ordinal - Telemetry.dropped_frames t) 0;
  rep_unknown : (forall ordinal, (Telemetry.frame_id t, ordinal) ∉ SharedState.sent_video_ordinals s) ->
    SharedState.frames_presented s' = SharedState.frames_presented s;
  rep_latency : let total := sum (StageTimings.durations (Telemetry.timings t)) in
    let old := LatencyAggregator.samples_micros (SharedState.latency s) in
    LatencyAggregator.samples_micros (SharedState.latency s') =
      if total =? 0 then old
      else (if zlen old =? LatencyAggregator.capacity (SharedState.latency s) then tl old else old)
             ++ [total];
  rep_phase : SharedState.phase s' = SharedState.phase s;
  rep_session : SharedState.session s' = SharedState.session s;
  rep_config : SharedState.config s' = SharedState.config s;
  rep_error : SharedState.last_error s' = SharedState.last_error s;
  rep_produced : SharedState.frames_produced s' = SharedState.frames_produced s;
  rep_ordinals : SharedState.sent_video_ordinals s' = SharedState.sent_video_ordinals s;
}.

Lemma apply_usb_telemetry_spec s next t :
  accounts s next -> Telemetry.wf t ->
  exists s', apply_usb_telemetry s t = (s', Ok tt) /\ reported s s' t /\ accounts s' next.
Proof.
  intros Hs Ht. pose proof (total_latency_exact _ (Telemetry.wf_timings t Ht)) as [Hsum Hrange].
  destruct (record_micros (SharedState.latency s) (total_latency_micros (Telemetry.timings t))
    (acc_latency s next Hs) ltac:(unfold in_u; lia)) as [Hrec Hlat].
  assert (Hid : (if negb (Telemetry.frame_id t =? 0)
      then sent_ordinal (SharedState.sent_video_ordinals s) (Telemetry.frame_id t) else None) =
    sent_ordinal (SharedState.sent_video_ordinals s) (Telemetry.frame_id t)).
  { destruct (Z.eqb_spec (Telemetry.frame_id t) 0) as [H0|]; [|done]. cbn [negb]. symmetry.
    destruct (sent_ordinal _ _) as [o|] eqn:Ho; [|done]. apply (sent_ordinal_Some s next) in Ho; [|done].
    pose proof (acc_range s next Hs) as Hr. rewrite Forall_forall in Hr. apply Hr in Ho. cbn in Ho. lia. }
  unfold apply_usb_telemetry. state_fields. rewrite Hid, Z.gtb_ltb.
  pose proof (sent_ordinal_Some s next (Telemetry.frame_id t)) as Hfind.
  pose proof (acc_range s next Hs) as Hr. rewrite Forall_forall in Hr.
  pose proof (Telemetry.wf_dropped t Ht) as [Hd0 _].
  unfold saturating_sub in *.
  destruct (sent_ordinal (SharedState.sent_video_ordinals s) (Telemetry.frame_id t)) as [o|];
    [assert (Hin : (Telemetry.frame_id t, o) ∈ SharedState.sent_video_ordinals s) by (by apply Hfind);
     pose proof (Hr _ Hin) as [_ Ho]; cbn [snd] in Ho|];
    state_fields;
    (destruct (Z.ltb_spec 0 (total_latency_micros (Telemetry.timings t))) as [Hpos|Hz];
     [rewrite Hrec in Hlat |- *|]; eexists; (split; [reflexivity|]); (split;
       [split; state_fields; cbn [LatencyAggregator.samples_micros]; try done
       |destruct Hs; split; state_fields; (done || lia)])).
  all: try (intros o' Ho'; rewrite (earlier_key _ _ o' o (acc_sorted s next Hs) Ho' Hin); done).
  all: try (intros Hno; by destruct (Hno _ Hin)).
  all: try (intros o' Ho'; apply Hfind in Ho'; done).
  all: rewrite <-Hsum; destruct (Z.eqb_spec (total_latency_micros (Telemetry.timings t)) 0); (done || lia).
Qed.

(** *** The parameters of an agreed session *)

(** What the worker starts with: the parameters are those of the announced
    configuration, and the encoder takes them exactly when the dimensions are even. *)
Record started_with (est : EstablishedHostSession.t) (a : NegotiatedSession.t)
    (config : LoopbackConfig.t) (input : InputCapabilities.t) : Prop := {
  st_agreement : Session.agreement (EstablishedHostSession.session est) = Some a;
  st_config : LoopbackConfig.wf config;
  st_width : LoopbackConfig.width config =
    DisplayConfig.width (EstablishedHostSession.display_config est);
  st_height : LoopbackConfig.height config =
    DisplayConfig.height (EstablishedHostSession.display_config est);
  st_fps : LoopbackConfig.fps config * 1000 =
    DisplayConfig.refresh_millihz (EstablishedHostSession.display_config est);
  st_input : InputCapabilities.bits input =
    NegotiatedCapabilities.input_bits (NegotiatedSession.capabilities a);
  st_encoder : let bitrate := DisplayConfig.bitrate_kbps (EstablishedHostSession.display_config est) in
    succeeds (H264StreamConfig.new (LoopbackConfig.width config) (LoopbackConfig.height config)
      (LoopbackConfig.fps config) bitrate) <->
    Z.even (LoopbackConfig.width config) = true /\ Z.even (LoopbackConfig.height config) = true;
}.

Lemma agreed_parameters c nonce h hello caps s est :
  HostProtocolConfig.wf c -> length nonce = 16%nat -> HostHandshake.with_nonce c nonce = Ok h ->
  Capabilities.wf caps -> agreed_session h hello caps s est ->
  exists a config input, negotiated_runtime_parameters est = Ok (config, input) /\
    started_with est a config input.
Proof.
  intros Hc Hn Hh Hcaps (a & d & Ha & Hd & ->).
  destruct (with_nonce_ok c nonce Hc Hn) as (h' & Hh' & _ & Hw & _ & Hcfg & _ & Hhc).
  rewrite Hh in Hh'. injection Hh' as <-.
  pose proof (negotiate_wf _ _ _ _ _ (hw_host h Hw) Hcaps Ha) as Hcw.
  pose proof (select_display_config_spec _ a (hw_config h Hw) Hcw) as Hsel.
  rewrite Hd in Hsel. destruct Hsel as ([Hdw Hdh Hdr Hdb _] & _ & _ & Hr & _).
  assert (Hfps : exists f, (f = 30 \/ f = 60) /\ DisplayConfig.refresh_millihz d = f * 1000)
    by (rewrite Hr; case_match; [exists 60|exists 30]; (split; [tauto|reflexivity])).
  clear Hr. destruct Hfps as (f & Hf & Hfr).
  pose proof (NegotiatedCapabilities.wf_input _ Hcw) as Hin.
  exists a, (LoopbackConfig.mk (DisplayConfig.width d) (DisplayConfig.height d) f),
    (InputCapabilities.mk (NegotiatedCapabilities.input_bits (NegotiatedSession.capabilities a))).
  split.
  - unfold negotiated_runtime_parameters. cbn [EstablishedHostSession.session Session.agreement ok_or obind
      EstablishedHostSession.display_config].
    assert (Hb : in_u 16 (NegotiatedCapabilities.input_bits (NegotiatedSession.capabilities a)))
      by (unfold in_u; lia).
    rewrite (proj2 (input_from_bits_spec _ _ Hb) (conj eq_refl Hin)).
    cbn [map_err obind]. unfold integer_refresh_hz.
    rewrite Hfr, Z.mod_mul, Z.div_mul, checked_in by (unfold in_u; lia). done.
  - split; cbn [EstablishedHostSession.session EstablishedHostSession.display_config LoopbackConfig.width
      LoopbackConfig.height LoopbackConfig.fps InputCapabilities.bits]; try done.
    cbn zeta. split.
    + intros [x Hx]. apply H264StreamConfig_new_iff in Hx as [-> [[_ Hw1] [_ Hh1] _ _]];
        [done|unfold in_u; lia..].
    + intros [Hew Heh]. eexists. apply H264StreamConfig_new_iff; [unfold in_u; lia..|].
      split; [reflexivity|]. by split.
Qed.

(** *** The session of the loopback preview *)

(** Every accepted preview request negotiates, with the preview display's limits. *)
Lemma negotiated_session_ok c :
  LoopbackConfig.wf c ->
  negotiated_session c = Ok (Session.mk SessionPhase.Active
    (Some (NegotiatedSession.mk 1 (NegotiatedCapabilities.mk (LoopbackConfig.width c)
      (LoopbackConfig.height c) (LoopbackConfig.fps c * 1000) 20000 1 3 2))) 1 0 None).
Proof.
  intros [Hw Hh Hf]. unfold negotiated_session.
  assert (H1 : Hello.new PROTOCOL_VERSION PROTOCOL_VERSION Role.Host (repeat x48 16)
    (str "LadoFlow desktop") = Ok (Hello.mk 1 1 Role.Host (repeat x48 16) (str "LadoFlow desktop")))
    by reflexivity.
  assert (H2 : Hello.new PROTOCOL_VERSION PROTOCOL_VERSION Role.Display (repeat x44 16)
    (str "LadoFlow synthetic display") =
    Ok (Hello.mk 1 1 Role.Display (repeat x44 16) (str "LadoFlow synthetic display"))) by reflexivity.
  rewrite H1, H2. cbn [map_err obind]. rewrite chk_ok by (unfold in_u; lia). cbn [obind].
  assert (Hcaps : forall bitrate codecs input features,
    0 < bitrate -> CodecSet.bits codecs <> 0 ->
    Capabilities.new (LoopbackConfig.width c) (LoopbackConfig.height c) (LoopbackConfig.fps c * 1000)
      bitrate codecs input features =
    Ok (Capabilities.mk (LoopbackConfig.width c) (LoopbackConfig.height c) (LoopbackConfig.fps c * 1000)
      bitrate codecs input features)).
  { intros bitrate codecs input features Hb Hc. apply Capabilities_new_iff; [lia..|].
    split; [reflexivity|]. split_and!; (done || lia). }
  rewrite !Hcaps by done. cbn [map_err obind]. unfold negotiate. rewrite Z.gtb_ltb.
  cbn [Hello.role Hello.min_protocol Hello.max_protocol Capabilities.codecs Capabilities.max_width
    Capabilities.max_height Capabilities.max_refresh_millihz Capabilities.max_bitrate_kbps
    Capabilities.input Capabilities.features]. rewrite bool_decide_eq_false_2 by done.
  rewrite !Z.min_id. reflexivity.
Qed.

(** *** Snapshots *)

(** The statistics of a well-formed window never fail, so a snapshot is always taken. *)
Lemma snapshot_succeeds s platform now v os arch :
  LatencyAggregator.wf (SharedState.latency s) ->
  succeeds (SharedState.snapshot s platform now v os arch).
Proof.
  intros Hs. unfold SharedState.snapshot. pose proof (snapshot_spec _ Hs) as Hl.
  destruct (decide (LatencyAggregator.samples_micros (SharedState.latency s) = [])) as [He|He].
  - unfold LatencyAggregator.snapshot, LatencyAggregator.is_empty. rewrite bool_decide_eq_true_2 by done.
    by eexists.
  - destruct (Hl He) as (shot & -> & _). by eexists.
Qed.

(** ** Properties of the shared state *)

(** A telemetry report is always applied, without error or panic: the dropped count and the queue
    depth are the report's; if the named frame is in the history of sent frames, the presented
    count becomes its ordinal among all frames less the dropped ones, and otherwise stays; a
    positive total latency enters the window as its newest sample; nothing else changes, and the
    accounts stay consistent (presented frames never outnumber produced ones). *)
Theorem telemetry_is_applied_exactly s next t (Hs : accounts s next) (Ht : Telemetry.wf t) :
  exists s', apply_usb_telemetry s t = (s', Ok tt) /\ reported s s' t /\ accounts s' next.
Proof. by apply apply_usb_telemetry_spec. Qed.

(** The parameters a worker takes from a completed handshake are always defined: the size, the
    integer refresh rate (30 or 60) and the input kinds are exactly the announced configuration's
    and the agreement's, and the encoder accepts them exactly when both dimensions are even. *)
Theorem session_parameters_follow_handshake c nonce h hello caps s est
  (Hc : HostProtocolConfig.wf c) (Hn : length nonce = 16%nat)
  (Hh : HostHandshake.with_nonce c nonce = Ok h) (Hcaps : Capabilities.wf caps)
  (Hag : agreed_session h hello caps s est) :
  exists a config input, negotiated_runtime_parameters est = Ok (config, input) /\
    started_with est a config input.
Proof. by eapply agreed_parameters. Qed.

Module HostStateExamples.
Definition shown : SharedState.t :=
  count_sent (count_sent (SharedState.reset_for_android_negotiation SharedState.new
    (LoopbackConfig.mk 1280 720 60) USB_TRANSPORT_NAME 0) 3) 5.
Lemma shown_accounts : accounts shown 6.
Proof.
  apply (count_sent_accounts _ 4 5); [|lia..]. apply (count_sent_accounts _ 3 3); [|lia..].
  split; cbn; (done || apply fresh_latency_wf || constructor).
Qed.
Definition report : Telemetry.t :=
  Telemetry.mk 9 5 (StageTimings.mk 100 200 300 400 500) 1 0 1 0 ThermalState.Nominal.
Lemma report_wf : Telemetry.wf report.
Proof. split; unfold StageTimings.wf; apply (bool_decide_unpack _); by vm_compute. Qed.

Lemma telemetry_is_applied_exactly_witness :
  exists s', apply_usb_telemetry shown report = (s', Ok tt) /\
    SharedState.frames_presented s' = 1 /\
    LatencyAggregator.samples_micros (SharedState.latency s') = [1500].
Proof.
  destruct (telemetry_is_applied_exactly shown 6 report shown_accounts report_wf) as (s' & Hs & Hr & _).
  exists s'. split; [exact Hs|]. split.
  - rewrite (rep_known _ _ _ Hr 2); [reflexivity|]. apply list_elem_of_In. vm_compute. tauto.
  - rewrite (rep_latency _ _ _ Hr). reflexivity.
Defined.

Lemma session_parameters_follow_handshake_witness :
  exists h est config input,
    HostHandshake.with_nonce HandshakeExamples.request HandshakeExamples.nonce = Ok h /\
    HostHandshake.establish (HostHandshake.mk (HostHandshake.config h) (HostHandshake.host_hello h)
      (HostHandshake.host_capabilities h) (Some HandshakeExamples.display_hello)
      (Some HandshakeExamples.display_capabilities) (Some 8)) = Ok est /\
    negotiated_runtime_parameters est = Ok (config, input) /\ LoopbackConfig.fps config = 60.
Proof.
  set (h := HostHandshake.mk HandshakeExamples.request (host_hello_of HandshakeExamples.nonce)
    (host_capabilities_of HandshakeExamples.request) None None None).
  assert (Hh : HostHandshake.with_nonce HandshakeExamples.request HandshakeExamples.nonce = Ok h)
    by (vm_compute; reflexivity).
  set (caps := NegotiatedCapabilities.mk 1280 800 60000 12000 1 3 0).
  set (d := DisplayConfig.mk 1280 720 60000 6635 VideoCodec.H264 CodecProfile.H264Main).
  set (est := EstablishedHostSession.mk
    (Session.mk SessionPhase.Active (Some (NegotiatedSession.mk 1 caps)) 1 0 (Some 8)) d
    (str "LadoFlow Android") 3).
  destruct (session_parameters_follow_handshake HandshakeExamples.request HandshakeExamples.nonce h
    HandshakeExamples.display_hello HandshakeExamples.display_capabilities 8 est
    HandshakeExamples.request_wf eq_refl Hh) as (a & config & input & Hp & Hst).
  - split; unfold CodecSet.wf, InputCapabilities.wf, FeatureFlags.wf;
      apply (bool_decide_unpack _); vm_compute; exact I.
  - exists (NegotiatedSession.mk 1 caps), d. split; [vm_compute; reflexivity|].
    split; [vm_compute; reflexivity|]. reflexivity.
  - exists h, est, config, input. split; [exact Hh|]. split; [vm_compute; reflexivity|].
    split; [exact Hp|]. pose proof (st_fps _ _ _ _ Hst) as Hf. cbn in Hf. lia.
Defined.
End HostStateExamples.
