(* ===== verification/HostStream.v ===== *)
(** * The host's streaming session

    Models the session worker of [apps/desktop/src-tauri/src/runtime.rs]: the
    media clock, sending an encoded access unit, handling a control packet, and
    [run_android_control_session_inner], the loop that negotiates and then
    serves one display. The native adapters are the class [NativePlatform]. The
    worker's environment is its transport, the random source, and what each turn
    of the loop observes of the clock and the cancel flag ([Turn]). *)
From stdpp Require Import pretty sorting.
From S2P Require Export HostState ProtoControl.
Local Open Scope string_scope.
Local Open Scope list_scope.
Local Open Scope Z_scope.

(** ** The media clock *)

(** The answer holds the offset, which the call may set or move. *)
Definition align_media_clock (access_units : list H264AccessUnit.t) (now : Z) (offset : option Z)
  : option Z * outcome string unit :=
  let? first := ok_or (head access_units) "Windows H.264 batch is unexpectedly empty"
    keeping offset in
  let current_offset :=
    default (Duration.saturating_sub now (H264AccessUnit.timestamp first)) offset in
  let offset := Some current_offset in
  let? scheduled := ok_or (Duration.checked_add current_offset (H264AccessUnit.timestamp first))
    "H.264 media clock overflowed" keeping offset in
  let? late_threshold := ok_or (Duration.checked_mul (H264AccessUnit.duration first) 2)
    "H.264 frame duration overflowed" keeping offset in
  if H264AccessUnit.keyframe first && (Duration.saturating_sub now scheduled >? late_threshold)
  then (Some (Duration.saturating_sub now (H264AccessUnit.timestamp first)), Ok tt)
  else (offset, Ok tt).

(** ** The native adapters a session drives *)

(** [V] is the state of a capture stream, [U] of an input controller. *)
Class NativePlatform (V U : Type) := {
  prepare_capture_display_mode : option string -> Z -> Z -> outcome string unit;
  start_capture_stream : H264StreamConfig.t -> option string -> outcome string V;
  try_next_batch : V -> V * outcome string (option H264StreamBatch.t);
  new_input_controller : option string -> Z -> Z -> outcome string U;
  inject : U -> InputEvent.t -> U * outcome string unit;
  drop_input_controller : U -> U;
}.

(** The adapters answer. [device_ok] holds of a controller that was made for a stream of
    some size, and stays; the event of [inject] is one the protocol decodes. *)
Class NativePlatformAnswers (V U : Type) `{NativePlatform V U} := {
  device_ok : U -> Prop;
  prepare_returns : forall d w h, returns (prepare_capture_display_mode d w h);
  start_returns : forall c d, returns (start_capture_stream c d);
  batch_returns : forall v, returns (snd (try_next_batch v));
  controller_returns : forall d w h, returns (new_input_controller d w h);
  controller_ok : forall d w h u, in_u 16 w -> in_u 16 h ->
    new_input_controller d w h = Ok u -> device_ok u;
  inject_answers : forall u event, device_ok u -> InputEvent.wf event ->
    device_ok (fst (inject u event)) /\ returns (snd (inject u event));
}.

Definition start_negotiated_capture_stream `{NativePlatform V U} (display_id : option string)
  (config : LoopbackConfig.t) (bitrate_kbps : Z) : outcome string V :=
  let! _ := prepare_capture_display_mode display_id (LoopbackConfig.width config)
    (LoopbackConfig.height config) in
  let! stream_config := H264StreamConfig.new (LoopbackConfig.width config)
    (LoopbackConfig.height config) (LoopbackConfig.fps config) bitrate_kbps in
  start_capture_stream stream_config display_id.

(** ** The state of a session *)

(** What the session's helpers change. *)
Module Link.
Record t (T U : Type) : Type := mk {
  shared : SharedState.t;
  transport : T;
  input : U;
  next_sequence : Z;
}.
Arguments mk {T U} shared transport input next_sequence.
Arguments shared {T U} t.
Arguments transport {T U} t.
Arguments input {T U} t.
Arguments next_sequence {T U} t.
Definition set_shared {T U} (l : t T U) (v : SharedState.t) : t T U :=
  mk v (transport l) (input l) (next_sequence l).
Definition set_transport {T U} (l : t T U) (v : T) : t T U :=
  mk (shared l) v (input l) (next_sequence l).
Definition set_input {T U} (l : t T U) (v : U) : t T U :=
  mk (shared l) (transport l) v (next_sequence l).
Definition set_next {T U} (l : t T U) (v : Z) : t T U :=
  mk (shared l) (transport l) (input l) v.
End Link.

(** The locals of the loop. *)
Module Run.
Record t (T V U : Type) : Type := mk {
  link : Link.t T U;
  video_stream : V;
  access_units : list H264AccessUnit.t;
  media_clock_offset : option Z;
  encoder_name : option string;
}.
Arguments mk {T V U} link video_stream access_units media_clock_offset encoder_name.
Arguments link {T V U} t.
Arguments video_stream {T V U} t.
Arguments access_units {T V U} t.
Arguments media_clock_offset {T V U} t.
Arguments encoder_name {T V U} t.
Definition set_link {T V U} (r : t T V U) (v : Link.t T U) : t T V U :=
  mk v (video_stream r) (access_units r) (media_clock_offset r) (encoder_name r).
End Run.

(** What a reply to a probe observes: the clock since the session's origin when
    the probe was taken up and when its answer was made, the clock at the send
    and the polls of the send. *)
Module Reply.
Record t : Type := mk {
  received_at : Z;
  answered_at : Z;
  started : Z;
  polls : list Poll.t;
}.
End Reply.

(** What one turn observes: the cancel flag, a reply, and the session's clock
    when a batch is aligned and when the next unit is considered. *)
Module Turn.
Record t : Type := mk {
  cancelled : bool;
  reply : Reply.t;
  aligned_at : Z;
  due_at : Z;
}.
End Turn.

Section Session.
Context {T V U : Type} `{PacketTransport T} `{NativePlatform V U}.
Implicit Types (link : Link.t T U) (run : Run.t T V U).

(** ** Sending an access unit *)
Definition send_usb_h264_access_unit link (unit_ : H264AccessUnit.t) (media_clock_offset : Z)
  : Link.t T U * outcome string unit :=
  let sequence := Link.next_sequence link in
  let? capture_time :=
    ok_or (Duration.checked_add media_clock_offset (H264AccessUnit.timestamp unit_))
      "H.264 capture timestamp overflowed" keeping link in
  let? presentation_time :=
    ok_or (Duration.checked_add capture_time (H264AccessUnit.duration unit_))
      "H.264 presentation timestamp overflowed" keeping link in
  let? duration := duration_micros_u32 (H264AccessUnit.duration unit_) keeping link in
  let? metadata := map_err ProtocolError.to_string
    (VideoFrameMetadata.new sequence (duration_micros_u64 capture_time)
      (duration_micros_u64 presentation_time) duration) keeping link in
  let? payload := map_err ProtocolError.to_string
    (VideoFrame.new metadata (H264AccessUnit.bytes unit_)) keeping link in
  let flags := if H264AccessUnit.keyframe unit_ then FrameFlags.KEYFRAME else FrameFlags.NONE in
  let? frame := map_err ProtocolError.to_string (Frame.from_payload flags sequence payload)
    keeping link in
  let (transport, sent) := try_send (Link.transport link) (Packet.media (Frame.encode frame)) in
  let link := Link.set_transport link transport in
  let? _ := map_err (fun error =>
      "Android USB media queue rejected H.264: " +:+ SendError.to_string error) sent keeping link in
  let? next := ok_or (checked 64 (sequence + 1)) "host LDFL sequence is exhausted" keeping link in
  let link := Link.set_next link next in
  (Link.set_shared link (count_sent (Link.shared link) sequence), Ok tt).

(** ** Handling a control packet *)

(** The arm of [MessageType::Ping]. *)
Definition answer_ping (reply : Reply.t) (frame : Frame.t) link : Link.t T U * outcome string unit :=
  let? request := map_err ProtocolError.to_string (Frame.decode_payload Ping.t frame) keeping link in
  let? response := map_err ProtocolError.to_string
    (Pong.new (Ping.token request) (Ping.client_send_timestamp_micros request)
      (duration_micros_u64 (Reply.received_at reply))
      (duration_micros_u64 (Reply.answered_at reply))) keeping link in
  let '((transport, _), sent) := send_control_payload (Reply.polls reply) (Link.transport link)
    (Link.next_sequence link) response USB_CONTROL_SEND_TIMEOUT (Reply.started reply) in
  let link := Link.set_transport link transport in
  let? _ := sent keeping link in
  let? next := ok_or (checked 64 (Link.next_sequence link + 1)) "host LDFL sequence is exhausted"
    keeping link in
  (Link.set_next link next, Ok tt).

(** The arm of [MessageType::Input]. *)
Definition apply_input (input_capabilities : InputCapabilities.t) (frame : Frame.t) link
  : Link.t T U * outcome string unit :=
  let? event := map_err ProtocolError.to_string (Frame.decode_payload InputEvent.t frame)
    keeping link in
  let? _ := require_negotiated_input event input_capabilities keeping link in
  let (input, injected) := inject (Link.input link) event in
  let link := Link.set_input link input in
  let? _ := map_err (fun error => "failed to apply Android input on Windows: " +:+ error) injected
    keeping link in
  (link, Ok tt).

(** The dispatch on the frame's family. *)
Definition dispatch_control (input_capabilities : InputCapabilities.t) (reply : Reply.t)
  (frame : Frame.t) link : Link.t T U * outcome string unit :=
  match FrameHeader.kind (Frame.header frame) with
  | MessageType.Ping => answer_ping reply frame link
  | MessageType.Pong =>
    let? _ := map_err ProtocolError.to_string (Frame.decode_payload Pong.t frame) keeping link in
    (link, Ok tt)
  | MessageType.Input => apply_input input_capabilities frame link
  | MessageType.Telemetry =>
    let? telemetry := map_err ProtocolError.to_string (Frame.decode_payload Telemetry.t frame)
      keeping link in
    let (shared, applied) := apply_usb_telemetry (Link.shared link) telemetry in
    let link := Link.set_shared link shared in
    let? _ := applied keeping link in
    (link, Ok tt)
  | MessageType.Error =>
    let? error := map_err ProtocolError.to_string (Frame.decode_payload ErrorMessage.t frame)
      keeping link in
    (link, Err ("Android display reported " +:+ ErrorCode.debug (ErrorMessage.code error) +:+ ": " +:+
                String.string_of_list_byte (ErrorMessage.diagnostic error)))
  | kind =>
    (link, Err ("Android sent unexpected " +:+ MessageType.debug kind +:+ " after LDFL negotiation"))
  end.

Definition handle_usb_control (input_capabilities : InputCapabilities.t) (reply : Reply.t)
  (packet : Packet.t) link : Link.t T U * outcome string unit :=
  let packet_len := Packet.len packet in
  let packet_bytes := Packet.payload packet in
  let? decoded := map_err ProtocolError.to_string (decode_prefix packet_bytes) keeping link in
  match decoded with
  | DecodeOutcome.NeedMoreData _ => (link, Err "Android sent a partial LDFL control frame")
  | DecodeOutcome.Complete frame consumed =>
    if negb (consumed =? packet_len)
    then (link, Err "Android control packet contains trailing LDFL bytes") else
    let sequence := FrameHeader.sequence (Frame.header frame) in
    let? session := ok_or (SharedState.session (Link.shared link))
      "active USB control arrived without a session" keeping link in
    let (session, observed) := Session.observe_sequence session sequence in
    let link := Link.set_shared link (SharedState.set_session (Link.shared link) (Some session)) in
    let? disposition := map_err SessionError.to_string observed keeping link in
    match disposition with
    | SequenceDisposition.Accepted _ => dispatch_control input_capabilities reply frame link
    | _ =>
      (link, Err ("Android LDFL sequence " +:+ pretty sequence +:+ " is duplicate or stale"))
    end
  end.

(** ** The loop *)

(** The two receives at the top of a turn. *)
Definition serve_peer (input_capabilities : InputCapabilities.t) (reply : Reply.t) link
  : Link.t T U * outcome string unit :=
  if bool_decide (connection_state (Link.transport link) <> ConnectionState.Connected)
  then (link, Err "Android USB disconnected during the LDFL session") else
  let (transport, media) := try_receive (Link.transport link) Channel.Media in
  let link := Link.set_transport link transport in
  let? media := map_err (fun error =>
      "Android USB media receive failed: " +:+ ReceiveError.to_string error) media keeping link in
  if bool_decide (is_Some media)
  then (link, Err "Android display sent an unexpected media frame to the host") else
  let (transport, control) := try_receive (Link.transport link) Channel.Control in
  let link := Link.set_transport link transport in
  let? control := map_err (fun error =>
      "Android USB control receive failed: " +:+ ReceiveError.to_string error) control keeping link in
  match control with
  | Some packet => handle_usb_control input_capabilities reply packet link
  | None => (link, Ok tt)
  end.

(** A batch is taken up when no unit is waiting. *)
Definition take_batch (aligned_at : Z) run : Run.t T V U * outcome string unit :=
  if negb (bool_decide (Run.access_units run = [])) then (run, Ok tt) else
  let (video_stream, batch) := try_next_batch (Run.video_stream run) in
  let run := Run.mk (Run.link run) video_stream (Run.access_units run) (Run.media_clock_offset run)
    (Run.encoder_name run) in
  let? batch := batch keeping run in
  match batch with
  | None => (run, Ok tt)
  | Some batch =>
    if match Run.encoder_name run with
       | Some name => bool_decide (name <> H264StreamBatch.encoder_name batch)
       | None => false
       end
    then (run, Err ("Windows H.264 encoder changed from " +:+ default "unknown" (Run.encoder_name run) +:+
                    " to " +:+ H264StreamBatch.encoder_name batch +:+ " during one session")) else
    let encoder_name := default (H264StreamBatch.encoder_name batch) (Run.encoder_name run) in
    let access_units := Run.access_units run ++ H264StreamBatch.access_units batch in
    let (offset, aligned) := align_media_clock access_units aligned_at (Run.media_clock_offset run) in
    let run := Run.mk (Run.link run) video_stream access_units offset (Some encoder_name) in
    let? _ := aligned keeping run in
    (run, Ok tt)
  end.

(** The oldest unit is sent once it is due. *)
Definition send_due (due_at : Z) run : Run.t T V U * outcome string unit :=
  match Run.access_units run, Run.media_clock_offset run with
  | unit_ :: rest, Some offset =>
    let? due := ok_or (Duration.checked_add offset (H264AccessUnit.timestamp unit_))
      "H.264 media clock overflowed" keeping run in
    if due_at >=? due then
      let (link, sent) := send_usb_h264_access_unit (Run.link run) unit_ offset in
      let run := Run.mk link (Run.video_stream run) rest (Some offset) (Run.encoder_name run) in
      let? _ := sent keeping run in
      (run, Ok tt)
    else (run, Ok tt)
  | _, _ => (run, Ok tt)
  end.

(** The body of the [while]; the pause of an idle turn has no effect. *)
Definition serve_turn (input_capabilities : InputCapabilities.t) (turn : Turn.t) run
  : Run.t T V U * outcome string unit :=
  let (link, served) := serve_peer input_capabilities (Turn.reply turn) (Run.link run) in
  let run := Run.set_link run link in
  let? _ := served keeping run in
  let (run, taken) := take_batch (Turn.aligned_at turn) run in
  let? _ := taken keeping run in
  send_due (Turn.due_at turn) run.

Fixpoint serve (input_capabilities : InputCapabilities.t) (turns : list Turn.t) run
  : Run.t T V U * outcome string unit :=
  match turns with
  | [] => (run, Fault OutOfFuel)
  | turn :: turns =>
    if Turn.cancelled turn then (run, Ok tt) else
    let (run, served) := serve_turn input_capabilities turn run in
    let? _ := served keeping run in
    serve input_capabilities turns run
  end.
End Session.

(** What a session observes before its loop: the random source and, of the
    negotiation, its start and the polls. *)
Module Opening.
Record t : Type := mk {
  random : string + list byte;
  started : Z;
  polls : list Poll.t;
}.
End Opening.

(** The result names the controller the session made, after its [drop]. *)
Definition run_android_control_session_inner {T V U} `{PacketTransport T} `{NativePlatform V U}
  (opening : Opening.t) (turns : list Turn.t) (shared : SharedState.t) (config : LoopbackConfig.t)
  (display_id : option string) (transport : T)
  : (SharedState.t * T * option U) * outcome string unit :=
  let? protocol_config := HostProtocolConfig.new (LoopbackConfig.width config)
    (LoopbackConfig.height config) (LoopbackConfig.fps config) keeping (shared, transport, None) in
  let '((transport, _), negotiation) := negotiate_host_transport (Opening.polls opening) transport
    protocol_config (Opening.random opening) USB_NEGOTIATION_TIMEOUT (Opening.started opening) in
  let? established := negotiation keeping (shared, transport, None) in
  let? (negotiated_config, input_capabilities) := negotiated_runtime_parameters established
    keeping (shared, transport, None) in
  let? video_stream := start_negotiated_capture_stream display_id negotiated_config
    (DisplayConfig.bitrate_kbps (EstablishedHostSession.display_config established))
    keeping (shared, transport, None) in
  let next_sequence := EstablishedHostSession.next_sequence established in
  let shared := SharedState.establish_android_control shared negotiated_config
    (EstablishedHostSession.session established) (EstablishedHostSession.peer_name established) in
  let? input := new_input_controller display_id (LoopbackConfig.width negotiated_config)
    (LoopbackConfig.height negotiated_config) keeping (shared, transport, None) in
  let run := Run.mk (Link.mk shared transport input next_sequence) video_stream [] None None in
  let (run, served) := serve input_capabilities turns run in
  ((Link.shared (Run.link run), Link.transport (Run.link run),
    Some (drop_input_controller (Link.input (Run.link run)))), served).

(** ** What a session says and does *)

(** A controller that remembers the events it was given. *)
Module Logged.
Record t (U : Type) : Type := mk {
  device : U;
  events : list InputEvent.t;
}.
Arguments mk {U} device events.
Arguments device {U} t.
Arguments events {U} t.
End Logged.

#[export] Instance logged_platform `{NativePlatform V U} : NativePlatform V (Logged.t U) := {
  prepare_capture_display_mode := prepare_capture_display_mode;
  start_capture_stream := start_capture_stream;
  try_next_batch := try_next_batch;
  new_input_controller display_id width height :=
    let! device := new_input_controller display_id width height in
    Ok (Logged.mk device []);
  inject controller event :=
    let (device, r) := inject (Logged.device controller) event in
    (Logged.mk device (Logged.events controller ++ [event]), r);
  drop_input_controller controller :=
    Logged.mk (drop_input_controller (Logged.device controller)) (Logged.events controller);
}.

(** The [n]-th packet of a host: its frame is numbered [n], and after the
    three of the handshake it answers a probe or shows the access unit [n]. *)
Definition host_packet (n : Z) (p : Packet.t) : Prop :=
  if n =? 0 then exists hello : Hello.t, delivers p n hello
  else if n =? 1 then exists capabilities : Capabilities.t, delivers p n capabilities
  else if n =? 2 then exists config : DisplayConfig.t, delivers p n config
  else (exists pong : Pong.t, delivers p n pong) \/
       (exists video : VideoFrame.t, delivers p n video /\
          VideoFrameMetadata.frame_id (VideoFrame.metadata video) = n).

Definition host_packets (sent : list Packet.t) : Prop :=
  forall (i : nat) p, sent !! i = Some p -> host_packet (Z.of_nat i) p.

Lemma prefix_sublist {A} (l k : list A) : l `prefix_of` k -> l `sublist_of` k.
Proof. intros [m ->]. by apply sublist_inserts_r. Qed.

(** A packet is one whole frame numbered [s] with the payload [v], on any lane. *)
Definition conveys {P} `{WirePayload P} (p : Packet.t) (s : Z) (v : P) : Prop :=
  exists f, Frame.wf f /\ Packet.payload p = Frame.encode f /\ sequence_of f = s /\
    Frame.decode_payload P f = Ok v.

(** The kind of an event is announced by the capability set of the wire: bit 0
    stands for a pointer (moves, buttons and wheel), bit 1 for touch, bit 2 for
    a keyboard; a change of focus needs a set that is not empty. *)
Definition announced (bits : Z) (kind : InputEventKind.t) : Prop :=
  match kind with
  | InputEventKind.PointerMove _ _ | InputEventKind.PointerButton _ _
  | InputEventKind.Wheel _ _ => Z.testbit bits 0 = true
  | InputEventKind.Touch _ _ _ _ _ => Z.testbit bits 1 = true
  | InputEventKind.Key _ _ _ => Z.testbit bits 2 = true
  | InputEventKind.Focus _ => bits <> 0
  end.

(** The events given to the controller are those of received packets, in the
    order received and with growing numbers above [first], the last at most
    [last]; each is of an announced kind. *)
Definition obeys (capabilities : InputCapabilities.t) (first last : Z)
    (received : list Packet.t) (events : list InputEvent.t) : Prop :=
  exists asked : list (Packet.t * Z * InputEvent.t),
    events = map snd asked /\ map (fun x => fst (fst x)) asked `sublist_of` received /\
    StronglySorted Z.lt (first :: map (fun x => snd (fst x)) asked) /\
    Forall (fun '(p, s, e) => conveys p s e /\ s <= last /\
      announced (InputCapabilities.bits capabilities) (InputEvent.kind e)) asked.

Lemma land_bit_set bits i : 0 <= i -> Z.land bits (2 ^ i) =? 2 ^ i = true -> Z.testbit bits i = true.
Proof.
  intros Hi Hl%Z.eqb_eq. apply (f_equal (fun x => Z.testbit x i)) in Hl.
  by rewrite Z.land_spec, (Z.pow2_bits_true i Hi), andb_true_r in Hl.
Qed.

(** Nothing else passes the check of the code. *)
Lemma negotiated_announced event c :
  require_negotiated_input event c = Ok tt ->
  announced (InputCapabilities.bits c) (InputEvent.kind event).
Proof.
  unfold require_negotiated_input, InputCapabilities.contains, InputCapabilities.POINTER,
    InputCapabilities.TOUCH, InputCapabilities.KEYBOARD. cbn [InputCapabilities.bits].
  rewrite !Z.shiftl_1_l.
  destruct (InputEvent.kind event); cbn [announced]; intros Hn;
    lazymatch type of Hn with
    | context [Z.land _ (2 ^ ?i)] =>
        destruct (Z.land _ (2 ^ i) =? 2 ^ i) eqn:Hl; [|done]; by apply land_bit_set in Hl
    | _ => destruct (Z.eqb_spec (InputCapabilities.bits c) 0); done
    end.
Qed.

Lemma host_packets_snoc sent p :
  host_packets sent -> host_packet (zlen sent) p -> host_packets (sent ++ [p]).
Proof.
  intros Hs Hp i q [Hq|[Hi Hq]]%lookup_app_Some; [by apply Hs|].
  apply list_lookup_singleton_Some in Hq as [Hi0 <-]. by replace i with (length sent) by lia.
Qed.

Lemma obeys_more c first last last' received received' events :
  obeys c first last received events -> last <= last' -> received `sublist_of` received' ->
  obeys c first last' received' events.
Proof.
  intros (asked & -> & Hsub & Hs & Hall) Hl Hr. exists asked. split_and!; [done|by etrans|done|].
  eapply Forall_impl; [exact Hall|]. intros [[p s] e] (? & ? & ?). split_and!; (done || lia).
Qed.

Lemma obeys_snoc c first last received events p s e :
  obeys c first last received events -> first <= last -> last < s -> conveys p s e ->
  announced (InputCapabilities.bits c) (InputEvent.kind e) ->
  obeys c first s (received ++ [p]) (events ++ [e]).
Proof.
  intros (asked & -> & Hsub & Hs & Hall) Hf Hl Hc Hg. exists (asked ++ [(p, s, e)]).
  rewrite !map_app. cbn [map fst snd]. split_and!.
  - done.
  - by apply sublist_app.
  - change (first :: ?l ++ [s]) with ((first :: l) ++ [s]).
    apply StronglySorted_app_2; [|done|by repeat constructor].
    intros x y Hx ->%list_elem_of_singleton. apply elem_of_cons in Hx as [->|Hx]; [lia|].
    apply list_elem_of_fmap in Hx as ([[q t] e'] & -> & Hin). rewrite Forall_forall in Hall.
    apply Hall in Hin as (_ & ? & _). cbn. lia.
  - apply Forall_app. split; [|by repeat constructor].
    eapply Forall_impl; [exact Hall|]. intros [[q t] e'] (? & ? & ?). split_and!; (done || lia).
Qed.

Lemma micros_u64_in d : in_u 64 (duration_micros_u64 d).
Proof.
  unfold duration_micros_u64. destruct (checked 64 _) as [x|] eqn:Hx; [|by vm_compute].
  by apply checked_Some in Hx as [-> ?].
Qed.

Lemma keyframe_flags_wf (b : bool) : FrameFlags.wf (if b then FrameFlags.KEYFRAME else FrameFlags.NONE).
Proof. by destruct b. Qed.

(** The frame of an access unit. *)
Lemma video_frame_wf sequence capture presentation d x y m v bytes :
  in_u 64 sequence -> duration_micros_u32 d = Ok x ->
  VideoFrameMetadata.new sequence (duration_micros_u64 capture) (duration_micros_u64 presentation) x = Ok m ->
  y = bytes -> VideoFrame.new m y = Ok v ->
  VideoFrame.wf v /\ VideoFrameMetadata.frame_id (VideoFrame.metadata v) = sequence.
Proof.
  intros Hs Hx Hm -> Hv. unfold duration_micros_u32 in Hx.
  apply ok_or_ok_inv, checked_Some in Hx as [-> Hx].
  unfold VideoFrameMetadata.new in Hm. destruct (Z.eqb_spec (Duration.as_micros d) 0); [done|].
  injection Hm as <-. unfold VideoFrame.new, validate_encoded_bytes in Hv.
  case_bool_decide as Hb; [done|]. rewrite Z.gtb_ltb in Hv.
  destruct (Z.ltb_spec MAX_ENCODED_VIDEO_BYTES (zlen bytes)); [done|]. injection Hv as <-.
  split; [|done]. split; cbn [VideoFrame.metadata VideoFrame.encoded_bytes].
  - split; cbn; [done|apply micros_u64_in..|unfold in_u in Hx; lia].
  - destruct bytes; [done|]. cbn [length] in *. lia.
Qed.

Lemma decode_payload_typed `{WirePayloadLaws P} f :
  match Frame.decode_payload P f with
  | Ok v => wire_wf v
  | Err _ => True
  | Fault _ => False
  end.
Proof.
  unfold Frame.decode_payload. case_bool_decide; [done|].
  pose proof (wire_decode_returns (P:=P) (Frame.payload f)) as Hr.
  destruct (wire_decode (Frame.payload f)) as [v|e|ft] eqn:Hv; [|done..].
  by apply wire_decode_iff in Hv as [? _].
Qed.

Lemma returns_require_input event c : returns (require_negotiated_input event c).
Proof. unfold require_negotiated_input. by repeat case_match. Qed.

Lemma observe_keeps_inv x n :
  session_inv x -> in_u 64 n -> session_inv (fst (Session.observe_sequence x n)).
Proof. intros Hx Hn. exact (apply_inv (Op.Observe n) x Hn Hx). Qed.

Section Served.
Context {T V U : Type} `{Safety : EndpointSafety T} `{Answers : NativePlatformAnswers V U}.
Context (capabilities : InputCapabilities.t) (first : Z) (opening : list Packet.t).
Implicit Types (link : Link.t (Recorder.t T) (Logged.t U)).

(** What holds whenever a session is left. *)
Record upheld link : Prop := {
  up_safe : safe (Recorder.inner (Link.transport link));
  up_sent : host_packets (Recorder.sent (Link.transport link));
  up_accounts : accounts (Link.shared link) (Link.next_sequence link);
  up_next : Link.next_sequence link <= zlen (Recorder.sent (Link.transport link));
  up_opening : opening `prefix_of` Recorder.received (Link.transport link);
  up_input : exists last, obeys capabilities first last (Recorder.received (Link.transport link))
    (Logged.events (Link.input link));
  up_device : device_ok (Logged.device (Link.input link));
}.

(** What holds between its steps. *)
Record live link : Prop := {
  lv_upheld : upheld link;
  lv_next : Link.next_sequence link = zlen (Recorder.sent (Link.transport link));
  lv_range : 3 <= Link.next_sequence link < 2 ^ 64;
  lv_session : exists x last, SharedState.session (Link.shared link) = Some x /\
    Session.phase x = SessionPhase.Active /\ Session.highest_sequence x = Some last /\ first <= last /\
    obeys capabilities first last (Recorder.received (Link.transport link))
      (Logged.events (Link.input link));
}.

(** A step keeps the session's promises; if it succeeds the session goes on. *)
Definition keeps (x : Link.t (Recorder.t T) (Logged.t U) * outcome string unit) (waiting : Prop) : Prop :=
  match snd x with
  | Ok _ => live (fst x)
  | Err _ => upheld (fst x)
  | Fault f => f = OutOfFuel /\ waiting /\ upheld (fst x)
  end.

(** Sending one more packet, numbered [next_sequence]. *)
Lemma sent_upheld link t p shared next :
  live link -> safe (Recorder.inner t) ->
  Recorder.sent t = Recorder.sent (Link.transport link) ++ [p] ->
  Recorder.received t = Recorder.received (Link.transport link) ->
  host_packet (Link.next_sequence link) p -> accounts shared next ->
  next <= Link.next_sequence link + 1 ->
  SharedState.session shared = SharedState.session (Link.shared link) ->
  upheld (Link.mk shared t (Link.input link) next) /\
  (next = Link.next_sequence link + 1 -> next < 2 ^ 64 ->
   live (Link.mk shared t (Link.input link) next)).
Proof.
  intros [[Hsafe Hsent Hacc Hle Ho [last Hin] Hdv] Hn Hr (x & l & Hx)] Ht Hs Hrc Hp Ha Hnx Hse.
  assert (Hall : host_packets (Recorder.sent t)).
  { rewrite Hs. apply host_packets_snoc; [done|]. by rewrite <-Hn. }
  assert (Hup : upheld (Link.mk shared t (Link.input link) next)).
  { split; cbn; rewrite ?Hrc; eauto. rewrite Hs, length_app. cbn [length]. lia. }
  split; [done|]. intros -> Hlt. split; cbn; [done|..|lia|].
  - rewrite Hs, length_app, Hn. cbn [length]. lia.
  - exists x, l. by rewrite Hse, Hrc.
Qed.

(** The transport moved, without sending. *)
Lemma moved_upheld link t :
  upheld link -> safe (Recorder.inner t) ->
  Recorder.sent t = Recorder.sent (Link.transport link) ->
  Recorder.received (Link.transport link) `prefix_of` Recorder.received t ->
  upheld (Link.set_transport link t).
Proof.
  intros [Hsafe Hs Ha Hn Ho [last Hi] Hdv] Ht Hst Hrt. split; cbn; rewrite ?Hst; [done..|by etrans| |done].
  exists last. eapply obeys_more; [done|lia|by apply prefix_sublist].
Qed.

Lemma moved_live link t :
  live link -> safe (Recorder.inner t) ->
  Recorder.sent t = Recorder.sent (Link.transport link) ->
  Recorder.received (Link.transport link) `prefix_of` Recorder.received t ->
  live (Link.set_transport link t).
Proof.
  intros [Hup Hn Hr (x & last & ? & ? & ? & ? & Hob)] Ht Hst Hrt.
  split; cbn; rewrite ?Hst; [by apply moved_upheld|done..|].
  exists x, last. split_and!; try done. eapply obeys_more; [done|lia|by apply prefix_sublist].
Qed.

Lemma send_unit_keeps link u offset waiting :
  live link -> keeps (send_usb_h264_access_unit link u offset) waiting.
Proof.
  intros Hlive. pose proof Hlive as [Hup Hn Hr Hse]. unfold send_usb_h264_access_unit.
  destruct (Duration.checked_add offset _) as [capture|]; cbn [ok_or otry]; [|done].
  destruct (Duration.checked_add capture _) as [presentation|]; cbn [ok_or otry]; [|done].
  destruct (duration_micros_u32 _) as [d|e|f] eqn:Hd; cbn [otry];
    [|done|unfold duration_micros_u32 in Hd; by destruct (checked 32 _)].
  destruct (VideoFrameMetadata.new _ _ _ _) as [m|e|f] eqn:Hm; cbn [map_err otry];
    [|done|unfold VideoFrameMetadata.new in Hm; by case_match].
  destruct (VideoFrame.new _ _) as [v|e|f] eqn:Hv; cbn [map_err otry];
    [|done|unfold VideoFrame.new, validate_encoded_bytes in Hv; by repeat case_match].
  destruct (video_frame_wf (Link.next_sequence link) capture presentation _ _ _ m v _
    ltac:(unfold in_u; lia) Hd Hm eq_refl Hv) as [Hw Hid].
  pose proof (from_payload_spec (P:=VideoFrame.t)
    (if H264AccessUnit.keyframe u then FrameFlags.KEYFRAME else FrameFlags.NONE)
    (Link.next_sequence link) v) as Hframe.
  destruct (Hframe Hw (keyframe_flags_wf (H264AccessUnit.keyframe u)) ltac:(unfold in_u; lia))
    as (f & -> & Hf & Hdec & Hk & Hseq & _).
  cbn [map_err otry try_send recorder_transport].
  set (p := Packet.media (Frame.encode f)).
  assert (Hdel : delivers p (Link.next_sequence link) v).
  { exists f. split; [|done]. split; [done|]. split; [done|]. by rewrite Hk. }
  assert (Hp : host_packet (Link.next_sequence link) p).
  { unfold host_packet. destruct (Z.eqb_spec (Link.next_sequence link) 0); [lia|].
    destruct (Z.eqb_spec (Link.next_sequence link) 1); [lia|].
    destruct (Z.eqb_spec (Link.next_sequence link) 2); [lia|]. right. by exists v. }
  destruct (safe_send (Recorder.inner (Link.transport link)) p (up_safe _ Hup)) as [Hsf Hret].
  destruct (try_send (Recorder.inner (Link.transport link)) p) as [t' [rep|e|ft]]; cbn in Hsf, Hret;
    cbn [map_err otry Link.set_transport]; [|rewrite app_nil_r; destruct Hup; by split|done].
  set (t := Recorder.mk t' (Recorder.sent (Link.transport link) ++ [p])
    (Recorder.received (Link.transport link))).
  destruct (checked 64 _) as [n|] eqn:Hc; cbn [ok_or otry].
  - apply checked_Some in Hc as [-> Hc].
    refine (proj2 (sent_upheld link t p (count_sent (Link.shared link) (Link.next_sequence link))
      _ Hlive Hsf eq_refl eq_refl Hp _ (Z.le_refl _) eq_refl) eq_refl _); [|unfold in_u in Hc; lia].
    eapply count_sent_accounts; [apply Hup|lia..].
  - exact (proj1 (sent_upheld link t p (Link.shared link) (Link.next_sequence link) Hlive Hsf eq_refl
      eq_refl Hp (up_accounts _ Hup) ltac:(lia) eq_refl)).
Qed.

(** *** Control packets *)

Lemma answer_ping_keeps reply f link :
  live link -> Duration.valid (Reply.started reply + USB_CONTROL_SEND_TIMEOUT) ->
  keeps (answer_ping reply f link)
    (~ stops (Reply.started reply + USB_CONTROL_SEND_TIMEOUT) (Reply.polls reply)).
Proof.
  intros Hlive Hd. pose proof Hlive as [Hup Hn Hr Hse]. unfold answer_ping.
  pose proof (decode_payload_typed (P:=Ping.t) f) as Hping.
  unfold USB_CONTROL_SEND_TIMEOUT in *.
  destruct (Frame.decode_payload Ping.t f) as [request|e|ft]; cbn [map_err otry]; [|done|done].
  unfold Pong.new.
  destruct (Z.ltb_spec (duration_micros_u64 (Reply.answered_at reply))
    (duration_micros_u64 (Reply.received_at reply))); cbn [map_err otry]; [done|].
  set (pong := Pong.mk _ _ _ _).
  assert (Hw : Pong.wf pong).
  { destruct Hping as [Ht Hc]. split; cbn; (done || apply micros_u64_in). }
  pose proof (control_packet_delivers (P:=Pong.t) (Link.next_sequence link) pong) as Hpong.
  destruct (Hpong eq_refl Hw ltac:(unfold in_u; lia)) as (p & Hp & Hdel).
  unfold send_control_payload. rewrite Hp.
  change (USB_CONTROL_SEND_TIMEOUT =? 0) with false. cbn [otry].
  unfold Duration.add, Duration.checked_add. rewrite (proj2 (Z.leb_le _ _) (proj2 Hd)).
  cbn [expect otry].
  pose proof (send_reliable_control_spec (Reply.started reply + USB_CONTROL_SEND_TIMEOUT) p
    (Reply.polls reply) (Link.transport link) (up_safe _ Hup)) as Hsend.
  destruct (send_reliable_control _ _ _ _) as [[t polls'] [[]|e|ft]]; cbn [otry];
    destruct Hsend as (Hsf & Hrec & Hsend).
  - destruct Hsend as [Hsent _].
    assert (Hhost : host_packet (Link.next_sequence link) p).
    { unfold host_packet. destruct (Z.eqb_spec (Link.next_sequence link) 0); [lia|].
      destruct (Z.eqb_spec (Link.next_sequence link) 1); [lia|].
      destruct (Z.eqb_spec (Link.next_sequence link) 2); [lia|]. left. by exists pong. }
    cbn [Link.set_transport Link.next_sequence].
    destruct (checked 64 _) as [n|] eqn:Hc; cbn [ok_or otry].
    + apply checked_Some in Hc as [-> Hc].
      refine (proj2 (sent_upheld link t p (Link.shared link) _ Hlive Hsf Hsent Hrec Hhost _ (Z.le_refl _)
        eq_refl)
        eq_refl _); [|unfold in_u in Hc; lia].
      eapply accounts_later; [apply Hup|lia].
    + exact (proj1 (sent_upheld link t p (Link.shared link) (Link.next_sequence link) Hlive Hsf Hsent
        Hrec Hhost (up_accounts _ Hup) ltac:(lia) eq_refl)).
  - by apply (moved_upheld link); rewrite ?Hrec.
  - destruct Hsend as (-> & Hsend & Hns). split_and!; [done..|].
    by apply (moved_upheld link); rewrite ?Hrec.
Qed.

(** The packet [p], numbered [s], was just read and its number accepted. *)
Record heard p s link : Prop := {
  hd_live : live link;
  hd_before : exists earlier last, Recorder.received (Link.transport link) = earlier ++ [p] /\
    first <= last < s /\ obeys capabilities first last earlier (Logged.events (Link.input link));
  hd_session : exists x, SharedState.session (Link.shared link) = Some x /\
    Session.phase x = SessionPhase.Active /\ Session.highest_sequence x = Some s;
}.

Lemma apply_input_keeps p f link waiting :
  Frame.wf f -> Packet.payload p = Frame.encode f -> heard p (sequence_of f) link ->
  keeps (apply_input capabilities f link) waiting.
Proof.
  intros Hf Hp [[Hup Hn Hr _] (earlier & last & Hrec & Hlast & Hin) (x & Hx & Hph & Hhi)].
  unfold apply_input. pose proof (decode_payload_typed (P:=InputEvent.t) f) as Ht.
  destruct (Frame.decode_payload InputEvent.t f) as [event|e|ft] eqn:Hd; cbn [map_err otry]; [|done|done].
  pose proof (returns_require_input event capabilities) as Hgr.
  destruct (require_negotiated_input event capabilities) as [[]|e|ft] eqn:Hg; cbn [otry]; [|done|done].
  cbn [inject logged_platform].
  pose proof (inject_answers (Logged.device (Link.input link)) event (up_device _ Hup) Ht) as [Hdv Hret].
  destruct (inject (Logged.device (Link.input link)) event) as [device r].
  set (link' := Link.set_input link (Logged.mk device (Logged.events (Link.input link) ++ [event]))).
  assert (Hob : obeys capabilities first (sequence_of f) (Recorder.received (Link.transport link'))
    (Logged.events (Link.input link'))).
  { cbn. rewrite Hrec. eapply obeys_snoc; [done|lia|lia| |by apply negotiated_announced]. by exists f. }
  assert (Hup' : upheld link') by (destruct Hup; split; eauto).
  assert (Hlive : live link').
  { split; [done..|]. exists x, (sequence_of f). split_and!; (done || lia). }
  destruct r as [[]|e|ft]; cbn [map_err otry]; done.
Qed.

Lemma shared_live link shared :
  live link -> accounts shared (Link.next_sequence link) ->
  SharedState.session shared = SharedState.session (Link.shared link) ->
  live (Link.set_shared link shared).
Proof.
  intros [[Hs Hp Ha Hle Ho Hi Hdv] Hn Hr (x & l & Hx)] Hacc Hse. split; cbn; [by split|done..|].
  exists x, l. by rewrite Hse.
Qed.

Lemma dispatch_control_keeps reply p f link :
  Frame.wf f -> Packet.payload p = Frame.encode f -> heard p (sequence_of f) link ->
  Duration.valid (Reply.started reply + USB_CONTROL_SEND_TIMEOUT) ->
  keeps (dispatch_control capabilities reply f link)
    (~ stops (Reply.started reply + USB_CONTROL_SEND_TIMEOUT) (Reply.polls reply)).
Proof.
  intros Hf Hp Hh Hd. pose proof (hd_live _ _ _ Hh) as Hlive. pose proof (lv_upheld _ Hlive) as Hup.
  unfold dispatch_control.
  destruct (FrameHeader.kind (Frame.header f)); try exact Hup.
  - by eapply apply_input_keeps.
  - pose proof (decode_payload_typed (P:=Telemetry.t) f) as Ht.
    destruct (Frame.decode_payload Telemetry.t f) as [v|e|ft]; cbn [map_err otry]; [|done|done].
    destruct (apply_usb_telemetry_spec _ _ v (up_accounts _ Hup) Ht) as (s' & -> & Hrep & Hacc).
    apply shared_live; [done|done|apply Hrep].
  - by apply answer_ping_keeps.
  - pose proof (decode_payload_typed (P:=Pong.t) f) as Ht.
    by destruct (Frame.decode_payload Pong.t f) as [v|e|ft].
  - pose proof (decode_payload_typed (P:=ErrorMessage.t) f) as Ht.
    by destruct (Frame.decode_payload ErrorMessage.t f) as [v|e|ft].
Qed.

(** A packet is one whole frame, or nothing changes. *)
Lemma handle_frame reply p link :
  (exists f, Frame.wf f /\ Packet.payload p = Frame.encode f /\
     handle_usb_control capabilities reply p link =
       let? session := ok_or (SharedState.session (Link.shared link))
         "active USB control arrived without a session" keeping link in
       let (session, observed) := Session.observe_sequence session (sequence_of f) in
       let link := Link.set_shared link (SharedState.set_session (Link.shared link) (Some session)) in
       let? disposition := map_err SessionError.to_string observed keeping link in
       match disposition with
       | SequenceDisposition.Accepted _ => dispatch_control capabilities reply f link
       | _ => (link, Err ("Android LDFL sequence " +:+ pretty (sequence_of f) +:+
                          " is duplicate or stale"))
       end) \/
  exists e, handle_usb_control capabilities reply p link = (link, Err e).
Proof.
  unfold handle_usb_control. pose proof (returns_decode_prefix (Packet.payload p)) as Hr.
  destruct (decode_prefix (Packet.payload p)) as [[f n|m]|e|f] eqn:Hd; cbn [map_err otry];
    [|by right; eexists|by right; eexists|done].
  apply decode_prefix_complete_inv in Hd as (Hf & -> & rest & Hp).
  destruct (Z.eqb_spec (Frame.encoded_len f) (Packet.len p)) as [Hl|]; [|by right; eexists].
  left. exists f. unfold Packet.len in Hl.
  rewrite Hp, length_app, Nat2Z.inj_add, zlen_frame_encode in Hl.
  destruct rest; [|simpl in Hl; lia]. by rewrite app_nil_r in Hp.
Qed.

Lemma handle_usb_control_keeps reply p link t :
  live link -> safe (Recorder.inner t) -> Recorder.sent t = Recorder.sent (Link.transport link) ->
  Recorder.received t = Recorder.received (Link.transport link) ++ [p] ->
  Duration.valid (Reply.started reply + USB_CONTROL_SEND_TIMEOUT) ->
  keeps (handle_usb_control capabilities reply p (Link.set_transport link t))
    (~ stops (Reply.started reply + USB_CONTROL_SEND_TIMEOUT) (Reply.polls reply)).
Proof.
  intros [[Hsafe Hs Ha Hle Ho Hi Hdv] Hn Hr (x & last & Hx & Hph & Hhi & Hfl & Hob)] Ht Hst Hrt Hd.
  assert (Hsub : Recorder.received (Link.transport link) `prefix_of` Recorder.received t)
    by (rewrite Hrt; by apply prefix_app_r).
  assert (Hup : upheld (Link.set_transport link t)) by (by apply moved_upheld).
  destruct (handle_frame reply p (Link.set_transport link t)) as [(f & Hf & Hp & ->)|[e ->]]; [|done].
  cbn [Link.set_transport Link.shared]. rewrite Hx. cbn [ok_or otry].
  assert (Hinv : session_inv x) by (by apply (acc_session _ _ Ha)).
  pose proof (FrameHeader.wf_sequence _ (Frame.wf_header f Hf)) as Hseq.
  pose proof (observe_spec x (sequence_of f) Hinv Hseq) as Hobs.
  pose proof (observe_keeps_inv x (sequence_of f) Hinv Hseq) as Hinv'.
  destruct (Session.observe_sequence x (sequence_of f)) as [x' r]. cbn [fst] in Hinv'.
  assert (Hacc : accounts (SharedState.set_session (Link.shared link) (Some x')) (Link.next_sequence link)).
  { destruct Ha. split; state_fields; try done. by intros y [= <-]. }
  set (link' := Link.set_shared (Link.set_transport link t)
    (SharedState.set_session (Link.shared link) (Some x'))).
  assert (Hup' : upheld link') by (destruct Hup; by split).
  destruct Hobs as [[-> [[e ->]|(_ & h & _ & _ & ->)]]|(_ & -> & k & -> & Hlt)]; cbn [map_err otry];
    [done|by destruct (sequence_of f =? h)|].
  rewrite Hhi in Hlt. destruct Hlt as [Hlt _].
  eapply dispatch_control_keeps; [done|done| |done]. split.
  - split; [done|cbn; by rewrite Hst|done|].
    eexists _, (sequence_of f). state_fields. cbn. split_and!; [done..|lia|]. eapply obeys_more; [done|lia|by apply prefix_sublist].
  - exists (Recorder.received (Link.transport link)), last. cbn. split_and!; (done || lia).
  - eexists. by split_and!.
Qed.

Lemma recorded_receive (r : Recorder.t T) c :
  safe (Recorder.inner r) ->
  exists t a, try_receive r c = (t, a) /\ returns a /\ safe (Recorder.inner t) /\
    Recorder.sent t = Recorder.sent r /\
    Recorder.received t = Recorder.received r ++ match a with Ok (Some p) => [p] | _ => [] end.
Proof.
  intros Hs. cbn [try_receive recorder_transport].
  destruct (safe_receive (Recorder.inner r) c Hs) as [Hs1 Hr1].
  destruct (try_receive (Recorder.inner r) c) as [t1 a]. by eexists _, a.
Qed.

Lemma serve_peer_keeps reply link :
  live link -> Duration.valid (Reply.started reply + USB_CONTROL_SEND_TIMEOUT) ->
  keeps (serve_peer capabilities reply link)
    (~ stops (Reply.started reply + USB_CONTROL_SEND_TIMEOUT) (Reply.polls reply)).
Proof.
  intros Hlive Hd. pose proof (lv_upheld _ Hlive) as Hup. unfold serve_peer.
  case_bool_decide; [done|].
  destruct (recorded_receive (Link.transport link) Channel.Media (up_safe _ Hup))
    as (t1 & m & -> & Hm & Hs1 & Hst1 & Hrt1).
  assert (Hsub1 : Recorder.received (Link.transport link) `prefix_of` Recorder.received t1)
    by (rewrite Hrt1; by apply prefix_app_r).
  destruct m as [m|e|f]; cbn [map_err otry]; [|by apply moved_upheld|done].
  case_bool_decide as Hsome; [by apply moved_upheld|].
  assert (Hlive1 : live (Link.set_transport link t1)) by (by apply moved_live).
  destruct (recorded_receive t1 Channel.Control Hs1) as (t2 & c & Hrec2 & Hc & Hs2 & Hst2 & Hrt2).
  cbn [Link.set_transport Link.transport Link.shared Link.input Link.next_sequence] in *.
  rewrite Hrec2. destruct c as [[p|]|e|f]; cbn [map_err otry]; [| | |done].
  - by apply (handle_usb_control_keeps reply p (Link.set_transport link t1) t2).
  - apply (moved_live (Link.set_transport link t1) t2); try done. by rewrite Hrt2, app_nil_r.
  - apply (moved_upheld (Link.set_transport link t1) t2); try done; [apply Hlive1|].
    by rewrite Hrt2, app_nil_r.
Qed.

Implicit Types (run : Run.t (Recorder.t T) V (Logged.t U)).

(** What one turn may leave waiting: the answer to a probe. *)
Definition still_waiting (turn : Turn.t) : Prop :=
  ~ stops (Reply.started (Turn.reply turn) + USB_CONTROL_SEND_TIMEOUT) (Reply.polls (Turn.reply turn)).

Lemma align_returns l now offset : returns (snd (align_media_clock l now offset)).
Proof.
  unfold align_media_clock. destruct (head l); cbn [ok_or otry]; [|done].
  destruct (Duration.checked_add _ _); cbn [ok_or otry]; [|done].
  destruct (Duration.checked_mul _ _); cbn [ok_or otry]; [|done]. by case_match.
Qed.

Lemma take_batch_keeps at_ run :
  let x := take_batch at_ run in Run.link (fst x) = Run.link run /\ returns (snd x).
Proof.
  unfold take_batch. case_bool_decide; cbn [negb]; [|done].
  pose proof (batch_returns (Run.video_stream run)) as Hb. cbn [try_next_batch logged_platform].
  destruct (try_next_batch (Run.video_stream run)) as [v [[b|]|e|f]]; cbn [otry]; try done.
  cbn [Run.encoder_name Run.access_units Run.media_clock_offset Run.link].
  case_match; [done|].
  pose proof (align_returns (Run.access_units run ++ H264StreamBatch.access_units b) at_
    (Run.media_clock_offset run)) as Ha.
  by destruct (align_media_clock _ _ _) as [o [[]|e|f]].
Qed.

Lemma send_due_keeps at_ run waiting :
  live (Run.link run) ->
  let x := send_due at_ run in keeps (Run.link (fst x), snd x) waiting.
Proof.
  intros Hlive. pose proof (lv_upheld _ Hlive) as Hup. unfold send_due.
  destruct (Run.access_units run) as [|u rest]; [done|].
  destruct (Run.media_clock_offset run) as [offset|]; [|done].
  destruct (Duration.checked_add _ _); cbn [ok_or otry]; [|done]. case_match; [|done].
  pose proof (send_unit_keeps (Run.link run) u offset waiting Hlive) as Hs.
  by destruct (send_usb_h264_access_unit (Run.link run) u offset) as [link [[]|e|f]].
Qed.

Lemma serve_turn_keeps turn run :
  live (Run.link run) ->
  Duration.valid (Reply.started (Turn.reply turn) + USB_CONTROL_SEND_TIMEOUT) ->
  let x := serve_turn capabilities turn run in keeps (Run.link (fst x), snd x) (still_waiting turn).
Proof.
  intros Hlive Hd. unfold serve_turn. pose proof (serve_peer_keeps (Turn.reply turn) (Run.link run) Hlive Hd) as Hp.
  destruct (serve_peer capabilities (Turn.reply turn) (Run.link run)) as [link [[]|e|f]];
    cbn [otry]; [|done|done].
  set (run1 := Run.set_link run link). assert (Hl1 : live (Run.link run1)) by exact Hp.
  pose proof (take_batch_keeps (Turn.aligned_at turn) run1) as [Hb Hr].
  destruct (take_batch (Turn.aligned_at turn) run1) as [run2 r]; cbn [fst snd] in Hb, Hr.
  destruct r as [[]|e|f]; cbn [otry]; [|cbn; rewrite Hb; apply Hl1|done].
  apply send_due_keeps. by rewrite Hb.
Qed.

(** Every turn sees the clock in range. *)
Definition timely (turns : list Turn.t) : Prop :=
  Forall (fun t => Duration.valid (Reply.started (Turn.reply t) + USB_CONTROL_SEND_TIMEOUT)) turns.

(** A turn that ends the session, and the turns whose waits the clock ends. *)
Definition cancels (turns : list Turn.t) : Prop := Exists (fun t => Turn.cancelled t = true) turns.
Definition waits_end (turns : list Turn.t) : Prop :=
  Forall (fun t => stops (Reply.started (Turn.reply t) + USB_CONTROL_SEND_TIMEOUT)
    (Reply.polls (Turn.reply t))) turns.

Lemma serve_keeps turns run :
  live (Run.link run) -> timely turns ->
  let x := serve capabilities turns run in
  keeps (Run.link (fst x), snd x) (~ (cancels turns /\ waits_end turns)).
Proof.
  intros Hlive Ht. revert run Hlive. induction Ht as [|turn turns Hd _ IH]; intros run Hlive; cbn [serve].
  { split_and!; [done| |apply Hlive]. intros [Hc _]. by apply Exists_nil in Hc. }
  destruct (Turn.cancelled turn) eqn:Hcan; [done|].
  pose proof (serve_turn_keeps turn run Hlive Hd) as Hturn.
  destruct (serve_turn capabilities turn run) as [run1 [[]|e|f]]; cbn [otry].
  - specialize (IH run1 Hturn). cbn zeta in IH. unfold keeps in *. cbn [fst snd] in *.
    destruct (snd (serve capabilities turns run1)); try done.
    destruct IH as (-> & Hns & Hu). split_and!; [done| |done]. intros [Hc Hw]. apply Hns.
    apply Exists_cons in Hc as [Hc|Hc]; [congruence|]. by apply Forall_cons in Hw as [_ Hw].
  - done.
  - destruct Hturn as (-> & Hns & Hu). split_and!; [done| |done]. intros [_ Hw].
    by apply Forall_cons in Hw as [Hw _].
Qed.
End Served.

(** ** A whole session *)

Lemma delivers_typed `{WirePayloadLaws P} p s (v : P) : delivers p s v -> wire_wf v /\ in_u 64 s.
Proof.
  intros (f & (Hf & _) & Hs & Hd). pose proof (decode_payload_typed (P:=P) f) as Ht. rewrite Hd in Ht.
  split; [done|]. rewrite <-Hs. apply (FrameHeader.wf_sequence _ (Frame.wf_header f Hf)).
Qed.

Lemma introduces_typed p1 p2 hello caps s :
  introduces p1 p2 hello caps s -> Capabilities.wf caps /\ in_u 64 s.
Proof.
  intros (s1 & _ & [[_ H2]|[H1 H2]]).
  - exact (delivers_typed (P:=Capabilities.t) _ _ _ H2).
  - split; [exact (proj1 (delivers_typed (P:=Capabilities.t) _ _ _ H1))
           |exact (proj2 (delivers_typed (P:=Hello.t) _ _ _ H2))].
Qed.

Lemma host_packets_nil : host_packets [].
Proof. intros i p Hp. by rewrite lookup_nil in Hp. Qed.

Lemma host_packets_greeting p0 p1 (hello : Hello.t) (caps : Capabilities.t) :
  delivers p0 0 hello -> delivers p1 1 caps -> host_packets [p0] /\ host_packets [p0; p1].
Proof.
  intros H0 H1. assert (Hp0 : host_packets [p0]).
  { apply (host_packets_snoc []); [apply host_packets_nil|]. by exists hello. }
  split; [done|]. apply (host_packets_snoc [p0]); [done|]. by exists caps.
Qed.

Lemma greeted_packets c random sent : greeted c random sent -> host_packets sent.
Proof.
  intros [->|(nonce & p0 & p1 & _ & H0 & H1 & Hs)]; [apply host_packets_nil|].
  destruct (host_packets_greeting p0 p1 _ _ H0 H1). by destruct Hs as [->| ->].
Qed.

(** The inputs both sides announced; the host announces all three. *)
Definition shared_input (caps : Capabilities.t) : InputCapabilities.t :=
  InputCapabilities.mk (Z.land 7 (InputCapabilities.bits (Capabilities.input caps))).

#[export] Instance logged_answers `{NativePlatformAnswers V U} : NativePlatformAnswers V (Logged.t U).
Proof.
  refine {| device_ok d := device_ok (Logged.device d) |}.
  - exact (prepare_returns (V:=V) (U:=U)).
  - exact (start_returns (V:=V) (U:=U)).
  - exact (batch_returns (V:=V) (U:=U)).
  - intros d w h. cbn. apply returns_obind; [apply (controller_returns (V:=V) (U:=U))|done].
  - intros d w h u Hw Hh. cbn. destruct (new_input_controller d w h) as [device|e|f] eqn:Hn; cbn [obind]; [|done..].
    intros [= <-]. by apply (controller_ok (V:=V) d w h).
  - intros u event Hu He. cbn. pose proof (inject_answers (V:=V) (Logged.device u) event Hu He) as Hi.
    by destruct (inject (Logged.device u) event).
Defined.

Lemma started_returns `{NativePlatformAnswers V U} display_id config bitrate :
  returns (start_negotiated_capture_stream (V:=V) (U:=U) display_id config bitrate).
Proof.
  unfold start_negotiated_capture_stream, H264StreamConfig.new.
  apply returns_obind; [apply prepare_returns|intros _ _].
  apply returns_obind; [by repeat case_match|intros c _]. apply start_returns.
Qed.

Section Whole.
Context {T V U : Type} `{Safety : EndpointSafety T} `{Answers : NativePlatformAnswers V U}.

(** Establishing replaces the session by one that is live from number [s] on. *)
Lemma established_accounts h hello caps s est config shared name :
  agreed_session h hello caps s est -> in_u 64 s -> accounts shared 3 ->
  accounts (SharedState.establish_android_control shared config
    (EstablishedHostSession.session est) name) 3.
Proof.
  intros (a & d & _ & _ & ->) Hs []. split; cbn; try done. intros x [= <-].
  split; cbn; try done. by intros n [= <-].
Qed.

(** The session starts well. *)
Lemma started_live c nonce h hello caps s est (r : Recorder.t T) (device : U) shared config input a :
  HostProtocolConfig.wf c -> length nonce = 16%nat -> HostHandshake.with_nonce c nonce = Ok h ->
  agreed_session h hello caps s est -> started_with est a config input ->
  in_u 64 s -> accounts shared 3 -> safe (Recorder.inner r) ->
  host_packets (Recorder.sent r) -> zlen (Recorder.sent r) = 3 -> device_ok device ->
  input = shared_input caps /\
  live input s (Recorder.received r)
    (Link.mk (SharedState.establish_android_control shared config
                (EstablishedHostSession.session est) (EstablishedHostSession.peer_name est))
       r (Logged.mk device []) 3).
Proof.
  intros Hc Hn Hh Hag' Hst Hs Hacc Hsafe Hsent Hlen Hdv.
  pose proof (established_accounts _ _ _ _ _ config _ (EstablishedHostSession.peer_name est) Hag' Hs Hacc) as Hest.
  destruct Hag' as (a' & d & Ha & Hd & ->).
  destruct (with_nonce_ok c nonce Hc Hn) as (h' & Hh' & _ & _ & _ & _ & _ & Hhc).
  rewrite Hh in Hh'. injection Hh' as <-.
  pose proof (st_agreement _ _ _ _ Hst) as Hag. cbn in Hag. injection Hag as <-.
  assert (Hob : obeys input s s (Recorder.received r) []).
  { exists []. split_and!; [done|apply sublist_nil_l|by repeat constructor|constructor]. }
  split.
  - apply agreement_iff in Ha as [_ _ _ _ _ (_ & Him & _)]. apply shared_bits_land in Him.
    rewrite <-(st_input _ _ _ _ Hst), Hhc in Him. unfold shared_input.
    change 7 with (InputCapabilities.bits (Capabilities.input (host_capabilities_of c))).
    by rewrite <-Him; destruct input.
  - split; cbn; rewrite ?Hlen; [|done|done|].
    + split; cbn; rewrite ?Hlen; [done|done|exact Hest|done|done|by exists s|done].
    + eexists _, s. by split_and!.
Qed.

(** What a session leaves behind. *)
Definition session_left (opening : Opening.t) (turns : list Turn.t)
    (x : (SharedState.t * Recorder.t T * option (Logged.t U)) * outcome string unit) : Prop :=
  let '((shared, r, device), out) := x in
  host_packets (Recorder.sent r) /\
  accounts shared (Z.max 3 (zlen (Recorder.sent r))) /\
  (forall d, device = Some d -> exists q1 q2 hello caps s last,
     [q1; q2] `prefix_of` Recorder.received r /\ introduces q1 q2 hello caps s /\
     obeys (shared_input caps) s last (Recorder.received r) (Logged.events d)) /\
  (forall d, device = Some d -> exists u, device_ok u /\ Logged.device d = drop_input_controller (V:=V) u) /\
  (forall f, out = Fault f -> f = OutOfFuel /\
     ~ (stops (Opening.started opening + USB_NEGOTIATION_TIMEOUT) (Opening.polls opening) /\
        cancels turns /\ waits_end turns)).

Lemma protocol_config_new config : LoopbackConfig.wf config ->
  exists c, HostProtocolConfig.new (LoopbackConfig.width config) (LoopbackConfig.height config)
    (LoopbackConfig.fps config) = Ok c /\ HostProtocolConfig.wf c.
Proof.
  intros [Hw Hh Hf]. exists (HostProtocolConfig.mk (LoopbackConfig.width config) (LoopbackConfig.height config)
    (LoopbackConfig.fps config)). split; [|by split]. unfold HostProtocolConfig.new.
  destruct (Z.eqb_spec (LoopbackConfig.width config) 0); [lia|].
  destruct (Z.eqb_spec (LoopbackConfig.height config) 0); [lia|]. by destruct Hf as [-> | ->].
Qed.

(** Serving turns from a good start. *)
Lemma served_left opening turns q1 q2 hello caps s (run : Run.t (Recorder.t T) V (Logged.t U)) :
  introduces q1 q2 hello caps s -> live (shared_input caps) s [q1; q2] (Run.link run) -> timely turns ->
  session_left opening turns
    (let (run, served) := serve (shared_input caps) turns run in
     ((Link.shared (Run.link run), Link.transport (Run.link run),
       Some (drop_input_controller (Link.input (Run.link run)))), served)).
Proof.
  intros Hint Hlive Hty.
  pose proof (serve_keeps (shared_input caps) s [q1; q2] turns run Hlive Hty) as Hkeep.
  destruct (serve (shared_input caps) turns run) as [run' out]. cbv zeta in Hkeep. cbn [fst snd] in Hkeep.
  assert (Hup : upheld (shared_input caps) s [q1; q2] (Run.link run')) by (destruct out; apply Hkeep).
  destruct Hup as [Hsafe' Hsent' Hacc' Hle Hop [last Hob] Hdv]. split_and!; [done| | | |].
  - eapply accounts_later; [done|lia].
  - intros d [= <-]. by exists q1, q2, hello, caps, s, last.
  - intros d [= <-]. by eexists.
  - intros f ->. destruct Hkeep as (-> & Hns & _). tauto.
Qed.

Lemma run_session_spec opening turns shared config display_id (t : T) :
  safe t -> LoopbackConfig.wf config ->
  (forall nonce, Opening.random opening = inr nonce -> length nonce = 16%nat) ->
  Duration.valid (Opening.started opening + USB_NEGOTIATION_TIMEOUT) -> timely turns ->
  accounts shared 3 ->
  session_left opening turns
    (run_android_control_session_inner (U:=Logged.t U) opening turns shared config display_id
       (Recorder.mk t [] [])).
Proof.
  intros Ht Hwf Hn Hd Hty Ha. unfold run_android_control_session_inner.
  destruct (protocol_config_new config Hwf) as (c & -> & Hc). cbn [otry].
  pose proof (negotiate_host_transport_spec (Opening.polls opening) t c (Opening.random opening)
    USB_NEGOTIATION_TIMEOUT (Opening.started opening) Ht Hc Hn Hd) as Hneg.
  pose proof (negotiate_erase (Opening.polls opening) (Recorder.mk t [] []) c (Opening.random opening)
    USB_NEGOTIATION_TIMEOUT (Opening.started opening)) as Her.
  pose proof (negotiate_safe (Opening.polls opening) t c (Opening.random opening)
    USB_NEGOTIATION_TIMEOUT (Opening.started opening) Ht) as Hsf.
  cbn [Recorder.inner] in Her. rewrite Her in Hsf. clear Her.
  destruct (negotiate_host_transport _ (Recorder.mk t [] []) _ _ _ _) as [[r polls'] out].
  cbn in Hsf. destruct out as [est|e|f]; cbn [otry].
  - destruct Hneg as (nonce & h & p0 & p1 & p2 & q1 & q2 & hello & caps & s & Hrand & Hwith & Hsent &
      Hd0 & Hd1 & Hd2 & Hrec & Hint & Hag).
    destruct (introduces_typed _ _ _ _ _ Hint) as [Hcaps Hs].
    destruct (agreed_parameters c nonce h hello caps s est Hc (Hn nonce Hrand) Hwith Hcaps Hag)
      as (a & config' & input & -> & Hst). cbn [otry].
    assert (Hpk : host_packets (Recorder.sent r)).
    { rewrite Hsent. apply (host_packets_snoc [p0; p1]);
        [by eapply host_packets_greeting|by exists (EstablishedHostSession.display_config est)]. }
    assert (Hlen : zlen (Recorder.sent r) = 3) by (by rewrite Hsent).
    assert (Hleft : forall shared' d out, accounts shared' 3 -> d = None ->
      returns out -> session_left opening turns ((shared', r, d), out)).
    { intros shared' d out Hacc -> Hret. split_and!; [done|by rewrite Hlen|done|done|]. by intros f ->. }
    pose proof (started_returns (V:=V) (U:=Logged.t U) display_id config'
      (DisplayConfig.bitrate_kbps (EstablishedHostSession.display_config est))) as Hv.
    destruct (start_negotiated_capture_stream display_id config' _) as [v|e|f]; cbn [otry];
      [|by apply Hleft|done].
    cbn [new_input_controller logged_platform].
    pose proof (controller_returns display_id (LoopbackConfig.width config')
      (LoopbackConfig.height config')) as Hcr.
    assert (Hstart : forall device : U, device_ok device -> input = shared_input caps /\
      live input s (Recorder.received r)
        (Link.mk (SharedState.establish_android_control shared config'
          (EstablishedHostSession.session est) (EstablishedHostSession.peer_name est)) r
          (Logged.mk device []) 3)).
    { intros device Hdv. eapply started_live; try done. by apply Hn. }
    assert (Hnext : EstablishedHostSession.next_sequence est = 3)
      by (by destruct Hag as (? & ? & _ & _ & ->)).
    destruct (new_input_controller display_id _ _) as [device|e|f] eqn:Hdev; cbn [obind otry]; [| |done].
    + rewrite Hnext. destruct (st_config _ _ _ _ Hst) as [Hw16 Hh16 _].
      destruct (Hstart device) as [-> Hlive]; [by eapply controller_ok in Hdev; unfold in_u; (done || lia)|].
      rewrite Hrec in Hlive. by apply (served_left opening turns q1 q2 hello caps s (Run.mk _ v [] None None)).
    + apply Hleft; [|done..]. by eapply established_accounts.
  - split_and!; [by eapply greeted_packets| |done..].
    eapply accounts_later; [done|lia].
  - destruct Hneg as (-> & Hg & Hns). split_and!; [by eapply greeted_packets| |done|done|].
    + eapply accounts_later; [done|lia].
    + intros f [= <-]. tauto.
Qed.
End Whole.

(** ** Properties of a session *)

(** C3: over any endpoint that answers, whatever the display and the other users of the link do, and
    whatever the adapters answer, the packets a session sends are frames numbered 0, 1, 2, ...
    without gap or repetition: Hello, Capabilities and the display configuration, and then only
    answers to probes and video frames that carry their own number. *)
Theorem host_frames_are_consecutive `{Safety : EndpointSafety T} `{Answers : NativePlatformAnswers V U}
  opening turns shared config display_id (t : T)
  (Ht : safe t) (Hc : LoopbackConfig.wf config)
  (Hn : forall nonce, Opening.random opening = inr nonce -> length nonce = 16%nat)
  (Hd : Duration.valid (Opening.started opening + USB_NEGOTIATION_TIMEOUT))
  (Hty : timely turns) (Ha : accounts shared 3) :
  let r := snd (fst (fst (run_android_control_session_inner (U:=Logged.t U) opening turns shared
    config display_id (Recorder.mk t [] [])))) in
  host_packets (Recorder.sent r).
Proof.
  pose proof (run_session_spec opening turns shared config display_id t Ht Hc Hn Hd Hty Ha) as H'.
  destruct (run_android_control_session_inner _ _ _ _ _ _) as [[[s r] d] out]. apply H'.
Qed.

(** C4: every event a session gives to the input controller was carried by a packet it received
    after the display's two introductions, in the order received, with numbers that grow strictly
    above the introductions' (so no packet is obeyed twice), and each is of a kind whose bit is set
    in the capabilities the display itself announced: bit 0 for pointer moves, buttons and wheel,
    bit 1 for touch, bit 2 for keys, and any of them for a change of focus. *)
Theorem input_is_fresh_and_negotiated `{Safety : EndpointSafety T}
  `{Answers : NativePlatformAnswers V U} opening turns shared config display_id (t : T)
  (Ht : safe t) (Hc : LoopbackConfig.wf config)
  (Hn : forall nonce, Opening.random opening = inr nonce -> length nonce = 16%nat)
  (Hd : Duration.valid (Opening.started opening + USB_NEGOTIATION_TIMEOUT))
  (Hty : timely turns) (Ha : accounts shared 3) :
  let '((_, r, device), _) := run_android_control_session_inner (U:=Logged.t U) opening turns shared
    config display_id (Recorder.mk t [] []) in
  forall d, device = Some d -> exists q1 q2 hello caps s last,
    [q1; q2] `prefix_of` Recorder.received r /\ introduces q1 q2 hello caps s /\
    obeys (shared_input caps) s last (Recorder.received r) (Logged.events d).
Proof.
  pose proof (run_session_spec opening turns shared config display_id t Ht Hc Hn Hd Hty Ha) as H'.
  destruct (run_android_control_session_inner _ _ _ _ _ _) as [[[s r] d] out]. apply H'.
Qed.

(** C37: a session ends: once its negotiation's polls reach the deadline or the cancel flag, some turn
    sees the cancel flag and the polls of every reply reach their deadline, it has returned, with
    an answer or an error and without panic. *)
Theorem session_ends `{Safety : EndpointSafety T} `{Answers : NativePlatformAnswers V U}
  opening turns shared config display_id (t : T)
  (Ht : safe t) (Hc : LoopbackConfig.wf config)
  (Hn : forall nonce, Opening.random opening = inr nonce -> length nonce = 16%nat)
  (Hd : Duration.valid (Opening.started opening + USB_NEGOTIATION_TIMEOUT))
  (Hty : timely turns) (Ha : accounts shared 3)
  (Hstop : stops (Opening.started opening + USB_NEGOTIATION_TIMEOUT) (Opening.polls opening))
  (Hcancel : cancels turns) (Hwait : waits_end turns) :
  returns (snd (run_android_control_session_inner (U:=Logged.t U) opening turns shared config
    display_id (Recorder.mk t [] []))).
Proof.
  pose proof (run_session_spec opening turns shared config display_id t Ht Hc Hn Hd Hty Ha) as H'.
  destruct (run_android_control_session_inner _ _ _ _ _ _) as [[[s r] d] out].
  destruct H' as (_ & _ & _ & _ & Hf). destruct out as [[]|e|f]; [done..|].
  destruct (Hf f eq_refl) as [_ Hno]. by destruct Hno.
Qed.

(** The media clock: the first batch fixes the offset at which its first unit is due now; later
    batches leave it alone unless their first unit is a key frame more than two frame durations
    late, and then that unit is due now again. A moved offset is always larger. *)
Theorem media_clock_moves_for_late_keyframes u rest now offset
  (Hnow : Duration.valid now) (Hts : Duration.valid (H264AccessUnit.timestamp u))
  (Hdur : 0 <= H264AccessUnit.duration u /\ H264AccessUnit.duration u * 2 <= Duration.MAX)
  (Hoff : forall o, offset = Some o -> 0 <= o /\ o + H264AccessUnit.timestamp u <= Duration.MAX) :
  let due o := o + H264AccessUnit.timestamp u in
  exists o, align_media_clock (u :: rest) now offset = (Some o, Ok tt) /\
  match offset with
  | None => due o = Z.max now (H264AccessUnit.timestamp u)
  | Some old =>
      o = (if H264AccessUnit.keyframe u &&
              (H264AccessUnit.duration u * 2 <? now - due old)
           then now - H264AccessUnit.timestamp u else old) /\ old <= o
  end.
Proof.
  unfold Duration.valid in *. cbv zeta. unfold align_media_clock, Duration.checked_add, Duration.checked_mul,
    Duration.saturating_sub. cbn [head ok_or otry].
  destruct offset as [old|]; cbn [from_option]; unfold id.
  - destruct (Hoff old eq_refl) as [H0 Hle]. rewrite (proj2 (Z.leb_le _ _) Hle).
    rewrite (proj2 (Z.leb_le _ _) (proj2 Hdur)). cbn [ok_or otry]. rewrite Z.gtb_ltb.
    destruct (H264AccessUnit.keyframe u); cbn [andb]; [|eexists; split; [done|lia]].
    destruct (Z.ltb_spec (H264AccessUnit.duration u * 2) (Z.max (now - (old + H264AccessUnit.timestamp u)) 0)) as [Hl|Hl],
      (Z.ltb_spec (H264AccessUnit.duration u * 2) (now - (old + H264AccessUnit.timestamp u)));
      try lia; eexists; (split; [done|lia]).
  - rewrite (proj2 (Z.leb_le _ _)) by lia. rewrite (proj2 (Z.leb_le _ _) (proj2 Hdur)).
    cbn [ok_or otry]. rewrite Z.gtb_ltb.
    destruct (Z.ltb_spec (H264AccessUnit.duration u * 2)
      (Z.max (now - (Z.max (now - H264AccessUnit.timestamp u) 0 + H264AccessUnit.timestamp u)) 0)); [lia|].
    rewrite andb_false_r. eexists. split; [done|lia].
Qed.

Module StreamExamples.
(** An adapter that delivers a list of batches. *)
Definition batches : Type := list H264StreamBatch.t.
#[export] Instance listed_platform : NativePlatform batches unit := {
  prepare_capture_display_mode _ _ _ := Ok tt;
  start_capture_stream _ _ := Ok [H264StreamBatch.mk "Listed encoder"
    [H264AccessUnit.mk [x00; x00; x00; x01; x65] 0 16666667 true]];
  try_next_batch v := match v with [] => ([], Ok None) | b :: v => (v, Ok (Some b)) end;
  new_input_controller _ _ _ := Ok tt;
  inject u _ := (u, Ok tt);
  drop_input_controller u := u;
}.
#[export] Instance listed_answers : NativePlatformAnswers batches unit.
Proof. refine {| device_ok _ := True |}; try done. by intros []. Defined.

Definition event : InputEvent.t := InputEvent.mk 5 (InputEventKind.PointerMove 12 34).
Definition report : Telemetry.t :=
  Telemetry.mk 9 3 (StageTimings.mk 100 200 300 400 500) 1 0 0 0 ThermalState.Nominal.
Definition from_display : list Packet.t :=
  [HandshakeExamples.first; HandshakeExamples.second; HandshakeExamples.packet_of 9 event;
   HandshakeExamples.packet_of 10 (Ping.mk 77 1000); HandshakeExamples.packet_of 12 report].
Definition limits : QueueLimits.t := QueueLimits.mk 16 4096 512.
Definition link : SharedEndpoint.t :=
  SharedEndpoint.mk Side.First (Link.new (TransportLoopback.LoopbackConfig.new limits limits))
    [[]; []; map (LinkCall.Send Side.Second) from_display].
Lemma link_safe : safe link.
Proof. intros s c. destruct s, c; by apply empty_queue_wf; split; cbn; lia. Qed.

Definition opening : Opening.t :=
  Opening.mk (inr HandshakeExamples.nonce) 10
    (map (Poll.mk false) [10; 20; 30; 40; 50; 60; 5000000010]).
Definition reply : Reply.t := Reply.mk 2000 3000 10 (map (Poll.mk false) [20; 1000000010]).
Definition turns : list Turn.t :=
  [Turn.mk false reply 100 100; Turn.mk false reply 200 200; Turn.mk false reply 300 300;
   Turn.mk true reply 400 400].
Definition config : LoopbackConfig.t := LoopbackConfig.mk 1920 1080 60.
Definition idle : SharedState.t :=
  SharedState.reset_for_android_negotiation SharedState.new config USB_TRANSPORT_NAME 0.

Definition whole : (SharedState.t * Recorder.t SharedEndpoint.t * option (Logged.t unit)) * outcome string unit :=
  run_android_control_session_inner (V:=batches) (U:=Logged.t unit) opening turns idle config None
    (Recorder.mk link [] []).

(** The event is injected, the probe answered, the access unit sent as frame 3
    and then reported as shown. *)
Example whole_session : let '((s, r, d), out) := whole in
  (length (Recorder.sent r), Logged.events <$> d, SharedState.frames_presented s, out) =
  (5%nat, Some [event], 1, Ok tt).
Proof. vm_compute. reflexivity. Qed.

Lemma config_wf : LoopbackConfig.wf config.
Proof. split; cbn; (lia || by right). Qed.
Lemma opening_nonce : forall n, Opening.random opening = inr n -> length n = 16%nat.
Proof. by intros n [= <-]. Qed.
Lemma opening_valid : Duration.valid (Opening.started opening + USB_NEGOTIATION_TIMEOUT).
Proof. by vm_compute. Qed.
Lemma turns_timely : timely turns.
Proof. repeat constructor; by vm_compute. Qed.
Lemma idle_accounts : accounts idle 3.
Proof. split; cbn; (done || apply fresh_latency_wf || constructor). Qed.

Lemma host_frames_are_consecutive_witness :
  host_packets (Recorder.sent (snd (fst (fst whole)))) /\
  length (Recorder.sent (snd (fst (fst whole)))) = 5%nat.
Proof.
  split; [|vm_compute; reflexivity].
  exact (host_frames_are_consecutive (V:=batches) (U:=unit) opening turns idle config None link
    link_safe config_wf opening_nonce opening_valid turns_timely idle_accounts).
Defined.

Lemma input_is_fresh_and_negotiated_witness :
  let '((_, r, device), _) := whole in
  exists d, device = Some d /\ Logged.events d = [event] /\
    exists q1 q2 hello caps s last,
      [q1; q2] `prefix_of` Recorder.received r /\ introduces q1 q2 hello caps s /\
      obeys (shared_input caps) s last (Recorder.received r) [event].
Proof.
  pose proof (input_is_fresh_and_negotiated (V:=batches) (U:=unit) opening turns idle config None link
    link_safe config_wf opening_nonce opening_valid turns_timely idle_accounts) as H.
  fold whole in H. destruct whole as [[[s r] device] out] eqn:Hw.
  assert (Hd : Logged.events <$> snd (fst whole) = Some [event]) by (vm_compute; reflexivity).
  rewrite Hw in Hd. cbn in Hd. destruct device as [d|]; [|discriminate Hd].
  injection Hd as Hd. exists d. split; [reflexivity|]. split; [exact Hd|].
  rewrite <-Hd. exact (H d eq_refl).
Defined.

Lemma session_ends_witness :
  cancels turns /\ waits_end turns /\ returns (snd whole).
Proof.
  assert (Hc : cancels turns)
    by (apply Exists_cons_tl, Exists_cons_tl, Exists_cons_tl, Exists_cons_hd; reflexivity).
  assert (Hs : stops (10 + 1000000000) (Reply.polls reply))
    by (apply Exists_cons_tl, Exists_cons_hd; right; cbn; lia).
  assert (Hw : waits_end turns) by (do 4 (apply Forall_cons_2; [exact Hs|]); constructor).
  split; [exact Hc|]. split; [exact Hw|].
  apply (session_ends (V:=batches) (U:=unit) opening turns idle config None link link_safe config_wf
    opening_nonce opening_valid turns_timely idle_accounts); [|exact Hc|exact Hw].
  apply Exists_exists. exists (Poll.mk false 5000000010).
  split; [apply list_elem_of_In; cbn; tauto|right; vm_compute; discriminate].
Defined.

(** A key frame that is three frame durations late makes the clock move on. *)
Definition late_unit : H264AccessUnit.t := H264AccessUnit.mk [x65] 1000 100 true.
Lemma media_clock_moves_for_late_keyframes_witness :
  exists o, align_media_clock [late_unit] 1800 (Some 500) = (Some o, Ok tt) /\ o = 800.
Proof.
  destruct (media_clock_moves_for_late_keyframes late_unit [] 1800 (Some 500)) as (o & Ho & H).
  - unfold Duration.valid, Duration.MAX. lia.
  - unfold Duration.valid, Duration.MAX. cbn. lia.
  - unfold Duration.MAX. cbn. lia.
  - intros o [= <-]. unfold Duration.MAX. cbn. lia.
  - exists o. split; [exact Ho|]. destruct H as [-> _]. reflexivity.
Defined.
End StreamExamples.
