(* ===== verification/HostReconnect.v ===== *)
(** * The workers that keep a display session alive

    Models [run_tether_control_session], [run_usb_control_session] and
    [wait_cancellable] of [apps/desktop/src-tauri/src/runtime.rs]: one session
    over an authenticated socket, and sessions over USB that are renegotiated
    after a lost link within a window of one minute. *)
From stdpp Require Import pretty.
From S2P Require Export HostStream.
Local Open Scope string_scope.
Local Open Scope list_scope.
Local Open Scope Z_scope.

(** The methods of the USB manager a worker uses beside the transport's. The
    list is what [reconnect] sees of the cancel flag. *)
Class ReconnectingTransport (T : Type) `{PacketTransport T} := {
  reconnect : T -> list bool -> T * outcome string unit;
  close_runtime_session : T -> T * outcome string unit;
}.

(** [false] when the wait was cancelled. *)
Fixpoint wait_until (polls : list Poll.t) (deadline : Z) : panics_or bool :=
  match polls with
  | [] => Fault OutOfFuel
  | poll :: polls =>
    if Poll.cancelled poll then Ok false
    else if Poll.now poll >=? deadline then Ok true
    else wait_until polls deadline
  end.

(** [started] is the clock at the call. *)
Definition wait_cancellable (polls : list Poll.t) (duration started : Z) : panics_or bool :=
  let! deadline := Duration.add started duration in
  wait_until polls deadline.

(** What one attempt to reconnect observes: the clock, the clock and polls of
    its wait, the clock after it, the flag as [reconnect] and its caller see it. *)
Module Attempt.
Record t : Type := mk {
  now : Z;
  wait_started : Z;
  wait : list Poll.t;
  waited : Z;
  reconnect_cancelled : list bool;
  cancelled : bool;
}.
End Attempt.

(** What one session and the recovery after it observe. *)
Module Round.
Record t : Type := mk {
  opening : Opening.t;
  turns : list Turn.t;
  cancelled : bool;
  now : Z;
  attempts : list Attempt.t;
}.
End Round.

Definition not_recovered (last_error : string) : string :=
  "Android USB did not recover within " +:+ pretty (Duration.as_secs USB_RECONNECT_WINDOW) +:+
  " seconds: " +:+ last_error.

Section Workers.
Context {T V U : Type} `{ReconnectingTransport T} `{NativePlatform V U}.

(** The socket's own account of an error is an argument. *)
Definition run_tether_control_session (opening : Opening.t) (turns : list Turn.t) (cancelled : bool)
  (socket_error : T -> option string) (shared : SharedState.t) (config : LoopbackConfig.t)
  (display_id : option string) (transport : T) : (SharedState.t * T) * panics_or unit :=
  let '((shared, transport, _), result) :=
    run_android_control_session_inner opening turns shared config display_id transport in
  match result with
  | Fault f => ((shared, transport), Fault f)
  | Ok _ => ((shared, transport), Ok tt)
  | Err error =>
    if cancelled then ((shared, transport), Ok tt) else
    let socket_detail := default "" ((fun detail => " Socket: " +:+ detail +:+ ".") <$>
      socket_error transport) in
    ((SharedState.fail_android_session shared
        ("Android USB-tether session failed: " +:+ error +:+ "." +:+ socket_detail +:+
         " Pair again to reconnect."), transport), Ok tt)
  end.

(** The inner loop: [Some] attempt count when the link is back, [None] when the
    worker ends. *)
Fixpoint recover (attempts : list Attempt.t) (shared : SharedState.t) (transport : T)
  (config : LoopbackConfig.t) (deadline reconnect_attempt : Z) (last_error : string)
  : (SharedState.t * T) * panics_or (option Z) :=
  match attempts with
  | [] => ((shared, transport), Fault OutOfFuel)
  | attempt :: attempts =>
    let now := Attempt.now attempt in
    if now >=? deadline
    then ((SharedState.fail_android_session shared (not_recovered last_error), transport), Ok None)
    else
    let delay := Z.min (usb_reconnect_delay reconnect_attempt) (deadline - now) in
    let shared := SharedState.begin_usb_recovery shared last_error reconnect_attempt delay in
    let? waited := wait_cancellable (Attempt.wait attempt) delay (Attempt.wait_started attempt)
      keeping (shared, transport) in
    if negb waited then ((shared, transport), Ok None)
    else if Attempt.waited attempt >=? deadline
    then ((SharedState.fail_android_session shared (not_recovered last_error), transport), Ok None)
    else
    let (transport, reconnected) := reconnect transport (Attempt.reconnect_cancelled attempt) in
    match reconnected with
    | Ok _ => ((SharedState.begin_usb_renegotiation shared config, transport),
               Ok (Some reconnect_attempt))
    | Err error =>
      if Attempt.cancelled attempt then ((shared, transport), Ok None)
      else recover attempts shared transport config deadline
             (saturating_add 32 reconnect_attempt 1) error
    | Fault f => ((shared, transport), Fault f)
    end
  end.

(** The outer loop, before the guard closes the link. *)
Fixpoint run_rounds (rounds : list Round.t) (shared : SharedState.t) (config : LoopbackConfig.t)
  (display_id : option string) (transport : T) (reconnect_deadline : option Z)
  (reconnect_attempt : Z) : (SharedState.t * T) * panics_or unit :=
  match rounds with
  | [] => ((shared, transport), Fault OutOfFuel)
  | round :: rounds =>
    let '((shared, transport, _), result) := run_android_control_session_inner
      (Round.opening round) (Round.turns round) shared config display_id transport in
    match result with
    | Fault f => ((shared, transport), Fault f)
    | Ok _ => ((shared, transport), Ok tt)
    | Err error =>
      if Round.cancelled round then ((shared, transport), Ok tt)
      else if bool_decide (connection_state transport <> ConnectionState.Disconnected)
      then ((SharedState.fail_android_session shared error, transport), Ok tt)
      else
      let had_streamed := bool_decide (SharedState.phase shared = SessionPhaseView.Streaming) in
      let? (deadline, reconnect_attempt) :=
        match reconnect_deadline, had_streamed with
        | Some deadline, false => Ok (deadline, reconnect_attempt)
        | _, _ =>
          let! deadline := Duration.add (Round.now round) USB_RECONNECT_WINDOW in
          Ok (deadline, 1)
        end keeping (shared, transport) in
      let '((shared, transport), recovered) := recover (Round.attempts round) shared transport config
        deadline reconnect_attempt error in
      let? next := recovered keeping (shared, transport) in
      match next with
      | None => ((shared, transport), Ok tt)
      | Some reconnect_attempt =>
        run_rounds rounds shared config display_id transport (Some deadline) reconnect_attempt
      end
    end
  end.

Definition run_usb_control_session (rounds : list Round.t) (shared : SharedState.t)
  (config : LoopbackConfig.t) (display_id : option string) (transport : T)
  : (SharedState.t * T) * panics_or unit :=
  let '((shared, transport), result) := run_rounds rounds shared config display_id transport None 1 in
  let (transport, _) := close_runtime_session transport in
  ((shared, transport), result).
End Workers.

(** ** What ends a worker *)

(** The observed clock ends a wait, or the flag does. *)
Definition wait_ends (polls : list Poll.t) (deadline : Z) : Prop :=
  Exists (fun p => Poll.cancelled p = true \/ deadline <= Poll.now p) polls.

Lemma wait_until_spec polls deadline :
  match wait_until polls deadline with
  | Ok true => Exists (fun p => deadline <= Poll.now p) polls
  | Ok false => Exists (fun p => Poll.cancelled p = true) polls
  | Err _ => False
  | Fault f => f = OutOfFuel /\ ~ wait_ends polls deadline
  end.
Proof.
  induction polls as [|p polls IH]; cbn [wait_until].
  { split; [done|]. intros Hw. by apply Exists_nil in Hw. }
  destruct (Poll.cancelled p) eqn:Hc; [by apply Exists_cons_hd|].
  rewrite Z.geb_leb. destruct (Z.leb_spec deadline (Poll.now p)); [by apply Exists_cons_hd|].
  destruct (wait_until polls deadline) as [[]|e|f]; [by apply Exists_cons_tl..|done|].
  destruct IH as [-> IH]. split; [done|]. intros [[Hx|Hx]|Hx]%Exists_cons; [congruence|lia|done].
Qed.

(** The session is over and the state says so. *)
Record failed (s : SharedState.t) : Prop := {
  failed_phase : SharedState.phase s = SessionPhaseView.Failed;
  failed_session : SharedState.session s = None;
  failed_error : is_Some (SharedState.last_error s);
  failed_queue : SharedState.queue_depth s = 0;
  failed_history : SharedState.sent_video_ordinals s = [];
}.

Lemma fail_failed s error : failed (SharedState.fail_android_session s error).
Proof. by split. Qed.

(** No observation of the cancel flag finds it set. *)
Definition unflagged_attempt (a : Attempt.t) : Prop :=
  Attempt.cancelled a = false /\ Forall (fun p => Poll.cancelled p = false) (Attempt.wait a).
Definition unflagged (r : Round.t) : Prop :=
  Round.cancelled r = false /\ Forall (fun t => Turn.cancelled t = false) (Round.turns r) /\
  Forall unflagged_attempt (Round.attempts r).

Section Ending.
Context {T V U : Type} `{ReconnectingTransport T} `{NativePlatform V U}.

Lemma serve_ok_cancelled capabilities turns (run : Run.t T V U) :
  snd (serve capabilities turns run) = Ok tt -> cancels turns.
Proof.
  revert run. induction turns as [|t turns IH]; intros run; [done|]. cbn [serve].
  destruct (Turn.cancelled t) eqn:Hc; [by left|].
  destruct (serve_turn capabilities t run) as [run1 [[]|e|f]]; cbn [otry snd]; [|done..].
  intros Hs. right. by eapply IH.
Qed.

Lemma session_ok_cancelled opening turns shared config display_id (t : T) :
  snd (run_android_control_session_inner opening turns shared config display_id t) = Ok tt ->
  cancels turns.
Proof.
  unfold run_android_control_session_inner.
  destruct (HostProtocolConfig.new _ _ _) as [c|e|f]; cbn [otry]; [|done..].
  destruct (negotiate_host_transport _ _ _ _ _ _) as [[t1 polls] [est|e|f]]; cbn [otry]; [|done..].
  destruct (negotiated_runtime_parameters est) as [[c1 input]|e|f]; cbn [otry]; [|done..].
  destruct (start_negotiated_capture_stream _ _ _) as [v|e|f]; cbn [otry]; [|done..].
  destruct (new_input_controller _ _ _) as [u|e|f]; cbn [otry]; [|done..].
  match goal with |- context [serve ?c ?ts ?r] => pose proof (serve_ok_cancelled c ts r) as Hs;
    destruct (serve c ts r) as [run out] end. exact Hs.
Qed.

Lemma recover_unflagged attempts shared (transport : T) config deadline attempt last_error :
  Forall unflagged_attempt attempts ->
  match recover attempts shared transport config deadline attempt last_error with
  | ((s, _), Ok None) => failed s
  | ((s, _), Ok (Some _)) => SharedState.phase s = SessionPhaseView.Negotiating /\
      SharedState.session s = None /\ SharedState.sent_video_ordinals s = []
  | _ => True
  end.
Proof.
  intros Ha. revert shared transport attempt last_error.
  induction Ha as [|a attempts [Hc Hw] _ IH]; intros shared transport attempt last_error; [done|].
  cbn [recover]. destruct (Attempt.now a >=? deadline); [apply fail_failed|].
  unfold wait_cancellable. destruct (Duration.add _ _) as [d|e|f]; cbn [obind otry]; [|done..].
  pose proof (wait_until_spec (Attempt.wait a) d) as Hwait.
  destruct (wait_until (Attempt.wait a) d) as [[]|e|f]; cbn [otry negb]; [| |done..].
  2:{ exfalso. apply Exists_exists in Hwait as (p & Hp & Hpc). rewrite Forall_forall in Hw.
      apply Hw in Hp. congruence. }
  destruct (Attempt.waited a >=? deadline); [apply fail_failed|].
  destruct (reconnect transport _) as [t1 [[]|e|f]]; [done| |done].
  rewrite Hc. apply IH.
Qed.

Lemma run_rounds_unflagged rounds shared config display_id (transport : T) deadline attempt :
  Forall unflagged rounds ->
  match run_rounds rounds shared config display_id transport deadline attempt with
  | ((s, _), Ok _) => failed s
  | _ => True
  end.
Proof.
  intros Hr. revert shared transport deadline attempt.
  induction Hr as [|r rounds [Hc [Ht Ha]] _ IH]; intros shared transport deadline attempt; [done|].
  cbn [run_rounds].
  pose proof (session_ok_cancelled (Round.opening r) (Round.turns r) shared config display_id transport) as Hok.
  destruct (run_android_control_session_inner _ _ _ _ _ _) as [[[s1 t1] u] [[]|e|f]]; [|clear Hok|done].
  - specialize (Hok eq_refl). exfalso. apply Exists_exists in Hok as (t & Hin & Htc).
    rewrite Forall_forall in Ht. apply Ht in Hin. congruence.
  - rewrite Hc. case_bool_decide; [apply fail_failed|].
    match goal with |- context [otry _ ?m _] => destruct m as [[d k]|x|f] end; cbn [otry]; [|done..].
    pose proof (recover_unflagged (Round.attempts r) s1 t1 config d k e Ha) as Hrec.
    destruct (recover _ s1 t1 config d k e) as [[s2 t2] [[k'|]|x|f]]; cbn [otry]; [apply IH|done..].
Qed.
End Ending.

(** C29: a worker never leaves a session that looks alive: when a tether worker or a USB worker ends
    although no observation found the cancel flag set, the shared state says Failed, with an error
    text, no session, an empty queue and an empty frame history, however the link, the display,
    the adapters and the reconnects behaved. *)
Theorem workers_leave_no_live_session `{ReconnectingTransport T} `{NativePlatform V U}
  rounds opening turns socket_error shared config display_id (transport : T)
  (Hr : Forall unflagged rounds) (Ht : Forall (fun t => Turn.cancelled t = false) turns) :
  match run_usb_control_session rounds shared config display_id transport with
  | ((s, _), Ok _) => failed s
  | _ => True
  end /\
  match run_tether_control_session opening turns false socket_error shared config display_id transport with
  | ((s, _), Ok _) => failed s
  | _ => True
  end.
Proof.
  split.
  - unfold run_usb_control_session.
    pose proof (run_rounds_unflagged rounds shared config display_id transport None 1 Hr) as Hf.
    destruct (run_rounds _ _ _ _ _ _ _) as [[s t] out]. by destruct (close_runtime_session t).
  - unfold run_tether_control_session.
    pose proof (session_ok_cancelled opening turns shared config display_id transport) as Hok.
    destruct (run_android_control_session_inner _ _ _ _ _ _) as [[[s1 t1] u] [[]|e|f]];
      [|apply fail_failed|done].
    specialize (Hok eq_refl). exfalso. apply Exists_exists in Hok as (t & Hin & Htc).
    rewrite Forall_forall in Ht. apply Ht in Hin. congruence.
Qed.

(** ** What a session keeps of its transport

    An endpoint that is safe stays safe through a session, and through the recovery of a
    link that reconnects safely. *)
Section TransportKept.
Context {T V C : Type} `{Rec : ReconnectingTransport T} `{!EndpointSafety T} `{NativePlatform V C}.
Implicit Types (link : Link.t T C) (run : Run.t T V C).

Lemma send_unit_safe link u offset :
  safe (Link.transport link) -> safe (Link.transport (fst (send_usb_h264_access_unit link u offset))).
Proof.
  intros Ht. unfold send_usb_h264_access_unit, otry. repeat (case_match; try done); simplify_eq/=.
  all: match goal with E : try_send ?t ?p = _ |- _ => pose proof (safe_send t p Ht) as [Hs _]; by rewrite E in Hs end.
Qed.
Lemma control_safe input reply p link :
  safe (Link.transport link) -> safe (Link.transport (fst (handle_usb_control input reply p link))).
Proof.
  intros Ht. unfold handle_usb_control, dispatch_control, answer_ping, apply_input, send_control_payload, otry.
  repeat (case_match; try done); simplify_eq/=; try done.
  all: match goal with E : send_reliable_control ?polls ?t ?p ?d = _ |- _ =>
    pose proof (send_safe polls t p d Ht) as Hs; by rewrite E in Hs end.
Qed.
Lemma peer_safe input reply link :
  safe (Link.transport link) -> safe (Link.transport (fst (serve_peer input reply link))).
Proof.
  intros Ht. unfold serve_peer. case_bool_decide; [done|].
  destruct (safe_receive (Link.transport link) Channel.Media Ht) as [Hm _].
  destruct (try_receive (Link.transport link) Channel.Media) as [t1 [m|e|f]]; cbn [map_err otry] in *; [|done..].
  case_bool_decide; [done|]. cbn [Link.transport Link.set_transport fst] in *.
  destruct (safe_receive t1 Channel.Control Hm) as [Hc _].
  destruct (try_receive t1 Channel.Control) as [t2 [[p|]|e|f]]; cbn [map_err otry] in *; [|done..].
  by apply control_safe.
Qed.
Lemma batch_safe at_ run : Run.link (fst (take_batch at_ run)) = Run.link run.
Proof. unfold take_batch, otry. by repeat case_match. Qed.
Lemma due_safe at_ run :
  safe (Link.transport (Run.link run)) -> safe (Link.transport (Run.link (fst (send_due at_ run)))).
Proof.
  intros Ht. unfold send_due, otry. repeat (case_match; try done); simplify_eq/=.
  all: match goal with E : send_usb_h264_access_unit ?l ?u ?o = _ |- _ =>
    pose proof (send_unit_safe l u o Ht) as Hs; by rewrite E in Hs end.
Qed.
Lemma serve_safe input turns run :
  safe (Link.transport (Run.link run)) -> safe (Link.transport (Run.link (fst (serve input turns run)))).
Proof.
  revert run. induction turns as [|t turns IH]; intros run Ht; [done|]. cbn [serve].
  destruct (Turn.cancelled t); [done|]. unfold serve_turn.
  pose proof (peer_safe input (Turn.reply t) (Run.link run) Ht) as Hp.
  destruct (serve_peer _ _ _) as [link [[]|e|f]]; cbn [otry fst] in *; [|done..].
  pose proof (batch_safe (Turn.aligned_at t) (Run.set_link run link)) as Hb.
  destruct (take_batch _ _) as [run2 r2]. cbn [fst Run.link Run.set_link] in Hb.
  assert (Ht2 : safe (Link.transport (Run.link run2))) by (by rewrite Hb).
  destruct r2 as [[]|e|f]; cbn [otry fst]; [|done..].
  pose proof (due_safe (Turn.due_at t) run2 Ht2) as Hd.
  destruct (send_due _ _) as [run3 [[]|e|f]]; cbn [otry fst] in *; [by apply IH|done..].
Qed.

Lemma session_safe opening turns shared config display_id (t : T) :
  safe t ->
  safe (snd (fst (fst (run_android_control_session_inner (V:=V) (U:=C) opening turns shared config display_id t)))).
Proof.
  intros Ht. unfold run_android_control_session_inner.
  destruct (HostProtocolConfig.new _ _ _) as [c|e|f]; cbn [otry]; [|done..].
  pose proof (negotiate_safe (Opening.polls opening) t c (Opening.random opening) USB_NEGOTIATION_TIMEOUT
    (Opening.started opening) Ht) as Hn.
  destruct (negotiate_host_transport _ _ _ _ _ _) as [[t1 polls] [est|e|f]]; cbn [otry fst] in *; [|done..].
  destruct (negotiated_runtime_parameters est) as [[c1 input]|e|f]; cbn [otry]; [|done..].
  destruct (start_negotiated_capture_stream _ _ _) as [v|e|f]; cbn [otry]; [|done..].
  destruct (new_input_controller _ _ _) as [u|e|f]; cbn [otry]; [|done..].
  match goal with |- context [serve ?c ?ts ?r] => pose proof (serve_safe c ts r Hn) as Hs; by destruct (serve c ts r) end.
Qed.

Context (Hre : forall (t : T) polls, safe t -> safe (fst (reconnect t polls))).

Lemma recover_safe attempts shared (t : T) config deadline attempt last_error :
  safe t -> safe (snd (fst (recover attempts shared t config deadline attempt last_error))).
Proof.
  revert shared t attempt last_error.
  induction attempts as [|a attempts IH]; intros shared t attempt last_error Ht; [done|].
  cbn [recover]. destruct (Attempt.now a >=? deadline); [done|].
  destruct (wait_cancellable _ _ _) as [[]|e|f]; cbn [otry negb]; [|done..].
  destruct (Attempt.waited a >=? deadline); [done|].
  pose proof (Hre t (Attempt.reconnect_cancelled a) Ht) as Hr.
  destruct (reconnect t _) as [t1 [[]|e|f]]; [done| |done].
  destruct (Attempt.cancelled a); [done|by apply IH].
Qed.
Lemma rounds_safe rounds shared config display_id (t : T) deadline attempt :
  safe t -> safe (snd (fst (run_rounds (V:=V) (U:=C) rounds shared config display_id t deadline attempt))).
Proof.
  revert shared t deadline attempt.
  induction rounds as [|r rounds IH]; intros shared t deadline attempt Ht; [done|]. cbn [run_rounds].
  pose proof (session_safe (Round.opening r) (Round.turns r) shared config display_id t Ht) as Hs.
  destruct (run_android_control_session_inner _ _ _ _ _ _) as [[[s1 t1] u] [[]|e|f]]; [done| |done]. cbn [fst snd] in Hs.
  destruct (Round.cancelled r); [done|]. case_bool_decide; [done|].
  match goal with |- context [otry _ ?m _] => destruct m as [[d k]|x|f] end; cbn [otry]; [|done..].
  pose proof (recover_safe (Round.attempts r) s1 t1 config d k e Hs) as Hr.
  destruct (recover _ s1 t1 config d k e) as [[s2 t2] [[k'|]|x|f]]; cbn [otry fst snd] in *; [by apply IH|done..].
Qed.
End TransportKept.

(** ** How often a link is reopened *)

(** An endpoint that counts the calls of [reconnect]. *)
Module Counted.
Record t (T : Type) : Type := mk {
  link : T;
  reconnects : Z;
}.
Arguments mk {T} link reconnects.
Arguments link {T} t.
Arguments reconnects {T} t.
End Counted.

#[export] Instance counted_transport `{PacketTransport T} : PacketTransport (Counted.t T) := {
  connection_state c := connection_state (Counted.link c);
  try_send c p := let (t, a) := try_send (Counted.link c) p in
    (Counted.mk t (Counted.reconnects c), a);
  try_receive c ch := let (t, a) := try_receive (Counted.link c) ch in
    (Counted.mk t (Counted.reconnects c), a);
}.
#[export] Instance counted_reconnecting `{ReconnectingTransport T} : ReconnectingTransport (Counted.t T) := {
  reconnect c flags := let (t, a) := reconnect (Counted.link c) flags in
    (Counted.mk t (Counted.reconnects c + 1), a);
  close_runtime_session c := let (t, a) := close_runtime_session (Counted.link c) in
    (Counted.mk t (Counted.reconnects c), a);
}.

(** Successive observations of one clock, from time [t] on. *)
Fixpoint clocked (t : Z) (attempts : list Attempt.t) : Prop :=
  match attempts with
  | [] => True
  | a :: attempts =>
    t <= Attempt.now a <= Attempt.wait_started a /\
    Forall (fun p => Poll.now p <= Attempt.waited a) (Attempt.wait a) /\
    clocked (Attempt.waited a) attempts
  end.

(** The waiting before the [n]-th call: 250 ms, 500 ms, 1 s, and 2 s from then on. *)
Definition waited_before (n : Z) : Z :=
  if n <=? 0 then 0 else if n =? 1 then 250000000 else if n =? 2 then 750000000
  else 1750000000 + 2000000000 * (n - 3).

Lemma waited_step n : 0 <= n < 2 ^ 32 -> waited_before (n + 1) = waited_before n + usb_reconnect_delay (n + 1).
Proof.
  intros Hn.
  destruct (decide (n = 0)) as [->|]; [reflexivity|]. destruct (decide (n = 1)) as [->|]; [reflexivity|].
  destruct (decide (n = 2)) as [->|]; [reflexivity|].
  assert (Hd : usb_reconnect_delay (n + 1) = 2000000000).
  { unfold usb_reconnect_delay, saturating_sub. replace (Z.min (Z.max (n + 1 - 1) 0) 3) with 3 by lia.
    reflexivity. }
  rewrite Hd. unfold waited_before.
  destruct (Z.leb_spec (n + 1) 0), (Z.leb_spec n 0), (Z.eqb_spec (n + 1) 1), (Z.eqb_spec n 1),
    (Z.eqb_spec (n + 1) 2), (Z.eqb_spec n 2); lia.
Qed.

Lemma recover_counts `{ReconnectingTransport T} attempts shared (c : Counted.t T) config start now n last_error :
  0 <= n <= 32 -> clocked now attempts -> start + waited_before n <= now ->
  Counted.reconnects (snd (fst (recover attempts shared c config (start + USB_RECONNECT_WINDOW)
    (n + 1) last_error))) <= Counted.reconnects c + (32 - n).
Proof.
  revert shared c now n last_error. induction attempts as [|a attempts IH];
    intros shared c now n last_error Hn Hclk Hnow; [cbn; lia|].
  cbn [recover]. destruct Hclk as ([Hna Hnw] & Hpolls & Hclk).
  set (deadline := start + USB_RECONNECT_WINDOW). rewrite Z.geb_leb.
  destruct (Z.leb_spec deadline (Attempt.now a)) as [|Hlt]; [cbn; lia|].
  unfold wait_cancellable, Duration.add, Duration.checked_add.
  destruct (_ <=? Duration.MAX); cbn [expect obind otry]; [|cbn; lia].
  set (delay := Z.min (usb_reconnect_delay (n + 1)) (deadline - Attempt.now a)).
  pose proof (wait_until_spec (Attempt.wait a) (Attempt.wait_started a + delay)) as Hwait.
  destruct (wait_until _ _) as [[]|e|f]; cbn [otry negb]; [|cbn; lia..].
  rewrite Z.geb_leb. destruct (Z.leb_spec deadline (Attempt.waited a)) as [|Hw]; [cbn; lia|].
  apply Exists_exists in Hwait as (p & Hp & Hd). rewrite Forall_forall in Hpolls. apply Hpolls in Hp.
  assert (Hfull : start + waited_before (n + 1) <= Attempt.waited a)
    by (rewrite waited_step by lia; lia).
  assert (Hn31 : n <= 31).
  { destruct (Z.leb_spec n 31); [done|]. assert (n = 32) as -> by lia.
    change (waited_before (32 + 1)) with 61750000000 in Hfull.
    unfold deadline, USB_RECONNECT_WINDOW, Duration.from_secs in *. lia. }
  cbn [reconnect counted_reconnecting].
  destruct (reconnect (Counted.link c) _) as [t1 [[]|e|f]]; [cbn; lia| |cbn; lia].
  destruct (Attempt.cancelled a); [cbn; lia|].
  rewrite (saturating_add_exact 32) by lia.
  specialize (IH (SharedState.begin_usb_recovery shared last_error (n + 1) delay)
    (Counted.mk t1 (Counted.reconnects c + 1)) (Attempt.waited a) (n + 1) e ltac:(lia) Hclk Hfull).
  cbn [Counted.reconnects] in IH. fold deadline in IH. lia.
Qed.

(** After a lost link the host tries to reopen it at most 32 times before it gives up: the waits
    double from 250 ms to 2 s, each is served in full before the next try, and no try starts at or
    after the end of the one-minute window. *)
Theorem reconnects_are_bounded_by_window `{ReconnectingTransport T} attempts shared (transport : T)
  config start error (Hclk : clocked start attempts) :
  Counted.reconnects (snd (fst (recover attempts shared (Counted.mk transport 0) config
    (start + USB_RECONNECT_WINDOW) 1 error))) <= 32.
Proof.
  pose proof (recover_counts attempts shared (Counted.mk transport 0) config start start 0 error) as Hr.
  cbn [Counted.reconnects] in Hr. change (0 + 1) with 1 in Hr.
  assert (waited_before 0 = 0) by reflexivity. specialize (Hr ltac:(lia) Hclk ltac:(lia)). lia.
Qed.

(** The observations of an attempt end its wait, whatever the delay. *)
Definition attempt_ends (a : Attempt.t) : Prop :=
  Duration.valid (Attempt.wait_started a + USB_RECONNECT_MAX_DELAY) /\ 0 <= Attempt.wait_started a /\
  wait_ends (Attempt.wait a) (Attempt.wait_started a + USB_RECONNECT_MAX_DELAY).

(** Recovery ends: once an attempt finds the clock past the window, with every wait before it
    served or cancelled, the worker has reopened the link or given up, without panic. *)
Theorem recovery_ends `{ReconnectingTransport T} attempts shared (transport : T) config deadline attempt
  error (Hret : forall (t : T) flags, returns (snd (reconnect t flags)))
  (Hends : Forall attempt_ends attempts) (Hk : 0 <= attempt)
  (Hlate : Exists (fun a => deadline <= Attempt.now a) attempts) :
  returns (snd (recover attempts shared transport config deadline attempt error)).
Proof.
  revert shared transport attempt error Hk Hlate.
  induction Hends as [|a attempts (Hv & Hpos & Hwe) _ IH]; intros shared transport attempt error Hk Hlate;
    [by apply Exists_nil in Hlate|].
  cbn [recover]. rewrite Z.geb_leb. destruct (Z.leb_spec deadline (Attempt.now a)) as [|Hlt]; [done|].
  pose proof (usb_reconnect_delay_bounds attempt Hk) as Hd.
  set (delay := Z.min (usb_reconnect_delay attempt) (deadline - Attempt.now a)).
  unfold wait_cancellable, Duration.add, Duration.checked_add.
  unfold USB_RECONNECT_INITIAL_DELAY, Duration.from_millis, Duration.valid in *.
  rewrite (proj2 (Z.leb_le (Attempt.wait_started a + delay) _)) by lia. cbn [expect obind otry].
  pose proof (wait_until_spec (Attempt.wait a) (Attempt.wait_started a + delay)) as Hw.
  destruct (wait_until _ _) as [[]|e|f]; cbn [otry negb]; [|done|done|].
  2:{ destruct Hw as [_ Hw]. exfalso. apply Hw. eapply Exists_impl; [exact Hwe|].
      intros p [?|?]; [by left|right; lia]. }
  destruct (Attempt.waited a >=? deadline); [done|].
  pose proof (Hret transport (Attempt.reconnect_cancelled a)) as Hr.
  destruct (reconnect transport _) as [t1 [[]|e|f]]; [done| |done].
  destruct (Attempt.cancelled a); [done|].
  apply IH; [unfold saturating_add, u_max; lia|].
  apply Exists_cons in Hlate as [|]; [lia|done].
Qed.

Module ReconnectExamples.
(** The adapters of a target without native ones. *)
#[export] Instance portable_platform : NativePlatform unit unit := {
  prepare_capture_display_mode := Portable.prepare_capture_display_mode;
  start_capture_stream := Portable.CapturedH264Stream.start "linux";
  try_next_batch v := (v, Portable.CapturedH264Stream.try_next_batch "linux");
  new_input_controller := Portable.NativeInputController.new "linux";
  inject u _ := (u, Ok tt);
  drop_input_controller u := u;
}.
#[export] Instance portable_reconnecting : ReconnectingTransport Portable.UsbAccessoryManager.t := {
  reconnect t flags := (t, Portable.UsbAccessoryManager.reconnect "linux" t (existsb id flags));
  close_runtime_session t := (t, Portable.UsbAccessoryManager.close_runtime_session t);
}.

Definition config : LoopbackConfig.t := LoopbackConfig.mk 1280 720 60.
Definition opening : Opening.t := Opening.mk (inr (repeat x48 16)) 0 [Poll.mk false 1].
Definition attempt (now : Z) : Attempt.t :=
  Attempt.mk now now [Poll.mk false (now + 2000000000)] (now + 2000000000) [] false.
Definition attempts : list Attempt.t := map attempt [10; 3000000000; 60000000010].
Definition rounds : list Round.t := [Round.mk opening [] false 10 attempts].
Definition ended := run_usb_control_session (V:=unit) (U:=unit) rounds SharedState.new config None
  Portable.UsbAccessoryManager.mk.

Lemma workers_leave_no_live_session_witness :
  Forall unflagged rounds /\ snd ended = Ok tt /\ failed (fst (fst ended)) /\
  SharedState.last_error (fst (fst ended)) =
    Some ("Android USB did not recover within 60 seconds: Android Open Accessory reconnection is " +:+
          "not implemented for linux yet").
Proof.
  assert (Hr : Forall unflagged rounds)
    by (apply Forall_singleton; split; [reflexivity|]; split; [constructor|];
        repeat (apply Forall_cons; split; [split; [reflexivity|apply Forall_singleton; reflexivity]|]);
        constructor).
  pose proof (workers_leave_no_live_session (V:=unit) (U:=unit) rounds opening [] (fun _ => None)
    SharedState.new config None Portable.UsbAccessoryManager.mk Hr ltac:(constructor)) as [H _].
  assert (Ho : snd ended = Ok tt) by (vm_compute; reflexivity).
  assert (He : SharedState.last_error (fst (fst ended)) =
    Some ("Android USB did not recover within 60 seconds: Android Open Accessory reconnection is " +:+
          "not implemented for linux yet")) by (vm_compute; reflexivity).
  split; [exact Hr|]. split; [exact Ho|]. split; [|exact He].
  fold ended in H. destruct ended as [[s t] [[]|e|f]]; [exact H|discriminate Ho..].
Defined.

Lemma reconnects_are_bounded_by_window_witness :
  clocked 10 attempts /\
  Counted.reconnects (snd (fst (recover attempts SharedState.new
    (Counted.mk Portable.UsbAccessoryManager.mk 0) config (10 + USB_RECONNECT_WINDOW) 1 "lost"))) <= 32.
Proof.
  assert (Hc : clocked 10 attempts)
    by (cbn; repeat (split; try lia; try (apply Forall_singleton; cbn; lia))).
  split; [exact Hc|]. exact (reconnects_are_bounded_by_window attempts SharedState.new
    Portable.UsbAccessoryManager.mk config 10 "lost" Hc).
Defined.

Lemma recovery_ends_witness :
  Forall attempt_ends attempts /\
  returns (snd (recover attempts SharedState.new Portable.UsbAccessoryManager.mk config
    (10 + USB_RECONNECT_WINDOW) 1 "lost")).
Proof.
  assert (He : Forall attempt_ends attempts).
  { repeat (apply Forall_cons; split;
      [split; [vm_compute; split; discriminate|split; [vm_compute; discriminate|]];
       apply Exists_cons_hd; right; vm_compute; discriminate|]). constructor. }
  split; [exact He|].
  apply recovery_ends; [intros t flags; exact I|exact He|lia|].
  do 2 apply Exists_cons_tl. apply Exists_cons_hd. vm_compute. discriminate.
Defined.
End ReconnectExamples.
