(* ===== verification/HostLoopback.v ===== *)
(** * The loopback preview

    Models [run_loopback], [protocol_packet] and [present_latest] of
    [apps/desktop/src-tauri/src/runtime.rs]: a paced synthetic stream sent over
    the in-memory link and shown by a display that skips one interval in 120, so
    that replaceable frames are superseded. Both endpoints are sides of one
    link. *)
From stdpp Require Import pretty gmap.
From S2P Require Export HostState MediaScheduler MediaSynthetic.
Local Open Scope string_scope.
Local Open Scope list_scope.
Local Open Scope Z_scope.

Definition MEDIA_STREAM_KEY : SupersessionKey.t := SupersessionKey.new 1.

Definition protocol_packet (frame : MediaFrame.t) : outcome string Packet.t :=
  let media_metadata := MediaFrame.metadata frame in
  let! duration := duration_micros_u32 (FrameMetadata.duration media_metadata) in
  let! wire_metadata := map_err ProtocolError.to_string
    (VideoFrameMetadata.new (FrameMetadata.sequence media_metadata)
      (duration_micros_u64 (FrameMetadata.capture_time media_metadata))
      (duration_micros_u64 (FrameMetadata.presentation_time media_metadata)) duration) in
  let kind := FrameMetadata.kind media_metadata in
  let (_metadata, payload) := MediaFrame.into_parts frame in
  let! video_frame := map_err ProtocolError.to_string (VideoFrame.new wire_metadata payload) in
  let flags := if bool_decide (kind = FrameKind.Key) then FrameFlags.KEYFRAME else FrameFlags.NONE in
  let! wire_frame := map_err ProtocolError.to_string
    (Frame.from_payload flags (FrameMetadata.sequence media_metadata) video_frame) in
  Ok (if bool_decide (kind = FrameKind.Key) then Packet.media (Frame.encode wire_frame)
      else Packet.replaceable_media MEDIA_STREAM_KEY (Frame.encode wire_frame)).

(** [frames_dropped.saturating_add(n)]. *)
Definition count_dropped (state : SharedState.t) (n : Z) : SharedState.t :=
  SharedState.set_dropped state (saturating_add 64 (SharedState.frames_dropped state) n).

(** The display's side of the link, the state and the send times, after the
    call; [now] is the clock when a frame is shown. *)
Definition present_latest (now : Z) (link : Link.t) (shared : SharedState.t) (sent_at : gmap Z Z)
  : (Link.t * SharedState.t * gmap Z Z) * panics_or unit :=
  let (display, received) :=
    LoopbackEndpoint.try_receive (LoopbackEndpoint.mk Side.Second link) Channel.Media in
  let link := LoopbackEndpoint.link display in
  match received with
  | Fault f => ((link, shared, sent_at), Fault f)
  | Ok (Some packet) =>
    match decode_prefix (Packet.payload packet) with
    | Fault f => ((link, shared, sent_at), Fault f)
    | Ok (DecodeOutcome.Complete wire_frame consumed) =>
      if negb (consumed =? Packet.len packet)
      then ((link, count_dropped shared 1, sent_at), Ok tt) else
      match Frame.decode_payload VideoFrame.t wire_frame with
      | Fault f => ((link, shared, sent_at), Fault f)
      | Err _ => ((link, count_dropped shared 1, sent_at), Ok tt)
      | Ok video_frame =>
        let sequence := VideoFrameMetadata.frame_id (VideoFrame.metadata video_frame) in
        match sent_at !! sequence with
        | None => ((link, shared, sent_at), Ok tt)
        | Some started_at =>
          let sent_at := delete sequence sent_at in
          let (shared, refused) :=
            match SharedState.session shared with
            | Some session =>
              if bool_decide (Session.phase session = SessionPhase.Active) then
                let (session, observed) := Session.observe_sequence session sequence in
                (SharedState.set_session shared (Some session),
                 match observed with Ok _ => Ok false | Err _ => Ok true | Fault f => Fault f end)
              else (shared, Ok false)
            | None => (shared, Ok false)
            end in
          let? refused := refused keeping (link, shared, sent_at) in
          if refused : bool then ((link, count_dropped shared 1, sent_at), Ok tt) else
          let shared := SharedState.set_presented shared
            (saturating_add 64 (SharedState.frames_presented shared) 1) in
          let shared := SharedState.set_queue_depth shared
            (saturating_sub (SharedState.queue_depth shared) 1) in
          let (latency, recorded) := LatencyAggregator.record (SharedState.latency shared)
            (Duration.saturating_sub now started_at) in
          let shared := SharedState.set_latency shared latency in
          ((link, match recorded with Err _ => count_dropped shared 1 | _ => shared end, sent_at),
           Ok tt)
        end
      end
    | _ => ((link, count_dropped shared 1, sent_at), Ok tt)
    end
  | _ => ((link, shared, sent_at), Ok tt)
  end.

(** The locals of [run_loopback] and the shared state. *)
Module Preview.
Record t : Type := mk {
  link : Link.t;
  shared : SharedState.t;
  producer : SyntheticFrameProducer.t;
  pacer : FramePacer.t;
  sent_at : gmap Z Z;
  last_key_sequence : option Z;
}.
Definition set_pacer (self : t) (v : FramePacer.t) : t :=
  mk (link self) (shared self) (producer self) v (sent_at self) (last_key_sequence self).
Definition set_producer (self : t) (v : SyntheticFrameProducer.t) : t :=
  mk (link self) (shared self) v (pacer self) (sent_at self) (last_key_sequence self).
Definition set_shared (self : t) (v : SharedState.t) : t :=
  mk (link self) v (producer self) (pacer self) (sent_at self) (last_key_sequence self).
End Preview.

(** What one turn observes: the flag, the time since the stream's origin, the
    clock when a frame is sent and when one is shown. *)
Module PreviewTurn.
Record t : Type := mk {
  cancelled : bool;
  elapsed : Z;
  sent_now : Z;
  shown_now : Z;
}.
End PreviewTurn.

(** Handing a packet to the host's side of the link. *)
Definition send_preview (now sequence : Z) (is_key : bool) (packet : Packet.t) (p : Preview.t)
  : Preview.t * panics_or unit :=
  let (host, sent) :=
    LoopbackEndpoint.try_send (LoopbackEndpoint.mk Side.First (Preview.link p)) packet in
  let link := LoopbackEndpoint.link host in
  let shared := Preview.shared p in
  match sent with
  | Fault f => (Preview.mk link shared (Preview.producer p) (Preview.pacer p) (Preview.sent_at p)
      (Preview.last_key_sequence p), Fault f)
  | Err _ => (Preview.mk link (count_dropped shared 1) (Preview.producer p) (Preview.pacer p)
      (Preview.sent_at p) (Preview.last_key_sequence p), Ok tt)
  | Ok report =>
    let superseded := QueueDepth.packets (SendReport.superseded report) in
    let sent_at :=
      if superseded >? 0
      then filter (fun entry => Some (fst entry) = Preview.last_key_sequence p) (Preview.sent_at p)
      else Preview.sent_at p in
    let last_key_sequence := if is_key then Some sequence else Preview.last_key_sequence p in
    let sent_at := <[sequence := now]> sent_at in
    let shared := SharedState.set_produced shared
      (saturating_add 64 (SharedState.frames_produced shared) 1) in
    let shared := SharedState.set_superseded shared
      (saturating_add 64 (SharedState.frames_superseded shared) superseded) in
    let shared := SharedState.set_queue_depth shared
      (saturating_add usize_bits (saturating_sub (SharedState.queue_depth shared) superseded) 1) in
    (Preview.mk link shared (Preview.producer p) (Preview.pacer p) sent_at last_key_sequence, Ok tt)
  end.

(** The frames of the slots that have passed are dropped. *)
Definition skip_frames (tick : PacingTick.t) (p : Preview.t) : Preview.t * panics_or unit :=
  if PacingTick.skipped tick >? 0 then
    let (producer, skipped) :=
      SyntheticFrameProducer.advance_to_sequence (Preview.producer p) (PacingTick.index tick) in
    let p := Preview.set_producer p producer in
    let? producer_skipped := skipped keeping p in
    let? _ := debug_assert (producer_skipped =? PacingTick.skipped tick) keeping p in
    (Preview.set_shared p (count_dropped (Preview.shared p) (PacingTick.skipped tick)), Ok tt)
  else (p, Ok tt).

(** The body of the loop; [false] leaves it. *)
Definition preview_turn (turn : PreviewTurn.t) (p : Preview.t) : Preview.t * panics_or bool :=
  let (pacer, decision) := FramePacer.poll (Preview.pacer p) (PreviewTurn.elapsed turn) in
  let p := Preview.set_pacer p pacer in
  let? decision := decision keeping p in
  match decision with
  | PaceDecision.WaitUntil _ => (p, Ok true)
  | PaceDecision.Exhausted => (p, Ok false)
  | PaceDecision.Due tick =>
    let (p, advanced) := skip_frames tick p in
    let? _ := advanced keeping p in
    let (producer, produced) := SyntheticFrameProducer.next_frame (Preview.producer p) in
    let p := Preview.set_producer p producer in
    let? produced := produced keeping p in
    match produced with
    | None => (p, Ok false)
    | Some media_frame =>
      let sequence := FrameMetadata.sequence (MediaFrame.metadata media_frame) in
      let is_key := bool_decide (FrameMetadata.kind (MediaFrame.metadata media_frame) = FrameKind.Key) in
      match protocol_packet media_frame with
      | Fault f => (p, Fault f)
      | Err _ => (Preview.set_shared p (count_dropped (Preview.shared p) 1), Ok true)
      | Ok packet =>
        let (p, sent) := send_preview (PreviewTurn.sent_now turn) sequence is_key packet p in
        let? _ := sent keeping p in
        if negb (sequence mod 120 =? 0) then
          let '((link, shared, sent_at), presented) := present_latest (PreviewTurn.shown_now turn)
            (Preview.link p) (Preview.shared p) (Preview.sent_at p) in
          let p := Preview.mk link shared (Preview.producer p) (Preview.pacer p) sent_at
            (Preview.last_key_sequence p) in
          let? _ := presented keeping p in
          (p, Ok true)
        else (p, Ok true)
      end
    end
  end.

Fixpoint preview_loop (turns : list PreviewTurn.t) (p : Preview.t) : Preview.t * panics_or unit :=
  match turns with
  | [] => (p, Fault OutOfFuel)
  | turn :: turns =>
    if PreviewTurn.cancelled turn then (p, Ok tt) else
    let (p, r) := preview_turn turn p in
    let? continues := r keeping p in
    if continues : bool then preview_loop turns p else (p, Ok tt)
  end.

(** The start of [run_loopback]: every [expect] is a panic otherwise. *)
Definition preview_start (shared : SharedState.t) (config : LoopbackConfig.t) : panics_or Preview.t :=
  let expect_ok {E A} (m : outcome E A) : panics_or A :=
    match m with Ok a => Ok a | Err _ => Fault Panicked | Fault f => Fault f end in
  let! link_config := TransportLoopback.LoopbackConfig.default_config in
  let (host, _display) := loopback_pair link_config in
  let! frame_rate := expect_ok (FrameRate.from_hz (LoopbackConfig.fps config)) in
  let! dimensions :=
    expect_ok (FrameDimensions.new (LoopbackConfig.width config) (LoopbackConfig.height config)) in
  let format := VideoFormat.mk dimensions frame_rate in
  let! interval := chk 64 (LoopbackConfig.fps config * 2) in
  let! synthetic_config := expect_ok (SyntheticConfig.new format (4 * 1024) interval) in
  let synthetic_config := SyntheticConfig.with_seed synthetic_config 0x4c44464c in
  Ok (Preview.mk (LoopbackEndpoint.link host) shared (SyntheticFrameProducer.new synthetic_config)
        (FramePacer.new frame_rate Duration.ZERO) ∅ None).

Definition run_loopback (turns : list PreviewTurn.t) (shared : SharedState.t) (config : LoopbackConfig.t)
  : SharedState.t * panics_or unit :=
  match preview_start shared config with
  | Ok p =>
    let (p, r) := preview_loop turns p in
    let? _ := r keeping (Preview.shared p) in
    (SharedState.set_queue_depth (Preview.shared p) 0, Ok tt)
  | Err e => match e with end
  | Fault f => (shared, Fault f)
  end.

(** ** The accounts of the preview *)

Definition in_flight (link : Link.t) : Z := zlen (lane_packets link Side.First Channel.Media).

(** [queued] frames wait on the link. *)
Record counts (s : SharedState.t) (queued : Z) : Prop := {
  ct_sum : SharedState.frames_produced s =
    SharedState.frames_presented s + SharedState.frames_superseded s + SharedState.queue_depth s;
  ct_presented : 0 <= SharedState.frames_presented s;
  ct_superseded : 0 <= SharedState.frames_superseded s;
  ct_queued : queued <= SharedState.queue_depth s;
  ct_latency : LatencyAggregator.wf (SharedState.latency s);
  ct_session : forall x, SharedState.session s = Some x -> session_inv x;
}.

Lemma count_dropped_counts s n queued : counts s queued -> counts (count_dropped s n) queued.
Proof. by intros []. Qed.

Lemma counts_fewer s queued queued' : counts s queued -> queued' <= queued -> counts s queued'.
Proof. intros [] ?. split; (done || lia). Qed.

Definition link_ready (link : Link.t) : Prop := link_wf link /\ Link.connected link = true.

(** The session is told the number of the frame shown. *)
Lemma observed_counts shared m queued : VideoFrameMetadata.wf m -> counts shared queued ->
  exists s1 (refused : bool),
    (match SharedState.session shared with
     | Some session =>
       if bool_decide (Session.phase session = SessionPhase.Active) then
         let (session, observed) := Session.observe_sequence session (VideoFrameMetadata.frame_id m) in
         (SharedState.set_session shared (Some session),
          match observed with Ok _ => Ok false | Err _ => Ok true | Fault f => Fault f end)
       else (shared, Ok false)
     | None => (shared, Ok false)
     end) = (s1, @Ok Empty_set bool refused) /\ counts s1 queued /\
    SharedState.frames_produced s1 = SharedState.frames_produced shared.
Proof.
  intros Hm Hc. destruct (SharedState.session shared) as [x|] eqn:Hx; [|by eauto 7].
  case_bool_decide; [|by eauto 7].
  pose proof (ct_session _ _ Hc x Hx) as Hinv.
  assert (Hid : in_u 64 (VideoFrameMetadata.frame_id m)) by apply Hm.
  pose proof (returns_apply (Op.Observe _) x Hid Hinv) as Hret.
  pose proof (apply_inv (Op.Observe _) x Hid Hinv) as Hinv'. cbn in Hret, Hinv'.
  destruct (Session.observe_sequence x _) as [x' r]. cbn [fst snd] in *.
  assert (Hc' : counts (SharedState.set_session shared (Some x')) queued).
  { destruct Hc. split; state_fields; try done. by intros y [= <-]. }
  destruct r; [by eauto 7|by eauto 7|done].
Qed.

(** A frame shown leaves the queue for the frames presented, with its latency. *)
Lemma shown_counts shared now started link : 0 <= in_flight link -> counts shared (1 + in_flight link) ->
  SharedState.frames_produced shared < 2 ^ 64 ->
  let shown := SharedState.set_presented shared (saturating_add 64 (SharedState.frames_presented shared) 1) in
  let shown := SharedState.set_queue_depth shown (saturating_sub (SharedState.queue_depth shown) 1) in
  let (latency, recorded) := LatencyAggregator.record (SharedState.latency shown) (Duration.saturating_sub now started) in
  counts (SharedState.set_latency shown latency) (in_flight link).
Proof.
  intros Hf Hc Hp shown shown'.
  assert (Hc2 : counts shown' (in_flight link)).
  { destruct Hc as [Hs0 Hpr Hsu Hq Hla Hse]. unfold shown', shown.
    split; state_fields; try done; unfold saturating_sub; rewrite ?saturating_add_exact by lia; lia. }
  pose proof (record_wf (SharedState.latency shown') (Duration.saturating_sub now started)
    (ct_latency _ _ Hc2) ltac:(unfold Duration.saturating_sub; lia)) as Hla.
  destruct (LatencyAggregator.record _ _) as [latency recorded]. cbn [fst] in Hla. destruct Hc2. by split.
Qed.

(** Showing a frame, on every branch. *)
Lemma present_latest_keeps now link shared sent_at :
  link_ready link -> counts shared (in_flight link) -> SharedState.frames_produced shared < 2 ^ 64 ->
  exists link' shared' sent_at', present_latest now link shared sent_at = ((link', shared', sent_at'), Ok tt) /\
    link_ready link' /\ counts shared' (in_flight link') /\
    SharedState.frames_produced shared' = SharedState.frames_produced shared.
Proof.
  intros [Hwf Hcon] Hc Hp. unfold present_latest. rewrite receive_connected by done.
  cbn [other LoopbackEndpoint.link].
  rewrite pop_spec by apply Hwf. cbn [fst].
  set (link' := set_lane_queue link Side.First Channel.Media _).
  assert (Hready : link_ready link').
  { split; [|by unfold link'; rewrite connected_set_lane]. apply set_lane_wf; [done|].
    pose proof (pop_wf _ (Hwf Side.First Channel.Media)) as Hq. by rewrite pop_spec in Hq by apply Hwf. }
  assert (Hfly : in_flight link' = zlen (tail (lane_packets link Side.First Channel.Media))).
  { unfold in_flight, link'. by rewrite lane_packets_set_same. }
  assert (Hsame : counts shared (in_flight link')).
  { eapply counts_fewer; [done|]. rewrite Hfly. unfold in_flight. destruct (lane_packets _ _ _); cbn; lia. }
  assert (Hdrop : counts (count_dropped shared 1) (in_flight link')) by (by apply count_dropped_counts).
  destruct (lane_packets link Side.First Channel.Media) as [|packet rest] eqn:Hl; cbn [head]; [by eauto 7|].
  pose proof (returns_decode_prefix (Packet.payload packet)) as Hr.
  destruct (decode_prefix (Packet.payload packet)) as [[f n|m]|e|ft] eqn:Hd; [|by eauto 7..|done].
  apply decode_prefix_complete_inv in Hd as (Hf & _).
  destruct (negb _); [by eauto 7|].
  pose proof (wire_decode_returns (P:=VideoFrame.t) (Frame.payload f)) as Hv.
  unfold Frame.decode_payload. case_bool_decide; [by eauto 7|].
  destruct (wire_decode (Frame.payload f)) as [v|e|ft] eqn:Hdec; [|by eauto 7|done].
  apply (wire_decode_iff (P:=VideoFrame.t)) in Hdec as [Hvw _].
  destruct (sent_at !! _) as [started|]; [|by eauto 7].
  assert (Hflying : 1 + in_flight link' = in_flight link).
  { rewrite Hfly. unfold in_flight. rewrite Hl. cbn [tail length]. lia. }
  destruct (observed_counts _ _ (in_flight link) (VideoFrame.wf_metadata _ Hvw) Hc) as (s1 & refused & -> & Hc1 & Hp1). cbn [otry].
  assert (Hc1' : counts s1 (in_flight link')) by (eapply counts_fewer; [done|lia]).
  destruct refused; [eexists _, _, _; split; [done|]; split_and!; [done|by apply count_dropped_counts|done]|].
  rewrite <-Hflying in Hc1.
  pose proof (shown_counts s1 now started link' ltac:(unfold in_flight; lia) Hc1 ltac:(lia)) as Hc3. cbv zeta in Hc3.
  destruct (LatencyAggregator.record _ _) as [latency recorded].
  eexists _, _, _. split; [done|]. split; [done|].
  destruct recorded; (split; [|done]); (done || by apply count_dropped_counts).
Qed.

(** Sending a frame, on every branch. *)
Lemma send_preview_keeps now sequence is_key packet p :
  link_ready (Preview.link p) -> counts (Preview.shared p) (in_flight (Preview.link p)) ->
  SharedState.frames_produced (Preview.shared p) + 1 < 2 ^ 64 ->
  Packet.channel packet = Channel.Media ->
  exists link shared sent_at last_key, send_preview now sequence is_key packet p =
      (Preview.mk link shared (Preview.producer p) (Preview.pacer p) sent_at last_key, Ok tt) /\
    link_ready link /\ counts shared (in_flight link) /\
    SharedState.frames_produced shared <= SharedState.frames_produced (Preview.shared p) + 1.
Proof.
  intros [Hwf Hcon] Hc Hp Hch. unfold send_preview. rewrite send_connected by done. rewrite Hch.
  cbn [LoopbackEndpoint.link]. set (q := lane_queue (Preview.link p) Side.First Channel.Media).
  assert (Hq : queue_wf q) by apply Hwf.
  pose proof (try_push_wf q packet Hq) as Hqw. pose proof (returns_try_push q packet Hq) as Hret.
  destruct (BoundedQueue.try_push q packet) as [q' [rep|e|f]] eqn:Hpush; cbn [fst snd] in *; [| |done].
  - apply push_ok_inv in Hpush as [Hq' ->]; [|done].
    pose proof (split_by_obsolescence packet (BoundedQueue.packets q)) as [_ Hsplit].
    eexists _, _, _, _. split; [reflexivity|]. split_and!.
    + split; [by apply set_lane_wf|by rewrite connected_set_lane].
    + destruct Hc as [Hs0 Hpr Hsu Hqu Hla Hse]. unfold in_flight in *. rewrite lane_packets_set_same, Hq', length_app.
      change (lane_packets (Preview.link p) Side.First Channel.Media) with (BoundedQueue.packets q) in Hqu.
      cbn [SendReport.superseded QueueDepth.packets length]. unfold saturating_sub, usize_bits.
      split; state_fields; try done; rewrite ?saturating_add_exact by lia; lia.
    + state_fields. rewrite saturating_add_exact by lia. lia.
  - apply push_error_unchanged in Hpush as [-> _]; [|done]. unfold q. rewrite set_lane_id.
    eexists _, _, _, _. split; [reflexivity|]. split; [done|].
    split; [by apply count_dropped_counts|]. unfold count_dropped. state_fields. lia.
Qed.

(** What holds between turns, when [left] of them remain. *)
Record preview_inv (left : Z) (p : Preview.t) : Prop := {
  pi_link : link_ready (Preview.link p);
  pi_counts : counts (Preview.shared p) (in_flight (Preview.link p));
  pi_budget : SharedState.frames_produced (Preview.shared p) + left < 2 ^ 64;
  pi_producer : SyntheticFrameProducer.wf (Preview.producer p);
  pi_pacer : FramePacer.wf (Preview.pacer p);
  pi_aligned : FramePacer.next_tick (Preview.pacer p) =
    SyntheticFrameProducer.next_sequence (Preview.producer p);
}.

Lemma packet_is_media frame packet : protocol_packet frame = Ok packet -> Packet.channel packet = Channel.Media.
Proof.
  unfold protocol_packet. cbn [MediaFrame.into_parts].
  intros (? & _ & (? & _ & (? & _ & (? & _ & [= <-])%obind_ok_inv)%obind_ok_inv)%obind_ok_inv)%obind_ok_inv.
  by case_bool_decide.
Qed.

Lemma returns_protocol_packet frame : returns (protocol_packet frame).
Proof.
  unfold protocol_packet. apply returns_obind; [unfold duration_micros_u32; apply returns_ok_or|intros d _].
  apply returns_obind; [apply returns_map_err; unfold VideoFrameMetadata.new; by case_match|intros m _].
  cbn [MediaFrame.into_parts].
  apply returns_obind; [apply returns_map_err; unfold VideoFrame.new, validate_encoded_bytes;
    by repeat case_match|intros v _].
  apply returns_obind; [|done]. apply returns_map_err.
  apply returns_obind; [apply (wire_encode_returns (P:=VideoFrame.t))|intros; apply returns_Frame_new].
Qed.

Lemma poll_aligned pacer producer now :
  FramePacer.wf pacer -> Duration.valid now ->
  FramePacer.next_tick pacer = SyntheticFrameProducer.next_sequence producer ->
  (exists d, FramePacer.poll pacer now = (pacer, Ok (PaceDecision.WaitUntil d))) \/
  FramePacer.poll pacer now = (pacer, Ok PaceDecision.Exhausted) \/
  exists n i d, SyntheticFrameProducer.next_sequence producer = Some n /\ n <= i /\ in_u 64 i /\
    FramePacer.poll pacer now =
      (FramePacer.mk (FramePacer.frame_rate pacer) (FramePacer.origin pacer) (checked 64 (i + 1)),
       Ok (PaceDecision.Due (PacingTick.mk i d (i - n)))).
Proof.
  intros Hw Hn Ha. pose proof (pacer_poll_spec pacer now Hw Hn) as Hp. rewrite Ha in Hp.
  destruct (SyntheticFrameProducer.next_sequence producer) as [n|]; [|by right; left].
  destruct Hp as [[_ ->]|(i & Hi & Hiu & _ & _ & ->)]; [left; by eexists|].
  right; right. by eexists n, i, _.
Qed.

(** The producer follows the pacer over the slots it has missed. *)
Lemma skip_frames_moves p pacer n i d :
  SyntheticFrameProducer.next_sequence (Preview.producer p) = Some n -> n <= i -> in_u 64 i ->
  SyntheticFrameProducer.wf (Preview.producer p) -> counts (Preview.shared p) (in_flight (Preview.link p)) ->
  exists p1,
    skip_frames (PacingTick.mk i d (i - n)) (Preview.set_pacer p pacer) = (p1, Ok tt) /\
    Preview.link p1 = Preview.link p /\ counts (Preview.shared p1) (in_flight (Preview.link p)) /\
    SharedState.frames_produced (Preview.shared p1) = SharedState.frames_produced (Preview.shared p) /\
    SyntheticFrameProducer.wf (Preview.producer p1) /\ Preview.pacer p1 = pacer /\
    SyntheticFrameProducer.next_sequence (Preview.producer p1) = Some i.
Proof.
  intros Hn Hni Hi Hprod Hc. unfold skip_frames. cbn [PacingTick.skipped PacingTick.index]. rewrite Z.gtb_ltb.
  destruct (Z.ltb_spec 0 (i - n)).
  - cbn [Preview.producer Preview.set_pacer]. rewrite advance_ok, Hn by done. cbn [otry].
    rewrite (Z.max_l (i - n) 0), Z.eqb_refl by lia. cbn [debug_assert otry].
    eexists. split; [reflexivity|]. cbn.
    split_and!; [done|by apply count_dropped_counts|done| |done|f_equal; lia].
    destruct Hprod as [Hcfg _]. split; cbn; [done|]. intros m [= <-]. unfold in_u in *. lia.
  - eexists. split; [reflexivity|]. cbn. split_and!; try done. rewrite Hn. f_equal. lia.
Qed.

(** The producer is moved to the due slot before the frame is taken. *)
Lemma preview_turn_keeps turn p left :
  Duration.valid (PreviewTurn.elapsed turn) -> 0 <= left -> preview_inv (left + 1) p ->
  preview_inv left (fst (preview_turn turn p)) /\ returns (snd (preview_turn turn p)).
Proof.
  intros Hd Hleft [Hlink Hc Hb Hprod Hpacer Hal]. unfold preview_turn.
  pose proof (pacer_poll_wf _ _ Hpacer Hd) as Hpw.
  destruct (poll_aligned _ _ _ Hpacer Hd Hal) as [[d Hpoll]|[Hpoll|(n & i & d & Hn & Hni & Hi & Hpoll)]];
    rewrite Hpoll in Hpw |- *; cbn [otry fst snd] in *.
  1,2: split; [split; cbn; (done || lia)|done].
  set (pacer := FramePacer.mk _ _ _) in *.
  destruct (skip_frames_moves p pacer n i d Hn Hni Hi Hprod Hc) as (p1 & -> & Hl1 & Hc1 & Hp1 & Hw1 & Hpa1 & Hn1). cbn [otry].
  unfold SyntheticFrameProducer.next_frame. rewrite (next_ok _ i) by done. cbn [otry].
  set (producer := SyntheticFrameProducer.mk _ _).
  set (frame := frame_of _ _). set (p2 := Preview.set_producer p1 producer).
  assert (Hw2 : SyntheticFrameProducer.wf producer).
  { destruct Hw1 as [Hcfg _]. split; cbn; [done|]. by intros m [-> ?]%checked_Some. }
  assert (Hbase : forall link shared sent_at key, link_ready link -> counts shared (in_flight link) ->
    SharedState.frames_produced shared <= SharedState.frames_produced (Preview.shared p) + 1 ->
    preview_inv left (Preview.mk link shared producer (Preview.pacer p1) sent_at key)).
  { intros link shared sent_at key Hlk Hct Hpr. split; cbn; rewrite ?Hpa1; (done || lia). }
  pose proof (returns_protocol_packet frame) as Hret.
  destruct (protocol_packet frame) as [packet|e|f] eqn:Hpk; [| |done].
  2:{ split; [|done]. change (Preview.link p2) with (Preview.link p1).
      apply Hbase; cbn; rewrite ?Hl1; [done|by apply count_dropped_counts|lia]. }
  destruct (send_preview_keeps (PreviewTurn.sent_now turn) (FrameMetadata.sequence (MediaFrame.metadata frame))
    (bool_decide (FrameMetadata.kind (MediaFrame.metadata frame) = FrameKind.Key)) packet p2)
    as (link & shared & sent_at & key & -> & Hlk & Hct & Hpr);
    [cbn; by rewrite Hl1|cbn; by rewrite Hl1|cbn; lia|by eapply packet_is_media|].
  cbn [otry]. unfold p2 in *. cbn in Hpr. rewrite Hp1 in Hpr.
  destruct (negb _); [|split; [by apply Hbase|done]].
  cbn [Preview.link Preview.shared Preview.sent_at].
  destruct (present_latest_keeps (PreviewTurn.shown_now turn) link shared sent_at Hlk Hct ltac:(lia))
    as (link' & shared' & sent_at' & -> & Hlk' & Hct' & Hpr').
  cbn [otry]. split; [|done]. apply Hbase; [done|done|lia].
Qed.

Lemma preview_loop_keeps turns p :
  Forall (fun t => Duration.valid (PreviewTurn.elapsed t)) turns -> preview_inv (zlen turns) p ->
  let (p', r) := preview_loop turns p in
  preview_inv 0 p' /\
  match r with Ok _ => True | Err _ => False
  | Fault f => f = OutOfFuel /\ Forall (fun t => PreviewTurn.cancelled t = false) turns end.
Proof.
  intros Ht. revert p. induction Ht as [|t turns Hd _ IH]; intros p Hp; cbn [preview_loop]; [done|].
  assert (Hweak : forall q, preview_inv (zlen turns) q -> preview_inv 0 q)
    by (intros q []; split; (done || lia)).
  cbn [length] in Hp. replace (Z.of_nat (S (length turns))) with (zlen turns + 1) in Hp by lia.
  destruct (PreviewTurn.cancelled t) eqn:Hc; [split; [|done]; destruct Hp; split; (done || lia)|].
  pose proof (preview_turn_keeps t p (zlen turns) Hd ltac:(lia) Hp) as [Hi Hr].
  destruct (preview_turn t p) as [p1 [[]|e|f]]; cbn [otry fst snd] in *; [| |done|done].
  - specialize (IH p1 Hi). destruct (preview_loop turns p1) as [p2 [[]|e|f]]; try done.
    destruct IH as (Hq & -> & Hall). split; [done|]. split; [done|]. by constructor.
  - split; [by apply Hweak|done].
Qed.

Lemma preview_start_ok shared config n :
  LoopbackConfig.wf config -> counts shared 0 -> SharedState.frames_produced shared + n < 2 ^ 64 ->
  exists p, preview_start shared config = Ok p /\ Preview.shared p = shared /\ preview_inv n p.
Proof.
  intros [Hw Hh Hf] Hc Hb. unfold preview_start.
  assert (Hlink : exists c, TransportLoopback.LoopbackConfig.default_config = Ok c /\
    TransportLoopback.LoopbackConfig.wf c).
  { eexists. split; [reflexivity|]. split; split; cbn; lia. }
  destruct Hlink as (c & -> & Hcw). cbn [obind loopback_pair LoopbackEndpoint.link].
  unfold FrameRate.from_hz, FrameRate.new, FrameDimensions.new, SyntheticConfig.new.
  destruct (Z.eqb_spec (LoopbackConfig.fps config) 0); [lia|].
  destruct (Z.eqb_spec (LoopbackConfig.width config) 0); [lia|].
  destruct (Z.eqb_spec (LoopbackConfig.height config) 0); [lia|].
  cbn [Z.eqb obind]. rewrite chk_ok by (unfold in_u; lia). cbn [obind].
  change (4 * 1024 =? 0) with false. change (4 * 1024 >? MAX_SYNTHETIC_PAYLOAD_BYTES) with false.
  destruct (Z.eqb_spec (LoopbackConfig.fps config * 2) 0); [lia|]. cbn [obind].
  eexists. split; [reflexivity|]. split; [done|].
  assert (Hrate : FrameRate.wf (FrameRate.mk (LoopbackConfig.fps config) 1)) by (split; cbn; lia).
  split; cbn [Preview.link Preview.shared Preview.producer Preview.pacer].
  - split; [by apply new_link_wf|done].
  - exact Hc.
  - exact Hb.
  - split; [|cbn; intros m [= <-]; unfold in_u; lia].
    split; cbn; [done|unfold MAX_SYNTHETIC_PAYLOAD_BYTES; lia|lia|unfold in_u; lia].
  - split; cbn; [done|unfold Duration.valid, Duration.ZERO, Duration.MAX; lia|].
    intros m [= <-]. unfold in_u; lia.
  - done.
Qed.

(** The preview accounts for its frames: whatever the clock shows, a preview started on an accepted
    request never panics, and at every moment each frame it counted as produced is counted as
    presented or superseded or in the queue depth; the frames really waiting on the link never
    outnumber that depth; once a turn sees the cancel flag it has ended, with depth zero. *)
Theorem preview_conserves_frames s config session now turns
  (Hc : LoopbackConfig.wf config) (Hs : session_inv session)
  (Ht : Forall (fun t => Duration.valid (PreviewTurn.elapsed t)) turns) (Hn : zlen turns < 2 ^ 64) :
  let start := SharedState.reset_for_start s config session now in
  exists p0 p r, preview_start start config = Ok p0 /\ preview_loop turns p0 = (p, r) /\
    counts (Preview.shared p) (in_flight (Preview.link p)) /\
    (Exists (fun t => PreviewTurn.cancelled t = true) turns ->
     run_loopback turns start config = (SharedState.set_queue_depth (Preview.shared p) 0, Ok tt)).
Proof.
  intros start.
  assert (Hstart : counts start 0).
  { split; cbn; try lia; [apply fresh_latency_wf|by intros x [= <-]]. }
  destruct (preview_start_ok start config (zlen turns) Hc Hstart ltac:(cbn; lia)) as (p0 & Hp0 & _ & Hi).
  pose proof (preview_loop_keeps turns p0 Ht Hi) as Hloop.
  unfold run_loopback. rewrite Hp0.
  destruct (preview_loop turns p0) as [p r] eqn:Hl. exists p0, p, r.
  destruct Hloop as [Hinv Hr]. split_and!; [done|done|apply Hinv|].
  intros Hex. destruct r as [[]|[]|f]; [done|]. destruct Hr as [_ Hr]. exfalso.
  apply Exists_exists in Hex as (t & Hin & Hcan). rewrite Forall_forall in Hr. apply Hr in Hin. congruence.
Qed.

Module LoopbackPreviewExamples.
Definition config : LoopbackConfig.t := LoopbackConfig.mk 1280 720 60.
Definition session : Session.t :=
  Session.mk SessionPhase.Active
    (Some (NegotiatedSession.mk 1 (NegotiatedCapabilities.mk 1280 720 60000 20000 1 3 2))) 1 0 None.
Lemma session_ok : session_inv session.
Proof. split; cbn; try done; (unfold in_u; lia) || (by eauto). Qed.

(** Turns that find the clock at the given slots of 1/60 s. *)
Definition at_slot (n : Z) : PreviewTurn.t :=
  let t := (n * 1000000000 + 59) / 60 in PreviewTurn.mk false t t (t + 1000000).
Definition turns : list PreviewTurn.t := map at_slot [0; 1; 2] ++ [PreviewTurn.mk true 0 0 0].

Lemma preview_conserves_frames_witness :
  exists s, run_loopback turns (SharedState.reset_for_start SharedState.new config session 0) config =
      (s, Ok tt) /\
    SharedState.frames_produced s = 3 /\ SharedState.frames_presented s = 2 /\
    SharedState.frames_superseded s = 1.
Proof.
  assert (Hc : LoopbackConfig.wf config) by (split; cbn; (lia || (right; reflexivity))).
  assert (Hv : Forall (fun t => Duration.valid (PreviewTurn.elapsed t)) turns)
    by (apply (bool_decide_unpack _); vm_compute; exact I).
  destruct (preview_conserves_frames SharedState.new config session 0 turns Hc session_ok Hv
    ltac:(cbn; lia)) as (p0 & p & r & Hp0 & Hl & Hct & Hrun).
  exists (SharedState.set_queue_depth (Preview.shared p) 0).
  specialize (Hrun ltac:(do 3 apply Exists_cons_tl; apply Exists_cons_hd; reflexivity)).
  split; [exact Hrun|].
  assert (Hcount : let s := fst (run_loopback turns
    (SharedState.reset_for_start SharedState.new config session 0) config) in
    (SharedState.frames_produced s, SharedState.frames_presented s, SharedState.frames_superseded s) =
    (3, 2, 1)) by (vm_compute; reflexivity).
  rewrite Hrun in Hcount. cbn in Hcount. injection Hcount as H1 H2 H3.
  split; [exact H1|]. split; [exact H2|exact H3].
Defined.

(** Two stalls of two seconds, each ended by a key frame: superseding the delta
    frame between them forgets when the older key frame was sent, so it is
    taken from the link without being counted, and the depth stays at one with
    nothing left on the link. *)
Definition stalls : list PreviewTurn.t := map at_slot [0; 120; 121; 240; 241; 242; 243].
Example stalled_preview_miscounts :
  match preview_start (SharedState.reset_for_start SharedState.new config session 0) config with
  | Ok p =>
    let (p, _) := preview_loop stalls p in let s := Preview.shared p in
    (SharedState.frames_produced s, SharedState.frames_presented s, SharedState.frames_superseded s,
     SharedState.queue_depth s, in_flight (Preview.link p)) = (7, 3, 3, 1, 0)
  | _ => False
  end.
Proof. vm_compute. reflexivity. Qed.
End LoopbackPreviewExamples.
