(* ===== verification/HostTether.v ===== *)
(** * USB tethering: endpoints and pairing

    Models [apps/desktop/src-tauri/src/tether.rs]: the address a user types, the
    boundary that keeps the host on local networks, and the connection that is
    authenticated before it carries frames. Connecting is an operation of the
    network, a class; the socket it gives is a [Stream] with the answers to the
    calls that set it up. *)
From stdpp Require Import pretty.
From S2P Require Export RustText TransportTcpLink TransportPairing.
Local Open Scope string_scope.
Local Open Scope list_scope.
Local Open Scope Z_scope.

Definition DEFAULT_TETHER_PORT : Z := 49231.
Definition TETHER_CONNECT_TIMEOUT : Z := Duration.from_secs 3.
Definition TETHER_PAIRING_TIMEOUT : Z := Duration.from_secs 3.

(** What the user typed, in UTF-8. *)
Module TetherPairingRequest.
Record t : Type := mk {
  endpoint : list byte;
  token : list byte;
}.
End TetherPairingRequest.

Module TetherPairingReport.
Record t : Type := mk {
  endpoint : list byte;
  detail : string;
}.
End TetherPairingReport.

Module TetherEndpointCandidate.
Record t : Type := mk {
  endpoint : string;
  adapter_name : string;
  gateway : string;
  evidence : string;
}.
End TetherEndpointCandidate.

Module TetherDiscoveryReport.
Record t : Type := mk {
  candidates : list TetherEndpointCandidate.t;
  detail : string;
}.
End TetherDiscoveryReport.

(** The platform's own discovery is an argument; only Windows has one. *)
Definition discover_tether_endpoints (windows : option (outcome string TetherDiscoveryReport.t))
  : outcome string TetherDiscoveryReport.t :=
  match windows with
  | Some discovered => discovered
  | None =>
    Ok (TetherDiscoveryReport.mk []
          "Automatic USB-tether discovery is currently available on Windows; enter the Android address manually on this platform.")
  end.

Definition is_local_tether_address (address : Ipv4Addr.t) : bool :=
  let first := Ipv4Addr.a address in
  let second := Ipv4Addr.b address in
  let shared_carrier_nat := (first =? 100) && ((64 <=? second) && (second <=? 127)) in
  (Ipv4Addr.is_private address || Ipv4Addr.is_link_local address || Ipv4Addr.is_loopback address ||
   shared_carrier_nat) &&
  negb (Ipv4Addr.is_unspecified address) && negb (Ipv4Addr.is_broadcast address) &&
  negb (Ipv4Addr.is_multicast address).

(** [parse::<SocketAddr>] tries IPv4 first, then IPv6. *)
Definition parse_tether_endpoint (value : list byte) : outcome string SocketAddrV4.t :=
  let normalized := trim value in
  if bool_decide (normalized = []) then Err "enter the Android USB-tether IPv4 address" else
  let parsed :=
    match SocketAddrV4.parse normalized with
    | Some endpoint => Some (Some endpoint)
    | None =>
      if SocketAddrV6.parses normalized then Some None
      else
        address ← Ipv4Addr.parse normalized; Some (Some (SocketAddrV4.mk address DEFAULT_TETHER_PORT))
    end in
  let! endpoint := ok_or parsed
    ("USB-tether endpoint must be a numeric IPv4 address with an optional port, for example 192.168.42.129:" +:+
     pretty DEFAULT_TETHER_PORT) in
  let! endpoint_v4 := ok_or endpoint "USB-tether IPv6 endpoints are not supported in this build" in
  if SocketAddrV4.port endpoint_v4 =? 0
  then Err "USB-tether endpoint port must be between 1 and 65535" else
  let address := SocketAddrV4.ip endpoint_v4 in
  if negb (is_local_tether_address address)
  then Err ("refusing non-local address " +:+ text (show_ip address) +:+
            "; USB-tether mode only accepts private, carrier-grade NAT, link-local, or loopback IPv4 addresses")
  else Ok endpoint_v4.

(** ** Pairing *)

(** [TcpStream::connect_timeout]: an error's text, or the stream. *)
Class Network (W : Type) := {
  connect_timeout : W -> SocketAddrV4.t -> Z -> W * outcome string (Stream.t * SocketSetup.t);
}.

Module TetherConnection.
Record t : Type := mk {
  endpoint : SocketAddrV4.t;
  transport : TcpPacketTransport.t;
}.
Definition into_transport (self : t) : TcpPacketTransport.t := transport self.
End TetherConnection.

Section Pairing.
Context {W : Type} `{Network W}.
Variable hmac : list byte -> list byte -> list byte.

(** [draws] is the random source. *)
Definition pair_tether_connection (draws : list (string + list byte))
  (request : TetherPairingRequest.t) (world : W)
  : W * outcome string (TetherConnection.t * TetherPairingReport.t) :=
  let? endpoint := parse_tether_endpoint (TetherPairingRequest.endpoint request) keeping world in
  let shown := text (show_socket endpoint) in
  let? token := map_err (fun error =>
      "invalid USB-tether pairing code: " +:+ TetherPairingTokenError.to_string error)
    (TetherPairingToken.from_str (chars (trim (TetherPairingRequest.token request)))) keeping world in
  let (world, connected) := connect_timeout world endpoint TETHER_CONNECT_TIMEOUT in
  let? (stream, setup) := map_err (fun error =>
      "could not connect to Android at " +:+ shown +:+ ": " +:+ error) connected keeping world in
  let (_, authenticated) := authenticate_tether_host_stream hmac draws token TETHER_PAIRING_TIMEOUT stream in
  let? _ := map_err (fun error =>
      "Android USB-tether authentication failed: " +:+ TetherPairingError.to_string error)
    authenticated keeping world in
  let? transport := TcpPacketTransport.from_authenticated_stream setup keeping world in
  let report := TetherPairingReport.mk (show_socket endpoint)
    ("Authenticated " +:+ shown +:+
     " with the local USB-tether pairing preface. The socket is ready for LDFL.") in
  (world, Ok (TetherConnection.mk endpoint transport, report)).
End Pairing.

(** ** Local addresses *)

(** The address as the 32-bit number of RFC 791, and the block of a prefix. *)
Definition value32 (x : Ipv4Addr.t) : Z :=
  Ipv4Addr.a x * 2 ^ 24 + Ipv4Addr.b x * 2 ^ 16 + Ipv4Addr.c x * 2 ^ 8 + Ipv4Addr.d x.
Definition in_block (network : Ipv4Addr.t) (prefix : Z) (x : Ipv4Addr.t) : Prop :=
  value32 x / 2 ^ (32 - prefix) = value32 network / 2 ^ (32 - prefix).

(** RFC 1918, RFC 6598, RFC 3927 and the loopback network. *)
Definition local_blocks : list (Ipv4Addr.t * Z) :=
  [(Ipv4Addr.mk 10 0 0 0, 8); (Ipv4Addr.mk 172 16 0 0, 12); (Ipv4Addr.mk 192 168 0 0, 16);
   (Ipv4Addr.mk 100 64 0 0, 10); (Ipv4Addr.mk 169 254 0 0, 16); (Ipv4Addr.mk 127 0 0 0, 8)].
Definition local (x : Ipv4Addr.t) : Prop := Exists (fun b => in_block (fst b) (snd b) x) local_blocks.

(** The blocks by their leading two octets. *)
Lemma in_block_octets x network prefix :
  Ipv4Addr.wf x -> 8 <= prefix <= 16 ->
  in_block network prefix x <->
  (Ipv4Addr.a x * 256 + Ipv4Addr.b x) / 2 ^ (16 - prefix) = value32 network / 2 ^ (32 - prefix).
Proof.
  destruct x as [a b c d]. intros (Ha & Hb & Hc & Hd) Hp. cbn in *. unfold in_block.
  replace (32 - prefix) with (16 + (16 - prefix)) at 1 by lia.
  rewrite Z.pow_add_r, <- Z.div_div by lia.
  replace (value32 (Ipv4Addr.mk a b c d) / 2 ^ 16) with (a * 256 + b); [done|].
  unfold value32. cbn [Ipv4Addr.a Ipv4Addr.b Ipv4Addr.c Ipv4Addr.d].
  apply (Z.div_unique _ _ _ (c * 256 + d)); lia.
Qed.

Lemma local_octets x : Ipv4Addr.wf x ->
  local x <->
  let n := Ipv4Addr.a x * 256 + Ipv4Addr.b x in
  n / 256 = 10 \/ n / 16 = 172 * 16 + 1 \/ n = 192 * 256 + 168 \/ n / 64 = 100 * 4 + 1 \/
  n = 169 * 256 + 254 \/ n / 256 = 127.
Proof.
  intros Hx. unfold local, local_blocks. rewrite !Exists_cons, Exists_nil. cbn [fst snd].
  rewrite !in_block_octets by (done || lia). cbn zeta. set (n := _ * 256 + _).
  cbn. rewrite !Z.div_1_r. tauto.
Qed.

Lemma is_local_tether_address_spec x :
  Ipv4Addr.wf x -> is_local_tether_address x = true <-> local x.
Proof.
  intros Hx. rewrite local_octets by done. destruct x as [a b c d]. destruct Hx as (Ha & Hb & Hc & Hd).
  cbn in Ha, Hb, Hc, Hd |- *.
  unfold is_local_tether_address, Ipv4Addr.is_private, Ipv4Addr.is_link_local, Ipv4Addr.is_loopback,
    Ipv4Addr.is_unspecified, Ipv4Addr.is_broadcast, Ipv4Addr.is_multicast.
  cbn [Ipv4Addr.a Ipv4Addr.b Ipv4Addr.c Ipv4Addr.d].
  assert (Hu : bool_decide (Ipv4Addr.mk a b c d = Ipv4Addr.mk 0 0 0 0) = true -> a = 0)
    by (intros [=]%bool_decide_eq_true_1; done).
  assert (Hbr : bool_decide (Ipv4Addr.mk a b c d = Ipv4Addr.mk 255 255 255 255) = true -> a = 255)
    by (intros [=]%bool_decide_eq_true_1; done).
  set (u := bool_decide (_ = Ipv4Addr.mk 0 0 0 0)) in *.
  set (br := bool_decide (_ = Ipv4Addr.mk 255 255 255 255)) in *. clearbody u br.
  assert (Hn : (a * 256 + b) / 256 = a) by (symmetry; apply (Z.div_unique _ _ _ b); lia).
  rewrite Hn. clear Hn.
  replace ((a * 256 + b) / 16) with (a * 16 + b / 16)
    by (replace (a * 256 + b) with (a * 16 * 16 + b) by lia; by rewrite Z.div_add_l).
  replace ((a * 256 + b) / 64) with (a * 4 + b / 64)
    by (replace (a * 256 + b) with (a * 4 * 64 + b) by lia; by rewrite Z.div_add_l).
  assert (Hp : 0 <= b / 16 < 16 /\ (b / 16 = 1 <-> 16 <= b <= 31)) by (Z.to_euclidean_division_equations; lia).
  assert (Hq : 0 <= b / 64 < 4 /\ (b / 64 = 1 <-> 64 <= b <= 127)) by (Z.to_euclidean_division_equations; lia).
  generalize dependent (b / 16). generalize dependent (b / 64). intros q [Hq Hq1] p [Hp Hp1].
  rewrite !andb_true_iff, !orb_true_iff, !negb_true_iff, !andb_true_iff, !andb_false_iff,
    !Z.eqb_eq, !Z.leb_le, !Z.leb_gt.
  split.
  - intros [[[Hl _] _] _]. destruct Hl as [[[[[Hl|Hl]|Hl]|Hl]|Hl]|Hl]; lia.
  - intros Hl. assert (Ha' : a <> 0 /\ a <> 255 /\ a < 224) by (clear -Hl Ha Hb Hp Hq; lia).
    destruct Ha' as (H0 & H255 & H224). split_and!; [|by destruct u; [destruct H0; apply Hu|]
      |by destruct br; [destruct H255; apply Hbr|]|by left].
    clear Hu Hbr. destruct Hl as [Hl|[Hl|[Hl|[Hl|[Hl|Hl]]]]].
    + by do 5 left.
    + do 4 left. right. assert (a = 172) by lia. lia.
    + do 3 left. right. lia.
    + right. assert (a = 100) by lia. lia.
    + do 2 left. right. lia.
    + by left; right.
Qed.

(** ** Accepted endpoints *)
Record acceptable (e : SocketAddrV4.t) : Prop := {
  acceptable_ip : Ipv4Addr.wf (SocketAddrV4.ip e);
  acceptable_port : 1 <= SocketAddrV4.port e <= 65535;
  acceptable_local : local (SocketAddrV4.ip e);
}.

Lemma parse_tether_endpoint_inv value e : parse_tether_endpoint value = Ok e -> acceptable e.
Proof.
  unfold parse_tether_endpoint. destruct (bool_decide _); [done|].
  intros (found & Hf%ok_or_ok_inv & (e' & Ho%ok_or_ok_inv & E)%obind_ok_inv)%obind_ok_inv. subst found.
  assert (Hwf : Ipv4Addr.wf (SocketAddrV4.ip e') /\ in_u 16 (SocketAddrV4.port e')).
  { destruct (SocketAddrV4.parse (trim value)) as [s|] eqn:Hs; [|destruct (SocketAddrV6.parses _); [done|]].
    - simplify_eq. by eapply parse_socket_wf.
    - destruct (Ipv4Addr.parse (trim value)) as [x|] eqn:Hx; cbn in Hf; [|done]. simplify_eq.
      split; [by eapply parse_ip_wf|done]. }
  destruct Hwf as [Hip Hport]. unfold in_u in Hport.
  destruct (SocketAddrV4.port e' =? 0) eqn:Hz; [done|].
  destruct (negb (is_local_tether_address _)) eqn:Hl; [done|]. injection E as <-.
  split; [done|lia|]. apply is_local_tether_address_spec; [done|by apply negb_false_iff].
Qed.

Lemma decimal_ends fuel n : 0 <= n < 10 ^ Z.of_nat fuel -> (0 < fuel)%nat -> stays (decimal fuel n).
Proof.
  intros Hn Hf. destruct (digits_print fuel n Hn Hf) as [Hds _ Hl _]. rewrite decimal_digits.
  split.
  - destruct (digits fuel n) as [|d ds]; simpl in Hl; [lia|]. apply Forall_cons_1 in Hds as [Hd _].
    eexists _, _. split; [done|]. rewrite digit_value_byte by done. done.
  - destruct (digits fuel n) as [|d ds _] using rev_ind; simpl in Hl; [lia|].
    apply Forall_app in Hds as [_ Hd%Forall_cons_1]. destruct Hd as [Hd _]. rewrite map_app.
    eexists _, _. split; [done|]. rewrite digit_value_byte by done. done.
Qed.

Lemma stays_between a b l : stays a -> stays b -> stays (a ++ l ++ b).
Proof.
  intros [(x & r & -> & Hx) _] [_ (y & q & -> & Hy)]. split.
  - by exists x, (r ++ l ++ q ++ [y]).
  - exists y, ((x :: r) ++ l ++ q). by rewrite <- !app_assoc.
Qed.

Lemma show_ip_stays x : Ipv4Addr.wf x -> stays (show_ip x).
Proof.
  intros (Ha & _ & _ & Hd).
  replace (show_ip x) with (decimal 3 (Ipv4Addr.a x) ++
    ([x2e] ++ decimal 3 (Ipv4Addr.b x) ++ [x2e] ++ decimal 3 (Ipv4Addr.c x) ++ [x2e]) ++
    decimal 3 (Ipv4Addr.d x)) by (unfold show_ip; by rewrite <- !app_assoc).
  apply stays_between; apply decimal_ends; simpl; lia.
Qed.

Lemma show_socket_stays s :
  Ipv4Addr.wf (SocketAddrV4.ip s) -> in_u 16 (SocketAddrV4.port s) -> stays (show_socket s).
Proof.
  intros Hx Hp. unfold in_u in Hp. apply stays_between; [by apply show_ip_stays|].
  apply decimal_ends; simpl; lia.
Qed.

Lemma stays_not_empty l : stays l -> l <> [].
Proof. by intros [(b & r & -> & _) _]. Qed.

Lemma address_is_no_socket_v6 x : Ipv4Addr.wf x -> SocketAddrV6.parses (show_ip x) = false.
Proof.
  intros Hx. destruct (show_ip_stays x Hx) as [(b & r & E & Hb) _]. rewrite E.
  unfold SocketAddrV6.parses. apply bool_decide_eq_false_2.
  replace (read_char x5b (b :: r)) with (@None (list byte)); [by intros [? ?]|].
  unfold read_char. rewrite bool_decide_eq_false_2; [done|]. intros ->. by destruct Hb.
Qed.

Lemma parse_shown_endpoint e pre post :
  acceptable e -> Forall ascii_white pre -> Forall ascii_white post ->
  parse_tether_endpoint (pre ++ show_socket e ++ post) = Ok e.
Proof.
  intros [Hip Hport Hlocal] Hpre Hpost. apply is_local_tether_address_spec in Hlocal; [|done].
  assert (Hp16 : in_u 16 (SocketAddrV4.port e)) by (unfold in_u; lia).
  unfold parse_tether_endpoint. pose proof (show_socket_stays e Hip Hp16) as Hs. rewrite trim_padded by done.
  rewrite bool_decide_eq_false_2 by (by apply stays_not_empty). rewrite parse_show_socket by done.
  cbn [ok_or obind]. rewrite (proj2 (Z.eqb_neq _ 0)) by lia. by rewrite Hlocal.
Qed.

(** What the host accepts as a tether endpoint: only an IPv4 address in one of the private,
    shared, link-local or loopback blocks (RFC 1918, 6598, 3927, 1122, stated on the 32-bit address)
    with a port from 1 to 65535; and every such endpoint is accepted from its own text, with or without
    surrounding white space, and from the bare address with the default port. *)
Theorem tether_endpoint_text_is_exact value e pre post
  (Hpre : Forall ascii_white pre) (Hpost : Forall ascii_white post) :
  (parse_tether_endpoint value = Ok e -> acceptable e) /\
  (acceptable e ->
   parse_tether_endpoint (pre ++ show_socket e ++ post) = Ok e /\
   parse_tether_endpoint (pre ++ show_ip (SocketAddrV4.ip e) ++ post) =
     Ok (SocketAddrV4.mk (SocketAddrV4.ip e) DEFAULT_TETHER_PORT)).
Proof.
  split; [apply parse_tether_endpoint_inv|]. intros Hacc. split; [by apply parse_shown_endpoint|].
  destruct Hacc as [Hip Hport Hlocal]. apply is_local_tether_address_spec in Hlocal; [|done].
  unfold parse_tether_endpoint.
  pose proof (show_ip_stays _ Hip) as Hs. rewrite trim_padded by done.
  rewrite bool_decide_eq_false_2 by (by apply stays_not_empty).
  rewrite parse_socket_show_ip, address_is_no_socket_v6, parse_show_ip by done.
  cbn. by rewrite Hlocal.
Qed.

(** ** What pairing may dial *)

(** A network that remembers the addresses it was asked for. *)
Module Dialled.
Record t (W : Type) : Type := mk {
  world : W;
  calls : list (SocketAddrV4.t * Z);
}.
Arguments mk {W} world calls.
Arguments world {W} t.
Arguments calls {W} t.
End Dialled.

#[export] Instance dialled_network `{Network W} : Network (Dialled.t W) := {
  connect_timeout d endpoint timeout :=
    let (world, r) := connect_timeout (Dialled.world d) endpoint timeout in
    (Dialled.mk world (Dialled.calls d ++ [(endpoint, timeout)]), r);
}.

(** C33: pairing opens at most one connection, only to an acceptable endpoint and with the three-second
    limit, and only when the code is well formed; it succeeds only if the peer on that connection was
    authenticated with the token of that code, and then hands over a running link to the endpoint it
    dialled. *)
Theorem pairing_dials_local_peers_only `{Network W} hmac draws request (world : W) :
  let (d, result) := pair_tether_connection hmac draws request (Dialled.mk world []) in
  (length (Dialled.calls d) <= 1)%nat /\
  Forall (fun call => acceptable (fst call) /\ snd call = 3 * 10 ^ 9 /\
    succeeds (TetherPairingToken.from_str (chars (trim (TetherPairingRequest.token request)))))
    (Dialled.calls d) /\
  forall connection report, result = Ok (connection, report) ->
    Dialled.calls d = [(TetherConnection.endpoint connection, 3 * 10 ^ 9)] /\
    connection_state (TetherConnection.transport connection) = ConnectionState.Connected /\
    exists token stream stream' setup,
      TetherPairingToken.from_str (chars (trim (TetherPairingRequest.token request))) = Ok token /\
      snd (connect_timeout world (TetherConnection.endpoint connection) (3 * 10 ^ 9)) = Ok (stream, setup) /\
      authenticate_tether_host_stream hmac draws token (3 * 10 ^ 9) stream = (stream', Ok tt) /\
      SocketSetup.peer_addr setup =
        inr (TcpTransportStatus.peer_addr
               (TcpPacketTransport.status (TetherConnection.transport connection))).
Proof.
  unfold pair_tether_connection.
  destruct (parse_tether_endpoint _) as [e|err|f] eqn:He; cbn [otry];
    [|split_and!; [simpl; lia|constructor|done]..].
  apply parse_tether_endpoint_inv in He.
  destruct (TetherPairingToken.from_str _) as [token|err|f] eqn:Htok; cbn [map_err otry];
    [|split_and!; [simpl; lia|constructor|done]..].
  cbn [connect_timeout dialled_network Dialled.world Dialled.calls app].
  change TETHER_CONNECT_TIMEOUT with (3 * 10 ^ 9). change TETHER_PAIRING_TIMEOUT with (3 * 10 ^ 9).
  destruct (connect_timeout world e (3 * 10 ^ 9)) as [world' connected] eqn:Hconn.
  assert (Hcall : Forall (fun call => acceptable (fst call) /\ snd call = 3 * 10 ^ 9 /\
    succeeds (Ok (E:=TetherPairingTokenError.t) token)) [(e, 3 * 10 ^ 9)])
    by (apply Forall_singleton; split_and!; [done..|by exists token]).
  destruct connected as [[stream setup]|err|f]; cbn [map_err otry]; [|by split_and!..].
  destruct (authenticate_tether_host_stream _ _ _ _ _) as [stream' [[]|err|f]] eqn:Hauth;
    cbn [map_err otry]; [|by split_and!..].
  destruct (TcpPacketTransport.from_authenticated_stream setup) as [t|err|f] eqn:Hset; cbn [otry];
    [|by split_and!..].
  split_and!; [done|done|]. intros connection report [= <- <-].
  apply from_authenticated_stream_inv in Hset as (local & peer & config & _ & _ & Hpeer & ->).
  split; [done|]. split; [done|]. exists token, stream, stream', setup. cbn. by rewrite Hconn.
Qed.

(** ** Concrete runs *)
Module TetherExamples.
Definition peer : SocketAddrV4.t := SocketAddrV4.mk (Ipv4Addr.mk 192 168 42 129) 50123.
Example default_port :
  parse_tether_endpoint (str "192.168.42.129") =
    Ok (SocketAddrV4.mk (Ipv4Addr.mk 192 168 42 129) DEFAULT_TETHER_PORT).
Proof. vm_compute. reflexivity. Qed.
Example public_refused :
  parse_tether_endpoint (str "8.8.8.8:49231") =
    Err "refusing non-local address 8.8.8.8; USB-tether mode only accepts private, carrier-grade NAT, link-local, or loopback IPv4 addresses".
Proof. vm_compute. reflexivity. Qed.
Example v6_refused :
  parse_tether_endpoint (str "[fe80::1%4]:49231") =
    Err "USB-tether IPv6 endpoints are not supported in this build".
Proof. vm_compute. reflexivity. Qed.
Example name_refused :
  parse_tether_endpoint (str "android.local:49231") =
    Err "USB-tether endpoint must be a numeric IPv4 address with an optional port, for example 192.168.42.129:49231".
Proof. vm_compute. reflexivity. Qed.

Lemma peer_acceptable : acceptable peer.
Proof.
  split; [vm_compute; intuition congruence..|]. unfold local. do 2 right. left. reflexivity.
Qed.

Lemma tether_endpoint_text_is_exact_witness :
  (Forall ascii_white [x20; x09] /\ Forall ascii_white [x0a]) /\
  acceptable peer /\
  parse_tether_endpoint ([x20; x09] ++ show_socket peer ++ [x0a]) = Ok peer /\
  parse_tether_endpoint ([x20; x09] ++ show_ip (SocketAddrV4.ip peer) ++ [x0a]) =
    Ok (SocketAddrV4.mk (SocketAddrV4.ip peer) DEFAULT_TETHER_PORT).
Proof.
  assert (Hpre : Forall ascii_white [x20; x09])
    by (apply (bool_decide_unpack _); vm_compute; exact I).
  assert (Hpost : Forall ascii_white [x0a]) by (apply (bool_decide_unpack _); vm_compute; exact I).
  split; [by split|]. split; [exact peer_acceptable|].
  exact (proj2 (tether_endpoint_text_is_exact [] peer [x20; x09] [x0a] Hpre Hpost) peer_acceptable).
Defined.

(** A network whose one peer holds the token of the pairing examples. *)
#[export] Instance one_peer : Network unit := {
  connect_timeout w _ _ := (w, Ok (PairingExamples.host_stream, TcpLinkExamples.setup));
}.
Definition request : TetherPairingRequest.t :=
  TetherPairingRequest.mk (str "192.168.42.129:50123")
    (str " 58n2-maha-58n2 maha ").
Definition paired : Dialled.t unit * outcome string (TetherConnection.t * TetherPairingReport.t) :=
  pair_tether_connection PairingExamples.keyed [inr PairingExamples.hn] request (Dialled.mk tt []).
Example pairs : exists c r, paired = (Dialled.mk tt [(peer, 3 * 10 ^ 9)], Ok (c, r)) /\
  TetherPairingReport.endpoint r = str "192.168.42.129:50123".
Proof. eexists _, _. split; vm_compute; reflexivity. Qed.
End TetherExamples.
