(* ===== verification/HostRuntime.v ===== *)
(** * The desktop runtime

    Models [DesktopRuntime] of [apps/desktop/src-tauri/src/runtime.rs]: the
    commands of the user interface and the worker thread they start and stop.
    A method here is its body run through with no other command in between,
    which is what its caller gets when commands take turns; the source holds no
    lock over the whole of a method, and [HostThreads] has the methods step by
    step with any others in between, and proves that these definitions are their
    steps in a row. Between commands the worker gets on with its session. What it
    has done by then is its job run on what it has observed since it was started;
    a run that is out of observations is still going on. *)
From stdpp Require Import pretty.
From S2P Require Export HostTether HostReconnect HostLoopback HostState.
Local Open Scope string_scope.
Local Open Scope list_scope.
Local Open Scope Z_scope.

(** What the runtime asks of the USB accessory manager beyond the transport a
    session uses. The manager is one object; the worker's clone refers to it. *)
Class AccessoryManager (U : Type) `{ReconnectingTransport U} := {
  prepare : U -> U * UsbAccessoryProbeReport.t;
  disconnect : U -> U * outcome string unit;
  runtime_status : U -> option (UsbLinkState.t * string);
}.

(** What a command finds outside: the platform's status, the clock, and the
    constants of the build. *)
Module Outside.
Record t : Type := mk {
  collected : PlatformStatus.t;
  now : Z;
  app_version : string;
  os : string;
  arch : string;
}.
End Outside.

(** What a worker has observed since its start. Each job uses its own part;
    [accessory] is the manager as the worker meets it, with the other users'
    calls between its own, and [manager] what the manager is by now. *)
Module Observed.
Record t (U : Type) : Type := mk {
  preview : list PreviewTurn.t;
  opening : Opening.t;
  turns : list HostStream.Turn.t;
  cancelled : bool;
  script : list (list TransportTcp.Turn.t);
  rounds : list Round.t;
  accessory : U;
  manager : U;
}.
Arguments mk {U}.
Arguments preview {U}.
Arguments opening {U}.
Arguments turns {U}.
Arguments cancelled {U}.
Arguments script {U}.
Arguments rounds {U}.
Arguments accessory {U}.
Arguments manager {U}.
End Observed.

Module Job.
Inductive t : Type :=
| Tether (transport : TcpPacketTransport.t)
| Usb
| Preview.
End Job.

(** [began] is the shared state at the start; [ended] whether the thread is
    finished, and whether by a panic. *)
Module Worker.
Record t : Type := mk {
  job : Job.t;
  config : LoopbackConfig.t;
  display_id : option string;
  began : SharedState.t;
  ended : option bool;
}.
Definition is_finished (self : t) : bool := bool_decide (is_Some (ended self)).
Definition set_ended (self : t) (panicked : bool) : t :=
  mk (job self) (config self) (display_id self) (began self) (Some panicked).
End Worker.

Module DesktopRuntime.
Record t (U : Type) : Type := mk {
  shared : SharedState.t;
  worker : option Worker.t;
  usb_accessory : U;
  tether_connection : option TetherConnection.t;
}.
Arguments mk {U} shared worker usb_accessory tether_connection.
Arguments shared {U} t.
Arguments worker {U} t.
Arguments usb_accessory {U} t.
Arguments tether_connection {U} t.
Definition new {U} (usb : U) : t U := mk SharedState.new None usb None.
Definition set_shared {U} (self : t U) (v : SharedState.t) : t U :=
  mk v (worker self) (usb_accessory self) (tether_connection self).
Definition set_worker {U} (self : t U) (v : option Worker.t) : t U :=
  mk (shared self) v (usb_accessory self) (tether_connection self).
Definition set_usb {U} (self : t U) (v : U) : t U :=
  mk (shared self) (worker self) v (tether_connection self).
Definition set_tether {U} (self : t U) (v : option TetherConnection.t) : t U :=
  mk (shared self) (worker self) (usb_accessory self) v.
End DesktopRuntime.

Definition lift {E A} (m : panics_or A) : outcome E A := map_err (fun e : Empty_set => match e with end) m.

Section Runtime.
Context {U V C W : Type} `{AccessoryManager U} `{NativePlatform V C} `{Network W}.
Variable hmac : list byte -> list byte -> list byte.
Implicit Types (self : DesktopRuntime.t U) (o : Observed.t U).

(** ** The worker *)

(** The body of the thread, on what it has observed. *)
Definition run_job (w : Worker.t) o : SharedState.t * panics_or unit :=
  match Worker.job w with
  | Job.Tether transport =>
    let '((shared, _), r) := run_tether_control_session (V:=V) (U:=C) (Observed.opening o)
      (Observed.turns o) (Observed.cancelled o)
      (fun l => TcpTransportStatus.last_error (TcpPacketTransport.status (LiveLink.handle l)))
      (Worker.began w) (Worker.config w) (Worker.display_id w)
      (LiveLink.mk transport (Observed.script o)) in
    (shared, r)
  | Job.Usb =>
    let '((shared, _), r) := run_usb_control_session (V:=V) (U:=C) (Observed.rounds o)
      (Worker.began w) (Worker.config w) (Worker.display_id w) (Observed.accessory o) in
    (shared, r)
  | Job.Preview => run_loopback (Observed.preview o) (Worker.began w) (Worker.config w)
  end.

(** What a running worker has done by now. *)
Definition observe o self : DesktopRuntime.t U :=
  match DesktopRuntime.worker self with
  | Some w =>
    if Worker.is_finished w then self else
    let (shared, r) := run_job w o in
    let w := match r with
      | Fault OutOfFuel => w
      | Fault Panicked => Worker.set_ended w true
      | _ => Worker.set_ended w false
      end in
    let usb := match Worker.job w with
      | Job.Usb => Observed.manager o | _ => DesktopRuntime.usb_accessory self end in
    DesktopRuntime.mk shared (Some w) usb (DesktopRuntime.tether_connection self)
  | None => self
  end.

(** [JoinHandle::join], once the worker has observed [o]: whether it panicked. *)
Definition join o self : DesktopRuntime.t U * outcome string bool :=
  let self := observe o self in
  match DesktopRuntime.worker self with
  | Some w =>
    match Worker.ended w with
    | Some panicked => (self, Ok panicked)
    | None => (self, Fault OutOfFuel)
    end
  | None => (self, Ok false)
  end.

(** ** Status *)
Definition platform_status self (collected : PlatformStatus.t) : PlatformStatus.t :=
  match DesktopRuntime.tether_connection self with
  | Some connection =>
    let status := TcpPacketTransport.status (TetherConnection.transport connection) in
    if bool_decide (TcpTransportStatus.state status = ConnectionState.Connected)
    then PlatformStatus.set_usb collected UsbLinkState.Connected
           ("Authenticated USB-tether socket to " +:+ text (show_socket (TetherConnection.endpoint connection)) +:+
            "; ready to start LDFL.")
    else PlatformStatus.set_usb collected UsbLinkState.Failed
           (default "authenticated USB-tether socket closed" (TcpTransportStatus.last_error status))
  | None =>
    let shared := DesktopRuntime.shared self in
    if bool_decide (SharedState.transport shared = TETHER_TRANSPORT_NAME) then
      match SharedState.phase shared with
      | SessionPhaseView.Negotiating =>
        PlatformStatus.set_usb collected UsbLinkState.Connecting
          "USB-tether socket authenticated; negotiating LDFL."
      | SessionPhaseView.Connected | SessionPhaseView.Streaming =>
        PlatformStatus.set_usb collected UsbLinkState.Connected
          ("USB-tether LDFL session active" +:+
           match SharedState.peer_name shared with Some name => " with " +:+ text name | None => "" end +:+ ".")
      | SessionPhaseView.Failed =>
        PlatformStatus.set_usb collected UsbLinkState.Failed
          (default "USB-tether LDFL session failed" (SharedState.last_error shared))
      | SessionPhaseView.Recovering =>
        PlatformStatus.set_usb collected UsbLinkState.Connecting
          (default "USB-tether LDFL session is recovering" (SharedState.last_error shared))
      | SessionPhaseView.Idle | SessionPhaseView.Stopped =>
        PlatformStatus.set_usb collected UsbLinkState.Ready
          "USB-tether session stopped; pair Android again to reconnect."
      end
    else
      match runtime_status (DesktopRuntime.usb_accessory self) with
      | Some (state, detail) =>
        PlatformStatus.set_usb collected state
          ("USB tethering is available without replacing the phone driver. Direct USB status: " +:+ detail)
      | None =>
        PlatformStatus.set_usb collected UsbLinkState.Ready
          "USB tethering is ready for an Android address and one-time code."
      end
  end.

Definition snapshot self (out : Outside.t) : outcome string HostSnapshot.t :=
  lift (SharedState.snapshot (DesktopRuntime.shared self) (platform_status self (Outside.collected out))
          (Outside.now out) (Outside.app_version out) (Outside.os out) (Outside.arch out)).

(** ** Commands *)
Definition prepare_android_usb self : DesktopRuntime.t U * UsbAccessoryProbeReport.t :=
  let (usb, report) := prepare (DesktopRuntime.usb_accessory self) in
  (DesktopRuntime.set_usb self usb, report).

Definition running self : bool :=
  match DesktopRuntime.worker self with
  | Some w => negb (Worker.is_finished w)
  | None => false
  end.

Definition pair_android_tether (draws : list (string + list byte)) (request : TetherPairingRequest.t)
  (world : W) self : (DesktopRuntime.t U * W) * outcome string TetherPairingReport.t :=
  if running self
  then ((self, world), Err "stop the active display session before pairing Android") else
  let (usb, disconnected) := disconnect (DesktopRuntime.usb_accessory self) in
  let self := DesktopRuntime.set_usb self usb in
  let? _ := disconnected keeping (self, world) in
  let self := DesktopRuntime.set_tether self None in
  let (world, paired) := pair_tether_connection hmac draws request world in
  let? (connection, report) := paired keeping (self, world) in
  let self := DesktopRuntime.set_tether self (Some connection) in
  ((DesktopRuntime.set_shared self (SharedState.reset_for_tether (DesktopRuntime.shared self)), world),
   Ok report).

(** [o] is what the worker observes until it is joined. *)
Definition stop o (out : Outside.t) self : DesktopRuntime.t U * outcome string HostSnapshot.t :=
  let (self, joined) := join o self in
  let self := DesktopRuntime.set_worker self None in
  let? panicked := joined keeping self in
  if panicked : bool then (self, Err "the loopback worker panicked while stopping") else
  let self := DesktopRuntime.set_shared self (SharedState.stopped (DesktopRuntime.shared self)) in
  (self, snapshot self out).

Definition live_phase (p : SessionPhaseView.t) : bool :=
  match p with
  | SessionPhaseView.Negotiating | SessionPhaseView.Connected | SessionPhaseView.Streaming
  | SessionPhaseView.Recovering => true
  | _ => false
  end.

Definition disconnect_android_usb o (out : Outside.t) self
  : DesktopRuntime.t U * outcome string HostSnapshot.t :=
  let shared := DesktopRuntime.shared self in
  let usb_session_active :=
    (bool_decide (SharedState.transport shared = USB_TRANSPORT_NAME) ||
     bool_decide (SharedState.transport shared = TETHER_TRANSPORT_NAME)) &&
    live_phase (SharedState.phase shared) in
  let (self, stopped) :=
    if usb_session_active then
      let (self, stopped) := stop o out self in
      let? _ := stopped keeping self in (self, Ok tt)
    else (self, Ok tt) in
  let? _ := stopped keeping self in
  let self := DesktopRuntime.set_tether self None in
  let (usb, disconnected) := disconnect (DesktopRuntime.usb_accessory self) in
  let self := DesktopRuntime.set_usb self usb in
  let? _ := disconnected keeping self in
  (self, snapshot self out).

(** The thread is created, or the phase becomes Failed. *)
Definition spawn (spawned : string + unit) (what : string) (job : Job.t) (config : LoopbackConfig.t)
  (display_id : option string) self : DesktopRuntime.t U * outcome string unit :=
  let shared := DesktopRuntime.shared self in
  match spawned with
  | inl error =>
    (DesktopRuntime.set_shared self (SharedState.set_phase shared SessionPhaseView.Failed),
     Err ("failed to start " +:+ what +:+ " worker: " +:+ error))
  | inr _ =>
    (DesktopRuntime.set_worker self (Some (Worker.mk job config display_id shared None)), Ok tt)
  end.

(** The choice of the link, after a finished worker was joined and the tether
    connection taken. *)
Definition launch (spawned : string + unit) (connection : option TetherConnection.t)
  (config : LoopbackConfig.t) (display_id : option string) (now : Z) self
  : DesktopRuntime.t U * outcome string unit :=
  let shared := DesktopRuntime.shared self in
  let use_usb := bool_decide (connection_state (DesktopRuntime.usb_accessory self) = ConnectionState.Connected) in
  match connection with
  | Some connection =>
    let transport := TetherConnection.transport connection in
    if bool_decide (connection_state transport <> ConnectionState.Connected) then
      let detail := default "the authenticated socket closed before streaming"
        (TcpTransportStatus.last_error (TcpPacketTransport.status transport)) in
      (DesktopRuntime.set_shared self (SharedState.fail_android_session shared
         ("Android USB-tether link is no longer ready: " +:+ detail +:+ ". Pair again.")),
       Err "Android USB-tether link closed; pair the display again")
    else
      let self := DesktopRuntime.set_shared self
        (SharedState.reset_for_android_negotiation shared config TETHER_TRANSPORT_NAME now) in
      spawn spawned "USB-tether session" (Job.Tether (TetherConnection.into_transport connection))
        config display_id self
  | None =>
    if use_usb then
      let self := DesktopRuntime.set_shared self
        (SharedState.reset_for_android_negotiation shared config USB_TRANSPORT_NAME now) in
      spawn spawned "USB session" Job.Usb config display_id self
    else
      let self := DesktopRuntime.set_shared self
        (SharedState.set_phase shared SessionPhaseView.Negotiating) in
      match negotiated_session config with
      | Ok session =>
        let self := DesktopRuntime.set_shared self
          (SharedState.reset_for_start (DesktopRuntime.shared self) config session now) in
        spawn spawned "loopback" Job.Preview config display_id self
      | Err error =>
        (DesktopRuntime.set_shared self
           (SharedState.set_phase (DesktopRuntime.shared self) SessionPhaseView.Failed), Err error)
      | Fault f => (self, Fault f)
      end
  end.

Definition start (spawned : string + unit) (config : LoopbackConfig.t) (display_id : option string)
  (out : Outside.t) self : DesktopRuntime.t U * outcome string HostSnapshot.t :=
  let? config := LoopbackConfig.validate config keeping self in
  let display_id :=
    display_id ← (fun value => text (trim (str value))) <$> display_id;
    if bool_decide (display_id = "") then None else Some display_id in
  if running self then (self, Err "a display session is already running") else
  let finished := DesktopRuntime.worker self in
  let self := DesktopRuntime.set_worker self None in
  if match finished with Some w => bool_decide (Worker.ended w = Some true) | None => false end
  then (self, Err "the previous loopback worker panicked") else
  let connection := DesktopRuntime.tether_connection self in
  let self := DesktopRuntime.set_tether self None in
  let (self, launched) := launch spawned connection config display_id (Outside.now out) self in
  let? _ := launched keeping self in
  (self, snapshot self out).

(** [Drop]: the worker is joined, whatever it answers. *)
Definition drop_runtime o self : DesktopRuntime.t U :=
  DesktopRuntime.set_worker (fst (join o self)) None.
End Runtime.

(** ** What a worker does to the shared state *)

(** The transport's name is set at the start and kept, and a session that is up
    only moves between the phases of a live one. *)
Definition evolves (s s' : SharedState.t) : Prop :=
  SharedState.transport s' = SharedState.transport s /\
  (live_phase (SharedState.phase s) = true -> live_phase (SharedState.phase s') = true).

#[export] Instance evolves_preorder : PreOrder evolves.
Proof.
  split; [by split|]. intros a b c [H1 H2] [H3 H4]. split; [congruence|auto].
Qed.

Section Kept.
Context {T V C : Type} `{ReconnectingTransport T} `{NativePlatform V C}.
Implicit Types (link : HostStream.Link.t T C) (run : Run.t T V C).

Lemma apply_telemetry_evolves s t : evolves s (fst (apply_usb_telemetry s t)).
Proof.
  unfold apply_usb_telemetry, evolves. repeat case_match; by simplify_eq/=.
Qed.

Lemma send_unit_evolves link u offset :
  evolves (HostStream.Link.shared link)
    (HostStream.Link.shared (fst (send_usb_h264_access_unit link u offset))).
Proof. unfold send_usb_h264_access_unit, otry, evolves. by repeat case_match. Qed.

Lemma control_evolves input reply p link :
  evolves (HostStream.Link.shared link)
    (HostStream.Link.shared (fst (handle_usb_control input reply p link))).
Proof.
  unfold handle_usb_control, dispatch_control, answer_ping, apply_input, otry, evolves.
  repeat (case_match; try done); simplify_eq/=.
  all: match goal with E : apply_usb_telemetry ?s ?t = _ |- _ =>
    pose proof (apply_telemetry_evolves s t) as Ht; by rewrite E in Ht end.
Qed.

Lemma peer_evolves input reply link :
  evolves (HostStream.Link.shared link)
    (HostStream.Link.shared (fst (serve_peer input reply link))).
Proof.
  unfold serve_peer, otry, evolves. repeat (case_match; try done); simplify_eq/=.
  all: match goal with |- context [handle_usb_control ?i ?r ?p ?l] => exact (control_evolves i r p l) end.
Qed.

Lemma batch_evolves at_ run :
  evolves (HostStream.Link.shared (Run.link run))
    (HostStream.Link.shared (Run.link (fst (take_batch at_ run)))).
Proof. unfold take_batch, otry, evolves. by repeat case_match. Qed.

Lemma due_evolves at_ run :
  evolves (HostStream.Link.shared (Run.link run))
    (HostStream.Link.shared (Run.link (fst (send_due at_ run)))).
Proof.
  unfold send_due, otry, evolves. repeat (case_match; try done); simplify_eq/=.
  all: match goal with E : send_usb_h264_access_unit ?l ?u ?o = _ |- _ =>
    pose proof (send_unit_evolves l u o) as Ht; by rewrite E in Ht end.
Qed.

Lemma serve_evolves input turns run :
  evolves (HostStream.Link.shared (Run.link run))
    (HostStream.Link.shared (Run.link (fst (serve input turns run)))).
Proof.
  revert run. induction turns as [|t turns IH]; intros run; [done|]. cbn [serve].
  destruct (HostStream.Turn.cancelled t); [done|]. unfold serve_turn.
  pose proof (peer_evolves input (HostStream.Turn.reply t) (Run.link run)) as H1'.
  destruct (serve_peer _ _ _) as [link r1]. cbn [fst] in H1'.
  destruct r1 as [[]|e|f]; cbn [otry]; [|done..].
  etransitivity; [exact H1'|]. clear H1'.
  pose proof (batch_evolves (HostStream.Turn.aligned_at t) (Run.set_link run link)) as H2'.
  destruct (take_batch _ _) as [run2 r2]. cbn [fst Run.link Run.set_link] in H2'.
  destruct r2 as [[]|e|f]; cbn [otry fst]; [|done..].
  etransitivity; [exact H2'|]. clear H2'.
  pose proof (due_evolves (HostStream.Turn.due_at t) run2) as H3'.
  destruct (send_due _ _) as [run3 r3]. cbn [fst] in H3'.
  destruct r3 as [[]|e|f]; cbn [otry fst]; [|done..].
  by etransitivity.
Qed.

Lemma session_evolves opening turns shared config display_id (t : T) :
  evolves shared (fst (fst (fst
    (run_android_control_session_inner (V:=V) (U:=C) opening turns shared config display_id t)))).
Proof.
  unfold run_android_control_session_inner.
  destruct (HostProtocolConfig.new _ _ _) as [c|e|f]; cbn [otry]; [|done..].
  destruct (negotiate_host_transport _ _ _ _ _ _) as [[t1 polls] [est|e|f]]; cbn [otry]; [|done..].
  destruct (negotiated_runtime_parameters est) as [[c1 input]|e|f]; cbn [otry]; [|done..].
  destruct (start_negotiated_capture_stream _ _ _) as [v|e|f]; cbn [otry]; [|done..].
  destruct (new_input_controller _ _ _) as [u|e|f]; cbn [otry]; [|done..].
  match goal with |- context [serve ?c ?ts ?r] => pose proof (serve_evolves c ts r) as Hs;
    destruct (serve c ts r) as [run out] end. etransitivity; [|exact Hs]. by split.
Qed.

(** As long as a worker is at it, its session is up; the name stays to the end. *)
Definition at_it {A} (s : SharedState.t) (x : SharedState.t * panics_or A) : Prop :=
  SharedState.transport (fst x) = SharedState.transport s /\
  match snd x with
  | Fault _ => live_phase (SharedState.phase s) = true -> live_phase (SharedState.phase (fst x)) = true
  | _ => True
  end.

Lemma evolves_at_it {A} s s' (r : panics_or A) : evolves s s' -> at_it s (s', r).
Proof. intros [H1' H2']. split; [done|]. by destruct r. Qed.

Lemma tether_at_it opening turns cancelled socket_error shared config display_id (t : T) :
  let '((s, _), r) := run_tether_control_session (V:=V) (U:=C) opening turns cancelled socket_error
    shared config display_id t in at_it shared (s, r).
Proof.
  unfold run_tether_control_session.
  pose proof (session_evolves opening turns shared config display_id t) as Hs.
  destruct (run_android_control_session_inner _ _ _ _ _ _) as [[[s1 t1] u] [[]|e|f]];
    [by apply evolves_at_it| |by apply evolves_at_it].
  destruct cancelled; [by apply evolves_at_it|]. by split; [apply Hs|].
Qed.

#[local] Ltac still := split; [apply evolves_at_it; split|].

Lemma recover_at_it attempts shared (t : T) config deadline attempt last_error :
  let '((s, _), r) := recover attempts shared t config deadline attempt last_error in
  at_it shared (s, r) /\
  match r with Ok (Some _) => live_phase (SharedState.phase s) = true | _ => True end.
Proof.
  revert shared t attempt last_error.
  induction attempts as [|a attempts IH]; intros shared t attempt last_error; [by still|].
  cbn [recover]. destruct (Attempt.now a >=? deadline); [by repeat split|].
  destruct (wait_cancellable _ _ _) as [[]|e|f]; cbn [otry negb]; [|by still..].
  destruct (Attempt.waited a >=? deadline); [by repeat split|].
  destruct (reconnect t _) as [t1 [[]|e|f]]; [by still| |by still].
  destruct (Attempt.cancelled a); [by still|].
  match goal with |- context [recover attempts ?s ?t ?c ?d ?k ?e] => specialize (IH s t k e) end.
  destruct (recover _ _ _ _ _ _ _) as [[s2 t2] r]. destruct IH as [[Hn Hl] Hok].
  split; [|done]. split; [done|]. cbn in *. destruct r; auto.
Qed.

Lemma rounds_at_it rounds shared config display_id (t : T) deadline attempt :
  let '((s, _), r) := run_rounds (V:=V) (U:=C) rounds shared config display_id t deadline attempt in
  at_it shared (s, r).
Proof.
  revert shared t deadline attempt.
  induction rounds as [|r rounds IH]; intros shared t deadline attempt;
    [by apply evolves_at_it|]. cbn [run_rounds].
  pose proof (session_evolves (Round.opening r) (Round.turns r) shared config display_id t) as Hs.
  destruct (run_android_control_session_inner _ _ _ _ _ _) as [[[s1 t1] u] [[]|e|f]];
    [by apply evolves_at_it| |by apply evolves_at_it]. cbn [fst] in Hs.
  destruct (Round.cancelled r); [by apply evolves_at_it|].
  case_bool_decide; [split; [apply Hs|done]|].
  match goal with |- context [otry _ ?m _] => destruct m as [[d k]|x|f] end; cbn [otry];
    [|by apply evolves_at_it..].
  pose proof (recover_at_it (Round.attempts r) s1 t1 config d k e) as Hr.
  destruct (recover _ s1 t1 config d k e) as [[s2 t2] rec]. destruct Hr as [[Hn Hl] Hok]. cbn in Hn, Hl.
  destruct Hs as [Hsn Hsl].
  destruct rec as [[k'|]|x|f]; cbn [otry]; [|split; [cbn; congruence|done]..|].
  - specialize (IH s2 t2 (Some d) k'). destruct (run_rounds _ _ _ _ _ _ _) as [[s3 t3] r3].
    destruct IH as [H3n H3l]. split; [cbn in *; congruence|]. cbn in *. destruct r3; auto.
  - split; [cbn; congruence|]. cbn. auto.
Qed.

Lemma usb_at_it rounds shared config display_id (t : T) :
  let '((s, _), r) := run_usb_control_session (V:=V) (U:=C) rounds shared config display_id t in
  at_it shared (s, r).
Proof.
  unfold run_usb_control_session.
  pose proof (rounds_at_it rounds shared config display_id t None 1) as Hr.
  destruct (run_rounds _ _ _ _ _ _ _) as [[s t1] out]. by destruct (close_runtime_session t1).
Qed.
End Kept.

Lemma present_evolves now link s sent_at :
  evolves s (snd (fst (fst (present_latest now link s sent_at)))).
Proof.
  unfold present_latest, otry, evolves. by repeat (case_match; simplify_eq/=; try done).
Qed.

Lemma preview_turn_evolves turn p :
  evolves (Preview.shared p) (Preview.shared (fst (preview_turn turn p))).
Proof.
  unfold preview_turn, skip_frames, send_preview, otry, evolves.
  repeat (case_match; simplify_eq/=; try done).
  all: match goal with E : present_latest ?n ?l ?s ?a = _ |- _ =>
    pose proof (present_evolves n l s a) as Ht; rewrite E in Ht; exact Ht end.
Qed.

Lemma preview_at_it turns s config : at_it s (run_loopback turns s config).
Proof.
  unfold run_loopback. destruct (preview_start s config) as [p|e|f] eqn:Hp;
    [|done|by apply evolves_at_it].
  assert (Hs : Preview.shared p = s) by (unfold preview_start, obind in Hp; by repeat case_match; simplify_eq).
  assert (Hl : evolves (Preview.shared p) (Preview.shared (fst (preview_loop turns p)))).
  { clear. revert p. induction turns as [|t turns IH]; intros p; [done|]. cbn [preview_loop].
    destruct (PreviewTurn.cancelled t); [done|]. pose proof (preview_turn_evolves t p) as Ht.
    destruct (preview_turn t p) as [p1 [[]|e|f]]; cbn [otry fst] in *; [|done..]. by etransitivity. }
  rewrite Hs in Hl. destruct (preview_loop turns p) as [p1 [[]|e|f]]; cbn [otry fst] in *; [|done|].
  - split; [apply Hl|done].
  - by apply evolves_at_it.
Qed.

Definition kind_name (j : Job.t) : string :=
  match j with
  | Job.Tether _ => TETHER_TRANSPORT_NAME
  | Job.Usb => USB_TRANSPORT_NAME
  | Job.Preview => LOOPBACK_TRANSPORT_NAME
  end.

Lemma run_job_at_it `{ReconnectingTransport U} `{NativePlatform V C} w (o : Observed.t U) :
  at_it (Worker.began w) (run_job (V:=V) (C:=C) w o).
Proof.
  unfold run_job. destruct (Worker.job w) as [transport| |]; [| |apply preview_at_it].
  - match goal with |- context [run_tether_control_session ?a ?b ?c ?d ?e ?f ?g ?h] =>
      pose proof (tether_at_it (V:=V) (C:=C) a b c d e f g h) as Hr end.
    by destruct (run_tether_control_session _ _ _ _ _ _ _ _) as [[s t] r].
  - pose proof (usb_at_it (V:=V) (C:=C) (Observed.rounds o) (Worker.began w) (Worker.config w)
      (Worker.display_id w) (Observed.accessory o)) as Hr.
    by destruct (run_usb_control_session _ _ _ _ _) as [[s t] r].
Qed.

(** ** The lifecycle the runtime promises *)

Module Kind.
Inductive t : Type := Tether | Usb | Preview.
End Kind.

(** Resting, with or without a paired connection, or one session at work. *)
Module Life.
Inductive t : Type :=
| Off (paired : bool)
| On (kind : Kind.t).
End Life.

Definition kind_of (j : Job.t) : Kind.t :=
  match j with
  | Job.Tether _ => Kind.Tether
  | Job.Usb => Kind.Usb
  | Job.Preview => Kind.Preview
  end.

Definition life {U} (self : DesktopRuntime.t U) : Life.t :=
  match DesktopRuntime.worker self with
  | Some (Worker.mk job _ _ _ None) => Life.On (kind_of job)
  | _ => Life.Off (bool_decide (is_Some (DesktopRuntime.tether_connection self)))
  end.

Module Command.
Inductive t (U W : Type) : Type :=
| Observe (o : Observed.t U)
| Prepare
| Pair (draws : list (string + list byte)) (request : TetherPairingRequest.t) (world : W)
| Start (spawned : string + unit) (config : LoopbackConfig.t) (display_id : option string) (out : Outside.t)
| Stop (o : Observed.t U) (out : Outside.t)
| Disconnect (o : Observed.t U) (out : Outside.t).
Arguments Observe {U W} o.
Arguments Prepare {U W}.
Arguments Pair {U W} draws request world.
Arguments Start {U W} spawned config display_id out.
Arguments Stop {U W} o out.
Arguments Disconnect {U W} o out.
End Command.

(** What may become of a lifecycle state, and with which answer. *)
Definition life_allows {U W} (c : Command.t U W) (ok : bool) (l l' : Life.t) : Prop :=
  match c, l with
  | Command.Observe _, Life.On _ => l' = l \/ l' = Life.Off false
  | Command.Observe _, Life.Off _ => l' = l
  | Command.Prepare, _ => l' = l
  | Command.Pair _ _ _, Life.On _ => ok = false /\ l' = l
  | Command.Pair _ _ _, Life.Off paired =>
    if ok then l' = Life.Off true else l' = l \/ l' = Life.Off false
  | Command.Start _ _ _ _, Life.On _ => ok = false /\ l' = l
  | Command.Start _ _ _ _, Life.Off paired =>
    (exists kind, l' = Life.On kind /\ (kind = Kind.Tether <-> paired = true)) \/
    ok = false /\ (l' = l \/ l' = Life.Off false)
  | Command.Stop _ _, Life.On _ => l' = Life.Off false
  | Command.Stop _ _, Life.Off _ => l' = l
  | Command.Disconnect _ _, Life.On Kind.Preview => l' = l
  | Command.Disconnect _ _, _ => l' = Life.Off false
  end.

Definition is_ok {E A} (m : outcome E A) : bool := match m with Ok _ => true | _ => false end.

Section Lifecycle.
Context {U V C W : Type} `{AccessoryManager U} `{NativePlatform V C} `{Network W}.
Variable hmac : list byte -> list byte -> list byte.
Implicit Types (self : DesktopRuntime.t U) (o : Observed.t U).

Definition exec (c : Command.t U W) self : DesktopRuntime.t U * bool :=
  match c with
  | Command.Observe o => (observe (V:=V) (C:=C) o self, true)
  | Command.Prepare => (fst (prepare_android_usb self), true)
  | Command.Pair draws request world =>
    let '((self, _), r) := pair_android_tether hmac draws request world self in (self, is_ok r)
  | Command.Start spawned config display_id out =>
    let (self, r) := start spawned config display_id out self in (self, is_ok r)
  | Command.Stop o out => let (self, r) := stop (V:=V) (C:=C) o out self in (self, is_ok r)
  | Command.Disconnect o out =>
    let (self, r) := disconnect_android_usb (V:=V) (C:=C) o out self in (self, is_ok r)
  end.

(** The worker, if one is at work, does not panic on [o]; joined, it also ends. *)
Definition calm (joined : bool) o self : Prop :=
  match DesktopRuntime.worker self with
  | Some w => Worker.ended w = None ->
    snd (run_job (V:=V) (C:=C) w o) <> Fault Panicked /\
    (joined = true -> snd (run_job (V:=V) (C:=C) w o) <> Fault OutOfFuel)
  | None => True
  end.

(** Nothing but [stop] sets the cancel flag. *)
Definition unflagged_run o : Prop :=
  Forall (fun t => HostStream.Turn.cancelled t = false) (Observed.turns o) /\
  Observed.cancelled o = false /\ Forall unflagged (Observed.rounds o).

Definition fair (c : Command.t U W) self : Prop :=
  match c with
  | Command.Observe o => unflagged_run o /\ calm false o self
  | Command.Stop o _ | Command.Disconnect o _ => calm true o self
  | Command.Start _ config _ _ =>
    in_u 16 (LoopbackConfig.width config) /\ in_u 16 (LoopbackConfig.height config)
  | _ => True
  end.

(** A worker at work has a live session of its own kind and no second link is
    kept; without one the phase is not live, except that a preview which ran
    out of frames is still shown. *)
Record consistent self : Prop := {
  at_work w : DesktopRuntime.worker self = Some w -> Worker.ended w = None ->
    SharedState.transport (Worker.began w) = kind_name (Worker.job w) /\
    live_phase (SharedState.phase (Worker.began w)) = true /\
    SharedState.transport (DesktopRuntime.shared self) = kind_name (Worker.job w) /\
    live_phase (SharedState.phase (DesktopRuntime.shared self)) = true /\
    DesktopRuntime.tether_connection self = None;
  at_rest w : DesktopRuntime.worker self = Some w -> forall panicked, Worker.ended w = Some panicked ->
    panicked = false /\
    (live_phase (SharedState.phase (DesktopRuntime.shared self)) = true ->
     Worker.job w = Job.Preview /\
     SharedState.transport (DesktopRuntime.shared self) = LOOPBACK_TRANSPORT_NAME);
  no_worker : DesktopRuntime.worker self = None ->
    live_phase (SharedState.phase (DesktopRuntime.shared self)) = false;
}.

Lemma new_consistent usb : consistent (DesktopRuntime.new usb).
Proof. by split. Qed.

Lemma run_ok_failed w o : unflagged_run o -> Worker.job w <> Job.Preview ->
  match run_job (V:=V) (C:=C) w o with (s, Ok _) => failed s | _ => True end.
Proof.
  intros (Ht & Hc & Hr) Hj. unfold run_job. destruct (Worker.job w) as [transport| |]; [| |done].
  - unfold run_tether_control_session.
    match goal with |- context [run_android_control_session_inner ?a ?b ?c ?d ?e ?f] =>
      pose proof (session_ok_cancelled (V:=V) (U:=C) a b c d e f) as Hok;
      destruct (run_android_control_session_inner a b c d e f) as [[[s1 t1] u] [[]|e'|f']] end;
      [|by rewrite Hc|done].
    specialize (Hok eq_refl). exfalso. apply Exists_exists in Hok as (t & Hin & Htc).
    rewrite Forall_forall in Ht. apply Ht in Hin. congruence.
  - unfold run_usb_control_session.
    match goal with |- context [run_rounds ?a ?b ?c ?d ?e ?f ?g] =>
      pose proof (run_rounds_unflagged (V:=V) (U:=C) a b c d e f g Hr) as Hf;
      destruct (run_rounds a b c d e f g) as [[s t] out] end.
    by destruct (close_runtime_session t).
Qed.

Lemma observe_consistent o self :
  unflagged_run o -> calm false o self -> consistent self ->
  consistent (observe (V:=V) (C:=C) o self) /\
  life_allows (W:=W) (Command.Observe o) true (life self) (life (observe (V:=V) (C:=C) o self)).
Proof.
  intros Hu Hcalm Hs. unfold observe, calm in *. destruct self as [shared [w|] usb tether]; cbn in *; [|done].
  unfold Worker.is_finished. destruct w as [job config display began [panicked|]]; cbn in *.
  { split; [done|]. done. }
  specialize (Hcalm eq_refl). destruct Hcalm as [Hnp _].
  destruct (at_work _ Hs _ eq_refl eq_refl) as (Hbn & Hbl & Hn & Hl & Htether). cbn in *. subst tether.
  pose proof (run_job_at_it (V:=V) (C:=C) (Worker.mk job config display began None) o) as [Hat1 Hat2].
  pose proof (run_ok_failed (Worker.mk job config display began None) o Hu) as Hfail.
  destruct (run_job _ o) as [s r]. cbn in *.
  assert (Hended : forall x : unit, r = Ok x -> live_phase (SharedState.phase s) = true -> job = Job.Preview).
  { intros [] -> Hlive. destruct job; [| |done].
    all: destruct (Hfail ltac:(done)) as [Hp _ _ _ _]; rewrite Hp in Hlive; done. }
  destruct r as [[]|e|[]]; [|done|done|].
  - split; [|by right]. split; cbn.
    + intros w' [= <-]. done.
    + intros w' [= <-] panicked [= <-]. split; [done|]. intros Hlive.
      specialize (Hended _ eq_refl Hlive). subst job. by rewrite Hat1, Hbn.
    + done.
  - split; [|by left]. split; cbn.
    + intros w' [= <-] _. cbn. split_and!; [done|done|congruence|by apply Hat2|done].
    + by intros w' [= <-].
    + done.
Qed.

Lemma stopped_closed s x :
  SharedState.session (SharedState.stopped s) = Some x -> Session.phase x = SessionPhase.Closed.
Proof. cbn. destruct (SharedState.session s); [|done]. by intros [= <-]. Qed.

(** A joined worker has ended; nothing is left of it but the shared state. *)
Lemma runtime_stop_spec o out self : calm true o self -> consistent self ->
  let (self', r) := stop (V:=V) (C:=C) o out self in
  consistent self' /\ DesktopRuntime.worker self' = None /\
  SharedState.phase (DesktopRuntime.shared self') = SessionPhaseView.Stopped /\
  DesktopRuntime.tether_connection self' = DesktopRuntime.tether_connection self /\
  forall x, SharedState.session (DesktopRuntime.shared self') = Some x -> Session.phase x = SessionPhase.Closed.
Proof.
  intros Hcalm Hs. unfold stop, join, observe, calm in *.
  destruct self as [shared [w|] usb tether]; cbn in *; [|by split_and!; [split|..|apply stopped_closed]].
  unfold Worker.is_finished. destruct w as [job config display began [panicked|]]; cbn in *.
  - destruct (at_rest _ Hs _ eq_refl _ eq_refl) as [-> _]. by split_and!; [split|..|apply stopped_closed].
  - specialize (Hcalm eq_refl). destruct Hcalm as [Hnp Hnf]. specialize (Hnf eq_refl).
    destruct (run_job _ o) as [s r]. cbn in *.
    destruct r as [[]|e|[]]; [|done|done|done]. by split_and!; [split|..|apply stopped_closed].
Qed.

Definition link_session (s : SharedState.t) : bool :=
  (bool_decide (SharedState.transport s = USB_TRANSPORT_NAME) ||
   bool_decide (SharedState.transport s = TETHER_TRANSPORT_NAME)) &&
  live_phase (SharedState.phase s).

(** The test of [disconnect_android_usb] finds exactly the sessions over a link. *)
Lemma link_session_exact self : consistent self ->
  link_session (DesktopRuntime.shared self) = true <->
  life self = Life.On Kind.Tether \/ life self = Life.On Kind.Usb.
Proof.
  intros Hs. destruct self as [shared [[job config display began [panicked|]]|] usb tether]; cbn.
  - split; [|by intros [|]]. destruct (at_rest _ Hs _ eq_refl _ eq_refl) as [_ Hl]. cbn in Hl.
    intros [Hn Hlive]%andb_true_iff. destruct (Hl Hlive) as [_ E]. rewrite E in Hn. done.
  - destruct (at_work _ Hs _ eq_refl eq_refl) as (_ & _ & Hn & Hl & _). cbn in Hn, Hl.
    unfold link_session. rewrite Hn, Hl. unfold life. cbn.
    destruct job; cbn; (split; [|by intros [?|?]]); [by left|by right|done].
  - pose proof (no_worker _ Hs eq_refl) as Hl. cbn in Hl. unfold link_session. rewrite Hl, andb_false_r.
    split; [done|by intros [|]].
Qed.

Lemma rest_consistent shared worker usb tether usb' tether' :
  consistent (DesktopRuntime.mk shared worker usb tether) ->
  (forall w, worker = Some w -> Worker.ended w = None -> tether' = None) ->
  consistent (DesktopRuntime.mk shared worker usb' tether').
Proof.
  intros [Hw Hr Hn] Ht. split; cbn in *; [|done|done].
  intros w Hw1 Hw2. destruct (Hw w Hw1 Hw2) as (?&?&?&?&_). split_and!; [done..|by eapply Ht].
Qed.

Lemma runtime_disconnect_spec o out self : calm true o self -> consistent self ->
  let (self', r) := disconnect_android_usb (V:=V) (C:=C) o out self in
  consistent self' /\
  life_allows (W:=W) (Command.Disconnect o out) (is_ok r) (life self) (life self').
Proof.
  intros Hcalm Hs. unfold disconnect_android_usb. fold (link_session (DesktopRuntime.shared self)).
  pose proof (runtime_stop_spec o out self Hcalm Hs) as Hstop. pose proof (link_session_exact self Hs) as Hlink.
  destruct (link_session _).
  - destruct (stop o out self) as [[shared worker usb tether] r1]. cbn in Hstop.
    destruct Hstop as (Hs1 & -> & Hp1 & Ht1 & _). destruct Hlink as [Hlink _]. specialize (Hlink eq_refl).
    assert (Htether : tether = None).
    { rewrite Ht1. destruct self as [? [[job ? ? ? [|]]|] ? ?]; cbn in Hlink; [by destruct Hlink| |by destruct Hlink].
      apply (at_work _ Hs _ eq_refl eq_refl). }
    clear Ht1. subst tether.
    assert (Hallow : forall ok, life_allows (U:=U) (W:=W) (Command.Disconnect o out) ok (life self) (Life.Off false))
      by (intros ok; by destruct Hlink as [-> | ->]).
    destruct r1 as [snap|e|f]; cbn -[life_allows life]; [|split; [exact Hs1|apply Hallow]..].
    destruct (disconnect usb) as [usb' [[]|e|f]]; cbn -[life_allows life];
      (split; [by eapply rest_consistent|apply Hallow]).
  - cbn [otry]. destruct self as [shared worker usb tether]. cbn.
    assert (Hl : life (DesktopRuntime.mk shared worker usb tether) = Life.On Kind.Preview \/
                 exists p, life (DesktopRuntime.mk shared worker usb tether) = Life.Off p).
    { destruct worker as [[[] ? ? ? [|]]|]; cbn; eauto; exfalso; destruct Hlink as [_ Hlink].
      all: by specialize (Hlink ltac:(auto)). }
    destruct (disconnect usb) as [usb' [[]|e|f]]; cbn; (split; [by eapply rest_consistent|]).
    all: destruct worker as [[[] ? ? ? [|]]|]; cbn in *; destruct Hl as [Hl|[p Hl]]; try done.
Qed.

Lemma runtime_pair_spec draws request world self : consistent self ->
  let '((self', _), r) := pair_android_tether hmac draws request world self in
  consistent self' /\
  life_allows (U:=U) (W:=W) (Command.Pair draws request world) (is_ok r) (life self) (life self').
Proof.
  intros Hs. unfold pair_android_tether.
  destruct self as [shared worker usb tether].
  assert (Hrun : running (DesktopRuntime.mk shared worker usb tether) = true <->
    exists k, life (DesktopRuntime.mk shared worker usb tether) = Life.On k).
  { destruct worker as [[job ? ? ? [|]]|]; cbn; split; try done; try (by intros [? ?]). eauto. }
  destruct (running _).
  { destruct Hrun as [Hrun _]. destruct (Hrun eq_refl) as [k Hk]. split; [done|]. by rewrite Hk. }
  assert (Hnone : forall w, worker = Some w -> Worker.ended w = None -> False).
  { intros w -> Hw. destruct Hrun as [_ Hrun]. destruct w as [job ? ? ? [|]]; [done|].
    discriminate Hrun. by exists (kind_of job). }
  assert (Hoff : forall shared' (usb' : U) tether', life (DesktopRuntime.mk shared' worker usb' tether') =
    Life.Off (bool_decide (is_Some tether'))).
  { intros. destruct worker as [[job ? ? ? [|]]|]; [done| |done]. by destruct (Hnone _ eq_refl). }
  cbn -[life]. rewrite (Hoff shared usb tether).
  destruct (disconnect usb) as [usb' [[]|e|f]]; cbn -[life].
  2, 3: split; [by eapply rest_consistent; [|intros w ? ?; by destruct (Hnone w)]|left; exact (Hoff _ _ tether)].
  destruct (pair_tether_connection hmac draws request world) as [world' [[connection report]|e|f]]; cbn -[life].
  2, 3: split; [by eapply rest_consistent; [|intros w ? ?; by destruct (Hnone w)]|right; exact (Hoff _ _ None)].
  split; [|exact (Hoff _ _ (Some connection))]. destruct Hs as [_ Hr _]. split; cbn in *.
  - intros w Hw1 Hw2. by destruct (Hnone w Hw1 Hw2).
  - intros w Hw panicked Hp. destruct (Hr w Hw panicked Hp) as [-> _]. done.
  - done.
Qed.

(** A session of an allowed kind is at work, or the call failed and nothing is. *)
Definition launched (allowed : Kind.t -> Prop) (x : DesktopRuntime.t U * outcome string unit) : Prop :=
  let (self', r) := x in
  consistent self' /\
  ((exists u, r = Ok u) /\ (exists kind, life self' = Life.On kind /\ allowed kind) \/
   is_ok r = false /\ life self' = Life.Off false).

(** A thread that starts works on the state it was given. *)
Lemma runtime_spawn_spec (allowed : Kind.t -> Prop) spawned what job config display_id self :
  DesktopRuntime.worker self = None -> DesktopRuntime.tether_connection self = None ->
  SharedState.transport (DesktopRuntime.shared self) = kind_name job ->
  live_phase (SharedState.phase (DesktopRuntime.shared self)) = true ->
  allowed (kind_of job) -> launched allowed (spawn spawned what job config display_id self).
Proof.
  destruct self as [shared worker usb tether]. cbn. intros -> -> Hn Hl Ha.
  destruct spawned as [error|u]; split.
  - by split.
  - by right.
  - split; cbn; [|by intros w [= <-]|done]. intros w [= <-] _. done.
  - left. split; [by eexists|]. by exists (kind_of job).
Qed.

Lemma runtime_launch_spec spawned connection config display_id now self :
  LoopbackConfig.wf config ->
  DesktopRuntime.worker self = None -> DesktopRuntime.tether_connection self = None ->
  launched (fun kind => kind = Kind.Tether <-> is_Some connection)
    (launch spawned connection config display_id now self).
Proof.
  intros Hc Hw Ht. unfold launch. destruct connection as [connection|].
  - case_bool_decide; [|by apply runtime_spawn_spec].
    destruct self as [shared worker usb tether]. cbn in Hw, Ht. subst. by split; [split|right].
  - assert (Hno : forall job, kind_of job <> Kind.Tether ->
      kind_of job = Kind.Tether <-> is_Some (@None TetherConnection.t)).
    { intros job Hj. split; [done|by intros [? ?]]. }
    case_bool_decide; [by apply runtime_spawn_spec; [..|apply Hno]|].
    cbv zeta. rewrite (negotiated_session_ok config Hc). by apply runtime_spawn_spec; [..|apply Hno].
Qed.

Lemma validate_wf config config' :
  in_u 16 (LoopbackConfig.width config) -> in_u 16 (LoopbackConfig.height config) ->
  LoopbackConfig.validate config = Ok config' -> LoopbackConfig.wf config'.
Proof.
  unfold LoopbackConfig.validate, in_u. intros Hw Hh Hv.
  destruct (_ || _) eqn:Hz in Hv; [done|]. destruct (negb _) eqn:Hf in Hv; [done|].
  injection Hv as <-. split; lia.
Qed.

Lemma runtime_start_spec spawned config display_id out self :
  in_u 16 (LoopbackConfig.width config) -> in_u 16 (LoopbackConfig.height config) -> consistent self ->
  let (self', r) := start spawned config display_id out self in
  consistent self' /\
  life_allows (U:=U) (W:=W) (Command.Start spawned config display_id out) (is_ok r) (life self) (life self').
Proof.
  intros Hw Hh Hs. unfold start.
  destruct (LoopbackConfig.validate config) as [config'|e|f] eqn:Hv; cbn [otry].
  2, 3: split; [done|]; destruct (life self); [right; split; [done|by left]|done].
  apply validate_wf in Hv; [|done..].
  destruct self as [shared worker usb tether].
  destruct (running _) eqn:Hrun.
  { split; [done|]. destruct worker as [[job ? ? ? [|]]|]; done. }
  assert (Hoff : life (DesktopRuntime.mk shared worker usb tether) = Life.Off (bool_decide (is_Some tether)))
    by (by destruct worker as [[job ? ? ? [|]]|]).
  rewrite Hoff. cbn zeta. cbn [DesktopRuntime.worker].
  assert (Hcalm : match worker with Some w => bool_decide (Worker.ended w = Some true) | None => false end = false).
  { destruct worker as [[job ? ? ? [panicked|]]|]; [|done..].
    destruct (at_rest _ Hs _ eq_refl _ eq_refl) as [-> _]. done. }
  rewrite Hcalm. cbn [DesktopRuntime.tether_connection DesktopRuntime.set_worker].
  match goal with |- context [launch ?a ?b ?c ?d ?e ?f] =>
    pose proof (runtime_launch_spec a b c d e f Hv eq_refl eq_refl) as Hl; destruct (launch a b c d e f) as [self' r] end.
  destruct Hl as [Hs' [[[u ->] (kind & Hl & Hk)]|[Hr Hl]]].
  - cbn [otry]. split; [done|]. left. exists kind. split; [done|]. rewrite Hk.
    symmetry. apply bool_decide_eq_true.
  - destruct r as [u|e|f]; [done|..]; cbn [otry]; (split; [done|]); right; split; auto.
Qed.

Lemma exec_spec c self : fair c self -> consistent self ->
  consistent (fst (exec c self)) /\
  life_allows c (snd (exec c self)) (life self) (life (fst (exec c self))).
Proof.
  intros Hf Hs. destruct c as [o| |draws request world|spawned config display_id out|o out|o out]; cbn [exec].
  - destruct Hf as [Hu Hc]. by apply observe_consistent.
  - unfold prepare_android_usb. destruct (prepare _) as [usb' report]. cbn [fst snd].
    destruct self as [shared worker usb tether].
    split; [by eapply rest_consistent; [|intros w Hw1 Hw2; apply (at_work _ Hs w Hw1 Hw2)]|done].
  - pose proof (runtime_pair_spec draws request world self Hs) as Hp.
    by destruct (pair_android_tether hmac draws request world self) as [[self' w'] r].
  - destruct Hf as [Hw Hh]. pose proof (runtime_start_spec spawned config display_id out self Hw Hh Hs) as Hp.
    by destruct (start spawned config display_id out self) as [self' r].
  - pose proof (runtime_stop_spec o out self Hf Hs) as Hp. destruct (stop o out self) as [self' r].
    destruct Hp as (Hs' & Hw & Hph & Ht & _). split; [done|]. cbn [fst snd].
    assert (Hl : life self' = Life.Off (bool_decide (is_Some (DesktopRuntime.tether_connection self))))
      by (unfold life; by rewrite Hw, Ht).
    rewrite Hl. unfold life at 1. destruct (DesktopRuntime.worker self) as [[job ? ? ? [|]]|] eqn:E; [done| |done].
    destruct (at_work _ Hs _ E eq_refl) as (_ & _ & _ & _ & Htether). cbn. by rewrite Htether.
  - pose proof (runtime_disconnect_spec o out self Hf Hs) as Hp.
    by destruct (disconnect_android_usb o out self) as [self' r].
Qed.

(** States of a runtime under fair commands, each begun after the last one has returned. *)
Inductive reachable (usb : U) : DesktopRuntime.t U -> Prop :=
| reachable_new : reachable usb (DesktopRuntime.new usb)
| reachable_step c self : reachable usb self -> fair c self -> reachable usb (fst (exec c self)).

Fixpoint all_fair (cs : list (Command.t U W)) self : Prop :=
  match cs with
  | [] => True
  | c :: cs => fair c self /\ all_fair cs (fst (exec c self))
  end.
Definition run_all (cs : list (Command.t U W)) self : DesktopRuntime.t U :=
  fold_left (fun self c => fst (exec c self)) cs self.

Lemma reachable_run usb cs self : reachable usb self -> all_fair cs self -> reachable usb (run_all cs self).
Proof.
  revert self. induction cs as [|c cs IH]; intros self Hr; [done|]. intros [Hf Hfs].
  by apply IH; [apply reachable_step|].
Qed.

Lemma reachable_consistent usb self : reachable usb self -> consistent self.
Proof. induction 1 as [|c self _ IH Hf]; [apply new_consistent|by apply exec_spec]. Qed.
End Lifecycle.

(** Commands that take turns keep the promised lifecycle: seen as resting (with or without a paired
    connection) or as one session of one kind at work, every command from every reachable state does
    what [life_allows] says: at most one session, a start or a pairing is refused while one is at work,
    a start takes the paired connection if there is one and else USB or the preview, a stop always ends
    at rest, [disconnect] ends a session over a link and leaves a preview alone, and only the worker's
    own end stops a session otherwise; provided that workers do not panic. *)
Theorem runtime_refines_lifecycle `{AccessoryManager U} `{NativePlatform V C} `{Network W} hmac
  (usb : U) self (c : Command.t U W)
  (Hr : reachable (V:=V) (C:=C) (W:=W) hmac usb self) (Hf : fair (V:=V) (C:=C) c self) :
  let (self', ok) := exec (V:=V) (C:=C) hmac c self in
  life_allows c ok (life self) (life self').
Proof.
  pose proof (exec_spec hmac c self Hf (reachable_consistent hmac usb self Hr)) as [_ Hl].
  by destruct (exec hmac c self) as [self' ok].
Qed.

(** Between commands that take turns the phase the runtime shows is true: in every reachable state a session at work is shown live,
    under the transport of its kind and with no paired connection kept beside it; and a live phase is
    shown only while a session is at work or after a preview that ran out of frames. After a stop
    the phase is Stopped, no worker is left, and the session, if any is kept, is closed. *)
Theorem runtime_shows_the_truth `{AccessoryManager U} `{NativePlatform V C} `{Network W} hmac
  (usb : U) self (o : Observed.t U) out
  (Hr : reachable (V:=V) (C:=C) (W:=W) hmac usb self) (Hf : calm (V:=V) (C:=C) true o self) :
  (forall w, DesktopRuntime.worker self = Some w -> Worker.ended w = None ->
     live_phase (SharedState.phase (DesktopRuntime.shared self)) = true /\
     SharedState.transport (DesktopRuntime.shared self) = kind_name (Worker.job w) /\
     DesktopRuntime.tether_connection self = None) /\
  (live_phase (SharedState.phase (DesktopRuntime.shared self)) = true ->
     exists w, DesktopRuntime.worker self = Some w /\ (Worker.ended w = None \/ Worker.job w = Job.Preview)) /\
  let (self', r) := stop (V:=V) (C:=C) o out self in
  SharedState.phase (DesktopRuntime.shared self') = SessionPhaseView.Stopped /\
  DesktopRuntime.worker self' = None /\
  (forall s, SharedState.session (DesktopRuntime.shared self') = Some s ->
     Session.phase s = SessionPhase.Closed).
Proof.
  pose proof (reachable_consistent hmac usb self Hr) as Hs. split_and!.
  - intros w Hw He. destruct (at_work _ Hs w Hw He) as (_ & _ & Hn & Hl & Ht). done.
  - intros Hl. destruct (DesktopRuntime.worker self) as [w|] eqn:Hw.
    + exists w. split; [done|]. destruct (Worker.ended w) as [p|] eqn:He; [right|by left].
      by destruct (at_rest _ Hs w Hw p He) as [_ Hp]; destruct (Hp Hl).
    + by rewrite (no_worker _ Hs Hw) in Hl.
  - pose proof (runtime_stop_spec o out self Hf Hs) as Hp. destruct (stop o out self) as [self' r].
    destruct Hp as (_ & Hw & Hph & _ & Hx). done.
Qed.

(** ** Concrete runs *)
Module RuntimeExamples.
Import ReconnectExamples TetherExamples.

#[export] Instance portable_accessory : AccessoryManager Portable.UsbAccessoryManager.t := {
  prepare t := (t, Portable.UsbAccessoryManager.prepare "linux" t);
  disconnect t := (t, Portable.UsbAccessoryManager.disconnect t);
  runtime_status := Portable.UsbAccessoryManager.runtime_status;
}.
Definition manager : Portable.UsbAccessoryManager.t := Portable.UsbAccessoryManager.mk.
Definition outside : Outside.t := Outside.mk (Portable.collect_status "linux") 100 "0.1.0" "linux" "x86_64".
Definition seen (turns : list PreviewTurn.t) : Observed.t Portable.UsbAccessoryManager.t :=
  Observed.mk turns ReconnectExamples.opening [] false [] [] manager manager.

(** A preview: one frame, then the stop. *)
Definition shown : list PreviewTurn.t := [LoopbackPreviewExamples.at_slot 0].
Definition stop_now : Observed.t Portable.UsbAccessoryManager.t :=
  seen (shown ++ [PreviewTurn.mk true 0 0 0]).
Definition preview : list (Command.t Portable.UsbAccessoryManager.t unit) :=
  [Command.Start (inr tt) (LoopbackConfig.mk 1280 720 60) (Some "  ") outside;
   Command.Observe (seen shown)].
Definition runs (cs : list (Command.t Portable.UsbAccessoryManager.t unit)) :=
  run_all (V:=unit) (C:=unit) PairingExamples.keyed cs (DesktopRuntime.new manager).

Example preview_then_pair :
  life (runs preview) = Life.On Kind.Preview /\
  SharedState.frames_produced (DesktopRuntime.shared (runs preview)) = 1 /\
  snd (exec (V:=unit) (C:=unit) PairingExamples.keyed (Command.Pair [inr PairingExamples.hn] request tt) (runs preview)) = false.
Proof. vm_compute. done. Qed.

(** Pairing, and a session over the paired connection. *)
Definition tethered : list (Command.t Portable.UsbAccessoryManager.t unit) :=
  [Command.Pair [inr PairingExamples.hn] request tt;
   Command.Start (inr tt) (LoopbackConfig.mk 1280 720 60) None outside].
Example pair_then_start :
  life (runs (take 1 tethered)) = Life.Off true /\ life (runs tethered) = Life.On Kind.Tether /\
  SharedState.transport (DesktopRuntime.shared (runs tethered)) = TETHER_TRANSPORT_NAME.
Proof. vm_compute. done. Qed.

Lemma preview_reachable :
  reachable (V:=unit) (C:=unit) (W:=unit) PairingExamples.keyed manager (runs preview).
Proof.
  apply reachable_run; [constructor|]. split; [by vm_compute|].
  split; [|done]. split; [by repeat constructor|]. vm_compute. done.
Qed.

Lemma stop_calm : calm (V:=unit) (C:=unit) true stop_now (runs preview).
Proof. vm_compute. intros _. split; [|intros _]; discriminate. Qed.

Lemma preview_at_work : life (runs preview) = Life.On Kind.Preview.
Proof. vm_compute. reflexivity. Qed.

Lemma runtime_refines_lifecycle_witness :
  life (runs preview) = Life.On Kind.Preview /\
  let (self', ok) := exec (V:=unit) (C:=unit) PairingExamples.keyed
    (Command.Stop stop_now outside) (runs preview) in
  life self' = Life.Off false.
Proof.
  split; [exact preview_at_work|].
  pose proof (runtime_refines_lifecycle (V:=unit) (C:=unit) PairingExamples.keyed manager (runs preview)
    (Command.Stop stop_now outside) preview_reachable stop_calm) as Hl.
  rewrite preview_at_work in Hl. destruct (exec _ _ _) as [self' ok]. exact Hl.
Defined.

Lemma runtime_shows_the_truth_witness :
  let (self', r) := stop (V:=unit) (C:=unit) stop_now outside (runs preview) in
  SharedState.phase (DesktopRuntime.shared self') = SessionPhaseView.Stopped /\
  DesktopRuntime.worker self' = None.
Proof.
  pose proof (runtime_shows_the_truth (V:=unit) (C:=unit) (W:=unit) PairingExamples.keyed manager (runs preview)
    stop_now outside preview_reachable stop_calm) as (_ & _ & Hstop).
  destruct (stop _ _ _) as [self' r]. exact (conj (proj1 Hstop) (proj1 (proj2 Hstop))).
Defined.
End RuntimeExamples.
