(* ===== verification/HostThreads.v ===== *)
(** * The commands of the desktop runtime on their threads

    Models the methods of [DesktopRuntime] in [apps/desktop/src-tauri/src/runtime.rs]
    as they run beside each other: a command comes from the window, the tray or the
    shutdown, each on a thread of its own, and gives its locks up in the middle.
    [stop] takes the worker out of its slot, lets go of the slot and only then joins;
    [pair_android_tether] looks into the slot and dials without it; [start] alone keeps
    the slot locked from its test to the stored worker. A step here is what one thread does
    under one lock, or one call on a worker thread; [step] runs a step of a call or of a
    worker, and is [None] where that thread has to wait. [HostRuntime] has the same methods run
    through at once; [solo] shows that they are a command's steps with no other command's
    steps in between. *)
From S2P Require Export HostRuntime.
Local Open Scope string_scope.
Local Open Scope list_scope.
Local Open Scope Z_scope.

(** ** The machine *)

(** A worker thread, with the flag that asks it to end. *)
Module Thread.
Record t : Type := mk { worker : Worker.t; cancel : bool }.
Definition running (self : t) : bool := negb (Worker.is_finished (worker self)).
Definition flag (self : t) : t := mk (worker self) true.
Definition set_worker (self : t) (v : Worker.t) : t := mk v (cancel self).
End Thread.

(** What is asked of the runtime. The answers of the world outside that a command is
    going to meet come with it: the random bytes and the network of a pairing, whether the system
    creates the thread of a start, and its time. *)
Module Request.
Inductive t (W : Type) : Type :=
| Prepare
| Pair (draws : list (string + list byte)) (request : TetherPairingRequest.t) (world : W)
| Start (spawned : string + unit) (config : LoopbackConfig.t) (display_id : option string) (now : Z)
| Stop
| Disconnect.
Arguments Prepare {W}.
Arguments Pair {W} draws request world.
Arguments Start {W} spawned config display_id now.
Arguments Stop {W}.
Arguments Disconnect {W}.
End Request.

(** Where a command is in its method: the step it does next. *)
Module Place.
Inductive t (W : Type) : Type :=
| PrepareUsb
(** [stop], for itself or inside [disconnect_android_usb] *)
| StopTake (disconnecting : bool)
| StopFlag (disconnecting : bool) (worker : nat)
| StopJoin (disconnecting : bool) (worker : nat)
| StopClose (disconnecting : bool)
| DisconnectTest
| DisconnectForget
| DisconnectUsb
| PairTest (draws : list (string + list byte)) (request : TetherPairingRequest.t) (world : W)
| PairUsb (draws : list (string + list byte)) (request : TetherPairingRequest.t) (world : W)
| PairForget (draws : list (string + list byte)) (request : TetherPairingRequest.t) (world : W)
| PairDial (draws : list (string + list byte)) (request : TetherPairingRequest.t) (world : W)
| PairKeep (connection : TetherConnection.t)
| PairReset
| StartLock (spawned : string + unit) (config : LoopbackConfig.t) (display_id : option string) (now : Z)
| StartTether (spawned : string + unit) (config : LoopbackConfig.t) (display_id : option string) (now : Z)
| StartUsb (spawned : string + unit) (config : LoopbackConfig.t) (display_id : option string) (now : Z)
    (connection : option TetherConnection.t)
| StartReset (spawned : string + unit) (config : LoopbackConfig.t) (display_id : option string) (now : Z)
    (connection : option TetherConnection.t) (use_usb : bool)
| StartNegotiate (spawned : string + unit) (config : LoopbackConfig.t) (display_id : option string) (now : Z)
| StartSpawn (spawned : string + unit) (what : string) (job : Job.t) (config : LoopbackConfig.t)
    (display_id : option string)
| StartStore (worker : nat)
| Done (answer : outcome string unit).
Arguments PrepareUsb {W}.
Arguments StopTake {W} disconnecting.
Arguments StopFlag {W} disconnecting worker.
Arguments StopJoin {W} disconnecting worker.
Arguments StopClose {W} disconnecting.
Arguments DisconnectTest {W}.
Arguments DisconnectForget {W}.
Arguments DisconnectUsb {W}.
Arguments PairTest {W} draws request world.
Arguments PairUsb {W} draws request world.
Arguments PairForget {W} draws request world.
Arguments PairDial {W} draws request world.
Arguments PairKeep {W} connection.
Arguments PairReset {W}.
Arguments StartLock {W} spawned config display_id now.
Arguments StartTether {W} spawned config display_id now.
Arguments StartUsb {W} spawned config display_id now connection.
Arguments StartReset {W} spawned config display_id now connection use_usb.
Arguments StartNegotiate {W} spawned config display_id now.
Arguments StartSpawn {W} spawned what job config display_id.
Arguments StartStore {W} worker.
Arguments Done {W} answer.
End Place.

Module Call.
Record t (W : Type) : Type := mk { request : Request.t W; place : Place.t W }.
Arguments mk {W} request place.
Arguments request {W} t.
Arguments place {W} t.
End Call.

(** [slot] is the content of the worker mutex, by the number of the thread; [holder] the call
    that keeps this mutex locked between steps; [threads] are all worker threads and [calls] all
    calls there have been, in their order. *)
Module Machine.
Record t (U W : Type) : Type := mk {
  shared : SharedState.t;
  slot : option nat;
  holder : option nat;
  usb : U;
  tether : option TetherConnection.t;
  threads : list Thread.t;
  calls : list (Call.t W);
}.
Arguments mk {U W} shared slot holder usb tether threads calls.
Arguments shared {U W} t.
Arguments slot {U W} t.
Arguments holder {U W} t.
Arguments usb {U W} t.
Arguments tether {U W} t.
Arguments threads {U W} t.
Arguments calls {U W} t.
Definition new {U W} (usb : U) : t U W := mk SharedState.new None None usb None [] [].
Definition set_shared {U W} (m : t U W) v : t U W :=
  mk v (slot m) (holder m) (usb m) (tether m) (threads m) (calls m).
Definition set_slot {U W} (m : t U W) v : t U W :=
  mk (shared m) v (holder m) (usb m) (tether m) (threads m) (calls m).
Definition set_holder {U W} (m : t U W) v : t U W :=
  mk (shared m) (slot m) v (usb m) (tether m) (threads m) (calls m).
Definition set_usb {U W} (m : t U W) v : t U W :=
  mk (shared m) (slot m) (holder m) v (tether m) (threads m) (calls m).
Definition set_tether {U W} (m : t U W) v : t U W :=
  mk (shared m) (slot m) (holder m) (usb m) v (threads m) (calls m).
Definition set_threads {U W} (m : t U W) v : t U W :=
  mk (shared m) (slot m) (holder m) (usb m) (tether m) v (calls m).
Definition set_calls {U W} (m : t U W) v : t U W :=
  mk (shared m) (slot m) (holder m) (usb m) (tether m) (threads m) v.

(** Call [i] goes on at [place]. *)
Definition go {U W} (i : nat) (place : Place.t W) (m : t U W) : t U W :=
  set_calls m (alter (fun c => Call.mk (Call.request c) place) i (calls m)).

(** How thread [id] has ended, if it has. *)
Definition ended {U W} (m : t U W) (id : nat) : option bool :=
  thread ← threads m !! id; Worker.ended (Thread.worker thread).
End Machine.

Module Event.
Inductive t (U W : Type) : Type :=
| Calls (request : Request.t W)
| Steps (call : nat)
(** Worker [thread] leaves the shared state and, with the accessory, the manager as given, and
    ends, by a panic or not. *)
| Works (thread : nat) (shared : SharedState.t) (usb : U) (ended : option bool).
Arguments Calls {U W} request.
Arguments Steps {U W} call.
Arguments Works {U W} thread shared usb ended.
End Event.

Section Steps.
Context {U W : Type} `{AccessoryManager U} `{Network W}.
Variable hmac : list byte -> list byte -> list byte.
Implicit Types (m : Machine.t U W) (i : nat).
Import Place.

(** What a method does before its first lock. *)
Definition enter (r : Request.t W) : Place.t W :=
  match r with
  | Request.Prepare => PrepareUsb
  | Request.Pair draws request world => PairTest draws request world
  | Request.Start spawned config display_id now =>
    match LoopbackConfig.validate config with
    | Ok config =>
      let display_id :=
        display_id ← (fun value => text (trim (str value))) <$> display_id;
        if bool_decide (display_id = "") then None else Some display_id in
      StartLock spawned config display_id now
    | Err e => Done (Err e)
    | Fault f => Done (Fault f)
    end
  | Request.Stop => StopTake false
  | Request.Disconnect => DisconnectTest
  end.

(** A start gives its lock up when it returns. *)
Definition leave (i : nat) (answer : outcome string unit) m : Machine.t U W :=
  Machine.go i (Done answer) (Machine.set_holder m None).

Definition go_on {A} (i : nat) (r : outcome string A) (place : A -> Place.t W) m : Machine.t U W :=
  match r with
  | Ok a => Machine.go i (place a) m
  | Err e => Machine.go i (Done (Err e)) m
  | Fault f => Machine.go i (Done (Fault f)) m
  end.

(** The next step of call [i]; [None] when it is over or has to wait. *)
Definition step_call (i : nat) m : option (Machine.t U W) :=
  call ← Machine.calls m !! i;
  let free := bool_decide (Machine.holder m = None) in
  match Call.place call with
  | PrepareUsb =>
    let (usb, _) := prepare (Machine.usb m) in
    Some (Machine.go i (Done (Ok tt)) (Machine.set_usb m usb))
  | StopTake disconnecting =>
    if free then Some
      match Machine.slot m with
      | Some id => Machine.go i (StopFlag disconnecting id) (Machine.set_slot m None)
      | None => Machine.go i (StopClose disconnecting) m
      end
    else None
  | StopFlag disconnecting id =>
    Some (Machine.go i (StopJoin disconnecting id)
      (Machine.set_threads m (alter Thread.flag id (Machine.threads m))))
  | StopJoin disconnecting id =>
    match Machine.ended m id with
    | Some true => Some (Machine.go i (Done (Err "the loopback worker panicked while stopping")) m)
    | Some false => Some (Machine.go i (StopClose disconnecting) m)
    | None => None
    end
  | StopClose disconnecting =>
    Some (Machine.go i (if disconnecting then DisconnectForget else Done (Ok tt))
      (Machine.set_shared m (SharedState.stopped (Machine.shared m))))
  | DisconnectTest =>
    let shared := Machine.shared m in
    let usb_session_active :=
      (bool_decide (SharedState.transport shared = USB_TRANSPORT_NAME) ||
       bool_decide (SharedState.transport shared = TETHER_TRANSPORT_NAME)) &&
      live_phase (SharedState.phase shared) in
    Some (Machine.go i (if usb_session_active then StopTake true else DisconnectForget) m)
  | DisconnectForget => Some (Machine.go i DisconnectUsb (Machine.set_tether m None))
  | DisconnectUsb =>
    let (usb, disconnected) := disconnect (Machine.usb m) in
    Some (go_on i disconnected (fun _ => Done (Ok tt)) (Machine.set_usb m usb))
  | PairTest draws request world =>
    if free then Some
      match Machine.slot m with
      | Some id =>
        if bool_decide (Machine.ended m id = None)
        then Machine.go i (Done (Err "stop the active display session before pairing Android")) m
        else Machine.go i (PairUsb draws request world) m
      | None => Machine.go i (PairUsb draws request world) m
      end
    else None
  | PairUsb draws request world =>
    let (usb, disconnected) := disconnect (Machine.usb m) in
    Some (go_on i disconnected (fun _ => PairForget draws request world) (Machine.set_usb m usb))
  | PairForget draws request world =>
    Some (Machine.go i (PairDial draws request world) (Machine.set_tether m None))
  | PairDial draws request world =>
    let (_, paired) := pair_tether_connection hmac draws request world in
    Some (go_on i paired (fun p => PairKeep (fst p)) m)
  | PairKeep connection => Some (Machine.go i PairReset (Machine.set_tether m (Some connection)))
  | PairReset =>
    Some (Machine.go i (Done (Ok tt))
      (Machine.set_shared m (SharedState.reset_for_tether (Machine.shared m))))
  | StartLock spawned config display_id now =>
    if free then
      let taken := Machine.set_slot m None in
      let held := Machine.go i (StartTether spawned config display_id now)
        (Machine.set_holder taken (Some i)) in
      Some match Machine.slot m with
      | Some id =>
        match Machine.ended m id with
        | None => Machine.go i (Done (Err "a display session is already running")) m
        | Some true => Machine.go i (Done (Err "the previous loopback worker panicked")) taken
        | Some false => held
        end
      | None => held
      end
    else None
  | StartTether spawned config display_id now =>
    Some (Machine.go i (StartUsb spawned config display_id now (Machine.tether m)) (Machine.set_tether m None))
  | StartUsb spawned config display_id now connection =>
    let use_usb := bool_decide (connection_state (Machine.usb m) = ConnectionState.Connected) in
    Some (Machine.go i (StartReset spawned config display_id now connection use_usb) m)
  | StartReset spawned config display_id now connection use_usb =>
    let shared := Machine.shared m in
    Some match connection with
    | Some connection =>
      let transport := TetherConnection.transport connection in
      if bool_decide (connection_state transport <> ConnectionState.Connected) then
        let detail := default "the authenticated socket closed before streaming"
          (TcpTransportStatus.last_error (TcpPacketTransport.status transport)) in
        leave i (Err "Android USB-tether link closed; pair the display again")
          (Machine.set_shared m (SharedState.fail_android_session shared
             ("Android USB-tether link is no longer ready: " +:+ detail +:+ ". Pair again.")))
      else
        Machine.go i (StartSpawn spawned "USB-tether session"
            (Job.Tether (TetherConnection.into_transport connection)) config display_id)
          (Machine.set_shared m
             (SharedState.reset_for_android_negotiation shared config TETHER_TRANSPORT_NAME now))
    | None =>
      if use_usb : bool then
        Machine.go i (StartSpawn spawned "USB session" Job.Usb config display_id)
          (Machine.set_shared m
             (SharedState.reset_for_android_negotiation shared config USB_TRANSPORT_NAME now))
      else
        Machine.go i (StartNegotiate spawned config display_id now)
          (Machine.set_shared m (SharedState.set_phase shared SessionPhaseView.Negotiating))
    end
  | StartNegotiate spawned config display_id now =>
    let shared := Machine.shared m in
    Some match negotiated_session config with
    | Ok session =>
      Machine.go i (StartSpawn spawned "loopback" Job.Preview config display_id)
        (Machine.set_shared m (SharedState.reset_for_start shared config session now))
    | Err error =>
      leave i (Err error) (Machine.set_shared m (SharedState.set_phase shared SessionPhaseView.Failed))
    | Fault f => leave i (Fault f) m
    end
  | StartSpawn spawned what job config display_id =>
    let shared := Machine.shared m in
    Some match spawned with
    | inl error =>
      leave i (Err ("failed to start " +:+ what +:+ " worker: " +:+ error))
        (Machine.set_shared m (SharedState.set_phase shared SessionPhaseView.Failed))
    | inr _ =>
      Machine.go i (StartStore (length (Machine.threads m)))
        (Machine.set_threads m (Machine.threads m ++
           [Thread.mk (Worker.mk job config display_id shared None) false]))
    end
  | StartStore id => Some (leave i (Ok tt) (Machine.set_slot m (Some id)))
  | Done _ => None
  end.

(** A worker that is not finished gets on. *)
Definition step_worker (id : nat) (s : SharedState.t) (usb : U) (ended : option bool) m
  : option (Machine.t U W) :=
  thread ← Machine.threads m !! id;
  let w := Thread.worker thread in
  if Worker.is_finished w then None else
  let w := match ended with Some panicked => Worker.set_ended w panicked | None => w end in
  let usb := match Worker.job w with Job.Usb => usb | _ => Machine.usb m end in
  Some (Machine.set_threads (Machine.set_usb (Machine.set_shared m s) usb)
    (<[id := Thread.set_worker thread w]> (Machine.threads m))).

Definition step (e : Event.t U W) m : option (Machine.t U W) :=
  match e with
  | Event.Calls r => Some (Machine.set_calls m (Machine.calls m ++ [Call.mk r (enter r)]))
  | Event.Steps i => step_call i m
  | Event.Works id s usb ended => step_worker id s usb ended m
  end.

(** Any calls and any workers, in the order of the events. *)
Fixpoint interleave (es : list (Event.t U W)) m : option (Machine.t U W) :=
  match es with
  | [] => Some m
  | e :: es => m ← step e m; interleave es m
  end.

Lemma interleave_ind_r (P : Machine.t U W -> Prop) es m m' :
  P m -> (forall e m m', P m -> step e m = Some m' -> P m') -> interleave es m = Some m' -> P m'.
Proof.
  intros Hm Hstep. revert m Hm. induction es as [|e es IH]; intros m Hm Hrun; [by injection Hrun as <-|].
  cbn in Hrun. destruct (step e m) as [m1|] eqn:He; [|done]. eauto.
Qed.

(** ** Who owns a worker *)

(** The worker a call has in its hands, and whether it keeps the slot locked. *)
Definition claims (p : Place.t W) : option nat :=
  match p with
  | StopFlag _ id | StopJoin _ id | StartStore id => Some id
  | _ => None
  end.
Definition holds (p : Place.t W) : bool :=
  match p with
  | StartTether _ _ _ _ | StartUsb _ _ _ _ _ | StartReset _ _ _ _ _ _ | StartNegotiate _ _ _ _
  | StartSpawn _ _ _ _ _ | StartStore _ => true
  | _ => false
  end.

Definition at_place m (i : nat) (p : Place.t W) : Prop :=
  exists c, Machine.calls m !! i = Some c /\ Call.place c = p.
Definition at_work m (id : nat) : Prop :=
  exists t, Machine.threads m !! id = Some t /\ Worker.ended (Thread.worker t) = None.
Definition flagged m (id : nat) : Prop :=
  exists t, Machine.threads m !! id = Some t /\ Thread.cancel t = true.

(** The slot, or a call by its number. *)
Inductive Owner : Type :=
| Slot
| By (call : nat).

Definition owns m (o : Owner) (id : nat) : Prop :=
  match o with
  | Slot => Machine.slot m = Some id
  | By i => exists p, at_place m i p /\ claims p = Some id
  end.

(** A stop has the worker, and is going to join it. *)
Definition stopping m (id : nat) : Prop :=
  exists i disconnecting, at_place m i (StopFlag disconnecting id) \/ at_place m i (StopJoin disconnecting id).

Record orderly m : Prop := {
  one_owner o o' id : owns m o id -> owns m o' id -> o = o';
  known o id : owns m o id -> (id < length (Machine.threads m))%nat;
  owned id : at_work m id -> exists o, owns m o id;
  held i p : at_place m i p -> holds p = true -> Machine.holder m = Some i /\ Machine.slot m = None;
  holding i : Machine.holder m = Some i -> exists p, at_place m i p /\ holds p = true;
  joining i b id : at_place m i (StopJoin b id) -> flagged m id;
  flagged_stops id : flagged m id -> at_work m id -> exists i b, at_place m i (StopJoin b id);
}.

Lemma at_go m i p j q :
  at_place (Machine.go i p m) j q <->
  (j = i /\ q = p /\ is_Some (Machine.calls m !! i)) \/ (j <> i /\ at_place m j q).
Proof.
  unfold at_place, Machine.go. cbn. destruct (decide (j = i)) as [->|Hne].
  - rewrite list_lookup_alter_eq. split.
    + intros (c & Hc & Hp). apply fmap_Some in Hc as (c0 & Hc & ->). left. cbn in Hp. by rewrite Hc.
    + intros [(_ & -> & c & Hc)|[]]; [|done]. rewrite Hc. by eexists.
  - rewrite list_lookup_alter_ne by done. split; [by right|]. by intros [[]|[]].
Qed.

Lemma at_fun m i p q : at_place m i p -> at_place m i q -> p = q.
Proof. intros (c & Hc & <-) (c' & Hc' & <-). congruence. Qed.

Lemma orderly_eq m m' :
  Machine.slot m' = Machine.slot m -> Machine.holder m' = Machine.holder m ->
  Machine.threads m' = Machine.threads m -> Machine.calls m' = Machine.calls m -> orderly m -> orderly m'.
Proof.
  destruct m, m'. cbn. intros -> -> -> ->. intros [H1' H2' H3' H4' H5' H6' H7']. by split.
Qed.

(** Without effect on the owners. *)
Lemma orderly_go m i p q : orderly m -> at_place m i p ->
  claims q = claims p -> holds q = holds p -> (forall b id, p <> StopJoin b id) ->
  (forall b id, q = StopJoin b id -> flagged m id) -> orderly (Machine.go i q m).
Proof.
  intros Hm Hp Hc Hh Hpj Hqj.
  assert (Hback : forall j p', at_place (Machine.go i q m) j p' ->
    exists p0, at_place m j p0 /\ claims p' = claims p0 /\ holds p' = holds p0).
  { intros j p' [(-> & -> & _)|[Hne Hj]]%at_go; eauto. }
  assert (Hforth : forall j p', at_place m j p' ->
    exists p1, at_place (Machine.go i q m) j p1 /\ claims p1 = claims p' /\ holds p1 = holds p').
  { intros j p' Hj. destruct (decide (j = i)) as [->|Hne].
    - pose proof (at_fun _ _ _ _ Hp Hj) as <-. exists q. split; [|done]. apply at_go. left.
      destruct Hp as (c & Hcc & _). eauto.
    - exists p'. split; [|done]. apply at_go. by right. }
  assert (Howns : forall o id, owns (Machine.go i q m) o id <-> owns m o id).
  { intros [|j] id; [done|]. cbn. split.
    - intros (p' & Hj & Hcl). destruct (Hback _ _ Hj) as (p0 & K0 & Hc0 & _). exists p0. split; congruence.
    - intros (p' & Hj & Hcl). destruct (Hforth _ _ Hj) as (p0 & K0 & Hc0 & _). exists p0. split; congruence. }
  destruct Hm as [H1' H2' H3' H4' H5' H6' H7']. split.
  - intros o o' id Ho Ho'. apply Howns in Ho, Ho'. eauto.
  - intros o id Ho. apply Howns in Ho. eauto.
  - intros id Hw. destruct (H3' id Hw) as [o Ho]. exists o. by apply Howns.
  - intros j p' Hj Hhp. destruct (Hback _ _ Hj) as (p0 & K0 & _ & Hh0). apply (H4' j p0); congruence.
  - intros j Hj. destruct (H5' j Hj) as (p' & Hj' & Hhp). destruct (Hforth _ _ Hj') as (p1 & K1 & _ & Hh1).
    exists p1. split; congruence.
  - intros j b id [(-> & <- & _)|[Hne Hj]]%at_go; [by eapply Hqj|by eapply H6'].
  - intros id Hf Hw. destruct (H7' id Hf Hw) as (j & b & Hj). exists j, b. apply at_go. right.
    split; [|done]. intros ->. by destruct (Hpj b id (at_fun _ _ _ _ Hp Hj)).
Qed.

(** The worker in the slot goes to the stop that takes it. *)
Lemma orderly_take m i p b id : orderly m -> at_place m i p -> claims p = None -> holds p = false ->
  Machine.slot m = Some id ->
  orderly (Machine.go i (StopFlag b id) (Machine.set_slot m None)).
Proof.
  intros Hm Hp Hcp Hhp Hs.
  assert (Hi : is_Some (Machine.calls m !! i)) by (destruct Hp as (c & Hc & _); eauto).
  pose proof (one_owner _ Hm) as Hone.
  assert (Hat : forall j q, at_place (Machine.go i (StopFlag b id) (Machine.set_slot m None)) j q <->
    (j = i /\ q = StopFlag b id) \/ (j <> i /\ at_place m j q)).
  { intros j q. rewrite at_go. cbn. naive_solver. }
  assert (Hother : forall j q, j <> i -> at_place m j q -> claims q <> Some id).
  { intros j q Hne Hj Hq. by specialize (Hone Slot (By j) id Hs (ex_intro _ q (conj Hj Hq))). }
  split.
  - intros [|j] [|j'] id'; cbn; [done..|]. intros (q & Hj & Hq) (q' & Hj' & Hq').
    apply Hat in Hj, Hj'.
    destruct Hj as [[-> ->]|[Hne Hj]], Hj' as [[-> ->]|[Hne' Hj']]; [done| | |].
    + cbn in Hq. simplify_eq. by destruct (Hother _ _ Hne' Hj').
    + cbn in Hq'. simplify_eq. by destruct (Hother _ _ Hne Hj).
    + apply (Hone (By j) (By j') id'); eexists; eauto.
  - intros [|j] id'; cbn; [done|]. intros (q & Hj%Hat & Hq). destruct Hj as [[-> ->]|[Hne Hj]].
    + cbn in Hq. injection Hq as <-. by apply (known _ Hm Slot).
    + by apply (known _ Hm (By j)); eexists.
  - intros id' Hw. destruct (owned _ Hm id' Hw) as [[|j] Ho].
    + cbn in Ho. simplify_eq. exists (By i), (StopFlag b id). split; [apply Hat; by left|done].
    + destruct Ho as (q & Hj & Hq). destruct (decide (j = i)) as [->|Hne].
      * pose proof (at_fun _ _ _ _ Hp Hj). congruence.
      * exists (By j), q. split; [apply Hat; by right|done].
  - intros j q Hj%Hat Hq. destruct Hj as [[-> ->]|[Hne Hj]]; [done|].
    destruct (held _ Hm j q Hj Hq) as [_ E]. congruence.
  - intros j Hj. destruct (holding _ Hm j Hj) as (q & Hj' & Hq).
    destruct (held _ Hm j q Hj' Hq) as [_ E]. congruence.
  - intros j b' id' Hj%Hat. destruct Hj as [[-> ?]|[Hne Hj]]; [done|]. by eapply (joining _ Hm).
  - intros id' Hf Hw. destruct (flagged_stops _ Hm id' Hf Hw) as (j & b' & Hj). exists j, b'. apply Hat. right.
    split; [|done]. intros ->. by rewrite (at_fun _ _ _ _ Hp Hj) in Hcp.
Qed.

(** A worker taken out of the slot is asked to end. *)
Lemma orderly_flag i b id m : orderly m -> at_place m i (StopFlag b id) ->
  orderly (Machine.go i (StopJoin b id)
    (Machine.set_threads m (alter Thread.flag id (Machine.threads m)))).
Proof.
  intros Hm Hp. set (m1 := Machine.set_threads m _).
  assert (Hw : forall id', at_work m1 id' <-> at_work m id').
  { intros id'. unfold at_work. cbn. destruct (decide (id' = id)) as [->|Hne].
    - rewrite list_lookup_alter_eq. destruct (Machine.threads m !! id) as [t|]; [|done]. cbn.
      by split; intros (? & [= <-] & ?); eexists.
    - by rewrite list_lookup_alter_ne. }
  assert (Hf : forall id', flagged m1 id' <->
    flagged m id' \/ (id' = id /\ is_Some (Machine.threads m !! id))).
  { intros id'. unfold flagged. cbn. destruct (decide (id' = id)) as [->|Hne].
    - rewrite list_lookup_alter_eq. destruct (Machine.threads m !! id) as [t|].
      + cbn. split; [by right|]. intros _. by eexists.
      + split; [by intros (? & ? & _)|by intros [(? & ? & _)|[_ [? ?]]]].
    - rewrite list_lookup_alter_ne by done. naive_solver. }
  assert (Hlt : (id < length (Machine.threads m))%nat) by (apply (known _ Hm (By i)); by eexists).
  apply lookup_lt_is_Some in Hlt.
  assert (Hat : forall j q, at_place (Machine.go i (StopJoin b id) m1) j q <->
    (j = i /\ q = StopJoin b id) \/ (j <> i /\ at_place m j q)).
  { intros j q. rewrite at_go. destruct Hp as (c & Hc & _). naive_solver. }
  assert (Howns : forall o id', owns (Machine.go i (StopJoin b id) m1) o id' <-> owns m o id').
  { intros [|j] id'; [done|]. cbn. split.
    - intros (q & Hj & Hq). apply Hat in Hj as [[-> ->]|[_ Hj]]; [|by eexists]. by exists (StopFlag b id).
    - intros (q & Hj & Hq). destruct (decide (j = i)) as [->|Hne].
      + rewrite <- (at_fun _ _ _ _ Hp Hj) in Hq. exists (StopJoin b id). split; [apply Hat; by left|done].
      + exists q. split; [apply Hat; by right|done]. }
  split.
  - intros o o' id' Ho%Howns Ho'%Howns. by eapply (one_owner _ Hm).
  - intros o id' Ho%Howns. cbn. rewrite length_alter. by eapply (known _ Hm).
  - intros id' Hx%Hw. destruct (owned _ Hm _ Hx) as [o Ho]. exists o. by apply Howns.
  - intros j q Hj%Hat Hq. destruct Hj as [[-> ->]|[_ Hj]]; [done|]. by apply (held _ Hm j q).
  - intros j Hj. destruct (holding _ Hm j Hj) as (q & Hj' & Hq). exists q. split; [|done].
    apply Hat. right. split; [|done]. intros ->. by rewrite <- (at_fun _ _ _ _ Hp Hj') in Hq.
  - intros j b' id' Hj%Hat. apply Hf. destruct Hj as [[-> [= -> ->]]|[_ Hj]]; [by right|].
    left. by eapply (joining _ Hm).
  - intros id' Hx%Hf Hy%Hw. destruct Hx as [Hx|[-> _]]; [|by exists i, b; apply Hat; left].
    destruct (flagged_stops _ Hm id' Hx Hy) as (j & b' & Hj). exists j, b'. apply Hat. right.
    split; [|done]. intros ->. by pose proof (at_fun _ _ _ _ Hp Hj).
Qed.

(** A call lets go of a worker that has ended, of an empty slot or of nothing at all. *)
Lemma orderly_release i p q m : orderly m -> at_place m i p ->
  claims q = None -> holds q = false ->
  (forall id, claims p = Some id -> ~ at_work m id) ->
  orderly (Machine.go i q (if holds p then Machine.set_holder m None else m)).
Proof.
  intros Hm Hp Hq Hhq Hend. set (m1 := if holds p then _ else _).
  assert (Hm1 : Machine.slot m1 = Machine.slot m /\ Machine.threads m1 = Machine.threads m /\
    Machine.calls m1 = Machine.calls m /\ Machine.holder m1 = if holds p then None else Machine.holder m)
    by (unfold m1; by destruct (holds p)).
  destruct Hm1 as (Hslot & Hthreads & Hcalls & Hholder).
  assert (Hat : forall j q', at_place (Machine.go i q m1) j q' <->
    (j = i /\ q' = q) \/ (j <> i /\ at_place m j q')).
  { intros j q'. rewrite at_go. unfold at_place. rewrite Hcalls. destruct Hp as (c & Hc & _). naive_solver. }
  assert (Howns : forall o id', owns (Machine.go i q m1) o id' -> owns m o id').
  { intros [|j] id'; [cbn; by rewrite Hslot|]. cbn. intros (q' & Hj & Hq').
    apply Hat in Hj as [[-> ->]|[_ Hj]]; [congruence|by eexists]. }
  assert (Hw : forall id', at_work (Machine.go i q m1) id' <-> at_work m id')
    by (intros id'; unfold at_work; cbn; by rewrite Hthreads).
  assert (Hf : forall id', flagged (Machine.go i q m1) id' <-> flagged m id')
    by (intros id'; unfold flagged; cbn; by rewrite Hthreads).
  split.
  - intros o o' id' Ho%Howns Ho'%Howns. by eapply (one_owner _ Hm).
  - intros o id' Ho%Howns. cbn. rewrite Hthreads. by eapply (known _ Hm).
  - intros id' Hx%Hw. destruct (owned _ Hm _ Hx) as [[|j] Ho]; [exists Slot; cbn; by rewrite Hslot|].
    destruct Ho as (q' & Hj & Hq'). destruct (decide (j = i)) as [->|Hne].
    + rewrite <- (at_fun _ _ _ _ Hp Hj) in Hq'. by destruct (Hend _ Hq').
    + exists (By j), q'. split; [apply Hat; by right|done].
  - intros j q' Hj%Hat Hh. cbn. rewrite Hslot, Hholder. destruct Hj as [[-> ->]|[Hne Hj]]; [congruence|].
    destruct (held _ Hm j q' Hj Hh) as [Hhj Hs]. destruct (holds p) eqn:Hhp; [|done].
    destruct (held _ Hm i p Hp Hhp). congruence.
  - intros j. cbn. rewrite Hholder. destruct (holds p) eqn:Hhp; [done|]. intros Hj.
    destruct (holding _ Hm j Hj) as (q' & Hj' & Hh). exists q'. split; [|done].
    apply Hat. right. split; [|done]. intros ->. rewrite <- (at_fun _ _ _ _ Hp Hj') in Hh. congruence.
  - intros j b' id' Hj%Hat. apply Hf. destruct Hj as [[-> <-]|[_ Hj]]; [done|]. by eapply (joining _ Hm).
  - intros id' Hx%Hf Hy%Hw. destruct (flagged_stops _ Hm id' Hx Hy) as (j & b' & Hj). exists j, b'.
    apply Hat. right. split; [|done]. intros ->. pose proof (at_fun _ _ _ _ Hp Hj) as ->. by apply (Hend id').
Qed.

(** A slot is emptied of a worker that has ended. *)
Lemma orderly_empty m : orderly m -> (forall id, Machine.slot m = Some id -> ~ at_work m id) ->
  orderly (Machine.set_slot m None).
Proof.
  intros Hm Hend.
  assert (Howns : forall o id, owns (Machine.set_slot m None) o id -> owns m o id) by (by intros [|j] id).
  split.
  - intros o o' id Ho%Howns Ho'%Howns. by eapply (one_owner _ Hm).
  - intros o id Ho%Howns. by eapply (known _ Hm).
  - intros id Hx. destruct (owned _ Hm _ Hx) as [[|j] Ho]; [by destruct (Hend id Ho)|by exists (By j)].
  - intros j q Hj Hq. by destruct (held _ Hm j q Hj Hq).
  - apply (holding _ Hm).
  - apply (joining _ Hm).
  - apply (flagged_stops _ Hm).
Qed.

(** An empty slot is locked. *)
Lemma orderly_lock i p q m : orderly m -> at_place m i p ->
  Machine.holder m = None -> Machine.slot m = None ->
  claims p = None -> claims q = None -> holds q = true ->
  orderly (Machine.go i q (Machine.set_holder m (Some i))).
Proof.
  intros Hm Hp Hh Hs Hcp Hcq Hhq.
  assert (Hat : forall j q', at_place (Machine.go i q (Machine.set_holder m (Some i))) j q' <->
    (j = i /\ q' = q) \/ (j <> i /\ at_place m j q')).
  { intros j q'. rewrite at_go. destruct Hp as (c & Hc & _). naive_solver. }
  assert (Howns : forall o id', owns (Machine.go i q (Machine.set_holder m (Some i))) o id' -> owns m o id').
  { intros [|j] id'; [done|]. cbn. intros (q' & Hj & Hq').
    apply Hat in Hj as [[-> ->]|[_ Hj]]; [congruence|by eexists]. }
  split.
  - intros o o' id' Ho%Howns Ho'%Howns. by eapply (one_owner _ Hm).
  - intros o id' Ho%Howns. by eapply (known _ Hm).
  - intros id' Hx. destruct (owned _ Hm _ Hx) as [[|j] Ho]; [by exists Slot|].
    destruct Ho as (q' & Hj & Hq'). exists (By j), q'. split; [|done]. apply Hat. right. split; [|done].
    intros ->. rewrite <- (at_fun _ _ _ _ Hp Hj) in Hq'. congruence.
  - intros j q' Hj%Hat Hq'. destruct Hj as [[-> ->]|[Hne Hj]]; [done|].
    destruct (held _ Hm j q' Hj Hq'). congruence.
  - intros j [= <-]. exists q. split; [apply Hat; by left|done].
  - intros j b' id' Hj%Hat. destruct Hj as [[-> <-]|[_ Hj]]; [done|]. by eapply (joining _ Hm).
  - intros id' Hx Hy. destruct (flagged_stops _ Hm id' Hx Hy) as (j & b' & Hj). exists j, b'.
    apply Hat. right. split; [|done]. intros ->. by rewrite (at_fun _ _ _ _ Hp Hj) in Hcp.
Qed.

(** A new thread is in the hands of the start that made it. *)
Lemma orderly_spawn i p w m : orderly m -> at_place m i p -> claims p = None -> holds p = true ->
  Worker.ended w = None ->
  orderly (Machine.go i (StartStore (length (Machine.threads m)))
    (Machine.set_threads m (Machine.threads m ++ [Thread.mk w false]))).
Proof.
  intros Hm Hp Hcp Hhp Hw. set (m1 := Machine.set_threads m _).
  assert (Hat : forall j q, at_place (Machine.go i (StartStore (length (Machine.threads m))) m1) j q <->
    (j = i /\ q = StartStore (length (Machine.threads m))) \/ (j <> i /\ at_place m j q)).
  { intros j q. rewrite at_go. destruct Hp as (c & Hc & _). naive_solver. }
  assert (Hwork : forall id, at_work m1 id -> at_work m id \/ id = length (Machine.threads m)).
  { intros id (t & Ht & He). cbn in Ht. apply lookup_snoc_Some in Ht as [[_ Ht]|[-> _]]; [left; by exists t|by right]. }
  assert (Hflag : forall id, flagged m1 id -> flagged m id).
  { intros id (t & Ht & He). cbn in Ht. apply lookup_snoc_Some in Ht as [[_ Ht]|[-> <-]]; [by exists t|done]. }
  assert (Hold : forall id, (id < length (Machine.threads m))%nat ->
    Machine.threads m1 !! id = Machine.threads m !! id) by (intros id Hid; cbn; by rewrite lookup_app_l).
  assert (Howns : forall o id, owns (Machine.go i (StartStore (length (Machine.threads m))) m1) o id ->
    owns m o id /\ (id < length (Machine.threads m))%nat \/ (o = By i /\ id = length (Machine.threads m))).
  { intros [|j] id; cbn.
    - intros Hs. left. split; [done|]. by apply (known _ Hm Slot).
    - intros (q & Hj & Hq). apply Hat in Hj as [[-> ->]|[_ Hj]].
      + cbn in Hq. right. naive_solver.
      + left. split; [by eexists|]. apply (known _ Hm (By j)). by eexists. }
  split.
  - intros o o' id Ho%Howns Ho'%Howns. destruct Ho as [[Ho Hlt]|[-> ->]], Ho' as [[Ho' Hlt']|[-> E]].
    + by eapply (one_owner _ Hm).
    + lia.
    + lia.
    + done.
  - intros o id Ho%Howns. cbn. rewrite length_app. cbn. destruct Ho as [[_ ?]|[_ ->]]; lia.
  - intros id Hx. destruct (Hwork id Hx) as [Hy|Hy].
    + destruct (owned _ Hm _ Hy) as [[|j] Ho]; [by exists Slot|].
      destruct Ho as (q & Hj & Hq). exists (By j), q. split; [|done]. apply Hat. right. split; [|done].
      intros ->. rewrite <- (at_fun _ _ _ _ Hp Hj) in Hq. congruence.
    + exists (By i). eexists. split; [apply Hat; by left|]. by rewrite Hy.
  - intros j q Hj%Hat Hq. destruct Hj as [[-> ->]|[Hne Hj]]; [by apply (held _ Hm i p)|by apply (held _ Hm j q)].
  - intros j Hj. destruct (holding _ Hm j Hj) as (q & Hj' & Hq).
    destruct (held _ Hm i p Hp Hhp) as [Hi _]. change (Machine.holder m = Some j) in Hj. simplify_eq.
    eexists. split; [apply Hat; by left|done].
  - intros j b id Hj%Hat. destruct Hj as [[-> ?]|[Hne Hj]]; [done|].
    destruct (joining _ Hm j b id Hj) as (t & Ht & Hc). exists t. split; [|done]. cbn. by apply lookup_app_l_Some.
  - intros id Hx%Hflag Hy. destruct (Hwork id Hy) as [Hz|Hz].
    + destruct (flagged_stops _ Hm id Hx Hz) as (j & b & Hj). exists j, b. apply Hat. right.
      split; [|done]. intros ->. by rewrite (at_fun _ _ _ _ Hp Hj) in Hhp.
    + destruct Hx as (t & Ht & _). apply lookup_lt_Some in Ht. lia.
Qed.

(** The start puts it into the slot. *)
Lemma orderly_store i id r m : orderly m -> at_place m i (StartStore id) ->
  orderly (leave i r (Machine.set_slot m (Some id))).
Proof.
  intros Hm Hp. unfold leave. set (m1 := Machine.set_holder _ _).
  assert (Hat : forall j q, at_place (Machine.go i (Done r) m1) j q <->
    (j = i /\ q = Done r) \/ (j <> i /\ at_place m j q)).
  { intros j q. rewrite at_go. destruct Hp as (c & Hc & _). naive_solver. }
  destruct (held _ Hm i _ Hp eq_refl) as [Hhi Hsi].
  assert (Hmine : owns m (By i) id) by (by eexists).
  assert (Howns : forall o id', owns (Machine.go i (Done r) m1) o id' ->
    (o = Slot /\ id' = id) \/ (o <> By i /\ o <> Slot /\ owns m o id')).
  { intros [|j] id'; cbn; [intros [= <-]; by left|]. intros (q & Hj & Hq).
    apply Hat in Hj as [[-> ->]|[Hne Hj]]; [done|]. right. split; [congruence|]. split; [done|]. by eexists. }
  split.
  - intros o o' id' Ho%Howns Ho'%Howns. destruct Ho as [[-> ->]|(Hne & Hns & Ho)], Ho' as [[-> E]|(Hne' & Hns' & Ho')].
    + done.
    + by destruct Hne'; apply (one_owner _ Hm _ _ id).
    + subst. by destruct Hne; apply (one_owner _ Hm _ _ id).
    + by eapply (one_owner _ Hm).
  - intros o id' Ho%Howns. destruct Ho as [[-> ->]|(_ & _ & Ho)]; by eapply (known _ Hm).
  - intros id' Hx. destruct (owned _ Hm _ Hx) as [[|j] Ho]; [cbn in Ho; congruence|].
    destruct Ho as (q & Hj & Hq). destruct (decide (j = i)) as [->|Hne].
    + rewrite <- (at_fun _ _ _ _ Hp Hj) in Hq. injection Hq as <-. by exists Slot.
    + exists (By j), q. split; [apply Hat; by right|done].
  - intros j q Hj%Hat Hq. destruct Hj as [[-> ->]|[Hne Hj]]; [done|].
    destruct (held _ Hm j q Hj Hq) as [Hhj _]. congruence.
  - done.
  - intros j b id' Hj%Hat. destruct Hj as [[-> ?]|[Hne Hj]]; [done|]. by eapply (joining _ Hm).
  - intros id' Hx Hy. destruct (flagged_stops _ Hm id' Hx Hy) as (j & b & Hj). exists j, b. apply Hat. right.
    split; [|done]. intros ->. by pose proof (at_fun _ _ _ _ Hp Hj).
Qed.

Lemma ended_work m id : (exists t, Machine.threads m !! id = Some t) -> Machine.ended m id = None <-> at_work m id.
Proof.
  intros [t Ht]. unfold Machine.ended, at_work. rewrite Ht. cbn. split; [by eexists|].
  intros (t' & E & He). congruence.
Qed.
Lemma ended_not_work m id b : Machine.ended m id = Some b -> ~ at_work m id.
Proof. unfold Machine.ended, at_work. intros He (t & Ht & Hn). rewrite Ht in He. cbn in He. congruence. Qed.

(** A call moves on without touching owners, whatever else changes. *)
Lemma orderly_pass i p q m m' : orderly m -> at_place m i p ->
  Machine.slot m' = Machine.slot m -> Machine.holder m' = Machine.holder m ->
  Machine.threads m' = Machine.threads m -> Machine.calls m' = Machine.calls m ->
  claims p = None -> claims q = None -> holds q = holds p -> orderly (Machine.go i q m').
Proof.
  intros Hm Hp E1 E2 E3 E4 Hcp Hcq Hh.
  apply (orderly_go m' i p q); [by apply (orderly_eq m)| |congruence|done| |].
  - unfold at_place. by rewrite E4.
  - by intros b id ->.
  - by intros b id ->.
Qed.

(** A failed start lets go of the lock. *)
Lemma orderly_leave i p r m m' : orderly m -> at_place m i p -> claims p = None -> holds p = true ->
  Machine.slot m' = Machine.slot m -> Machine.holder m' = Machine.holder m ->
  Machine.threads m' = Machine.threads m -> Machine.calls m' = Machine.calls m -> orderly (leave i r m').
Proof.
  intros Hm Hp Hcp Hhp E1 E2 E3 E4.
  pose proof (orderly_release i p (Done r) m' ltac:(by apply (orderly_eq m))) as Hr.
  rewrite Hhp in Hr. apply Hr; [by unfold at_place; rewrite E4|done..|congruence].
Qed.

Lemma orderly_go_on {A} i p (r : outcome string A) place m m' : orderly m -> at_place m i p ->
  Machine.slot m' = Machine.slot m -> Machine.holder m' = Machine.holder m ->
  Machine.threads m' = Machine.threads m -> Machine.calls m' = Machine.calls m ->
  claims p = None -> holds p = false -> (forall a, claims (place a) = None /\ holds (place a) = false) ->
  orderly (go_on i r place m').
Proof.
  intros Hm Hp E1 E2 E3 E4 Hcp Hhp Hq.
  destruct r as [a|e|f]; cbn; eapply orderly_pass; eauto; try congruence; try apply Hq.
  rewrite Hhp. apply Hq.
Qed.

#[local] Ltac passes := by eapply orderly_pass.

Lemma step_call_orderly i m m' : orderly m -> step_call i m = Some m' -> orderly m'.
Proof.
  intros Hm. unfold step_call. destruct (Machine.calls m !! i) as [[r p]|] eqn:Hc; [|done]. cbn.
  assert (Hp : at_place m i p) by (by eexists).
  pose proof (fun q Hq Hh => orderly_release i p q m Hm Hp Hq Hh) as Hrel.
  destruct p as [|b|b id|b id|b| | | |d q w|d q w|d q w|d q w|c| |s c d n|s c d n|s c d n l|s c d n l u|s c d n|s w j c d|id|a];
    cbn in Hrel.
  - destruct (prepare _) as [usb rep]. intros [= <-]. passes.
  - case_bool_decide as Hh; [|done]. intros [= <-]. destruct (Machine.slot m) as [id|] eqn:Hs; [|passes].
    by eapply orderly_take.
  - intros [= <-]. by apply orderly_flag.
  - destruct (Machine.ended m id) as [[]|] eqn:He; [| |done]; intros [= <-]; apply Hrel; try done;
      intros id' [= <-]; by eapply ended_not_work.
  - intros [= <-]. destruct b; passes.
  - intros [= <-]. case_match; passes.
  - intros [= <-]. passes.
  - destruct (disconnect _) as [usb rep]. intros [= <-]. by eapply orderly_go_on.
  - case_bool_decide as Hh; [|done]. intros [= <-]. destruct (Machine.slot m); [case_bool_decide|]; passes.
  - destruct (disconnect _) as [usb rep]. intros [= <-]. by eapply orderly_go_on.
  - intros [= <-]. passes.
  - destruct (pair_tether_connection _ _ _ _) as [w' rep]. intros [= <-]. by eapply orderly_go_on.
  - intros [= <-]. passes.
  - intros [= <-]. passes.
  - case_bool_decide as Hh; [|done]. intros [= <-].
    assert (Hempty : (forall id, Machine.slot m = Some id -> ~ at_work m id) ->
      orderly (Machine.set_slot m None)) by by apply orderly_empty.
    assert (Hat : at_place (Machine.set_slot m None) i (StartLock s c d n)) by done.
    destruct (Machine.slot m) as [id|] eqn:Hs.
    + destruct (Machine.ended m id) as [[]|] eqn:He; [| |passes].
      all: specialize (Hempty ltac:(intros id' [= <-]; by eapply ended_not_work)).
      * by eapply orderly_pass.
      * by eapply orderly_lock.
    + specialize (Hempty ltac:(done)). by eapply orderly_lock.
  - intros [= <-]. passes.
  - intros [= <-]. passes.
  - intros [= <-]. destruct l as [l|]; [case_bool_decide; [by eapply orderly_leave|passes]|].
    destruct u; passes.
  - intros [= <-]. destruct (negotiated_session c); [passes|by eapply orderly_leave..].
  - intros [= <-]. destruct s; [by eapply orderly_leave|by eapply orderly_spawn].
  - intros [= <-]. by apply orderly_store.
  - done.
Qed.

Lemma step_worker_orderly id s usb e m m' : orderly m -> step_worker id s usb e m = Some m' -> orderly m'.
Proof.
  intros Hm. unfold step_worker. destruct (Machine.threads m !! id) as [t|] eqn:Ht; [|done]. cbn.
  destruct (Worker.is_finished (Thread.worker t)) eqn:Hfin; [done|]. intros [= <-].
  set (w := match e with Some _ => _ | None => _ end). set (m' := Machine.set_threads _ _).
  assert (Hlt : (id < length (Machine.threads m))%nat) by by eapply lookup_lt_Some.
  assert (He : Worker.ended (Thread.worker t) = None).
  { unfold Worker.is_finished in Hfin. apply bool_decide_eq_false in Hfin. by apply eq_None_not_Some. }
  assert (Hw : forall id', at_work m' id' -> at_work m id').
  { intros id' (t' & Ht' & He'). cbn in Ht'.
    apply list_lookup_insert_Some in Ht' as [(-> & _ & _)|[_ Ht']]; by eexists. }
  assert (Hf : forall id', flagged m' id' <-> flagged m id').
  { intros id'. unfold flagged. cbn. destruct (decide (id = id')) as [<-|Hne].
    - rewrite list_lookup_insert_eq, Ht by done. by split; intros (? & [= <-] & ?); eexists.
    - by rewrite list_lookup_insert_ne. }
  split.
  - apply (one_owner _ Hm).
  - intros o id' Ho. cbn. rewrite length_insert. by apply (known _ Hm o).
  - intros id' Hx. by apply (owned _ Hm), Hw.
  - apply (held _ Hm).
  - apply (holding _ Hm).
  - intros j b id' Hj. by apply Hf, (joining _ Hm j b).
  - intros id' Hx Hy. by apply (flagged_stops _ Hm); [apply Hf|apply Hw].
Qed.

(** A call begins without anything in its hands. *)
Lemma enter_clean r : claims (enter r) = None /\ holds (enter r) = false.
Proof. destruct r; cbn; repeat case_match; done. Qed.

Lemma calls_orderly r m : orderly m -> orderly (Machine.set_calls m (Machine.calls m ++ [Call.mk r (enter r)])).
Proof.
  intros Hm. destruct (enter_clean r) as [Hc Hh]. set (m' := Machine.set_calls _ _).
  assert (Hold : forall j p, at_place m j p -> at_place m' j p).
  { intros j p (c & Hj & Hp). exists c. split; [|done]. cbn. by apply lookup_app_l_Some. }
  assert (Hat : forall j p, at_place m' j p -> at_place m j p \/ p = enter r).
  { intros j p (c & Hj & Hp). cbn in Hj. apply lookup_snoc_Some in Hj as [[_ Hj]|[_ <-]]; [left; by exists c|by right]. }
  assert (Howns : forall o id, owns m' o id -> owns m o id).
  { intros [|j] id; [done|]. intros (p & Hj & Hp). destruct (Hat _ _ Hj) as [Hj'| ->]; [by exists p|congruence]. }
  split.
  - intros o o' id Ho%Howns Ho'%Howns. by eapply (one_owner _ Hm).
  - intros o id Ho%Howns. by eapply (known _ Hm).
  - intros id Hx. destruct (owned _ Hm _ Hx) as [[|j] Ho]; [by exists Slot|].
    destruct Ho as (p & Hj & Hp). exists (By j), p. auto.
  - intros j p Hj Hp. destruct (Hat _ _ Hj) as [Hj'| ->]; [by apply (held _ Hm j p)|congruence].
  - intros j Hj. destruct (holding _ Hm j Hj) as (p & Hj' & Hp). exists p. auto.
  - intros j b id Hj. destruct (Hat _ _ Hj) as [Hj'|E]; [by eapply (joining _ Hm)|].
    rewrite <- E in Hc. done.
  - intros id Hx Hy. destruct (flagged_stops _ Hm id Hx Hy) as (j & b & Hj). eauto.
Qed.

Lemma step_orderly e m m' : orderly m -> step e m = Some m' -> orderly m'.
Proof.
  destruct e as [r|i|id s usb ended]; cbn; intros Hm.
  - intros [= <-]. by apply calls_orderly.
  - by apply step_call_orderly.
  - by apply step_worker_orderly.
Qed.

Lemma new_orderly usb : orderly (Machine.new usb).
Proof.
  assert (Hat : forall j p, ~ at_place (Machine.new (W:=W) usb) j p) by (by intros j p (c & Hj & _)).
  assert (Howns : forall o id, ~ owns (Machine.new (W:=W) usb) o id)
    by (intros [|j] id; [done|]; intros (p & Hj & _); by eapply Hat).
  split; try done.
  - intros o o' id Ho. by destruct (Howns o id).
  - intros o id Ho. by destruct (Howns o id).
  - by intros id (t & Ht & _).
  - intros i p Hp. by destruct (Hat i p).
  - intros i b id Hp. by destruct (Hat _ _ Hp).
  - by intros id (t & Ht & _).
Qed.

Lemma interleave_orderly usb es m : interleave es (Machine.new usb) = Some m -> orderly m.
Proof. apply interleave_ind_r; [apply new_orderly|]. intros e m1 m2. apply step_orderly. Qed.

(** ** A command ends *)

(** The steps a call can still do. *)
Definition steps_left (p : Place.t W) : nat :=
  match p with
  | PrepareUsb => 1
  | StopTake b => if b then 6 else 4
  | StopFlag b _ => if b then 5 else 3
  | StopJoin b _ => if b then 4 else 2
  | StopClose b => if b then 3 else 1
  | DisconnectTest => 7
  | DisconnectForget => 2
  | DisconnectUsb => 1
  | PairTest _ _ _ => 6
  | PairUsb _ _ _ => 5
  | PairForget _ _ _ => 4
  | PairDial _ _ _ => 3
  | PairKeep _ => 2
  | PairReset => 1
  | StartLock _ _ _ _ => 7
  | StartTether _ _ _ _ => 6
  | StartUsb _ _ _ _ _ => 5
  | StartReset _ _ _ _ _ _ => 4
  | StartNegotiate _ _ _ _ => 3
  | StartSpawn _ _ _ _ _ => 2
  | StartStore _ => 1
  | Done _ => 0
  end.

Definition progress m i : nat :=
  match Machine.calls m !! i with Some c => steps_left (Call.place c) | None => 7 end.

Lemma progress_go m i p j : progress (Machine.go i p m) j =
  if bool_decide (j = i) then match Machine.calls m !! i with Some _ => steps_left p | None => 7%nat end
  else progress m j.
Proof.
  unfold progress, Machine.go. cbn. case_bool_decide as E.
  - subst. rewrite list_lookup_alter_eq. by destruct (Machine.calls m !! i).
  - by rewrite list_lookup_alter_ne.
Qed.

Lemma step_call_progress i m m' j : step_call i m = Some m' ->
  if bool_decide (j = i) then (progress m' i < progress m i)%nat else progress m' j = progress m j.
Proof.
  unfold step_call. destruct (Machine.calls m !! i) as [[r p]|] eqn:Hc; [|done]. cbn.
  intros Hs.
  enough (exists p' m1, m' = Machine.go i p' m1 /\ Machine.calls m1 = Machine.calls m /\
    (steps_left p' < steps_left p)%nat) as (p' & m1 & -> & Hm1 & Hlt).
  { clear Hs. rewrite !progress_go, Hm1, Hc. rewrite (bool_decide_eq_true_2 (i = i)) by done.
    case_bool_decide; unfold progress; [rewrite Hc; exact Hlt|by rewrite Hm1]. }
  unfold leave, go_on in Hs.
  destruct p; try discriminate Hs; repeat (case_match; try discriminate Hs); injection Hs as <-;
    (eexists _, _; split; [reflexivity|split; [reflexivity|]]); cbn;
    repeat match goal with |- context [if ?b then _ else _] => destruct b end; lia.
Qed.

Lemma enter_steps r : (steps_left (enter r) <= 7)%nat.
Proof. destruct r; cbn; repeat case_match; cbn; lia. Qed.

(** The steps of call [i] among some events. *)
Fixpoint steps_of (i : nat) (es : list (Event.t U W)) : nat :=
  match es with
  | [] => 0
  | Event.Steps j :: es => if bool_decide (j = i) then S (steps_of i es) else steps_of i es
  | _ :: es => steps_of i es
  end.

Lemma steps_bounded i es m m' : interleave es m = Some m' ->
  (steps_of i es + progress m' i <= progress m i)%nat.
Proof.
  revert m. induction es as [|e es IH]; intros m; [intros [= <-]; cbn; lia|]. cbn.
  destruct (step e m) as [m1|] eqn:He; [|done]. cbn. intros Hrun.
  assert (Hm1 : match e with
    | Event.Steps j => if bool_decide (j = i) then (progress m1 i < progress m i)%nat else progress m1 i = progress m i
    | _ => (progress m1 i <= progress m i)%nat end).
  { destruct e as [r|j|id s usb x]; cbn in He.
    - injection He as <-. pose proof (enter_steps r). unfold progress in *. cbn.
      destruct (Machine.calls m !! i) as [c|] eqn:Hi; [by erewrite lookup_app_l_Some|].
      destruct ((Machine.calls m ++ [Call.mk r (enter r)]) !! i) as [c|] eqn:Hi'; [|lia].
      apply lookup_snoc_Some in Hi' as [[_ ?]|[_ <-]]; [congruence|]. cbn. lia.
    - pose proof (step_call_progress j m m1 i He) as Hp. revert Hp. rewrite (bool_decide_ext (i = j) (j = i)) by done.
      case_bool_decide; [subst|]; lia.
    - unfold step_worker in He. destruct (Machine.threads m !! id) as [t|]; [|done]. cbn in He.
      destruct (Worker.is_finished _); [done|]. injection He as <-. unfold progress in *. cbn. lia. }
  specialize (IH m1 Hrun).
  destruct e as [r|j|id s usb x]; [lia| |lia]. revert Hm1. case_bool_decide; lia.
Qed.

(** ** No call waits for ever *)
Lemma holder_steps m i p : at_place m i p -> holds p = true -> is_Some (step_call i m).
Proof.
  intros (c & Hc & Hp) Hh. unfold step_call. rewrite Hc. cbn. rewrite Hp.
  by destruct p; cbn in Hh |- *; repeat case_match.
Qed.

Lemma go_on_some {A} i (r : outcome string A) place m : is_Some (Some (go_on i r place m)).
Proof. done. Qed.

(** Who may make a call wait, and for what. *)
Definition waits_well m (i : nat) : Prop :=
  (exists answer, at_place m i (Done answer)) \/
  is_Some (step (Event.Steps i) m) \/
  (exists j, j <> i /\ Machine.holder m = Some j /\ is_Some (step (Event.Steps j) m)) \/
  (exists id b, at_place m i (StopJoin b id) /\ at_work m id /\ flagged m id).

Lemma calls_wait_well m i c : orderly m -> Machine.calls m !! i = Some c -> waits_well m i.
Proof.
  intros Hm Hc. unfold waits_well, step.
  assert (Hp : at_place m i (Call.place c)) by (by eexists).
  destruct (decide (holds (Call.place c) = true)) as [Hh|Hh]; [right; left; by eapply holder_steps|].
  assert (Hlock : Machine.holder m = None \/
    exists j, j <> i /\ Machine.holder m = Some j /\ is_Some (step_call j m)).
  { destruct (Machine.holder m) as [j|] eqn:Hj; [right|by left].
    destruct (holding _ Hm j Hj) as (q & Hq & Hhq). exists j. split_and!; [|done|by eapply holder_steps].
    intros ->. by rewrite (at_fun _ _ _ _ Hp Hq) in Hh. }
  destruct Hlock as [Hfree|Hbusy]; [|by right; right; left].
  destruct (Call.place c) as [|b|b id|b id|b| | | |d q w|d q w|d q w|d q w|l| |s f d n|s f d n|s f d n l|s f d n l u|s f d n|s w j f d|id|a] eqn:E;
    try (by right; left; unfold step_call; rewrite Hc; cbn; rewrite E, ?Hfree; cbn; repeat case_match).
  - destruct (Machine.ended m id) as [x|] eqn:He.
    + right; left. unfold step_call. rewrite Hc. cbn. rewrite E, He. by destruct x.
    + right; right; right. exists id, b. pose proof (joining _ Hm i b id Hp) as Hf. split_and!; [done| |done].
      apply ended_work; [|done]. destruct Hf as (t & Ht & _). by exists t.
  - left. by exists a.
Qed.

(** C24: whatever calls are made of the runtime, by any number of threads and with their steps and the
    workers' in any order, every worker at work has exactly one owner that can still end it - the
    slot, the start that is about to store it, or the stop that took it; two workers are at work at
    once only while a stop is ending one of them; a worker is flagged by a stop only, and that stop is
    waiting for it; a call does at most seven steps; and a call that has not returned can go on, or
    waits for a start that can go on, or waits for a worker it has flagged and that is still at work:
    no two commands wait for each other. *)
Theorem workers_have_one_owner (usb : U) es m (Hrun : interleave es (Machine.new usb) = Some m) :
  (forall id, at_work m id -> exists o, owns m o id /\ forall o', owns m o' id -> o' = o) /\
  (forall id id', at_work m id -> at_work m id' -> id <> id' -> stopping m id \/ stopping m id') /\
  (forall id, at_work m id -> flagged m id -> exists i b, at_place m i (StopJoin b id)) /\
  (forall i, (steps_of i es <= 7)%nat) /\
  (forall i c, Machine.calls m !! i = Some c -> waits_well m i).
Proof.
  pose proof (interleave_orderly usb es m Hrun) as Hm. split_and!.
  - intros id Hw. destruct (owned _ Hm id Hw) as [o Ho]. exists o. split; [done|].
    intros o' Ho'. by apply (one_owner _ Hm o' o id).
  - intros id id' Hw Hw' Hne.
    assert (Hcases : forall x, at_work m x -> stopping m x \/ Machine.slot m = Some x \/
      (Machine.slot m = None /\ exists j, Machine.holder m = Some j /\ at_place m j (StartStore x))).
    { intros x Hx. destruct (owned _ Hm x Hx) as [[|j] Ho]; [by right; left|].
      destruct Ho as (p & Hp & Hc). destruct p; try done; injection Hc as ->.
      - left. exists j, disconnecting. by left.
      - left. exists j, disconnecting. by right.
      - right; right. destruct (held _ Hm j _ Hp eq_refl). eauto. }
    destruct (Hcases id Hw) as [?|Hid]; [by left|]. destruct (Hcases id' Hw') as [?|Hid']; [by right|].
    exfalso. destruct Hid as [Hs|(Hs & j & Hj & Hp)], Hid' as [Hs'|(Hs' & j' & Hj' & Hp')]; simplify_eq.
    pose proof (at_fun _ _ _ _ Hp Hp'). congruence.
  - intros id Hw Hf. by apply (flagged_stops _ Hm).
  - intros i. pose proof (steps_bounded i es (Machine.new usb) m Hrun) as Hle. change (progress (Machine.new usb) i) with 7%nat in Hle. lia.
  - intros i c. by apply calls_wait_well.
Qed.
End Steps.

(** ** A command with no other command in between *)
Section Solo.
Context {U V C W : Type} `{AccessoryManager U} `{NativePlatform V C} `{Network W}.
Variable hmac : list byte -> list byte -> list byte.
Implicit Types (m : Machine.t U W) (o : Observed.t U).

(** The runtime as [HostRuntime] has it: the slot holds the worker itself. *)
Definition seen_as m : DesktopRuntime.t U :=
  DesktopRuntime.mk (Machine.shared m)
    (id ← Machine.slot m; Thread.worker <$> Machine.threads m !! id) (Machine.usb m) (Machine.tether m).

(** Worker [id] has observed [o] by now. *)
Definition work o (id : nat) m : Machine.t U W :=
  match Machine.threads m !! id with
  | Some t =>
    let (s, r) := run_job (V:=V) (C:=C) (Thread.worker t) o in
    let ended := match r with
      | Fault OutOfFuel => None | Fault Panicked => Some true | _ => Some false end in
    default m (step_worker id s (Observed.manager o) ended m)
  | None => m
  end.

(** At most [n] steps of call [i], the worker it waits for observing [o]. *)
Fixpoint solo (n i : nat) o m : Machine.t U W :=
  match n with
  | O => m
  | S n =>
    match step_call hmac i m with
    | Some m => solo n i o m
    | None =>
      match Call.place <$> Machine.calls m !! i with
      | Some (Place.StopJoin _ id) => default (work o id m) (step_call hmac i (work o id m) ≫= Some ∘ solo n i o)
      | _ => m
      end
    end
  end.

Definition begin (r : Request.t W) m : Machine.t U W :=
  Machine.set_calls m (Machine.calls m ++ [Call.mk r (enter r)]).

(** The command run through at once. *)
Definition at_once (r : Request.t W) o (out : Outside.t) (self : DesktopRuntime.t U) : DesktopRuntime.t U :=
  match r with
  | Request.Prepare => fst (prepare_android_usb self)
  | Request.Pair draws request world => fst (fst (pair_android_tether hmac draws request world self))
  | Request.Start spawned config display_id now =>
    fst (start spawned config display_id
      (Outside.mk (Outside.collected out) now (Outside.app_version out) (Outside.os out) (Outside.arch out)) self)
  | Request.Stop => fst (stop (V:=V) (C:=C) o out self)
  | Request.Disconnect => fst (disconnect_android_usb (V:=V) (C:=C) o out self)
  end.

Lemma go_snoc shared slot holder (usb : U) tether threads cs (r : Request.t W) p q :
  Machine.go (length cs) q (Machine.mk shared slot holder usb tether threads (cs ++ [Call.mk r p])) =
  Machine.mk shared slot holder usb tether threads (cs ++ [Call.mk r q]).
Proof.
  unfold Machine.go, Machine.set_calls. cbn. f_equal. rewrite alter_app_r_alt by lia.
  by rewrite Nat.sub_diag.
Qed.
Lemma lookup_snoc_last (cs : list (Call.t W)) c : (cs ++ [c]) !! length cs = Some c.
Proof. by rewrite lookup_app_r, Nat.sub_diag. Qed.


Lemma solo_next n i o m m' : step_call hmac i m = Some m' -> solo (S n) i o m = solo n i o m'.
Proof. intros E. cbn. by rewrite E. Qed.
Lemma solo_over n i o m c a : Machine.calls m !! i = Some c -> Call.place c = Place.Done a -> solo n i o m = m.
Proof. intros Hc Hp. destruct n; [done|]. cbn. unfold step_call. rewrite Hc. cbn. by rewrite Hp. Qed.

#[local] Ltac fields := cbn [mbind option_bind Call.place Machine.calls Machine.holder Machine.slot Machine.usb
  Machine.tether Machine.threads Machine.shared].
#[local] Ltac next := erewrite solo_next by
  (unfold step_call; fields; rewrite lookup_snoc_last; fields; rewrite ?bool_decide_eq_true_2 by done;
   unfold leave, go_on, Machine.set_shared, Machine.set_slot, Machine.set_usb, Machine.set_tether,
     Machine.set_threads, Machine.set_holder;
   unfold Machine.ended; fields;
   repeat match goal with E : ?x = _ |- context [?x] => rewrite E; fields end;
   rewrite ?go_snoc; reflexivity).
#[local] Ltac over := erewrite solo_over; [|cbn; rewrite lookup_snoc_last; reflexivity|reflexivity].

(** A worker in no one's hands but this stop's. *)
Lemma solo_joins b n shared id (usb : U) tether threads cs (r : Request.t W) o t :
  threads !! id = Some t ->
  let w := Thread.worker t in
  let joined := join (V:=V) (C:=C) o (DesktopRuntime.mk shared (Some w) usb tether) in
  exists threads',
  solo (S n) (length cs) o
    (Machine.mk shared None None usb tether threads (cs ++ [Call.mk r (Place.StopJoin b id)])) =
  let m p := Machine.mk (DesktopRuntime.shared (fst joined)) None None
    (DesktopRuntime.usb_accessory (fst joined)) tether threads' (cs ++ [Call.mk r p]) in
  match snd joined with
  | Ok true => solo n (length cs) o (m (Place.Done (Err "the loopback worker panicked while stopping")))
  | Ok false => solo n (length cs) o (m (Place.StopClose b))
  | _ => m (Place.StopJoin b id)
  end.
Proof.
  intros Ht w joined. set (m0 := Machine.mk _ _ _ _ _ _ _).
  assert (Hstep : forall (s : SharedState.t) (u : U) (th : list Thread.t), step_call hmac (length cs) (Machine.mk s None None u tether th (cs ++ [Call.mk r (Place.StopJoin b id)])) =
    match (t ← th !! id; Worker.ended (Thread.worker t)) with
    | Some true => Some (Machine.mk s None None u tether th
        (cs ++ [Call.mk r (Place.Done (Err "the loopback worker panicked while stopping"))]))
    | Some false => Some (Machine.mk s None None u tether th (cs ++ [Call.mk r (Place.StopClose b)]))
    | None => None
    end).
  { intros s u th. unfold step_call. cbn [Machine.calls]. rewrite lookup_snoc_last.
    cbn [mbind option_bind Call.place]. rewrite !go_snoc. done. }
  subst m0. cbn [solo]. rewrite Hstep, Ht. cbn [mbind option_bind].
  subst joined. unfold join, observe. cbn [DesktopRuntime.worker]. unfold Worker.is_finished. fold w.
  destruct (Worker.ended w) as [p|] eqn:He.
  - rewrite bool_decide_eq_true_2 by eauto. cbn. rewrite He. exists threads. by destruct p.
  - rewrite bool_decide_eq_false_2 by by intros [].
    cbn [Machine.calls]. rewrite lookup_snoc_last. cbn [fmap option_fmap option_map Call.place].
    unfold work. cbn [Machine.threads]. rewrite Ht. fold w. destruct (run_job w o) as [s res].
    unfold step_worker. cbn [Machine.threads]. rewrite Ht. cbn [mbind option_bind]. fold w.
    unfold Worker.is_finished. rewrite He. rewrite bool_decide_eq_false_2 by by intros [].
    set (w' := match match res with Fault OutOfFuel => _ | _ => _ end with Some _ => _ | None => _ end).
    exists (<[id:=Thread.set_worker t w']> threads). repeat match goal with |- context [default ?d (Some ?x)] => change (default d (Some x)) with x end.
    unfold Machine.set_shared, Machine.set_usb, Machine.set_threads.
    cbn [Machine.shared Machine.slot Machine.holder Machine.usb Machine.tether Machine.threads Machine.calls].
    rewrite Hstep. rewrite list_lookup_insert_eq by by eapply lookup_lt_Some. cbn [mbind option_bind].
    assert (Hj : Worker.job w' = Worker.job w) by (subst w'; by destruct res as [| |[]]).
    rewrite Hj. subst w'. destruct res as [u|e|[]]; cbn; rewrite ?He; by destruct (Worker.job w).
Qed.

(** [stop] from its first step on. *)
Lemma solo_stop_part b n shared slot (usb : U) tether threads cs (r : Request.t W) o :
  (forall id, slot = Some id -> is_Some (threads !! id)) ->
  let self := DesktopRuntime.mk shared (id ← slot; Thread.worker <$> threads !! id) usb tether in
  let joined := join (V:=V) (C:=C) o self in
  exists threads' n', (n <= n')%nat /\
  solo (4 + n) (length cs) o
    (Machine.mk shared slot None usb tether threads (cs ++ [Call.mk r (Place.StopTake b)])) =
  let m s p := Machine.mk s None None
    (DesktopRuntime.usb_accessory (fst joined)) tether threads' (cs ++ [Call.mk r p]) in
  let s := DesktopRuntime.shared (fst joined) in
  match snd joined with
  | Ok true => m s (Place.Done (Err "the loopback worker panicked while stopping"))
  | Ok false => solo n' (length cs) o
      (m (SharedState.stopped s) (if b then Place.DisconnectForget else Place.Done (Ok tt)))
  | _ => m s (Place.StopJoin b (default 0%nat slot))
  end.
Proof.
  intros Hslot self joined. subst self joined. cbn [Nat.add]. destruct slot as [id|].
  - destruct (Hslot id eq_refl) as [t Ht]. next. next.
    edestruct (solo_joins b (S n) shared id usb tether (alter Thread.flag id threads) cs r o (Thread.flag t))
      as [threads' Hj]; [by rewrite list_lookup_alter_eq, Ht|].
    cbn [Thread.worker Thread.flag] in Hj. cbn [mbind option_bind default from_option]. rewrite Ht.
    cbn [fmap option_fmap option_map]. exists threads', n. split; [lia|]. rewrite Hj.
    destruct (join o _) as [self' [[]|e|f]]; cbn [fst snd]; [by over|by next|done..].
  - next. next. exists threads, (2 + n)%nat. split; [lia|]. done.
Qed.

Lemma join_tether o self : DesktopRuntime.tether_connection (fst (join (V:=V) (C:=C) o self)) =
  DesktopRuntime.tether_connection self.
Proof. unfold join, observe. destruct self as [s [w|] u t]; cbn; repeat case_match; by simplify_eq/=. Qed.

Section Command.
Variables (shared : SharedState.t) (slot : option nat) (usb : U) (tether : option TetherConnection.t)
  (threads : list Thread.t) (cs : list (Call.t W)) (o : Observed.t U) (out : Outside.t).
Hypothesis slot_known : forall id, slot = Some id -> is_Some (threads !! id).
#[local] Definition self : DesktopRuntime.t U :=
  DesktopRuntime.mk shared (id ← slot; Thread.worker <$> threads !! id) usb tether.
#[local] Definition began (r : Request.t W) : Machine.t U W :=
  Machine.mk shared slot None usb tether threads (cs ++ [Call.mk r (enter r)]).

Lemma solo_prepare :
  seen_as (solo 8 (length cs) o (began Request.Prepare)) = fst (prepare_android_usb self).
Proof.
  unfold began, prepare_android_usb. cbn [enter self DesktopRuntime.usb_accessory].
  destruct (prepare usb) as [usb' rep] eqn:Eu. next. by over.
Qed.

Lemma solo_pair draws request world :
  seen_as (solo 8 (length cs) o (began (Request.Pair draws request world))) =
  fst (fst (pair_android_tether hmac draws request world self)).
Proof.
  unfold began, pair_android_tether, running. cbn [enter].
  assert (Hpast : seen_as (solo 7 (length cs) o (Machine.mk shared slot None usb tether threads
      (cs ++ [Call.mk (Request.Pair draws request world) (Place.PairUsb draws request world)]))) =
    fst (fst (let (usb, disconnected) := disconnect (DesktopRuntime.usb_accessory self) in
      let self := DesktopRuntime.set_usb self usb in
      let? _ := disconnected keeping (self, world) in
      let self := DesktopRuntime.set_tether self None in
      let (world, paired) := pair_tether_connection hmac draws request world in
      let? (connection, report) := paired keeping (self, world) in
      let self := DesktopRuntime.set_tether self (Some connection) in
      ((DesktopRuntime.set_shared self (SharedState.reset_for_tether (DesktopRuntime.shared self)), world),
       Ok report)))).
  { cbn [self DesktopRuntime.usb_accessory].
    destruct (disconnect usb) as [usb' [[]|e|f]] eqn:Eu; next; [|by over..]. next.
    destruct (pair_tether_connection _ _ _ _) as [world' [[c rep]|e|f]] eqn:Ep; next; [|by over..].
    next. next. by over. }
  cbn [self DesktopRuntime.worker]. destruct slot as [id|] eqn:Es; [|by next].
  destruct (slot_known id eq_refl) as [t Ht]. unfold Worker.is_finished.
  cbn [mbind option_bind]. rewrite Ht. cbn [fmap option_fmap option_map].
  destruct (Worker.ended (Thread.worker t)) as [p|] eqn:He; next.
  - rewrite bool_decide_eq_false_2 by done. rewrite bool_decide_eq_true_2 by eauto. cbn [negb].
    rewrite Hpast. unfold self. cbn [mbind option_bind]. by rewrite ?Ht.
  - rewrite bool_decide_eq_true_2 by done. over. rewrite bool_decide_eq_false_2 by by intros [].
    unfold seen_as, self. cbn. by rewrite Es.
Qed.

Lemma solo_stop : seen_as (solo 8 (length cs) o (began Request.Stop)) = fst (stop (V:=V) (C:=C) o out self).
Proof.
  destruct (solo_stop_part false 4 shared slot usb tether threads cs Request.Stop o slot_known)
    as (threads' & n' & _ & Hj).
  change (4 + 4)%nat with 8%nat in Hj. unfold began. cbn [enter]. rewrite Hj. clear Hj. unfold stop. fold self.
  pose proof (join_tether o self) as Ht.
  destruct (join o self) as [[s w u t] [[]|e|f]]; cbn in Ht; subst t; cbn [fst snd]; [done|by over|done..].
Qed.

Lemma solo_forget n s threads' u : (2 <= n)%nat ->
  seen_as (solo n (length cs) o (Machine.mk s None None u tether threads'
    (cs ++ [Call.mk Request.Disconnect Place.DisconnectForget]))) =
  DesktopRuntime.mk s None (fst (disconnect u)) None.
Proof.
  intros Hn. destruct n as [|[|n]]; [lia..|]. next.
  destruct (disconnect u) as [u' [[]|e|f]] eqn:Eu; next; by over.
Qed.

Lemma solo_disconnect :
  (snd (join (V:=V) (C:=C) o self) = Ok false -> is_ok (snd (stop (V:=V) (C:=C) o out self)) = true) ->
  seen_as (solo 8 (length cs) o (began Request.Disconnect)) =
  fst (disconnect_android_usb (V:=V) (C:=C) o out self).
Proof.
  intros Hfine. unfold began, disconnect_android_usb. cbn [enter self DesktopRuntime.shared]. next.
  destruct (_ && _).
  - destruct (solo_stop_part true 3 shared slot usb tether threads cs Request.Disconnect o slot_known)
      as (threads' & n' & Hn & Hj).
    change (4 + 3)%nat with 7%nat in Hj. rewrite Hj. clear Hj. unfold stop in *. fold self in Hfine |- *.
    pose proof (join_tether o self) as Ht.
    destruct (join o self) as [[s w u t] [[]|e|f]]; cbn in Ht; subst t; cbn [fst snd otry]; [done| |done..].
    cbn [DesktopRuntime.shared DesktopRuntime.usb_accessory]. rewrite solo_forget by lia.
    cbn [fst snd otry] in Hfine. specialize (Hfine eq_refl).
    match goal with |- context [snapshot ?x ?y] => destruct (snapshot x y) as [snap|e|f] end; [|done..].
    cbn. by destruct (disconnect u) as [u' [[]|e'|f']].
  - cbn [otry]. next. destruct (disconnect usb) as [u' [[]|e|f]] eqn:Eu; next; over.
    all: cbn; by rewrite Eu.
Qed.

(** A start once it has the slot, which it has found without a worker at work. *)
Lemma solo_launch spawned config display_id now r :
  seen_as (solo 7 (length cs) o (Machine.mk shared None (Some (length cs)) usb tether threads
    (cs ++ [Call.mk r (Place.StartTether spawned config display_id now)]))) =
  fst (launch spawned tether config display_id now (DesktopRuntime.mk shared None usb None)).
Proof.
  unfold launch, spawn. cbn [DesktopRuntime.shared DesktopRuntime.usb_accessory].
  assert (Hspawn : forall n what job s, seen_as (solo (3 + n) (length cs) o
      (Machine.mk s None (Some (length cs)) usb None threads
        (cs ++ [Call.mk r (Place.StartSpawn spawned what job config display_id)]))) =
    fst (spawn spawned what job config display_id (DesktopRuntime.mk s None usb None))).
  { intros n what job s. cbn [Nat.add]. unfold spawn. destruct spawned as [e|u]; next; [by over|]. next. over.
    unfold seen_as. cbn. by rewrite lookup_app_r, Nat.sub_diag by lia. }
  destruct tether as [connection|]; next; next; next; cbv beta iota.
  - case_bool_decide; [by over|]. exact (Hspawn 1%nat _ _ _).
  - case_bool_decide; [exact (Hspawn 1%nat _ _ _)|].
    next. destruct (negotiated_session config) as [session|e|f]; rewrite ?go_snoc; [exact (Hspawn 0%nat _ _ _)|by over..].
Qed.

Lemma solo_start spawned config display_id now :
  seen_as (solo 8 (length cs) o (began (Request.Start spawned config display_id now))) =
  fst (start spawned config display_id
    (Outside.mk (Outside.collected out) now (Outside.app_version out) (Outside.os out) (Outside.arch out)) self).
Proof.
  unfold began, start. cbn [enter].
  destruct (LoopbackConfig.validate config) as [config'|e|f]; cbn [otry]; [|by over..].
  set (display := _ ≫= _). clearbody display.
  assert (Hgo : seen_as (solo 7 (length cs) o (Machine.mk shared None (Some (length cs)) usb tether threads
      (cs ++ [Call.mk (Request.Start spawned config display_id now)
        (Place.StartTether spawned config' display now)]))) =
    fst (let (self, launched) := launch spawned tether config' display now (DesktopRuntime.mk shared None usb None) in
         let? _ := launched keeping self in
         (self, snapshot self (Outside.mk (Outside.collected out) now (Outside.app_version out)
            (Outside.os out) (Outside.arch out))))).
  { rewrite solo_launch. by destruct (launch _ _ _ _ _ _) as [self' [[]|e|f]]. }
  unfold running. cbn [self DesktopRuntime.worker]. destruct slot as [id|] eqn:Es; [|by next].
  destruct (slot_known id eq_refl) as [t Ht]. unfold Worker.is_finished.
  cbn [mbind option_bind]. rewrite Ht. cbn [fmap option_fmap option_map].
  destruct (Worker.ended (Thread.worker t)) as [[]|] eqn:He; next.
  - by over.
  - exact Hgo.
  - over. unfold seen_as, self. cbn. by rewrite Es.
Qed.
End Command.

(** Each command of [HostRuntime] is what its steps do, if no other command's step comes between: of the
    worker it joins, if it joins one, it sees what that one does meanwhile. *)
Theorem commands_at_once r o out m :
  Machine.holder m = None ->
  (forall id, Machine.slot m = Some id -> is_Some (Machine.threads m !! id)) ->
  (r = Request.Disconnect -> snd (join (V:=V) (C:=C) o (seen_as m)) = Ok false ->
   is_ok (snd (stop (V:=V) (C:=C) o out (seen_as m))) = true) ->
  seen_as (solo 8 (length (Machine.calls m)) o (begin r m)) = at_once r o out (seen_as m).
Proof.
  destruct m as [shared slot holder usb tether threads cs]. cbn [Machine.holder Machine.slot Machine.threads].
  intros -> Hslot Hfine. destruct r as [|draws request world|spawned config display_id now| |].
  - by apply solo_prepare.
  - by apply solo_pair.
  - by apply solo_start.
  - by apply solo_stop.
  - by apply solo_disconnect, Hfine.
Qed.
End Solo.

(** ** Concrete runs *)
Module ThreadsExamples.
Import ReconnectExamples TetherExamples RuntimeExamples.

Definition machine : Type := Machine.t Portable.UsbAccessoryManager.t unit.
Definition event : Type := Event.t Portable.UsbAccessoryManager.t unit.
Definition run (es : list event) : option machine :=
  interleave PairingExamples.keyed es (Machine.new manager).
Definition own (n i : nat) : list event := replicate n (Event.Steps i).
Definition start_preview : event :=
  Event.Calls (Request.Start (inr tt) (LoopbackConfig.mk 1280 720 60) None 0).
Definition pair : event := Event.Calls (Request.Pair [inr PairingExamples.hn] request tt).
(** The worker shows a streaming session, and goes on or ends. *)
Definition works (id : nat) (ended : option bool) : event :=
  Event.Works id (SharedState.set_phase SharedState.new SessionPhaseView.Streaming) manager ended.

(** A start while a stop waits for the worker it took. *)
Definition overlap : list event :=
  [start_preview] ++ own 7 0 ++ [Event.Calls Request.Stop] ++ own 2 1 ++ [start_preview] ++ own 7 2.
Definition overlapped : machine := default (Machine.new manager) (run overlap).

Lemma workers_have_one_owner_witness :
  at_work overlapped 0 /\ at_work overlapped 1 /\ stopping overlapped 0 /\
  waits_well PairingExamples.keyed overlapped 1.
Proof.
  assert (Hrun : interleave PairingExamples.keyed overlap (Machine.new manager) = Some overlapped)
    by (vm_compute; reflexivity).
  assert (H0w : at_work overlapped 0) by (vm_compute; eexists; split; reflexivity).
  assert (H1w : at_work overlapped 1) by (vm_compute; eexists; split; reflexivity).
  destruct (workers_have_one_owner PairingExamples.keyed manager overlap overlapped Hrun)
    as (_ & Htwo & _ & _ & Hwait).
  split_and!; [exact H0w|exact H1w| |].
  - destruct (Htwo 0%nat 1%nat H0w H1w ltac:(done)) as [Hs|(i & b & Hs)]; [exact Hs|].
    exfalso. destruct Hs as [(c & Hc & Hp)|(c & Hc & Hp)];
      (destruct i as [|[|[|i]]]; vm_compute in Hc; [| | |discriminate Hc]; injection Hc as <-; discriminate Hp).
  - assert (Hc : exists c, Machine.calls overlapped !! 1%nat = Some c) by (vm_compute; eexists; reflexivity).
    destruct Hc as [c Hc]. exact (Hwait 1%nat c Hc).
Defined.

(** What the lock that [stop] gives up early costs: the second session is shown as stopped while it is
    at work, and every command has answered [Ok]. *)
Theorem overlapped_start_is_shown_stopped :
  exists m, run (overlap ++ [works 0 (Some false)] ++ own 2 1) = Some m /\
  at_work m 1 /\ Machine.slot m = Some 1%nat /\
  SharedState.phase (Machine.shared m) = SessionPhaseView.Stopped /\
  Forall (fun c => Call.place c = Place.Done (Ok tt)) (Machine.calls m).
Proof.
  eexists. split; [vm_compute; reflexivity|]. split_and!; [by eexists|done|done|by repeat constructor].
Qed.

(** And [pair_android_tether], which looks for a session before it dials: the one that was started
    meanwhile is shown as an idle tether with a paired connection. *)
Theorem overlapped_pairing_hides_a_session :
  exists m, run ([pair] ++ own 1 0 ++ [start_preview] ++ own 7 1 ++ own 5 0) = Some m /\
  at_work m 0 /\ Machine.slot m = Some 0%nat /\
  SharedState.phase (Machine.shared m) = SessionPhaseView.Idle /\
  SharedState.transport (Machine.shared m) = TETHER_TRANSPORT_NAME /\
  is_Some (Machine.tether m) /\
  Forall (fun c => Call.place c = Place.Done (Ok tt)) (Machine.calls m).
Proof.
  eexists. split; [vm_compute; reflexivity|]. split_and!; [by eexists|done|done|done|by eexists|by repeat constructor].
Qed.
End ThreadsExamples.
