(* ===== verification/HostTurns.v ===== *)
(** * What the desktop runtime shows while its commands take turns

    The machine of [HostThreads] when a command is made only after the last one has
    returned - as the window does, one button at a time - and when every worker does
    what its job does on something it has observed. At every step of every command, the inner
    ones included, the phase, the transport and the kept connection are those of the session at
    work. [HostThreads] has the runs that show why the commands have to take turns. *)
From S2P Require Export HostThreads.
Local Open Scope string_scope.
Local Open Scope list_scope.
Local Open Scope Z_scope.

Section Turns.
Context {U V C W : Type} `{AccessoryManager U} `{NativePlatform V C} `{Network W}.
Variable hmac : list byte -> list byte -> list byte.
Implicit Types (m : Machine.t U W) (o : Observed.t U).
Import Place.

(** ** Commands in turn, and workers that do their job *)
Definition done_ (c : Call.t W) : Prop := exists answer, Call.place c = Done answer.

(** [s] is what the thread's job makes of the shared state on some observations, which end the job
    or not; a thread sees its flag only once it is set. Workers do not panic. *)
Definition does_its_job (t : Thread.t) (s : SharedState.t) (ended : option bool) : Prop :=
  exists o, (Thread.cancel t = false -> unflagged_run o) /\
  run_job (V:=V) (C:=C) (Thread.worker t) o =
    (s, match ended with Some _ => Ok tt | None => Fault OutOfFuel end) /\
  ended <> Some true.

Definition proper (e : Event.t U W) m : Prop :=
  match e with
  | Event.Calls r => Forall done_ (Machine.calls m) /\
    match r with
    | Request.Start _ config _ _ => in_u 16 (LoopbackConfig.width config) /\ in_u 16 (LoopbackConfig.height config)
    | _ => True
    end
  | Event.Steps _ => True
  | Event.Works id s _ ended => exists t, Machine.threads m !! id = Some t /\ does_its_job t s ended
  end.

Fixpoint in_turn (es : list (Event.t U W)) m : Prop :=
  match es with
  | [] => True
  | e :: es => proper e m /\ match step hmac e m with Some m => in_turn es m | None => True end
  end.

(** ** The state between and inside the commands *)
Definition nobody m : Prop := forall id, ~ at_work m id.
Definition only_previews m : Prop :=
  forall id t, Machine.threads m !! id = Some t -> Worker.ended (Thread.worker t) = None ->
  Worker.job (Thread.worker t) = Job.Preview.

(** The shared state is about to be, or was just, a live one without a worker: a start has set it and
    has yet to create the thread, or a stop has seen the worker end and has yet to close. *)
Definition transient (p : Place.t W) : bool :=
  match p with
  | StartNegotiate _ _ _ _ | StartSpawn _ _ _ _ _ | StopJoin _ _ | StopClose _ => true
  | _ => false
  end.

(** Which places belong to a request. *)
Definition asks (r : Request.t W) (p : Place.t W) : bool :=
  match p, r with
  | Done _, _ => true
  | PrepareUsb, Request.Prepare => true
  | (StopTake b | StopFlag b _ | StopJoin b _ | StopClose b), Request.Stop => negb b
  | (StopTake b | StopFlag b _ | StopJoin b _ | StopClose b), Request.Disconnect => b
  | (DisconnectTest | DisconnectForget | DisconnectUsb), Request.Disconnect => true
  | (PairTest _ _ _ | PairUsb _ _ _ | PairForget _ _ _ | PairDial _ _ _ | PairKeep _ | PairReset),
    Request.Pair _ _ _ => true
  | (StartLock _ _ _ _ | StartTether _ _ _ _ | StartUsb _ _ _ _ _ | StartReset _ _ _ _ _ _
     | StartNegotiate _ _ _ _ | StartSpawn _ _ _ _ _ | StartStore _), Request.Start _ _ _ _ => true
  | _, _ => false
  end.

(** What holds before the next step of a call, and after a call that stopped a session. *)
Definition expects m (c : Call.t W) : Prop :=
  match Call.place c with
  | StopFlag _ _ | StopJoin _ _ => Machine.slot m = None
  | StopClose _ | PairUsb _ _ _ | PairForget _ _ _ | PairDial _ _ _ | PairKeep _ | PairReset => nobody m
  | DisconnectForget => only_previews m
  | DisconnectUsb => only_previews m /\ Machine.tether m = None
  | StartLock _ config _ _ => LoopbackConfig.wf config
  | StartTether _ config _ _ => nobody m /\ LoopbackConfig.wf config
  | StartUsb _ config _ _ _ | StartReset _ config _ _ _ _ | StartNegotiate _ config _ _ =>
    nobody m /\ LoopbackConfig.wf config /\ Machine.tether m = None
  | StartSpawn _ _ job _ _ => nobody m /\ Machine.tether m = None /\
    SharedState.transport (Machine.shared m) = kind_name job /\
    live_phase (SharedState.phase (Machine.shared m)) = true
  | Done (Ok _) =>
    match Call.request c with
    | Request.Stop => nobody m /\
      SharedState.phase (Machine.shared m) = SessionPhaseView.Stopped /\
      forall s, SharedState.session (Machine.shared m) = Some s -> Session.phase s = SessionPhase.Closed
    | Request.Disconnect => only_previews m /\ Machine.tether m = None
    | _ => True
    end
  | _ => True
  end.

(** The newest thread is a preview that has ended: its last picture stays. *)
Definition preview_over m : Prop :=
  exists t, last (Machine.threads m) = Some t /\ Worker.job (Thread.worker t) = Job.Preview /\
  is_Some (Worker.ended (Thread.worker t)).

(** A session at work is the one that is shown. *)
Record shown m (w : Worker.t) : Prop := {
  began_as : SharedState.transport (Worker.began w) = kind_name (Worker.job w);
  began_live : live_phase (SharedState.phase (Worker.began w)) = true;
  shown_as : SharedState.transport (Machine.shared m) = kind_name (Worker.job w);
  shown_live : live_phase (SharedState.phase (Machine.shared m)) = true;
  no_second_link : Machine.tether m = None;
}.

Record truthful m : Prop := {
  turns i c : Machine.calls m !! i = Some c -> S i = length (Machine.calls m) \/ done_ c;
  asked i c : Machine.calls m !! i = Some c -> asks (Call.request c) (Call.place c) = true;
  working id t : Machine.threads m !! id = Some t -> Worker.ended (Thread.worker t) = None ->
    shown m (Thread.worker t);
  newest id : at_work m id -> S id = length (Machine.threads m);
  calm_ends id t : Machine.threads m !! id = Some t -> Worker.ended (Thread.worker t) <> Some true;
  expected i c : Machine.calls m !! i = Some c -> S i = length (Machine.calls m) -> expects m c;
  explained : live_phase (SharedState.phase (Machine.shared m)) = true ->
    (exists id, at_work m id) \/ preview_over m \/ exists i p, at_place m i p /\ transient p = true;
}.

Lemma new_truthful usb : truthful (Machine.new usb).
Proof. by split; cbn; try done; intros ? (? & ? & _). Qed.

(** ** The call under way *)
Section Under_way.
Variables (m : Machine.t U W) (i : nat) (c : Call.t W).
Hypothesis Hm : truthful m.
Hypothesis Hc : Machine.calls m !! i = Some c.
Hypothesis Hgoing : ~ done_ c.

Lemma going_last : S i = length (Machine.calls m).
Proof. by destruct (turns m Hm i c Hc). Qed.

Lemma going_place j p : at_place m j p -> (forall a, p <> Done a) -> j = i /\ p = Call.place c.
Proof.
  intros (c' & Hc' & <-) Hp. destruct (turns m Hm j c' Hc') as [Hj|[a Ha]]; [|by destruct (Hp a)].
  pose proof going_last. assert (j = i) as -> by lia. split; [done|]. congruence.
Qed.

(** A worker at work is in the slot or in the hands of this call. *)
Lemma whose_work id : orderly m -> at_work m id ->
  Machine.slot m = Some id \/ claims (Call.place c) = Some id.
Proof.
  intros Ho Hw. destruct (owned _ Ho id Hw) as [[|j] Hown]; [by left|right].
  destruct Hown as (p & Hp & Hcl). destruct (going_place j p Hp) as [-> ->]; [by intros a ->|done].
Qed.

Lemma explained_now : live_phase (SharedState.phase (Machine.shared m)) = true ->
  (exists id, at_work m id) \/ preview_over m \/ transient (Call.place c) = true.
Proof.
  intros Hl. destruct (explained m Hm Hl) as [?|[?|(j & p & Hp & Ht)]]; [by left|by right; left|].
  destruct (going_place j p Hp) as [-> ->]; [by intros a ->|]. by right; right.
Qed.

(** What a step has to see to. *)
Lemma truthful_go q m' :
  Machine.calls m' = Machine.calls m ->
  asks (Call.request c) q = true ->
  (forall id t, Machine.threads m' !! id = Some t -> Worker.ended (Thread.worker t) = None ->
     shown m' (Thread.worker t)) ->
  (forall id, at_work m' id -> S id = length (Machine.threads m')) ->
  (forall id t, Machine.threads m' !! id = Some t -> Worker.ended (Thread.worker t) <> Some true) ->
  expects m' (Call.mk (Call.request c) q) ->
  (live_phase (SharedState.phase (Machine.shared m')) = true ->
     (exists id, at_work m' id) \/ preview_over m' \/ transient q = true) ->
  truthful (Machine.go i q m').
Proof.
  intros Hcalls Hasks Hw Hn Hcalm Hx Hl.
  assert (Hat : forall j c', Machine.calls (Machine.go i q m') !! j = Some c' ->
    (j = i /\ c' = Call.mk (Call.request c) q) \/ (j <> i /\ Machine.calls m !! j = Some c')).
  { intros j c'. unfold Machine.go. cbn. rewrite Hcalls. destruct (decide (j = i)) as [->|Hne].
    - rewrite list_lookup_alter_eq, Hc. cbn. intros [= <-]. by left.
    - rewrite list_lookup_alter_ne by done. by right. }
  assert (Hlen : length (Machine.calls (Machine.go i q m')) = length (Machine.calls m))
    by (unfold Machine.go; cbn; by rewrite length_alter, Hcalls).
  pose proof going_last as Hlast. split; [| |intros id t Hid He; by destruct (Hw id t Hid He)|exact Hn|exact Hcalm| |].
  - intros j c' Hj. rewrite Hlen. destruct (Hat j c' Hj) as [[-> _]|[Hne Hj']]; [by left|].
    by apply (turns m Hm).
  - intros j c' Hj. destruct (Hat j c' Hj) as [[-> ->]|[Hne Hj']]; [done|]. by apply (asked m Hm j).
  - intros j c' Hj. rewrite Hlen. intros Hj'. destruct (Hat j c' Hj) as [[-> ->]|[Hne _]]; [done|lia].
  - intros Hlive. destruct (Hl Hlive) as [?|[?|Ht]]; [by left|by right; left|right; right].
    exists i, q. split; [|done]. apply at_go. left. rewrite Hcalls. eauto.
Qed.

(** Nothing is shown differently. *)
Lemma truthful_stay q m' :
  Machine.calls m' = Machine.calls m -> Machine.threads m' = Machine.threads m ->
  Machine.shared m' = Machine.shared m ->
  Machine.tether m' = Machine.tether m \/ Machine.tether m' = None \/ nobody m ->
  asks (Call.request c) q = true -> expects m' (Call.mk (Call.request c) q) ->
  transient (Call.place c) = false \/ transient q = true ->
  truthful (Machine.go i q m').
Proof.
  intros E1 E2 E3 Ht Ha Hx Htr. apply truthful_go; [done|done|..|done|].
  - intros id t. rewrite E2. intros Hid He. destruct (working m Hm id t Hid He) as [H1' H2' H3' H4' H5'].
    split; rewrite ?E3; [done..|]. destruct Ht as [Ht|[Ht|Ht]]; [congruence|done|].
    destruct (Ht id). by exists t.
  - unfold at_work. rewrite E2. apply (newest m Hm).
  - rewrite E2. apply (calm_ends m Hm).
  - rewrite E3. intros Hl. unfold at_work, preview_over. rewrite E2.
    destruct (explained_now Hl) as [?|[?|Htc]]; [by left|by right; left|].
    destruct Htr as [Htr|Htr]; [congruence|by right; right].
Qed.

(** With nobody at work the shared state is rewritten; one that is then live is in between. *)
Lemma truthful_rewrite q m' : nobody m ->
  Machine.calls m' = Machine.calls m -> Machine.threads m' = Machine.threads m ->
  asks (Call.request c) q = true -> expects m' (Call.mk (Call.request c) q) ->
  (live_phase (SharedState.phase (Machine.shared m')) = true -> transient q = true) ->
  truthful (Machine.go i q m').
Proof.
  intros Hno E1 E2 Ha Hx Hl. apply truthful_go; [done|done|..|done|].
  - intros id t. rewrite E2. intros Hid He. destruct (Hno id). by exists t.
  - unfold at_work. rewrite E2. apply (newest m Hm).
  - rewrite E2. apply (calm_ends m Hm).
  - intros Hlive. right; right. by apply Hl.
Qed.
End Under_way.

#[local] Ltac stays := eapply truthful_stay; [eassumption|eassumption|by intros [? ?]|try done..].
#[local] Ltac rewrites := eapply truthful_rewrite; [eassumption|eassumption|by intros [? ?]|try done..].

(** An answer that is not of a stop or a disconnect promises nothing. *)
Lemma expects_answer m r a :
  match r with Request.Stop | Request.Disconnect => is_ok a = false | _ => True end ->
  expects m (Call.mk r (Done a)).
Proof. destruct r, a; cbn; done. Qed.

Lemma stopped_phase (s : SharedState.t) : SharedState.phase (SharedState.stopped s) = SessionPhaseView.Stopped.
Proof. done. Qed.

(** The thread that a start creates is the one session at work. *)
Lemma spawn_truthful i r m job config display_id what u :
  orderly m -> truthful m ->
  Machine.calls m !! i = Some (Call.mk r (StartSpawn (inr u) what job config display_id)) ->
  truthful (Machine.go i (StartStore (length (Machine.threads m)))
    (Machine.set_threads m (Machine.threads m ++
       [Thread.mk (Worker.mk job config display_id (Machine.shared m) None) false]))).
Proof.
  intros Ho Hm Hc. set (m' := Machine.set_threads m _).
  pose proof (expected m Hm i _ Hc (going_last m i _ Hm Hc ltac:(by intros [? ?]))) as Hx.
  destruct Hx as (Hno & Ht & Hn & Hl).
  assert (Hnew : forall id t, Machine.threads m' !! id = Some t -> Worker.ended (Thread.worker t) = None ->
    id = length (Machine.threads m) /\ Thread.worker t = Worker.mk job config display_id (Machine.shared m) None).
  { intros id t Hid He. cbn in Hid. apply lookup_snoc_Some in Hid as [[_ Hid]|[-> <-]]; [|done].
    destruct (Hno id). by exists t. }
  eapply truthful_go; [exact Hm|exact Hc|by intros [? ?]|done|exact (asked m Hm i _ Hc)|..].
  - intros id t Hid He. destruct (Hnew id t Hid He) as [_ ->]. by split.
  - intros id (t & Hid & He). destruct (Hnew id t Hid He) as [-> _]. cbn. rewrite length_app. cbn. lia.
  - intros id t Hid. cbn in Hid. apply lookup_snoc_Some in Hid as [[_ Hid]|[-> <-]]; [|done].
    by apply (calm_ends m Hm id).
  - done.
  - intros _. left. exists (length (Machine.threads m)). eexists.
    split; [cbn; by rewrite lookup_app_r, Nat.sub_diag|done].
Qed.

(** A flag changes no worker. *)
Lemma flag_truthful i r m b id :
  truthful m -> Machine.calls m !! i = Some (Call.mk r (StopFlag b id)) ->
  truthful (Machine.go i (StopJoin b id)
    (Machine.set_threads m (alter Thread.flag id (Machine.threads m)))).
Proof.
  intros Hm Hc. set (m' := Machine.set_threads m _).
  pose proof (expected m Hm i _ Hc (going_last m i _ Hm Hc ltac:(by intros [? ?]))) as Hx.
  assert (Hold : forall id' t, Machine.threads m' !! id' = Some t ->
    exists t0, Machine.threads m !! id' = Some t0 /\ Thread.worker t0 = Thread.worker t).
  { intros id' t. cbn. destruct (decide (id' = id)) as [->|Hne].
    - rewrite list_lookup_alter_eq. destruct (Machine.threads m !! id) as [t0|]; [|done]. intros [= <-]. by exists t0.
    - rewrite list_lookup_alter_ne by done. by exists t. }
  eapply truthful_go; [exact Hm|exact Hc|by intros [? ?]|done|exact (asked m Hm i _ Hc)|..].
  - intros id' t Hid He. destruct (Hold id' t Hid) as (t0 & Hid0 & Ew). rewrite <- Ew in He |- *.
    by destruct (working m Hm id' t0 Hid0 He).
  - intros id' (t & Hid & He). destruct (Hold id' t Hid) as (t0 & Hid0 & Ew). cbn. rewrite length_alter.
    apply (newest m Hm). exists t0. by rewrite Ew.
  - intros id' t Hid. destruct (Hold id' t Hid) as (t0 & Hid0 & <-). by apply (calm_ends m Hm id').
  - exact Hx.
  - intros _. by right; right.
Qed.

Lemma ended_thread m id b : Machine.ended m id = Some b ->
  exists t, Machine.threads m !! id = Some t /\ Worker.ended (Thread.worker t) = Some b.
Proof. unfold Machine.ended. destruct (Machine.threads m !! id) as [t|]; [|done]. by exists t. Qed.

(** A slot without a running worker, while a call with empty hands is under way. *)
Lemma nobody_there m i c : truthful m -> orderly m -> Machine.calls m !! i = Some c -> ~ done_ c ->
  claims (Call.place c) = None ->
  (forall id, Machine.slot m = Some id -> Machine.ended m id <> None) -> nobody m.
Proof.
  intros Hm Ho Hc Hgo Hcl Hs id Hw. destruct (whose_work m i c Hm Hc Hgo id Ho Hw) as [E|E]; [|congruence].
  specialize (Hs id E). apply Hs, ended_work; [|done]. destruct Hw as (t & Ht & _). by exists t.
Qed.

Lemma stop_step_truthful i r p m m' : orderly m -> truthful m ->
  Machine.calls m !! i = Some (Call.mk r p) ->
  match p with PrepareUsb | StopTake _ | StopFlag _ _ | StopJoin _ _ | StopClose _ | DisconnectTest
             | DisconnectForget | DisconnectUsb => True | _ => False end ->
  step_call hmac i m = Some m' -> truthful m'.
Proof.
  intros Ho Hm Hc Hp. unfold step_call. rewrite Hc. cbn [mbind option_bind Call.place].
  pose proof (asked m Hm i _ Hc) as Ha.
  pose proof (fun Hgo => expected m Hm i _ Hc (going_last m i _ Hm Hc Hgo)) as Hx.
  pose proof (nobody_there m i _ Hm Ho Hc) as Hno.
  pose proof (whose_work m i _ Hm Hc) as Hwho.
  destruct p as [|b|b id|b id|b| | | | | | | | | | | | | | | | |]; try done;
    specialize (Hx ltac:(by intros [? ?])); specialize (Hno ltac:(by intros [? ?]));
    specialize (Hwho ltac:(by intros [? ?])); cbn in Ha, Hx, Hno, Hwho.
  - destruct (prepare _) as [usb rep]. intros [= <-]. stays; [by left| |by left].
    apply expects_answer. by destruct r.
  - case_bool_decide as Hh; [|done]. intros [= <-]. destruct (Machine.slot m) as [id|] eqn:Hs.
    + stays; [by left|by left].
    + stays; [by left| |by left]. apply Hno; [done|]. congruence.
  - intros [= <-]. by apply flag_truthful with (r := r).
  - destruct (Machine.ended m id) as [[]|] eqn:He; [| |done]; intros [= <-].
    + apply ended_thread in He as (t & Ht & He). by destruct (calm_ends m Hm id t Ht).
    + stays; [by left| |by right]. intros id' Hw. destruct (Hwho id' Ho Hw) as [E|[= ->]]; [congruence|].
      by apply (ended_not_work _ _ _ He).
  - intros [= <-]. rewrites; [by destruct b, r| ].
    destruct b, r; try done; cbn; [by intros id t Hid He; destruct (Hx id); exists t|].
    split_and!; [done|done|]. apply stopped_closed.
  - intros [= <-]. destruct (_ && _) eqn:Hactive; stays; [by left|by left|by left| |by left].
    intros id t Hid He. destruct (working m Hm id t Hid He) as [_ _ Hn Hl _]. rewrite Hn, Hl in Hactive.
    by destruct (Worker.job (Thread.worker t)).
  - intros [= <-]. stays; [by right; left|by left].
  - destruct (disconnect _) as [usb [u|e|f]]; intros [= <-]; stays; try by left.
    all: by destruct r.
Qed.

Lemma pair_step_truthful i r p m m' : orderly m -> truthful m ->
  Machine.calls m !! i = Some (Call.mk r p) ->
  match p with PairTest _ _ _ | PairUsb _ _ _ | PairForget _ _ _ | PairDial _ _ _ | PairKeep _ | PairReset => True
             | _ => False end ->
  step_call hmac i m = Some m' -> truthful m'.
Proof.
  intros Ho Hm Hc Hp. unfold step_call. rewrite Hc. cbn [mbind option_bind Call.place].
  pose proof (asked m Hm i _ Hc) as Ha.
  pose proof (fun Hgo => expected m Hm i _ Hc (going_last m i _ Hm Hc Hgo)) as Hx.
  pose proof (nobody_there m i _ Hm Ho Hc) as Hno.
  destruct p as [| | | | | | | |d q w|d q w|d q w|d q w|l| | | | | | | | |]; try done;
    specialize (Hx ltac:(by intros [? ?])); specialize (Hno ltac:(by intros [? ?])); cbn in Ha, Hx, Hno.
  - case_bool_decide as Hh; [|done]. intros [= <-]. destruct (Machine.slot m) as [id|] eqn:Hs; [case_bool_decide as He|].
    + stays; [by left|by left].
    + stays; [by left| |by left]. apply Hno; [done|]. by intros id' [= <-].
    + stays; [by left| |by left]. by apply Hno.
  - destruct (disconnect _) as [usb [u|e|f]]; intros [= <-]; stays; try by left. all: by destruct r.
  - intros [= <-]. stays; [by right; left|by left].
  - destruct (pair_tether_connection _ _ _ _) as [w' [u|e|f]]; intros [= <-]; stays; try by left.
    all: by destruct r.
  - intros [= <-]. stays; [by right; right|by left].
  - intros [= <-]. rewrites. apply expects_answer. by destruct r.
Qed.

Lemma start_step_truthful i r p m m' : orderly m -> truthful m ->
  Machine.calls m !! i = Some (Call.mk r p) ->
  match p with StartLock _ _ _ _ | StartTether _ _ _ _ | StartUsb _ _ _ _ _ | StartReset _ _ _ _ _ _
             | StartNegotiate _ _ _ _ | StartSpawn _ _ _ _ _ | StartStore _ => True | _ => False end ->
  step_call hmac i m = Some m' -> truthful m'.
Proof.
  intros Ho Hm Hc Hp. unfold step_call. rewrite Hc. cbn [mbind option_bind Call.place].
  pose proof (asked m Hm i _ Hc) as Ha.
  pose proof (fun Hgo => expected m Hm i _ Hc (going_last m i _ Hm Hc Hgo)) as Hx.
  pose proof (nobody_there m i _ Hm Ho Hc) as Hno.
  destruct p as [| | | | | | | | | | | | | |s c d n|s c d n|s c d n l|s c d n l u|s c d n|s w j c d|id|]; try done;
    specialize (Hx ltac:(by intros [? ?])); specialize (Hno ltac:(by intros [? ?])); cbn in Ha, Hx, Hno.
  - case_bool_decide as Hh; [|done]. intros [= <-]. destruct (Machine.slot m) as [id|] eqn:Hs.
    + destruct (Machine.ended m id) as [[]|] eqn:He.
      * apply ended_thread in He as (t & Ht & He). by destruct (calm_ends m Hm id t Ht).
      * stays; [by left| |by left]. split; [|done]. apply Hno; [done|]. intros id' [= <-]. by rewrite He.
      * stays; [by left|by left].
    + stays; [by left| |by left]. split; [by apply Hno|done].
  - intros [= <-]. destruct Hx. stays; [by right; left|by left].
  - intros [= <-]. stays; [by left|by left].
  - destruct Hx as (Hnob & Hwf & Ht). intros [= <-]. destruct l as [l|]; [case_bool_decide|destruct u].
    + unfold leave. rewrites.
    + rewrites.
    + rewrites.
    + rewrites.
  - destruct Hx as (Hnob & Hwf & Ht). rewrite (negotiated_session_ok c Hwf). intros [= <-]. rewrites.
  - destruct Hx as (Hnob & Ht & _). intros [= <-]. destruct s as [e|u].
    + unfold leave. rewrites.
    + by eapply spawn_truthful.
  - intros [= <-]. unfold leave. stays; [by left| |by left]. apply expects_answer. by destruct r.
Qed.

Lemma step_call_truthful i m m' : orderly m -> truthful m -> step_call hmac i m = Some m' -> truthful m'.
Proof.
  intros Ho Hm Hs. destruct (Machine.calls m !! i) as [[r p]|] eqn:Hc.
  2: { unfold step_call in Hs. by rewrite Hc in Hs. }
  destruct p eqn:Hp; try (by eapply stop_step_truthful); try (by eapply pair_step_truthful);
    try (by eapply start_step_truthful).
  unfold step_call in Hs. by rewrite Hc in Hs.
Qed.

(** ** A worker's step *)
Lemma job_done (t : Thread.t) s ended m : shown m (Thread.worker t) -> does_its_job t s ended ->
  SharedState.transport s = kind_name (Worker.job (Thread.worker t)) /\
  (ended = None -> live_phase (SharedState.phase s) = true) /\
  (ended <> None -> Thread.cancel t = false -> live_phase (SharedState.phase s) = true ->
   Worker.job (Thread.worker t) = Job.Preview).
Proof.
  intros [Hb Hbl _ _ _] (o & Hu & Hrun & _).
  pose proof (run_job_at_it (V:=V) (C:=C) (Thread.worker t) o) as [Hat Hlive].
  pose proof (fun Hc => run_ok_failed (V:=V) (C:=C) (Thread.worker t) o (Hu Hc)) as Hfail.
  rewrite Hrun in Hat, Hlive, Hfail. cbn in Hat, Hlive. split; [congruence|]. split.
  - intros ->. by apply Hlive.
  - intros Hne Hc Hl. destruct ended as [p|]; [|done]. specialize (Hfail Hc).
    destruct (Worker.job (Thread.worker t)) eqn:Hj; [| |done].
    all: destruct (Hfail ltac:(done)) as [Hph _ _ _ _]; by rewrite Hph in Hl.
Qed.

Lemma step_worker_truthful id s usb ended m m' : orderly m -> truthful m ->
  (exists t, Machine.threads m !! id = Some t /\ does_its_job t s ended) ->
  step_worker id s usb ended m = Some m' -> truthful m'.
Proof.
  intros Ho Hm (t & Ht & Hjob). unfold step_worker. rewrite Ht. cbn [mbind option_bind].
  destruct (Worker.is_finished (Thread.worker t)) eqn:Hfin; [done|]. intros [= <-].
  set (w := match ended with Some _ => _ | None => _ end). set (m' := Machine.set_threads _ _).
  assert (He : Worker.ended (Thread.worker t) = None).
  { unfold Worker.is_finished in Hfin. apply bool_decide_eq_false in Hfin. by apply eq_None_not_Some. }
  assert (Hwork : at_work m id) by by exists t.
  pose proof (newest m Hm id Hwork) as Hid.
  pose proof (working m Hm id t Ht He) as Hshown.
  destruct (job_done t s ended m Hshown Hjob) as (Hn & Hl & Hover).
  assert (Hlt : (id < length (Machine.threads m))%nat) by by eapply lookup_lt_Some.
  assert (Hback : forall id' t', Machine.threads m' !! id' = Some t' -> Worker.ended (Thread.worker t') = None ->
    id' = id /\ ended = None /\ Thread.worker t' = Thread.worker t).
  { intros id' t' Ht' He'. cbn in Ht'. apply list_lookup_insert_Some in Ht' as [(-> & <- & _)|[Hne Ht']].
    - subst w. destruct ended; cbn in He' |- *; done.
    - assert (S id' = length (Machine.threads m)) by (apply (newest m Hm); by exists t'). lia. }
  split.
  - apply (turns m Hm).
  - apply (asked m Hm).
  - intros id' t' Ht' He'. destruct (Hback id' t' Ht' He') as (-> & -> & ->).
    destruct Hshown as [Hb Hbl _ _ Ht0]. split; [done|done|exact Hn|by apply Hl|exact Ht0].
  - intros id' (t' & Ht' & He'). destruct (Hback id' t' Ht' He') as (-> & _). cbn. by rewrite length_insert.
  - intros id' t' Ht'. cbn in Ht'. apply list_lookup_insert_Some in Ht' as [(-> & <- & _)|[Hne Ht']].
    + destruct Hjob as (o & _ & _ & Hp). subst w. destruct ended as [[]|]; cbn; [done|done|by rewrite He].
    + by apply (calm_ends m Hm id').
  - intros j c Hc Hj. pose proof (expected m Hm j c Hc Hj) as Hx.
    assert (Hno : nobody m -> False) by (intros Hno; by destruct (Hno id)).
    assert (Hprev : only_previews m -> only_previews m').
    { intros Hprev id' t' Ht' He'. destruct (Hback id' t' Ht' He') as (_ & _ & ->). by apply (Hprev id). }
    unfold expects in *. destruct (Call.place c) as [| | | | | | | | | | | | | | | | | | | | |[]]; try done;
      try (by exfalso; apply Hno; apply Hx); try (by apply Hprev).
    + destruct Hx. split; [by apply Hprev|done].
    + destruct (Call.request c); try done; [by exfalso; apply Hno; apply Hx|].
      destruct Hx. split; [by apply Hprev|done].
  - intros Hlive. change (live_phase (SharedState.phase s) = true) in Hlive.
    destruct ended as [p|] eqn:Hend; [right|left].
    + destruct (Thread.cancel t) eqn:Hc.
      * right. destruct (flagged_stops _ Ho id) as (j & b & Hj); [by exists t|done|]. by exists j, (StopJoin b id).
      * left. exists (Thread.set_worker t w). split; [|split].
        -- rewrite last_lookup. cbn. rewrite length_insert, <- Hid. cbn. by apply list_lookup_insert_eq.
        -- subst w. cbn. by apply Hover.
        -- subst w. cbn. by eexists.
    + exists id, (Thread.set_worker t w). split; [cbn; by apply list_lookup_insert_eq|done].
Qed.

Lemma calls_truthful r m : truthful m -> proper (Event.Calls r) m ->
  truthful (Machine.set_calls m (Machine.calls m ++ [Call.mk r (enter r)])).
Proof.
  intros Hm [Hall Hr]. set (m' := Machine.set_calls _ _).
  assert (Hat : forall j c, Machine.calls m' !! j = Some c ->
    (S j < length (Machine.calls m'))%nat /\ done_ c /\ Machine.calls m !! j = Some c \/
    S j = length (Machine.calls m') /\ c = Call.mk r (enter r)).
  { intros j c Hj. cbn in Hj |- *. rewrite length_app. cbn.
    apply lookup_snoc_Some in Hj as [[Hlt Hj]|[-> <-]]; [left|right; split; [lia|done]].
    split_and!; [lia| |done]. by apply (Forall_lookup_1 _ _ _ _ Hall Hj). }
  split.
  - intros j c Hj. destruct (Hat j c Hj) as [(_ & Hd & _)|[Hj' _]]; [by right|by left].
  - intros j c Hj. destruct (Hat j c Hj) as [(_ & _ & Hj')|[_ ->]]; [by apply (asked m Hm j)|].
    destruct r; cbn; repeat case_match; done.
  - intros id t Hid He. by destruct (working m Hm id t Hid He).
  - apply (newest m Hm).
  - apply (calm_ends m Hm).
  - intros j c Hj Hlast. destruct (Hat j c Hj) as [(Hlt & _)|[_ ->]]; [lia|].
    destruct r as [|d q w|sp config d n| |]; cbn; try done.
    destruct (LoopbackConfig.validate config) as [config'|e|f] eqn:Hv; cbn; try done.
    destruct Hr. by eapply validate_wf.
  - intros Hl. destruct (explained m Hm Hl) as [?|[?|(j & p & (c & Hc & Hp) & Ht)]]; [by left|by right; left|].
    destruct (Forall_lookup_1 _ _ _ _ Hall Hc) as [a Ha]. rewrite <- Hp, Ha in Ht. done.
Qed.

Lemma step_truthful e m m' : orderly m -> truthful m -> proper e m -> step hmac e m = Some m' -> truthful m'.
Proof.
  intros Ho Hm Hp. destruct e as [r|i|id s usb ended]; cbn.
  - intros [= <-]. by apply calls_truthful.
  - by apply step_call_truthful.
  - by apply step_worker_truthful.
Qed.

Lemma in_turn_truthful es m m' : orderly m -> truthful m -> in_turn es m -> interleave hmac es m = Some m' ->
  truthful m'.
Proof.
  revert m. induction es as [|e es IH]; intros m Ho Hm; cbn; [by intros _ [= <-]|].
  intros [Hp Hrest]. destruct (step hmac e m) as [m1|] eqn:He; [|done]. cbn.
  apply IH; [by eapply step_orderly|by eapply step_truthful|done].
Qed.

(** C36: while commands take turns and workers do what their jobs do, what the runtime shows is true at
    every moment, inside a command too - while [stop] waits for the worker it took, while a start
    holds the slot. A worker at work is the only one and is shown: the phase is live, the transport is
    the one of its kind, and no paired connection is kept beside it. A live phase is shown only while a
    worker is at work, after a preview that ran out of frames, or in the two gaps inside a command: a
    start has reset the state and is about to create its thread, a stop has seen the worker end
    and is about to close. When a stop has answered, nobody is at work, the phase is Stopped and
    the session, if one is kept, is closed; when a disconnect has, no session over a link is at work and
    no connection is kept. *)
Theorem shown_session_is_true (usb : U) es m
  (Hturn : in_turn es (Machine.new usb)) (Hrun : interleave hmac es (Machine.new usb) = Some m) :
  (forall id t, Machine.threads m !! id = Some t -> Worker.ended (Thread.worker t) = None ->
     live_phase (SharedState.phase (Machine.shared m)) = true /\
     SharedState.transport (Machine.shared m) = kind_name (Worker.job (Thread.worker t)) /\
     Machine.tether m = None /\ forall id', at_work m id' -> id' = id) /\
  (live_phase (SharedState.phase (Machine.shared m)) = true ->
     (exists id, at_work m id) \/ preview_over m \/ exists i p, at_place m i p /\ transient p = true) /\
  (forall c, last (Machine.calls m) = Some c -> Call.place c = Done (Ok tt) ->
     match Call.request c with
     | Request.Stop => (forall id, ~ at_work m id) /\
       SharedState.phase (Machine.shared m) = SessionPhaseView.Stopped /\
       forall s, SharedState.session (Machine.shared m) = Some s -> Session.phase s = SessionPhase.Closed
     | Request.Disconnect => only_previews m /\ Machine.tether m = None
     | _ => True
     end).
Proof.
  pose proof (in_turn_truthful es _ m (new_orderly usb) (new_truthful usb) Hturn Hrun) as Hm. split_and!.
  - intros id t Ht He. destruct (working m Hm id t Ht He) as [_ _ Hn Hl Hteth]. split_and!; [done..|].
    intros id' Hw. pose proof (newest m Hm id' Hw). pose proof (newest m Hm id (ex_intro _ t (conj Ht He))). lia.
  - apply (explained m Hm).
  - intros c Hc Hp. rewrite last_lookup in Hc.
    pose proof (lookup_lt_Some _ _ _ Hc) as Hlt.
    pose proof (expected m Hm _ c Hc ltac:(lia)) as Hx. unfold expects in Hx. by rewrite Hp in Hx.
Qed.
End Turns.

Lemma in_turn_app `{AccessoryManager U} `{NativePlatform V C} `{Network W} hmac
  (es es' : list (Event.t U W)) m m' :
  in_turn (V:=V) (C:=C) hmac es m -> interleave hmac es m = Some m' ->
  in_turn (V:=V) (C:=C) hmac es' m' -> in_turn (V:=V) (C:=C) hmac (es ++ es') m.
Proof.
  revert m. induction es as [|e es IH]; intros m; cbn; [by intros _ [= <-]|].
  intros [Hp Hrest]. split; [done|]. destruct (step hmac e m) as [m1|]; [|done]. by apply (IH m1).
Qed.

Lemma interleave_app `{AccessoryManager U} `{Network W} hmac (es es' : list (Event.t U W)) m m1 m2 :
  interleave hmac es m = Some m1 -> interleave hmac es' m1 = Some m2 ->
  interleave hmac (es ++ es') m = Some m2.
Proof.
  revert m. induction es as [|e es IH]; intros m; cbn; [by intros [= <-]|].
  destruct (step hmac e m) as [m'|]; [|done]. cbn. apply IH.
Qed.

(** ** A preview and its stop, step by step *)
Module TurnsExamples.
Import ReconnectExamples TetherExamples RuntimeExamples ThreadsExamples.
#[local] Notation turn := (in_turn (V:=unit) (C:=unit) PairingExamples.keyed).
#[local] Notation after es m := (default m (interleave PairingExamples.keyed es m)).

Definition fresh : machine := Machine.new manager.
Definition begin_ : list event := [start_preview] ++ own 7 0.
Definition started : machine := after begin_ fresh.
(** The worker, by what it has observed. *)
Definition sees (o : Observed.t Portable.UsbAccessoryManager.t) (ended : option bool) : event :=
  match Machine.threads started with
  | t :: _ => Event.Works 0 (fst (run_job (V:=unit) (C:=unit) (Thread.worker t) o)) manager ended
  | [] => start_preview
  end.
Definition playing : machine := after [sees (seen shown) None] started.
Definition waiting : machine := after ([Event.Calls Request.Stop] ++ own 2 1) playing.
Definition joined : machine := after [sees stop_now (Some false)] waiting.
Definition over : machine := after (own 2 1) joined.

Lemma begin_in_turn : turn begin_ fresh /\ interleave PairingExamples.keyed begin_ fresh = Some started.
Proof. split; [|vm_compute; reflexivity]. vm_compute. repeat split; by try constructor. Qed.
Lemma play_in_turn : turn [sees (seen shown) None] started /\
  interleave PairingExamples.keyed [sees (seen shown) None] started = Some playing.
Proof.
  split; [|vm_compute; reflexivity]. split; [|by destruct (step _ _ _)].
  eexists. split; [vm_compute; reflexivity|]. exists (seen shown). split_and!; [|vm_compute; reflexivity|done].
  intros _. by repeat constructor.
Qed.
Lemma wait_in_turn : turn ([Event.Calls Request.Stop] ++ own 2 1) playing /\
  interleave PairingExamples.keyed ([Event.Calls Request.Stop] ++ own 2 1) playing = Some waiting.
Proof.
  split; [|vm_compute; reflexivity]. split.
  - split; [|done]. vm_compute. constructor; [by eexists|constructor].
  - vm_compute. done.
Qed.
Lemma join_in_turn : turn [sees stop_now (Some false)] waiting /\
  interleave PairingExamples.keyed [sees stop_now (Some false)] waiting = Some joined.
Proof.
  split; [|vm_compute; reflexivity]. split; [|by destruct (step _ _ _)].
  eexists. split; [vm_compute; reflexivity|]. exists stop_now.
  split_and!; [by vm_compute|vm_compute; reflexivity|done].
Qed.
Lemma over_in_turn : turn (own 2 1) joined /\ interleave PairingExamples.keyed (own 2 1) joined = Some over.
Proof. split; [by vm_compute|vm_compute; reflexivity]. Qed.

Definition all : list event :=
  begin_ ++ [sees (seen shown) None] ++ ([Event.Calls Request.Stop] ++ own 2 1) ++
  [sees stop_now (Some false)] ++ own 2 1.
Lemma all_in_turn : turn all fresh /\ interleave PairingExamples.keyed all fresh = Some over.
Proof.
  pose proof begin_in_turn as [A1 B1]. pose proof play_in_turn as [A2 B2]. pose proof wait_in_turn as [A3 B3].
  pose proof join_in_turn as [A4 B4]. pose proof over_in_turn as [A5 B5]. split.
  - exact (in_turn_app _ _ _ _ _ A1 B1 (in_turn_app _ _ _ _ _ A2 B2 (in_turn_app _ _ _ _ _ A3 B3
      (in_turn_app _ _ _ _ _ A4 B4 A5)))).
  - exact (interleave_app _ _ _ _ _ _ B1 (interleave_app _ _ _ _ _ _ B2 (interleave_app _ _ _ _ _ _ B3
      (interleave_app _ _ _ _ _ _ B4 B5)))).
Qed.

(** One picture is out, the stop has answered, and nobody is at work. *)
Lemma shown_session_is_true_witness :
  SharedState.frames_produced (Machine.shared over) = 1 /\
  SharedState.phase (Machine.shared over) = SessionPhaseView.Stopped /\ forall id, ~ at_work over id.
Proof.
  destruct all_in_turn as [Hturn Hrun].
  pose proof (shown_session_is_true (V:=unit) (C:=unit) PairingExamples.keyed manager all over Hturn Hrun)
    as (_ & _ & Hstop).
  assert (Hlast : exists c, last (Machine.calls over) = Some c /\ Call.place c = Place.Done (Ok tt) /\
    Call.request c = Request.Stop) by (eexists; split; [vm_compute; reflexivity|split; reflexivity]).
  destruct Hlast as (c & Hc & Hp & Hr). specialize (Hstop c Hc Hp). rewrite Hr in Hstop.
  split; [vm_compute; reflexivity|]. exact (conj (proj1 (proj2 Hstop)) (proj1 Hstop)).
Defined.
End TurnsExamples.
