(* ===== verification/WinDisplay.v ===== *)
(** * Windows displays

    Models the display part of [apps/desktop/src-tauri/src/platform/windows.rs]:
    the enumeration of monitors and how one is selected, and the mode switch
    that prepares the LadoFlow virtual display for a session. The answers of the
    Win32 calls are arguments, or operations of the class [DisplayOs] where they
    change the desktop; names arrive as strings, decoded from UTF-16. *)
From stdpp Require Import pretty.
From Stdlib Require Import OrdersEx.
From S2P Require Export RustText HostPlatform HostHandshake.
Local Open Scope string_scope.
Local Open Scope list_scope.
Local Open Scope Z_scope.

Definition DISPLAY_MODE_APPLY_TIMEOUT : Z := Duration.from_secs 5.
Definition DISPLAY_MODE_POLL_INTERVAL : Z := Duration.from_millis 50.
Definition MAX_ENUMERATED_DISPLAY_MODES : Z := 4096.
Definition MAX_REPORTED_DISPLAY_MODES : nat := 24.
Definition VIRTUAL_DISPLAY_REFRESH_HZ : Z := 60.

(** The rectangle of the Win32 interface, right and bottom exclusive. *)
Module RECT.
Record t : Type := mk { left_ : Z; top : Z; right_ : Z; bottom : Z }.
#[global] Instance t_eq_dec : EqDecision t.
Proof. solve_decision. Defined.
Record wf (r : t) : Prop := {
  wf_left : in_i 32 (left_ r);
  wf_top : in_i 32 (top r);
  wf_right : in_i 32 (right_ r);
  wf_bottom : in_i 32 (bottom r);
}.
End RECT.

Module MonitorSource.
Record t : Type := mk {
  handle : Z;
  rect : RECT.t;
  device_name : string;
  display : DisplaySource.t;
}.
Definition id (m : t) : string := DisplaySource.id (display m).
#[global] Instance t_eq_dec : EqDecision t.
Proof. solve_decision. Defined.
End MonitorSource.

Module DisplayMode.
Record t : Type := mk { width : Z; height : Z; refresh_hz : Z }.
#[global] Instance t_eq_dec : EqDecision t.
Proof. solve_decision. Defined.
End DisplayMode.

Module DisplayDeviceIdentity.
Record t : Type := mk { device_id : string; virtual_display : bool }.
Definition default : t := mk "" false.
End DisplayDeviceIdentity.

(** ** Identifying the virtual display *)
Definition is_alphanumeric (b : byte) : bool :=
  let v := byte_to_Z b in
  ((48 <=? v) && (v <=? 57)) || ((65 <=? v) && (v <=? 90)) || ((97 <=? v) && (v <=? 122)).
Definition to_lower (b : byte) : byte :=
  let v := byte_to_Z b in if (65 <=? v) && (v <=? 90) then byte_of_Z (v + 32) else b.

(** [str::contains] for a string pattern. *)
Fixpoint contains (pattern l : list byte) : bool :=
  bool_decide (pattern `prefix_of` l) || match l with [] => false | _ :: l => contains pattern l end.

(** The bytes of other characters are never alphanumeric. *)
Definition is_ladoflow_virtual_identity (parts : list string) : bool :=
  let normalized := map to_lower (filter (fun b => is_alphanumeric b = true) (parts ≫= str)) in
  contains (str "ladoflowvirtualdisplay") normalized.

(** What [EnumDisplayDevicesW] says of one adapter and of its first monitor. *)
Module Adapter.
Record t : Type := mk {
  device_name : string;
  device_string : string;
  device_id : string;
  device_key : string;
  monitor : option (string * string * string);
}.
End Adapter.

Definition eq_ignore_ascii_case (a b : string) : bool :=
  bool_decide (map to_lower (str a) = map to_lower (str b)).

(** The loop over the adapters: the first sixty-four that Windows reports. *)
Fixpoint find_identity (adapters : list Adapter.t) (expected_name : string) : DisplayDeviceIdentity.t :=
  match adapters with
  | [] => DisplayDeviceIdentity.default
  | adapter :: adapters =>
    if negb (eq_ignore_ascii_case (Adapter.device_name adapter) expected_name)
    then find_identity adapters expected_name
    else
      let identity_parts :=
        [Adapter.device_string adapter; Adapter.device_id adapter; Adapter.device_key adapter] ++
        match Adapter.monitor adapter with Some (s, i, k) => [s; i; k] | None => [] end in
      let device_id := default "" (List.find (fun value => negb (bool_decide (value = ""))) (drop 1 identity_parts)) in
      DisplayDeviceIdentity.mk device_id (is_ladoflow_virtual_identity identity_parts)
  end.

Definition query_display_device_identity (adapters : list Adapter.t) (device_name : string)
  : DisplayDeviceIdentity.t :=
  if bool_decide (device_name = "") then DisplayDeviceIdentity.default
  else find_identity (take 64 adapters) device_name.

(** ** Enumerating monitors *)

(** One monitor as [EnumDisplayMonitors] hands it to the callback, with the
    printed handle, the answer of [GetMonitorInfoW] and the adapters listed while
    the callback runs. *)
Module Found.
Record t : Type := mk {
  handle : Z;
  printed_handle : string;
  info : string + (RECT.t * string * bool);
  adapters : list Adapter.t;
}.
End Found.

(** The callback: an error stops the enumeration. *)
Definition enumerate_monitor (monitor : Found.t)
  : outcome string MonitorSource.t :=
  match Found.info monitor with
  | inl error => Err ("GetMonitorInfoW failed: " +:+ error)
  | inr (rect, device_path, primary) =>
    let width := RECT.right_ rect - RECT.left_ rect in
    let height := RECT.bottom rect - RECT.top rect in
    if (width <? 0) || (height <? 0) then Err "GetMonitorInfoW returned invalid monitor geometry"
    else if (width =? 0) || (height =? 0) then Err "GetMonitorInfoW returned an empty monitor rectangle"
    else
      let identity := query_display_device_identity (Found.adapters monitor) device_path in
      let id :=
        if DisplayDeviceIdentity.virtual_display identity &&
           negb (bool_decide (DisplayDeviceIdentity.device_id identity = ""))
        then "ladoflow:" +:+ DisplayDeviceIdentity.device_id identity
        else if bool_decide (device_path = "") then "hmonitor:" +:+ Found.printed_handle monitor
        else device_path in
      let name :=
        if DisplayDeviceIdentity.virtual_display identity then "LadoFlow Virtual Display"
        else
          let stripped := if String.prefix "\\.\" device_path
            then String.substring 4 (String.length device_path - 4) device_path else "" in
          if bool_decide (stripped = "") then "Windows display" else stripped in
      Ok (MonitorSource.mk (Found.handle monitor) rect device_path
            (DisplaySource.mk id name width height primary (DisplayDeviceIdentity.virtual_display identity)))
  end.

(** What [EnumDisplayMonitors] visits, and an error it reports itself. *)
Module Enumeration.
Record t : Type := mk { found : list Found.t; failed : option string }.
End Enumeration.

Fixpoint visit_monitors (found : list Found.t) : outcome string (list MonitorSource.t) :=
  match found with
  | [] => Ok []
  | monitor :: found =>
    let! source := enumerate_monitor monitor in
    let! rest := visit_monitors found in
    Ok (source :: rest)
  end.

(** Primary first, then by identifier. *)
Definition shown_before (left right : MonitorSource.t) : bool :=
  match DisplaySource.primary (MonitorSource.display left), DisplaySource.primary (MonitorSource.display right) with
  | true, false => true
  | false, true => false
  | _, _ => match String.compare (MonitorSource.id left) (MonitorSource.id right) with Gt => false | _ => true end
  end.

(** [retain] with a set of the identifiers seen. *)
Fixpoint retain_new (ids : list string) (monitors : list MonitorSource.t) : list MonitorSource.t :=
  match monitors with
  | [] => []
  | monitor :: monitors =>
    if bool_decide (MonitorSource.id monitor ∈ ids) then retain_new ids monitors
    else monitor :: retain_new (MonitorSource.id monitor :: ids) monitors
  end.

Definition enumerate_monitors (e : Enumeration.t) : outcome string (list MonitorSource.t) :=
  let! monitors := visit_monitors (Enumeration.found e) in
  match Enumeration.failed e with
  | Some error => Err ("EnumDisplayMonitors returned false: " +:+ error)
  | None => Ok (retain_new [] (sort_by shown_before monitors))
  end.

Definition enumerate_display_sources (e : Enumeration.t) : outcome string (list DisplaySource.t) :=
  let! monitors := enumerate_monitors e in Ok (map MonitorSource.display monitors).

(** ** Selecting a monitor *)
Definition select_monitor (monitors : list MonitorSource.t) (display_id : option string)
  : outcome string MonitorSource.t :=
  match display_id with
  | Some id =>
    ok_or (List.find (fun monitor => bool_decide (MonitorSource.id monitor = id)) monitors)
      ("selected Windows display `" +:+ id +:+ "` is no longer available")
  | None =>
    ok_or (match List.find (fun monitor => DisplaySource.primary (MonitorSource.display monitor)) monitors with
           | Some monitor => Some monitor
           | None => head monitors
           end) "Windows reported no active display sources"
  end.

Definition alignment_target (monitors : list MonitorSource.t) (display_id : option string)
  : outcome string (option MonitorSource.t) :=
  match display_id with
  | None => Ok None
  | Some display_id =>
    let! monitor := select_monitor monitors (Some display_id) in
    if negb (DisplaySource.virtual_display (MonitorSource.display monitor)) then Ok None
    else if bool_decide (MonitorSource.device_name monitor = "")
    then Err "LadoFlow virtual display has no Win32 device name"
    else Ok (Some monitor)
  end.

(** ** Display modes *)

(** [DEVMODEW]: the members the code reads or writes, and the others. *)
Module DEVMODEW.
Record t : Type := mk {
  dmFields : Z;
  dmPelsWidth : Z;
  dmPelsHeight : Z;
  dmDisplayFrequency : Z;
  others : list byte;
}.
#[global] Instance t_eq_dec : EqDecision t.
Proof. solve_decision. Defined.
End DEVMODEW.

(** The Win32 constants the code names. *)
Class DisplayConstants : Type := {
  DM_PELSWIDTH : Z;
  DM_PELSHEIGHT : Z;
  DM_DISPLAYFREQUENCY : Z;
  DISP_CHANGE_SUCCESSFUL : Z;
  DISP_CHANGE_BADDUALVIEW : Z;
  DISP_CHANGE_BADFLAGS : Z;
  DISP_CHANGE_BADMODE : Z;
  DISP_CHANGE_BADPARAM : Z;
  DISP_CHANGE_FAILED : Z;
  DISP_CHANGE_NOTUPDATED : Z;
  DISP_CHANGE_RESTART : Z;
}.

(** The flags of [ChangeDisplaySettingsExW] the code passes. *)
Inductive CDS_TYPE : Type :=
| CDS_TEST
| CDS_LIVE.

(** The desktop: [W] is everything outside the program. [mode_at] is
    [EnumDisplaySettingsExW] with an index, [current_mode] the same call with
    [ENUM_CURRENT_SETTINGS]. *)
Class DisplayOs (W : Type) : Type := {
  enum_display_monitors : W -> W * Enumeration.t;
  current_mode : W -> string -> W * option DEVMODEW.t;
  mode_at : W -> string -> Z -> W * option DEVMODEW.t;
  change_display_settings : W -> string -> DEVMODEW.t -> CDS_TYPE -> W * Z;
  now : W -> W * Z;
  sleep : W -> Z -> W;
}.

Definition display_mode_from_native (mode : DEVMODEW.t) : DisplayMode.t :=
  DisplayMode.mk (DEVMODEW.dmPelsWidth mode) (DEVMODEW.dmPelsHeight mode) (DEVMODEW.dmDisplayFrequency mode).

Definition select_exact_display_mode (modes : list DisplayMode.t) (width height refresh_hz : Z)
  : option DisplayMode.t :=
  List.find (fun mode => (DisplayMode.width mode =? width) && (DisplayMode.height mode =? height) &&
                         (DisplayMode.refresh_hz mode =? refresh_hz)) modes.

(** The order of the keys [(width, height, refresh_hz)]. *)
Definition mode_le (a b : DisplayMode.t) : bool :=
  (DisplayMode.width a <? DisplayMode.width b) ||
  ((DisplayMode.width a =? DisplayMode.width b) &&
   ((DisplayMode.height a <? DisplayMode.height b) ||
    ((DisplayMode.height a =? DisplayMode.height b) &&
     (DisplayMode.refresh_hz a <=? DisplayMode.refresh_hz b)))).

Definition show_mode (mode : DisplayMode.t) : string :=
  pretty (DisplayMode.width mode) +:+ "x" +:+ pretty (DisplayMode.height mode) +:+ "@" +:+
  pretty (DisplayMode.refresh_hz mode).

Definition format_display_modes (modes : list DisplayMode.t) : string :=
  let formatted := String.concat ", " (map show_mode (take MAX_REPORTED_DISPLAY_MODES modes)) in
  if (MAX_REPORTED_DISPLAY_MODES <? length modes)%nat
  then formatted +:+ ", ... (" +:+ pretty (length modes - MAX_REPORTED_DISPLAY_MODES)%nat +:+ " more)"
  else formatted.

Section mode_switch.
Context {W : Type} `{DisplayConstants} `{DisplayOs W}.

Definition query_current_native_display_mode (w : W) (device_name : string)
  : W * outcome string DEVMODEW.t :=
  let (w, mode) := current_mode w device_name in
  (w, ok_or mode ("EnumDisplaySettingsExW could not read the current mode for " +:+ device_name)).

Definition query_current_display_mode (w : W) (device_name : string) : W * outcome string DisplayMode.t :=
  let (w, mode) := query_current_native_display_mode w device_name in
  let? mode := mode keeping w in (w, Ok (display_mode_from_native mode)).

(** The modes from [index] on; [None] where [limit] answers did not end them. *)
Fixpoint read_modes (limit : nat) (w : W) (device_name : string) (index : Z)
  : W * option (list DisplayMode.t) :=
  match limit with
  | O => (w, None)
  | S limit =>
    let (w, mode) := mode_at w device_name index in
    match mode with
    | None => (w, Some [])
    | Some mode =>
      let (w, rest) := read_modes limit w device_name (index + 1) in
      (w, option_map (cons (display_mode_from_native mode)) rest)
    end
  end.

Definition enumerate_display_modes (w : W) (device_name : string) : W * outcome string (list DisplayMode.t) :=
  let (w, modes) := read_modes (Z.to_nat MAX_ENUMERATED_DISPLAY_MODES) w device_name 0 in
  match modes with
  | None =>
    (w, Err ("Windows display-mode enumeration for " +:+ device_name +:+ " exceeded the " +:+
             pretty MAX_ENUMERATED_DISPLAY_MODES +:+ "-entry safety bound"))
  | Some modes =>
    let modes := dedup (sort_by mode_le modes) in
    (w, if bool_decide (modes = [])
        then Err ("Windows reported no display modes for LadoFlow device " +:+ device_name)
        else Ok modes)
  end.

Definition ensure_display_change_success (operation : string) (result : Z) : outcome string unit :=
  if result =? DISP_CHANGE_SUCCESSFUL then Ok tt
  else
    let reason :=
      if result =? DISP_CHANGE_BADDUALVIEW then "dual-view configuration rejected"
      else if result =? DISP_CHANGE_BADFLAGS then "invalid mode-switch flags"
      else if result =? DISP_CHANGE_BADMODE then "display mode is not supported"
      else if result =? DISP_CHANGE_BADPARAM then "invalid display-mode parameter"
      else if result =? DISP_CHANGE_FAILED then "display driver rejected the request"
      else if result =? DISP_CHANGE_NOTUPDATED then "display profile could not be updated"
      else if result =? DISP_CHANGE_RESTART then "Windows requires a restart for this mode"
      else "unknown display-mode error" in
    Err ("failed to " +:+ operation +:+ " LadoFlow virtual display mode: " +:+ reason +:+
         " (DISP_CHANGE " +:+ pretty result +:+ ")").

(** The structure handed to Windows: the one it returned, with three members
    and the mask that opts them in. *)
Definition opted_in (mode : DEVMODEW.t) (requested : DisplayMode.t) : DEVMODEW.t :=
  DEVMODEW.mk (Z.lor (Z.lor DM_PELSWIDTH DM_PELSHEIGHT) DM_DISPLAYFREQUENCY)
    (DisplayMode.width requested) (DisplayMode.height requested) (DisplayMode.refresh_hz requested)
    (DEVMODEW.others mode).

Definition apply_display_mode (w : W) (device_name : string) (requested : DisplayMode.t)
  : W * outcome string unit :=
  let (w, mode) := query_current_native_display_mode w device_name in
  let? mode := mode keeping w in
  let mode := opted_in mode requested in
  let (w, test_result) := change_display_settings w device_name mode CDS_TEST in
  let? _ := ensure_display_change_success "validate" test_result keeping w in
  let (w, apply_result) := change_display_settings w device_name mode CDS_LIVE in
  (w, ensure_display_change_success "apply" apply_result).

(** One turn of the waiting loop: [Ok] when the mode is in effect, otherwise
    [last_observation]. *)
Definition observe_display_mode (w : W) (display_id : string) (requested : DisplayMode.t)
  : W * outcome string unit :=
  let (w, e) := enum_display_monitors w in
  let? monitor := (let! monitors := enumerate_monitors e in select_monitor monitors (Some display_id)) keeping w in
  let width := DisplaySource.width (MonitorSource.display monitor) in
  let height := DisplaySource.height (MonitorSource.display monitor) in
  let (w, current) := query_current_display_mode w (MonitorSource.device_name monitor) in
  let? current := current keeping w in
  (w, if (width =? DisplayMode.width requested) && (height =? DisplayMode.height requested) &&
         bool_decide (current = requested)
      then Ok tt
      else Err ("observed " +:+ pretty width +:+ "x" +:+ pretty height +:+ " geometry and " +:+
                show_mode current +:+ " Hz current mode")).

Fixpoint await_display_mode (fuel : nat) (w : W) (display_id : string) (requested : DisplayMode.t)
    (timeout deadline : Z) : W * outcome string unit :=
  match fuel with
  | O => (w, Fault OutOfFuel)
  | S fuel =>
    let (w, observed) := observe_display_mode w display_id requested in
    match observed with
    | Ok _ => (w, Ok tt)
    | Fault f => (w, Fault f)
    | Err last_observation =>
      let (w, instant) := now w in
      if deadline <=? instant
      then (w, Err ("LadoFlow virtual display did not reach " +:+ show_mode requested +:+
                    " Hz within " +:+ pretty (Duration.as_secs timeout) +:+ " seconds (" +:+
                    last_observation +:+ ")"))
      else await_display_mode fuel (sleep w DISPLAY_MODE_POLL_INTERVAL) display_id requested timeout deadline
    end
  end.

Definition wait_for_display_mode (fuel : nat) (w : W) (display_id : string) (requested : DisplayMode.t)
    (timeout : Z) : W * outcome string unit :=
  let (w, start) := now w in
  await_display_mode fuel w display_id requested timeout (start + timeout).

Definition prepare_capture_display_mode (fuel : nat) (w : W) (display_id : option string) (width height : Z)
  : W * outcome string unit :=
  if (width =? 0) || (height =? 0)
  then (w, Err "negotiated Windows display dimensions must be non-zero")
  else
    let (w, e) := enum_display_monitors w in
    let? target := (let! monitors := enumerate_monitors e in alignment_target monitors display_id) keeping w in
    match target with
    | None => (w, Ok tt)
    | Some target =>
      let device_name := MonitorSource.device_name target in
      let display_id := MonitorSource.id target in
      let (w, current) := query_current_display_mode w device_name in
      let? current := current keeping w in
      if bool_decide (current = DisplayMode.mk width height VIRTUAL_DISPLAY_REFRESH_HZ) then (w, Ok tt)
      else
        let (w, available) := enumerate_display_modes w device_name in
        let? available := available keeping w in
        let? requested :=
          ok_or (select_exact_display_mode available width height VIRTUAL_DISPLAY_REFRESH_HZ)
            ("LadoFlow virtual display does not advertise " +:+
             show_mode (DisplayMode.mk width height VIRTUAL_DISPLAY_REFRESH_HZ) +:+
             " Hz; available modes: " +:+ format_display_modes available) keeping w in
        let (w, applied) := apply_display_mode w device_name requested in
        let? _ := applied keeping w in
        wait_for_display_mode fuel w display_id requested DISPLAY_MODE_APPLY_TIMEOUT
    end.
End mode_switch.

(** ** The list of monitors *)

(** The order of strings is that of the library's ordered type. *)
Lemma compare_strings_spec a b :
  CompSpec eq String_as_OT.lt a b (String.compare a b).
Proof. exact (String_as_OT.compare_spec a b). Qed.

Lemma compare_le_trans a b c :
  String.compare a b <> Gt -> String.compare b c <> Gt -> String.compare a c <> Gt.
Proof.
  pose proof (irreflexivity String_as_OT.lt) as Hirr.
  destruct (compare_strings_spec a b) as [->|Hab|]; [by intros _| |done].
  destruct (compare_strings_spec b c) as [->|Hbc|]; intros _ Hle Hac; try done;
    destruct (compare_strings_spec a c) as [|?|Hca]; try done; eapply Hirr.
  - by etransitivity.
  - etransitivity; [exact Hca|]. by etransitivity.
Qed.

Lemma shown_before_total a b : shown_before a b = false -> shown_before b a = true.
Proof.
  unfold shown_before. rewrite (String.compare_antisym (MonitorSource.id b)).
  repeat case_match; simplify_eq/=; done.
Qed.

Lemma shown_before_trans a b c :
  shown_before a b = true -> shown_before b c = true -> shown_before a c = true.
Proof.
  unfold shown_before. pose proof (compare_le_trans (MonitorSource.id a) (MonitorSource.id b) (MonitorSource.id c)).
  repeat case_match; simplify_eq/=; done || (exfalso; by apply H).
Qed.

Lemma retain_new_new ids ms m : m ∈ retain_new ids ms -> MonitorSource.id m ∉ ids.
Proof.
  revert ids. induction ms as [|n ms IH]; intros ids; simpl; [by intros ?%not_elem_of_nil|].
  case_bool_decide as Hn; [apply IH|]. rewrite elem_of_cons. intros [->|Hm]; [done|].
  apply IH in Hm. by intros ?; apply Hm; right.
Qed.

Lemma retain_new_nodup ids ms : NoDup (map MonitorSource.id (retain_new ids ms)).
Proof.
  revert ids. induction ms as [|n ms IH]; intros ids; simpl; [constructor|].
  case_bool_decide; [apply IH|]. simpl. constructor; [|apply IH].
  intros (m & Hm & Hin)%list_elem_of_fmap. apply retain_new_new in Hin.
  apply Hin. rewrite <-Hm. by left.
Qed.

Lemma retain_new_sublist ids ms : retain_new ids ms `sublist_of` ms.
Proof.
  revert ids. induction ms as [|n ms IH]; intros ids; simpl; [constructor|].
  case_bool_decide; constructor; apply IH.
Qed.

Lemma retain_new_complete ids ms m :
  m ∈ ms -> MonitorSource.id m ∉ ids -> MonitorSource.id m ∈ map MonitorSource.id (retain_new ids ms).
Proof.
  revert ids. induction ms as [|n ms IH]; intros ids; [by intros ?%not_elem_of_nil|].
  rewrite elem_of_cons. intros Hm Hnew. simpl. case_bool_decide as Hn.
  - destruct Hm as [->|Hm]; [done|]. by apply IH.
  - simpl. destruct (decide (MonitorSource.id m = MonitorSource.id n)) as [->|Hne]; [by left|right].
    destruct Hm as [->|Hm]; [done|]. apply IH; [done|]. by rewrite elem_of_cons; intros [?|?].
Qed.

Lemma visit_monitors_ok found all :
  visit_monitors found = Ok all <-> Forall2 (fun f m => enumerate_monitor f = Ok m) found all.
Proof.
  revert all. induction found as [|f found IH]; intros all; simpl.
  - split; [intros [= <-]; constructor|by inversion 1].
  - split.
    + intros Hv. inv_ok. subst. constructor; [done|]. by apply IH.
    + inversion_clear 1 as [|? ? ? rest Hf Hr]. apply IH in Hr. by rewrite Hf, Hr.
Qed.

Lemma enumerate_monitors_ok e ms :
  enumerate_monitors e = Ok ms ->
  exists all, Forall2 (fun f m => enumerate_monitor f = Ok m) (Enumeration.found e) all /\
    Enumeration.failed e = None /\ ms = retain_new [] (sort_by shown_before all).
Proof.
  unfold enumerate_monitors. intros He. inv_ok. case_match; inv_ok.
  eexists. split; [by apply visit_monitors_ok|done].
Qed.

Lemma enumerate_monitors_returns e : returns (enumerate_monitors e).
Proof.
  apply returns_obind; [|intros; case_match; exact I]. induction (Enumeration.found e) as [|f found IH]; simpl; [exact I|].
  apply returns_obind; [|intros; apply returns_obind; auto with rust].
  unfold enumerate_monitor. by repeat case_match.
Qed.

(** In a list sorted with the primary display first, the head is the first
    primary one or, without any, just the head. *)
Lemma sorted_default ms :
  StronglySorted (fun a b => shown_before a b = true) ms ->
  select_monitor ms None = ok_or (head ms) "Windows reported no active display sources".
Proof.
  destruct ms as [|m ms]; [done|]. intros [_ Hm]%StronglySorted_inv. unfold select_monitor.
  destruct (DisplaySource.primary (MonitorSource.display m)) eqn:Hp; cbn [List.find]; rewrite Hp; [done|].
  destruct (List.find _ ms) as [n|] eqn:Hn; [|done]. exfalso.
  apply find_some in Hn as [Hin Hpn]. rewrite Forall_forall in Hm.
  apply list_elem_of_In, Hm in Hin. unfold shown_before in Hin. by rewrite Hp, Hpn in Hin.
Qed.

Lemma find_by_id ms m :
  NoDup (map MonitorSource.id ms) -> m ∈ ms -> select_monitor ms (Some (MonitorSource.id m)) = Ok m.
Proof.
  induction ms as [|n ms IH]; simpl; [by intros _ ?%not_elem_of_nil|].
  intros [Hn Hnd]%NoDup_cons. rewrite elem_of_cons. case_bool_decide as Hid.
  - intros [->|Hm]; [done|]. destruct Hn. rewrite Hid. by apply list_elem_of_fmap_2.
  - intros [->|Hm]; [done|]. by apply IH.
Qed.

(** The list of monitors a successful enumeration shows contains only
    monitors Windows reported, one for each identifier reported, the primary
    display first and the others by identifier; without a choice the head of the
    list is selected, and every listed display is found by its identifier. *)
Theorem monitors_are_distinct_and_ordered e ms :
  enumerate_monitors e = Ok ms ->
  (exists all, Forall2 (fun f m => enumerate_monitor f = Ok m) (Enumeration.found e) all /\
    (forall m, m ∈ ms -> m ∈ all) /\
    (forall m, m ∈ all -> MonitorSource.id m ∈ map MonitorSource.id ms)) /\
  NoDup (map MonitorSource.id ms) /\
  StronglySorted (fun a b => shown_before a b = true) ms /\
  select_monitor ms None = ok_or (head ms) "Windows reported no active display sources" /\
  (forall m, m ∈ ms -> select_monitor ms (Some (MonitorSource.id m)) = Ok m).
Proof.
  intros (all & Hall & _ & ->)%enumerate_monitors_ok.
  pose proof (retain_new_sublist [] (sort_by shown_before all)) as Hsub.
  pose proof (retain_new_nodup [] (sort_by shown_before all)) as Hnd.
  assert (StronglySorted (fun a b => shown_before a b = true) (retain_new [] (sort_by shown_before all))) as Hs.
  { eapply sublist_sorted; [exact Hsub|]. apply sort_by_sorted; eauto using shown_before_total, shown_before_trans. }
  split_and!; [|done|done|by apply sorted_default|].
  - exists all. split; [done|]. split; intros m Hm.
    + apply (elem_of_sort_by shown_before). by eapply elem_of_submseteq; [|apply sublist_submseteq].
    + apply retain_new_complete; [by apply elem_of_sort_by|]. apply not_elem_of_nil.
  - intros m Hm. by apply find_by_id.
Qed.

(** ** What a mode switch asks of Windows *)

(** A desktop that records the answers the program reads and every change it
    asks for, with its answer. *)
Module DisplayCall.
Inductive t : Type :=
| Enumerated (e : Enumeration.t)
| Current (device : string) (mode : option DEVMODEW.t)
| Changed (device : string) (mode : DEVMODEW.t) (flags : CDS_TYPE) (answer : Z).
Definition changes (call : t) : bool := if call is Changed _ _ _ _ then true else false.
End DisplayCall.

Definition recorded {W A} (log : list DisplayCall.t) (answer : W * A) : W * list DisplayCall.t * A :=
  (fst answer, log, snd answer).

#[export] Instance recording_desktop `{DisplayOs W} : DisplayOs (W * list DisplayCall.t) := {
  enum_display_monitors w :=
    let answer := enum_display_monitors (fst w) in
    recorded (snd w ++ [DisplayCall.Enumerated (snd answer)]) answer;
  current_mode w name :=
    let answer := current_mode (fst w) name in
    recorded (snd w ++ [DisplayCall.Current name (snd answer)]) answer;
  mode_at w name index := recorded (snd w) (mode_at (fst w) name index);
  change_display_settings w name mode flags :=
    let answer := change_display_settings (fst w) name mode flags in
    recorded (snd w ++ [DisplayCall.Changed name mode flags (snd answer)]) answer;
  now w := recorded (snd w) (now (fst w));
  sleep w d := (sleep (fst w) d, snd w);
}.

(** The documented behaviour of the clock: it never runs backwards, a call takes
    no negative time, and a sleep lasts at least as long as asked. *)
Class DisplayOsLaws (W : Type) `{DisplayOs W} : Type := {
  clock : W -> Z;
  clock_enum w : clock w <= clock (fst (enum_display_monitors w));
  clock_current w name : clock w <= clock (fst (current_mode w name));
  clock_now w : clock w <= snd (now w) <= clock (fst (now w));
  clock_sleep w d : clock w + d <= clock (sleep w d);
}.

(** No change among the calls. *)
Definition quiet (calls : list DisplayCall.t) : Prop :=
  Forall (fun call => DisplayCall.changes call = false) calls.

Section switching.
Context `{DisplayConstants}.

(** A structure Windows returned reads as a mode. *)
Definition shows (mode : DEVMODEW.t) (asked : DisplayMode.t) : Prop :=
  DEVMODEW.dmPelsWidth mode = DisplayMode.width asked /\
  DEVMODEW.dmPelsHeight mode = DisplayMode.height asked /\
  DEVMODEW.dmDisplayFrequency mode = DisplayMode.refresh_hz asked.

(** The structure to send: the returned one with the size and the rate of the
    mode, whose mask opts in these three members and no other. *)
Definition retimed (native sent : DEVMODEW.t) (asked : DisplayMode.t) : Prop :=
  shows sent asked /\ DEVMODEW.others sent = DEVMODEW.others native /\
  forall bit, 0 <= bit -> Z.testbit (DEVMODEW.dmFields sent) bit =
    Z.testbit DM_PELSWIDTH bit || Z.testbit DM_PELSHEIGHT bit || Z.testbit DM_DISPLAYFREQUENCY bit.

(** A switch of one device: the current structure is read, its retimed copy is
    tested and, only when Windows accepts it, applied; nothing is changed later. *)
Inductive switched (device : string) (asked : DisplayMode.t) : list DisplayCall.t -> Prop :=
| switch_unread :
    switched device asked [DisplayCall.Current device None]
| switch_refused native sent answer :
    retimed native sent asked -> answer <> DISP_CHANGE_SUCCESSFUL ->
    switched device asked
      [DisplayCall.Current device (Some native); DisplayCall.Changed device sent CDS_TEST answer]
| switch_made native sent answer later :
    retimed native sent asked -> quiet later ->
    switched device asked
      (DisplayCall.Current device (Some native) ::
       DisplayCall.Changed device sent CDS_TEST DISP_CHANGE_SUCCESSFUL ::
       DisplayCall.Changed device sent CDS_LIVE answer :: later).

(** What a finished preparation may have asked of Windows, for the mode [asked]. *)
Definition confined (display_id : option string) (asked : DisplayMode.t)
    (calls : list DisplayCall.t) : Prop :=
  quiet calls \/
  exists e monitors target before after,
    calls = DisplayCall.Enumerated e :: before ++ after /\
    enumerate_monitors e = Ok monitors /\ target ∈ monitors /\
    display_id = Some (MonitorSource.id target) /\
    DisplaySource.virtual_display (MonitorSource.display target) = true /\
    quiet before /\ switched (MonitorSource.device_name target) asked after.

(** The last calls read the mode off the display: its geometry among the
    monitors and the current structure of its device. *)
Definition observed (id : string) (asked : DisplayMode.t) (calls : list DisplayCall.t) : Prop :=
  exists e monitors monitor shown,
    calls = [DisplayCall.Enumerated e;
             DisplayCall.Current (MonitorSource.device_name monitor) (Some shown)] /\
    enumerate_monitors e = Ok monitors /\ monitor ∈ monitors /\ MonitorSource.id monitor = id /\
    DisplaySource.width (MonitorSource.display monitor) = DisplayMode.width asked /\
    DisplaySource.height (MonitorSource.display monitor) = DisplayMode.height asked /\
    shows shown asked.

(** Why it may have succeeded: no display chosen or a physical one, the mode
    already in effect, or the switch accepted and the mode observed after it. *)
Definition aligned (display_id : option string) (asked : DisplayMode.t)
    (calls : list DisplayCall.t) : Prop :=
  exists e monitors rest,
    calls = DisplayCall.Enumerated e :: rest /\ enumerate_monitors e = Ok monitors /\
    (display_id = None /\ rest = [] \/
     exists target, target ∈ monitors /\ display_id = Some (MonitorSource.id target) /\
       (DisplaySource.virtual_display (MonitorSource.display target) = false /\ rest = [] \/
        (exists shown, shows shown asked /\
          rest = [DisplayCall.Current (MonitorSource.device_name target) (Some shown)]) \/
        exists before sent later last, rest = before ++
            DisplayCall.Changed (MonitorSource.device_name target) sent CDS_LIVE DISP_CHANGE_SUCCESSFUL ::
            later ++ last /\ observed (MonitorSource.id target) asked last)).
End switching.

(** The calls a step adds to the log. *)
Definition logs {W} (w w' : W * list DisplayCall.t) (calls : list DisplayCall.t) : Prop :=
  snd w' = snd w ++ calls.

Lemma logs_nil {W} (w : W * list DisplayCall.t) : logs w w [].
Proof. unfold logs. by rewrite app_nil_r. Qed.

Lemma logs_trans {W} (w1 w2 w3 : W * list DisplayCall.t) calls1 calls2 :
  logs w1 w2 calls1 -> logs w2 w3 calls2 -> logs w1 w3 (calls1 ++ calls2).
Proof. unfold logs. intros -> ->. by rewrite app_assoc. Qed.

Lemma logs_cons {W} (w w' : W * list DisplayCall.t) x call calls :
  logs (x, snd w ++ [call]) w' calls -> logs w w' (call :: calls).
Proof. unfold logs. simpl. intros ->. by rewrite <-app_assoc. Qed.

Section confinement.
Context {W : Type} `{DisplayConstants} `{DisplayOs W}.
Implicit Types (w : W * list DisplayCall.t).

Lemma query_current_logs w name w' r :
  query_current_display_mode w name = (w', r) ->
  exists mode, logs w w' [DisplayCall.Current name mode] /\
    forall asked, r = Ok asked -> exists native, mode = Some native /\ shows native asked.
Proof.
  unfold query_current_display_mode, query_current_native_display_mode. simpl.
  destruct (snd (current_mode _ _)) as [native|]; simpl; intros [= <- <-].
  - exists (Some native). split; [done|]. intros asked [= <-]. by exists native.
  - exists None. by split.
Qed.

Lemma observe_logs w id requested w' r :
  observe_display_mode w id requested = (w', r) ->
  exists calls, logs w w' calls /\ quiet calls /\ (r = Ok tt -> observed id requested calls).
Proof.
  unfold observe_display_mode. simpl. set (e := snd (enum_display_monitors (fst w))).
  destruct (let! monitors := enumerate_monitors e in _) as [monitor|?|?] eqn:Hm; simpl.
  2, 3: intros [= <- <-]; exists [DisplayCall.Enumerated e]; (split_and!; [done|by constructor|done]).
  apply obind_ok_inv in Hm as (monitors & He & Hm). apply ok_or_ok_inv, find_some in Hm as [Hin Hid].
  bool_to_Z. destruct (query_current_display_mode _ _) as [w1 c] eqn:Hq.
  apply query_current_logs in Hq as (mode & Hlog & Hmode). destruct c as [current|?|?]; simpl.
  2, 3: intros [= <- <-]; eexists; (split; [exact (logs_cons _ _ _ _ _ Hlog)|]);
    (split; [by repeat constructor|done]).
  destruct (Hmode _ eq_refl) as (native & -> & Hshows).
  intros [= <- <-]. eexists. split; [exact (logs_cons _ _ _ _ _ Hlog)|].
  split; [by repeat constructor|]. destruct (_ && bool_decide _) eqn:Hall; [|done]. intros _. bool_to_Z.
  exists e, monitors, monitor, native. subst. split_and!; [done|done|by apply list_elem_of_In|done..].
Qed.

Lemma await_logs fuel w id requested timeout deadline w' r :
  await_display_mode fuel w id requested timeout deadline = (w', r) ->
  exists calls, logs w w' calls /\ quiet calls /\
    (r = Ok tt -> exists later last, calls = later ++ last /\ observed id requested last).
Proof.
  revert w. induction fuel as [|fuel IH]; intros w; simpl.
  { intros [= <- <-]. exists []. split_and!; [apply logs_nil|constructor|done]. }
  destruct (observe_display_mode w id requested) as [w1 o] eqn:Ho.
  apply observe_logs in Ho as (calls & Hlog & Hq & Hok).
  destruct o as [[]|e|f]; simpl.
  - intros [= <- <-]. exists calls. split_and!; [done..|]. intros _. exists [], calls. auto.
  - case_match; [intros [= <- <-]; exists calls; by split_and!|].
    intros (calls' & Hlog' & Hq' & Hok')%IH. exists (calls ++ calls').
    split_and!; [exact (logs_trans _ _ _ _ _ Hlog Hlog')|by apply Forall_app|].
    intros (later & last & -> & Hl)%Hok'. exists (calls ++ later), last. by rewrite app_assoc.
  - intros [= <- <-]. exists calls. by split_and!.
Qed.

Lemma read_modes_quiet limit w name index w' r :
  read_modes limit w name index = (w', r) -> snd w' = snd w.
Proof.
  revert w index w' r. induction limit as [|limit IH]; intros w index w' r; simpl; [by intros [= <- _]|].
  destruct (snd (mode_at _ _ _)); [|by intros [= <- _]].
  destruct (read_modes _ _ _ _) as [w1 rest] eqn:Hr. intros [= <- _]. apply IH in Hr. by rewrite Hr.
Qed.

Lemma enumerate_modes_logs w name w' r :
  enumerate_display_modes w name = (w', r) -> logs w w' [].
Proof.
  unfold logs, enumerate_display_modes. rewrite app_nil_r. destruct (read_modes _ _ _ _) as [w1 modes] eqn:Hr.
  apply read_modes_quiet in Hr. destruct modes; by intros [= <- _].
Qed.

Lemma opted_in_retimed native asked : retimed native (opted_in native asked) asked.
Proof. split_and!; [done..|]. intros bit _. unfold opted_in. cbn [DEVMODEW.dmFields]. by rewrite !Z.lor_spec. Qed.

Lemma ensure_success_iff operation result :
  ensure_display_change_success operation result = Ok tt <-> result = DISP_CHANGE_SUCCESSFUL.
Proof. unfold ensure_display_change_success. by destruct (Z.eqb_spec result DISP_CHANGE_SUCCESSFUL). Qed.

Lemma apply_display_mode_logs w name requested w' r :
  apply_display_mode w name requested = (w', r) ->
  exists calls, logs w w' calls /\
    (forall later, quiet later -> (r = Ok tt \/ later = []) -> switched name requested (calls ++ later)) /\
    (r = Ok tt -> exists before sent,
       calls = before ++ [DisplayCall.Changed name sent CDS_LIVE DISP_CHANGE_SUCCESSFUL]).
Proof.
  unfold apply_display_mode, query_current_native_display_mode, logs. simpl.
  destruct (snd (current_mode _ _)) as [native|]; simpl.
  2: { intros [= <- <-]. eexists. split; [done|]. split; [|done]. intros later _ [?| ->]; [done|constructor]. }
  pose proof (opted_in_retimed native requested) as Hre.
  set (test := snd (change_display_settings _ _ _ CDS_TEST)).
  pose proof (ensure_success_iff "validate" test) as Htest.
  destruct (ensure_display_change_success "validate" test) as [[]|e|f]; simpl; intros [= <- <-]; simpl.
  2, 3: eexists; split; [by rewrite <-app_assoc|]; split; [|done]; intros later _ [?| ->]; [done|];
    apply (switch_refused _ _ native); [done|]; by intros ?%Htest.
  rewrite (proj1 Htest eq_refl). eexists. split; [by rewrite <-!app_assoc|]. split.
  - intros later Hl _. by apply switch_made.
  - intros Happ%ensure_success_iff. rewrite Happ.
    exists [DisplayCall.Current name (Some native);
            DisplayCall.Changed name (opted_in native requested) CDS_TEST DISP_CHANGE_SUCCESSFUL]. by eexists.
Qed.

Lemma select_exact_is modes width height hz m :
  select_exact_display_mode modes width height hz = Some m ->
  m = DisplayMode.mk width height hz /\ m ∈ modes.
Proof.
  intros [Hin Hm]%find_some. bool_to_Z. destruct m as [a b c]; simpl in *. subst.
  split; [done|]. by apply list_elem_of_In.
Qed.

Lemma alignment_target_some ms display_id target :
  alignment_target ms display_id = Ok (Some target) ->
  target ∈ ms /\ display_id = Some (MonitorSource.id target) /\
  DisplaySource.virtual_display (MonitorSource.display target) = true /\
  MonitorSource.device_name target <> "".
Proof.
  unfold alignment_target. destruct display_id as [id|]; [|done]. intros (m & Hm & Ha)%obind_ok_inv.
  destruct (DisplaySource.virtual_display _) eqn:Hv; [|done]. simpl in Ha.
  case_bool_decide; [done|]. injection Ha as ->. apply ok_or_ok_inv, find_some in Hm as [Hin Hid]. bool_to_Z.
  split_and!; [by apply list_elem_of_In|by subst|done|done].
Qed.

Lemma alignment_target_none ms display_id :
  alignment_target ms display_id = Ok None ->
  display_id = None \/
  exists target, target ∈ ms /\ display_id = Some (MonitorSource.id target) /\
    DisplaySource.virtual_display (MonitorSource.display target) = false.
Proof.
  unfold alignment_target. destruct display_id as [id|]; [|by left]. intros (m & Hm & Ha)%obind_ok_inv.
  destruct (DisplaySource.virtual_display _) eqn:Hv; simpl in Ha; [by case_bool_decide|].
  apply ok_or_ok_inv, find_some in Hm as [Hin Hid]. bool_to_Z.
  right. exists m. split_and!; [by apply list_elem_of_In|by subst|done].
Qed.

(** The switch and the wait after it. *)
Lemma switch_logs fuel w target asked timeout w' r :
  (let (w, applied) := apply_display_mode w (MonitorSource.device_name target) asked in
   let? _ := applied keeping w in
   wait_for_display_mode fuel w (MonitorSource.id target) asked timeout) = (w', r) ->
  exists calls, logs w w' calls /\ switched (MonitorSource.device_name target) asked calls /\
    (r = Ok tt -> exists before sent later last, calls = before ++
       DisplayCall.Changed (MonitorSource.device_name target) sent CDS_LIVE DISP_CHANGE_SUCCESSFUL ::
       later ++ last /\ observed (MonitorSource.id target) asked last).
Proof.
  destruct (apply_display_mode _ _ _) as [w1 applied] eqn:Happ.
  apply apply_display_mode_logs in Happ as (calls & Hlog & Hsw & Hlive).
  destruct applied as [[]|?|?]; simpl.
  2, 3: intros [= <- <-]; exists calls; split_and!; [done| |done];
    rewrite <-(app_nil_r calls); apply Hsw; [constructor|by right].
  unfold wait_for_display_mode. simpl. intros (more & Hlog' & Hq & Hok)%await_logs.
  exists (calls ++ more). split_and!.
  - unfold logs in *. rewrite Hlog'. simpl. by rewrite Hlog, app_assoc.
  - apply Hsw; [done|by left].
  - intros (later & last & -> & Hobs)%Hok. destruct (Hlive eq_refl) as (before & sent & ->).
    exists before, sent, later, last. by rewrite <-app_assoc.
Qed.

(** C9: preparing a display asks Windows to change nothing, unless the session
    selected a display of the enumeration it read that is LadoFlow's virtual
    one. Then it reads the current structure of that device, tests a copy with
    the negotiated size and 60 Hz in which only these three members are opted in
    and the rest is as Windows returned it, applies that same copy only if the
    test was accepted, and changes nothing else. Success means that no display
    or a physical one was chosen, that the mode was read to be in effect
    already, or that the change was accepted and the last calls read the new
    geometry among the monitors and the new mode off the device. *)
Theorem mode_switch_is_confined fuel (w : W) display_id width height w' r :
  prepare_capture_display_mode fuel (w, []) display_id width height = (w', r) ->
  confined display_id (DisplayMode.mk width height 60) (snd w') /\
  (r = Ok tt -> aligned display_id (DisplayMode.mk width height 60) (snd w')).
Proof.
  unfold prepare_capture_display_mode, aligned, confined.
  case_match; [by intros [= <- <-]; split; [left; constructor|]|].
  simpl. set (e := snd (enum_display_monitors w)).
  assert (quiet [DisplayCall.Enumerated e]) as Hq0 by by constructor.
  destruct (enumerate_monitors e) as [monitors|?|?] eqn:He; simpl; [|by intros [= <- <-]; split; [left|]..].
  destruct (alignment_target monitors display_id) as [[target|]|?|?] eqn:Ha; simpl;
    [|intros [= <- <-]; split; [by left|intros _; exists e, monitors, []; split_and!; [done..|]]
     |by intros [= <- <-]; split; [left|]..].
  2: { destruct (alignment_target_none _ _ Ha) as [?|(target & ? & ? & ?)]; [by left|right].
       exists target. split_and!; [done..|by left]. }
  apply alignment_target_some in Ha as (Hin & Hid & Hv & _).
  destruct (query_current_display_mode _ _) as [w2 current] eqn:Hc.
  apply query_current_logs in Hc as (mode & Hlog & Hmode). unfold logs in Hlog. simpl in Hlog.
  assert (quiet (snd w2)) as Hq2 by (rewrite Hlog; by repeat constructor).
  destruct current as [current|?|?]; simpl; [|by intros [= <- <-]; split; [left|]..].
  destruct (Hmode _ eq_refl) as (native & -> & Hshown).
  case_bool_decide as Hcur; [intros [= <- <-]; subst|].
  { split; [by left|]. intros _. exists e, monitors. rewrite Hlog. eexists. split_and!; [done..|].
    right. exists target. split_and!; [done..|]. right. left. by exists native. }
  destruct (enumerate_display_modes _ _) as [w3 available] eqn:Hm. apply enumerate_modes_logs in Hm.
  unfold logs in Hm. rewrite app_nil_r in Hm. rewrite <-Hm in Hq2.
  destruct available as [available|?|?]; simpl; [|by intros [= <- <-]; split; [left|]..].
  destruct (select_exact_display_mode _ _ _ _) as [asked|] eqn:Hs; simpl; [|by intros [= <- <-]; split; [left|]..].
  apply select_exact_is in Hs as [-> _].
  intros (calls & Hcalls & Hsw & Hok)%switch_logs. unfold logs in Hcalls. rewrite Hcalls, Hm, Hlog.
  split.
  - right. exists e, monitors, target. eexists [_], calls. by split_and!; [| | | | |repeat constructor|].
  - intros (before & sent & later & last & -> & Hobs)%Hok.
    exists e, monitors. eexists. split_and!; [done..|]. right. exists target. split_and!; [done..|].
    right. right. eexists (_ :: before), sent, later, last. by split.
Qed.
End confinement.

Section termination.
Context {W : Type} `{DisplayConstants} `{DisplayOsLaws W}.

Lemma query_current_clock w name : clock w <= clock (fst (query_current_display_mode w name)).
Proof.
  unfold query_current_display_mode, query_current_native_display_mode.
  pose proof (clock_current w name). destruct (current_mode w name) as [w1 [m|]]; done.
Qed.

Lemma query_current_returns w name : returns (snd (query_current_display_mode w name)).
Proof.
  unfold query_current_display_mode, query_current_native_display_mode.
  by destruct (current_mode w name) as [w1 [m|]].
Qed.

Lemma select_monitor_returns ms id : returns (select_monitor ms id).
Proof. destruct id; apply returns_ok_or. Qed.
Hint Resolve enumerate_monitors_returns select_monitor_returns : rust.

Lemma observe_clock w id requested : clock w <= clock (fst (observe_display_mode w id requested)).
Proof.
  unfold observe_display_mode. pose proof (clock_enum w). destruct (enum_display_monitors w) as [w1 e].
  simpl in *. destruct (let! _ := _ in _) as [m| |]; simpl; [|done..].
  pose proof (query_current_clock w1 (MonitorSource.device_name m)).
  destruct (query_current_display_mode _ _) as [w2 [c| |]]; simpl in *; lia.
Qed.

Lemma observe_returns w id requested : returns (snd (observe_display_mode w id requested)).
Proof.
  unfold observe_display_mode. destruct (enum_display_monitors w) as [w1 e].
  assert (returns (let! monitors := enumerate_monitors e in select_monitor monitors (Some id))) as Hr
    by auto with rust.
  destruct (let! _ := _ in _) as [m| |]; simpl; [|done..].
  pose proof (query_current_returns w1 (MonitorSource.device_name m)) as Hq.
  destruct (query_current_display_mode _ _) as [w2 [c| |]]; simpl in *; [by case_match|done..].
Qed.

(** Each turn that goes on lets [DISPLAY_MODE_POLL_INTERVAL] pass. *)
Lemma await_returns n fuel w id requested timeout deadline :
  deadline <= clock w + Z.of_nat n * DISPLAY_MODE_POLL_INTERVAL -> (n < fuel)%nat ->
  returns (snd (await_display_mode fuel w id requested timeout deadline)).
Proof.
  revert n w. induction fuel as [|fuel IH]; intros n w Hd Hn; [lia|]. simpl.
  pose proof (observe_clock w id requested) as Hc. pose proof (observe_returns w id requested) as Hr.
  destruct (observe_display_mode w id requested) as [w1 [[]|e|f]]; simpl in *; [done| |done].
  pose proof (clock_now w1) as Hnow. destruct (now w1) as [w2 instant]; simpl in *.
  destruct (Z.leb_spec deadline instant); [done|].
  pose proof (clock_sleep w2 DISPLAY_MODE_POLL_INTERVAL) as Hs. destruct n as [|n]; [lia|].
  apply (IH n); lia.
Qed.

Lemma ensure_returns operation result : returns (ensure_display_change_success operation result).
Proof. unfold ensure_display_change_success. by case_match. Qed.

Lemma enumerate_modes_returns w name : returns (snd (enumerate_display_modes w name)).
Proof. unfold enumerate_display_modes. destruct (read_modes _ _ _ _) as [? []]; [|done]. simpl. by case_match. Qed.

Lemma apply_display_mode_returns w name requested : returns (snd (apply_display_mode w name requested)).
Proof.
  unfold apply_display_mode, query_current_native_display_mode.
  destruct (current_mode w name) as [w1 [m|]]; [|done]. simpl.
  destruct (change_display_settings _ _ _ CDS_TEST) as [w2 c].
  pose proof (ensure_returns "validate" c). destruct (ensure_display_change_success "validate" c); [|done..].
  simpl. destruct (change_display_settings _ _ _ _). apply ensure_returns.
Qed.

Lemma alignment_target_returns ms id : returns (alignment_target ms id).
Proof.
  destruct id; [|exact I]. apply returns_obind; [auto with rust|]. intros m _. by repeat case_match.
Qed.

(** On a desktop whose clock runs, preparing a display returns: a hundred
    polls and one more cover the five seconds it waits, every other loop is
    bounded. *)
Theorem preparation_returns fuel w display_id width height :
  (101 <= fuel)%nat -> returns (snd (prepare_capture_display_mode fuel w display_id width height)).
Proof.
  intros Hfuel. unfold prepare_capture_display_mode. case_match; [done|].
  destruct (enum_display_monitors w) as [w1 e].
  assert (returns (let! monitors := enumerate_monitors e in alignment_target monitors display_id)) as Hr
    by eauto using alignment_target_returns with rust.
  destruct (let! _ := _ in _) as [[target|]| |]; simpl; [|done..].
  pose proof (query_current_returns w1 (MonitorSource.device_name target)) as Hq.
  destruct (query_current_display_mode _ _) as [w2 [current| |]]; simpl in *; [|done..].
  case_bool_decide; [done|].
  pose proof (enumerate_modes_returns w2 (MonitorSource.device_name target)) as Hm.
  destruct (enumerate_display_modes _ _) as [w3 [available| |]]; simpl in *; [|done..].
  destruct (select_exact_display_mode _ _ _ _) as [requested|]; simpl; [|done].
  pose proof (apply_display_mode_returns w3 (MonitorSource.device_name target) requested) as Ha.
  destruct (apply_display_mode _ _ _) as [w4 [[]| |]]; simpl in *; [|done..].
  unfold wait_for_display_mode. pose proof (clock_now w4). destruct (now w4) as [w5 start]; simpl in *.
  apply (await_returns 100); [|lia]. unfold DISPLAY_MODE_APPLY_TIMEOUT, DISPLAY_MODE_POLL_INTERVAL,
    Duration.from_secs, Duration.from_millis. lia.
Qed.
End termination.

(** ** A desktop with one virtual display *)
Module DisplayExamples.

#[export] Instance documented_constants : DisplayConstants := {
  DM_PELSWIDTH := 0x80000;
  DM_PELSHEIGHT := 0x100000;
  DM_DISPLAYFREQUENCY := 0x400000;
  DISP_CHANGE_SUCCESSFUL := 0;
  DISP_CHANGE_BADDUALVIEW := -6;
  DISP_CHANGE_BADFLAGS := -4;
  DISP_CHANGE_BADMODE := -2;
  DISP_CHANGE_BADPARAM := -5;
  DISP_CHANGE_FAILED := -1;
  DISP_CHANGE_NOTUPDATED := -3;
  DISP_CHANGE_RESTART := 1;
}.

(** The clock, and the mode of the virtual display, which advertises three. *)
Module Desktop.
Record t : Type := mk { time : Z; mode : DisplayMode.t }.
End Desktop.

Definition native (mode : DisplayMode.t) : DEVMODEW.t :=
  DEVMODEW.mk 0 (DisplayMode.width mode) (DisplayMode.height mode) (DisplayMode.refresh_hz mode) [x01].

Definition advertised : list DisplayMode.t :=
  [DisplayMode.mk 1920 1080 60; DisplayMode.mk 1280 800 60; DisplayMode.mk 1920 1080 60].

Definition adapters : list Adapter.t :=
  [Adapter.mk "\\.\DISPLAY1" "GPU" "PCI" "" None;
   Adapter.mk "\\.\DISPLAY2" "LadoFlow Virtual Display" "ROOT\LF" "" None].

Definition monitors (d : Desktop.t) : Enumeration.t :=
  let (w, h) := (DisplayMode.width (Desktop.mode d), DisplayMode.height (Desktop.mode d)) in
  Enumeration.mk
    [Found.mk 2 "0x2" (inr (RECT.mk 1920 0 (1920 + w) h, "\\.\DISPLAY2", false)) adapters;
     Found.mk 1 "0x1" (inr (RECT.mk 0 0 1920 1080, "\\.\DISPLAY1", true)) adapters] None.

#[export] Instance one_virtual_display : DisplayOs Desktop.t := {
  enum_display_monitors d := (d, monitors d);
  current_mode d name :=
    (d, if bool_decide (name = "\\.\DISPLAY2") then Some (native (Desktop.mode d)) else None);
  mode_at d name index := (d, native <$> (advertised !! Z.to_nat index));
  change_display_settings d name m flags :=
    (match flags with
     | CDS_TEST => d
     | CDS_LIVE => Desktop.mk (Desktop.time d) (display_mode_from_native m)
     end, 0);
  now d := (d, Desktop.time d);
  sleep d duration := Desktop.mk (Desktop.time d + duration) (Desktop.mode d);
}.

#[export, refine] Instance one_virtual_display_laws : DisplayOsLaws Desktop.t := { clock := Desktop.time }.
Proof. all: intros; simpl; lia. Defined.

Definition start : Desktop.t := Desktop.mk 0 (DisplayMode.mk 1920 1080 60).

Lemma monitors_are_distinct_and_ordered_witness :
  exists ms, enumerate_monitors (monitors start) = Ok ms /\ NoDup (map MonitorSource.id ms).
Proof.
  eexists. split; [vm_compute; reflexivity|].
  by apply (monitors_are_distinct_and_ordered (monitors start)).
Defined.

Lemma mode_switch_is_confined_witness :
  exists w', prepare_capture_display_mode 101 (start, []) (Some "ladoflow:ROOT\LF") 1280 800 = (w', Ok tt) /\
    length (List.filter DisplayCall.changes (snd w')) = 2%nat /\
    confined (Some "ladoflow:ROOT\LF") (DisplayMode.mk 1280 800 60) (snd w') /\
    aligned (Some "ladoflow:ROOT\LF") (DisplayMode.mk 1280 800 60) (snd w').
Proof.
  eexists. split; [vm_compute; reflexivity|]. split; [reflexivity|].
  match goal with |- confined _ _ (snd ?w) /\ _ =>
    destruct (mode_switch_is_confined 101 start (Some "ladoflow:ROOT\LF") 1280 800 w (Ok tt)) as [Hc Ha];
    [vm_compute; reflexivity|] end.
  split; [exact Hc|exact (Ha eq_refl)].
Defined.

Lemma preparation_returns_witness :
  returns (snd (prepare_capture_display_mode 101 start (Some "\\.\DISPLAY1") 1280 800)).
Proof. apply (preparation_returns 101 start). lia. Defined.

(** A physical display is left alone, an unknown size is refused. *)
Example physical_display_untouched :
  prepare_capture_display_mode 101 (start, []) (Some "\\.\DISPLAY1") 1280 800 =
  (start, [DisplayCall.Enumerated (monitors start)], Ok tt).
Proof. vm_compute. reflexivity. Qed.
Example unknown_size_refused :
  snd (prepare_capture_display_mode 101 (start, []) (Some "ladoflow:ROOT\LF") 800 600) =
  Err "LadoFlow virtual display does not advertise 800x600@60 Hz; available modes: 1280x800@60, 1920x1080@60".
Proof. vm_compute. reflexivity. Qed.
End DisplayExamples.
