(* ===== verification/WinInput.v ===== *)
(** * Windows input injection

    Models [apps/desktop/src-tauri/src/platform/windows/input_injector.rs]: the
    mapping from stream coordinates to the selected monitor and the virtual
    desktop, the keyboard table, and the controller that turns the display's
    input events into Win32 input and remembers what it holds down. The three
    Win32 calls that inject are the class [InputOs]; flags are lists of the named
    bits. *)
From stdpp Require Import pretty gmap.
From S2P Require Export WinDisplay ProtoInput.
Local Open Scope string_scope.
Local Open Scope list_scope.
Local Open Scope Z_scope.

Definition NORMALIZED_MOUSE_MAX : Z := 65535.
Definition TOUCH_CONTACT_RADIUS : Z := 2.
Definition TOUCH_PRESSURE_MAX : Z := 1024.

(** ** Coordinates *)
Module ScreenPoint.
Record t : Type := mk { x : Z; y : Z }.
#[global] Instance t_eq_dec : EqDecision t.
Proof. solve_decision. Defined.
End ScreenPoint.

Definition validate_rect (rect : RECT.t) (name : string) : outcome string unit :=
  if (RECT.right_ rect <=? RECT.left_ rect) || (RECT.bottom rect <=? RECT.top rect)
  then Err (name +:+ " has invalid geometry") else Ok tt.

Definition scale_coordinate (value source_extent target_start target_end : Z) (axis : string)
  : outcome string Z :=
  if source_extent <=? value
  then Err ("remote " +:+ axis +:+ " coordinate " +:+ pretty value +:+ " exceeds negotiated extent " +:+
            pretty source_extent)
  else
    let! target_extent := chk_i 64 (target_end - target_start) in
    if (source_extent =? 1) || (target_extent =? 1) then Ok target_start
    else
      let! last := chk_i 64 (target_extent - 1) in
      let! product := chk_i 64 (value * last) in
      let! source_last := chk 16 (source_extent - 1) in
      let! scaled := div_i product source_last in
      let! sum := chk_i 64 (target_start + scaled) in
      ok_or (checked_i 32 sum) ("mapped Windows " +:+ axis +:+ " coordinate overflowed").

Definition normalize_virtual_coordinate (value start end_ : Z) : outcome string Z :=
  if (value <? start) || (end_ <=? value)
  then Err ("mapped input coordinate " +:+ pretty value +:+ " lies outside Windows virtual desktop " +:+
            pretty start +:+ ".." +:+ pretty end_)
  else
    let! extent := chk_i 64 (end_ - start) in
    let! normalized :=
      if extent =? 1 then Ok 0
      else
        let! offset := chk_i 64 (value - start) in
        let! product := chk_i 64 (offset * NORMALIZED_MOUSE_MAX) in
        let! last := chk_i 64 (extent - 1) in
        div_i product last in
    ok_or (checked_i 32 normalized) "normalized mouse coordinate overflowed".

Module CoordinateMapper.
Record t : Type := mk {
  source_width : Z;
  source_height : Z;
  target : RECT.t;
  virtual_desktop : RECT.t;
}.

Definition new (source_width source_height : Z) (target virtual_desktop : RECT.t) : outcome string t :=
  if (source_width =? 0) || (source_height =? 0) then Err "input source dimensions must be non-zero"
  else
    let! _ := validate_rect target "selected Windows display" in
    let! _ := validate_rect virtual_desktop "Windows virtual desktop" in
    Ok (mk source_width source_height target virtual_desktop).

Definition screen_point (self : t) (x y : Z) : outcome string ScreenPoint.t :=
  let! x := scale_coordinate x (source_width self) (RECT.left_ (target self)) (RECT.right_ (target self)) "x" in
  let! y := scale_coordinate y (source_height self) (RECT.top (target self)) (RECT.bottom (target self)) "y" in
  Ok (ScreenPoint.mk x y).

Definition normalized_mouse (self : t) (point : ScreenPoint.t) : outcome string ScreenPoint.t :=
  let! x := normalize_virtual_coordinate (ScreenPoint.x point)
    (RECT.left_ (virtual_desktop self)) (RECT.right_ (virtual_desktop self)) in
  let! y := normalize_virtual_coordinate (ScreenPoint.y point)
    (RECT.top (virtual_desktop self)) (RECT.bottom (virtual_desktop self)) in
  Ok (ScreenPoint.mk x y).
End CoordinateMapper.

(** The four answers of [GetSystemMetrics]. *)
Definition virtual_desktop_rect (left_ top width height : Z) : outcome string RECT.t :=
  let! right_ := ok_or (checked_i 32 (left_ + width)) "Windows virtual desktop width overflowed" in
  let! bottom := ok_or (checked_i 32 (top + height)) "Windows virtual desktop height overflowed" in
  let rect := RECT.mk left_ top right_ bottom in
  let! _ := validate_rect rect "Windows virtual desktop" in
  Ok rect.

(** ** What Win32 receives *)
Inductive MOUSE_EVENT_FLAG : Type :=
| MOUSEEVENTF_MOVE
| MOUSEEVENTF_LEFTDOWN
| MOUSEEVENTF_LEFTUP
| MOUSEEVENTF_RIGHTDOWN
| MOUSEEVENTF_RIGHTUP
| MOUSEEVENTF_MIDDLEDOWN
| MOUSEEVENTF_MIDDLEUP
| MOUSEEVENTF_XDOWN
| MOUSEEVENTF_XUP
| MOUSEEVENTF_WHEEL
| MOUSEEVENTF_HWHEEL
| MOUSEEVENTF_MOVE_NOCOALESCE
| MOUSEEVENTF_VIRTUALDESK
| MOUSEEVENTF_ABSOLUTE.
#[export] Instance mouse_flag_eq_dec : EqDecision MOUSE_EVENT_FLAG.
Proof. solve_decision. Defined.

Inductive KEYBD_EVENT_FLAG : Type :=
| KEYEVENTF_EXTENDEDKEY
| KEYEVENTF_KEYUP.
#[export] Instance key_flag_eq_dec : EqDecision KEYBD_EVENT_FLAG.
Proof. solve_decision. Defined.

Inductive POINTER_FLAG : Type :=
| POINTER_FLAG_INRANGE
| POINTER_FLAG_INCONTACT
| POINTER_FLAG_CANCELED
| POINTER_FLAG_DOWN
| POINTER_FLAG_UPDATE
| POINTER_FLAG_UP.
#[export] Instance pointer_flag_eq_dec : EqDecision POINTER_FLAG.
Proof. solve_decision. Defined.

(** The members the code sets; the others keep their default. *)
Module MOUSEINPUT.
Record t : Type := mk { dx : Z; dy : Z; mouseData : Z; dwFlags : list MOUSE_EVENT_FLAG }.
End MOUSEINPUT.

Module KEYBDINPUT.
Record t : Type := mk { wVk : Z; dwFlags : list KEYBD_EVENT_FLAG }.
End KEYBDINPUT.

Inductive INPUT : Type :=
| INPUT_MOUSE (mi : MOUSEINPUT.t)
| INPUT_KEYBOARD (ki : KEYBDINPUT.t).

(** A touch contact; its type and mask of valid members are always the same. *)
Module POINTER_TOUCH_INFO.
Record t : Type := mk {
  pointerId : Z;
  pointerFlags : list POINTER_FLAG;
  ptPixelLocation : ScreenPoint.t;
  ptPixelLocationRaw : ScreenPoint.t;
  rcContact : RECT.t;
  rcContactRaw : RECT.t;
  orientation : Z;
  pressure : Z;
}.
End POINTER_TOUCH_INFO.

#[export] Instance pointer_button_countable : Countable PointerButton.t.
Proof.
  refine (inj_countable' PointerButton.to_u8
    (fun v => match PointerButton.try_from v with Ok b => b | _ => PointerButton.Primary end) _).
  by intros [].
Defined.

(** [send_input] answers the number of events accepted and the text of the last
    error. The orders are those in which the hash sets iterate. *)
Class InputOs (W : Type) : Type := {
  XBUTTON1 : Z;
  XBUTTON2 : Z;
  send_input : W -> list INPUT -> W * (Z * string);
  initialize_touch_injection : W -> Z -> W * outcome string unit;
  inject_touch_input : W -> list POINTER_TOUCH_INFO.t -> W * outcome string unit;
  buttons_in_order : W -> gset PointerButton.t -> list PointerButton.t;
  keys_in_order : W -> gset Z -> list Z;
}.

(** ** The keyboard table *)
Module KeyMapping.
Record t : Type := mk { virtual_key : Z; extended : bool }.
#[global] Instance t_eq_dec : EqDecision t.
Proof. solve_decision. Defined.
End KeyMapping.

Definition in_range (first last usage : Z) : bool := (first <=? usage) && (usage <=? last).

Definition hid_usage_to_key (usage : Z) : option KeyMapping.t :=
  let key virtual_key extended := Some (KeyMapping.mk virtual_key extended) in
  if in_range 0x04 0x1d usage then key (0x41 + usage - 0x04) false
  else if in_range 0x1e 0x26 usage then key (0x31 + usage - 0x1e) false
  else if in_range 0x3a 0x45 usage then key (0x70 + usage - 0x3a) false
  else if in_range 0x59 0x61 usage then key (0x61 + usage - 0x59) false
  else match usage with
  | 0x27 => key 0x30 false
  | 0x28 => key 0x0d false
  | 0x29 => key 0x1b false
  | 0x2a => key 0x08 false
  | 0x2b => key 0x09 false
  | 0x2c => key 0x20 false
  | 0x2d => key 0xbd false
  | 0x2e => key 0xbb false
  | 0x2f => key 0xdb false
  | 0x30 => key 0xdd false
  | 0x31 => key 0xdc false
  | 0x33 => key 0xba false
  | 0x34 => key 0xde false
  | 0x35 => key 0xc0 false
  | 0x36 => key 0xbc false
  | 0x37 => key 0xbe false
  | 0x38 => key 0xbf false
  | 0x39 => key 0x14 false
  | 0x46 => key 0x2c true
  | 0x47 => key 0x91 false
  | 0x48 => key 0x13 false
  | 0x49 => key 0x2d true
  | 0x4a => key 0x24 true
  | 0x4b => key 0x21 true
  | 0x4c => key 0x2e true
  | 0x4d => key 0x23 true
  | 0x4e => key 0x22 true
  | 0x4f => key 0x27 true
  | 0x50 => key 0x25 true
  | 0x51 => key 0x28 true
  | 0x52 => key 0x26 true
  | 0x53 => key 0x90 true
  | 0x54 => key 0x6f true
  | 0x55 => key 0x6a false
  | 0x56 => key 0x6d false
  | 0x57 => key 0x6b false
  | 0x58 => key 0x0d true
  | 0x62 => key 0x60 false
  | 0x63 => key 0x6e false
  | 0x65 => key 0x5d true
  | 0xe0 => key 0xa2 false
  | 0xe1 => key 0xa0 false
  | 0xe2 => key 0xa4 false
  | 0xe3 => key 0x5b true
  | 0xe4 => key 0xa3 true
  | 0xe5 => key 0xa1 false
  | 0xe6 => key 0xa5 true
  | 0xe7 => key 0x5c true
  | _ => None
  end.

(** ** Sending *)
Definition mouse_button_mapping `{InputOs W} (button : PointerButton.t)
  : MOUSE_EVENT_FLAG * MOUSE_EVENT_FLAG * Z :=
  match button with
  | PointerButton.Primary => (MOUSEEVENTF_LEFTDOWN, MOUSEEVENTF_LEFTUP, 0)
  | PointerButton.Secondary => (MOUSEEVENTF_RIGHTDOWN, MOUSEEVENTF_RIGHTUP, 0)
  | PointerButton.Middle => (MOUSEEVENTF_MIDDLEDOWN, MOUSEEVENTF_MIDDLEUP, 0)
  | PointerButton.Back => (MOUSEEVENTF_XDOWN, MOUSEEVENTF_XUP, XBUTTON1)
  | PointerButton.Forward => (MOUSEEVENTF_XDOWN, MOUSEEVENTF_XUP, XBUTTON2)
  end.

(** The process: Windows, and the cell of [TOUCH_INITIALIZATION]. *)
Module Process.
Record t (W : Type) : Type := mk { os : W; touch_initialization : option (outcome string unit) }.
Arguments mk {W} os touch_initialization.
Arguments os {W} t.
Arguments touch_initialization {W} t.
Definition set_os {W} (p : t W) (v : W) : t W := mk v (touch_initialization p).
End Process.

Module ActiveTouch.
Record t : Type := mk { point : ScreenPoint.t; pressure : Z }.
#[global] Instance t_eq_dec : EqDecision t.
Proof. solve_decision. Defined.
End ActiveTouch.

Definition touch_pointer_flags (phase : TouchPhase.t) : list POINTER_FLAG :=
  match phase with
  | TouchPhase.Begin => [POINTER_FLAG_DOWN; POINTER_FLAG_INRANGE; POINTER_FLAG_INCONTACT]
  | TouchPhase.Move => [POINTER_FLAG_UPDATE; POINTER_FLAG_INRANGE; POINTER_FLAG_INCONTACT]
  | TouchPhase.End_ => [POINTER_FLAG_UP]
  | TouchPhase.Cancel => [POINTER_FLAG_UP; POINTER_FLAG_CANCELED]
  end.

(** The operators on the pressure and the identifier cannot overflow: they start
    from a [u16] and a [u8]. *)
Definition touch_info (contact_id : Z) (contact : ActiveTouch.t) (pointer_flags : list POINTER_FLAG)
    (bounds : RECT.t) : POINTER_TOUCH_INFO.t :=
  let point := ActiveTouch.point contact in
  let contact_rect := RECT.mk
    (Z.max (saturating_i 32 (ScreenPoint.x point - TOUCH_CONTACT_RADIUS)) (RECT.left_ bounds))
    (Z.max (saturating_i 32 (ScreenPoint.y point - TOUCH_CONTACT_RADIUS)) (RECT.top bounds))
    (Z.min (saturating_i 32 (ScreenPoint.x point + TOUCH_CONTACT_RADIUS)) (RECT.right_ bounds))
    (Z.min (saturating_i 32 (ScreenPoint.y point + TOUCH_CONTACT_RADIUS)) (RECT.bottom bounds)) in
  POINTER_TOUCH_INFO.mk (contact_id + 1) pointer_flags point point contact_rect contact_rect 90
    (ActiveTouch.pressure contact * TOUCH_PRESSURE_MAX / u_max 16).

Definition contact_flags (changed : option (Z * TouchPhase.t)) (contact_id : Z) : list POINTER_FLAG :=
  match changed with
  | None => [POINTER_FLAG_UP; POINTER_FLAG_CANCELED]
  | Some (changed_id, phase) =>
    if contact_id =? changed_id then touch_pointer_flags phase
    else [POINTER_FLAG_UPDATE; POINTER_FLAG_INRANGE; POINTER_FLAG_INCONTACT]
  end.

(** The contacts from index [contact_id] on. *)
Fixpoint touch_frame_from (contact_id : Z) (touches : list (option ActiveTouch.t))
    (changed : option (Z * TouchPhase.t)) (bounds : RECT.t) : list POINTER_TOUCH_INFO.t :=
  match touches with
  | [] => []
  | contact :: touches =>
    let rest := touch_frame_from (contact_id + 1) touches changed bounds in
    match contact with
    | Some contact => touch_info contact_id contact (contact_flags changed contact_id) bounds :: rest
    | None => rest
    end
  end.
Definition touch_frame := touch_frame_from 0.

Section sending.
Context {W : Type} `{InputOs W}.
Implicit Types (p : Process.t W).

Definition send_inputs p (inputs : list INPUT) : Process.t W * outcome string unit :=
  if bool_decide (length inputs = 0%nat) then (p, Ok tt)
  else
    let '(os, (sent, error)) := send_input (Process.os p) inputs in
    (Process.set_os p os,
     if sent =? zlen inputs then Ok tt
     else Err ("SendInput accepted " +:+ pretty sent +:+ "/" +:+ pretty (length inputs) +:+
               " events (Windows UIPI or input policy may have blocked injection): " +:+ error)).

Definition send_mouse p (mouse : MOUSEINPUT.t) : Process.t W * outcome string unit :=
  send_inputs p [INPUT_MOUSE mouse].

Definition send_key p (mapping : KeyMapping.t) (state : ButtonState.t) : Process.t W * outcome string unit :=
  let flags := if KeyMapping.extended mapping then [KEYEVENTF_EXTENDEDKEY] else [] in
  let flags := flags ++ if bool_decide (state = ButtonState.Released) then [KEYEVENTF_KEYUP] else [] in
  send_inputs p [INPUT_KEYBOARD (KEYBDINPUT.mk (KeyMapping.virtual_key mapping) flags)].

(** The closure runs only while the cell is empty. *)
Definition ensure_touch_initialized p : Process.t W * outcome string unit :=
  match Process.touch_initialization p with
  | Some initialized => (p, initialized)
  | None =>
    let (os, initialized) := initialize_touch_injection (Process.os p) MAX_TOUCH_CONTACTS in
    let initialized :=
      map_err (fun error => "failed to initialize Windows touch injection: " +:+ error) initialized in
    (Process.mk os (Some initialized), initialized)
  end.

Definition inject_touch_contacts p (contacts : list POINTER_TOUCH_INFO.t) : Process.t W * outcome string unit :=
  let (os, injected) := inject_touch_input (Process.os p) contacts in
  (Process.set_os p os,
   map_err (fun error => "failed to inject Windows touch frame: " +:+ error) injected).
End sending.

(** ** The controller *)

(** The guards on a contact's state. *)
Definition check_phase (contact_id : Z) (phase : TouchPhase.t) (current : option ActiveTouch.t)
  : outcome string unit :=
  match phase, current with
  | TouchPhase.Begin, Some _ => Err ("touch contact " +:+ pretty contact_id +:+ " began twice")
  | TouchPhase.Begin, None => Ok tt
  | _, None => Err ("touch contact " +:+ pretty contact_id +:+ " changed before begin")
  | _, Some _ => Ok tt
  end.

Module NativeInputController.
Record t : Type := mk {
  mapper : CoordinateMapper.t;
  pressed_buttons : gset PointerButton.t;
  pressed_keys : gset Z;
  touches : list (option ActiveTouch.t);
}.
Definition set_buttons (self : t) (v : gset PointerButton.t) : t :=
  mk (mapper self) v (pressed_keys self) (touches self).
Definition set_keys (self : t) (v : gset Z) : t :=
  mk (mapper self) (pressed_buttons self) v (touches self).
Definition set_touches (self : t) (v : list (option ActiveTouch.t)) : t :=
  mk (mapper self) (pressed_buttons self) (pressed_keys self) v.

Definition new (monitors : outcome string (list MonitorSource.t)) (desktop : outcome string RECT.t)
    (display_id : option string) (stream_width stream_height : Z) : outcome string t :=
  let! monitors := monitors in
  let! selected := select_monitor monitors display_id in
  let! desktop := desktop in
  let! mapper := CoordinateMapper.new stream_width stream_height (MonitorSource.rect selected) desktop in
  Ok (mk mapper ∅ ∅ (replicate (Z.to_nat MAX_TOUCH_CONTACTS) None)).

Section methods.
Context {W : Type} `{InputOs W}.
Implicit Types (p : Process.t W) (self : t).

Definition pointer_move p self (x y : Z) : Process.t W * t * outcome string unit :=
  let? point := (let! point := CoordinateMapper.screen_point (mapper self) x y in
                 CoordinateMapper.normalized_mouse (mapper self) point) keeping (p, self) in
  let (p, sent) := send_mouse p
    (MOUSEINPUT.mk (ScreenPoint.x point) (ScreenPoint.y point) 0
       [MOUSEEVENTF_MOVE; MOUSEEVENTF_MOVE_NOCOALESCE; MOUSEEVENTF_ABSOLUTE; MOUSEEVENTF_VIRTUALDESK]) in
  (p, self, sent).

Definition pointer_button p self (button : PointerButton.t) (state : ButtonState.t)
  : Process.t W * t * outcome string unit :=
  let pressed := bool_decide (state = ButtonState.Pressed) in
  if eqb (bool_decide (button ∈ pressed_buttons self)) pressed then (p, self, Ok tt)
  else
    let '(down, up, data) := mouse_button_mapping button in
    let (p, sent) := send_mouse p (MOUSEINPUT.mk 0 0 data [if pressed then down else up]) in
    let? _ := sent keeping (p, self) in
    (p, set_buttons self (if pressed then {[button]} ∪ pressed_buttons self
                          else pressed_buttons self ∖ {[button]}), Ok tt).

(** The bits of an [i32] as a [u32]. *)
Definition wheel p (delta_x delta_y : Z) : Process.t W * outcome string unit :=
  let inputs :=
    (if delta_y =? 0 then [] else [INPUT_MOUSE (MOUSEINPUT.mk 0 0 (wrapping 32 delta_y) [MOUSEEVENTF_WHEEL])]) ++
    (if delta_x =? 0 then [] else [INPUT_MOUSE (MOUSEINPUT.mk 0 0 (wrapping 32 delta_x) [MOUSEEVENTF_HWHEEL])]) in
  send_inputs p inputs.

Definition key p self (usage : Z) (state : ButtonState.t) : Process.t W * t * outcome string unit :=
  let? mapping := ok_or (hid_usage_to_key usage)
    ("unsupported USB HID keyboard usage 0x" +:+ Fmt.hex 4 usage) keeping (p, self) in
  let pressed := bool_decide (state = ButtonState.Pressed) in
  if eqb (bool_decide (usage ∈ pressed_keys self)) pressed then (p, self, Ok tt)
  else
    let (p, sent) := send_key p mapping state in
    let? _ := sent keeping (p, self) in
    (p, set_keys self (if pressed then {[usage]} ∪ pressed_keys self
                       else pressed_keys self ∖ {[usage]}), Ok tt).

Definition touch p self (contact_id : Z) (phase : TouchPhase.t) (x y pressure : Z)
  : Process.t W * t * outcome string unit :=
  let (p, initialized) := ensure_touch_initialized p in
  let? _ := initialized keeping (p, self) in
  let? point := CoordinateMapper.screen_point (mapper self) x y keeping (p, self) in
  let contact := ActiveTouch.mk point pressure in
  let index := Z.to_nat contact_id in
  let? current := expect (touches self !! index) keeping (p, self) in
  let? _ := check_phase contact_id phase current keeping (p, self) in
  let next := <[index := Some contact]> (touches self) in
  let contacts := touch_frame next (Some (contact_id, phase)) (CoordinateMapper.virtual_desktop (mapper self)) in
  let (p, injected) := inject_touch_contacts p contacts in
  let? _ := injected keeping (p, self) in
  let next :=
    match phase with
    | TouchPhase.End_ | TouchPhase.Cancel => <[index := None]> next
    | _ => next
    end in
  (p, set_touches self next, Ok tt).

Definition cancel_touches p self : Process.t W * t * outcome string unit :=
  if forallb (fun contact => negb (bool_decide (is_Some contact))) (touches self) then (p, self, Ok tt)
  else
    let (p, initialized) := ensure_touch_initialized p in
    let? _ := initialized keeping (p, self) in
    let contacts := touch_frame (touches self) None (CoordinateMapper.virtual_desktop (mapper self)) in
    let (p, injected) := inject_touch_contacts p contacts in
    let? _ := injected keeping (p, self) in
    (p, set_touches self (map (fun _ => None) (touches self)), Ok tt).

(** A loop of [release_all]: every item is tried, the errors are collected. *)
Fixpoint release_each {A} (release : Process.t W -> t -> A -> Process.t W * t * outcome string unit)
    (items : list A) p self (errors : list string) : Process.t W * t * outcome string (list string) :=
  match items with
  | [] => (p, self, Ok errors)
  | item :: items =>
    let '(p, self, released) := release p self item in
    match released with
    | Ok _ => release_each release items p self errors
    | Err error => release_each release items p self (errors ++ [error])
    | Fault f => (p, self, Fault f)
    end
  end.

Definition release_all p self : Process.t W * t * outcome string unit :=
  let '(p, self, errors) := release_each (fun p self _ => cancel_touches p self) [tt] p self [] in
  let? errors := errors keeping (p, self) in
  let '(p, self, errors) :=
    release_each (fun p self button => pointer_button p self button ButtonState.Released)
      (buttons_in_order (Process.os p) (pressed_buttons self)) p self errors in
  let? errors := errors keeping (p, self) in
  let '(p, self, errors) :=
    release_each (fun p self usage => key p self usage ButtonState.Released)
      (keys_in_order (Process.os p) (pressed_keys self)) p self errors in
  let? errors := errors keeping (p, self) in
  (p, self,
   if bool_decide (length errors = 0%nat) then Ok tt
   else Err ("failed to release remote Windows input state: " +:+ String.concat "; " errors)).

Definition inject p self (event : InputEvent.t) : Process.t W * t * outcome string unit :=
  match InputEvent.kind event with
  | InputEventKind.PointerMove x y => pointer_move p self x y
  | InputEventKind.PointerButton button state => pointer_button p self button state
  | InputEventKind.Wheel delta_x delta_y => let (p, sent) := wheel p delta_x delta_y in (p, self, sent)
  | InputEventKind.Key usage state _ => key p self usage state
  | InputEventKind.Touch contact_id phase x y pressure => touch p self contact_id phase x y pressure
  | InputEventKind.Focus true => (p, self, Ok tt)
  | InputEventKind.Focus false => release_all p self
  end.

(** [Drop]: what remains of the process. *)
Definition drop_ p self : Process.t W := let '(p, _, _) := release_all p self in p.
End methods.
End NativeInputController.

(** ** Mapping coordinates *)

Lemma chk_i_ok {E} w x : in_i w x -> @chk_i E w x = Ok x.
Proof. intros Hx. unfold chk_i. by rewrite bool_decide_eq_true_2. Qed.

Lemma checked_i_in w x : in_i w x -> checked_i w x = Some x.
Proof. intros Hx. unfold checked_i. by rewrite bool_decide_eq_true_2. Qed.

(** The image of [value], counted in [source_extent] steps, in the interval from
    [start] to before [end_]. *)
Definition stretched (value source_extent start end_ : Z) : Z :=
  if source_extent =? 1 then start else start + value * (end_ - start - 1) / (source_extent - 1).

Lemma stretched_range value extent start end_ :
  0 <= value < extent -> start < end_ -> start <= stretched value extent start end_ < end_.
Proof.
  intros Hv Hs. unfold stretched. destruct (Z.eqb_spec extent 1); [lia|].
  assert (0 <= value * (end_ - start - 1) / (extent - 1) <= end_ - start - 1); [|lia].
  split; [apply Z.div_pos; nia|]. apply Z.div_le_upper_bound; nia.
Qed.

Lemma stretched_mono a b extent start end_ :
  a <= b -> 1 <= extent -> start < end_ -> stretched a extent start end_ <= stretched b extent start end_.
Proof.
  intros Hab He Hs. unfold stretched. destruct (Z.eqb_spec extent 1); [lia|].
  apply Z.add_le_mono_l, Z.div_le_mono; nia.
Qed.

Lemma stretched_first extent start end_ : stretched 0 extent start end_ = start.
Proof. unfold stretched. case_match; [done|]. rewrite Z.mul_0_l, Z.div_0_l by (bool_to_Z; lia). lia. Qed.

Lemma stretched_last extent start end_ :
  extent <> 1 -> stretched (extent - 1) extent start end_ = end_ - 1.
Proof.
  intros He. unfold stretched. destruct (Z.eqb_spec extent 1); [done|].
  rewrite Z.mul_comm, Z.div_mul; lia.
Qed.

Lemma scale_coordinate_spec value extent start end_ axis :
  in_u 16 value -> in_u 16 extent -> in_i 32 start -> in_i 32 end_ -> start < end_ ->
  scale_coordinate value extent start end_ axis =
  if value <? extent then Ok (stretched value extent start end_)
  else Err ("remote " +:+ axis +:+ " coordinate " +:+ pretty value +:+ " exceeds negotiated extent " +:+
            pretty extent).
Proof.
  unfold_int. intros Hv He Hs Hn Hlt. unfold scale_coordinate. rewrite Z.ltb_antisym.
  destruct (Z.leb_spec extent value); simpl; [done|].
  rewrite chk_i_ok by (unfold in_i; lia). simpl.
  pose proof (stretched_range value extent start end_) as Hr. unfold stretched in *.
  destruct (Z.eqb_spec extent 1); simpl; [done|]. destruct (Z.eqb_spec (end_ - start) 1) as [H1|H1].
  - rewrite H1, Z.sub_diag, Z.mul_0_r, Z.div_0_l by lia. f_equal. lia.
  - rewrite chk_i_ok by (unfold in_i; lia). simpl. rewrite chk_i_ok by (unfold in_i; nia). simpl.
    rewrite chk_ok by (unfold in_u; lia). simpl. unfold div_i.
    destruct (Z.eqb_spec (extent - 1) 0); [lia|]. simpl. rewrite Z.quot_div_nonneg by nia.
    rewrite chk_i_ok by (unfold in_i; lia). simpl. by rewrite checked_i_in by (unfold in_i; lia).
Qed.

(** [normalize_virtual_coordinate] stretches to 65536 steps. *)
Lemma normalize_spec value start end_ :
  in_i 32 value -> in_i 32 start -> in_i 32 end_ ->
  normalize_virtual_coordinate value start end_ =
  if (start <=? value) && (value <? end_) then
    Ok (stretched (value - start) (end_ - start) 0 (NORMALIZED_MOUSE_MAX + 1))
  else Err ("mapped input coordinate " +:+ pretty value +:+ " lies outside Windows virtual desktop " +:+
            pretty start +:+ ".." +:+ pretty end_).
Proof.
  unfold_int. intros Hv Hs He. unfold normalize_virtual_coordinate, NORMALIZED_MOUSE_MAX.
  destruct (Z.ltb_spec value start), (Z.leb_spec end_ value), (Z.leb_spec start value),
    (Z.ltb_spec value end_); simpl; try done; try lia.
  rewrite chk_i_ok by (unfold in_i; lia). simpl.
  pose proof (stretched_range (value - start) (end_ - start) 0 65536) as Hr. unfold stretched in *.
  destruct (Z.eqb_spec (end_ - start) 1); [reflexivity|].
  rewrite chk_i_ok by (unfold in_i; lia). simpl. rewrite chk_i_ok by (unfold in_i; nia). simpl.
  rewrite chk_i_ok by (unfold in_i; lia). simpl. unfold div_i.
  destruct (Z.eqb_spec (end_ - start - 1) 0); [lia|]. simpl. rewrite Z.quot_div_nonneg by nia.
  change (65535 + 1 - 0 - 1) with 65535. change (65536 - 0 - 1) with 65535 in Hr.
  by rewrite checked_i_in by (unfold in_i; lia).
Qed.

Module MapperFacts.
Import CoordinateMapper.

Record valid_rect (r : RECT.t) : Prop := {
  valid_wf : RECT.wf r;
  valid_width : RECT.left_ r < RECT.right_ r;
  valid_height : RECT.top r < RECT.bottom r;
}.

Record wf (self : t) : Prop := {
  wf_width : 0 < source_width self < 2 ^ 16;
  wf_height : 0 < source_height self < 2 ^ 16;
  wf_target : valid_rect (target self);
  wf_desktop : valid_rect (virtual_desktop self);
}.

Lemma validate_rect_ok rect name : RECT.wf rect -> validate_rect rect name = Ok tt <-> valid_rect rect.
Proof.
  intros Hwf. unfold validate_rect. split.
  - case_match; [done|]. intros _. bool_to_Z. by constructor.
  - intros [_ ? ?]. by destruct (Z.leb_spec (RECT.right_ rect) (RECT.left_ rect)),
      (Z.leb_spec (RECT.bottom rect) (RECT.top rect)); try lia.
Qed.

Lemma new_wf w h target desktop m :
  in_u 16 w -> in_u 16 h -> RECT.wf target -> RECT.wf desktop ->
  new w h target desktop = Ok m -> wf m.
Proof.
  intros Hw Hh Ht Hd. unfold new. case_match; [done|]. intros Hm. inv_ok. bool_to_Z. subst m.
  destruct x, x0. unfold in_u in *. constructor; simpl; [lia..| |]; by eapply validate_rect_ok.
Qed.

Definition inside (r : RECT.t) (point : ScreenPoint.t) : Prop :=
  RECT.left_ r <= ScreenPoint.x point < RECT.right_ r /\
  RECT.top r <= ScreenPoint.y point < RECT.bottom r.
End MapperFacts.

Section pointer.
Import CoordinateMapper MapperFacts.

Lemma screen_point_spec m x y :
  wf m -> in_u 16 x -> in_u 16 y ->
  (x < source_width m /\ y < source_height m ->
   screen_point m x y = Ok (ScreenPoint.mk
     (stretched x (source_width m) (RECT.left_ (target m)) (RECT.right_ (target m)))
     (stretched y (source_height m) (RECT.top (target m)) (RECT.bottom (target m))))) /\
  (~ (x < source_width m /\ y < source_height m) -> exists e, screen_point m x y = Err e).
Proof.
  intros [Hw Hh [[Hl Ht Hr Hb] Hlr Htb] _] Hx Hy. unfold screen_point.
  rewrite !scale_coordinate_spec by (unfold in_u in *; done || lia).
  destruct (Z.ltb_spec x (source_width m)), (Z.ltb_spec y (source_height m)); simpl; split; intros; eauto; lia.
Qed.

Lemma screen_point_ok m x y point :
  wf m -> in_u 16 x -> in_u 16 y -> screen_point m x y = Ok point ->
  x < source_width m /\ y < source_height m /\ inside (target m) point.
Proof.
  intros Hwf Hx Hy Hok. destruct (screen_point_spec m x y Hwf Hx Hy) as [H1 H2].
  destruct (decide (x < source_width m /\ y < source_height m)) as [Hin|Hout].
  - rewrite H1 in Hok by done. injection Hok as <-. destruct Hwf as [_ _ [_ ? ?] _]. unfold in_u, inside in *. simpl.
    split_and!; try (apply stretched_range; lia); lia.
  - destruct (H2 Hout) as [e He]. congruence.
Qed.

(** Of one coordinate: the interval is stretched onto [0..65535]. *)
Lemma normalize_inside value start end_ :
  in_i 32 value -> in_i 32 start -> in_i 32 end_ -> start <= value < end_ ->
  exists q, normalize_virtual_coordinate value start end_ = Ok q /\
    0 <= q <= NORMALIZED_MOUSE_MAX /\ (value = start -> q = 0) /\
    (value = end_ - 1 -> value <> start -> q = NORMALIZED_MOUSE_MAX).
Proof.
  intros Hv Hs He Hin. rewrite normalize_spec by done.
  rewrite (proj2 (Z.leb_le start value)), (proj2 (Z.ltb_lt value end_)) by lia. simpl.
  eexists. split; [done|]. unfold NORMALIZED_MOUSE_MAX. change (65535 + 1) with 65536. split_and!.
  - pose proof (stretched_range (value - start) (end_ - start) 0 65536). lia.
  - pose proof (stretched_range (value - start) (end_ - start) 0 65536). lia.
  - intros ->. rewrite Z.sub_diag. apply stretched_first.
  - intros -> ?. replace (end_ - 1 - start) with (end_ - start - 1) by lia. rewrite stretched_last; lia.
Qed.

Lemma normalized_mouse_inside m point :
  wf m -> inside (virtual_desktop m) point ->
  exists q, normalized_mouse m point = Ok q /\
    0 <= ScreenPoint.x q <= NORMALIZED_MOUSE_MAX /\ 0 <= ScreenPoint.y q <= NORMALIZED_MOUSE_MAX.
Proof.
  intros [_ _ _ [[Hl Ht Hr Hb] ? ?]] [Hpx Hpy]. unfold normalized_mouse.
  assert (forall v s e, in_i 32 s -> in_i 32 e -> s <= v < e -> in_i 32 v) as Hbetween by (unfold in_i; lia).
  destruct (normalize_inside (ScreenPoint.x point) (RECT.left_ (virtual_desktop m)) (RECT.right_ (virtual_desktop m)))
    as (qx & -> & ? & _); [eauto..|].
  destruct (normalize_inside (ScreenPoint.y point) (RECT.top (virtual_desktop m)) (RECT.bottom (virtual_desktop m)))
    as (qy & -> & ? & _); [eauto..|].
  simpl. eauto.
Qed.

Lemma normalized_mouse_returns m point :
  wf m -> in_i 32 (ScreenPoint.x point) -> in_i 32 (ScreenPoint.y point) -> returns (normalized_mouse m point).
Proof.
  intros [_ _ _ [[Hl Ht Hr Hb] ? ?]] Hx Hy. unfold normalized_mouse.
  rewrite !normalize_spec by done. by repeat case_match.
Qed.

(** A position inside the stream is mapped into the selected display, the
    first column and row to its first and the last to its last, monotonically,
    and, where the display lies on the virtual desktop, to a normalised position
    between 0 and 65535; any other position is refused. Nothing overflows. *)
Theorem pointer_mapping_is_exact m x y :
  wf m -> in_u 16 x -> in_u 16 y ->
  (x < source_width m /\ y < source_height m ->
   exists point, screen_point m x y = Ok point /\ inside (target m) point /\
     (x = 0 -> ScreenPoint.x point = RECT.left_ (target m)) /\
     (x = source_width m - 1 -> x <> 0 -> ScreenPoint.x point = RECT.right_ (target m) - 1) /\
     (y = 0 -> ScreenPoint.y point = RECT.top (target m)) /\
     (y = source_height m - 1 -> y <> 0 -> ScreenPoint.y point = RECT.bottom (target m) - 1) /\
     (forall x' y' point', x <= x' -> y <= y' -> in_u 16 x' -> in_u 16 y' ->
        screen_point m x' y' = Ok point' ->
        ScreenPoint.x point <= ScreenPoint.x point' /\ ScreenPoint.y point <= ScreenPoint.y point') /\
     (inside (virtual_desktop m) point ->
      exists q, normalized_mouse m point = Ok q /\
        0 <= ScreenPoint.x q <= NORMALIZED_MOUSE_MAX /\ 0 <= ScreenPoint.y q <= NORMALIZED_MOUSE_MAX)) /\
  (~ (x < source_width m /\ y < source_height m) -> exists e, screen_point m x y = Err e).
Proof.
  intros Hwf Hx Hy. destruct (screen_point_spec m x y Hwf Hx Hy) as [Hok Herr]. split; [|done].
  intros Hin. specialize (Hok Hin). eexists. split; [exact Hok|].
  split; [by apply (screen_point_ok m x y _ Hwf Hx Hy Hok)|].
  assert (RECT.left_ (target m) < RECT.right_ (target m) /\ RECT.top (target m) < RECT.bottom (target m)) as [? ?]
    by (destruct Hwf as [_ _ [] _]; done).
  unfold in_u in Hx, Hy. simpl. split_and!.
  - intros ->. apply stretched_first.
  - intros -> ?. apply stretched_last. lia.
  - intros ->. apply stretched_first.
  - intros -> ?. apply stretched_last. lia.
  - intros x' y' point' Hx' Hy' Hux Huy Hok'.
    pose proof (screen_point_ok m x' y' point' Hwf Hux Huy Hok') as (? & ? & _).
    rewrite (proj1 (screen_point_spec m x' y' Hwf Hux Huy)) in Hok' by done. injection Hok' as <-. simpl.
    split; apply stretched_mono; lia.
  - by apply normalized_mouse_inside.
Qed.
End pointer.

(** ** The keyboard *)

(** Every [u16] usage that has a key is below 256. *)
Lemma hid_usage_domain usage : is_Some (hid_usage_to_key usage) -> 0 <= usage < 256.
Proof.
  unfold hid_usage_to_key, in_range. intros [k Hk].
  repeat match type of Hk with (if ?b then _ else _) = _ => destruct b eqn:? end; bool_to_Z; try lia.
  destruct usage as [|u|u]; [lia| |done].
  do 8 (destruct u as [u|u|]; try lia; try done).
Qed.

(** The usages that have a key, by evaluation. *)
Definition key_usages : list Z := filter (fun u => is_Some (hid_usage_to_key u)) (seqZ 0 256).

Lemma elem_of_key_usages usage : usage ∈ key_usages <-> is_Some (hid_usage_to_key usage).
Proof.
  unfold key_usages. rewrite list_elem_of_filter, elem_of_seqZ. split; [tauto|].
  intros Hu. apply hid_usage_domain in Hu as ?. split; [done|lia].
Qed.

Definition documented_usage (u : Z) : bool :=
  in_range 0x04 0x31 u || in_range 0x33 0x63 u || (u =? 0x65) || in_range 0xe0 0xe7 u.

Lemma key_usages_documented :
  forallb (fun u => eqb (bool_decide (is_Some (hid_usage_to_key u))) (documented_usage u)) (seqZ 0 256) = true.
Proof. vm_compute. reflexivity. Qed.

Lemma key_usages_in_a_byte :
  forallb (fun u => match hid_usage_to_key u with
                    | Some k => in_range 1 255 (KeyMapping.virtual_key k)
                    | None => true
                    end) (seqZ 0 256) = true.
Proof. vm_compute. reflexivity. Qed.

Lemma key_usages_distinct :
  forallb (fun u => forallb (fun v => (u =? v) || negb (bool_decide (hid_usage_to_key u = hid_usage_to_key v)))
    key_usages) key_usages = true.
Proof. vm_compute. reflexivity. Qed.

Lemma key_usage_unique u v k : hid_usage_to_key u = Some k -> hid_usage_to_key v = Some k -> u = v.
Proof.
intros Hku Hkv. pose proof (proj1 (forallb_forall _ _) key_usages_distinct u) as Hall.
  assert (u ∈ key_usages /\ v ∈ key_usages) as [Hu Hv] by (rewrite !elem_of_key_usages; eauto).
  apply list_elem_of_In in Hu, Hv. apply (proj1 (forallb_forall _ _) (Hall Hu)) in Hv.
  rewrite Hku, Hkv, bool_decide_eq_true_2 in Hv by done. bool_to_Z. destruct Hv as [Hv|Hv]; bool_to_Z; done.
Qed.

(** The keyboard table covers exactly the usages 0x04 to 0x31, 0x33 to 0x63,
    0x65 and the modifiers 0xe0 to 0xe7; each has a virtual key of one byte, and
    no two usages share a virtual key with the same extended bit. *)
Theorem keyboard_table_is_injective u v :
  (is_Some (hid_usage_to_key u) <->
   0x04 <= u <= 0x31 \/ 0x33 <= u <= 0x63 \/ u = 0x65 \/ 0xe0 <= u <= 0xe7) /\
  (forall k, hid_usage_to_key u = Some k -> 0 < KeyMapping.virtual_key k < 256) /\
  (forall k, hid_usage_to_key u = Some k -> hid_usage_to_key v = Some k -> u = v).
Proof.
  split_and!.
  - assert (0 <= u < 256 -> is_Some (hid_usage_to_key u) <-> documented_usage u = true) as Hdoc.
    { intros Hu. pose proof (proj1 (forallb_forall _ _) key_usages_documented u) as Hall.
      apply eqb_prop in Hall; [|apply list_elem_of_In, elem_of_seqZ; lia].
      rewrite <-Hall. symmetry. apply bool_decide_eq_true. }
    unfold documented_usage, in_range in Hdoc. split.
    + intros Hs. apply hid_usage_domain in Hs as Hu. apply Hdoc in Hs; [|done]. lia.
    + intros Hu. apply Hdoc; lia.
  - intros k Hk. pose proof (hid_usage_domain u ltac:(eauto)) as Hu.
    pose proof (proj1 (forallb_forall _ _) key_usages_in_a_byte u) as Hall.
    cbv beta in Hall. rewrite Hk in Hall. unfold in_range in Hall.
    assert (List.In u (seqZ 0 256)) as Hin by (apply list_elem_of_In, elem_of_seqZ; lia).
    apply Hall in Hin. bool_to_Z. lia.
  - intros k. apply key_usage_unique.
Qed.
