(* ===== verification/WinInputHeld.v ===== *)
(** * What Windows holds after remote input

    Proves the controller of [WinInput] correct against the record of the events
    Windows accepted: what is held down there is what the controller remembers,
    touch frames keep the contract of the touch interface, and releases release. *)
From stdpp Require Import gmap.
From S2P Require Export WinInput.
Local Open Scope string_scope.
Local Open Scope list_scope.
Local Open Scope Z_scope.

(** ** What Windows holds

    The events Windows accepted, in order, and what they leave pressed. *)
Inductive Delivered : Type :=
| DeliveredInputs (inputs : list INPUT)
| DeliveredTouch (contacts : list POINTER_TOUCH_INFO.t).

#[export] Instance key_mapping_countable : Countable KeyMapping.t.
Proof.
  refine (inj_countable' (fun k => (KeyMapping.virtual_key k, KeyMapping.extended k))
    (fun p => KeyMapping.mk p.1 p.2) _).
  by intros [].
Defined.

Module Held.
Record t : Type := mk {
  buttons : gset PointerButton.t;
  keys : gset KeyMapping.t;
  contacts : gset Z;
}.
Definition nothing : t := mk ∅ ∅ ∅.

Section view.
Context {W : Type} `{InputOs W}.

(** The button a mouse event presses or releases. *)
Definition x_button (data : Z) : option PointerButton.t :=
  if data =? XBUTTON1 then Some PointerButton.Back
  else if data =? XBUTTON2 then Some PointerButton.Forward else None.

Definition button_change (mi : MOUSEINPUT.t) : option (PointerButton.t * bool) :=
  match MOUSEINPUT.dwFlags mi with
  | [MOUSEEVENTF_LEFTDOWN] => Some (PointerButton.Primary, true)
  | [MOUSEEVENTF_LEFTUP] => Some (PointerButton.Primary, false)
  | [MOUSEEVENTF_RIGHTDOWN] => Some (PointerButton.Secondary, true)
  | [MOUSEEVENTF_RIGHTUP] => Some (PointerButton.Secondary, false)
  | [MOUSEEVENTF_MIDDLEDOWN] => Some (PointerButton.Middle, true)
  | [MOUSEEVENTF_MIDDLEUP] => Some (PointerButton.Middle, false)
  | [MOUSEEVENTF_XDOWN] => b ← x_button (MOUSEINPUT.mouseData mi); Some (b, true)
  | [MOUSEEVENTF_XUP] => b ← x_button (MOUSEINPUT.mouseData mi); Some (b, false)
  | _ => None
  end.

Definition toggled `{Countable A} (s : gset A) (a : A) (down : bool) : gset A :=
  if down then {[a]} ∪ s else s ∖ {[a]}.

Definition apply_input (held : t) (input : INPUT) : t :=
  match input with
  | INPUT_MOUSE mi =>
    match button_change mi with
    | Some (button, down) => mk (toggled (buttons held) button down) (keys held) (contacts held)
    | None => held
    end
  | INPUT_KEYBOARD ki =>
    let key := KeyMapping.mk (KEYBDINPUT.wVk ki) (bool_decide (KEYEVENTF_EXTENDEDKEY ∈ KEYBDINPUT.dwFlags ki)) in
    let down := negb (bool_decide (KEYEVENTF_KEYUP ∈ KEYBDINPUT.dwFlags ki)) in
    mk (buttons held) (toggled (keys held) key down) (contacts held)
  end.

(** A contact of a frame is up when it says so, and otherwise in contact. *)
Definition apply_contact (contacts : gset Z) (info : POINTER_TOUCH_INFO.t) : gset Z :=
  toggled contacts (POINTER_TOUCH_INFO.pointerId info)
    (negb (bool_decide (POINTER_FLAG_UP ∈ POINTER_TOUCH_INFO.pointerFlags info))).

Definition apply (held : t) (delivered : Delivered) : t :=
  match delivered with
  | DeliveredInputs inputs => fold_left apply_input inputs held
  | DeliveredTouch frame => mk (buttons held) (keys held) (fold_left apply_contact frame (contacts held))
  end.

Definition of_log (log : list Delivered) : t := fold_left apply log nothing.

(** The contract of [InjectTouchInput]: a frame names every contact that is down
    once, brings down only contacts that are up, and otherwise names only
    contacts that are down. *)
Definition legal_frame (contacts : gset Z) (frame : list POINTER_TOUCH_INFO.t) : Prop :=
  NoDup (map POINTER_TOUCH_INFO.pointerId frame) /\
  (forall id, id ∈ contacts -> id ∈ map POINTER_TOUCH_INFO.pointerId frame) /\
  Forall (fun info => POINTER_FLAG_DOWN ∈ POINTER_TOUCH_INFO.pointerFlags info <->
                      POINTER_TOUCH_INFO.pointerId info ∉ contacts) frame.

Fixpoint legal_from (held : t) (log : list Delivered) : Prop :=
  match log with
  | [] => True
  | delivered :: log =>
    match delivered with DeliveredTouch frame => legal_frame (contacts held) frame | _ => True end /\
    legal_from (apply held delivered) log
  end.
Definition legal (log : list Delivered) : Prop := legal_from nothing log.

Lemma legal_from_app held log delivered :
  legal_from held (log ++ [delivered]) <->
  legal_from held log /\
  match delivered with
  | DeliveredTouch frame => legal_frame (contacts (fold_left apply log held)) frame
  | _ => True
  end.
Proof. revert held. induction log as [|d log IH]; intros held; simpl; [tauto|]. rewrite IH. tauto. Qed.

Lemma of_log_app log delivered : of_log (log ++ [delivered]) = apply (of_log log) delivered.
Proof. unfold of_log. by rewrite fold_left_app. Qed.
End view.
End Held.

(** Windows with a record of what it accepted. *)
#[export] Instance recording_input `{InputOs W} : InputOs (W * list Delivered) := {
  XBUTTON1 := XBUTTON1;
  XBUTTON2 := XBUTTON2;
  send_input w inputs :=
    let '(os, (sent, error)) := send_input (fst w) inputs in
    (os, snd w ++ [DeliveredInputs (take (Z.to_nat sent) inputs)], (sent, error));
  initialize_touch_injection w contacts :=
    let (os, initialized) := initialize_touch_injection (fst w) contacts in (os, snd w, initialized);
  inject_touch_input w contacts :=
    let (os, injected) := inject_touch_input (fst w) contacts in
    (os, match injected with Ok _ => snd w ++ [DeliveredTouch contacts] | _ => snd w end, injected);
  buttons_in_order w := buttons_in_order (fst w);
  keys_in_order w := keys_in_order (fst w);
}.

(** The documented behaviour of the calls: [SendInput] accepts a number of the
    events offered, the X buttons differ, the calls return, and a hash set
    iterates over its elements in some order. *)
Class InputOsLaws (W : Type) `{InputOs W} : Prop := {
  xbuttons_differ : XBUTTON1 <> XBUTTON2;
  sent_in_range w inputs : 0 <= (snd (send_input w inputs)).1 <= zlen inputs;
  initialize_returns w contacts : returns (snd (initialize_touch_injection w contacts));
  inject_touch_returns w contacts : returns (snd (inject_touch_input w contacts));
  buttons_order w s : buttons_in_order w s ≡ₚ elements s;
  keys_order w s : keys_in_order w s ≡ₚ elements s;
}.

#[export] Instance recording_input_laws `{InputOsLaws W} : InputOsLaws (W * list Delivered).
Proof.
  constructor.
  - apply (xbuttons_differ (W := W)).
  - intros [w log] inputs. simpl. pose proof (sent_in_range w inputs).
    by destruct (send_input w inputs) as [? [? ?]].
  - intros [w log] contacts. simpl. pose proof (initialize_returns w contacts).
    by destruct (initialize_touch_injection w contacts).
  - intros [w log] contacts. simpl. pose proof (inject_touch_returns w contacts).
    by destruct (inject_touch_input w contacts).
  - intros [w log]. apply (buttons_order w).
  - intros [w log]. apply (keys_order w).
Qed.


(** ** The controller knows what is held *)

Lemma elem_of_toggled `{Countable A} (s : gset A) a down x :
  x ∈ Held.toggled s a down <-> (x = a /\ down = true) \/ (x <> a /\ x ∈ s).
Proof.
  unfold Held.toggled. destruct down;
    rewrite ?elem_of_union, ?elem_of_difference, elem_of_singleton; destruct (decide (x = a)); naive_solver.
Qed.

Lemma elem_of_touch_frame_from info i touches changed bounds :
  info ∈ touch_frame_from i touches changed bounds <->
  exists k c, touches !! k = Some (Some c) /\
    info = touch_info (i + Z.of_nat k) c (contact_flags changed (i + Z.of_nat k)) bounds.
Proof.
  revert i. induction touches as [|contact touches IH]; intros i; simpl.
  - split; [by intros ?%not_elem_of_nil|by intros (k & c & Hk & _)].
  - assert (info ∈ touch_frame_from (i + 1) touches changed bounds <->
      exists k c, (contact :: touches) !! S k = Some (Some c) /\
        info = touch_info (i + Z.of_nat (S k)) c (contact_flags changed (i + Z.of_nat (S k))) bounds) as Hrest.
    { rewrite IH. split; intros (k & c & Hk & ->); exists k, c; (split; [done|]);
        by replace (i + Z.of_nat (S k)) with (i + 1 + Z.of_nat k) by lia. }
    destruct contact as [contact|]; rewrite ?elem_of_cons, Hrest; split.
    + intros [->|(k & c & Hk & ->)]; [exists 0%nat, contact; by rewrite Z.add_0_r|by exists (S k), c].
    + intros ([|k] & c & Hk & ->); [left|right; eauto]. injection Hk as ->. by rewrite Z.add_0_r.
    + intros (k & c & Hk & ->). by exists (S k), c.
    + intros ([|k] & c & Hk & ->); [done|eauto].
Qed.

Lemma touch_frame_ids i touches changed bounds id :
  id ∈ map POINTER_TOUCH_INFO.pointerId (touch_frame_from i touches changed bounds) ->
  i < id.
Proof.
  intros (info & -> & Hin)%list_elem_of_fmap. apply elem_of_touch_frame_from in Hin as (k & c & _ & ->).
  simpl. lia.
Qed.

Lemma touch_frame_nodup i touches changed bounds :
  NoDup (map POINTER_TOUCH_INFO.pointerId (touch_frame_from i touches changed bounds)).
Proof.
  revert i. induction touches as [|[contact|] touches IH]; intros i; simpl; [constructor| |apply IH].
  constructor; [|apply IH]. intros Hin%touch_frame_ids. lia.
Qed.

(** One contact of a frame, by its identifier. *)
Lemma elem_of_touch_frame info touches changed bounds :
  info ∈ touch_frame touches changed bounds <->
  exists k c, touches !! k = Some (Some c) /\
    info = touch_info (Z.of_nat k) c (contact_flags changed (Z.of_nat k)) bounds.
Proof. apply (elem_of_touch_frame_from info 0). Qed.

Lemma elem_of_frame_ids id touches changed bounds :
  id ∈ map POINTER_TOUCH_INFO.pointerId (touch_frame touches changed bounds) <->
  exists k c, touches !! k = Some (Some c) /\ id = Z.of_nat k + 1.
Proof.
  rewrite list_elem_of_fmap. setoid_rewrite elem_of_touch_frame. split.
  - intros (info & -> & k & c & Hk & ->). eauto.
  - intros (k & c & Hk & ->). eexists. split; [|eauto]. done.
Qed.

(** What a frame leaves down. *)
Lemma fold_contacts frame contacts id :
  NoDup (map POINTER_TOUCH_INFO.pointerId frame) ->
  (id ∈ fold_left Held.apply_contact frame contacts) <->
  (exists info, info ∈ frame /\ id = POINTER_TOUCH_INFO.pointerId info /\
     POINTER_FLAG_UP ∉ POINTER_TOUCH_INFO.pointerFlags info) \/
  (id ∉ map POINTER_TOUCH_INFO.pointerId frame /\ id ∈ contacts).
Proof.
  revert contacts. induction frame as [|info frame IH]; intros contacts; simpl.
  - intros _. set_solver.
  - intros [Hnew Hnd]%NoDup_cons. rewrite IH by done. unfold Held.apply_contact.
    rewrite elem_of_toggled, not_elem_of_cons, negb_true_iff, bool_decide_eq_false.
    setoid_rewrite elem_of_cons. split.
    + intros [(i & Hi & -> & Hup)|[Hn [[-> Hup]|[Hne Hc]]]]; eauto 8.
    + intros [(i & [->|Hi] & -> & Hup)|[[Hne Hn] Hc]]; eauto 8.
Qed.

Lemma pointer_point_returns m x y :
  MapperFacts.wf m -> in_u 16 x -> in_u 16 y ->
  returns (let! point := CoordinateMapper.screen_point m x y in CoordinateMapper.normalized_mouse m point).
Proof.
  intros Hwf Hx Hy. destruct (screen_point_spec m x y Hwf Hx Hy) as [Hok Herr].
  destruct (decide (x < CoordinateMapper.source_width m /\ y < CoordinateMapper.source_height m)) as [Hin|Hout].
  - apply returns_obind; [by rewrite Hok|]. intros point Hp.
    apply screen_point_ok in Hp as (_ & _ & Hi); [|done..].
    pose proof Hwf as [_ _ [[] ? ?] _].
    apply normalized_mouse_returns; [done|..]; unfold MapperFacts.inside, in_i in *; lia.
  - destruct (Herr Hout) as [e ->]. done.
Qed.

Lemma screen_point_returns m x y :
  MapperFacts.wf m -> in_u 16 x -> in_u 16 y -> returns (CoordinateMapper.screen_point m x y).
Proof.
  intros Hwf Hx Hy. destruct (screen_point_spec m x y Hwf Hx Hy) as [Hok Herr].
  destruct (decide (x < CoordinateMapper.source_width m /\ y < CoordinateMapper.source_height m)) as [Hin|Hout].
  - by rewrite Hok.
  - by destruct (Herr Hout) as [e ->].
Qed.

(** Contacts after a frame, by the flags it gave each. *)
Lemma frame_contacts touches changed bounds contacts id :
  (id ∈ fold_left Held.apply_contact (touch_frame touches changed bounds) contacts) <->
  (exists i c, touches !! i = Some (Some c) /\ id = Z.of_nat i + 1 /\
     POINTER_FLAG_UP ∉ contact_flags changed (Z.of_nat i)) \/
  (~ (exists i c, touches !! i = Some (Some c) /\ id = Z.of_nat i + 1) /\ id ∈ contacts).
Proof.
  rewrite fold_contacts by apply touch_frame_nodup. rewrite elem_of_frame_ids.
  setoid_rewrite elem_of_touch_frame. split; (intros [Hl|Hr]; [left|by right]).
  - destruct Hl as (info & (i & c & Hi & ->) & -> & Hup). eauto 6.
  - destruct Hl as (i & c & Hi & -> & Hup). exists (touch_info (Z.of_nat i) c (contact_flags changed (Z.of_nat i)) bounds).
    eauto 6.
Qed.

Lemma frame_legal touches changed bounds contacts :
  (forall id, id ∈ contacts -> exists i c, touches !! i = Some (Some c) /\ id = Z.of_nat i + 1) ->
  (forall i c, touches !! i = Some (Some c) ->
     POINTER_FLAG_DOWN ∈ contact_flags changed (Z.of_nat i) <-> Z.of_nat i + 1 ∉ contacts) ->
  Held.legal_frame contacts (touch_frame touches changed bounds).
Proof.
  intros Hall Hdown. split_and!.
  - apply touch_frame_nodup.
  - intros id Hid. by apply elem_of_frame_ids, Hall.
  - apply Forall_forall. intros info (i & c & Hi & ->)%elem_of_touch_frame. by apply (Hdown i c).
Qed.

(** The contacts that are down, as the array of touches has them. *)
Definition down_in (touches : list (option ActiveTouch.t)) (contacts : gset Z) : Prop :=
  forall id, id ∈ contacts <-> exists i c, touches !! i = Some (Some c) /\ id = Z.of_nat i + 1.

Lemma lookup_next (touches : list (option ActiveTouch.t)) index contact i c :
  (index < length touches)%nat ->
  <[index := Some contact]> touches !! i = Some (Some c) <->
  (i = index /\ c = contact) \/ (i <> index /\ touches !! i = Some (Some c)).
Proof.
  intros Hlt. destruct (decide (i = index)) as [->|Hne].
  - rewrite list_lookup_insert_eq by done. naive_solver.
  - rewrite list_lookup_insert_ne by done. naive_solver.
Qed.

(** A changed contact makes a legal frame. *)
Lemma changed_frame_legal touches contacts index contact current phase bounds :
  down_in touches contacts -> touches !! index = Some current ->
  (current = None <-> phase = TouchPhase.Begin) ->
  Held.legal_frame contacts
    (touch_frame (<[index := Some contact]> touches) (Some (Z.of_nat index, phase)) bounds).
Proof.
  intros Hdown Hcur Hphase. pose proof (lookup_lt_Some _ _ _ Hcur) as Hlt. apply frame_legal.
  - intros id (i & c & Hi & ->)%Hdown.
    destruct (decide (i = index)) as [->|Hne]; [exists index|exists i]; eexists;
      (split; [apply lookup_next; eauto|done]).
  - intros i c Hin. apply lookup_next in Hin; [|done]. rewrite (Hdown (Z.of_nat i + 1)). simpl.
    destruct Hin as [[-> _]|[Hne Hin]].
    + rewrite Z.eqb_refl. split.
      * intros Hd (j & d & Hj & Heq). assert (j = index) as -> by lia.
        rewrite Hcur in Hj. destruct phase; simpl in Hd; set_solver.
      * intros Hno. destruct current as [d|]; [destruct Hno; eauto|].
        rewrite (proj1 Hphase) by done. simpl. set_solver.
    + destruct (Z.eqb_spec (Z.of_nat i) (Z.of_nat index)); [lia|]. split; [set_solver|].
      intros Hno. destruct Hno. eauto.
Qed.

(** The array of touches after the frame. *)
Definition touches_after (phase : TouchPhase.t) (index : nat) (next : list (option ActiveTouch.t))
  : list (option ActiveTouch.t) :=
  match phase with
  | TouchPhase.End_ | TouchPhase.Cancel => <[index := None]> next
  | _ => next
  end.

Lemma lookup_touches_after phase index next i c :
  (index < length next)%nat ->
  touches_after phase index next !! i = Some (Some c) <->
  next !! i = Some (Some c) /\ (i = index -> POINTER_FLAG_UP ∉ touch_pointer_flags phase).
Proof.
  intros Hlt. destruct (decide (i = index)) as [->|Hne].
  - destruct phase; simpl; rewrite ?list_lookup_insert_eq by done; set_solver.
  - destruct phase; simpl; rewrite ?list_lookup_insert_ne by done; naive_solver.
Qed.

Lemma changed_frame_after touches contacts index contact phase bounds :
  down_in touches contacts -> (index < length touches)%nat ->
  let next := <[index := Some contact]> touches in
  down_in (touches_after phase index next)
    (fold_left Held.apply_contact (touch_frame next (Some (Z.of_nat index, phase)) bounds) contacts).
Proof.
  intros Hdown Hlt next id.
  assert (index < length next)%nat as Hlt' by (subst next; by rewrite length_insert).
  setoid_rewrite lookup_touches_after; [|done]. rewrite frame_contacts. simpl. split.
  - intros [(i & c & Hin & -> & Hup)|[Hno (i & c & Hi & ->)%Hdown]].
    + exists i, c. split; [|done]. split; [done|]. intros ->. by rewrite Z.eqb_refl in Hup.
    + destruct Hno. destruct (decide (i = index)) as [->|Hne]; [exists index|exists i]; eexists;
        (split; [apply lookup_next; eauto|done]).
  - intros (i & c & [Hin Hp] & ->). left. exists i, c. split_and!; [done|done|].
    destruct (Z.eqb_spec (Z.of_nat i) (Z.of_nat index)) as [Heq|Hne]; [apply Hp; lia|set_solver].
Qed.

(** Cancelling every contact. *)
Lemma cancel_frame_legal touches contacts bounds :
  down_in touches contacts -> Held.legal_frame contacts (touch_frame touches None bounds).
Proof.
  intros Hdown. apply frame_legal; [by apply Hdown|]. intros i c Hic. rewrite (Hdown (Z.of_nat i + 1)).
  split; [set_solver|]. intros Hno. destruct Hno. eauto.
Qed.

Lemma no_touches (touches : list (option ActiveTouch.t)) i (c : ActiveTouch.t) :
  map (fun _ => None) touches !! i = Some (Some c) -> False.
Proof. rewrite list_lookup_fmap. by destruct (touches !! i). Qed.

Lemma cancel_frame_after touches contacts bounds :
  down_in touches contacts ->
  down_in (map (fun _ => None) touches) (fold_left Held.apply_contact (touch_frame touches None bounds) contacts).
Proof.
  intros Hdown id. rewrite frame_contacts. split.
  - intros [(i & c & Hi & -> & Hup)|[Hno Hid]]; [destruct Hup; simpl; set_solver|]. by apply Hdown in Hid.
  - by intros (i & c & Hi%no_touches & _).
Qed.

Section agreement.
Import NativeInputController.
Context {W : Type} `{InputOsLaws W}.
Implicit Types (p : Process.t (W * list Delivered)) (self : t).

Definition log_of p : list Delivered := snd (Process.os p).
Definition held_by p : Held.t := Held.of_log (log_of p).

(** The answer in the cell of the touch initialisation is one. *)
Definition cell_ok p : Prop :=
  match Process.touch_initialization p with Some initialized => returns initialized | None => True end.

(** Windows and the controller agree on what is down, and every touch frame so
    far kept the contract. *)
Record agrees p self : Prop := {
  ag_cell : cell_ok p;
  ag_legal : Held.legal (log_of p);
  ag_buttons : Held.buttons (held_by p) = pressed_buttons self;
  ag_keys : forall k, k ∈ Held.keys (held_by p) <->
    exists u, u ∈ pressed_keys self /\ hid_usage_to_key u = Some k;
  ag_contacts : down_in (touches self) (Held.contacts (held_by p));
  ag_known : forall u, u ∈ pressed_keys self -> is_Some (hid_usage_to_key u);
  ag_touches : length (touches self) = Z.to_nat MAX_TOUCH_CONTACTS;
}.

(** Windows accepted one more thing, and what it holds is [held]. *)
Definition step_to p p' (held : Held.t) : Prop :=
  (Held.legal (log_of p) -> Held.legal (log_of p')) /\ (cell_ok p -> cell_ok p') /\ held_by p' = held.

Lemma step_refl p : step_to p p (held_by p).
Proof. by unfold step_to. Qed.

Lemma step_log p os delivered :
  snd os = log_of p ++ [delivered] ->
  match delivered with
  | DeliveredTouch frame => Held.legal_frame (Held.contacts (held_by p)) frame
  | _ => True
  end ->
  step_to p (Process.set_os p os) (Held.apply (held_by p) delivered).
Proof.
  intros Hlog Hd. change (snd os) with (log_of (Process.set_os p os)) in Hlog.
  unfold step_to, held_by, Held.legal in *. rewrite Hlog.
  split_and!; [|done|by rewrite Held.of_log_app].
  intros Hl. by apply Held.legal_from_app.
Qed.

Lemma send_inputs_step p inputs p' r :
  send_inputs p inputs = (p', r) ->
  exists n, step_to p p' (fold_left Held.apply_input (take n inputs) (held_by p)) /\
    returns r /\ (r = Ok tt -> (length inputs <= n)%nat) /\
    (forall e, r = Err e -> (n < length inputs)%nat).
Proof.
  unfold send_inputs. case_bool_decide as Hl.
  - intros [= <- <-]. exists 0%nat. rewrite take_0. split_and!; [apply step_refl|done|lia|done].
  - simpl. pose proof (sent_in_range (Process.os p).1 inputs) as Hsent.
    destruct (send_input (Process.os p).1 inputs) as [os [sent error]]. simpl in *.
    intros [= <- <-]. exists (Z.to_nat sent). split_and!.
    + by apply (step_log p (os, _) (DeliveredInputs _)).
    + by case_match.
    + destruct (Z.eqb_spec sent (zlen inputs)); [lia|done].
    + destruct (Z.eqb_spec sent (zlen inputs)); [done|lia].
Qed.

(** Sending one event: it takes effect exactly on [Ok]. *)
Lemma send_one_step p input p' r :
  send_inputs p [input] = (p', r) ->
  returns r /\
  (r = Ok tt -> step_to p p' (Held.apply_input (held_by p) input)) /\
  (forall e, r = Err e -> step_to p p' (held_by p)).
Proof.
  intros (n & Hstep & Hret & Hok & Herr)%send_inputs_step. split_and!; [done|..].
  - intros Hr. specialize (Hok Hr). by rewrite take_ge in Hstep.
  - intros e He. specialize (Herr e He). simpl in Herr. replace n with 0%nat in Hstep by lia. done.
Qed.

Lemma agrees_same p p' self : step_to p p' (held_by p) -> agrees p self -> agrees p' self.
Proof. intros (Hl & Hc & Hh) []. constructor; rewrite ?Hh; auto. Qed.

Lemma button_change_mapping button (pressed : bool) :
  let '(down, up, data) := mouse_button_mapping button in
  Held.button_change (MOUSEINPUT.mk 0 0 data [if pressed then down else up]) = Some (button, pressed).
Proof.
  pose proof xbuttons_differ as Hx. destruct button, pressed; simpl; try done;
    unfold Held.button_change, Held.x_button; simpl; rewrite ?Z.eqb_refl; try done;
    by destruct (Z.eqb_spec (XBUTTON2 (W := W)) XBUTTON1).
Qed.

Lemma pointer_button_agrees p self button state p' self' r :
  agrees p self -> pointer_button p self button state = (p', self', r) ->
  agrees p' self' /\ returns r /\
  (r = Ok tt -> bool_decide (button ∈ pressed_buttons self') = bool_decide (state = ButtonState.Pressed)).
Proof.
  intros Hag. unfold pointer_button. set (pressed := bool_decide (state = ButtonState.Pressed)).
  destruct (eqb _ pressed) eqn:Heq; [intros [= <- <- <-]; split_and!; [done|done|intros _; by apply eqb_prop]|].
  pose proof (button_change_mapping button pressed) as Hchange.
  destruct (mouse_button_mapping button) as [[down up] data]. unfold send_mouse.
  destruct (send_inputs p _) as [p1 sent] eqn:Hsend.
  apply send_one_step in Hsend as (Hret & Hok & Herr). destruct sent as [[]|e|f]; simpl; [| |done].
  - intros [= <- <- <-]. destruct (Hok eq_refl) as (Hl & Hc & Hh). unfold Held.apply_input in Hh. rewrite Hchange in Hh.
    destruct Hag. split_and!; [constructor; rewrite ?Hh; simpl; auto|done|].
    + unfold Held.toggled. by rewrite ag_buttons0.
    + intros _. destruct pressed; simpl; apply bool_decide_eq_true_2 || apply bool_decide_eq_false_2; set_solver.
  - intros [= <- <- <-]. split_and!; [by eapply agrees_same; [apply (Herr e)|]|done|done].
Qed.

Lemma key_input mapping (state : ButtonState.t) held :
  let flags := (if KeyMapping.extended mapping then [KEYEVENTF_EXTENDEDKEY] else []) ++
    if bool_decide (state = ButtonState.Released) then [KEYEVENTF_KEYUP] else [] in
  Held.apply_input held (INPUT_KEYBOARD (KEYBDINPUT.mk (KeyMapping.virtual_key mapping) flags)) =
  Held.mk (Held.buttons held)
    (Held.toggled (Held.keys held) mapping (bool_decide (state = ButtonState.Pressed))) (Held.contacts held).
Proof. by destruct mapping as [vk []], state. Qed.

Lemma key_agrees p self usage state p' self' r :
  agrees p self -> key p self usage state = (p', self', r) ->
  agrees p' self' /\ returns r /\
  (r = Ok tt -> bool_decide (usage ∈ pressed_keys self') = bool_decide (state = ButtonState.Pressed)).
Proof.
  intros Hag. unfold key. destruct (hid_usage_to_key usage) as [mapping|] eqn:Hmap; simpl; [|by intros [= <- <- <-]].
  set (pressed := bool_decide (state = ButtonState.Pressed)).
  destruct (eqb _ pressed) eqn:Heq; [intros [= <- <- <-]; split_and!; [done|done|intros _; by apply eqb_prop]|].
  unfold send_key. destruct (send_inputs p _) as [p1 sent] eqn:Hsend.
  apply send_one_step in Hsend as (Hret & Hok & Herr). destruct sent as [[]|e|f]; simpl; [| |done].
  - intros [= <- <- <-]. destruct (Hok eq_refl) as (Hl & Hc & Hh). rewrite key_input in Hh. fold pressed in Hh.
    destruct Hag. split_and!; [constructor; rewrite ?Hh; simpl; auto|done|].
    + intros k. rewrite elem_of_toggled, ag_keys0.
      assert (forall u, hid_usage_to_key u = Some mapping -> u = usage) as Hinj
        by (intros u Hu; by eapply key_usage_unique).
      destruct pressed; [setoid_rewrite elem_of_union|setoid_rewrite elem_of_difference];
        setoid_rewrite elem_of_singleton; split.
      * intros [[-> _]|[_ (u & Hu & Hk)]]; eauto.
      * intros (u & [->|Hu] & Hk); [left; split; congruence|].
        destruct (decide (k = mapping)) as [->|]; eauto 6.
      * intros [[_ ?]|[Hne (u & Hu & Hk)]]; [done|]. exists u. split_and!; [done| |done]. intros ->. congruence.
      * intros (u & [Hu Hne] & Hk). right. split; [|eauto]. intros ->. apply Hne. by apply Hinj.
    + intros u Hu. destruct (decide (u = usage)) as [->|Hne]; [by rewrite Hmap|]. apply ag_known0.
      destruct pressed; set_solver.
    + intros _. destruct pressed; simpl; apply bool_decide_eq_true_2 || apply bool_decide_eq_false_2; set_solver.
  - intros [= <- <- <-]. split_and!; [by eapply agrees_same; [apply (Herr e)|]|done|done].
Qed.

(** Events that change no button, key or contact. *)
Lemma neutral_inputs inputs held :
  Forall (fun input => Held.apply_input held input = held) inputs ->
  fold_left Held.apply_input inputs held = held.
Proof. induction 1 as [|i inputs Hi _ IH]; simpl; [done|]. by rewrite Hi. Qed.

Lemma send_neutral p self inputs p' r :
  Forall (fun input => Held.apply_input (held_by p) input = held_by p) inputs ->
  agrees p self -> send_inputs p inputs = (p', r) -> agrees p' self /\ returns r.
Proof.
  intros Hn Hag (n & Hstep & Hret & _)%send_inputs_step. split; [|done].
  eapply agrees_same; [|done]. rewrite neutral_inputs in Hstep; [done|]. by apply Forall_take.
Qed.

Lemma wheel_agrees p self dx dy p' r :
  agrees p self -> wheel p dx dy = (p', r) -> agrees p' self /\ returns r.
Proof.
  intros Hag. apply send_neutral; [|done]. apply Forall_app; split; case_match; by repeat constructor.
Qed.

Lemma pointer_move_agrees p self x y p' self' r :
  MapperFacts.wf (mapper self) -> in_u 16 x -> in_u 16 y ->
  agrees p self -> pointer_move p self x y = (p', self', r) -> agrees p' self' /\ returns r /\ self' = self.
Proof.
  intros Hwf Hx Hy Hag. unfold pointer_move.
  assert (returns (let! point := CoordinateMapper.screen_point (mapper self) x y in
                   CoordinateMapper.normalized_mouse (mapper self) point)) as Hret
    by by apply pointer_point_returns.
  destruct (let! _ := _ in _) as [point|e|f]; simpl; [|by intros [= <- <- <-]|done].
  unfold send_mouse. destruct (send_inputs p _) as [p1 sent] eqn:Hsend. intros [= <- <- <-].
  apply (send_neutral _ self) in Hsend as [? ?]; [done|by repeat constructor|done].
Qed.

Lemma ensure_step p self p' r :
  agrees p self -> ensure_touch_initialized p = (p', r) -> agrees p' self /\ returns r.
Proof.
  intros Hag. unfold ensure_touch_initialized. pose proof (ag_cell _ _ Hag) as Hcell. unfold cell_ok in Hcell.
  destruct (Process.touch_initialization p) as [i|]; [by intros [= <- <-]|]. simpl.
  pose proof (initialize_returns (Process.os p).1 MAX_TOUCH_CONTACTS) as Hret.
  destruct (initialize_touch_injection _ _) as [os i]. intros [= <- <-]. simpl in Hret.
  split; [|by apply returns_map_err]. destruct Hag. constructor; try done. by apply returns_map_err.
Qed.

Lemma inject_contacts_step p contacts p' r :
  Held.legal_frame (Held.contacts (held_by p)) contacts ->
  inject_touch_contacts p contacts = (p', r) ->
  returns r /\ (r = Ok tt -> step_to p p' (Held.apply (held_by p) (DeliveredTouch contacts))) /\
  (forall e, r = Err e -> step_to p p' (held_by p)).
Proof.
  intros Hlegal. unfold inject_touch_contacts. simpl.
  pose proof (inject_touch_returns (Process.os p).1 contacts) as Hret.
  destruct (inject_touch_input _ _) as [os [[]|e|f]]; simpl in *; intros [= <- <-]; split_and!; try done.
  intros _. by apply (step_log p (os, _) (DeliveredTouch contacts)).
Qed.

Lemma cancel_touches_agrees p self p' self' r :
  agrees p self -> cancel_touches p self = (p', self', r) ->
  agrees p' self' /\ returns r /\
  (r = Ok tt -> forall i c, touches self' !! i = Some (Some c) -> False) /\
  pressed_buttons self' = pressed_buttons self /\ pressed_keys self' = pressed_keys self /\
  mapper self' = mapper self.
Proof.
  intros Hag. unfold cancel_touches. destruct (forallb _ _) eqn:Hall.
  { intros [= <- <- <-]. split_and!; try done. intros _ i c Hi.
    apply (proj1 (forallb_forall _ _)) with (x := Some c) in Hall; [done|].
    by eapply list_elem_of_In, list_elem_of_lookup_2. }
  destruct (ensure_touch_initialized p) as [p1 i1] eqn:He. apply (ensure_step _ self) in He as [Hag1 Hret]; [|done].
  destruct i1 as [[]|e|f]; simpl; [|by intros [= <- <- <-]|done].
  destruct (inject_touch_contacts p1 _) as [p2 i2] eqn:Hi.
  destruct Hag1. apply inject_contacts_step in Hi as (Hret2 & Hok & Herr); [|by apply cancel_frame_legal].
  destruct i2 as [[]|e|f]; simpl; intros [= <- <- <-]; split_and!; try done;
    [|by intros _ i c ?%no_touches|by eapply agrees_same; [apply (Herr e)|]].
  destruct (Hok eq_refl) as (Hl & Hc & Hh). constructor; rewrite ?Hh; simpl; auto; [|by rewrite length_map].
  by apply cancel_frame_after.
Qed.

(** The contact of a touch event, before and after. *)
Lemma touch_agrees p self contact_id phase x y pressure p' self' r :
  MapperFacts.wf (mapper self) -> 0 <= contact_id < MAX_TOUCH_CONTACTS -> in_u 16 x -> in_u 16 y ->
  agrees p self -> touch p self contact_id phase x y pressure = (p', self', r) ->
  agrees p' self' /\ returns r /\ mapper self' = mapper self.
Proof.
  intros Hwf Hid Hx Hy Hag. unfold touch.
  destruct (ensure_touch_initialized p) as [p1 i1] eqn:He. apply (ensure_step _ self) in He as [Hag1 Hret]; [|done].
  destruct i1 as [[]|e|f]; simpl; [|by intros [= <- <- <-]|done].
  pose proof (screen_point_returns (mapper self) x y Hwf Hx Hy) as Hpoint.
  destruct (CoordinateMapper.screen_point _ x y) as [point|e|f]; simpl; [|by intros [= <- <- <-]|done].
  destruct (touches self !! Z.to_nat contact_id) as [current|] eqn:Hcur; simpl; cycle 1.
  { apply lookup_ge_None in Hcur. rewrite (ag_touches _ _ Hag) in Hcur. lia. }
  destruct (check_phase contact_id phase current) as [[]|e|f] eqn:Hcheck; simpl;
    [|by intros [= <- <- <-]|by destruct phase, current].
  assert (current = None <-> phase = TouchPhase.Begin) as Hphase by (destruct phase, current; naive_solver).
  pose proof (lookup_lt_Some _ _ _ Hcur) as Hlt. clear Hcheck Hag. destruct Hag1.
  destruct (inject_touch_contacts p1 _) as [p2 i2] eqn:Hi.
  replace contact_id with (Z.of_nat (Z.to_nat contact_id)) in Hi at 2 by lia.
  apply inject_contacts_step in Hi as (Hret2 & Hok & Herr); [|by eapply changed_frame_legal].
  destruct i2 as [[]|e|f]; simpl; intros [= <- <- <-]; split_and!; try done;
    [|eapply agrees_same; [by apply (Herr e)|done]].
  destruct (Hok eq_refl) as (Hl & Hc & Hh). constructor; rewrite ?Hh; simpl; auto.
  - by apply changed_frame_after.
  - destruct phase; by rewrite ?length_insert.
Qed.

(** What the other methods keep. *)
Lemma pointer_button_keeps p self button state p' self' r :
  pointer_button p self button state = (p', self', r) ->
  mapper self' = mapper self /\ touches self' = touches self /\ pressed_keys self' = pressed_keys self /\
  (state = ButtonState.Released -> pressed_buttons self' ⊆ pressed_buttons self).
Proof.
  unfold pointer_button. destruct (eqb _ _); [by intros [= <- <- <-]|].
  destruct (mouse_button_mapping button) as [[down up] data]. destruct (send_mouse p _) as [p1 [[]|e|f]]; simpl;
    intros [= <- <- <-]; split_and!; try done. intros ->. simpl. set_solver.
Qed.

Lemma key_keeps p self usage state p' self' r :
  key p self usage state = (p', self', r) ->
  mapper self' = mapper self /\ touches self' = touches self /\ pressed_buttons self' = pressed_buttons self /\
  (state = ButtonState.Released -> pressed_keys self' ⊆ pressed_keys self).
Proof.
  unfold key. destruct (hid_usage_to_key usage); simpl; [|by intros [= <- <- <-]].
  destruct (eqb _ _); [by intros [= <- <- <-]|]. destruct (send_key p _ _) as [p1 [[]|e|f]]; simpl;
    intros [= <- <- <-]; split_and!; try done. intros ->. simpl. set_solver.
Qed.

(** A loop of [release_all] keeps [P] and adds errors only; without a new error
    every item was released. *)
Lemma release_each_spec {A} (release : Process.t (W * list Delivered) -> t -> A ->
    Process.t (W * list Delivered) * t * outcome string unit) (P : _ -> t -> Prop) (gone : t -> A -> Prop) :
  (forall p self a p' self' r, P p self -> release p self a = (p', self', r) ->
     P p' self' /\ returns r /\ (r = Ok tt -> gone self' a) /\ (forall b, gone self b -> gone self' b)) ->
  forall items p self errors p' self' r, P p self ->
  release_each release items p self errors = (p', self', r) ->
  P p' self' /\ exists more, r = Ok (errors ++ more) /\
    (more = [] -> Forall (gone self') items) /\ (forall b, gone self b -> gone self' b).
Proof.
  intros Hstep. induction items as [|item items IH]; intros p self errors p' self' r HP; simpl.
  - intros [= <- <- <-]. split; [done|]. exists []. rewrite app_nil_r. auto.
  - destruct (release p self item) as [[p1 self1] r1] eqn:Hr.
    destruct (Hstep _ _ _ _ _ _ HP Hr) as (HP1 & Hret & Hgone & Hkeep).
    destruct r1 as [[]|e|f]; [| |done].
    + intros Hrest. apply IH in Hrest as (HP' & more & -> & Hall & Hkeep'); [|done].
      split; [done|]. exists more. split_and!; auto.
    + intros Hrest. apply IH in Hrest as (HP' & more & -> & Hall & Hkeep'); [|done].
      split; [done|]. exists ([e] ++ more). rewrite (app_assoc errors). split_and!; [done|done|auto].
Qed.

Lemma release_buttons_spec p self errors p' self' r :
  agrees p self ->
  release_each (fun p self button => pointer_button p self button ButtonState.Released)
    (buttons_in_order (Process.os p) (pressed_buttons self)) p self errors = (p', self', r) ->
  (agrees p' self' /\ mapper self' = mapper self /\ touches self' = touches self) /\
  exists more, r = Ok (errors ++ more) /\ (more = [] -> pressed_buttons self' = ∅).
Proof.
  intros Hag Hr. apply (release_each_spec _
    (fun p1 self1 => agrees p1 self1 /\ mapper self1 = mapper self /\ touches self1 = touches self /\
       pressed_buttons self1 ⊆ pressed_buttons self)
    (fun self1 button => button ∉ pressed_buttons self1)) in Hr as ((? & ? & ? & Hsub) & more & -> & Hall & _).
  - split; [done|]. exists more. split; [done|]. intros Hmore. specialize (Hall Hmore).
    rewrite buttons_order, Forall_forall in Hall. apply elem_of_equiv_empty_L. intros b Hb.
    apply (Hall b); [by apply elem_of_elements, Hsub|done].
  - intros p1 self1 button p2 self2 r2 (Hag1 & Hm & Ht & Hs) Hb.
    pose proof (pointer_button_keeps _ _ _ _ _ _ _ Hb) as (Hm2 & Ht2 & _ & Hs2). specialize (Hs2 eq_refl).
    apply pointer_button_agrees in Hb as (Hag2 & Hret & Hgone); [|done].
    split_and!; [done|congruence|congruence|set_solver|done| |set_solver].
    intros Hok. specialize (Hgone Hok). by apply bool_decide_eq_false in Hgone.
  - done.
Qed.

Lemma release_keys_spec p self errors p' self' r :
  agrees p self ->
  release_each (fun p self usage => key p self usage ButtonState.Released)
    (keys_in_order (Process.os p) (pressed_keys self)) p self errors = (p', self', r) ->
  (agrees p' self' /\ mapper self' = mapper self /\ touches self' = touches self /\
   pressed_buttons self' = pressed_buttons self) /\
  exists more, r = Ok (errors ++ more) /\ (more = [] -> pressed_keys self' = ∅).
Proof.
  intros Hag Hr. apply (release_each_spec _
    (fun p1 self1 => agrees p1 self1 /\ mapper self1 = mapper self /\ touches self1 = touches self /\
       pressed_buttons self1 = pressed_buttons self /\ pressed_keys self1 ⊆ pressed_keys self)
    (fun self1 usage => usage ∉ pressed_keys self1)) in Hr as ((? & ? & ? & ? & Hsub) & more & -> & Hall & _).
  - split; [done|]. exists more. split; [done|]. intros Hmore. specialize (Hall Hmore).
    rewrite keys_order, Forall_forall in Hall. apply elem_of_equiv_empty_L. intros u Hu.
    apply (Hall u); [by apply elem_of_elements, Hsub|done].
  - intros p1 self1 usage p2 self2 r2 (Hag1 & Hm & Ht & Hb & Hs) Hk.
    pose proof (key_keeps _ _ _ _ _ _ _ Hk) as (Hm2 & Ht2 & Hb2 & Hs2). specialize (Hs2 eq_refl).
    apply key_agrees in Hk as (Hag2 & Hret & Hgone); [|done].
    split_and!; [done|congruence|congruence|congruence|set_solver|done| |set_solver].
    intros Hok. specialize (Hgone Hok). by apply bool_decide_eq_false in Hgone.
  - done.
Qed.

(** Nothing is down. *)
Definition at_rest self : Prop :=
  pressed_buttons self = ∅ /\ pressed_keys self = ∅ /\ forall i c, touches self !! i <> Some (Some c).

Lemma release_all_agrees p self p' self' r :
  agrees p self -> release_all p self = (p', self', r) ->
  agrees p' self' /\ returns r /\ mapper self' = mapper self /\ (r = Ok tt -> at_rest self').
Proof.
  intros Hag. unfold release_all. simpl.
  destruct (cancel_touches p self) as [[p1 self1] r1] eqn:Hc.
  apply cancel_touches_agrees in Hc as (Hag1 & Hret & Hnone & _ & _ & Hm); [|done].
  assert (exists errors, match r1 with
    | Ok _ => (p1, self1, Ok []) | Err e => (p1, self1, Ok [e]) | Fault f => (p1, self1, Fault f) end =
    (p1, self1, Ok errors) /\ (errors = [] -> r1 = Ok tt)) as (errors & -> & Herrors).
  { destruct r1 as [[]|e|f]; [by exists []|by exists [e]|done]. }
  cbn [otry]. destruct (release_each _ _ p1 self1 errors) as [[p2 self2] r2] eqn:Hb.
  apply release_buttons_spec in Hb as ((Hag2 & Hm2 & Ht2) & more & -> & Hbuttons); [|done]. simpl.
  destruct (release_each _ _ p2 self2 _) as [[p3 self3] r3] eqn:Hk.
  apply release_keys_spec in Hk as ((Hag3 & Hm3 & Ht3 & Hb3) & more' & -> & Hkeys); [|done]. simpl.
  intros [= <- <- <-]. split_and!; [done|by case_match|congruence|].
  intros Hok. case_bool_decide as Hlen; [|done]. apply nil_length_inv in Hlen.
  apply app_eq_nil in Hlen as [[Hl1 Hl2]%app_eq_nil Hl3]. unfold at_rest.
  rewrite Hb3, Ht3, Ht2. split_and!; [auto|auto|]. intros i c Hi. by apply (Hnone (Herrors Hl1) i c).
Qed.

(** An injected event, of those a decoder gives. *)
Lemma inject_agrees p self event p' self' r :
  MapperFacts.wf (mapper self) -> InputEvent.wf event ->
  agrees p self -> inject p self event = (p', self', r) ->
  agrees p' self' /\ returns r /\ mapper self' = mapper self /\
  (InputEvent.kind event = InputEventKind.Focus false -> r = Ok tt -> at_rest self').
Proof.
  intros Hwf [_ Htyped Hvalid] Hag. unfold inject.
  destruct (InputEvent.kind event) as [x y|button state|dx dy|usage state m|id phase x y pressure|[]]; intros Hi.
  - destruct Htyped. apply pointer_move_agrees in Hi as (? & ? & ->); [by split_and!|done..].
  - pose proof (pointer_button_keeps _ _ _ _ _ _ _ Hi) as [Hm _].
    apply pointer_button_agrees in Hi as (? & ? & _); [by split_and!|done].
  - destruct (wheel p dx dy) as [p1 r1] eqn:Hw. apply (wheel_agrees _ self) in Hw as [? ?]; [|done].
    injection Hi as <- <- <-. by split_and!.
  - pose proof (key_keeps _ _ _ _ _ _ _ Hi) as [Hm _]. apply key_agrees in Hi as (? & ? & _); [by split_and!|done].
  - destruct Htyped as ([? _] & ? & ? & ?). apply touch_agrees in Hi as (? & ? & ?); [by split_and!|done| |done..].
    simpl in Hvalid. rewrite Z.geb_leb in Hvalid. destruct (Z.leb_spec MAX_TOUCH_CONTACTS id); [done|lia].
  - injection Hi as <- <- <-. by split_and!.
  - apply release_all_agrees in Hi as (? & ? & ? & ?); [by split_and!; auto|done].
Qed.

(** The states of a controller: a new one over a process that holds nothing, and
    what events leave, also those that fail. *)
Inductive reachable : Process.t (W * list Delivered) -> t -> Prop :=
| reachable_new w cell monitors desktop display_id width height self :
    (forall r, cell = Some r -> returns r) ->
    in_u 16 width -> in_u 16 height ->
    (forall ms m, monitors = Ok ms -> m ∈ ms -> RECT.wf (MonitorSource.rect m)) ->
    (forall rect, desktop = Ok rect -> RECT.wf rect) ->
    new monitors desktop display_id width height = Ok self ->
    reachable (Process.mk (w, []) cell) self
| reachable_inject p self event p' self' r :
    reachable p self -> InputEvent.wf event -> inject p self event = (p', self', r) ->
    reachable p' self'.

Lemma new_mapper monitors desktop display_id width height self :
  in_u 16 width -> in_u 16 height ->
  (forall ms m, monitors = Ok ms -> m ∈ ms -> RECT.wf (MonitorSource.rect m)) ->
  (forall rect, desktop = Ok rect -> RECT.wf rect) ->
  new monitors desktop display_id width height = Ok self ->
  MapperFacts.wf (mapper self) /\
  self = mk (mapper self) ∅ ∅ (replicate (Z.to_nat MAX_TOUCH_CONTACTS) None).
Proof.
  intros Hw Hh Hms Hdesk. unfold new.
  intros (ms & Hms' & (m & Hm & (rect & Hrect & (mapper & Hmapper & Hself)%obind_ok_inv)%obind_ok_inv)%obind_ok_inv)%obind_ok_inv.
  injection Hself as <-. split; [|done]. simpl.
  eapply MapperFacts.new_wf in Hmapper; [done|done|done| |by eapply Hdesk].
  eapply Hms; [done|]. unfold select_monitor in Hm. destruct display_id; apply ok_or_ok_inv in Hm.
  - apply find_some in Hm as [Hin _]. by apply list_elem_of_In.
  - destruct (List.find _ ms) as [m'|] eqn:Hf; [injection Hm as ->; apply find_some in Hf as [Hin _]; by apply list_elem_of_In|].
    destruct ms; [done|]. injection Hm as ->. by left.
Qed.

Lemma reachable_agrees p self : reachable p self -> agrees p self /\ MapperFacts.wf (mapper self).
Proof.
  induction 1 as [w cell monitors desktop display_id width height self Hcell Hw Hh Hms Hdesk Hnew|p self event p' self' r _ [Hag Hwf] Hev Hi].
  - destruct (new_mapper _ _ _ _ _ _ Hw Hh Hms Hdesk Hnew) as [Hwf ->]. split; [|done].
    constructor; simpl; try done.
    + unfold cell_ok. simpl. destruct cell; [by apply Hcell|done].
    + intros k. split; [set_solver|]. intros (u & Hu & _). set_solver.
    + intros id. split; [set_solver|]. intros (i & c & Hi & _). by apply (lookup_replicate (Z.to_nat MAX_TOUCH_CONTACTS)) in Hi as [? _].
  - apply inject_agrees in Hi as (? & _ & Hm & _); [by rewrite Hm|done..].
Qed.

Lemma at_rest_held p self : agrees p self -> at_rest self -> held_by p = Held.nothing.
Proof.
  intros [_ _ Hb Hk Hc _ _] (Hb0 & Hk0 & Ht0). destruct (held_by p) as [buttons keys contacts]. simpl in *. subst buttons.
  unfold Held.nothing. rewrite Hb0. f_equal; apply elem_of_equiv_empty_L.
  - intros k (u & Hu & _)%Hk. set_solver.
  - intros id (i & c & Hi & _)%Hc. by apply (Ht0 i c).
Qed.
End agreement.

(** ** A Windows that accepts everything *)
Section cooperation.
Import NativeInputController.
Context {W : Type} `{InputOsLaws W}.
Implicit Types (p : Process.t (W * list Delivered)) (self : t).

Record cooperative : Prop := {
  accepts_inputs (w : W) inputs : (snd (send_input w inputs)).1 = zlen inputs;
  accepts_initialization (w : W) contacts : snd (initialize_touch_injection w contacts) = Ok tt;
  accepts_touch (w : W) contacts : snd (inject_touch_input w contacts) = Ok tt;
}.

(** Touch injection has not been refused so far. *)
Definition touchable p : Prop :=
  Process.touch_initialization p = None \/ Process.touch_initialization p = Some (Ok tt).

Context (Hcoop : cooperative).

Lemma coop_send p inputs : touchable p -> exists p', send_inputs p inputs = (p', Ok tt) /\ touchable p'.
Proof.
  intros Ht. unfold send_inputs. case_bool_decide; [eauto|]. simpl.
  pose proof (accepts_inputs Hcoop (Process.os p).1 inputs) as Hn.
  destruct (send_input _ _) as [os [n e]]. simpl in Hn. rewrite Hn, Z.eqb_refl. eauto.
Qed.

Lemma coop_button p self button state :
  touchable p -> exists p' self', pointer_button p self button state = (p', self', Ok tt) /\ touchable p'.
Proof.
  intros Ht. unfold pointer_button. case_match; [eauto|].
  destruct (mouse_button_mapping button) as [[down up] data].
  edestruct coop_send as (p' & Hs & Ht'); [exact Ht|]. unfold send_mouse. rewrite Hs. eauto.
Qed.

Lemma coop_key p self usage state :
  is_Some (hid_usage_to_key usage) -> touchable p ->
  exists p' self', key p self usage state = (p', self', Ok tt) /\ touchable p'.
Proof.
  intros [m Hm] Ht. unfold key. rewrite Hm. simpl. case_match; [eauto|].
  edestruct coop_send as (p' & Hs & Ht'); [exact Ht|]. unfold send_key. rewrite Hs. eauto.
Qed.

Lemma coop_cancel p self :
  touchable p -> exists p' self', cancel_touches p self = (p', self', Ok tt) /\ touchable p'.
Proof.
  intros Ht. unfold cancel_touches. destruct (forallb _ _); [eauto|].
  assert (exists p1, ensure_touch_initialized p = (p1, Ok tt) /\ touchable p1) as (p1 & -> & Ht1).
  { unfold ensure_touch_initialized. destruct Ht as [Ht|Ht]; rewrite Ht; [|exists p; unfold touchable; auto].
    simpl. pose proof (accepts_initialization Hcoop (Process.os p).1 MAX_TOUCH_CONTACTS) as Hi.
    destruct (initialize_touch_injection _ _) as [os i]. simpl in Hi. subst i. eexists. split; [done|]. by right. }
  simpl. unfold inject_touch_contacts. simpl.
  pose proof (accepts_touch Hcoop (Process.os p1).1) as Hi.
  specialize (Hi (touch_frame (touches self) None (CoordinateMapper.virtual_desktop (mapper self)))).
  destruct (inject_touch_input _ _) as [os i]. simpl in Hi. subst i. simpl. eauto.
Qed.

Lemma coop_release_each {A} (release : Process.t (W * list Delivered) -> t -> A ->
    Process.t (W * list Delivered) * t * outcome string unit) (items : list A) p self errors :
  (forall p self a, a ∈ items -> touchable p ->
     exists p' self', release p self a = (p', self', Ok tt) /\ touchable p') ->
  touchable p ->
  exists p' self', release_each release items p self errors = (p', self', Ok errors) /\ touchable p'.
Proof.
  revert p self. induction items as [|a items IH]; intros p self Hrel Ht; simpl; [eauto|].
  destruct (Hrel p self a) as (p1 & self1 & -> & Ht1); [by left|done|].
  apply IH; [|done]. intros p2 self2 b Hb. apply Hrel. by right.
Qed.

Lemma coop_release_all p self :
  agrees p self -> touchable p -> exists p' self', release_all p self = (p', self', Ok tt).
Proof.
  intros Hag Ht. unfold release_all.
  destruct (coop_release_each (fun p self _ => cancel_touches p self) [tt] p self []) as (p1 & self1 & Hc & Ht1);
    [intros; by apply coop_cancel|done|].
  rewrite Hc. cbn [otry].
  assert (agrees p1 self1 /\ pressed_keys self1 = pressed_keys self) as [Hag1 Hkeys].
  { simpl in Hc. destruct (cancel_touches p self) as [[p0 self0] r0] eqn:Hcancel.
    apply cancel_touches_agrees in Hcancel as (? & ? & _ & _ & ? & _); [|done].
    by destruct r0 as [[]| |]; simplify_eq. }
  destruct (coop_release_each (fun p self button => pointer_button p self button ButtonState.Released)
    (buttons_in_order (Process.os p1) (pressed_buttons self1)) p1 self1 []) as (p2 & self2 & Hb & Ht2);
    [intros; by apply coop_button|done|].
  rewrite Hb. cbn [otry].
  apply release_buttons_spec in Hb as ((Hag2 & _) & _); [|done].
  destruct (coop_release_each (fun p self usage => key p self usage ButtonState.Released)
    (keys_in_order (Process.os p2) (pressed_keys self2)) p2 self2 []) as (p3 & self3 & Hk & Ht3).
  { intros p' self' u Hu Ht'. apply coop_key; [|done]. rewrite keys_order in Hu.
    by apply (ag_known _ _ Hag2), elem_of_elements. }
  { done. }
  rewrite Hk. cbn [otry]. eauto.
Qed.

(** What the calls keep of the process: its cell is set by one function only. *)
Lemma touchable_set_os p os : touchable p -> touchable (Process.set_os p os).
Proof. done. Qed.
Lemma touchable_send p inputs : touchable p -> touchable (fst (send_inputs p inputs)).
Proof. intros Ht. unfold send_inputs. case_match; [done|]. by destruct (send_input _ _) as [os [n e]]. Qed.
Lemma touchable_ensure p : touchable p -> touchable (fst (ensure_touch_initialized p)).
Proof.
  intros [Ht|Ht]; unfold ensure_touch_initialized; rewrite Ht; [|by right]. simpl.
  pose proof (accepts_initialization Hcoop (Process.os p).1 MAX_TOUCH_CONTACTS) as Hi.
  destruct (initialize_touch_injection _ _) as [os i]. simpl in Hi. subst i. by right.
Qed.
Lemma touchable_contacts p contacts : touchable p -> touchable (fst (inject_touch_contacts p contacts)).
Proof. intros Ht. unfold inject_touch_contacts. by destruct (inject_touch_input _ _). Qed.
Lemma touchable_button p self button state : touchable p -> touchable (pointer_button p self button state).1.1.
Proof.
  intros Ht. unfold pointer_button. case_match; [done|]. destruct (mouse_button_mapping button) as [[down up] data].
  pose proof (touchable_send p [INPUT_MOUSE (MOUSEINPUT.mk 0 0 data [if bool_decide (state = ButtonState.Pressed) then down else up])] Ht) as Hs.
  unfold send_mouse. by destruct (send_inputs p _) as [p' []].
Qed.
Lemma touchable_key p self usage state : touchable p -> touchable (key p self usage state).1.1.
Proof.
  intros Ht. unfold key. destruct (hid_usage_to_key usage) as [m|]; [|done]. simpl. case_match; [done|].
  unfold send_key. match goal with |- context [send_inputs p ?i] => pose proof (touchable_send p i Ht) as Hs; by destruct (send_inputs p i) as [p' []] end.
Qed.
Lemma touchable_cancel p self : touchable p -> touchable (cancel_touches p self).1.1.
Proof.
  intros Ht. unfold cancel_touches. case_match; [done|]. pose proof (touchable_ensure p Ht) as He.
  destruct (ensure_touch_initialized p) as [p1 []]; try done. cbn [otry].
  match goal with |- context [inject_touch_contacts p1 ?c] =>
    pose proof (touchable_contacts p1 c He) as Hc; by destruct (inject_touch_contacts p1 c) as [p2 []] end.
Qed.
Lemma touchable_touch p self contact_id phase x y pressure :
  touchable p -> touchable (touch p self contact_id phase x y pressure).1.1.
Proof.
  intros Ht. unfold touch. pose proof (touchable_ensure p Ht) as He.
  destruct (ensure_touch_initialized p) as [p1 []]; try done. cbn [otry].
  destruct (CoordinateMapper.screen_point _ _ _); try done. cbn [otry].
  destruct (expect _); try done. cbn [otry]. destruct (check_phase _ _ _); try done. cbn [otry]. cbv zeta.
  match goal with |- context [inject_touch_contacts p1 ?c] =>
    pose proof (touchable_contacts p1 c He) as Hc; by destruct (inject_touch_contacts p1 c) as [p2 []] end.
Qed.
Lemma touchable_each {A} (release : Process.t (W * list Delivered) -> t -> A ->
    Process.t (W * list Delivered) * t * outcome string unit) items p self errors :
  (forall p self a, touchable p -> touchable (release p self a).1.1) -> touchable p ->
  touchable (release_each release items p self errors).1.1.
Proof.
  intros Hrel. revert p self errors. induction items as [|a items IH]; intros p self errors Ht; simpl; [done|].
  specialize (Hrel p self a Ht). destruct (release p self a) as [[p1 self1] []]; [by apply IH..|done].
Qed.
Lemma touchable_release p self : touchable p -> touchable (release_all p self).1.1.
Proof.
  intros Ht. unfold release_all.
  pose proof (touchable_each (fun p self (_ : unit) => cancel_touches p self) [tt] p self []
    (fun p self _ => touchable_cancel p self) Ht) as H1'.
  destruct (release_each _ [tt] p self []) as [[p1 self1] [errors| |]]; [|done..]. cbn [otry].
  pose proof (touchable_each (fun p self button => pointer_button p self button ButtonState.Released)
    (buttons_in_order (Process.os p1) (pressed_buttons self1)) p1 self1 errors
    (fun p self button => touchable_button p self button ButtonState.Released) H1') as H2'.
  destruct (release_each _ _ p1 self1 errors) as [[p2 self2] [errors2| |]]; [|done..]. cbn [otry].
  pose proof (touchable_each (fun p self usage => key p self usage ButtonState.Released)
    (keys_in_order (Process.os p2) (pressed_keys self2)) p2 self2 errors2
    (fun p self usage => touchable_key p self usage ButtonState.Released) H2') as H3'.
  by destruct (release_each _ _ p2 self2 errors2) as [[p3 self3] [errors3| |]].
Qed.
Lemma touchable_inject p self event : touchable p -> touchable (inject p self event).1.1.
Proof.
  intros Ht. unfold inject. destruct (InputEvent.kind event) as [x y|button state|dx dy|usage state m|id ph x y pr|[]].
  - unfold pointer_move. destruct (obind _ _); [cbn [otry]|done..]. unfold send_mouse.
    match goal with |- context [send_inputs p ?i] => pose proof (touchable_send p i Ht) as Hs; by destruct (send_inputs p i) end.
  - by apply touchable_button.
  - unfold wheel. match goal with |- context [send_inputs p ?i] => pose proof (touchable_send p i Ht) as Hs; by destruct (send_inputs p i) end.
  - by apply touchable_key.
  - by apply touchable_touch.
  - done.
  - by apply touchable_release.
Qed.

(** Dropping a controller that agrees with Windows. *)
Lemma drop_at_rest p self : agrees p self -> touchable p -> held_by (drop_ p self) = Held.nothing.
Proof.
  intros Hag Ht. unfold drop_. destruct (coop_release_all p self Hag Ht) as (p' & self' & Hr). rewrite Hr.
  apply release_all_agrees in Hr as (Hag' & _ & _ & Hrest); [|done]. eapply at_rest_held; [done|by apply Hrest].
Qed.
End cooperation.

Lemma drop_legal `{InputOsLaws W} (p : Process.t (W * list Delivered)) self :
  agrees p self -> Held.legal (log_of (NativeInputController.drop_ p self)).
Proof.
  intros Hag. unfold NativeInputController.drop_. destruct (NativeInputController.release_all p self) as [[p' self'] r] eqn:Hr.
  apply release_all_agrees in Hr as ([] & _); done.
Qed.

Section input_properties.
Import NativeInputController.
Context {W : Type} `{InputOsLaws W}.

(** C8: whatever the display sends and whatever Windows refuses, each event
    returns, the buttons, keys and touch contacts Windows holds afterwards are
    the ones the controller records, and every touch frame it accepted named all
    contacts that were down, each once, in a state that may follow its last. *)
Theorem controller_records_what_is_held (p : Process.t (W * list Delivered)) self event p' self' r :
  reachable p self -> InputEvent.wf event -> inject p self event = (p', self', r) ->
  returns r /\ Held.legal (log_of p') /\
  Held.buttons (held_by p') = pressed_buttons self' /\
  (forall k, k ∈ Held.keys (held_by p') <->
     exists u, u ∈ pressed_keys self' /\ hid_usage_to_key u = Some k) /\
  (forall id, id ∈ Held.contacts (held_by p') <->
     exists i c, touches self' !! i = Some (Some c) /\ id = Z.of_nat i + 1).
Proof.
  intros [Hag Hwf]%reachable_agrees Hev Hi. apply inject_agrees in Hi as ([] & ? & _); [|done..]. auto.
Qed.

(** When the display loses focus and the release succeeds, Windows holds no
    button, key or contact, and the controller records none. *)
Theorem focus_loss_releases_everything (p : Process.t (W * list Delivered)) self event p' self' :
  reachable p self -> InputEvent.wf event -> InputEvent.kind event = InputEventKind.Focus false ->
  inject p self event = (p', self', Ok tt) ->
  held_by p' = Held.nothing /\ at_rest self'.
Proof.
  intros [Hag Hwf]%reachable_agrees Hev Hk Hi. apply inject_agrees in Hi as (Hag' & _ & _ & Hrest); [|done..].
  specialize (Hrest Hk eq_refl). split; [by eapply at_rest_held|done].
Qed.

(** Dropping the controller releases everything, as long as Windows accepts
    what it is asked: no key, button or contact stays down after a session. *)
Theorem drop_releases_everything (p : Process.t (W * list Delivered)) self :
  cooperative (W := W) -> reachable p self -> touchable p ->
  held_by (drop_ p self) = Held.nothing.
Proof.
  intros Hcoop [Hag _]%reachable_agrees Ht. by apply drop_at_rest.
Qed.
End input_properties.

(** ** A contact's geometry *)

(** The contact of a point on the virtual desktop has an area around the
    point, within the desktop and two pixels to each side, and a pressure from 0
    to 1024 that grows with the display's. *)
Theorem touch_contact_is_well_formed contact_id contact flags bounds :
  MapperFacts.valid_rect bounds -> MapperFacts.inside bounds (ActiveTouch.point contact) ->
  0 <= contact_id < MAX_TOUCH_CONTACTS -> in_u 16 (ActiveTouch.pressure contact) ->
  let info := touch_info contact_id contact flags bounds in
  let point := POINTER_TOUCH_INFO.ptPixelLocation info in
  let area := POINTER_TOUCH_INFO.rcContact info in
  1 <= POINTER_TOUCH_INFO.pointerId info <= MAX_TOUCH_CONTACTS /\
  MapperFacts.valid_rect area /\ MapperFacts.inside area point /\
  Z.max (RECT.left_ bounds) (ScreenPoint.x point - 2) = RECT.left_ area /\
  RECT.right_ area = Z.min (RECT.right_ bounds) (ScreenPoint.x point + 2) /\
  Z.max (RECT.top bounds) (ScreenPoint.y point - 2) = RECT.top area /\
  RECT.bottom area = Z.min (RECT.bottom bounds) (ScreenPoint.y point + 2) /\
  0 <= POINTER_TOUCH_INFO.pressure info <= TOUCH_PRESSURE_MAX /\
  (ActiveTouch.pressure contact = u_max 16 -> POINTER_TOUCH_INFO.pressure info = TOUCH_PRESSURE_MAX).
Proof.
  intros [[Hl Ht Hr Hb] Hlr Htb] [Hx Hy] Hid Hp. unfold_int.
  unfold MAX_TOUCH_CONTACTS, TOUCH_PRESSURE_MAX in *. simpl. unfold saturating_i, TOUCH_CONTACT_RADIUS, TOUCH_PRESSURE_MAX, u_max.
  split_and!; try (constructor; [constructor|..]); simpl; unfold MapperFacts.inside, in_i in *; simpl; try lia.
  - apply Z.div_pos; lia.
  - apply Z.div_le_upper_bound; lia.
  - intros ->. reflexivity.
Qed.

(** ** A desktop with a monitor left of the primary one *)
Module InputExamples.
Import NativeInputController.

(** A Windows that accepts everything. *)
#[export] Instance accepting : InputOs unit := {
  XBUTTON1 := 1;
  XBUTTON2 := 2;
  send_input w inputs := (w, (zlen inputs, ""));
  initialize_touch_injection w _ := (w, Ok tt);
  inject_touch_input w _ := (w, Ok tt);
  buttons_in_order _ s := elements s;
  keys_in_order _ s := elements s;
}.
#[export] Instance accepting_laws : InputOsLaws unit.
Proof. constructor; intros; simpl; try done; lia. Qed.
Lemma accepting_cooperates : cooperative (W := unit).
Proof. by constructor. Qed.

Definition left_monitor : RECT.t := RECT.mk (-1280) 0 0 1024.
Definition desktop : RECT.t := RECT.mk (-1280) 0 1920 1080.
Definition monitors : list MonitorSource.t :=
  [MonitorSource.mk 1 left_monitor "left" (DisplaySource.mk "left" "left" 1280 1024 true false)].
Definition mapper : CoordinateMapper.t := CoordinateMapper.mk 1280 720 left_monitor desktop.
Definition controller : t := mk mapper ∅ ∅ (replicate 16 None).
Definition process : Process.t (unit * list Delivered) := Process.mk (tt, []) None.

Lemma mapper_wf : MapperFacts.wf mapper.
Proof. repeat constructor; simpl; unfold in_i; lia. Qed.

Lemma controller_reachable : reachable process controller.
Proof.
  apply (reachable_new tt None (Ok monitors) (Ok desktop) None 1280 720); try (unfold in_u; lia); try done.
  - intros ms m [= <-] ->%list_elem_of_singleton. repeat constructor; simpl; unfold in_i; lia.
  - intros rect [= <-]. repeat constructor; simpl; unfold in_i; lia.
Qed.

Definition press_key : InputEvent.t :=
  InputEvent.mk 0 (InputEventKind.Key 4 ButtonState.Pressed KeyModifiers.default).
Definition lose_focus : InputEvent.t := InputEvent.mk 0 (InputEventKind.Focus false).
Definition begin_touch : InputEvent.t := InputEvent.mk 0 (InputEventKind.Touch 3 TouchPhase.Begin 10 20 65535).

Lemma press_key_wf : InputEvent.wf press_key.
Proof. constructor; [unfold in_u; simpl; lia| |reflexivity]. split; [unfold in_u; lia|unfold KeyModifiers.wf; simpl; lia]. Qed.
Lemma lose_focus_wf : InputEvent.wf lose_focus.
Proof. constructor; [unfold in_u; simpl; lia|exact I|reflexivity]. Qed.

(** The state after the key is pressed. *)
Definition pressed : Process.t (unit * list Delivered) * t * outcome string unit :=
  inject process controller press_key.

Lemma pressed_reachable : reachable pressed.1.1 pressed.1.2.
Proof.
  apply (reachable_inject process controller press_key _ _ pressed.2);
    [apply controller_reachable|apply press_key_wf|unfold pressed; by destruct (inject _ _ _) as [[]]].
Qed.

Lemma pointer_mapping_is_exact_witness :
  CoordinateMapper.screen_point mapper 1279 719 = Ok (ScreenPoint.mk (-1) 1023) /\
  exists point, CoordinateMapper.screen_point mapper 1279 719 = Ok point /\
    MapperFacts.inside left_monitor point.
Proof.
  split; [vm_compute; reflexivity|].
  destruct (pointer_mapping_is_exact mapper 1279 719 mapper_wf) as [Hin _]; [unfold in_u; lia..|].
  destruct Hin as (point & Hp & Hi & _); [simpl; lia|]. exists point. split; [exact Hp|exact Hi].
Defined.

Lemma controller_records_what_is_held_witness :
  Held.keys (held_by pressed.1.1) = {[KeyMapping.mk 65 false]} /\ Held.legal (log_of pressed.1.1).
Proof.
  split; [vm_compute; reflexivity|].
  apply (controller_records_what_is_held process controller press_key pressed.1.1 pressed.1.2 pressed.2
    controller_reachable press_key_wf eq_refl).
Defined.

Lemma focus_loss_releases_everything_witness :
  exists p' self', inject pressed.1.1 pressed.1.2 lose_focus = (p', self', Ok tt) /\
    held_by p' = Held.nothing.
Proof.
  eexists _, _. split; [vm_compute; reflexivity|].
  eapply (focus_loss_releases_everything pressed.1.1 pressed.1.2 lose_focus _ _
    pressed_reachable lose_focus_wf eq_refl eq_refl).
Defined.

Lemma drop_releases_everything_witness :
  held_by (drop_ pressed.1.1 pressed.1.2) = Held.nothing.
Proof.
  apply (drop_releases_everything pressed.1.1 pressed.1.2 accepting_cooperates pressed_reachable).
  by left.
Defined.

Lemma touch_contact_is_well_formed_witness :
  let contact := ActiveTouch.mk (ScreenPoint.mk (-1280) 1079) 65535 in
  POINTER_TOUCH_INFO.rcContact (touch_info 3 contact [] desktop) = RECT.mk (-1280) 1077 (-1278) 1080 /\
  MapperFacts.valid_rect (POINTER_TOUCH_INFO.rcContact (touch_info 3 contact [] desktop)).
Proof.
  split; [reflexivity|].
  apply (touch_contact_is_well_formed 3 (ActiveTouch.mk (ScreenPoint.mk (-1280) 1079) 65535) [] desktop);
    [repeat constructor; simpl; unfold in_i; lia|split; simpl; lia|unfold MAX_TOUCH_CONTACTS; lia|unfold in_u; simpl; lia].
Defined.

(** A touch reaches Windows as a frame of one contact, whose identifier counts from one. *)
Example touch_is_delivered :
  Held.contacts (held_by (inject process controller begin_touch).1.1) = {[4]}.
Proof. vm_compute. reflexivity. Qed.
End InputExamples.
