(* ===== verification/WinCapture.v ===== *)
(** * The Windows capture stream

    Models [apps/desktop/src-tauri/src/platform/windows/capture_stream.rs] and the
    stream and probe helpers of [platform/windows.rs]: the conversion of encoded
    access units, the bounded channel to the session, the frame-rate gate of the
    capture pipeline and the life of every captured frame. The GPU and the encoder
    answer through the observations of a turn; what the code does to them is the
    list of [Action]s of the state. *)
From stdpp Require Import pretty.
From Stdlib Require Import Floats.SpecFloat.
From S2P Require Export WinInput HostState.
Local Open Scope string_scope.
Local Open Scope list_scope.
Local Open Scope Z_scope.

Definition CAPTURE_FRAME_QUEUE : nat := 3.

(** ** Access units *)
Module EncodedAccessUnit.
Record t : Type := mk {
  bytes : list byte;
  timestamp_100ns : option Z;
  duration_100ns : option Z;
  keyframe : bool;
}.
#[global] Instance t_eq_dec : EqDecision t.
Proof. solve_decision. Defined.

(** The times are [i64]. *)
Definition typed (u : t) : Prop :=
  (forall v, timestamp_100ns u = Some v -> in_i 64 v) /\ (forall v, duration_100ns u = Some v -> in_i 64 v).
End EncodedAccessUnit.

Definition media_time_to_duration (value_100ns : Z) (allow_zero : bool) (field : string)
  : outcome string Z :=
  if (value_100ns <? 0) || (negb allow_zero && (value_100ns =? 0))
  then Err ("Windows H.264 access-unit " +:+ field +:+ " must be " +:+
            if allow_zero then "non-negative" else "positive")
  else
    let! ticks := ok_or (checked 64 value_100ns)
      ("Windows H.264 access-unit " +:+ field +:+ " is out of range") in
    let! nanoseconds := ok_or (checked 64 (ticks * 100))
      ("Windows H.264 access-unit " +:+ field +:+ " is out of range") in
    Ok (Duration.from_nanos nanoseconds).

Definition convert_unit (unit_ : EncodedAccessUnit.t) (previous : option Z) : outcome string H264AccessUnit.t :=
  if bool_decide (EncodedAccessUnit.bytes unit_ = [])
  then Err "Windows H.264 encoder returned an empty access unit"
  else
    let! timestamp_100ns := ok_or (EncodedAccessUnit.timestamp_100ns unit_)
      "Windows H.264 access unit has no timestamp" in
    let! timestamp := media_time_to_duration timestamp_100ns true "timestamp" in
    let! duration_100ns := ok_or (EncodedAccessUnit.duration_100ns unit_)
      "Windows H.264 access unit has no duration" in
    let! duration := media_time_to_duration duration_100ns false "duration" in
    if match previous with Some previous => timestamp <? previous | None => false end
    then Err "Windows H.264 access-unit timestamps moved backwards"
    else Ok (H264AccessUnit.mk (EncodedAccessUnit.bytes unit_) timestamp duration
               (EncodedAccessUnit.keyframe unit_)).

Fixpoint convert_units (encoded : list EncodedAccessUnit.t) (previous : option Z)
  : outcome string (list H264AccessUnit.t) :=
  match encoded with
  | [] => Ok []
  | unit_ :: encoded =>
    let! converted := convert_unit unit_ previous in
    let! rest := convert_units encoded (Some (H264AccessUnit.timestamp converted)) in
    Ok (converted :: rest)
  end.

Definition convert_h264_access_units (encoder_name : string) (encoded : list EncodedAccessUnit.t)
  : outcome string H264StreamBatch.t :=
  if bool_decide (encoded = [])
  then Err "Windows H.264 encoder returned an empty access-unit batch"
  else
    let! access_units := convert_units encoded None in
    Ok (H264StreamBatch.mk encoder_name access_units).

(** ** The channel to the session *)

(** What a receive that does not block finds. *)
Inductive TryRecv (A : Type) : Type :=
| Received (a : A)
| Empty
| Disconnected.
Arguments Received {A} a.
Arguments Empty {A}.
Arguments Disconnected {A}.

Definition receive_h264_batch (received : TryRecv (outcome string H264StreamBatch.t)) (cancel : bool)
    (worker_name : string) : outcome string (option H264StreamBatch.t) :=
  match received with
  | Received (Ok batch) => Ok (Some batch)
  | Received (Err error) => Err error
  | Received (Fault f) => Fault f
  | Empty => Ok None
  | Disconnected => if cancel then Ok None else Err (worker_name +:+ " stopped without a diagnostic")
  end.

(** What one turn of the sending loop observes. *)
Inductive TrySend : Type :=
| Sent
| Full
| SendDisconnected.
Module SendPoll.
Record t : Type := mk { cancelled : bool; tried : TrySend }.
End SendPoll.

Fixpoint send_encoder_result (polls : list SendPoll.t) : outcome string bool :=
  match polls with
  | [] => Fault OutOfFuel
  | poll :: polls =>
    if SendPoll.cancelled poll then Ok false
    else match SendPoll.tried poll with
         | Sent => Ok true
         | Full => send_encoder_result polls
         | SendDisconnected => Ok false
         end
  end.

(** ** The pipeline *)

Definition positive_dimension (value : Z) (label : string) : outcome string Z :=
  if 0 <? value then Ok value
  else Err ("Windows capture returned invalid " +:+ label +:+ ": " +:+ pretty value).

Definition duration_to_100ns (duration : Z) : outcome string Z :=
  let ticks := Duration.as_nanos duration / 100 in
  ok_or (checked_i 64 ticks) "capture timestamp exceeds Media Foundation range".

(** [T] is a texture of the capture device; a frame answers for its size, its
    surface, the surface's DXGI interface and its texture, and its closing. *)
Module CapturedFrame.
Record t (T : Type) : Type := mk {
  id : nat;
  content_size : outcome string (Z * Z);
  surface : outcome string unit;
  access : outcome string unit;
  texture : outcome string T;
  close : outcome string unit;
}.
Arguments mk {T} id content_size surface access texture close.
Arguments id {T} t.
Arguments content_size {T} t.
Arguments surface {T} t.
Arguments access {T} t.
Arguments texture {T} t.
Arguments close {T} t.
End CapturedFrame.

Definition capture_texture {T} (frame : CapturedFrame.t T) : outcome string T :=
  let! _ := map_err (fun error => "captured frame has no D3D surface: " +:+ error) (CapturedFrame.surface frame) in
  let! _ := map_err (fun error => "captured surface has no DXGI interop: " +:+ error) (CapturedFrame.access frame) in
  map_err (fun error => "failed to query captured D3D11 texture: " +:+ error) (CapturedFrame.texture frame).

(** What a turn observes: the flags, the frame queue, the clock since the capture
    started, and the answers of the frame pool, the processor and the encoder. *)
Module CaptureTurn.
Record t (T : Type) : Type := mk {
  cancelled : bool;
  source_closed : bool;
  received : TryRecv (outcome string (CapturedFrame.t T));
  captured_at : Z;
  recreated : outcome string unit;
  rebuilt : outcome string unit;
  converted : outcome string T;
  encoded : outcome string (list EncodedAccessUnit.t);
  sends : list SendPoll.t;
}.
Arguments mk {T} cancelled source_closed received captured_at recreated rebuilt converted encoded sends.
Arguments cancelled {T} t.
Arguments source_closed {T} t.
Arguments received {T} t.
Arguments captured_at {T} t.
Arguments recreated {T} t.
Arguments rebuilt {T} t.
Arguments converted {T} t.
Arguments encoded {T} t.
Arguments sends {T} t.
End CaptureTurn.

Inductive Action : Type :=
| TakeFrame (frame : nat)
| CloseFrame (frame : nat)
| RecreatePool (width height : Z)
| RebuildProcessor (input_width input_height width height fps : Z)
| EncodeTexture (frame : nat) (timestamp_100ns : Z)
| SendBatch (batch : H264StreamBatch.t).

Module Pipeline.
Record t : Type := mk {
  config : H264StreamConfig.t;
  frame_interval : Z;
  encoder_name : string;
  input_dimensions : Z * Z;
  next_frame_at : Z;
  actions : list Action;
}.
Definition act (self : t) (a : list Action) : t :=
  mk (config self) (frame_interval self) (encoder_name self) (input_dimensions self)
     (next_frame_at self) (actions self ++ a).
Definition set_next (self : t) (v : Z) : t :=
  mk (config self) (frame_interval self) (encoder_name self) (input_dimensions self) v (actions self).
Definition set_input (self : t) (v : Z * Z) : t :=
  mk (config self) (frame_interval self) (encoder_name self) v (next_frame_at self) (actions self).

(** The start: the first frame is due at once. *)
Definition new (config : H264StreamConfig.t) (encoder_name : string) (input_width input_height : Z)
  : outcome string t :=
  let! frame_interval := div_i 1000000000 (H264StreamConfig.fps config) in
  Ok (mk config (Duration.from_nanos frame_interval) encoder_name (input_width, input_height) Duration.ZERO []).

(** When the next frame is due, once one at [captured_at] is accepted. *)
Definition advance (next_frame_at frame_interval captured_at : Z) : Z :=
  let next_frame_at := default captured_at (Duration.checked_add next_frame_at frame_interval) in
  if frame_interval <? Duration.saturating_sub captured_at next_frame_at then captured_at else next_frame_at.

Definition dimensions {T} (frame : CapturedFrame.t T) : outcome string (Z * Z) :=
  let! size := map_err (fun error => "failed to query streaming frame size: " +:+ error)
    (CapturedFrame.content_size frame) in
  let! width := positive_dimension (fst size) "streaming frame width" in
  let! height := positive_dimension (snd size) "streaming frame height" in
  Ok (width, height).

(** A frame of another size: the pool and the processor are made anew. *)
Definition resize {T} (turn : CaptureTurn.t T) (frame : CapturedFrame.t T) (size : Z * Z) (self : t)
  : t * outcome string unit :=
  let (width, height) := size in
  let self := act self [CloseFrame (CapturedFrame.id frame)] in
  let? _ := map_err (fun error => "failed to close resized capture frame: " +:+ error)
    (CapturedFrame.close frame) keeping self in
  let self := act self [RecreatePool width height] in
  let? _ := map_err (fun error => "failed to resize capture frame pool: " +:+ error)
    (CaptureTurn.recreated turn) keeping self in
  let self := act self [RebuildProcessor width height (H264StreamConfig.width (config self))
    (H264StreamConfig.height (config self)) (H264StreamConfig.fps (config self))] in
  let? _ := CaptureTurn.rebuilt turn keeping self in
  (set_next (set_input self size) (CaptureTurn.captured_at turn), Ok tt).

(** The closure that encodes; a failure leaves the frame to be closed. *)
Definition encode_frame {T} (turn : CaptureTurn.t T) (frame : CapturedFrame.t T) (self : t)
  : t * outcome string (list EncodedAccessUnit.t) :=
  let? _ := capture_texture frame keeping self in
  let? _ := CaptureTurn.converted turn keeping self in
  let? timestamp_100ns := duration_to_100ns (CaptureTurn.captured_at turn) keeping self in
  (act self [EncodeTexture (CapturedFrame.id frame) timestamp_100ns], CaptureTurn.encoded turn).

Definition deliver {T} (turn : CaptureTurn.t T) (access_units : list EncodedAccessUnit.t) (self : t)
  : t * outcome string unit :=
  if bool_decide (access_units = []) then (self, Ok tt)
  else
    let? batch := convert_h264_access_units (encoder_name self) access_units keeping self in
    let? sent := send_encoder_result (CaptureTurn.sends turn) keeping self in
    (if sent : bool then act self [SendBatch batch] else self, Ok tt).

Definition process_frame {T} (turn : CaptureTurn.t T) (frame : CapturedFrame.t T) (self : t)
  : t * outcome string unit :=
  let captured_at := CaptureTurn.captured_at turn in
  let self := act self [TakeFrame (CapturedFrame.id frame)] in
  if captured_at <? next_frame_at self then (act self [CloseFrame (CapturedFrame.id frame)], Ok tt)
  else
    let self := set_next self (advance (next_frame_at self) (frame_interval self) captured_at) in
    match dimensions frame with
    | Err error => (act self [CloseFrame (CapturedFrame.id frame)], Err error)
    | Fault f => (self, Fault f)
    | Ok size =>
      if negb (bool_decide (input_dimensions self = size)) then resize turn frame size self
      else
        let (self, access_units) := encode_frame turn frame self in
        let self := act self [CloseFrame (CapturedFrame.id frame)] in
        let? access_units := access_units keeping self in
        let? _ := map_err (fun error => "failed to close captured frame: " +:+ error)
          (CapturedFrame.close frame) keeping self in
        deliver turn access_units self
    end.

Definition process_next_frame {T} (turn : CaptureTurn.t T) (self : t) : t * outcome string unit :=
  match CaptureTurn.received turn with
  | Empty => (self, Ok tt)
  | Disconnected => (self, Err "Windows capture callback stopped unexpectedly")
  | Received frame => let? frame := frame keeping self in process_frame turn frame self
  end.

Fixpoint run {T} (turns : list (CaptureTurn.t T)) (self : t) : t * outcome string unit :=
  match turns with
  | [] => (self, Fault OutOfFuel)
  | turn :: turns =>
    if CaptureTurn.cancelled turn then (self, Ok tt)
    else if CaptureTurn.source_closed turn
    then (self, Err "selected Windows capture source was closed or removed")
    else
      let (self, processed) := process_next_frame turn self in
      let? _ := processed keeping self in
      run turns self
  end.
End Pipeline.

(** ** The callback of the frame pool

    The queue holds three frames; one that does not fit is closed, and an error
    that does not fit is forgotten. The answer is the new queue and the frame to
    close. *)
Definition frame_handler {F} (queue : list (outcome string F)) (connected : bool) (frame : outcome string F)
  : list (outcome string F) * option F :=
  if negb connected then (queue, None)
  else if (length queue <? CAPTURE_FRAME_QUEUE)%nat then (queue ++ [frame], None)
  else (queue, match frame with Ok frame => Some frame | _ => None end).

(** ** Opening and closing a capture *)

(** What the code opens and closes at the capture API; the frame pool is open
    when it starts. *)
Inductive CaptureOp : Type :=
| SubscribeClosed
| SubscribeFrames
| CreateSession
| StartCapture
| RemoveFrames
| ClosePool
| CloseSession
| RemoveClosed.
#[export] Instance capture_op_eq_dec : EqDecision CaptureOp.
Proof. solve_decision. Defined.

(** The answer of each operation. *)
Definition CaptureApi : Type := CaptureOp -> outcome string unit.

(** An error of a list of cleanup operations, with its label. *)
Definition cleanup_error (api : CaptureApi) (op : CaptureOp) (label : string) : list string :=
  match api op with Err error => [label +:+ ": " +:+ error] | _ => [] end.

Definition close_capture_session (api : CaptureApi) : list CaptureOp * list string :=
  ([RemoveFrames; ClosePool; CloseSession],
   cleanup_error api RemoveFrames "remove frame handler" ++
   cleanup_error api ClosePool "close frame pool" ++
   cleanup_error api CloseSession "close capture session").

(** [result] is what the pipeline answers; the operations are those performed. *)
Definition run_prepared_capture (api : CaptureApi) (result : outcome string unit)
  : list CaptureOp * outcome string unit :=
  let done_ := [SubscribeClosed] in
  let? _ := map_err (fun error => "failed to subscribe to capture-source closure: " +:+ error)
    (api SubscribeClosed) keeping done_ in
  let done_ := done_ ++ [SubscribeFrames] in
  match api SubscribeFrames with
  | Err error =>
    (done_ ++ [RemoveClosed; ClosePool], Err ("failed to subscribe to streaming capture frames: " +:+ error))
  | Fault f => (done_, Fault f)
  | Ok _ =>
    let done_ := done_ ++ [CreateSession] in
    match api CreateSession with
    | Err error =>
      (done_ ++ [RemoveFrames; RemoveClosed; ClosePool],
       Err ("failed to create streaming capture session: " +:+ error))
    | Fault f => (done_, Fault f)
    | Ok _ =>
      let done_ := done_ ++ [StartCapture] in
      let (closed, cleanup_errors) := close_capture_session api in
      let cleanup_errors := cleanup_errors ++ cleanup_error api RemoveClosed "remove source-closed handler" in
      let cleaned := done_ ++ closed ++ [RemoveClosed] in
      match api StartCapture with
      | Err error =>
        (cleaned, Err (if bool_decide (cleanup_errors = []) then "failed to start streaming capture: " +:+ error
                       else "failed to start streaming capture: " +:+ error +:+ "; cleanup failed: " +:+
                            String.concat "; " cleanup_errors))
      | Fault f => (done_, Fault f)
      | Ok _ =>
        match result with
        | Fault f => (done_, Fault f)
        | Err error =>
          (cleaned, Err (if bool_decide (cleanup_errors = []) then error
                         else error +:+ "; capture cleanup also failed: " +:+ String.concat "; " cleanup_errors))
        | Ok _ =>
          (cleaned, if bool_decide (cleanup_errors = []) then Ok tt
                    else Err ("streaming capture could not shut down cleanly: " +:+
                              String.concat "; " cleanup_errors))
        end
      end
    end
  end.

(** ** The probe *)
Definition validate_probe_fps (fps : Z) : outcome string unit :=
  if (fps =? 30) || (fps =? 60) then Ok tt else Err "native capture probe refresh rate must be 30 or 60 Hz".

Module FrameObservation.
Record t : Type := mk { width : Z; height : Z; dirty_rects : Z }.
End FrameObservation.

Module ProbeCounters.
Record t : Type := mk {
  callbacks : Z;
  frames_with_surface : Z;
  incomplete_frames : Z;
  dirty_rects : Z;
  first_surface_at : option Z;
  width : option Z;
  height : option Z;
  first_error : option string;
}.
Definition default : t := mk 0 0 0 0 None None None None.

(** [record_observation]: [elapsed] is the clock when it is made. *)
Definition record_observation (counters : t) (observation : outcome string FrameObservation.t) (elapsed : Z) : t :=
  let callbacks := saturating_add 64 (callbacks counters) 1 in
  match observation with
  | Ok observation =>
    mk callbacks (saturating_add 64 (frames_with_surface counters) 1) (incomplete_frames counters)
      (saturating_add 64 (dirty_rects counters) (FrameObservation.dirty_rects observation))
      (Some (stdpp.option.default elapsed (first_surface_at counters)))
      (Some (FrameObservation.width observation)) (Some (FrameObservation.height observation))
      (first_error counters)
  | Err error =>
    mk callbacks (frames_with_surface counters) (saturating_add 64 (incomplete_frames counters) 1)
      (dirty_rects counters) (first_surface_at counters) (width counters) (height counters)
      (Some (stdpp.option.default error (first_error counters)))
  | Fault _ => counters
  end.
End ProbeCounters.

(** The closure of [observe_frame]; unknown dirty regions count as none. *)
Definition observe_frame {T} (frame : CapturedFrame.t T) (dirty_regions : option Z)
  : outcome string FrameObservation.t :=
  let! size := map_err (fun error => "failed to query captured frame size: " +:+ error)
    (CapturedFrame.content_size frame) in
  let! width := positive_dimension (fst size) "frame width" in
  let! height := positive_dimension (snd size) "frame height" in
  let! _ := map_err (fun error => "captured frame has no D3D11 surface: " +:+ error) (CapturedFrame.surface frame) in
  Ok (FrameObservation.mk width height (default 0 dirty_regions)).

Definition duration_millis_u64 (duration : Z) : Z :=
  default (u_max 64) (checked 64 (Duration.as_millis duration)).

Definition build_probe_report (selected : MonitorSource.t) (device_backend : string) (snapshot : ProbeCounters.t)
    (configured_width configured_height fps elapsed : Z) : CaptureProbeReport.t :=
  CaptureProbeReport.mk
    ("Windows.Graphics.Capture / " +:+ device_backend +:+ " D3D11")
    (MonitorSource.id selected)
    (DisplaySource.name (MonitorSource.display selected))
    (default configured_width (ProbeCounters.width snapshot))
    (default configured_height (ProbeCounters.height snapshot))
    fps
    (duration_millis_u64 elapsed)
    (ProbeCounters.callbacks snapshot)
    (ProbeCounters.frames_with_surface snapshot)
    0
    (ProbeCounters.incomplete_frames snapshot)
    (ProbeCounters.frames_with_surface snapshot)
    (ProbeCounters.dirty_rects snapshot)
    (measured_fps (ProbeCounters.frames_with_surface snapshot) elapsed)
    (duration_millis <$> ProbeCounters.first_surface_at snapshot)
    (Some "B8G8R8A8UIntNormalized")
    ((0 <? ProbeCounters.callbacks snapshot) && (0 <? ProbeCounters.frames_with_surface snapshot)).


(** ** Converted batches *)

Lemma media_time_ok value allow_zero field d :
  media_time_to_duration value allow_zero field = Ok d <->
  d = 100 * value /\ (if allow_zero then 0 <= value else 0 < value) /\ 100 * value < 2 ^ 64.
Proof.
  unfold media_time_to_duration, Duration.from_nanos. split.
  - destruct ((value <? 0) || _) eqn:Hb; [done|]. intros Hm. inv_ok.
    apply checked_Some in H as [-> _], H0 as [-> [? ?]]. destruct allow_zero; simpl in Hb; bool_to_Z; lia.
  - intros (-> & Hv & Hb). assert ((value <? 0) || (negb allow_zero && (value =? 0)) = false) as ->
      by (destruct allow_zero; simpl; lia).
    rewrite (checked_in 64 value) by (unfold in_u; destruct allow_zero; lia). simpl.
    rewrite (checked_in 64 (value * 100)) by (unfold in_u; destruct allow_zero; lia). simpl. f_equal. lia.
Qed.

Lemma media_time_returns value allow_zero field : returns (media_time_to_duration value allow_zero field).
Proof. unfold media_time_to_duration. case_match; auto with rust. Qed.

(** A unit the session can play: data, a timestamp and a positive duration that
    fit in nanoseconds. *)
Definition playable (u : EncodedAccessUnit.t) (a : H264AccessUnit.t) : Prop :=
  EncodedAccessUnit.bytes u <> [] /\ H264AccessUnit.bytes a = EncodedAccessUnit.bytes u /\
  H264AccessUnit.keyframe a = EncodedAccessUnit.keyframe u /\
  exists ts d, EncodedAccessUnit.timestamp_100ns u = Some ts /\ EncodedAccessUnit.duration_100ns u = Some d /\
    0 <= ts /\ 100 * ts < 2 ^ 64 /\ 0 < d /\ 100 * d < 2 ^ 64 /\
    H264AccessUnit.timestamp a = 100 * ts /\ H264AccessUnit.duration a = 100 * d.

Definition after (previous : option Z) (timestamp : Z) : Prop :=
  match previous with Some previous => previous <= timestamp | None => True end.

Lemma convert_unit_ok u previous a :
  convert_unit u previous = Ok a <-> playable u a /\ after previous (H264AccessUnit.timestamp a).
Proof.
  unfold convert_unit, playable, after. split.
  - case_bool_decide as Hb; [done|]. intros Hc. inv_ok.
    apply media_time_ok in H0 as (-> & ? & ?), H2 as (-> & ? & ?).
    subst a. simpl. split; [split_and!; eauto 12|]. by destruct previous; bool_to_Z.
  - intros ((Hb & Hbytes & Hkey & ts & d & Hts & Hd & ? & ? & ? & ? & Hta & Hda) & Hafter).
    rewrite bool_decide_eq_false_2 by done. rewrite Hts, Hd. simpl.
    rewrite (proj2 (media_time_ok ts true _ (100 * ts))) by auto. simpl.
    rewrite (proj2 (media_time_ok d false _ (100 * d))) by auto. simpl. rewrite Hta in Hafter.
    destruct a; simpl in *; subst. destruct previous as [z|]; [|done].
    by destruct (Z.ltb_spec (100 * ts) z); [lia|].
Qed.

Lemma convert_unit_returns u previous : returns (convert_unit u previous).
Proof.
  unfold convert_unit. case_match; [done|]. apply returns_obind; [auto with rust|]. intros ts _.
  apply returns_obind; [apply media_time_returns|]. intros t _. apply returns_obind; [auto with rust|]. intros d _.
  apply returns_obind; [apply media_time_returns|]. intros e _. by repeat case_match.
Qed.

Definition in_order (previous : option Z) (l : list H264AccessUnit.t) : Prop :=
  Forall (fun a => after previous (H264AccessUnit.timestamp a)) l /\
  StronglySorted (fun a b => H264AccessUnit.timestamp a <= H264AccessUnit.timestamp b) l.

Lemma convert_units_ok encoded previous l :
  convert_units encoded previous = Ok l <-> Forall2 playable encoded l /\ in_order previous l.
Proof.
  revert previous l. induction encoded as [|u encoded IH]; intros previous l; simpl.
  - split; [intros [= <-]; repeat constructor|by intros [?%Forall2_nil_inv_l _]; subst].
  - split.
    + intros Hc. inv_ok. subst l. apply convert_unit_ok in H as [Hp Ha]. apply IH in H0 as [Hall [Hf Hs]].
      split; [by constructor|]. split; [|by constructor].
      constructor; [done|]. eapply Forall_impl; [exact Hf|]. simpl. unfold after in *. destruct previous; lia.
    + intros [(a & l' & Hp & Hall & ->)%Forall2_cons_inv_l [Hf Hs]].
      apply Forall_cons in Hf as [Ha Hf]. apply StronglySorted_inv in Hs as [Hs Hle].
      rewrite (proj2 (convert_unit_ok u previous a)) by done. simpl.
      by rewrite (proj2 (IH _ l')) by (split; [done|split; done]).
Qed.

Lemma convert_units_returns encoded previous : returns (convert_units encoded previous).
Proof.
  revert previous. induction encoded as [|u encoded IH]; intros previous; simpl; [done|].
  apply returns_obind; [apply convert_unit_returns|]. intros a _. apply returns_obind; [apply IH|done].
Qed.

Lemma convert_batch_returns name encoded : returns (convert_h264_access_units name encoded).
Proof.
  unfold convert_h264_access_units. case_match; [done|].
  apply returns_obind; [apply convert_units_returns|done].
Qed.

(** A batch is accepted exactly when it is not empty, every unit has data, a
    timestamp and a positive duration that fit in a nanosecond [u64], and the
    timestamps do not decrease; the accepted batch keeps data, keyframes and
    times. Any other batch is refused with a text. *)
Theorem batches_are_playable encoder_name encoded batch :
  (convert_h264_access_units encoder_name encoded = Ok batch <->
   encoded <> [] /\ H264StreamBatch.encoder_name batch = encoder_name /\
   Forall2 playable encoded (H264StreamBatch.access_units batch) /\
   StronglySorted (fun a b => H264AccessUnit.timestamp a <= H264AccessUnit.timestamp b)
     (H264StreamBatch.access_units batch)) /\
  returns (convert_h264_access_units encoder_name encoded).
Proof.
  split; [|apply convert_batch_returns]. unfold convert_h264_access_units. split.
  - case_bool_decide; [done|]. intros Hc. inv_ok. apply convert_units_ok in H0 as [? [_ ?]]. by subst.
  - intros (Hne & Hname & Hall & Hs). rewrite bool_decide_eq_false_2 by done.
    rewrite (proj2 (convert_units_ok encoded None (H264StreamBatch.access_units batch))).
    + destruct batch. simpl in *. by subst.
    + split; [done|]. split; [by apply Forall_true|done].
Qed.

(** ** The life of a captured frame *)

(** The frame in hand after [actions], started with [open]; [None] when an action
    does not fit: a frame is taken when none is in hand, encoded and closed while
    it is in hand, and the pool, the processor and the session are served when
    none is. *)
Fixpoint in_hand (open : option nat) (actions : list Action) : option (option nat) :=
  match actions with
  | [] => Some open
  | action :: actions =>
    match action, open with
    | TakeFrame frame, None => in_hand (Some frame) actions
    | CloseFrame frame, Some id => if decide (frame = id) then in_hand None actions else None
    | EncodeTexture frame _, Some id => if decide (frame = id) then in_hand open actions else None
    | RecreatePool _ _, None | RebuildProcessor _ _ _ _ _, None | SendBatch _, None => in_hand None actions
    | _, _ => None
    end
  end.

Lemma in_hand_app open a b :
  in_hand open (a ++ b) = (mid ← in_hand open a; in_hand mid b).
Proof.
  revert open. induction a as [|x a IH]; intros open; simpl; [done|].
  destruct x, open; simpl; rewrite ?IH; try done; by case_decide.
Qed.

Definition timestamps (actions : list Action) : list Z :=
  omap (fun a => match a with EncodeTexture _ timestamp => Some timestamp | _ => None end) actions.

Lemma timestamps_app a b : timestamps (a ++ b) = timestamps a ++ timestamps b.
Proof. apply omap_app. Qed.

Section pipeline.
Import Pipeline.
Context {T : Type}.
Implicit Types (turn : CaptureTurn.t T) (frame : CapturedFrame.t T) (self : t).

(** The answers of the adapters. *)
Record answers turn : Prop := {
  an_recreated : returns (CaptureTurn.recreated turn);
  an_rebuilt : returns (CaptureTurn.rebuilt turn);
  an_converted : returns (CaptureTurn.converted turn);
  an_encoded : returns (CaptureTurn.encoded turn);
  an_sends : Exists (fun poll => SendPoll.cancelled poll = true \/ SendPoll.tried poll <> Full)
    (CaptureTurn.sends turn);
  an_received : match CaptureTurn.received turn with
    | Received (Ok frame) => returns (CapturedFrame.content_size frame) /\
        returns (capture_texture frame) /\ returns (CapturedFrame.close frame)
    | Received received => returns received
    | _ => True
    end;
}.

Ltac finish_spec := simpl; rewrite ?decide_True by done; auto 12.

(** What one turn does: from [self] to [self'] it performs [done], the next due
    time moves to [next]. *)
Definition turn_spec turn self self' (r : outcome string unit) : Prop :=
  exists done,
    actions self' = actions self ++ done /\ in_hand None done = Some None /\
    frame_interval self' = frame_interval self /\
    (timestamps done = [] /\ (next_frame_at self' = next_frame_at self \/
       next_frame_at self <= CaptureTurn.captured_at turn /\
       (next_frame_at self' = CaptureTurn.captured_at turn \/
        next_frame_at self' = advance (next_frame_at self) (frame_interval self) (CaptureTurn.captured_at turn))) \/
     timestamps done = [CaptureTurn.captured_at turn / 100] /\
       next_frame_at self <= CaptureTurn.captured_at turn /\
       next_frame_at self' = advance (next_frame_at self) (frame_interval self) (CaptureTurn.captured_at turn)) /\
    returns r.

Lemma send_returns polls :
  Exists (fun poll => SendPoll.cancelled poll = true \/ SendPoll.tried poll <> Full) polls ->
  returns (send_encoder_result polls).
Proof.
  induction 1 as [poll polls Hp|poll polls _ IH]; simpl; case_match; try done.
  - destruct Hp; [congruence|]. by destruct (SendPoll.tried poll).
  - by destruct (SendPoll.tried poll).
Qed.

Lemma positive_dimension_returns v label : returns (positive_dimension v label).
Proof. unfold positive_dimension. by case_match. Qed.

Lemma deliver_spec turn access_units self self' r :
  returns (send_encoder_result (CaptureTurn.sends turn)) ->
  deliver turn access_units self = (self', r) ->
  exists done, self' = act self done /\ in_hand None done = Some None /\ timestamps done = [] /\ returns r.
Proof.
  intros Hsend. unfold deliver. assert (act self [] = self) as Hnone by (destruct self; unfold act; simpl; by rewrite app_nil_r).
  case_bool_decide; [intros [= <- <-]; by exists []|].
  pose proof (convert_batch_returns (encoder_name self) access_units) as Hc.
  destruct (convert_h264_access_units _ _); simpl; [|intros [= <- <-]; by exists []|done].
  destruct (send_encoder_result _) as [[]| |]; simpl; intros [= <- <-]; [by eexists [_]|by exists []..|done].
Qed.

Lemma resize_spec turn frame size self self' r :
  answers turn -> returns (CapturedFrame.close frame) ->
  resize turn frame size self = (self', r) ->
  exists done, actions self' = actions self ++ done /\
    in_hand (Some (CapturedFrame.id frame)) done = Some None /\ timestamps done = [] /\
    frame_interval self' = frame_interval self /\
    (next_frame_at self' = next_frame_at self \/ next_frame_at self' = CaptureTurn.captured_at turn) /\ returns r.
Proof.
  intros [Hre Hrb _ _ _ _] Hclose. unfold resize. destruct size as [w h].
  destruct (CapturedFrame.close frame); simpl;
    [|intros [= <- <-]; eexists; split; [done|]; finish_spec|done].
  destruct (CaptureTurn.recreated turn); simpl;
    [|intros [= <- <-]; eexists; split; [simpl; by rewrite <-app_assoc|]; finish_spec|done].
  destruct (CaptureTurn.rebuilt turn); simpl; [| |done];
    intros [= <- <-]; eexists; (split; [simpl; by rewrite <-!app_assoc|]); finish_spec.
Qed.

Lemma encode_frame_spec turn frame self self' r :
  answers turn -> returns (capture_texture frame) ->
  encode_frame turn frame self = (self', r) ->
  exists done, self' = act self done /\
    in_hand (Some (CapturedFrame.id frame)) done = Some (Some (CapturedFrame.id frame)) /\
    (timestamps done = [] \/ timestamps done = [CaptureTurn.captured_at turn / 100]) /\ returns r.
Proof.
  intros [_ _ Hconv Henc _ _] Htex. unfold encode_frame.
  assert (act self [] = self) as Hnone by (destruct self; unfold act; simpl; by rewrite app_nil_r).
  destruct (capture_texture frame); simpl; [|intros [= <- <-]; exists []; auto|done].
  destruct (CaptureTurn.converted turn); simpl; [|intros [= <- <-]; exists []; auto|done].
  unfold duration_to_100ns, checked_i, Duration.as_nanos. case_bool_decide; simpl; intros [= <- <-]; [|exists []; auto].
  eexists. split; [done|]. simpl. rewrite decide_True by done. auto.
Qed.

Lemma process_frame_spec turn frame self self' r :
  answers turn -> CaptureTurn.received turn = Received (Ok frame) ->
  process_frame turn frame self = (self', r) -> turn_spec turn self self' r.
Proof.
  intros Han Hrec. pose proof (an_received _ Han) as Hf. rewrite Hrec in Hf. destruct Hf as (Hsize & Htex & Hclose).
  unfold process_frame, turn_spec. simpl. destruct (Z.ltb_spec (CaptureTurn.captured_at turn) (next_frame_at self)).
  { intros [= <- <-]. eexists. split; [simpl; by rewrite <-app_assoc|]. finish_spec. }
  assert (returns (dimensions frame)) as Hdim.
  { unfold dimensions. apply returns_obind; [by apply returns_map_err|]. intros size _.
    apply returns_obind; [apply positive_dimension_returns|]. intros w _.
    apply returns_obind; [apply positive_dimension_returns|done]. }
  destruct (dimensions frame) as [size|e|f]; [| |done].
  2: { intros [= <- <-]. eexists. split; [simpl; by rewrite <-app_assoc|]. finish_spec. }
  case_bool_decide; simpl.
  - destruct (encode_frame _ _ _) as [self1 units] eqn:He.
    apply encode_frame_spec in He as (d1 & -> & Hd1 & Ht1 & Hu); [|done..].
    set (self2 := act (act _ d1) _). intros Hr.
    assert (exists d2, self' = act self2 d2 /\ in_hand None d2 = Some None /\ timestamps d2 = [] /\ returns r)
      as (d2 & -> & Hd2 & Ht2 & Hret).
    { assert (act self2 [] = self2) as Hnone by (destruct self2; unfold act; simpl; by rewrite app_nil_r).
      destruct units; simpl in Hr; [|injection Hr as <- <-; by exists []|done].
      destruct (CapturedFrame.close frame); simpl in Hr; [|injection Hr as <- <-; by exists []|done].
      eapply deliver_spec; [apply send_returns, (an_sends _ Han)|done]. }
    exists ([TakeFrame (CapturedFrame.id frame)] ++ d1 ++ [CloseFrame (CapturedFrame.id frame)] ++ d2).
    subst self2. split_and!; [simpl; by rewrite <-!app_assoc| |done| |done].
    + simpl. rewrite in_hand_app, Hd1. simpl. by rewrite decide_True.
    + change (timestamps (TakeFrame (CapturedFrame.id frame) :: d1 ++ CloseFrame (CapturedFrame.id frame) :: d2))
        with (timestamps (d1 ++ ([CloseFrame (CapturedFrame.id frame)] ++ d2))).
      rewrite !timestamps_app, Ht2. simpl. rewrite app_nil_r.
      destruct Ht1 as [-> | ->]; [left; auto|right; auto].
  - intros Hr. apply resize_spec in Hr as (d & Hd & Hh & Ht & Hi & Hn & Hret); [|done..].
    exists ([TakeFrame (CapturedFrame.id frame)] ++ d). simpl in *.
    split_and!; [by rewrite Hd, <-app_assoc|done|done| |done].
    left. split; [done|]. destruct Hn as [-> | ->]; auto.
Qed.

Lemma process_next_spec turn self self' r :
  answers turn -> process_next_frame turn self = (self', r) -> turn_spec turn self self' r.
Proof.
  intros Han. unfold process_next_frame. pose proof (an_received _ Han) as Hf.
  assert (forall r, returns r -> turn_spec turn self self r) as Hidle
    by (intros r' ?; exists []; rewrite app_nil_r; auto 8).
  destruct (CaptureTurn.received turn) as [[frame|e|f]| |] eqn:Hrec; simpl.
  - by apply process_frame_spec.
  - intros [= <- <-]. by apply Hidle.
  - done.
  - intros [= <- <-]. by apply Hidle.
  - intros [= <- <-]. by apply Hidle.
Qed.

(** What every turn keeps, the whole run keeps. *)
Lemma run_keeps (good : CaptureTurn.t T -> Prop) (P : t -> Prop) turns self self' r :
  (forall turn self self' r, good turn -> P self -> turn_spec turn self self' r -> P self') ->
  Forall (fun turn => answers turn /\ good turn) turns ->
  P self -> run turns self = (self', r) -> P self'.
Proof.
  intros Hstep Hall. revert self. induction Hall as [|turn turns [Han Hg] _ IH]; intros self HP; simpl;
    [by intros [= <- <-]|].
  case_match; [by intros [= <- <-]|]. case_match; [by intros [= <- <-]|].
  destruct (process_next_frame turn self) as [self1 r1] eqn:Hp. apply process_next_spec in Hp; [|done].
  assert (P self1) by eauto. destruct r1; simpl; [by apply IH|by intros [= <- <-]..].
Qed.

Lemma run_returns turns self :
  Forall answers turns -> Exists (fun turn => CaptureTurn.cancelled turn = true) turns ->
  returns (snd (run turns self)).
Proof.
  intros Hall Hex. revert self. induction Hall as [|turn turns Han _ IH]; intros self; [by inversion Hex|].
  simpl. destruct (CaptureTurn.cancelled turn) eqn:Hc; [done|]. case_match; [done|].
  inversion Hex as [? ? Hc'|? ? Hex']; subst; [congruence|].
  destruct (process_next_frame turn self) as [self1 r1] eqn:Hp.
  apply process_next_spec in Hp as (_ & _ & _ & _ & _ & Hr1); [|done]. destruct r1; simpl; auto.
Qed.

(** ** The frame rate *)

Lemma advance_spec next interval captured :
  0 <= interval -> next <= captured -> captured + interval <= Duration.MAX ->
  next + interval <= advance next interval captured /\ captured <= advance next interval captured + interval.
Proof.
  intros Hi Hn Hm. unfold advance, Duration.checked_add, Duration.saturating_sub.
  destruct (Z.leb_spec (next + interval) Duration.MAX); [|lia]. simpl.
  destruct (Z.ltb_spec interval (Z.max (captured - (next + interval)) 0)); lia.
Qed.

(** Every encoded timestamp is bounded by the next due time, later ones by more. *)
Record paced self : Prop := {
  paced_interval : 0 <= frame_interval self;
  paced_due : forall i a, timestamps (actions self) !! i = Some a ->
    100 * a + (Z.of_nat (length (timestamps (actions self))) - 1 - Z.of_nat i) * frame_interval self
      <= next_frame_at self + frame_interval self;
  paced_pairs : forall i j a b, (i < j)%nat ->
    timestamps (actions self) !! i = Some a -> timestamps (actions self) !! j = Some b ->
    (Z.of_nat j - Z.of_nat i - 2) * frame_interval self <= 100 * (b - a) + 99;
}.

Lemma paced_step turn self self' r :
  CaptureTurn.captured_at turn + frame_interval self <= Duration.MAX ->
  paced self -> turn_spec turn self self' r -> paced self' /\ frame_interval self' = frame_interval self.
Proof.
  intros Hmax [Hi Hdue Hpairs] (done & Hact & _ & Hint & Hcase & _). split; [|done].
  rewrite <-Hint in *.
  destruct Hcase as [[Ht Hnext]|(Ht & Hle & Hnext)].
  - assert (next_frame_at self <= next_frame_at self') as Hmono.
    { destruct Hnext as [->|[Hle [->| ->]]]; [lia|lia|].
      pose proof (advance_spec (next_frame_at self) (frame_interval self') (CaptureTurn.captured_at turn)). lia. }
    constructor; rewrite ?Hact, ?timestamps_app, ?Ht, ?app_nil_r; [done| |done].
    intros i a Ha. specialize (Hdue i a Ha). lia.
  - pose proof (advance_spec (next_frame_at self) (frame_interval self') (CaptureTurn.captured_at turn) Hi Hle Hmax) as [Hn1 Hn2].
    rewrite <-Hnext in *. set (c := CaptureTurn.captured_at turn) in *.
    pose proof (Z.div_mod c 100 ltac:(lia)). pose proof (Z.mod_pos_bound c 100 ltac:(lia)).
    set (ts := timestamps (actions self)) in *.
    constructor; rewrite ?Hact, ?timestamps_app, ?Ht; fold ts; [done| |].
    + intros i a Ha. rewrite length_app. simpl. apply lookup_app_Some in Ha as [Ha|[Hlen Ha]].
      * specialize (Hdue i a Ha). lia.
      * apply list_lookup_singleton_Some in Ha as [Hz <-]. replace i with (length ts) by lia. lia.
    + intros i j a b Hij Ha Hb. apply lookup_app_Some in Hb as [Hb|[Hlen Hb]].
      * apply (Hpairs i j a b Hij); [|done]. rewrite lookup_app_l in Ha; [done|]. apply lookup_lt_Some in Hb. lia.
      * apply list_lookup_singleton_Some in Hb as [Hz <-]. rewrite lookup_app_l in Ha by lia.
        specialize (Hdue i a Ha). replace j with (length ts) by lia. nia.
Qed.
End pipeline.

Section capture_properties.
Import Pipeline.
Context {T : Type}.
Implicit Types (self : t).

Lemma pipeline_closes config encoder_name width height self (turns : list (CaptureTurn.t T)) self' r :
  new config encoder_name width height = Ok self -> Forall answers turns ->
  run turns self = (self', r) -> in_hand None (actions self') = Some None.
Proof.
  intros Hnew Hall. apply (run_keeps (fun _ => True) (fun self => in_hand None (actions self) = Some None)).
  - intros turn s s' r' _ Hs (done & -> & Hd & _). by rewrite in_hand_app, Hs.
  - eapply Forall_impl; [exact Hall|]. auto.
  - unfold new in Hnew. inv_ok. by subst.
Qed.

Lemma run_paces config encoder_name width height self (turns : list (CaptureTurn.t T)) self' r i n a b :
  new config encoder_name width height = Ok self -> 0 < H264StreamConfig.fps config ->
  Forall (fun turn => answers turn /\ CaptureTurn.captured_at turn + frame_interval self <= Duration.MAX) turns ->
  run turns self = (self', r) ->
  timestamps (actions self') !! i = Some a -> timestamps (actions self') !! (i + n + 1)%nat = Some b ->
  (Z.of_nat n - 1) * (1000000000 / H264StreamConfig.fps config) <= 100 * (b - a) + 99.
Proof.
  intros Hnew Hfps Hall Hrun Ha Hb.
  assert (frame_interval self = 1000000000 / H264StreamConfig.fps config /\ paced self) as [Hint Hpaced].
  { unfold new in Hnew. inv_ok. unfold div_i in H. destruct (Z.eqb_spec (H264StreamConfig.fps config) 0); [lia|].
    injection H as <-. rewrite Z.quot_div_nonneg in Hnew by lia. subst self. split; [done|].
    constructor; simpl; [|done..]. unfold Duration.from_nanos. by apply Z.div_pos. }
  assert (paced self' /\ frame_interval self' = frame_interval self) as [[_ _ Hpairs] Hsame].
  { apply (run_keeps (fun turn => CaptureTurn.captured_at turn + frame_interval self <= Duration.MAX)
      (fun s => paced s /\ frame_interval s = frame_interval self) turns self self' r); [|done|done|done].
    intros turn s s' r' Hg [Hp He] Hspec. rewrite <-He in Hg |- *. by apply (paced_step turn s s' r'). }
  rewrite Hsame, Hint in Hpairs. specialize (Hpairs i (i + n + 1)%nat a b ltac:(lia) Ha Hb). lia.
Qed.

(** C27: whatever the capture API, the processor and the encoder answer, every
    frame taken from the queue is closed exactly once before the next is taken,
    it is encoded only in between, and the pool is rebuilt and the session served
    only while no frame is held. *)
Theorem captured_frames_are_closed config encoder_name width height self (turns : list (CaptureTurn.t T)) self' r :
  new config encoder_name width height = Ok self -> Forall answers turns ->
  run turns self = (self', r) -> in_hand None (actions self') = Some None.
Proof. apply pipeline_closes. Qed.

(** C28: the encoder is fed at the configured rate: between two encoded frames
    with [n] others in between pass at least [n - 1] frame intervals, up to the
    resolution of a timestamp, however fast frames arrive. *)
Theorem encoder_is_paced config encoder_name width height self (turns : list (CaptureTurn.t T)) self' r i n a b :
  new config encoder_name width height = Ok self -> 0 < H264StreamConfig.fps config ->
  Forall (fun turn => answers turn /\ CaptureTurn.captured_at turn + frame_interval self <= Duration.MAX) turns ->
  run turns self = (self', r) ->
  timestamps (actions self') !! i = Some a -> timestamps (actions self') !! (i + n + 1)%nat = Some b ->
  (Z.of_nat n - 1) * (1000000000 / H264StreamConfig.fps config) <= 100 * (b - a) + 99.
Proof. apply run_paces. Qed.

(** A capture ends once a turn sees the cancel flag, and ends well only
    then: no answer of the adapters keeps the pipeline busy. *)
Theorem cancelled_capture_ends self (turns : list (CaptureTurn.t T)) :
  Forall answers turns ->
  (Exists (fun turn => CaptureTurn.cancelled turn = true) turns -> returns (snd (run turns self))) /\
  (snd (run turns self) = Ok tt -> Exists (fun turn => CaptureTurn.cancelled turn = true) turns).
Proof.
  intros Hall. split; [by apply run_returns|].
  revert self. induction turns as [|turn turns IH]; intros self; simpl; [done|].
  destruct (CaptureTurn.cancelled turn) eqn:Hc; [by left|]. case_match; [done|].
  destruct (process_next_frame turn self) as [self1 [[]|e|f]]; simpl; [|done..].
  intros Hok. right. apply (IH ltac:(by inversion Hall) self1 Hok).
Qed.
End capture_properties.

(** ** Opening and closing *)

Lemma cleanup_error_nil api op label :
  returns (api op) -> cleanup_error api op label = [] <-> api op = Ok tt.
Proof. unfold cleanup_error. by destruct (api op) as [[]|e|f]. Qed.

Lemma cleanup_errors_nil api :
  (forall op, returns (api op)) ->
  snd (close_capture_session api) ++ cleanup_error api RemoveClosed "remove source-closed handler" = [] <->
  api RemoveFrames = Ok tt /\ api ClosePool = Ok tt /\ api CloseSession = Ok tt /\ api RemoveClosed = Ok tt.
Proof.
  intros Hapi. unfold close_capture_session. cbn [snd]. rewrite !app_nil, !cleanup_error_nil by done. tauto.
Qed.

Lemma every_op (P : CaptureOp -> Prop) :
  (forall op, P op) <->
  P SubscribeClosed /\ P SubscribeFrames /\ P CreateSession /\ P StartCapture /\
  P RemoveFrames /\ P ClosePool /\ P CloseSession /\ P RemoveClosed.
Proof. split; [auto 10|]. intros H []; tauto. Qed.

Lemma append_empty_r (s : string) : s +:+ "" = s.
Proof. induction s as [|c s IH]; [done|]. change (String c (s +:+ "") = String c s). by rewrite IH. Qed.

Ltac solve_members := clear; rewrite ?elem_of_cons, ?elem_of_nil; intuition congruence.

(** On every path the capture undoes exactly what it did, each once: the
    handlers it registered are removed, the session it created and the frame
    pool are closed. It ends well exactly when the pipeline did and every
    operation succeeded; an error of the pipeline comes first in its text. *)
Theorem captures_are_cleaned_up api result :
  (forall op, returns (api op)) -> returns result ->
  let (ops, r) := run_prepared_capture api result in
  returns r /\ NoDup ops /\
  (RemoveClosed ∈ ops <-> SubscribeClosed ∈ ops /\ api SubscribeClosed = Ok tt) /\
  (RemoveFrames ∈ ops <-> SubscribeFrames ∈ ops /\ api SubscribeFrames = Ok tt) /\
  (CloseSession ∈ ops <-> CreateSession ∈ ops /\ api CreateSession = Ok tt) /\
  (ClosePool ∈ ops <-> api SubscribeClosed = Ok tt) /\
  (r = Ok tt <-> result = Ok tt /\ forall op, api op = Ok tt) /\
  (forall e, result = Err e -> api SubscribeClosed = Ok tt -> api SubscribeFrames = Ok tt ->
     api CreateSession = Ok tt -> api StartCapture = Ok tt -> exists suffix, r = Err (e +:+ suffix)).
Proof.
  intros Hapi Hresult. pose proof (every_op (fun op => api op = Ok tt)) as Hevery. cbv beta in Hevery. pose proof (cleanup_errors_nil api Hapi) as Hclean.
  unfold run_prepared_capture. destruct (close_capture_session api) as [closed errors] eqn:Hclose.
  assert (closed = [RemoveFrames; ClosePool; CloseSession]) as -> by (by injection Hclose as <- _).
  simpl in Hclean. clear Hclose. revert Hclean. generalize (errors ++ cleanup_error api RemoveClosed "remove source-closed handler").
  clear errors. intros errors Hclean.
  pose proof (Hapi SubscribeClosed) as H1. pose proof (Hapi SubscribeFrames) as H2.
  pose proof (Hapi CreateSession) as H3. pose proof (Hapi StartCapture) as H4. clear Hapi.
  destruct (api SubscribeClosed) as [[]|e1|]; simpl; [| |done]; cycle 1.
  { split_and!; try done; [apply (bool_decide_unpack _); reflexivity|solve_members..|].
    split; [done|]. intros [_ Hall%Hevery]. destruct Hall as (?&?&?&?&_). done. }
  destruct (api SubscribeFrames) as [[]|e2|]; simpl; [| |done]; cycle 1.
  { split_and!; try done; [apply (bool_decide_unpack _); reflexivity|solve_members..|].
    split; [done|]. intros [_ Hall%Hevery]. destruct Hall as (?&?&?&?&_). done. }
  destruct (api CreateSession) as [[]|e3|]; simpl; [| |done]; cycle 1.
  { split_and!; try done; [apply (bool_decide_unpack _); reflexivity|solve_members..|].
    split; [done|]. intros [_ Hall%Hevery]. destruct Hall as (?&?&?&?&_). done. }
  destruct (api StartCapture) as [[]|e4|]; simpl; [| |done]; cycle 1.
  { split_and!; try done; [apply (bool_decide_unpack _); reflexivity|solve_members..|].
    split; [done|]. intros [_ Hall%Hevery]. destruct Hall as (?&?&?&?&_). done. }
  destruct result as [[]|e|]; simpl; [| |done]; split_and!; try done; try solve_members.
  - by case_bool_decide.
  - apply (bool_decide_unpack _). reflexivity.
  - case_bool_decide; split; intros; try done; tauto.
  - apply (bool_decide_unpack _). reflexivity.
  - intros e' [= <-] _ _ _ _. case_bool_decide; [exists ""; by rewrite append_empty_r|eauto].
Qed.

(** ** The probe's counters *)
Definition observed (observations : list (outcome string FrameObservation.t * Z)) : ProbeCounters.t :=
  fold_left (fun counters o => ProbeCounters.record_observation counters (fst o) (snd o))
    observations ProbeCounters.default.

Definition surfaces (observations : list (outcome string FrameObservation.t * Z)) : list (FrameObservation.t * Z) :=
  omap (fun o => match fst o with Ok frame => Some (frame, snd o) | _ => None end) observations.

Lemma observed_snoc l o : observed (l ++ [o]) = ProbeCounters.record_observation (observed l) (fst o) (snd o).
Proof. unfold observed. by rewrite fold_left_app. Qed.

Lemma surfaces_snoc l o :
  surfaces (l ++ [o]) = surfaces l ++ match fst o with Ok frame => [(frame, snd o)] | _ => [] end.
Proof. unfold surfaces. rewrite omap_app. simpl. by destruct (fst o). Qed.

(** As long as a probe counts fewer than 2^64 callbacks, its report says how
    many there were, how many showed a surface and how many did not; it passes
    exactly when one did, with the size of the last and the latency of the first. *)
Theorem probe_counts_every_callback observations selected backend width height fps elapsed :
  Forall (fun o => returns (fst o)) observations -> zlen observations < 2 ^ 64 ->
  let report := build_probe_report selected backend (observed observations) width height fps elapsed in
  CaptureProbeReport.callbacks report = zlen observations /\
  CaptureProbeReport.content_frames report = zlen (surfaces observations) /\
  CaptureProbeReport.incomplete_frames report = zlen observations - zlen (surfaces observations) /\
  CaptureProbeReport.passed report = negb (bool_decide (surfaces observations = [])) /\
  CaptureProbeReport.width report =
    default width (FrameObservation.width ∘ fst <$> last (surfaces observations)) /\
  CaptureProbeReport.startup_latency_ms report =
    (duration_millis ∘ snd <$> head (surfaces observations)).
Proof.
  intros Hret Hlen.
  assert (ProbeCounters.callbacks (observed observations) = zlen observations /\
    ProbeCounters.frames_with_surface (observed observations) = zlen (surfaces observations) /\
    ProbeCounters.incomplete_frames (observed observations) = zlen observations - zlen (surfaces observations) /\
    ProbeCounters.width (observed observations) = (FrameObservation.width ∘ fst <$> last (surfaces observations)) /\
    ProbeCounters.first_surface_at (observed observations) = (snd <$> head (surfaces observations)) /\
    zlen (surfaces observations) <= zlen observations) as (Hc & Hf & Hi & Hw & Hs & Hle).
  { revert Hlen. induction observations as [|o l IH] using rev_ind; [done|]. rewrite length_app. intros Hlen.
    apply Forall_app in Hret as [Hret Ho]. rewrite Forall_singleton in Ho. simpl in Hlen.
    destruct IH as (Hc & Hf & Hi & Hw & Hs & Hle); [done|lia|]. rewrite observed_snoc, surfaces_snoc, !length_app.
    destruct o as [[frame|e|f] at_]; simpl in *; [| |done]; rewrite ?app_nil_r, ?Hc, ?Hf, ?Hi, ?Hw, ?Hs;
      unfold_int; split_and!; try done; try lia.
    - by rewrite last_snoc.
    - by destruct (surfaces l). }
  simpl. rewrite Hc, Hf, Hi, Hw, Hs. split_and!; try done.
  - destruct (surfaces observations) eqn:Hsurf; simpl in *; rewrite ?andb_false_r; [done|].
    rewrite !(proj2 (Z.ltb_lt _ _)) by lia. done.
  - by destruct (head _).
Qed.

(** ** A short capture *)
Module CaptureExamples.
Import Pipeline.

Definition config : H264StreamConfig.t := H264StreamConfig.mk 1280 720 30 8000.
Definition unit_ (timestamp : Z) : EncodedAccessUnit.t := EncodedAccessUnit.mk [x01] (Some timestamp) (Some 333333) true.
Definition frame (id : nat) : CapturedFrame.t unit := CapturedFrame.mk id (Ok (1280, 720)) (Ok tt) (Ok tt) (Ok tt) (Ok tt).
Definition turn (id : nat) (at_ : Z) : CaptureTurn.t unit :=
  CaptureTurn.mk false false (Received (Ok (frame id))) at_ (Ok tt) (Ok tt) (Ok tt) (Ok [unit_ (at_ / 100)])
    [SendPoll.mk false Full; SendPoll.mk false Sent].
Definition cancelled : CaptureTurn.t unit :=
  CaptureTurn.mk true false Empty 0 (Ok tt) (Ok tt) (Ok tt) (Ok []) [SendPoll.mk true Full].

(** Frames every ten milliseconds, a third of which are due. *)
Definition turns : list (CaptureTurn.t unit) :=
  [turn 0 0; turn 1 10000000; turn 2 20000000; turn 3 30000000; turn 4 40000000; turn 5 70000000; cancelled].
Definition start : t := mk config 33333333 "encoder" (1280, 720) 0 [].

Lemma turn_answers id at_ : answers (turn id at_).
Proof. constructor; [exact Logic.I..| |by repeat split]. apply Exists_cons_tl, Exists_cons_hd. by right. Qed.
Lemma cancelled_answers : answers cancelled.
Proof. constructor; [exact Logic.I..| |exact Logic.I]. apply Exists_cons_hd. by left. Qed.
Lemma turns_answer : Forall answers turns.
Proof. repeat first [apply Forall_cons; split; [apply turn_answers || apply cancelled_answers|]|apply Forall_nil]. done. Qed.

Example a_third_is_encoded :
  timestamps (actions (fst (run turns start))) = [0; 400000; 700000] /\ snd (run turns start) = Ok tt.
Proof. vm_compute. split; reflexivity. Qed.

Lemma captured_frames_are_closed_witness :
  in_hand None (actions (fst (run turns start))) = Some None /\ snd (run turns start) = Ok tt.
Proof.
  split; [|vm_compute; reflexivity].
  apply (captured_frames_are_closed config "encoder" 1280 720 start turns _ (snd (run turns start)));
    [reflexivity|exact turns_answer|by destruct (run turns start)].
Defined.

Lemma encoder_is_paced_witness : (1 - 1) * (1000000000 / 30) <= 100 * (700000 - 0) + 99.
Proof.
  apply (encoder_is_paced config "encoder" 1280 720 start turns (fst (run turns start)) (snd (run turns start)) 0 1);
    [reflexivity|simpl; lia| |by destruct (run turns start)|vm_compute; reflexivity|vm_compute; reflexivity].
  apply Forall_and; split; [exact turns_answer|].
  repeat constructor; vm_compute; discriminate.
Defined.

Lemma cancelled_capture_ends_witness : returns (snd (run turns start)).
Proof.
  apply (cancelled_capture_ends start turns turns_answer). do 6 right. by left.
Defined.

Definition failing (broken : CaptureOp) : CaptureApi :=
  fun op => if decide (op = broken) then Err "device lost" else Ok tt.

Lemma captures_are_cleaned_up_witness :
  fst (run_prepared_capture (failing StartCapture) (Ok tt)) =
    [SubscribeClosed; SubscribeFrames; CreateSession; StartCapture; RemoveFrames; ClosePool; CloseSession; RemoveClosed] /\
  returns (snd (run_prepared_capture (failing StartCapture) (Ok tt))).
Proof.
  split; [reflexivity|].
  exact (proj1 (captures_are_cleaned_up (failing StartCapture) (Ok tt)
    ltac:(intros op; unfold failing; by case_decide) Logic.I)).
Defined.

Lemma probe_counts_every_callback_witness :
  let selected := MonitorSource.mk 1 (RECT.mk 0 0 10 10) "d" (DisplaySource.mk "d" "d" 10 10 true false) in
  CaptureProbeReport.passed (build_probe_report selected "hardware"
    (observed [(Err "no surface", 0); (Ok (FrameObservation.mk 10 10 1), 5)]) 10 10 30 750000000) = true.
Proof.
  intros selected.
  destruct (probe_counts_every_callback [(Err "no surface", 0); (Ok (FrameObservation.mk 10 10 1), 5)]
    selected "hardware" 10 10 30 750000000) as (_ & _ & _ & Hpassed & _);
    [repeat constructor|simpl; lia|exact Hpassed].
Defined.
End CaptureExamples.
