(* ===== verification/RustIo.v ===== *)
(** * Code that calls the outside

    A small monad for functions that read and change a state [S], which holds
    what the program owns and the world its calls act on, and that may fail:
    sequencing, the methods of a component inside a larger state, cleanup that
    runs on every path, and rules to reason about runs. *)
From S2P Require Export Prelude.
Local Open Scope Z_scope.

Definition io (St E A : Type) : Type := St -> St * outcome E A.

Section monad.
Context {St E A B : Type}.

Definition iret (a : A) : io St E A := fun s => (s, Ok a).
Definition ifail (e : E) : io St E A := fun s => (s, Err e).
Definition ifault (f : fault) : io St E A := fun s => (s, Fault f).

(** [m?] followed by [k]: the state reached so far is kept. *)
Definition ibind (m : io St E A) (k : A -> io St E B) : io St E B :=
  fun s =>
    let (s, r) := m s in
    match r with
    | Ok a => k a s
    | Err e => (s, Err e)
    | Fault f => (s, Fault f)
    end.

(** A computation that does not touch the state. *)
Definition ilift (m : outcome E A) : io St E A := fun s => (s, m).

(** [m], then the drop of a local of its scope, on every path. *)
Definition ifinally (m : io St E A) (cleanup : St -> St) : io St E A :=
  fun s => let (s, r) := m s in (cleanup s, r).

(** Reading and changing what the program owns. *)
Definition iget (f : St -> A) : io St E A := fun s => (s, Ok (f s)).
End monad.

(** [Result] as a value: an [Err] does not return early. *)
Definition icatch {St E F A} (m : io St E A) : io St F (outcome E A) :=
  fun s =>
    let (s, r) := m s in
    match r with
    | Ok a => (s, Ok (Ok a))
    | Err e => (s, Ok (Err e))
    | Fault f => (s, Fault f)
    end.

(** [m], then the drop of a local of its scope where it fails. *)
Definition ion_error {St E A} (m : io St E A) (cleanup : St -> St) : io St E A :=
  fun s => let (s, r) := m s in (match r with Ok _ => s | _ => cleanup s end, r).
Definition iput {St E} (f : St -> St) : io St E unit := fun s => (f s, Ok tt).
Definition imap_err {St E F A} (g : E -> F) (m : io St E A) : io St F A :=
  fun s => let (s, r) := m s in (s, map_err g r).

(** A call of the world, by code that owns [T]. *)
Definition on_world {T W E A} (m : io W E A) : io (T * W) E A :=
  fun s => let (w, r) := m (snd s) in (fst s, w, r).

(** A method of a part of what the code owns. *)
Definition on_part {T U W E A} (part : T -> U) (set_part : T -> U -> T) (m : io (U * W) E A) : io (T * W) E A :=
  fun s => let (s', r) := m (part (fst s), snd s) in (set_part (fst s) (fst s'), snd s', r).

(** The same where the call depends on what the code owns. *)
Definition with_owned {T W E A} (f : T -> io W E A) : io (T * W) E A := fun s => on_world (f (fst s)) s.

Declare Scope io_scope.
Delimit Scope io_scope with io.
Notation "'let*' x ':=' m 'in' k" := (ibind m (fun x => k))
  (at level 10, x pattern, m at level 100, k at level 200,
   format "'[v' 'let*'  x  ':='  m  'in' '/' k ']'") : io_scope.
#[global] Open Scope io_scope.

(** ** Runs

    [run_of m P Q]: from a state of [P], the outcome and the state reached are
    in [Q]. *)
Definition run_of {St E A} (P : St -> Prop) (m : io St E A) (Q : outcome E A -> St -> Prop) : Prop :=
  forall s, P s -> Q (snd (m s)) (fst (m s)).

Section rules.
Context {St E A B : Type}.
Implicit Types (P : St -> Prop).

Lemma run_ret P (a : A) (Q : outcome E A -> St -> Prop) :
  (forall s, P s -> Q (Ok a) s) -> run_of P (iret a) Q.
Proof. intros H s. apply H. Qed.

Lemma run_fail P (e : E) (Q : outcome E A -> St -> Prop) :
  (forall s, P s -> Q (Err e) s) -> run_of P (ifail e) Q.
Proof. intros H s. apply H. Qed.

Lemma run_lift P (m : outcome E A) (Q : outcome E A -> St -> Prop) :
  (forall s, P s -> Q m s) -> run_of P (ilift m) Q.
Proof. intros H s. apply H. Qed.

Lemma run_bind P R (m : io St E A) (k : A -> io St E B) Q :
  run_of P m R ->
  (forall s e, R (Err e) s -> Q (Err e) s) -> (forall s f, R (Fault f) s -> Q (Fault f) s) ->
  (forall a, run_of (R (Ok a)) (k a) Q) -> run_of P (ibind m k) Q.
Proof.
  intros Hm He Hf Hk s Hs. specialize (Hm s Hs). unfold ibind.
  destruct (m s) as [s' [a|e|f]]; simpl in *; auto. by apply Hk.
Qed.

Lemma run_bind_lift P (m : outcome E A) (k : A -> io St E B) (Q : outcome E B -> St -> Prop) :
  (forall a, m = Ok a -> run_of P (k a) Q) -> (forall e s, P s -> Q (Err e) s) -> (forall f s, P s -> m = Fault f -> Q (Fault f) s) ->
  run_of P (ibind (ilift m) k) Q.
Proof. intros Hk He Hf s Hs. unfold ibind, ilift. destruct m as [a|e|f]; [by apply Hk|by apply He|by apply Hf]. Qed.

(** The same where only success matters. *)
Definition on_ok {X} (Q : X -> St -> Prop) (r : outcome E X) (s : St) : Prop :=
  match r with Ok x => Q x s | _ => True end.
Lemma run_bind_ok P R (m : io St E A) (k : A -> io St E B) (Q : B -> St -> Prop) :
  run_of P m (on_ok R) -> (forall a, run_of (R a) (k a) (on_ok Q)) -> run_of P (ibind m k) (on_ok Q).
Proof. intros Hm Hk. by eapply run_bind; [exact Hm|..]. Qed.

Lemma run_weaken P P' (m : io St E A) Q Q' :
  run_of P m Q -> (forall s, P' s -> P s) -> (forall r s, Q r s -> Q' r s) -> run_of P' m Q'.
Proof. intros H HP HQ s Hs. apply HQ, H, HP, Hs. Qed.

(** Reading fixes what the state owns. *)
Lemma run_get P (f : St -> A) (k : A -> io St E B) Q :
  (forall a, run_of (fun s => P s /\ f s = a) (k a) Q) -> run_of P (ibind (iget f) k) Q.
Proof. intros Hk s Hs. by apply (Hk (f s)). Qed.

Lemma run_catch {F} P (m : io St E A) Q :
  run_of P m Q ->
  run_of P (icatch (F:=F) m) (fun r s => match r with
                                  | Ok r => Q r s
                                  | Err _ => False
                                  | Fault f => Q (Fault f) s
                                  end).
Proof. intros Hm s Hs. specialize (Hm s Hs). unfold icatch. by destruct (m s) as [s' []]. Qed.

Lemma run_and P (m : io St E A) Q Q' :
  run_of P m Q -> run_of P m Q' -> run_of P m (fun r s => Q r s /\ Q' r s).
Proof. intros H H' s Hs. split; auto. Qed.
End rules.

(** ** Runs that answer

    A panic is excused by [late], what the world is like when it may happen; the
    error path needs no description. *)
Definition answering {St E A} (late : St -> Prop) (Q : A -> St -> Prop) (r : outcome E A) (s : St) : Prop :=
  match r with
  | Ok a => Q a s
  | Err _ => True
  | Fault _ => late s
  end.

Section answers.
Context {St : Type} {late : St -> Prop}.
Notation answering := (answering late).
Notation anything := (fun _ _ => True).

Lemma bind_answering {E A B} P R (m : io St E A) (k : A -> io St E B) Q :
  run_of P m (answering R) -> (forall a, run_of (R a) (k a) (answering Q)) -> run_of P (ibind m k) (answering Q).
Proof. intros Hm Hk. by eapply run_bind; [exact Hm|..]. Qed.
Lemma answers {E A} (m : io St E A) P : (forall s, returns (snd (m s))) -> run_of P m (answering anything).
Proof. intros Hm s _. specialize (Hm s). by destruct (m s) as [s' []]. Qed.
Lemma answers_map {E F A} (g : E -> F) P (m : io St E A) Q : run_of P m (answering Q) -> run_of P (imap_err g m) (answering Q).
Proof. intros Hm s Hs. specialize (Hm s Hs). unfold imap_err. by destruct (m s) as [s' []]. Qed.
Lemma answers_lift {E A} (m : outcome E A) P : returns m -> run_of P (ilift m) (answering (fun a s => P s /\ m = Ok a)).
Proof. intros Hm s Hs. by destruct m. Qed.
Lemma from_anywhere {E A} P (m : io St E A) :
  run_of (fun _ => True) m (answering anything) -> run_of P m (answering anything).
Proof. intros Hm s _. by apply Hm. Qed.
Lemma ion_error_answers {E A} P (m : io St E A) f :
  (forall s, returns (snd (m s))) -> run_of P (ion_error m f) (answering anything).
Proof. intros Hm s _. specialize (Hm s). unfold ion_error. by destruct (m s) as [? []]. Qed.
Lemma caught_answers {E F A} P (m : io St E A) :
  (forall s, returns (snd (m s))) -> run_of P (icatch (F:=F) m) (answering (fun r _ => returns r)).
Proof. intros Hm s _. specialize (Hm s). unfold icatch. by destruct (m s) as [? []]. Qed.

(** Code that cannot panic. *)
Lemma returns_ibind {E A B} (m : io St E A) (k : A -> io St E B) s :
  returns (snd (m s)) -> (forall a s, returns (snd (k a s))) -> returns (snd (ibind m k s)).
Proof. intros Hm Hk. unfold ibind. destruct (m s) as [s' [a|e|f]]; simpl in *; [apply Hk|done..]. Qed.
Lemma returns_imap_err {E F A} (g : E -> F) (m : io St E A) s : returns (snd (m s)) -> returns (snd (imap_err g m s)).
Proof. unfold imap_err. destruct (m s) as [s' r]. simpl. apply returns_map_err. Qed.
End answers.

(** ** Invariants

    [keeps P m]: [m] preserves [P] whatever its outcome. *)
Definition keeps {St E A} (P : St -> Prop) (m : io St E A) : Prop := forall s, P s -> P (fst (m s)).

Section invariants.
Context {St E A B : Type} (P : St -> Prop).

Lemma keeps_ret (a : A) : keeps P (iret (E:=E) a).
Proof. by intros s. Qed.
Lemma keeps_fail (e : E) : keeps P (ifail (A:=A) e).
Proof. by intros s. Qed.
Lemma keeps_fault f : keeps P (ifault (E:=E) (A:=A) f).
Proof. by intros s. Qed.
Lemma keeps_lift (m : outcome E A) : keeps P (ilift m).
Proof. by intros s. Qed.
Lemma keeps_get (f : St -> A) : keeps P (iget (E:=E) f).
Proof. by intros s. Qed.
Lemma keeps_put (f : St -> St) : (forall s, P s -> P (f s)) -> keeps P (iput (E:=E) f).
Proof. intros Hf s. apply Hf. Qed.
Lemma keeps_bind (m : io St E A) (k : A -> io St E B) :
  keeps P m -> (forall a, keeps P (k a)) -> keeps P (ibind m k).
Proof.
  intros Hm Hk s Hs. specialize (Hm s Hs). unfold ibind.
  destruct (m s) as [s' [a|e|f]]; simpl in *; [by apply Hk|done..].
Qed.
Lemma keeps_map_err {F} (g : E -> F) (m : io St E A) : keeps P m -> keeps P (imap_err g m).
Proof. intros Hm s Hs. specialize (Hm s Hs). unfold imap_err. by destruct (m s). Qed.
Lemma keeps_catch {F} (m : io St E A) : keeps P m -> keeps P (icatch (F:=F) m).
Proof. intros Hm s Hs. specialize (Hm s Hs). unfold icatch. by destruct (m s) as [s' []]. Qed.
Lemma keeps_finally (m : io St E A) cleanup :
  keeps P m -> (forall s, P s -> P (cleanup s)) -> keeps P (ifinally m cleanup).
Proof. intros Hm Hc s Hs. specialize (Hm s Hs). unfold ifinally. destruct (m s). by apply Hc. Qed.
Lemma keeps_if (b : bool) (m n : io St E A) :
  (b = true -> keeps P m) -> (b = false -> keeps P n) -> keeps P (if b then m else n).
Proof. destruct b; auto. Qed.
End invariants.

Lemma run_of_keeps {St E A} (P : St -> Prop) (m : io St E A) : keeps P m -> run_of P m (on_ok (fun _ => P)).
Proof. intros Hm s Hs. specialize (Hm s Hs). by destruct (m s) as [s' []]. Qed.

Lemma keeps_on_world {T W E A} (P : T * W -> Prop) (m : io W E A) :
  (forall t, keeps (fun w => P (t, w)) m) -> keeps P (on_world m).
Proof.
  intros Hm [t w] Hs. specialize (Hm t w Hs). unfold on_world. simpl. by destruct (m w).
Qed.

(** A call of the world leaves alone what the program owns. *)
Lemma keeps_owned {T W E A} (Q : T -> Prop) (m : io W E A) : keeps (fun s => Q (fst s)) (on_world m).
Proof. intros [t w] Hs. unfold on_world. simpl. by destruct (m w). Qed.
Lemma keeps_owned_with {T W E A} (Q : T -> Prop) (f : T -> io W E A) : keeps (fun s => Q (fst s)) (with_owned f).
Proof. intros s. apply (keeps_owned Q (f (fst s))). Qed.
Lemma keeps_part {T U W E A} (part : T -> U) (set_part : T -> U -> T) (P : T * W -> Prop) (Q : U * W -> Prop) (m : io (U * W) E A) :
  keeps Q m -> (forall t w, P (t, w) -> Q (part t, w)) -> (forall t w u w', P (t, w) -> Q (u, w') -> P (set_part t u, w')) ->
  keeps P (on_part part set_part m).
Proof.
  intros Hm Hin Hout [t w] Hs. specialize (Hm (part t, w) (Hin t w Hs)). unfold on_part. cbn [fst snd] in *.
  destruct (m (part t, w)) as [[u w'] r]. by eapply Hout.
Qed.

Create HintDb io discriminated.
#[export] Hint Resolve keeps_ret keeps_fail keeps_fault keeps_lift keeps_get keeps_bind keeps_map_err
  keeps_catch keeps_if : io.

(** A step whose run is known. *)
Lemma ibind_step {St E A B} (m : io St E A) (k : A -> io St E B) s s' a :
  m s = (s', Ok a) -> ibind m k s = k a s'.
Proof. unfold ibind. by intros ->. Qed.

(** A step of the world, and of a part. *)
Lemma ibind_world {T W E A B} (m : io W E A) (k : A -> io (T * W) E B) t w :
  ibind (on_world m) k (t, w) = match snd (m w) with
                                | Ok a => k a (t, fst (m w))
                                | Err e => ((t, fst (m w)), Err e)
                                | Fault f => ((t, fst (m w)), Fault f)
                                end.
Proof. unfold ibind, on_world. cbn. by destruct (m w) as [w' []]. Qed.
Lemma ibind_part {T U W E A B} (part : T -> U) (set_part : T -> U -> T) (m : io (U * W) E A) (k : A -> io (T * W) E B) t w :
  ibind (on_part part set_part m) k (t, w) =
  let '((u, w'), r) := m (part t, w) in
  match r with
  | Ok a => k a (set_part t u, w')
  | Err e => ((set_part t u, w'), Err e)
  | Fault f => ((set_part t u, w'), Fault f)
  end.
Proof. unfold ibind, on_part. cbn. by destruct (m (part t, w)) as [[u w'] []]. Qed.

(** A run that ends in [Ok] went through every step. *)
Lemma ibind_ok_inv {St E A B} (m : io St E A) (k : A -> io St E B) s s' b :
  ibind m k s = (s', Ok b) -> exists s1 a, m s = (s1, Ok a) /\ k a s1 = (s', Ok b).
Proof. unfold ibind. destruct (m s) as [s1 [a|e|f]]; naive_solver. Qed.
Lemma iret_ok_inv {St E A} (a b : A) (s s' : St) : iret (E:=E) a s = (s', Ok b) -> a = b.
Proof. by intros [= _ <-]. Qed.
Lemma imap_err_ok_inv {St E F A} (g : E -> F) (m : io St E A) s s' a :
  imap_err g m s = (s', Ok a) -> m s = (s', Ok a).
Proof. unfold imap_err. destruct (m s) as [s1 [x|e|f]]; naive_solver. Qed.
Lemma on_world_ok_inv {T W E A} (m : io W E A) (t : T) w s' a :
  on_world m (t, w) = (s', Ok a) -> exists w', s' = (t, w') /\ m w = (w', Ok a).
Proof. unfold on_world. simpl. destruct (m w) as [w' r]. intros [= <- ->]. eauto. Qed.
