(* ===== verification/HostMac.v ===== *)
(** * The macOS adapters

    Models [apps/desktop/src-tauri/src/platform/macos.rs]: the status of the platform,
    the list of displays, and the short capture probe with its counters. ScreenCaptureKit
    and Core Graphics are the class [MacOs]. *)
From S2P Require Export RustIo RustText HostState.
Local Open Scope string_scope.
Local Open Scope list_scope.
Local Open Scope Z_scope.

(** ** The outside *)

(** What the library says of the status of a frame. *)
Module FrameStatus.
Record t : Type := mk { has_content : bool; is_idle : bool }.
End FrameStatus.
Module SurfaceInfo.
Record t : Type := mk { is_backed_by_io_surface : bool; width : Z; height : Z; pixel_format : string }.
End SurfaceInfo.

(** One callback: the sample and the time since the capture started. The sizes are
    [usize]; [dirty_rects] is their number. *)
Module Sample.
Record t : Type := mk {
  frame_status : option FrameStatus.t;
  dirty_rects : option Z;
  image_buffer : option SurfaceInfo.t;
  elapsed : Z;
}.
End Sample.
Module ShareableDisplay.
Record t : Type := mk { display_id : Z; width : Z; height : Z }.
End ShareableDisplay.
Module StreamConfiguration.
Record t : Type := mk { display_id : Z; width : Z; height : Z; fps : Z; queue_depth : Z; shows_cursor : bool }.
End StreamConfiguration.

Class MacOs (W : Type) : Type := {
  preflight : W -> W * bool;
  request_access : W -> W * bool;
  active_display_ids : W -> W * outcome string (list Z);
  is_main : Z -> W -> W * bool;
  pixels_wide : Z -> W -> W * Z;
  pixels_high : Z -> W -> W * Z;
  shareable_displays : W -> W * outcome string (list ShareableDisplay.t);
  (** Whether the stream takes the output handler. *)
  add_output_handler : StreamConfiguration.t -> W -> W * bool;
  start_capture : W -> W * outcome string unit;
  stop_capture : W -> W * outcome string unit;
  mac_sleep : Z -> W -> W;
  capture_elapsed : W -> W * Z;
  (** The callbacks made until the counters are read. *)
  observed_samples : W -> W * list Sample.t;
}.

Definition CAPTURE_PROBE_DURATION : Z := Duration.from_millis 750.
Definition CAPTURE_QUEUE_DEPTH : Z := 3.

(** A display identifier as text. *)
Definition show_u32 (n : Z) : string := text (decimal 10 n).

(** ** The counters of a probe *)
Module ProbeCounters.
Record t : Type := mk {
  callbacks : Z;
  content_frames : Z;
  idle_frames : Z;
  incomplete_frames : Z;
  frames_with_surface : Z;
  dirty_rects : Z;
  first_surface_at : option Z;
  width : option Z;
  height : option Z;
  pixel_format : option string;
}.
Definition default : t := mk 0 0 0 0 0 0 None None None None.
End ProbeCounters.

Definition count_status (sample : Sample.t) (c : ProbeCounters.t) : ProbeCounters.t :=
  let '(content, idle, incomplete) :=
    match Sample.frame_status sample with
    | Some status =>
      if FrameStatus.has_content status
      then (saturating_add 64 (ProbeCounters.content_frames c) 1, ProbeCounters.idle_frames c, ProbeCounters.incomplete_frames c)
      else if FrameStatus.is_idle status
      then (ProbeCounters.content_frames c, saturating_add 64 (ProbeCounters.idle_frames c) 1, ProbeCounters.incomplete_frames c)
      else (ProbeCounters.content_frames c, ProbeCounters.idle_frames c, saturating_add 64 (ProbeCounters.incomplete_frames c) 1)
    | None => (ProbeCounters.content_frames c, ProbeCounters.idle_frames c, saturating_add 64 (ProbeCounters.incomplete_frames c) 1)
    end in
  ProbeCounters.mk (saturating_add 64 (ProbeCounters.callbacks c) 1) content idle incomplete (ProbeCounters.frames_with_surface c)
    (match Sample.dirty_rects sample with
     | Some rects => saturating_add 64 (ProbeCounters.dirty_rects c) (default (u_max 64) (checked 64 rects))
     | None => ProbeCounters.dirty_rects c
     end)
    (ProbeCounters.first_surface_at c) (ProbeCounters.width c) (ProbeCounters.height c) (ProbeCounters.pixel_format c).

Definition count_surface (sample : Sample.t) (c : ProbeCounters.t) : ProbeCounters.t :=
  match Sample.image_buffer sample with
  | None => c
  | Some surface =>
    let backed := SurfaceInfo.is_backed_by_io_surface surface in
    ProbeCounters.mk (ProbeCounters.callbacks c) (ProbeCounters.content_frames c) (ProbeCounters.idle_frames c)
      (ProbeCounters.incomplete_frames c)
      (if backed then saturating_add 64 (ProbeCounters.frames_with_surface c) 1 else ProbeCounters.frames_with_surface c)
      (ProbeCounters.dirty_rects c)
      (if backed then Some (default (Sample.elapsed sample) (ProbeCounters.first_surface_at c)) else ProbeCounters.first_surface_at c)
      (checked 32 (SurfaceInfo.width surface)) (checked 32 (SurfaceInfo.height surface))
      (Some (default (SurfaceInfo.pixel_format surface) (ProbeCounters.pixel_format c)))
  end.

Definition observe_sample (c : ProbeCounters.t) (sample : Sample.t) : ProbeCounters.t := count_surface sample (count_status sample c).

(** ** Requests *)
Definition validate_probe_fps (fps : Z) : outcome string unit :=
  if (fps =? 30) || (fps =? 60) then Ok tt else Err "native capture probe refresh rate must be 30 or 60 Hz".

Definition parse_display_id (display_id : option string) : outcome string (option Z) :=
  match display_id with
  | None => Ok None
  | Some value =>
    let! id := ok_or (parse_u32 (str value)) ("invalid macOS display identifier: " +:+ value) in Ok (Some id)
  end.

Definition select_display (requested : option Z) (displays : list ShareableDisplay.t) : outcome string ShareableDisplay.t :=
  match requested with
  | Some requested =>
    ok_or (List.find (fun display => ShareableDisplay.display_id display =? requested) displays)
      ("display " +:+ show_u32 requested +:+ " is no longer available for capture")
  | None => ok_or (head displays) "ScreenCaptureKit reported no capturable displays"
  end.

Definition duration_millis_u64 (duration : Z) : Z := default (u_max 64) (checked 64 (Duration.as_millis duration)).

Definition probe_report (display : ShareableDisplay.t) (name : string) (fps elapsed : Z) (snapshot : ProbeCounters.t)
  : CaptureProbeReport.t :=
  CaptureProbeReport.mk "ScreenCaptureKit" (show_u32 (ShareableDisplay.display_id display)) name
    (default (ShareableDisplay.width display) (ProbeCounters.width snapshot))
    (default (ShareableDisplay.height display) (ProbeCounters.height snapshot))
    fps (duration_millis_u64 elapsed) (ProbeCounters.callbacks snapshot) (ProbeCounters.content_frames snapshot)
    (ProbeCounters.idle_frames snapshot) (ProbeCounters.incomplete_frames snapshot) (ProbeCounters.frames_with_surface snapshot)
    (ProbeCounters.dirty_rects snapshot) (measured_fps (ProbeCounters.frames_with_surface snapshot) elapsed)
    (duration_millis <$> ProbeCounters.first_surface_at snapshot) (ProbeCounters.pixel_format snapshot)
    ((0 <? ProbeCounters.callbacks snapshot) && (0 <? ProbeCounters.frames_with_surface snapshot)).

Section mac.
Context {W : Type} `{MacOs W}.
Notation io := (RustIo.io W string).

(** A call that cannot fail. *)
Definition ask {A} (f : W -> W * A) : io A := fun w => let (w, a) := f w in (w, Ok a).

(** ** Displays *)
Definition display_source (index id : Z) : io DisplaySource.t :=
  let* named_main := ask (is_main id) in
  let* width := ask (pixels_wide id) in
  let* height := ask (pixels_high id) in
  let* primary := ask (is_main id) in
  iret (DisplaySource.mk (show_u32 id) (if named_main : bool then "Main display" else "Display " +:+ text (decimal 20 (index + 1)))
          width height primary false).
Fixpoint display_sources (index : Z) (ids : list Z) : io (list DisplaySource.t) :=
  match ids with
  | [] => iret []
  | id :: ids =>
    let* display := display_source index id in
    let* displays := display_sources (index + 1) ids in
    iret (display :: displays)
  end.
Definition active_displays : io (list DisplaySource.t) :=
  let* ids := icatch active_display_ids in
  match ids with Ok ids => display_sources 0 ids | Err _ => iret [] | Fault f => ifault f end.

Definition display_name (display_id : Z) : io string :=
  let* displays := active_displays in
  iret (match List.find (fun display => String.eqb (DisplaySource.id display) (show_u32 display_id)) displays with
        | Some display => DisplaySource.name display
        | None => "Display " +:+ show_u32 display_id
        end).

(** ** The status *)
Definition collect_status : io PlatformStatus.t :=
  let* granted := ask preflight in
  let* displays := active_displays in
  iret (PlatformStatus.mk "ScreenCaptureKit native frame probe with CoreGraphics discovery"
          "VideoToolbox encoder capability probe is not implemented yet" UsbLinkState.Unsupported
          "Android Open Accessory host is not implemented on macOS yet"
          (if granted : bool then CapturePermission.Granted else CapturePermission.Required)
          (VirtualDisplayStatus.unsupported "Virtual-display creation remains isolated behind the native macOS adapter.")
          displays).
Definition request_capture_access : io PlatformStatus.t :=
  let* _ := ask request_access in collect_status.

(** ** The probe *)
Definition capture_samples (configuration : StreamConfiguration.t) : io (Z * ProbeCounters.t) :=
  let* handler := ask (add_output_handler configuration) in
  if negb handler then ifail "ScreenCaptureKit rejected the screen output handler"
  else
    let* _ := imap_err (fun error => "failed to start ScreenCaptureKit capture: " +:+ error) start_capture in
    let* _ := iput (mac_sleep CAPTURE_PROBE_DURATION) in
    let* stop_result := icatch stop_capture in
    let* elapsed := ask capture_elapsed in
    let* _ := ilift (map_err (fun error => "failed to stop ScreenCaptureKit capture: " +:+ error) stop_result) in
    let* samples := ask observed_samples in
    iret (elapsed, fold_left observe_sample samples ProbeCounters.default).

Definition probe_screen_capture (display_id : option string) (fps : Z) : io CaptureProbeReport.t :=
  let* _ := ilift (validate_probe_fps fps) in
  let* granted := ask preflight in
  if negb granted then ifail "screen recording access is required before running the native capture probe"
  else
    let* requested := ilift (parse_display_id display_id) in
    let* displays := imap_err (fun error => "failed to query ScreenCaptureKit content: " +:+ error) shareable_displays in
    let* display := ilift (select_display requested displays) in
    let* name := display_name (ShareableDisplay.display_id display) in
    let* (elapsed, snapshot) := capture_samples (StreamConfiguration.mk (ShareableDisplay.display_id display)
      (ShareableDisplay.width display) (ShareableDisplay.height display) fps CAPTURE_QUEUE_DEPTH false) in
    iret (probe_report display name fps elapsed snapshot).
End mac.

(** ** Counting *)
Definition status_of (sample : Sample.t) : nat :=
  match Sample.frame_status sample with
  | Some status => if FrameStatus.has_content status then 0%nat else if FrameStatus.is_idle status then 1%nat else 2%nat
  | None => 2%nat
  end.
Definition of_status (n : nat) (samples : list Sample.t) : Z := zlen (List.filter (fun s => status_of s =? n)%nat samples).
Definition backed (sample : Sample.t) : bool :=
  match Sample.image_buffer sample with Some surface => SurfaceInfo.is_backed_by_io_surface surface | None => false end.
Definition rects_of (sample : Sample.t) : Z := match Sample.dirty_rects sample with Some rects => rects | None => 0 end.
Definition total_rects (samples : list Sample.t) : Z := fold_right (fun s total => rects_of s + total) 0 samples.
Definition buffers (samples : list Sample.t) : list SurfaceInfo.t := omap Sample.image_buffer samples.

(** The counters after some callbacks, by what these were. *)
Definition counted (samples : list Sample.t) : ProbeCounters.t :=
  ProbeCounters.mk (zlen samples) (of_status 0 samples) (of_status 1 samples) (of_status 2 samples)
    (zlen (List.filter backed samples)) (Z.min (total_rects samples) (u_max 64))
    (Sample.elapsed <$> head (List.filter backed samples))
    (last (buffers samples) ≫= fun s => checked 32 (SurfaceInfo.width s))
    (last (buffers samples) ≫= fun s => checked 32 (SurfaceInfo.height s))
    (SurfaceInfo.pixel_format <$> head (buffers samples)).

Lemma filter_snoc {A} (p : A -> bool) l x : List.filter p (l ++ [x]) = List.filter p l ++ (if p x then [x] else []).
Proof. rewrite List.filter_app. cbn. by destruct (p x). Qed.
Lemma zlen_filter_le {A} (p : A -> bool) l : 0 <= zlen (List.filter p l) <= zlen l.
Proof. induction l as [|x l IH]; cbn; [lia|]. destruct (p x); cbn; lia. Qed.
Lemma zlen_app_one {A} (l : list A) x : zlen (l ++ [x]) = zlen l + 1.
Proof. rewrite length_app. cbn. lia. Qed.
Lemma head_snoc {A} (l l' : list A) : head (l ++ l') = match head l with Some x => Some x | None => head l' end.
Proof. by destruct l. Qed.
Lemma total_rects_snoc l x : total_rects (l ++ [x]) = total_rects l + rects_of x.
Proof. unfold total_rects. induction l as [|y l IH]; cbn; lia. Qed.
Lemma of_status_snoc n l x : of_status n (l ++ [x]) = of_status n l + (if (status_of x =? n)%nat then 1 else 0).
Proof. unfold of_status. rewrite filter_snoc, length_app. destruct (status_of x =? n)%nat; cbn; lia. Qed.

Lemma counted_snoc samples s : zlen samples + 1 < 2 ^ 64 -> Forall (fun s => forall rects, Sample.dirty_rects s = Some rects -> in_u 64 rects) (samples ++ [s]) ->
  0 <= total_rects samples ->
  observe_sample (counted samples) s = counted (samples ++ [s]).
Proof.
  intros Hlen Hrects Htotal. apply Forall_app in Hrects as [_ Hs]. apply Forall_inv in Hs.
  pose proof (zlen_filter_le backed samples). pose proof (zlen_filter_le (fun s => status_of s =? 0)%nat samples).
  pose proof (zlen_filter_le (fun s => status_of s =? 1)%nat samples). pose proof (zlen_filter_le (fun s => status_of s =? 2)%nat samples).
  assert (Hsat : forall n, n <= zlen samples -> saturating_add 64 n 1 = n + 1) by (intros; unfold saturating_add, u_max; lia).
  assert (Hc : count_status s (counted samples) = ProbeCounters.mk (zlen samples + 1) (of_status 0 (samples ++ [s]))
    (of_status 1 (samples ++ [s])) (of_status 2 (samples ++ [s])) (zlen (List.filter backed samples))
    (Z.min (total_rects (samples ++ [s])) (u_max 64)) (ProbeCounters.first_surface_at (counted samples))
    (ProbeCounters.width (counted samples)) (ProbeCounters.height (counted samples)) (ProbeCounters.pixel_format (counted samples))).
  { unfold count_status. rewrite !of_status_snoc, total_rects_snoc. unfold status_of, rects_of.
    assert (Hd : match Sample.dirty_rects s with
      | Some rects => saturating_add 64 (Z.min (total_rects samples) (u_max 64)) (default (u_max 64) (checked 64 rects))
      | None => Z.min (total_rects samples) (u_max 64) end =
      Z.min (total_rects samples + match Sample.dirty_rects s with Some rects => rects | None => 0 end) (u_max 64)).
    { destruct (Sample.dirty_rects s) as [rects|] eqn:Hr; [|f_equal; lia]. specialize (Hs rects eq_refl). unfold in_u in Hs.
      unfold checked. replace ((0 <=? rects) && (rects <? 2 ^ 64)) with true by lia. cbn. unfold saturating_add, u_max. lia. }
    cbn [counted ProbeCounters.dirty_rects ProbeCounters.callbacks ProbeCounters.content_frames ProbeCounters.idle_frames
         ProbeCounters.incomplete_frames]. rewrite Hd.
    destruct (Sample.frame_status s) as [status|]; [destruct (FrameStatus.has_content status); [|destruct (FrameStatus.is_idle status)]|];
      cbn; rewrite ?Hsat by (unfold of_status; lia); rewrite ?Z.add_0_r; reflexivity. }
  unfold observe_sample. rewrite Hc. unfold count_surface.
  assert (Hbacked : backed s = match Sample.image_buffer s with Some surface => SurfaceInfo.is_backed_by_io_surface surface | None => false end) by done.
  assert (Hbuffers : buffers (samples ++ [s]) = buffers samples ++ option_list (Sample.image_buffer s))
    by (unfold buffers; rewrite omap_app; cbn; by destruct (Sample.image_buffer s)).
  unfold counted. rewrite zlen_app_one, filter_snoc, Hbuffers, Hbacked, length_app, last_app, !head_snoc.
  destruct (Sample.image_buffer s) as [surface|]; cbn [option_list last head length ProbeCounters.callbacks
    ProbeCounters.content_frames ProbeCounters.idle_frames ProbeCounters.incomplete_frames ProbeCounters.frames_with_surface
    ProbeCounters.dirty_rects ProbeCounters.first_surface_at ProbeCounters.width ProbeCounters.height ProbeCounters.pixel_format].
  - destruct (SurfaceInfo.is_backed_by_io_surface surface); cbn [length head].
    + rewrite Hsat by lia. f_equal; [lia|by destruct (head (List.filter backed samples))|by destruct (head (buffers samples))].
    + f_equal; [lia|by destruct (head (List.filter backed samples))|by destruct (head (buffers samples))].
  - cbn. f_equal; [lia|..]; by destruct (head _).
Qed.

Lemma observed_counters samples : zlen samples < 2 ^ 64 ->
  Forall (fun s => forall rects, Sample.dirty_rects s = Some rects -> in_u 64 rects) samples ->
  fold_left observe_sample samples ProbeCounters.default = counted samples.
Proof.
  induction samples as [|s samples IH] using rev_ind; intros Hlen Hrects; [done|].
  rewrite zlen_app_one in Hlen. rewrite fold_left_app. cbn. pose proof (proj1 (Forall_app _ _ _) Hrects) as [Hr _].
  rewrite IH by (done || lia). apply counted_snoc; [lia|done|].
  clear -Hr. induction Hr as [|x l Hx _ IH]; [by cbn|]. change (total_rects (x :: l)) with (rects_of x + total_rects l).
  unfold rects_of. destruct (Sample.dirty_rects x) as [r|]; [|lia].
  specialize (Hx r eq_refl). unfold in_u in Hx. lia.
Qed.

(** Every callback has one status. *)
Lemma statuses_partition samples : of_status 0 samples + of_status 1 samples + of_status 2 samples = zlen samples.
Proof.
  induction samples as [|s samples IH]; [done|]. unfold of_status in *. cbn.
  assert (Hs : (status_of s <= 2)%nat) by (unfold status_of; repeat case_match; lia).
  destruct (status_of s) as [|[|[|n]]]; cbn; lia.
Qed.

(** The report of a probe counts its callbacks exactly. Whatever samples arrive, as
    long as they can be counted, each is one of the content, idle and incomplete
    frames; the surfaces are those backed by an IOSurface, the start-up latency is the
    time of the first of them; the size is that of the last sample with a buffer, or
    the configured one; and the probe passes exactly if a backed surface was seen. *)
Theorem mac_probe_counts_every_sample samples display name fps elapsed
    (Hcount : zlen samples < 2 ^ 64)
    (Hrects : Forall (fun s => forall rects, Sample.dirty_rects s = Some rects -> in_u 64 rects) samples) :
  let report := probe_report display name fps elapsed (fold_left observe_sample samples ProbeCounters.default) in
  CaptureProbeReport.callbacks report = zlen samples /\
  CaptureProbeReport.content_frames report + CaptureProbeReport.idle_frames report +
    CaptureProbeReport.incomplete_frames report = zlen samples /\
  CaptureProbeReport.frames_with_surface report = zlen (List.filter backed samples) /\
  CaptureProbeReport.startup_latency_ms report =
    duration_millis <$> (Sample.elapsed <$> head (List.filter backed samples)) /\
  CaptureProbeReport.width report = default (ShareableDisplay.width display)
    (last (buffers samples) ≫= fun s => checked 32 (SurfaceInfo.width s)) /\
  (CaptureProbeReport.passed report = true <-> exists s, s ∈ samples /\ backed s = true).
Proof.
  intros report. subst report. rewrite observed_counters by done. cbn. split_and!; try done; [by apply statuses_partition|].
  rewrite andb_true_iff, !Z.ltb_lt. pose proof (zlen_filter_le backed samples). split.
  - intros [_ Hf]. destruct (List.filter backed samples) as [|s l] eqn:Hl; [cbn in Hf; lia|].
    exists s. assert (Hin : In s (List.filter backed samples)) by (rewrite Hl; by left).
    apply filter_In in Hin as [Hin Hb]. split; [by apply list_elem_of_In|done].
  - intros (s & Hin & Hb). assert (Hf : In s (List.filter backed samples)) by (apply filter_In; split; [by apply list_elem_of_In|done]).
    destruct (List.filter backed samples) as [|x l]; [done|]. cbn in *. lia.
Qed.

(** ** A probe stops what it starts *)
Inductive MacEntry : Type :=
| StartedCapture (succeeded : bool)
| StoppedCapture (succeeded : bool).
Definition succeeded {E A} (r : outcome E A) : bool := match r with Ok _ => true | _ => false end.
Definition noting {W A} (log : list MacEntry) (answer : W * A) : (W * list MacEntry) * A := (fst answer, log, snd answer).

#[export] Instance recording_mac `{MacOs W} : MacOs (W * list MacEntry) := {
  preflight w := noting (snd w) (preflight (fst w));
  request_access w := noting (snd w) (request_access (fst w));
  active_display_ids w := noting (snd w) (active_display_ids (fst w));
  is_main id w := noting (snd w) (is_main id (fst w));
  pixels_wide id w := noting (snd w) (pixels_wide id (fst w));
  pixels_high id w := noting (snd w) (pixels_high id (fst w));
  shareable_displays w := noting (snd w) (shareable_displays (fst w));
  add_output_handler c w := noting (snd w) (add_output_handler c (fst w));
  start_capture w := let r := start_capture (fst w) in noting (snd w ++ [StartedCapture (succeeded (snd r))]) r;
  stop_capture w := let r := stop_capture (fst w) in noting (snd w ++ [StoppedCapture (succeeded (snd r))]) r;
  mac_sleep d w := (mac_sleep d (fst w), snd w);
  capture_elapsed w := noting (snd w) (capture_elapsed (fst w));
  observed_samples w := noting (snd w) (observed_samples (fst w));
}.

Section probes.
Context {W : Type} `{MacOs W}.
Notation world := (W * list MacEntry)%type.
Definition logged (log : list MacEntry) (w : world) : Prop := snd w = log.

Lemma keeps_asked {A} log (f : W -> W * A) : keeps (logged log) (ask (fun w : world => noting (snd w) (f (fst w)))).
Proof. intros w Hw. unfold ask. cbn. by destruct (f (fst w)). Qed.
Lemma keeps_noted {A} log (f : W -> W * outcome string A) : keeps (logged log) (fun w : world => noting (snd w) (f (fst w))).
Proof. by intros w Hw. Qed.
Hint Resolve keeps_asked keeps_noted : io.

Lemma keeps_sources log ids : forall index, keeps (logged log) (display_sources index ids).
Proof.
  induction ids as [|id ids IH]; intros index; cbn [display_sources]; [auto with io|].
  apply keeps_bind; [unfold display_source; repeat (apply keeps_bind; [apply keeps_asked|intros ?]); auto with io|].
  intros d. apply keeps_bind; auto with io.
Qed.
Lemma keeps_name log id : keeps (logged log) (display_name id).
Proof.
  unfold display_name, active_displays. apply keeps_bind; [|auto with io].
  apply keeps_bind; [apply keeps_catch, keeps_noted|]. intros [ids|e|f]; [apply keeps_sources|auto with io..].
Qed.
End probes.

(** What the log of a probe may be, by its result. *)
Definition probed (r : outcome string CaptureProbeReport.t) (log : list MacEntry) : Prop :=
  match r with
  | Ok _ => log = [StartedCapture true; StoppedCapture true]
  | Err _ => log = [] \/ log = [StartedCapture false] \/ log = [StartedCapture true; StoppedCapture false]
  | Fault _ => True
  end.

Section ending.
Context {W : Type} `{MacOs W}.
Notation world := (W * list MacEntry)%type.

(** From a log without a capture. *)
Definition ends_probed {A} (m : io world string A) (ok : list MacEntry) : Prop :=
  run_of (logged []) m (fun r w => match r with
    | Ok _ => snd w = ok
    | Err _ => snd w = [] \/ snd w = [StartedCapture false] \/ snd w = [StartedCapture true; StoppedCapture false]
    | Fault _ => True
    end).
Lemma keeps_then {A B} (m : io world string A) (k : A -> io world string B) ok :
  keeps (logged []) m -> (forall a, ends_probed (k a) ok) -> ends_probed (ibind m k) ok.
Proof.
  intros Hm Hk w Hw. specialize (Hm w Hw). unfold ibind. destruct (m w) as [w' [a|e|f]]; cbn in *; [by apply Hk|by left|done].
Qed.
Lemma capture_ends configuration : ends_probed (capture_samples configuration) [StartedCapture true; StoppedCapture true].
Proof.
  unfold capture_samples. apply keeps_then; [apply (keeps_asked [] (add_output_handler configuration))|]. intros taken.
  destruct taken; cbn [negb]; [|by intros w Hw; left]. intros w Hw. unfold logged in Hw.
  unfold ibind at 1, imap_err. cbn. rewrite Hw. destruct (start_capture (fst w)) as [w1 [[]|e|f]]; cbn; [|by right; left|done].
  unfold ibind, icatch, ask, iput. cbn. destruct (stop_capture (mac_sleep CAPTURE_PROBE_DURATION w1)) as [w2 [[]|e|f]]; cbn; [| |done];
    destruct (capture_elapsed w2) as [w3 elapsed]; cbn; [by destruct (observed_samples w3)|by right; right].
Qed.
Lemma probe_ends display_id fps : ends_probed (probe_screen_capture display_id fps) [StartedCapture true; StoppedCapture true].
Proof.
  unfold probe_screen_capture. apply keeps_then; [apply keeps_lift|]. intros _.
  apply keeps_then; [apply (keeps_asked [] preflight)|]. intros granted. destruct granted; cbn [negb]; [|by intros w Hw; left].
  apply keeps_then; [apply keeps_lift|]. intros requested.
  apply keeps_then; [apply keeps_map_err, (keeps_noted [] shareable_displays)|]. intros displays.
  apply keeps_then; [apply keeps_lift|]. intros display. apply keeps_then; [apply keeps_name|]. intros name w Hw.
  pose proof (capture_ends (StreamConfiguration.mk (ShareableDisplay.display_id display) (ShareableDisplay.width display)
    (ShareableDisplay.height display) fps CAPTURE_QUEUE_DEPTH false) w Hw) as Hc.
  unfold ibind. by destruct (capture_samples _ w) as [w' [[elapsed snapshot]|e|f]].
Qed.
End ending.

(** The run of a probe whose result is a report went through every check. *)
Lemma probe_checks {W} `{MacOs W} display_id fps (w w' : W) report :
  probe_screen_capture display_id fps w = (w', Ok report) ->
  validate_probe_fps fps = Ok tt /\ exists requested displays display,
    parse_display_id display_id = Ok requested /\ select_display requested displays = Ok display /\
    CaptureProbeReport.display_id report = show_u32 (ShareableDisplay.display_id display).
Proof.
  unfold probe_screen_capture. intros (w1 & [] & Hfps & Hrun)%ibind_ok_inv. injection Hfps as _ Hfps. split; [done|].
  apply ibind_ok_inv in Hrun as (w2 & granted & _ & Hrun). destruct granted; [|done]. cbn [negb] in Hrun.
  apply ibind_ok_inv in Hrun as (w3 & requested & Hreq & Hrun). injection Hreq as _ Hreq.
  apply ibind_ok_inv in Hrun as (w4 & displays & _ & Hrun).
  apply ibind_ok_inv in Hrun as (w5 & display & Hsel & Hrun). injection Hsel as _ Hsel.
  apply ibind_ok_inv in Hrun as (w6 & name & _ & Hrun). apply ibind_ok_inv in Hrun as (w7 & [elapsed snapshot] & _ & [= _ <-]).
  by exists requested, displays, display.
Qed.

(** On macOS a probe stops what it starts. On every path the capture is started at
    most once and stopped exactly if it was started; a report exists only if both
    succeeded, at 30 or 60 frames per second; and it is about the display that was
    asked for. *)
Theorem mac_captures_are_stopped {W} `{MacOs W} display_id fps (w : W) :
  let '((_, log), r) := probe_screen_capture display_id fps (w, []) in
  probed r log /\
  (forall report, r = Ok report -> (fps = 30 \/ fps = 60) /\
     forall value, display_id = Some value -> exists id, parse_u32 (str value) = Some id /\
       CaptureProbeReport.display_id report = show_u32 id).
Proof.
  pose proof (probe_ends display_id fps (w, []) eq_refl) as He.
  pose proof (probe_checks (W:=W * list MacEntry) display_id fps (w, [])) as Hc.
  destruct (probe_screen_capture display_id fps (w, [])) as [[w' log] r]. cbn in He. split; [by destruct r|].
  intros report ->. destruct (Hc _ _ eq_refl) as (Hfps & requested & displays & display & Hparse & Hsel & Hid). split.
  - unfold validate_probe_fps in Hfps. destruct (Z.eqb_spec fps 30), (Z.eqb_spec fps 60); cbn in Hfps; [by left|by left|by right|done].
  - intros value ->. cbn in Hparse. destruct (parse_u32 (str value)) as [id|]; [|done]. injection Hparse as <-.
    exists id. split; [done|]. rewrite Hid. cbn in Hsel.
    destruct (List.find _ displays) as [d|] eqn:Hf; [|done]. injection Hsel as ->. apply find_some in Hf as [_ Hf%Z.eqb_eq]. by rewrite Hf.
Qed.

Lemma sources_ids {W} `{MacOs W} ids : forall index (w w' : W) l,
  display_sources index ids w = (w', Ok l) -> map DisplaySource.id l = map show_u32 ids.
Proof.
  induction ids as [|id ids IH]; intros index w w' l; cbn [display_sources]; [by intros [= _ <-]|].
  intros (w1 & d & Hd & (w2 & ds & Hds%IH & [= _ <-])%ibind_ok_inv)%ibind_ok_inv. cbn. f_equal; [|done].
  unfold display_source in Hd. repeat match type of Hd with ibind _ _ _ = _ => apply ibind_ok_inv in Hd as (? & ? & _ & Hd) end.
  by apply iret_ok_inv in Hd as <-.
Qed.

(** A display that the macOS status lists can be asked for: its identifier is read
    back as the number Core Graphics gave, whatever displays there are. *)
Theorem mac_display_ids_round_trip {W} `{MacOs W} (w w1 w2 : W) ids status display
    (Hids : active_display_ids (fst (preflight w)) = (w1, Ok ids)) (Hrange : Forall (in_u 32) ids)
    (Hstatus : collect_status w = (w2, Ok status)) (Hdisplay : In display (PlatformStatus.displays status)) :
  exists id, In id ids /\ parse_display_id (Some (DisplaySource.id display)) = Ok (Some id).
Proof.
  unfold collect_status in Hstatus. apply ibind_ok_inv in Hstatus as (w3 & granted & Hgranted & Hstatus).
  assert (w3 = fst (preflight w)) as -> by (revert Hgranted; unfold ask; destruct (preflight w); by intros [= <- _]).
  apply ibind_ok_inv in Hstatus as (w4 & displays & Hdisplays & [= _ <-]). cbn in Hdisplay.
  unfold active_displays, ibind, icatch in Hdisplays. rewrite Hids in Hdisplays. cbn in Hdisplays. apply sources_ids in Hdisplays.
  apply (in_map DisplaySource.id) in Hdisplay. rewrite Hdisplays in Hdisplay. apply in_map_iff in Hdisplay as (id & Hid & Hin).
  exists id. split; [done|]. unfold parse_display_id. rewrite <-Hid. unfold show_u32. rewrite str_text, parse_u32_decimal; [done|].
  rewrite List.Forall_forall in Hrange. by apply Hrange.
Qed.

(** ** Concrete runs *)
Module MacExamples.
(** Two displays; the capture gives an idle sample, a backed one and an unbacked one. *)
#[local] Instance two_displays : MacOs unit := {
  preflight w := (w, true);
  request_access w := (w, true);
  active_display_ids w := (w, Ok [1; 69733382]);
  is_main id w := (w, id =? 1);
  pixels_wide id w := (w, 2560);
  pixels_high id w := (w, 1440);
  shareable_displays w := (w, Ok [ShareableDisplay.mk 1 2560 1440; ShareableDisplay.mk 69733382 1920 1080]);
  add_output_handler _ w := (w, true);
  start_capture w := (w, Ok tt);
  stop_capture w := (w, Ok tt);
  mac_sleep _ w := w;
  capture_elapsed w := (w, 760000000);
  observed_samples w := (w, [Sample.mk (Some (FrameStatus.mk false true)) None None 10;
    Sample.mk (Some (FrameStatus.mk true false)) (Some 3) (Some (SurfaceInfo.mk true 1920 1080 "BGRA")) 20;
    Sample.mk None None (Some (SurfaceInfo.mk false 1920 1080 "420v")) 30]);
}.

Example second_display_is_probed :
  match snd (probe_screen_capture (Some "69733382") 60 tt) with
  | Ok report => CaptureProbeReport.display_name report = "Display 2" /\ CaptureProbeReport.callbacks report = 3 /\
      CaptureProbeReport.pixel_format report = Some "BGRA" /\ CaptureProbeReport.passed report = true
  | _ => False
  end.
Proof. vm_compute. auto. Qed.
Example unknown_display_is_refused :
  snd (probe_screen_capture (Some "7") 30 tt) = Err "display 7 is no longer available for capture".
Proof. vm_compute. reflexivity. Qed.
Example signed_identifier_is_read : parse_display_id (Some "+42") = Ok (Some 42).
Proof. vm_compute. reflexivity. Qed.

Definition samples : list Sample.t :=
  [Sample.mk None None None 5; Sample.mk (Some (FrameStatus.mk true false)) (Some 3) (Some (SurfaceInfo.mk true 1920 1080 "BGRA")) 20].
Lemma mac_probe_counts_every_sample_witness :
  CaptureProbeReport.callbacks (probe_report (ShareableDisplay.mk 1 2560 1440) "Main display" 60 760000000
    (fold_left observe_sample samples ProbeCounters.default)) = 2.
Proof.
  refine (proj1 (mac_probe_counts_every_sample samples (ShareableDisplay.mk 1 2560 1440) "Main display" 60 760000000 _ _)); [done|].
  constructor; [done|]. constructor; [|constructor]. intros rects [= <-]. unfold in_u. lia.
Defined.

Lemma mac_display_ids_round_trip_witness :
  exists status display id, snd (collect_status tt) = Ok status /\ In display (PlatformStatus.displays status) /\
    parse_display_id (Some (DisplaySource.id display)) = Ok (Some id).
Proof.
  destruct (collect_status tt) as [w r] eqn:Hrun. assert (Hr : exists status d l, r = Ok status /\ PlatformStatus.displays status = d :: l)
    by (vm_compute in Hrun; injection Hrun as _ <-; eexists _, _, _; split; reflexivity).
  destruct Hr as (status & d & l & -> & Hl). exists status, d.
  destruct (@mac_display_ids_round_trip unit two_displays tt tt w [1; 69733382] status d eq_refl) as (id & _ & Hid).
  - repeat constructor; vm_compute; congruence.
  - exact Hrun.
  - rewrite Hl. by left.
  - exists id. split; [reflexivity|]. split; [rewrite Hl; by left|exact Hid].
Defined.
End MacExamples.
