(* ===== verification/WinH264.v ===== *)
(** * H.264 data on Windows

    Models the parts of [apps/desktop/src-tauri/src/platform/windows/media_foundation.rs]
    that compute without Media Foundation: the encoder configuration and its
    checks, the synthetic NV12 frames of the encoder probe, and the search for
    Annex B start codes in encoded bytes. [WinEncoder] has the encoders. *)
From stdpp Require Import pretty.
From S2P Require Export WinCapture.
Local Open Scope string_scope.
Local Open Scope list_scope.
Local Open Scope Z_scope.

Definition HUNDRED_NANOSECONDS_PER_SECOND : Z := 10000000.

(** ** Configuration *)
Definition nv12_sample_size (width height : Z) : outcome string Z :=
  if (width =? 0) || (height =? 0) || negb (width mod 2 =? 0) || negb (height mod 2 =? 0)
  then Err "NV12 dimensions must be non-zero and even"
  else
    let! area := chk 64 (width * height) in
    let! scaled := chk 64 (area * 3) in
    ok_or (checked usize_bits (scaled / 2)) "NV12 frame is too large".

Module H264EncoderConfig.
Record t : Type := mk { width : Z; height : Z; fps : Z; bitrate : Z }.
#[global] Instance t_eq_dec : EqDecision t.
Proof. solve_decision. Defined.

(** The fields are [u32]. *)
Definition typed (self : t) : Prop :=
  in_u 32 (width self) /\ in_u 32 (height self) /\ in_u 32 (fps self) /\ in_u 32 (bitrate self).

Definition validate (self : t) : outcome string t :=
  let! _ := nv12_sample_size (width self) (height self) in
  if fps self =? 0 then Err "H.264 frame rate must be non-zero"
  else if bitrate self =? 0 then Err "H.264 bitrate must be non-zero"
  else Ok self.

Definition frame_duration_100ns (self : t) : outcome string Z :=
  div_i HUNDRED_NANOSECONDS_PER_SECOND (fps self).

(** What the encoder can work with. *)
Definition valid (self : t) : Prop :=
  0 < width self /\ width self mod 2 = 0 /\ 0 < height self /\ height self mod 2 = 0 /\ 0 < fps self /\ 0 < bitrate self.
End H264EncoderConfig.

Definition PROBE_CONFIG : H264EncoderConfig.t := H264EncoderConfig.mk 640 360 30 2000000.
Definition PROBE_FRAME_COUNT : Z := 8.
Definition PROBE_TIMEOUT : Z := Duration.from_secs 5.
Definition STREAM_EVENT_TIMEOUT : Z := Duration.from_secs 1.

Definition pack_u32_pair (high low : Z) : Z := Z.lor (Z.shiftl high 32) low.

(** ** The synthetic frame *)

(** [row[a..b].fill(v)]. *)
Definition fill_range {E} (l : list byte) (a b : Z) (v : byte) : outcome E (list byte) :=
  if (0 <=? a) && (a <=? b) && (b <=? zlen l)
  then Ok (take (Z.to_nat a) l ++ replicate (Z.to_nat (b - a)) v ++ drop (Z.to_nat b) l)
  else Fault Panicked.

(** [chunks_exact]: the whole chunks of [n] bytes, and the remainder. *)
Definition chunks_exact (n : nat) (l : list byte) : list (list byte) * list byte :=
  let count := (length l / n)%nat in
  (map (fun i => take n (drop (i * n) l)) (seq 0 count), drop (count * n) l).

Definition fill_row (row_index : Z) (row : list byte) (motion width bar_start bar_width : Z)
  : outcome string (list byte) :=
  let! moved := chk usize_bits (row_index + motion) in
  let luma := default 48 (checked 8 (moved mod 160 + 48)) in
  let row := replicate (length row) (byte_of_Z luma) in
  let first_end := Z.min (saturating_add usize_bits bar_start bar_width) width in
  let! row := fill_range row bar_start first_end xe0 in
  let wrapped := saturating_sub bar_width (saturating_sub first_end bar_start) in
  if 0 <? wrapped then fill_range row 0 (Z.min wrapped width) xe0 else Ok row.

Fixpoint fill_rows (row_index : Z) (rows : list (list byte)) (motion width bar_start bar_width : Z)
  : outcome string (list (list byte)) :=
  match rows with
  | [] => Ok []
  | row :: rows =>
    let! row := fill_row row_index row motion width bar_start bar_width in
    let! rows := fill_rows (row_index + 1) rows motion width bar_start bar_width in
    Ok (row :: rows)
  end.

Definition synthetic_nv12_frame (width height frame_index : Z) : outcome string (list byte) :=
  let! len := nv12_sample_size width height in
  let! area := chk 64 (width * height) in
  let! luma_len := ok_or (checked usize_bits area) "NV12 luma plane is too large" in
  let! width_usize := ok_or (checked usize_bits width) "width is too large" in
  let frame := replicate (Z.to_nat len) x80 in
  let motion := wrapping usize_bits (default 0 (checked usize_bits frame_index) * 13) in
  let bar_width := Z.max (width_usize / 12) 2 in
  let! bar_start := if width_usize =? 0 then Fault Panicked else Ok (motion mod width_usize) in
  let! luma := slice frame 0 (Z.to_nat luma_len) in
  let (rows, rest) := chunks_exact (Z.to_nat width_usize) luma in
  let! rows := fill_rows 0 rows motion width_usize bar_start bar_width in
  Ok (concat rows ++ rest ++ drop (Z.to_nat luma_len) frame).

(** ** Annex B *)

(** One unit of fuel per byte and one more: a turn advances the index. *)
Fixpoint count_nal_units (fuel : nat) (bytes : list byte) (count index : nat) : outcome string nat :=
  match fuel with
  | O => Fault OutOfFuel
  | S fuel =>
    if (index + 3 <=? length bytes)%nat then
      let! four :=
        if (index + 4 <=? length bytes)%nat
        then let! window := slice bytes index (index + 4) in
             Ok (bool_decide (window = [x00; x00; x00; x01]))
        else Ok false in
      if four : bool then count_nal_units fuel bytes (count + 1) (index + 4)
      else
        let! window := slice bytes index (index + 3) in
        if bool_decide (window = [x00; x00; x01]) then count_nal_units fuel bytes (count + 1) (index + 3)
        else count_nal_units fuel bytes count (index + 1)
    else Ok count
  end.
Definition count_annex_b_nal_units (bytes : list byte) : outcome string nat :=
  count_nal_units (S (length bytes)) bytes 0 0.

(** [slice::get] of a range. *)
Definition get_range (l : list byte) (a b : nat) : option (list byte) :=
  if (a <=? b)%nat && (b <=? length l)%nat then Some (take (b - a) (drop a l)) else None.

Definition nal_type_at (bytes : list byte) (index : nat) : option Z :=
  payload_index ←
    (if bool_decide (get_range bytes index (index + 4) = Some [x00; x00; x00; x01])
     then Some (index + 4)%nat
     else if bool_decide (get_range bytes index (index + 3) = Some [x00; x00; x01])
     then Some (index + 3)%nat
     else None);
  header ← bytes !! payload_index;
  Some (Z.land (byte_to_Z header) 0x1f).
Definition annex_b_nal_types (bytes : list byte) : list Z :=
  omap (nal_type_at bytes) (seq 0 (length bytes)).
Definition annex_b_contains_idr (bytes : list byte) : bool :=
  existsb (fun nal_type => nal_type =? 5) (annex_b_nal_types bytes).

(** ** What a probe learns from its batch *)
Module HardwareEncoder.
Record t : Type := mk { name : string; clsid : string; hardware_url : option string }.
#[global] Instance t_eq_dec : EqDecision t.
Proof. solve_decision. Defined.
End HardwareEncoder.

Module H264EncodeBatch.
Record t : Type := mk {
  encoder_name : string;
  access_units : list EncodedAccessUnit.t;
  frames_submitted : Z;
  elapsed_ms : Z;
}.
End H264EncodeBatch.

Module HardwareEncodeProbe.
Record t : Type := mk {
  encoder_name : string;
  width : Z;
  height : Z;
  frames_submitted : Z;
  access_units : Z;
  timestamped_access_units : Z;
  keyframes : Z;
  encoded_bytes : Z;
  nal_units : Z;
  elapsed_ms : Z;
}.
End HardwareEncodeProbe.

(** [Iterator::sum] of [usize]s, from [total] on. *)
Fixpoint sum_usize (total : Z) (l : list (outcome string Z)) : outcome string Z :=
  match l with
  | [] => Ok total
  | x :: l => let! x := x in let! total := chk usize_bits (total + x) in sum_usize total l
  end.

Definition total_bytes (units : list EncodedAccessUnit.t) : outcome string Z :=
  sum_usize 0 (map (fun unit_ => Ok (zlen (EncodedAccessUnit.bytes unit_))) units).
Definition total_nal_units (units : list EncodedAccessUnit.t) : outcome string Z :=
  sum_usize 0 (map (fun unit_ =>
    let! n := count_annex_b_nal_units (EncodedAccessUnit.bytes unit_) in Ok (Z.of_nat n)) units).

Definition timestamped (unit_ : EncodedAccessUnit.t) : bool :=
  bool_decide (is_Some (EncodedAccessUnit.timestamp_100ns unit_)) &&
  match EncodedAccessUnit.duration_100ns unit_ with Some duration => 0 <? duration | None => false end.

(** The second half of [probe_hardware_h264_encode]. *)
Definition summarize_probe (batch : H264EncodeBatch.t) : outcome string HardwareEncodeProbe.t :=
  let units := H264EncodeBatch.access_units batch in
  let! encoded_bytes := total_bytes units in
  let! nal_units := total_nal_units units in
  let timestamped_access_units := zlen (List.filter timestamped units) in
  let keyframes := zlen (List.filter EncodedAccessUnit.keyframe units) in
  if (encoded_bytes =? 0) || (nal_units =? 0)
  then Err ("encoder returned " +:+ pretty encoded_bytes +:+ " bytes and " +:+ pretty nal_units +:+
            " Annex B H.264 NAL units")
  else if negb (timestamped_access_units =? zlen units)
  then Err ("encoder timestamped only " +:+ pretty timestamped_access_units +:+ " of " +:+
            pretty (zlen units) +:+ " H.264 access units")
  else if keyframes =? 0
  then Err "encoder produced no independently decodable H.264 keyframe"
  else Ok (HardwareEncodeProbe.mk (H264EncodeBatch.encoder_name batch) (H264EncoderConfig.width PROBE_CONFIG)
             (H264EncoderConfig.height PROBE_CONFIG) (H264EncodeBatch.frames_submitted batch) (zlen units)
             timestamped_access_units keyframes encoded_bytes nal_units (H264EncodeBatch.elapsed_ms batch)).

(** ** The configuration *)
Lemma nv12_size_spec width height :
  in_u 32 width -> in_u 32 height -> 3 * (width * height) < 2 ^ 64 ->
  nv12_sample_size width height =
    if bool_decide (0 < width /\ width mod 2 = 0 /\ 0 < height /\ height mod 2 = 0)
    then Ok (3 * (width * height) / 2) else Err "NV12 dimensions must be non-zero and even".
Proof.
  intros Hw Hh Hprod. unfold nv12_sample_size, in_u in *.
  case_bool_decide as Hv.
  - destruct Hv as (? & ? & ? & ?).
    replace (_ || _ || _ || _)%bool with false by (symmetry; repeat rewrite orb_false_iff; rewrite !negb_false_iff; lia).
    rewrite chk_ok by (unfold in_u; nia). cbn [obind]. rewrite chk_ok by (unfold in_u; nia). cbn [obind].
    rewrite checked_in by (unfold in_u, usize_bits; split; [apply Z.div_pos; nia|apply Z.div_lt_upper_bound; nia]).
    by rewrite (Z.mul_comm _ 3).
  - case_match eqn:Hb; [done|]. bool_to_Z. destruct Hv. lia.
Qed.

Lemma validate_spec (c : H264EncoderConfig.t) :
  H264EncoderConfig.typed c -> 3 * (H264EncoderConfig.width c * H264EncoderConfig.height c) < 2 ^ 64 ->
  returns (H264EncoderConfig.validate c) /\
  (forall c', H264EncoderConfig.validate c = Ok c' <-> c' = c /\ H264EncoderConfig.valid c).
Proof.
  destruct c as [w h f b]. unfold H264EncoderConfig.typed, H264EncoderConfig.validate, H264EncoderConfig.valid. simpl.
  intros (Hw & Hh & Hf & Hb) Hprod. rewrite nv12_size_spec by done. unfold in_u in *. split.
  - repeat (case_match || case_bool_decide); done.
  - intros c'. case_bool_decide as Hd; simpl; [|split; [done|tauto]].
    destruct (Z.eqb_spec f 0), (Z.eqb_spec b 0); (split; [intros [= <-]|intros (-> & Hv)]);
      try done; try (split; [done|]); intuition lia.
Qed.

(** ** Start codes *)

(** The reference: a start code is [00 00 01], wherever it begins. *)
Definition start_code_at (bytes : list byte) (i : nat) : Prop :=
  take 3 (drop i bytes) = [x00; x00; x01].
#[export] Instance start_code_at_dec bytes i : Decision (start_code_at bytes i).
Proof. unfold start_code_at. apply _. Defined.
Definition start_codes (bytes : list byte) : list nat :=
  filter (start_code_at bytes) (seq 0 (length bytes)).

(** The start codes from [index] on. *)
Definition codes_from (bytes : list byte) (index : nat) : nat :=
  length (filter (start_code_at bytes) (seq index (length bytes - index))).

Lemma codes_step bytes index :
  (index < length bytes)%nat ->
  codes_from bytes index = ((if decide (start_code_at bytes index) then 1 else 0) + codes_from bytes (S index))%nat.
Proof.
  intros Hi. unfold codes_from. replace (length bytes - index)%nat with (S (length bytes - S index)) by lia.
  simpl. rewrite filter_cons. by case_decide.
Qed.

Lemma codes_end bytes index : (length bytes < index + 3)%nat -> codes_from bytes index = 0%nat.
Proof.
  intros Hi. unfold codes_from. enough (filter (start_code_at bytes) (seq index (length bytes - index)) = []) as -> by done.
  apply elem_of_nil_inv. intros i [Hc Hin%elem_of_seq]%list_elem_of_filter.
  unfold start_code_at in Hc. apply (f_equal length) in Hc. rewrite length_take, length_drop in Hc. cbn [length] in Hc. lia.
Qed.

Lemma codes_skip bytes index n :
  (forall k, (k < n)%nat -> ~ start_code_at bytes (index + k)) -> (index + n <= length bytes)%nat ->
  codes_from bytes index = codes_from bytes (index + n).
Proof.
  revert index. induction n as [|n IH]; intros index Hno Hl; [by rewrite Nat.add_0_r|].
  rewrite codes_step by lia. rewrite decide_False by (rewrite <-(Nat.add_0_r index); apply Hno; lia).
  rewrite Nat.add_0_l, IH; [f_equal; lia| |lia].
  intros k Hk. replace (S index + k)%nat with (index + S k)%nat by lia. apply Hno. lia.
Qed.

Lemma codes_hit bytes index n rest :
  drop index bytes = replicate n x00 ++ x00 :: x00 :: x01 :: rest -> (n <= 1)%nat ->
  codes_from bytes index = S (codes_from bytes (index + n + 3)).
Proof.
  intros Hd Hn.
  assert (Hlen : (index + n + 3 + length rest)%nat = length bytes).
  { apply (f_equal length) in Hd. rewrite length_drop, length_app, length_replicate in Hd. simpl in Hd. lia. }
  assert (Hat : forall k, drop (index + k) bytes = drop k (replicate n x00 ++ x00 :: x00 :: x01 :: rest)).
  { intros k. by rewrite <-Hd, drop_drop. }
  assert (Hno : forall k, (k < n + 3)%nat -> k <> n -> ~ start_code_at bytes (index + k)).
  { intros k Hk Hne. unfold start_code_at. rewrite Hat.
    destruct n as [|[|n]]; [| |lia]; repeat (destruct k as [|k]; simpl; try done; try lia). }
  rewrite (codes_skip bytes index n) by (try (intros k Hk; apply Hno); lia).
  rewrite codes_step by lia. rewrite decide_True.
  2: { unfold start_code_at. rewrite Hat. by destruct n as [|[|n]]; [| |lia]. }
  rewrite (codes_skip bytes (S (index + n)) 2).
  - simpl. do 2 f_equal. lia.
  - intros k Hk. replace (S (index + n) + k)%nat with (index + (n + S k))%nat by lia. apply Hno; lia.
  - lia.
Qed.

Lemma codes_miss bytes index :
  (index + 3 <= length bytes)%nat -> ~ start_code_at bytes index ->
  codes_from bytes index = codes_from bytes (index + 1).
Proof. intros Hl Hn. apply codes_skip; [|lia]. intros k Hk. by replace (index + k)%nat with index by lia. Qed.

Lemma drop_window (bytes : list byte) index n w :
  take n (drop index bytes) = w -> drop index bytes = w ++ drop (index + n) bytes.
Proof. intros <-. by rewrite <-drop_drop, take_drop. Qed.


Lemma count_nal_units_spec fuel bytes count index :
  (length bytes < fuel + index)%nat -> (index <= length bytes)%nat ->
  count_nal_units fuel bytes count index = Ok (count + codes_from bytes index)%nat.
Proof.
  revert count index. induction fuel as [|fuel IH]; intros count index Hf Hi; [lia|]. simpl.
  destruct (Nat.leb_spec (index + 3) (length bytes)) as [Hl|Hl]; [|rewrite codes_end by lia; f_equal; lia].
  rewrite (slice_ok _ index (index + 3)) by lia. replace (index + 3 - index)%nat with 3%nat by lia.
  assert (obind (if (index + 4 <=? length bytes)%nat
                 then let! window := slice bytes index (index + 4) in
                      Ok (bool_decide (window = [x00; x00; x00; x01]))
                 else Ok false)
          (fun four : bool => Ok (E:=string) four) = Ok (bool_decide (take 4 (drop index bytes) = [x00; x00; x00; x01])))
    as Hfour.
  { destruct (Nat.leb_spec (index + 4) (length bytes)).
    - rewrite slice_ok by lia. by replace (index + 4 - index)%nat with 4%nat by lia.
    - simpl. rewrite bool_decide_false; [done|]. intros H4. apply (f_equal length) in H4.
      rewrite length_take, length_drop in H4. cbn [length] in H4. lia. }
  apply obind_ok_inv in Hfour as (four & -> & [= ->]). cbn [obind].
  case_bool_decide as H4.
  - apply drop_window in H4.
    assert (index + 4 <= length bytes)%nat
      by (apply (f_equal length) in H4; rewrite length_drop in H4; simpl in H4; lia).
    rewrite IH by lia. rewrite (codes_hit bytes index 1 (drop (index + 4) bytes)) by (done || lia).
    f_equal. replace (index + 1 + 3)%nat with (index + 4)%nat; lia.
  - case_bool_decide as H3.
    + apply drop_window in H3. rewrite IH by lia.
      rewrite (codes_hit bytes index 0 (drop (index + 3) bytes)) by (done || lia).
      f_equal. rewrite Nat.add_0_r. lia.
    + rewrite IH by lia. by rewrite (codes_miss bytes index) by (lia || exact H3).
Qed.

Lemma count_nal_units_ok bytes : count_annex_b_nal_units bytes = Ok (length (start_codes bytes)).
Proof.
  unfold count_annex_b_nal_units. rewrite count_nal_units_spec by lia.
  unfold codes_from, start_codes. by rewrite Nat.sub_0_r.
Qed.

Lemma get_range_window bytes index n w :
  length w = n -> (0 < n)%nat -> (get_range bytes index (index + n) = Some w <-> take n (drop index bytes) = w).
Proof.
  intros Hw Hn. unfold get_range. replace (index + n - index)%nat with n by lia.
  destruct (Nat.leb_spec index (index + n)); [|lia]. simpl.
  destruct (Nat.leb_spec (index + n) (length bytes)); [split; [by intros [= ->]|by intros ->]|]. split; [done|].
  intros H4. apply (f_equal length) in H4. rewrite length_take, length_drop in H4. lia.
Qed.

Lemma nal_type_at_spec bytes index nal :
  nal_type_at bytes index = Some nal ->
  exists i header, start_code_at bytes i /\ bytes !! (i + 3)%nat = Some header /\ nal = Z.land (byte_to_Z header) 0x1f.
Proof.
  unfold nal_type_at, start_code_at. intros (payload & Hp & (header & Hh & [= <-])%bind_Some)%bind_Some.
  case_bool_decide as H4; [|case_bool_decide as H3; [|done]]; injection Hp as <-.
  - apply get_range_window in H4; [|done|lia]. apply drop_window in H4. exists (index + 1)%nat, header.
    rewrite <-drop_drop, H4. split_and!; [done| |done]. rewrite <-Hh. f_equal. lia.
  - apply get_range_window in H3; [|done|lia]. exists index, header. by rewrite H3.
Qed.

Lemma nal_type_at_code bytes index header :
  start_code_at bytes index -> bytes !! (index + 3)%nat = Some header ->
  nal_type_at bytes index = Some (Z.land (byte_to_Z header) 0x1f).
Proof.
  unfold nal_type_at, start_code_at. intros H3 Hh. apply drop_window in H3 as Hd.
  rewrite bool_decide_false; [|intros H4%get_range_window; [by rewrite Hd in H4|done|lia]].
  rewrite bool_decide_true by (apply get_range_window; [done|lia|done]). simpl. by rewrite Hh.
Qed.

Lemma contains_idr_spec bytes :
  annex_b_contains_idr bytes = true <->
  exists i header, start_code_at bytes i /\ bytes !! (i + 3)%nat = Some header /\ Z.land (byte_to_Z header) 0x1f = 5.
Proof.
  unfold annex_b_contains_idr, annex_b_nal_types. rewrite existsb_exists. setoid_rewrite <-list_elem_of_In.
  setoid_rewrite list_elem_of_omap. split.
  - intros (nal & (index & _ & Hnal) & ->%Z.eqb_eq). apply nal_type_at_spec in Hnal as (i & header & Hs & Hh & ->).
    eauto.
  - intros (i & header & Hs & Hh & Hnal). exists 5. split; [|done]. exists i. split.
    + apply elem_of_seq. apply lookup_lt_Some in Hh. lia.
    + by rewrite (nal_type_at_code _ _ header), Hnal.
Qed.

(** ** The synthetic frame *)

(** The reference: the brightness of pixel [x] of row [y]. *)
Definition synthetic_luma (width motion x y : Z) : byte :=
  if (x - motion) mod width <? Z.max (width / 12) 2 then xe0 else byte_of_Z ((y + motion) mod 160 + 48).

Lemma fill_range_lookup {E} l a b v :
  0 <= a <= b -> b <= zlen l ->
  exists l', fill_range (E:=E) l a b v = Ok l' /\ length l' = length l /\
    (forall i, 0 <= i < zlen l ->
       l' !! Z.to_nat i = if (a <=? i) && (i <? b) then Some v else l !! Z.to_nat i).
Proof.
  intros Hab Hb. unfold fill_range. replace (_ && _ && _)%bool with true by (symmetry; rewrite !andb_true_iff; lia).
  eexists. split; [done|]. split.
  { rewrite !length_app, length_take, length_replicate, length_drop. lia. }
  intros i Hi. destruct (Z.leb_spec a i), (Z.ltb_spec i b); simpl.
  - rewrite lookup_app_r by (rewrite length_take; lia). rewrite lookup_app_l by (rewrite length_replicate, length_take; lia).
    apply lookup_replicate_2. rewrite length_take. lia.
  - rewrite lookup_app_r by (rewrite length_take; lia). rewrite length_take.
    rewrite lookup_app_r by (rewrite length_replicate; lia). rewrite length_replicate, lookup_drop. f_equal. lia.
  - rewrite lookup_app_l by (rewrite length_take; lia). apply lookup_take_lt. lia.
  - lia.
Qed.

(** Whether a position lies in the bar, which wraps around the row. *)
Lemma bar_wraps width motion x bar :
  0 <= x < width -> 0 < bar <= width ->
  let start := motion mod width in
  ((x - motion) mod width <? bar) =
    ((start <=? x) && (x <? Z.min (start + bar) width)) || (x <? bar - (Z.min (start + bar) width - start)).
Proof.
  intros Hx Hbar start. pose proof (Z.mod_pos_bound motion width ltac:(lia)) as Hs.
  rewrite <-Zminus_mod_idemp_r. fold start in Hs |- *. destruct (Z.leb_spec start x).
  - rewrite (Z.mod_small (x - start)) by lia.
    apply eq_bool_prop_intro. rewrite !Is_true_true, orb_true_iff, andb_true_iff. lia.
  - rewrite <-(Z.mod_add (x - start) 1 width) by lia. rewrite (Z.mod_small (x - start + 1 * width)) by lia.
    apply eq_bool_prop_intro. rewrite !Is_true_true, orb_true_iff, andb_true_iff. lia.
Qed.

Lemma fill_row_spec y row motion width :
  2 <= width < 2 ^ 32 -> zlen row = width -> 0 <= y < 2 ^ 32 -> 0 <= motion < 2 ^ 40 ->
  exists row', fill_row y row motion width (motion mod width) (Z.max (width / 12) 2) = Ok row' /\
    zlen row' = width /\
    (forall x, 0 <= x < width -> row' !! Z.to_nat x = Some (synthetic_luma width motion x y)).
Proof.
  intros Hw Hrow Hy Hm. unfold fill_row. pose proof (Z.mod_pos_bound motion width ltac:(lia)) as Hs.
  assert (0 < Z.max (width / 12) 2 <= width) as Hbar by (pose proof (Z.div_le_upper_bound width 12 width); lia).
  unfold synthetic_luma. set (bar := Z.max (width / 12) 2) in *. set (start := motion mod width) in *.
  rewrite chk_ok by (unfold in_u, usize_bits; lia). cbn [obind].
  pose proof (Z.mod_pos_bound (y + motion) 160 ltac:(lia)).
  rewrite checked_in by (unfold in_u; lia). cbn [from_option id].
  set (v := byte_of_Z ((y + motion) mod 160 + 48)).
  rewrite saturating_add_exact by (unfold usize_bits; lia).
  set (fe := Z.min (start + bar) width).
  destruct (fill_range_lookup (E:=string) (replicate (length row) v) start fe xe0) as (r1 & -> & Hl1 & H1);
    [lia|rewrite length_replicate; lia|]. rewrite length_replicate in Hl1, H1. cbn [obind].
  assert (saturating_sub bar (saturating_sub fe start) = bar - (fe - start)) as ->
    by (unfold saturating_sub; lia).
  assert (forall x, 0 <= x < width -> r1 !! Z.to_nat x = Some (if (start <=? x) && (x <? fe) then xe0 else v)) as H1'.
  { intros x Hx. rewrite H1 by lia. case_match; [done|]. apply lookup_replicate_2. lia. }
  assert (forall x, 0 <= x < width -> ((x - motion) mod width <? bar) =
    ((start <=? x) && (x <? fe)) || (x <? bar - (fe - start))) as Hluma
    by (intros; by apply bar_wraps).
  destruct (Z.ltb_spec 0 (bar - (fe - start))).
  - destruct (fill_range_lookup (E:=string) r1 0 (Z.min (bar - (fe - start)) width) xe0) as (r2 & -> & Hl2 & H2);
      [lia..|]. exists r2. split_and!; [done|lia|]. intros x Hx. rewrite H2, H1', Hluma by lia.
    destruct (Z.leb_spec 0 x); [|lia]. simpl. rewrite orb_comm.
    destruct (Z.ltb_spec x (Z.min (bar - (fe - start)) width)), (Z.ltb_spec x (bar - (fe - start))); (done || lia).
  - exists r1. split_and!; [done|lia|]. intros x Hx. rewrite H1', Hluma by lia.
    destruct (Z.ltb_spec x (bar - (fe - start))); [lia|]. by rewrite orb_false_r.
Qed.

Lemma fill_rows_spec rows y motion width :
  2 <= width < 2 ^ 32 -> Forall (fun row => zlen row = width) rows -> 0 <= y ->
  y + zlen rows <= 2 ^ 32 -> 0 <= motion < 2 ^ 40 ->
  exists rows', fill_rows y rows motion width (motion mod width) (Z.max (width / 12) 2) = Ok rows' /\
    length rows' = length rows /\ Forall (fun row => zlen row = width) rows' /\
    (forall k x row, rows' !! k = Some row -> 0 <= x < width ->
       row !! Z.to_nat x = Some (synthetic_luma width motion x (y + Z.of_nat k))).
Proof.
  intros Hw Hrows. revert y. induction Hrows as [|row rows Hrow Hrows IH]; intros y Hy Hlen Hm; simpl in *.
  { exists []. by split_and!. }
  destruct (fill_row_spec y row motion width) as (row' & -> & Hl & Hrow'); [lia..|]. cbn [obind].
  destruct (IH (y + 1)) as (rows' & -> & Hl' & Hall & Hrows'); [lia..|]. cbn [obind].
  exists (row' :: rows'). split_and!; [done|simpl; lia|by constructor|].
  intros [|k] x r; simpl; [intros [= <-] Hx|intros Hk Hx].
  - rewrite Z.add_0_r. by apply Hrow'.
  - rewrite (Hrows' k) by done. do 2 f_equal. lia.
Qed.

Lemma concat_lookup {A} (n : nat) (rows : list (list A)) k x row :
  Forall (fun row => length row = n) rows -> rows !! k = Some row -> (x < n)%nat ->
  concat rows !! (k * n + x)%nat = row !! x.
Proof.
  intros Hall. revert k. induction Hall as [|r rows Hr Hall IH]; intros k Hk Hx; [done|].
  destruct k as [|k]; simpl in *.
  - injection Hk as ->. apply lookup_app_l. lia.
  - rewrite lookup_app_r by lia. rewrite <-(IH k) by done. f_equal. lia.
Qed.

Lemma concat_length {A} (n : nat) (rows : list (list A)) :
  Forall (fun row => length row = n) rows -> length (concat rows) = (length rows * n)%nat.
Proof. induction 1 as [|r rows Hr _ IH]; simpl; [done|]. rewrite length_app. lia. Qed.

(** Chunks of a list that is a whole number of them. *)
Lemma chunks_exact_spec n k l :
  length l = (k * n)%nat -> (0 < n)%nat ->
  exists rows, chunks_exact n l = (rows, []) /\ length rows = k /\ Forall (fun row => length row = n) rows.
Proof.
  intros Hl Hn. unfold chunks_exact. rewrite Hl, Nat.div_mul by lia.
  rewrite drop_ge by lia. eexists. split; [done|]. rewrite length_map, length_seq. split; [done|].
  apply Forall_map, Forall_seq. intros i Hi. unfold compose. rewrite length_take, length_drop, Hl. nia.
Qed.

(** For a frame whose size is even and not too large, the synthetic frame is
    returned, without a panic; it has [3 * width * height / 2] bytes, each pixel of
    the luma plane is the moving bar or the row's shade, and the chroma plane is
    neutral. *)
Theorem synthetic_frame_is_exact width height frame_index
  (Hw : 0 < width < 2 ^ 32) (Ew : width mod 2 = 0) (Hh : 0 < height < 2 ^ 32) (Eh : height mod 2 = 0)
  (Hi : in_u 32 frame_index) (Hfit : 3 * (width * height) < 2 ^ 64) :
  exists frame, synthetic_nv12_frame width height frame_index = Ok frame /\
    2 * zlen frame = 3 * (width * height) /\
    (forall x y, 0 <= x < width -> 0 <= y < height ->
       frame !! Z.to_nat (y * width + x) = Some (synthetic_luma width (13 * frame_index) x y)) /\
    (forall i, width * height <= i < zlen frame -> frame !! Z.to_nat i = Some x80).
Proof.
  unfold synthetic_nv12_frame, in_u in *. rewrite nv12_size_spec by (done || (unfold in_u; lia)).
  rewrite bool_decide_true by lia. cbn [obind].
  rewrite chk_ok by (unfold in_u; nia). cbn [obind].
  rewrite checked_in by (unfold in_u, usize_bits; nia). cbn [obind ok_or].
  rewrite checked_in by (unfold in_u, usize_bits; lia). cbn [obind ok_or].
  rewrite checked_in by (unfold in_u, usize_bits; lia). cbn [obind from_option id].
  rewrite wrapping_small by (unfold in_u, usize_bits; lia). rewrite (Z.mul_comm frame_index).
  destruct (Z.eqb_spec width 0); [lia|]. cbn [obind].
  assert (2 <= width) as Hw2 by (assert (width <> 1) by (by intros ->); lia).
  pose proof (Z.div_mod (3 * (width * height)) 2 ltac:(lia)) as Hdm.
  assert ((3 * (width * height)) mod 2 = 0) as Hmod.
  { rewrite (Z.div_mod width 2) by lia. rewrite Ew, Z.add_0_r.
    replace (3 * (2 * (width / 2) * height)) with (3 * (width / 2) * height * 2) by ring. by apply Z.mod_mul. }
  set (size := 3 * (width * height) / 2) in *.
  rewrite slice_ok by (rewrite length_replicate; nia). cbn [obind]. rewrite drop_0, Nat.sub_0_r, take_replicate.
  rewrite Nat.min_l by nia.
  destruct (chunks_exact_spec (Z.to_nat width) (Z.to_nat height) (replicate (Z.to_nat (width * height)) x80))
    as (rows & -> & Hrows & Hall); [rewrite length_replicate; nia|lia|].
  destruct (fill_rows_spec rows 0 (13 * frame_index) width) as (rows' & -> & Hlen & Hall' & Hpix);
    [lia|eapply Forall_impl; [exact Hall|]; simpl; lia|lia..|]. cbn [obind].
  assert (Forall (fun row => length row = Z.to_nat width) rows') as Hall''
    by (eapply Forall_impl; [exact Hall'|]; simpl; lia).
  pose proof (concat_length _ _ Hall'') as Hcl. eexists. split; [done|]. simpl. rewrite drop_replicate. split_and!.
  - rewrite length_app, length_replicate. nia.
  - intros x y Hx Hy. rewrite lookup_app_l by nia. destruct (lookup_lt_is_Some_2 rows' (Z.to_nat y)) as [row Hrow]; [lia|].
    replace (Z.to_nat (y * width + x)) with (Z.to_nat y * Z.to_nat width + Z.to_nat x)%nat by nia.
    rewrite (concat_lookup _ _ _ _ row) by (done || lia). rewrite (Hpix (Z.to_nat y) x row) by done.
    do 2 f_equal. lia.
  - intros i Hi'. rewrite length_app, length_replicate in Hi'. rewrite lookup_app_r by nia. apply lookup_replicate_2. nia.
Qed.

Lemma synthetic_frame_is_exact_witness :
  exists frame, synthetic_nv12_frame 4 2 3 = Ok frame /\ frame !! 3%nat = Some xe0.
Proof.
  destruct (synthetic_frame_is_exact 4 2 3 ltac:(lia) eq_refl ltac:(lia) eq_refl ltac:(unfold in_u; lia) ltac:(lia))
    as (frame & Hf & _ & Hpix & _).
  exists frame. split; [exact Hf|]. exact (Hpix 3 0 ltac:(lia) ltac:(lia)).
Defined.

(** ** The probe's summary *)

Lemma contains_idr_codes bytes :
  annex_b_contains_idr bytes = true <->
  exists i header, i ∈ start_codes bytes /\ bytes !! (i + 3)%nat = Some header /\
    Z.land (byte_to_Z header) 0x1f = 5.
Proof.
  rewrite contains_idr_spec. unfold start_codes. split.
  - intros (i & header & Hs & Hh & H5). exists i, header. split; [|done].
    apply list_elem_of_filter. split; [done|]. apply elem_of_seq. apply lookup_lt_Some in Hh. lia.
  - intros (i & header & [Hs _]%list_elem_of_filter & Hh & H5). eauto.
Qed.

(** The two searches of Annex B bytes never panic and agree with the
    reference: the count is the number of places where [00 00 01] begins, and a
    picture that stands alone is found exactly if one of them is followed by a
    header of type 5. *)
Theorem annex_b_search_is_exact bytes :
  count_annex_b_nal_units bytes = Ok (length (start_codes bytes)) /\
  (annex_b_contains_idr bytes = true <->
   exists i header, i ∈ start_codes bytes /\ bytes !! (i + 3)%nat = Some header /\
     Z.land (byte_to_Z header) 0x1f = 5).
Proof. split; [apply count_nal_units_ok|apply contains_idr_codes]. Qed.

Definition all_bytes (units : list EncodedAccessUnit.t) : list byte := concat (map EncodedAccessUnit.bytes units).
Definition all_codes (units : list EncodedAccessUnit.t) : Z :=
  zlen (concat (map (fun unit_ => start_codes (EncodedAccessUnit.bytes unit_)) units)).


Lemma sum_usize_ok {A} (f : A -> outcome string Z) (g : A -> Z) (l : list A) total :
  (forall a, f a = Ok (g a)) -> (forall a, 0 <= g a) -> 0 <= total ->
  total + foldr Z.add 0 (map g l) < 2 ^ 64 ->
  sum_usize total (map f l) = Ok (total + foldr Z.add 0 (map g l)).
Proof.
  intros Hf Hg. revert total. induction l as [|a l IH]; intros total Ht Hs; simpl in *; [f_equal; lia|].
  rewrite Hf. cbn [obind].
  assert (0 <= foldr Z.add 0 (map g l)) by (clear -Hg; induction l; simpl; [lia|]; pose proof (Hg a); lia).
  pose proof (Hg a). rewrite chk_ok by (unfold in_u, usize_bits; lia). cbn [obind].
  rewrite IH by lia. f_equal. lia.
Qed.

Lemma zlen_concat {A B} (f : A -> list B) (l : list A) :
  zlen (concat (map f l)) = foldr Z.add 0 (map (fun a => zlen (f a)) l).
Proof. induction l; simpl; [done|]. rewrite length_app. lia. Qed.

Lemma total_bytes_ok units : zlen (all_bytes units) < 2 ^ 64 -> total_bytes units = Ok (zlen (all_bytes units)).
Proof.
  unfold all_bytes, total_bytes. rewrite zlen_concat. intros H.
  rewrite (sum_usize_ok _ (fun u => zlen (EncodedAccessUnit.bytes u))); [done|done|lia..].
Qed.

Lemma codes_at_most_bytes units : all_codes units <= zlen (all_bytes units).
Proof.
  unfold all_codes, all_bytes. rewrite !zlen_concat. induction units as [|u units IH]; simpl; [lia|].
  unfold start_codes at 1. pose proof (length_filter (start_code_at (EncodedAccessUnit.bytes u))
    (seq 0 (length (EncodedAccessUnit.bytes u)))) as Hl. rewrite length_seq in Hl. lia.
Qed.

Lemma total_nal_units_ok units : zlen (all_bytes units) < 2 ^ 64 -> total_nal_units units = Ok (all_codes units).
Proof.
  intros H. pose proof (codes_at_most_bytes units) as Hc. revert Hc. unfold total_nal_units, all_codes.
  rewrite zlen_concat. intros Hc.
  rewrite (sum_usize_ok _ (fun u => zlen (start_codes (EncodedAccessUnit.bytes u)))); [done| |lia..].
  intros u. by rewrite count_nal_units_ok.
Qed.

Lemma filter_all_length {A} (f : A -> bool) l :
  length (List.filter f l) = length l <-> Forall (fun a => f a = true) l.
Proof.
  induction l as [|a l IH]; simpl; [by split; [constructor|]|]. rewrite Forall_cons, <-IH.
  pose proof (filter_length_le f l). destruct (f a); simpl; intuition (lia || done).
Qed.

Lemma filter_some_length {A} (f : A -> bool) l :
  length (List.filter f l) <> 0%nat <-> Exists (fun a => f a = true) l.
Proof.
  induction l as [|a l IH]; simpl; [by rewrite Exists_nil|]. rewrite Exists_cons, <-IH.
  destruct (f a); simpl; intuition (lia || done).
Qed.

(** The probe of an encoder passes exactly if every access unit carries a
    timestamp and a positive duration, some unit is a keyframe and some unit holds
    a start code, and its report counts them. *)
Theorem probe_passes_exactly batch
  (Hsize : zlen (all_bytes (H264EncodeBatch.access_units batch)) < 2 ^ 64) :
  let units := H264EncodeBatch.access_units batch in
  returns (summarize_probe batch) /\
  (succeeds (summarize_probe batch) <->
   Forall (fun u => timestamped u = true) units /\ Exists (fun u => EncodedAccessUnit.keyframe u = true) units /\
   0 < all_codes units) /\
  (forall report, summarize_probe batch = Ok report ->
     HardwareEncodeProbe.access_units report = zlen units /\
     HardwareEncodeProbe.timestamped_access_units report = zlen units /\
     HardwareEncodeProbe.keyframes report = zlen (List.filter EncodedAccessUnit.keyframe units) /\
     HardwareEncodeProbe.encoded_bytes report = zlen (all_bytes units) /\
     HardwareEncodeProbe.nal_units report = all_codes units).
Proof.
  intros units. unfold summarize_probe. fold units in Hsize |- *.
  rewrite total_bytes_ok, total_nal_units_ok by done. cbn [obind].
  pose proof (codes_at_most_bytes units) as Hc.
  rewrite <-filter_all_length, <-filter_some_length. assert (0 <= all_codes units) by (unfold all_codes; lia).
  unfold succeeds.
  destruct (Z.eqb_spec (zlen (all_bytes units)) 0), (Z.eqb_spec (all_codes units) 0); simpl;
    try (split_and!; [done|split; [by intros [? ?]|lia]|done]).
  destruct (Z.eqb_spec (zlen (List.filter timestamped units)) (zlen units)) as [Ht|Ht]; simpl;
    [|split_and!; [done|split; [by intros [? ?]|lia]|done]].
  destruct (Z.eqb_spec (zlen (List.filter EncodedAccessUnit.keyframe units)) 0); simpl;
    [split_and!; [done|split; [by intros [? ?]|lia]|done]|].
  split_and!; [done|split; [intros _; lia|by eexists]|].
  intros report [= <-]. by split_and!.
Qed.

Definition key_unit : EncodedAccessUnit.t :=
  EncodedAccessUnit.mk [x00; x00; x01; x65] (Some 0) (Some 333333) true.
Definition key_batch : H264EncodeBatch.t := H264EncodeBatch.mk "encoder" [key_unit] 1 20.

Lemma probe_passes_exactly_witness : succeeds (summarize_probe key_batch) /\ all_codes [key_unit] = 1.
Proof.
  split; [|by vm_compute].
  destruct (probe_passes_exactly key_batch ltac:(by vm_compute)) as (_ & Hiff & _).
  apply Hiff. split_and!; [by repeat constructor|by constructor|by vm_compute].
Defined.

(** Validation accepts a configuration unchanged exactly if its size is
    positive and even and its rates are positive, and it returns whenever the
    frame's bytes can be counted. *)
Theorem validation_is_exact c (Htyped : H264EncoderConfig.typed c)
  (Hfit : 3 * (H264EncoderConfig.width c * H264EncoderConfig.height c) < 2 ^ 64) :
  returns (H264EncoderConfig.validate c) /\
  (forall c', H264EncoderConfig.validate c = Ok c' <-> c' = c /\ H264EncoderConfig.valid c).
Proof. by apply validate_spec. Qed.

Lemma validation_is_exact_witness : H264EncoderConfig.validate PROBE_CONFIG = Ok PROBE_CONFIG.
Proof.
  apply (validation_is_exact PROBE_CONFIG).
  - by vm_compute.
  - by vm_compute.
  - split; [reflexivity|by vm_compute].
Defined.

Example three_start_codes :
  let stream := [x00; x00; x00; x01; x67; x01; x02; x00; x00; x01; x68; x03; x00; x00; x00; x01; x65] in
  count_annex_b_nal_units stream = Ok 3%nat /\ annex_b_contains_idr stream = true.
Proof. by vm_compute. Qed.
