(* ===== verification/WinEncoder.v ===== *)
(** * The Windows hardware encoders

    Models the rest of [apps/desktop/src-tauri/src/platform/windows/media_foundation.rs]:
    the choice of an encoder, its configuration, the synchronous and asynchronous
    exchange of samples, and the cleanup. Media Foundation is the class [MediaOs],
    whose calls act on the world [W]; an encoder is named by the number of its
    activation. The code's two encoders are [encode_synthetic_h264], a batch that
    probes the hardware, and [HardwareH264Encoder], the live one. *)
From stdpp Require Import pretty.
From S2P Require Export RustIo RustText WinH264.
Local Open Scope string_scope.
Local Open Scope list_scope.
Local Open Scope Z_scope.

(** ** Media Foundation *)

(** A failed call: its code, where the code looks at it, and its text. *)
Module WinError.
Inductive code : Type :=
| MF_E_NO_EVENTS_AVAILABLE
| MF_E_TRANSFORM_NEED_MORE_INPUT
| MF_E_TRANSFORM_STREAM_CHANGE
| Other.
#[global] Instance code_eq_dec : EqDecision code.
Proof. solve_decision. Defined.
Record t : Type := mk { error_code : code; message : string }.
End WinError.

Inductive MFT_MESSAGE : Type :=
| COMMAND_DRAIN
| COMMAND_FLUSH
| NOTIFY_BEGIN_STREAMING
| NOTIFY_END_OF_STREAM
| NOTIFY_END_STREAMING
| NOTIFY_START_OF_STREAM
| SET_D3D_MANAGER (attached : bool).
#[export] Instance message_eq_dec : EqDecision MFT_MESSAGE.
Proof. solve_decision. Defined.

Inductive Subtype : Type :=
| MFVideoFormat_H264
| MFVideoFormat_NV12.
#[export] Instance subtype_eq_dec : EqDecision Subtype.
Proof. solve_decision. Defined.

(** An attribute of a media type and the value the code gives it. The two
    conversions of constants to [u32] succeed. *)
Inductive Attribute : Type :=
| MAJOR_TYPE_Video
| SUBTYPE (subtype : Subtype)
| FRAME_SIZE (packed : Z)
| FRAME_RATE (packed : Z)
| PIXEL_ASPECT_RATIO (packed : Z)
| INTERLACE_MODE_Progressive
| FIXED_SIZE_SAMPLES (v : Z)
| ALL_SAMPLES_INDEPENDENT (v : Z)
| SAMPLE_SIZE (v : Z)
| AVG_BITRATE (v : Z)
| MPEG2_PROFILE_Main.
#[export] Instance attribute_eq_dec : EqDecision Attribute.
Proof. solve_decision. Defined.
Definition MediaType : Type := list Attribute.

Inductive CodecProperty : Type :=
| LowLatencyMode (v : bool)
| DefaultBPictureCount (v : Z)
| MPVGOPSize (v : Z).
#[export] Instance codec_property_eq_dec : EqDecision CodecProperty.
Proof. solve_decision. Defined.

(** What goes into an encoder: bytes of the code's own, or a texture, named by
    its number. *)
Inductive Content : Type :=
| Bytes (bytes : list byte)
| Texture (id : nat).
Module InputSample.
Record t : Type := mk { content : Content; time : Z; duration : Z }.
End InputSample.

(** The calls that only succeed or fail. *)
Inductive MfCall : Type :=
| ActivateObject
| ShutdownObject
| GetAttributes
| SetAsyncUnlock
| CreateD3d11Device
| ResetDevice
| ProcessMessage (message : MFT_MESSAGE)
| CreateMediaType
| SetAttribute (a : Attribute)
| SetOutputType (media_type : MediaType)
| SetInputType (media_type : MediaType)
| CastCodecApi
| IsSupported (property : CodecProperty)
| SetValue (property : CodecProperty)
| CastEventGenerator
| CreateSample
| CreateMemoryBuffer (size : Z)
| CreateSurfaceBuffer (texture : nat)
| AddBuffer
| UnlockBuffer
| SetCurrentLength (length : Z)
| SetSampleTime (time : Z)
| SetSampleDuration (duration : Z)
| ProcessInput (sample : InputSample.t).

(** An encoded sample answers for its contiguous buffer, the buffer's length, its
    locked bytes (none where the pointer is null), its unlocking and its attributes. *)
Module OutputSample.
Record t : Type := mk {
  contiguous : outcome string unit;
  current_length : outcome string Z;
  locked : outcome string (option (list byte));
  unlocked : outcome string unit;
  clean_point : outcome string Z;
  time : outcome string Z;
  duration : outcome string Z;
}.
End OutputSample.

Module ProcessOutput.
Record t : Type := mk {
  result : outcome WinError.t unit;
  sample : option OutputSample.t;
  process_status : Z;
  buffer_status : Z;
}.
End ProcessOutput.

Module StreamInfo.
Record t : Type := mk { dwFlags : Z; cbSize : Z; cbAlignment : Z }.
End StreamInfo.

Inductive EventType : Type :=
| METransformNeedInput
| METransformHaveOutput
| METransformDrainComplete
| METransformOther (value : Z).
#[export] Instance event_type_eq_dec : EqDecision EventType.
Proof. solve_decision. Defined.

Module MediaEvent.
(** [GetStatus], the status as a result, and [GetType]. *)
Record t : Type := mk {
  status : outcome string (outcome string unit);
  kind : outcome string EventType;
}.
End MediaEvent.

(** An enumerated encoder. A string attribute is its UTF-16 units, or a null
    pointer; [clsid] is the debug text of the identifier. *)
Module Activation.
Record t : Type := mk {
  id : nat;
  friendly_name : outcome string (option (list Z));
  clsid : outcome string string;
  hardware_url : outcome string (option (list Z));
}.
End Activation.

(** The array of [MFTEnumEx]: nothing where its pointer is null. *)
Module EncoderArray.
Record t : Type := mk { pointer : option (list (option Activation.t)); count : Z }.
End EncoderArray.

Inductive TransformAttribute : Type :=
| MF_SA_D3D11_AWARE
| MF_TRANSFORM_ASYNC.

Class MediaConstants : Type := {
  MFT_OUTPUT_STREAM_PROVIDES_SAMPLES : Z;
  MFT_OUTPUT_STREAM_CAN_PROVIDE_SAMPLES : Z;
  DXGI_FORMAT_NV12 : Z;
}.

Class MediaOs (W : Type) : Type := {
  call : nat -> MfCall -> W -> W * outcome string unit;
  enum_encoders : W -> W * outcome string EncoderArray.t;
  transform_u32 : nat -> TransformAttribute -> W -> W * outcome string Z;
  (** Whether the manager it makes is there. *)
  create_dxgi_manager : nat -> W -> W * outcome string bool;
  (** Whether the pointer is null, and the capacity. *)
  lock_buffer : nat -> W -> W * outcome string (bool * Z);
  get_event : nat -> W -> W * outcome WinError.t MediaEvent.t;
  output_stream_info : nat -> W -> W * outcome string StreamInfo.t;
  (** With the size of the caller's sample, if any. *)
  process_output : nat -> option Z -> W -> W * ProcessOutput.t;
  output_available_type : nat -> Z -> W -> W * outcome string MediaType;
  media_now : W -> W * Z;
  media_sleep : Z -> W -> W;
}.

(** ** The list of encoders *)

Definition allocated_string (attribute : outcome string (option (list Z))) : outcome string string :=
  let! units := attribute in
  Ok (match units with None => "" | Some units => text (from_utf16_lossy units) end).

Definition format_guid (debug_text : string) : string := to_ascii_lowercase debug_text.

Definition ok {E A} (m : outcome E A) : option A := match m with Ok a => Some a | _ => None end.

Definition hardware_encoder_metadata (activation : Activation.t) : HardwareEncoder.t :=
  HardwareEncoder.mk
    (default "Unnamed Media Foundation encoder" (ok (allocated_string (Activation.friendly_name activation))))
    (default "unknown" (option_map format_guid (ok (Activation.clsid activation))))
    (ok (allocated_string (Activation.hardware_url activation))).

(** [ActivationArray::new] and [take_all]. *)
Definition take_all (array : EncoderArray.t) : outcome string (list Activation.t) :=
  let! len := ok_or (checked usize_bits (EncoderArray.count array)) "encoder count is too large" in
  match EncoderArray.pointer array with
  | Some elements => Ok (omap id elements)
  | None => if len =? 0 then Ok [] else Err "Media Foundation returned a null encoder array"
  end.

Definition activation_name (activation : Activation.t) : string :=
  HardwareEncoder.name (hardware_encoder_metadata activation).
Definition sort_activations : list Activation.t -> list Activation.t :=
  sort_by (fun a b => string_le (activation_name a) (activation_name b)).

Definition contains (needle hay : string) : bool :=
  match String.index 0 needle hay with Some _ => true | None => false end.
Definition alternate_hex (x : Z) : string := "0x" +:+ Fmt.hex (Z.to_nat (Z.log2 x / 4 + 1)) x.

(** [Instant::elapsed], which saturates. *)
Definition elapsed_since (started now : Z) : Z := Duration.saturating_sub now started.
Definition millis_u64 (duration : Z) : Z := default (u_max 64) (checked 64 (Duration.as_millis duration)).

Section operations.
Context {W : Type} `{MediaConstants} `{MediaOs W}.
Implicit Types (tr : nat) (config : H264EncoderConfig.t).

Definition labelled {A} (label : string) (m : io W string A) : io W string A :=
  imap_err (fun error => label +:+ ": " +:+ error) m.
Definition ignored (m : io W string unit) : io W string unit :=
  let* _ := icatch m in iret tt.

Definition hardware_h264_activations : io W string (list Activation.t) :=
  let* array := labelled "failed to enumerate hardware H.264 encoders" enum_encoders in
  ilift (take_all array).

Definition hardware_h264_encoders : io W string (list HardwareEncoder.t) :=
  let* activations := hardware_h264_activations in
  let encoders := map hardware_encoder_metadata activations in
  iret (dedup (sort_by (fun a b => string_le (HardwareEncoder.name a) (HardwareEncoder.name b)) encoders)).

(** *** Configuration *)

(** [GetUINT32] as a flag: a missing attribute is zero. *)
Definition attribute_is_set tr (key : TransformAttribute) : io W string bool :=
  fun w => let (w, value) := transform_u32 tr key w in
           (w, match value with
               | Ok value => Ok (negb (value =? 0))
               | Err _ => Ok false
               | Fault f => Fault f
               end).

Definition unlock_if_asynchronous tr : io W string bool :=
  let* _ := labelled "failed to query encoder attributes" (call tr GetAttributes) in
  let* is_asynchronous := attribute_is_set tr MF_TRANSFORM_ASYNC in
  let* _ := if is_asynchronous then labelled "failed to unlock asynchronous encoder" (call tr SetAsyncUnlock)
            else iret tt in
  iret is_asynchronous.

(** Whether a binding came of it; a device of the caller need not be made. *)
Definition bind_d3d11_manager_if_supported tr (shared_device : bool) : io W string bool :=
  let* _ := labelled "failed to query encoder D3D attributes" (call tr GetAttributes) in
  let* aware := attribute_is_set tr MF_SA_D3D11_AWARE in
  if negb aware then iret false
  else
    let* _ := if shared_device then iret tt
              else labelled "failed to create encoder D3D11 device" (call tr CreateD3d11Device) in
    let* manager := labelled "failed to create encoder DXGI device manager" (create_dxgi_manager tr) in
    if negb manager then ifail "Media Foundation created no DXGI device manager despite succeeding"
    else
      let* _ := labelled "failed to bind encoder D3D11 device" (call tr ResetDevice) in
      let* _ := labelled "encoder rejected its DXGI device manager" (call tr (ProcessMessage (SET_D3D_MANAGER true))) in
      iret true.

(** The drop of a binding, if there is one. *)
Definition drop_d3d_manager tr (binding : bool) (w : W) : W :=
  if binding then fst (call tr (ProcessMessage (SET_D3D_MANAGER false)) w) else w.

Fixpoint set_attributes tr (attributes : list Attribute) : io W string unit :=
  match attributes with
  | [] => iret tt
  | attribute :: attributes => let* _ := call tr (SetAttribute attribute) in set_attributes tr attributes
  end.

(** The attributes of [create_video_type], before and after the frame size is computed. *)
Definition video_attributes (subtype : Subtype) config : list Attribute :=
  [MAJOR_TYPE_Video; SUBTYPE subtype;
   FRAME_SIZE (pack_u32_pair (H264EncoderConfig.width config) (H264EncoderConfig.height config));
   FRAME_RATE (pack_u32_pair (H264EncoderConfig.fps config) 1); PIXEL_ASPECT_RATIO (pack_u32_pair 1 1);
   INTERLACE_MODE_Progressive].

Definition create_video_type tr (subtype : Subtype) (uncompressed : bool) config : io W string MediaType :=
  let* _ := labelled "failed to create video media type" (call tr CreateMediaType) in
  let* _ := set_attributes tr (video_attributes subtype config) in
  if uncompressed then
    let* sample_size := ilift (nv12_sample_size (H264EncoderConfig.width config) (H264EncoderConfig.height config)) in
    let* _ := set_attributes tr [FIXED_SIZE_SAMPLES 1; ALL_SAMPLES_INDEPENDENT 1] in
    let* sample_size := ilift (ok_or (checked 32 sample_size) "NV12 probe frame is too large") in
    let* _ := call tr (SetAttribute (SAMPLE_SIZE sample_size)) in
    iret (video_attributes subtype config ++
          [FIXED_SIZE_SAMPLES 1; ALL_SAMPLES_INDEPENDENT 1; SAMPLE_SIZE sample_size])
  else iret (video_attributes subtype config).

Definition configure_transform tr config : io W string unit :=
  let* output := create_video_type tr MFVideoFormat_H264 false config in
  let* _ := set_attributes tr [AVG_BITRATE (H264EncoderConfig.bitrate config); MPEG2_PROFILE_Main] in
  let output := output ++ [AVG_BITRATE (H264EncoderConfig.bitrate config); MPEG2_PROFILE_Main] in
  let* _ := labelled "failed to set H.264 output media type" (call tr (SetOutputType output)) in
  let* input := create_video_type tr MFVideoFormat_NV12 true config in
  labelled "failed to set NV12 input media type" (call tr (SetInputType input)).

Definition set_codec_value tr (property : CodecProperty) (required : bool) (label : string) : io W string unit :=
  let* supported := icatch (call tr (IsSupported property)) in
  match supported with
  | Err error => if required then ifail ("H.264 encoder does not support " +:+ label +:+ ": " +:+ error) else iret tt
  | _ =>
    let* set := icatch (call tr (SetValue property)) in
    match set with
    | Err error => if required then ifail ("failed to enable H.264 " +:+ label +:+ ": " +:+ error) else iret tt
    | _ => iret tt
    end
  end.

Definition gop_size config : Z := Z.max (saturating_mul 32 (H264EncoderConfig.fps config) 2) 1.

Definition configure_realtime_codec tr config : io W string unit :=
  let* _ := labelled "H.264 encoder exposes no ICodecAPI" (call tr CastCodecApi) in
  let* _ := set_codec_value tr (LowLatencyMode true) true "low-latency mode" in
  let* _ := set_codec_value tr (DefaultBPictureCount 0) false "zero B-frame count" in
  set_codec_value tr (MPVGOPSize (gop_size config)) false "two-second GOP".

(** Begin and start of the stream, after which samples may flow. *)
Definition begin_stream tr : io W string unit :=
  let* _ := labelled "failed to begin encoder streaming" (call tr (ProcessMessage NOTIFY_BEGIN_STREAMING)) in
  labelled "failed to start encoder stream" (call tr (ProcessMessage NOTIFY_START_OF_STREAM)).

(** The three messages both encoders end with, whose failures are ignored. *)
Definition end_stream tr : io W string unit :=
  let* _ := ignored (call tr (ProcessMessage NOTIFY_END_OF_STREAM)) in
  let* _ := ignored (call tr (ProcessMessage COMMAND_FLUSH)) in
  ignored (call tr (ProcessMessage NOTIFY_END_STREAMING)).

(** *** Samples *)
Definition read_sample_bytes (sample : OutputSample.t) : outcome string (list byte) :=
  let! _ := map_err (fun error => "failed to coalesce encoder output sample: " +:+ error) (OutputSample.contiguous sample) in
  let! length := map_err (fun error => "failed to query encoder output length: " +:+ error)
    (OutputSample.current_length sample) in
  if length =? 0 then Ok []
  else
    let! locked := map_err (fun error => "failed to lock encoder output buffer: " +:+ error) (OutputSample.locked sample) in
    let! bytes := ok_or locked "Media Foundation returned a null encoder output pointer" in
    let! _ := map_err (fun error => "failed to unlock encoder output buffer: " +:+ error) (OutputSample.unlocked sample) in
    Ok bytes.

Definition read_access_unit (sample : OutputSample.t) : outcome string EncodedAccessUnit.t :=
  let! bytes := read_sample_bytes sample in
  let clean_point := match ok (OutputSample.clean_point sample) with Some value => negb (value =? 0) | None => false end in
  let keyframe := clean_point || annex_b_contains_idr bytes in
  Ok (EncodedAccessUnit.mk bytes (ok (OutputSample.time sample)) (ok (OutputSample.duration sample)) keyframe).

Definition create_output_sample tr (size : Z) : io W string unit :=
  let* _ := labelled "failed to create encoder output sample" (call tr CreateSample) in
  let* _ := labelled "failed to create encoder output buffer" (call tr (CreateMemoryBuffer size)) in
  labelled "failed to attach encoder output buffer" (call tr AddBuffer).

(** The unlocking balances the lock on every path, and its failure comes after
    that of the copy. *)
Definition write_buffer tr (source : list byte) : io W string unit :=
  let* lock := labelled "failed to lock Media Foundation buffer" (lock_buffer tr) in
  let (null, capacity) := (lock : bool * Z) in
  let result : outcome string unit :=
    if capacity <? zlen source
    then Err ("Media Foundation buffer capacity " +:+ pretty capacity +:+ " is smaller than " +:+ pretty (zlen source))
    else if null then Err "Media Foundation returned a null buffer pointer"
    else Ok tt in
  let* unlock := icatch (call tr UnlockBuffer) in
  let* _ := ilift result in
  let* _ := labelled "failed to unlock Media Foundation buffer" (ilift unlock) in
  labelled "failed to set Media Foundation buffer length"
    (call tr (SetCurrentLength (default (u_max 32) (checked 32 (zlen source))))).

Definition create_nv12_sample tr config (frame_index : Z) : io W string InputSample.t :=
  let* frame := ilift (synthetic_nv12_frame (H264EncoderConfig.width config) (H264EncoderConfig.height config) frame_index) in
  let* size := ilift (ok_or (checked 32 (zlen frame)) "NV12 frame is too large") in
  let* _ := labelled "failed to create NV12 input sample" (call tr CreateSample) in
  let* _ := labelled "failed to allocate NV12 input buffer" (call tr (CreateMemoryBuffer size)) in
  let* _ := write_buffer tr frame in
  let* _ := labelled "failed to attach NV12 input buffer" (call tr AddBuffer) in
  let* duration := ilift (H264EncoderConfig.frame_duration_100ns config) in
  let* time := ilift (chk_i 64 (frame_index * duration)) in
  let* _ := labelled "failed to timestamp NV12 input sample" (call tr (SetSampleTime time)) in
  let* _ := labelled "failed to set NV12 input duration" (call tr (SetSampleDuration duration)) in
  iret (InputSample.mk (Bytes frame) time duration).

Definition create_dxgi_sample tr (texture : nat) (timestamp_100ns duration_100ns : Z) : io W string InputSample.t :=
  let* _ := labelled "failed to wrap NV12 texture for Media Foundation" (call tr (CreateSurfaceBuffer texture)) in
  let* _ := labelled "failed to create NV12 DXGI sample" (call tr CreateSample) in
  let* _ := labelled "failed to attach NV12 DXGI surface" (call tr AddBuffer) in
  let* _ := labelled "failed to timestamp NV12 DXGI sample" (call tr (SetSampleTime timestamp_100ns)) in
  let* _ := labelled "failed to set NV12 DXGI sample duration" (call tr (SetSampleDuration duration_100ns)) in
  iret (InputSample.mk (Texture texture) timestamp_100ns duration_100ns).

(** *** Output *)

(** The candidates from [type_index] on, of which [remaining] are left. *)
Fixpoint try_output_types (remaining : nat) tr (type_index : Z) (failures : list string) : io W string unit :=
  let exhausted failures :=
    "encoder requested an output stream change but exposed no usable H.264 type (" +:+
    String.concat "; " failures +:+ ")" in
  match remaining with
  | O => ifail (exhausted failures)
  | S remaining =>
    let* media_type := icatch (output_available_type tr type_index) in
    match media_type with
    | Ok media_type =>
      let* set := icatch (call tr (SetOutputType media_type)) in
      match set with
      | Err error =>
        try_output_types remaining tr (type_index + 1) (failures ++ ["type " +:+ pretty type_index +:+ ": " +:+ error])
      | _ => iret tt
      end
    | Err error => ifail (exhausted (failures ++ ["type " +:+ pretty type_index +:+ ": " +:+ error]))
    | Fault f => ifault f
    end
  end.
Definition renegotiate_output_type tr : io W string unit := try_output_types 32 tr 0 [].

Definition flag_set (flags flag : Z) : bool := negb (Z.land flags flag =? 0).

Definition take_output tr : io W string (option EncodedAccessUnit.t) :=
  let* info := labelled "failed to query encoder output buffer requirements" (output_stream_info tr) in
  let provides_samples := flag_set (StreamInfo.dwFlags info) MFT_OUTPUT_STREAM_PROVIDES_SAMPLES in
  let can_provide_samples := flag_set (StreamInfo.dwFlags info) MFT_OUTPUT_STREAM_CAN_PROVIDE_SAMPLES in
  let* caller_sample :=
    if provides_samples || can_provide_samples then iret None
    else
      let size := Z.max (StreamInfo.cbSize info) 1 in
      let* _ := create_output_sample tr size in iret (Some size) in
  let* output := (fun w => let (w, output) := process_output tr caller_sample w in (w, Ok output)) in
  match ProcessOutput.result output with
  | Err error =>
    match WinError.error_code error with
    | WinError.MF_E_TRANSFORM_NEED_MORE_INPUT => ifail "encoder needs more input"
    | WinError.MF_E_TRANSFORM_STREAM_CHANGE =>
      let* _ := renegotiate_output_type tr in iret None
    | _ =>
      ifail ("failed to receive encoder output: " +:+ WinError.message error +:+ " (stream flags " +:+
             alternate_hex (StreamInfo.dwFlags info) +:+ ", size " +:+ pretty (StreamInfo.cbSize info) +:+
             ", alignment " +:+ pretty (StreamInfo.cbAlignment info) +:+ ", output status " +:+
             alternate_hex (ProcessOutput.process_status output) +:+ ", buffer status " +:+
             alternate_hex (ProcessOutput.buffer_status output) +:+ ")")
    end
  | Fault f => ifault f
  | Ok _ =>
    match ProcessOutput.sample output with
    | None => iret None
    | Some sample => let* unit_ := ilift (read_access_unit sample) in iret (Some unit_)
    end
  end.

(** One turn of polling: nothing to do yet, or the type of a good event. The two
    loops differ in the name they give the encoder. *)
Definition poll_event tr (encoder : string) : io W string (option EventType) :=
  fun w =>
    let (w, event) := get_event tr w in
    match event with
    | Err error =>
      match WinError.error_code error with
      | WinError.MF_E_NO_EVENTS_AVAILABLE => (media_sleep (Duration.from_millis 1) w, Ok None)
      | _ => (w, Err ("failed to poll " +:+ encoder +:+ " event: " +:+ WinError.message error))
      end
    | Fault f => (w, Fault f)
    | Ok event =>
      (w,
       let! status := map_err (fun error => "failed to read " +:+ encoder +:+ " event status: " +:+ error)
         (MediaEvent.status event) in
       let! _ := map_err (fun error => encoder +:+ " event failed: " +:+ error) status in
       let! kind := map_err (fun error => "failed to read " +:+ encoder +:+ " event type: " +:+ error)
         (MediaEvent.kind event) in
       Ok (Some kind))
    end.

Definition now_io {E} : io W E Z := fun w => let (w, instant) := media_now w in (w, Ok instant).

(** What is kept of an output: units without bytes are dropped. *)
Definition kept (output : option EncodedAccessUnit.t) : list EncodedAccessUnit.t :=
  match output with
  | Some unit_ => if bool_decide (EncodedAccessUnit.bytes unit_ = []) then [] else [unit_]
  | None => []
  end.
End operations.

(** ** The batch encoder *)
Module EncodedProbe.
Record t : Type := mk { access_units : list EncodedAccessUnit.t; frames_submitted : Z }.
End EncodedProbe.

Section batch.
Context {W : Type} `{MediaConstants} `{MediaOs W}.

(** The frame of the next submission, and its submission. *)
Definition submit_frame (tr : nat) config (start_frame_index frames_submitted : Z) : io W string Z :=
  let* frame_index := ilift (ok_or (checked 32 (start_frame_index + frames_submitted))
    "synthetic H.264 frame index is exhausted") in
  let* sample := create_nv12_sample tr config frame_index in
  let* _ := labelled "encoder rejected NV12 frame" (call tr (ProcessInput sample)) in
  ilift (chk 32 (frames_submitted + 1)).

Definition drain_messages (tr : nat) : io W string unit :=
  let* _ := labelled "failed to end encoder input stream" (call tr (ProcessMessage NOTIFY_END_OF_STREAM)) in
  labelled "failed to drain encoder" (call tr (ProcessMessage COMMAND_DRAIN)).

(** The [while] loop of [encode_async]; its answer is whether the drain completed. *)
Fixpoint pump_batch (fuel : nat) (tr : nat) (started : Z) config (start_frame_index frame_count : Z)
    (access_units : list EncodedAccessUnit.t) (frames_submitted : Z) (draining : bool)
  : io W string (EncodedProbe.t * bool) :=
  match fuel with
  | O => ifault OutOfFuel
  | S fuel =>
    let* now := now_io in
    if PROBE_TIMEOUT <=? elapsed_since started now
    then iret (EncodedProbe.mk access_units frames_submitted, false)
    else
      let* event := poll_event tr "encoder" in
      match event with
      | Some METransformNeedInput =>
        if frames_submitted <? frame_count then
          let* frames_submitted := submit_frame tr config start_frame_index frames_submitted in
          pump_batch fuel tr started config start_frame_index frame_count access_units frames_submitted draining
        else if negb draining then
          let* _ := drain_messages tr in
          pump_batch fuel tr started config start_frame_index frame_count access_units frames_submitted true
        else pump_batch fuel tr started config start_frame_index frame_count access_units frames_submitted draining
      | Some METransformHaveOutput =>
        let* output := take_output tr in
        pump_batch fuel tr started config start_frame_index frame_count (access_units ++ kept output)
          frames_submitted draining
      | Some METransformDrainComplete => iret (EncodedProbe.mk access_units frames_submitted, true)
      | _ => pump_batch fuel tr started config start_frame_index frame_count access_units frames_submitted draining
      end
  end.

Definition encode_async (fuel : nat) (tr : nat) (started : Z) config (start_frame_index frame_count : Z)
  : io W string EncodedProbe.t :=
  let* _ := labelled "asynchronous encoder has no event generator" (call tr CastEventGenerator) in
  let* result := pump_batch fuel tr started config start_frame_index frame_count [] 0 false in
  let (probe, drain_complete) := (result : EncodedProbe.t * bool) in
  if drain_complete then iret probe
  else ifail ("hardware encoder did not finish the H.264 batch within " +:+
              pretty (Duration.as_millis PROBE_TIMEOUT) +:+ " ms after " +:+
              pretty (EncodedProbe.frames_submitted probe) +:+ " frames").

(** The outputs of one input, until there are none or an error other than a need
    of input. *)
Fixpoint take_outputs (fuel : nat) (tr : nat) (access_units : list EncodedAccessUnit.t)
  : io W string (list EncodedAccessUnit.t) :=
  match fuel with
  | O => ifault OutOfFuel
  | S fuel =>
    let* output := icatch (take_output tr) in
    match output with
    | Ok (Some unit_) => take_outputs fuel tr (access_units ++ kept (Some unit_))
    | Ok None => iret access_units
    | Err error => if contains "needs more input" error then iret access_units else ifail error
    | Fault f => ifault f
    end
  end.

Fixpoint submit_all (fuel : nat) (tr : nat) (started : Z) config (start_frame_index frame_count : Z)
    (access_units : list EncodedAccessUnit.t) (frames_submitted : Z) : io W string EncodedProbe.t :=
  match fuel with
  | O => ifault OutOfFuel
  | S fuel' =>
    if frames_submitted <? frame_count then
      let* now := now_io in
      if elapsed_since started now <? PROBE_TIMEOUT then
        let* frames_submitted := submit_frame tr config start_frame_index frames_submitted in
        let* access_units := take_outputs fuel tr access_units in
        submit_all fuel' tr started config start_frame_index frame_count access_units frames_submitted
      else iret (EncodedProbe.mk access_units frames_submitted)
    else iret (EncodedProbe.mk access_units frames_submitted)
  end.

Fixpoint drain_outputs (fuel : nat) (tr : nat) (started : Z) (access_units : list EncodedAccessUnit.t)
  : io W string (list EncodedAccessUnit.t) :=
  match fuel with
  | O => ifault OutOfFuel
  | S fuel =>
    let* now := now_io in
    if elapsed_since started now <? PROBE_TIMEOUT then
      let* output := icatch (take_output tr) in
      match output with
      | Ok output => drain_outputs fuel tr started (access_units ++ kept output)
      | Err error => if contains "needs more input" error then iret access_units else ifail error
      | Fault f => ifault f
      end
    else iret access_units
  end.

Definition encode_sync (fuel : nat) (tr : nat) (started : Z) config (start_frame_index frame_count : Z)
  : io W string EncodedProbe.t :=
  let* probe := submit_all fuel tr started config start_frame_index frame_count [] 0 in
  if EncodedProbe.frames_submitted probe <? frame_count
  then ifail ("hardware encoder accepted only " +:+ pretty (EncodedProbe.frames_submitted probe) +:+ " of " +:+
              pretty frame_count +:+ " frames within " +:+ pretty (Duration.as_millis PROBE_TIMEOUT) +:+ " ms")
  else
    let* _ := drain_messages tr in
    let* access_units := drain_outputs fuel tr started (EncodedProbe.access_units probe) in
    iret (EncodedProbe.mk access_units (EncodedProbe.frames_submitted probe)).

(** What [encode_activation] does while its D3D binding lives. *)
Definition encode_bound (fuel : nat) (tr : nat) (encoder_name : string) (started : Z) (asynchronous : bool)
    config (start_frame_index frame_count : Z) : io W string H264EncodeBatch.t :=
  let* _ := configure_transform tr config in
  let* _ := configure_realtime_codec tr config in
  let* _ := begin_stream tr in
  let* encode_result := icatch
    (if asynchronous then encode_async fuel tr started config start_frame_index frame_count
     else encode_sync fuel tr started config start_frame_index frame_count) in
  let* _ := end_stream tr in
  let* encoded := ilift encode_result in
  let access_units := EncodedProbe.access_units encoded in
  if bool_decide (access_units = []) then ifail "encoder completed without producing H.264 bytes"
  else
    let* encoded_bytes := ilift (total_bytes access_units) in
    let* nal_units := ilift (total_nal_units access_units) in
    if nal_units =? 0
    then ifail ("encoder returned " +:+ pretty encoded_bytes +:+ " bytes without an Annex B H.264 start code")
    else
      let* now := now_io in
      iret (H264EncodeBatch.mk encoder_name access_units (EncodedProbe.frames_submitted encoded)
              (millis_u64 (elapsed_since started now))).

Definition encode_activation (fuel : nat) (tr : nat) (encoder_name : string) config
    (start_frame_index frame_count : Z) : io W string H264EncodeBatch.t :=
  let* started := now_io in
  let* _ := labelled "failed to activate encoder" (call tr ActivateObject) in
  let* asynchronous := unlock_if_asynchronous tr in
  let* _d3d_manager := bind_d3d11_manager_if_supported tr false in
  ifinally (encode_bound fuel tr encoder_name started asynchronous config start_frame_index frame_count)
    (drop_d3d_manager tr _d3d_manager).

(** The loop over the activations, with the failures so far. *)
Fixpoint try_activations (fuel : nat) (activations : list Activation.t) config
    (start_frame_index frame_count : Z) (failures : list string) : io W string H264EncodeBatch.t :=
  match activations with
  | [] => ifail ("all hardware H.264 encode probes failed (" +:+ String.concat "; " failures +:+ ")")
  | activation :: activations =>
    let name := activation_name activation in
    let tr := Activation.id activation in
    let* result := icatch (encode_activation fuel tr name config start_frame_index frame_count) in
    let* _ := ignored (call tr ShutdownObject) in
    match result with
    | Ok report => iret report
    | Err error =>
      try_activations fuel activations config start_frame_index frame_count (failures ++ [name +:+ ": " +:+ error])
    | Fault f => ifault f
    end
  end.

Definition encode_synthetic_h264 (fuel : nat) config (start_frame_index frame_count : Z)
  : io W string H264EncodeBatch.t :=
  let* config := ilift (H264EncoderConfig.validate config) in
  if frame_count =? 0 then ifail "H.264 encode batch must contain at least one frame"
  else
    let* activations := hardware_h264_activations in
    let activations := sort_activations activations in
    if bool_decide (length activations = 0%nat)
    then ifail "Media Foundation reported no hardware H.264 encoder for NV12 input"
    else try_activations fuel activations config start_frame_index frame_count [].

Definition probe_hardware_h264_encode (fuel : nat) : io W string HardwareEncodeProbe.t :=
  let* batch := encode_synthetic_h264 fuel PROBE_CONFIG 0 PROBE_FRAME_COUNT in
  ilift (summarize_probe batch).
End batch.

(** ** The live encoder *)

(** A texture of the capture device. *)
Module Texture2D.
Record t : Type := mk { id : nat; width : Z; height : Z; format : Z }.
End Texture2D.

Module HardwareH264Encoder.
Record t : Type := mk {
  encoder_name : string;
  activation : nat;
  events : bool;
  asynchronous : bool;
  input_ready : bool;
  config : H264EncoderConfig.t;
  pending_outputs : list EncodedAccessUnit.t;
  d3d_manager : bool;
}.
Definition set_ready (self : t) (v : bool) : t :=
  mk (encoder_name self) (activation self) (events self) (asynchronous self) v (config self)
     (pending_outputs self) (d3d_manager self).
Definition set_pending (self : t) (v : list EncodedAccessUnit.t) : t :=
  mk (encoder_name self) (activation self) (events self) (asynchronous self) (input_ready self) (config self)
     v (d3d_manager self).

Section methods.
Context {W : Type} `{MediaConstants} `{MediaOs W}.

(** On failure the binding is dropped; on success it moves into the encoder. *)
Definition configure_bound (tr : nat) (encoder_name : string) (asynchronous : bool) config (d3d_manager : bool)
  : io W string t :=
  let* _ := configure_transform tr config in
  let* _ := configure_realtime_codec tr config in
  let* _ := begin_stream tr in
  let* _ := if asynchronous then labelled "asynchronous encoder has no event generator" (call tr CastEventGenerator)
            else iret tt in
  iret (mk encoder_name tr asynchronous asynchronous (negb asynchronous) config [] d3d_manager).

Definition start_activation (tr : nat) (encoder_name : string) config : io W string t :=
  let* _ := labelled "failed to activate encoder" (call tr ActivateObject) in
  let* asynchronous := unlock_if_asynchronous tr in
  let* d3d_manager := bind_d3d11_manager_if_supported tr true in
  ion_error (configure_bound tr encoder_name asynchronous config d3d_manager) (drop_d3d_manager tr d3d_manager).

Fixpoint start_first (activations : list Activation.t) config (failures : list string) : io W string t :=
  match activations with
  | [] => ifail ("all real-time hardware H.264 encoders failed (" +:+ String.concat "; " failures +:+ ")")
  | activation :: activations =>
    let encoder_name := activation_name activation in
    let tr := Activation.id activation in
    let* result := icatch (start_activation tr encoder_name config) in
    match result with
    | Ok encoder => iret encoder
    | Err error =>
      let* _ := ignored (call tr ShutdownObject) in
      start_first activations config (failures ++ [encoder_name +:+ ": " +:+ error])
    | Fault f => ifault f
    end
  end.

Definition start config : io W string t :=
  let* config := ilift (H264EncoderConfig.validate config) in
  let* activations := hardware_h264_activations in
  let activations := sort_activations activations in
  if bool_decide (length activations = 0%nat)
  then ifail "Media Foundation reported no hardware H.264 encoder"
  else start_first activations config [].

Definition pump_stream_event (deadline : Z) : io (t * W) string unit :=
  let* instant := on_world now_io in
  if deadline <=? instant then ifail "real-time H.264 encoder event timed out"
  else
    let* has_events := iget (fun s => events (fst s)) in
    if negb has_events then ifail "asynchronous H.264 encoder has no event generator"
    else
      let* event := with_owned (fun self => poll_event (activation self) "real-time encoder") in
      match event with
      | Some METransformNeedInput => iput (fun s => (set_ready (fst s) true, snd s))
      | Some METransformHaveOutput =>
        let* output := with_owned (fun self => take_output (activation self)) in
        iput (fun s => (set_pending (fst s) (pending_outputs (fst s) ++ kept output), snd s))
      | _ => iret tt
      end.

Fixpoint await_input (fuel : nat) (deadline : Z) : io (t * W) string unit :=
  match fuel with
  | O => ifault OutOfFuel
  | S fuel =>
    let* ready := iget (fun s => input_ready (fst s)) in
    if ready : bool then iret tt
    else let* _ := pump_stream_event deadline in await_input fuel deadline
  end.

Definition matching (timestamp_100ns : Z) (pending : list EncodedAccessUnit.t) : bool :=
  existsb (fun unit_ => match EncodedAccessUnit.timestamp_100ns unit_ with
                        | Some timestamp => timestamp_100ns <=? timestamp
                        | None => false
                        end) pending.

Fixpoint await_output (fuel : nat) (deadline timestamp_100ns : Z) (matching_output : bool) : io (t * W) string unit :=
  match fuel with
  | O => ifault OutOfFuel
  | S fuel =>
    if matching_output then iret tt
    else
      let* _ := pump_stream_event deadline in
      let* matching_output := iget (fun s => matching timestamp_100ns (pending_outputs (fst s))) in
      await_output fuel deadline timestamp_100ns matching_output
  end.

Definition drain_pending : io (t * W) string (list EncodedAccessUnit.t) :=
  let* units := iget (fun s => pending_outputs (fst s)) in
  let* _ := iput (fun s => (set_pending (fst s) [], snd s)) in
  iret units.

Definition process_input (sample : InputSample.t) : io (t * W) string unit :=
  with_owned (fun self => labelled "real-time encoder rejected NV12 texture" (call (activation self) (ProcessInput sample))).

(** The input uses up the request. *)
Definition submit_texture (sample : InputSample.t) : io (t * W) string unit :=
  let* _ := process_input sample in
  iput (fun s => (set_ready (fst s) false, snd s)).

Definition encode_texture_async (fuel : nat) (sample : InputSample.t) (timestamp_100ns : Z)
  : io (t * W) string (list EncodedAccessUnit.t) :=
  let* start := on_world now_io in
  let deadline := start + STREAM_EVENT_TIMEOUT in
  let* _ := await_input fuel deadline in
  let* _ := submit_texture sample in
  let* _ := await_output fuel deadline timestamp_100ns false in
  drain_pending.

(** The outputs of one texture: only a need of input ends the loop. *)
Fixpoint take_texture_outputs (fuel : nat) (tr : nat) (outputs : list EncodedAccessUnit.t)
  : io W string (list EncodedAccessUnit.t) :=
  match fuel with
  | O => ifault OutOfFuel
  | S fuel =>
    let* output := icatch (take_output tr) in
    match output with
    | Ok output => take_texture_outputs fuel tr (outputs ++ kept output)
    | Err error => if contains "needs more input" error then iret outputs else ifail error
    | Fault f => ifault f
    end
  end.

Definition encode_texture_sync (fuel : nat) (sample : InputSample.t) : io (t * W) string (list EncodedAccessUnit.t) :=
  let* _ := process_input sample in
  with_owned (fun self => take_texture_outputs fuel (activation self) []).

Definition validate_nv12_texture (texture : Texture2D.t) config : outcome string unit :=
  if negb (Texture2D.width texture =? H264EncoderConfig.width config) ||
     negb (Texture2D.height texture =? H264EncoderConfig.height config)
  then Err ("NV12 texture is " +:+ pretty (Texture2D.width texture) +:+ "x" +:+ pretty (Texture2D.height texture) +:+
            ", encoder requires " +:+ pretty (H264EncoderConfig.width config) +:+ "x" +:+
            pretty (H264EncoderConfig.height config))
  else if negb (Texture2D.format texture =? DXGI_FORMAT_NV12)
  then Err ("encoder input texture format " +:+ pretty (Texture2D.format texture) +:+ " is not NV12")
  else Ok tt.

Definition encode_texture (fuel : nat) (texture : Texture2D.t) (timestamp_100ns : Z)
  : io (t * W) string (list EncodedAccessUnit.t) :=
  let* self := iget fst in
  let* _ := ilift (validate_nv12_texture texture (config self)) in
  let* duration_100ns := ilift (H264EncoderConfig.frame_duration_100ns (config self)) in
  let* sample := with_owned (fun self =>
    create_dxgi_sample (activation self) (Texture2D.id texture) timestamp_100ns duration_100ns) in
  if asynchronous self then encode_texture_async fuel sample timestamp_100ns
  else encode_texture_sync fuel sample.

(** [Drop for HardwareH264Encoder]. *)
Definition drop (self : t) (w : W) : W :=
  let (w, _) := end_stream (activation self) w in
  let w := drop_d3d_manager (activation self) (d3d_manager self) w in
  fst (call (activation self) ShutdownObject w).
End methods.
End HardwareH264Encoder.
