(* ===== verification/WinEncoderFacts.v ===== *)
(** * What the Windows encoders do to Media Foundation

    The calls of a run, recorded; the order in which an encoder is opened, fed and
    closed, as a session automaton; the contract of asynchronous transforms, which
    take one input per request and give one output per announcement; and what
    happens to the encoded units. *)
From S2P Require Export WinEncoder.
Local Open Scope string_scope.
Local Open Scope list_scope.
Local Open Scope Z_scope.

(** ** A recording of the calls *)
Inductive Entry : Type :=
| Called (tr : nat) (c : MfCall) (accepted : bool)
| Polled (tr : nat) (event : option EventType)
| Asked (tr : nat) (output : ProcessOutput.t).

Definition accepted {E A} (r : outcome E A) : bool := match r with Ok _ => true | _ => false end.

(** The type of an event the code goes by. *)
Definition good_event (event : outcome WinError.t MediaEvent.t) : option EventType :=
  match event with
  | Ok (MediaEvent.mk (Ok (Ok _)) (Ok kind)) => Some kind
  | _ => None
  end.

(** The unit an output yields. *)
Definition good_output (output : ProcessOutput.t) : option EncodedAccessUnit.t :=
  match ProcessOutput.result output, ProcessOutput.sample output with
  | Ok _, Some sample => ok (read_access_unit sample)
  | _, _ => None
  end.

Definition also {W A} (log : list Entry) (answer : W * A) : (W * list Entry) * A := (fst answer, log, snd answer).

#[export] Instance recording_media `{MediaOs W} : MediaOs (W * list Entry) := {
  call tr c w := let r := call tr c (fst w) in also (snd w ++ [Called tr c (accepted (snd r))]) r;
  enum_encoders w := also (snd w) (enum_encoders (fst w));
  transform_u32 tr key w := also (snd w) (transform_u32 tr key (fst w));
  create_dxgi_manager tr w := also (snd w) (create_dxgi_manager tr (fst w));
  lock_buffer tr w := also (snd w) (lock_buffer tr (fst w));
  get_event tr w := let r := get_event tr (fst w) in also (snd w ++ [Polled tr (good_event (snd r))]) r;
  output_stream_info tr w := also (snd w) (output_stream_info tr (fst w));
  process_output tr size w :=
    let r := process_output tr size (fst w) in also (snd w ++ [Asked tr (snd r)]) r;
  output_available_type tr i w := also (snd w) (output_available_type tr i (fst w));
  media_now w := also (snd w) (media_now (fst w));
  media_sleep d w := (media_sleep d (fst w), snd w);
}.

(** ** The life of an encoder

    At most one is open. The D3D manager is bound while the types are not set; the
    output type comes before the input type, both before the stream, and samples
    and stream messages only within it; the manager is cleared before the shutdown. *)
Inductive Phase : Type :=
| Activated
| OutputTyped
| InputTyped
| Streaming.
#[export] Instance phase_eq_dec : EqDecision Phase.
Proof. solve_decision. Defined.

Inductive Session : Type :=
| Idle
| Open (tr : nat) (phase : Phase) (bound : bool).

Definition when {A} (b : bool) (a : A) : option A := if b then Some a else None.

Definition step_open (tr : nat) (phase : Phase) (bound : bool) (c : MfCall) (accepted : bool) : option Session :=
  let in_phase (p : Phase) := bool_decide (phase = p) in
  match c with
  | ActivateObject => None
  | ShutdownObject => when (negb bound) Idle
  | ProcessMessage (SET_D3D_MANAGER true) => when (in_phase Activated && negb bound) (Open tr phase accepted)
  | ProcessMessage (SET_D3D_MANAGER false) => when bound (Open tr phase false)
  | SetOutputType _ =>
    when (in_phase Activated || in_phase Streaming) (Open tr (if in_phase Activated && accepted then OutputTyped else phase) bound)
  | SetInputType _ => when (in_phase OutputTyped) (Open tr (if accepted then InputTyped else phase) bound)
  | ProcessMessage NOTIFY_BEGIN_STREAMING => when (in_phase InputTyped) (Open tr phase bound)
  | ProcessMessage NOTIFY_START_OF_STREAM =>
    when (in_phase InputTyped) (Open tr (if accepted then Streaming else phase) bound)
  | ProcessMessage _ | ProcessInput _ => when (in_phase Streaming) (Open tr phase bound)
  | _ => Some (Open tr phase bound)
  end.

Definition step (s : Session) (e : Entry) : option Session :=
  match s, e with
  | Idle, Called tr ActivateObject accepted => Some (if accepted then Open tr Activated false else Idle)
  | Idle, Called tr ShutdownObject _ => Some Idle
  | Idle, _ => None
  | Open tr phase bound, Called tr' c accepted => if decide (tr = tr') then step_open tr phase bound c accepted else None
  | Open tr phase bound, Polled tr' _ | Open tr phase bound, Asked tr' _ =>
    when (bool_decide (tr = tr') && bool_decide (phase = Streaming)) s
  end.

Definition session (log : list Entry) : option Session :=
  fold_left (fun s e => s ← s; step s e) log (Some Idle).

Lemma session_snoc log e : session (log ++ [e]) = (s ← session log; step s e).
Proof. unfold session. by rewrite fold_left_app. Qed.

Section sessions.
Context {W : Type} `{MediaConstants} `{MediaOs W}.
Implicit Types (tr : nat) (config : H264EncoderConfig.t).

Definition at_ (s : Session) (w : W * list Entry) : Prop := session (snd w) = Some s.

Lemma call_steps (s : Session) tr c :
  run_of (at_ s) (call tr c) (fun r w => session (snd w) = step s (Called tr c (accepted r))).
Proof. intros w Hw. simpl. rewrite session_snoc, Hw. done. Qed.

(** A call that leaves an open encoder as it is. *)
Definition quiet (phase : Phase) (bound : bool) (c : MfCall) : Prop :=
  forall accepted tr, step_open tr phase bound c accepted = Some (Open tr phase bound).

Lemma quiet_call tr phase bound c : quiet phase bound c -> keeps (at_ (Open tr phase bound)) (call tr c).
Proof.
  intros Hq w Hw. red. rewrite (call_steps (Open tr phase bound) tr c w Hw). simpl. by rewrite decide_True.
Qed.

Hint Extern 2 (quiet _ _ _) => (intros [] ?; reflexivity) : io.
Hint Resolve quiet_call : io.

Lemma keeps_labelled {A} (P : W * list Entry -> Prop) label (m : io _ string A) : keeps P m -> keeps P (labelled label m).
Proof. apply keeps_map_err. Qed.
Lemma keeps_ignored (P : W * list Entry -> Prop) (m : io _ string unit) : keeps P m -> keeps P (ignored m).
Proof. intros Hm. apply keeps_bind; auto with io. Qed.
Hint Resolve keeps_labelled keeps_ignored : io.

Lemma keeps_enum s : keeps (at_ s) enum_encoders.
Proof. by intros w Hw. Qed.
Lemma keeps_attribute s tr key : keeps (at_ s) (attribute_is_set tr key).
Proof. intros w Hw. unfold attribute_is_set, also. simpl. by unfold at_. Qed.
Lemma keeps_manager s tr : keeps (at_ s) (create_dxgi_manager tr).
Proof. by intros w Hw. Qed.
Lemma keeps_lock s tr : keeps (at_ s) (lock_buffer tr).
Proof. by intros w Hw. Qed.
Lemma keeps_info s tr : keeps (at_ s) (output_stream_info tr).
Proof. by intros w Hw. Qed.
Lemma keeps_available s tr i : keeps (at_ s) (output_available_type tr i).
Proof. by intros w Hw. Qed.
Lemma keeps_now s : keeps (at_ s) (now_io (E:=string)).
Proof. by intros w Hw. Qed.
Hint Resolve keeps_enum keeps_attribute keeps_manager keeps_lock keeps_info keeps_available keeps_now : io.

Lemma keeps_activations s : keeps (at_ s) hardware_h264_activations.
Proof. unfold hardware_h264_activations. eauto 6 with io. Qed.

Lemma keeps_unlock tr phase bound : keeps (at_ (Open tr phase bound)) (unlock_if_asynchronous tr).
Proof. unfold unlock_if_asynchronous. eauto 10 with io. Qed.

Lemma keeps_set_attributes tr phase bound l : keeps (at_ (Open tr phase bound)) (set_attributes tr l).
Proof. induction l; cbn [set_attributes]; auto with io. Qed.
Hint Resolve keeps_set_attributes : io.

Lemma keeps_video_type tr phase bound subtype uncompressed config :
  keeps (at_ (Open tr phase bound)) (create_video_type tr subtype uncompressed config).
Proof. unfold create_video_type. eauto 14 with io. Qed.

Lemma keeps_codec_value tr phase bound p required label :
  keeps (at_ (Open tr phase bound)) (set_codec_value tr p required label).
Proof.
  unfold set_codec_value. apply keeps_bind; [auto with io|]. intros supported.
  assert (keeps (at_ (Open tr phase bound)) (let* set := icatch (call tr (SetValue p)) in
    match set with
    | Err error => if required then ifail ("failed to enable H.264 " +:+ label +:+ ": " +:+ error) else iret tt
    | _ => iret tt
    end)).
  { apply keeps_bind; [auto with io|]. intros []; auto with io. }
  destruct supported; auto with io.
Qed.
Hint Resolve keeps_unlock keeps_video_type keeps_codec_value : io.

Lemma keeps_realtime tr phase bound config : keeps (at_ (Open tr phase bound)) (configure_realtime_codec tr config).
Proof. unfold configure_realtime_codec. eauto 10 with io. Qed.

Lemma keeps_write_buffer tr phase bound l : keeps (at_ (Open tr phase bound)) (write_buffer tr l).
Proof.
  unfold write_buffer. apply keeps_bind; [auto with io|]. intros [null capacity]. eauto 10 with io.
Qed.
Hint Resolve keeps_write_buffer : io.

Lemma keeps_nv12_sample tr phase bound config i : keeps (at_ (Open tr phase bound)) (create_nv12_sample tr config i).
Proof. unfold create_nv12_sample. eauto 30 with io. Qed.
Lemma keeps_dxgi_sample tr phase bound texture t d :
  keeps (at_ (Open tr phase bound)) (create_dxgi_sample tr texture t d).
Proof. unfold create_dxgi_sample. eauto 20 with io. Qed.
Lemma keeps_output_sample tr phase bound size : keeps (at_ (Open tr phase bound)) (create_output_sample tr size).
Proof. unfold create_output_sample. eauto 10 with io. Qed.
Hint Resolve keeps_nv12_sample keeps_dxgi_sample keeps_output_sample keeps_realtime : io.

Lemma keeps_output_types n tr bound i failures :
  keeps (at_ (Open tr Streaming bound)) (try_output_types n tr i failures).
Proof.
  revert i failures. induction n as [|n IH]; intros i failures; cbn [try_output_types]; [auto with io|].
  apply keeps_bind; [auto with io|]. intros [mt| |]; [|auto with io..].
  apply keeps_bind; [auto with io|]. intros []; auto with io.
Qed.

Lemma keeps_take_output tr bound : keeps (at_ (Open tr Streaming bound)) (take_output tr).
Proof.
  unfold take_output. apply keeps_bind; [auto with io|]. intros info.
  apply keeps_bind; [eauto 8 with io|]. intros size. apply keeps_bind.
  { intros w Hw. unfold at_. simpl. rewrite session_snoc, Hw. simpl. by rewrite !bool_decide_true. }
  intros output. pose proof (keeps_output_types 32 tr bound 0 []). unfold renegotiate_output_type.
  destruct (ProcessOutput.result output) as [|e|]; [|destruct (WinError.error_code e)|];
    try destruct (ProcessOutput.sample output); auto with io.
Qed.

Lemma keeps_poll tr bound encoder : keeps (at_ (Open tr Streaming bound)) (poll_event tr encoder).
Proof.
  intros w Hw. unfold poll_event. simpl.
  enough (session (snd w ++ [Polled tr (good_event (snd (get_event tr (fst w))))]) = Some (Open tr Streaming bound)).
  { destruct (snd (get_event tr (fst w))) as [|e|]; [|destruct (WinError.error_code e)|]; done. }
  rewrite session_snoc, Hw. simpl. by rewrite !bool_decide_true.
Qed.
Hint Resolve keeps_take_output keeps_poll : io.

(** *** Steps that move the session on *)

(** The encoder stays open; success means it reached [target]. *)
Definition ends {A} tr (bound : bool) (target : Phase) (r : outcome string A) (w : W * list Entry) : Prop :=
  exists phase, at_ (Open tr phase bound) w /\ (accepted r = true -> phase = target).

Lemma ends_bind {A B} tr bound p q q' (m : io _ string A) (k : A -> io _ string B) :
  run_of (at_ (Open tr p bound)) m (ends tr bound q) ->
  (forall a, run_of (at_ (Open tr q bound)) (k a) (ends tr bound q')) ->
  run_of (at_ (Open tr p bound)) (ibind m k) (ends tr bound q').
Proof.
  intros Hm Hk w Hw. destruct (Hm w Hw) as (ph & Hat & Hph). unfold ibind.
  destruct (m w) as [w' [a|e|f]]; simpl in *; [|by exists ph..].
  apply Hk. by rewrite <-(Hph eq_refl).
Qed.

Lemma ends_keeps {A} tr bound p (m : io _ string A) :
  keeps (at_ (Open tr p bound)) m -> run_of (at_ (Open tr p bound)) m (ends tr bound p).
Proof. intros Hm w Hw. exists p. split; [by apply Hm|done]. Qed.

Lemma ends_labelled {A} tr bound p q label (m : io _ string A) :
  run_of (at_ (Open tr p bound)) m (ends tr bound q) ->
  run_of (at_ (Open tr p bound)) (labelled label m) (ends tr bound q).
Proof.
  intros Hm w Hw. destruct (Hm w Hw) as (ph & Hat & Hph). unfold labelled, imap_err.
  destruct (m w) as [w' [a|e|f]]; by exists ph.
Qed.

Lemma ends_call tr bound p q c :
  (forall acc, exists ph, step_open tr p bound c acc = Some (Open tr ph bound) /\ (acc = true -> ph = q)) ->
  run_of (at_ (Open tr p bound)) (call tr c) (ends tr bound q).
Proof.
  intros Hc w Hw. pose proof (call_steps _ tr c w Hw) as Hs. simpl in Hs. rewrite decide_True in Hs by done.
  destruct (Hc (accepted (snd (call tr c (fst w))))) as (ph & Hph & Hq). rewrite Hph in Hs. exists ph. by split.
Qed.

Lemma encoder_configure_ends tr bound config :
  run_of (at_ (Open tr Activated bound)) (configure_transform tr config) (ends tr bound InputTyped).
Proof.
  unfold configure_transform. eapply ends_bind; [apply ends_keeps; auto with io|]. intros out.
  eapply ends_bind; [apply ends_keeps; auto with io|]. intros _.
  eapply ends_bind; [apply (ends_labelled _ _ _ OutputTyped), ends_call; intros []; by eexists|]. intros _.
  eapply ends_bind; [apply ends_keeps; auto with io|]. intros inp.
  apply ends_labelled, ends_call. intros []; by eexists.
Qed.

Lemma begin_ends tr bound :
  run_of (at_ (Open tr InputTyped bound)) (begin_stream tr) (ends tr bound Streaming).
Proof.
  unfold begin_stream. eapply ends_bind.
  - apply (ends_labelled _ _ _ InputTyped), ends_call. intros []; by eexists.
  - intros _. apply ends_labelled, ends_call. intros []; by eexists.
Qed.

Lemma ready_ends tr bound config :
  run_of (at_ (Open tr Activated bound))
    (let* _ := configure_transform tr config in
     let* _ := configure_realtime_codec tr config in begin_stream tr) (ends tr bound Streaming).
Proof.
  eapply ends_bind; [apply encoder_configure_ends|]. intros _.
  eapply ends_bind; [apply ends_keeps; auto with io|]. intros _. apply begin_ends.
Qed.

Lemma keeps_end_stream tr bound : keeps (at_ (Open tr Streaming bound)) (end_stream tr).
Proof. unfold end_stream. auto 10 with io. Qed.

Lemma bind_manager tr shared :
  run_of (at_ (Open tr Activated false)) (bind_d3d11_manager_if_supported tr shared)
    (fun r w => at_ (Open tr Activated (match r with Ok b => b | _ => false end)) w).
Proof.
  unfold bind_d3d11_manager_if_supported.
  eapply run_bind with (R := fun _ => at_ (Open tr Activated false)); [by apply keeps_labelled; auto with io|done..|].
  intros _. eapply run_bind with (R := fun _ => at_ (Open tr Activated false)); [by apply keeps_attribute|done..|].
  intros []; [|by apply run_ret].
  eapply run_bind with (R := fun _ => at_ (Open tr Activated false)); [|done..|].
  { intros w Hw. revert w Hw. change (keeps (at_ (Open tr Activated false))
      (if shared then iret tt else labelled "failed to create encoder D3D11 device" (call tr CreateD3d11Device))).
    auto with io. }
  intros _. eapply run_bind with (R := fun _ => at_ (Open tr Activated false)); [by apply keeps_labelled, keeps_manager|done..|].
  intros []; [|by apply run_fail].
  eapply run_bind with (R := fun _ => at_ (Open tr Activated false)); [by apply keeps_labelled; auto with io|done..|].
  intros _ w Hw. pose proof (call_steps _ tr (ProcessMessage (SET_D3D_MANAGER true)) w Hw) as Hs.
  unfold at_, ibind, labelled, imap_err in *. destruct (call tr _ w) as [w' r]. simpl in *.
  rewrite decide_True in Hs by done. destruct r; exact Hs.
Qed.

Lemma drop_manager tr phase bound w :
  at_ (Open tr phase bound) w -> at_ (Open tr phase false) (drop_d3d_manager tr bound w).
Proof.
  intros Hw. unfold drop_d3d_manager. destruct bound; [|done].
  red. rewrite (call_steps _ tr (ProcessMessage (SET_D3D_MANAGER false)) w Hw). simpl. by rewrite decide_True.
Qed.

(** What an attempt may leave behind: nothing, or an encoder without a binding. *)
Definition closable tr (w : W * list Entry) : Prop := at_ Idle w \/ exists phase, at_ (Open tr phase false) w.

Lemma encoder_shutdown_closes tr w : closable tr w -> at_ Idle (fst (call tr ShutdownObject w)).
Proof.
  unfold closable, at_. intros [Hw|[phase Hw]]; rewrite (call_steps _ tr ShutdownObject w Hw); [done|].
  simpl. by rewrite decide_True.
Qed.

Lemma ignored_shutdown tr : run_of (closable tr) (ignored (call tr ShutdownObject))
  (fun _ => at_ Idle).
Proof.
  intros w Hw. apply encoder_shutdown_closes in Hw. unfold ignored, ibind, icatch.
  destruct (call tr ShutdownObject w) as [w' []]; done.
Qed.

Lemma activate_opens tr label :
  run_of (at_ Idle) (labelled label (call tr ActivateObject))
    (fun r => at_ (if accepted r then Open tr Activated false else Idle)).
Proof.
  intros w Hw. pose proof (call_steps _ tr ActivateObject w Hw) as Hs. unfold at_, labelled, imap_err in *.
  destruct (call tr ActivateObject w) as [w' []]; exact Hs.
Qed.

(** *** The batch *)
Lemma keeps_submit tr bound config start n :
  keeps (at_ (Open tr Streaming bound)) (submit_frame tr config start n).
Proof. unfold submit_frame. auto 10 with io. Qed.
Lemma keeps_drain tr bound : keeps (at_ (Open tr Streaming bound)) (drain_messages tr).
Proof. unfold drain_messages. auto 10 with io. Qed.
Hint Resolve keeps_submit keeps_drain keeps_end_stream : io.

Lemma keeps_pump_batch fuel tr bound started config start count units n draining :
  keeps (at_ (Open tr Streaming bound)) (pump_batch fuel tr started config start count units n draining).
Proof.
  revert units n draining. induction fuel as [|fuel IH]; intros units n draining; cbn [pump_batch]; [auto with io|].
  apply keeps_bind; [auto with io|]. intros now. apply keeps_if; [auto with io|intros _].
  apply keeps_bind; [auto with io|]. intros [[]|]; auto 10 with io.
Qed.

Lemma keeps_take_outputs fuel tr bound units : keeps (at_ (Open tr Streaming bound)) (take_outputs fuel tr units).
Proof.
  revert units. induction fuel as [|fuel IH]; intros units; cbn [take_outputs]; [auto with io|].
  apply keeps_bind; [auto with io|]. intros [[]| |]; auto with io.
Qed.
Hint Resolve keeps_pump_batch keeps_take_outputs : io.

Lemma keeps_submit_all fuel tr bound started config start count units n :
  keeps (at_ (Open tr Streaming bound)) (submit_all fuel tr started config start count units n).
Proof.
  revert units n. induction fuel as [|fuel IH]; intros units n; cbn [submit_all]; auto 12 with io.
Qed.

Lemma keeps_drain_outputs fuel tr bound started units :
  keeps (at_ (Open tr Streaming bound)) (drain_outputs fuel tr started units).
Proof.
  revert units. induction fuel as [|fuel IH]; intros units; cbn [drain_outputs]; [auto with io|].
  apply keeps_bind; [auto with io|]. intros now. apply keeps_if; [intros _|auto with io].
  apply keeps_bind; [auto with io|]. intros []; auto with io.
Qed.
Hint Resolve keeps_submit_all keeps_drain_outputs : io.

Lemma keeps_encode fuel tr bound started config start count (asynchronous : bool) :
  keeps (at_ (Open tr Streaming bound))
    (if asynchronous then encode_async fuel tr started config start count
     else encode_sync fuel tr started config start count).
Proof.
  apply keeps_if; intros _; [unfold encode_async|unfold encode_sync]; [|auto 12 with io].
  apply keeps_bind; [auto with io|]. intros _. apply keeps_bind; [auto with io|]. intros [probe []]; auto with io.
Qed.

Lemma encode_bound_stays fuel tr name started asynchronous config start count bound :
  run_of (at_ (Open tr Activated bound)) (encode_bound fuel tr name started asynchronous config start count)
    (fun _ w => exists phase, at_ (Open tr phase bound) w).
Proof.
  eapply run_weaken with (Q := ends tr bound Streaming); [|done|intros r w (ph & Hph & _); eauto].
  unfold encode_bound.
  eapply ends_bind; [apply encoder_configure_ends|]. intros _.
  eapply ends_bind; [apply ends_keeps; auto with io|]. intros _.
  eapply ends_bind; [apply begin_ends|]. intros _.
  apply ends_keeps. apply keeps_bind; [apply keeps_catch, keeps_encode|]. intros r.
  apply keeps_bind; [auto with io|]. intros _. apply keeps_bind; [auto with io|]. auto 12 with io.
Qed.

Lemma encode_activation_closable fuel tr name config start count :
  run_of (at_ Idle) (encode_activation fuel tr name config start count) (fun _ => closable tr).
Proof.
  unfold encode_activation. eapply run_bind with (R := fun _ => at_ Idle); [by apply keeps_now|by intros ???; left..|].
  intros started. eapply run_bind; [apply activate_opens|by intros ???; left..|]. intros ?. cbn [accepted].
  eapply run_bind with (R := fun _ => at_ (Open tr Activated false)); [by apply keeps_unlock|intros ?? Hx; right; exists Activated; exact Hx..|].
  intros asynchronous. eapply run_bind; [apply bind_manager|intros ?? Hx; right; exists Activated; exact Hx..|].
  intros bound. cbn beta iota. intros w Hw. unfold ifinally.
  pose proof (encode_bound_stays fuel tr name started asynchronous config start count bound w Hw) as [phase Hp].
  destruct (encode_bound _ _ _ _ _ _ _ _ w) as [w' r]. right. exists phase. by apply drop_manager.
Qed.



(** What holds unless the code panics. *)
Definition unless_panic {A} (Q : outcome string A -> W * list Entry -> Prop) (r : outcome string A)
    (w : W * list Entry) : Prop := returns r -> Q r w.

Lemma try_activations_idle fuel activations config start count failures :
  run_of (at_ Idle) (try_activations fuel activations config start count failures)
    (unless_panic (fun _ => at_ Idle)).
Proof.
  revert failures. induction activations as [|a activations IH]; intros failures; cbn [try_activations].
  { by intros w Hw _. }
  eapply run_bind; [apply run_catch, encode_activation_closable|done|by intros ??? []|]. intros r.
  cbv beta iota. eapply run_bind; [apply ignored_shutdown|by intros ????|by intros ??? []|]. intros ?; cbv beta.
  destruct r as [report|error|f]; [by intros w Hw _|apply IH|by intros w Hw []].
Qed.

Lemma encode_synthetic_idle fuel config start count :
  run_of (at_ Idle) (encode_synthetic_h264 fuel config start count) (unless_panic (fun _ => at_ Idle)).
Proof.
  unfold encode_synthetic_h264.
  eapply run_bind with (R := fun _ => at_ Idle); [by intros w|by intros ????..|]. intros config'.
  case_match; [by intros w Hw _|].
  eapply run_bind with (R := fun _ => at_ Idle); [apply keeps_activations|by intros ????..|]. intros activations.
  case_match; [by intros w Hw _|]. apply try_activations_idle.
Qed.

(** *** The live encoder *)
Import HardwareH264Encoder.

Lemma configure_bound_ends tr name asynchronous config bound :
  run_of (at_ (Open tr Activated bound)) (configure_bound tr name asynchronous config bound)
    (fun r w => match r with
                | Ok self => at_ (Open tr Streaming bound) w /\ activation self = tr /\ d3d_manager self = bound /\
                             input_ready self = negb (HardwareH264Encoder.asynchronous self) /\
                             pending_outputs self = []
                | _ => exists phase, at_ (Open tr phase bound) w
                end).
Proof.
  eapply run_weaken with (Q := fun r w => ends tr bound Streaming r w /\
    (forall self, r = Ok self -> self = mk name tr asynchronous asynchronous (negb asynchronous) config [] bound));
    [|done|].
  - apply run_and.
    + unfold configure_bound. eapply ends_bind; [apply encoder_configure_ends|]. intros _.
      eapply ends_bind; [apply ends_keeps; auto with io|]. intros _.
      eapply ends_bind; [apply begin_ends|]. intros _. apply ends_keeps. auto 10 with io.
    + intros w Hw self. unfold configure_bound. intros Hr.
      destruct (ibind _ _ w) as [w' r] eqn:He. simpl in Hr. subst r.
      repeat (apply ibind_ok_inv in He as (? & ? & _ & He)). by injection He as _ <-.
  - intros r w [(ph & Hat & Hph) Hr]. destruct r as [self| |]; [|eauto..].
    rewrite (Hr self eq_refl). rewrite <-(Hph eq_refl). by split_and!.
Qed.

Lemma start_activation_ends tr name config :
  run_of (at_ Idle) (start_activation tr name config)
    (fun r w => match r with
                | Ok self => at_ (Open (activation self) Streaming (d3d_manager self)) w /\
                             input_ready self = negb (HardwareH264Encoder.asynchronous self) /\ pending_outputs self = []
                | _ => closable tr w
                end).
Proof.
  unfold start_activation. eapply run_bind; [apply activate_opens|by intros ???; left..|]. intros ?. cbn [accepted].
  eapply run_bind with (R := fun _ => at_ (Open tr Activated false)); [by apply keeps_unlock|intros ?? Hx; right; exists Activated; exact Hx..|].
  intros asynchronous. eapply run_bind; [apply bind_manager|intros ?? Hx; right; exists Activated; exact Hx..|].
  intros bound. cbn beta iota. intros w Hw.
  pose proof (configure_bound_ends tr name asynchronous config bound w Hw) as Hc.
  unfold ion_error. destruct (configure_bound _ _ _ _ _ w) as [w' [self|e|f]]; simpl in *.
  - by destruct Hc as (Hat & <- & <- & ? & ?).
  - destruct Hc as [ph Hph]. right. exists ph. by apply drop_manager.
  - destruct Hc as [ph Hph]. right. exists ph. by apply drop_manager.
Qed.

(** A fresh encoder, or nothing open. *)
Definition started (r : outcome string t) (w : W * list Entry) : Prop :=
  match r with
  | Ok self => at_ (Open (activation self) Streaming (d3d_manager self)) w /\
               input_ready self = negb (HardwareH264Encoder.asynchronous self) /\ pending_outputs self = []
  | _ => at_ Idle w
  end.

Lemma start_first_ends activations config failures :
  run_of (at_ Idle) (start_first activations config failures) (unless_panic started).
Proof.
  revert failures. induction activations as [|a activations IH]; intros failures; cbn [start_first].
  { by intros w Hw _. }
  eapply run_bind; [apply run_catch, start_activation_ends|done|by intros ??? []|]. intros r. cbv beta iota.
  destruct r as [self|error|f]; [by intros w Hw _| |by intros w Hw []].
  eapply run_bind; [apply ignored_shutdown|by intros ????|by intros ??? []|]. intros ?; cbv beta. apply IH.
Qed.

Lemma encoder_start_ends config : run_of (at_ Idle) (HardwareH264Encoder.start config) (unless_panic started).
Proof.
  unfold HardwareH264Encoder.start.
  eapply run_bind with (R := fun _ => at_ Idle); [by intros w|by intros ????..|]. intros config'.
  eapply run_bind with (R := fun _ => at_ Idle); [apply keeps_activations|by intros ????..|]. intros activations.
  case_match; [by intros w Hw _|]. apply start_first_ends.
Qed.

(** The state while an encoder lives. *)
Definition live (s : t * (W * list Entry)) : Prop :=
  at_ (Open (activation (fst s)) Streaming (d3d_manager (fst s))) (snd s).

Lemma keeps_live_world {A} (f : t -> io _ string A) :
  (forall tr bound self, activation self = tr -> keeps (at_ (Open tr Streaming bound)) (f self)) -> keeps live (with_owned f).
Proof.
  intros Hf [self w] Hw. unfold with_owned, on_world. simpl.
  pose proof (Hf _ (d3d_manager self) self eq_refl w Hw). by destruct (f self w).
Qed.
Lemma keeps_live_set (f : t -> t) :
  (forall self, activation (f self) = activation self /\ d3d_manager (f self) = d3d_manager self) ->
  keeps live (iput (E:=string) (fun s => (f (fst s), snd s))).
Proof. intros Hf. apply keeps_put. intros [self w]. unfold live. simpl. by destruct (Hf self) as [-> ->]. Qed.

Lemma keeps_texture_outputs fuel tr bound outputs :
  keeps (at_ (Open tr Streaming bound)) (take_texture_outputs fuel tr outputs).
Proof.
  revert outputs. induction fuel as [|fuel IH]; intros outputs; cbn [take_texture_outputs]; [auto with io|].
  apply keeps_bind; [auto with io|]. intros []; auto with io.
Qed.
Hint Resolve keeps_texture_outputs : io.

Lemma keeps_live_now : keeps live (on_world (now_io (E:=string))).
Proof. by intros [self w] Hw. Qed.

Lemma keeps_live_pump deadline : keeps live (pump_stream_event deadline).
Proof.
  unfold pump_stream_event. apply keeps_bind; [apply keeps_live_now|]. intros instant.
  apply keeps_if; [auto with io|intros _]. apply keeps_bind; [auto with io|]. intros has.
  apply keeps_if; [auto with io|intros _]. apply keeps_bind.
  { apply keeps_live_world. intros ??? <-. auto with io. }
  intros [[]|]; auto with io.
  - by apply (keeps_live_set (fun self => set_ready self true)).
  - apply keeps_bind; [apply keeps_live_world; intros ??? <-; auto with io|]. intros output.
    by apply (keeps_live_set (fun self => set_pending self (pending_outputs self ++ kept output))).
Qed.
Hint Resolve keeps_live_pump keeps_live_now : io.

Lemma keeps_live_await_input fuel deadline : keeps live (await_input fuel deadline).
Proof. induction fuel as [|fuel IH]; cbn [await_input]; auto 10 with io. Qed.
Lemma keeps_live_await_output fuel deadline ts b : keeps live (await_output fuel deadline ts b).
Proof. revert b. induction fuel as [|fuel IH]; intros b; cbn [await_output]; auto 10 with io. Qed.
Lemma keeps_live_process sample : keeps live (process_input sample).
Proof. apply keeps_live_world. intros ??? <-. auto with io. Qed.
Hint Resolve keeps_live_await_input keeps_live_await_output keeps_live_process : io.

Lemma keeps_live_encode fuel texture ts : keeps live (encode_texture fuel texture ts).
Proof.
  unfold encode_texture, encode_texture_async, encode_texture_sync, submit_texture, drain_pending.
  apply keeps_bind; [auto with io|]. intros self.
  apply keeps_bind; [auto with io|]. intros _. apply keeps_bind; [auto with io|]. intros d.
  apply keeps_bind; [apply keeps_live_world; intros ??? <-; auto with io|]. intros sample.
  apply keeps_if; intros _.
  - apply keeps_bind; [auto with io|]. intros start. apply keeps_bind; [auto with io|]. intros _.
    apply keeps_bind; [|intros _].
    { apply keeps_bind; [auto with io|]. intros _. by apply (keeps_live_set (fun self => set_ready self false)). }
    apply keeps_bind; [auto with io|]. intros _. apply keeps_bind; [auto with io|]. intros units.
    apply keeps_bind; [|auto with io]. by apply (keeps_live_set (fun self => set_pending self [])).
  - apply keeps_bind; [auto with io|]. intros _. apply keeps_live_world. intros ??? <-. auto with io.
Qed.

Lemma drop_closes self (w : W * list Entry) : live (self, w) -> at_ Idle (HardwareH264Encoder.drop self w).
Proof.
  unfold live, HardwareH264Encoder.drop. simpl. intros Hw.
  apply (keeps_end_stream (activation self) (d3d_manager self)) in Hw.
  destruct (end_stream _ w) as [w' r]. simpl in Hw. apply encoder_shutdown_closes. right. eexists. by apply drop_manager.
Qed.
End sessions.

(** ** Many textures *)
Import HardwareH264Encoder.

Section textures.
Context {W : Type} `{MediaConstants} `{MediaOs W}.

(** The caller's textures with their times, one after the other, whatever comes of each. *)
Fixpoint encode_textures (fuel : nat) (jobs : list (Texture2D.t * Z))
  : io (t * W) string (list (outcome string (list EncodedAccessUnit.t))) :=
  match jobs with
  | [] => iret []
  | (texture, timestamp) :: jobs =>
    let* r := icatch (encode_texture fuel texture timestamp) in
    let* rest := encode_textures fuel jobs in
    iret (r :: rest)
  end.
End textures.

(** ** The contract of asynchronous transforms *)
Definition count (p : Entry -> bool) (log : list Entry) : nat := length (List.filter p log).
Definition input_of (e : Entry) : option InputSample.t :=
  match e with Called _ (ProcessInput sample) true => Some sample | _ => None end.
Definition is_drain (e : Entry) : bool :=
  match e with Called _ (ProcessMessage COMMAND_DRAIN) accepted => accepted | _ => false end.
Definition is_request (e : Entry) : bool := match e with Polled _ (Some METransformNeedInput) => true | _ => false end.
Definition is_asking (e : Entry) : bool := match e with Asked _ _ => true | _ => false end.
Definition is_announcement (e : Entry) : bool :=
  match e with Polled _ (Some METransformHaveOutput) => true | _ => false end.

(** The samples the transform accepted. *)
Definition accepted_inputs (log : list Entry) : list InputSample.t := omap input_of log.

(** The units the outputs yielded, less those without bytes. *)
Definition produced (log : list Entry) : list EncodedAccessUnit.t :=
  concat (map (fun e => match e with Asked _ output => kept (good_output output) | _ => [] end) log).

Lemma count_snoc p log e : count p (log ++ [e]) = (count p log + if p e then 1 else 0)%nat.
Proof. unfold count. rewrite List.filter_app, length_app. simpl. by destruct (p e). Qed.
Lemma produced_snoc log e :
  produced (log ++ [e]) = produced log ++ match e with Asked _ output => kept (good_output output) | _ => [] end.
Proof. unfold produced. rewrite map_app, concat_app. simpl. by rewrite app_nil_r. Qed.

Lemma inputs_snoc log e : accepted_inputs (log ++ [e]) = accepted_inputs log ++ option_list (input_of e).
Proof. unfold accepted_inputs. rewrite omap_app. simpl. by destruct (input_of e). Qed.

(** What the contract counts. *)
Module Tally.
Record t : Type := mk {
  inputs : list InputSample.t;
  requests : nat;
  asked : nat;
  announced : nat;
  drains : nat;
  units : list EncodedAccessUnit.t;
}.
Definition of_log (log : list Entry) : t :=
  mk (accepted_inputs log) (count is_request log) (count is_asking log) (count is_announcement log)
     (count is_drain log) (produced log).
Definition add (x : t) (e : Entry) : t :=
  mk (inputs x ++ option_list (input_of e)) (requests x + if is_request e then 1 else 0)
     (asked x + if is_asking e then 1 else 0) (announced x + if is_announcement e then 1 else 0)
     (drains x + if is_drain e then 1 else 0)
     (units x ++ match e with Asked _ output => kept (good_output output) | _ => [] end).
Lemma of_log_snoc log e : of_log (log ++ [e]) = add (of_log log) e.
Proof. unfold of_log, add. simpl. by rewrite inputs_snoc, !count_snoc, produced_snoc. Qed.
End Tally.

Section contract.
Context {W : Type} `{MediaConstants} `{MediaOs W}.
Implicit Types (tr : nat) (x : Tally.t).

Definition tally (x : Tally.t) (w : W * list Entry) : Prop := Tally.of_log (snd w) = x.

(** A call that the contract does not count. *)
Definition uncounted (c : MfCall) : Prop := 
  match c with ProcessInput _ | ProcessMessage COMMAND_DRAIN => False | _ => True end.

Lemma add_uncounted tr c acc x : uncounted c -> Tally.add x (Called tr c acc) = x.
Proof.
  intros Hc. unfold Tally.add. destruct x, c as [| | | | | |[]| | | | | | | | | | | | | | | | |];
    try done; simpl; by rewrite !app_nil_r, !Nat.add_0_r.
Qed.

Lemma uncounted_call tr c x : uncounted c -> keeps (tally x) (call tr c).
Proof.
  intros Hc w Hw. unfold tally in *. simpl. rewrite Tally.of_log_snoc, Hw. by apply add_uncounted.
Qed.
Hint Extern 2 (uncounted _) => exact I : io.
Hint Resolve uncounted_call : io.

Lemma tally_labelled {A} x label (m : io _ string A) : keeps (tally x) m -> keeps (tally x) (labelled label m).
Proof. apply keeps_map_err. Qed.
Lemma tally_info x tr : keeps (tally x) (output_stream_info tr).
Proof. by intros w Hw. Qed.
Lemma tally_available x tr i : keeps (tally x) (output_available_type tr i).
Proof. by intros w Hw. Qed.
Lemma tally_now x : keeps (tally x) (now_io (E:=string)).
Proof. by intros w Hw. Qed.
Hint Resolve tally_labelled tally_info tally_available tally_now : io.

Lemma tally_output_types n tr x i failures : keeps (tally x) (try_output_types n tr i failures).
Proof.
  revert i failures. induction n as [|n IH]; intros i failures; cbn [try_output_types]; [auto with io|].
  apply keeps_bind; [auto with io|]. intros [mt| |]; [|auto with io..].
  apply keeps_bind; [auto with io|]. intros []; auto with io.
Qed.
Lemma tally_output_sample tr x size : keeps (tally x) (create_output_sample tr size).
Proof. unfold create_output_sample. auto 10 with io. Qed.
Lemma tally_dxgi_sample tr x texture t d : keeps (tally x) (create_dxgi_sample tr texture t d).
Proof. unfold create_dxgi_sample. auto 20 with io. Qed.
Hint Resolve tally_output_sample : io.

(** At most one output was asked for since [x], and it gave [units]. *)
Definition asked_once x (units : list EncodedAccessUnit.t) (w : W * list Entry) : Prop :=
  let y := Tally.of_log (snd w) in
  Tally.inputs y = Tally.inputs x /\ Tally.requests y = Tally.requests x /\ Tally.drains y = Tally.drains x /\
  (Tally.asked y <= Tally.asked x + 1)%nat /\ Tally.announced y = Tally.announced x /\
  Tally.units y = Tally.units x ++ units.

Lemma asked_not x w : tally x w -> asked_once x [] w.
Proof. intros <-. unfold asked_once. rewrite app_nil_r. repeat split; lia. Qed.
Lemma asked_answer tr x output w :
  tally (Tally.add x (Asked tr output)) w -> asked_once x (kept (good_output output)) w.
Proof. unfold asked_once. intros ->. simpl. rewrite ?app_nil_r. repeat split; lia. Qed.

Lemma tally_caller_sample tr x (provided : bool) size :
  keeps (tally x) (if provided then iret None else let* _ := create_output_sample tr size in iret (Some size)).
Proof. auto 10 with io. Qed.

Lemma take_output_tally tr x :
  run_of (tally x) (take_output tr) (fun r => asked_once x (match r with Ok output => kept output | _ => [] end)).
Proof.
  unfold take_output.
  eapply run_bind with (R := fun _ => tally x); [apply tally_labelled, tally_info|by intros; apply asked_not..|].
  intros info. eapply run_bind with (R := fun _ => tally x); [apply tally_caller_sample|by intros; apply asked_not..|].
  intros size. eapply run_bind with (R := fun r w => match r with
    | Ok output => tally (Tally.add x (Asked tr output)) w | _ => False end); [|done..|].
  { intros w Hw. unfold tally in *. simpl. by rewrite Tally.of_log_snoc, Hw. }
  intros output. cbv beta iota.
  assert (Hgive : forall w, tally (Tally.add x (Asked tr output)) w -> asked_once x (kept (good_output output)) w)
    by apply asked_answer.
  unfold good_output in Hgive. destruct (ProcessOutput.result output) as [|e|]; [| |exact Hgive].
  - destruct (ProcessOutput.sample output) as [sample|]; [|exact Hgive].
    intros w Hw%Hgive. unfold ibind, ilift. by destruct (read_access_unit sample).
  - destruct (WinError.error_code e); try exact Hgive.
    eapply run_bind with (R := fun _ => tally (Tally.add x (Asked tr output)));
      [apply tally_output_types|by intros; apply Hgive..|by intros; exact Hgive].
Qed.

Lemma poll_tally tr x encoder :
  run_of (tally x) (poll_event tr encoder) (fun r =>
    tally (Tally.add x (Polled tr (match r with Ok event => event | _ => None end)))).
Proof.
  intros w Hw. unfold poll_event. simpl.
  assert (Hp : forall e, Tally.of_log (snd w ++ [Polled tr e]) = Tally.add x (Polled tr e)).
  { intros e. by rewrite Tally.of_log_snoc, Hw. }
  unfold tally. destruct (snd (get_event tr (fst w))) as [[status kind]|e|]; [|destruct (WinError.error_code e)|];
    try exact (Hp None).
  destruct status as [[]| |]; try exact (Hp None). destruct kind; [exact (Hp (Some _))|exact (Hp None)..].
Qed.

(** *** The live encoder *)
Implicit Types (given : list EncodedAccessUnit.t).

(** An asynchronous encoder whose units so far are [given] to the caller or
    pending. While it is ready, a request has not been answered. *)
Record contract given (self : t) (y : Tally.t) : Prop := {
  is_async : asynchronous self = true;
  inputs_requested : (length (Tally.inputs y) + (if input_ready self then 1 else 0) <= Tally.requests y)%nat;
  outputs_announced : (Tally.asked y <= Tally.announced y)%nat;
  units_conserved : Tally.units y = given ++ pending_outputs self;
  units_have_bytes : Forall (fun u => EncodedAccessUnit.bytes u <> []) (given ++ pending_outputs self);
}.
Definition in_contract given (s : t * (W * list Entry)) : Prop := contract given (fst s) (Tally.of_log (snd (snd s))).

(** A world call that the contract does not count. *)
Lemma contract_world {A} given (f : t -> io _ string A) :
  (forall self x, keeps (tally x) (f self)) -> keeps (in_contract given) (with_owned f).
Proof.
  intros Hf [self w] Hc. pose proof (Hf self _ w eq_refl) as Hw.
  unfold with_owned, on_world, in_contract in *. cbn [fst snd] in *. destruct (f self w) as [w' r].
  cbn [fst snd] in *. red in Hw. by rewrite Hw.
Qed.

Lemma kept_bytes output : Forall (fun u => EncodedAccessUnit.bytes u <> []) (kept output).
Proof. destruct output as [u|]; simpl; [case_bool_decide; auto|constructor]. Qed.

(** A unit moves from the transform to the pending ones. *)
Lemma contract_output given self x y units :
  contract given self x -> (Tally.asked x + 1 <= Tally.announced x)%nat ->
  Tally.inputs y = Tally.inputs x -> Tally.requests y = Tally.requests x -> (Tally.asked y <= Tally.asked x + 1)%nat ->
  Tally.announced y = Tally.announced x -> Tally.units y = Tally.units x ++ units ->
  Forall (fun u => EncodedAccessUnit.bytes u <> []) units ->
  contract given (set_pending self (pending_outputs self ++ units)) y.
Proof.
  intros [Ha Hi Ho Hu Hb] Hx Ei Er Ea En Eu Hn. constructor; simpl; [done|rewrite Ei; lia|lia| |].
  - by rewrite Eu, Hu, app_assoc.
  - rewrite app_assoc. by apply Forall_app.
Qed.

Lemma contract_poll given self x tr e :
  contract given self x -> e <> Some METransformNeedInput -> contract given self (Tally.add x (Polled tr e)).
Proof.
  intros [Ha Hi Ho Hu Hb] Hn. constructor; simpl; rewrite ?app_nil_r; try done; destruct e as [[]|]; simpl; done || lia.
Qed.
Lemma contract_request given self x tr :
  contract given self x -> contract given (set_ready self true) (Tally.add x (Polled tr (Some METransformNeedInput))).
Proof.
  intros [Ha Hi Ho Hu Hb]. constructor; simpl; rewrite ?app_nil_r; try done; [|lia]. destruct (input_ready self); lia.
Qed.

(** An announced output is taken. *)
Lemma contract_taken given self tr x w r :
  contract given self x -> asked_once (Tally.add x (Polled tr (Some METransformHaveOutput)))
    (match r with Ok output => kept output | _ => [] end) w ->
  contract given (set_pending self (pending_outputs self ++ match r : outcome string _ with Ok output => kept output | _ => [] end))
    (Tally.of_log (snd w)).
Proof.
  intros Hc (Ei & Er & Ed & Ea & En & Eu). pose proof (outputs_announced _ _ _ Hc).
  eapply (contract_output _ _ (Tally.add x (Polled tr (Some METransformHaveOutput)))); try done.
  - by apply contract_poll.
  - simpl. lia.
  - destruct r; [apply kept_bytes|constructor..].
Qed.

Lemma set_pending_nothing self : set_pending self (pending_outputs self ++ []) = self.
Proof. rewrite app_nil_r. by destruct self. Qed.

Lemma pump_contract given deadline : keeps (in_contract given) (pump_stream_event deadline).
Proof.
  unfold pump_stream_event. apply keeps_bind; [by apply (contract_world given (fun _ => now_io)); auto with io|].
  intros instant. apply keeps_if; [auto with io|intros _]. apply keeps_bind; [auto with io|]. intros has.
  apply keeps_if; [auto with io|intros _]. intros [self w] Hc.
  pose proof (poll_tally (activation self) _ "real-time encoder" w eq_refl) as Hp.
  unfold ibind at 1, with_owned at 1, on_world at 1. unfold in_contract in *. cbn [fst snd] in *.
  destruct (poll_event _ _ w) as [w1 r]. cbn [fst snd] in *. red in Hp.
  assert (Hq : forall e, Tally.of_log (snd w1) = Tally.add (Tally.of_log (snd w)) (Polled (activation self) e) ->
    e <> Some METransformNeedInput -> contract given self (Tally.of_log (snd w1))).
  { intros e -> He. by apply contract_poll. }
  destruct r as [[[]|]|e|f]; try (by eapply Hq).
  - cbn. rewrite Hp. by apply contract_request.
  - pose proof (take_output_tally (activation self) _ w1 Hp) as Ht.
    unfold ibind, with_owned, on_world. cbn [fst snd]. destruct (take_output _ w1) as [w2 r]. cbn [fst snd] in Ht.
    apply (contract_taken given self) in Ht; [|done]. destruct r; cbn [fst snd iput] in *; rewrite ?set_pending_nothing in Ht;
      exact Ht.
Qed.

Lemma await_input_contract given fuel deadline :
  run_of (in_contract given) (await_input fuel deadline)
    (fun r s => in_contract given s /\ (accepted r = true -> input_ready (fst s) = true)).
Proof.
  induction fuel as [|fuel IH]; cbn [await_input]; [intros s Hs; by split|].
  apply run_get. intros [].
  - intros s [Hs Hr]. by split.
  - eapply run_bind with (R := fun _ => in_contract given); [|by split..|intros ?; apply IH].
    intros s [Hs _]. by apply pump_contract.
Qed.

Lemma await_output_contract given fuel deadline ts (b : bool) :
  run_of (fun s => in_contract given s /\ (b = true -> matching ts (pending_outputs (fst s)) = true))
    (await_output fuel deadline ts b)
    (fun r s => in_contract given s /\ (accepted r = true -> matching ts (pending_outputs (fst s)) = true)).
Proof.
  revert b. induction fuel as [|fuel IH]; intros b; cbn [await_output]; [intros s [Hs _]; by split|].
  destruct b; [intros s [Hs Hm]; split; auto|].
  eapply run_bind with (R := fun _ => in_contract given); [|by split..|].
  - intros s [Hs _]. by apply pump_contract.
  - intros ?. apply run_get. intros b. eapply run_weaken; [apply (IH b)| |by intros].
    intros s [Hs Hm]. split; [done|]. by intros ->.
Qed.

(** The input that uses up a request. *)
Lemma submit_contract given sample :
  run_of (fun s => in_contract given s /\ input_ready (fst s) = true)
    (submit_texture sample) (fun _ => in_contract given).
Proof.
  intros [self w] [[Ha Hi Ho Hu Hb] Hr]. cbn [fst snd] in *. rewrite Hr in Hi.
  unfold submit_texture, ibind, process_input, with_owned, on_world, labelled, imap_err, in_contract. cbn [fst snd].
  pose proof (Tally.of_log_snoc (snd w)) as Hs. cbn [call recording_media]. unfold also.
  destruct (call (activation self) (ProcessInput sample) (fst w)) as [w' r]. cbn [fst snd].
  destruct r; cbn [map_err fst snd iput]; rewrite Hs; clear Hs; revert Hi Ho Hu;
    generalize (Tally.of_log (snd w)); intros x Hi Ho Hu; constructor; simpl; rewrite ?Hr, ?app_nil_r, ?length_app; try done; simpl; lia.
Qed.

(** The outcome of one texture. *)
Definition delivered (ts : Z) given (r : outcome string (list EncodedAccessUnit.t)) (s : t * (W * list Entry)) : Prop :=
  match r with
  | Ok units => in_contract (given ++ units) s /\ pending_outputs (fst s) = [] /\ matching ts units = true
  | _ => in_contract given s
  end.

Lemma drain_contract given ts :
  run_of (fun s => in_contract given s /\ matching ts (pending_outputs (fst s)) = true) drain_pending (delivered ts given).
Proof.
  intros [self w] [[Ha Hi Ho Hu Hb] Hm]. cbn in *. split_and!; [|done..].
  constructor; simpl; rewrite ?app_nil_r; done.
Qed.

Lemma encode_texture_contract given fuel texture ts :
  run_of (in_contract given) (encode_texture fuel texture ts) (delivered ts given).
Proof.
  unfold encode_texture.
  apply run_get. intros self. set (tr := activation self).
  assert (Hself : forall s, in_contract given s /\ fst s = self -> in_contract given s) by by intros s [].
  destruct (asynchronous self) eqn:Hasync; [|intros s [Hs <-]; by rewrite (is_async _ _ _ Hs) in Hasync].
  eapply run_weaken with (P := in_contract given); [|exact Hself|done]. clear Hself Hasync.
  eapply run_bind with (R := fun _ => in_contract given); [by intros ?|done..|]. intros _.
  eapply run_bind with (R := fun _ => in_contract given); [by intros ?|done..|]. intros d.
  eapply run_bind with (R := fun _ => in_contract given); [apply contract_world; intros; apply tally_dxgi_sample|done..|].
  intros sample. unfold encode_texture_async.
  eapply run_bind with (R := fun _ => in_contract given); [apply (contract_world given (fun _ => now_io)); auto with io|done..|].
  intros start. eapply run_bind; [apply await_input_contract|by intros ?? []..|]. intros ?. cbn [accepted].
  eapply run_bind with (R := fun _ => in_contract given); [|done..|].
  { intros s [Hs Hr]. apply submit_contract. auto. }
  intros ?. eapply run_bind with (R := fun r s => in_contract given s /\
    (accepted r = true -> matching ts (pending_outputs (fst s)) = true)); [|by intros ?? []..|].
  - eapply run_weaken; [apply (await_output_contract given fuel _ ts false)| |intros r s2 Hs2; exact Hs2].
    intros s2 Hs2. by split.
  - intros ?. cbn [accepted]. intros s2 [Hs2 Hm]. apply drain_contract. auto.
Qed.

(** What the caller was given by a run of textures. *)
Definition returned (rs : list (outcome string (list EncodedAccessUnit.t))) : list EncodedAccessUnit.t :=
  concat (map (fun r => match r with Ok units => units | _ => [] end) rs).

(** A batch answers its texture: some unit is not older. *)
Definition answers (job : Texture2D.t * Z) (r : outcome string (list EncodedAccessUnit.t)) : Prop :=
  match r with
  | Ok units => exists u time, u ∈ units /\ EncodedAccessUnit.timestamp_100ns u = Some time /\ snd job <= time
  | _ => True
  end.

Lemma matching_not_older ts units : matching ts units = true ->
  exists u time, u ∈ units /\ EncodedAccessUnit.timestamp_100ns u = Some time /\ ts <= time.
Proof.
  intros (u & Hin & Ht)%existsb_exists. apply list_elem_of_In in Hin.
  destruct (EncodedAccessUnit.timestamp_100ns u) as [time|] eqn:Hu; [|done]. apply Z.leb_le in Ht. by exists u, time.
Qed.

Lemma encode_textures_contract given fuel jobs :
  run_of (in_contract given) (encode_textures fuel jobs)
    (fun r s => (exists given', in_contract given' s) /\
       (forall rs, r = Ok rs -> in_contract (given ++ returned rs) s /\ Forall2 answers jobs rs)).
Proof.
  revert given. induction jobs as [|[texture ts] jobs IH]; intros given; cbn [encode_textures].
  { intros s Hs. split; [by eexists|]. intros rs [= <-]. unfold returned. simpl. by rewrite app_nil_r. }
  eapply run_bind; [apply run_catch, (encode_texture_contract given)|done|intros s f Hs; split; [by exists given|done]|].
  intros r. cbv beta iota.
  assert (Hr : forall s, delivered ts given r s -> in_contract (given ++ returned [r]) s /\ answers (texture, ts) r).
  { intros s. unfold returned. destruct r; simpl; rewrite app_nil_r; [|tauto..].
    intros (Hs & _ & Hm). split; [done|]. by apply matching_not_older. }
  eapply run_weaken with (P := fun s => in_contract (given ++ returned [r]) s /\ answers (texture, ts) r);
    [|exact Hr|intros ?? Hx; exact Hx].
  eapply run_bind with (R := fun r' s => answers (texture, ts) r /\ (exists given', in_contract given' s) /\
    (forall rs, r' = Ok rs -> in_contract ((given ++ returned [r]) ++ returned rs) s /\ Forall2 answers jobs rs)).
  - intros s [Hs Ha]. split; [done|]. by apply IH.
  - intros s e (Ha & Hs & _). by split.
  - intros s f (Ha & Hs & _). by split.
  - intros rest s (Ha & Hs & Hok). cbn. split; [done|]. intros rs [= <-]. destruct (Hok rest eq_refl) as [Hin Hall].
    split; [|by constructor]. revert Hin. unfold returned. simpl. by rewrite app_nil_r, <-app_assoc.
Qed.

Lemma fresh_contract self (w : W) :
  asynchronous self = true -> input_ready self = false -> pending_outputs self = [] -> in_contract [] (self, (w, [])).
Proof. intros Ha Hr Hp. constructor; cbn; rewrite ?Hr, ?Hp; done || constructor. Qed.

(** C22: an asynchronous encoder that starts with nothing asked for is fed only on
    request and asked only on announcement: at any moment it has accepted at most
    as many textures as it requested, and was asked at most as often as it
    announced an output, whatever textures fail. *)
Theorem async_contract_is_kept fuel jobs self (w : W)
  (Hasync : asynchronous self = true) (Hready : input_ready self = false) (Hnone : pending_outputs self = []) :
  let log := snd (snd (fst (encode_textures fuel jobs (self, (w, []))))) in
  (length (accepted_inputs log) <= count is_request log)%nat /\ (count is_asking log <= count is_announcement log)%nat.
Proof.
  destruct (encode_textures_contract [] fuel jobs _ (fresh_contract self w Hasync Hready Hnone)) as [[given [_ Hi Ho _ _]] _].
  cbn in *. split; [lia|done].
Qed.

(** *** What the outputs hold *)

(** An output of Media Foundation yields an access unit: the call succeeded and gave a
    sample whose buffer could be made contiguous, is not empty and could be locked and
    unlocked; the unit has the locked bytes, the times the sample tells, and is a key
    frame where the sample is marked as a clean point or its bytes hold a picture that
    stands alone. *)
Inductive yields (output : ProcessOutput.t) (u : EncodedAccessUnit.t) : Prop :=
| yields_unit (sample : OutputSample.t) (length : Z) :
    ProcessOutput.result output = Ok tt -> ProcessOutput.sample output = Some sample ->
    OutputSample.contiguous sample = Ok tt ->
    OutputSample.current_length sample = Ok length -> length <> 0 ->
    OutputSample.locked sample = Ok (Some (EncodedAccessUnit.bytes u)) -> EncodedAccessUnit.bytes u <> [] ->
    OutputSample.unlocked sample = Ok tt ->
    (forall time, EncodedAccessUnit.timestamp_100ns u = Some time <-> OutputSample.time sample = Ok time) ->
    (forall time, EncodedAccessUnit.duration_100ns u = Some time <-> OutputSample.duration sample = Ok time) ->
    (EncodedAccessUnit.keyframe u = true <->
     (exists mark, OutputSample.clean_point sample = Ok mark /\ mark <> 0) \/
     exists i header, i ∈ start_codes (EncodedAccessUnit.bytes u) /\
       EncodedAccessUnit.bytes u !! (i + 3)%nat = Some header /\ Z.land (byte_to_Z header) 0x1f = 5) ->
    yields output u.

(** The units of a list of outputs, in order; an output that yields none is passed over. *)
Inductive collected : list ProcessOutput.t -> list EncodedAccessUnit.t -> Prop :=
| collected_nil : collected [] []
| collected_none output outputs units :
    (forall u, ~ yields output u) -> collected outputs units -> collected (output :: outputs) units
| collected_unit output outputs u units :
    yields output u -> collected outputs units -> collected (output :: outputs) (u :: units).

(** The answers of the transform when it was asked for output. *)
Definition outputs_of (log : list Entry) : list ProcessOutput.t :=
  omap (fun e => match e with Asked _ output => Some output | _ => None end) log.

Lemma ok_told {A} (m : outcome string A) a : ok m = Some a <-> m = Ok a.
Proof. destruct m; cbn; naive_solver. Qed.

Lemma read_bytes_ok sample bytes : bytes <> [] ->
  read_sample_bytes sample = Ok bytes <->
  OutputSample.contiguous sample = Ok tt /\ OutputSample.locked sample = Ok (Some bytes) /\
  OutputSample.unlocked sample = Ok tt /\ exists length, OutputSample.current_length sample = Ok length /\ length <> 0.
Proof.
  intros Hne. unfold read_sample_bytes.
  destruct (OutputSample.contiguous sample) as [[]| |]; cbn; [|naive_solver..].
  destruct (OutputSample.current_length sample) as [n| |]; cbn; [|naive_solver..].
  destruct (Z.eqb_spec n 0) as [->|Hn]; [naive_solver|].
  destruct (OutputSample.locked sample) as [[b|]| |]; cbn; [|naive_solver..].
  destruct (OutputSample.unlocked sample) as [[]| |]; cbn; naive_solver.
Qed.

Lemma keyframe_marked sample bytes :
  (match ok (OutputSample.clean_point sample) with Some value => negb (value =? 0) | None => false end)
    || annex_b_contains_idr bytes = true <->
  (exists mark, OutputSample.clean_point sample = Ok mark /\ mark <> 0) \/
  exists i header, i ∈ start_codes bytes /\ bytes !! (i + 3)%nat = Some header /\ Z.land (byte_to_Z header) 0x1f = 5.
Proof.
  rewrite orb_true_iff, contains_idr_codes. apply or_iff_compat_r.
  destruct (OutputSample.clean_point sample) as [v| |]; cbn; [|naive_solver..].
  rewrite negb_true_iff, Z.eqb_neq. naive_solver.
Qed.

Lemma kept_yields output u : u ∈ kept (good_output output) <-> yields output u.
Proof.
  unfold good_output. split.
  - destruct (ProcessOutput.result output) as [[]| |] eqn:Hr, (ProcessOutput.sample output) as [sample|] eqn:Hs;
      try by intros ?%not_elem_of_nil.
    unfold read_access_unit. destruct (read_sample_bytes sample) as [bytes| |] eqn:Hb; cbn; try by intros ?%not_elem_of_nil.
    case_bool_decide as Hne; [by intros ?%not_elem_of_nil|]. intros ->%list_elem_of_singleton.
    apply read_bytes_ok in Hb as (Hc & Hl & Hu & n & Hn & Hpos); [|done].
    apply (yields_unit _ _ sample n); cbn; try done; [intros; apply ok_told..|apply keyframe_marked].
  - intros [sample n Hr Hs Hc Hn Hpos Hl Hne Hu Ht Hd Hk]. rewrite Hr, Hs. unfold read_access_unit.
    assert (Hb : read_sample_bytes sample = Ok (EncodedAccessUnit.bytes u)) by (apply read_bytes_ok; [done|]; naive_solver).
    rewrite Hb. cbn. rewrite bool_decide_false by done. apply list_elem_of_singleton.
    destruct u as [bytes time duration key]. cbn in *. f_equal.
    + apply option_eq. intros t. by rewrite Ht, ok_told.
    + apply option_eq. intros t. by rewrite Hd, ok_told.
    + apply eq_true_iff_eq. etransitivity; [exact Hk|]. symmetry. exact (keyframe_marked sample bytes).
Qed.

Lemma kept_single output : kept output = [] \/ exists u, kept output = [u].
Proof. destruct output; cbn; [case_bool_decide|]; eauto. Qed.

Lemma produced_collected log : collected (outputs_of log) (produced log).
Proof.
  induction log as [|e log IH]; [constructor|]. unfold produced, outputs_of in *. cbn.
  destruct e as [| |tr output]; [done..|]. cbn.
  pose proof (kept_yields output) as Hy. destruct (kept_single (good_output output)) as [Hk|[u Hk]]; rewrite Hk in Hy |- *; cbn.
  - apply collected_none; [|done]. intros u Hu%Hy. by apply not_elem_of_nil in Hu.
  - apply collected_unit; [|done]. apply Hy, list_elem_of_singleton. done.
Qed.

(** C23: no encoded unit is lost, repeated or reordered: whatever an asynchronous
    encoder answered when it was asked for output, the units these answers yield are,
    in order, those of the batches the caller was given followed by those still pending,
    even where textures in between failed; every batch holds a unit at least as late as
    its texture. *)
Theorem encoded_units_are_conserved fuel jobs self (w : W) s rs
  (Hasync : asynchronous self = true) (Hready : input_ready self = false) (Hnone : pending_outputs self = [])
  (Hrun : encode_textures fuel jobs (self, (w, [])) = (s, Ok rs)) :
  collected (outputs_of (snd (snd s))) (returned rs ++ pending_outputs (fst s)) /\ Forall2 answers jobs rs.
Proof.
  destruct (encode_textures_contract [] fuel jobs _ (fresh_contract self w Hasync Hready Hnone)) as [_ Hok].
  rewrite Hrun in Hok. destruct (Hok rs eq_refl) as [[_ _ _ Hu _] Hall]. split; [|done].
  cbn in Hu. rewrite <-Hu. apply produced_collected.
Qed.
End contract.

Section lifecycle.
Context {W : Type} `{MediaConstants} `{MediaOs W}.

Lemma keeps_live_textures fuel jobs : keeps live (encode_textures (W:=W * list Entry) fuel jobs).
Proof.
  induction jobs as [|[texture ts] jobs IH]; cbn [encode_textures]; [auto with io|].
  apply keeps_bind; [apply keeps_catch, keeps_live_encode|]. auto with io.
Qed.

(** C21: the calls of an encoder come in the order Media Foundation asks for. The
    probe and the live encoder open at most one transform at a time, bind its D3D
    manager before its types, set the output type before the input type, begin
    and start the stream after both, give it samples and drain or flush it only
    then, and clear the manager before the shutdown; when the probe returns, when
    no encoder starts, and when the live encoder is dropped, nothing is left open. *)
Theorem encoder_sessions_are_ordered fuel config (w : W) start_frame_index frame_count jobs :
  (let (w', r) := encode_synthetic_h264 fuel config start_frame_index frame_count (w, []) in
   returns r -> session (snd w') = Some Idle) /\
  (let (w', r) := HardwareH264Encoder.start config (w, []) in
   match r with
   | Ok self =>
     input_ready self = negb (asynchronous self) /\ pending_outputs self = [] /\
     (let (s, _) := encode_textures fuel jobs (self, w') in
      session (snd (snd s)) = Some (Open (activation (fst s)) Streaming (d3d_manager (fst s))) /\
      session (snd (HardwareH264Encoder.drop (fst s) (snd s))) = Some Idle)
   | Err _ => session (snd w') = Some Idle
   | Fault _ => True
   end).
Proof.
  split.
  - pose proof (encode_synthetic_idle fuel config start_frame_index frame_count (w, []) eq_refl) as Hi.
    by destruct (encode_synthetic_h264 _ _ _ _ _) as [w' r].
  - pose proof (encoder_start_ends config (w, []) eq_refl) as Hs. unfold unless_panic, started in Hs.
    destruct (HardwareH264Encoder.start config (w, [])) as [w' [self|e|f]]; cbn [fst snd returns] in *; [|by apply Hs|done].
    destruct (Hs I) as (Hat & Hr & Hp). split_and!; [done..|].
    pose proof (keeps_live_textures fuel jobs (self, w') Hat) as Hl.
    destruct (encode_textures fuel jobs (self, w')) as [s r]. cbn [fst] in Hl.
    split; [exact Hl|]. destruct s as [self' w2]. by apply drop_closes.
Qed.
End lifecycle.

(** ** The batch *)

(** The sample of a synthetic frame. *)
Definition is_frame (config : H264EncoderConfig.t) (index : Z) (sample : InputSample.t) : Prop :=
  exists frame duration,
    synthetic_nv12_frame (H264EncoderConfig.width config) (H264EncoderConfig.height config) index = Ok frame /\
    H264EncoderConfig.frame_duration_100ns config = Ok duration /\
    sample = InputSample.mk (Bytes frame) (index * duration) duration.

(** Where a batch stands: the first [n] frames are submitted, in order. *)
Record progress (config : H264EncoderConfig.t) (start_frame_index frame_count n : Z) (draining : bool)
    (units : list EncodedAccessUnit.t) (y : Tally.t) : Prop := {
  frames_in_order : Forall2 (is_frame config) (seqZ start_frame_index n) (Tally.inputs y);
  frames_bounded : 0 <= n <= frame_count;
  units_collected : Tally.units y = units;
  drained_once : Tally.drains y = if draining then 1%nat else 0%nat;
  drained_last : draining = true -> n = frame_count;
}.

Section batches.
Context {W : Type} `{MediaConstants} `{MediaOs W}.
Implicit Types (tr : nat) (x : Tally.t) (config : H264EncoderConfig.t).
Hint Extern 2 (uncounted _) => exact I : io.
Hint Resolve uncounted_call tally_labelled tally_now tally_output_sample : io.

Lemma tally_lock x tr : keeps (tally x) (lock_buffer (W:=W * list Entry) tr).
Proof. by intros w Hw. Qed.
Hint Resolve tally_lock : io.

Lemma tally_write_buffer x tr l : keeps (tally x) (write_buffer (W:=W * list Entry) tr l).
Proof. unfold write_buffer. apply keeps_bind; [auto with io|]. intros [null capacity]. auto 10 with io. Qed.
Hint Resolve tally_write_buffer : io.

Lemma tally_nv12_sample x tr config i : keeps (tally x) (create_nv12_sample (W:=W * list Entry) tr config i).
Proof. unfold create_nv12_sample. auto 30 with io. Qed.

Lemma nv12_sample_is_frame tr config i (w w' : W * list Entry) sample :
  create_nv12_sample tr config i w = (w', Ok sample) -> is_frame config i sample.
Proof.
  unfold create_nv12_sample. intros (w1 & frame & Hf & Hrun)%ibind_ok_inv. injection Hf as <- Hf.
  do 5 (apply ibind_ok_inv in Hrun as (? & ? & _ & Hrun)).
  apply ibind_ok_inv in Hrun as (? & d & Hd & Hrun). injection Hd as <- Hd.
  apply ibind_ok_inv in Hrun as (? & t & Ht & Hrun). injection Ht as <- Ht.
  do 2 (apply ibind_ok_inv in Hrun as (? & ? & _ & Hrun)). injection Hrun as _ <-.
  exists frame, d. split_and!; [done|done|]. unfold chk_i in Ht. case_match; [|done]. by injection Ht as <-.
Qed.

(** [progress] of the recorded calls. *)
Definition so_far config (start_frame_index frame_count n : Z) (draining : bool) (units : list EncodedAccessUnit.t)
    (w : W * list Entry) : Prop :=
  progress config start_frame_index frame_count n draining units (Tally.of_log (snd w)).

Lemma submit_progress tr config start_frame_index frame_count n draining units :
  n < frame_count ->
  run_of (so_far config start_frame_index frame_count n draining units) (submit_frame tr config start_frame_index n)
    (on_ok (fun m w => m = n + 1 /\ so_far config start_frame_index frame_count m draining units w)).
Proof.
  intros Hn w Hp. unfold so_far in *. destruct (submit_frame tr config start_frame_index n w) as [w' [m| |]] eqn:Hrun;
    [|done..]. unfold submit_frame in Hrun. simpl.
  apply ibind_ok_inv in Hrun as (w1 & index & Hi & Hrun). injection Hi as <- Hi.
  apply ok_or_ok_inv, checked_Some in Hi as [-> _].
  apply ibind_ok_inv in Hrun as (w2 & sample & Hs & Hrun).
  pose proof (tally_nv12_sample _ tr config (start_frame_index + n) w eq_refl) as Ht. rewrite Hs in Ht.
  apply nv12_sample_is_frame in Hs. cbn [fst] in Ht. red in Ht. rewrite <-Ht in Hp. clear Ht w.
  apply ibind_ok_inv in Hrun as (w3 & ? & Hcall & Hrun). apply imap_err_ok_inv in Hcall.
  injection Hrun as <- Hm. apply chk_ok_inv in Hm as [-> _]. split; [done|].
  assert (Tally.of_log (snd w3) = Tally.add (Tally.of_log (snd w2)) (Called tr (ProcessInput sample) true)) as ->.
  { rewrite <-Tally.of_log_snoc. f_equal. cbn in Hcall. unfold also in Hcall. injection Hcall as <- Hr. simpl.
    by rewrite Hr. }
  destruct Hp as [Hf Hb Hu Hd Hl]. constructor; simpl; rewrite ?app_nil_r, ?Nat.add_0_r; try done.
  - rewrite seqZ_app by lia. by apply Forall2_app; [|repeat constructor].
  - lia.
  - intros ->. rewrite Hl in Hn by done. lia.
Qed.

Lemma so_far_keeps config start_frame_index frame_count n draining units w w' :
  so_far config start_frame_index frame_count n draining units w -> Tally.of_log (snd w') = Tally.of_log (snd w) ->
  so_far config start_frame_index frame_count n draining units w'.
Proof. unfold so_far. by intros ? ->. Qed.

(** Calls that are not counted. *)
Lemma keeps_so_far {A} config start_frame_index frame_count n draining units (m : io (W * list Entry) string A) :
  (forall x, keeps (tally x) m) -> keeps (so_far config start_frame_index frame_count n draining units) m.
Proof. intros Hm w Hw. eapply so_far_keeps; [exact Hw|]. by apply (Hm _ w). Qed.

Lemma poll_progress tr encoder config start_frame_index frame_count n draining units :
  keeps (so_far config start_frame_index frame_count n draining units) (poll_event tr encoder).
Proof.
  intros w [Hf Hb Hu Hd Hl]. pose proof (poll_tally tr _ encoder w eq_refl) as Hp. red in Hp. unfold so_far.
  rewrite Hp. constructor; simpl; rewrite ?app_nil_r, ?Nat.add_0_r; done.
Qed.

Lemma output_progress tr config start_frame_index frame_count n draining units :
  run_of (so_far config start_frame_index frame_count n draining units) (take_output tr) (fun r =>
    so_far config start_frame_index frame_count n draining
      (units ++ match r with Ok output => kept output | _ => [] end)).
Proof.
  intros w [Hf Hb Hu Hd Hl]. destruct (take_output_tally tr _ w eq_refl) as (Ei & Er & Ed & Ea & En & Eu).
  constructor; [by rewrite Ei|done|by rewrite Eu, Hu|by rewrite Ed|done].
Qed.

Lemma drain_progress tr config start_frame_index frame_count units :
  run_of (so_far config start_frame_index frame_count frame_count false units) (drain_messages tr)
    (on_ok (fun _ => so_far config start_frame_index frame_count frame_count true units)).
Proof.
  unfold drain_messages.
  eapply run_bind_ok with (R := fun _ => so_far config start_frame_index frame_count frame_count false units).
  - apply run_of_keeps, keeps_so_far. auto with io.
  - intros ? w [Hf Hb Hu Hd Hl]. cbn. unfold also.
    destruct (call tr (ProcessMessage COMMAND_DRAIN) (fst w)) as [w' [u|e|f]]; cbn; [|done..].
    red. cbn [fst snd]. rewrite Tally.of_log_snoc. revert Hf Hu Hd. generalize (Tally.of_log (snd w)). intros x Hf Hu Hd.
    constructor; simpl; rewrite ?app_nil_r, ?Hd; done.
Qed.

(** The end of a batch: where it stands, and that it stands there. *)
Definition stands config (start_frame_index frame_count : Z) (probe : EncodedProbe.t) (w : W * list Entry) : Prop :=
  exists draining, so_far config start_frame_index frame_count (EncodedProbe.frames_submitted probe) draining
    (EncodedProbe.access_units probe) w.

Lemma pump_progress fuel tr started config start_frame_index frame_count units n draining :
  run_of (so_far config start_frame_index frame_count n draining units)
    (pump_batch fuel tr started config start_frame_index frame_count units n draining)
    (on_ok (fun r => stands config start_frame_index frame_count (fst r))).
Proof.
  revert units n draining. induction fuel as [|fuel IH]; intros units n draining; cbn [pump_batch]; [by intros w Hw|].
  eapply run_bind_ok with (R := fun _ => so_far config start_frame_index frame_count n draining units).
  { apply run_of_keeps, keeps_so_far. auto with io. }
  intros now. destruct (PROBE_TIMEOUT <=? elapsed_since started now); [intros w Hw; by exists draining|].
  eapply run_bind_ok with (R := fun _ => so_far config start_frame_index frame_count n draining units).
  { apply run_of_keeps, poll_progress. }
  intros [[]|]; try apply IH.
  - destruct (Z.ltb_spec n frame_count).
    + eapply run_bind_ok; [by apply submit_progress|]. intros m w [-> Hw]. by apply IH.
    + destruct draining; [apply IH|]. cbn [negb]. intros w Hw. assert (n = frame_count) as ->.
      { destruct (frames_bounded _ _ _ _ _ _ _ Hw). lia. }
      revert w Hw. eapply run_bind_ok; [apply drain_progress|]. intros ?. apply IH.
  - eapply run_bind_ok with (R := fun output => so_far config start_frame_index frame_count n draining (units ++ kept output)).
    + eapply run_weaken; [apply output_progress|done|]. by intros [] ? ?.
    + intros output. apply IH.
  - intros w Hw. by exists draining.
Qed.

(** *** The synchronous batch *)
Lemma caught_output_progress tr config start_frame_index frame_count n draining units :
  run_of (so_far config start_frame_index frame_count n draining units) (icatch (F:=string) (take_output tr))
    (on_ok (fun r => so_far config start_frame_index frame_count n draining
      (units ++ match r with Ok output => kept output | _ => [] end))).
Proof.
  eapply run_weaken; [apply run_catch, output_progress|done|]. by intros [] w.
Qed.

Lemma take_outputs_progress fuel tr config start_frame_index frame_count n draining units :
  run_of (so_far config start_frame_index frame_count n draining units) (take_outputs fuel tr units)
    (on_ok (fun units => so_far config start_frame_index frame_count n draining units)).
Proof.
  revert units. induction fuel as [|fuel IH]; intros units; cbn [take_outputs]; [by intros w Hw|].
  eapply run_bind_ok; [apply caught_output_progress|]. intros [[u|]|e|f]; [apply IH|..].
  - intros w Hw. by rewrite app_nil_r in Hw.
  - rewrite app_nil_r. destruct (contains _ e); by intros w Hw.
  - by intros w Hw.
Qed.

Lemma drain_outputs_progress fuel tr started config start_frame_index frame_count n draining units :
  run_of (so_far config start_frame_index frame_count n draining units) (drain_outputs fuel tr started units)
    (on_ok (fun units => so_far config start_frame_index frame_count n draining units)).
Proof.
  revert units. induction fuel as [|fuel IH]; intros units; cbn [drain_outputs]; [by intros w Hw|].
  eapply run_bind_ok with (R := fun _ => so_far config start_frame_index frame_count n draining units).
  { apply run_of_keeps, keeps_so_far. auto with io. }
  intros now. destruct (elapsed_since started now <? PROBE_TIMEOUT); [|by intros w Hw].
  eapply run_bind_ok; [apply caught_output_progress|]. intros [output|e|f]; [apply IH|..].
  - rewrite app_nil_r. destruct (contains _ e); by intros w Hw.
  - by intros w Hw.
Qed.

Lemma submit_all_progress fuel tr started config start_frame_index frame_count units n :
  run_of (so_far config start_frame_index frame_count n false units)
    (submit_all fuel tr started config start_frame_index frame_count units n)
    (on_ok (fun probe => so_far config start_frame_index frame_count (EncodedProbe.frames_submitted probe) false
       (EncodedProbe.access_units probe))).
Proof.
  revert units n. induction fuel as [|fuel IH]; intros units n; cbn [submit_all]; [by intros w Hw|].
  destruct (Z.ltb_spec n frame_count); [|by intros w Hw].
  eapply run_bind_ok with (R := fun _ => so_far config start_frame_index frame_count n false units).
  { apply run_of_keeps, keeps_so_far. auto with io. }
  intros now. destruct (elapsed_since started now <? PROBE_TIMEOUT); [|by intros w Hw].
  eapply run_bind_ok; [by apply submit_progress|]. intros m w [-> Hw]. revert w Hw.
  eapply run_bind_ok; [apply take_outputs_progress|]. intros units'. apply IH.
Qed.

Lemma encode_async_stands fuel tr started config start_frame_index frame_count :
  0 <= frame_count ->
  run_of (fun w => snd w = []) (encode_async fuel tr started config start_frame_index frame_count)
    (on_ok (stands config start_frame_index frame_count)).
Proof.
  intros Hc. unfold encode_async.
  eapply run_bind_ok with (R := fun _ => so_far config start_frame_index frame_count 0 false []).
  - intros w Hw. apply (run_of_keeps (so_far config start_frame_index frame_count 0 false [])).
    + apply keeps_so_far. auto with io.
    + red. rewrite Hw. constructor; cbn; [rewrite seqZ_nil by lia; constructor|lia|done..].
  - intros ?. eapply run_bind_ok; [apply pump_progress|]. intros [probe []] w Hw; [exact Hw|exact I].
Qed.

Lemma encode_sync_stands fuel tr started config start_frame_index frame_count :
  0 <= frame_count ->
  run_of (fun w => snd w = []) (encode_sync fuel tr started config start_frame_index frame_count)
    (on_ok (fun probe w => EncodedProbe.frames_submitted probe = frame_count /\
       so_far config start_frame_index frame_count frame_count true (EncodedProbe.access_units probe) w)).
Proof.
  intros Hc. unfold encode_sync. eapply run_weaken with (P := so_far config start_frame_index frame_count 0 false []);
    [| |intros r w Hw; exact Hw].
  - eapply run_bind_ok; [apply submit_all_progress|]. intros probe.
    destruct (Z.ltb_spec (EncodedProbe.frames_submitted probe) frame_count) as [|Hn]; [by intros w Hw|].
    intros w Hw. assert (Heq : EncodedProbe.frames_submitted probe = frame_count).
    { destruct (frames_bounded _ _ _ _ _ _ _ Hw). lia. }
    rewrite Heq in Hw |- *. revert w Hw. eapply run_bind_ok; [apply drain_progress|]. intros ?.
    eapply run_bind_ok; [apply drain_outputs_progress|]. intros units w Hw. by split.
  - intros w Hw. red. rewrite Hw. constructor; cbn; [rewrite seqZ_nil by lia; constructor|lia|done..].
Qed.

(** A batch that succeeds submitted the synthetic frames from the start index
    on, each once and in order, with the times of the frame rate; it returns
    exactly the units the transform produced, in order, without the empty ones;
    and it drained the transform at most once, after the last frame. A synchronous
    batch always submitted them all and drained. *)
Theorem batches_are_exact fuel tr (asynchronous : bool) started config start_frame_index frame_count (w : W) w' probe
  (Hcount : 0 <= frame_count)
  (Hrun : (if asynchronous then encode_async fuel tr started config start_frame_index frame_count
           else encode_sync fuel tr started config start_frame_index frame_count) (w, []) = (w', Ok probe)) :
  let n := EncodedProbe.frames_submitted probe in
  Forall2 (is_frame config) (seqZ start_frame_index n) (accepted_inputs (snd w')) /\ n <= frame_count /\
  EncodedProbe.access_units probe = produced (snd w') /\
  (count is_drain (snd w') <= 1)%nat /\ (count is_drain (snd w') = 1%nat -> n = frame_count) /\
  (asynchronous = false -> n = frame_count /\ count is_drain (snd w') = 1%nat).
Proof.
  intros n. assert (exists draining, so_far config start_frame_index frame_count n draining (EncodedProbe.access_units probe) w' /\
    (asynchronous = false -> n = frame_count /\ draining = true)) as (draining & [Hf Hb Hu Hd Hl] & Hs).
  { destruct asynchronous.
    - pose proof (encode_async_stands fuel tr started config start_frame_index frame_count Hcount (w, []) eq_refl) as Hs.
      rewrite Hrun in Hs. destruct Hs as [draining Hs]. by exists draining.
    - pose proof (encode_sync_stands fuel tr started config start_frame_index frame_count Hcount (w, []) eq_refl) as Hs.
      rewrite Hrun in Hs. destruct Hs as [Hn Hs]. exists true. unfold n. rewrite Hn. by split. }
  cbn in Hf, Hu, Hd. split_and!; try done; [lia|..].
  - rewrite Hd. destruct draining; lia.
  - rewrite Hd. destruct draining; [auto|done].
  - intros Ha. destruct (Hs Ha) as [? ->]. auto.
Qed.
End batches.

(** ** Waits end

    The documented behaviour the termination of the loops relies on: calls answer,
    the clock never runs backwards, a poll takes time, a sleep lasts, and each
    output a transform gives, or each change of its format, uses up some of what it
    holds back ([backlog]) until it needs more input. *)
Class MediaOsLaws (W : Type) `{MediaOs W} : Type := {
  media_clock : W -> Z;
  backlog : nat -> W -> nat;
  call_answers tr c w : returns (snd (call tr c w));
  info_answers tr w : returns (snd (output_stream_info tr w));
  available_answers tr i w : returns (snd (output_available_type tr i w));
  event_answers tr w :
    match snd (get_event tr w) with
    | Ok event => returns (MediaEvent.status event) /\ returns (MediaEvent.kind event) /\
                  (forall r, MediaEvent.status event = Ok r -> returns r)
    | Err _ => True
    | Fault _ => False
    end;
  output_answers tr size w :
    returns (ProcessOutput.result (snd (process_output tr size w))) /\
    (forall sample, ProcessOutput.sample (snd (process_output tr size w)) = Some sample -> returns (read_access_unit sample));
  clock_call tr c w : media_clock w <= media_clock (fst (call tr c w));
  clock_info tr w : media_clock w <= media_clock (fst (output_stream_info tr w));
  clock_available tr i w : media_clock w <= media_clock (fst (output_available_type tr i w));
  clock_output tr size w : media_clock w <= media_clock (fst (process_output tr size w));
  clock_event tr w : media_clock w < media_clock (fst (get_event tr w));
  clock_media_now w : media_clock w <= snd (media_now w) <= media_clock (fst (media_now w));
  clock_media_sleep d w : media_clock w + d <= media_clock (media_sleep d w);
  backlog_call tr c w : (forall sample, c <> ProcessInput sample) -> (backlog tr (fst (call tr c w)) <= backlog tr w)%nat;
  backlog_info tr w : (backlog tr (fst (output_stream_info tr w)) <= backlog tr w)%nat;
  backlog_available tr i w : (backlog tr (fst (output_available_type tr i w)) <= backlog tr w)%nat;
  backlog_output tr size w :
    match ProcessOutput.result (snd (process_output tr size w)) with
    | Err error => WinError.error_code error = WinError.MF_E_TRANSFORM_STREAM_CHANGE ->
                   (backlog tr (fst (process_output tr size w)) < backlog tr w)%nat
    | _ => (backlog tr (fst (process_output tr size w)) < backlog tr w)%nat
    end;
}.

Section waits.
Context {W : Type} `{MediaConstants} `{MediaOsLaws W}.
Implicit Types (tr : nat).

(** A run that returns, and in which time does not go back. *)
Definition prompt {A} (m : io W string A) : Prop :=
  forall w, returns (snd (m w)) /\ media_clock w <= media_clock (fst (m w)).

Lemma prompt_ret {A} (a : A) : prompt (iret a).
Proof. intros w. split; [done|cbn; lia]. Qed.
Lemma prompt_fail {A} e : prompt (ifail (A:=A) e).
Proof. intros w. split; [done|cbn; lia]. Qed.
Lemma prompt_lift {A} (m : outcome string A) : returns m -> prompt (ilift m).
Proof. intros Hm w. split; [done|cbn; lia]. Qed.
Lemma prompt_call tr c : prompt (call tr c).
Proof. intros w. split; [apply call_answers|apply clock_call]. Qed.
Lemma prompt_info tr : prompt (output_stream_info tr).
Proof. intros w. split; [apply info_answers|apply clock_info]. Qed.
Lemma prompt_available tr i : prompt (output_available_type tr i).
Proof. intros w. split; [apply available_answers|apply clock_available]. Qed.
Lemma prompt_then {A B} (m : io W string A) (k : A -> io W string B) :
  prompt m -> (forall a w, snd (m w) = Ok a -> prompt (k a)) -> prompt (ibind m k).
Proof.
  intros Hm Hk w. destruct (Hm w) as [Hr Hc]. specialize (Hk). unfold ibind.
  destruct (m w) as [w' [a|e|f]] eqn:Hw; simpl in *; [|done..].
  destruct (Hk a w ltac:(by rewrite Hw) w'). split; [done|lia].
Qed.
Lemma prompt_bind {A B} (m : io W string A) (k : A -> io W string B) :
  prompt m -> (forall a, prompt (k a)) -> prompt (ibind m k).
Proof. intros Hm Hk. by apply prompt_then. Qed.
Lemma prompt_labelled {A} label (m : io W string A) : prompt m -> prompt (labelled label m).
Proof. intros Hm w. destruct (Hm w). unfold labelled, imap_err. by destruct (m w) as [w' []]. Qed.
Lemma prompt_catch {A} (m : io W string A) : prompt m -> prompt (icatch m).
Proof. intros Hm w. destruct (Hm w). unfold icatch. by destruct (m w) as [w' []]. Qed.
Lemma prompt_if {A} (b : bool) (m n : io W string A) : prompt m -> prompt n -> prompt (if b then m else n).
Proof. by destruct b. Qed.
Hint Resolve prompt_ret prompt_fail prompt_lift prompt_call prompt_info prompt_available prompt_bind prompt_labelled
  prompt_catch prompt_if : io.

Lemma prompt_caught {A B} (m : io W string A) (k : outcome string A -> io W string B) :
  prompt m -> (forall r, returns r -> prompt (k r)) -> prompt (ibind (icatch m) k).
Proof.
  intros Hm Hk. apply prompt_then; [by apply prompt_catch|]. intros r w Hr. apply Hk.
  destruct (Hm w) as [Hret _]. unfold icatch in Hr. destruct (m w) as [w' []]; by simplify_eq/=.
Qed.

Lemma prompt_output_types n tr i failures : prompt (try_output_types n tr i failures).
Proof.
  revert i failures. induction n as [|n IH]; intros i failures; cbn [try_output_types]; [auto with io|].
  apply prompt_caught; [auto with io|]. intros [mt|e|f] Hr; [|auto with io|done].
  apply prompt_caught; [auto with io|]. intros [] ?; auto with io.
Qed.

Lemma prompt_take_output tr : prompt (take_output tr).
Proof.
  unfold take_output. apply prompt_bind; [auto with io|]. intros info.
  apply prompt_bind; [unfold create_output_sample; auto 10 with io|]. intros size.
  apply prompt_then.
  { intros w. pose proof (clock_output tr size w). by destruct (process_output tr size w). }
  intros output w Ho. pose proof (output_answers tr size w) as [Hr Hs].
  assert (output = snd (process_output tr size w)) as -> by (destruct (process_output tr size w); by injection Ho as <-).
  destruct (ProcessOutput.result _) as [|e|]; [|destruct (WinError.error_code e)|done]; auto with io.
  - destruct (ProcessOutput.sample _) as [sample|]; [|auto with io].
    apply prompt_bind; [by apply prompt_lift, Hs|auto with io].
  - apply prompt_bind; [apply prompt_output_types|auto with io].
Qed.

(** A poll takes time. *)
Lemma poll_prompt tr encoder w :
  returns (snd (poll_event tr encoder w)) /\ media_clock w < media_clock (fst (poll_event tr encoder w)).
Proof.
  unfold poll_event. pose proof (clock_event tr w) as Hc. pose proof (event_answers tr w) as Ha.
  destruct (get_event tr w) as [w' [event|e|f]]; cbn [fst snd] in *; [|destruct (WinError.error_code e)|done];
    cbn [fst snd]; try (split; [done|lia]).
  - destruct Ha as (Hs & Hk & Hr). split; [|lia]. apply returns_obind; [auto with rust|]. intros status Hstatus.
    apply map_err_ok_inv in Hstatus. specialize (Hr _ Hstatus). auto 6 with rust.
  - split; [done|]. pose proof (clock_media_sleep (Duration.from_millis 1) w'). unfold Duration.from_millis in *. lia.
Qed.

(** *** The asynchronous encoder *)
Definition since (c : Z) (s : t * W) : Prop := c <= media_clock (snd s).

Lemma since_world {A} c (f : t -> io W string A) :
  (forall self, prompt (f self)) -> run_of (since c) (with_owned f) (fun r s => returns r /\ since c s).
Proof.
  intros Hf [self w] Hs. destruct (Hf self w) as [Hr Hc]. unfold with_owned, on_world, since in *. cbn [fst snd] in *.
  destruct (f self w). cbn [fst snd] in *. split; [done|lia].
Qed.

(** A pump that goes on began before the deadline, and let time pass. *)
Lemma pump_prompt c deadline :
  run_of (since c) (pump_stream_event deadline)
    (fun r s => returns r /\ (accepted r = true -> since (c + 1) s /\ c < deadline)).
Proof.
  unfold pump_stream_event.
  eapply run_bind with (R := fun r s => match r with Ok instant => c <= instant /\ since c s | _ => False end); [|done..|].
  { intros [self w] Hs. unfold on_world, now_io, since in *. cbn [fst snd] in *. pose proof (clock_media_now w).
    destruct (media_now w). cbn [fst snd] in *. lia. }
  intros instant. destruct (Z.leb_spec deadline instant); [by intros s _|].
  apply run_get. intros [|]; [|by intros s _]. cbn [negb].
  eapply run_bind with (R := fun r s => returns r /\ (accepted r = true -> since (c + 1) s /\ c < deadline));
    [|by intros ?? []|by intros ?? []|].
  - intros [self w] [[Hi Hs] _]. pose proof (poll_prompt (activation self) "real-time encoder" w) as [Hr Hc].
    unfold with_owned, on_world, since in *. cbn [fst snd] in *. destruct (poll_event _ _ w). cbn [fst snd] in *.
    split; [done|lia].
  - intros event s [_ He]. destruct (He eq_refl) as [Hs Hd]. clear He. revert s Hs.
    change (run_of (since (c + 1)) (match event with
      | Some METransformNeedInput => iput (fun s => (set_ready (fst s) true, snd s))
      | Some METransformHaveOutput =>
        let* output := with_owned (fun self => take_output (activation self)) in
        iput (fun s => (set_pending (fst s) (pending_outputs (fst s) ++ kept output), snd s))
      | _ => iret tt
      end) (fun r s => returns r /\ (accepted r = true -> since (c + 1) s /\ c < deadline))).
    destruct event as [[]|]; try (by intros s Hs).
    eapply run_bind; [apply since_world; intros self; apply prompt_take_output|by intros ?? []..|].
    intros output s [_ Hs]. by split.
Qed.

(** Enough fuel for every nanosecond until the deadline. *)
Lemma await_input_prompt n fuel deadline c :
  deadline <= c + Z.of_nat n -> (n < fuel)%nat ->
  run_of (since c) (await_input fuel deadline) (fun r s => returns r /\ (accepted r = true -> since c s)).
Proof.
  revert n c. induction fuel as [|fuel IH]; intros n c Hd Hn; [lia|]. cbn [await_input].
  apply run_get. intros []; [by intros s [Hs _]|].
  eapply run_bind with (R := fun r s => returns r /\ (accepted r = true -> since (c + 1) s /\ c < deadline));
    [|by intros ?? []|by intros ?? []|].
  { intros s [Hs _]. by apply pump_prompt. }
  intros ? s [_ He]. destruct (He eq_refl) as [Hs Hc]. destruct n as [|n]; [lia|].
  destruct (IH n (c + 1) ltac:(lia) ltac:(lia) s Hs) as [Hr Ha]. split; [done|].
  intros Hacc. specialize (Ha Hacc). unfold since in *. lia.
Qed.

Lemma await_output_prompt n fuel deadline ts (b : bool) c :
  deadline <= c + Z.of_nat n -> (S n < fuel)%nat ->
  run_of (since c) (await_output fuel deadline ts b) (fun r _ => returns r).
Proof.
  revert n b c. induction fuel as [|fuel IH]; intros n b c Hd Hn; [lia|]. cbn [await_output].
  destruct b; [by intros s Hs|].
  eapply run_bind; [apply pump_prompt|by intros ?? []..|].
  intros ?. apply run_get. intros b s [[_ He] _]. destruct (He eq_refl) as [Hs Hc].
  destruct n as [|n]; [lia|]. apply (IH n b (c + 1)); [lia|lia|done].
Qed.

(** *** The synchronous encoder *)
Definition holds_back tr (b : nat) (w : W) : Prop := (backlog tr w <= b)%nat.

Lemma keeps_backlog_call tr b c : (forall sample, c <> ProcessInput sample) -> keeps (holds_back tr b) (call tr c).
Proof. intros Hc w Hw. pose proof (backlog_call tr c w Hc). unfold holds_back in *. lia. Qed.
Lemma keeps_backlog_labelled {A} tr b label (m : io W string A) :
  keeps (holds_back tr b) m -> keeps (holds_back tr b) (labelled label m).
Proof. apply keeps_map_err. Qed.
Lemma keeps_backlog_info tr b : keeps (holds_back tr b) (output_stream_info tr).
Proof. intros w Hw. pose proof (backlog_info tr w). unfold holds_back in *. lia. Qed.
Lemma keeps_backlog_available tr b i : keeps (holds_back tr b) (output_available_type tr i).
Proof. intros w Hw. pose proof (backlog_available tr i w). unfold holds_back in *. lia. Qed.
Hint Resolve keeps_backlog_call keeps_backlog_labelled keeps_backlog_info keeps_backlog_available : io.
Hint Extern 2 (forall sample, _ <> ProcessInput sample) => discriminate : io.

Lemma keeps_backlog_types n tr b i failures : keeps (holds_back tr b) (try_output_types n tr i failures).
Proof.
  revert i failures. induction n as [|n IH]; intros i failures; cbn [try_output_types]; [auto with io|].
  apply keeps_bind; [auto with io|]. intros [mt|e|f]; [|auto with io..].
  apply keeps_bind; [auto with io|]. intros []; auto with io.
Qed.

Lemma take_output_backlog tr b :
  run_of (holds_back tr b) (take_output tr) (on_ok (fun _ w => (backlog tr w < b)%nat)).
Proof.
  unfold take_output.
  eapply run_bind_ok with (R := fun _ => holds_back tr b); [apply run_of_keeps; auto with io|]. intros info.
  eapply run_bind_ok with (R := fun _ => holds_back tr b).
  { apply run_of_keeps. unfold create_output_sample. auto 10 with io. }
  intros size.
  eapply run_bind_ok with (R := fun output w =>
    match ProcessOutput.result output with
    | Err error => WinError.error_code error = WinError.MF_E_TRANSFORM_STREAM_CHANGE -> (backlog tr w < b)%nat
    | _ => (backlog tr w < b)%nat
    end).
  { intros w Hw. pose proof (backlog_output tr size w) as Ho. unfold holds_back in Hw.
    destruct (process_output tr size w) as [w' output]. cbn in *. destruct (ProcessOutput.result output); try lia.
    intros He. specialize (Ho He). lia. }
  intros output. destruct (ProcessOutput.result output) as [|e|]; [|destruct (WinError.error_code e); try (by intros w Hw)|by intros w].
  - destruct (ProcessOutput.sample output) as [sample|]; [|by intros w Hw].
    eapply run_bind_ok with (R := fun _ w => (backlog tr w < b)%nat); [|by intros u w Hw].
    intros w Hw. cbn. by destruct (read_access_unit sample).
  - destruct b as [|b]; [intros w Hw; specialize (Hw eq_refl); lia|].
    eapply run_bind_ok with (R := fun _ => holds_back tr b); [|intros ? w Hw; cbn; unfold holds_back in Hw; lia].
    intros w Hw. specialize (Hw eq_refl). apply run_of_keeps; [apply keeps_backlog_types|]. red. lia.
Qed.

Lemma texture_outputs_prompt fuel tr b outputs :
  (b < fuel)%nat -> run_of (holds_back tr b) (take_texture_outputs fuel tr outputs) (fun r _ => returns r).
Proof.
  revert b outputs. induction fuel as [|fuel IH]; intros b outputs Hb; [lia|]. cbn [take_texture_outputs].
  intros w Hw. pose proof (take_output_backlog tr b w Hw) as Ht. destruct (prompt_take_output tr w) as [Hr _].
  unfold ibind, icatch. destruct (take_output tr w) as [w' [output|e|f]]; cbn [fst snd on_ok] in *; [| |done].
  - destruct b as [|b]; [lia|]. apply (IH b); [lia|]. unfold holds_back. lia.
  - by destruct (contains _ e).
Qed.

Lemma dxgi_sample_prompt tr texture ts d : prompt (create_dxgi_sample tr texture ts d).
Proof. unfold create_dxgi_sample. auto 20 with io. Qed.

(** Fuel for every nanosecond of the timeout. *)
Lemma async_texture_prompt n fuel sample ts c :
  STREAM_EVENT_TIMEOUT <= Z.of_nat n -> (S n < fuel)%nat ->
  run_of (since c) (encode_texture_async fuel sample ts) (fun r _ => returns r).
Proof.
  intros Ht Hf. unfold encode_texture_async.
  eapply run_bind with (R := fun r s => match r with Ok start => since start s | _ => False end); [|done..|].
  { intros [self w] _. unfold on_world, now_io, since. cbn [fst snd]. pose proof (clock_media_now w).
    destruct (media_now w). cbn [fst snd] in *. lia. }
  intros start. cbv beta iota.
  eapply run_bind; [apply (await_input_prompt n); lia|by intros ?? []..|].
  intros ? s [_ Hs]. specialize (Hs eq_refl). revert s Hs.
  change (run_of (since start) (let* _ := submit_texture sample in
    let* _ := await_output fuel (start + STREAM_EVENT_TIMEOUT) ts false in drain_pending) (fun r _ => returns r)).
  eapply run_bind with (R := fun r s => returns r /\ since start s); [|by intros ?? []..|].
  { unfold submit_texture, process_input.
    eapply run_bind with (R := fun r s => returns r /\ since start s);
      [|intros s e [_ Hs]; exact (conj I Hs)|by intros s f []|intros ? s [_ Hs]; exact (conj I Hs)].
    apply since_world. intros self. apply prompt_labelled, prompt_call. }
  intros ?. eapply run_weaken with (P := since start); [|by intros s []|intros ?? Hx; exact Hx].
  eapply run_bind; [apply (await_output_prompt n); lia|intros ?? Hx; exact Hx..|]. by intros ? s Hs.
Qed.

(** Every texture is answered. With a transform that lets time pass, or that
    runs out of output, there is an amount of fuel from which on encoding a
    texture returns; for an asynchronous encoder, one step for every nanosecond of
    the timeout is enough. *)
Theorem textures_are_answered texture ts self (w : W) (Hfps : H264EncoderConfig.fps (config self) <> 0) :
  exists enough, forall fuel, (enough <= fuel)%nat ->
    returns (snd (HardwareH264Encoder.encode_texture fuel texture ts (self, w))).
Proof.
  unfold encode_texture, ibind at 1 2 3, iget, ilift. cbn [fst].
  assert (returns (validate_nv12_texture texture (config self))) as Hv by (unfold validate_nv12_texture; repeat case_match; done).
  destruct (validate_nv12_texture _ _) as [[]|e|f]; [|by exists 0%nat|done].
  unfold H264EncoderConfig.frame_duration_100ns, div_i. destruct (Z.eqb_spec (H264EncoderConfig.fps (config self)) 0); [done|].
  destruct (since_world (media_clock w) (fun self => create_dxgi_sample (activation self) (Texture2D.id texture) ts
    (Z.quot HUNDRED_NANOSECONDS_PER_SECOND (H264EncoderConfig.fps (config self))))
    (fun self => dxgi_sample_prompt _ _ _ _) (self, w) (Z.le_refl _)) as [Hr Hs].
  unfold ibind. revert Hr Hs. unfold with_owned, on_world. cbn [fst snd].
  destruct (create_dxgi_sample _ _ _ _ w) as [w1 [sample|e|f]]; cbn [fst snd]; [|by exists 0%nat|done]. intros _ Hs.
  destruct (asynchronous self).
  - exists (S (S (Z.to_nat STREAM_EVENT_TIMEOUT))). intros fuel Hf.
    refine (async_texture_prompt (Z.to_nat STREAM_EVENT_TIMEOUT) fuel sample ts (media_clock w) _ Hf (self, w1) Hs).
    rewrite Z2Nat.id; [reflexivity|discriminate].
  - unfold encode_texture_sync, process_input, ibind, with_owned, on_world. cbn [fst snd].
    destruct (prompt_labelled "real-time encoder rejected NV12 texture" _ (prompt_call (activation self) (ProcessInput sample)) w1)
      as [Hr _].
    destruct (labelled _ _ w1) as [w2 [[]|e|f]]; cbn [fst snd] in *; [|by exists 0%nat|done].
    exists (S (backlog (activation self) w2)). intros fuel Hf.
    pose proof (texture_outputs_prompt fuel (activation self) (backlog (activation self) w2) [] ltac:(lia) w2 (le_n _)) as Ho.
    by destruct (take_texture_outputs _ _ _ w2).
Qed.
End waits.

(** ** A transform that encodes *)
Module EncoderExamples.
Module Toy.
Record t : Type := mk { clock : Z; events : list EventType; outputs : list Z }.
End Toy.

#[export] Instance documented_media : MediaConstants := {
  MFT_OUTPUT_STREAM_PROVIDES_SAMPLES := 0x100;
  MFT_OUTPUT_STREAM_CAN_PROVIDE_SAMPLES := 0x200;
  DXGI_FORMAT_NV12 := 103;
}.

Definition after_call (c : MfCall) (w : Toy.t) : Toy.t :=
  match c with
  | ActivateObject => Toy.mk (Toy.clock w) [METransformNeedInput] []
  | ProcessInput sample =>
    Toy.mk (Toy.clock w) (Toy.events w ++ [METransformHaveOutput; METransformNeedInput])
      (Toy.outputs w ++ [InputSample.time sample])
  | ProcessMessage COMMAND_DRAIN => Toy.mk (Toy.clock w) (Toy.events w ++ [METransformDrainComplete]) (Toy.outputs w)
  | _ => w
  end.

Definition output_at (time : Z) : ProcessOutput.t :=
  ProcessOutput.mk (Ok tt)
    (Some (OutputSample.mk (Ok tt) (Ok 4) (Ok (Some [x00; x00; x01; x65])) (Ok tt) (Ok 1) (Ok time) (Ok 333333))) 0 0.

(** Every input becomes one picture, at once. *)
#[export] Instance toy_media : MediaOs Toy.t := {
  call _ c w := (after_call c w, Ok tt);
  enum_encoders w := (w, Ok (EncoderArray.mk (Some [Some (Activation.mk 7 (Ok None) (Err "none") (Err "none"))]) 1));
  transform_u32 _ _ w := (w, Ok 1);
  create_dxgi_manager _ w := (w, Ok true);
  lock_buffer _ w := (w, Ok (false, 1000));
  get_event _ w :=
    let later := Toy.mk (Toy.clock w + 1) in
    match Toy.events w with
    | kind :: events => (later events (Toy.outputs w), Ok (MediaEvent.mk (Ok (Ok tt)) (Ok kind)))
    | [] => (later [] (Toy.outputs w), Err (WinError.mk WinError.MF_E_NO_EVENTS_AVAILABLE "no events"))
    end;
  output_stream_info _ w := (w, Ok (StreamInfo.mk 0x100 0 0));
  process_output _ _ w :=
    match Toy.outputs w with
    | time :: outputs => (Toy.mk (Toy.clock w) (Toy.events w) outputs, output_at time)
    | [] => (w, ProcessOutput.mk (Err (WinError.mk WinError.MF_E_TRANSFORM_NEED_MORE_INPUT "more")) None 0 0)
    end;
  output_available_type _ _ w := (w, Err "no more types");
  media_now w := (w, Toy.clock w);
  media_sleep d w := Toy.mk (Toy.clock w + d) (Toy.events w) (Toy.outputs w);
}.

#[export, refine] Instance toy_laws : MediaOsLaws Toy.t := {
  media_clock := Toy.clock;
  backlog _ w := length (Toy.outputs w);
}.
Proof.
  all: intros; cbn; try done; try lia.
  - by destruct (Toy.events w); cbn; split_and?; [..|intros ? [= <-]].
  - destruct (Toy.outputs w); (split; [done|]); intros ? Hs; cbn in Hs; by simplify_eq.
  - destruct c as [| | | | | |[]| | | | | | | | | | | | | | | | |]; cbn; lia.
  - destruct (Toy.outputs w); cbn; lia.
  - destruct (Toy.events w); cbn; lia.
  - destruct c as [| | | | | |[]| | | | | | | | | | | | | | | | |]; cbn; try lia. by destruct (H sample).
  - destruct (Toy.outputs w); cbn; [done|lia].
Defined.

Definition small : H264EncoderConfig.t := H264EncoderConfig.mk 2 2 30 1000.
Definition idle : Toy.t := Toy.mk 0 [METransformNeedInput] [].
Definition encoder : HardwareH264Encoder.t := HardwareH264Encoder.mk "toy" 7 true true false small [] true.
Definition jobs : list (Texture2D.t * Z) := [(Texture2D.mk 1 2 2 103, 0); (Texture2D.mk 2 3 2 103, 5); (Texture2D.mk 3 2 2 103, 9)].

Lemma async_contract_is_kept_witness :
  (length (accepted_inputs (snd (snd (fst (encode_textures 10 jobs (encoder, (idle, []))))))) = 2)%nat /\
  (count is_asking (snd (snd (fst (encode_textures 10 jobs (encoder, (idle, [])))))) <=
   count is_announcement (snd (snd (fst (encode_textures 10 jobs (encoder, (idle, [])))))))%nat.
Proof.
  split; [by vm_compute|]. exact (proj2 (async_contract_is_kept 10 jobs encoder idle eq_refl eq_refl eq_refl)).
Defined.

Lemma encoded_units_are_conserved_witness :
  exists s rs, encode_textures 10 jobs (encoder, (idle, [])) = (s, Ok rs) /\ length (returned rs) = 2%nat /\
    length (outputs_of (snd (snd s))) = 2%nat /\
    collected (outputs_of (snd (snd s))) (returned rs ++ pending_outputs (fst s)).
Proof.
  destruct (encode_textures 10 jobs (encoder, (idle, []))) as [s r] eqn:Hrun.
  destruct r as [rs| |]; [|by vm_compute in Hrun..]. exists s, rs. split_and!; [done|..].
  - vm_compute in Hrun. by simplify_eq.
  - vm_compute in Hrun. by simplify_eq.
  - exact (proj1 (encoded_units_are_conserved 10 jobs encoder idle s rs eq_refl eq_refl eq_refl Hrun)).
Defined.

Lemma batches_are_exact_witness :
  exists w' probe, encode_async 20 7 0 small 3 2 (idle, []) = (w', Ok probe) /\
    Forall2 (is_frame small) (seqZ 3 2) (accepted_inputs (snd w')).
Proof.
  destruct (encode_async 20 7 0 small 3 2 (idle, [])) as [w' r] eqn:Hrun.
  destruct r as [probe| |]; [|by vm_compute in Hrun..]. exists w', probe. split; [done|].
  replace 2 with (EncodedProbe.frames_submitted probe) by (vm_compute in Hrun; by simplify_eq).
  exact (proj1 (batches_are_exact 20 7 true 0 small 3 2 idle w' probe ltac:(done) Hrun)).
Defined.

Lemma textures_are_answered_witness :
  exists enough, forall fuel, (enough <= fuel)%nat ->
    returns (snd (encode_texture fuel (Texture2D.mk 1 2 2 103) 0 (encoder, idle))).
Proof. exact (textures_are_answered (Texture2D.mk 1 2 2 103) 0 encoder idle ltac:(done)). Defined.
End EncoderExamples.
