(* ===== verification/WinUsb.v ===== *)
(** * The Windows USB accessory link

    Models [apps/desktop/src-tauri/src/platform/windows/usb_accessory.rs]: finding
    and opening an Android accessory, switching a device to accessory mode when the
    user asks for it, the worker that moves LDFL packets over the bulk endpoints,
    and the manager the runtime holds. The devices are the class [UsbOs]; what the
    worker meets in a turn is an argument, as for the TCP worker, whose events and
    statistics it shares. *)
From stdpp Require Import pretty.
From S2P Require Export RustIo TransportTcp TransportAoa HostPlatform RustText.
Local Open Scope string_scope.
Local Open Scope list_scope.
Local Open Scope Z_scope.

Definition REENUMERATION_TIMEOUT : Z := Duration.from_secs 8.
Definition REENUMERATION_POLL_INTERVAL : Z := Duration.from_millis 100.
Definition CANCELLATION_POLL_INTERVAL : Z := Duration.from_millis 10.
Definition RECONNECT_CANCELLED_DETAIL : string := "Android USB reconnection was cancelled".
Definition BULK_TRANSFER_BYTES : Z := 64 * 1024.

(** Evaluated at compile time, a [panic!] if invalid. *)
Definition USB_QUEUE_CONFIG : outcome Empty_set LoopbackConfig.t :=
  let! control := valid_limits 64 (4 * 1024 * 1024) (FRAME_HEADER_LEN + MAX_CONTROL_PAYLOAD) in
  let! media := valid_limits 3 (32 * 1024 * 1024) (FRAME_HEADER_LEN + MAX_MEDIA_PAYLOAD) in
  Ok (LoopbackConfig.new control media).

(** [rusb::Error]: the two kinds the code looks at, and the text. *)
Module UsbError.
Inductive code : Type :=
| Pipe
| Timeout
| Other.
#[global] Instance code_eq_dec : EqDecision code.
Proof. solve_decision. Defined.
Record t : Type := mk { error_code : code; message : string }.
End UsbError.

(** ** Descriptors *)
Module UsbEndpoint.
Record t : Type := mk { address : Z; bulk : bool; input : bool; max_packet_size : Z }.
End UsbEndpoint.
Module UsbInterface.
Record t : Type := mk { interface_number : Z; endpoints : list UsbEndpoint.t }.
End UsbInterface.
(** The interfaces, each with its alternate settings. *)
Module UsbConfig.
Record t : Type := mk { number : Z; interfaces : list (list UsbInterface.t) }.
End UsbConfig.
Module DeviceDescriptor.
Record t : Type := mk { vendor_id : Z; product_id : Z; class_code : Z }.
End DeviceDescriptor.

(** A listed device and what its queries answer. *)
Module UsbDevice.
Record t : Type := mk {
  bus_number : Z;
  address : Z;
  device_descriptor : outcome string DeviceDescriptor.t;
  active_config : outcome string UsbConfig.t;
  first_config : outcome string UsbConfig.t;
}.
End UsbDevice.

Module BulkEndpoints.
Record t : Type := mk { interface : Z; input : Z; output : Z; max_packet_size : Z }.
#[global] Instance t_eq_dec : EqDecision t.
Proof. solve_decision. Defined.
End BulkEndpoints.

(** The loop over the endpoints of one setting. *)
Fixpoint scan_endpoints (endpoints : list UsbEndpoint.t) (input output : option Z) (max_packet_size : Z)
  : option Z * option Z * Z :=
  match endpoints with
  | [] => (input, output, max_packet_size)
  | endpoint :: endpoints =>
    if negb (UsbEndpoint.bulk endpoint) then scan_endpoints endpoints input output max_packet_size
    else
      let max_packet_size := Z.max max_packet_size (UsbEndpoint.max_packet_size endpoint) in
      let get_or_insert (o : option Z) := Some (default (UsbEndpoint.address endpoint) o) in
      if UsbEndpoint.input endpoint then scan_endpoints endpoints (get_or_insert input) output max_packet_size
      else scan_endpoints endpoints input (get_or_insert output) max_packet_size
  end.

Definition setting_endpoints (setting : UsbInterface.t) : option BulkEndpoints.t :=
  match scan_endpoints (UsbInterface.endpoints setting) None None 0 with
  | (Some input, Some output, max_packet_size) =>
    Some (BulkEndpoints.mk (UsbInterface.interface_number setting) input output max_packet_size)
  | _ => None
  end.

Definition find_bulk_endpoints (configuration : UsbConfig.t) : option BulkEndpoints.t :=
  head (omap setting_endpoints (concat (UsbConfig.interfaces configuration))).

Definition is_android_probe_candidate (vendor_id product_id class_code : Z) : bool :=
  negb (vendor_id =? 0) && negb (vendor_id =? 65535) && negb (is_aoa_app_accessory vendor_id product_id) &&
  ((class_code =? 0x00) || (class_code =? 0xef) || (class_code =? 0xff)).

(** [computer_name] is the environment variable, where it is valid text. *)
Definition host_description (computer_name : option (list byte)) : list byte :=
  let str s := String.list_byte_of_string s in
  match computer_name with
  | Some name => if bool_decide (trim name = []) then str "LadoFlow Windows host" else str "LadoFlow on " ++ name
  | None => str "LadoFlow Windows host"
  end.

(** ** The bulk stream *)
Module LinkStatus.
Record t : Type := mk {
  phase : UsbLinkState.t;
  detail : string;
  bytes_read : Z;
  bytes_written : Z;
  frames_read : Z;
  frames_written : Z;
}.

Definition default_detail : string := "Android USB has not been connected in this app session".
Definition default : t := mk UsbLinkState.Ready default_detail 0 0 0 0.
(** [LinkStatus { phase, detail, ..LinkStatus::default() }]. *)
Definition with_phase (phase : UsbLinkState.t) (detail : string) : t := mk phase detail 0 0 0 0.
Definition set_phase (self : t) (phase : UsbLinkState.t) (detail : string) : t :=
  mk phase detail (bytes_read self) (bytes_written self) (frames_read self) (frames_written self).
Definition count_written (self : t) (written : Z) : t :=
  mk (phase self) (detail self) (bytes_read self) (saturating_add 64 (bytes_written self) written)
     (frames_read self) (saturating_add 64 (frames_written self) 1).
Definition count_read (self : t) (count frames : Z) : t :=
  mk (phase self) (detail self) (saturating_add 64 (bytes_read self) count) (bytes_written self)
     (saturating_add 64 (frames_read self) frames) (frames_written self).
End LinkStatus.

(** [write_chunked] from [offset] on: [answer i] is what transfer [i] reports, an
    error or a number of bytes. One unit of fuel per byte and one more: every
    transfer that goes on has moved at least one. *)
Fixpoint write_from (fuel : nat) (answer : nat -> string + nat) (i : nat) (payload : list byte) (offset : Z)
  : list PumpEvent.t * outcome string Z :=
  match fuel with
  | O => ([], Fault OutOfFuel)
  | S fuel =>
    if negb (offset <? zlen payload) then ([], Ok offset)
    else
      let stop := Z.min (saturating_add usize_bits offset BULK_TRANSFER_BYTES) (zlen payload) in
      let? chunk := slice payload (Z.to_nat offset) (Z.to_nat stop) keeping [] in
      match answer i with
      | inl error => ([], Err ("Android USB bulk write failed: " +:+ error))
      | inr written =>
        if (written =? 0)%nat then ([], Err "Android USB bulk write made no progress")
        else if (length chunk <? written)%nat
        then ([], Err ("Android USB bulk write reported " +:+ pretty written +:+ " bytes for a " +:+
                       pretty (length chunk) +:+ "-byte chunk"))
        else
          let? next := chk usize_bits (offset + Z.of_nat written) keeping [] in
          let (events, r) := write_from fuel answer (S i) payload next in
          (PumpEvent.Wrote (take written chunk) :: events, r)
      end
  end.
Definition write_chunked (answer : nat -> string + nat) (payload : list byte) : list PumpEvent.t * outcome string Z :=
  write_from (S (length payload)) answer 0 payload 0.

(** What a read of the bulk endpoint finds: bytes, of which the call takes what
    fits its buffer, or an error. *)
Module BulkRead.
Inductive t : Type :=
| Arrived (bytes : list byte)
| Failed (error : UsbError.t).
End BulkRead.

Module BulkTurn.
Record t : Type := mk { cancelled : bool; writes : nat -> string + nat; read : BulkRead.t }.
End BulkTurn.

Section Pump.
Context {T : Type} `{PacketTransport T}.

Record bulk : Type := mk_bulk {
  endpoint : T;
  status : LinkStatus.t;
  decoder : LdflPacketDecoder.t;
  outgoing : LdflPacketMux.t;
}.
Definition start_bulk (endpoint : T) (status : LinkStatus.t) : bulk :=
  mk_bulk endpoint status LdflPacketDecoder.new LdflPacketMux.default.

(** The next packet of the link goes out whole. *)
Definition send_next (writes : nat -> string + nat) (self : bulk) : bulk * list PumpEvent.t * outcome string unit :=
  let '((mux, endpoint), r) := LdflPacketMux.next (outgoing self) (endpoint self) in
  let self := mk_bulk endpoint (status self) (decoder self) mux in
  match r with
  | Ok None => (self, [], Ok tt)
  | Ok (Some packet) =>
    let (events, written) := write_chunked writes (Packet.payload packet) in
    match written with
    | Ok written =>
      (mk_bulk endpoint (LinkStatus.count_written (status self) written) (decoder self) mux,
       PumpEvent.Took packet :: events ++ [PumpEvent.FrameDone], Ok tt)
    | Err error => (self, PumpEvent.Took packet :: events, Err error)
    | Fault f => (self, PumpEvent.Took packet :: events, Fault f)
    end
  | Err error => (self, [], Err ("Android USB outgoing LDFL queue is invalid: " +:+ LdflStreamError.to_string error))
  | Fault f => (self, [], Fault f)
  end.

Fixpoint deliver (endpoint : T) (packets : list Packet.t) : T * list PumpEvent.t * outcome string unit :=
  match packets with
  | [] => (endpoint, [], Ok tt)
  | packet :: packets =>
    match try_send endpoint packet with
    | (endpoint, Ok _) =>
      let '(endpoint, events, r) := deliver endpoint packets in
      (endpoint, PumpEvent.Delivered packet :: events, r)
    | (endpoint, Err error) =>
      (endpoint, [], Err ("Android USB inbound queue rejected a frame: " +:+ SendError.to_string error))
    | (endpoint, Fault f) => (endpoint, [], Fault f)
    end
  end.

Definition receive (answer : BulkRead.t) (self : bulk) : bulk * list PumpEvent.t * outcome string unit :=
  match answer with
  | BulkRead.Arrived [] => (self, [], Ok tt)
  | BulkRead.Arrived bytes =>
    let bytes := take (Z.to_nat BULK_TRANSFER_BYTES) bytes in
    let (decoder, r) := LdflPacketDecoder.push (decoder self) bytes in
    let self := mk_bulk (endpoint self) (status self) decoder (outgoing self) in
    match r with
    | Ok packets =>
      let '(endpoint, events, r) := deliver (endpoint self) packets in
      let status :=
        match r with
        | Ok _ => LinkStatus.count_read (status self) (zlen bytes) (zlen packets)
        | _ => status self
        end in
      (mk_bulk endpoint status decoder (outgoing self), PumpEvent.Read bytes :: events, r)
    | Err error =>
      (self, [PumpEvent.Read bytes], Err ("Android USB LDFL stream is invalid: " +:+ LdflStreamError.to_string error))
    | Fault f => (self, [PumpEvent.Read bytes], Fault f)
    end
  | BulkRead.Failed error =>
    match UsbError.error_code error with
    | UsbError.Timeout => (self, [], Ok tt)
    | _ => (self, [], Err ("Android USB bulk read failed: " +:+ UsbError.message error))
    end
  end.

(** [pump_bulk_stream] over the turns it is given; [false] when it is still
    running after the last. *)
Fixpoint pump_bulk_stream (turns : list BulkTurn.t) (self : bulk) : bulk * list PumpEvent.t * outcome string bool :=
  match turns with
  | [] => (self, [], Ok false)
  | turn :: turns =>
    if BulkTurn.cancelled turn then (self, [], Ok true)
    else
      let '(self, sent, r) := send_next (BulkTurn.writes turn) self in
      match r with
      | Ok _ =>
        let '(self, received, r) := receive (BulkTurn.read turn) self in
        match r with
        | Ok _ => let '(self, events, r) := pump_bulk_stream turns self in (self, sent ++ received ++ events, r)
        | Err error => (self, sent ++ received, Err error)
        | Fault f => (self, sent ++ received, Fault f)
        end
      | Err error => (self, sent, Err error)
      | Fault f => (self, sent, Fault f)
      end
  end.
End Pump.
Arguments bulk T : clear implicits.

(** What the worker leaves in the status when its loop has ended. *)
Definition ended_status (status : LinkStatus.t) (cancelled : bool) (result release_result : outcome string unit)
  : LinkStatus.t :=
  if cancelled then
    match release_result with
    | Err release_error =>
      LinkStatus.set_phase status UsbLinkState.Failed
        ("Android USB stopped, but releasing its interface failed: " +:+ release_error)
    | _ => LinkStatus.set_phase status UsbLinkState.Ready "Android USB bulk session stopped cleanly"
    end
  else
    LinkStatus.set_phase status UsbLinkState.Failed
      match result, release_result with
      | Err error, Err release_error => error +:+ "; releasing USB interface also failed: " +:+ release_error
      | Err error, _ => error
      | _, Err release_error => "Android USB worker ended; interface release failed: " +:+ release_error
      | _, _ => "Android USB bulk worker ended unexpectedly"
      end.

(** ** The endpoints of an accessory *)

Definition bulk_addresses (input : bool) (setting : UsbInterface.t) : list Z :=
  map UsbEndpoint.address
    (List.filter (fun e => UsbEndpoint.bulk e && Bool.eqb (UsbEndpoint.input e) input) (UsbInterface.endpoints setting)).
Definition largest_packet (endpoints : list UsbEndpoint.t) : Z :=
  fold_right Z.max 0 (map UsbEndpoint.max_packet_size (List.filter UsbEndpoint.bulk endpoints)).

Lemma scan_endpoints_spec endpoints : forall input output size, 0 <= size ->
  scan_endpoints endpoints input output size =
  (match input with Some a => Some a | None => head (bulk_addresses true (UsbInterface.mk 0 endpoints)) end,
   match output with Some a => Some a | None => head (bulk_addresses false (UsbInterface.mk 0 endpoints)) end,
   Z.max size (largest_packet endpoints)).
Proof.
  unfold bulk_addresses, largest_packet. cbn [UsbInterface.endpoints].
  induction endpoints as [|[address [] inward packet] endpoints IH]; intros input output size Hs; cbn.
  - rewrite Z.max_l by lia. by destruct input, output.
  - destruct inward; rewrite IH by lia; cbn; rewrite Z.max_assoc; by destruct input, output.
  - by rewrite IH.
Qed.

Lemma omap_head_app {A B} (f : A -> option B) l b :
  head (omap f l) = Some b <-> exists before a after, l = before ++ a :: after /\ Forall (fun x => f x = None) before /\ f a = Some b.
Proof.
  induction l as [|x l IH]; cbn; [split; [done|by intros ([|? ?] & ? & ? & ? & _)]|].
  destruct (f x) as [c|] eqn:Hx; cbn.
  - split; [intros [= ->]; by exists [], x, l|]. intros ([|y before] & a & after & [= -> ->] & Hb & Ha); [congruence|].
    apply Forall_cons in Hb as [Hb _]. congruence.
  - rewrite IH. split.
    + intros (before & a & after & -> & Hb & Ha). exists (x :: before), a, after. by rewrite Forall_cons.
    + intros ([|y before] & a & after & [= -> ->] & Hb & Ha); [congruence|]. apply Forall_cons in Hb as [_ Hb]. by exists before, a, after.
Qed.

Lemma setting_endpoints_spec setting b :
  setting_endpoints setting = Some b <->
  exists input inputs output outputs,
    bulk_addresses true setting = input :: inputs /\ bulk_addresses false setting = output :: outputs /\
    b = BulkEndpoints.mk (UsbInterface.interface_number setting) input output (largest_packet (UsbInterface.endpoints setting)).
Proof.
  unfold setting_endpoints. rewrite scan_endpoints_spec by lia. destruct setting as [number endpoints]. cbn [UsbInterface.endpoints UsbInterface.interface_number].
  assert (Hl : 0 <= largest_packet endpoints).
  { unfold largest_packet. induction (List.filter _ _) as [|e l IH]; cbn; lia. }
  rewrite Z.max_r by done. unfold bulk_addresses. cbn [UsbInterface.endpoints].
  destruct (map UsbEndpoint.address (List.filter (fun e => _ && Bool.eqb _ true) endpoints)) as [|i is_]; cbn; [naive_solver|].
  destruct (map UsbEndpoint.address (List.filter (fun e => _ && Bool.eqb _ false) endpoints)) as [|o os]; cbn; naive_solver.
Qed.

(** The endpoints the link uses are those of the first alternate setting, in
    descriptor order over all interfaces, that has a bulk endpoint in each
    direction: its first bulk IN and its first bulk OUT, with the largest packet
    size of its bulk endpoints; there are none exactly when no setting has both. *)
Theorem bulk_endpoints_are_the_first_pair configuration b :
  (find_bulk_endpoints configuration = Some b <->
   exists before setting after input inputs output outputs,
     concat (UsbConfig.interfaces configuration) = before ++ setting :: after /\
     Forall (fun s => bulk_addresses true s = [] \/ bulk_addresses false s = []) before /\
     bulk_addresses true setting = input :: inputs /\ bulk_addresses false setting = output :: outputs /\
     b = BulkEndpoints.mk (UsbInterface.interface_number setting) input output
           (largest_packet (UsbInterface.endpoints setting))) /\
  (find_bulk_endpoints configuration = None <->
   Forall (fun s => bulk_addresses true s = [] \/ bulk_addresses false s = []) (concat (UsbConfig.interfaces configuration))).
Proof.
  assert (Hnone : forall s, setting_endpoints s = None <-> bulk_addresses true s = [] \/ bulk_addresses false s = []).
  { intros s. destruct (setting_endpoints s) as [c|] eqn:Hs.
    - apply setting_endpoints_spec in Hs as (i & is_ & o & os & -> & -> & _). split; [done|]. by intros [].
    - split; [intros _|done]. destruct (bulk_addresses true s) as [|i is_] eqn:Hi; [by left|].
      destruct (bulk_addresses false s) as [|o os] eqn:Ho; [by right|]. exfalso.
      assert (Hx := proj2 (setting_endpoints_spec s _) (ex_intro _ i (ex_intro _ is_ (ex_intro _ o (ex_intro _ os (conj Hi (conj Ho eq_refl))))))).
      congruence. }
  unfold find_bulk_endpoints. split.
  - rewrite omap_head_app. split.
    + intros (before & s & after & E & Hb & (i & is_ & o & os & Hi & Ho & ->)%setting_endpoints_spec).
      exists before, s, after, i, is_, o, os. split_and!; try done. eapply Forall_impl; [exact Hb|]. by intros x ?%Hnone.
    + intros (before & s & after & i & is_ & o & os & E & Hb & Hi & Ho & ->). exists before, s, after. split; [done|].
      split; [eapply Forall_impl; [exact Hb|]; by intros x ?%Hnone|]. apply setting_endpoints_spec. by exists i, is_, o, os.
  - induction (concat _) as [|s l IH]; cbn; [done|]. rewrite Forall_cons, <-Hnone.
    destruct (setting_endpoints s); cbn; [naive_solver|]. rewrite IH. naive_solver.
Qed.

(** ** What the worker moves *)
Section PumpInvariant.
Context {T : Type} `{Safety : EndpointSafety T}.
Implicit Types (st : bulk T) (tr : list PumpEvent.t).

Lemma write_from_spec fuel answer i payload offset :
  0 <= offset <= zlen payload -> zlen payload < 2 ^ 63 -> zlen payload < offset + Z.of_nat fuel ->
  let '(events, r) := write_from fuel answer i payload offset in
  returns r /\ took events = [] /\ delivered_in events = [] /\ read events = [] /\ frames_done events = 0%nat /\
  (exists n, 0 <= n /\ wrote events = take (Z.to_nat n) (drop (Z.to_nat offset) payload) /\
     (forall e, r = Err e -> offset + n < zlen payload)) /\
  (forall n, r = Ok n -> n = zlen payload /\ wrote events = drop (Z.to_nat offset) payload).
Proof.
  revert i offset. induction fuel as [|fuel IH]; intros i offset Ho Hp Hf; cbn [write_from]; [lia|].
  assert (Hquiet : forall r : outcome string Z, returns r -> (forall n, r = Ok n -> offset = zlen payload /\ n = offset) ->
    (forall e, r = Err e -> offset < zlen payload) ->
    returns r /\ took [] = [] /\ delivered_in [] = [] /\ read [] = [] /\ frames_done [] = 0%nat /\
    (exists n, 0 <= n /\ wrote [] = take (Z.to_nat n) (drop (Z.to_nat offset) payload) /\
       (forall e, r = Err e -> offset + n < zlen payload)) /\
    (forall n, r = Ok n -> n = zlen payload /\ wrote [] = drop (Z.to_nat offset) payload)).
  { intros r Hr Hn He. do 5 (split; [done|]). split; [exists 0; rewrite Z.add_0_r; by split_and!|]. intros n Hok. destruct (Hn n Hok) as [Hl ->].
    split; [done|]. rewrite drop_ge by lia. done. }
  destruct (Z.ltb_spec offset (zlen payload)); cbn [negb]; [|apply Hquiet; [done|intros n [= <-]; lia|done]].
  rewrite saturating_add_exact by (unfold usize_bits, BULK_TRANSFER_BYTES; lia).
  set (stop := Z.min (offset + BULK_TRANSFER_BYTES) (zlen payload)).
  assert (Hstop : offset < stop <= zlen payload) by (unfold stop, BULK_TRANSFER_BYTES; lia). clearbody stop.
  rewrite slice_ok by lia. cbn [otry]. set (chunk := take _ (drop _ payload)).
  assert (Hchunk : zlen chunk = stop - offset) by (unfold chunk; rewrite length_take, length_drop; lia).
  destruct (answer i) as [error|written]; [by apply Hquiet|].
  destruct (Nat.eqb_spec written 0) as [|Hpos]; [by apply Hquiet|].
  destruct (Nat.ltb_spec (length chunk) written); [by apply Hquiet|].
  rewrite chk_ok by (unfold in_u, usize_bits; lia). cbn [otry].
  specialize (IH (S i) (offset + Z.of_nat written) ltac:(lia) Hp ltac:(lia)).
  destruct (write_from fuel answer (S i) payload _) as [events r].
  destruct IH as (Hr & Ht & Hd & Hrd & Hfd & (k & Hn & Hw & Hk) & Hok).
  assert (Htake : take written chunk = take written (drop (Z.to_nat offset) payload)).
  { unfold chunk. rewrite take_take. f_equal. lia. }
  assert (Hdrop : drop (Z.to_nat (offset + Z.of_nat written)) payload = drop written (drop (Z.to_nat offset) payload)).
  { rewrite drop_drop. f_equal. lia. }
  change (wrote (PumpEvent.Wrote (take written chunk) :: events)) with (take written chunk ++ wrote events).
  do 5 (split; [done|]). split.
  - exists (Z.of_nat written + k). split; [lia|]. split; [|intros e He; specialize (Hk e He); lia]. rewrite Hw, Hdrop, Htake.
    rewrite Z2Nat.inj_add, Nat2Z.id by lia. by rewrite take_take_drop.
  - intros m Hm. destruct (Hok m Hm) as [-> Hall]. split; [done|]. by rewrite Hall, Htake, Hdrop, take_drop.
Qed.

Lemma write_chunked_spec answer payload :
  zlen payload < 2 ^ 63 ->
  let '(events, r) := write_chunked answer payload in
  returns r /\ took events = [] /\ delivered_in events = [] /\ read events = [] /\ frames_done events = 0%nat /\
  (forall e, r = Err e -> exists n, 0 <= n < zlen payload /\ wrote events = take (Z.to_nat n) payload) /\
  (forall n, r = Ok n -> n = zlen payload /\ wrote events = payload).
Proof.
  intros Hp. unfold write_chunked. pose proof (write_from_spec (S (length payload)) answer 0 payload 0 ltac:(lia) Hp ltac:(lia)) as Hw.
  destruct (write_from _ _ _ _ _) as [events r]. destruct Hw as (Hr & Ht & Hd & Hrd & Hfd & (n & Hn & Hw & Hk) & Hok).
  do 5 (split; [done|]). rewrite drop_0 in *. split; [|done]. intros e He. exists n. specialize (Hk e He). split; [lia|done].
Qed.

(** Between two turns every packet taken is written whole. *)
Record usb_out tr st : Prop := {
  uo_wrote : wrote tr = concat (map Packet.payload (took tr));
  uo_frames : Forall (fun p => exists f, carries p f) (took tr);
  uo_bytes : LinkStatus.bytes_written (status st) = Z.min (zlen (wrote tr)) (u_max 64);
  uo_count : LinkStatus.frames_written (status st) = Z.min (zlen (took tr)) (u_max 64);
}.
Record usb_in tr st : Prop := {
  ui_order : exists fs,
    stream (read tr) fs (FrameDecoder.buffer (LdflPacketDecoder.decoder (decoder st))) /\
    delivered_in tr = map packet_from_frame fs /\
    LinkStatus.frames_read (status st) = Z.min (zlen fs) (u_max 64);
  ui_decoder : FrameDecoder.wf (LdflPacketDecoder.decoder (decoder st));
  ui_bytes : LinkStatus.bytes_read (status st) = Z.min (zlen (read tr)) (u_max 64);
}.

(** Where a loop may stop: at most one packet is written in part. *)
Definition usb_sent tr : Prop :=
  exists finished o, took tr = finished ++ flying o /\ wrote tr = concat (map Packet.payload finished) ++ in_flight o /\
    match o with
    | Some pw => 0 <= PendingWrite.offset pw < Packet.len (PendingWrite.packet pw)
    | None => True
    end /\ Forall (fun p => exists f, carries p f) (took tr).

Lemma usb_out_sent tr st : usb_out tr st -> usb_sent tr.
Proof.
  intros [Hw Hf _ _]. exists (took tr), None. cbn. by rewrite !app_nil_r.
Qed.

(** A part of a turn, after the events [tr]. *)
Definition usb_step {A} tr (x : bulk T * list PumpEvent.t * outcome string A) : Prop :=
  let '(st, ev, r) := x in
  returns r /\ usb_sent (tr ++ ev) /\ delivered_ok (tr ++ ev) /\
  match r with
  | Ok _ => safe (endpoint st) /\ usb_out (tr ++ ev) st /\ usb_in (tr ++ ev) st
  | _ => True
  end.

Lemma usb_delivered tr st : usb_in tr st -> delivered_ok tr.
Proof.
  intros [(fs & Hs & Hd & _) _ _]. exists (read tr), fs, (FrameDecoder.buffer (LdflPacketDecoder.decoder (decoder st))).
  rewrite Hd. by split_and!.
Qed.

(** The events of a packet written whole. *)
Lemma whole_packet tr p ev :
  took ev = [] -> delivered_in ev = [] -> read ev = [] ->
  let all := tr ++ PumpEvent.Took p :: ev ++ [PumpEvent.FrameDone] in
  took all = took tr ++ [p] /\ wrote all = wrote tr ++ wrote ev /\ read all = read tr /\ delivered_in all = delivered_in tr.
Proof.
  intros Ht Hd Hr all. subst all. rewrite took_app, wrote_app, read_app, delivered_in_app.
  change (PumpEvent.Took p :: ev ++ [PumpEvent.FrameDone]) with ([PumpEvent.Took p] ++ ev ++ [PumpEvent.FrameDone]).
  rewrite !took_app, !wrote_app, !read_app, !delivered_in_app, Ht, Hd, Hr. cbn. by rewrite !app_nil_r.
Qed.

Lemma send_next_step writes tr st :
  safe (endpoint st) -> usb_out tr st -> usb_in tr st -> usb_step tr (send_next writes st).
Proof.
  intros He Ho Hi. unfold send_next. pose proof (next_safe (outgoing st) (endpoint st) He) as [He' Hr].
  pose proof (next_carries (outgoing st) (endpoint st)) as Hc.
  destruct (LdflPacketMux.next _ _) as [[m e] r]. cbn [fst snd] in *.
  assert (Hquiet : usb_sent (tr ++ []) /\ delivered_ok (tr ++ [])).
  { rewrite app_nil_r. split; [by eapply usb_out_sent|by eapply usb_delivered]. }
  destruct r as [[p|]|err|f]; [| |by destruct Hquiet|done].
  2: { destruct Hquiet. unfold usb_step. rewrite app_nil_r in *. split_and!; try done; [by destruct Ho|by destruct Hi]. }
  destruct (Hc m e p eq_refl) as [f Hf]. pose proof (carries_len p f Hf) as Hlen. unfold Packet.len in Hlen.
  pose proof (write_chunked_spec writes (Packet.payload p) ltac:(lia)) as Hw.
  destruct (write_chunked _ _) as [ev r]. destruct Hw as (Hr' & Ht & Hd & Hrd & Hfd & Herr & Hok).
  destruct Ho as [Hwr Hfr Hb Hn]. destruct Hi as [(fs & Hs & Hdel & Hfc) Hwf Hrb].
  destruct r as [n|err|g]; [| |done].
  - destruct (Hok n eq_refl) as [-> Hall]. destruct (whole_packet tr p ev Ht Hd Hrd) as (Et & Ew & Er & Ed).
    rewrite Hall in Ew. unfold usb_step. set (all := tr ++ PumpEvent.Took p :: ev ++ [PumpEvent.FrameDone]) in *.
    set (st' := mk_bulk e (LinkStatus.count_written (status st) (zlen (Packet.payload p))) (decoder st) m).
    assert (Hout : usb_out all st').
    { constructor; rewrite ?Et, ?Ew; cbn [status st' LinkStatus.count_written LinkStatus.bytes_written LinkStatus.frames_written].
      - rewrite map_app, concat_app, Hwr. cbn. by rewrite app_nil_r.
      - apply Forall_app. split; [done|]. constructor; [by exists f|constructor].
      - rewrite Hb, saturating_total, length_app by lia. f_equal. lia.
      - rewrite Hn, saturating_total, length_app by lia. f_equal. simpl. lia. }
    assert (Hin : usb_in all st') by (constructor; rewrite ?Er, ?Ed; cbn [status decoder st']; [by exists fs|done..]).
    split; [done|]. split; [by eapply usb_out_sent|]. split; [by eapply usb_delivered|]. by split_and!.
  - destruct (Herr err eq_refl) as (n & Hn' & Hpart). split; [done|]. split; [|split; [|done]].
    + exists (took tr), (Some (PendingWrite.mk p n)). cbn [flying in_flight PendingWrite.packet PendingWrite.offset].
      change (PumpEvent.Took p :: ev) with ([PumpEvent.Took p] ++ ev).
      rewrite !took_app, !wrote_app, Ht, Hwr, Hpart. cbn. rewrite ?app_nil_r. split_and!; try done; try (unfold Packet.len; lia).
      apply Forall_app. split; [done|]. constructor; [by exists f|constructor].
    + apply delivered_more; [|done]. exists (read tr), fs, (FrameDecoder.buffer (LdflPacketDecoder.decoder (decoder st))).
      rewrite Hdel. by split_and!.
Qed.

Lemma deliver_packets_spec packets : forall e, safe e ->
  let '(e', ev, r) := deliver e packets in
  safe e' /\ returns r /\ took ev = [] /\ wrote ev = [] /\ read ev = [] /\ delivered_in ev `prefix_of` packets /\
  (forall u, r = Ok u -> delivered_in ev = packets).
Proof.
  induction packets as [|p packets IH]; intros e He; cbn [deliver]; [done|].
  pose proof (safe_send e p He) as [He' Hr]. destruct (try_send e p) as [e' [rep|err|f]]; cbn [fst snd] in *; [| |done].
  - specialize (IH e' He'). destruct (deliver e' packets) as [[e2 ev] r].
    destruct IH as (H1 & H2 & H3 & H4 & H5 & H6 & H7). do 5 (split; [done|]). split; [by apply prefix_cons|].
    intros u Hok. cbn. f_equal. by apply (H7 u).
  - split_and!; [done..|apply prefix_nil|done].
Qed.

Lemma quiet_step {A} tr st (r : outcome string A) :
  returns r -> safe (endpoint st) -> usb_out tr st -> usb_in tr st -> usb_step tr (st, [], r).
Proof.
  intros Hr He Ho Hi. unfold usb_step. rewrite app_nil_r. split; [done|].
  split; [by eapply usb_out_sent|]. split; [by eapply usb_delivered|]. by destruct r.
Qed.

Lemma receive_step answer tr st :
  safe (endpoint st) -> usb_out tr st -> usb_in tr st -> usb_step tr (receive answer st).
Proof.
  intros He Ho Hi. unfold receive.
  destruct answer as [[|b bs]|error]; [by apply quiet_step| |destruct (UsbError.error_code error); by apply quiet_step].
  set (bytes := take _ (b :: bs)). clearbody bytes. clear b bs.
  pose proof (usb_delivered tr st Hi) as Hdel. pose proof (usb_out_sent tr st Ho) as Hsent.
  destruct Hi as [(fs & Hs & Hd & Hn) Hw Hb].
  unfold LdflPacketDecoder.push. pose proof (push_spec _ bytes Hw) as Hp. cbv zeta in Hp.
  pose proof (push_wf (LdflPacketDecoder.decoder (decoder st)) bytes) as Hw'.
  destruct (FrameDecoder.push _ bytes) as [d' r]. specialize (Hw' d' r Hw eq_refl).
  assert (Hsent' : forall ev, took ev = [] -> wrote ev = [] -> usb_sent (tr ++ ev)).
  { intros ev Et Ew. destruct Hsent as (fin & o & H1 & H2 & H3 & H4). exists fin, o.
    by rewrite took_app, wrote_app, Et, Ew, !app_nil_r. }
  destruct r as [gs|e|f]; cbn [obind map_err]; [| |done].
  2: { split; [done|]. split; [by apply Hsent'|]. split; [by apply delivered_more|done]. }
  cbn [endpoint]. pose proof (deliver_packets_spec (map packet_from_frame gs) (endpoint st) He) as Hdv.
  destruct (deliver _ _) as [[e ev] r]. destruct Hdv as (He' & Hr & Et & Ew & Er & Hpre & Hall).
  destruct Hp as (_ & _ & Hg). assert (Hstream := stream_app_tail _ _ _ bytes gs _ Hs Hg).
  assert (Eread : read (tr ++ PumpEvent.Read bytes :: ev) = read tr ++ bytes).
  { rewrite read_app. change (read (PumpEvent.Read bytes :: ev)) with (bytes ++ read ev). by rewrite Er, app_nil_r. }
  assert (Edel : delivered_in (tr ++ PumpEvent.Read bytes :: ev) = delivered_in tr ++ delivered_in ev)
    by by rewrite delivered_in_app.
  split; [done|]. split; [by apply Hsent'|]. split.
  { exists (read tr ++ bytes), (fs ++ gs), (FrameDecoder.buffer d'). rewrite Eread, Edel, Hd, map_app.
    split_and!; [done|done|by apply prefix_app]. }
  destruct r as [u|err|f]; [|done..]. split; [done|]. destruct Ho as [Hwr Hfr Hbw Hcw]. split.
  - constructor; rewrite ?took_app, ?wrote_app, ?Hwr; change (took (PumpEvent.Read bytes :: ev)) with (took ev);
      change (wrote (PumpEvent.Read bytes :: ev)) with (wrote ev); rewrite ?Et, ?Ew, ?app_nil_r; try done. by rewrite <-Hwr.
  - constructor; rewrite ?Eread, ?Edel; cbn [status decoder LdflPacketDecoder.decoder].
    + exists (fs ++ gs). split; [done|]. rewrite map_app, Hd, (Hall u eq_refl). split; [done|].
      cbn [LinkStatus.count_read LinkStatus.frames_read]. rewrite Hn, saturating_total, length_map, length_app by lia. f_equal. lia.
    + done.
    + cbn [LinkStatus.count_read LinkStatus.bytes_read]. rewrite Hb, saturating_total, length_app by lia. f_equal. lia.
Qed.

Lemma step_then {A} tr ev (x : bulk T * list PumpEvent.t * outcome string A) :
  usb_step (tr ++ ev) x -> usb_step tr (let '(st, more, r) := x in (st, ev ++ more, r)).
Proof. destruct x as [[st more] r]. unfold usb_step. by rewrite <-app_assoc. Qed.

Lemma pump_bulk_step turns : forall tr st,
  safe (endpoint st) -> usb_out tr st -> usb_in tr st -> usb_step tr (pump_bulk_stream turns st).
Proof.
  induction turns as [|turn turns IH]; intros tr st He Ho Hi; cbn [pump_bulk_stream]; [by apply quiet_step|].
  destruct (BulkTurn.cancelled turn); [by apply quiet_step|].
  pose proof (send_next_step (BulkTurn.writes turn) tr st He Ho Hi) as Hs.
  destruct (send_next _ st) as [[st1 ev1] r1]. destruct Hs as (Hr1 & Hsent1 & Hd1 & Hok1).
  destruct r1 as [u|e|f]; [|by split_and!|done]. destruct Hok1 as (He1 & Ho1 & Hi1).
  pose proof (receive_step (BulkTurn.read turn) _ st1 He1 Ho1 Hi1) as Hs.
  destruct (receive _ st1) as [[st2 ev2] r2]. destruct Hs as (Hr2 & Hsent2 & Hd2 & Hok2).
  rewrite <-app_assoc in *. destruct r2 as [u2|e|f]; [|by split_and!|done]. destruct Hok2 as (He2 & Ho2 & Hi2).
  specialize (IH _ st2 He2 Ho2 Hi2). destruct (pump_bulk_stream turns st2) as [[st3 ev3] r3].
  unfold usb_step in *. by rewrite <-!app_assoc in *.
Qed.

Lemma start_bulk_ok (e : T) phase detail :
  usb_out [] (start_bulk e (LinkStatus.with_phase phase detail)) /\ usb_in [] (start_bulk e (LinkStatus.with_phase phase detail)).
Proof.
  split; constructor; cbn; try done; try constructor; try apply new_decoder_wf.
  exists []. split_and!; [|done..]. by apply (stream_pending [] 24).
Qed.

(** Whatever the application does on the link and however the bulk endpoint
    splits, refuses or fails transfers, the bytes the USB worker has written are a
    well-formed LDFL stream: the frames of the packets it took, in order, each
    written whole before the next is taken. Only a failed transfer leaves a part
    of one frame, and then the worker has ended; while it runs the counters say
    exactly what was written, and it never panics. *)
Theorem usb_output_is_a_frame_stream (e : T) detail turns (He : safe e) :
  let '(st, tr, r) := pump_bulk_stream turns (start_bulk e (LinkStatus.with_phase UsbLinkState.Connected detail)) in
  returns r /\
  (exists fs part, stream (wrote tr) fs part /\
     exists next, Forall2 carries (took tr) (fs ++ next) /\ (length next <= 1)%nat) /\
  (succeeds r ->
     wrote tr = concat (map Packet.payload (took tr)) /\
     LinkStatus.frames_written (status st) = Z.min (zlen (took tr)) (u_max 64) /\
     LinkStatus.bytes_written (status st) = Z.min (zlen (wrote tr)) (u_max 64)).
Proof.
  destruct (start_bulk_ok e UsbLinkState.Connected detail) as [Ho Hi].
  pose proof (pump_bulk_step turns [] (start_bulk e (LinkStatus.with_phase UsbLinkState.Connected detail)) He Ho Hi) as Hp.
  destruct (pump_bulk_stream turns _) as [[st tr] r]. destruct Hp as (Hr & (fin & o & Ht & Hw & Hoff & Hf) & _ & Hok).
  cbn [app] in *. split; [done|]. split.
  - rewrite Ht in Hf. apply Forall_app in Hf as [Hf1 Hf2].
    destruct (carried_frames fin Hf1) as (fs & Hfs & Hwf & Henc).
    destruct (carried_frames _ Hf2) as (gs & Hgs & _ & _).
    exists fs, (in_flight o). split.
    { rewrite Hw, Henc. rewrite <-(app_nil_r fs) at 2. apply stream_app; [done|]. by apply in_flight_pending. }
    exists gs. split; [rewrite Ht; by apply Forall2_app|]. rewrite <-(Forall2_length _ _ _ Hgs). destruct o; cbn; lia.
  - intros [b ->]. by destruct Hok as (_ & [? ? ? ?] & _).
Qed.

(** The packets the USB worker hands to the link are those of the bytes it
    read, in stream order; while it runs they are all the complete frames read so
    far, the unread tail is kept, and the counters agree. *)
Theorem usb_input_is_delivered_in_order (e : T) detail turns (He : safe e) :
  let '(st, tr, r) := pump_bulk_stream turns (start_bulk e (LinkStatus.with_phase UsbLinkState.Connected detail)) in
  (exists bytes fs tail, bytes `prefix_of` read tr /\ stream bytes fs tail /\
     delivered_in tr `prefix_of` map packet_from_frame fs) /\
  (succeeds r -> exists fs,
     stream (read tr) fs (FrameDecoder.buffer (LdflPacketDecoder.decoder (decoder st))) /\
     delivered_in tr = map packet_from_frame fs /\
     LinkStatus.frames_read (status st) = Z.min (zlen fs) (u_max 64) /\
     LinkStatus.bytes_read (status st) = Z.min (zlen (read tr)) (u_max 64)).
Proof.
  destruct (start_bulk_ok e UsbLinkState.Connected detail) as [Ho Hi].
  pose proof (pump_bulk_step turns [] (start_bulk e (LinkStatus.with_phase UsbLinkState.Connected detail)) He Ho Hi) as Hp.
  destruct (pump_bulk_stream turns _) as [[st tr] r]. destruct Hp as (_ & _ & Hd & Hok). cbn [app] in *.
  split; [exact Hd|]. intros [b ->]. destruct Hok as (_ & _ & [(fs & Hs & Hdel & Hn) _ Hb]). by exists fs.
Qed.
End PumpInvariant.

(** ** A session *)
Module UsbExamples.
Import FrameExamples TcpExamples.

(** Both frames queued; the first write is cut short, the second fails after a
    part of its frame; the phone's traffic arrives in two transfers. *)
Definition usb_start : bulk SharedEndpoint.t :=
  start_bulk worker (LinkStatus.with_phase UsbLinkState.Connected "up").
Definition cut (at_ : nat) (i : nat) : string + nat := match i with O => inr at_ | S _ => inr 6%nat end.
Definition usb_turns : list BulkTurn.t := [
  BulkTurn.mk false (cut 20) (BulkRead.Arrived (take 30 traffic));
  BulkTurn.mk false (fun _ => inr 25%nat) (BulkRead.Failed (UsbError.mk UsbError.Timeout "timeout"));
  BulkTurn.mk false (fun _ => inr 0%nat) (BulkRead.Arrived (drop 30 traffic)) ].
Definition failing_turns : list BulkTurn.t := [
  BulkTurn.mk false (fun i => match i with O => inr 20%nat | S _ => inl "unplugged" end) (BulkRead.Arrived []) ].

Lemma usb_output_is_a_frame_stream_witness :
  safe worker /\
  (exists st tr, pump_bulk_stream usb_turns usb_start = (st, tr, Ok false) /\
     wrote tr = Frame.encode early ++ Frame.encode late /\ LinkStatus.frames_written (WinUsb.status st) = 2) /\
  (exists st tr fs part, pump_bulk_stream failing_turns usb_start =
      (st, tr, Err "Android USB bulk write failed: unplugged") /\
     stream (wrote tr) fs part /\ length (wrote tr) = 20%nat).
Proof.
  split; [exact worker_safe|]. split.
  - pose proof (usb_output_is_a_frame_stream worker "up" usb_turns worker_safe) as H. fold usb_start in H.
    destruct (pump_bulk_stream usb_turns usb_start) as [[st tr] r] eqn:Hp.
    assert (r = Ok false /\ concat (map Packet.payload (took tr)) = Frame.encode early ++ Frame.encode late /\
            Z.min (zlen (took tr)) (u_max 64) = 2) as (-> & Hw & Hn)
      by (vm_compute in Hp; injection Hp as <- <- <-; split; [|split]; vm_compute; reflexivity).
    destruct H as (_ & _ & H). destruct H as (Hwr & Hf & _); [by eexists|].
    exists st, tr. split; [reflexivity|]. split; [exact (eq_trans Hwr Hw)|exact (eq_trans Hf Hn)].
  - pose proof (usb_output_is_a_frame_stream worker "up" failing_turns worker_safe) as H. fold usb_start in H.
    destruct (pump_bulk_stream failing_turns usb_start) as [[st tr] r] eqn:Hp.
    destruct H as (_ & (fs & part & Hs & _) & _). exists st, tr, fs, part.
    vm_compute in Hp. injection Hp as <- <- <-. split; [reflexivity|]. split; [exact Hs|reflexivity].
Defined.

Lemma usb_input_is_delivered_in_order_witness :
  safe worker /\ exists st tr, pump_bulk_stream usb_turns usb_start = (st, tr, Ok false) /\
    delivered_in tr = map packet_from_frame [video; ping] /\ LinkStatus.frames_read (WinUsb.status st) = 2.
Proof.
  split; [exact worker_safe|].
  pose proof (usb_input_is_delivered_in_order worker "up" usb_turns worker_safe) as H. fold usb_start in H.
  destruct (pump_bulk_stream usb_turns usb_start) as [[st tr] r] eqn:Hp.
  assert (Hr : r = Ok false) by (vm_compute in Hp; injection Hp as <- <- <-; reflexivity).
  destruct H as [_ H]. destruct H as (fs & Hs & Hd & Hn & _); [by eexists|]. exists st, tr.
  assert (Ht : stream (read tr) [video; ping] []).
  { assert (Hrd : read tr = encode_all [video; ping] ++ [])
      by (vm_compute in Hp; injection Hp as <- <- <-; vm_compute; reflexivity).
    rewrite Hrd. apply (stream_app [video; ping] [] frames_wf []). by apply (stream_pending [] 24). }
  destruct (stream_deterministic _ _ _ Hs _ _ Ht) as [-> _]. split; [by rewrite Hr|].
  split; [exact Hd|exact Hn].
Defined.
End UsbExamples.
