(* ===== verification/WinUsbOpen.v ===== *)
(** * Opening an Android accessory on Windows

    The discovery half of [apps/desktop/src-tauri/src/platform/windows/usb_accessory.rs]:
    listing devices, opening an accessory and claiming its bulk interface, and
    switching a device to accessory mode. libusb and the clock are the class
    [UsbOs]; a recording of its calls shows which devices are touched, in which
    order, and what is still open at the end. *)
From stdpp Require Import pretty.
From S2P Require Export WinUsb.
Local Open Scope string_scope.
Local Open Scope list_scope.
Local Open Scope Z_scope.

(** What the code asks of libusb ([rusb]) and of the clock. [usb_cancelled] loads
    the flag of the reconnection, [usb_open] answers with a handle, and
    [usb_close] is the handle's drop, which gives up its interfaces. During a
    negotiation the device answers by the requests made so far
    ([AccessoryControlIo]); [usb_exchanged] is the world after them. [usb_turns]
    is what the worker meets in the iterations before it sees the flag. *)
Class UsbOs (W : Type) : Type := {
  usb_cancelled : W -> W * bool;
  usb_context : W -> W * outcome string unit;
  usb_devices : W -> W * outcome string (list UsbDevice.t);
  usb_open : UsbDevice.t -> W -> W * outcome string nat;
  usb_close : nat -> W -> W;
  usb_control : nat -> W -> list Request.t -> Request.t -> Reply.t UsbError.t;
  usb_exchanged : nat -> list Request.t -> W -> W;
  usb_active_configuration : nat -> W -> W * outcome string Z;
  usb_set_configuration : nat -> Z -> W -> W * outcome string unit;
  usb_claim : nat -> Z -> W -> W * outcome string unit;
  usb_release : nat -> Z -> W -> W * outcome string unit;
  usb_spawn : W -> W * outcome string unit;
  usb_turns : W -> W * list BulkTurn.t;
  usb_now : W -> W * Z;
  usb_sleep : Z -> W -> W;
}.

Module OpenedAccessory.
Record t : Type := mk {
  report : UsbAccessoryProbeReport.t;
  handle : nat;
  endpoints : BulkEndpoints.t;
}.
End OpenedAccessory.

(** [{:04x}:{:04x}]. *)
Definition device_id (descriptor : DeviceDescriptor.t) : string :=
  Fmt.hex 4 (DeviceDescriptor.vendor_id descriptor) +:+ ":" +:+ Fmt.hex 4 (DeviceDescriptor.product_id descriptor).

Definition descriptor_is_accessory (descriptor : DeviceDescriptor.t) : bool :=
  is_aoa_app_accessory (DeviceDescriptor.vendor_id descriptor) (DeviceDescriptor.product_id descriptor).
Definition descriptor_is_candidate (descriptor : DeviceDescriptor.t) : bool :=
  is_android_probe_candidate (DeviceDescriptor.vendor_id descriptor) (DeviceDescriptor.product_id descriptor)
    (DeviceDescriptor.class_code descriptor).

(** The loop of [find_accessory_devices]. *)
Fixpoint accessories_of (devices : list UsbDevice.t) : outcome string (list UsbDevice.t) :=
  match devices with
  | [] => Ok []
  | device :: devices =>
    let! descriptor := map_err (fun error => "failed to read USB device descriptor: " +:+ error)
      (UsbDevice.device_descriptor device) in
    let! accessories := accessories_of devices in
    Ok (if descriptor_is_accessory descriptor then device :: accessories else accessories)
  end.

Section discovery.
Context {W : Type} `{UsbOs W}.
Notation io := (RustIo.io W string).

(** [cancel] says whether the caller passes a flag. *)
Definition cancellation_requested {E} (cancel : bool) : RustIo.io W E bool :=
  if cancel then fun w => let (w, flag) := usb_cancelled w in (w, Ok flag) else iret false.
Definition ensure_not_cancelled (cancel : bool) : io unit :=
  let* requested := cancellation_requested cancel in
  if requested : bool then ifail RECONNECT_CANCELLED_DETAIL else iret tt.

Definition usb_now_io {E} : RustIo.io W E Z := fun w => let (w, now) := usb_now w in (w, Ok now).

(** The loop of [wait_cancellable]. *)
Fixpoint wait_until (fuel : nat) (deadline : Z) : io unit :=
  match fuel with
  | O => ifault OutOfFuel
  | S fuel =>
    let* _ := ensure_not_cancelled true in
    let* now := usb_now_io in
    if deadline <=? now then iret tt
    else
      let* _ := iput (usb_sleep (Z.min (deadline - now) CANCELLATION_POLL_INTERVAL)) in
      wait_until fuel deadline
  end.
(** Every sleep but the last lasts the whole poll interval. *)
Definition WAIT_FUEL (duration : Z) : nat := S (S (Z.to_nat (duration / CANCELLATION_POLL_INTERVAL))).
Definition wait_cancellable (cancel : bool) (duration : Z) : io unit :=
  if negb cancel then iput (usb_sleep duration)
  else
    let* now := usb_now_io in
    let* deadline := ilift (Duration.add now duration) in
    wait_until (WAIT_FUEL duration) deadline.

Definition find_accessory_devices : io (list UsbDevice.t) :=
  let* devices := imap_err (fun error => "failed to list USB devices: " +:+ error) usb_devices in
  ilift (accessories_of devices).

(** Between the opening of the handle and the claim. *)
Definition claim_accessory (configuration : UsbConfig.t) (endpoints : BulkEndpoints.t) (handle : nat) : io unit :=
  let* active := imap_err (fun error => "failed to query active AOA configuration: " +:+ error)
    (usb_active_configuration handle) in
  let* _ :=
    if negb (active =? UsbConfig.number configuration)
    then imap_err (fun error => "failed to activate AOA configuration: " +:+ error)
           (usb_set_configuration handle (UsbConfig.number configuration))
    else iret tt in
  imap_err (fun error => "AOA device is visible but interface " +:+ pretty (BulkEndpoints.interface endpoints) +:+
                         " cannot be claimed (" +:+ error +:+
                         "). Another application or an incompatible Windows driver owns it")
    (usb_claim handle (BulkEndpoints.interface endpoints)).

Definition accessory_report (device : UsbDevice.t) (descriptor : DeviceDescriptor.t) (endpoints : BulkEndpoints.t)
  (protocol_version : option Z) : UsbAccessoryProbeReport.t :=
  UsbAccessoryProbeReport.mk true "ready"
    "AOA app interface opened and its duplex bulk endpoints were claimed successfully" protocol_version
    (Some (UsbDevice.bus_number device)) (Some (UsbDevice.address device))
    (Some (DeviceDescriptor.vendor_id descriptor)) (Some (DeviceDescriptor.product_id descriptor))
    (Some (BulkEndpoints.interface endpoints)) (Some (BulkEndpoints.input endpoints))
    (Some (BulkEndpoints.output endpoints)) (Some (BulkEndpoints.max_packet_size endpoints)).

Definition open_accessory (device : UsbDevice.t) (protocol_version : option Z) : io OpenedAccessory.t :=
  let* descriptor := ilift (map_err (fun error => "failed to read AOA descriptor: " +:+ error)
    (UsbDevice.device_descriptor device)) in
  let* configuration := ilift (map_err (fun error => "failed to read AOA configuration: " +:+ error)
    (match UsbDevice.active_config device with
     | Err _ => UsbDevice.first_config device
     | active => active
     end)) in
  let* endpoints := ilift (ok_or (find_bulk_endpoints configuration)
    "AOA configuration has no interface with bulk IN and OUT endpoints") in
  let* handle := imap_err (fun error => "AOA device " +:+ device_id descriptor +:+
      " is visible but cannot be opened (" +:+ error +:+
      "). Windows needs a signed WinUSB-compatible driver for this interface") (usb_open device) in
  let* _ := ion_error (claim_accessory configuration endpoints handle) (usb_close handle) in
  iret (OpenedAccessory.mk (accessory_report device descriptor endpoints protocol_version) handle endpoints).

(** [negotiate_accessory_mode] over the handle. *)
Definition negotiate (handle : nat) (identity : AccessoryIdentity.t)
  : RustIo.io W (AoaNegotiationError.t UsbError.t) AoaProtocolVersion.t := fun w =>
  let (requests, r) := negotiate_accessory_mode (usb_control handle w) identity in
  (usb_exchanged handle requests w, r).

(** The loop that waits for the switched device to come back. *)
Fixpoint await_reenumeration (fuel : nat) (cancel : bool) (started protocol : Z) : io OpenedAccessory.t :=
  match fuel with
  | O => ifault OutOfFuel
  | S fuel =>
    let* now := usb_now_io in
    if Duration.saturating_sub now started <? REENUMERATION_TIMEOUT then
      let* _ := ensure_not_cancelled cancel in
      let* accessories := find_accessory_devices in
      match accessories with
      | accessory :: _ =>
        let* _ := ensure_not_cancelled cancel in
        open_accessory accessory (Some protocol)
      | [] =>
        let* _ := wait_cancellable cancel REENUMERATION_POLL_INTERVAL in
        await_reenumeration fuel cancel started protocol
      end
    else
      ifail ("Android accepted AOA " +:+ pretty protocol +:+
             " but did not re-enumerate as a Google accessory within " +:+
             pretty (Duration.as_secs REENUMERATION_TIMEOUT) +:+ " seconds")
  end.
(** Every round waits at least the poll interval. *)
Definition REENUMERATION_FUEL : nat := S (Z.to_nat (REENUMERATION_TIMEOUT / REENUMERATION_POLL_INTERVAL)).

Definition bus_text (device : UsbDevice.t) (descriptor : DeviceDescriptor.t) : string :=
  "bus " +:+ pretty (UsbDevice.bus_number device) +:+ " device " +:+ pretty (UsbDevice.address device) +:+ " " +:+
  device_id descriptor.

Definition no_device_answered (attempted inaccessible : Z) (failures : list string) : string :=
  let evidence := String.concat "; " (take 3 failures) in
  "no connected USB device completed the AOA protocol query (attempted " +:+ pretty attempted +:+
  ", inaccessible " +:+ pretty inaccessible +:+
  "). On Windows, install the product's signed WinUSB-compatible binding for the Android interface before retrying" +:+
  (if bool_decide (evidence = "") then "" else ": ") +:+ evidence.

(** The loop over the devices. *)
Fixpoint try_devices (cancel : bool) (identity : AccessoryIdentity.t) (devices : list UsbDevice.t)
  (attempted inaccessible : Z) (failures : list string) : io OpenedAccessory.t :=
  match devices with
  | [] => ifail (no_device_answered attempted inaccessible failures)
  | device :: devices =>
    let* _ := ensure_not_cancelled cancel in
    match UsbDevice.device_descriptor device with
    | Err error => try_devices cancel identity devices attempted inaccessible (failures ++ ["descriptor: " +:+ error])
    | Fault f => ifault f
    | Ok descriptor =>
      if negb (descriptor_is_candidate descriptor) then try_devices cancel identity devices attempted inaccessible failures
      else
        let* opened := icatch (usb_open device) in
        match opened with
        | Err error =>
          let* inaccessible := ilift (chk usize_bits (inaccessible + 1)) in
          try_devices cancel identity devices attempted inaccessible
            (failures ++ [bus_text device descriptor +:+ " could not open: " +:+ error])
        | Fault f => ifault f
        | Ok handle =>
          let* attempted := ion_error (ilift (chk usize_bits (attempted + 1))) (usb_close handle) in
          let* _ := ion_error (ensure_not_cancelled cancel) (usb_close handle) in
          let* negotiation := icatch (ifinally (negotiate handle identity) (usb_close handle)) in
          match negotiation with
          | Ok protocol =>
            let* _ := ensure_not_cancelled cancel in
            let* started := usb_now_io in
            await_reenumeration REENUMERATION_FUEL cancel started (AoaProtocolVersion.get protocol)
          | Err (AoaNegotiationError.Control _ (UsbError.mk UsbError.Pipe _)) =>
            try_devices cancel identity devices attempted inaccessible failures
          | Err error =>
            try_devices cancel identity devices attempted inaccessible
              (failures ++ [bus_text device descriptor +:+ ": " +:+ AoaNegotiationError.to_string UsbError.message error])
          | Fault f => ifault f
          end
        end
    end
  end.

(** [package_version] is [CARGO_PKG_VERSION]. *)
Definition open_android_accessory (package_version : list byte) (computer_name : option (list byte)) (cancel : bool)
  : io OpenedAccessory.t :=
  let* _ := ensure_not_cancelled cancel in
  let* _ := imap_err (fun error => "failed to initialize libusb: " +:+ error) usb_context in
  let* _ := ensure_not_cancelled cancel in
  let* accessories := find_accessory_devices in
  match accessories with
  | device :: _ =>
    let* _ := ensure_not_cancelled cancel in
    open_accessory device None
  | [] =>
    let* identity := ilift (map_err (fun error => "invalid LadoFlow AOA identity: " +:+ AccessoryIdentityError.to_string error)
      (AccessoryIdentity.ladoflow (host_description computer_name) package_version [])) in
    let* devices := imap_err (fun error => "failed to enumerate USB devices: " +:+ error) usb_devices in
    try_devices cancel identity devices 0 0 []
  end.

Definition collect_status : W -> W * string := fun w =>
  let (w, context) := usb_context w in
  match context with
  | Ok _ =>
    let (w, devices) := find_accessory_devices w in
    (w, match devices with
        | Ok [] => "USB host ready; no Android AOA app accessory is enumerated. Plug in Android and choose Prepare Android USB. Windows may require a signed WinUSB-compatible driver binding."
        | Ok devices =>
          "USB host sees " +:+ pretty (zlen devices) +:+ " Android AOA app accessor" +:+
          (if zlen devices =? 1 then "y" else "ies") +:+
          "; use Prepare Android USB to verify driver access and bulk endpoints"
        | Err error => "USB enumeration failed: " +:+ error
        | Fault _ => ""
        end)
  | Err error => (w, "USB host initialization failed: " +:+ error)
  | Fault _ => (w, "")
  end.
End discovery.

(** ** What happens to the devices

    The calls of a run that concern a device, and the looks at the flag. *)
Inductive UsbEntry : Type :=
| FlagSeen (set_ : bool)
| OpenTried (device : UsbDevice.t) (handle : option nat)
| HandleClosed (handle : nat)
| VendorRequests (handle : nat) (requests : list Request.t)
| ConfigurationSet (handle : nat)
| InterfaceClaimed (handle : nat) (interface : Z) (accepted : bool)
| InterfaceReleased (handle : nat) (interface : Z).

Definition ok_of {E A} (r : outcome E A) : option A := match r with Ok a => Some a | _ => None end.
Definition noted {W A} (log : list UsbEntry) (answer : W * A) : (W * list UsbEntry) * A := (fst answer, log, snd answer).

#[export] Instance recording_usb `{UsbOs W} : UsbOs (W * list UsbEntry) := {
  usb_cancelled w := let r := usb_cancelled (fst w) in noted (snd w ++ [FlagSeen (snd r)]) r;
  usb_context w := noted (snd w) (usb_context (fst w));
  usb_devices w := noted (snd w) (usb_devices (fst w));
  usb_open d w := let r := usb_open d (fst w) in noted (snd w ++ [OpenTried d (ok_of (snd r))]) r;
  usb_close h w := (usb_close h (fst w), snd w ++ [HandleClosed h]);
  usb_control h w := usb_control h (fst w);
  usb_exchanged h requests w := (usb_exchanged h requests (fst w), snd w ++ [VendorRequests h requests]);
  usb_active_configuration h w := noted (snd w) (usb_active_configuration h (fst w));
  usb_set_configuration h n w :=
    noted (snd w ++ [ConfigurationSet h]) (usb_set_configuration h n (fst w));
  usb_claim h i w :=
    let r := usb_claim h i (fst w) in noted (snd w ++ [InterfaceClaimed h i (bool_decide (is_Some (ok_of (snd r))))]) r;
  usb_release h i w := noted (snd w ++ [InterfaceReleased h i]) (usb_release h i (fst w));
  usb_spawn w := noted (snd w) (usb_spawn (fst w));
  usb_turns w := noted (snd w) (usb_turns (fst w));
  usb_now w := noted (snd w) (usb_now (fst w));
  usb_sleep d w := (usb_sleep d (fst w), snd w);
}.

(** At most one device is open. Nothing but closing happens once the flag was seen
    set. Only a candidate or an accessory is opened; only a candidate receives
    vendor requests, only an accessory is configured and claimed. *)
Inductive Holding : Type :=
| NoDevice
| Opened (handle : nat) (device : UsbDevice.t)
| Claimed (handle : nat) (device : UsbDevice.t) (interface : Z).
Record UsbState : Type := mk_usb_state { flag_seen : bool; holding : Holding }.

Definition described (p : DeviceDescriptor.t -> bool) (device : UsbDevice.t) : bool :=
  match UsbDevice.device_descriptor device with
  | Ok descriptor => p descriptor
  | _ => false
  end.

Definition usb_step_of (s : UsbState) (e : UsbEntry) : option UsbState :=
  let free (b : bool) (h : Holding) := if negb (flag_seen s) && b then Some (mk_usb_state false h) else None in
  match e, holding s with
  | FlagSeen b, _ => Some (mk_usb_state (flag_seen s || b) (holding s))
  | OpenTried d handle, NoDevice =>
    free (described descriptor_is_candidate d || described descriptor_is_accessory d)
      (match handle with Some h => Opened h d | None => NoDevice end)
  | VendorRequests h' _, Opened h d => free (bool_decide (h' = h) && described descriptor_is_candidate d) (Opened h d)
  | ConfigurationSet h', Opened h d => free (bool_decide (h' = h) && described descriptor_is_accessory d) (Opened h d)
  | InterfaceClaimed h' i accepted, Opened h d =>
    free (bool_decide (h' = h) && described descriptor_is_accessory d)
      (if accepted then Claimed h d i else Opened h d)
  | InterfaceReleased h' i', Claimed h d i =>
    if bool_decide (h' = h) && bool_decide (i' = i) then Some (mk_usb_state (flag_seen s) (Opened h d)) else None
  | HandleClosed h', (Opened h _ | Claimed h _ _) =>
    if bool_decide (h' = h) then Some (mk_usb_state (flag_seen s) NoDevice) else None
  | _, _ => None
  end.
Definition usb_session (start : UsbState) (log : list UsbEntry) : option UsbState :=
  fold_left (fun s e => s ← s; usb_step_of s e) log (Some start).

Lemma usb_session_snoc start log e : usb_session start (log ++ [e]) = (s ← usb_session start log; usb_step_of s e).
Proof. unfold usb_session. by rewrite fold_left_app. Qed.

Section devices.
Context {W : Type} `{UsbOs W} (start : UsbState).
Implicit Types (d : UsbDevice.t) (h : nat) (hd : Holding).

Definition usb_at (s : UsbState) (w : W * list UsbEntry) : Prop := usb_session start (snd w) = Some s.
Notation free := (fun hd => usb_at (mk_usb_state false hd)).

Lemma usb_at_snoc s w e s' :
  usb_at s w -> usb_step_of s e = Some s' -> usb_session start (snd w ++ [e]) = Some s'.
Proof. unfold usb_at. intros Hw Hs. by rewrite usb_session_snoc, Hw. Qed.

(** The flag was seen only by a run that says so. *)
Definition gone_with (hd : Holding) (e : string) (w : W * list UsbEntry) : Prop :=
  exists seen, usb_at (mk_usb_state seen hd) w /\ (seen = true -> e = RECONNECT_CANCELLED_DETAIL).
Definition unless_gone {A} (hd : Holding) (P : A -> W * list UsbEntry -> Prop) (r : outcome string A)
  (w : W * list UsbEntry) : Prop :=
  match r with
  | Ok a => P a w
  | Err e => gone_with hd e w
  | Fault _ => free hd w
  end.

Lemma gone_free hd e w : free hd w -> gone_with hd e w.
Proof. by exists false. Qed.

Lemma ensure_ends cancel hd :
  run_of (free hd) (ensure_not_cancelled cancel) (unless_gone hd (fun _ => free hd)).
Proof.
  intros w Hw. destruct cancel; [|done]. unfold ensure_not_cancelled, cancellation_requested, ibind.
  cbn [usb_cancelled recording_usb noted].
  pose proof (usb_at_snoc _ w (FlagSeen (snd (usb_cancelled (fst w)))) _ Hw eq_refl) as Hs.
  unfold noted. cbv zeta. destruct (usb_cancelled (fst w)) as [w' []]; cbn in *; [|exact Hs].
  by exists true.
Qed.

(** The calls that concern no device. *)
Lemma keeps_devices s : keeps (usb_at s) usb_devices.
Proof. by intros w Hw. Qed.
Lemma keeps_usb_context s : keeps (usb_at s) usb_context.
Proof. by intros w Hw. Qed.
Lemma keeps_active s h : keeps (usb_at s) (usb_active_configuration h).
Proof. by intros w Hw. Qed.
Lemma keeps_usb_now {E} s : keeps (usb_at s) (usb_now_io (E:=E)).
Proof. intros w Hw. unfold usb_now_io. simpl. by destruct (usb_now (fst w)). Qed.
Hint Resolve keeps_devices keeps_usb_context keeps_active keeps_usb_now : io.

(** A step that keeps the state ends there on every path. *)
Lemma keeps_unless_gone {A} hd (m : io (W * list UsbEntry) string A) :
  keeps (free hd) m -> run_of (free hd) m (unless_gone hd (fun _ => free hd)).
Proof. intros Hm w Hw. specialize (Hm w Hw). destruct (m w) as [w' []]; simpl in *; [done|by apply gone_free|done]. Qed.

Lemma bind_unless_gone {A B} hd (P : A -> W * list UsbEntry -> Prop) (m : io (W * list UsbEntry) string A)
  (k : A -> io (W * list UsbEntry) string B) start_at Q :
  run_of start_at m (unless_gone hd P) -> (forall a, run_of (P a) (k a) (unless_gone hd Q)) ->
  run_of start_at (ibind m k) (unless_gone hd Q).
Proof. intros Hm Hk. eapply run_bind; [exact Hm|done|done|]. intros a. apply Hk. Qed.

Lemma find_ends hd :
  run_of (free hd) find_accessory_devices
    (unless_gone hd (fun ds w => free hd w /\ Forall (fun d => described descriptor_is_accessory d = true) ds)).
Proof.
  unfold find_accessory_devices. eapply bind_unless_gone; [apply keeps_unless_gone; auto with io|].
  intros ds. cbv beta. intros w Hw. cbn. induction ds as [|d ds IH]; [by split|]. cbn [accessories_of].
  unfold described. destruct (UsbDevice.device_descriptor d) as [descriptor|e|f] eqn:Hd; cbn [obind map_err];
    [|by apply gone_free|done].
  destruct (accessories_of ds) as [found|e|f]; cbn [obind unless_gone] in *; [|done..].
  destruct IH as [_ IH]. split; [done|]. destruct (descriptor_is_accessory descriptor) eqn:Ha; [|done].
  constructor; [by rewrite Hd|done].
Qed.

Lemma wait_until_ends fuel deadline hd :
  run_of (free hd) (wait_until fuel deadline) (unless_gone hd (fun _ => free hd)).
Proof.
  induction fuel as [|fuel IH]; cbn [wait_until]; [by intros w Hw|].
  eapply bind_unless_gone; [apply ensure_ends|]. intros ?. cbv beta.
  eapply bind_unless_gone; [apply keeps_unless_gone; auto with io|]. intros now. cbv beta.
  destruct (deadline <=? now); [by intros w Hw|].
  eapply bind_unless_gone; [apply keeps_unless_gone; by intros w Hw|]. intros ?. apply IH.
Qed.

Lemma wait_ends cancel duration hd :
  run_of (free hd) (wait_cancellable cancel duration) (unless_gone hd (fun _ => free hd)).
Proof.
  unfold wait_cancellable. destruct cancel; cbn [negb]; [|by intros w Hw].
  eapply bind_unless_gone; [apply keeps_unless_gone; auto with io|]. intros now. cbv beta.
  eapply bind_unless_gone; [apply keeps_unless_gone; auto with io|]. intros ?. apply wait_until_ends.
Qed.

(** ** Opening an accessory *)
Lemma configure_ends h d configuration :
  described descriptor_is_accessory d = true ->
  keeps (free (Opened h d)) (usb_set_configuration h configuration).
Proof.
  intros Hd w Hw. eapply usb_at_snoc; [exact Hw|]. cbn. by rewrite bool_decide_eq_true_2, Hd.
Qed.

Lemma claim_ends h d configuration endpoints :
  described descriptor_is_accessory d = true ->
  run_of (free (Opened h d)) (claim_accessory configuration endpoints h)
    (fun r w => match r with
                | Ok _ => free (Claimed h d (BulkEndpoints.interface endpoints)) w
                | _ => free (Opened h d) w
                end).
Proof.
  intros Hd. unfold claim_accessory.
  eapply run_bind with (R := fun _ => free (Opened h d)); [apply keeps_map_err; auto with io|done|done|]. intros active.
  eapply run_bind with (R := fun _ => free (Opened h d)); [|done|done|].
  { destruct (negb _); [apply keeps_map_err; by apply configure_ends|by intros w Hw]. }
  intros ? w Hw. unfold imap_err. cbn [usb_claim recording_usb noted].
  pose proof (usb_at_snoc _ w (InterfaceClaimed h (BulkEndpoints.interface endpoints)
    (bool_decide (is_Some (ok_of (snd (usb_claim h (BulkEndpoints.interface endpoints) (fst w))))))) _ Hw
    ltac:(cbn; rewrite bool_decide_eq_true_2, Hd by done; reflexivity)) as Hs.
  unfold noted. cbv zeta. by destruct (usb_claim _ _ _) as [w' []].
Qed.

Lemma close_frees h d w :
  free (Opened h d) w -> free NoDevice (usb_close h w).
Proof. intros Hw. eapply usb_at_snoc; [exact Hw|]. cbn. by rewrite bool_decide_eq_true_2. Qed.
Lemma close_gone h d e w :
  gone_with (Opened h d) e w -> gone_with NoDevice e (usb_close h w).
Proof.
  intros (seen & Hw & Hs). exists seen. split; [|done]. eapply usb_at_snoc; [exact Hw|]. cbn.
  by rewrite bool_decide_eq_true_2.
Qed.

Lemma open_ends d :
  described descriptor_is_candidate d || described descriptor_is_accessory d = true ->
  run_of (free NoDevice) (usb_open d) (fun r w => match r with
                                                  | Ok h => free (Opened h d) w
                                                  | _ => free NoDevice w
                                                  end).
Proof.
  intros Hd w Hw. cbn [usb_open recording_usb].
  pose proof (usb_at_snoc _ w (OpenTried d (ok_of (snd (usb_open d (fst w))))) _ Hw
    ltac:(cbn; rewrite Hd; reflexivity)) as Hs.
  unfold noted. cbv zeta. by destruct (usb_open d (fst w)) as [w' []].
Qed.

(** What an opened accessory is. *)
Definition claimed_by (o : OpenedAccessory.t) (w : W * list UsbEntry) : Prop :=
  exists d descriptor configuration protocol,
    UsbDevice.device_descriptor d = Ok descriptor /\ descriptor_is_accessory descriptor = true /\
    find_bulk_endpoints configuration = Some (OpenedAccessory.endpoints o) /\
    OpenedAccessory.report o = accessory_report d descriptor (OpenedAccessory.endpoints o) protocol /\
    free (Claimed (OpenedAccessory.handle o) d (BulkEndpoints.interface (OpenedAccessory.endpoints o))) w.
Notation opens := (unless_gone NoDevice claimed_by).

Lemma open_accessory_ends d protocol :
  described descriptor_is_accessory d = true ->
  run_of (free NoDevice) (open_accessory d protocol) opens.
Proof.
  intros Hd. pose proof Hd as Hacc. unfold described in Hacc. unfold open_accessory.
  destruct (UsbDevice.device_descriptor d) as [descriptor|e|f] eqn:Hdesc; [|done..].
  eapply bind_unless_gone with (P := fun x w => x = descriptor /\ free NoDevice w); [by intros w Hw|].
  intros x w [-> Hw]. revert w Hw.
  eapply bind_unless_gone; [apply keeps_unless_gone; auto with io|]. intros configuration. cbv beta.
  destruct (find_bulk_endpoints configuration) as [endpoints|] eqn:He; [|intros w Hw; by apply gone_free].
  eapply bind_unless_gone with (P := fun x w => x = endpoints /\ free NoDevice w); [by intros w Hw|].
  intros x w [-> Hw]. revert w Hw.
  eapply bind_unless_gone with (P := fun h => free (Opened h d)).
  { intros w Hw. pose proof (open_ends d) as Ho. rewrite Hd, orb_true_r in Ho. specialize (Ho eq_refl w Hw).
    unfold imap_err. destruct (usb_open d w) as [w' []]; cbn in *; [done|by apply gone_free|done]. }
  intros h. cbv beta.
  eapply bind_unless_gone with (P := fun _ => free (Claimed h d (BulkEndpoints.interface endpoints))).
  - intros w Hw. pose proof (claim_ends h d configuration endpoints Hd w Hw) as Hc. unfold ion_error.
    destruct (claim_accessory configuration endpoints h w) as [w' []]; cbn in *;
      [done|apply gone_free|]; by eapply close_frees.
  - intros ? w Hw. by exists d, descriptor, configuration, protocol.
Qed.

Lemma await_ends fuel cancel started protocol :
  run_of (free NoDevice) (await_reenumeration fuel cancel started protocol) opens.
Proof.
  induction fuel as [|fuel IH]; cbn [await_reenumeration]; [by intros w Hw|].
  eapply bind_unless_gone; [apply keeps_unless_gone; auto with io|]. intros now. cbv beta.
  destruct (_ <? _); [|intros w Hw; by apply gone_free].
  eapply bind_unless_gone; [apply ensure_ends|]. intros ?. cbv beta.
  eapply bind_unless_gone; [apply find_ends|]. intros [|d ds]; cbv beta.
  - intros w [Hw _]. revert w Hw. eapply bind_unless_gone; [apply wait_ends|]. intros ?. apply IH.
  - intros w [Hw Hds]. apply Forall_cons in Hds as [Hd _]. revert w Hw.
    eapply bind_unless_gone; [apply ensure_ends|]. intros ?. by apply open_accessory_ends.
Qed.

(** ** Switching a device *)
Lemma negotiate_ends h d identity :
  described descriptor_is_candidate d = true ->
  keeps (free (Opened h d)) (negotiate h identity).
Proof.
  intros Hd w Hw. unfold negotiate. destruct (negotiate_accessory_mode _ identity) as [requests r].
  eapply usb_at_snoc; [exact Hw|]. cbn. by rewrite bool_decide_eq_true_2, Hd.
Qed.

(** What a handle is used for ends with the handle closed, or still holding it. *)
Lemma closing_ends {A} h d (m : io (W * list UsbEntry) string A) :
  run_of (free (Opened h d)) m (unless_gone (Opened h d) (fun _ => free (Opened h d))) ->
  run_of (free (Opened h d)) (ion_error m (usb_close h)) (unless_gone NoDevice (fun _ => free (Opened h d))).
Proof.
  intros Hm w Hw. specialize (Hm w Hw). unfold ion_error. destruct (m w) as [w' []]; cbn in *;
    [done|by eapply close_gone|by eapply close_frees].
Qed.

Lemma try_devices_ends cancel identity devices : forall attempted inaccessible failures,
  run_of (free NoDevice) (try_devices cancel identity devices attempted inaccessible failures) opens.
Proof.
  induction devices as [|d devices IH]; intros attempted inaccessible failures; cbn [try_devices].
  { intros w Hw. by apply gone_free. }
  eapply bind_unless_gone; [apply ensure_ends|]. intros ?. cbv beta.
  destruct (UsbDevice.device_descriptor d) as [descriptor|e|f] eqn:Hd; [|apply IH|by intros w Hw].
  destruct (descriptor_is_candidate descriptor) eqn:Hcand; cbn [negb]; [|apply IH].
  assert (Hc : described descriptor_is_candidate d = true) by (unfold described; by rewrite Hd).
  eapply run_bind with (R := fun r w => match r with
      | Ok (Ok h) => free (Opened h d) w | _ => free NoDevice w end); [|intros ??; apply gone_free|done|].
  { intros w Hw. pose proof (open_ends d) as Ho. rewrite Hc in Ho. specialize (Ho eq_refl w Hw).
    unfold icatch. by destruct (usb_open d w) as [w' []]. }
  intros [h|e|f]; [| |by intros w Hw].
  2: { eapply bind_unless_gone; [apply keeps_unless_gone; auto with io|]. intros ?. apply IH. }
  eapply bind_unless_gone; [apply closing_ends, keeps_unless_gone; auto with io|]. intros ?. cbv beta.
  eapply bind_unless_gone; [apply closing_ends, ensure_ends|]. intros ?. cbv beta.
  eapply run_bind with (R := fun _ => free NoDevice); [|intros ??; apply gone_free|done|].
  { intros w Hw. unfold icatch. pose proof (negotiate_ends h d identity Hc w Hw) as Hn.
    unfold ifinally. destruct (negotiate h identity w) as [w' []]; by eapply close_frees. }
  intros [protocol|[stage [[] message]| | | |]|f]; try apply IH; [|by intros w Hw].
  eapply bind_unless_gone; [apply ensure_ends|]. intros ?. cbv beta.
  eapply bind_unless_gone; [apply keeps_unless_gone; auto with io|]. intros now. apply await_ends.
Qed.

Lemma open_android_ends package_version computer_name cancel :
  run_of (free NoDevice) (open_android_accessory package_version computer_name cancel) opens.
Proof.
  unfold open_android_accessory. eapply bind_unless_gone; [apply ensure_ends|]. intros ?. cbv beta.
  eapply bind_unless_gone; [apply keeps_unless_gone, keeps_map_err; auto with io|]. intros ?. cbv beta.
  eapply bind_unless_gone; [apply ensure_ends|]. intros ?. cbv beta.
  eapply bind_unless_gone; [apply find_ends|]. intros [|d ds]; cbv beta.
  - intros w [Hw _]. revert w Hw. eapply bind_unless_gone; [apply keeps_unless_gone; auto with io|]. intros identity. cbv beta.
    eapply bind_unless_gone; [apply keeps_unless_gone, keeps_map_err; auto with io|]. intros devices. apply try_devices_ends.
  - intros w [Hw Hds]. apply Forall_cons in Hds as [Hd _]. revert w Hw.
    eapply bind_unless_gone; [apply ensure_ends|]. intros ?. by apply open_accessory_ends.
Qed.
End devices.

(** ** Time

    What a world with a clock promises: it never runs backwards, a sleep lasts,
    lists fit in memory, and no call panics. *)
Class UsbOsLaws (W : Type) `{UsbOs W} : Type := {
  usb_clock : W -> Z;
  clock_cancelled w : usb_clock w <= usb_clock (fst (usb_cancelled w));
  clock_usb_now w : usb_clock w <= snd (usb_now w) <= usb_clock (fst (usb_now w));
  clock_start w : 0 <= usb_clock w;
  clock_sleep d w : usb_clock w + d <= usb_clock (usb_sleep d w);
  clock_devices w : usb_clock w <= usb_clock (fst (usb_devices w));
  devices_answer w : returns (snd (usb_devices w));
  devices_fit w ds : snd (usb_devices w) = Ok ds -> zlen ds < 2 ^ 63 /\
    Forall (fun d => returns (UsbDevice.device_descriptor d) /\ returns (UsbDevice.active_config d) /\
                     returns (UsbDevice.first_config d)) ds;
  context_answers w : returns (snd (usb_context w));
  open_answers d w : returns (snd (usb_open d w));
  active_answers h w : returns (snd (usb_active_configuration h w));
  configure_answers h n w : returns (snd (usb_set_configuration h n w));
  claim_answers h i w : returns (snd (usb_claim h i w));
  release_answers h i w : returns (snd (usb_release h i w));
  spawn_answers w : returns (snd (usb_spawn w));
}.

Section time.
Context {W : Type} `{UsbOsLaws W}.

Definition since (c : Z) (w : W) : Prop := c <= usb_clock w.
(** More than 38 million years after the clock's origin. *)
Definition aeons (w : W) : Prop := 2 ^ 80 <= usb_clock w.
Notation answering := (answering aeons).

Lemma ensure_answers c cancel : run_of (since c) (ensure_not_cancelled cancel) (answering (fun _ => since c)).
Proof.
  intros w Hw. destruct cancel; [|done]. unfold ensure_not_cancelled, cancellation_requested, ibind, since in *.
  pose proof (clock_cancelled w). destruct (usb_cancelled w) as [w' []]; cbn in *; [done|lia].
Qed.
Lemma now_answers c :
  run_of (since c) (usb_now_io (E:=string)) (answering (fun now w => since now w /\ c <= now /\ 0 <= now)).
Proof.
  intros w Hw. unfold usb_now_io, since in *. pose proof (clock_usb_now w). pose proof (clock_start w).
  destruct (usb_now w) as [w' now]; cbn in *. lia.
Qed.

Lemma wait_until_answers fuel c deadline :
  deadline <= c + Z.of_nat fuel * CANCELLATION_POLL_INTERVAL ->
  run_of (since c) (wait_until (S fuel) deadline) (answering (fun _ => since deadline)).
Proof.
  revert c. induction fuel as [|fuel IH]; intros c Hc; cbn [wait_until];
    (eapply bind_answering; [apply ensure_answers|]; intros ?; cbv beta;
     eapply bind_answering; [apply now_answers|]; intros now; cbv beta;
     destruct (Z.leb_spec deadline now); [intros w (Hw & _ & _); unfold answering, since in *; cbn; lia|]).
  - intros w (Hw & Hn & _). lia.
  - eapply bind_answering with (R := fun _ => since (Z.min deadline (c + CANCELLATION_POLL_INTERVAL))).
    { intros w (Hw & Hn & _). unfold iput, since in *. cbn.
      pose proof (clock_sleep (Z.min (deadline - now) CANCELLATION_POLL_INTERVAL) w). lia. }
    intros ?. apply IH. unfold CANCELLATION_POLL_INTERVAL, Duration.from_millis in *. lia.
Qed.

Lemma wait_answers c cancel duration :
  0 <= duration < 2 ^ 80 ->
  run_of (since c) (wait_cancellable cancel duration) (answering (fun _ => since (c + duration))).
Proof.
  intros Hd. unfold wait_cancellable. destruct cancel; cbn [negb].
  - eapply bind_answering; [apply now_answers|]. intros now. cbv beta.
    unfold Duration.add, Duration.checked_add, Duration.MAX.
    destruct (Z.leb_spec (now + duration) ((2 ^ 64 - 1) * 1000000000 + 999999999)); cbn [expect].
    2: { intros w (Hw & _). cbn. unfold aeons, since in *. lia. }
    intros w (Hw & Hn & _).
    unfold ibind, ilift. eapply run_weaken with (P := since now); [apply wait_until_answers| |..|exact Hw].
    + pose proof (Z.mul_succ_div_gt duration CANCELLATION_POLL_INTERVAL ltac:(done)).
      rewrite Nat2Z.inj_succ, Z2Nat.id by (apply Z.div_pos; [lia|done]). lia.
    + done.
    + intros [a|e|f] w' Hw'; unfold answering, since in *; [lia|done..].
  - intros w Hw. unfold iput, since in *. cbn. pose proof (clock_sleep duration w). lia.
Qed.

Definition well_described (d : UsbDevice.t) : Prop :=
  returns (UsbDevice.device_descriptor d) /\ returns (UsbDevice.active_config d) /\ returns (UsbDevice.first_config d).

Lemma accessories_answer ds :
  Forall well_described ds ->
  returns (accessories_of ds) /\ forall found, accessories_of ds = Ok found -> Forall well_described found.
Proof.
  induction 1 as [|d ds (Hd & Ha & Hf) _ IH]; [split; [done|]; by intros ? [= <-]|]. cbn [accessories_of].
  destruct (UsbDevice.device_descriptor d) as [descriptor|e|f] eqn:Hdesc; cbn [obind map_err]; [|done..].
  destruct IH as [Hr IH]. destruct (accessories_of ds) as [found|e|f]; cbn [obind]; [|done..].
  split; [done|]. intros ? [= <-]. specialize (IH _ eq_refl). destruct (descriptor_is_accessory _); [|done].
  constructor; [|done]. unfold well_described. by rewrite Hdesc.
Qed.

Lemma listed_answers {E} (g : string -> E) c :
  run_of (since c) (imap_err g usb_devices)
    (answering (fun ds w => since c w /\ zlen ds < 2 ^ 63 /\ Forall well_described ds)).
Proof.
  intros w Hw. unfold imap_err. pose proof (clock_devices w). pose proof (devices_answer w). pose proof (devices_fit w) as Hfit.
  destruct (usb_devices w) as [w' [ds|e|f]]; cbn in *; [|done..]. destruct (Hfit ds eq_refl) as [Hl Hds].
  split_and!; [unfold since in *; lia|done|done].
Qed.

Lemma find_answers c :
  run_of (since c) find_accessory_devices (answering (fun ds w => since c w /\ Forall well_described ds)).
Proof.
  unfold find_accessory_devices. eapply bind_answering; [apply listed_answers|]. intros ds w (Hw & _ & Hds). cbn.
  destruct (accessories_answer ds Hds) as [Hr Hfound]. destruct (accessories_of ds); [split; [done|by apply Hfound]|done..].
Qed.

Lemma returns_claim_accessory configuration endpoints handle w :
  returns (snd (claim_accessory configuration endpoints handle w)).
Proof.
  unfold claim_accessory. apply returns_ibind; [apply returns_imap_err, active_answers|]. intros active w1.
  apply returns_ibind; [destruct (negb _); [apply returns_imap_err, configure_answers|done]|]. intros ? w2.
  apply returns_imap_err, claim_answers.
Qed.

Lemma open_accessory_answers P d protocol :
  well_described d -> run_of P (open_accessory d protocol) (answering (fun _ _ => True)).
Proof.
  intros (Hd & Ha & Hf). unfold open_accessory.
  eapply bind_answering; [apply answers_lift; by apply returns_map_err|]. intros descriptor. cbv beta.
  eapply bind_answering; [apply answers_lift, returns_map_err; by destruct (UsbDevice.active_config d)|]. intros configuration. cbv beta.
  eapply bind_answering; [apply answers_lift, returns_ok_or|]. intros endpoints. cbv beta.
  eapply bind_answering; [apply answers_map, answers, open_answers|]. intros handle. cbv beta.
  eapply bind_answering; [|by intros ? ? ?].
  apply ion_error_answers. intros w. apply returns_claim_accessory.
Qed.

Lemma await_answers fuel cancel c started protocol :
  started + REENUMERATION_TIMEOUT <= c + Z.of_nat fuel * REENUMERATION_POLL_INTERVAL ->
  run_of (since c) (await_reenumeration (S fuel) cancel started protocol) (answering (fun _ _ => True)).
Proof.
  revert c. induction fuel as [|fuel IH]; intros c Hc; cbn [await_reenumeration];
    (eapply bind_answering; [apply now_answers|]; intros now; cbv beta;
     destruct (Z.ltb_spec (Duration.saturating_sub now started) REENUMERATION_TIMEOUT) as [Hlt|]; [|by intros w _];
     unfold Duration.saturating_sub in Hlt).
  - intros w (_ & Hn & _). lia.
  - eapply bind_answering with (R := fun _ => since c).
    { eapply run_weaken; [apply (ensure_answers c)| |done]. intros w (Hw & Hn & _). unfold since in *. lia. }
    intros ?. eapply bind_answering; [apply find_answers|]. intros [|d ds]; cbv beta.
    + eapply bind_answering with (R := fun _ => since (c + REENUMERATION_POLL_INTERVAL)).
      { eapply run_weaken; [by apply (wait_answers c)|by intros w []|done]. }
      intros ?. apply IH. lia.
    + intros w [Hw [Hd _]%Forall_cons]. revert w Hw.
      eapply bind_answering; [apply ensure_answers|]. intros ?. by apply open_accessory_answers.
Qed.

Lemma returns_negotiation handle identity w : returns (snd (negotiate handle identity w)).
Proof.
  unfold negotiate. pose proof (returns_negotiate_accessory_mode (usb_control handle w) identity) as Hn.
  by destruct (negotiate_accessory_mode _ identity) as [requests r].
Qed.

(** Where the start does not matter. *)
Notation anywhere m := (run_of (fun _ => True) m (answering (fun _ _ => True))).
Lemma from_since {E A} (m : io W E A) Q P : (forall c, run_of (since c) m (answering Q)) -> run_of P m (answering Q).
Proof. intros Hm w _. apply (Hm (usb_clock w)). unfold since. lia. Qed.
Lemma ensure_anywhere P cancel : run_of P (ensure_not_cancelled cancel) (answering (fun _ _ => True)).
Proof. apply from_since. intros c. eapply run_weaken; [apply ensure_answers|done|]. by intros []. Qed.
Lemma now_anywhere P : run_of P (usb_now_io (E:=string)) (answering since).
Proof. apply from_since. intros c. eapply run_weaken; [apply now_answers|done|]. intros [now| |] w; [|done..]. by intros [? _]. Qed.
Lemma returns_ensure cancel w : returns (snd (ensure_not_cancelled cancel w)).
Proof.
  destruct cancel; [|done]. unfold ensure_not_cancelled, cancellation_requested, ibind. by destruct (usb_cancelled w) as [w' []].
Qed.
Lemma counted_answers P n :
  in_u usize_bits n -> run_of P (ilift (chk (E:=string) usize_bits n)) (answering (fun m _ => m = n)).
Proof. intros Hn. rewrite chk_ok by done. by intros w _. Qed.

Lemma await_anywhere P cancel protocol :
  run_of P (let* started := usb_now_io in await_reenumeration REENUMERATION_FUEL cancel started protocol)
    (answering (fun _ _ => True)).
Proof.
  eapply bind_answering; [apply now_anywhere|]. intros started. by apply await_answers.
Qed.

Lemma try_devices_answers cancel identity ds : forall attempted inaccessible failures,
  Forall well_described ds -> 0 <= attempted -> 0 <= inaccessible ->
  attempted + zlen ds < 2 ^ 64 -> inaccessible + zlen ds < 2 ^ 64 ->
  anywhere (try_devices cancel identity ds attempted inaccessible failures).
Proof.
  induction ds as [|d ds IH]; intros attempted inaccessible failures Hds Ha Hi Hal Hil; cbn [try_devices]; [by intros w _|].
  apply Forall_cons in Hds as [(Hd & _) Hds]. cbn [length] in Hal, Hil.
  eapply bind_answering; [apply ensure_anywhere|]. intros ?. cbv beta.
  destruct (UsbDevice.device_descriptor d) as [descriptor|e|f]; [|apply IH; (done || lia)|done].
  destruct (negb _); [apply IH; (done || lia)|].
  eapply bind_answering; [apply caught_answers, open_answers|]. intros [h|e|f]; cbv beta; [| |by intros w ?].
  2: { eapply bind_answering; [apply counted_answers; unfold in_u, usize_bits; lia|]. intros n w ->.
       by refine (IH _ _ _ Hds _ _ _ _ w Logic.I); lia. }
  eapply bind_answering with (R := fun n _ => n = attempted + 1).
  { rewrite chk_ok by (unfold in_u, usize_bits; lia). by intros w _. }
  intros n w ->. revert w. refine (fun w => from_anywhere (fun _ => True) _ _ w Logic.I).
  eapply bind_answering; [apply ion_error_answers, returns_ensure|]. intros ?. cbv beta.
  eapply bind_answering.
  { apply caught_answers. intros w'. pose proof (returns_negotiation h identity w') as Hn.
    unfold ifinally. by destruct (negotiate h identity w'). }
  assert (Hnext : forall P failures, run_of P (try_devices cancel identity ds (attempted + 1) inaccessible failures)
      (answering (fun _ _ => True))) by (intros P fs; apply from_anywhere, IH; (done || lia)).
  intros [protocol|[stage [[] message]| | | |]|f]; try apply Hnext; [|by intros ??].
  eapply bind_answering; [apply ensure_anywhere|]. intros ?. apply await_anywhere.
Qed.

Lemma open_android_answers package_version computer_name cancel :
  anywhere (open_android_accessory package_version computer_name cancel).
Proof.
  unfold open_android_accessory. eapply bind_answering; [apply ensure_anywhere|]. intros ?. cbv beta.
  eapply bind_answering; [apply answers_map, answers, context_answers|]. intros ?. cbv beta.
  eapply bind_answering; [apply ensure_anywhere|]. intros ?. cbv beta.
  eapply bind_answering with (R := fun ds _ => Forall well_described ds).
  { apply from_since. intros c. eapply run_weaken; [apply find_answers|done|]. intros [ds| |] w; [|done..]. by intros []. }
  intros [|d ds]; cbv beta.
  - eapply bind_answering; [apply answers_lift, returns_map_err, returns_ladoflow|]. intros identity. cbv beta.
    eapply bind_answering with (R := fun ds _ => zlen ds < 2 ^ 63 /\ Forall well_described ds).
    { apply from_since. intros c. eapply run_weaken; [apply listed_answers|done|]. intros [ds| |] w; [|done..]. by intros []. }
    intros ds w [Hl Hds]. by refine (try_devices_answers cancel identity ds 0 0 [] Hds _ _ _ _ w Logic.I); lia.
  - intros w [Hd _]%Forall_cons. revert w. refine (fun w => from_anywhere (fun _ => True) _ _ w Logic.I).
    eapply bind_answering; [apply ensure_anywhere|]. intros ?. by apply open_accessory_answers.
Qed.
End time.

(** The recording is a world like the one recorded. *)
#[export, refine] Instance recording_laws {W} `{UsbOsLaws W} : UsbOsLaws (W * list UsbEntry) := {
  usb_clock w := usb_clock (fst w);
}.
Proof.
  - intros [w log]. exact (clock_cancelled w).
  - intros [w log]. exact (clock_usb_now w).
  - intros [w log]. exact (clock_start w).
  - intros d [w log]. exact (clock_sleep d w).
  - intros [w log]. exact (clock_devices w).
  - intros [w log]. exact (devices_answer w).
  - intros [w log]. exact (devices_fit w).
  - intros [w log]. exact (context_answers w).
  - intros d [w log]. exact (open_answers d w).
  - intros h [w log]. exact (active_answers h w).
  - intros h n [w log]. exact (configure_answers h n w).
  - intros h i [w log]. exact (claim_answers h i w).
  - intros h i [w log]. exact (release_answers h i w).
  - intros [w log]. exact (spawn_answers w).
Defined.

(** C12: however libusb, the devices and the clock behave, preparing an accessory
    touches the devices in order: at most one is open at a time, only a device that
    passes [is_android_probe_candidate] receives vendor requests and only an
    enumerated accessory is configured or claimed, nothing but closing happens once
    the flag was seen set, every handle opened is closed unless it is returned, and
    what is returned is an accessory whose reported interface is claimed. The whole
    returns within the bounds of its loops, unless the clock is about to overflow. *)
Theorem usb_opening_is_orderly {W} `{UsbOsLaws W} package_version computer_name cancel (w : W) :
  let '(w', log, r) := open_android_accessory package_version computer_name cancel (w, []) in
  (returns r \/ 2 ^ 80 <= usb_clock w') /\
  exists s, usb_session (mk_usb_state false NoDevice) log = Some s /\
  match r with
  | Ok opened => exists d descriptor configuration protocol,
      s = mk_usb_state false (Claimed (OpenedAccessory.handle opened) d
            (BulkEndpoints.interface (OpenedAccessory.endpoints opened))) /\
      UsbDevice.device_descriptor d = Ok descriptor /\ descriptor_is_accessory descriptor = true /\
      find_bulk_endpoints configuration = Some (OpenedAccessory.endpoints opened) /\
      OpenedAccessory.report opened = accessory_report d descriptor (OpenedAccessory.endpoints opened) protocol
  | Err e => holding s = NoDevice /\ (flag_seen s = true -> e = RECONNECT_CANCELLED_DETAIL)
  | Fault _ => s = mk_usb_state false NoDevice
  end.
Proof.
  pose proof (open_android_ends (mk_usb_state false NoDevice) package_version computer_name cancel (w, []) eq_refl) as Ho.
  pose proof (open_android_answers package_version computer_name cancel (w, []) Logic.I) as Hr.
  destruct (open_android_accessory package_version computer_name cancel (w, [])) as [[w' log] [opened|e|f]];
    cbn [fst snd unless_gone answering] in *.
  - destruct Ho as (d & descriptor & configuration & protocol & Hd & Ha & Hb & Hrep & Hat). split; [by left|].
    eexists. split; [exact Hat|]. by exists d, descriptor, configuration, protocol.
  - destruct Ho as (seen & Hat & Hs). split; [by left|]. by eexists.
  - split; [by right|]. by eexists.
Qed.

(** ** A phone *)
Module PhoneExamples.
Definition endpoints_of (n : Z) (l : list Z) : list UsbEndpoint.t := map (fun a => UsbEndpoint.mk a true (128 <=? a) n) l.
Definition aoa_config : UsbConfig.t :=
  UsbConfig.mk 1 [[UsbInterface.mk 0 (endpoints_of 512 [0x81; 0x02])]].
Definition keyboard : UsbDevice.t :=
  UsbDevice.mk 1 2 (Ok (DeviceDescriptor.mk 0x046d 0xc31c 3)) (Err "busy") (Err "busy").
Definition phone : UsbDevice.t :=
  UsbDevice.mk 1 7 (Ok (DeviceDescriptor.mk 0x18d1 0x4ee7 0)) (Err "busy") (Err "busy").
Definition accessory : UsbDevice.t :=
  UsbDevice.mk 1 8 (Ok (DeviceDescriptor.mk 0x18d1 0x2d00 0)) (Err "not configured") (Ok aoa_config).

(** The time, when the phone was switched, and when the flag is set. *)
Record bench : Type := mk_bench { time : Z; switched : option Z; flagged_at : Z }.
Definition ms (n : Z) : Z := n * 1000000.

(** A phone that speaks version 2 and comes back after 250 ms. *)
#[export] Instance bench_os : UsbOs bench := {
  usb_cancelled w := (w, flagged_at w <=? time w);
  usb_context w := (w, Ok tt);
  usb_devices w := (w, Ok match switched w with
    | None => [keyboard; phone]
    | Some t => if t + ms 250 <=? time w then [keyboard; accessory] else [keyboard]
    end);
  usb_open _ w := (w, Ok 5%nat);
  usb_close _ w := w;
  usb_control _ _ _ request := match request with
    | Request.Read _ _ _ _ _ _ => Reply.Transferred 2 x02 x00
    | Request.Write _ _ _ _ buffer _ => Reply.Transferred (zlen buffer) x00 x00
    end;
  usb_exchanged _ _ w := mk_bench (time w) (Some (time w)) (flagged_at w);
  usb_active_configuration _ w := (w, Ok 0);
  usb_set_configuration _ _ w := (w, Ok tt);
  usb_claim _ _ w := (w, Ok tt);
  usb_release _ _ w := (w, Ok tt);
  usb_spawn w := (w, Ok tt);
  usb_turns w := (w, []);
  usb_now w := (w, Z.max (time w) 0);
  usb_sleep d w := mk_bench (Z.max (time w) 0 + Z.max d 0) (switched w) (flagged_at w);
}.
#[export, refine] Instance bench_laws : UsbOsLaws bench := { usb_clock w := Z.max (time w) 0 }.
Proof.
  all: try done; try (intros; cbn; lia).
  intros w ds [= <-]. destruct (switched w) as [t|]; [destruct (_ <=? _)|]; (split; [done|]);
    repeat constructor; done.
Defined.

Definition version_ : list byte := str "0.1.0".
Definition opening (cancel : bool) (flagged_at : Z) : (bench * list UsbEntry) * outcome string OpenedAccessory.t :=
  open_android_accessory version_ None cancel (mk_bench 0 None flagged_at, []).
(** The entries but the requests' bytes and the looks at the flag. *)
Definition brief (log : list UsbEntry) : list UsbEntry :=
  omap (fun e => match e with
                 | FlagSeen false => None
                 | VendorRequests h _ => Some (VendorRequests h [])
                 | e => Some e
                 end) log.

(** The phone is switched and claimed; with the flag set after 100 ms the same
    run ends with everything closed. *)
Lemma usb_opening_is_orderly_witness :
  (exists s, usb_session (mk_usb_state false NoDevice) (snd (fst (opening true (ms 1000)))) = Some s /\
     s = mk_usb_state false (Claimed 5 accessory 0) /\
     brief (snd (fst (opening true (ms 1000)))) =
       [OpenTried phone (Some 5%nat); VendorRequests 5 []; HandleClosed 5;
        OpenTried accessory (Some 5%nat); ConfigurationSet 5; InterfaceClaimed 5 0 true]) /\
  (exists s, usb_session (mk_usb_state false NoDevice) (snd (fst (opening true (ms 100)))) = Some s /\
     holding s = NoDevice /\ snd (opening true (ms 100)) = Err RECONNECT_CANCELLED_DETAIL).
Proof.
  split.
  - pose proof (usb_opening_is_orderly version_ None true (mk_bench 0 None (ms 1000))) as Ho. fold (opening true (ms 1000)) in Ho.
    destruct (opening true (ms 1000)) as [[w' log] r] eqn:E. destruct Ho as (_ & s & Hs & _). exists s.
    vm_compute in E. injection E as <- <- <-. split; [exact Hs|]. vm_compute in Hs. injection Hs as <-. split; reflexivity.
  - pose proof (usb_opening_is_orderly version_ None true (mk_bench 0 None (ms 100))) as Ho. fold (opening true (ms 100)) in Ho.
    destruct (opening true (ms 100)) as [[w' log] r] eqn:E. destruct Ho as (_ & s & Hs & Hr). exists s.
    vm_compute in E. injection E as <- <- <-. split; [exact Hs|]. split; [exact (proj1 Hr)|reflexivity].
Defined.
End PhoneExamples.
