(* ===== verification/WinUsbManager.v ===== *)
(** * The Windows USB accessory manager

    The session half of [apps/desktop/src-tauri/src/platform/windows/usb_accessory.rs]:
    the claimed interface with its worker thread, and [UsbAccessoryManager], which
    opens, replaces and closes it and is the packet transport the runtime uses. A call
    of the manager runs through before the next one begins: the window makes one call
    at a time and the worker's calls come from one thread, but the code itself holds its
    mutexes only for parts of a call. *)
From stdpp Require Import pretty.
From S2P Require Export TransportTcpLink WinUsbOpen.
Local Open Scope string_scope.
Local Open Scope list_scope.
Local Open Scope Z_scope.

(** The worker's thread: its variables while the loop runs, or how it ended. *)
Module UsbWorker.
Inductive t : Type :=
| Running (variables : bulk LoopbackEndpoint.t) (handle : nat) (endpoints : BulkEndpoints.t)
| Finished
| Panicked.
End UsbWorker.

(** [worker] is there until it is joined. Its end is the other side of the link of
    [host_endpoint], so its own copy of the link is not looked at. *)
Module AccessorySession.
Record t : Type := mk {
  host_endpoint : LoopbackEndpoint.t;
  cancel : bool;
  worker : option UsbWorker.t;
}.
Definition set_endpoint (self : t) (endpoint : LoopbackEndpoint.t) : t := mk endpoint (cancel self) (worker self).
Definition is_connected (self : t) : bool :=
  bool_decide (LoopbackEndpoint.connection_state (host_endpoint self) = ConnectionState.Connected).
End AccessorySession.

Module UsbAccessoryManager.
Record t : Type := mk {
  session : option AccessorySession.t;
  status : LinkStatus.t;
}.
Definition default : t := mk None LinkStatus.default.
Definition set_session (self : t) (session : option AccessorySession.t) : t := mk session (status self).
Definition replace_status (self : t) (status : LinkStatus.t) : t := mk (session self) status.

Definition runtime_status (self : t) : option (UsbLinkState.t * string) :=
  let session_connected :=
    match session self with
    | Some session => AccessorySession.is_connected session
    | None => false
    end in
  let status := status self in
  if bool_decide (LinkStatus.phase status = UsbLinkState.Ready) &&
     bool_decide (LinkStatus.detail status = "Android USB has not been connected in this app session")
  then None
  else
    Some (LinkStatus.phase status,
          if session_connected && bool_decide (LinkStatus.phase status = UsbLinkState.Connected)
          then LinkStatus.detail status +:+ "; received " +:+ pretty (LinkStatus.frames_read status) +:+ " frames / " +:+
               pretty (LinkStatus.bytes_read status) +:+ " bytes, sent " +:+ pretty (LinkStatus.frames_written status) +:+
               " frames / " +:+ pretty (LinkStatus.bytes_written status) +:+ " bytes"
          else LinkStatus.detail status).

Definition connection_state (self : t) : ConnectionState.t :=
  match session self with
  | None => ConnectionState.Disconnected
  | Some session => LoopbackEndpoint.connection_state (AccessorySession.host_endpoint session)
  end.
Definition try_send (self : t) (packet : Packet.t) : t * outcome SendError.t SendReport.t :=
  match session self with
  | None => (self, Err (SendError.Disconnected packet))
  | Some session =>
    let (e, r) := LoopbackEndpoint.try_send (AccessorySession.host_endpoint session) packet in
    (set_session self (Some (AccessorySession.set_endpoint session e)), r)
  end.
Definition try_receive (self : t) (channel : Channel.t) : t * outcome ReceiveError.t (option Packet.t) :=
  match session self with
  | None => (self, Err ReceiveError.Disconnected)
  | Some session =>
    let (e, r) := LoopbackEndpoint.try_receive (AccessorySession.host_endpoint session) channel in
    (set_session self (Some (AccessorySession.set_endpoint session e)), r)
  end.
End UsbAccessoryManager.

#[export] Instance usb_transport : PacketTransport UsbAccessoryManager.t := {
  connection_state := UsbAccessoryManager.connection_state;
  try_send := UsbAccessoryManager.try_send;
  try_receive := UsbAccessoryManager.try_receive;
}.

Section manager.
Context {W : Type} `{UsbOs W}.
Notation M := UsbAccessoryManager.t.
Notation io := (RustIo.io (M * W)).

(** The worker sees the link as the application left it. *)
Definition at_link (session : AccessorySession.t) (status : LinkStatus.t) (v : bulk LoopbackEndpoint.t)
  : bulk LoopbackEndpoint.t :=
  mk_bulk (LoopbackEndpoint.set_link (endpoint v) (LoopbackEndpoint.link (AccessorySession.host_endpoint session)))
    status (decoder v) (outgoing v).

(** [run_bulk_session] from the end of its loop on; [cancelled] is the flag then. *)
Definition end_bulk_session (v : bulk LoopbackEndpoint.t) (handle : nat) (endpoints : BulkEndpoints.t) (cancelled : bool)
  (result : outcome string unit) : RustIo.io W string (LoopbackEndpoint.t * LinkStatus.t) :=
  let (device_endpoint, _) := LoopbackEndpoint.disconnect (endpoint v) in
  let* release_result := icatch (usb_release handle (BulkEndpoints.interface endpoints)) in
  let* _ := iput (usb_close handle) in
  iret (device_endpoint, ended_status (status v) cancelled result release_result).

(** The worker makes these turns; when its loop ends, so does the thread. A panic
    drops the handle on the way out. *)
Definition work (turns : list BulkTurn.t) (session : AccessorySession.t) : io string AccessorySession.t := fun '(m, w) =>
  match AccessorySession.worker session with
  | Some (UsbWorker.Running v handle endpoints) =>
    let '(v, _, result) := pump_bulk_stream turns (at_link session (UsbAccessoryManager.status m) v) in
    let ended (e : LoopbackEndpoint.t) (worker : UsbWorker.t) :=
      AccessorySession.mk
        (LoopbackEndpoint.set_link (AccessorySession.host_endpoint session) (LoopbackEndpoint.link e))
        (AccessorySession.cancel session) (Some worker) in
    let finish (result : outcome string unit) : (M * W) * outcome string AccessorySession.t :=
      let (w, r) := end_bulk_session v handle endpoints (AccessorySession.cancel session) result w in
      match r with
      | Ok (e, status) => ((UsbAccessoryManager.replace_status m status, w), Ok (ended e UsbWorker.Finished))
      | _ => ((m, usb_close handle w), Ok (ended (endpoint v) UsbWorker.Panicked))
      end in
    match result with
    | Ok false =>
      ((UsbAccessoryManager.replace_status m (status v), w),
       Ok (ended (endpoint v) (UsbWorker.Running v handle endpoints)))
    | Ok true => finish (Ok tt)
    | Err error => finish (Err error)
    | Fault _ =>
      ((UsbAccessoryManager.replace_status m (status v), usb_close handle w), Ok (ended (endpoint v) UsbWorker.Panicked))
    end
  | _ => ((m, w), Ok session)
  end.

(** What the worker meets once the flag is set. *)
Definition flagged_turn : BulkTurn.t := BulkTurn.mk true (fun _ => inr O) (BulkRead.Arrived []).

(** [AccessorySession::stop]: the thread is joined after the turns it still makes. *)
Definition stop (session : AccessorySession.t) : io string unit :=
  let session := AccessorySession.mk (AccessorySession.host_endpoint session) true (AccessorySession.worker session) in
  match AccessorySession.worker session with
  | None => iret tt
  | Some _ =>
    let* turns := on_world (fun w => let (w, turns) := usb_turns w in (w, Ok turns)) in
    let* session := work (turns ++ [flagged_turn]) session in
    match AccessorySession.worker session with
    | Some UsbWorker.Panicked => ifail "Android USB bulk worker panicked while stopping"
    | _ => iret tt
    end
  end.

Definition stop_active_session : io string unit :=
  let* session := iget (fun s => UsbAccessoryManager.session (fst s)) in
  let* _ := iput (fun s => (UsbAccessoryManager.set_session (fst s) None, snd s)) in
  match session with
  | None => iret tt
  | Some session => stop session
  end.

Definition replace_status {E} (status : LinkStatus.t) : io E unit :=
  iput (fun s => (UsbAccessoryManager.replace_status (fst s) status, snd s)).

Definition cancelled_report : io Empty_set UsbAccessoryProbeReport.t :=
  let* _ := replace_status (LinkStatus.with_phase UsbLinkState.Ready RECONNECT_CANCELLED_DETAIL) in
  iret (UsbAccessoryProbeReport.failed RECONNECT_CANCELLED_DETAIL).
Definition failed_report (error : string) : io Empty_set UsbAccessoryProbeReport.t :=
  let* _ := replace_status (LinkStatus.with_phase UsbLinkState.Failed error) in
  iret (UsbAccessoryProbeReport.failed error).

(** Where the thread is not spawned its closure, which owns the handle, is dropped. *)
Definition start_bulk_session (opened : OpenedAccessory.t) : io string AccessorySession.t :=
  let* config := ilift (map_err (fun e : Empty_set => match e with end) USB_QUEUE_CONFIG) in
  let (host_endpoint, device_endpoint) := loopback_pair config in
  let status := LinkStatus.with_phase UsbLinkState.Connected
    "Android Open Accessory interface is claimed and the duplex bulk worker is active" in
  let* _ := replace_status status in
  let* _ := imap_err (fun error => "failed to start Android USB bulk worker: " +:+ error)
    (on_world (ion_error usb_spawn (usb_close (OpenedAccessory.handle opened)))) in
  iret (AccessorySession.mk host_endpoint false
    (Some (UsbWorker.Running (start_bulk device_endpoint status) (OpenedAccessory.handle opened)
             (OpenedAccessory.endpoints opened)))).

Definition connected_report (report : UsbAccessoryProbeReport.t) : UsbAccessoryProbeReport.t :=
  UsbAccessoryProbeReport.mk (UsbAccessoryProbeReport.passed report) "connected"
    "AOA interface remains claimed; the cancellable duplex bulk session is running with bounded LDFL framing"
    (UsbAccessoryProbeReport.protocol_version report) (UsbAccessoryProbeReport.bus_number report)
    (UsbAccessoryProbeReport.device_address report) (UsbAccessoryProbeReport.vendor_id report)
    (UsbAccessoryProbeReport.product_id report) (UsbAccessoryProbeReport.interface_number report)
    (UsbAccessoryProbeReport.input_endpoint report) (UsbAccessoryProbeReport.output_endpoint report)
    (UsbAccessoryProbeReport.max_packet_size report).

(** [package_version] and [computer_name] are those of the opening. *)
Variable package_version : list byte.
Variable computer_name : option (list byte).

Definition requested (cancel : bool) : io Empty_set bool := on_world (cancellation_requested cancel).

(** [prepare_with_cancel] once the accessory is open. *)
Definition keep_accessory (cancel : bool) (opened : OpenedAccessory.t) : io Empty_set UsbAccessoryProbeReport.t :=
  let* now_cancelled := requested cancel in
  if now_cancelled : bool then
    let* _ := iput (fun s => (fst s, usb_close (OpenedAccessory.handle opened) (snd s))) in
    cancelled_report
  else
    let* started := icatch (start_bulk_session opened) in
    match started with
    | Ok session =>
      let* now_cancelled := requested cancel in
      if now_cancelled : bool then
        let* _ := icatch (stop session) in
        cancelled_report
      else
        let* _ := iput (fun s => (UsbAccessoryManager.set_session (fst s) (Some session), snd s)) in
        iret (connected_report (OpenedAccessory.report opened))
    | Err error => failed_report error
    | Fault f => ifault f
    end.

Definition prepare_with_cancel (cancel : bool) : io Empty_set UsbAccessoryProbeReport.t :=
  let* now_cancelled := requested cancel in
  if now_cancelled : bool then cancelled_report
  else
    let* stopped := icatch stop_active_session in
    match stopped with
    | Err error => iret (UsbAccessoryProbeReport.failed error)
    | Fault f => ifault f
    | Ok _ =>
      let* _ := replace_status (LinkStatus.with_phase UsbLinkState.Connecting "Negotiating Android Open Accessory mode") in
      let* opened := icatch (on_world (open_android_accessory package_version computer_name cancel)) in
      match opened with
      | Err error =>
        let* now_cancelled := requested cancel in
        if now_cancelled : bool then cancelled_report else failed_report error
      | Fault f => ifault f
      | Ok opened => keep_accessory cancel opened
      end
    end.
Definition prepare : io Empty_set UsbAccessoryProbeReport.t := prepare_with_cancel false.
Definition no_error {A} (m : io Empty_set A) : io string A := imap_err (fun e : Empty_set => match e with end) m.
Definition reconnect : io string unit :=
  let* report := no_error (prepare_with_cancel true) in
  if UsbAccessoryProbeReport.passed report then iret tt else ifail (UsbAccessoryProbeReport.detail report).

Definition disconnect : io string unit :=
  let* _ := stop_active_session in
  let* stopped_status := iget (fun s => UsbAccessoryManager.status (fst s)) in
  if bool_decide (LinkStatus.phase stopped_status = UsbLinkState.Failed) then ifail (LinkStatus.detail stopped_status)
  else replace_status (LinkStatus.with_phase UsbLinkState.Ready "Android USB session disconnected by the user").

Definition close_runtime_session : io string unit :=
  let* _ := stop_active_session in
  replace_status (LinkStatus.with_phase UsbLinkState.Ready "Android USB transport closed with the display session").

(** [UsbAccessoryManagerInner]'s drop. *)
Definition drop_manager : io Empty_set unit :=
  let* _ := icatch stop_active_session in iret tt.
End manager.

(** ** What the manager holds

    A running worker has a claimed interface and a link in order, and the packets it
    moved are accounted for, whatever the status was set to meanwhile; a worker that
    has ended has let go of the device and taken the link down; without a session no
    device is open. The status says connected only while a worker runs. *)
Definition session_holds (session : AccessorySession.t) (status : LinkStatus.t) (hd : Holding) : Prop :=
  match AccessorySession.worker session with
  | Some (UsbWorker.Running v handle endpoints) =>
    (exists d, hd = Claimed handle d (BulkEndpoints.interface endpoints)) /\
    link_wf (LoopbackEndpoint.link (AccessorySession.host_endpoint session)) /\
    exists tr counted, usb_out tr (at_link session counted v) /\ usb_in tr (at_link session counted v)
  | Some UsbWorker.Finished =>
    hd = NoDevice /\ Link.connected (LoopbackEndpoint.link (AccessorySession.host_endpoint session)) = false /\
    LinkStatus.phase status <> UsbLinkState.Connected
  | _ => False
  end.
Definition manager_holds (m : UsbAccessoryManager.t) (hd : Holding) : Prop :=
  match UsbAccessoryManager.session m with
  | None => hd = NoDevice /\ LinkStatus.phase (UsbAccessoryManager.status m) <> UsbLinkState.Connected
  | Some session => session_holds session (UsbAccessoryManager.status m) hd
  end.

(** The worker does not look at the status. *)
Section counting.
Context {T : Type} `{PacketTransport T}.
Implicit Types (st : bulk T).

Definition recounted (status : LinkStatus.t) st : bulk T := mk_bulk (endpoint st) status (decoder st) (outgoing st).
Definition same_but_status {A} (x y : bulk T * list PumpEvent.t * outcome string A) : Prop :=
  exists status, x = (recounted status (fst (fst y)), snd (fst y), snd y).

Lemma send_next_blind writes st status :
  same_but_status (send_next writes (recounted status st)) (send_next writes st).
Proof.
  unfold send_next, same_but_status. cbn [outgoing endpoint recounted].
  destruct (LdflPacketMux.next _ _) as [[mux e] [[packet|]|e'|f]]; try by eexists.
  destruct (write_chunked writes (Packet.payload packet)) as [events []]; by eexists.
Qed.
Lemma receive_blind answer st status :
  same_but_status (receive answer (recounted status st)) (receive answer st).
Proof.
  unfold receive, same_but_status. destruct answer as [[|b bytes]|[[] message]]; [by eexists| |by eexists..]. cbv zeta.
  cbn [decoder recounted]. destruct (LdflPacketDecoder.push _ _) as [d [packets|e|f]]; cbn [endpoint]; [|by eexists..].
  destruct (deliver _ packets) as [[e ev] r]. by eexists.
Qed.
Lemma pump_blind turns : forall st status,
  same_but_status (pump_bulk_stream turns (recounted status st)) (pump_bulk_stream turns st).
Proof.
  induction turns as [|turn turns IH]; intros st status; cbn [pump_bulk_stream]; [by exists status|].
  destruct (BulkTurn.cancelled turn); [by exists status|].
  destruct (send_next_blind (BulkTurn.writes turn) st status) as [s1 ->].
  destruct (send_next _ st) as [[st1 ev1] [u|e|f]]; cbn [fst snd]; [|by exists s1..].
  destruct (receive_blind (BulkTurn.read turn) st1 s1) as [s2 ->].
  destruct (receive _ st1) as [[st2 ev2] [u2|e|f]]; cbn [fst snd]; [|by exists s2..].
  destruct (IH st2 s2) as [s3 ->]. destruct (pump_bulk_stream turns st2) as [[st3 ev3] r3]. by exists s3.
Qed.
End counting.

(** The loop ends at the latest when it meets the flag. *)
Lemma flagged_turn_ends `{PacketTransport T} turns (st : bulk T) :
  snd (pump_bulk_stream (turns ++ [flagged_turn]) st) <> Ok false.
Proof.
  revert st. induction turns as [|turn turns IH]; intros st; [done|]. cbn [app pump_bulk_stream].
  destruct (BulkTurn.cancelled turn); [done|].
  destruct (send_next _ st) as [[st1 ev1] [u|e|f]]; [|done..]. destruct (receive _ st1) as [[st2 ev2] [u2|e|f]]; [|done..].
  specialize (IH st2). by destruct (pump_bulk_stream _ st2) as [[st3 ev3] r3].
Qed.

Lemma ended_is_not_connected status cancelled result release_result :
  LinkStatus.phase (ended_status status cancelled result release_result) <> UsbLinkState.Connected.
Proof. unfold ended_status. destruct cancelled; [by destruct release_result|done]. Qed.

Section holding.
Context {W : Type} `{UsbOsLaws W} (start : UsbState).
Notation M := UsbAccessoryManager.t.
Notation usb_at := (usb_at (W:=W) start).

Lemma end_session_steps v handle endpoints cancelled result seen d :
  run_of (usb_at (mk_usb_state seen (Claimed handle d (BulkEndpoints.interface endpoints))))
    (end_bulk_session v handle endpoints cancelled result)
    (fun r w => match r with
                | Ok (e, status) => Link.connected (LoopbackEndpoint.link e) = false /\
                    LinkStatus.phase status <> UsbLinkState.Connected /\ usb_at (mk_usb_state seen NoDevice) w
                | _ => False
                end).
Proof.
  intros w Hw. unfold end_bulk_session. destruct (LoopbackEndpoint.disconnect _) as [e report] eqn:He.
  assert (Hc : Link.connected (LoopbackEndpoint.link e) = false).
  { pose proof (disconnect_closes (endpoint v)) as [Hc _]. by rewrite He in Hc. }
  unfold ibind, icatch. cbn [usb_release recording_usb]. unfold noted. cbv zeta.
  pose proof (usb_at_snoc start _ w (InterfaceReleased handle (BulkEndpoints.interface endpoints)) _ Hw
    ltac:(cbn; rewrite !bool_decide_eq_true_2 by done; reflexivity)) as Hr.
  assert (Hcl : forall w' : W, usb_at (mk_usb_state seen NoDevice)
    (usb_close handle (w', snd w ++ [InterfaceReleased handle (BulkEndpoints.interface endpoints)]))).
  { intros w'. eapply usb_at_snoc; [exact Hr|]. cbn. by rewrite bool_decide_eq_true_2. }
  pose proof (release_answers handle (BulkEndpoints.interface endpoints) (fst w)) as Hans.
  destruct (usb_release _ _ _) as [w' []]; cbn in *; [..|done]; (split; [done|]; split; [apply ended_is_not_connected|apply Hcl]).
Qed.

(** The turns of a worker: its device changes hands only by being released. *)
Lemma work_holds turns session seen hd (m : M) w :
  session_holds session (UsbAccessoryManager.status m) hd -> usb_at (mk_usb_state seen hd) w ->
  let '((m', w'), r) := work turns session (m, w) in
  exists session' hd', r = Ok session' /\ UsbAccessoryManager.session m' = UsbAccessoryManager.session m /\
    session_holds session' (UsbAccessoryManager.status m') hd' /\ usb_at (mk_usb_state seen hd') w' /\
    (hd' = NoDevice \/ exists st : bulk LoopbackEndpoint.t, snd (pump_bulk_stream turns st) = Ok false).
Proof.
  unfold session_holds at 1, work. destruct session as [host cancel [[v h eps| |]|]]; cbn [AccessorySession.worker AccessorySession.host_endpoint AccessorySession.cancel];
    [|intros (-> & Hc & Hph) Hw; eexists _, NoDevice; split_and!; [done..|by left]|done..].
  intros ((d & ->) & Hwf & tr & counted & Ho & Hi) Hw.
  set (v1 := at_link _ counted v) in *.
  change (at_link _ (UsbAccessoryManager.status m) v) with (recounted (UsbAccessoryManager.status m) v1).
  destruct (pump_blind turns v1 (UsbAccessoryManager.status m)) as [status' ->].
  pose proof (pump_bulk_step turns tr v1 Hwf Ho Hi) as Hp.
  destruct (pump_bulk_stream turns v1) as [[v2 ev] r] eqn:Hpump. destruct Hp as (Hr & _ & _ & Hok). cbn [fst snd].
  assert (Hfin : forall result, let '(w', x) := end_bulk_session (recounted status' v2) h eps cancel result w in
    exists e st, x = Ok (e, st) /\ Link.connected (LoopbackEndpoint.link e) = false /\
      LinkStatus.phase st <> UsbLinkState.Connected /\ usb_at (mk_usb_state seen NoDevice) w').
  { intros result. pose proof (end_session_steps (recounted status' v2) h eps cancel result seen d w Hw) as He.
    destruct (end_bulk_session _ h eps cancel result w) as [w' [[e st]|?|?]]; [|done..]. by exists e, st. }
  destruct r as [[]|e|f]; [| | |done].
  - specialize (Hfin (Ok tt)). destruct (end_bulk_session _ _ _ _ _ w) as [w' x]. destruct Hfin as (e & st & -> & Hc & Hph & Hat).
    eexists _, NoDevice. split_and!; [done..|by left].
  - destruct Hok as (Hs & Ho' & Hi'). eexists _, _. split; [done|]. split; [done|]. split; [|split; [done|]; right; exists v1; by rewrite Hpump].
    cbn. split; [by exists d|]. split; [exact Hs|]. exists (tr ++ ev), (WinUsb.status v2). by destruct Ho', Hi'; split.
  - specialize (Hfin (Err e)). destruct (end_bulk_session _ _ _ _ _ w) as [w' x]. destruct Hfin as (e' & st & -> & Hc & Hph & Hat).
    eexists _, NoDevice. split_and!; [done..|by left].
Qed.

(** Stopping joins the worker, which has let go of the device. *)
Lemma stop_ends session seen hd (m : M) w :
  session_holds session (UsbAccessoryManager.status m) hd -> usb_at (mk_usb_state seen hd) w ->
  let '((m', w'), r) := stop session (m, w) in
  r = Ok tt /\ UsbAccessoryManager.session m' = UsbAccessoryManager.session m /\
  LinkStatus.phase (UsbAccessoryManager.status m') <> UsbLinkState.Connected /\ usb_at (mk_usb_state seen NoDevice) w'.
Proof.
  intros Hs Hw. unfold stop, ibind, on_world. cbn [fst snd AccessorySession.worker usb_turns recording_usb].
  destruct (AccessorySession.worker session) as [worker|] eqn:Hworker; [|by unfold session_holds in Hs; rewrite Hworker in Hs].
  unfold noted. cbv zeta. cbn [fst snd]. generalize (snd (usb_turns (fst w))), (fst (usb_turns (fst w))). intros turns w1.
  set (flagged := AccessorySession.mk _ true _).
  pose proof (work_holds (turns ++ [flagged_turn]) flagged seen hd m (w1, snd w)) as Hh.
  destruct (work _ flagged (m, _)) as [[m' w'] r]. destruct Hh as (session' & hd' & -> & Hm & Hs' & Hat & Hend).
  { unfold session_holds in Hs |- *. cbn. by rewrite Hworker in Hs. }
  { exact Hw. }
  destruct Hend as [->|[st Hst]]; [|by destruct (flagged_turn_ends _ _ Hst)].
  unfold session_holds in Hs'. destruct (AccessorySession.worker session') as [[v h eps| |]|]; [|by destruct Hs' as (_ & _ & ?)|done..].
  by destruct Hs' as ((d & [=]) & _).
Qed.

Lemma stop_active_ends seen hd (m : M) w :
  manager_holds m hd -> usb_at (mk_usb_state seen hd) w ->
  let '((m', w'), r) := stop_active_session (m, w) in
  r = Ok tt /\ UsbAccessoryManager.session m' = None /\
  LinkStatus.phase (UsbAccessoryManager.status m') <> UsbLinkState.Connected /\ usb_at (mk_usb_state seen NoDevice) w'.
Proof.
  intros Hm Hw. unfold stop_active_session, ibind, iget, iput. cbn [fst snd].
  destruct m as [[session|] status]; cbn [UsbAccessoryManager.session UsbAccessoryManager.set_session UsbAccessoryManager.status].
  - by apply (stop_ends session seen hd (UsbAccessoryManager.mk None status)).
  - by destruct Hm as [-> Hp].
Qed.

(** ** A preparation *)

Definition running (m : M) : Prop :=
  exists session v handle endpoints, UsbAccessoryManager.session m = Some session /\
    AccessorySession.worker session = Some (UsbWorker.Running v handle endpoints).

(** What a preparation that was not cancelled at once leaves behind. *)
Definition prepared (r : outcome Empty_set UsbAccessoryProbeReport.t) (s : M * (W * list UsbEntry)) : Prop :=
  exists seen hd, usb_at (mk_usb_state seen hd) (snd s) /\ manager_holds (fst s) hd /\
  match r with
  | Ok report =>
    if UsbAccessoryProbeReport.passed report
    then seen = false /\ running (fst s) /\
         LinkStatus.phase (UsbAccessoryManager.status (fst s)) = UsbLinkState.Connected /\
         UsbAccessoryManager.connection_state (fst s) = ConnectionState.Connected
    else UsbAccessoryManager.session (fst s) = None /\
         report = UsbAccessoryProbeReport.failed (LinkStatus.detail (UsbAccessoryManager.status (fst s))) /\
         LinkStatus.phase (UsbAccessoryManager.status (fst s)) ∈ [UsbLinkState.Ready; UsbLinkState.Failed]
  | Err _ => False
  | Fault _ => UsbAccessoryManager.session (fst s) = None /\ aeons (snd s)
  end.

(** No session, no device. *)
Definition bare (seen : bool) (s : M * (W * list UsbEntry)) : Prop :=
  UsbAccessoryManager.session (fst s) = None /\ usb_at (mk_usb_state seen NoDevice) (snd s).

Lemma cancelled_ends seen : run_of (bare seen) cancelled_report prepared.
Proof.
  intros [[session status] w] [Hs Hw]. cbn in Hs. subst session. exists seen, NoDevice. split; [exact Hw|]. cbn.
  split; [done|]. split; [done|]. split; [done|]. constructor.
Qed.
Lemma failed_ends seen e : run_of (bare seen) (failed_report e) prepared.
Proof.
  intros [[session status] w] [Hs Hw]. cbn in Hs. subst session. exists seen, NoDevice. split; [exact Hw|]. cbn.
  split; [done|]. split; [done|]. split; [done|]. constructor. constructor.
Qed.

(** A look at the flag. *)
Lemma requested_ends cancel (P : M -> Prop) hd :
  run_of (fun s => P (fst s) /\ usb_at (mk_usb_state false hd) (snd s)) (requested cancel)
    (fun r s => match r with
                | Ok flag => P (fst s) /\ exists seen, usb_at (mk_usb_state seen hd) (snd s) /\ (flag = false -> seen = false)
                | _ => False
                end).
Proof.
  intros [m w] [Hp Hw]. unfold requested, on_world, cancellation_requested. destruct cancel; cbn [fst snd iret].
  2: { split; [done|]. by exists false. }
  cbn [usb_cancelled recording_usb]. unfold noted. cbv zeta.
  pose proof (usb_at_snoc start _ w (FlagSeen (snd (usb_cancelled (fst w)))) _ Hw eq_refl) as Hs.
  destruct (usb_cancelled (fst w)) as [w' flag]. cbn in *. split; [done|]. exists flag. split; [exact Hs|done].
Qed.
Lemma requested_seen cancel seen hd (P : M -> Prop) :
  run_of (fun s => P (fst s) /\ usb_at (mk_usb_state seen hd) (snd s)) (requested cancel)
    (fun r s => match r with
                | Ok _ => P (fst s) /\ exists seen, usb_at (mk_usb_state seen hd) (snd s)
                | _ => False
                end).
Proof.
  intros [m w] [Hp Hw]. unfold requested, on_world, cancellation_requested. destruct cancel; cbn [fst snd iret].
  2: { split; [done|]. by exists seen. }
  cbn [usb_cancelled recording_usb]. unfold noted. cbv zeta.
  pose proof (usb_at_snoc start _ w (FlagSeen (snd (usb_cancelled (fst w)))) _ Hw eq_refl) as Hs.
  destruct (usb_cancelled (fst w)) as [w' flag]. cbn in *. split; [done|]. by eexists.
Qed.

Lemma close_claimed seen h d i (w : W * list UsbEntry) :
  usb_at (mk_usb_state seen (Claimed h d i)) w -> usb_at (mk_usb_state seen NoDevice) (usb_close h w).
Proof. intros Hw. eapply usb_at_snoc; [exact Hw|]. cbn. by rewrite bool_decide_eq_true_2. Qed.

(** The thread runs on the claimed interface, or the interface is given up. *)
Lemma start_ends opened d :
  run_of (fun s => UsbAccessoryManager.session (fst s) = None /\
            usb_at (mk_usb_state false (Claimed (OpenedAccessory.handle opened) d
              (BulkEndpoints.interface (OpenedAccessory.endpoints opened)))) (snd s))
    (start_bulk_session opened)
    (fun r s => UsbAccessoryManager.session (fst s) = None /\
      match r with
      | Ok session =>
        usb_at (mk_usb_state false (Claimed (OpenedAccessory.handle opened) d
          (BulkEndpoints.interface (OpenedAccessory.endpoints opened)))) (snd s) /\
        session_holds session (UsbAccessoryManager.status (fst s))
          (Claimed (OpenedAccessory.handle opened) d (BulkEndpoints.interface (OpenedAccessory.endpoints opened))) /\
        LinkStatus.phase (UsbAccessoryManager.status (fst s)) = UsbLinkState.Connected /\
        (exists v h e, AccessorySession.worker session = Some (UsbWorker.Running v h e)) /\
        AccessorySession.is_connected session = true
      | Err _ => usb_at (mk_usb_state false NoDevice) (snd s)
      | Fault _ => False
      end).
Proof.
  intros [[session status] w] [Hs Hw]. cbn in Hs. subst session. unfold start_bulk_session.
  destruct USB_QUEUE_CONFIG as [config|[]|f] eqn:Hconfig; [|by vm_compute in Hconfig].
  assert (Hwf : link_wf (Link.new config)) by (injection Hconfig as <-; apply new_link_wf; by split; split; vm_compute).
  unfold ibind, ilift, map_err. destruct (loopback_pair config) as [host device] eqn:Hpair. injection Hpair as <- <-.
  unfold replace_status, iput, imap_err, on_world, ion_error. cbn [fst snd usb_spawn recording_usb]. unfold noted. cbv zeta.
  pose proof (spawn_answers (fst w)) as Hans. destruct (usb_spawn (fst w)) as [w' [u|e|f]]; cbn [fst snd map_err] in *; [| |done].
  - split; [done|]. split; [exact Hw|]. split; [|split; [done|]; split; [by eexists _, _, _|done]].
    cbn. split; [by exists d|]. split; [exact Hwf|]. eexists [], (LinkStatus.with_phase UsbLinkState.Connected
      "Android Open Accessory interface is claimed and the duplex bulk worker is active").
    apply (start_bulk_ok (snd (loopback_pair config))).
  - split; [done|]. by apply (close_claimed _ _ _ _ (w', snd w)) in Hw.
Qed.

Lemma keep_ends cancel opened d protocol descriptor :
  OpenedAccessory.report opened = accessory_report d descriptor (OpenedAccessory.endpoints opened) protocol ->
  run_of (fun s => UsbAccessoryManager.session (fst s) = None /\
            usb_at (mk_usb_state false (Claimed (OpenedAccessory.handle opened) d
              (BulkEndpoints.interface (OpenedAccessory.endpoints opened)))) (snd s))
    (keep_accessory cancel opened) prepared.
Proof.
  intros Hreport. unfold keep_accessory.
  eapply run_bind; [apply (requested_ends cancel (fun m => UsbAccessoryManager.session m = None))|by intros ?? []|by intros ?? []|].
  intros [].
  { intros [m w] [Hm (seen & Hw & _)]. cbn [fst snd] in *.
    apply (cancelled_ends seen (m, usb_close (OpenedAccessory.handle opened) w)). split; [done|]. by eapply close_claimed. }
  eapply run_weaken with (P := fun s => UsbAccessoryManager.session (fst s) = None /\
      usb_at (mk_usb_state false (Claimed (OpenedAccessory.handle opened) d
        (BulkEndpoints.interface (OpenedAccessory.endpoints opened)))) (snd s)).
  2: { intros s [Hm (seen & Hw & Hseen)]. split; [exact Hm|]. by rewrite (Hseen eq_refl) in Hw. }
  2: { intros r s Hr. exact Hr. }
  eapply run_bind; [apply (run_catch (F:=Empty_set)), (start_ends opened d)|by intros ?? []|by intros ?? [_ []]|].
  intros [session|e|f]; [| |by intros s [_ []]].
  2: { eapply run_weaken; [apply (failed_ends false)|done|done]. }
  eapply run_weaken with (P := fun s => (UsbAccessoryManager.session (fst s) = None /\
      session_holds session (UsbAccessoryManager.status (fst s)) (Claimed (OpenedAccessory.handle opened) d _) /\
      LinkStatus.phase (UsbAccessoryManager.status (fst s)) = UsbLinkState.Connected /\
      (exists v h e, AccessorySession.worker session = Some (UsbWorker.Running v h e)) /\
      AccessorySession.is_connected session = true) /\
      usb_at (mk_usb_state false (Claimed (OpenedAccessory.handle opened) d _)) (snd s)).
  2: { intros s (Hm & Hw & Hrest). split; [split; [exact Hm|exact Hrest]|exact Hw]. }
  2: { intros r s Hr. exact Hr. }
  eapply run_bind; [apply (requested_ends cancel (fun m => UsbAccessoryManager.session m = None /\
      session_holds session (UsbAccessoryManager.status m) _ /\
      LinkStatus.phase (UsbAccessoryManager.status m) = UsbLinkState.Connected /\
      (exists v h e, AccessorySession.worker session = Some (UsbWorker.Running v h e)) /\
      AccessorySession.is_connected session = true))|by intros ?? []|by intros ?? []|].
  intros [] [[slot status] w] [(Hm & Hs & Hph & Hrun & Hconn) (seen & Hw & Hseen)]; cbn [fst snd UsbAccessoryManager.session UsbAccessoryManager.status] in *; subst slot.
  - pose proof (stop_ends session seen _ (UsbAccessoryManager.mk None status) w Hs Hw) as He.
    destruct (stop session _) as [[m' w'] r] eqn:Hstop. destruct He as (-> & Hm' & _ & Hw').
    rewrite (ibind_step _ _ _ (m', w') (Ok tt)) by (unfold icatch; by rewrite Hstop). apply (cancelled_ends seen). by split.
  - rewrite (Hseen eq_refl) in Hw. eexists false, _. split; [exact Hw|]. split; [exact Hs|].
    unfold ibind, iput, iret. cbn [snd fst]. unfold connected_report. rewrite Hreport. cbn. split; [done|].
    destruct Hrun as (v & h & e & Hrun). split; [by exists session, v, h, e|]. split; [exact Hph|].
    by apply bool_decide_eq_true in Hconn.
Qed.

(** A manager whose flag is found set at once is left as it is, but for its status. *)
Definition untouched (m : M) hd (r : outcome Empty_set UsbAccessoryProbeReport.t) (s : M * (W * list UsbEntry)) : Prop :=
  r = Ok (UsbAccessoryProbeReport.failed RECONNECT_CANCELLED_DETAIL) /\
  fst s = UsbAccessoryManager.replace_status m (LinkStatus.with_phase UsbLinkState.Ready RECONNECT_CANCELLED_DETAIL) /\
  exists seen, usb_at (mk_usb_state seen hd) (snd s).

Lemma untouched_holds m hd r s : manager_holds m hd -> untouched m hd r s -> manager_holds (fst s) hd.
Proof.
  intros Hm (_ & -> & _). unfold manager_holds, session_holds in *. destruct m as [[[host cancel [[v h e| |]|]]|] status]; cbn in *; [done| |done..|].
  - by destruct Hm as (-> & Hc & _).
  - by destruct Hm as [-> _].
Qed.

Lemma opened_ends version name cancel :
  run_of (fun s => LinkStatus.phase (UsbAccessoryManager.status (fst s)) = UsbLinkState.Connecting /\ bare false s)
    (on_world (open_android_accessory version name cancel))
    (fun r s => UsbAccessoryManager.session (fst s) = None /\
      LinkStatus.phase (UsbAccessoryManager.status (fst s)) = UsbLinkState.Connecting /\
      match r with
      | Ok opened => exists d descriptor protocol,
          OpenedAccessory.report opened = accessory_report d descriptor (OpenedAccessory.endpoints opened) protocol /\
          usb_at (mk_usb_state false (Claimed (OpenedAccessory.handle opened) d
            (BulkEndpoints.interface (OpenedAccessory.endpoints opened)))) (snd s)
      | Err _ => exists seen, usb_at (mk_usb_state seen NoDevice) (snd s)
      | Fault _ => usb_at (mk_usb_state false NoDevice) (snd s) /\ aeons (snd s)
      end).
Proof.
  intros [m w] [Hph [Hm Hw]]. cbn [fst snd] in *. unfold on_world. cbn [fst snd].
  pose proof (open_android_ends start version name cancel w Hw) as Ho.
  pose proof (open_android_answers version name cancel w Logic.I) as Hr.
  destruct (open_android_accessory version name cancel w) as [w' [opened|e|f]]; cbn [fst snd unless_gone answering] in *;
    (split; [done|]; split; [done|]).
  - destruct Ho as (d & descriptor & configuration & protocol & _ & _ & _ & Hrep & Hat). by exists d, descriptor, protocol.
  - destruct Ho as (seen & Hat & _). by exists seen.
  - done.
Qed.

Lemma prepare_ends version name cancel m hd :
  manager_holds m hd ->
  run_of (fun s => fst s = m /\ usb_at (mk_usb_state false hd) (snd s)) (prepare_with_cancel version name cancel)
    (fun r s => prepared r s \/ untouched m hd r s).
Proof.
  intros Hm. unfold prepare_with_cancel.
  eapply run_bind; [apply (requested_ends cancel (fun m' => m' = m))|by intros ?? []|by intros ?? []|].
  intros [] [m' w] [E (seen & Hw & Hseen)]; cbn [fst snd] in *; subst m'.
  { right. split; [done|]. split; [done|]. by exists seen. }
  rewrite (Hseen eq_refl) in Hw. clear Hseen. left. revert m w Hm Hw. intros m' w Hm Hw.
  assert (Hrest : run_of (fun s => manager_holds (fst s) hd /\ usb_at (mk_usb_state false hd) (snd s))
    (let* stopped := icatch stop_active_session in
     match stopped with
     | Ok _ =>
       let* _ := replace_status (LinkStatus.with_phase UsbLinkState.Connecting "Negotiating Android Open Accessory mode") in
       let* opened := icatch (on_world (open_android_accessory version name cancel)) in
       match opened with
       | Ok opened => keep_accessory cancel opened
       | Err error => let* now_cancelled := requested cancel in if now_cancelled : bool then cancelled_report else failed_report error
       | Fault f => ifault f
       end
     | Err error => iret (UsbAccessoryProbeReport.failed error)
     | Fault f => ifault f
     end) prepared); [|exact (Hrest (m', w) (conj Hm Hw))].
  clear.
  eapply run_bind with (R := fun r s => r = Ok (Ok tt) /\ bare false s).
  { intros [m1 w1] [Hm1 Hw1]. pose proof (stop_active_ends false hd m1 w1 Hm1 Hw1) as Hstop. unfold icatch.
    destruct (stop_active_session (m1, w1)) as [[m2 w2] r]. by destruct Hstop as (-> & Hm2 & _ & Hw2). }
  1-2: by intros ?? [].
  intros stopped s [[= ->] Hb]. revert s Hb.
  eapply run_bind with (R := fun r s => r = Ok tt /\
      LinkStatus.phase (UsbAccessoryManager.status (fst s)) = UsbLinkState.Connecting /\ bare false s);
    [intros [m1 w1] [Hm1 Hw1]; by split|by intros ?? []|by intros ?? []|].
  intros ? s [_ Hb]. revert s Hb.
  eapply run_bind; [apply (run_catch (F:=Empty_set)), opened_ends|by intros ?? []| |].
  { intros [m1 w1] f (Hm1 & Hph & Hw1 & Hlate). cbn [fst snd] in *. eexists _, NoDevice. split; [exact Hw1|]. split; [|by split].
    unfold manager_holds. cbn [fst]. rewrite Hm1. split; [done|]. by rewrite Hph. }
  intros [opened|e|f] [m1 w1] (Hm1 & Hph & Hrest); cbn [fst snd] in *.
  - destruct Hrest as (d & descriptor & protocol & Hrep & Hat). exact (keep_ends cancel opened d protocol descriptor Hrep (m1, w1) (conj Hm1 Hat)).
  - destruct Hrest as (seen & Hat).
    assert (Hlast : run_of (fun s => UsbAccessoryManager.session (fst s) = None /\ usb_at (mk_usb_state seen NoDevice) (snd s))
      (let* now_cancelled := requested cancel in if now_cancelled : bool then cancelled_report else failed_report e) prepared).
    { eapply run_bind; [apply (requested_seen cancel seen NoDevice (fun m => UsbAccessoryManager.session m = None))|by intros ?? []|by intros ?? []|].
      intros [] s [Hs (seen' & Hw)]; [by apply (cancelled_ends seen')|by apply (failed_ends seen')]. }
    exact (Hlast (m1, w1) (conj Hm1 Hat)).
  - destruct Hrest as [Hw1 Hlate]. eexists _, NoDevice. split; [exact Hw1|]. split; [|by split].
    unfold manager_holds, ifault. cbn [fst snd]. rewrite Hm1. split; [done|]. by rewrite Hph.
Qed.
End holding.

(** ** The calls of the runtime *)

(** What the runtime asks of the manager, and the worker between. *)
Module UsbCall.
Inductive t : Type :=
| Prepare (cancel : bool)
| Send (packet : Packet.t)
| Receive (channel : Channel.t)
| Work (turns : list BulkTurn.t)
| Disconnect
| CloseRuntimeSession.
End UsbCall.

Section calls.
Context {W : Type} `{UsbOsLaws W}.
Notation M := UsbAccessoryManager.t.
Variable package_version : list byte.
Variable computer_name : option (list byte).

Definition work_between (turns : list BulkTurn.t) (m : M) (w : W * list UsbEntry) : M * (W * list UsbEntry) :=
  match UsbAccessoryManager.session m with
  | Some session =>
    match work turns session (m, w) with
    | ((m, w), Ok session) => (UsbAccessoryManager.set_session m (Some session), w)
    | (s, _) => s
    end
  | None => (m, w)
  end.
Definition usb_call (call : UsbCall.t) (s : M * (W * list UsbEntry)) : M * (W * list UsbEntry) :=
  match call with
  | UsbCall.Prepare cancel => fst (prepare_with_cancel package_version computer_name cancel s)
  | UsbCall.Send packet => (fst (UsbAccessoryManager.try_send (fst s) packet), snd s)
  | UsbCall.Receive channel => (fst (UsbAccessoryManager.try_receive (fst s) channel), snd s)
  | UsbCall.Work turns => work_between turns (fst s) (snd s)
  | UsbCall.Disconnect => fst (disconnect s)
  | UsbCall.CloseRuntimeSession => fst (close_runtime_session s)
  end.

(** A run of calls, with what each did to the devices. *)
Fixpoint usb_calls (calls : list UsbCall.t) (m : M) (w : W) : (M * W) * list (list UsbEntry) :=
  match calls with
  | [] => ((m, w), [])
  | call :: calls =>
    let '(m, (w, log)) := usb_call call (m, (w, [])) in
    let (final, logs) := usb_calls calls m w in (final, log :: logs)
  end.
(** The device held after the logs of some calls, if every log is in order. *)
Fixpoint held (hd : Holding) (logs : list (list UsbEntry)) : option Holding :=
  match logs with
  | [] => Some hd
  | log :: logs => s ← usb_session (mk_usb_state false hd) log; held (holding s) logs
  end.

Lemma moved_holds session status hd e :
  session_holds session status hd ->
  (Link.connected (LoopbackEndpoint.link (AccessorySession.host_endpoint session)) = false -> e = AccessorySession.host_endpoint session) ->
  (link_wf (LoopbackEndpoint.link (AccessorySession.host_endpoint session)) -> link_wf (LoopbackEndpoint.link e)) ->
  session_holds (AccessorySession.set_endpoint session e) status hd.
Proof.
  unfold session_holds. destruct session as [host cancel [[v h eps| |]|]]; cbn; [| |done..].
  - intros (Hd & Hwf & tr & counted & [Ho1 Ho2 Ho3 Ho4] & [Hi1 Hi2 Hi3]) _ He. split; [done|]. split; [by apply He|].
    exists tr, counted. by split; split.
  - intros (-> & Hc & Hp) He _. by rewrite (He Hc).
Qed.

Lemma send_holds m hd packet : manager_holds m hd -> manager_holds (fst (UsbAccessoryManager.try_send m packet)) hd.
Proof.
  destruct m as [[session|] status]; [|done]. unfold UsbAccessoryManager.try_send. cbn [UsbAccessoryManager.session]. intros Hm.
  pose proof (safe_send (AccessorySession.host_endpoint session) packet) as Hs. cbn in Hs.
  destruct (LoopbackEndpoint.try_send _ packet) as [e r] eqn:Hsend. apply moved_holds; [exact Hm| |exact (fun Hl => proj1 (Hs Hl))].
  intros Hc. unfold LoopbackEndpoint.try_send in Hsend. rewrite Hc in Hsend. by injection Hsend as <- _.
Qed.
Lemma receive_holds m hd channel : manager_holds m hd -> manager_holds (fst (UsbAccessoryManager.try_receive m channel)) hd.
Proof.
  destruct m as [[session|] status]; [|done]. unfold UsbAccessoryManager.try_receive. cbn [UsbAccessoryManager.session]. intros Hm.
  pose proof (safe_receive (AccessorySession.host_endpoint session) channel) as Hs. cbn in Hs.
  destruct (LoopbackEndpoint.try_receive _ channel) as [e r] eqn:Hsend. apply moved_holds; [exact Hm| |exact (fun Hl => proj1 (Hs Hl))].
  intros Hc. unfold LoopbackEndpoint.try_receive in Hsend. rewrite Hc in Hsend. by injection Hsend as <- _.
Qed.

(** Closing the session, whatever becomes of the status. *)
Lemma closing_holds start m hd w (k : unit -> io (M * (W * list UsbEntry)) string unit) :
  manager_holds m hd -> usb_at (W:=W) start (mk_usb_state false hd) w ->
  (forall m w, UsbAccessoryManager.session m = None -> LinkStatus.phase (UsbAccessoryManager.status m) <> UsbLinkState.Connected ->
     let s := fst (k tt (m, w)) in manager_holds (fst s) NoDevice /\ snd s = w) ->
  let s := fst (ibind stop_active_session k (m, w)) in
  manager_holds (fst s) NoDevice /\ usb_at start (mk_usb_state false NoDevice) (snd s).
Proof.
  intros Hm Hw Hk. pose proof (stop_active_ends start false hd m w Hm Hw) as Hs.
  destruct (stop_active_session (m, w)) as [[m1 w1] r] eqn:E. destruct Hs as (-> & Hn & Hp & Hat).
  cbv zeta. rewrite (ibind_step _ _ _ _ _ E). destruct (Hk m1 w1 Hn Hp) as [? ->]. by split.
Qed.

Lemma call_holds call start m hd w :
  manager_holds m hd -> usb_at (W:=W) start (mk_usb_state false hd) w ->
  exists s, usb_at start s (snd (usb_call call (m, w))) /\ manager_holds (fst (usb_call call (m, w))) (holding s).
Proof.
  intros Hm Hw. destruct call as [cancel|packet|channel|turns| |]; cbn [usb_call fst snd].
  - destruct (prepare_ends start package_version computer_name cancel m hd Hm (m, w) (conj eq_refl Hw)) as [(seen & hd' & Hat & Hh & _)|Hu].
    + by eexists.
    + pose proof (untouched_holds _ _ _ _ _ Hm Hu). destruct Hu as (_ & _ & seen & Hat). by eexists.
  - eexists. split; [exact Hw|]. by apply send_holds.
  - eexists. split; [exact Hw|]. by apply receive_holds.
  - unfold work_between. destruct m as [[session|] status]; cbn [UsbAccessoryManager.session].
    2: { by eexists. }
    pose proof (work_holds start turns session false hd (UsbAccessoryManager.mk (Some session) status) w Hm Hw) as Hh.
    destruct (work turns session _) as [[m' w'] r]. destruct Hh as (session' & hd' & -> & _ & Hs & Hat & _). by eexists.
  - destruct (closing_holds start m hd w (fun _ =>
      let* stopped_status := iget (fun s => UsbAccessoryManager.status (fst s)) in
      if bool_decide (LinkStatus.phase stopped_status = UsbLinkState.Failed) then ifail (LinkStatus.detail stopped_status)
      else replace_status (LinkStatus.with_phase UsbLinkState.Ready "Android USB session disconnected by the user")) Hm Hw) as [Hh Hat].
    { intros [slot status] w1 Hn Hp. cbn in *. subst slot. by destruct (bool_decide _). }
    eexists. split; [exact Hat|exact Hh].
  - destruct (closing_holds start m hd w (fun _ =>
      replace_status (LinkStatus.with_phase UsbLinkState.Ready "Android USB transport closed with the display session")) Hm Hw) as [Hh Hat].
    { intros [slot status] w1 Hn Hp. cbn in *. by subst slot. }
    eexists. split; [exact Hat|exact Hh].
Qed.

Lemma calls_hold calls : forall m w hd, manager_holds m hd ->
  let '((m', _), logs) := usb_calls calls m w in exists hd', held hd logs = Some hd' /\ manager_holds m' hd'.
Proof.
  induction calls as [|call calls IH]; intros m w hd Hm; cbn [usb_calls]; [by exists hd|].
  destruct (call_holds call (mk_usb_state false hd) m hd (w, []) Hm eq_refl) as (s & Hat & Hh).
  destruct (usb_call call (m, (w, []))) as [m1 [w1 log]]. cbn [fst snd] in *. unfold usb_at in Hat. cbn [snd] in Hat.
  specialize (IH m1 w1 _ Hh). destruct (usb_calls calls m1 w1) as [[m' w'] logs]. destruct IH as (hd' & Hheld & Hm').
  exists hd'. cbn [held]. by rewrite Hat.
Qed.

Lemma default_holds : manager_holds UsbAccessoryManager.default NoDevice.
Proof. split; [reflexivity|discriminate]. Qed.

(** C11: whatever the runtime calls, in whatever order, and however the devices,
    the worker and the application behave meanwhile, the manager holds exactly what
    it opened: without a session no USB device is open; while the worker runs its
    handle is open with its interface claimed; once the worker has ended the device
    is released and closed and the link is down. At every moment at most one device
    is open, and the status says connected only while a worker runs. *)
Theorem usb_manager_leaks_no_device calls (w : W) :
  let '((m, _), logs) := usb_calls calls UsbAccessoryManager.default w in
  exists hd, held NoDevice logs = Some hd /\
  match UsbAccessoryManager.session m with
  | None => hd = NoDevice
  | Some session =>
    match AccessorySession.worker session with
    | Some (UsbWorker.Running _ handle endpoints) => exists d, hd = Claimed handle d (BulkEndpoints.interface endpoints)
    | Some UsbWorker.Finished => hd = NoDevice /\ UsbAccessoryManager.connection_state m = ConnectionState.Disconnected
    | _ => False
    end
  end /\
  (LinkStatus.phase (UsbAccessoryManager.status m) = UsbLinkState.Connected -> running m).
Proof.
  pose proof (calls_hold calls UsbAccessoryManager.default w NoDevice default_holds) as Hc.
  destruct (usb_calls calls UsbAccessoryManager.default w) as [[m w'] logs]. destruct Hc as (hd & Hheld & Hm).
  exists hd. split; [exact Hheld|]. unfold manager_holds, session_holds, running in *. unfold UsbAccessoryManager.connection_state.
  destruct m as [[[host cancel [[v h eps| |]|]]|] status]; cbn in *; [..|done|].
  - split; [apply Hm|]. intros _. by eexists _, v, h, eps.
  - destruct Hm as (-> & Hc & Hp). split; [|done]. split; [done|]. unfold LoopbackEndpoint.connection_state. by rewrite Hc.
  - done.
  - by destruct Hm as [-> ?].
Qed.

(** The report of a preparation tells the truth, from any state the runtime can
    bring the manager into. If it says passed, the flag was never seen set, the
    worker runs on a claimed interface, the link is up and the status says
    connected. Otherwise the manager has no session, no device is open, and the
    status gives the reason; unless the flag was set at once, when nothing but the
    status changes. The code panics only when its clock overflows. *)
Theorem usb_preparation_is_truthful calls cancel (w : W) :
  let '((m, w0), _) := usb_calls calls UsbAccessoryManager.default w in
  let '((m', (w', log)), r) := prepare_with_cancel package_version computer_name cancel (m, (w0, [])) in
  exists hd s, usb_session (mk_usb_state false hd) log = Some s /\ manager_holds m hd /\ manager_holds m' (holding s) /\
  match r with
  | Ok report =>
    (if UsbAccessoryProbeReport.passed report
     then flag_seen s = false /\ running m' /\
          LinkStatus.phase (UsbAccessoryManager.status m') = UsbLinkState.Connected /\
          UsbAccessoryManager.connection_state m' = ConnectionState.Connected
     else UsbAccessoryManager.session m' = None /\ holding s = NoDevice /\
          report = UsbAccessoryProbeReport.failed (LinkStatus.detail (UsbAccessoryManager.status m')) /\
          LinkStatus.phase (UsbAccessoryManager.status m') ∈ [UsbLinkState.Ready; UsbLinkState.Failed]) \/
    (report = UsbAccessoryProbeReport.failed RECONNECT_CANCELLED_DETAIL /\ holding s = hd /\
     m' = UsbAccessoryManager.replace_status m (LinkStatus.with_phase UsbLinkState.Ready RECONNECT_CANCELLED_DETAIL))
  | Err _ => False
  | Fault _ => holding s = NoDevice /\ 2 ^ 80 <= usb_clock w'
  end.
Proof.
  pose proof (calls_hold calls UsbAccessoryManager.default w NoDevice default_holds) as Hc.
  destruct (usb_calls calls UsbAccessoryManager.default w) as [[m w0] logs]. destruct Hc as (hd & _ & Hm).
  pose proof (prepare_ends (mk_usb_state false hd) package_version computer_name cancel m hd Hm (m, (w0, [])) (conj eq_refl eq_refl)) as Hp.
  destruct (prepare_with_cancel package_version computer_name cancel (m, (w0, []))) as [[m' [w' log]] r]. cbn [fst snd] in Hp.
  exists hd. destruct Hp as [(seen & hd' & Hat & Hh & Hr)|Hu].
  - exists (mk_usb_state seen hd'). split; [exact Hat|]. split; [done|]. split; [exact Hh|].
    destruct r as [report|[]|f]; cbn [holding flag_seen fst snd] in *.
    + left. destruct (UsbAccessoryProbeReport.passed report); [exact Hr|]. destruct Hr as (Hs & Hrep & Hph). split; [done|].
      split; [|done]. unfold manager_holds in Hh. rewrite Hs in Hh. apply Hh.
    + destruct Hr as [Hs Ht]. unfold manager_holds in Hh. rewrite Hs in Hh. split; [apply Hh|exact Ht].
  - pose proof (untouched_holds _ _ _ _ _ Hm Hu) as Hh. destruct Hu as (-> & E & seen & Hat). cbn [fst snd] in *.
    exists (mk_usb_state seen hd). split; [exact Hat|]. split; [done|]. split; [exact Hh|]. by right.
Qed.
End calls.

(** ** The phone again *)
Module ManagerExamples.
Import PhoneExamples.

Definition idle_turn : BulkTurn.t := BulkTurn.mk false (fun _ => inl "unplugged") (BulkRead.Arrived []).
Definition broken_turn : BulkTurn.t :=
  BulkTurn.mk false (fun _ => inl "unplugged") (BulkRead.Failed (UsbError.mk UsbError.Other "no device")).

(** Prepared, used, unplugged: the worker lets go of the phone by itself. *)
Lemma usb_manager_leaks_no_device_witness :
  exists m w logs,
    usb_calls version_ None [UsbCall.Prepare false; UsbCall.Work [idle_turn]; UsbCall.Work [broken_turn]]
      UsbAccessoryManager.default (mk_bench 0 None (ms 5000)) = ((m, w), logs) /\
    held NoDevice logs = Some NoDevice /\
    map brief logs =
      [[OpenTried phone (Some 5%nat); VendorRequests 5 []; HandleClosed 5;
        OpenTried accessory (Some 5%nat); ConfigurationSet 5; InterfaceClaimed 5 0 true];
       []; [InterfaceReleased 5 0; HandleClosed 5]] /\
    UsbAccessoryManager.runtime_status m =
      Some (UsbLinkState.Failed, "Android USB bulk read failed: no device").
Proof.
  pose proof (usb_manager_leaks_no_device version_ None
    [UsbCall.Prepare false; UsbCall.Work [idle_turn]; UsbCall.Work [broken_turn]] (mk_bench 0 None (ms 5000))) as Hc.
  destruct (usb_calls _ _ _ _ _) as [[m w] logs] eqn:E. destruct Hc as (hd & Hheld & _).
  exists m, w, logs. vm_compute in E. injection E as <- <- <-. split; [reflexivity|].
  vm_compute in Hheld. injection Hheld as <-. split; [reflexivity|]. split; vm_compute; reflexivity.
Defined.

(** A flag set while the phone re-enumerates: the report says so, nothing stays open. *)
Lemma usb_preparation_is_truthful_witness :
  (exists s, snd (prepare_with_cancel version_ None true (UsbAccessoryManager.default, (mk_bench 0 None (ms 100), []))) =
     Ok (UsbAccessoryProbeReport.failed RECONNECT_CANCELLED_DETAIL) /\
   usb_session (mk_usb_state false NoDevice)
     (snd (snd (fst (prepare_with_cancel version_ None true (UsbAccessoryManager.default, (mk_bench 0 None (ms 100), [])))))) = Some s /\
   holding s = NoDevice).
Proof.
  pose proof (usb_preparation_is_truthful version_ None [] true (mk_bench 0 None (ms 100))) as Hp.
  cbn [usb_calls] in Hp.
  destruct (prepare_with_cancel version_ None true _) as [[m' [w' log]] r] eqn:E.
  destruct Hp as (hd & s & Hs & [-> _] & _ & _). exists s. vm_compute in E. injection E as <- <- <- <-. split; [reflexivity|].
  split; [exact Hs|]. vm_compute in Hs. injection Hs as <-. reflexivity.
Defined.
End ManagerExamples.
