(* ===== verification/WinVirtualDisplay.v ===== *)
(** * Control of the Windows virtual display

    Models [apps/desktop/src-tauri/src/platform/windows/virtual_display.rs]: the
    controller program that talks to the driver's service, run with a time limit;
    its report; the status with its short cache; and switching the display on and
    off, which waits until the monitors agree. Processes and files are the class
    [ControllerOs], the monitors and the clock those of [WinDisplay]. *)
From stdpp Require Import pretty.
From S2P Require Export RustIo RustText WinDisplay.
Local Open Scope string_scope.
Local Open Scope list_scope.
Local Open Scope Z_scope.

Definition CONTROLLER_NAME : string := "LadoFlowVirtualDisplay.exe".
Definition CONTROLLER_PROTOCOL_VERSION : Z := 1.
Definition STATUS_CACHE_TTL : Z := Duration.from_secs 1.
Definition STATUS_TIMEOUT : Z := Duration.from_secs 5.
Definition ENABLE_TIMEOUT : Z := Duration.from_secs 45.
Definition DISABLE_TIMEOUT : Z := Duration.from_secs 15.
Definition MONITOR_APPEAR_TIMEOUT : Z := Duration.from_secs 12.
Definition MONITOR_REMOVE_TIMEOUT : Z := Duration.from_secs 8.
Definition MONITOR_POLL_INTERVAL : Z := Duration.from_millis 100.
Definition PROCESS_POLL_INTERVAL : Z := Duration.from_millis 20.
Definition SUCCESS_HRESULT : string := "0x00000000".

(** ** The controller's report *)
Module ControllerReport.
Record t : Type := mk {
  protocol_version : Z;
  service_installed : bool;
  service_state : string;
  state : string;
  request_result : string;
  last_error : string;
  device_instance_id : string;
  generation : Z;
  changed : bool;
}.
End ControllerReport.

Module ControllerOutcome.
Record t : Type := mk { report : ControllerReport.t; process_succeeded : bool }.
End ControllerOutcome.

(** [u32::from_str_radix] with radix 16, for digits only. *)
Fixpoint radix_16 (value : Z) (digits : list byte) : outcome string Z :=
  match digits with
  | [] => Ok value
  | digit :: digits =>
    let! d := ok_or (SocketAddrV6.hex_value digit) "invalid digit found in string" in
    let! value := ok_or (checked 32 (value * 16 + d)) "number too large to fit in target type" in
    radix_16 value digits
  end.

Definition invalid_hresult (value : string) : string := "invalid HRESULT `" +:+ value +:+ "`".
(** [strip_prefix("0x")]. *)
Definition strip_0x (value : list byte) : option (list byte) :=
  match value with
  | a :: b :: hex => if bool_decide (a = x30) && bool_decide (b = x78) then Some hex else None
  | _ => None
  end.
Definition parse_hresult (value : string) : outcome string Z :=
  match strip_0x (str value) with
  | Some hex =>
    if negb (zlen hex =? 8) || negb (forallb (fun byte => if SocketAddrV6.hex_value byte is Some _ then true else false) hex)
    then Err (invalid_hresult value)
    else map_err (fun error => invalid_hresult value +:+ ": " +:+ error) (radix_16 0 hex)
  | None => Err (invalid_hresult value)
  end.
Definition hresult_succeeded (value : string) : outcome string bool :=
  let! code := parse_hresult value in
  Ok (Z.land code 0x80000000 =? 0).

(** [encode_utf16().count()]. *)
Definition utf16_units (value : string) : Z :=
  fold_right (fun c n => (if c <? 0x10000 then 1 else 2) + n) 0 (chars (str value)).

Definition validate_report (report : ControllerReport.t) : outcome string unit :=
  if negb (ControllerReport.protocol_version report =? CONTROLLER_PROTOCOL_VERSION)
  then Err ("virtual-display controller protocol " +:+ pretty (ControllerReport.protocol_version report) +:+
            " is incompatible with host protocol " +:+ pretty CONTROLLER_PROTOCOL_VERSION)
  else
    let! _request_result := parse_hresult (ControllerReport.request_result report) in
    let! _last_error := parse_hresult (ControllerReport.last_error report) in
    if 260 <=? utf16_units (ControllerReport.device_instance_id report)
    then Err "virtual-display controller returned an oversized device ID"
    else Ok tt.

Definition reported_state (report : ControllerReport.t) : outcome string VirtualDisplayState.t :=
  let state := ControllerReport.state report in
  if negb (ControllerReport.service_installed report) then Ok VirtualDisplayState.NotInstalled
  else if negb (bool_decide (ControllerReport.service_state report = "running")) then Ok VirtualDisplayState.ServiceStopped
  else if bool_decide (state = "ready") then Ok VirtualDisplayState.Ready
  else if bool_decide (state = "enabling") then Ok VirtualDisplayState.Enabling
  else if bool_decide (state = "enabled") then Ok VirtualDisplayState.Enabled
  else if bool_decide (state = "disabling") then Ok VirtualDisplayState.Disabling
  else if bool_decide (state = "failed") then Ok VirtualDisplayState.Failed
  else if bool_decide (state = "stopping") then Ok VirtualDisplayState.Stopping
  else if bool_decide (state = "unavailable") then Ok VirtualDisplayState.ServiceStopped
  else Err ("virtual-display controller returned unknown state `" +:+ state +:+ "`").

Definition state_detail (state : VirtualDisplayState.t) (last_error : option string) : outcome string string :=
  match state with
  | VirtualDisplayState.NotInstalled =>
    Ok "LadoFlow virtual-display service is not installed. Install the Windows host package to enable a true extended desktop."
  | VirtualDisplayState.ServiceStopped => Ok "LadoFlow virtual-display service is installed but not running."
  | VirtualDisplayState.Ready => Ok "LadoFlow virtual-display service is ready; the virtual monitor is disabled."
  | VirtualDisplayState.Enabling => Ok "Windows is creating the LadoFlow virtual monitor."
  | VirtualDisplayState.Enabled => Ok "LadoFlow virtual monitor is enabled and available to Windows."
  | VirtualDisplayState.Disabling => Ok "Windows is removing the LadoFlow virtual monitor."
  | VirtualDisplayState.Failed =>
    Ok ("LadoFlow virtual-display device failed: " +:+ default "unknown HRESULT" last_error +:+ ".")
  | VirtualDisplayState.Stopping => Ok "LadoFlow virtual-display service is stopping."
  | VirtualDisplayState.Unsupported | VirtualDisplayState.ClientMissing => Fault Panicked
  end.

Definition status_from_report (report : ControllerReport.t) : outcome string VirtualDisplayStatus.t :=
  let! _ := validate_report report in
  let last_error :=
    if negb (bool_decide (ControllerReport.last_error report = SUCCESS_HRESULT)) then Some (ControllerReport.last_error report)
    else None in
  let device_instance_id :=
    if negb (bool_decide (ControllerReport.device_instance_id report = "")) then Some (ControllerReport.device_instance_id report)
    else None in
  let! state := reported_state report in
  let! detail := state_detail state last_error in
  Ok (VirtualDisplayStatus.mk state detail (ControllerReport.service_installed report) (ControllerReport.service_state report)
        (bool_decide (state = VirtualDisplayState.Enabled)) device_instance_id last_error (ControllerReport.generation report)).

Definition client_missing_status : VirtualDisplayStatus.t :=
  VirtualDisplayStatus.mk VirtualDisplayState.ClientMissing
    "LadoFlow virtual-display controller is not bundled with this host build. Existing-monitor capture remains available."
    false "unavailable" false None None 0.
Definition failed_status (error : string) : VirtualDisplayStatus.t :=
  VirtualDisplayStatus.mk VirtualDisplayState.Failed error false "unknown" false None (Some error) 0.
(** [status.detail = detail]. *)
Definition with_detail (status : VirtualDisplayStatus.t) (detail : string) : VirtualDisplayStatus.t :=
  VirtualDisplayStatus.mk (VirtualDisplayStatus.state status) detail (VirtualDisplayStatus.service_installed status)
    (VirtualDisplayStatus.service_state status) (VirtualDisplayStatus.enabled status)
    (VirtualDisplayStatus.device_instance_id status) (VirtualDisplayStatus.last_error status)
    (VirtualDisplayStatus.generation status).

(** ** Looking for the controller *)

(** [Path::join] of a relative name, for a directory that is not a bare drive. *)
Definition ends_in_separator (path : string) : bool :=
  match last (str path) with
  | Some b => bool_decide (b = x5c) || bool_decide (b = x2f)
  | None => true
  end.
Definition join (directory name : string) : string :=
  if ends_in_separator directory then directory +:+ name else directory +:+ "\" +:+ name.

(** The filter with a set of the paths seen. *)
Fixpoint unique_paths (seen : list string) (paths : list string) : list string :=
  match paths with
  | [] => []
  | path :: paths =>
    if bool_decide (path ∈ seen) then unique_paths seen paths else path :: unique_paths (path :: seen) paths
  end.

(** [overridden] is the environment variable, [directory] the parent of the running
    executable, [manifest] the directory of the crate when it was built. *)
Definition controller_candidates (debug_assertions : bool) (overridden directory : option string) (manifest : string)
  : list string :=
  unique_paths []
    ((if debug_assertions then option_list overridden else []) ++
     match directory with
     | Some directory =>
       [join directory CONTROLLER_NAME; join (join directory "windows") CONTROLLER_NAME;
        join (join (join directory "resources") "windows") CONTROLLER_NAME]
     | None => []
     end ++
     (if debug_assertions
      then [join (join manifest "../../../platform/windows/idd/dist/Release/x64") CONTROLLER_NAME] else [])).

(** ** Running the controller *)
Module ChildOutput.
Record t : Type := mk { stdout : list byte; stderr : list byte; success : bool }.
End ChildOutput.

(** What the code asks of the file system and of processes: [spawn] launches the
    program with one argument, [try_wait] says whether it has ended. *)
Class ControllerOs (W : Type) : Type := {
  env_override : W -> W * option string;
  exe_directory : W -> W * option string;
  is_file : string -> W -> W * bool;
  spawn : string -> string -> W -> W * outcome string nat;
  try_wait : nat -> W -> W * outcome string bool;
  wait_with_output : nat -> W -> W * outcome string ChildOutput.t;
  kill_child : nat -> W -> W;
  wait_child : nat -> W -> W;
}.

(** [serde_json::from_str], and how the crate was built. *)
Class ControllerBuild : Type := {
  report_from_json : list byte -> outcome string ControllerReport.t;
  debug_assertions : bool;
  manifest_directory : string;
}.

Module CachedStatus.
Record t : Type := mk { measured_at : Z; status : VirtualDisplayStatus.t }.
End CachedStatus.

Section control.
Context {W : Type} `{ControllerBuild} `{DisplayOs W} `{ControllerOs W}.

Definition now_io {E} : io W E Z := fun w => let (w, t) := now w in (w, Ok t).
Definition displays_io : io W string (list DisplaySource.t) := fun w =>
  let (w, e) := enum_display_monitors w in (w, enumerate_display_sources e).

Fixpoint first_file (paths : list string) : io W string (option string) :=
  match paths with
  | [] => iret None
  | path :: paths =>
    fun w => let (w, found) := is_file path w in if found : bool then (w, Ok (Some path)) else first_file paths w
  end.
Definition find_controller : io W string (option string) := fun w =>
  let (w, overridden) := if debug_assertions then env_override w else (w, None) in
  let (w, directory) := exe_directory w in
  first_file (controller_candidates debug_assertions overridden directory manifest_directory) w.

(** A child that has ended: its output, parsed and checked. *)
Definition collect_output (child : nat) : io W string ControllerOutcome.t :=
  let* output := imap_err (fun error => "failed to collect virtual-display controller output: " +:+ error)
    (wait_with_output child) in
  let* stdout := ilift (if utf8_valid (ChildOutput.stdout output) then Ok (ChildOutput.stdout output)
                        else Err "virtual-display controller emitted non-UTF-8 JSON") in
  let* report := ilift (map_err (fun error =>
      "invalid virtual-display controller JSON: " +:+ error +:+ "; stderr: " +:+
      text (trim (from_utf8_lossy (length (ChildOutput.stderr output)) (ChildOutput.stderr output))))
    (report_from_json (trim stdout))) in
  let* _ := ilift (validate_report report) in
  iret (ControllerOutcome.mk report (ChildOutput.success output)).

Definition kill_and_wait (child : nat) : io W string unit := iput (fun w => wait_child child (kill_child child w)).

(** The loop of [run_controller]. *)
Fixpoint await_child (fuel : nat) (child : nat) (command : string) (timeout deadline : Z) : io W string ControllerOutcome.t :=
  match fuel with
  | O => ifault OutOfFuel
  | S fuel =>
    let* ended := icatch (try_wait child) in
    match ended with
    | Ok true => collect_output child
    | Ok false =>
      let* t := now_io in
      if t <? deadline then
        let* _ := iput (fun w => sleep w PROCESS_POLL_INTERVAL) in
        await_child fuel child command timeout deadline
      else
        let* _ := kill_and_wait child in
        ifail ("virtual-display controller `" +:+ command +:+ "` timed out after " +:+
               pretty (Duration.as_millis timeout) +:+ " ms")
    | Err error =>
      let* _ := kill_and_wait child in
      ifail ("failed to wait for virtual-display controller: " +:+ error)
    | Fault f => ifault f
    end
  end.
(** Every round but the last sleeps the poll interval. *)
Definition rounds (timeout interval : Z) : nat := S (S (Z.to_nat (timeout / interval))).

Definition run_controller (path command : string) (timeout : Z) : io W string ControllerOutcome.t :=
  let* child := imap_err (fun error =>
      "failed to launch Windows virtual-display controller `" +:+ path +:+ "`: " +:+ error) (spawn path command) in
  let* t := now_io in
  let* deadline := ilift (Duration.add t timeout) in
  await_child (rounds timeout PROCESS_POLL_INTERVAL) child command timeout deadline.

(** ** The status *)
Notation Cache := (option CachedStatus.t).

Definition store_status {E} (status : VirtualDisplayStatus.t) : io (Cache * W) E unit :=
  let* t := on_world now_io in
  iput (fun s => (Some (CachedStatus.mk t status), snd s)).

Definition status_uncached : io W string VirtualDisplayStatus.t :=
  let* controller := find_controller in
  match controller with
  | None => iret client_missing_status
  | Some controller =>
    let* outcome := icatch (run_controller controller "status" STATUS_TIMEOUT) in
    match outcome with
    | Ok outcome =>
      match status_from_report (ControllerOutcome.report outcome) with
      | Ok status => iret status
      | Err error => iret (failed_status error)
      | Fault f => ifault f
      end
    | Err error => iret (failed_status error)
    | Fault f => ifault f
    end
  end.

Definition measure : io (Cache * W) string VirtualDisplayStatus.t :=
  let* measured := on_world status_uncached in
  let* _ := store_status measured in
  iret measured.
Definition status : io (Cache * W) string VirtualDisplayStatus.t :=
  let* cache := iget fst in
  match cache with
  | Some cached =>
    let* t := on_world now_io in
    if Duration.saturating_sub t (CachedStatus.measured_at cached) <? STATUS_CACHE_TTL
    then iret (CachedStatus.status cached)
    else measure
  | None => measure
  end.

(** ** Switching the display *)
Definition action_report (passed : bool) (status : VirtualDisplayStatus.t) (selected_display_id : option string) (started : Z)
  : io W string VirtualDisplayActionReport.t :=
  let* t := now_io in
  iret (VirtualDisplayActionReport.mk passed status selected_display_id
          (Z.min (Duration.as_millis (Duration.saturating_sub t started)) (u_max 64))).

(** [status.detail = …], stored and reported. *)
Definition report_status (passed : bool) (status : VirtualDisplayStatus.t) (selected_display_id : option string) (started : Z)
  : io (Cache * W) string VirtualDisplayActionReport.t :=
  let* _ := store_status status in
  on_world (action_report passed status selected_display_id started).

Definition refused_detail (verb : string) (report : ControllerReport.t) (status : VirtualDisplayStatus.t) : string :=
  "Virtual display " +:+ verb +:+ " failed (request " +:+ ControllerReport.request_result report +:+ ", device " +:+
  ControllerReport.last_error report +:+ "). " +:+ VirtualDisplayStatus.detail status.

(** The loop of [enable]. *)
Fixpoint await_monitor (fuel : nat) (baseline_ids : list string) (status : VirtualDisplayStatus.t) (deadline started : Z)
  : io (Cache * W) string VirtualDisplayActionReport.t :=
  match fuel with
  | O => ifault OutOfFuel
  | S fuel =>
    let wait_more :=
      let* t := on_world now_io in
      if deadline <=? t then
        report_status false (with_detail status
          "The service enabled the software device, but no active LadoFlow HMONITOR appeared within 12 seconds. Check driver installation and Device Manager.")
          None started
      else
        let* _ := iput (fun s => (fst s, sleep (snd s) MONITOR_POLL_INTERVAL)) in
        await_monitor fuel baseline_ids status deadline started in
    let* displays := icatch (on_world displays_io) in
    match displays with
    | Ok displays =>
      match List.find DisplaySource.virtual_display displays with
      | Some display =>
        let selected := DisplaySource.id display in
        report_status true (with_detail status
          (if bool_decide (selected ∈ baseline_ids) then "LadoFlow virtual display is enabled and selected."
           else "LadoFlow virtual display appeared and was selected automatically.")) (Some selected) started
      | None => wait_more
      end
    | Err error =>
      let* t := on_world now_io in
      if deadline <=? t
      then report_status false (with_detail status
             ("The service enabled the device, but monitor enumeration failed: " +:+ error)) None started
      else wait_more
    | Fault f => ifault f
    end
  end.

Definition enable : io (Cache * W) string VirtualDisplayActionReport.t :=
  let* started := on_world now_io in
  let* baseline := icatch (on_world displays_io) in
  let baseline_ids := match baseline with Ok displays => map DisplaySource.id displays | _ => [] end in
  let* controller := on_world find_controller in
  match controller with
  | None => report_status false client_missing_status None started
  | Some controller =>
    let* outcome := on_world (run_controller controller "start" ENABLE_TIMEOUT) in
    let report := ControllerOutcome.report outcome in
    let* status := ilift (status_from_report report) in
    let* command_succeeded :=
      if ControllerOutcome.process_succeeded outcome
      then let* succeeded := ilift (hresult_succeeded (ControllerReport.request_result report)) in
           iret (succeeded && VirtualDisplayStatus.enabled status)
      else iret false in
    if negb command_succeeded
    then report_status false (with_detail status (refused_detail "enable" report status)) None started
    else
      let* t := on_world now_io in
      let* deadline := ilift (Duration.add t MONITOR_APPEAR_TIMEOUT) in
      await_monitor (rounds MONITOR_APPEAR_TIMEOUT MONITOR_POLL_INTERVAL) baseline_ids status deadline started
  end.

(** The loop of [disable]. *)
Fixpoint await_removal (fuel : nat) (changed : bool) (status : VirtualDisplayStatus.t) (deadline started : Z)
  : io (Cache * W) string VirtualDisplayActionReport.t :=
  match fuel with
  | O => ifault OutOfFuel
  | S fuel =>
    let* displays := icatch (on_world displays_io) in
    let removed := match displays with Ok displays => forallb (fun d => negb (DisplaySource.virtual_display d)) displays | _ => false end in
    if removed then
      report_status true (with_detail status
        (if changed then "LadoFlow virtual display was disabled and removed from the active desktop."
         else "LadoFlow virtual display was already disabled.")) None started
    else
      let* t := on_world now_io in
      if t <? deadline then
        let* _ := iput (fun s => (fst s, sleep (snd s) MONITOR_POLL_INTERVAL)) in
        await_removal fuel changed status deadline started
      else
        match displays with
        | Ok _ => report_status false (with_detail status
            "The service closed the software-device handle, but Windows still reported the virtual monitor after 8 seconds.") None started
        | Err error => report_status false (with_detail status
            ("The service disabled the device, but monitor removal could not be verified: " +:+ error)) None started
        | Fault f => ifault f
        end
  end.

Definition disable : io (Cache * W) string VirtualDisplayActionReport.t :=
  let* started := on_world now_io in
  let* controller := on_world find_controller in
  match controller with
  | None => report_status false client_missing_status None started
  | Some controller =>
    let* outcome := on_world (run_controller controller "stop" DISABLE_TIMEOUT) in
    let report := ControllerOutcome.report outcome in
    let* status := ilift (status_from_report report) in
    let* succeeded :=
      if ControllerOutcome.process_succeeded outcome then ilift (hresult_succeeded (ControllerReport.request_result report))
      else iret false in
    if negb succeeded
    then report_status false (with_detail status (refused_detail "disable" report status)) None started
    else
      let* t := on_world now_io in
      let* deadline := ilift (Duration.add t MONITOR_REMOVE_TIMEOUT) in
      await_removal (rounds MONITOR_REMOVE_TIMEOUT MONITOR_POLL_INTERVAL) (ControllerReport.changed report) status deadline started
  end.
End control.
