(* ===== verification/WinVirtualFacts.v ===== *)
(** * The virtual display does what its report says

    Parsing of the controller's answers, the life of its process, the truth of the
    reports of switching on and off, their time limits, and the cache. *)
From S2P Require Export WinVirtualDisplay.
Local Open Scope string_scope.
Local Open Scope list_scope.
Local Open Scope Z_scope.

(** ** Result codes *)

Definition hex_digits_value (digits : list byte) : option Z :=
  fold_left (fun acc b => acc ← acc; d ← SocketAddrV6.hex_value b; Some (acc * 16 + d)) digits (Some 0).

Lemma hex_value_range b d : SocketAddrV6.hex_value b = Some d -> 0 <= d < 16.
Proof. unfold SocketAddrV6.hex_value. repeat case_match; intros [= <-]; rewrite ?andb_true_iff in *; lia. Qed.

Lemma hex_digits_none l : fold_left (fun acc b => acc ← acc; d ← SocketAddrV6.hex_value b; Some (acc * 16 + d)) l None = None.
Proof. by induction l. Qed.

Lemma radix_16_spec digits : forall value v,
  0 <= value -> (value + 1) * 16 ^ zlen digits <= 2 ^ 32 ->
  radix_16 value digits = Ok v <->
  fold_left (fun acc b => acc ← acc; d ← SocketAddrV6.hex_value b; Some (acc * 16 + d)) digits (Some value) = Some v.
Proof.
  induction digits as [|b digits IH]; intros value v Hv Hb; cbn [radix_16 fold_left]; [naive_solver|].
  destruct (SocketAddrV6.hex_value b) as [d|] eqn:Hd; cbn; [|by rewrite hex_digits_none].
  apply hex_value_range in Hd. cbn [length] in Hb. rewrite Nat2Z.inj_succ, Z.pow_succ_r in Hb by lia.
  assert (H16 : 1 <= 16 ^ zlen digits) by (pose proof (Z.pow_pos_nonneg 16 (zlen digits)); lia).
  unfold checked. destruct (Z.leb_spec 0 (value * 16 + d)); [|lia].
  destruct (Z.ltb_spec (value * 16 + d) (2 ^ 32)); [|nia]. cbn. apply IH; nia.
Qed.

(** The code and its digits. *)
Definition hresult_value (value : string) : option Z :=
  hex ← strip_0x (str value); if zlen hex =? 8 then hex_digits_value hex else None.

Lemma parse_hresult_spec value v : parse_hresult value = Ok v <-> hresult_value value = Some v.
Proof.
  unfold parse_hresult, hresult_value. destruct (strip_0x (str value)) as [hex|]; cbn; [|done].
  destruct (Z.eqb_spec (zlen hex) 8) as [Hl|]; cbn [negb orb]; [|done].
  destruct (forallb _ hex) eqn:Hall; cbn [negb].
  - rewrite <-(radix_16_spec hex 0 v) by (rewrite ?Hl; lia). destruct (radix_16 0 hex); cbn; naive_solver.
  - split; [done|]. intros Hv. exfalso. unfold hex_digits_value in Hv. revert Hv Hall. generalize (Some 0). clear Hl.
    induction hex as [|b hex IH]; [done|]. intros acc. cbn. destruct (SocketAddrV6.hex_value b) as [d|] eqn:Hd; cbn.
    + intros Hv Hall. by eapply IH.
    + destruct acc; cbn; by rewrite hex_digits_none.
Qed.

Lemma returns_radix_16 digits value : returns (radix_16 value digits).
Proof.
  revert value. induction digits as [|b digits IH]; intros value; [done|]. cbn [radix_16].
  apply returns_obind; [apply returns_ok_or|]. intros d _. apply returns_obind; [apply returns_ok_or|]. intros ? _. apply IH.
Qed.
Lemma returns_parse_hresult value : returns (parse_hresult value).
Proof.
  unfold parse_hresult. destruct (strip_0x (str value)) as [hex|]; cbn; [|done].
  destruct (_ || _); [done|]. apply returns_map_err, returns_radix_16.
Qed.

(** ** Reports *)

Definition known_states : list (string * VirtualDisplayState.t) :=
  [("ready", VirtualDisplayState.Ready); ("enabling", VirtualDisplayState.Enabling);
   ("enabled", VirtualDisplayState.Enabled); ("disabling", VirtualDisplayState.Disabling);
   ("failed", VirtualDisplayState.Failed); ("stopping", VirtualDisplayState.Stopping);
   ("unavailable", VirtualDisplayState.ServiceStopped)].

(** A report of this protocol, with two result codes and a device identifier
    Windows could have given. *)
Definition report_valid (r : ControllerReport.t) : Prop :=
  ControllerReport.protocol_version r = CONTROLLER_PROTOCOL_VERSION /\
  is_Some (hresult_value (ControllerReport.request_result r)) /\
  is_Some (hresult_value (ControllerReport.last_error r)) /\
  utf16_units (ControllerReport.device_instance_id r) < 260.

Lemma parse_hresult_some value : succeeds (parse_hresult value) <-> is_Some (hresult_value value).
Proof. split; intros [v Hv]; exists v; by apply parse_hresult_spec. Qed.

Lemma validate_report_spec r : returns (validate_report r) /\ (validate_report r = Ok tt <-> report_valid r).
Proof.
  unfold validate_report, report_valid. destruct (Z.eqb_spec (ControllerReport.protocol_version r) CONTROLLER_PROTOCOL_VERSION) as [Hv|]; cbn [negb];
    [|naive_solver].
  pose proof (returns_parse_hresult (ControllerReport.request_result r)) as H1.
  pose proof (returns_parse_hresult (ControllerReport.last_error r)) as H2.
  rewrite <-!parse_hresult_some.
  destruct (parse_hresult (ControllerReport.request_result r)) as [a|e1|f1]; cbn [obind]; [|unfold succeeds; naive_solver|done].
  destruct (parse_hresult (ControllerReport.last_error r)) as [b|e2|f2]; cbn [obind]; [|unfold succeeds; naive_solver|done].
  destruct (Z.leb_spec 260 (utf16_units (ControllerReport.device_instance_id r))); (split; [done|]).
  - split; [done|]. intros (_ & _ & _ & Hu). lia.
  - split; [|done]. intros _. split; [done|]. split; [by exists a|]. by split; [exists b|].
Qed.

(** What state a report stands for. *)
Definition state_of (r : ControllerReport.t) : option VirtualDisplayState.t :=
  if negb (ControllerReport.service_installed r) then Some VirtualDisplayState.NotInstalled
  else if negb (bool_decide (ControllerReport.service_state r = "running")) then Some VirtualDisplayState.ServiceStopped
  else snd <$> List.find (fun p => bool_decide (fst p = ControllerReport.state r)) known_states.

Lemma reported_state_spec r : returns (reported_state r) /\ forall s, reported_state r = Ok s <-> state_of r = Some s.
Proof.
  unfold reported_state, state_of. destruct (negb (ControllerReport.service_installed r)).
  { split; [done|]. intros s. by split; intros [= <-]. }
  destruct (negb (bool_decide (ControllerReport.service_state r = "running"))).
  { split; [done|]. intros s. by split; intros [= <-]. }
  cbv zeta.
  generalize (ControllerReport.state r). intros st.
  repeat match goal with
  | |- context [bool_decide (st = ?x)] =>
    destruct (decide (st = x)) as [->|?]; [vm_compute; split; [done|]; intros s; by split; intros [= <-]|rewrite (bool_decide_eq_false_2 (st = x)) by done]
  end.
  assert (List.find (fun p => bool_decide (fst p = st)) known_states = None) as ->; [|cbn; split; [done|]; intros s; by split].
  unfold known_states. cbn [List.find fst]. by repeat rewrite bool_decide_eq_false_2 by done.
Qed.

Lemma state_detail_returns r s e : state_of r = Some s -> returns (state_detail s e).
Proof.
  unfold state_of. intros Hs. destruct s; try done; exfalso; revert Hs;
    destruct (negb (ControllerReport.service_installed r)); try done; destruct (negb (bool_decide _)); try done;
    unfold known_states; cbn [List.find fst]; by repeat (destruct (bool_decide _); [done|]).
Qed.

(** A controller's report gives a status exactly if it is of this protocol, its
    two result codes have the form of an HRESULT, its device identifier is of a
    length Windows allows, and its state is known where the service runs; no report
    makes the code panic. The display counts as enabled exactly if the service is
    installed, runs, and says so. *)
Theorem controller_reports_are_read_exactly r :
  returns (status_from_report r) /\
  (succeeds (status_from_report r) <-> report_valid r /\ is_Some (state_of r)) /\
  forall s, status_from_report r = Ok s ->
    state_of r = Some (VirtualDisplayStatus.state s) /\
    VirtualDisplayStatus.generation s = ControllerReport.generation r /\
    (VirtualDisplayStatus.last_error s = None <-> ControllerReport.last_error r = SUCCESS_HRESULT) /\
    (VirtualDisplayStatus.enabled s = true <->
     ControllerReport.service_installed r = true /\ ControllerReport.service_state r = "running" /\
     ControllerReport.state r = "enabled").
Proof.
  unfold status_from_report. destruct (validate_report_spec r) as [Hvr Hv]. destruct (reported_state_spec r) as [Hrr Hs].
  destruct (validate_report r) as [[]|e|f]; cbn [obind]; [|split; [done|]; split; [|done]; split; [by intros []|]; by intros [?%Hv _]|done].
  assert (Hvalid : report_valid r) by by apply Hv.
  destruct (reported_state r) as [state|e|f]; cbn [obind]; [| |done].
  2: { split; [done|]. split; [|done]. split; [by intros []|]. intros [_ [s Hst%Hs]]. done. }
  specialize (proj1 (Hs state) eq_refl) as Hst. set (last := if negb _ then _ else None).
  pose proof (state_detail_returns r state last Hst) as Hd.
  destruct (state_detail state last) as [detail|e|f] eqn:Hdetail; cbn [obind]; [| |done].
  2: { exfalso. by destruct state. }
  split; [done|]. split; [split; [by split|by eexists]|]. intros s [= <-]. cbn. split; [done|]. split; [done|]. split.
  - unfold last. by case_bool_decide; cbn; split.
  - rewrite bool_decide_eq_true. clear -Hst. revert Hst. unfold state_of.
    destruct (ControllerReport.service_installed r); cbn [negb]; [|by intros [= <-]; split; [|intros []]].
    destruct (decide (ControllerReport.service_state r = "running")) as [->|Hne].
    2: { rewrite bool_decide_eq_false_2 by done. cbn. intros [= <-]. split; [done|]. by intros (_ & ? & _). }
    rewrite bool_decide_eq_true_2 by done. cbn [negb].
    destruct (decide (ControllerReport.state r = "enabled")) as [->|Hne]; [by intros [= <-]|].
    intros Hf. split; [intros ->|by intros (_ & _ & ?)]. exfalso.
    destruct (List.find _ known_states) as [[name st]|] eqn:Hfind; [|discriminate Hf]. injection Hf as ->.
    apply List.find_some in Hfind as [Hin Hname%bool_decide_eq_true]. cbn [fst] in Hname. subst name.
    unfold known_states in Hin. cbn [In] in Hin. apply Hne. clear Hne. intuition congruence.
Qed.

(** ** The controller's process

    What a call does to processes, and the monitors it sees. *)
Inductive ControlEntry : Type :=
| Launched (command : string) (child : option nat)
| Polled (child : nat)
| Collected (child : nat) (output : option ChildOutput.t)
| Killed (child : nat)
| WaitedFor (child : nat)
| Monitors (displays : outcome string (list DisplaySource.t)).

Definition ok_of {E A} (r : outcome E A) : option A := match r with Ok a => Some a | _ => None end.
Definition logged {W A} (log : list ControlEntry) (answer : W * A) : (W * list ControlEntry) * A := (fst answer, log, snd answer).

#[export] Instance recording_controller `{ControllerOs W} : ControllerOs (W * list ControlEntry) := {
  env_override w := logged (snd w) (env_override (fst w));
  exe_directory w := logged (snd w) (exe_directory (fst w));
  is_file path w := logged (snd w) (is_file path (fst w));
  spawn path command w := let r := spawn path command (fst w) in logged (snd w ++ [Launched command (ok_of (snd r))]) r;
  try_wait child w := logged (snd w ++ [Polled child]) (try_wait child (fst w));
  wait_with_output child w := let r := wait_with_output child (fst w) in logged (snd w ++ [Collected child (ok_of (snd r))]) r;
  kill_child child w := (kill_child child (fst w), snd w ++ [Killed child]);
  wait_child child w := (wait_child child (fst w), snd w ++ [WaitedFor child]);
}.
#[export] Instance recording_monitors `{DisplayOs W} : DisplayOs (W * list ControlEntry) := {
  enum_display_monitors w :=
    let r := enum_display_monitors (fst w) in logged (snd w ++ [Monitors (enumerate_display_sources (snd r))]) r;
  current_mode w name := logged (snd w) (current_mode (fst w) name);
  mode_at w name i := logged (snd w) (mode_at (fst w) name i);
  change_display_settings w name mode flags := logged (snd w) (change_display_settings (fst w) name mode flags);
  now w := logged (snd w) (now (fst w));
  sleep w d := (sleep (fst w) d, snd w);
}.

(** At most one process; it is polled while it lives, and collected, or killed and
    waited for. *)
Inductive Process : Type :=
| NotStarted
| Alive (command : string) (child : nat)
| Dying (child : nat)
| Over (command : option string) (output : option ChildOutput.t).

Definition process_step (p : Process) (e : ControlEntry) : option Process :=
  match p, e with
  | _, Monitors _ => Some p
  | NotStarted, Launched command (Some child) => Some (Alive command child)
  | NotStarted, Launched _ None => Some (Over None None)
  | Alive command child, Polled child' => if decide (child' = child) then Some p else None
  | Alive command child, Collected child' output => if decide (child' = child) then Some (Over (Some command) output) else None
  | Alive command child, Killed child' => if decide (child' = child) then Some (Dying child) else None
  | Dying child, WaitedFor child' => if decide (child' = child) then Some (Over None None) else None
  | _, _ => None
  end.
Definition process (log : list ControlEntry) : option Process :=
  fold_left (fun p e => p ← p; process_step p e) log (Some NotStarted).
Lemma process_snoc log e : process (log ++ [e]) = (p ← process log; process_step p e).
Proof. unfold process. by rewrite fold_left_app. Qed.

Section processes.
Context {W : Type} `{ControllerBuild} `{DisplayOs W} `{ControllerOs W}.
Implicit Types (p : Process) (child : nat).

Definition proc (p : Process) (w : W * list ControlEntry) : Prop := process (snd w) = Some p.

Lemma proc_snoc p w e p' : proc p w -> process_step p e = Some p' -> process (snd w ++ [e]) = Some p'.
Proof. unfold proc. intros Hw Hs. by rewrite process_snoc, Hw. Qed.

(** No process is left behind. *)
Definition ended (w : W * list ControlEntry) : Prop :=
  exists p, proc p w /\ (p = NotStarted \/ exists command output, p = Over command output).

(** What a controller that answered has said. *)
Definition answered (command : string) (outcome : ControllerOutcome.t) (output : ChildOutput.t) : Prop :=
  report_from_json (trim (ChildOutput.stdout output)) = Ok (ControllerOutcome.report outcome) /\
  utf8_valid (ChildOutput.stdout output) = true /\
  report_valid (ControllerOutcome.report outcome) /\
  ControllerOutcome.process_succeeded outcome = ChildOutput.success output.
Definition controlled (command : string) (r : outcome string ControllerOutcome.t) (w : W * list ControlEntry) : Prop :=
  match r with
  | Ok outcome => exists output, proc (Over (Some command) (Some output)) w /\ answered command outcome output
  | Err _ => ended w
  | Fault _ => True
  end.

Lemma keeps_clock_read {E} p : keeps (proc p) (now_io (E:=E)).
Proof. by intros w Hw. Qed.
Lemma keeps_displays p : keeps (proc p) displays_io.
Proof. intros w Hw. eapply proc_snoc; [exact Hw|]. by destruct p. Qed.
Hint Resolve keeps_clock_read keeps_displays : io.

Lemma kill_ends command child e : run_of (proc (Alive command child)) (let* _ := kill_and_wait child in ifail e) (controlled command).
Proof.
  intros w Hw. exists (Over None None). split; [|right; by exists None, None].
  assert (Hk : proc (Dying child) (kill_child child w)).
  { eapply proc_snoc; [exact Hw|]. cbn. by rewrite decide_True. }
  eapply proc_snoc; [exact Hk|]. cbn. by rewrite decide_True.
Qed.

Lemma collect_ends command child : run_of (proc (Alive command child)) (collect_output child) (controlled command).
Proof.
  unfold collect_output.
  eapply run_bind with (R := fun r w => match r with
      | Ok output => proc (Over (Some command) (Some output)) w | _ => ended w end); [|done|done|].
  { intros w Hw. unfold imap_err. cbn [wait_with_output recording_controller].
    pose proof (proc_snoc _ w (Collected child (ok_of (snd (wait_with_output child (fst w))))) _ Hw
      ltac:(cbn; rewrite decide_True by done; reflexivity)) as Hs.
    unfold logged. cbv zeta. destruct (wait_with_output child (fst w)) as [w' [output|e|f]]; cbn [fst snd map_err ok_of] in *;
      [exact Hs|..]; (eexists; split; [exact Hs|right; by eexists _, _]). }
  intros output w Hw. unfold ibind, ilift.
  assert (Hover : ended w) by (eexists; split; [exact Hw|right; by eexists _, _]).
  destruct (utf8_valid (ChildOutput.stdout output)) eqn:Hutf; cbn [fst snd]; [|exact Hover].
  destruct (report_from_json _) as [report|e|f] eqn:Hjson; cbn [map_err fst snd]; [|exact Hover|done].
  destruct (validate_report_spec report) as [_ Hv]. destruct (validate_report report) as [[]|e|f]; cbn [fst snd]; [|exact Hover|done].
  exists output. split; [exact Hw|]. split; [exact Hjson|]. split; [exact Hutf|]. split; [by apply Hv|done].
Qed.

Lemma await_child_ends fuel child command timeout deadline :
  run_of (proc (Alive command child)) (await_child fuel child command timeout deadline) (controlled command).
Proof.
  induction fuel as [|fuel IH]; cbn [await_child]; [by intros w Hw|].
  eapply run_bind with (R := fun r w => match r with Ok _ => proc (Alive command child) w | Err _ => False | Fault _ => True end).
  { intros w Hw. unfold icatch. cbn [try_wait recording_controller].
    pose proof (proc_snoc _ w (Polled child) _ Hw ltac:(cbn; rewrite decide_True by done; reflexivity)) as Hs.
    unfold logged. cbv zeta. by destruct (try_wait child (fst w)) as [w' []]. }
  1: by intros ?? []. 1: done.
  intros [[]|e|f]; [apply collect_ends| |apply kill_ends|done].
  intros w Hw. unfold now_io, ibind, iput. destruct (now w) as [w1 t] eqn:Hnow.
  assert (Hw1 : proc (Alive command child) w1) by (injection Hnow as <- <-; exact Hw).
  destruct (t <? deadline); [by apply (IH (sleep w1 PROCESS_POLL_INTERVAL))|by apply (kill_ends command child _ w1)].
Qed.

Lemma run_controller_ends path command timeout :
  run_of (proc NotStarted) (run_controller path command timeout) (controlled command).
Proof.
  unfold run_controller.
  eapply run_bind with (R := fun r w => match r with Ok child => proc (Alive command child) w | _ => ended w end); [|done|done|].
  { intros w Hw. unfold imap_err. cbn [spawn recording_controller].
    pose proof (fun p' => proc_snoc _ w (Launched command (ok_of (snd (spawn path command (fst w))))) p' Hw) as Hs.
    unfold logged. cbv zeta. destruct (spawn path command (fst w)) as [w' [child|e|f]]; cbn [fst snd map_err ok_of] in *;
      specialize (Hs _ eq_refl); [exact Hs|..]; (eexists; split; [exact Hs|right; by eexists _, _]). }
  intros child w Hw. unfold now_io, ibind, ilift. destruct (now w) as [w1 t] eqn:Hnow.
  assert (Hw1 : proc (Alive command child) w1) by (injection Hnow as <- <-; exact Hw).
  unfold Duration.add, Duration.checked_add. destruct (_ <=? _); [|done]. by apply await_child_ends.
Qed.

Lemma keeps_first_file paths p : keeps (proc p) (first_file paths).
Proof.
  induction paths as [|path paths IH]; [by intros w Hw|]. intros w Hw. cbn [first_file is_file recording_controller].
  unfold logged. cbv zeta. destruct (snd (is_file path (fst w))); [exact Hw|by apply IH].
Qed.
Lemma keeps_find_controller p : keeps (proc p) find_controller.
Proof.
  intros w Hw. unfold find_controller. cbn [env_override exe_directory recording_controller]. unfold logged.
  destruct debug_assertions; cbn [fst snd]; by apply keeps_first_file.
Qed.

(** ** The truth of a report *)
Notation Cache := (option CachedStatus.t).
Notation World := (Cache * (W * list ControlEntry))%type.

(** The controller ended well and said that the request succeeded. *)
Definition told (command : string) (good : VirtualDisplayStatus.t -> Prop) (s : World) : Prop :=
  exists outcome output status code,
    proc (Over (Some command) (Some output)) (snd s) /\ answered command outcome output /\
    ChildOutput.success output = true /\ status_from_report (ControllerOutcome.report outcome) = Ok status /\ good status /\
    hresult_value (ControllerReport.request_result (ControllerOutcome.report outcome)) = Some code /\
    Z.land code 0x80000000 = 0.
(** And the last look at the monitors is one of [seen]. *)
Definition switched (command : string) (good : VirtualDisplayStatus.t -> Prop) (seen : list DisplaySource.t -> Prop)
  (s : World) : Prop :=
  told command good s /\ exists displays log, snd (snd s) = log ++ [Monitors (Ok displays)] /\ seen displays.

(** What a call leaves: its process is over, what it reports is in the cache, and
    what it claims was seen. *)
Definition action_ends (command : string) (good : VirtualDisplayStatus.t -> Prop) (seen : option string -> list DisplaySource.t -> Prop)
  (r : outcome string VirtualDisplayActionReport.t) (s : World) : Prop :=
  match r with
  | Ok report =>
    ended (snd s) /\ (exists t, fst s = Some (CachedStatus.mk t (VirtualDisplayActionReport.status report))) /\
    (if VirtualDisplayActionReport.passed report
     then switched command good (seen (VirtualDisplayActionReport.selected_display_id report)) s
     else VirtualDisplayActionReport.selected_display_id report = None)
  | Err _ => ended (snd s)
  | Fault _ => True
  end.

Lemma report_ends command good seen (passed : bool) status selected started s :
  ended (snd s) -> (if passed then switched command good (seen selected) s else selected = None) ->
  action_ends command good seen (snd (report_status passed status selected started s)) (fst (report_status passed status selected started s)).
Proof.
  destruct s as [cache [w log]]. intros He Hp. unfold report_status, store_status, action_report, now_io, on_world, ibind, iput, iret. cbn.
  unfold logged. cbn [fst snd]. split; [exact He|]. split; [by eexists|]. destruct passed; [exact Hp|done].
Qed.

Lemma told_ended command good s : told command good s -> ended (snd s).
Proof. intros (outcome & output & status & code & Hp & _). eexists. split; [exact Hp|right; by eexists _, _]. Qed.

Lemma told_moves command good (s s' : World) :
  (forall p, proc p (snd s) -> proc p (snd s')) -> told command good s -> told command good s'.
Proof. intros Hp (outcome & output & status & code & Hs & Hrest). exists outcome, output, status, code. split; [by apply Hp|exact Hrest]. Qed.

(** A look at the monitors. *)
Lemma look_ends command good :
  run_of (told command good) (icatch (F:=string) (on_world displays_io))
    (fun r s => match r with
                | Ok (Ok displays) => switched command good (fun seen => seen = displays) s
                | Ok _ => told command good s
                | Err _ => False
                | Fault _ => True
                end).
Proof.
  intros [cache w] Ht. unfold icatch, on_world, displays_io. cbn [fst snd enum_display_monitors recording_monitors]. unfold logged. cbv zeta.
  destruct (enum_display_monitors (fst w)) as [w' e]. cbn [fst snd].
  assert (Ht' : told command good (cache, (w', snd w ++ [Monitors (enumerate_display_sources e)]))).
  { apply (told_moves command good (cache, w)); [|done]. intros p Hp. eapply proc_snoc; [exact Hp|]. by destruct p. }
  destruct (enumerate_display_sources e) as [displays|error|f] eqn:He; cbn [fst snd]; [|exact Ht'|done].
  split; [exact Ht'|]. by exists displays, (snd w).
Qed.

Lemma keeps_told_now {E} command good : keeps (told command good) (on_world (now_io (E:=E))).
Proof. intros [cache w] Ht. unfold on_world, now_io. cbn. by apply (told_moves command good (cache, w)). Qed.

(** Nothing was switched. *)
Lemma unswitched command good seen status started s :
  ended (snd s) -> action_ends command good seen (snd (report_status false status None started s)) (fst (report_status false status None started s)).
Proof. intros He. by apply report_ends. Qed.

Definition appeared (selected : option string) (displays : list DisplaySource.t) : Prop :=
  exists display, display ∈ displays /\ DisplaySource.virtual_display display = true /\ selected = Some (DisplaySource.id display).

Lemma await_monitor_ends fuel baseline_ids status deadline started :
  let good s := VirtualDisplayStatus.enabled s = true in
  run_of (told "start" good) (await_monitor fuel baseline_ids status deadline started) (action_ends "start" good appeared).
Proof.
  intros good. induction fuel as [|fuel IH]; cbn [await_monitor]; [by intros s Hs|]. cbv zeta.
  assert (Hmore : run_of (told "start" good)
    (let* t := on_world now_io in
      if deadline <=? t then
        report_status false (with_detail status
          "The service enabled the software device, but no active LadoFlow HMONITOR appeared within 12 seconds. Check driver installation and Device Manager.")
          None started
      else
        let* _ := iput (fun s => (fst s, sleep (snd s) MONITOR_POLL_INTERVAL)) in
        await_monitor fuel baseline_ids status deadline started) (action_ends "start" good appeared)).
  { eapply run_bind with (R := fun _ => told "start" good); [apply keeps_told_now|intros ??; apply told_ended|done|]. intros t.
    destruct (deadline <=? t); [intros s Hs; eapply unswitched, told_ended, Hs|].
    eapply run_bind with (R := fun _ => told "start" good); [|intros ??; apply told_ended|done|]. 2: { intros ?. apply IH. }
    intros [cache w] Ht. by apply (told_moves "start" good (cache, w)). }
  eapply run_bind; [apply look_ends|by intros ?? []|by intros ??|]. intros [displays|e|f]; [| |by intros s ?].
  - destruct (List.find DisplaySource.virtual_display displays) as [display|] eqn:Hfind; [|intros s [Ht _]; by apply Hmore].
    intros s [Ht (seen & log & Hlog & ->)]. apply report_ends; [by eapply told_ended|]. split; [done|].
    exists displays, log. split; [exact Hlog|]. exists display. apply List.find_some in Hfind as [Hin Hv].
    split; [by apply list_elem_of_In|]. by split.
  - eapply run_bind with (R := fun _ => told "start" good); [apply keeps_told_now|intros ??; apply told_ended|done|]. intros t.
    destruct (deadline <=? t); [intros s Hs; eapply unswitched, told_ended, Hs|]. apply Hmore.
Qed.

Definition gone (selected : option string) (displays : list DisplaySource.t) : Prop :=
  selected = None /\ Forall (fun d => DisplaySource.virtual_display d = false) displays.

Lemma await_removal_ends fuel changed status deadline started :
  run_of (told "stop" (fun _ => True)) (await_removal fuel changed status deadline started)
    (action_ends "stop" (fun _ => True) gone).
Proof.
  induction fuel as [|fuel IH]; cbn [await_removal]; [by intros s Hs|].
  eapply run_bind; [apply look_ends|by intros ?? []|by intros ??|]. intros displays. cbv zeta.
  assert (Hmore : run_of (told "stop" (fun _ => True)) (let* t := on_world now_io in
      if t <? deadline then
        let* _ := iput (fun s => (fst s, sleep (snd s) MONITOR_POLL_INTERVAL)) in
        await_removal fuel changed status deadline started
      else
        match displays with
        | Ok _ => report_status false (with_detail status
            "The service closed the software-device handle, but Windows still reported the virtual monitor after 8 seconds.") None started
        | Err error => report_status false (with_detail status
            ("The service disabled the device, but monitor removal could not be verified: " +:+ error)) None started
        | Fault f => ifault f
        end) (action_ends "stop" (fun _ => True) gone)).
  { eapply run_bind with (R := fun _ => told "stop" (fun _ => True)); [apply keeps_told_now|intros ??; apply told_ended|done|]. intros t.
    destruct (t <? deadline); [|intros s Hs; destruct displays; [eapply unswitched, told_ended, Hs..|done]].
    eapply run_bind with (R := fun _ => told "stop" (fun _ => True)); [|intros ??; apply told_ended|done|]. 2: { intros ?. apply IH. }
    intros [cache w] Ht. by apply (told_moves "stop" (fun _ => True) (cache, w)). }
  destruct displays as [displays|e|f]; [|exact Hmore..].
  destruct (forallb _ displays) eqn:Hall; [|intros s [Ht _]; by apply Hmore].
  intros s [Ht (seen & log & Hlog & ->)]. apply report_ends; [by eapply told_ended|]. split; [done|].
  exists displays, log. split; [exact Hlog|]. split; [done|].
  rewrite Forall_forall. intros d Hd%list_elem_of_In. rewrite forallb_forall in Hall. specialize (Hall d Hd).
  by destruct (DisplaySource.virtual_display d).
Qed.

(** The world of a call that starts: no process yet. *)
Definition fresh (s : World) : Prop := proc NotStarted (snd s).
Lemma fresh_ended s : fresh s -> ended (snd s).
Proof. intros Hs. exists NotStarted. split; [exact Hs|by left]. Qed.
Lemma keeps_fresh {E A} (m : io (W * list ControlEntry) E A) : keeps (proc NotStarted) m -> keeps fresh (on_world m).
Proof. intros Hm [cache w] Hs. specialize (Hm w Hs). unfold on_world, fresh. cbn. by destruct (m w). Qed.

Lemma run_ends path command timeout :
  run_of fresh (on_world (run_controller path command timeout)) (fun r s => controlled command r (snd s)).
Proof.
  intros [cache w] Hs. pose proof (run_controller_ends path command timeout w Hs) as Hr. unfold on_world. cbn [fst snd].
  by destruct (run_controller path command timeout w).
Qed.

(** From the controller's answer to the loop over the monitors. *)
Lemma told_by command good outcome output status (s : World) :
  proc (Over (Some command) (Some output)) (snd s) -> answered command outcome output ->
  status_from_report (ControllerOutcome.report outcome) = Ok status -> good status ->
  ControllerOutcome.process_succeeded outcome = true ->
  hresult_succeeded (ControllerReport.request_result (ControllerOutcome.report outcome)) = Ok true ->
  told command good s.
Proof.
  intros Hp Ha Hs Hg Ho Hr. unfold hresult_succeeded in Hr. apply obind_ok_inv in Hr as (code & Hc%parse_hresult_spec & E).
  injection E as E%Z.eqb_eq. exists outcome, output, status, code. split_and!; try done. destruct Ha as (_ & _ & _ & <-). done.
Qed.

(** What follows an answer of the controller that is accepted. *)
Lemma deadline_ends command good (timeout : Z) (k : Z -> io World string VirtualDisplayActionReport.t) seen :
  (forall deadline, run_of (told command good) (k deadline) (action_ends command good seen)) ->
  run_of (told command good) (let* t := on_world now_io in let* deadline := ilift (Duration.add t timeout) in k deadline)
    (action_ends command good seen).
Proof.
  intros Hk. eapply run_bind with (R := fun _ => told command good); [apply keeps_told_now|intros ??; apply told_ended|done|].
  intros t. eapply run_bind_lift; [intros ? _; apply Hk|intros ??; apply told_ended|done].
Qed.

(** The controller has answered; its output is at hand. *)
Definition heard (command : string) (output : ChildOutput.t) (s : World) : Prop :=
  proc (Over (Some command) (Some output)) (snd s).
Lemma heard_ended command output s : heard command output s -> ended (snd s).
Proof. intros Hs. eexists. split; [exact Hs|right; by eexists _, _]. Qed.

Lemma launch_ends path command timeout (k : ControllerOutcome.t -> io World string VirtualDisplayActionReport.t) good seen :
  (forall outcome output, answered command outcome output -> run_of (heard command output) (k outcome) (action_ends command good seen)) ->
  run_of fresh (let* outcome := on_world (run_controller path command timeout) in k outcome) (action_ends command good seen).
Proof.
  intros Hk. eapply run_bind; [apply run_ends|done|done|]. intros outcome s (output & Hp & Ha). by apply (Hk outcome output Ha).
Qed.

Lemma disable_ends : run_of fresh disable (action_ends "stop" (fun _ => True) gone).
Proof.
  unfold disable. eapply run_bind with (R := fun _ => fresh); [apply keeps_fresh, keeps_clock_read|intros ??; apply fresh_ended|done|].
  intros started. eapply run_bind with (R := fun _ => fresh); [apply keeps_fresh, keeps_find_controller|intros ??; apply fresh_ended|done|].
  intros [controller|]; [|intros s Hs; apply unswitched; by apply fresh_ended].
  apply launch_ends. intros outcome output Ha. cbv zeta.
  eapply run_bind_lift; [|intros ??; apply heard_ended|done]. intros status Hstatus.
  eapply run_bind with (R := fun r s => heard "stop" output s /\ match r with
      | Ok true => ControllerOutcome.process_succeeded outcome = true /\
          hresult_succeeded (ControllerReport.request_result (ControllerOutcome.report outcome)) = Ok true
      | _ => True end).
  { intros s Hs. destruct (ControllerOutcome.process_succeeded outcome); (split; [exact Hs|]); cbn; [|done].
    by destruct (hresult_succeeded _) as [[]| |]. }
  1: by intros s e [? _]; eapply heard_ended. 1: done.
  intros [] s [Hs Hok]; [|apply unswitched; by eapply heard_ended]. cbn [negb].
  refine (deadline_ends "stop" (fun _ => True) MONITOR_REMOVE_TIMEOUT _ gone _ s _); [intros deadline; apply await_removal_ends|].
  destruct Hok. by eapply told_by.
Qed.

Lemma enable_ends : run_of fresh enable (action_ends "start" (fun s => VirtualDisplayStatus.enabled s = true) appeared).
Proof.
  unfold enable. eapply run_bind with (R := fun _ => fresh); [apply keeps_fresh, keeps_clock_read|intros ??; apply fresh_ended|done|].
  intros started. eapply run_bind with (R := fun _ => fresh); [|intros ??; apply fresh_ended|done|].
  { apply keeps_catch, keeps_fresh, keeps_displays. }
  intros baseline. cbv zeta.
  eapply run_bind with (R := fun _ => fresh); [apply keeps_fresh, keeps_find_controller|intros ??; apply fresh_ended|done|].
  intros [controller|]; [|intros s Hs; apply unswitched; by apply fresh_ended].
  apply launch_ends. intros outcome output Ha. cbv zeta.
  eapply run_bind_lift; [|intros ??; apply heard_ended|done]. intros status Hstatus.
  eapply run_bind with (R := fun r s => heard "start" output s /\ match r with
      | Ok true => ControllerOutcome.process_succeeded outcome = true /\
          hresult_succeeded (ControllerReport.request_result (ControllerOutcome.report outcome)) = Ok true /\
          VirtualDisplayStatus.enabled status = true
      | _ => True end).
  { intros s Hs. destruct (ControllerOutcome.process_succeeded outcome); [|by split]. unfold ibind, ilift.
    destruct (hresult_succeeded _) as [[]| |]; cbn; (split; [exact Hs|]); try done. by destruct (VirtualDisplayStatus.enabled status). }
  1: by intros s e [? _]; eapply heard_ended. 1: done.
  intros [] s [Hs Hok]; [|apply unswitched; by eapply heard_ended]. cbn [negb].
  refine (deadline_ends "start" _ MONITOR_APPEAR_TIMEOUT _ appeared _ s _); [intros deadline; apply await_monitor_ends|].
  destruct Hok as (? & ? & ?). by eapply told_by.
Qed.
End processes.

(** ** Time *)

(** Documented behaviour of processes: asking takes time, and nothing panics. *)
Class ControllerOsLaws (W : Type) `{DisplayOsLaws W} `{ControllerOs W} `{ControllerBuild} : Prop := {
  clock_spawn path command w : clock w <= clock (fst (spawn path command w));
  clock_try_wait child w : clock w <= clock (fst (try_wait child w));
  spawn_returns path command w : returns (snd (spawn path command w));
  try_wait_returns child w : returns (snd (try_wait child w));
  output_returns child w : returns (snd (wait_with_output child w));
  json_returns text : returns (report_from_json text);
}.

Section deadlines.
Context {W : Type} `{ControllerOsLaws W}.
Notation Cache := (option CachedStatus.t).

Definition not_before (c : Z) (w : W) : Prop := c <= clock w.
Definition late (w : W) : Prop := 2 ^ 80 <= clock w.
Notation answering := (answering late).
Notation anything := (fun _ _ => True).

Lemma clock_now_answers {E} c : run_of (not_before c) (now_io (E:=E)) (answering (fun t w => not_before t w /\ c <= t)).
Proof. intros w Hw. unfold now_io, not_before in *. pose proof (clock_now w). destruct (now w); cbn in *. lia. Qed.

Lemma deadline_answers {A} c t timeout P (k : Z -> io W string A) Q :
  timeout <= 2 ^ 70 -> c <= t ->
  run_of P (k (t + timeout)) (answering Q) -> (forall w, P w -> not_before t w) ->
  run_of P (let* deadline := ilift (Duration.add t timeout) in k deadline) (answering Q).
Proof.
  intros Ht Hc Hk Hp w Hw. unfold ibind, ilift, Duration.add, Duration.checked_add, Duration.MAX.
  destruct (Z.leb_spec (t + timeout) ((2 ^ 64 - 1) * 1000000000 + 999999999)); cbn [expect]; [by apply Hk|].
  cbn. specialize (Hp w Hw). unfold late, not_before in *. lia.
Qed.

Lemma collect_answers P child : run_of P (collect_output child) (answering anything).
Proof.
  apply answers. intros w. unfold collect_output. apply returns_ibind; [apply returns_imap_err, output_returns|]. intros output w1.
  apply returns_ibind; [cbn; by destruct (utf8_valid _)|]. intros stdout w2.
  apply returns_ibind; [cbn; apply returns_map_err, json_returns|]. intros report w3.
  apply returns_ibind; [apply validate_report_spec|done].
Qed.

Lemma await_child_answers n c child command timeout deadline :
  deadline <= c + Z.of_nat n * PROCESS_POLL_INTERVAL ->
  run_of (not_before c) (await_child (S n) child command timeout deadline) (answering anything).
Proof.
  revert c. induction n as [|n IH]; intros c Hc; cbn [await_child];
    (eapply bind_answering with (R := fun r w => returns r /\ not_before c w);
      [intros w Hw; unfold icatch, not_before in *; pose proof (clock_try_wait child w); pose proof (try_wait_returns child w);
       destruct (try_wait child w) as [w' []]; cbn in *; (split; [done|lia]) || done|]);
    (intros [[]|e|f]; [intros w _; by apply (collect_answers (fun _ => True))| |by intros w _|by intros w []]);
    (intros w [_ Hw]; revert w Hw; eapply bind_answering; [apply clock_now_answers|]; intros t; cbv beta;
     destruct (Z.ltb_spec t deadline); [|by intros w _]).
  - intros w [_ Ht]. lia.
  - eapply bind_answering with (R := fun _ => not_before (c + PROCESS_POLL_INTERVAL)).
    + intros w [Hw Ht]. unfold not_before, iput in *. cbn. pose proof (clock_sleep w PROCESS_POLL_INTERVAL). lia.
    + intros ?. apply IH. lia.
Qed.

Lemma rounds_enough t timeout interval : 0 < interval -> 0 <= timeout ->
  t + timeout <= t + Z.of_nat (S (Z.to_nat (timeout / interval))) * interval.
Proof.
  intros Hi Ht. pose proof (Z.mul_succ_div_gt timeout interval Hi).
  rewrite Nat2Z.inj_succ, Z2Nat.id by (apply Z.div_pos; lia). lia.
Qed.

Lemma run_answers P path command timeout : 0 <= timeout <= 2 ^ 70 ->
  run_of P (run_controller path command timeout) (answering anything).
Proof.
  intros Ht w _. unfold run_controller. revert w.
  refine (fun w => (_ : run_of (not_before (clock w)) _ (answering anything)) w (Z.le_refl _)).
  eapply bind_answering with (R := fun _ => not_before (clock w)).
  { intros w' Hw. unfold imap_err, not_before in *. pose proof (clock_spawn path command w'). pose proof (spawn_returns path command w').
    destruct (spawn path command w') as [? []]; cbn in *; (done || lia). }
  intros child. eapply bind_answering; [apply clock_now_answers|]. intros t w' [Hw' Hct].
  refine (deadline_answers (clock w) t timeout (not_before t) (await_child _ child command timeout) anything _ Hct _ _ w' Hw'); [lia| |done].
  apply await_child_answers, rounds_enough; [done|lia].
Qed.

(** *** The calls *)
Definition late_world (s : Cache * W) : Prop := late (snd s).
Definition after (c : Z) (s : Cache * W) : Prop := not_before c (snd s).
Notation replies := (RustIo.answering late_world).

Lemma lifted {E A} (m : io W E A) (P : W -> Prop) Q :
  run_of P m (answering Q) -> run_of (fun s : Cache * W => P (snd s)) (on_world m) (replies (fun a s => Q a (snd s))).
Proof. intros Hm [cache w] Hw. specialize (Hm w Hw). unfold on_world. cbn [fst snd]. by destruct (m w) as [w' []]. Qed.
Lemma lifted_anywhere {E A} P (m : io W E A) : run_of (fun _ => True) m (answering anything) -> run_of P (on_world m) (replies anything).
Proof. intros Hm s _. exact (lifted m (fun _ => True) anything Hm s Logic.I). Qed.

Lemma returns_first_file paths w : returns (snd (first_file paths w)).
Proof.
  revert w. induction paths as [|path paths IH]; intros w; [done|]. cbn [first_file].
  destruct (is_file path w) as [w' []]; [done|apply IH].
Qed.
Lemma returns_find_controller w : returns (snd (find_controller w)).
Proof.
  unfold find_controller. destruct (if debug_assertions then env_override w else (w, None)) as [w1 overridden].
  destruct (exe_directory w1) as [w2 directory]. apply returns_first_file.
Qed.
Lemma returns_displays w : returns (snd (displays_io w)).
Proof.
  unfold displays_io. destruct (enum_display_monitors w) as [w' e]. cbn. unfold enumerate_display_sources.
  apply returns_obind; [apply enumerate_monitors_returns|done].
Qed.
Lemma returns_hresult_succeeded value : returns (hresult_succeeded value).
Proof. unfold hresult_succeeded. apply returns_obind; [apply returns_parse_hresult|done]. Qed.
Lemma returns_status report : returns (status_from_report report).
Proof.
  unfold status_from_report. apply returns_obind; [apply validate_report_spec|]. intros ? _. cbv zeta.
  apply returns_obind; [apply reported_state_spec|]. intros s Hs%reported_state_spec.
  apply returns_obind; [by eapply state_detail_returns|done].
Qed.

Lemma report_answers P passed status selected started : run_of P (report_status passed status selected started) (replies anything).
Proof.
  intros [cache w] _. unfold report_status, store_status, action_report, now_io, on_world, ibind, iput, iret. cbn.
  destruct (now w) as [w1 t]. cbn. by destruct (now w1).
Qed.

(** A look at the monitors, and the time after it. *)
Lemma look_answers c : run_of (after c) (icatch (F:=string) (on_world displays_io)) (replies (fun r s => returns r /\ after c s)).
Proof.
  intros [cache w] Hw. unfold icatch, on_world. cbn [fst snd]. pose proof (returns_displays w) as Hr. unfold displays_io in *.
  pose proof (clock_enum w). destruct (enum_display_monitors w) as [w' e]. unfold after, not_before in *. cbn in *.
  destruct (enumerate_display_sources e); cbn in *; (done || split; (done || lia)).
Qed.
Lemma clock_answers c : run_of (after c) (on_world (now_io (E:=string))) (replies (fun t s => after t s /\ c <= t)).
Proof. exact (lifted now_io (not_before c) (fun t w => not_before t w /\ c <= t) (clock_now_answers c)). Qed.
Lemma pause_answers c : run_of (after c) (iput (E:=string) (fun s => (fst s, sleep (snd s) MONITOR_POLL_INTERVAL)))
  (replies (fun _ => after (c + MONITOR_POLL_INTERVAL))).
Proof.
  intros [cache w] Hw. unfold after, not_before, iput in *. cbn in *. pose proof (clock_sleep w MONITOR_POLL_INTERVAL). lia.
Qed.

(** One round of a loop that looks again later. *)
Lemma poll_answers {A} c (test : Z -> bool) (at_end : Z -> io (Cache * W) string A) (again : io (Cache * W) string A) :
  (forall t, run_of (fun _ => True) (at_end t) (replies anything)) ->
  (forall t, c <= t -> test t = false -> run_of (after (c + MONITOR_POLL_INTERVAL)) again (replies anything)) ->
  run_of (after c)
    (let* t := on_world now_io in
     if test t then at_end t
     else let* _ := iput (fun s => (fst s, sleep (snd s) MONITOR_POLL_INTERVAL)) in again) (replies anything).
Proof.
  intros Hg Ha. eapply bind_answering; [apply clock_answers|]. intros t. cbv beta.
  destruct (test t) eqn:Ht; [intros s _; by apply Hg|]. intros s [Hs Hc].
  revert s Hs. refine (fun s Hs => (_ : run_of (after c) _ (replies anything)) s (Z.le_trans _ _ _ Hc Hs)).
  eapply bind_answering; [apply pause_answers|]. intros ?. by apply (Ha t).
Qed.

Lemma await_monitor_answers n c baseline_ids status deadline started :
  deadline <= c + Z.of_nat n * MONITOR_POLL_INTERVAL ->
  run_of (after c) (await_monitor (S n) baseline_ids status deadline started) (replies anything).
Proof.
  revert c. induction n as [|n IH]; intros c Hc; cbn [await_monitor]; cbv zeta;
    (eapply bind_answering; [apply look_answers|]; intros [displays|e|f]; cbv beta;
     [destruct (List.find _ displays); [apply report_answers|]; intros s [_ Hs]; revert s Hs|
      intros s [_ Hs]; revert s Hs;
      eapply bind_answering; [apply clock_answers|]; intros t; cbv beta; destruct (deadline <=? t); [apply report_answers|];
      intros s [Hs Hct]; assert (Hs' : after c s) by (unfold after, not_before in *; lia); clear Hs Hct; revert s Hs'|by intros s []]).
  all: apply poll_answers with (test := fun t => deadline <=? t); [intros ?; apply report_answers|];
    intros t' Hct' Hlt; apply Z.leb_gt in Hlt; try lia; apply IH; lia.
Qed.

Lemma await_removal_answers n c changed status deadline started :
  deadline <= c + Z.of_nat n * MONITOR_POLL_INTERVAL ->
  run_of (after c) (await_removal (S n) changed status deadline started) (replies anything).
Proof.
  revert c. induction n as [|n IH]; intros c Hc; cbn [await_removal]; cbv zeta;
    (eapply bind_answering; [apply look_answers|]; intros displays; cbv beta;
     destruct (match displays with Ok _ => _ | _ => _ end); [apply report_answers|]; intros s [Hr Hs]; revert s Hs;
     eapply bind_answering; [apply clock_answers|]; intros t; cbv beta; destruct (Z.ltb_spec t deadline);
     [|destruct displays; [apply report_answers..|done]]).
  - intros s [_ Hct]. lia.
  - intros s [Hs Hct]. assert (Hs' : after c s) by (unfold after, not_before in *; lia). revert s Hs Hct Hs'.
    refine (fun s _ _ Hs' => (_ : run_of (after c) _ (replies anything)) s Hs').
    eapply bind_answering; [apply pause_answers|]. intros ?. apply IH. lia.
Qed.

(** The command, its answer, and the loop over the monitors. *)
Lemma command_answers (timeout : Z) path command (k : ControllerOutcome.t -> io (Cache * W) string VirtualDisplayActionReport.t) :
  0 <= timeout <= 2 ^ 70 ->
  (forall outcome, run_of (fun _ => True) (k outcome) (replies anything)) ->
  run_of (fun _ => True) (let* outcome := on_world (run_controller path command timeout) in k outcome) (replies anything).
Proof. intros Ht Hk. eapply bind_answering; [by apply lifted_anywhere, run_answers|]. intros outcome s _. by apply Hk. Qed.

Lemma loop_answers patience (k : Z -> io (Cache * W) string VirtualDisplayActionReport.t) : patience <= 2 ^ 70 ->
  (forall t, run_of (after t) (k (t + patience)) (replies anything)) ->
  run_of (fun _ => True) (let* t := on_world now_io in let* deadline := ilift (Duration.add t patience) in k deadline) (replies anything).
Proof.
  intros Hp Hk s _. refine ((_ : run_of (after (clock (snd s))) _ (replies anything)) s (Z.le_refl _)).
  eapply bind_answering; [apply clock_answers|]. intros t s' [Hs _].
  unfold ibind, ilift, Duration.add, Duration.checked_add, Duration.MAX.
  destruct (Z.leb_spec (t + patience) ((2 ^ 64 - 1) * 1000000000 + 999999999)); cbn [expect]; [by apply Hk|].
  cbn. unfold late_world, late, after, not_before in *. lia.
Qed.

Notation anywhere m := (run_of (fun _ => True) m (replies anything)).
Lemma world_answers {E A B} (m : io W E A) (k : A -> io (Cache * W) E B) :
  (forall w, returns (snd (m w))) -> (forall a, anywhere (k a)) -> anywhere (ibind (on_world m) k).
Proof. intros Hm Hk. eapply bind_answering; [by apply lifted_anywhere, answers|]. intros a s _. by apply Hk. Qed.
Lemma lift_answers {E A B} (m : outcome E A) (k : A -> io (Cache * W) E B) :
  returns m -> (forall a, anywhere (k a)) -> anywhere (ibind (ilift m) k).
Proof. intros Hm Hk. eapply bind_answering; [by apply answers_lift|]. intros a s _. by apply Hk. Qed.
Lemma returns_now {E} w : returns (snd (now_io (E:=E) w)).
Proof. unfold now_io. by destruct (now w). Qed.

Lemma disable_answers : anywhere disable.
Proof.
  unfold disable. apply world_answers; [apply returns_now|]. intros started.
  apply world_answers; [apply returns_find_controller|]. intros [controller|]; [|apply report_answers].
  apply command_answers; [done|]. intros outcome. cbv zeta. apply lift_answers; [apply returns_status|]. intros status.
  eapply bind_answering with (R := anything).
  { destruct (ControllerOutcome.process_succeeded outcome); [|by intros s _]. apply answers. intros s. apply returns_hresult_succeeded. }
  intros []; [|apply report_answers]. cbn [negb].
  apply loop_answers; [done|]. intros t. by apply await_removal_answers, rounds_enough.
Qed.

Lemma enable_answers : anywhere enable.
Proof.
  unfold enable. apply world_answers; [apply returns_now|]. intros started.
  eapply bind_answering with (R := anything).
  { intros s _. unfold icatch, on_world. pose proof (returns_displays (snd s)). by destruct (displays_io (snd s)) as [w' []]. }
  intros baseline. cbv zeta.
  apply world_answers; [apply returns_find_controller|]. intros [controller|]; [|apply report_answers].
  apply command_answers; [done|]. intros outcome. cbv zeta. apply lift_answers; [apply returns_status|]. intros status.
  eapply bind_answering with (R := anything).
  { destruct (ControllerOutcome.process_succeeded outcome); [|by intros s _].
    apply lift_answers; [apply returns_hresult_succeeded|]. by intros ? s _. }
  intros []; [|apply report_answers]. cbn [negb].
  apply loop_answers; [done|]. intros t. by apply await_monitor_answers, rounds_enough.
Qed.

Lemma status_answers : anywhere status.
Proof.
  assert (Hmeasure : anywhere measure).
  { unfold measure. eapply bind_answering with (R := anything).
    - apply lifted_anywhere. unfold status_uncached. eapply bind_answering; [apply answers, returns_find_controller|].
      intros [controller|]; [|by intros w _]. intros w _. unfold icatch, ibind.
      pose proof (run_answers (fun _ => True) controller "status" STATUS_TIMEOUT ltac:(done) w Logic.I) as Hr.
      destruct (run_controller _ _ _ w) as [w' [outcome|e|f]]; cbn in *; [|done..].
      pose proof (returns_status (ControllerOutcome.report outcome)). by destruct (status_from_report _).
    - intros measured [cache w] _. unfold store_status, on_world, now_io, ibind, iput, iret. cbn. by destruct (now w). }
  unfold status. eapply bind_answering with (R := anything); [by intros s _|]. intros [cached|]; [|exact Hmeasure].
  apply world_answers; [apply returns_now|]. intros t. destruct (_ <? _); [by intros ? _|apply Hmeasure].
Qed.
End deadlines.

(** The recording is a world like the one recorded. *)
#[export, refine] Instance recording_monitors_laws `{DisplayOsLaws W} : DisplayOsLaws (W * list ControlEntry) := {
  clock w := clock (fst w);
}.
Proof.
  - intros [w log]. exact (clock_enum w).
  - intros [w log] name. exact (clock_current w name).
  - intros [w log]. exact (clock_now w).
  - intros [w log] d. exact (clock_sleep w d).
Defined.
#[export] Instance recording_controller_laws `{ControllerOsLaws W} : ControllerOsLaws (W * list ControlEntry).
Proof.
  split.
  - intros path command [w log]. exact (clock_spawn path command w).
  - intros child [w log]. exact (clock_try_wait child w).
  - intros path command [w log]. exact (spawn_returns path command w).
  - intros child [w log]. exact (try_wait_returns child w).
  - intros child [w log]. exact (output_returns child w).
  - exact json_returns.
Qed.

(** C13: switching the virtual display on is truthful and bounded in time. At most
    one controller process runs; it is collected, or killed and waited for, on
    every path. The report is what the cache then holds. It says passed only if the
    controller ended well, reported success and an enabled display, and the last
    look at the monitors showed the virtual display it selects; otherwise it
    selects none. The call returns within its time limits, whatever the controller
    and Windows do, unless the clock is about to overflow. *)
Theorem enabling_is_truthful `{ControllerOsLaws W} cache (w : W) :
  let '((cache', (w', log)), r) := enable (cache, (w, [])) in
  match r with
  | Ok report =>
    (process log = Some NotStarted \/ exists command output, process log = Some (Over command output)) /\
    (exists t, cache' = Some (CachedStatus.mk t (VirtualDisplayActionReport.status report))) /\
    (if VirtualDisplayActionReport.passed report
     then exists outcome output status code displays display before,
       process log = Some (Over (Some "start") (Some output)) /\ ChildOutput.success output = true /\
       report_from_json (trim (ChildOutput.stdout output)) = Ok outcome /\ status_from_report outcome = Ok status /\
       hresult_value (ControllerReport.request_result outcome) = Some code /\ Z.land code 0x80000000 = 0 /\
       VirtualDisplayStatus.enabled status = true /\
       log = before ++ [Monitors (Ok displays)] /\ display ∈ displays /\ DisplaySource.virtual_display display = true /\
       VirtualDisplayActionReport.selected_display_id report = Some (DisplaySource.id display)
     else VirtualDisplayActionReport.selected_display_id report = None)
  | Err _ => process log = Some NotStarted \/ exists command output, process log = Some (Over command output)
  | Fault _ => 2 ^ 80 <= clock w'
  end.
Proof.
  pose proof (enable_ends (cache, (w, [])) eq_refl) as He. pose proof (enable_answers (cache, (w, [])) Logic.I) as Ha.
  destruct (enable (cache, (w, []))) as [[cache' [w' log]] r]. cbn [fst snd] in *. destruct r as [report|e|f]; cbn in He, Ha; [| |exact Ha].
  - destruct He as ((p & Hp & Hover) & Hc & Hs). unfold proc in Hp. cbn [snd] in *. split; [|split; [exact Hc|]].
    { destruct Hover as [->|(command & output & ->)]; [by left|right; by eexists _, _]. }
    destruct (VirtualDisplayActionReport.passed report); [|exact Hs].
    destruct Hs as ((outcome & output & status & code & Hproc & (Hjson & _) & Hsuccess & Hst & Hen & Hcode & Hland) & displays & before & Hlog &
      display & Hin & Hv & Hsel).
    eexists (ControllerOutcome.report outcome), output, status, code, displays, display, before. by split_and!.
  - destruct He as (p & Hp & Hover). unfold proc in Hp. cbn [snd] in *.
    destruct Hover as [->|(command & output & ->)]; [by left|right; by eexists _, _].
Qed.

(** Switching the virtual display off is truthful and bounded in time, in the
    same way: passed only if the controller ended well and reported success, and
    the last look at the monitors showed no virtual display. *)
Theorem disabling_is_truthful `{ControllerOsLaws W} cache (w : W) :
  let '((cache', (w', log)), r) := disable (cache, (w, [])) in
  match r with
  | Ok report =>
    (process log = Some NotStarted \/ exists command output, process log = Some (Over command output)) /\
    (exists t, cache' = Some (CachedStatus.mk t (VirtualDisplayActionReport.status report))) /\
    VirtualDisplayActionReport.selected_display_id report = None /\
    (VirtualDisplayActionReport.passed report = true ->
     exists outcome output status code displays before,
       process log = Some (Over (Some "stop") (Some output)) /\ ChildOutput.success output = true /\
       report_from_json (trim (ChildOutput.stdout output)) = Ok outcome /\ status_from_report outcome = Ok status /\
       hresult_value (ControllerReport.request_result outcome) = Some code /\ Z.land code 0x80000000 = 0 /\
       log = before ++ [Monitors (Ok displays)] /\ Forall (fun d => DisplaySource.virtual_display d = false) displays)
  | Err _ => process log = Some NotStarted \/ exists command output, process log = Some (Over command output)
  | Fault _ => 2 ^ 80 <= clock w'
  end.
Proof.
  pose proof (disable_ends (cache, (w, [])) eq_refl) as He. pose proof (disable_answers (cache, (w, [])) Logic.I) as Ha.
  destruct (disable (cache, (w, []))) as [[cache' [w' log]] r]. cbn [fst snd] in *. destruct r as [report|e|f]; cbn in He, Ha; [| |exact Ha].
  - destruct He as ((p & Hp & Hover) & Hc & Hs). unfold proc in Hp. cbn [snd] in *. split; [|split; [exact Hc|]].
    { destruct Hover as [->|(command & output & ->)]; [by left|right; by eexists _, _]. }
    destruct (VirtualDisplayActionReport.passed report); [|by split].
    destruct Hs as ((outcome & output & status & code & Hproc & (Hjson & _) & Hsuccess & Hst & _ & Hcode & Hland) & displays & before & Hlog &
      Hsel & Hnone).
    split; [exact Hsel|]. intros _. eexists (ControllerOutcome.report outcome), output, status, code, displays, before. by split_and!.
  - destruct He as (p & Hp & Hover). unfold proc in Hp. cbn [snd] in *.
    destruct Hover as [->|(command & output & ->)]; [by left|right; by eexists _, _].
Qed.

(** What a measurement answers. *)
Definition measured_by (log : list ControlEntry) `{ControllerBuild} (status : VirtualDisplayStatus.t) : Prop :=
  (process log = Some NotStarted /\ status = client_missing_status) \/
  (exists outcome output, process log = Some (Over (Some "status") (Some output)) /\
     report_from_json (trim (ChildOutput.stdout output)) = Ok outcome /\ status_from_report outcome = Ok status) \/
  (exists error p, status = failed_status error /\ process log = Some p /\
     (p = NotStarted \/ exists command output, p = Over command output)).

Lemma first_file_finds `{ControllerOs W} paths (w : W) : exists w' found, first_file paths w = (w', Ok found).
Proof.
  revert w. induction paths as [|path paths IH]; intros w; cbn [first_file]; [by eexists _, _|].
  destruct (is_file path w) as [w' []]; [by eexists _, _|apply IH].
Qed.
Lemma find_controller_finds `{ControllerBuild} `{DisplayOs W} `{ControllerOs W} (w : W) :
  exists w' found, find_controller w = (w', Ok found).
Proof.
  unfold find_controller. destruct (if debug_assertions then env_override w else (w, None)) as [w1 overridden].
  destruct (exe_directory w1). apply first_file_finds.
Qed.

Lemma status_uncached_ends `{ControllerBuild} `{DisplayOs W} `{ControllerOs W} (w : W * list ControlEntry) : proc NotStarted w ->
  let (w', r) := status_uncached w in
  match r with
  | Ok status => measured_by (snd w') status
  | Err _ => False
  | Fault _ => True
  end.
Proof.
  intros Hw. unfold status_uncached. destruct (find_controller_finds w) as (w1 & found & E).
  pose proof (keeps_find_controller NotStarted w Hw) as Hw1. rewrite E in Hw1. cbn [fst] in Hw1. rewrite (ibind_step _ _ _ _ _ E).
  destruct found as [controller|]; [|left; by split].
  pose proof (run_controller_ends controller "status" STATUS_TIMEOUT w1 Hw1) as Hr. unfold ibind, icatch.
  destruct (run_controller _ _ _ w1) as [w2 [outcome|e|f]]; cbn in Hr; [|right; right; destruct Hr as (p & Hp & Hover); by exists e, p|done].
  destruct Hr as (output & Hp & Hjson & _). pose proof (returns_status (ControllerOutcome.report outcome)) as Hs.
  destruct (status_from_report _) as [status|e|f] eqn:Hst; cbn; [|right; right; eexists e, _; split; [done|]; split; [exact Hp|]|done].
  - right. left. by exists (ControllerOutcome.report outcome), output.
  - right. by eexists _, _.
Qed.

Lemma status_unfold `{ControllerBuild} `{DisplayOs W} `{ControllerOs W} cache (w : W) :
  status (cache, w) =
  match cache with
  | Some cached =>
    let (w1, t) := now w in
    if Duration.saturating_sub t (CachedStatus.measured_at cached) <? STATUS_CACHE_TTL
    then ((cache, w1), Ok (CachedStatus.status cached)) else measure (cache, w1)
  | None => measure (cache, w)
  end.
Proof.
  unfold status, ibind, iget, on_world, now_io. cbn [fst snd]. destruct cache as [cached|].
  - cbn [fst snd]. destruct (now w) as [w1 t]. cbn [fst snd]. by destruct (_ <? _).
  - by destruct (measure (None, w)) as [s []].
Qed.

(** The status answered is either the one in the cache, less than a second old
    and without touching the controller, or a new measurement, which is then cached
    with its time: what the one controller that was run reports, that there is no
    controller, or the reason it could not be asked. *)
Theorem status_is_fresh `{ControllerOsLaws W} cache (w : W) :
  let '((cache', (w', log)), r) := status (cache, (w, [])) in
  match r with
  | Ok status =>
    (exists cached, cache = Some cached /\ cache' = cache /\ status = CachedStatus.status cached /\ log = [] /\
       snd (now w) - CachedStatus.measured_at cached < STATUS_CACHE_TTL) \/
    ((exists t, cache' = Some (CachedStatus.mk t status)) /\ measured_by log status)
  | Err _ => False
  | Fault _ => 2 ^ 80 <= clock w'
  end.
Proof.
  pose proof (status_answers (cache, (w, [])) Logic.I) as Ha.
  assert (Hm : forall w1 : W, let '((cache', (w', log)), r) := measure (cache, (w1, [])) in
    match r with
    | Ok status => (exists t, cache' = Some (CachedStatus.mk t status)) /\ measured_by log status
    | Err _ => False
    | Fault _ => True
    end).
  { intros w1. unfold measure, on_world. cbn [fst snd]. pose proof (status_uncached_ends (w1, []) eq_refl) as Hu. unfold ibind at 1.
    cbn [fst snd]. destruct (status_uncached (w1, [])) as [[w2 log] [status|e|f]]; cbn; [|done..].
    split; [by eexists|exact Hu]. }
  rewrite status_unfold in Ha |- *. destruct cache as [cached|].
  - cbn [now recording_monitors] in Ha |- *. unfold logged in Ha |- *. cbn [fst snd] in Ha |- *.
    unfold Duration.saturating_sub in Ha |- *. destruct (now w) as [w1 t]. cbn [fst snd] in *.
    destruct (Z.ltb_spec (Z.max (t - CachedStatus.measured_at cached) 0) STATUS_CACHE_TTL).
    + left. exists cached. split_and!; try done. lia.
    + specialize (Hm w1). destruct (measure (Some cached, (w1, []))) as [[cache' [w' log]] [status|e|f]]; [right; exact Hm|done|exact Ha].
  - specialize (Hm w). destruct (measure (None, (w, []))) as [[cache' [w' log]] [status|e|f]]; [right; exact Hm|done|exact Ha].
Qed.

(** ** A service that obeys *)
Module ServiceExamples.
Import DisplayExamples.

(** The clock, when the child ends and what it prints, and from when on the virtual
    display is there or not. *)
Record host : Type := mk_host { time : Z; ends_at : Z; prints : list byte; display_from : Z; display : bool }.
Definition ms (n : Z) : Z := n * 1000000.
Definition shows (h : host) : bool := if display_from h <=? time h then display h else negb (display h).

#[export] Instance host_monitors : DisplayOs host := {
  enum_display_monitors h :=
    (h, let both := monitors start in
        if shows h then both else Enumeration.mk (drop 1 (Enumeration.found both)) None);
  current_mode h _ := (h, None);
  mode_at h _ _ := (h, None);
  change_display_settings h _ _ _ := (h, 0);
  now h := (h, time h);
  sleep h d := mk_host (time h + d) (ends_at h) (prints h) (display_from h) (display h);
}.
#[export] Instance host_processes : ControllerOs host := {
  env_override h := (h, None);
  exe_directory h := (h, Some "C:\Program Files\LadoFlow");
  is_file path h := (h, bool_decide (path = "C:\Program Files\LadoFlow\windows\LadoFlowVirtualDisplay.exe"));
  spawn _ command h :=
    (mk_host (time h) (time h + ms 50) (str command) (time h + ms 250) (bool_decide (command = "start")), Ok 9%nat);
  try_wait _ h := (h, Ok (ends_at h <=? time h));
  wait_with_output _ h := (h, Ok (ChildOutput.mk (prints h ++ [x0a]) [] true));
  kill_child _ h := h;
  wait_child _ h := h;
}.
Definition report_in (state : string) : ControllerReport.t :=
  ControllerReport.mk 1 true "running" state "0x00000000" "0x00000000" "SWD\LadoFlowVirtualDisplay\1" 4 true.
#[export] Instance release_build : ControllerBuild := {
  report_from_json bytes := Ok (report_in (if bool_decide (bytes = str "start") then "enabled" else "ready"));
  debug_assertions := false;
  manifest_directory := "C:\LadoFlow";
}.
#[export, refine] Instance host_monitors_laws : DisplayOsLaws host := { clock := time }.
Proof. all: intros; simpl; lia. Defined.
#[export] Instance host_processes_laws : ControllerOsLaws host.
Proof. split; intros; simpl; (lia || done). Qed.

Definition desktop : host := mk_host 0 0 [] 0 false.
Definition on_desktop : host := mk_host 0 0 [] 0 true.

Lemma enabling_is_truthful_witness :
  exists cache w log report,
    enable (None, (desktop, [])) = ((cache, (w, log)), Ok report) /\
    VirtualDisplayActionReport.passed report = true /\
    process log = Some (Over (Some "start") (Some (ChildOutput.mk (str "start" ++ [x0a]) [] true))) /\
    VirtualDisplayActionReport.selected_display_id report = Some "ladoflow:ROOT\LF" /\
    VirtualDisplayActionReport.elapsed_ms report = 260.
Proof.
  pose proof (enabling_is_truthful None desktop) as Ht.
  destruct (enable (None, (desktop, []))) as [[cache [w log]] r] eqn:E. vm_compute in E. injection E as <- <- <- <-.
  destruct Ht as (_ & _ & outcome & output & _). eexists _, _, _, _. split; [reflexivity|]. repeat split; vm_compute; reflexivity.
Defined.

Lemma disabling_is_truthful_witness :
  exists cache w log report,
    disable (None, (on_desktop, [])) = ((cache, (w, log)), Ok report) /\
    VirtualDisplayActionReport.passed report = true /\
    VirtualDisplayActionReport.selected_display_id report = None /\
    VirtualDisplayActionReport.elapsed_ms report = 260.
Proof.
  pose proof (disabling_is_truthful None on_desktop) as Ht.
  destruct (disable (None, (on_desktop, []))) as [[cache [w log]] r] eqn:E. vm_compute in E. injection E as <- <- <- <-.
  destruct Ht as (_ & _ & Hsel & _). eexists _, _, _, _. split; [reflexivity|]. split; [reflexivity|]. split; [exact Hsel|reflexivity].
Defined.

Lemma status_is_fresh_witness :
  exists cache w log s,
    status (None, (desktop, [])) = ((cache, (w, log)), Ok s) /\ measured_by log s /\
    VirtualDisplayStatus.state s = VirtualDisplayState.Ready /\
    status (cache, (w, [])) = ((cache, (w, [])), Ok s).
Proof.
  pose proof (status_is_fresh None desktop) as Ht.
  destruct (status (None, (desktop, []))) as [[cache [w log]] r] eqn:E. vm_compute in E. injection E as <- <- <- <-.
  eexists _, _, _, _. split; [reflexivity|]. destruct Ht as [(cached & Hc & _)|[_ Hm]]; [discriminate Hc|].
  split; [exact Hm|]. split; vm_compute; reflexivity.
Defined.
End ServiceExamples.
