(* ===== verification/WinTether.v ===== *)
(** * Finding tether gateways on Windows

    Models [apps/desktop/src-tauri/src/platform/windows/tether_discovery.rs]: the
    network devices below a USB bus, their adapter identifiers in the registry,
    the gateways of the adapters that are up, and the list offered to the user.
    SetupAPI, the configuration manager, the registry and IP Helper are the class
    [TetherOs]. *)
From stdpp Require Import pretty gmap.
From S2P Require Export RustIo HostTether.
Local Open Scope string_scope.
Local Open Scope list_scope.
Local Open Scope Z_scope.

Definition INITIAL_ADAPTER_BUFFER_BYTES : Z := 15 * 1024.
Definition MAX_ADAPTER_BUFFER_BYTES : Z := 1024 * 1024.
Definition MAX_NETWORK_DEVICES : Z := 1024.
Definition MAX_DEVICE_ANCESTORS : nat := 16.
Definition MAX_ADAPTERS : nat := 256.
Definition MAX_GATEWAYS_PER_ADAPTER : nat := 8.
Definition MAX_CANDIDATES : nat := 16.
Definition MAX_WINDOWS_STRING_UNITS : Z := 1024.

(** ** Windows

    Constants of the Windows headers. *)
Definition CR_SUCCESS : Z := 0.
Definition ERROR_SUCCESS : Z := 0.
Definition ERROR_BUFFER_OVERFLOW : Z := 111.
Definition ERROR_NO_MORE_ITEMS : Z := 259.
Definition REG_SZ : Z := 1.
Definition AF_INET : Z := 2.
Definition IfOperStatusUp : Z := 1.
Definition size_of_SOCKADDR_IN : Z := 16.
Definition size_of_usize : Z := 8.

(** The structures of an answer of IP Helper: [lpSockaddr] with the family and the
    octets where a [SOCKADDR_IN] has its address; strings as what their pointers
    show, the NUL excluded for the ANSI one. *)
Module SOCKADDR.
Record t : Type := mk { sa_family : Z; s_b1 : byte; s_b2 : byte; s_b3 : byte; s_b4 : byte }.
End SOCKADDR.
Module GatewayAddress.
Record t : Type := mk { lpSockaddr : option SOCKADDR.t; iSockaddrLength : Z }.
End GatewayAddress.
Module AdapterAddresses.
Record t : Type := mk {
  OperStatus : Z;
  AdapterName : option (list byte);
  FriendlyName : option (list Z);
  Description : option (list Z);
  gateways : list GatewayAddress.t;
}.
End AdapterAddresses.

(** What [GetAdaptersAddresses] did with a buffer: its result, the size it left in
    its argument, and the list it built on success. *)
Module AdapterAnswer.
Record t : Type := mk { result : Z; available_bytes : Z; adapters : list AdapterAddresses.t }.
End AdapterAnswer.

(** Lists of devices and registry keys are handles; [destroy_device_list] and
    [close_key] are the drops of their guards. An enumeration that fails gives its
    text and the thread's last error. A query writes into a buffer of the given
    length. *)
Class TetherOs (W : Type) : Type := {
  class_devices : W -> W * (string + nat);
  destroy_device_list : nat -> W -> W;
  enum_device_info : nat -> Z -> W -> W * (string * Z + Z);
  device_id_size : Z -> W -> W * (Z * Z);
  device_id : Z -> Z -> W -> W * (Z * list Z);
  device_parent : Z -> W -> W * (Z * Z);
  open_driver_key : nat -> Z -> W -> W * option nat;
  close_key : nat -> W -> W;
  query_value_size : nat -> W -> W * (Z * Z * Z);
  query_value : nat -> Z -> W -> W * (Z * Z * list byte);
  get_adapters_addresses : Z -> W -> W * AdapterAnswer.t;
}.

(** ** Text *)

Fixpoint until_nul (units : list Z) : list Z :=
  match units with
  | [] => []
  | u :: units => if u =? 0 then [] else u :: until_nul units
  end.
Definition utf16_until_nul (value : list Z) : list byte := from_utf16_lossy (until_nul value).

Definition wide_string (pointer : option (list Z)) : list byte :=
  match pointer with
  | None => []
  | Some units => from_utf16_lossy (until_nul (take (Z.to_nat MAX_WINDOWS_STRING_UNITS) units))
  end.
Definition adapter_name (pointer : option (list byte)) : list byte :=
  match pointer with
  | None => []
  | Some bytes => from_utf8_lossy (length bytes) bytes
  end.

Definition normalize_adapter_guid (value : list byte) : string :=
  let value := strip_all (read_char x7b) (length value) (trim value) in
  let value := rev (strip_all (read_char x7d) (length value) (rev value)) in
  to_ascii_lowercase (text value).

Definition upper (b : byte) : byte :=
  let v := byte_to_Z b in if (97 <=? v) && (v <=? 122) then byte_of_Z (v - 32) else b.
(** [to_ascii_uppercase().starts_with("USB\\")]. *)
Definition is_usb_instance (instance : list byte) : bool :=
  bool_decide (take 4 (map upper instance) = str "USB\").

(** [vec![0; n]] after a call has written [written] at its start. *)
Definition filled {A} (zero : A) (n : Z) (written : list A) : list A :=
  take (Z.to_nat n) written ++ replicate (Z.to_nat n - length written) zero.
Fixpoint le_units (bytes : list byte) : list Z :=
  match bytes with
  | a :: b :: bytes => byte_to_Z a + 256 * byte_to_Z b :: le_units bytes
  | _ => []
  end.

(** ** Gateways of the adapters *)

Definition ipv4_of (socket : SOCKADDR.t) : Ipv4Addr.t :=
  Ipv4Addr.mk (byte_to_Z (SOCKADDR.s_b1 socket)) (byte_to_Z (SOCKADDR.s_b2 socket))
    (byte_to_Z (SOCKADDR.s_b3 socket)) (byte_to_Z (SOCKADDR.s_b4 socket)).
Definition candidate (adapter_name : string) (address : Ipv4Addr.t) : TetherEndpointCandidate.t :=
  TetherEndpointCandidate.mk (text (show_socket (SocketAddrV4.mk address DEFAULT_TETHER_PORT))) adapter_name
    (text (show_ip address)) "USB device-tree parent and active private IPv4 gateway".

(** The body of the loop of [collect_adapter_gateways]. *)
Definition usable_gateway (gateway : GatewayAddress.t) : option Ipv4Addr.t :=
  match GatewayAddress.lpSockaddr gateway with
  | None => None
  | Some socket =>
    if (size_of_SOCKADDR_IN <=? GatewayAddress.iSockaddrLength gateway) && (SOCKADDR.sa_family socket =? AF_INET) then
      let address := ipv4_of socket in
      if is_local_tether_address address && negb (Ipv4Addr.is_loopback address) then Some address else None
    else None
  end.
Fixpoint collect_adapter_gateways (fuel : nat) (gateway : list GatewayAddress.t) (adapter_name : string)
  (candidates : list TetherEndpointCandidate.t) : list TetherEndpointCandidate.t :=
  match fuel, gateway with
  | S fuel, current :: next =>
    collect_adapter_gateways fuel next adapter_name
      (match usable_gateway current with
       | Some address => candidates ++ [candidate adapter_name address]
       | None => candidates
       end)
  | _, _ => candidates
  end.

Definition display_name (adapter : AdapterAddresses.t) : string :=
  let friendly := wide_string (AdapterAddresses.FriendlyName adapter) in
  let description := wide_string (AdapterAddresses.Description adapter) in
  if bool_decide (friendly = []) then
    if bool_decide (description = []) then "USB network adapter" else text description
  else text friendly.

Fixpoint collect_gateway_candidates (fuel : nat) (adapter : list AdapterAddresses.t) (usb_network_guids : gset string)
  (candidates : list TetherEndpointCandidate.t) : list TetherEndpointCandidate.t :=
  match fuel, adapter with
  | S fuel, current :: next =>
    collect_gateway_candidates fuel next usb_network_guids
      (if AdapterAddresses.OperStatus current =? IfOperStatusUp then
         if bool_decide (normalize_adapter_guid (adapter_name (AdapterAddresses.AdapterName current)) ∈ usb_network_guids)
         then collect_adapter_gateways MAX_GATEWAYS_PER_ADAPTER (AdapterAddresses.gateways current) (display_name current)
                candidates
         else candidates
       else candidates)
  | _, _ => candidates
  end.

(** ** Devices and their registry keys *)
Section discovery.
Context {W : Type} `{TetherOs W}.
Notation io := (RustIo.io W string).

Definition call {A E} (m : W -> W * A) : RustIo.io W E A := fun w => let (w, a) := m w in (w, Ok a).

Definition device_instance_id (device : Z) : io (option (list byte)) :=
  let* (code, length) := call (device_id_size device) in
  if negb (code =? CR_SUCCESS) then iret None
  else
    let units := length + 1 in
    if MAX_WINDOWS_STRING_UNITS <? units then iret None
    else
      let* (code, written) := call (device_id device units) in
      if negb (code =? CR_SUCCESS) then iret None
      else iret (Some (utf16_until_nul (filled 0 units written))).

Fixpoint has_usb_ancestor (depth : nat) (device : Z) : io bool :=
  match depth with
  | O => iret false
  | S depth =>
    let* instance := device_instance_id device in
    if (if instance is Some instance then is_usb_instance instance else false) then iret true
    else
      let* (code, parent) := call (device_parent device) in
      if negb (code =? CR_SUCCESS) then iret false else has_usb_ancestor depth parent
  end.

(** With the key open. *)
Definition query_instance_id (key : nat) : io (option (list byte)) :=
  let* (first, value_type, byte_count) := call (query_value_size key) in
  if negb (first =? ERROR_SUCCESS) || negb (value_type =? REG_SZ) || (byte_count <? 2) then iret None
  else
    let unit_count := div_ceil byte_count 2 in
    if MAX_WINDOWS_STRING_UNITS <? unit_count then iret None
    else
      let* (second, value_type, written) := call (query_value key byte_count) in
      if (second =? ERROR_SUCCESS) && (value_type =? REG_SZ)
      then iret (Some (utf16_until_nul (le_units (filled x00 (2 * unit_count) (take (Z.to_nat byte_count) written)))))
      else iret None.
Definition read_netcfg_instance_id (devices : nat) (info : Z) : io (option (list byte)) :=
  let* key := call (open_driver_key devices info) in
  match key with
  | Some key => ifinally (query_instance_id key) (close_key key)
  | None => iret None
  end.

(** The loop over the devices; [count] indices are left. *)
Fixpoint usb_guids_from (count : nat) (index : Z) (devices : nat) (guids : gset string) : io (gset string) :=
  match count with
  | O => iret guids
  | S count =>
    let* info := call (enum_device_info devices index) in
    match info with
    | inl (error, last_error) =>
      if last_error =? ERROR_NO_MORE_ITEMS then iret guids
      else ifail ("Windows network-device enumeration failed at index " +:+ pretty index +:+ ": " +:+ error)
    | inr info =>
      let* usb := has_usb_ancestor MAX_DEVICE_ANCESTORS info in
      if negb usb then usb_guids_from count (index + 1) devices guids
      else
        let* instance_guid := read_netcfg_instance_id devices info in
        usb_guids_from count (index + 1) devices
          (match instance_guid with
           | Some guid => {[normalize_adapter_guid guid]} ∪ guids
           | None => guids
           end)
    end
  end.
Definition enumerate_usb_network_guids : io (gset string) :=
  let* handle := call class_devices in
  match handle with
  | inl error => ifail ("failed to enumerate present Windows network devices: " +:+ error)
  | inr devices => ifinally (usb_guids_from (Z.to_nat MAX_NETWORK_DEVICES) 0 devices ∅) (destroy_device_list devices)
  end.

(** The loop of [enumerate_gateway_candidates]. *)
Fixpoint try_adapters (attempts : nat) (requested_bytes : Z) (usb_network_guids : gset string)
  : io (list TetherEndpointCandidate.t) :=
  match attempts with
  | O => ifail "Windows adapter addresses changed repeatedly during discovery; try again"
  | S attempts =>
    if MAX_ADAPTER_BUFFER_BYTES <? requested_bytes
    then ifail ("Windows requested an unexpectedly large adapter buffer (" +:+ pretty requested_bytes +:+ " bytes)")
    else
      let words := div_ceil requested_bytes size_of_usize in
      let* available_bytes := ilift (ok_or (checked 32 (saturating_mul usize_bits words size_of_usize))
        "adapter buffer exceeds the Win32 range") in
      let* answer := call (get_adapters_addresses available_bytes) in
      if AdapterAnswer.result answer =? ERROR_BUFFER_OVERFLOW
      then try_adapters attempts (AdapterAnswer.available_bytes answer) usb_network_guids
      else if negb (AdapterAnswer.result answer =? ERROR_SUCCESS)
      then ifail ("GetAdaptersAddresses failed with Windows error " +:+ pretty (AdapterAnswer.result answer))
      else iret (collect_gateway_candidates MAX_ADAPTERS (AdapterAnswer.adapters answer) usb_network_guids [])
  end.
Definition enumerate_gateway_candidates (usb_network_guids : gset string) : io (list TetherEndpointCandidate.t) :=
  try_adapters 3 INITIAL_ADAPTER_BUFFER_BYTES usb_network_guids.

(** ** The list offered to the user *)

(** [cmp] by name, then by gateway, is not [Greater]. *)
Definition offered_before (left right : TetherEndpointCandidate.t) : bool :=
  if bool_decide (TetherEndpointCandidate.adapter_name left = TetherEndpointCandidate.adapter_name right)
  then string_le (TetherEndpointCandidate.gateway left) (TetherEndpointCandidate.gateway right)
  else string_le (TetherEndpointCandidate.adapter_name left) (TetherEndpointCandidate.adapter_name right).

(** [dedup_by] on a key: the first of each run stays. *)
Fixpoint dedup_by {A K} `{EqDecision K} (key : A -> K) (l : list A) : list A :=
  match l with
  | [] => []
  | a :: l => a :: match dedup_by key l with
                   | b :: r => if decide (key a = key b) then r else b :: r
                   | [] => []
                   end
  end.

Definition offered (candidates : list TetherEndpointCandidate.t) : list TetherEndpointCandidate.t :=
  take MAX_CANDIDATES (dedup_by TetherEndpointCandidate.endpoint (sort_by offered_before candidates)).

Definition discovery_detail (candidates : list TetherEndpointCandidate.t) : string :=
  match candidates with
  | [] => "No active private IPv4 gateway was found on a network adapter whose Plug and Play ancestry is USB. Enable Android USB tethering or enter the address manually."
  | [_] => "Found one active private gateway on a USB-backed Windows network adapter. Confirm it matches the address shown by Android before pairing."
  | _ => "Found " +:+ pretty (zlen candidates) +:+
         " active private gateways on USB-backed Windows network adapters. Select the one that matches Android."
  end.

Definition discover_tether_endpoints : io TetherDiscoveryReport.t :=
  let* usb_network_guids := enumerate_usb_network_guids in
  let* candidates := enumerate_gateway_candidates usb_network_guids in
  let candidates := offered candidates in
  iret (TetherDiscoveryReport.mk candidates (discovery_detail candidates)).
End discovery.
