(* ===== verification/WinTetherFacts.v ===== *)
(** * What tether discovery offers

    Which gateways are collected and how they are listed; the evidence for every
    gateway offered, from the calls the discovery made; the life of its handles
    and the size of its buffers. *)
From stdpp Require Import gmap.
From S2P Require Export WinTether.
Local Open Scope string_scope.
Local Open Scope list_scope.
Local Open Scope Z_scope.

(** ** Gateways *)

(** A gateway of an answer whose address is an IPv4 address the host would dial. *)
Record gateway_address (gateway : GatewayAddress.t) (address : Ipv4Addr.t) : Prop := {
  gateway_socket : exists socket,
    GatewayAddress.lpSockaddr gateway = Some socket /\ SOCKADDR.sa_family socket = AF_INET /\ address = ipv4_of socket;
  gateway_length : size_of_SOCKADDR_IN <= GatewayAddress.iSockaddrLength gateway;
  gateway_local : local address;
  gateway_remote : Ipv4Addr.a address <> 127;
}.

Lemma ipv4_of_wf socket : Ipv4Addr.wf (ipv4_of socket).
Proof. split_and!; apply byte_to_Z_range. Qed.

Lemma usable_gateway_spec gateway address : usable_gateway gateway = Some address <-> gateway_address gateway address.
Proof.
  unfold usable_gateway. split.
  - destruct (GatewayAddress.lpSockaddr gateway) as [socket|] eqn:Hs; [|done].
    destruct (_ && _) eqn:Hlen; [|done]. destruct (is_local_tether_address _ && _) eqn:Hl; [|done]. intros [= <-].
    apply andb_true_iff in Hl as [Hl Hlo%negb_true_iff].
    apply is_local_tether_address_spec in Hl; [|apply ipv4_of_wf]. unfold Ipv4Addr.is_loopback in Hlo.
    split; [by exists socket; split_and!; [|lia|]|lia|done|lia].
  - intros [(socket & -> & Hf & ->) Hlen Hl Hr]. apply is_local_tether_address_spec in Hl; [|apply ipv4_of_wf].
    rewrite Hf, Hl. unfold Ipv4Addr.is_loopback. rewrite (proj2 (Z.leb_le _ _)) by done.
    by rewrite (proj2 (Z.eqb_neq _ 127)).
Qed.

Lemma gateway_acceptable gateway address :
  gateway_address gateway address -> acceptable (SocketAddrV4.mk address DEFAULT_TETHER_PORT).
Proof. intros [(socket & _ & _ & ->) _ Hl _]. split; [apply ipv4_of_wf|done|done]. Qed.
Lemma parse_offered gateway address : gateway_address gateway address ->
  parse_tether_endpoint (show_socket (SocketAddrV4.mk address DEFAULT_TETHER_PORT)) =
    Ok (SocketAddrV4.mk address DEFAULT_TETHER_PORT).
Proof.
  intros Ha%gateway_acceptable. pose proof (parse_shown_endpoint _ [] [] Ha) as Hp. rewrite app_nil_r in Hp.
  apply Hp; constructor.
Qed.
Lemma elem_of_take_inv {A} n (l : list A) x : x ∈ take n l -> x ∈ l.
Proof. intros Hx. eapply elem_of_submseteq; [exact Hx|]. apply sublist_submseteq, sublist_take. Qed.

(** What the loops collect, without their accumulators. *)
Definition adapter_candidates (adapter : AdapterAddresses.t) : list TetherEndpointCandidate.t :=
  map (candidate (display_name adapter))
    (omap usable_gateway (take MAX_GATEWAYS_PER_ADAPTER (AdapterAddresses.gateways adapter))).
Definition usb_backed (guids : gset string) (adapter : AdapterAddresses.t) : bool :=
  (AdapterAddresses.OperStatus adapter =? IfOperStatusUp) &&
  bool_decide (normalize_adapter_guid (adapter_name (AdapterAddresses.AdapterName adapter)) ∈ guids).

Lemma collect_adapter_gateways_spec fuel gateways name : forall candidates,
  collect_adapter_gateways fuel gateways name candidates =
  candidates ++ map (candidate name) (omap usable_gateway (take fuel gateways)).
Proof.
  revert gateways. induction fuel as [|fuel IH]; intros [|g gateways] candidates; cbn; rewrite ?app_nil_r; try done.
  rewrite IH. destruct (usable_gateway g); [|done]. by rewrite <-app_assoc.
Qed.

Lemma collect_gateway_candidates_spec fuel adapters guids : forall candidates,
  collect_gateway_candidates fuel adapters guids candidates =
  candidates ++ concat (map adapter_candidates (List.filter (usb_backed guids) (take fuel adapters))).
Proof.
  revert adapters. induction fuel as [|fuel IH]; intros [|ad adapters] candidates; cbn -[MAX_GATEWAYS_PER_ADAPTER];
    rewrite ?app_nil_r; try done.
  rewrite IH. unfold usb_backed at 2. destruct (AdapterAddresses.OperStatus ad =? IfOperStatusUp); cbn [andb]; [|done].
  destruct (bool_decide _); [|done]. cbn [map concat]. by rewrite collect_adapter_gateways_spec, <-app_assoc.
Qed.

Lemma collected adapters guids c :
  c ∈ collect_gateway_candidates MAX_ADAPTERS adapters guids [] <->
  exists adapter gateway address,
    adapter ∈ take 256 adapters /\ AdapterAddresses.OperStatus adapter = IfOperStatusUp /\
    normalize_adapter_guid (adapter_name (AdapterAddresses.AdapterName adapter)) ∈ guids /\
    gateway ∈ take 8 (AdapterAddresses.gateways adapter) /\ gateway_address gateway address /\
    c = candidate (display_name adapter) address.
Proof.
  rewrite collect_gateway_candidates_spec. cbn [app]. rewrite list_elem_of_In, in_concat. setoid_rewrite in_map_iff.
  setoid_rewrite filter_In. setoid_rewrite <-list_elem_of_In. unfold usb_backed. setoid_rewrite andb_true_iff.
  setoid_rewrite bool_decide_eq_true. setoid_rewrite Z.eqb_eq.
  setoid_rewrite <-usable_gateway_spec. split.
  - intros (l & (ad & <- & Had & Hup & Hguid) & Hc). unfold adapter_candidates in Hc.
    apply list_elem_of_fmap in Hc as (address & -> & Hc). apply list_elem_of_omap in Hc as (g & Hg & Hu).
    by exists ad, g, address.
  - intros (ad & g & address & Had & Hup & Hguid & Hg & Hu & ->). exists (adapter_candidates ad). split; [by exists ad|].
    apply list_elem_of_fmap. exists address. split; [done|]. apply list_elem_of_omap. by exists g.
Qed.

(** The gateways collected from the adapters Windows lists are exactly those of
    the adapters that are up and whose identifier is that of a USB network device,
    among the first 256 adapters and the first eight gateways of each: IPv4 addresses
    in a private, shared or link-local block that are not loopback addresses, each
    with the default port and under the adapter's own name. *)
Theorem gateways_are_collected_exactly adapters guids c :
  c ∈ collect_gateway_candidates MAX_ADAPTERS adapters guids [] <->
  exists adapter gateway address,
    adapter ∈ take 256 adapters /\ AdapterAddresses.OperStatus adapter = IfOperStatusUp /\
    normalize_adapter_guid (adapter_name (AdapterAddresses.AdapterName adapter)) ∈ guids /\
    gateway ∈ take 8 (AdapterAddresses.gateways adapter) /\ gateway_address gateway address /\
    c = candidate (display_name adapter) address.
Proof. apply collected. Qed.

(** ** The list *)

Lemma string_le_total a b : string_le a b = false -> string_le b a = true.
Proof. unfold string_le. rewrite (String.compare_antisym b a). by destruct (String.compare a b). Qed.
Lemma ascii_compare_le_trans a b c : Ascii.compare a b = Lt -> Ascii.compare b c = Lt -> Ascii.compare a c = Lt.
Proof. unfold Ascii.compare. rewrite !N.compare_lt_iff. lia. Qed.
Lemma string_le_trans a : forall b c, string_le a b = true -> string_le b c = true -> string_le a c = true.
Proof.
  unfold string_le. induction a as [|x a IH]; intros [|y b] [|z c]; try done. cbn [String.compare].
  destruct (Ascii.compare x y) eqn:Hxy; [| |done]; (destruct (Ascii.compare y z) eqn:Hyz; [| |done]).
  - apply Ascii.compare_eq_iff in Hxy as ->. rewrite Hyz. apply IH.
  - apply Ascii.compare_eq_iff in Hxy as ->. by rewrite Hyz.
  - apply Ascii.compare_eq_iff in Hyz as ->. by rewrite Hxy.
  - by rewrite (ascii_compare_le_trans _ _ _ Hxy Hyz).
Qed.
Lemma string_le_antisym a b : string_le a b = true -> string_le b a = true -> a = b.
Proof.
  unfold string_le. rewrite (String.compare_antisym b a).
  destruct (String.compare a b) eqn:E; cbn; [by apply String.compare_eq_iff in E|done..].
Qed.

Lemma offered_before_total a b : offered_before a b = false -> offered_before b a = true.
Proof.
  unfold offered_before.
  destruct (decide (TetherEndpointCandidate.adapter_name a = TetherEndpointCandidate.adapter_name b)) as [E|E].
  - rewrite !bool_decide_eq_true_2 by done. apply string_le_total.
  - rewrite !bool_decide_eq_false_2 by done. apply string_le_total.
Qed.
Lemma offered_before_trans a b c : offered_before a b = true -> offered_before b c = true -> offered_before a c = true.
Proof.
  assert (Hr : forall x : string, bool_decide (x = x) = true) by (intros; by apply bool_decide_eq_true_2).
  assert (Hn : forall x y : string, x <> y -> bool_decide (x = y) = false) by (intros; by apply bool_decide_eq_false_2).
  unfold offered_before. destruct a as [ea na ga va], b as [eb nb gb vb], c as [ec nc gc vc]. cbn.
  destruct (decide (na = nb)) as [->|Hab], (decide (nb = nc)) as [->|Hbc]; rewrite ?Hr, ?(Hn na nb), ?(Hn nb nc) by done.
  - apply string_le_trans.
  - done.
  - by rewrite (Hn na nc).
  - destruct (decide (na = nc)) as [->|Hac]; [|rewrite (Hn na nc) by done; apply string_le_trans].
    intros H1 H2. destruct Hbc. by apply string_le_antisym.
Qed.

Section dedup.
Context {A K : Type} `{EqDecision K} (key : A -> K).

Lemma dedup_by_head a l : exists r, dedup_by key (a :: l) = a :: r.
Proof. cbn. eauto. Qed.
Lemma dedup_by_sublist l : dedup_by key l `sublist_of` l.
Proof.
  induction l as [|a l IH]; cbn; [constructor|]. apply sublist_skip. destruct (dedup_by key l) as [|b r]; [done|].
  destruct (decide _); [|done]. etrans; [|exact IH]. by apply sublist_cons.
Qed.
(** The key of every element is kept. *)
Lemma dedup_by_keys l c : c ∈ l -> exists c', c' ∈ dedup_by key l /\ key c' = key c.
Proof.
  induction l as [|a l IH]; [by intros ?%not_elem_of_nil|]. intros [->|Hc]%elem_of_cons; [exists a; cbn; split; [left|done]|].
  destruct (IH Hc) as (c' & Hc' & Hk). cbn. destruct (dedup_by key l) as [|b r]; [by apply not_elem_of_nil in Hc'|].
  destruct (decide (key a = key b)) as [E|E]; [|exists c'; split; [by right|done]].
  apply elem_of_cons in Hc' as [->|Hc']; [exists a; split; [left|congruence]|exists c'; split; [by right|done]].
Qed.
(** Neighbours differ. *)
Lemma dedup_by_neighbours l : forall i a b, dedup_by key l !! i = Some a -> dedup_by key l !! S i = Some b -> key a <> key b.
Proof.
  induction l as [|x l IH]; [done|]. cbn. destruct (dedup_by key l) as [|y r]; [by intros [|i]|].
  destruct (decide (key x = key y)) as [E|E]; intros [|i] a b; cbn.
  - intros [= ->] Hb. rewrite E. by apply (IH 0%nat).
  - intros Ha Hb. by apply (IH (S i)).
  - by intros [= ->] [= ->].
  - apply IH.
Qed.
End dedup.

(** A gateway and its endpoint determine each other. *)
Definition well_formed (c : TetherEndpointCandidate.t) : Prop :=
  exists name address, Ipv4Addr.wf address /\ c = candidate name address.

Lemma candidate_endpoint name address : str (TetherEndpointCandidate.endpoint (candidate name address)) =
  show_socket (SocketAddrV4.mk address DEFAULT_TETHER_PORT).
Proof. unfold candidate. cbn [TetherEndpointCandidate.endpoint]. apply str_text. Qed.
Lemma endpoint_of_gateway a b : well_formed a -> well_formed b ->
  TetherEndpointCandidate.gateway a = TetherEndpointCandidate.gateway b <->
  TetherEndpointCandidate.endpoint a = TetherEndpointCandidate.endpoint b.
Proof.
  intros (n & x & Hx & ->) (m & y & Hy & ->). unfold candidate. cbn [TetherEndpointCandidate.gateway TetherEndpointCandidate.endpoint]. split; intros E%(f_equal str); rewrite !str_text in E.
  - apply (f_equal Ipv4Addr.parse) in E. rewrite !parse_show_ip in E by done. by injection E as ->.
  - apply (f_equal SocketAddrV4.parse) in E. rewrite !parse_show_socket in E by done. by injection E as ->.
Qed.

Lemma sorted_lookup {A} (R : A -> A -> Prop) l : StronglySorted R l -> forall i j a b,
  (i < j)%nat -> l !! i = Some a -> l !! j = Some b -> R a b.
Proof.
  induction 1 as [|x l Hl IH Hx]; [done|]. intros [|i] [|j] a b Hij; cbn; [lia| |lia|].
  - intros [= ->] Hb. by eapply (proj1 (Forall_lookup _ _) Hx).
  - apply IH. lia.
Qed.

Lemma between_same a m b : well_formed a -> well_formed m -> well_formed b ->
  offered_before a m = true -> offered_before m b = true ->
  TetherEndpointCandidate.adapter_name a = TetherEndpointCandidate.adapter_name b ->
  TetherEndpointCandidate.endpoint a = TetherEndpointCandidate.endpoint b ->
  TetherEndpointCandidate.endpoint a = TetherEndpointCandidate.endpoint m.
Proof.
  intros Ha Hm Hb Ham Hmb Hn He%endpoint_of_gateway; [|done..]. apply endpoint_of_gateway; [done..|].
  revert Ham Hmb. unfold offered_before. rewrite <-Hn, He.
  destruct (decide (TetherEndpointCandidate.adapter_name a = TetherEndpointCandidate.adapter_name m)) as [E|E].
  - rewrite !bool_decide_eq_true_2 by done. apply string_le_antisym.
  - rewrite !bool_decide_eq_false_2 by done. intros H1 H2. destruct E. by apply string_le_antisym.
Qed.

Lemma offered_subset candidates c : c ∈ offered candidates -> c ∈ candidates.
Proof.
  intros Hc. apply (elem_of_sort_by offered_before). eapply elem_of_submseteq; [exact Hc|]. apply sublist_submseteq.
  etrans; [apply sublist_take|apply dedup_by_sublist].
Qed.

(** The list offered to the user holds at most sixteen of the gateways collected,
    ordered by adapter name and then by address, with no two neighbours for the same
    endpoint; every endpoint collected is in it unless the list is full, and an adapter
    offers an endpoint once. *)
Theorem offered_list_is_sorted_and_bounded candidates :
  (length (offered candidates) <= 16)%nat /\
  (forall c, c ∈ offered candidates -> c ∈ candidates) /\
  StronglySorted (fun a b => offered_before a b = true) (offered candidates) /\
  (forall i a b, offered candidates !! i = Some a -> offered candidates !! S i = Some b ->
     TetherEndpointCandidate.endpoint a <> TetherEndpointCandidate.endpoint b) /\
  ((length (offered candidates) < 16)%nat -> forall c, c ∈ candidates ->
     exists c', c' ∈ offered candidates /\
                TetherEndpointCandidate.endpoint c' = TetherEndpointCandidate.endpoint c) /\
  (Forall well_formed candidates -> forall i j a b, (i < j)%nat ->
     offered candidates !! i = Some a -> offered candidates !! j = Some b ->
     TetherEndpointCandidate.adapter_name a = TetherEndpointCandidate.adapter_name b ->
     TetherEndpointCandidate.endpoint a <> TetherEndpointCandidate.endpoint b).
Proof.
  unfold offered. set (sorted := sort_by offered_before candidates). set (kept := dedup_by _ sorted).
  assert (Hsub : take MAX_CANDIDATES kept `sublist_of` sorted).
  { etrans; [apply sublist_take|apply dedup_by_sublist]. }
  assert (Hin : forall c, c ∈ take MAX_CANDIDATES kept -> c ∈ candidates) by apply offered_subset.
  assert (Hsorted : StronglySorted (fun a b => offered_before a b = true) (take MAX_CANDIDATES kept)).
  { eapply sublist_sorted; [exact Hsub|]. apply sort_by_sorted; eauto using offered_before_total, offered_before_trans. }
  assert (Hnext : forall i a b, take MAX_CANDIDATES kept !! i = Some a -> take MAX_CANDIDATES kept !! S i = Some b ->
    TetherEndpointCandidate.endpoint a <> TetherEndpointCandidate.endpoint b).
  { intros i a b Ha Hb. apply lookup_take_Some in Ha as [Ha _], Hb as [Hb _]. by eapply dedup_by_neighbours. }
  split; [rewrite length_take; unfold MAX_CANDIDATES; lia|]. do 3 (split; [done|]). split.
  - intros Hlen c Hc. rewrite length_take in Hlen. rewrite take_ge by (unfold MAX_CANDIDATES in *; lia).
    apply dedup_by_keys. by apply elem_of_sort_by.
  - intros Hwf i j a b Hij Ha Hb Hn He. rewrite Forall_forall in Hwf.
    assert (Hw : forall k c, take MAX_CANDIDATES kept !! k = Some c -> well_formed c)
      by (intros k c Hk; by apply Hwf, Hin, (list_elem_of_lookup_2 _ k)).
    destruct (decide (j = S i)) as [->|Hj]; [by apply (Hnext i a b)|].
    destruct (lookup_lt_is_Some_2 (take MAX_CANDIDATES kept) (S i)) as [m Hm].
    { apply lookup_lt_Some in Hb. lia. }
    apply (Hnext i a m Ha Hm). apply (between_same a m b); eauto.
    + by eapply (sorted_lookup _ _ Hsorted i (S i)); [lia|..].
    + by eapply (sorted_lookup _ _ Hsorted (S i) j); [lia|..].
Qed.

(** ** The calls of a discovery *)
Inductive TetherEntry : Type :=
| ListOpened (devices : option nat)
| ListDestroyed (devices : nat)
| DeviceFound (devices : nat) (info : Z)
| InstanceRead (device units : Z) (answer : Z * list Z)
| ParentRead (device : Z) (answer : Z * Z)
| KeyOpened (devices : nat) (info : Z) (key : option nat)
| KeyClosed (key : nat)
| ValueSized (key : nat) (answer : Z * Z * Z)
| ValueRead (key : nat) (count : Z) (answer : Z * Z * list byte)
| AdaptersAsked (bytes : Z) (answer : AdapterAnswer.t).

Definition right_of {A B} (s : A + B) : option B := match s with inr b => Some b | inl _ => None end.
Definition entered {W A} (log : list TetherEntry) (answer : W * A) : (W * list TetherEntry) * A := (fst answer, log, snd answer).

#[export] Instance recording_tether `{TetherOs W} : TetherOs (W * list TetherEntry) := {
  class_devices w := let r := class_devices (fst w) in entered (snd w ++ [ListOpened (right_of (snd r))]) r;
  destroy_device_list l w := (destroy_device_list l (fst w), snd w ++ [ListDestroyed l]);
  enum_device_info l i w :=
    let r := enum_device_info l i (fst w) in
    entered (match snd r with inr info => snd w ++ [DeviceFound l info] | inl _ => snd w end) r;
  device_id_size d w := entered (snd w) (device_id_size d (fst w));
  device_id d n w := let r := device_id d n (fst w) in entered (snd w ++ [InstanceRead d n (snd r)]) r;
  device_parent d w := let r := device_parent d (fst w) in entered (snd w ++ [ParentRead d (snd r)]) r;
  open_driver_key l i w := let r := open_driver_key l i (fst w) in entered (snd w ++ [KeyOpened l i (snd r)]) r;
  close_key k w := (close_key k (fst w), snd w ++ [KeyClosed k]);
  query_value_size k w := let r := query_value_size k (fst w) in entered (snd w ++ [ValueSized k (snd r)]) r;
  query_value k n w := let r := query_value k n (fst w) in entered (snd w ++ [ValueRead k n (snd r)]) r;
  get_adapters_addresses n w :=
    let r := get_adapters_addresses n (fst w) in entered (snd w ++ [AdaptersAsked n (snd r)]) r;
}.

(** One list of devices at a time, one key of it; the adapters are asked for when
    both are closed, at most three times, with the room that was asked for the time
    before, and not again after an answer. *)
Inductive Discovery : Type :=
| Asking (attempts : nat) (requested : Z)
| Listing (devices : nat)
| Reading (devices key : nat)
| Answered (answer : AdapterAnswer.t).

Definition same (b : bool) (s : Discovery) : option Discovery := if b then Some s else None.
Definition discovery_step (s : Discovery) (e : TetherEntry) : option Discovery :=
  match s, e with
  | Asking O _, ListOpened None => Some s
  | Asking O _, ListOpened (Some l) => Some (Listing l)
  | Listing l, ListDestroyed l' => same (bool_decide (l' = l)) (Asking 0 INITIAL_ADAPTER_BUFFER_BYTES)
  | Listing l, DeviceFound l' _ => same (bool_decide (l' = l)) s
  | Listing _, (InstanceRead _ _ _ | ParentRead _ _) => Some s
  | Listing l, KeyOpened l' _ key =>
    same (bool_decide (l' = l)) (match key with Some key => Reading l key | None => s end)
  | Reading _ k, (ValueSized k' _ | ValueRead k' _ _) => same (bool_decide (k' = k)) s
  | Reading l k, KeyClosed k' => same (bool_decide (k' = k)) (Listing l)
  | Asking n requested, AdaptersAsked bytes answer =>
    same ((n <? 3)%nat && (requested <=? MAX_ADAPTER_BUFFER_BYTES) && (bytes =? 8 * div_ceil requested 8))
      (if AdapterAnswer.result answer =? ERROR_BUFFER_OVERFLOW then Asking (S n) (AdapterAnswer.available_bytes answer)
       else Answered answer)
  | _, _ => None
  end.
Definition discovery (log : list TetherEntry) : option Discovery :=
  fold_left (fun s e => s ← s; discovery_step s e) log (Some (Asking 0 INITIAL_ADAPTER_BUFFER_BYTES)).
Lemma discovery_snoc log e : discovery (log ++ [e]) = (s ← discovery log; discovery_step s e).
Proof. unfold discovery. by rewrite fold_left_app. Qed.

(** A device below a USB bus, at most [n] levels up. *)
Inductive usb_below (log : list TetherEntry) : nat -> Z -> Prop :=
| usb_here n device units written :
  InstanceRead device units (CR_SUCCESS, written) ∈ log ->
  is_usb_instance (utf16_until_nul (filled 0 units written)) = true -> usb_below log (S n) device
| usb_parent n device parent :
  ParentRead device (CR_SUCCESS, parent) ∈ log -> usb_below log n parent -> usb_below log (S n) device.

(** The adapter identifier the registry holds for a device: one key was opened, read
    and closed. *)
Definition registered (log : list TetherEntry) (devices : nat) (info : Z) (guid : list byte) : Prop :=
  exists before after key count written,
    log = before ++ [KeyOpened devices info (Some key); ValueSized key (ERROR_SUCCESS, REG_SZ, count);
                     ValueRead key count (ERROR_SUCCESS, REG_SZ, written); KeyClosed key] ++ after /\
    guid = utf16_until_nul (le_units (filled x00 (2 * div_ceil count 2) (take (Z.to_nat count) written))).

(** The identifier of a network device that is connected over USB. *)
Definition usb_guid (log : list TetherEntry) (guid : string) : Prop :=
  exists devices info instance,
    DeviceFound devices info ∈ log /\ usb_below log MAX_DEVICE_ANCESTORS info /\
    registered log devices info instance /\ guid = normalize_adapter_guid instance.

Lemma usb_below_grows log log' n d : usb_below log n d -> log `prefix_of` log' -> usb_below log' n d.
Proof.
  intros H [rest ->]. induction H as [n d units written Hi Hu|n d p Hp _ IH].
  - eapply usb_here; [|exact Hu]. apply elem_of_app. by left.
  - eapply usb_parent; [|exact IH]. apply elem_of_app. by left.
Qed.
Lemma usb_guid_grows log log' g : usb_guid log g -> log `prefix_of` log' -> usb_guid log' g.
Proof.
  intros (l & i & t & Hf & Hu & (b & a & k & c & wr & -> & Ht) & Hg) Hp. exists l, i, t.
  split; [destruct Hp as [rest ->]; apply elem_of_app; by left|]. split; [by eapply usb_below_grows|].
  split; [|done]. destruct Hp as [rest ->]. exists b, (a ++ rest), k, c, wr. by rewrite <-!app_assoc.
Qed.

Section calls.
Context {W : Type} `{TetherOs W}.
Notation world := (W * list TetherEntry)%type.

Definition standing (s : Discovery) (w : world) : Prop := discovery (snd w) = Some s.
Lemma standing_snoc s w e s' : standing s w -> discovery_step s e = Some s' -> discovery (snd w ++ [e]) = Some s'.
Proof. unfold standing. intros Hw Hs. by rewrite discovery_snoc, Hw. Qed.

(** The state, and what was logged before. *)
Definition since (log : list TetherEntry) (s : Discovery) (w : world) : Prop := standing s w /\ log `prefix_of` snd w.
Lemma since_refl s w : standing s w -> since (snd w) s w.
Proof. by split. Qed.
Lemma since_snoc log s w w' e s' :
  since log s w -> snd w' = snd w ++ [e] -> discovery_step s e = Some s' -> since log s' w'.
Proof.
  intros [Hw Hl] E Hs. split; [unfold standing; rewrite E; by eapply standing_snoc|]. rewrite E.
  etrans; [exact Hl|]. by apply prefix_app_r.
Qed.
Lemma since_trans log log' s w : log `prefix_of` log' -> since log' s w -> since log s w.
Proof. intros Hl [Hw Hl']. split; [done|]. by etrans. Qed.

(** Runs in the state [s], with what they found out. *)
Definition finds {A} (log : list TetherEntry) (s : Discovery) (Q : A -> list TetherEntry -> Prop)
  (r : outcome string A) (w : world) : Prop :=
  since log s w /\ match r with Ok a => Q a (snd w) | Err _ => True | Fault _ => False end.

Lemma bind_finds {A B} log s P (m : io world string A) (k : A -> io world string B) (Q : B -> list TetherEntry -> Prop) from :
  run_of from m (finds log s P) ->
  (forall a, run_of (fun w => since log s w /\ P a (snd w)) (k a) (finds log s Q)) ->
  run_of from (ibind m k) (finds log s Q).
Proof.
  intros Hm Hk w Hw. specialize (Hm w Hw). unfold ibind. destruct (m w) as [w' [a|e|f]]; cbn in *; [by apply Hk|done|].
  by destruct Hm.
Qed.
Lemma ret_finds {A} log s (a : A) (Q : A -> list TetherEntry -> Prop) from :
  (forall w, from w -> since log s w /\ Q a (snd w)) -> run_of from (iret a) (finds log s Q).
Proof. intros H' w Hw. by apply H'. Qed.
(** One call, with the entry it leaves. *)
Lemma call_finds {A} log s (m : world -> world * A) (entry : A -> TetherEntry) (from : world -> Prop) :
  (forall w, snd (fst (m w)) = snd w ++ [entry (snd (m w))]) -> (forall a, discovery_step s (entry a) = Some s) ->
  (forall w, from w -> since log s w) -> run_of from (call m) (finds log s (fun a log' => entry a ∈ log')).
Proof.
  intros He Hs Hf w Hw. unfold call. specialize (He w). destruct (m w) as [w' a]. cbn in *.
  split; [by eapply since_snoc; [apply Hf|exact He|apply Hs]|]. rewrite He. apply elem_of_app. right. by left.
Qed.

Definition nothing {A} (_ : A) (_ : list TetherEntry) : Prop := True.
Lemma silent_finds {A} log s (m : world -> world * A) from :
  (forall w, snd (fst (m w)) = snd w) -> (forall w, from w -> since log s w) ->
  run_of from (call m) (finds log s nothing).
Proof.
  intros He Hf w Hw. unfold call. specialize (He w). specialize (Hf w Hw). destruct (m w) as [w' a]. cbn in *.
  split; [|done]. unfold since, standing in *. by rewrite He.
Qed.

Lemma instance_finds log l device :
  run_of (since log (Listing l)) (device_instance_id device) (finds log (Listing l) (fun instance log =>
    forall i, instance = Some i -> exists units written,
      InstanceRead device units (CR_SUCCESS, written) ∈ log /\ i = utf16_until_nul (filled 0 units written))).
Proof.
  unfold device_instance_id. eapply bind_finds; [by apply silent_finds|]. intros [code length].
  destruct (negb (code =? CR_SUCCESS)); [apply ret_finds; by intros w [? _]|]. cbv zeta.
  destruct (MAX_WINDOWS_STRING_UNITS <? length + 1); [apply ret_finds; by intros w [? _]|].
  eapply bind_finds; [apply (call_finds _ _ _ (InstanceRead device (length + 1))); [done..|]; by intros w [? _]|].
  intros [code' written]. destruct (Z.eqb_spec code' CR_SUCCESS) as [->|]; cbn [negb];
    [|apply ret_finds; intros w [? _]; by split].
  apply ret_finds. intros w [Hw Hi]. split; [done|]. intros i [= <-]. by exists (length + 1), written.
Qed.

Lemma ancestor_finds l depth : forall log device,
  run_of (since log (Listing l)) (has_usb_ancestor depth device)
    (finds log (Listing l) (fun usb log => usb = true -> usb_below log depth device)).
Proof.
  induction depth as [|depth IH]; intros log device; cbn [has_usb_ancestor]; [by apply ret_finds|].
  eapply bind_finds; [apply instance_finds|]. intros instance. cbv beta.
  destruct (if instance is Some instance then is_usb_instance instance else false) eqn:Hu.
  { apply ret_finds. intros w [Hw Hi]. split; [done|]. intros _. destruct instance as [i|]; [|done].
    destruct (Hi i eq_refl) as (units & written & Hin & ->). by eapply usb_here. }
  eapply bind_finds; [apply (call_finds _ _ _ (ParentRead device)); [done..|]; by intros w [? _]|].
  intros [code parent]. cbv beta iota. destruct (Z.eqb_spec code CR_SUCCESS) as [->|]; cbn [negb];
    [|apply ret_finds; by intros w [? _]].
  intros w [Hw Hp]. destruct (IH log parent w Hw) as [Hs Hr]. split; [done|].
  destruct (snd (has_usb_ancestor depth parent w)) as [b|e|f]; [|done..]. intros Hb.
  destruct (IH (snd w) parent w (since_refl _ _ (proj1 Hw))) as [[_ Hl] _].
  eapply usb_parent; [|by apply Hr]. by eapply elem_of_prefix.
Qed.

Lemma query_runs key w : exists r entries,
  snd (query_instance_id key w) = Ok r /\ snd (fst (query_instance_id key w)) = snd w ++ entries /\
  (forall l, Forall (fun e => discovery_step (Reading l key) e = Some (Reading l key)) entries) /\
  forall g, r = Some g -> exists count written,
    entries = [ValueSized key (ERROR_SUCCESS, REG_SZ, count); ValueRead key count (ERROR_SUCCESS, REG_SZ, written)] /\
    g = utf16_until_nul (le_units (filled x00 (2 * div_ceil count 2) (take (Z.to_nat count) written))).
Proof.
  assert (Hsize : forall l a, discovery_step (Reading l key) (ValueSized key a) = Some (Reading l key))
    by (intros l a; cbn; by rewrite bool_decide_eq_true_2).
  assert (Hread : forall l n a, discovery_step (Reading l key) (ValueRead key n a) = Some (Reading l key))
    by (intros l n a; cbn; by rewrite bool_decide_eq_true_2).
  unfold query_instance_id, call, ibind. cbn [query_value_size recording_tether entered]. unfold entered. cbv zeta.
  destruct (query_value_size key (fst w)) as [w1 [[first value_type] count]]. cbn [fst snd].
  destruct (Z.eqb_spec first ERROR_SUCCESS) as [->|]; cbn [negb orb].
  2: { eexists None, _. split_and!; [done..| |done]. intros l; by repeat constructor. }
  destruct (Z.eqb_spec value_type REG_SZ) as [->|]; cbn [negb orb].
  2: { eexists None, _. split_and!; [done..| |done]. intros l; by repeat constructor. }
  destruct (count <? 2); [eexists None, _; split_and!; [done..| |done]; intros l; by repeat constructor|].
  cbv zeta. destruct (MAX_WINDOWS_STRING_UNITS <? _); [eexists None, _; split_and!; [done..| |done]; intros l; by repeat constructor|].
  cbn [query_value recording_tether]. unfold entered. cbv zeta. cbn [fst snd].
  destruct (query_value key count w1) as [w2 [[second value_type] written]]. cbn [fst snd].
  destruct (Z.eqb_spec second ERROR_SUCCESS) as [->|]; cbn [andb];
    [|eexists None, _; split_and!; [done|symmetry; apply app_assoc|intros l; by repeat constructor|done]].
  destruct (Z.eqb_spec value_type REG_SZ) as [->|]; cbn [andb];
    [|eexists None, _; split_and!; [done|symmetry; apply app_assoc|intros l; by repeat constructor|done]].
  eexists (Some _), _. split_and!; [done|symmetry; apply app_assoc|intros l; by repeat constructor|].
  intros g [= <-]. by exists count, written.
Qed.

Lemma standing_app s w entries :
  standing s w -> Forall (fun e => discovery_step s e = Some s) entries -> discovery (snd w ++ entries) = Some s.
Proof.
  intros Hw He. unfold standing, discovery in *. rewrite fold_left_app, Hw.
  induction He as [|e entries He _ IH]; [done|]. cbn [fold_left]. cbn. by rewrite He.
Qed.

Lemma netcfg_finds log l info :
  run_of (since log (Listing l)) (read_netcfg_instance_id l info) (finds log (Listing l) (fun guid log =>
    forall g, guid = Some g -> registered log l info g)).
Proof.
  intros w [Hw Hl]. unfold read_netcfg_instance_id, ibind, call. cbn [open_driver_key recording_tether]. unfold entered.
  cbv zeta. destruct (open_driver_key l info (fst w)) as [w1 key]. cbn [fst snd].
  assert (Ho : discovery (snd w ++ [KeyOpened l info key]) =
               Some (match key with Some key => Reading l key | None => Listing l end)).
  { eapply standing_snoc; [exact Hw|]. cbn. by rewrite bool_decide_eq_true_2 by done. }
  destruct key as [key|]; [|split; [split; [exact Ho|by apply prefix_app_r]|done]].
  unfold ifinally. set (wo := (w1, snd w ++ [KeyOpened l info (Some key)])).
  assert (Hwo : snd wo = snd w ++ [KeyOpened l info (Some key)]) by done. rewrite <-Hwo in Ho. clearbody wo.
  destruct (query_runs key wo) as (r & entries & Hr & He & Hsteps & Hg).
  destruct (query_instance_id key wo) as [w2 r']. cbn in Hr, He. subst r'. cbn [fst snd close_key recording_tether].
  assert (Hq : discovery (snd wo ++ entries) = Some (Reading l key)) by (by apply standing_app).
  assert (Hlog : snd w2 ++ [KeyClosed key] = snd w ++ [KeyOpened l info (Some key)] ++ entries ++ [KeyClosed key])
    by (rewrite He, Hwo; by rewrite <-!app_assoc).
  split.
  - split; [|cbn; rewrite Hlog; by apply prefix_app_r]. unfold standing. cbn [fst snd]. rewrite discovery_snoc, He, Hq. cbn.
    by rewrite bool_decide_eq_true_2.
  - cbn. intros g Hrg. destruct (Hg g Hrg) as (count & written & -> & ->).
    exists (snd w), [], key, count, written. by rewrite Hlog.
Qed.

Lemma guids_find l count : forall log index guids,
  run_of (fun w => since log (Listing l) w /\ forall g, g ∈ guids -> usb_guid (snd w) g) (usb_guids_from count index l guids)
    (finds log (Listing l) (fun guids log => forall g, g ∈ guids -> usb_guid log g)).
Proof.
  induction count as [|count IH]; intros log index guids; cbn [usb_guids_from]; [by intros w [Hw Hg]|].
  eapply (bind_finds _ _ (fun found log' => (forall g, g ∈ guids -> usb_guid log' g) /\
                          forall info, found = inr info -> DeviceFound l info ∈ log')).
  { intros w [Hw Hg]. unfold call. cbn [enum_device_info recording_tether]. unfold entered. cbv zeta. cbn [fst snd].
    destruct (enum_device_info l index (fst w)) as [w1 [error|info]]; cbn [fst snd]; [by split|].
    split; [eapply since_snoc; [exact Hw|done|]; cbn; by rewrite bool_decide_eq_true_2|]. split.
    - intros g Hin. eapply usb_guid_grows; [by apply Hg|]. by apply prefix_app_r.
    - intros i [= ->]. apply elem_of_app. right. by left. }
  intros [[error last_error]|info]; cbv beta iota.
  { intros w (Hw & Hg & _). by destruct (last_error =? ERROR_NO_MORE_ITEMS). }
  set (known := fun log' => (forall g, g ∈ guids -> usb_guid log' g) /\ DeviceFound l info ∈ log').
  assert (Hknown : forall a b, known a -> a `prefix_of` b -> known b).
  { intros a b [Ha Hd] Hp. split; [intros g Hin; eapply usb_guid_grows; eauto|by eapply elem_of_prefix]. }
  eapply (bind_finds _ _ (fun usb log' => known log' /\ (usb = true -> usb_below log' MAX_DEVICE_ANCESTORS info))).
  { intros w (Hw & Hg & Hd). specialize (Hd info eq_refl). destruct (ancestor_finds l MAX_DEVICE_ANCESTORS (snd w) info w (since_refl _ _ (proj1 Hw))) as [Hs Hr].
    split; [eapply since_trans; [apply Hw|exact Hs]|]. destruct (snd (has_usb_ancestor _ info w)); [|done..].
    split; [|done]. eapply Hknown; [by split|apply Hs]. }
  intros usb. cbv beta. destruct usb; cbn [negb].
  2: { eapply run_weaken; [apply (IH log)| |done]. intros w (Hw & [Hg _] & _). by split. }
  eapply (bind_finds _ _ (fun guid log' => forall g, g ∈ (match guid with Some guid => {[normalize_adapter_guid guid]} ∪ guids | None => guids end) -> usb_guid log' g)).
  { intros w (Hw & Hk & Hu). specialize (Hu eq_refl). destruct (netcfg_finds (snd w) l info w (since_refl _ _ (proj1 Hw))) as [Hs Hr].
    split; [eapply since_trans; [apply Hw|exact Hs]|]. destruct (snd (read_netcfg_instance_id l info w)) as [guid|e|f]; [|done..].
    destruct (Hknown _ _ Hk (proj2 Hs)) as [Hg' Hd']. destruct guid as [guid|]; [|done].
    intros g [->%elem_of_singleton|Hg]%elem_of_union; [|by apply Hg'].
    exists l, info, guid. split; [done|]. split; [by eapply usb_below_grows; [|apply Hs]|]. split; [by apply Hr|done]. }
  intros guid. apply IH.
Qed.

Definition all_usb (guids : gset string) (log : list TetherEntry) : Prop := forall g, g ∈ guids -> usb_guid log g.
Notation start := (Asking 0 INITIAL_ADAPTER_BUFFER_BYTES).

Lemma enumerate_ends :
  run_of (fun w => snd w = []) enumerate_usb_network_guids (finds [] start all_usb).
Proof.
  intros w Hw. unfold enumerate_usb_network_guids, ibind, call. cbn [class_devices recording_tether]. unfold entered.
  cbv zeta. rewrite Hw. cbn [fst snd]. destruct (class_devices (fst w)) as [w1 [error|l]]; cbn [fst snd right_of app].
  { split; [|done]. split; [done|apply prefix_nil]. }
  unfold ifinally. set (wl := (w1, [ListOpened (Some l)])).
  destruct (guids_find l (Z.to_nat MAX_NETWORK_DEVICES) [] 0 ∅ wl) as [[Hs _] Hr].
  { split; [split; [done|apply prefix_nil]|]. by intros g ?%elem_of_empty. }
  destruct (usb_guids_from _ 0 l ∅ wl) as [w2 r]. cbn [fst snd] in *.
  split.
  - split; [|apply prefix_nil]. eapply standing_snoc; [exact Hs|]. cbn. by rewrite bool_decide_eq_true_2.
  - destruct r as [guids|e|f]; [|done..]. intros g Hg. eapply usb_guid_grows; [by apply Hr|]. by apply prefix_app_r.
Qed.

(** What is closed at the end, and what a success says. *)
Definition closed (w : world) : Prop :=
  exists s, standing s w /\ match s with Asking _ _ | Answered _ => True | _ => False end.
Definition listed (guids : gset string) (r : outcome string (list TetherEndpointCandidate.t)) (w : world) : Prop :=
  match r with
  | Ok candidates =>
    exists answer, standing (Answered answer) w /\ AdapterAnswer.result answer = ERROR_SUCCESS /\
      candidates = collect_gateway_candidates MAX_ADAPTERS (AdapterAnswer.adapters answer) guids [] /\
      all_usb guids (snd w)
  | Err _ => closed w
  | Fault _ => False
  end.

Lemma adapters_end guids attempts : forall n requested, (n + attempts)%nat = 3%nat ->
  run_of (fun w => standing (Asking n requested) w /\ all_usb guids (snd w)) (try_adapters attempts requested guids)
    (listed guids).
Proof.
  induction attempts as [|attempts IH]; intros n requested Hn w [Hw Hg]; cbn [try_adapters]; [by eexists|].
  destruct (Z.ltb_spec MAX_ADAPTER_BUFFER_BYTES requested) as [|Hmax]; [by eexists|]. cbv zeta.
  unfold size_of_usize. destruct (checked 32 _) as [bytes|] eqn:Hb; cbn [ok_or]; [|by eexists].
  rewrite (ibind_step (ilift (Ok bytes)) _ w w bytes) by done.
  assert (bytes = 8 * div_ceil requested 8) as ->.
  { unfold checked, saturating_mul in Hb. destruct (_ && _) eqn:Hrange; [|done]. injection Hb as <-.
    apply andb_true_iff in Hrange as [_ Hr%Z.ltb_lt]. revert Hr. unfold MAX_ADAPTER_BUFFER_BYTES in Hmax.
    assert (div_ceil requested 8 <= 131072) by (apply Z.lt_succ_r, Z.div_lt_upper_bound; lia).
    generalize dependent (div_ceil requested 8). intros q Hq _. unfold u_max, usize_bits.
    change (2 ^ 64 - 1) with 18446744073709551615. lia. }
  destruct (get_adapters_addresses (8 * div_ceil requested 8) (fst w)) as [w1 answer] eqn:Ha.
  set (wa := (w1, snd w ++ [AdaptersAsked (8 * div_ceil requested 8) answer])).
  rewrite (ibind_step (call (get_adapters_addresses _)) _ w wa answer)
    by (unfold call; cbn [get_adapters_addresses recording_tether]; unfold entered; by rewrite Ha).
  assert (Hs : standing (if AdapterAnswer.result answer =? ERROR_BUFFER_OVERFLOW
                         then Asking (S n) (AdapterAnswer.available_bytes answer) else Answered answer) wa).
  { eapply standing_snoc; [exact Hw|]. destruct n as [|[|[|n]]]; [| | |lia];
      cbn -[Z.mul div_ceil Z.eqb]; rewrite Z.eqb_refl, (proj2 (Z.leb_le _ _) Hmax); reflexivity. }
  assert (Hga : all_usb guids (snd wa)).
  { intros g Hin. eapply usb_guid_grows; [by apply Hg|]. by apply prefix_app_r. }
  clearbody wa. destruct (AdapterAnswer.result answer =? ERROR_BUFFER_OVERFLOW); [by apply (IH (S n)); [lia|]|].
  destruct (Z.eqb_spec (AdapterAnswer.result answer) ERROR_SUCCESS) as [He|]; cbn [negb]; [|by eexists].
  by exists answer.
Qed.

(** A whole discovery. *)
Definition discovered (r : outcome string TetherDiscoveryReport.t) (w : world) : Prop :=
  match r with
  | Ok report => exists guids candidates answer,
      standing (Answered answer) w /\ AdapterAnswer.result answer = ERROR_SUCCESS /\ all_usb guids (snd w) /\
      report = TetherDiscoveryReport.mk (offered candidates) (discovery_detail (offered candidates)) /\
      candidates = collect_gateway_candidates MAX_ADAPTERS (AdapterAnswer.adapters answer) guids []
  | Err _ => closed w
  | Fault _ => False
  end.
Lemma discovery_ends : run_of (fun w => snd w = []) discover_tether_endpoints discovered.
Proof.
  unfold discover_tether_endpoints. eapply run_bind; [apply enumerate_ends|intros s e [[Hs _] _]; by eexists|by intros s f [_ []]|].
  intros guids. cbv beta. eapply (run_bind _ (listed guids)); [|by intros s e Hc|by intros s f Hf|].
  - eapply run_weaken; [apply (adapters_end guids 3 0 _ eq_refl)| |by intros r s Hr]. by intros w [[Hw _] Hg].
  - intros candidates. cbv beta. intros w (answer & Hs & Hr & Hc & Hg). by exists guids, candidates, answer.
Qed.
(** The evidence for a gateway. *)
Definition evidenced (log : list TetherEntry) (answer : AdapterAnswer.t) (c : TetherEndpointCandidate.t) : Prop :=
  exists adapter gateway address,
    adapter ∈ AdapterAnswer.adapters answer /\ AdapterAddresses.OperStatus adapter = IfOperStatusUp /\
    usb_guid log (normalize_adapter_guid (adapter_name (AdapterAddresses.AdapterName adapter))) /\
    gateway ∈ AdapterAddresses.gateways adapter /\ gateway_address gateway address /\
    c = candidate (display_name adapter) address /\
    parse_tether_endpoint (str (TetherEndpointCandidate.endpoint c)) =
      Ok (SocketAddrV4.mk address DEFAULT_TETHER_PORT).
Lemma collected_evidence guids log answer c :
  all_usb guids log -> c ∈ collect_gateway_candidates MAX_ADAPTERS (AdapterAnswer.adapters answer) guids [] ->
  evidenced log answer c.
Proof.
  intros Hg Hc%collected.
  destruct Hc as (ad & g & address & Had & Hup & Hguid & Hgw & Hu & ->). exists ad, g, address.
  split; [by eapply elem_of_take_inv|]. split; [done|]. split; [by apply Hg|]. split; [by eapply elem_of_take_inv|]. split; [done|].
  split; [done|]. rewrite candidate_endpoint. by eapply parse_offered.
Qed.
Lemma discovered_evidence report w : discovered (Ok report) w ->
  exists answer, standing (Answered answer) w /\ AdapterAnswer.result answer = ERROR_SUCCESS /\
    Forall (evidenced (snd w) answer) (TetherDiscoveryReport.candidates report).
Proof.
  intros (guids & cs & answer & Hs & Hr & Hg & Hreport & Hcs).
  assert (Hc : TetherDiscoveryReport.candidates report = offered cs) by (by rewrite Hreport).
  exists answer. split; [done|]. split; [done|]. rewrite Hc. apply Forall_forall. intros c Hin%offered_subset.
  rewrite Hcs in Hin. by eapply collected_evidence.
Qed.
End calls.

(** Whatever Windows answers, discovery ends with a result, and by then it has
    closed every registry key and the list of devices it opened. It reads one key at a
    time, asks for the adapters at most three times with a buffer of at most one
    mebibyte, each time of the size Windows asked for before. *)
Theorem tether_discovery_ends_closed `{TetherOs W} (w : W) :
  let (end_, result) := discover_tether_endpoints (w, []) in
  returns result /\ closed end_.
Proof.
  pose proof (discovery_ends (w, []) eq_refl) as Hd. revert Hd. generalize (discover_tether_endpoints (w, [])).
  intros [w' [r|e|f]] Hd; cbn [fst snd] in Hd; [|by split|done].
  destruct Hd as (guids & cs & answer & Hs & _). split; [done|by eexists].
Qed.

(** C14: every gateway offered was in Windows' answer, with an IPv4 address on a
    private, shared or link-local network, on an adapter that was up and whose
    identifier the registry gave for a present network device with a device of the USB
    bus among itself and its fifteen nearest ancestors; and pairing accepts the
    endpoint offered for it. *)
Theorem offered_gateways_are_on_usb `{TetherOs W} (w : W) :
  let (end_, result) := discover_tether_endpoints (w, []) in
  forall report, result = Ok report ->
  exists answer, standing (Answered answer) end_ /\ AdapterAnswer.result answer = ERROR_SUCCESS /\
    Forall (evidenced (snd end_) answer) (TetherDiscoveryReport.candidates report).
Proof.
  pose proof (discovery_ends (w, []) eq_refl) as Hd. revert Hd. generalize (discover_tether_endpoints (w, [])).
  intros [w' r] Hd report Hr. cbn [fst snd] in Hd. rewrite Hr in Hd. by apply discovered_evidence.
Qed.

(** ** Concrete runs *)
Module TetherDiscoveryExamples.
Definition units (s : string) : list Z := map byte_to_Z (str s).
Definition utf16 (s : string) : list byte := concat (map (fun b => [b; x00]) (str s)).

(** A network device below a USB device of a phone, and one that is not. *)
Definition gateway (a b c d : byte) : GatewayAddress.t := GatewayAddress.mk (Some (SOCKADDR.mk AF_INET a b c d)) 16.
Definition phone_gateway : GatewayAddress.t := gateway xc0 xa8 x2a x81.
Definition public_gateway : GatewayAddress.t := gateway x08 x08 x08 x08.
Definition adapters : list AdapterAddresses.t :=
  [AdapterAddresses.mk 2 (Some (str "{A1B2}")) (Some (units "USB (down)")) None [phone_gateway];
   AdapterAddresses.mk 1 (Some (str "{C3D4}")) (Some (units "Office")) None [gateway x0a x00 x00 x01];
   AdapterAddresses.mk 1 (Some (str "{A1B2}")) (Some (0 :: units "ignored")) (Some (units "Remote NDIS"))
     [public_gateway; phone_gateway]].
#[local] Instance desk : TetherOs unit := {
  class_devices w := (w, inr 1%nat);
  destroy_device_list _ w := w;
  enum_device_info _ i w :=
    (w, if i =? 0 then inr 20 else if i =? 1 then inr 30 else inl ("No more data is available.", 259));
  device_id_size d w := (w, (CR_SUCCESS, 9));
  device_id d _ w := (w, (CR_SUCCESS, units (if d =? 21 then "usb\VID_1" else "SWD\PHONE")));
  device_parent d w := (w, (if d =? 20 then CR_SUCCESS else 13, d + 1));
  open_driver_key _ i w := (w, Some 5%nat);
  close_key _ w := w;
  query_value_size _ w := (w, (ERROR_SUCCESS, REG_SZ, 14));
  query_value _ _ w := (w, (ERROR_SUCCESS, REG_SZ, utf16 "{a1b2}" ++ [x00; x00]));
  get_adapters_addresses n w :=
    (w, if n <? 20000 then AdapterAnswer.mk ERROR_BUFFER_OVERFLOW 20001 [] else AdapterAnswer.mk ERROR_SUCCESS n adapters);
}.
Notation found := (discover_tether_endpoints (tt, @nil TetherEntry)).

Definition phone : TetherEndpointCandidate.t :=
  TetherEndpointCandidate.mk "192.168.42.129:49231" "Remote NDIS" "192.168.42.129"
    "USB device-tree parent and active private IPv4 gateway".
Example discovery_finds_the_phone :
  map TetherDiscoveryReport.candidates (match snd found with Ok r => [r] | _ => [] end) = [[phone]].
Proof. vm_compute. reflexivity. Qed.
Example guids_are_normalized : normalize_adapter_guid (str " {A1B2C3D4-E5F6-47A8-9012-3456789ABCDE} ") = "a1b2c3d4-e5f6-47a8-9012-3456789abcde".
Proof. vm_compute. reflexivity. Qed.

(** [dedup_by] compares neighbours in the order of the names, so an endpoint that two
    adapters report is listed twice when each has another gateway. *)
Definition shared (name : string) : list TetherEndpointCandidate.t :=
  map (candidate name) [Ipv4Addr.mk 192 168 42 1; Ipv4Addr.mk 192 168 42 2].
Example shared_endpoints_are_listed_twice :
  offered (shared "Ethernet 2" ++ shared "Ethernet 3") = shared "Ethernet 2" ++ shared "Ethernet 3".
Proof. vm_compute. reflexivity. Qed.

Lemma offered_gateways_are_on_usb_witness :
  exists report answer, snd found = Ok report /\
    standing (Answered answer) (fst found) /\
    Forall (evidenced (snd (fst found)) answer) (TetherDiscoveryReport.candidates report) /\
    TetherDiscoveryReport.candidates report = [phone].
Proof.
  assert (Hf : exists w report, found = (w, Ok report) /\ TetherDiscoveryReport.candidates report = [phone])
    by (eexists _, _; vm_compute; split; reflexivity).
  pose proof (offered_gateways_are_on_usb tt) as Ht.
  revert Ht Hf. generalize found.
  intros [end_ result] Ht (w & report & [= -> ->] & Hp).
  destruct (Ht report eq_refl) as (answer & Hs & _ & He). exists report, answer.
  split; [reflexivity|]. split; [exact Hs|]. split; [exact He|exact Hp].
Defined.
End TetherDiscoveryExamples.
