(* ===== verification/WinVideo.v ===== *)
(** * Conversion of captured frames on Windows

    Models [apps/desktop/src-tauri/src/platform/windows/video_processor.rs]: the
    Direct3D video processor that turns a captured BGRA surface into the NV12
    texture of the encoder, and the Direct3D device of a capture, which
    [platform/windows.rs] makes. Direct3D is the class [D3dOs]; its objects are
    numbers, released when they are dropped. *)
From stdpp Require Import pretty.
From S2P Require Export RustIo RustInt.
Local Open Scope string_scope.
Local Open Scope list_scope.
Local Open Scope Z_scope.

(** ** Direct3D

    Constants of the Windows headers. *)
Definition DXGI_FORMAT_B8G8R8A8_UNORM : Z := 87.
Definition DXGI_FORMAT_NV12 : Z := 103.
Definition D3D11_VIDEO_PROCESSOR_FORMAT_SUPPORT_INPUT : Z := 1.
Definition D3D11_VIDEO_PROCESSOR_FORMAT_SUPPORT_OUTPUT : Z := 2.
Definition D3D11_BIND_RENDER_TARGET : Z := 32.
Inductive D3D_DRIVER_TYPE : Type :=
| HARDWARE
| WARP.

Module TextureDesc.
Record t : Type := mk {
  Width : Z;
  Height : Z;
  MipLevels : Z;
  ArraySize : Z;
  Format : Z;
  SampleCount : Z;
  BindFlags : Z;
}.
#[global] Instance t_eq_dec : EqDecision t.
Proof. solve_decision. Defined.
End TextureDesc.

(** Frame rates are whole numbers; progressive frames and the optimal-speed usage are
    the only ones asked for. *)
Module ContentDesc.
Record t : Type := mk { rate : Z; InputWidth : Z; InputHeight : Z; OutputWidth : Z; OutputHeight : Z }.
End ContentDesc.

Module VideoRect.
Record t : Type := mk { left : Z; top : Z; right : Z; bottom : Z }.
#[global] Instance t_eq_dec : EqDecision t.
Proof. solve_decision. Defined.
End VideoRect.

(** Calls that only succeed or fail, on the device or what was made from it. *)
Inductive D3dCall : Type :=
| CastVideoDevice
| GetImmediateContext
| CastVideoContext
| CastDxgiDevice
| WrapDxgiDevice
| CastRuntimeDevice
| VideoProcessorBlt (processor output_view input_view frame_index : Z).
(** Calls that answer with an object. *)
Inductive D3dCreate : Type :=
| CreateVideoProcessorEnumerator (content : ContentDesc.t)
| CreateVideoProcessor (enumerator : Z).
(** Calls that put an object into an argument, where it may be missing. *)
Inductive D3dMake : Type :=
| MakeTexture (description : TextureDesc.t)
| MakeOutputView (texture enumerator : Z)
| MakeInputView (texture enumerator : Z).
(** Settings of a processor, without a result. *)
Inductive D3dSetting : Type :=
| SetOutputTargetRect (rect : VideoRect.t)
| SetStreamFrameFormat
| SetStreamSourceRect (rect : VideoRect.t)
| SetStreamDestRect (rect : VideoRect.t).

Class D3dOs (W : Type) : Type := {
  d3d_call : Z -> D3dCall -> W -> W * outcome string unit;
  d3d_create : Z -> D3dCreate -> W -> W * outcome string Z;
  d3d_make : Z -> D3dMake -> W -> W * outcome string (option Z);
  check_processor_format : Z -> Z -> W -> W * outcome string Z;
  processor_set : Z -> D3dSetting -> W -> W;
  get_desc : Z -> W -> W * TextureDesc.t;
  create_d3d11_device : D3D_DRIVER_TYPE -> W -> W * outcome string (option Z);
}.

(** ** Checks *)
Definition validate_dimensions (input_width input_height output_width output_height fps : Z) : outcome string unit :=
  if (input_width =? 0) || (input_height =? 0)
  then Err "D3D11 video processor input dimensions must be non-zero"
  else if (output_width =? 0) || (output_height =? 0) || negb (output_width mod 2 =? 0) || negb (output_height mod 2 =? 0)
  then Err "D3D11 NV12 output dimensions must be non-zero and even"
  else if fps =? 0 then Err "D3D11 video processor frame rate must be non-zero"
  else Ok tt.

Definition checked_rect (width height : Z) : outcome string VideoRect.t :=
  let! right_ := ok_or (checked_i 32 width) "D3D11 video width exceeds RECT range" in
  let! bottom := ok_or (checked_i 32 height) "D3D11 video height exceeds RECT range" in
  Ok (VideoRect.mk 0 0 right_ bottom).

Section d3d.
Context {W : Type} `{D3dOs W}.
Notation io := (RustIo.io W string).

Definition d3d_labelled {A} (label : string) (m : io A) : io A := imap_err (fun error => label +:+ ": " +:+ error) m.
(** An object that is there. *)
Definition made (device : Z) (what : D3dMake) (label missing : string) : io Z :=
  let* object := d3d_labelled label (d3d_make device what) in
  ilift (ok_or object missing).

Definition require_format_support (enumerator format required : Z) (label : string) : io unit :=
  let* flags := d3d_labelled ("failed to query D3D11 " +:+ label +:+ " support") (check_processor_format enumerator format) in
  let* required := ilift (ok_or (checked 32 required) ("invalid D3D11 " +:+ label +:+ " support flag")) in
  if Z.land flags required =? 0 then ifail ("D3D11 video processor does not support " +:+ label) else iret tt.

Definition texture_description (texture : Z) : io TextureDesc.t := fun w =>
  let (w, description) := get_desc texture w in (w, Ok description).

Definition create_nv12_texture (device width height bind_flags : Z) : io Z :=
  made device (MakeTexture (TextureDesc.mk width height 1 1 DXGI_FORMAT_NV12 1 bind_flags))
    "failed to create D3D11 NV12 texture" "D3D11 created no NV12 texture".
End d3d.

(** ** The processor *)
Module BgraToNv12Processor.
Record t : Type := mk {
  device : Z;
  enumerator : Z;
  processor : Z;
  output_texture : Z;
  output_view : Z;
  input_width : Z;
  input_height : Z;
  frame_index : Z;
}.
Definition set_frame_index (self : t) (v : Z) : t :=
  mk (device self) (enumerator self) (processor self) (output_texture self) (output_view self) (input_width self)
     (input_height self) v.
Definition input_dimensions (self : t) : Z * Z := (input_width self, input_height self).

Section methods.
Context {W : Type} `{D3dOs W}.
Notation io := (RustIo.io W string).

Definition new (device input_width input_height output_width output_height fps : Z) : io t :=
  let* _ := ilift (validate_dimensions input_width input_height output_width output_height fps) in
  let* _ := d3d_labelled "D3D11 device has no video interface" (d3d_call device CastVideoDevice) in
  let* _ := d3d_labelled "failed to get D3D11 immediate context" (d3d_call device GetImmediateContext) in
  let* _ := d3d_labelled "D3D11 context has no video interface" (d3d_call device CastVideoContext) in
  let* enumerator := d3d_labelled "failed to create D3D11 video enumerator"
    (d3d_create device (CreateVideoProcessorEnumerator
       (ContentDesc.mk fps input_width input_height output_width output_height))) in
  let* _ := require_format_support enumerator DXGI_FORMAT_B8G8R8A8_UNORM D3D11_VIDEO_PROCESSOR_FORMAT_SUPPORT_INPUT "BGRA input" in
  let* _ := require_format_support enumerator DXGI_FORMAT_NV12 D3D11_VIDEO_PROCESSOR_FORMAT_SUPPORT_OUTPUT "NV12 output" in
  let* processor := d3d_labelled "failed to create D3D11 video processor"
    (d3d_create device (CreateVideoProcessor enumerator)) in
  let* bind_flags := ilift (ok_or (checked 32 D3D11_BIND_RENDER_TARGET) "invalid D3D11 render-target flag") in
  let* output_texture := create_nv12_texture device output_width output_height bind_flags in
  let* output_view := made device (MakeOutputView output_texture enumerator)
    "failed to create NV12 processor output view" "D3D11 created no NV12 processor output view" in
  let* source_rect := ilift (checked_rect input_width input_height) in
  let* destination_rect := ilift (checked_rect output_width output_height) in
  let* _ := iput (processor_set processor (SetOutputTargetRect destination_rect)) in
  let* _ := iput (processor_set processor SetStreamFrameFormat) in
  let* _ := iput (processor_set processor (SetStreamSourceRect source_rect)) in
  let* _ := iput (processor_set processor (SetStreamDestRect destination_rect)) in
  iret (mk device enumerator processor output_texture output_view input_width input_height 0).

Definition changed_texture (self : t) (description : TextureDesc.t) : string :=
  "captured texture changed from " +:+ pretty (input_width self) +:+ "x" +:+
  pretty (input_height self) +:+ " BGRA to " +:+ pretty (TextureDesc.Width description) +:+ "x" +:+
  pretty (TextureDesc.Height description) +:+ " format " +:+ pretty (TextureDesc.Format description).

Definition convert (input : Z) : RustIo.io (t * W) string Z :=
  let* self := iget fst in
  let* description := on_world (texture_description input) in
  if negb (TextureDesc.Width description =? input_width self) ||
     negb (TextureDesc.Height description =? input_height self) ||
     negb (TextureDesc.Format description =? DXGI_FORMAT_B8G8R8A8_UNORM)
  then ifail (changed_texture self description)
  else
    let* input_view := on_world (made (device self)
      (MakeInputView input (enumerator self))
      "failed to create BGRA processor input view" "D3D11 created no BGRA processor input view") in
    let* _ := on_world (d3d_labelled "D3D11 BGRA-to-NV12 blit failed"
      (d3d_call (device self)
         (VideoProcessorBlt (processor self) (output_view self) input_view
            (frame_index self)))) in
    let* _ := iput (fun s => (set_frame_index (fst s)
      (wrapping 32 (frame_index (fst s) + 1)), snd s)) in
    iret (output_texture self).
End methods.
End BgraToNv12Processor.

(** ** The device of a capture *)
Module CaptureDevice.
(** [backend] names how the device was made. *)
Record t : Type := mk { native : Z; backend : string }.
End CaptureDevice.

Section capture_device.
Context {W : Type} `{D3dOs W}.
Notation io := (RustIo.io W string).

Definition create_native_d3d11_device (driver_type : D3D_DRIVER_TYPE) : io Z :=
  let* device := create_d3d11_device driver_type in
  ilift (ok_or device "D3D11CreateDevice returned no device").

Definition wrap_capture_device (native_device : Z) (backend : string) : io CaptureDevice.t :=
  let* _ := d3d_labelled "failed to query IDXGIDevice" (d3d_call native_device CastDxgiDevice) in
  let* _ := d3d_labelled "failed to wrap D3D11 device for WinRT" (d3d_call native_device WrapDxgiDevice) in
  let* _ := d3d_labelled "failed to query WinRT IDirect3DDevice" (d3d_call native_device CastRuntimeDevice) in
  iret (CaptureDevice.mk native_device backend).

Definition create_capture_device : io CaptureDevice.t :=
  let* hardware := icatch (create_native_d3d11_device HARDWARE) in
  match hardware with
  | Ok device => wrap_capture_device device "hardware"
  | Fault f => ifault f
  | Err hardware_error =>
    let* warp := icatch (create_native_d3d11_device WARP) in
    match warp with
    | Ok device => wrap_capture_device device "WARP fallback"
    | Fault f => ifault f
    | Err warp_error =>
      ifail ("failed to create D3D11 device (hardware: " +:+ hardware_error +:+ "; WARP: " +:+ warp_error +:+ ")")
    end
  end.
End capture_device.

(** ** What happens to the objects *)
Inductive VideoEntry : Type :=
| Called (device : Z) (what : D3dCall) (succeeded : bool)
| Created (device : Z) (what : D3dCreate) (object : option Z)
| Made (device : Z) (what : D3dMake) (object : option Z)
| FormatChecked (enumerator format : Z) (flags : option Z)
| ProcessorSet (processor : Z) (setting : D3dSetting)
| Described (texture : Z) (description : TextureDesc.t)
| DeviceMade (driver_type : D3D_DRIVER_TYPE) (device : option Z).

Definition answer_of {A} (r : outcome string A) : option A := match r with Ok a => Some a | _ => None end.
Definition present {A} (r : outcome string (option A)) : option A := match r with Ok a => a | _ => None end.
Definition done_ {A} (r : outcome string A) : bool := match r with Ok _ => true | _ => false end.
Definition with_entry {W A} (log : list VideoEntry) (answer : W * A) : (W * list VideoEntry) * A :=
  (fst answer, log, snd answer).

#[export] Instance recording_d3d `{D3dOs W} : D3dOs (W * list VideoEntry) := {
  d3d_call d c w := let r := d3d_call d c (fst w) in with_entry (snd w ++ [Called d c (done_ (snd r))]) r;
  d3d_create d c w := let r := d3d_create d c (fst w) in with_entry (snd w ++ [Created d c (answer_of (snd r))]) r;
  d3d_make d m w := let r := d3d_make d m (fst w) in with_entry (snd w ++ [Made d m (present (snd r))]) r;
  check_processor_format e f w :=
    let r := check_processor_format e f (fst w) in with_entry (snd w ++ [FormatChecked e f (answer_of (snd r))]) r;
  processor_set p s w := (processor_set p s (fst w), snd w ++ [ProcessorSet p s]);
  get_desc t w := let r := get_desc t (fst w) in with_entry (snd w ++ [Described t (snd r)]) r;
  create_d3d11_device t w :=
    let r := create_d3d11_device t (fst w) in with_entry (snd w ++ [DeviceMade t (present (snd r))]) r;
}.

(** A call of Direct3D answers. *)
Class D3dOsLaws (W : Type) `{D3dOs W} : Prop := {
  d3d_call_returns d c (w : W) : returns (snd (d3d_call d c w));
  d3d_create_returns d c (w : W) : returns (snd (d3d_create d c w));
  d3d_make_returns d m (w : W) : returns (snd (d3d_make d m w));
  check_format_returns e f (w : W) : returns (snd (check_processor_format e f w));
  create_device_returns t (w : W) : returns (snd (create_d3d11_device t w));
}.

Section steps.
Context {W : Type} `{D3dOsLaws W}.
Notation world := (W * list VideoEntry)%type.

(** What is left in the log by one step, when it succeeds and when it fails. *)
Definition leaves {A} (m : io world string A) (entries : outcome string A -> list VideoEntry -> Prop) : Prop :=
  forall w, exists es, snd (fst (m w)) = snd w ++ es /\ returns (snd (m w)) /\ entries (snd (m w)) es.

Lemma call_leaves d c label :
  leaves (d3d_labelled label (d3d_call d c)) (fun r es => es = [Called d c (done_ r)]).
Proof.
  intros w. exists [Called d c (done_ (snd (d3d_call d c (fst w))))]. unfold d3d_labelled, imap_err. cbn.
  pose proof (d3d_call_returns d c (fst w)). by destruct (d3d_call d c (fst w)) as [w' []].
Qed.
Lemma create_leaves d c label :
  leaves (d3d_labelled label (d3d_create d c)) (fun r es => es = [Created d c (answer_of r)]).
Proof.
  intros w. exists [Created d c (answer_of (snd (d3d_create d c (fst w))))]. unfold d3d_labelled, imap_err. cbn.
  pose proof (d3d_create_returns d c (fst w)). by destruct (d3d_create d c (fst w)) as [w' []].
Qed.
Lemma made_leaves d m label missing :
  leaves (made d m label missing) (fun r es => es = [Made d m (answer_of r)]).
Proof.
  intros w. exists [Made d m (present (snd (d3d_make d m (fst w))))].
  unfold made, d3d_labelled, imap_err, ibind, ilift. cbn.
  pose proof (d3d_make_returns d m (fst w)). by destruct (d3d_make d m (fst w)) as [w' [[]| |]].
Qed.
Lemma format_leaves e f required label :
  leaves (require_format_support e f required label) (fun r es => exists flags, es = [FormatChecked e f flags] /\
    (r = Ok tt -> exists v, flags = Some v /\ Z.land v required <> 0)).
Proof.
  intros w. exists [FormatChecked e f (answer_of (snd (check_processor_format e f (fst w))))].
  unfold require_format_support, d3d_labelled, imap_err, ibind, ilift. cbn.
  pose proof (check_format_returns e f (fst w)) as Hr.
  destruct (check_processor_format e f (fst w)) as [w' [flags|e'|f']]; cbn in *;
    [|split; [done|split; [done|]]; eexists; split; [done|discriminate]|done].
  destruct (checked 32 required) as [v|] eqn:Hc; cbn; [|split; [done|split; [done|]]; eexists; split; [done|discriminate]].
  unfold checked in Hc. case_match; [|done]. injection Hc as <-.
  destruct (Z.eqb_spec (Z.land flags required) 0); cbn; (split; [done|split; [done|]]; eexists; split; [done|]); [discriminate|].
  intros _. by exists flags.
Qed.

(** No setting was made. *)
Definition unset_ (log : list VideoEntry) : Prop :=
  Forall (fun e => match e with ProcessorSet _ _ => False | _ => True end) log.
Definition setting_up {A} (Q : A -> list VideoEntry -> Prop) (r : outcome string A) (w : world) : Prop :=
  match r with Ok a => Q a (snd w) | Err _ => unset_ (snd w) | Fault _ => False end.

Lemma bind_leaves {A B} (m : io world string A) entries (k : A -> io world string B) Q log :
  leaves m entries -> (forall r es, entries r es -> unset_ es) -> unset_ log ->
  (forall a es, entries (Ok a) es -> unset_ (log ++ es) -> run_of (fun w => snd w = log ++ es) (k a) (setting_up Q)) ->
  run_of (fun w => snd w = log) (ibind m k) (setting_up Q).
Proof.
  intros Hm Hu Hlog Hk w Hw. destruct (Hm w) as (es & He & Hr & Hes). rewrite Hw in He. unfold ibind.
  destruct (m w) as [w' [a|e|f]]; cbn in *; [|rewrite He; apply Forall_app; split; [done|by eapply Hu]|done].
  apply (Hk a es); [done| |done]. apply Forall_app; split; [done|by eapply Hu].
Qed.
Lemma bind_checked {A B} (m : outcome string A) (k : A -> io world string B) Q log :
  returns m -> unset_ log -> (forall a, m = Ok a -> run_of (fun w => snd w = log) (k a) (setting_up Q)) ->
  run_of (fun w => snd w = log) (ibind (ilift m) k) (setting_up Q).
Proof.
  intros Hm Hlog Hk. apply run_bind_lift; [done|intros e w Hw; cbn; by rewrite Hw|by intros f w _ ->].
Qed.
End steps.

Lemma returns_checked_rect w h : returns (checked_rect w h).
Proof. unfold checked_rect. auto with rust. Qed.
Lemma checked_rect_ok w h rect : checked_rect w h = Ok rect -> rect = VideoRect.mk 0 0 w h /\ in_i 32 w /\ in_i 32 h.
Proof.
  unfold checked_rect, checked_i. case_bool_decide; [|done]. cbn. case_bool_decide; [|done]. cbn. by intros [= <-].
Qed.

(** The sizes of a conversion. *)
Record convertible (input_width input_height output_width output_height fps : Z) : Prop := {
  convertible_input : input_width <> 0 /\ input_height <> 0;
  convertible_output : output_width <> 0 /\ output_height <> 0 /\ output_width mod 2 = 0 /\ output_height mod 2 = 0;
  convertible_rate : fps <> 0;
}.
Lemma validate_dimensions_spec iw ih ow oh fps :
  returns (validate_dimensions iw ih ow oh fps) /\ (validate_dimensions iw ih ow oh fps = Ok tt <-> convertible iw ih ow oh fps).
Proof.
  unfold validate_dimensions. split; [by repeat case_match|]. split.
  - destruct ((iw =? 0) || (ih =? 0)) eqn:Hi; [done|].
    destruct ((ow =? 0) || (oh =? 0) || negb (ow mod 2 =? 0) || negb (oh mod 2 =? 0)) eqn:Ho; [done|].
    destruct (fps =? 0) eqn:Hf; [done|]. intros _. split; lia.
  - intros [[? ?] (? & ? & E1 & E2) ?]. rewrite E1, E2.
    by rewrite (proj2 (Z.eqb_neq iw 0)), (proj2 (Z.eqb_neq ih 0)), (proj2 (Z.eqb_neq ow 0)), (proj2 (Z.eqb_neq oh 0)),
      (proj2 (Z.eqb_neq fps 0)) by done.
Qed.

(** The calls that set a processor up. *)
Definition processor_calls (device input_width input_height output_width output_height fps : Z)
  (input_flags output_flags : Z) (p : BgraToNv12Processor.t) : list VideoEntry :=
  let en := BgraToNv12Processor.enumerator p in
  let source := VideoRect.mk 0 0 input_width input_height in
  let destination := VideoRect.mk 0 0 output_width output_height in
  [Called device CastVideoDevice true; Called device GetImmediateContext true; Called device CastVideoContext true;
   Created device (CreateVideoProcessorEnumerator
     (ContentDesc.mk fps input_width input_height output_width output_height)) (Some en);
   FormatChecked en DXGI_FORMAT_B8G8R8A8_UNORM (Some input_flags); FormatChecked en DXGI_FORMAT_NV12 (Some output_flags);
   Created device (CreateVideoProcessor en) (Some (BgraToNv12Processor.processor p));
   Made device (MakeTexture (TextureDesc.mk output_width output_height 1 1 DXGI_FORMAT_NV12 1 D3D11_BIND_RENDER_TARGET))
     (Some (BgraToNv12Processor.output_texture p));
   Made device (MakeOutputView (BgraToNv12Processor.output_texture p) en) (Some (BgraToNv12Processor.output_view p));
   ProcessorSet (BgraToNv12Processor.processor p) (SetOutputTargetRect destination);
   ProcessorSet (BgraToNv12Processor.processor p) SetStreamFrameFormat;
   ProcessorSet (BgraToNv12Processor.processor p) (SetStreamSourceRect source);
   ProcessorSet (BgraToNv12Processor.processor p) (SetStreamDestRect destination)].

(** A processor as [new] leaves it, with what was asked of Direct3D. *)
Definition set_up (device iw ih ow oh fps : Z) (p : BgraToNv12Processor.t) (log : list VideoEntry) : Prop :=
  exists input_flags output_flags,
    convertible iw ih ow oh fps /\ in_i 32 iw /\ in_i 32 ih /\ in_i 32 ow /\ in_i 32 oh /\
    Z.land input_flags D3D11_VIDEO_PROCESSOR_FORMAT_SUPPORT_INPUT <> 0 /\
    Z.land output_flags D3D11_VIDEO_PROCESSOR_FORMAT_SUPPORT_OUTPUT <> 0 /\
    log = processor_calls device iw ih ow oh fps input_flags output_flags p /\
    BgraToNv12Processor.device p = device /\ BgraToNv12Processor.input_dimensions p = (iw, ih) /\
    BgraToNv12Processor.frame_index p = 0.

Lemma new_sets_up `{D3dOsLaws W} device iw ih ow oh fps :
  run_of (fun w : W * list VideoEntry => snd w = []) (BgraToNv12Processor.new device iw ih ow oh fps)
    (setting_up (set_up device iw ih ow oh fps)).
Proof.
  unfold BgraToNv12Processor.new, create_nv12_texture. destruct (validate_dimensions_spec iw ih ow oh fps) as [Hv Hvok].
  apply bind_checked; [done|constructor|]. intros [] Hvalid%Hvok.
  assert (Hone : forall e, match e with ProcessorSet _ _ => False | _ => True end -> unset_ [e]) by (intros; by constructor).
  do 3 (eapply bind_leaves; [apply call_leaves|intros ? ? ->; by apply Hone|first [done|constructor]|]; intros [] ? -> ?).
  eapply bind_leaves; [apply create_leaves|intros ? ? ->; by apply Hone|done|]. intros en ? -> ?.
  eapply bind_leaves; [apply format_leaves|intros ? ? (? & -> & _); by apply Hone|done|].
  intros [] ? (? & -> & Hf1) ?. destruct (Hf1 eq_refl) as (f1 & -> & Hl1).
  eapply bind_leaves; [apply format_leaves|intros ? ? (? & -> & _); by apply Hone|done|].
  intros [] ? (? & -> & Hf2) ?. destruct (Hf2 eq_refl) as (f2 & -> & Hl2).
  eapply bind_leaves; [apply create_leaves|intros ? ? ->; by apply Hone|done|]. intros pr ? -> ?.
  apply bind_checked; [done|done|]. intros flags [= <-].
  eapply bind_leaves; [apply made_leaves|intros ? ? ->; by apply Hone|done|]. intros tx ? -> ?.
  eapply bind_leaves; [apply made_leaves|intros ? ? ->; by apply Hone|done|]. intros ov ? -> ?.
  apply bind_checked; [apply returns_checked_rect|done|]. intros source (-> & ? & ?)%checked_rect_ok.
  apply bind_checked; [apply returns_checked_rect|done|]. intros destination (-> & ? & ?)%checked_rect_ok.
  intros w0 Hw0. cbn. rewrite Hw0. exists f1, f2. by rewrite <-!app_assoc.
Qed.

(** A video processor is set up by exactly one sequence of calls: on a device with
    video interfaces, for sizes that are positive, even on the NV12 side and within the
    range of a rectangle, and only if the device takes BGRA and gives NV12; it starts
    with frame number zero. If anything fails, the error is returned and no processor
    was configured. *)
Theorem video_processor_is_set_up `{D3dOsLaws W} device iw ih ow oh fps (w : W) :
  let '((w', log), r) := BgraToNv12Processor.new device iw ih ow oh fps (w, []) in
  match r with
  | Ok p => set_up device iw ih ow oh fps p log
  | Err _ => unset_ log
  | Fault _ => False
  end.
Proof.
  pose proof (new_sets_up device iw ih ow oh fps (w, []) eq_refl) as Hrun. revert Hrun.
  generalize (BgraToNv12Processor.new device iw ih ow oh fps (w, [])). intros [[w' log] [p|e|f]] Hrun; exact Hrun.
Qed.

(** ** A session of conversions

    A frame is described, then viewed, then blitted; the next number is used, and
    used up only by a blit that succeeds. *)
Inductive ConversionStage : Type :=
| BetweenFrames
| FrameFits (texture : Z)
| FrameViewed (view : Z).
Record Conversions : Type := mk_conversions { next_index : Z; stage : ConversionStage }.

Definition fits (p : BgraToNv12Processor.t) (d : TextureDesc.t) : bool :=
  (TextureDesc.Width d =? BgraToNv12Processor.input_width p) &&
  (TextureDesc.Height d =? BgraToNv12Processor.input_height p) && (TextureDesc.Format d =? DXGI_FORMAT_B8G8R8A8_UNORM).
Definition conversion_step (p : BgraToNv12Processor.t) (s : Conversions) (e : VideoEntry) : option Conversions :=
  match stage s, e with
  | BetweenFrames, Described texture d =>
    Some (mk_conversions (next_index s) (if fits p d then FrameFits texture else BetweenFrames))
  | FrameFits texture, Made device (MakeInputView texture' enumerator) view =>
    if bool_decide (device = BgraToNv12Processor.device p /\ texture' = texture /\ enumerator = BgraToNv12Processor.enumerator p)
    then Some (mk_conversions (next_index s) (match view with Some view => FrameViewed view | None => BetweenFrames end))
    else None
  | FrameViewed view, Called device (VideoProcessorBlt processor output view' index) succeeded =>
    if bool_decide (device = BgraToNv12Processor.device p /\ processor = BgraToNv12Processor.processor p /\
                    output = BgraToNv12Processor.output_view p /\ view' = view /\ index = next_index s)
    then Some (mk_conversions (if succeeded : bool then wrapping 32 (next_index s + 1) else next_index s) BetweenFrames)
    else None
  | _, _ => None
  end.
Definition conversions (p : BgraToNv12Processor.t) (log : list VideoEntry) : option Conversions :=
  fold_left (fun s e => s ← s; conversion_step p s e) log (Some (mk_conversions (BgraToNv12Processor.frame_index p) BetweenFrames)).

Section session.
Context {W : Type} `{D3dOsLaws W} (p : BgraToNv12Processor.t).
Notation world := (W * list VideoEntry)%type.

(** The conversion of each texture in turn, whatever the others gave. *)
Fixpoint convert_all (inputs : list Z) (s : BgraToNv12Processor.t * world) :
  BgraToNv12Processor.t * world * list (outcome string Z) :=
  match inputs with
  | [] => (s, [])
  | input :: inputs =>
    let (s, r) := BgraToNv12Processor.convert input s in
    let (s, rs) := convert_all inputs s in (s, r :: rs)
  end.

Definition converted (n : Z) (s : BgraToNv12Processor.t * world) : Prop :=
  fst s = BgraToNv12Processor.set_frame_index p n /\
  conversions p (snd (snd s)) = Some (mk_conversions n BetweenFrames).

Lemma conversions_snoc log e : conversions p (log ++ [e]) = (s ← conversions p log; conversion_step p s e).
Proof. unfold conversions. by rewrite fold_left_app. Qed.

Lemma convert_goes_on input n s : converted n s ->
  let (s', r) := BgraToNv12Processor.convert input s in
  converted (match r with Ok _ => wrapping 32 (n + 1) | _ => n end) s' /\
  match r with Ok output => output = BgraToNv12Processor.output_texture p | Err _ => True | Fault _ => False end.
Proof.
  destruct s as [self w]. intros [Hself Hlog]. cbn [fst snd] in *. subst self.
  unfold BgraToNv12Processor.convert. set (q := BgraToNv12Processor.set_frame_index p n).
  rewrite (ibind_step (iget fst) _ _ (q, w) q) by done. rewrite ibind_world.
  change (texture_description input w) with (fst (get_desc input (fst w)), snd w ++ [Described input (snd (get_desc input (fst w)))],
    Ok (E:=string) (snd (get_desc input (fst w)))). cbn [fst snd].
  destruct (get_desc input (fst w)) as [w1 d]. cbn [fst snd]. set (log1 := snd w ++ [Described input d]).
  assert (H1 : conversions p log1 = Some (mk_conversions n (if fits p d then FrameFits input else BetweenFrames)))
    by (unfold log1; by rewrite conversions_snoc, Hlog).
  assert (Hfit : fits p d = negb (negb (TextureDesc.Width d =? BgraToNv12Processor.input_width q) ||
    negb (TextureDesc.Height d =? BgraToNv12Processor.input_height q) || negb (TextureDesc.Format d =? DXGI_FORMAT_B8G8R8A8_UNORM)))
    by (unfold fits, q; cbn; by rewrite !negb_orb, !negb_involutive).
  rewrite Hfit in H1. destruct (_ || _); cbn [negb] in H1; [by split|]. clear Hfit. rewrite ibind_world.
  destruct (made_leaves (BgraToNv12Processor.device q) (MakeInputView input (BgraToNv12Processor.enumerator q))
    "failed to create BGRA processor input view" "D3D11 created no BGRA processor input view" (w1, log1)) as (es & Hes & Hr & He).
  revert Hes Hr He. generalize (made (BgraToNv12Processor.device q) (MakeInputView input (BgraToNv12Processor.enumerator q))
    "failed to create BGRA processor input view" "D3D11 created no BGRA processor input view" (w1, log1)).
  intros [[w2 log2] r]. cbn [fst snd]. intros Hes Hr He. subst es.
  assert (H2 : conversions p log2 = Some (mk_conversions n (match answer_of r with Some view => FrameViewed view | None => BetweenFrames end)))
    by (rewrite Hes, conversions_snoc, H1; cbn; by rewrite bool_decide_eq_true_2 by done).
  destruct r as [view|e|f]; [|by split|destruct Hr]. cbn [answer_of] in H2. rewrite ibind_world.
  set (blit := VideoProcessorBlt (BgraToNv12Processor.processor q) (BgraToNv12Processor.output_view q) view
    (BgraToNv12Processor.frame_index q)).
  destruct (call_leaves (BgraToNv12Processor.device q) blit "D3D11 BGRA-to-NV12 blit failed" (w2, log2)) as (es & Hes3 & Hr3 & He3).
  revert Hes3 Hr3 He3.
  generalize (d3d_labelled "D3D11 BGRA-to-NV12 blit failed" (d3d_call (BgraToNv12Processor.device q) blit) (w2, log2)).
  intros [[w3 log3] r]. cbn [fst snd]. intros Hes3 Hr3 He3. subst es.
  assert (H3 : conversions p log3 = Some (mk_conversions (if done_ r then wrapping 32 (n + 1) else n) BetweenFrames))
    by (rewrite Hes3, conversions_snoc, H2; cbn; by rewrite bool_decide_eq_true_2 by done).
  destruct r as [[]|e|f]; [by split|by split|destruct Hr3].
Qed.

Definition converted_count (rs : list (outcome string Z)) : Z := zlen (List.filter done_ rs).

Lemma convert_all_goes_on inputs : forall n s, converted n s -> in_u 32 n ->
  let (s', rs) := convert_all inputs s in
  converted (wrapping 32 (n + converted_count rs)) s' /\ length rs = length inputs /\
  Forall (fun r => match r with Ok output => output = BgraToNv12Processor.output_texture p | Err _ => True | Fault _ => False end) rs.
Proof.
  induction inputs as [|input inputs IH]; intros n s Hs Hn; cbn [convert_all].
  { unfold converted_count, wrapping. cbn. rewrite Z.add_0_r, Z.mod_small by done. by split_and!. }
  pose proof (convert_goes_on input n s Hs) as Hc. destruct (BgraToNv12Processor.convert input s) as [s1 r]. destruct Hc as [Hs1 Hr].
  specialize (IH _ s1 Hs1). destruct (convert_all inputs s1) as [s2 rs].
  destruct IH as (Hs2 & Hlen & Hrs); [destruct r; [apply Z.mod_pos_bound; lia|done..]|].
  split; [|split; [cbn; by rewrite Hlen|by constructor]].
  unfold converted_count in *. destruct r as [o|e|f]; cbn [List.filter done_] in *; [|done..].
  replace (wrapping 32 (n + zlen (Ok o :: List.filter done_ rs))) with
    (wrapping 32 (wrapping 32 (n + 1) + zlen (List.filter done_ rs))); [done|].
  unfold wrapping. rewrite Zplus_mod_idemp_l. f_equal. cbn [length]. lia.
Qed.
End session.

(** Whatever textures arrive, every conversion answers, and a session of them is in
    order: only a texture of the size and format the processor was made for is viewed
    and blitted, one blit per view, into the one output texture that every success
    returns; frame numbers follow each other modulo 2^32 and only a blit that succeeds
    uses one up. *)
Theorem conversions_are_in_order `{D3dOsLaws W} p inputs (w : W) (Hp : in_u 32 (BgraToNv12Processor.frame_index p)) :
  let '((p', (w', log)), results) := convert_all inputs (p, (w, [])) in
  conversions p log = Some (mk_conversions (BgraToNv12Processor.frame_index p') BetweenFrames) /\
  p' = BgraToNv12Processor.set_frame_index p
    (wrapping 32 (BgraToNv12Processor.frame_index p + converted_count results)) /\
  length results = length inputs /\
  Forall (fun r => match r with Ok output => output = BgraToNv12Processor.output_texture p | Err _ => True | Fault _ => False end)
    results.
Proof.
  pose proof (convert_all_goes_on p inputs (BgraToNv12Processor.frame_index p) (p, (w, []))) as Ha.
  destruct (convert_all inputs (p, (w, []))) as [[p' [w' log]] rs]. destruct Ha as ([Hp' Hlog] & Hlen & Hrs).
  - split; [by destruct p|done].
  - done.
  - cbn in Hp', Hlog. subst p'. by split_and!.
Qed.

(** ** Concrete runs *)
Module VideoExamples.
(** A device whose objects are numbered by the calls made so far. Texture 9 is a
    captured frame; every other texture is of another size. *)
Definition frame_desc (t : Z) : TextureDesc.t :=
  TextureDesc.mk (if t =? 9 then 1920 else 800) 1080 1 1 DXGI_FORMAT_B8G8R8A8_UNORM 1 0.
#[local] Instance gpu : D3dOs Z := {
  d3d_call _ _ w := (w, Ok tt);
  d3d_create _ _ w := (w + 1, Ok w);
  d3d_make _ _ w := (w + 1, Ok (Some w));
  check_processor_format _ _ w := (w, Ok 3);
  processor_set _ _ w := w;
  get_desc t w := (w, frame_desc t);
  create_d3d11_device _ w := (w + 1, Ok (Some w));
}.
#[local] Instance gpu_laws : D3dOsLaws Z.
Proof. by split. Qed.

Definition processor : BgraToNv12Processor.t := BgraToNv12Processor.mk 1 10 11 12 13 1920 1080 0.
Example processor_is_made :
  snd (BgraToNv12Processor.new 1 1920 1080 1280 720 60 10) = Ok processor.
Proof. reflexivity. Qed.
Example odd_output_is_refused :
  snd (BgraToNv12Processor.new 1 1920 1080 1281 720 60 10) = Err "D3D11 NV12 output dimensions must be non-zero and even".
Proof. reflexivity. Qed.
Example size_change_is_refused :
  snd (BgraToNv12Processor.convert 5 (processor, 10)) =
    Err "captured texture changed from 1920x1080 BGRA to 800x1080 format 87".
Proof. vm_compute. reflexivity. Qed.

Lemma video_processor_is_set_up_witness :
  exists log, set_up 1 1920 1080 1280 720 60 processor log.
Proof.
  pose proof (video_processor_is_set_up 1 1920 1080 1280 720 60 10) as Ht.
  assert (Hr : exists w log, BgraToNv12Processor.new 1 1920 1080 1280 720 60 (10, []) = ((w, log), Ok processor))
    by (eexists _, _; reflexivity).
  destruct Hr as (w & log & Hr). rewrite Hr in Ht. exists log. exact Ht.
Defined.

Lemma conversions_are_in_order_witness :
  in_u 32 (BgraToNv12Processor.frame_index processor) /\
  exists p' log, conversions processor log = Some (mk_conversions 2 BetweenFrames) /\
    p' = BgraToNv12Processor.set_frame_index processor 2.
Proof.
  assert (Hp : in_u 32 (BgraToNv12Processor.frame_index processor)) by (cbn; unfold in_u; lia).
  split; [exact Hp|]. pose proof (conversions_are_in_order processor [9; 5; 9] 10 Hp) as Ht.
  assert (Hr : exists w log rs, convert_all [9; 5; 9] (processor, (10, [])) =
    ((BgraToNv12Processor.set_frame_index processor 2, (w, log)), rs)) by (eexists _, _, _; reflexivity).
  destruct Hr as (w & log & rs & Hr). rewrite Hr in Ht. destruct Ht as (Hlog & _). eexists _, log. split; [exact Hlog|reflexivity].
Defined.
End VideoExamples.
