(* ===== verification/WinMediaKept.v ===== *)
(** * What the encoder and the processor leave alone

    Properties of the world that every call of Media Foundation, or of Direct3D,
    preserves are preserved by the code of [WinEncoder] and of [WinVideo]. *)
From S2P Require Export WinEncoder WinVideo.
Local Open Scope string_scope.
Local Open Scope list_scope.
Local Open Scope Z_scope.

(** [P] is preserved by every call of Media Foundation, or of Direct3D; then so it is by
    the code that makes them. *)
Class KeptByMedia {W} `{MediaOs W} (P : W -> Prop) : Prop := {
  kept_call tr c : keeps P (call tr c);
  kept_enum : keeps P enum_encoders;
  kept_attribute tr key : keeps P (transform_u32 tr key);
  kept_manager tr : keeps P (create_dxgi_manager tr);
  kept_lock tr : keeps P (lock_buffer tr);
  kept_event tr w : P w -> P (fst (get_event tr w));
  kept_info tr : keeps P (output_stream_info tr);
  kept_output tr size w : P w -> P (fst (process_output tr size w));
  kept_available tr i : keeps P (output_available_type tr i);
  kept_clock w : P w -> P (fst (media_now w));
  kept_sleep d w : P w -> P (media_sleep d w);
}.
Class KeptByD3d {W} `{D3dOs W} (P : W -> Prop) : Prop := {
  kept_d3d_call d c : keeps P (d3d_call d c);
  kept_d3d_create d c : keeps P (d3d_create d c);
  kept_d3d_make d m : keeps P (d3d_make d m);
  kept_format e f : keeps P (check_processor_format e f);
  kept_setting p s w : P w -> P (processor_set p s w);
  kept_desc t w : P w -> P (fst (get_desc t w));
  kept_device t : keeps P (create_d3d11_device t);
}.

Create HintDb kept discriminated.
#[export] Hint Resolve kept_call kept_enum kept_manager kept_lock kept_info kept_available kept_d3d_call
  kept_d3d_create kept_d3d_make kept_format kept_device : kept.

(** Through the structure of a computation, down to lemmas of the database. *)
Ltac through :=
  match goal with
  | |- forall _, _ => intros ?; through
  | |- keeps _ (ibind _ _) => apply keeps_bind; through
  | |- keeps _ (imap_err _ _) => apply keeps_map_err; through
  | |- keeps _ (icatch _) => apply keeps_catch; through
  | |- keeps _ (iret _) => apply keeps_ret
  | |- keeps _ (ifail _) => apply keeps_fail
  | |- keeps _ (ifault _) => apply keeps_fault
  | |- keeps _ (ilift _) => apply keeps_lift
  | |- keeps _ (labelled _ _) => unfold labelled; through
  | |- keeps _ (ignored _) => unfold ignored; through
  | |- keeps _ (d3d_labelled _ _) => unfold d3d_labelled; through
  | |- keeps _ (match ?x with _ => _ end) => destruct x; through
  | |- keeps _ _ => try solve [auto with kept]
  end.

Section media.
Context {W : Type} `{MediaConstants} `{MediaOs W} (P : W -> Prop) `{!KeptByMedia P}.

Lemma keeping_now {E} : keeps P (WinEncoder.now_io (E:=E)).
Proof. intros w Hw. unfold WinEncoder.now_io. pose proof (kept_clock w Hw). by destruct (media_now w). Qed.
Lemma keeping_attribute tr key : keeps P (attribute_is_set tr key).
Proof. intros w Hw. unfold attribute_is_set. pose proof (kept_attribute tr key w Hw). by destruct (transform_u32 tr key w). Qed.
Lemma keeping_poll tr encoder : keeps P (poll_event tr encoder).
Proof.
  intros w Hw. unfold poll_event. pose proof (kept_event tr w Hw). destruct (get_event tr w) as [w' [event|e|f]]; [done| |done].
  destruct (WinError.error_code e); [by apply kept_sleep|done..].
Qed.
Hint Resolve keeping_now keeping_attribute keeping_poll : kept.

Lemma keeping_activations : keeps P hardware_h264_activations.
Proof. unfold hardware_h264_activations. through. Qed.
Lemma keeping_unlock tr : keeps P (unlock_if_asynchronous tr).
Proof. unfold unlock_if_asynchronous. through. Qed.
Lemma keeping_bind tr shared : keeps P (bind_d3d11_manager_if_supported tr shared).
Proof. unfold bind_d3d11_manager_if_supported. through. Qed.
Lemma keeping_drop_manager tr bound w : P w -> P (drop_d3d_manager tr bound w).
Proof. unfold drop_d3d_manager. destruct bound; [apply kept_call|done]. Qed.
Lemma keeping_attributes tr l : keeps P (set_attributes tr l).
Proof. induction l; cbn [set_attributes]; through. Qed.
Hint Resolve keeping_activations keeping_unlock keeping_bind keeping_attributes : kept.
Lemma keeping_video_type tr subtype uncompressed config : keeps P (create_video_type tr subtype uncompressed config).
Proof. unfold create_video_type. through. Qed.
Hint Resolve keeping_video_type : kept.
Lemma keeping_configure tr config : keeps P (configure_transform tr config).
Proof. unfold configure_transform. through. Qed.
Lemma keeping_codec_value tr p required label : keeps P (set_codec_value tr p required label).
Proof. unfold set_codec_value. through. Qed.
Hint Resolve keeping_configure keeping_codec_value : kept.
Lemma keeping_realtime tr config : keeps P (configure_realtime_codec tr config).
Proof. unfold configure_realtime_codec. through. Qed.
Lemma keeping_begin tr : keeps P (begin_stream tr).
Proof. unfold begin_stream. through. Qed.
Lemma keeping_end tr : keeps P (end_stream tr).
Proof. unfold end_stream. through. Qed.
Hint Resolve keeping_realtime keeping_begin keeping_end : kept.

(** *** The batch encoder *)
Lemma keeping_write_buffer tr l : keeps P (write_buffer tr l).
Proof. unfold write_buffer. through. Qed.
Hint Resolve keeping_write_buffer : kept.
Lemma keeping_nv12_sample tr config i : keeps P (create_nv12_sample tr config i).
Proof. unfold create_nv12_sample. through. Qed.
Lemma keeping_output_sample tr size : keeps P (create_output_sample tr size).
Proof. unfold create_output_sample. through. Qed.
Lemma keeping_output_types n tr : forall i failures, keeps P (try_output_types n tr i failures).
Proof. induction n; intros i failures; cbn [try_output_types]; through. Qed.
Hint Resolve keeping_nv12_sample keeping_output_sample keeping_output_types : kept.
Lemma keeping_take_output tr : keeps P (take_output tr).
Proof.
  assert (Ho : forall size, keeps P (fun w => let (w, output) := process_output tr size w in (w, Ok (E:=string) output))).
  { intros size w Hw. pose proof (kept_output tr size w Hw). by destruct (process_output tr size w). }
  unfold take_output, renegotiate_output_type. through.
Qed.
Hint Resolve keeping_take_output : kept.
Lemma keeping_submit tr config start n : keeps P (submit_frame tr config start n).
Proof. unfold submit_frame. through. Qed.
Lemma keeping_drain tr : keeps P (drain_messages tr).
Proof. unfold drain_messages. through. Qed.
Hint Resolve keeping_submit keeping_drain : kept.
Lemma keeping_pump fuel tr started config start count : forall units n draining,
  keeps P (pump_batch fuel tr started config start count units n draining).
Proof. induction fuel; intros units n draining; cbn [pump_batch]; through. Qed.
Lemma keeping_take_outputs fuel tr : forall units, keeps P (take_outputs fuel tr units).
Proof. induction fuel; intros units; cbn [take_outputs]; through. Qed.
Hint Resolve keeping_pump keeping_take_outputs : kept.
Lemma keeping_submit_all fuel tr started config start count : forall units n,
  keeps P (submit_all fuel tr started config start count units n).
Proof. induction fuel; intros units n; cbn [submit_all]; through. Qed.
Lemma keeping_drain_outputs fuel tr started : forall units, keeps P (drain_outputs fuel tr started units).
Proof. induction fuel; intros units; cbn [drain_outputs]; through. Qed.
Hint Resolve keeping_submit_all keeping_drain_outputs : kept.
Lemma keeping_encode_async fuel tr started config start count : keeps P (encode_async fuel tr started config start count).
Proof. unfold encode_async. through. Qed.
Lemma keeping_encode_sync fuel tr started config start count : keeps P (encode_sync fuel tr started config start count).
Proof. unfold encode_sync. through. Qed.
Hint Resolve keeping_encode_async keeping_encode_sync : kept.
Lemma keeping_encode_bound fuel tr name started asynchronous config start count :
  keeps P (encode_bound fuel tr name started asynchronous config start count).
Proof. unfold encode_bound. through. Qed.
Hint Resolve keeping_encode_bound : kept.
Lemma keeping_encode_activation fuel tr name config start count : keeps P (encode_activation fuel tr name config start count).
Proof. unfold encode_activation. through. apply keeps_finally; [through|]. intros w. apply keeping_drop_manager. Qed.
Hint Resolve keeping_encode_activation : kept.
Lemma keeping_try_activations fuel activations config start count : forall failures,
  keeps P (try_activations fuel activations config start count failures).
Proof. induction activations; intros failures; cbn [try_activations]; through. Qed.
Hint Resolve keeping_try_activations : kept.
Lemma keeping_probe fuel : keeps P (probe_hardware_h264_encode fuel).
Proof. unfold probe_hardware_h264_encode, encode_synthetic_h264. through. Qed.
Lemma keeping_encoders : keeps P hardware_h264_encoders.
Proof. unfold hardware_h264_encoders. through. Qed.

(** *** The live encoder *)
Lemma keeping_on_error {E A} (m : io W E A) cleanup :
  keeps P m -> (forall w, P w -> P (cleanup w)) -> keeps P (ion_error m cleanup).
Proof. intros Hm Hc w Hw. specialize (Hm w Hw). unfold ion_error. destruct (m w) as [w' []]; simpl in *; auto. Qed.
Lemma keeping_configure_bound tr name asynchronous config bound :
  keeps P (HardwareH264Encoder.configure_bound tr name asynchronous config bound).
Proof. unfold HardwareH264Encoder.configure_bound. through. Qed.
Lemma keeping_start_activation tr name config : keeps P (HardwareH264Encoder.start_activation tr name config).
Proof.
  unfold HardwareH264Encoder.start_activation. through. apply keeping_on_error; [apply keeping_configure_bound|].
  intros w. apply keeping_drop_manager.
Qed.
Hint Resolve keeping_start_activation : kept.
Lemma keeping_start_first activations config : forall failures, keeps P (HardwareH264Encoder.start_first activations config failures).
Proof. induction activations; intros failures; cbn [HardwareH264Encoder.start_first]; through. Qed.
Hint Resolve keeping_start_first : kept.
Lemma keeping_start config : keeps P (HardwareH264Encoder.start config).
Proof. unfold HardwareH264Encoder.start. through. Qed.
Lemma keeping_drop self w : P w -> P (HardwareH264Encoder.drop self w).
Proof.
  intros Hw. unfold HardwareH264Encoder.drop. pose proof (keeping_end (HardwareH264Encoder.activation self) w Hw).
  destruct (end_stream _ w) as [w1 r]. apply kept_call, keeping_drop_manager. done.
Qed.

(** *** One texture *)
Notation owned := (fun s : HardwareH264Encoder.t * W => P (snd s)).
Lemma keeping_owned {T E A} (m : io W E A) : keeps P m -> keeps (fun s : T * W => P (snd s)) (on_world m).
Proof. intros Hm. by apply keeps_on_world. Qed.
Lemma keeping_with {A} (f : HardwareH264Encoder.t -> io W string A) : (forall e, keeps P (f e)) -> keeps owned (with_owned f).
Proof. intros Hf s. by apply (keeping_owned (f (fst s))). Qed.
Lemma keeping_set {E} (f : HardwareH264Encoder.t * W -> HardwareH264Encoder.t) : keeps owned (iput (E:=E) (fun s => (f s, snd s))).
Proof. by apply keeps_put. Qed.
Hint Resolve keeping_owned keeping_with keeping_set keeps_get : kept.
Lemma keeping_pump_event deadline : keeps owned (HardwareH264Encoder.pump_stream_event deadline).
Proof. unfold HardwareH264Encoder.pump_stream_event. through. Qed.
Hint Resolve keeping_pump_event : kept.
Lemma keeping_await_input fuel deadline : keeps owned (HardwareH264Encoder.await_input fuel deadline).
Proof. induction fuel; cbn [HardwareH264Encoder.await_input]; through. Qed.
Lemma keeping_await_output fuel deadline ts : forall b, keeps owned (HardwareH264Encoder.await_output fuel deadline ts b).
Proof. induction fuel; intros b; cbn [HardwareH264Encoder.await_output]; through. Qed.
Lemma keeping_texture_outputs fuel tr : forall outputs, keeps P (HardwareH264Encoder.take_texture_outputs fuel tr outputs).
Proof. induction fuel; intros outputs; cbn [HardwareH264Encoder.take_texture_outputs]; through. Qed.
Lemma keeping_process sample : keeps owned (HardwareH264Encoder.process_input sample).
Proof. apply keeping_with. intros e. through. Qed.
Lemma keeping_dxgi_sample tr texture ts d : keeps P (create_dxgi_sample tr texture ts d).
Proof. unfold create_dxgi_sample. through. Qed.
Hint Resolve keeping_await_input keeping_await_output keeping_texture_outputs keeping_process keeping_dxgi_sample : kept.
Lemma keeping_encode_texture fuel texture ts : keeps owned (HardwareH264Encoder.encode_texture fuel texture ts).
Proof.
  unfold HardwareH264Encoder.encode_texture, HardwareH264Encoder.encode_texture_async, HardwareH264Encoder.encode_texture_sync,
    HardwareH264Encoder.submit_texture, HardwareH264Encoder.drain_pending. through.
Qed.
End media.
#[export] Hint Resolve keeping_owned keeping_encode_texture : kept.
#[export] Hint Resolve keeping_probe keeping_encoders keeping_start : kept.

Section d3d.
Context {W : Type} `{D3dOs W} (P : W -> Prop) `{!KeptByD3d P}.

Lemma keeping_made d m label missing : keeps P (made d m label missing).
Proof. unfold made. through. Qed.
Lemma keeping_format e f required label : keeps P (require_format_support e f required label).
Proof. unfold require_format_support. through. Qed.
Hint Resolve keeping_made keeping_format : kept.
Lemma keeping_setting p s : keeps P (iput (E:=string) (processor_set p s)).
Proof. apply keeps_put. intros w. apply kept_setting. Qed.
Hint Resolve keeping_setting : kept.
Lemma keeping_new_processor device iw ih ow oh fps : keeps P (BgraToNv12Processor.new device iw ih ow oh fps).
Proof. unfold BgraToNv12Processor.new, create_nv12_texture. through. Qed.
Lemma keeping_wrap device backend : keeps P (wrap_capture_device device backend).
Proof. unfold wrap_capture_device. through. Qed.
Hint Resolve keeping_wrap : kept.
Lemma keeping_device : keeps P create_capture_device.
Proof. unfold create_capture_device, create_native_d3d11_device. through. Qed.
Lemma keeping_description texture : keeps P (texture_description texture).
Proof. intros w Hw. unfold texture_description. pose proof (kept_desc texture w Hw). by destruct (get_desc texture w). Qed.
Lemma keeping_convert input : keeps (fun s : BgraToNv12Processor.t * W => P (snd s)) (BgraToNv12Processor.convert input).
Proof.
  assert (Hw : forall A (m : io W string A), keeps P m -> keeps (fun s : BgraToNv12Processor.t * W => P (snd s)) (on_world m))
    by (intros; by apply keeps_on_world).
  unfold BgraToNv12Processor.convert. apply keeps_bind; [apply keeps_get|]. intros self.
  apply keeps_bind; [apply Hw, keeping_description|]. intros d. apply keeps_if; intros _; [apply keeps_fail|].
  apply keeps_bind; [apply Hw, keeping_made|]. intros view.
  apply keeps_bind; [apply Hw; unfold d3d_labelled; through|]. intros _.
  apply keeps_bind; [by apply keeps_put|intros _; apply keeps_ret].
Qed.
End d3d.
#[export] Hint Resolve keeping_description keeping_convert : kept.
#[export] Hint Resolve keeping_new_processor keeping_device : kept.
