(* ===== verification/WinCaptureLive.v ===== *)
(** * The capture pipeline with its processor and encoder

    Models [CapturePipeline] of
    [apps/desktop/src-tauri/src/platform/windows/capture_stream.rs] once more, now with
    the video processor of [WinVideo] and the encoder of [WinEncoder] in its state:
    every accepted frame is converted by the one and encoded by the other, in the
    world both act on. [Pipeline] of [WinCapture] takes their answers as observations;
    [pipeline_of] is the abstraction to it, and the live pipeline refines it. *)
From S2P Require Export WinMediaKept WinCapture.
Local Open Scope string_scope.
Local Open Scope list_scope.
Local Open Scope Z_scope.

(** What a turn observes apart from the processor and the encoder: the flags, the
    frame queue, the clock since the capture started, the answer of the frame pool and
    the channel to the session. *)
Module LiveTurn.
Record t : Type := mk {
  cancelled : bool;
  source_closed : bool;
  received : TryRecv (outcome string (CapturedFrame.t Z));
  captured_at : Z;
  recreated : outcome string unit;
  sends : list SendPoll.t;
}.
End LiveTurn.

(** The texture as the encoder sees it. *)
Definition native_texture {W} `{D3dOs W} (texture : Z) : RustIo.io W string Texture2D.t :=
  let* description := texture_description texture in
  iret (Texture2D.mk (Z.to_nat texture) (TextureDesc.Width description) (TextureDesc.Height description)
          (TextureDesc.Format description)).

Module CapturePipeline.
(** The due time is the local of [run]; [actions] is what the capture API and the
    session are asked for. *)
Record t : Type := mk {
  capture_device : CaptureDevice.t;
  config : H264StreamConfig.t;
  processor : BgraToNv12Processor.t;
  encoder : HardwareH264Encoder.t;
  frame_interval : Z;
  next_frame_at : Z;
  actions : list Action;
}.
Definition add_actions (self : t) (a : list Action) : t :=
  mk (capture_device self) (config self) (processor self) (encoder self) (frame_interval self) (next_frame_at self)
     (actions self ++ a).
Definition set_next (self : t) (v : Z) : t :=
  mk (capture_device self) (config self) (processor self) (encoder self) (frame_interval self) v (actions self).
Definition set_processor (self : t) (v : BgraToNv12Processor.t) : t :=
  mk (capture_device self) (config self) v (encoder self) (frame_interval self) (next_frame_at self) (actions self).
Definition set_encoder (self : t) (v : HardwareH264Encoder.t) : t :=
  mk (capture_device self) (config self) (processor self) v (frame_interval self) (next_frame_at self) (actions self).

(** The start: the first frame is due at once. *)
Definition new (capture_device : CaptureDevice.t) (config : H264StreamConfig.t) (processor : BgraToNv12Processor.t)
  (encoder : HardwareH264Encoder.t) : outcome string t :=
  let! frame_interval := div_i 1000000000 (H264StreamConfig.fps config) in
  Ok (mk capture_device config processor encoder (Duration.from_nanos frame_interval) Duration.ZERO []).

Section methods.
Context {W : Type} `{D3dOs W} `{MediaConstants} `{MediaOs W}.
Notation io := (RustIo.io (t * W) string).

Definition act (a : list Action) : io unit := iput (fun s => (add_actions (fst s) a, snd s)).
Definition put (f : t -> t) : io unit := iput (fun s => (f (fst s), snd s)).

Definition resize (turn : LiveTurn.t) (frame : CapturedFrame.t Z) (size : Z * Z) : io unit :=
  let (width, height) := size in
  let* _ := act [CloseFrame (CapturedFrame.id frame)] in
  let* _ := ilift (map_err (fun error => "failed to close resized capture frame: " +:+ error) (CapturedFrame.close frame)) in
  let* _ := act [RecreatePool width height] in
  let* _ := ilift (map_err (fun error => "failed to resize capture frame pool: " +:+ error) (LiveTurn.recreated turn)) in
  let* self := iget fst in
  let* _ := act [RebuildProcessor width height (H264StreamConfig.width (config self)) (H264StreamConfig.height (config self))
                   (H264StreamConfig.fps (config self))] in
  let* processor := on_world (BgraToNv12Processor.new (CaptureDevice.native (capture_device self)) width height
    (H264StreamConfig.width (config self)) (H264StreamConfig.height (config self)) (H264StreamConfig.fps (config self))) in
  let* _ := put (fun self => set_processor self processor) in
  put (fun self => set_next self (LiveTurn.captured_at turn)).

(** The closure that encodes; a failure leaves the frame to be closed. *)
Definition encode_frame (fuel : nat) (turn : LiveTurn.t) (frame : CapturedFrame.t Z) : io (list EncodedAccessUnit.t) :=
  let* texture := ilift (capture_texture frame) in
  let* nv12 := on_part processor set_processor (BgraToNv12Processor.convert texture) in
  let* timestamp_100ns := ilift (duration_to_100ns (LiveTurn.captured_at turn)) in
  let* _ := act [EncodeTexture (CapturedFrame.id frame) timestamp_100ns] in
  let* nv12 := on_world (native_texture nv12) in
  on_part encoder set_encoder (HardwareH264Encoder.encode_texture fuel nv12 timestamp_100ns).

Definition deliver (turn : LiveTurn.t) (access_units : list EncodedAccessUnit.t) : io unit :=
  if bool_decide (access_units = []) then iret tt
  else
    let* self := iget fst in
    let* batch := ilift (convert_h264_access_units (HardwareH264Encoder.encoder_name (encoder self)) access_units) in
    let* sent := ilift (send_encoder_result (LiveTurn.sends turn)) in
    if sent : bool then act [SendBatch batch] else iret tt.

Definition process_frame (fuel : nat) (turn : LiveTurn.t) (frame : CapturedFrame.t Z) : io unit :=
  let captured_at := LiveTurn.captured_at turn in
  let* _ := act [TakeFrame (CapturedFrame.id frame)] in
  let* self := iget fst in
  if captured_at <? next_frame_at self then act [CloseFrame (CapturedFrame.id frame)]
  else
    let* _ := put (fun self => set_next self (Pipeline.advance (next_frame_at self) (frame_interval self) captured_at)) in
    match Pipeline.dimensions frame with
    | Err error => let* _ := act [CloseFrame (CapturedFrame.id frame)] in ifail error
    | Fault f => ifault f
    | Ok size =>
      if negb (bool_decide (BgraToNv12Processor.input_dimensions (processor self) = size)) then resize turn frame size
      else
        let* access_units := icatch (encode_frame fuel turn frame) in
        let* _ := act [CloseFrame (CapturedFrame.id frame)] in
        let* access_units := ilift access_units in
        let* _ := ilift (map_err (fun error => "failed to close captured frame: " +:+ error) (CapturedFrame.close frame)) in
        deliver turn access_units
    end.

Definition process_next_frame (fuel : nat) (turn : LiveTurn.t) : io unit :=
  match LiveTurn.received turn with
  | WinCapture.Empty => iret tt
  | WinCapture.Disconnected => ifail "Windows capture callback stopped unexpectedly"
  | Received frame => let* frame := ilift frame in process_frame fuel turn frame
  end.

(** One turn per iteration; [fuel] bounds the waits of the encoder in each. *)
Fixpoint run (fuel : nat) (turns : list LiveTurn.t) : io unit :=
  match turns with
  | [] => ifault OutOfFuel
  | turn :: turns =>
    if LiveTurn.cancelled turn then iret tt
    else if LiveTurn.source_closed turn then ifail "selected Windows capture source was closed or removed"
    else let* _ := process_next_frame fuel turn in run fuel turns
  end.
End methods.

(** ** The abstraction *)
Definition pipeline_of (self : t) : Pipeline.t :=
  Pipeline.mk (config self) (frame_interval self) (HardwareH264Encoder.encoder_name (encoder self))
    (BgraToNv12Processor.input_dimensions (processor self)) (next_frame_at self) (actions self).
End CapturePipeline.

(** ** What the parts keep *)
Section parts.
Context {W : Type} `{D3dOs W} `{MediaConstants} `{MediaOs W}.

(** A conversion changes the frame number only. *)
Lemma convert_keeps p input (w : W) :
  let '((p', _), _) := BgraToNv12Processor.convert input (p, w) in exists n, p' = BgraToNv12Processor.set_frame_index p n.
Proof.
  assert (Hp : p = BgraToNv12Processor.set_frame_index p (BgraToNv12Processor.frame_index p)) by (by destruct p).
  enough (Hk : keeps (fun s : BgraToNv12Processor.t * W => exists n, fst s = BgraToNv12Processor.set_frame_index p n)
                 (BgraToNv12Processor.convert input)).
  { specialize (Hk (p, w) (ex_intro _ _ Hp)). by destruct (BgraToNv12Processor.convert input (p, w)) as [[p' w'] r]. }
  unfold BgraToNv12Processor.convert. apply keeps_bind; [apply keeps_get|]. intros self.
  apply keeps_bind; [apply (keeps_owned (fun p' => exists n, p' = BgraToNv12Processor.set_frame_index p n))|]. intros d. apply keeps_if; [intros _; apply keeps_fail|intros _].
  apply keeps_bind; [apply (keeps_owned (fun p' => exists n, p' = BgraToNv12Processor.set_frame_index p n))|]. intros view. apply keeps_bind; [apply (keeps_owned (fun p' => exists n, p' = BgraToNv12Processor.set_frame_index p n))|]. intros ?.
  apply keeps_bind; [|intros; apply keeps_ret]. apply keeps_put. intros [q w1] [n ->]. eexists. reflexivity.
Qed.

(** A new processor takes frames of the size asked for. *)
Lemma new_takes device iw ih ow oh fps (w w' : W) p :
  BgraToNv12Processor.new device iw ih ow oh fps w = (w', Ok p) -> BgraToNv12Processor.input_dimensions p = (iw, ih).
Proof.
  unfold BgraToNv12Processor.new. intros Hrun.
  repeat match type of Hrun with ibind _ _ _ = _ => apply ibind_ok_inv in Hrun as (? & ? & _ & Hrun) end.
  by injection Hrun as _ <-.
Qed.

(** Encoding a texture changes neither the transform nor its configuration. *)
Definition same_encoder (e e' : HardwareH264Encoder.t) : Prop :=
  exists ready pending, e' = HardwareH264Encoder.set_pending (HardwareH264Encoder.set_ready e ready) pending.
Lemma same_encoder_refl e : same_encoder e e.
Proof. exists (HardwareH264Encoder.input_ready e), (HardwareH264Encoder.pending_outputs e). by destruct e. Qed.

Section encoder.
Context (e : HardwareH264Encoder.t).
Notation same := (fun s : HardwareH264Encoder.t * W => same_encoder e (fst s)).
Lemma same_world {A} (f : HardwareH264Encoder.t -> io W string A) : keeps same (with_owned f).
Proof. apply (keeps_owned_with (same_encoder e)). Qed.
Lemma same_ready f : keeps same (iput (E:=string) (fun s => (HardwareH264Encoder.set_ready (fst s) (f s), snd s))).
Proof. apply keeps_put. intros [e' w] (b & l & ->). cbn. eexists _, l. reflexivity. Qed.
Lemma same_pending f : keeps same (iput (E:=string) (fun s => (HardwareH264Encoder.set_pending (fst s) (f s), snd s))).
Proof. apply keeps_put. intros [e' w] (b & l & ->). cbn. eexists b, _. reflexivity. Qed.
Hint Resolve same_world same_ready same_pending : io.

Lemma same_pump deadline : keeps same (HardwareH264Encoder.pump_stream_event deadline).
Proof.
  unfold HardwareH264Encoder.pump_stream_event. apply keeps_bind; [apply (keeps_owned (same_encoder e))|]. intros instant.
  apply keeps_if; [auto with io|intros _]. apply keeps_bind; [auto with io|]. intros has. apply keeps_if; [auto with io|intros _].
  apply keeps_bind; [auto with io|]. intros [[]|]; auto with io.
Qed.
Hint Resolve same_pump : io.
Lemma same_await_input fuel deadline : keeps same (HardwareH264Encoder.await_input fuel deadline).
Proof. induction fuel; cbn [HardwareH264Encoder.await_input]; auto with io. Qed.
Lemma same_await_output fuel deadline ts : forall b, keeps same (HardwareH264Encoder.await_output fuel deadline ts b).
Proof. induction fuel; intros b; cbn [HardwareH264Encoder.await_output]; auto 10 with io. Qed.
Hint Resolve same_await_input same_await_output : io.
Lemma same_encode fuel texture ts : keeps same (HardwareH264Encoder.encode_texture fuel texture ts).
Proof.
  assert (Hprocess : forall sample, keeps same (HardwareH264Encoder.process_input sample)) by (intros; apply same_world).
  assert (Hsubmit : forall sample, keeps same (HardwareH264Encoder.submit_texture sample))
    by (intros; apply keeps_bind; [auto|intros _; apply (same_ready (fun _ => false))]).
  assert (Hdrain : keeps same HardwareH264Encoder.drain_pending)
    by (apply keeps_bind; [apply keeps_get|intros units; apply keeps_bind; [apply (same_pending (fun _ => []))|intros; apply keeps_ret]]).
  unfold HardwareH264Encoder.encode_texture. apply keeps_bind; [auto with io|]. intros self.
  apply keeps_bind; [auto with io|]. intros _. apply keeps_bind; [auto with io|]. intros d.
  apply keeps_bind; [auto with io|]. intros sample. apply keeps_if; intros _.
  - unfold HardwareH264Encoder.encode_texture_async. apply keeps_bind; [apply (keeps_owned (same_encoder e))|]. intros start.
    do 3 (apply keeps_bind; [auto with io|intros ?]). exact Hdrain.
  - apply keeps_bind; auto with io.
Qed.
Lemma encode_keeps fuel texture ts (w : W) :
  let '((e', _), _) := HardwareH264Encoder.encode_texture fuel texture ts (e, w) in same_encoder e e'.
Proof.
  pose proof (same_encode fuel texture ts (e, w) (same_encoder_refl e)) as He.
  by destruct (HardwareH264Encoder.encode_texture fuel texture ts (e, w)) as [[e' w'] r].
Qed.
End encoder.
End parts.

(** ** Refinement

    A turn of the pipeline is a live turn together with what the processor and the
    encoder answered, none of which is a panic. *)
Definition turn_with (turn : LiveTurn.t) (rebuilt : outcome string unit) (converted : outcome string Z)
  (encoded : outcome string (list EncodedAccessUnit.t)) : CaptureTurn.t Z :=
  CaptureTurn.mk (LiveTurn.cancelled turn) (LiveTurn.source_closed turn) (LiveTurn.received turn) (LiveTurn.captured_at turn)
    (LiveTurn.recreated turn) rebuilt converted encoded (LiveTurn.sends turn).
Definition answered (turn : LiveTurn.t) (observed : CaptureTurn.t Z) : Prop :=
  exists rebuilt converted encoded, returns rebuilt /\ returns converted /\ returns encoded /\
    observed = turn_with turn rebuilt converted encoded.

Section refinement.
Import CapturePipeline.
Context {W : Type} `{D3dOs W} `{MediaConstants} `{MediaOs W}.
Implicit Types (self : t) (turn : LiveTurn.t) (frame : CapturedFrame.t Z) (w : W).

Lemma ibind_act {A} a (k : unit -> io (t * W) string A) self w : ibind (act a) k (self, w) = k tt (add_actions self a, w).
Proof. done. Qed.
Lemma ibind_put {A} f (k : unit -> io (t * W) string A) self w : ibind (put f) k (self, w) = k tt (f self, w).
Proof. done. Qed.
Lemma pipeline_of_actions self a : pipeline_of (add_actions self a) = Pipeline.act (pipeline_of self) a.
Proof. done. Qed.
Lemma pipeline_of_next self v : pipeline_of (set_next self v) = Pipeline.set_next (pipeline_of self) v.
Proof. done. Qed.
Lemma pipeline_of_encoder self e : same_encoder (encoder self) e -> pipeline_of (set_encoder self e) = pipeline_of self.
Proof. intros (b & l & ->). done. Qed.
Lemma pipeline_of_converted self n :
  pipeline_of (set_processor self (BgraToNv12Processor.set_frame_index (processor self) n)) = pipeline_of self.
Proof. done. Qed.

Lemma resize_refines turn frame size self w :
  let '((self', _), r) := resize turn frame size (self, w) in
  returns r -> exists rebuilt, returns rebuilt /\ forall converted encoded,
    Pipeline.resize (turn_with turn rebuilt converted encoded) frame size (pipeline_of self) = (pipeline_of self', r).
Proof.
  unfold resize, Pipeline.resize. destruct size as [iw ih]. rewrite ibind_act. unfold ibind at 1, ilift.
  destruct (CapturedFrame.close frame) as [[]|e|f]; cbn [map_err]; [|by exists (Ok tt)|done].
  rewrite ibind_act. unfold ibind at 1.
  destruct (LiveTurn.recreated turn) as [[]|e|f] eqn:Hr; cbn [map_err]; [|exists (Ok tt); split; [done|]; intros; cbn; by rewrite Hr|done].
  rewrite (ibind_step (iget fst) _ _ (add_actions (add_actions self _) _, w) (add_actions (add_actions self _) _)) by done.
  rewrite ibind_act, ibind_world.
  destruct (BgraToNv12Processor.new _ _ _ _ _ _ w) as [w' r] eqn:Hnew. cbn [fst snd].
  destruct r as [p|e|f]; [|exists (Err e); split; [done|]; intros; cbn; by rewrite Hr|done].
  rewrite ibind_put. cbn. intros _. exists (Ok tt). split; [done|]. intros. rewrite Hr.
  apply new_takes in Hnew. unfold pipeline_of, Pipeline.set_next, Pipeline.set_input, set_next, set_processor. cbn. by rewrite Hnew.
Qed.

Lemma native_texture_run texture w :
  native_texture texture w = (fst (get_desc texture w), Ok (Texture2D.mk (Z.to_nat texture) (TextureDesc.Width (snd (get_desc texture w)))
    (TextureDesc.Height (snd (get_desc texture w))) (TextureDesc.Format (snd (get_desc texture w))))).
Proof. unfold native_texture, ibind, texture_description. by destruct (get_desc texture w). Qed.

Lemma encode_refines fuel turn frame self w :
  let '((self', _), r) := encode_frame fuel turn frame (self, w) in
  returns r -> exists converted encoded, returns converted /\ returns encoded /\ forall rebuilt,
    Pipeline.encode_frame (turn_with turn rebuilt converted encoded) frame (pipeline_of self) = (pipeline_of self', r).
Proof.
  unfold encode_frame, Pipeline.encode_frame. unfold ibind at 1, ilift.
  destruct (capture_texture frame) as [texture|e|f]; [|by exists (Ok 0), (Ok [])|done].
  rewrite ibind_part. pose proof (convert_keeps (processor self) texture w) as Hc.
  destruct (BgraToNv12Processor.convert texture (processor self, w)) as [[p1 w1] r1]. destruct Hc as [n ->].
  destruct r1 as [nv12|e|f]; [|exists (Err e), (Ok []); by split_and!|done].
  unfold ibind at 1. destruct (duration_to_100ns (LiveTurn.captured_at turn)) as [ts|e|f] eqn:Hts;
    [|intros _; exists (Ok nv12), (Ok []); split_and!; [done..|]; intros; cbn; by rewrite Hts|done].
  rewrite ibind_act, ibind_world, native_texture_run. destruct (get_desc nv12 w1) as [w2 d]. cbn [fst snd].
  unfold on_part. cbn [fst snd].
  pose proof (encode_keeps (encoder self) fuel (Texture2D.mk (Z.to_nat nv12) (TextureDesc.Width d) (TextureDesc.Height d)
    (TextureDesc.Format d)) ts w2) as He.
  change (encoder (add_actions (set_processor self (BgraToNv12Processor.set_frame_index (processor self) n)) [EncodeTexture (CapturedFrame.id frame) ts]))
    with (encoder self).
  destruct (HardwareH264Encoder.encode_texture fuel _ ts (encoder self, w2)) as [[e3 w3] r3]. cbn [fst snd].
  intros Hr. exists (Ok nv12), r3. split_and!; [done..|]. intros. cbn. rewrite Hts. cbn. by rewrite pipeline_of_encoder.
Qed.

Lemma deliver_refines turn rebuilt converted encoded units self w :
  let '((self', _), r) := deliver turn units (self, w) in
  Pipeline.deliver (turn_with turn rebuilt converted encoded) units (pipeline_of self) = (pipeline_of self', r).
Proof.
  unfold deliver, Pipeline.deliver. case_bool_decide; [done|]. unfold ibind, iget, ilift.
  change (Pipeline.encoder_name (pipeline_of self)) with (HardwareH264Encoder.encoder_name (encoder self)). cbn [fst snd].
  destruct (convert_h264_access_units _ _) as [batch|e|f]; [|done..]. cbn [turn_with CaptureTurn.sends].
  by destruct (send_encoder_result (LiveTurn.sends turn)) as [[]|e|f].
Qed.

Lemma process_refines fuel turn frame self w :
  let '((self', _), r) := process_frame fuel turn frame (self, w) in
  returns r -> exists observed, answered turn observed /\
    Pipeline.process_frame observed frame (pipeline_of self) = (pipeline_of self', r).
Proof.
  unfold process_frame, Pipeline.process_frame. rewrite ibind_act.
  set (self0 := add_actions self [TakeFrame (CapturedFrame.id frame)]).
  rewrite (ibind_step (iget fst) _ _ (self0, w) self0) by done.
  assert (Ha : forall b c e, returns b -> returns c -> returns e -> answered turn (turn_with turn b c e)) by (intros b c e ???; by exists b, c, e).
  change (next_frame_at self0) with (Pipeline.next_frame_at (Pipeline.act (pipeline_of self) [TakeFrame (CapturedFrame.id frame)])).
  destruct (_ <? _) eqn:Hdue; [intros _; exists (turn_with turn (Ok tt) (Ok 0) (Ok [])); split; [by apply Ha|cbn in Hdue |- *; by rewrite Hdue]|].
  rewrite ibind_put. destruct (Pipeline.dimensions frame) as [size|e|f];
    [|intros _; exists (turn_with turn (Ok tt) (Ok 0) (Ok [])); split; [by apply Ha|cbn in Hdue |- *; by rewrite Hdue]|intros []].
  set (self1 := set_next self0 _).
  assert (Hs1 : pipeline_of self1 = Pipeline.set_next (Pipeline.act (pipeline_of self) [TakeFrame (CapturedFrame.id frame)])
    (Pipeline.advance (next_frame_at self) (frame_interval self) (LiveTurn.captured_at turn))) by done.
  change (processor self0) with (processor self1).
  destruct (bool_decide (BgraToNv12Processor.input_dimensions (processor self1) = size)) eqn:Hsize; cbn [negb].
  - pose proof (encode_refines fuel turn frame self1 w) as He. unfold ibind at 1, icatch.
    destruct (encode_frame fuel turn frame (self1, w)) as [[self2 w2] r2].
    destruct r2 as [units|e|f]; [| |done]; destruct (He Logic.I) as (converted & encoded & Hc & Henc & Heq); clear He;
      rewrite ibind_act; unfold ibind at 1, ilift; cbn [fst snd];
      [|intros _; exists (turn_with turn (Ok tt) converted encoded); split; [by apply Ha|];
        cbn in Hdue, Hsize |- *; rewrite Hdue, Hsize; cbn [negb]; specialize (Heq (Ok tt)); rewrite Hs1 in Heq; by rewrite Heq].
    unfold ibind at 1. destruct (CapturedFrame.close frame) as [[]|e|f] eqn:Hclose; cbn [map_err];
      [| |done]; cycle 1.
    { intros _. exists (turn_with turn (Ok tt) converted encoded); split; [by apply Ha|].
      cbn in Hdue, Hsize |- *; rewrite Hdue, Hsize; cbn [negb]; specialize (Heq (Ok tt)). rewrite Hs1 in Heq. by rewrite Heq. }
    pose proof (deliver_refines turn (Ok tt) converted encoded units (add_actions self2 [CloseFrame (CapturedFrame.id frame)]) w2) as Hd.
    destruct (deliver turn units _) as [[self3 w3] r3]. intros _.
    exists (turn_with turn (Ok tt) converted encoded); split; [by apply Ha|].
      cbn in Hdue, Hsize |- *; rewrite Hdue, Hsize; cbn [negb]; specialize (Heq (Ok tt)). rewrite Hs1 in Heq. rewrite Heq. exact Hd.
  - pose proof (resize_refines turn frame size self1 w) as He.
    destruct (resize turn frame size (self1, w)) as [[self2 w2] r2]. intros Hr. destruct (He Hr) as (rebuilt & Hb & Heq).
    exists (turn_with turn rebuilt (Ok 0) (Ok [])); split; [by apply Ha|].
    cbn in Hdue, Hsize |- *. rewrite Hdue, Hsize. cbn [negb]. apply Heq.
Qed.
End refinement.

(** ** What the live pipeline leaves alone *)
Section kept.
Import CapturePipeline.
Context {W : Type} `{D3dOs W} `{MediaConstants} `{MediaOs W} (P : W -> Prop) `{!KeptByMedia P} `{!KeptByD3d P}.
Notation outside := (fun s : t * W => P (snd s)).

Lemma keeping_act a : keeps outside (act a).
Proof. by apply keeps_put. Qed.
Lemma keeping_put f : keeps outside (put f).
Proof. by apply keeps_put. Qed.
Lemma keeping_processor {A} (m : io (BgraToNv12Processor.t * W) string A) :
  keeps (fun s : BgraToNv12Processor.t * W => P (snd s)) m -> keeps outside (on_part processor set_processor m).
Proof. intros Hm. by eapply keeps_part. Qed.
Lemma keeping_encoder {A} (m : io (HardwareH264Encoder.t * W) string A) :
  keeps (fun s : HardwareH264Encoder.t * W => P (snd s)) m -> keeps outside (on_part encoder set_encoder m).
Proof. intros Hm. by eapply keeps_part. Qed.
Lemma keeping_native texture : keeps P (native_texture texture).
Proof. unfold native_texture. through. Qed.
Hint Resolve keeping_act keeping_put keeping_processor keeping_encoder keeping_native keeps_get : kept.
Lemma keeping_frame fuel turn frame : keeps outside (process_frame fuel turn frame).
Proof. unfold process_frame, resize, encode_frame, deliver. through. Qed.
Hint Resolve keeping_frame : kept.
Lemma keeping_live fuel turns : keeps outside (run fuel turns).
Proof. induction turns; cbn [run]; [through|]. unfold process_next_frame. through. Qed.
End kept.

(** ** The live pipeline refines the observed one *)
Section runs.
Import CapturePipeline.
Context {W : Type} `{D3dOs W} `{MediaConstants} `{MediaOs W}.

Lemma answered_fields turn observed : answered turn observed ->
  CaptureTurn.cancelled observed = LiveTurn.cancelled turn /\ CaptureTurn.source_closed observed = LiveTurn.source_closed turn /\
  CaptureTurn.received observed = LiveTurn.received turn.
Proof. by intros (? & ? & ? & _ & _ & _ & ->). Qed.
Lemma answered_somehow turn : exists observed, answered turn observed.
Proof. by exists (turn_with turn (Ok tt) (Ok 0) (Ok [])), (Ok tt), (Ok 0), (Ok []). Qed.
Lemma all_answered turns : exists observed, Forall2 answered turns observed.
Proof. induction turns as [|turn turns [l Hl]]; [by exists []|]. destruct (answered_somehow turn) as [o Ho]. exists (o :: l). by constructor. Qed.

Lemma next_refines fuel turn self (w : W) :
  let '((self', _), r) := process_next_frame fuel turn (self, w) in
  returns r -> exists observed, answered turn observed /\
    Pipeline.process_next_frame observed (pipeline_of self) = (pipeline_of self', r).
Proof.
  unfold process_next_frame, Pipeline.process_next_frame. destruct (answered_somehow turn) as [o Ho].
  destruct (LiveTurn.received turn) as [[frame|e|f]| |] eqn:Hr; [|..|].
  - unfold ibind, ilift. pose proof (process_refines fuel turn frame self w) as Hp.
    destruct (process_frame fuel turn frame (self, w)) as [[self' w'] r]. intros Hret. destruct (Hp Hret) as (o' & Ho' & Heq).
    exists o'. split; [done|]. destruct (answered_fields _ _ Ho') as (_ & _ & ->). by rewrite Hr.
  - intros _. exists o. split; [done|]. destruct (answered_fields _ _ Ho) as (_ & _ & ->). by rewrite Hr.
  - by intros [].
  - intros _. exists o. split; [done|]. destruct (answered_fields _ _ Ho) as (_ & _ & ->). by rewrite Hr.
  - intros _. exists o. split; [done|]. destruct (answered_fields _ _ Ho) as (_ & _ & ->). by rewrite Hr.
Qed.

Lemma run_refines fuel turns : forall self (w : W),
  let '((self', _), r) := run fuel turns (self, w) in
  returns r -> exists observed, Forall2 answered turns observed /\
    Pipeline.run observed (pipeline_of self) = (pipeline_of self', r).
Proof.
  induction turns as [|turn turns IH]; intros self w; cbn [run]; [by intros []|].
  destruct (answered_somehow turn) as [o Ho]. destruct (answered_fields _ _ Ho) as (Hc & Hs & _).
  destruct (all_answered turns) as [os Hos].
  destruct (LiveTurn.cancelled turn) eqn:Hcancel;
    [intros _; exists (o :: os); split; [by constructor|cbn; by rewrite Hc]|].
  destruct (LiveTurn.source_closed turn) eqn:Hclosed;
    [intros _; exists (o :: os); split; [by constructor|cbn; by rewrite Hc, Hs]|].
  clear o Ho Hc Hs. pose proof (next_refines fuel turn self w) as Hn. unfold ibind.
  destruct (process_next_frame fuel turn (self, w)) as [[self1 w1] [[]|e|f]].
  - destruct (Hn Logic.I) as (o & Ho & Heq). destruct (answered_fields _ _ Ho) as (Hc & Hs & _).
    specialize (IH self1 w1). destruct (run fuel turns (self1, w1)) as [[self2 w2] r]. intros Hr.
    destruct (IH Hr) as (os' & Hos' & Heqs). exists (o :: os'). split; [by constructor|].
    cbn. rewrite Hc, Hs, Hcancel, Hclosed, Heq. exact Heqs.
  - intros _. destruct (Hn Logic.I) as (o & Ho & Heq). destruct (answered_fields _ _ Ho) as (Hc & Hs & _).
    exists (o :: os). split; [by constructor|]. cbn. by rewrite Hc, Hs, Hcancel, Hclosed, Heq.
  - by intros [].
Qed.
End runs.

(** A capture with its processor and its encoder behaves as the pipeline that
    only observes their answers: whatever Direct3D and Media Foundation do, a run
    that does not panic performs the actions, keeps the due times and has the result of
    a run of [Pipeline] over the same turns, completed by what the two answered; so
    frames are closed and paced as proved there. *)
Theorem live_capture_refines_pipeline {W} `{D3dOs W} `{MediaConstants} `{MediaOs W} device config processor encoder self
    fuel turns (w : W) (Hnew : CapturePipeline.new device config processor encoder = Ok self) :
  let '((self', _), r) := CapturePipeline.run fuel turns (self, w) in
  Pipeline.new config (HardwareH264Encoder.encoder_name encoder) (fst (BgraToNv12Processor.input_dimensions processor))
    (snd (BgraToNv12Processor.input_dimensions processor)) = Ok (CapturePipeline.pipeline_of self) /\
  (returns r -> exists observed, Forall2 answered turns observed /\
    Pipeline.run observed (CapturePipeline.pipeline_of self) = (CapturePipeline.pipeline_of self', r)).
Proof.
  pose proof (run_refines fuel turns self w) as Hr. destruct (CapturePipeline.run fuel turns (self, w)) as [[self' w'] r].
  split; [|exact Hr]. unfold CapturePipeline.new, Pipeline.new in *.
  destruct (div_i 1000000000 (H264StreamConfig.fps config)) as [i|e|f]; [|done..]. cbn in *. by injection Hnew as <-.
Qed.
