(* ===== verification/WinCaptureEnds.v ===== *)
(** * Live captures end, and their parts fit

    With the documented behaviour of Direct3D and Media Foundation, a live capture ends
    once it is cancelled, and every texture its processor gives is one its encoder
    takes. *)
From S2P Require Export WinEncoderFacts WinCaptureLive.
Local Open Scope string_scope.
Local Open Scope list_scope.
Local Open Scope Z_scope.

(** ** Every step answers *)
Section answers.
Context {W : Type} `{D3dOsLaws W}.

Lemma labelled_returns {A} label (m : io W string A) w : returns (snd (m w)) -> returns (snd (d3d_labelled label m w)).
Proof. apply returns_imap_err. Qed.
Lemma made_returns d m label missing (w : W) : returns (snd (made d m label missing w)).
Proof.
  apply returns_ibind; [apply labelled_returns, d3d_make_returns|]. intros [o|] ?; exact Logic.I.
Qed.
Lemma convert_returns p input (w : W) : returns (snd (BgraToNv12Processor.convert input (p, w))).
Proof.
  unfold BgraToNv12Processor.convert. apply returns_ibind; [done|]. intros self s. apply returns_ibind.
  { unfold on_world, texture_description. by destruct (get_desc input (snd s)). }
  intros d s1. case_match; [done|]. apply returns_ibind.
  { unfold on_world. pose proof (made_returns (BgraToNv12Processor.device self) (MakeInputView input (BgraToNv12Processor.enumerator self))
      "failed to create BGRA processor input view" "D3D11 created no BGRA processor input view" (snd s1)). by destruct (made _ _ _ _ (snd s1)). }
  intros view s2. apply returns_ibind; [|intros; by apply returns_ibind].
  unfold on_world. set (m := d3d_labelled _ _). assert (Hr : returns (snd (m (snd s2)))) by apply labelled_returns, d3d_call_returns.
  by destruct (m (snd s2)).
Qed.
Lemma format_returns e f required label (w : W) : returns (snd (require_format_support e f required label w)).
Proof.
  apply returns_ibind; [apply labelled_returns, check_format_returns|]. intros flags w1.
  apply returns_ibind; [by destruct (checked 32 required)|]. intros v w2. by case_match.
Qed.
Lemma new_returns device iw ih ow oh fps (w : W) : returns (snd (BgraToNv12Processor.new device iw ih ow oh fps w)).
Proof.
  unfold BgraToNv12Processor.new, create_nv12_texture.
  apply returns_ibind; [apply validate_dimensions_spec|intros _ ?].
  do 3 (apply returns_ibind; [apply labelled_returns, d3d_call_returns|intros _ ?]).
  apply returns_ibind; [apply labelled_returns, d3d_create_returns|intros en ?].
  do 2 (apply returns_ibind; [apply format_returns|intros _ ?]).
  apply returns_ibind; [apply labelled_returns, d3d_create_returns|intros pr ?].
  apply returns_ibind; [done|intros flags ?]. do 2 (apply returns_ibind; [apply made_returns|intros ? ?]).
  do 2 (apply returns_ibind; [apply returns_checked_rect|intros ? ?]). done.
Qed.
End answers.

(** A turn whose adapters answer. *)
Record live_answers (turn : LiveTurn.t) : Prop := {
  la_recreated : returns (LiveTurn.recreated turn);
  la_sends : Exists (fun poll => SendPoll.cancelled poll = true \/ SendPoll.tried poll <> Full) (LiveTurn.sends turn);
  la_received : match LiveTurn.received turn with
    | Received (Ok frame) => returns (CapturedFrame.content_size frame) /\
        returns (capture_texture frame) /\ returns (CapturedFrame.close frame)
    | Received received => returns received
    | _ => True
    end;
}.

(** An asynchronous encoder whose frame rate is known answers every texture, with a
    step for every nanosecond of its timeout. *)
Definition ENOUGH : nat := S (S (Z.to_nat STREAM_EVENT_TIMEOUT)).
Definition paced_encoder (e : HardwareH264Encoder.t) : Prop :=
  HardwareH264Encoder.asynchronous e = true /\ H264EncoderConfig.fps (HardwareH264Encoder.config e) <> 0.

Section encoder.
Context {W : Type} `{MediaConstants} `{MediaOsLaws W}.

Lemma async_encode_returns fuel texture ts e (w : W) : paced_encoder e -> (ENOUGH <= fuel)%nat ->
  returns (snd (HardwareH264Encoder.encode_texture fuel texture ts (e, w))).
Proof.
  intros [Ha Hfps] Hf. unfold HardwareH264Encoder.encode_texture.
  rewrite (ibind_step (iget fst) _ _ (e, w) e) by done. rewrite Ha.
  apply returns_ibind.
  { unfold ilift, HardwareH264Encoder.validate_nv12_texture. cbn. by repeat case_match. }
  intros [] s. apply returns_ibind.
  { unfold ilift, H264EncoderConfig.frame_duration_100ns, div_i. cbn. by destruct (Z.eqb_spec (H264EncoderConfig.fps (HardwareH264Encoder.config e)) 0). }
  intros d s1. apply returns_ibind.
  { unfold with_owned, on_world. set (m := create_dxgi_sample _ _ _ _). pose proof (dxgi_sample_prompt _ _ _ _ (snd s1) : returns (snd (m (snd s1))) /\ _) as [Hr _].
    by destruct (m (snd s1)). }
  intros sample s2.
  refine (async_texture_prompt (Z.to_nat STREAM_EVENT_TIMEOUT) fuel sample ts (media_clock (snd s2)) _ _ s2 (Z.le_refl _)).
  - rewrite Z2Nat.id; [reflexivity|discriminate].
  - exact Hf.
Qed.
End encoder.

Section ends.
Import CapturePipeline.
Context {W : Type} `{D3dOsLaws W} `{MediaConstants} `{MediaOsLaws W}.
Notation ready := (fun s : t * W => paced_encoder (encoder (fst s))).

Lemma paced_same e e' : paced_encoder e -> same_encoder e e' -> paced_encoder e'.
Proof. by intros He (b & l & ->). Qed.

(** Goes on with an encoder as before, and answers. *)
Definition goes_on {A} (m : io (t * W) string A) : Prop := run_of ready m (fun r s => returns r /\ ready s).
Lemma goes_bind {A B} (m : io (t * W) string A) (k : A -> io (t * W) string B) :
  goes_on m -> (forall a, goes_on (k a)) -> goes_on (ibind m k).
Proof.
  intros Hm Hk. eapply run_bind; [exact Hm|tauto|tauto|]. intros a s [_ Hs]. by apply Hk.
Qed.
Lemma goes_lift {A} (m : outcome string A) : returns m -> goes_on (ilift m).
Proof. by intros Hm s Hs. Qed.
Lemma goes_world {A} (m : io W string A) : (forall w, returns (snd (m w))) -> goes_on (on_world m).
Proof. intros Hm [self w] Hs. specialize (Hm w). unfold on_world. cbn [fst snd] in *. by destruct (m w). Qed.
Lemma goes_act a : goes_on (act a).
Proof. by intros [self w] Hs. Qed.
Lemma goes_put f : (forall self, encoder (f self) = encoder self) -> goes_on (put f).
Proof. intros Hf [self w] Hs. cbn in *. by rewrite Hf. Qed.
Lemma goes_ret {A} (a : A) : goes_on (iret a).
Proof. by intros s Hs. Qed.
Lemma goes_fail {A} e : goes_on (ifail (A:=A) e).
Proof. by intros s Hs. Qed.
Lemma goes_get {A B} (f : t * W -> A) (k : A -> io (t * W) string B) : (forall a, goes_on (k a)) -> goes_on (ibind (iget f) k).
Proof. intros Hk s Hs. by apply (Hk (f s)). Qed.
Lemma goes_catch {A B} (m : io (t * W) string A) (k : outcome string A -> io (t * W) string B) :
  goes_on m -> (forall r, returns r -> goes_on (k r)) -> goes_on (ibind (icatch m) k).
Proof.
  intros Hm Hk s Hs. destruct (Hm s Hs) as [Hr Hs']. unfold ibind, icatch. destruct (m s) as [s' [a|e|f]]; [by apply Hk..|done].
Qed.

Lemma goes_encode fuel turn frame : (ENOUGH <= fuel)%nat -> returns (capture_texture frame) -> goes_on (encode_frame fuel turn frame).
Proof.
  intros Hf Ht. unfold encode_frame. apply goes_bind; [by apply goes_lift|]. intros texture. apply goes_bind.
  { intros [self w] Hs. pose proof (convert_returns (processor self) texture w). unfold on_part. cbn [fst snd] in *.
    by destruct (BgraToNv12Processor.convert texture (processor self, w)) as [[p w'] r]. }
  intros nv12. apply goes_bind; [apply goes_lift; unfold duration_to_100ns; by destruct (checked_i _ _)|]. intros ts.
  apply goes_bind; [apply goes_act|]. intros _.
  apply goes_bind; [apply goes_world; intros w; by rewrite native_texture_run|]. intros native [self w] Hs. cbn [fst] in Hs.
  pose proof (async_encode_returns fuel native ts (encoder self) w Hs Hf) as Hr.
  pose proof (encode_keeps (encoder self) fuel native ts w) as He. unfold on_part. cbn [fst snd] in *.
  destruct (HardwareH264Encoder.encode_texture fuel native ts (encoder self, w)) as [[e w'] r].
  split; [done|]. cbn. by eapply paced_same.
Qed.

Lemma goes_process fuel turn frame : (ENOUGH <= fuel)%nat -> live_answers turn -> LiveTurn.received turn = Received (Ok frame) ->
  goes_on (process_frame fuel turn frame).
Proof.
  intros Hf [Hre Hsend Hrec] Heq. rewrite Heq in Hrec. destruct Hrec as (Hsize & Htex & Hclose).
  assert (Hdim : returns (Pipeline.dimensions frame)).
  { unfold Pipeline.dimensions. apply returns_obind; [by apply returns_map_err|]. intros size _.
    do 2 (apply returns_obind; [unfold positive_dimension; by case_match|intros ? _]). done. }
  assert (Hdeliver : forall units, goes_on (deliver turn units)).
  { intros units. unfold deliver. case_bool_decide; [apply goes_ret|]. apply goes_get. intros self.
    apply goes_bind; [apply goes_lift, convert_batch_returns|]. intros batch.
    apply goes_bind; [by apply goes_lift, send_returns|]. intros []; [apply goes_act|apply goes_ret]. }
  unfold process_frame. apply goes_bind; [apply goes_act|]. intros _. apply goes_get. intros self.
  destruct (_ <? _); [apply goes_act|]. apply goes_bind; [by apply goes_put|]. intros _.
  destruct (Pipeline.dimensions frame) as [size|e|f]; [|apply goes_bind; [apply goes_act|intros; apply goes_fail]|done].
  case_bool_decide; cbn [negb].
  - apply goes_catch; [by apply goes_encode|]. intros units Hu. apply goes_bind; [apply goes_act|]. intros _.
    apply goes_bind; [by apply goes_lift|]. intros l. apply goes_bind; [by apply goes_lift, returns_map_err|]. intros _. apply Hdeliver.
  - unfold resize. destruct size as [iw ih]. apply goes_bind; [apply goes_act|]. intros _.
    apply goes_bind; [by apply goes_lift, returns_map_err|]. intros _. apply goes_bind; [apply goes_act|]. intros _.
    apply goes_bind; [by apply goes_lift, returns_map_err|]. intros _. apply goes_get. intros self'.
    apply goes_bind; [apply goes_act|]. intros _. apply goes_bind; [apply goes_world; intros w; apply new_returns|]. intros p.
    apply goes_bind; [by apply goes_put|]. intros _. by apply goes_put.
Qed.

Lemma goes_next fuel turn : (ENOUGH <= fuel)%nat -> live_answers turn -> goes_on (process_next_frame fuel turn).
Proof.
  intros Hf Ha. pose proof (la_received _ Ha) as Hr. unfold process_next_frame.
  destruct (LiveTurn.received turn) as [[frame|e|f]| |] eqn:Heq; [|by intros s Hs|done|apply goes_ret|apply goes_fail].
  intros s Hs. by apply goes_process.
Qed.

Lemma goes_run fuel turns : (ENOUGH <= fuel)%nat -> Forall live_answers turns ->
  Exists (fun turn => LiveTurn.cancelled turn = true) turns -> goes_on (run fuel turns).
Proof.
  intros Hf Hall Hex. induction Hall as [|turn turns Ha _ IH]; [by inversion Hex|]. cbn [run].
  destruct (LiveTurn.cancelled turn) eqn:Hc; [apply goes_ret|]. destruct (LiveTurn.source_closed turn); [apply goes_fail|].
  apply goes_bind; [by apply goes_next|]. intros _. apply IH. inversion Hex; [congruence|done].
Qed.
End ends.

(** C19: a live capture ends once it is cancelled. With the documented behaviour of
    Direct3D and Media Foundation and an asynchronous encoder, whatever frames arrive
    and whatever fails, the pipeline returns when a turn sees the cancel flag; a step
    for every nanosecond of the encoder's timeout is enough for each texture. *)
Theorem live_captures_end {W} `{D3dOsLaws W} `{MediaConstants} `{MediaOsLaws W} fuel turns self (w : W)
    (Hencoder : paced_encoder (CapturePipeline.encoder self)) (Hfuel : (ENOUGH <= fuel)%nat)
    (Hturns : Forall live_answers turns) (Hcancel : Exists (fun turn => LiveTurn.cancelled turn = true) turns) :
  returns (snd (CapturePipeline.run fuel turns (self, w))).
Proof. exact (proj1 (goes_run fuel turns Hfuel Hturns Hcancel (self, w) Hencoder)). Qed.

(** ** The parts fit

    What is documented of textures: a texture has the description it was made with,
    whatever is called afterwards. *)
Class D3dTextures (W : Type) `{D3dOs W} `{MediaOs W} : Type := {
  texture_is : Z -> TextureDesc.t -> W -> Prop;
  made_texture_is device d w texture : snd (d3d_make device (MakeTexture d) w) = Ok (Some texture) ->
    texture_is texture d (fst (d3d_make device (MakeTexture d) w));
  texture_is_desc texture d w : texture_is texture d w -> snd (get_desc texture w) = d;
  texture_is_d3d texture d :: KeptByD3d (texture_is texture d);
  texture_is_media texture d :: KeptByMedia (texture_is texture d);
}.

(** The NV12 texture of a stream. *)
Definition nv12_description (width height : Z) : TextureDesc.t :=
  TextureDesc.mk width height 1 1 WinVideo.DXGI_FORMAT_NV12 1 D3D11_BIND_RENDER_TARGET.

Section fit.
Import CapturePipeline.
Context {W : Type} `{D3dTextures W} `{MediaConstants}.
Notation io := (RustIo.io W string).

Lemma run_bind_any {A B} (m : io A) (k : A -> io B) Q :
  (forall a, run_of (fun _ => True) (k a) (on_ok Q)) -> run_of (fun _ => True) (ibind m k) (on_ok Q).
Proof. intros Hk. eapply run_bind_ok with (R := fun _ _ => True); [|done]. intros w _. by destruct (m w) as [w' []]. Qed.
Lemma run_bind_kept {A B} (P : W -> Prop) (m : io A) (k : A -> io B) Q :
  keeps P m -> (forall a, run_of P (k a) (on_ok Q)) -> run_of P (ibind m k) (on_ok Q).
Proof. intros Hm Hk. eapply run_bind_ok; [by apply run_of_keeps|done]. Qed.

Lemma new_describes device iw ih ow oh fps :
  run_of (fun _ => True) (BgraToNv12Processor.new device iw ih ow oh fps)
    (on_ok (fun p => texture_is (BgraToNv12Processor.output_texture p) (nv12_description ow oh))).
Proof.
  unfold BgraToNv12Processor.new. do 8 (apply run_bind_any; intros ?).
  apply run_bind_lift; [intros flags [= <-]|done..].
  eapply run_bind_ok with (R := fun texture => texture_is texture (nv12_description ow oh)).
  { intros w _. unfold create_nv12_texture, made, d3d_labelled, imap_err, ibind, ilift, nv12_description.
    set (d := TextureDesc.mk _ _ _ _ _ _ _). pose proof (made_texture_is device d w) as Hd.
    destruct (d3d_make device (MakeTexture d) w) as [w' [[texture|]|e|f]]; cbn in *; auto. }
  intros texture. apply run_bind_kept; [apply keeping_made; apply _|]. intros view.
  do 2 (apply run_bind_kept; [apply keeps_lift|]; intros ?).
  do 4 (apply run_bind_kept; [apply keeping_setting; apply _|]; intros ?). apply run_ret. by intros w Hw.
Qed.

(** A pipeline whose processor gives what its encoder takes. *)
Definition fit (config : H264StreamConfig.t) (encoder_config : H264EncoderConfig.t) (s : CapturePipeline.t * W) : Prop :=
  CapturePipeline.config (fst s) = config /\ HardwareH264Encoder.config (encoder (fst s)) = encoder_config /\
  texture_is (BgraToNv12Processor.output_texture (processor (fst s)))
    (nv12_description (H264StreamConfig.width config) (H264StreamConfig.height config)) (snd s).

Context (config : H264StreamConfig.t) (encoder_config : H264EncoderConfig.t).
Notation fitting := (fit config encoder_config).

Lemma fit_world {A} (m : io A) : (forall t d, keeps (texture_is t d) m) -> keeps fitting (on_world m).
Proof.
  intros Hm [self w] (Hc & He & Hd). unfold on_world. cbn [fst snd] in *. specialize (Hm _ _ w Hd).
  by destruct (m w) as [w' r].
Qed.
Lemma fit_act a : keeps fitting (act a).
Proof. by apply keeps_put. Qed.
Lemma fit_next v : keeps fitting (put (fun self => set_next self (v self))).
Proof. by apply keeps_put. Qed.
Hint Resolve fit_act fit_next keeps_get : kept.

Lemma fit_convert texture : keeps fitting (on_part processor set_processor (BgraToNv12Processor.convert texture)).
Proof.
  intros [self w] (Hc & He & Hd). unfold on_part. cbn [fst snd] in *.
  pose proof (convert_keeps (processor self) texture w) as Hp. pose proof (keeping_convert _ texture (processor self, w) Hd) as Hw.
  destruct (BgraToNv12Processor.convert texture (processor self, w)) as [[p w'] r]. destruct Hp as [n ->]. by split_and!.
Qed.
Lemma fit_encode fuel texture ts : keeps fitting (on_part encoder set_encoder (HardwareH264Encoder.encode_texture fuel texture ts)).
Proof.
  intros [self w] (Hc & He & Hd). unfold on_part. cbn [fst snd] in *.
  pose proof (encode_keeps (encoder self) fuel texture ts w) as Hp.
  pose proof (keeping_encode_texture _ fuel texture ts (encoder self, w) Hd) as Hw.
  destruct (HardwareH264Encoder.encode_texture fuel texture ts (encoder self, w)) as [[e w'] r]. destruct Hp as (b & l & ->). by split_and!.
Qed.
Lemma fit_native texture : keeps fitting (on_world (native_texture texture)).
Proof. apply fit_world. intros t d. apply keeping_native. apply _. Qed.
Hint Resolve fit_convert fit_encode fit_native : kept.

(** A processor of another size has an output of the same. *)
Lemma fit_resize turn frame size : keeps fitting (resize turn frame size).
Proof.
  intros [self w] (Hc & He & Hd). cbn [fst snd] in *. unfold resize. destruct size as [iw ih]. rewrite ibind_act. unfold ibind at 1, ilift.
  destruct (CapturedFrame.close frame) as [[]|e|f]; cbn [map_err]; [|by split_and!..].
  rewrite ibind_act. unfold ibind at 1.
  destruct (LiveTurn.recreated turn) as [[]|e|f]; cbn [map_err]; [|by split_and!..].
  rewrite (ibind_step (iget fst) _ _ (add_actions (add_actions self _) _, w) (add_actions (add_actions self _) _)) by done.
  rewrite ibind_act, ibind_world. cbn [add_actions CapturePipeline.config capture_device]. rewrite Hc.
  pose proof (new_describes (CaptureDevice.native (capture_device self)) iw ih (H264StreamConfig.width config)
    (H264StreamConfig.height config) (H264StreamConfig.fps config) w Logic.I) as Hnew.
  pose proof (keeping_new_processor _ (CaptureDevice.native (capture_device self)) iw ih (H264StreamConfig.width config)
    (H264StreamConfig.height config) (H264StreamConfig.fps config) w Hd) as Hold. revert Hnew Hold.
  destruct (BgraToNv12Processor.new _ _ _ _ _ _ w) as [w' [p|e|f]]; cbn [fst snd on_ok]; intros Hnew Hold; by split_and!.
Qed.
Hint Resolve fit_resize : kept.

Lemma fit_process fuel turn frame : keeps fitting (process_frame fuel turn frame).
Proof. unfold process_frame, encode_frame, deliver. through. Qed.
Hint Resolve fit_process : kept.
Lemma fit_run fuel turns : keeps fitting (run fuel turns).
Proof. induction turns; cbn [run]; [through|]. unfold process_next_frame. through. Qed.

(** What the encoder sees of the processor's texture then. *)
Lemma fit_texture s : WinEncoder.DXGI_FORMAT_NV12 = WinVideo.DXGI_FORMAT_NV12 -> fitting s ->
  H264EncoderConfig.width encoder_config = H264StreamConfig.width config ->
  H264EncoderConfig.height encoder_config = H264StreamConfig.height config ->
  exists texture, snd (native_texture (BgraToNv12Processor.output_texture (processor (fst s))) (snd s)) = Ok texture /\
    HardwareH264Encoder.validate_nv12_texture texture (HardwareH264Encoder.config (encoder (fst s))) = Ok tt.
Proof.
  intros Hformat (_ & He & Hd) Hw Hh. rewrite native_texture_run. cbn [snd]. eexists. split; [done|].
  rewrite (texture_is_desc _ _ _ Hd), He. unfold HardwareH264Encoder.validate_nv12_texture. cbn.
  by rewrite Hw, Hh, Hformat, !Z.eqb_refl.
Qed.
End fit.

(** *** The encoder's configuration *)
Section start.
Context {W : Type} `{MediaConstants} `{MediaOs W}.

Lemma start_activation_config tr name config (w w' : W) e :
  HardwareH264Encoder.start_activation tr name config w = (w', Ok e) -> HardwareH264Encoder.config e = config.
Proof.
  unfold HardwareH264Encoder.start_activation. intros Hrun.
  repeat match type of Hrun with ibind _ _ _ = _ => apply ibind_ok_inv in Hrun as (? & ? & _ & Hrun) end.
  unfold ion_error, HardwareH264Encoder.configure_bound in Hrun.
  match type of Hrun with context [ibind ?m ?k ?s] => destruct (ibind m k s) as [w1 [e1|?|?]] eqn:Hc; [|done..] end.
  injection Hrun as _ <-.
  repeat match type of Hc with ibind _ _ _ = _ => apply ibind_ok_inv in Hc as (? & ? & _ & Hc) end.
  by injection Hc as _ <-.
Qed.
Lemma start_first_config activations config : forall failures (w w' : W) e,
  HardwareH264Encoder.start_first activations config failures w = (w', Ok e) -> HardwareH264Encoder.config e = config.
Proof.
  induction activations as [|a l IH]; intros failures w w' e; cbn [HardwareH264Encoder.start_first]; [done|].
  unfold ibind at 1, icatch at 1.
  destruct (HardwareH264Encoder.start_activation _ _ _ w) as [w1 [e1|error|f]] eqn:Hs; cbn.
  - intros [= _ <-]. by eapply start_activation_config.
  - intros Hrun. apply ibind_ok_inv in Hrun as (? & ? & _ & Hrun). by eapply IH.
  - done.
Qed.
Lemma start_config config (w w' : W) e :
  HardwareH264Encoder.start config w = (w', Ok e) -> HardwareH264Encoder.config e = config.
Proof.
  unfold HardwareH264Encoder.start. intros (w1 & c & Hv & Hrun)%ibind_ok_inv.
  apply ibind_ok_inv in Hrun as (? & ? & _ & Hrun). case_bool_decide; [done|].
  apply start_first_config in Hrun as ->. unfold ilift, H264EncoderConfig.validate in Hv. injection Hv as _ Hv. by inv_ok.
Qed.
End start.
