(* ===== verification/WinCaptureFeed.v ===== *)
(** * What a capture feeds to the encoder

    A live capture, over recorded Media Foundation: which textures the transform
    is given, and when. The pipeline of [WinCaptureLive] is followed down to the
    samples the transform accepts. *)
From S2P Require Export WinCaptureEnds.
From S2P Require Import WinEncoderFacts.
Local Open Scope string_scope.
Local Open Scope list_scope.
Local Open Scope Z_scope.

Notation media_log := (list WinEncoderFacts.Entry).

(** Direct3D beside the recording leaves it alone. *)
#[export] Instance beside_media `{D3dOs W} : D3dOs (W * media_log) := {
  d3d_call d c w := also (snd w) (d3d_call d c (fst w));
  d3d_create d c w := also (snd w) (d3d_create d c (fst w));
  d3d_make d m w := also (snd w) (d3d_make d m (fst w));
  check_processor_format e f w := also (snd w) (check_processor_format e f (fst w));
  processor_set p s w := (processor_set p s (fst w), snd w);
  get_desc t w := also (snd w) (get_desc t (fst w));
  create_d3d11_device t w := also (snd w) (create_d3d11_device t (fst w));
}.
#[export] Instance kept_beside `{D3dOs W} log : KeptByD3d (fun w : W * media_log => snd w = log).
Proof. split; try done; by intros; intros w Hw. Qed.

(** ** One texture *)
Section texture.
Context {W : Type} `{MediaConstants} `{MediaOs W}.
Import HardwareH264Encoder.
Notation encoder_state := (HardwareH264Encoder.t * (W * media_log))%type.

(** The transform has accepted these samples. *)
Definition fed (samples : list InputSample.t) (s : encoder_state) : Prop :=
  accepted_inputs (snd (snd s)) = samples.

Lemma fed_tally {A} samples (f : HardwareH264Encoder.t -> io (W * media_log) string A) :
  (forall self x, keeps (tally x) (f self)) -> keeps (fed samples) (with_owned f).
Proof.
  intros Hf [self w] Hs. pose proof (Hf self _ w eq_refl) as Hw. unfold fed, with_owned, on_world, tally in *. cbn [fst snd] in *.
  destruct (f self w) as [w' r]. cbn [fst snd] in *. apply (f_equal Tally.inputs) in Hw. cbn in Hw. by rewrite Hw.
Qed.
Lemma fed_world {A} samples (m : io (W * media_log) string A) :
  (forall x, keeps (tally x) m) -> keeps (fed samples) (on_world m).
Proof. intros Hm. by apply (fed_tally samples (fun _ => m)). Qed.
Lemma fed_put samples (f : encoder_state -> HardwareH264Encoder.t) : keeps (fed samples) (iput (E:=string) (fun s => (f s, snd s))).
Proof. by apply keeps_put. Qed.
Lemma fed_polled samples encoder : keeps (fed samples) (with_owned (fun self => poll_event (activation self) encoder)).
Proof.
  intros [self w] Hs. pose proof (poll_tally (activation self) _ encoder w eq_refl) as Hp.
  unfold fed, with_owned, on_world, tally in *. cbn [fst snd] in *. destruct (poll_event _ encoder w) as [w' r]. cbn [fst snd] in *.
  apply (f_equal Tally.inputs) in Hp. cbn in Hp. by rewrite Hp, app_nil_r.
Qed.
Lemma taken_inputs tr (w : W * media_log) : accepted_inputs (snd (fst (take_output tr w))) = accepted_inputs (snd w).
Proof.
  pose proof (take_output_tally tr _ w eq_refl) as (Hi & _). exact Hi.
Qed.
Lemma fed_taken samples : keeps (fed samples) (with_owned (fun self => take_output (activation self))).
Proof.
  intros [self w] Hs. pose proof (taken_inputs (activation self) w) as Ht.
  unfold fed, with_owned, on_world in *. cbn [fst snd] in *. destruct (take_output _ w) as [w' r]. cbn [fst snd] in *. congruence.
Qed.
Hint Resolve fed_put fed_polled fed_taken tally_now : io.
Lemma fed_now samples : keeps (fed samples) (on_world (now_io (E:=string))).
Proof. apply fed_world. auto with io. Qed.
Hint Resolve fed_now : io.
Lemma fed_pump samples deadline : keeps (fed samples) (pump_stream_event deadline).
Proof.
  unfold pump_stream_event. apply keeps_bind; [auto with io|]. intros instant. apply keeps_if; [auto with io|intros _].
  apply keeps_bind; [auto with io|]. intros has. apply keeps_if; [auto with io|intros _].
  apply keeps_bind; [auto with io|]. intros [[]|]; auto with io.
Qed.
Hint Resolve fed_pump : io.
Lemma fed_await_input samples fuel deadline : keeps (fed samples) (await_input fuel deadline).
Proof. induction fuel; cbn [await_input]; auto with io. Qed.
Lemma fed_await_output samples fuel deadline ts : forall b, keeps (fed samples) (await_output fuel deadline ts b).
Proof. induction fuel; intros b; cbn [await_output]; auto 10 with io. Qed.
Lemma fed_drain samples : keeps (fed samples) drain_pending.
Proof. unfold drain_pending. apply keeps_bind; [auto with io|]. intros units. by apply keeps_bind; [apply fed_put|auto with io]. Qed.
Lemma fed_outputs samples fuel : keeps (fed samples) (with_owned (fun self => take_texture_outputs fuel (activation self) [])).
Proof.
  assert (Hk : forall tr units, keeps (fun w : W * media_log => accepted_inputs (snd w) = samples) (take_texture_outputs fuel tr units)).
  { induction fuel as [|fuel IH]; intros tr units; cbn [take_texture_outputs]; [auto with io|].
    apply keeps_bind; [apply keeps_catch; intros w <-; apply taken_inputs|]. intros [| |]; auto with io. }
  intros [self w] Hs. specialize (Hk (activation self) [] w Hs). unfold fed, with_owned, on_world in *. cbn [fst snd] in *.
  by destruct (take_texture_outputs _ _ _ w).
Qed.

(** The transform is given one sample, which it takes or rejects. *)
Lemma fed_process samples sample :
  run_of (fed samples) (process_input sample) (fun r => fed (match r with Ok _ => samples ++ [sample] | _ => samples end)).
Proof.
  intros [self w] Hs. unfold process_input, with_owned, on_world, labelled, imap_err, fed in *. cbn [fst snd] in *.
  cbn [call recording_media]. unfold also. destruct (call (activation self) (ProcessInput sample) (fst w)) as [w' r]. cbn [fst snd].
  destruct r; cbn [map_err fst snd]; rewrite inputs_snoc, Hs; cbn; by rewrite ?app_nil_r.
Qed.

(** Encoding a texture feeds one sample, of its time; on failure perhaps none. *)
Definition feeds samples (time : Z) (complete : bool) (s : encoder_state) : Prop :=
  (exists sample, InputSample.time sample = time /\ fed (samples ++ [sample]) s) \/ complete = false /\ fed samples s.
Lemma feeds_encode samples fuel texture time :
  run_of (fed samples) (encode_texture fuel texture time) (fun r => feeds samples time (accepted r)).
Proof.
  assert (Hnone : forall s : encoder_state, fed samples s -> feeds samples time false s) by by right.
  assert (Hsome : forall sample, InputSample.time sample = time ->
    forall b (s : encoder_state), fed (samples ++ [sample]) s -> feeds samples time b s) by (intros sample <- b s Hs; left; by exists sample).
  unfold encode_texture. apply run_get. intros self.
  eapply run_weaken with (P := fed samples); [|by intros s []|intros r s Hs; exact Hs].
  eapply run_bind with (R := fun _ => fed samples); [by intros s|intros; by apply Hnone..|]. intros _.
  eapply run_bind with (R := fun _ => fed samples); [by intros s|intros; by apply Hnone..|]. intros d.
  eapply run_bind with (R := fun r s => fed samples s /\ forall sample, r = Ok sample -> InputSample.time sample = time);
    [|intros s e []; by apply Hnone|intros s f []; by apply Hnone|].
  { apply run_and; [apply fed_tally; intros; apply tally_dxgi_sample|].
    intros [e w] _ sample Hr. unfold with_owned, on_world in Hr. cbn [fst snd] in Hr.
    destruct (create_dxgi_sample _ _ time d w) as [w' r] eqn:Hc. cbn in Hr. subst r. unfold create_dxgi_sample in Hc.
    repeat match type of Hc with ibind _ _ _ = _ => apply ibind_ok_inv in Hc as (? & ? & _ & Hc) end. by injection Hc as _ <-. }
  intros sample s [Hs Ht]. pose proof (Hsome sample (Ht sample eq_refl)) as Hgive. clear Ht. revert s Hs.
  change (run_of (fed samples) (if asynchronous self then encode_texture_async fuel sample time else encode_texture_sync fuel sample)
    (fun r => feeds samples time (accepted r))).
  assert (Hafter : forall A (m : io encoder_state string A), keeps (fed (samples ++ [sample])) m ->
    run_of (fed (samples ++ [sample])) m (fun r => feeds samples time (accepted r))) by (intros A m Hm s Hs; by apply Hgive, Hm).
  destruct (asynchronous self).
  - unfold encode_texture_async.
    eapply run_bind with (R := fun _ => fed samples); [apply fed_now|intros; by apply Hnone..|]. intros start.
    eapply run_bind with (R := fun _ => fed samples); [apply fed_await_input|intros; by apply Hnone..|]. intros _.
    eapply run_bind with (R := fun r => fed (match r with Ok _ => samples ++ [sample] | _ => samples end));
      [|intros; by apply Hnone..|].
    + unfold submit_texture. eapply run_bind; [apply fed_process|by intros..|]. intros []. by intros s Hs.
    + intros _. apply Hafter, keeps_bind; [apply fed_await_output|intros; apply fed_drain].
  - unfold encode_texture_sync.
    eapply run_bind; [apply fed_process|intros; by apply Hnone..|]. intros []. apply Hafter, fed_outputs.
Qed.
End texture.

(** ** The pipeline *)
Section pipeline.
Context {W : Type} `{D3dOs W} `{MediaConstants} `{MediaOs W}.
Import CapturePipeline.
Notation state := (CapturePipeline.t * (W * media_log))%type.
Notation times := (fun s : state => map InputSample.time (accepted_inputs (snd (snd s)))).

(** The transform was fed for each texture the pipeline encoded, or lacks the last. *)
Definition abreast (s : state) : Prop := times s = timestamps (actions (fst s)).
Definition behind (s : state) : Prop := times s `prefix_of` timestamps (actions (fst s)).
Definition follows {A} (r : outcome string A) (s : state) : Prop :=
  match r with Ok _ => abreast s | _ => behind s end.

Lemma abreast_behind s : abreast s -> behind s.
Proof. unfold abreast, behind. by intros ->. Qed.
Lemma follows_behind {A} (r : outcome string A) s : follows r s -> behind s.
Proof. destruct r; [apply abreast_behind|done..]. Qed.
Lemma follows_keeps {A} (m : io state string A) : keeps abreast m -> run_of abreast m follows.
Proof. intros Hm s Hs. specialize (Hm s Hs). destruct (snd (m s)); [done|by apply abreast_behind..]. Qed.
Lemma follows_bind {A B} (m : io state string A) (k : A -> io state string B) :
  run_of abreast m follows -> (forall a, run_of abreast (k a) follows) -> run_of abreast (ibind m k) follows.
Proof. intros Hm Hk. eapply run_bind; [exact Hm|by intros..|]. intros a. apply Hk. Qed.

(** Steps that feed nothing. *)
Lemma keeps_acts (P : list InputSample.t -> list Z -> Prop) a : timestamps a = [] ->
  keeps (fun s : state => P (accepted_inputs (snd (snd s))) (timestamps (actions (fst s)))) (act a).
Proof. intros Ha. apply keeps_put. intros [self w]. cbn. by rewrite timestamps_app, Ha, app_nil_r. Qed.
Lemma abreast_act a : timestamps a = [] -> keeps abreast (act a).
Proof. exact (keeps_acts (fun l ts => map InputSample.time l = ts) a). Qed.
Lemma abreast_put f : (forall self, actions (f self) = actions self) -> keeps abreast (put f).
Proof. intros Hf. apply keeps_put. intros [self w]. unfold abreast. cbn. by rewrite Hf. Qed.
Lemma keeps_d3d {A} (P : list InputSample.t -> list Z -> Prop) (m : io (W * media_log) string A) :
  (forall log, keeps (fun w : W * media_log => snd w = log) m) ->
  keeps (fun s : state => P (accepted_inputs (snd (snd s))) (timestamps (actions (fst s)))) (on_world m).
Proof.
  intros Hm [self w] Hs. specialize (Hm (snd w) w eq_refl). unfold on_world. cbn [fst snd] in *.
  destruct (m w) as [w' r]. cbn [fst snd] in *. by rewrite Hm.
Qed.
Lemma abreast_d3d {A} (m : io (W * media_log) string A) :
  (forall log, keeps (fun w : W * media_log => snd w = log) m) -> keeps abreast (on_world m).
Proof. exact (keeps_d3d (fun l ts => map InputSample.time l = ts) m). Qed.
Lemma abreast_convert texture : keeps abreast (on_part processor set_processor (BgraToNv12Processor.convert texture)).
Proof.
  intros [self w] Hs. pose proof (keeping_convert (fun w' : W * media_log => snd w' = snd w) texture (processor self, w) eq_refl) as Hw.
  unfold on_part, abreast in *. cbn [fst snd] in *. destruct (BgraToNv12Processor.convert texture (processor self, w)) as [[p w'] r].
  cbn [fst snd] in *. by rewrite Hw.
Qed.
Hint Resolve abreast_convert keeps_get : kept.
Hint Extern 2 (keeps abreast (act _)) => apply abreast_act; reflexivity : kept.
Hint Extern 2 (keeps abreast (put _)) => apply abreast_put; reflexivity : kept.

Lemma abreast_resize turn frame size : keeps abreast (resize turn frame size).
Proof. unfold resize. through. apply abreast_d3d. intros log. apply keeping_new_processor, _. Qed.
Lemma abreast_deliver turn units : keeps abreast (deliver turn units).
Proof. unfold deliver. through. Qed.
Hint Resolve abreast_resize abreast_deliver : kept.

(** The texture is noted, then fed. *)
Definition noted (time : Z) (s : state) : Prop := timestamps (actions (fst s)) = times s ++ [time].
Lemma follows_encode_texture fuel texture time :
  run_of (noted time) (on_part encoder set_encoder (HardwareH264Encoder.encode_texture fuel texture time)) follows.
Proof.
  intros [self w] Hs. unfold noted, on_part in *. cbn [fst snd] in *.
  pose proof (feeds_encode (accepted_inputs (snd w)) fuel texture time (encoder self, w) eq_refl) as Hf.
  destruct (HardwareH264Encoder.encode_texture fuel texture time (encoder self, w)) as [[e w'] r]. cbn [fst snd] in *.
  destruct Hf as [(sample & Ht & Hf)|[Hr Hf]]; unfold fed in Hf; cbn [fst snd] in Hf.
  - assert (Ha : abreast (set_encoder self e, w')) by (unfold abreast; cbn [fst snd set_encoder actions]; by rewrite Hf, Hs, map_app, <-Ht).
    destruct r; [done|by apply abreast_behind..].
  - assert (Hb : behind (set_encoder self e, w')) by (unfold behind; cbn [fst snd set_encoder actions]; rewrite Hf, Hs; by apply prefix_app_r).
    by destruct r.
Qed.
Lemma follows_encode fuel turn frame : run_of abreast (encode_frame fuel turn frame) follows.
Proof.
  unfold encode_frame. do 3 (apply follows_bind; [apply follows_keeps; through|intros ?]).
  match goal with |- run_of _ (ibind (act [EncodeTexture _ ?ts]) _) _ => set (time := ts) end.
  assert (Hlift : forall s, noted time s -> behind s).
  { intros s Hs. unfold behind. rewrite Hs. by apply prefix_app_r. }
  eapply run_bind with (R := fun _ => noted time); [|by intros; apply Hlift..|].
  { intros [self w] Hs. unfold noted, abreast in *. cbn in *. by rewrite timestamps_app, Hs. }
  intros ?. eapply run_bind with (R := fun _ => noted time); [|by intros; apply Hlift..|].
  - refine (keeps_d3d (fun l ts => ts = map InputSample.time l ++ [time]) _ _). intros log. apply keeping_native, _.
  - intros texture. apply follows_encode_texture.
Qed.

Lemma follows_process fuel turn frame : run_of abreast (process_frame fuel turn frame) follows.
Proof.
  unfold process_frame. apply follows_bind; [apply follows_keeps; through|intros ?].
  apply follows_bind; [apply follows_keeps; through|intros self]. destruct (_ <? _); [apply follows_keeps; through|].
  apply follows_bind; [apply follows_keeps; through|intros ?].
  destruct (Pipeline.dimensions frame) as [size|e|f]; [|apply follows_keeps; through..].
  destruct (negb _); [apply follows_keeps; through|].
  eapply run_bind; [apply run_catch, follows_encode|done|done|]. intros result. cbv beta iota.
  eapply run_bind with (R := fun _ => follows result); [|by intros; apply (follows_behind result)..|].
  { destruct result; cbn [follows];
      [exact (keeps_acts (fun l ts => map InputSample.time l = ts) [CloseFrame (CapturedFrame.id frame)] eq_refl)|
       exact (keeps_acts (fun l ts => map InputSample.time l `prefix_of` ts) [CloseFrame (CapturedFrame.id frame)] eq_refl)..]. }
  intros ?. destruct result as [units|e|f]; [|by intros s Hs..]. cbn [follows].
  change (run_of abreast (let* units := ilift (Ok units) in
    let* _ := ilift (map_err (fun error => "failed to close captured frame: " +:+ error) (CapturedFrame.close frame)) in
    deliver turn units) follows). apply follows_keeps. through.
Qed.
Lemma follows_run fuel turns : run_of abreast (run fuel turns) follows.
Proof.
  induction turns as [|turn turns IH]; cbn [run]; [apply follows_keeps; through|].
  destruct (LiveTurn.cancelled turn); [apply follows_keeps; through|].
  destruct (LiveTurn.source_closed turn); [apply follows_keeps; through|].
  apply follows_bind; [|by intros []]. unfold process_next_frame.
  destruct (LiveTurn.received turn) as [frame| |]; [|apply follows_keeps; through..].
  apply follows_bind; [apply follows_keeps; through|]. intros f. apply follows_process.
Qed.
End pipeline.

(** ** The capture *)
Lemma answered_answers turn observed : live_answers turn -> answered turn observed -> WinCapture.answers observed.
Proof.
  intros [Hr Hs Hrec] (rebuilt & converted & encoded & Hb & Hc & He & ->). constructor; try done.
Qed.
Lemma answered_at turn observed : answered turn observed -> CaptureTurn.captured_at observed = LiveTurn.captured_at turn.
Proof. by intros (rebuilt & converted & encoded & _ & _ & _ & ->). Qed.

Lemma new_pipeline device config processor encoder self :
  0 < H264StreamConfig.fps config -> CapturePipeline.new device config processor encoder = Ok self ->
  Pipeline.new config (HardwareH264Encoder.encoder_name encoder)
    (fst (BgraToNv12Processor.input_dimensions processor)) (snd (BgraToNv12Processor.input_dimensions processor)) =
  Ok (CapturePipeline.pipeline_of self) /\ CapturePipeline.actions self = [] /\
  CapturePipeline.frame_interval self = 1000000000 / H264StreamConfig.fps config.
Proof.
  intros Hfps. unfold CapturePipeline.new, Pipeline.new, div_i.
  destruct (Z.eqb_spec (H264StreamConfig.fps config) 0); [lia|]. intros [= <-]. split_and!; [done..|].
  cbn. unfold Duration.from_nanos. by rewrite Z.quot_div_nonneg by lia.
Qed.

(** C18: a live capture with its video processor and its encoder closes every frame and
    feeds the hardware at the configured rate, whatever Direct3D and Media Foundation do:
    frames are taken, encoded and closed in order as for [captured_frames_are_closed];
    the samples the transform accepted have the times of the textures encoded, in order,
    of which only the last may be missing where the run failed; and between two accepted
    samples with [n] others in between pass at least [n - 1] frame intervals, up to the
    resolution of a timestamp, however fast frames arrive. *)
Theorem live_captures_feed_at_the_rate {W} `{D3dOs W} `{MediaConstants} `{MediaOs W} device config processor encoder self
    fuel turns (w : W) (Hnew : CapturePipeline.new device config processor encoder = Ok self)
    (Hfps : 0 < H264StreamConfig.fps config) (Hturns : Forall live_answers turns)
    (Htimes : Forall (fun turn => LiveTurn.captured_at turn + 1000000000 / H264StreamConfig.fps config <= Duration.MAX) turns) :
  let '((self', (_, log)), r) := CapturePipeline.run fuel turns (self, (w, [])) in
  returns r ->
  in_hand None (CapturePipeline.actions self') = Some None /\
  map InputSample.time (accepted_inputs log) `prefix_of` timestamps (CapturePipeline.actions self') /\
  (r = Ok tt -> map InputSample.time (accepted_inputs log) = timestamps (CapturePipeline.actions self')) /\
  forall i n a b, accepted_inputs log !! i = Some a -> accepted_inputs log !! (i + n + 1)%nat = Some b ->
    (Z.of_nat n - 1) * (1000000000 / H264StreamConfig.fps config) <= 100 * (InputSample.time b - InputSample.time a) + 99.
Proof.
  assert (Hold : Pipeline.new config (HardwareH264Encoder.encoder_name encoder)
      (fst (BgraToNv12Processor.input_dimensions processor)) (snd (BgraToNv12Processor.input_dimensions processor)) =
      Ok (CapturePipeline.pipeline_of self) /\ CapturePipeline.actions self = [] /\
      CapturePipeline.frame_interval self = 1000000000 / H264StreamConfig.fps config) by (by eapply new_pipeline).
  destruct Hold as (Hold & Hempty & Hinterval).
  pose proof (run_refines fuel turns self (w, [])) as Href.
  pose proof (follows_run fuel turns (self, (w, []))) as Hfollow.
  destruct (CapturePipeline.run fuel turns (self, (w, []))) as [[self' [w' log]] r]. cbn [fst snd] in Hfollow.
  intros Hret. destruct (Href Hret) as (observed & Hobs & Hrun).
  specialize (Hfollow ltac:(unfold abreast; cbn; by rewrite Hempty)).
  assert (Hans : Forall (fun turn => WinCapture.answers turn /\
    CaptureTurn.captured_at turn + Pipeline.frame_interval (CapturePipeline.pipeline_of self) <= Duration.MAX) observed).
  { cbn. rewrite Hinterval. clear -Hobs Hturns Htimes. induction Hobs as [|turn o turns os Ho Hos IH]; [constructor|].
    apply Forall_cons in Hturns as [Ht Hturns]. apply Forall_cons in Htimes as [Hm Htimes]. constructor; [|by apply IH].
    split; [by eapply answered_answers|]. by rewrite (answered_at _ _ Ho). }
  pose proof (follows_behind _ _ Hfollow) as Hprefix. unfold behind in Hprefix. cbn [fst snd] in Hprefix. split_and!.
  - refine (pipeline_closes _ _ _ _ _ _ _ _ Hold _ Hrun). eapply Forall_impl; [exact Hans|]. by intros turn [].
  - done.
  - intros ->. exact Hfollow.
  - intros i n a b Ha Hb.
    assert (Hin : forall j x, accepted_inputs log !! j = Some x ->
      timestamps (CapturePipeline.actions self') !! j = Some (InputSample.time x)).
    { intros j x Hj. eapply prefix_lookup_Some; [|exact Hprefix]. by rewrite list_lookup_fmap, Hj. }
    exact (run_paces _ _ _ _ _ _ _ _ i n _ _ Hold Hfps Hans Hrun (Hin _ _ Ha) (Hin _ _ Hb)).
Qed.
