(* ===== verification/WinCaptureSetup.v ===== *)
(** * Setting up captures on Windows

    Models the rest of [apps/desktop/src-tauri/src/platform/windows/capture_stream.rs]
    and of [platform/windows.rs]: the apartment and Media Foundation of a thread, the
    objects of a capture ([PreparedCapture]), the capture stream's worker, the short
    probe, the worker thread that answers the host's questions, and the platform's
    status. The Windows Runtime is the class [CaptureOs]. *)
From stdpp Require Import pretty.
From S2P Require Export WinCaptureLive WinVirtualDisplay WinUsbOpen.
Local Open Scope string_scope.
Local Open Scope list_scope.
Local Open Scope Z_scope.

(** ** The Windows Runtime *)

(** What [RoInitialize] answers. *)
Inductive Apartment : Type :=
| Entered
| ChangedMode
| Refused (error : string).

(** One callback of the frame pool during a probe: whether it has a pool, the frame it
    dequeues, the number of dirty regions if they are known, and the time since the
    start. *)
Module ProbeCallback.
Record t : Type := mk {
  pool : outcome string unit;
  next : outcome string (CapturedFrame.t Z);
  dirty_regions : option Z;
  elapsed : Z;
}.
End ProbeCallback.

(** The capture API answers each operation of [CaptureOp]; [capture_did] is the world
    after some of them. [probe_sleep] is the wait of a probe: the callbacks until its
    counters are read, and the time that has passed. [capture_turns] is what a streaming
    capture observes. *)
Class CaptureOs (W : Type) : Type := {
  ro_initialize : W -> W * Apartment;
  ro_uninitialize : W -> W;
  mf_startup : W -> W * outcome string unit;
  mf_shutdown : W -> W;
  capture_is_supported : W -> W * outcome string bool;
  load_item_factory : W -> W * outcome string unit;
  create_item_for_monitor : Z -> W -> W * outcome string unit;
  item_size : W -> W * outcome string (Z * Z);
  create_frame_pool : Z -> Z * Z -> W -> W * outcome string unit;
  capture_api : W -> CaptureApi;
  capture_did : list CaptureOp -> W -> W;
  set_cursor : bool -> W -> W;
  probe_sleep : Z -> W -> W * (list ProbeCallback.t * Z);
  capture_turns : W -> W * list LiveTurn.t;
}.

Definition CAPTURE_PROBE_DURATION : Z := Duration.from_millis 750.

Section setup.
Context {W : Type} `{DisplayOs W} `{D3dOs W} `{MediaConstants} `{MediaOs W} `{CaptureOs W}.
Notation io := (RustIo.io W string).

(** ** The apartment and Media Foundation

    A [WinRtApartment] is its flag [uninitialize]. *)
Definition apartment_initialize : io bool := fun w =>
  let (w, answer) := ro_initialize w in
  (w, match answer with
      | Entered => Ok true
      | ChangedMode => Ok false
      | Refused error => Err ("failed to initialize Windows Runtime: " +:+ error)
      end).
Definition drop_apartment (uninitialize : bool) (w : W) : W := if uninitialize then ro_uninitialize w else w.

Definition startup : io unit := imap_err (fun error => "failed to start Media Foundation: " +:+ error) mf_startup.

(** ** The objects of a capture *)
Definition create_capture_item (monitor : Z) : io unit :=
  let* _ := imap_err (fun error => "failed to load GraphicsCaptureItem interop: " +:+ error) load_item_factory in
  imap_err (fun error => "failed to create capture item for monitor: " +:+ error) (create_item_for_monitor monitor).

Definition monitors : io (list MonitorSource.t) := fun w =>
  let (w, e) := enum_display_monitors w in (w, enumerate_monitors e).

(** The monitor, its item and the item's size, which are the same for a stream and a
    probe but for the labels. *)
Definition select_item (display_id : option string) (width_label height_label : string)
  : io (MonitorSource.t * (Z * Z) * (Z * Z)) :=
  let* found := monitors in
  let* selected := ilift (select_monitor found display_id) in
  let* _ := create_capture_item (MonitorSource.handle selected) in
  let* size := imap_err (fun error => "failed to query capture item size: " +:+ error) item_size in
  let* width := ilift (positive_dimension (fst size) width_label) in
  let* height := ilift (positive_dimension (snd size) height_label) in
  iret (selected, size, (width, height)).
(** One operation of the capture API, and several whose results are ignored. *)
Definition capture_op (op : CaptureOp) : io unit := fun w => (capture_did [op] w, capture_api w op).
Definition undo (ops : list CaptureOp) : io unit := iput (capture_did ops).
Definition close_session : io (list string) := fun w =>
  let (ops, errors) := close_capture_session (capture_api w) in (capture_did ops w, Ok errors).
End setup.

Module PreparedCapture.
Record t : Type := mk {
  capture_device : CaptureDevice.t;
  config : H264StreamConfig.t;
  processor : BgraToNv12Processor.t;
  encoder : HardwareH264Encoder.t;
}.

Definition encoder_config (config : H264StreamConfig.t) : outcome string H264EncoderConfig.t :=
  let! bitrate := ok_or (checked 32 (H264StreamConfig.bitrate_kbps config * 1000))
    "H.264 bitrate exceeds the Windows encoder range" in
  Ok (H264EncoderConfig.mk (H264StreamConfig.width config) (H264StreamConfig.height config)
        (H264StreamConfig.fps config) bitrate).

Section methods.
Context {W : Type} `{DisplayOs W} `{D3dOs W} `{MediaConstants} `{MediaOs W} `{CaptureOs W}.
Notation io := (RustIo.io W string).

Definition new (config : H264StreamConfig.t) (display_id : option string) : io t :=
  let* (_, size, (input_width, input_height)) := select_item display_id "capture width" "capture height" in
  let* device := create_capture_device in
  let* _ := imap_err (fun error => "failed to create streaming capture frame pool: " +:+ error)
    (create_frame_pool (CaptureDevice.native device) size) in
  let* encoder_config := ilift (encoder_config config) in
  let* processor := BgraToNv12Processor.new (CaptureDevice.native device) input_width input_height
    (H264StreamConfig.width config) (H264StreamConfig.height config) (H264StreamConfig.fps config) in
  let* encoder := HardwareH264Encoder.start encoder_config in
  iret (mk device config processor encoder).

(** The pipeline, on the prepared objects, over what the capture observes. *)
Definition stream (fuel : nat) (turns : list LiveTurn.t) : RustIo.io (t * W) string unit := fun s =>
  match CapturePipeline.new (capture_device (fst s)) (config (fst s)) (processor (fst s)) (encoder (fst s)) with
  | Ok pipeline =>
    let (s', r) := CapturePipeline.run fuel turns (pipeline, snd s) in
    (mk (capture_device (fst s)) (config (fst s)) (CapturePipeline.processor (fst s')) (CapturePipeline.encoder (fst s')),
     snd s', r)
  | Err error => (s, Err error)
  | Fault f => (s, Fault f)
  end.

(** The frame pool and the session are closed, and the handlers removed. *)
Definition close_stream : io (list string) :=
  let* cleanup_errors := close_session in
  let* removed := icatch (capture_op RemoveClosed) in
  iret (cleanup_errors ++ match removed with Err error => ["remove source-closed handler: " +:+ error] | _ => [] end).

Definition run_prepared (fuel : nat) : RustIo.io (t * W) string unit :=
  let* _ := on_world (imap_err (fun error => "failed to subscribe to capture-source closure: " +:+ error)
    (capture_op SubscribeClosed)) in
  let* handler := on_world (icatch (capture_op SubscribeFrames)) in
  match handler with
  | Err error =>
    let* _ := on_world (undo [RemoveClosed; ClosePool]) in
    ifail ("failed to subscribe to streaming capture frames: " +:+ error)
  | Fault f => ifault f
  | Ok _ =>
    let* session := on_world (icatch (capture_op CreateSession)) in
    match session with
    | Err error =>
      let* _ := on_world (undo [RemoveFrames; RemoveClosed; ClosePool]) in
      ifail ("failed to create streaming capture session: " +:+ error)
    | Fault f => ifault f
    | Ok _ =>
      let* _ := on_world (iput (set_cursor true)) in
      let* started := on_world (icatch (capture_op StartCapture)) in
      match started with
      | Err error =>
        let* cleanup_errors := on_world close_stream in
        ifail (if bool_decide (cleanup_errors = []) then "failed to start streaming capture: " +:+ error
               else "failed to start streaming capture: " +:+ error +:+ "; cleanup failed: " +:+ String.concat "; " cleanup_errors)
      | Fault f => ifault f
      | Ok _ =>
        let* turns := on_world (fun w => let (w, turns) := capture_turns w in (w, Ok turns)) in
        let* result := icatch (stream fuel turns) in
        let* cleanup_errors := on_world close_stream in
        match result with
        | Err error =>
          ifail (if bool_decide (cleanup_errors = []) then error
                 else error +:+ "; capture cleanup also failed: " +:+ String.concat "; " cleanup_errors)
        | Fault f => ifault f
        | Ok _ =>
          if bool_decide (cleanup_errors = []) then iret tt
          else ifail ("streaming capture could not shut down cleanly: " +:+ String.concat "; " cleanup_errors)
        end
      end
    end
  end.
End methods.
End PreparedCapture.

Section runs.
Context {W : Type} `{DisplayOs W} `{D3dOs W} `{MediaConstants} `{MediaOs W} `{CaptureOs W}.
Notation io := (RustIo.io W string).

(** [capture_stream::run]: the locals are dropped in the reverse order of their making,
    on every path. [fuel] bounds the waits of the encoder for one texture. *)
Definition capture_and_encode (fuel : nat) (config : H264StreamConfig.t) (display_id : option string) : io unit :=
  let* supported := imap_err (fun error => "failed to query Windows.Graphics.Capture: " +:+ error) capture_is_supported in
  if negb supported then ifail "Windows.Graphics.Capture is not supported by this OS build"
  else
    let* capture := PreparedCapture.new config display_id in
    fun w =>
      let '((capture, w), result) := PreparedCapture.run_prepared fuel (capture, w) in
      (HardwareH264Encoder.drop (PreparedCapture.encoder capture) w, result).
Definition run (fuel : nat) (config : H264StreamConfig.t) (display_id : option string) : io unit :=
  let* apartment := apartment_initialize in
  ifinally
    (let* _ := startup in
     ifinally (capture_and_encode fuel config display_id) mf_shutdown)
    (drop_apartment apartment).

(** ** The stream of a session

    The worker thread runs the capture and says why it failed, if it can: [Some (Err _)]
    was sent last. The batches are sent by [run] itself. *)
Definition stream_work (fuel : nat) (config : H264StreamConfig.t) (display_id : option string) (sends : list SendPoll.t)
  : io (option (outcome string H264StreamBatch.t)) :=
  let* result := icatch (run fuel config display_id) in
  match result with
  | Err error => let* sent := ilift (send_encoder_result sends) in iret (if sent : bool then Some (Err error) else None)
  | _ => iret None
  end.

(** ** The probe *)
Definition observe (callback : ProbeCallback.t) (counters : ProbeCounters.t) : ProbeCounters.t :=
  ProbeCounters.record_observation counters
    (match ProbeCallback.pool callback with
     | Ok _ =>
       let! frame := map_err (fun error => "failed to dequeue captured frame: " +:+ error) (ProbeCallback.next callback) in
       observe_frame frame (ProbeCallback.dirty_regions callback)
     | Err error => Err ("capture callback had no frame pool: " +:+ error)
     | Fault f => Fault f
     end)
    (ProbeCallback.elapsed callback).

Definition probe_result (selected : MonitorSource.t) (backend : string) (size : Z * Z) (fps elapsed : Z)
  (snapshot : ProbeCounters.t) : outcome string CaptureProbeReport.t :=
  match (if ProbeCounters.frames_with_surface snapshot =? 0 then ProbeCounters.first_error snapshot else None) with
  | Some error => Err ("Windows capture callbacks did not expose a usable D3D11 surface: " +:+ error)
  | None => Ok (build_probe_report selected backend snapshot (fst size) (snd size) fps elapsed)
  end.

Definition probe_session (selected : MonitorSource.t) (backend : string) (size : Z * Z) (fps : Z)
  : io CaptureProbeReport.t :=
  let* _ := imap_err (fun error => "failed to subscribe to Windows capture frames: " +:+ error) (capture_op SubscribeFrames) in
  let* session := icatch (capture_op CreateSession) in
  match session with
  | Err error =>
    let* _ := undo [RemoveFrames; ClosePool] in ifail ("failed to create Windows capture session: " +:+ error)
  | Fault f => ifault f
  | Ok _ =>
    let* _ := iput (set_cursor false) in
    let* started := icatch (capture_op StartCapture) in
    match started with
    | Err error =>
      let* _ := undo [RemoveFrames; ClosePool; CloseSession] in ifail ("failed to start Windows capture: " +:+ error)
    | Fault f => ifault f
    | Ok _ =>
      let* (callbacks, elapsed) := (fun w => let (w, r) := probe_sleep CAPTURE_PROBE_DURATION w in (w, Ok r)) in
      let* cleanup_errors := close_session in
      if negb (bool_decide (cleanup_errors = []))
      then ifail ("Windows capture probe could not shut down cleanly: " +:+ String.concat "; " cleanup_errors)
      else ilift (probe_result selected backend size fps elapsed (fold_left (fun c e => observe e c) callbacks ProbeCounters.default))
    end
  end.

Definition probe_screen_capture_on_worker (display_id : option string) (fps : Z) : io CaptureProbeReport.t :=
  let* supported := imap_err (fun error => "failed to query Windows.Graphics.Capture: " +:+ error) capture_is_supported in
  if negb supported then ifail "Windows.Graphics.Capture is not supported by this OS build"
  else
    let* (selected, size, configured) := select_item display_id "width" "height" in
    let* device := create_capture_device in
    let* _ := imap_err (fun error => "failed to create Windows capture frame pool: " +:+ error)
      (create_frame_pool (CaptureDevice.native device) size) in
    probe_session selected (CaptureDevice.backend device) configured fps.
End runs.

(** The host's side of a stream: the configuration its worker starts with, and the next
    batch. *)
Module CapturedH264Stream.
Definition start (config : H264StreamConfig.t) (spawned : outcome string unit) : outcome string H264StreamConfig.t :=
  let! config := H264StreamConfig.new (H264StreamConfig.width config) (H264StreamConfig.height config)
    (H264StreamConfig.fps config) (H264StreamConfig.bitrate_kbps config) in
  let! _ := map_err (fun error => "failed to start Windows capture/H.264 worker: " +:+ error) spawned in
  Ok config.
Definition try_next_batch (received : TryRecv (outcome string H264StreamBatch.t)) (cancel : bool)
  : outcome string (option H264StreamBatch.t) :=
  receive_h264_batch received cancel "Windows capture/H.264 worker".
End CapturedH264Stream.

(** ** The worker thread *)
Module EncoderDiagnostics.
Record t : Type := mk {
  capabilities : outcome string (list HardwareEncoder.t);
  encode_probe : outcome string HardwareEncodeProbe.t;
}.
End EncoderDiagnostics.

(** A command carries the channel of its response. *)
Inductive CaptureCommand : Type :=
| IsSupportedQuery
| Probe (display_id : option string) (fps : Z)
| DiagnosticsQuery.
Inductive CaptureResponse : Type :=
| SupportAnswer (r : outcome string bool)
| ProbeAnswer (r : outcome string CaptureProbeReport.t)
| DiagnosticsAnswer (d : EncoderDiagnostics.t).

Module CaptureWorker.
Section thread.
Context {W : Type} `{DisplayOs W} `{D3dOs W} `{MediaConstants} `{MediaOs W} `{CaptureOs W}.
Notation io := (RustIo.io W string).

(** With Media Foundation, or the reason it could not be started. *)
Definition with_media {A} (media_foundation : outcome string unit) (m : io A) : io (outcome string A) :=
  match media_foundation with
  | Ok _ => icatch m
  | Err error => iret (Err error)
  | Fault f => ifault f
  end.

Definition serve (diagnostics : EncoderDiagnostics.t) (command : CaptureCommand) : io CaptureResponse :=
  match command with
  | IsSupportedQuery =>
    let* result := icatch (imap_err (fun error => "Windows.Graphics.Capture probe failed: " +:+ error) capture_is_supported) in
    iret (SupportAnswer result)
  | Probe display_id fps =>
    let* result := icatch (probe_screen_capture_on_worker display_id fps) in iret (ProbeAnswer result)
  | DiagnosticsQuery => iret (DiagnosticsAnswer diagnostics)
  end.
Fixpoint serve_all (diagnostics : EncoderDiagnostics.t) (commands : list CaptureCommand) : io (list CaptureResponse) :=
  match commands with
  | [] => iret []
  | command :: commands =>
    let* response := serve diagnostics command in
    let* responses := serve_all diagnostics commands in
    iret (response :: responses)
  end.

(** Between the start of Media Foundation and its shutdown. [fuel] bounds the loops of
    the encoder's probe. *)
Definition diagnose_and_serve (fuel : nat) (media_foundation : outcome string unit) (commands : list CaptureCommand)
  : io (list CaptureResponse) :=
  let* capabilities := with_media media_foundation hardware_h264_encoders in
  let* encode_probe := with_media media_foundation (probe_hardware_h264_encode fuel) in
  serve_all (EncoderDiagnostics.mk capabilities encode_probe) commands.

(** The thread: what it says when it is ready, and its responses to the commands that
    arrive before the host drops its end. *)
Definition work (fuel : nat) (commands : list CaptureCommand) : io (outcome string unit * list CaptureResponse) :=
  let* apartment := icatch apartment_initialize in
  match apartment with
  | Err error => iret (Err error, [])
  | Fault f => ifault f
  | Ok apartment =>
    let* responses := ifinally
      (let* media_foundation := icatch startup in
       ifinally (diagnose_and_serve fuel media_foundation commands)
         (match media_foundation with Ok _ => mf_shutdown | _ => id end))
      (drop_apartment apartment) in
    iret (Ok tt, responses)
  end.
End thread.

(** The host's side: what spawning, sending and receiving in time gave. *)
Definition spawn (spawned : outcome string unit) (ready : outcome string (outcome string unit)) : outcome string unit :=
  let! _ := map_err (fun error => "failed to start Windows capture worker: " +:+ error) spawned in
  match ready with
  | Ok (Ok _) => Ok tt
  | Ok (Err error) => Err error
  | Err error => Err ("Windows capture worker did not initialize: " +:+ error)
  | Ok (Fault f) | Fault f => Fault f
  end.
Definition is_supported (sent : outcome string unit) (received : outcome string (outcome string bool)) : outcome string bool :=
  let! _ := map_err (fun error => "Windows capture worker stopped: " +:+ error) sent in
  let! result := map_err (fun error => "Windows capture support query timed out: " +:+ error) received in
  result.
Definition probe (sent : outcome string unit) (received : outcome string (outcome string CaptureProbeReport.t))
  : outcome string CaptureProbeReport.t :=
  let! _ := map_err (fun error => "Windows capture worker stopped: " +:+ error) sent in
  let! result := map_err (fun error => "Windows capture probe timed out: " +:+ error) received in
  result.
Definition encoder_diagnostics (sent : outcome string unit) (received : outcome string EncoderDiagnostics.t)
  : outcome string EncoderDiagnostics.t :=
  let! _ := map_err (fun error => "Windows media worker stopped: " +:+ error) sent in
  map_err (fun error => "Windows encoder query timed out: " +:+ error) received.
End CaptureWorker.

(** The one worker of the process: the first call spawns it, and its result stays. *)
Definition capture_worker (cell : option (outcome string unit)) (spawned : outcome string unit)
  : option (outcome string unit) * outcome string unit :=
  let worker := default spawned cell in (Some worker, worker).

(** ** The status of the platform *)
Definition encoder_status (diagnostics : outcome string EncoderDiagnostics.t) : string :=
  match diagnostics with
  | Err error => "Media Foundation hardware H.264 query failed: " +:+ error
  | Fault _ => ""
  | Ok diagnostics =>
    match EncoderDiagnostics.capabilities diagnostics with
    | Ok [] => "Media Foundation reported no hardware H.264 encoder for NV12 input"
    | Err error => "Media Foundation hardware H.264 query failed: " +:+ error
    | Fault _ => ""
    | Ok encoders =>
      let names := String.concat ", " (map HardwareEncoder.name encoders) in
      match EncoderDiagnostics.encode_probe diagnostics with
      | Ok probe =>
        "Media Foundation hardware H.264 Main encode verified with " +:+ HardwareEncodeProbe.encoder_name probe +:+ ": " +:+
        pretty (HardwareEncodeProbe.width probe) +:+ "x" +:+ pretty (HardwareEncodeProbe.height probe) +:+ ", " +:+
        pretty (HardwareEncodeProbe.frames_submitted probe) +:+ " input frame(s), " +:+
        pretty (HardwareEncodeProbe.timestamped_access_units probe) +:+ " timestamped / " +:+
        pretty (HardwareEncodeProbe.access_units probe) +:+ " access unit(s), " +:+
        pretty (HardwareEncodeProbe.keyframes probe) +:+ " keyframe(s), " +:+
        pretty (HardwareEncodeProbe.encoded_bytes probe) +:+ " bytes / " +:+
        pretty (HardwareEncodeProbe.nal_units probe) +:+ " Annex B NAL unit(s), " +:+
        pretty (HardwareEncodeProbe.elapsed_ms probe) +:+ " ms; available: " +:+ names
      | Err error =>
        "Media Foundation hardware H.264 encoders available (" +:+ names +:+ "), but the encode probe failed: " +:+ error
      | Fault _ => ""
      end
    end
  end.

Definition capture_detail (support : outcome string bool) : bool * string :=
  match support with
  | Ok true => (true, "supported")
  | Ok false => (false, "not supported by this Windows build")
  | Err error => (false, error)
  | Fault _ => (false, "")
  end.

Section platform.
Context {W : Type} `{ControllerBuild} `{DisplayOs W} `{ControllerOs W} `{UsbOs W}.

(** [support] and [diagnostics] are the answers of the worker. *)
Definition collect_status (support : outcome string bool) (diagnostics : outcome string EncoderDiagnostics.t)
  : io (option CachedStatus.t * W) string PlatformStatus.t :=
  let (capture_supported, detail) := capture_detail support in
  let* found := icatch (on_world displays_io) in
  let* usb_status := on_world (fun w => let (w, status) := WinUsbOpen.collect_status w in (w, Ok status)) in
  let* virtual_display := WinVirtualDisplay.status in
  let backend := "Windows.Graphics.Capture (" +:+ detail +:+ ")" in
  let* (displays, display_detail) := ilift (match found with
    | Ok displays => Ok (displays, "")
    | Err error => Ok ([], "; monitor enumeration failed: " +:+ error)
    | Fault f => Fault f
    end) in
  iret (PlatformStatus.mk (backend +:+ display_detail) (encoder_status diagnostics) UsbLinkState.Ready usb_status
          (if capture_supported then CapturePermission.Granted else CapturePermission.Unsupported) virtual_display displays).
Definition request_capture_access := collect_status.

(** [probe_screen_capture]: the frame rate is checked before the worker is asked. *)
Definition probe_screen_capture (fps : Z) (worker : outcome string unit)
  (probed : outcome string CaptureProbeReport.t) : outcome string CaptureProbeReport.t :=
  let! _ := validate_probe_fps fps in
  let! _ := worker in
  probed.
End platform.
