(* ===== verification/WinCaptureFacts.v ===== *)
(** * Captures on Windows use their runtimes in order

    The life of the apartment and of Media Foundation around a capture stream, a probe
    and the worker thread; what a prepared capture consists of; the clean-up of a probe;
    and the truth of the platform's status. *)
From S2P Require Export WinCaptureEnds WinCaptureSetup.
Local Open Scope string_scope.
Local Open Scope list_scope.
Local Open Scope Z_scope.

(** ** The runtimes of a thread *)
Inductive RuntimeEntry : Type :=
| Initialized (answer : Apartment)
| Uninitialized
| MediaStarted (succeeded : bool)
| MediaStopped
| EncoderUsed
| CaptureUsed
| CaptureDid (op : CaptureOp).

Definition finished_with {W A} (log : list RuntimeEntry) (answer : W * A) : (W * list RuntimeEntry) * A :=
  (fst answer, log, snd answer).
Notation used e w r := (finished_with (snd w ++ [e]) r) (only parsing).

#[export] Instance runtime_media `{MediaOs W} : MediaOs (W * list RuntimeEntry) := {
  call tr c w := used EncoderUsed w (call tr c (fst w));
  enum_encoders w := used EncoderUsed w (enum_encoders (fst w));
  transform_u32 tr k w := used EncoderUsed w (transform_u32 tr k (fst w));
  create_dxgi_manager tr w := used EncoderUsed w (create_dxgi_manager tr (fst w));
  lock_buffer tr w := used EncoderUsed w (lock_buffer tr (fst w));
  get_event tr w := used EncoderUsed w (get_event tr (fst w));
  output_stream_info tr w := used EncoderUsed w (output_stream_info tr (fst w));
  process_output tr s w := used EncoderUsed w (process_output tr s (fst w));
  output_available_type tr i w := used EncoderUsed w (output_available_type tr i (fst w));
  media_now w := finished_with (snd w) (media_now (fst w));
  media_sleep d w := (media_sleep d (fst w), snd w);
}.
#[export] Instance runtime_d3d `{D3dOs W} : D3dOs (W * list RuntimeEntry) := {
  d3d_call d c w := used CaptureUsed w (d3d_call d c (fst w));
  d3d_create d c w := used CaptureUsed w (d3d_create d c (fst w));
  d3d_make d m w := used CaptureUsed w (d3d_make d m (fst w));
  check_processor_format e f w := used CaptureUsed w (check_processor_format e f (fst w));
  processor_set p s w := (processor_set p s (fst w), snd w ++ [CaptureUsed]);
  get_desc t w := used CaptureUsed w (get_desc t (fst w));
  create_d3d11_device t w := used CaptureUsed w (create_d3d11_device t (fst w));
}.
#[export] Instance runtime_displays `{DisplayOs W} : DisplayOs (W * list RuntimeEntry) := {
  enum_display_monitors w := finished_with (snd w) (enum_display_monitors (fst w));
  current_mode w name := finished_with (snd w) (current_mode (fst w) name);
  mode_at w name i := finished_with (snd w) (mode_at (fst w) name i);
  change_display_settings w name mode flags := finished_with (snd w) (change_display_settings (fst w) name mode flags);
  now w := finished_with (snd w) (now (fst w));
  sleep w d := (sleep (fst w) d, snd w);
}.
#[export] Instance runtime_capture `{CaptureOs W} : CaptureOs (W * list RuntimeEntry) := {
  ro_initialize w := let r := ro_initialize (fst w) in used (Initialized (snd r)) w r;
  ro_uninitialize w := (ro_uninitialize (fst w), snd w ++ [Uninitialized]);
  mf_startup w := let r := mf_startup (fst w) in used (MediaStarted (done_ (snd r))) w r;
  mf_shutdown w := (mf_shutdown (fst w), snd w ++ [MediaStopped]);
  capture_is_supported w := used CaptureUsed w (capture_is_supported (fst w));
  load_item_factory w := used CaptureUsed w (load_item_factory (fst w));
  create_item_for_monitor m w := used CaptureUsed w (create_item_for_monitor m (fst w));
  item_size w := used CaptureUsed w (item_size (fst w));
  create_frame_pool d s w := used CaptureUsed w (create_frame_pool d s (fst w));
  capture_api w := capture_api (fst w);
  capture_did ops w := (capture_did ops (fst w), snd w ++ map CaptureDid ops);
  set_cursor b w := (set_cursor b (fst w), snd w ++ [CaptureUsed]);
  probe_sleep d w := finished_with (snd w) (probe_sleep d (fst w));
  capture_turns w := finished_with (snd w) (capture_turns (fst w));
}.

(** The apartment encloses Media Foundation, which encloses the encoder; the flag says
    whether this thread entered the apartment itself. *)
Inductive Runtimes : Type :=
| Outside
| Inside (entered : bool)
| WithMedia (entered : bool).
Definition runtime_step (s : Runtimes) (e : RuntimeEntry) : option Runtimes :=
  match s, e with
  | Outside, Initialized Entered => Some (Inside true)
  | Outside, Initialized ChangedMode => Some (Inside false)
  | Outside, Initialized (Refused _) => Some Outside
  | Inside true, Uninitialized => Some Outside
  | Inside b, MediaStarted true => Some (WithMedia b)
  | Inside b, MediaStarted false => Some (Inside b)
  | WithMedia b, MediaStopped => Some (Inside b)
  | WithMedia b, (EncoderUsed | CaptureUsed | CaptureDid _) => Some (WithMedia b)
  | Inside b, (CaptureUsed | CaptureDid _) => Some (Inside b)
  | _, _ => None
  end.
Definition runtimes (log : list RuntimeEntry) : option Runtimes :=
  fold_left (fun s e => s ← s; runtime_step s e) log (Some Outside).

Section runtimes.
Context {W : Type} `{DisplayOs W} `{D3dOs W} `{MediaConstants} `{MediaOs W} `{CaptureOs W}.
Notation world := (W * list RuntimeEntry)%type.

Definition in_ (s : Runtimes) (w : world) : Prop := runtimes (snd w) = Some s.
Lemma runtimes_snoc log e : runtimes (log ++ [e]) = (s ← runtimes log; runtime_step s e).
Proof. unfold runtimes. by rewrite fold_left_app. Qed.
Lemma in_snoc s w e s' : in_ s w -> runtime_step s e = Some s' -> runtimes (snd w ++ [e]) = Some s'.
Proof. unfold in_. intros Hw Hs. by rewrite runtimes_snoc, Hw. Qed.

(** Where the capture API may be used. *)
Definition capturing (s : Runtimes) : Prop := match s with Outside => False | _ => True end.
Lemma capturing_use s w : capturing s -> in_ s w -> runtimes (snd w ++ [CaptureUsed]) = Some s.
Proof. intros Hs Hw. eapply in_snoc; [exact Hw|]. by destruct s as [|[]|]. Qed.
Lemma capturing_did s (w : world) l : capturing s -> in_ s w -> runtimes (snd w ++ map CaptureDid l) = Some s.
Proof.
  intros Hs Hw. induction l as [|x l IH] using rev_ind; [by rewrite app_nil_r|].
  rewrite map_app, app_assoc. eapply (in_snoc s (fst w, _)); [exact IH|]. by destruct s as [|[]|].
Qed.

#[export] Instance media_kept b : KeptByMedia (in_ (WithMedia b)).
Proof. split; intros; first [done | intros ? Hw; eapply in_snoc; [exact Hw|done] | by eapply in_snoc]. Qed.
Lemma d3d_kept s : capturing s -> KeptByD3d (in_ s).
Proof. intros Hs. split; intros; first [intros ? Hw; by eapply capturing_use | by eapply capturing_use]. Qed.

(** *** Captures *)
Section capture.
Context (s : Runtimes) (Hs : capturing s).
#[local] Existing Instance d3d_kept.

Lemma capture_use {A} (m : W -> W * outcome string A) :
  keeps (in_ s) (fun w : world => used CaptureUsed w (m (fst w))).
Proof. intros w Hw. by apply capturing_use. Qed.
Lemma keeping_monitors : keeps (in_ s) monitors.
Proof. intros w Hw. unfold monitors. cbn. by destruct (enum_display_monitors (fst w)). Qed.
Hint Resolve keeping_monitors : kept.
Lemma keeping_select display_id a b : keeps (in_ s) (select_item display_id a b).
Proof. unfold select_item, create_capture_item. through; apply capture_use. Qed.
Hint Resolve keeping_select : kept.
Lemma keeping_did ops w : in_ s w -> in_ s (capture_did ops w).
Proof. intros Hw. by apply capturing_did. Qed.
Lemma keeping_op op : keeps (in_ s) (capture_op op).
Proof. intros w Hw. by apply (keeping_did [op]). Qed.
Lemma keeping_undo ops : keeps (in_ s) (undo ops).
Proof. apply keeps_put. intros w. apply keeping_did. Qed.
Lemma keeping_close : keeps (in_ s) close_session.
Proof. intros w Hw. unfold close_session. destruct (close_capture_session _) as [ops errors]. by apply keeping_did. Qed.
Lemma keeping_cursor b : keeps (in_ s) (iput (E:=string) (set_cursor b)).
Proof. apply keeps_put. intros w Hw. by apply capturing_use. Qed.
Lemma keeping_sleep d : keeps (in_ s) (fun w : world => let (w, r) := probe_sleep d w in (w, Ok (E:=string) r)).
Proof. intros w Hw. cbn. by destruct (probe_sleep d (fst w)). Qed.
Hint Resolve keeping_op keeping_undo keeping_close keeping_cursor keeping_sleep : kept.
Lemma keeping_probe_session selected backend size fps : keeps (in_ s) (probe_session selected backend size fps).
Proof. unfold probe_session. through. Qed.
Hint Resolve keeping_probe_session : kept.
Lemma keeping_capture_probe display_id fps : keeps (in_ s) (probe_screen_capture_on_worker display_id fps).
Proof.
  pose proof (d3d_kept s Hs). unfold probe_screen_capture_on_worker. through; apply capture_use.
Qed.
End capture.

Lemma keeping_prepare b config display_id : keeps (in_ (WithMedia b)) (PreparedCapture.new config display_id).
Proof.
  pose proof (media_kept b). pose proof (d3d_kept (WithMedia b) Logic.I). pose proof (keeping_select (WithMedia b) Logic.I).
  unfold PreparedCapture.new. through. by apply capture_use.
Qed.
(** On the prepared capture and the world, the state stays as long as no encoder is used outside. *)
Lemma keeping_stream_of b fuel turns : keeps (fun s : PreparedCapture.t * world => in_ (WithMedia b) (snd s)) (PreparedCapture.stream fuel turns).
Proof.
  pose proof (d3d_kept (WithMedia b) Logic.I). intros [capture w] Hw. unfold PreparedCapture.stream.
  destruct (CapturePipeline.new _ _ _ _) as [pipeline|e|f]; [|done..].
  pose proof (keeping_live (in_ (WithMedia b)) fuel turns (pipeline, w) Hw) as Hr. cbn [snd fst] in Hr |- *.
  by destruct (CapturePipeline.run fuel turns (pipeline, w)) as [[p' w'] r].
Qed.
Lemma keeping_turns b : keeps (in_ (WithMedia b)) (fun w : world => let (w, turns) := capture_turns w in (w, Ok (E:=string) turns)).
Proof. intros w Hw. cbn. by destruct (capture_turns (fst w)). Qed.
Lemma keeping_run_prepared b fuel : keeps (fun s : PreparedCapture.t * world => in_ (WithMedia b) (snd s)) (PreparedCapture.run_prepared fuel).
Proof.
  pose proof (keeping_op (WithMedia b) Logic.I). pose proof (keeping_undo (WithMedia b) Logic.I).
  pose proof (keeping_close (WithMedia b) Logic.I). pose proof (keeping_cursor (WithMedia b) Logic.I).
  pose proof (keeping_turns b). pose proof (keeping_stream_of b fuel).
  assert (Howned : forall A (m : io world string A), keeps (in_ (WithMedia b)) m ->
    keeps (fun s : PreparedCapture.t * world => in_ (WithMedia b) (snd s)) (on_world m)) by (intros; by apply keeps_on_world).
  unfold PreparedCapture.run_prepared, PreparedCapture.close_stream.
  through; apply Howned; through.
Qed.

(** *** Nesting *)

(** [m] between two states, whatever it answers. *)
Definition between {A} (s s' : Runtimes) (m : io world string A) : Prop :=
  forall w, in_ s w -> in_ s' (fst (m w)).
Lemma startup_runs w b : in_ (Inside b) w ->
  in_ (match snd (startup w) with Ok _ => WithMedia b | _ => Inside b end) (fst (startup w)).
Proof.
  intros Hw. unfold startup, imap_err. cbn. destruct (mf_startup (fst w)) as [w' r]. cbn.
  eapply in_snoc; [exact Hw|]. by destruct r, b.
Qed.

(** The code between the start of Media Foundation and the end of the apartment. *)
Lemma keeping_stream b fuel config display_id : keeps (in_ (WithMedia b)) (capture_and_encode fuel config display_id).
Proof.
  pose proof (media_kept b). pose proof (keeping_prepare b). pose proof (keeping_run_prepared b).
  unfold capture_and_encode. through; [by apply capture_use|]. intros w Hw.
  pose proof (keeping_run_prepared b fuel (a0, w) Hw) as Hr.
  destruct (PreparedCapture.run_prepared fuel (a0, w)) as [[capture' w'] r]. by apply keeping_drop.
Qed.

(** An apartment that was entered is left. *)
Definition settled (w : world) : Prop := exists s, in_ s w /\ (s = Outside \/ s = Inside false).
Lemma drop_settles b w : in_ (Inside b) w -> settled (drop_apartment b w).
Proof.
  intros Hw. destruct b; [|by exists (Inside false); auto].
  exists Outside. split; [|by left]. by eapply in_snoc.
Qed.
Lemma initialize_enters w : in_ Outside w -> match snd (apartment_initialize w) with
  | Ok b => in_ (Inside b) (fst (apartment_initialize w))
  | Err _ => in_ Outside (fst (apartment_initialize w))
  | Fault _ => False
  end.
Proof.
  intros Hw. unfold apartment_initialize. cbn. destruct (ro_initialize (fst w)) as [w' []]; cbn; by eapply in_snoc.
Qed.

Lemma run_settles fuel config display_id w : in_ Outside w -> settled (fst (run fuel config display_id w)).
Proof.
  intros Hw. pose proof (initialize_enters w Hw) as Hi. unfold run, ibind at 1. destruct (apartment_initialize w) as [w1 [b|e|f]]; cbn in Hi;
    [|by exists Outside; auto|done].
  unfold ifinally at 1. pose proof (startup_runs w1 b Hi) as Hm. unfold ibind.
  destruct (startup w1) as [w2 [[]|e|f]]; cbn [fst snd] in Hm |- *; [|by apply drop_settles..].
  unfold ifinally. pose proof (keeping_stream b fuel config display_id w2 Hm) as Hr.
  destruct (capture_and_encode fuel config display_id w2) as [w3 r]. apply drop_settles. by eapply in_snoc.
Qed.

(** *** The worker thread *)
Lemma keeping_serve s d command : capturing s -> keeps (in_ s) (CaptureWorker.serve d command).
Proof.
  intros Hs. pose proof (keeping_capture_probe s Hs). destruct command; cbn [CaptureWorker.serve]; through. by apply capture_use.
Qed.
Lemma keeping_serve_all s d commands : capturing s -> keeps (in_ s) (CaptureWorker.serve_all d commands).
Proof.
  intros Hs. pose proof (fun c => keeping_serve s d c Hs). induction commands; cbn [CaptureWorker.serve_all]; through.
Qed.
Lemma keeping_diagnose fuel b (media_foundation : outcome string unit) commands :
  let s := match media_foundation with Ok _ => WithMedia b | _ => Inside b end in
  keeps (in_ s) (CaptureWorker.diagnose_and_serve fuel media_foundation commands).
Proof.
  unfold CaptureWorker.diagnose_and_serve, CaptureWorker.with_media. pose proof (media_kept b). cbv zeta.
  assert (Hc : capturing (match media_foundation with Ok _ => WithMedia b | _ => Inside b end)) by (by destruct media_foundation).
  pose proof (fun d => keeping_serve_all _ d commands Hc).
  destruct media_foundation as [[]|e|f]; through.
Qed.
Lemma work_settles fuel commands w : in_ Outside w -> settled (fst (CaptureWorker.work fuel commands w)).
Proof.
  intros Hw. pose proof (initialize_enters w Hw) as Hi. unfold CaptureWorker.work, ibind at 1, icatch at 1.
  destruct (apartment_initialize w) as [w1 [b|e|f]]; cbn in Hi; [|by exists Outside; auto|done].
  unfold ibind at 1, ifinally at 1. pose proof (startup_runs w1 b Hi) as Hm. unfold ibind at 1, icatch at 1.
  destruct (startup w1) as [w2 mf]; cbn [fst snd] in Hm.
  pose proof (fun w => keeping_diagnose fuel b mf commands w) as Hd. cbv zeta in Hd.
  destruct mf as [[]|e|f]; cbn [fst snd]; [| |by apply drop_settles].
  - unfold ifinally. specialize (Hd w2 Hm). destruct (CaptureWorker.diagnose_and_serve _ _ _ w2) as [w3 r].
    assert (Hs : settled (drop_apartment b (mf_shutdown w3))) by (apply drop_settles; by eapply in_snoc).
    by destruct r.
  - unfold ifinally. specialize (Hd w2 Hm). destruct (CaptureWorker.diagnose_and_serve _ _ _ w2) as [w3 r].
    assert (Hs : settled (drop_apartment b (id w3))) by (by apply drop_settles). by destruct r.
Qed.
End runtimes.

(** C16: a capture stream and the worker thread use the native runtimes in order. The
    apartment is entered before anything else and left exactly if this thread entered
    it; Media Foundation is started inside it and shut down exactly if it started; the
    encoder is used only in between; and all of that on every path, whatever Windows
    answers, panics included. *)
Theorem native_runtimes_are_nested `{DisplayOs W} `{D3dOs W} `{MediaConstants} `{MediaOs W} `{CaptureOs W}
  config display_id fuel commands (w : W) :
  settled (fst (run fuel config display_id (w, []))) /\ settled (fst (CaptureWorker.work fuel commands (w, []))).
Proof. split; [by apply run_settles|by apply work_settles]. Qed.

(** ** What a prepared capture consists of *)
Section prepared.
Context {W : Type} `{DisplayOs W} `{D3dTextures W} `{MediaConstants} `{CaptureOs W}.

Lemma prepared_fits config display_id encoder_config :
  PreparedCapture.encoder_config config = Ok encoder_config ->
  run_of (fun _ => True) (PreparedCapture.new config display_id) (on_ok (fun capture w =>
    PreparedCapture.config capture = config /\
    HardwareH264Encoder.config (PreparedCapture.encoder capture) = encoder_config /\
    texture_is (BgraToNv12Processor.output_texture (PreparedCapture.processor capture))
      (nv12_description (H264StreamConfig.width config) (H264StreamConfig.height config)) w)).
Proof.
  intros Hc. unfold PreparedCapture.new. apply run_bind_any. intros [[m size] [iw ih]]. do 2 (apply run_bind_any; intros ?).
  rewrite Hc. apply run_bind_lift; [intros ? [= <-]|done..].
  eapply run_bind_ok; [apply new_describes|]. intros processor w Hw. cbn beta in *.
  pose proof (keeping_start _ encoder_config w Hw) as Hk. pose proof (start_config encoder_config w) as He.
  unfold ibind. destruct (HardwareH264Encoder.start encoder_config w) as [w' [e|error|f]]; cbn in *; [|done..].
  split_and!; [done|by eapply He|done].
Qed.
End prepared.

(** C17: the parts of a prepared capture fit together. Whatever the frames of a capture
    are, and however often the source is resized, the processor's texture has the size
    and the format the encoder was started with: at every moment of the capture the
    encoder's check of the texture it is given succeeds. *)
Theorem prepared_captures_fit {W} `{DisplayOs W} `{D3dTextures W} `{MediaConstants} `{CaptureOs W}
    config display_id (w w1 : W) capture self fuel turns
    (Hformat : WinEncoder.DXGI_FORMAT_NV12 = WinVideo.DXGI_FORMAT_NV12)
    (Hprepared : PreparedCapture.new config display_id w = (w1, Ok capture))
    (Hnew : CapturePipeline.new (PreparedCapture.capture_device capture) (PreparedCapture.config capture)
       (PreparedCapture.processor capture) (PreparedCapture.encoder capture) = Ok self) :
  let '((self', w'), _) := CapturePipeline.run fuel turns (self, w1) in
  exists texture,
    snd (native_texture (BgraToNv12Processor.output_texture (CapturePipeline.processor self')) w') = Ok texture /\
    HardwareH264Encoder.validate_nv12_texture texture
      (HardwareH264Encoder.config (CapturePipeline.encoder self')) = Ok tt.
Proof.
  destruct (PreparedCapture.encoder_config config) as [encoder_config|e|f] eqn:Hec.
  - pose proof (prepared_fits config display_id encoder_config Hec w Logic.I) as Hp. rewrite Hprepared in Hp. cbn in Hp.
    assert (Hfit : fit config encoder_config (self, w1)).
    { unfold CapturePipeline.new in Hnew. destruct (div_i _ _); [|done..]. by injection Hnew as <-. }
    pose proof (fit_run config encoder_config fuel turns (self, w1) Hfit) as Hrun.
    destruct (CapturePipeline.run fuel turns (self, w1)) as [[self' w'] r]. cbn [fst] in Hrun.
    apply (fit_texture config encoder_config (self', w')); [done|done|..]; unfold PreparedCapture.encoder_config in Hec;
      (destruct (ok_or _ _); [by injection Hec as <-|done..]).
  - exfalso. unfold PreparedCapture.new in Hprepared. apply ibind_ok_inv in Hprepared as (? & [[m size] [iw ih]] & _ & Hprepared).
    do 2 (apply ibind_ok_inv in Hprepared as (? & ? & _ & Hprepared)). rewrite Hec in Hprepared. done.
  - exfalso. unfold PreparedCapture.new in Hprepared. apply ibind_ok_inv in Hprepared as (? & [[m size] [iw ih]] & _ & Hprepared).
    do 2 (apply ibind_ok_inv in Hprepared as (? & ? & _ & Hprepared)). rewrite Hec in Hprepared. done.
Qed.
