(* ===== verification/WinCaptureClean.v ===== *)
(** * Captures on Windows clean up after themselves

    A prepared capture performs the operations that [run_prepared_capture] of
    [WinCapture] specifies, so what a capture opens it closes; the same for the short
    probe; the worker thread answers its commands in order. Concrete runs of all of
    [WinCaptureFacts] and of the live pipeline. *)
From S2P Require Import WinCaptureFeed.
From S2P Require Export WinCaptureFacts.
Local Open Scope string_scope.
Local Open Scope list_scope.
Local Open Scope Z_scope.

(** ** Operations performed

    Those of the capture API in the log of a run. *)
Definition op_of (e : RuntimeEntry) : option CaptureOp := match e with CaptureDid op => Some op | _ => None end.
Definition performed (log : list RuntimeEntry) : list CaptureOp := omap op_of log.

Section cleanup.
Context {W : Type} `{DisplayOs W} `{D3dOs W} `{MediaConstants} `{MediaOs W} `{CaptureOs W}.
Context (api : CaptureApi) (Hapi : forall w : W, capture_api w = api).
Notation world := (W * list RuntimeEntry)%type.

Lemma performed_app l l' : performed (l ++ l') = performed l ++ performed l'.
Proof. apply omap_app. Qed.
Lemma performed_did ops : performed (map CaptureDid ops) = ops.
Proof. induction ops as [|op ops IH]; [done|]. unfold performed. cbn. by f_equal. Qed.

Definition having (ops : list CaptureOp) (w : world) : Prop := performed (snd w) = ops.
#[export] Instance having_media ops : KeptByMedia (having ops).
Proof. split; intros; first [done | intros w Hw | idtac]; unfold having in *; cbn; by rewrite ?performed_app, ?app_nil_r. Qed.
#[export] Instance having_d3d ops : KeptByD3d (having ops).
Proof. split; intros; first [intros w Hw | idtac]; unfold having in *; cbn; by rewrite ?performed_app, ?app_nil_r. Qed.

Lemma did_having ops done_ w : having done_ w -> having (done_ ++ ops) (capture_did ops w).
Proof. unfold having. cbn. intros <-. by rewrite performed_app, performed_did. Qed.

(** A step of the capture API, inside the prepared capture. *)
Lemma op_step {T A} op (k : unit -> io (T * world) string A) t done_ w :
  having done_ w -> exists w', having (done_ ++ [op]) w' /\
    ibind (on_world (capture_op op)) k (t, w) = match api op with
      | Ok a => k a (t, w') | Err e => ((t, w'), Err e) | Fault f => ((t, w'), Fault f) end.
Proof.
  intros Hw. exists (capture_did [op] w). split; [by apply did_having|]. rewrite ibind_world. unfold capture_op. cbn [fst snd].
  change (capture_api w) with (capture_api (fst w)). rewrite Hapi. by destruct (api op).
Qed.
Lemma labelled_op_step {T A} label op (k : unit -> io (T * world) string A) t done_ w :
  having done_ w -> exists w', having (done_ ++ [op]) w' /\
    ibind (on_world (imap_err label (capture_op op))) k (t, w) = match map_err label (api op) with
      | Ok a => k a (t, w') | Err e => ((t, w'), Err e) | Fault f => ((t, w'), Fault f) end.
Proof.
  intros Hw. exists (capture_did [op] w). split; [by apply did_having|]. rewrite ibind_world. unfold imap_err, capture_op. cbn [fst snd].
  change (capture_api w) with (capture_api (fst w)). by rewrite Hapi.
Qed.
Lemma caught_op_step {T A} op (k : outcome string unit -> io (T * world) string A) t done_ w :
  having done_ w -> exists w', having (done_ ++ [op]) w' /\
    ibind (on_world (icatch (capture_op op))) k (t, w) = match api op with Fault f => ((t, w'), Fault f) | r => k r (t, w') end.
Proof.
  intros Hw. exists (capture_did [op] w). split; [by apply did_having|]. rewrite ibind_world. unfold icatch, capture_op. cbn [fst snd].
  change (capture_api w) with (capture_api (fst w)). rewrite Hapi. by destruct (api op).
Qed.
Lemma undo_step {T A} ops (k : unit -> io (T * world) string A) t done_ w :
  having done_ w -> exists w', having (done_ ++ ops) w' /\ ibind (on_world (undo ops)) k (t, w) = k tt (t, w').
Proof. intros Hw. exists (capture_did ops w). split; [by apply did_having|done]. Qed.
Lemma close_step {T A} (k : list string -> io (T * world) string A) t done_ w :
  having done_ w -> exists w', having (done_ ++ [RemoveFrames; ClosePool; CloseSession]) w' /\
    ibind (on_world close_session) k (t, w) = k (snd (close_capture_session api)) (t, w').
Proof.
  intros Hw. exists (capture_did [RemoveFrames; ClosePool; CloseSession] w). split; [by apply did_having|].
  rewrite ibind_world. unfold close_session. change (capture_api w) with (capture_api (fst w)). by rewrite Hapi.
Qed.
Lemma set_cursor_step {T A} b (k : unit -> io (T * world) string A) t done_ w :
  having done_ w -> exists w', having done_ w' /\ ibind (on_world (iput (set_cursor b))) k (t, w) = k tt (t, w').
Proof.
  intros Hw. exists (set_cursor b w). split; [|done]. unfold having in *. cbn. by rewrite performed_app, app_nil_r.
Qed.

Context (Hreturns : forall op, returns (api op)).

Lemma close_stream_step {T A} (k : list string -> io (T * world) string A) t done_ w :
  having done_ w -> exists w', having (done_ ++ [RemoveFrames; ClosePool; CloseSession; RemoveClosed]) w' /\
    ibind (on_world PreparedCapture.close_stream) k (t, w) =
    k (snd (close_capture_session api) ++ cleanup_error api RemoveClosed "remove source-closed handler") (t, w').
Proof.
  intros Hw. exists (capture_did [RemoveClosed] (capture_did [RemoveFrames; ClosePool; CloseSession] w)).
  split.
  { pose proof (did_having [RemoveClosed] _ _ (did_having [RemoveFrames; ClosePool; CloseSession] done_ w Hw)) as Hd.
    rewrite <-app_assoc in Hd. exact Hd. }
  rewrite ibind_world. unfold PreparedCapture.close_stream, ibind, close_session, icatch, capture_op.
  change (capture_api w) with (capture_api (fst w)). rewrite Hapi. cbn [close_capture_session fst snd iret].
  change (capture_api (capture_did [RemoveFrames; ClosePool; CloseSession] w)) with
    (capture_api (capture_did [RemoveFrames; ClosePool; CloseSession] (fst w))). rewrite Hapi.
  pose proof (Hreturns RemoveClosed) as Hr. unfold cleanup_error.
  destruct (api RemoveClosed) as [[]|e|f]; [reflexivity..|destruct Hr].
Qed.

Lemma stream_step {A} fuel turns (k : outcome string unit -> io (PreparedCapture.t * world) string A) t done_ w :
  having done_ w -> exists t' w' result, having done_ w' /\
    ibind (icatch (PreparedCapture.stream fuel turns)) k (t, w) =
    match result with Fault f => ((t', w'), Fault f) | r => k r (t', w') end.
Proof.
  intros Hw. unfold ibind, icatch, PreparedCapture.stream. cbn [fst snd].
  destruct (CapturePipeline.new _ _ _ _) as [pipeline|e|f]; [|by exists t, w, (Err e)|by exists t, w, (Fault f)].
  pose proof (keeping_live (having done_) fuel turns (pipeline, w) Hw) as Hr.
  destruct (CapturePipeline.run fuel turns (pipeline, w)) as [[p' w'] r]. cbn [fst snd] in *.
  eexists _, w', r. split; [done|]. by destruct r.
Qed.

(** A prepared capture performs and answers as [run_prepared_capture] says. *)
Lemma prepared_performs fuel capture w : having [] w ->
  let '((_, w'), r) := PreparedCapture.run_prepared fuel (capture, w) in
  exists result, run_prepared_capture api result = (performed (snd w'), r).
Proof.
  intros Hw. unfold PreparedCapture.run_prepared, run_prepared_capture.
  edestruct (labelled_op_step (T:=PreparedCapture.t) (A:=unit)) as (w1 & Hw1 & ->); [exact Hw|].
  destruct (api SubscribeClosed) as [[]|e|f]; cbn [map_err]; [|exists (Ok tt); by rewrite Hw1..].
  edestruct (caught_op_step (T:=PreparedCapture.t) (A:=unit)) as (w2 & Hw2 & ->); [exact Hw1|].
  destruct (api SubscribeFrames) as [[]|e|f]; [| |exists (Ok tt); by rewrite Hw2]; cycle 1.
  { edestruct (undo_step (T:=PreparedCapture.t) (A:=unit)) as (w3 & Hw3 & ->); [exact Hw2|]. exists (Ok tt). by rewrite Hw3. }
  edestruct (caught_op_step (T:=PreparedCapture.t) (A:=unit)) as (w3 & Hw3 & ->); [exact Hw2|].
  destruct (api CreateSession) as [[]|e|f]; [| |exists (Ok tt); by rewrite Hw3]; cycle 1.
  { edestruct (undo_step (T:=PreparedCapture.t) (A:=unit)) as (w4 & Hw4 & ->); [exact Hw3|]. exists (Ok tt). by rewrite Hw4. }
  edestruct (set_cursor_step (T:=PreparedCapture.t) (A:=unit)) as (w4 & Hw4 & ->); [exact Hw3|].
  edestruct (caught_op_step (T:=PreparedCapture.t) (A:=unit)) as (w5 & Hw5 & ->); [exact Hw4|].
  destruct (api StartCapture) as [[]|e|f]; [| |exists (Ok tt); by rewrite Hw5]; cycle 1.
  { edestruct (close_stream_step (T:=PreparedCapture.t) (A:=unit)) as (w6 & Hw6 & ->); [exact Hw5|]. exists (Ok tt). by rewrite Hw6. }
  rewrite ibind_world. cbn [capture_turns runtime_capture]. destruct (capture_turns (fst w5)) as [w6' turns]. cbn [fst snd finished_with].
  assert (Hw6 : having [SubscribeClosed; SubscribeFrames; CreateSession; StartCapture] (w6', snd w5)) by exact Hw5.
  edestruct (stream_step (A:=unit) fuel turns) as (t' & w7 & result & Hw7 & ->); [exact Hw6|].
  destruct result as [[]|e|f]; [| |exists (Fault f); by rewrite Hw7].
  - edestruct (close_stream_step (T:=PreparedCapture.t) (A:=unit)) as (w8 & Hw8 & ->); [exact Hw7|].
    cbv beta iota. case_bool_decide as Hc; exists (Ok tt); rewrite Hw8; cbn in Hc |- *.
    + by rewrite bool_decide_eq_true_2.
    + by rewrite bool_decide_eq_false_2.
  - edestruct (close_stream_step (T:=PreparedCapture.t) (A:=unit)) as (w8 & Hw8 & ->); [exact Hw7|]. exists (Err e). by rewrite Hw8.
Qed.

Lemma result_unless_panic result ops r : run_prepared_capture api result = (ops, r) -> returns r ->
  exists result', returns result' /\ run_prepared_capture api result' = (ops, r).
Proof.
  intros Hrun Hr. destruct result as [[]|e|f]; [by exists (Ok tt)|by exists (Err e)|].
  exists (Ok tt). split; [done|]. revert Hrun. unfold run_prepared_capture.
  destruct (api SubscribeClosed) as [[]|e|g]; [|done..]. cbn [map_err].
  destruct (api SubscribeFrames) as [[]|e|g]; [|done..]. destruct (api CreateSession) as [[]|e|g]; [|done..].
  destruct (api StartCapture) as [[]|e|g]; [|done..]. cbn. by intros [= _ <-].
Qed.

(** What a probe performs. *)
Definition probe_operations : list CaptureOp :=
  match api SubscribeFrames with
  | Ok _ =>
    match api CreateSession with
    | Ok _ => [SubscribeFrames; CreateSession; StartCapture; RemoveFrames; ClosePool; CloseSession]
    | _ => [SubscribeFrames; CreateSession; RemoveFrames; ClosePool]
    end
  | _ => [SubscribeFrames]
  end.
Lemma probe_performs selected backend size fps w : having [] w ->
  performed (snd (fst (probe_session selected backend size fps w))) = probe_operations.
Proof.
  intros Hw. unfold probe_session, probe_operations.
  assert (Hop : forall A op (k : unit -> io world string A) w, ibind (capture_op op) k w = match api op with
    | Ok a => k a (capture_did [op] w) | Err e => (capture_did [op] w, Err e) | Fault f => (capture_did [op] w, Fault f) end).
  { intros A op k w0. unfold ibind, capture_op. change (capture_api w0) with (capture_api (fst w0)). rewrite Hapi. by destruct (api op). }
  assert (Hcaught : forall A op (k : outcome string unit -> io world string A) w, ibind (icatch (capture_op op)) k w = match api op with
    | Fault f => (capture_did [op] w, Fault f) | r => k r (capture_did [op] w) end).
  { intros A op k w0. unfold ibind, icatch, capture_op. change (capture_api w0) with (capture_api (fst w0)). rewrite Hapi. by destruct (api op). }
  assert (Hp1 : having [SubscribeFrames] (capture_did [SubscribeFrames] w)) by (by apply (did_having [SubscribeFrames] [])).
  unfold ibind at 1, imap_err, capture_op at 1. change (capture_api w) with (capture_api (fst w)). rewrite Hapi.
  pose proof (Hreturns SubscribeFrames). destruct (api SubscribeFrames) as [[]|e|f]; cbn [map_err]; [|exact Hp1|done].
  revert Hp1. generalize (capture_did [SubscribeFrames] w). clear w Hw. intros w Hp1.
  assert (Hp2 := did_having [CreateSession] _ _ Hp1). rewrite Hcaught.
  pose proof (Hreturns CreateSession). destruct (api CreateSession) as [[]|e|f]; [| |done]; revert Hp2;
    generalize (capture_did [CreateSession] w); clear w Hp1; intros w Hp2; cycle 1.
  { exact (did_having [RemoveFrames; ClosePool] _ _ Hp2). }
  assert (Hp3 : having ([SubscribeFrames] ++ [CreateSession]) (set_cursor false w))
    by (revert Hp2; unfold having; cbn; by rewrite performed_app, app_nil_r).
  unfold ibind at 1, iput. assert (Hp4 := did_having [StartCapture] _ _ Hp3). rewrite Hcaught.
  pose proof (Hreturns StartCapture). revert Hp4. generalize (capture_did [StartCapture] (set_cursor false w)). clear w Hp2 Hp3. intros w Hp4.
  destruct (api StartCapture) as [[]|e|f]; [|exact (did_having [RemoveFrames; ClosePool; CloseSession] _ _ Hp4)|done].
  unfold ibind at 1. cbn [probe_sleep runtime_capture]. destruct (probe_sleep CAPTURE_PROBE_DURATION (fst w)) as [w' [callbacks elapsed]].
  cbn [finished_with fst snd]. assert (Hp5 : having (([SubscribeFrames] ++ [CreateSession]) ++ [StartCapture]) (w', snd w)) by exact Hp4.
  unfold ibind at 1, close_session. change (capture_api (w', snd w)) with (capture_api w'). rewrite Hapi. cbn [close_capture_session].
  assert (Hp6 := did_having [RemoveFrames; ClosePool; CloseSession] _ _ Hp5).
  case_match; exact Hp6.
Qed.

(** Every registration and every session is undone, each operation once. *)
Definition undone (ops : list CaptureOp) : Prop :=
  NoDup ops /\
  (RemoveClosed ∈ ops <-> SubscribeClosed ∈ ops /\ api SubscribeClosed = Ok tt) /\
  (RemoveFrames ∈ ops <-> SubscribeFrames ∈ ops /\ api SubscribeFrames = Ok tt) /\
  (CloseSession ∈ ops <-> CreateSession ∈ ops /\ api CreateSession = Ok tt).
Lemma probe_undone : undone probe_operations /\ (ClosePool ∈ probe_operations <-> api SubscribeFrames = Ok tt).
Proof.
  unfold undone, probe_operations. pose proof (Hreturns SubscribeFrames). pose proof (Hreturns CreateSession).
  destruct (api SubscribeFrames) as [[]|e|f] eqn:Hs1; [|split_and!; [apply (bool_decide_unpack _); reflexivity|solve_members..]|done].
  destruct (api CreateSession) as [[]|e|f] eqn:Hs2; [|..|done];
    split_and!; first [apply (bool_decide_unpack _); reflexivity | solve_members].
Qed.
End cleanup.

(** C20: what a capture opens it closes. A stream and a probe remove exactly the handlers
    they registered and close exactly the session they created, each once and whether
    the pipeline, the start or the clean-up itself fails; the frame pool is closed as
    soon as a handler was registered. *)
Theorem capture_sessions_are_cleaned_up {W} `{DisplayOs W} `{D3dOs W} `{MediaConstants} `{MediaOs W} `{CaptureOs W}
    api fuel capture selected backend size fps (w : W)
    (Hapi : forall w : W, capture_api w = api) (Hreturns : forall op, returns (api op)) :
  (let '((_, (_, log)), r) := PreparedCapture.run_prepared fuel (capture, (w, [])) in
   returns r -> undone api (performed log) /\ (ClosePool ∈ performed log <-> api SubscribeClosed = Ok tt)) /\
  (let '((_, log), _) := probe_session selected backend size fps (w, []) in
   undone api (performed log) /\ (ClosePool ∈ performed log <-> api SubscribeFrames = Ok tt)).
Proof.
  split.
  - pose proof (prepared_performs api Hapi Hreturns fuel capture (w, []) eq_refl) as Hp.
    destruct (PreparedCapture.run_prepared fuel (capture, (w, []))) as [[c [w' log]] r]. intros Hr.
    destruct Hp as [result Hp]. destruct (result_unless_panic api result _ _ Hp Hr) as (result' & Hresult & Heq).
    pose proof (captures_are_cleaned_up api result' Hreturns Hresult) as Hc. rewrite Heq in Hc.
    destruct Hc as (_ & Hnd & Hc1 & Hc2 & Hc3 & Hc4 & _). by split_and!.
  - pose proof (probe_performs api Hapi Hreturns selected backend size fps (w, []) eq_refl) as Hp.
    destruct (probe_session selected backend size fps (w, [])) as [[w' log] r]. cbn [fst snd] in Hp. rewrite Hp.
    by apply probe_undone.
Qed.

(** ** The worker answers *)
Definition answers_command (diagnostics : EncoderDiagnostics.t) (command : CaptureCommand) (response : CaptureResponse) : Prop :=
  match command, response with
  | IsSupportedQuery, SupportAnswer r => returns r
  | Probe _ _, ProbeAnswer r => returns r
  | DiagnosticsQuery, DiagnosticsAnswer d => d = diagnostics
  | _, _ => False
  end.

Section worker.
Context {W : Type} `{DisplayOs W} `{D3dOs W} `{MediaConstants} `{MediaOs W} `{CaptureOs W}.

Lemma caught_ok {A} (m : io W string A) w w' (r : outcome string A) : icatch (F:=string) m w = (w', Ok r) -> returns r.
Proof. unfold icatch. destruct (m w) as [? []]; naive_solver. Qed.
Lemma serve_answers diagnostics command w w' response :
  CaptureWorker.serve diagnostics command w = (w', Ok response) -> answers_command diagnostics command response.
Proof.
  destruct command; cbn [CaptureWorker.serve].
  - intros (w1 & r & Hr & [= _ <-])%ibind_ok_inv. by eapply caught_ok.
  - intros (w1 & r & Hr & [= _ <-])%ibind_ok_inv. by eapply caught_ok.
  - by intros [= _ <-].
Qed.
Lemma serve_all_answers diagnostics commands : forall w w' responses,
  CaptureWorker.serve_all diagnostics commands w = (w', Ok responses) ->
  Forall2 (answers_command diagnostics) commands responses.
Proof.
  induction commands as [|command commands IH]; intros w w' responses; cbn [CaptureWorker.serve_all].
  - intros [= _ <-]. constructor.
  - intros (w1 & r & Hr%serve_answers & (w2 & rs & Hrs%IH & [= _ <-])%ibind_ok_inv)%ibind_ok_inv. by constructor.
Qed.
End worker.

(** The worker thread gives every command exactly one answer of its kind, in the
    order of the commands, and every question about the encoders the same diagnostics,
    those of its start; a worker whose apartment is refused answers nothing and says
    so when it is ready. *)
Theorem worker_answers_in_order {W} `{DisplayOs W} `{D3dOs W} `{MediaConstants} `{MediaOs W} `{CaptureOs W}
    fuel commands (w w' : W) ready responses
    (Hrun : CaptureWorker.work fuel commands w = (w', Ok (ready, responses))) :
  match ready with
  | Ok _ => exists diagnostics, Forall2 (answers_command diagnostics) commands responses
  | Err error => responses = [] /\ snd (apartment_initialize w) = Err error
  | Fault _ => False
  end.
Proof.
  revert Hrun. unfold CaptureWorker.work, ibind at 1, icatch at 1.
  destruct (apartment_initialize w) as [w1 [b|e|f]]; [|by intros [= _ <- <-]|done].
  intros (w2 & rs & Hrs & [= _ <- <-])%ibind_ok_inv. unfold ifinally at 1 in Hrs.
  match type of Hrs with context [ibind ?m ?k ?s] => destruct (ibind m k s) as [w3 r] eqn:Hmedia end. injection Hrs as _ ->.
  apply ibind_ok_inv in Hmedia as (w4 & media & _ & Hserve). unfold ifinally in Hserve.
  destruct (CaptureWorker.diagnose_and_serve fuel media commands w4) as [w5 r5] eqn:Hd. injection Hserve as _ ->.
  apply ibind_ok_inv in Hd as (w6 & capabilities & _ & (w7 & probe & _ & Hall)%ibind_ok_inv).
  eexists. by eapply serve_all_answers.
Qed.

(** ** Concrete runs *)
Module SetupExamples.
Import EncoderExamples.
(** The transform of [EncoderExamples], a graphics card that keeps the descriptions of
    its textures, one monitor, and a capture that shows two frames, the second of them
    larger, before it is cancelled. Texture 0 is the first frame's, texture 1 the
    second's. *)
Module Machine.
Record t : Type := mk { media : Toy.t; textures : list TextureDesc.t }.
End Machine.
Definition with_media (w : Machine.t) {A} (r : Toy.t * A) : Machine.t * A :=
  (Machine.mk (fst r) (Machine.textures w), snd r).
Definition bgra (width height : Z) : TextureDesc.t := TextureDesc.mk width height 1 1 DXGI_FORMAT_B8G8R8A8_UNORM 1 0.

#[local] Instance media_of_machine : MediaOs Machine.t := {
  call tr c w := with_media w (call tr c (Machine.media w));
  enum_encoders w := with_media w (enum_encoders (Machine.media w));
  transform_u32 tr k w := with_media w (transform_u32 tr k (Machine.media w));
  create_dxgi_manager tr w := with_media w (create_dxgi_manager tr (Machine.media w));
  lock_buffer tr w := with_media w (lock_buffer tr (Machine.media w));
  get_event tr w := with_media w (get_event tr (Machine.media w));
  output_stream_info tr w := with_media w (output_stream_info tr (Machine.media w));
  process_output tr s w := with_media w (process_output tr s (Machine.media w));
  output_available_type tr i w := with_media w (output_available_type tr i (Machine.media w));
  media_now w := with_media w (media_now (Machine.media w));
  media_sleep d w := Machine.mk (media_sleep d (Machine.media w)) (Machine.textures w);
}.
#[local, refine] Instance media_laws_of_machine : MediaOsLaws Machine.t := {
  media_clock w := media_clock (Machine.media w);
  backlog tr w := backlog tr (Machine.media w);
}.
Proof.
  all: intros; cbn [call output_stream_info output_available_type get_event process_output media_now media_sleep media_of_machine
    with_media fst snd Machine.media].
  - apply call_answers.
  - apply info_answers.
  - apply available_answers.
  - apply event_answers.
  - apply output_answers.
  - apply clock_call.
  - apply clock_info.
  - apply clock_available.
  - apply clock_output.
  - apply clock_event.
  - apply clock_media_now.
  - apply clock_media_sleep.
  - by apply backlog_call.
  - apply backlog_info.
  - apply backlog_available.
  - apply backlog_output.
Defined.

#[local] Instance gpu_of_machine : D3dOs Machine.t := {
  d3d_call _ _ w := (w, Ok tt);
  d3d_create _ _ w := (w, Ok 7);
  d3d_make _ m w :=
    match m with
    | MakeTexture d => (Machine.mk (Machine.media w) (Machine.textures w ++ [d]), Ok (Some (Z.of_nat (length (Machine.textures w)))))
    | _ => (w, Ok (Some 8))
    end;
  check_processor_format _ _ w := (w, Ok 3);
  processor_set _ _ w := w;
  get_desc t w := (w, default (bgra 0 0) (Machine.textures w !! Z.to_nat t));
  create_d3d11_device _ w := (w, Ok (Some 1));
}.
#[local] Instance gpu_laws_of_machine : D3dOsLaws Machine.t.
Proof. split; try done. by intros d []. Qed.
#[local, refine] Instance textures_of_machine : D3dTextures Machine.t := {
  texture_is t d w := Machine.textures w !! Z.to_nat t = Some d;
}.
Proof.
  - intros device d w texture [= <-]. cbn. rewrite Nat2Z.id. apply list_lookup_middle. done.
  - intros t d w Hd. cbn in *. by rewrite Hd.
  - intros t d. split; intros; try done; intros w' Hw; try exact Hw. destruct m; cbn in *; [|exact Hw..].
    rewrite lookup_app_l; [exact Hw|]. by eapply lookup_lt_Some.
  - intros t d. split; intros; first [done | intros w' Hw; exact Hw].
Defined.

#[local] Instance display_of_machine : DisplayOs Machine.t := {
  enum_display_monitors w :=
    (w, Enumeration.mk [Found.mk 1 "0x1" (inr (RECT.mk 0 0 4 4, "\\.\DISPLAY1", true)) []] None);
  current_mode w _ := (w, None);
  mode_at w _ _ := (w, None);
  change_display_settings w _ _ _ := (w, 0);
  now w := (w, 0);
  sleep w _ := w;
}.

Definition captured (texture : Z) (id : nat) (width height : Z) : CapturedFrame.t Z :=
  CapturedFrame.mk id (Ok (width, height)) (Ok tt) (Ok tt) (Ok texture) (Ok tt).
Definition shown (frame : CapturedFrame.t Z) (at_ : Z) : LiveTurn.t :=
  LiveTurn.mk false false (Received (Ok frame)) at_ (Ok tt) [SendPoll.mk false Sent].
Definition live_turns : list LiveTurn.t :=
  [shown (captured 0 1 4 4) 0; shown (captured 1 2 8 8) 1000000000; shown (captured 1 3 8 8) 2000000000;
   LiveTurn.mk true false WinCapture.Empty 0 (Ok tt) [SendPoll.mk true Full]].

Definition working (op : CaptureOp) : outcome string unit := Ok tt.
#[local] Instance capture_of_machine : CaptureOs Machine.t := {
  ro_initialize w := (w, Entered);
  ro_uninitialize w := w;
  mf_startup w := (w, Ok tt);
  mf_shutdown w := w;
  capture_is_supported w := (w, Ok true);
  load_item_factory w := (w, Ok tt);
  create_item_for_monitor _ w := (w, Ok tt);
  item_size w := (w, Ok (4, 4));
  create_frame_pool _ _ w := (w, Ok tt);
  capture_api _ := working;
  capture_did _ w := w;
  set_cursor _ w := w;
  probe_sleep _ w := (w, ([], 0));
  capture_turns w := (w, live_turns);
}.

Definition machine : Machine.t := Machine.mk (Toy.mk 0 [] []) [bgra 4 4; bgra 8 8].
Definition small_stream : H264StreamConfig.t := H264StreamConfig.mk 2 2 30 1000.

Example a_capture_runs : snd (run 50 small_stream None machine) = Ok tt.
Proof. vm_compute. reflexivity. Qed.

Definition converter : BgraToNv12Processor.t := BgraToNv12Processor.mk 1 7 7 2 8 4 4 0.
Definition streaming : HardwareH264Encoder.t :=
  HardwareH264Encoder.mk "" 7 true true false (H264EncoderConfig.mk 2 2 30 1000000) [] true.
Definition recording : CapturePipeline.t :=
  CapturePipeline.mk (CaptureDevice.mk 1 "hardware") small_stream converter streaming 33333333 0 [].
Definition started : Machine.t :=
  Machine.mk (Toy.mk 0 [METransformNeedInput] []) [bgra 4 4; bgra 8 8; nv12_description 2 2].

Lemma shown_answers texture id width height at_ : live_answers (shown (captured texture id width height) at_).
Proof. constructor; [exact Logic.I|apply Exists_cons_hd; right; discriminate|by repeat split]. Qed.
Lemma live_turns_answer : Forall live_answers live_turns.
Proof.
  do 3 (apply Forall_cons; split; [apply shown_answers|]). apply Forall_cons. split; [|apply Forall_nil; exact Logic.I].
  constructor; [exact Logic.I|apply Exists_cons_hd; by left|exact Logic.I].
Qed.

Lemma live_capture_refines_pipeline_witness :
  exists observed, Forall2 WinCaptureLive.answered live_turns observed /\
    snd (Pipeline.run observed (CapturePipeline.pipeline_of recording)) = Ok tt.
Proof.
  pose proof (live_capture_refines_pipeline (CaptureDevice.mk 1 "hardware") small_stream converter streaming recording
    50 live_turns started eq_refl) as Ht.
  assert (Hr : exists self w, CapturePipeline.run 50 live_turns (recording, started) = ((self, w), Ok tt))
    by (eexists _, _; vm_compute; reflexivity).
  destruct Hr as (self & w & Hr). rewrite Hr in Ht. destruct (proj2 Ht Logic.I) as (observed & Ho & Hrun).
  exists observed. split; [exact Ho|]. by rewrite Hrun.
Defined.

Lemma live_captures_feed_at_the_rate_witness :
  let '((self, (_, log)), _) := CapturePipeline.run 50 live_turns (recording, (started, [])) in
  in_hand None (CapturePipeline.actions self) = Some None /\
  map InputSample.time (accepted_inputs log) = [0; 20000000] /\
  forall a b, accepted_inputs log !! 0%nat = Some a -> accepted_inputs log !! 1%nat = Some b ->
    (0 - 1) * 33333333 <= 100 * (InputSample.time b - InputSample.time a) + 99.
Proof.
  assert (Htimes : Forall (fun turn => LiveTurn.captured_at turn + 1000000000 / 30 <= Duration.MAX) live_turns)
    by (repeat (apply Forall_cons; split; [vm_compute; discriminate|]); apply Forall_nil; exact Logic.I).
  pose proof (live_captures_feed_at_the_rate (CaptureDevice.mk 1 "hardware") small_stream converter streaming recording
    50 live_turns started eq_refl eq_refl live_turns_answer Htimes) as Ht.
  destruct (CapturePipeline.run 50 live_turns (recording, (started, []))) as [[self [w log]] r] eqn:Hr.
  assert (Hok : returns r /\ map InputSample.time (accepted_inputs log) = [0; 20000000])
    by (vm_compute in Hr; injection Hr as <- <- <- <-; split; [exact Logic.I|reflexivity]).
  destruct Hok as [Hok Hlog]. destruct (Ht Hok) as (Hclosed & _ & _ & Hrate).
  split; [exact Hclosed|]. split; [exact Hlog|]. intros a b Ha Hb. exact (Hrate 0%nat 0%nat a b Ha Hb).
Defined.

Lemma live_captures_end_witness : returns (snd (CapturePipeline.run ENOUGH live_turns (recording, started))).
Proof.
  apply (live_captures_end ENOUGH live_turns recording started); [by split|apply le_n|exact live_turns_answer|].
  do 3 apply Exists_cons_tl. by apply Exists_cons_hd.
Defined.

Definition prepared : PreparedCapture.t := PreparedCapture.mk (CaptureDevice.mk 1 "hardware") small_stream converter streaming.
Example a_capture_is_prepared : PreparedCapture.new small_stream None machine = (started, Ok prepared).
Proof. vm_compute. reflexivity. Qed.

Lemma prepared_captures_fit_witness :
  exists w texture, snd (native_texture 3 w) = Ok texture /\
    HardwareH264Encoder.validate_nv12_texture texture (H264EncoderConfig.mk 2 2 30 1000000) = Ok tt.
Proof.
  pose proof (prepared_captures_fit small_stream None machine started prepared recording 50 live_turns eq_refl
    a_capture_is_prepared eq_refl) as Hfit.
  assert (Hr : exists s w r, CapturePipeline.run 50 live_turns (recording, started) = ((s, w), r) /\
    BgraToNv12Processor.output_texture (CapturePipeline.processor s) = 3 /\
    HardwareH264Encoder.config (CapturePipeline.encoder s) = H264EncoderConfig.mk 2 2 30 1000000).
  { destruct (CapturePipeline.run 50 live_turns (recording, started)) as [[s w] r] eqn:Hr. exists s, w, r.
    split; [reflexivity|]. vm_compute in Hr. injection Hr as <- _ _. by split. }
  destruct Hr as (s & w & r & Hr & Ht & Hc). rewrite Hr, Ht, Hc in Hfit. exists w. exact Hfit.
Defined.

Lemma machine_works (w : Machine.t) : capture_api w = working.
Proof. reflexivity. Qed.
Lemma working_returns op : returns (working op).
Proof. exact Logic.I. Qed.
Lemma capture_sessions_are_cleaned_up_witness :
  let log := snd (snd (fst (PreparedCapture.run_prepared 50 (prepared, (started, []))))) in
  performed log = [SubscribeClosed; SubscribeFrames; CreateSession; StartCapture; RemoveFrames; ClosePool; CloseSession; RemoveClosed] /\
  undone working (performed log).
Proof.
  destruct (capture_sessions_are_cleaned_up working 50 prepared
    (MonitorSource.mk 1 (RECT.mk 0 0 4 4) "d" (DisplaySource.mk "d" "d" 4 4 true false)) "hardware" (4, 4) 30 started
    machine_works working_returns) as [Ht _].
  destruct (PreparedCapture.run_prepared 50 (prepared, (started, []))) as [[c [w log]] r] eqn:Hr. cbn [fst snd].
  vm_compute in Hr. injection Hr as _ _ <- <-. split; [reflexivity|]. exact (proj1 (Ht Logic.I)).
Defined.

Lemma worker_answers_in_order_witness :
  exists diagnostics responses, Forall2 (answers_command diagnostics) [IsSupportedQuery; Probe None 30; DiagnosticsQuery] responses.
Proof.
  assert (Hr : exists w responses, CaptureWorker.work 50 [IsSupportedQuery; Probe None 30; DiagnosticsQuery] machine = (w, Ok (Ok tt, responses)))
    by (eexists _, _; vm_compute; reflexivity).
  destruct Hr as (w & responses & Hr).
  destruct (worker_answers_in_order (W:=Machine.t) 50 [IsSupportedQuery; Probe None 30; DiagnosticsQuery] machine w (Ok tt) responses Hr) as [d Hd].
  exists d, responses. exact Hd.
Defined.
End SetupExamples.
