(* ===== verification/WinSession.v ===== *)
(** * A display session on Windows

    The host's session of [HostStream] and its USB worker of [HostReconnect], with the
    Windows adapters in place of the classes they are written against: the display mode of
    [WinDisplay], the capture stream of [WinCaptureSetup], the input controller of
    [WinInput], and the USB accessory manager of [WinUsbManager] with its worker beside.
    What the parts promise separately is here what a whole session promises. *)
From stdpp Require Import gmap.
From S2P Require Export HostReconnect WinInputHeld WinCaptureSetup WinUsbManager.
Local Open Scope string_scope.
Local Open Scope list_scope.
Local Open Scope Z_scope.

(** ** What a session finds on Windows *)
Module WindowsHost.
(** [polled] is what each [try_recv] of the capture stream's channel meets, with the
    cancel flag then; [metrics] are the four answers of [GetSystemMetrics]. *)
Record t (DW IW : Type) : Type := mk {
  desktop : DW;
  process : Process.t IW;
  monitors : Enumeration.t;
  metrics : Z * Z * Z * Z;
  spawned : string + unit;
  polled : list (TryRecv (string + H264StreamBatch.t) * bool);
}.
Arguments mk {DW IW}.
Arguments desktop {DW IW}.
Arguments process {DW IW}.
Arguments monitors {DW IW}.
Arguments metrics {DW IW}.
Arguments spawned {DW IW}.
Arguments polled {DW IW}.

Definition virtual_desktop {DW IW} (self : t DW IW) : outcome string RECT.t :=
  let '(left_, top, width, height) := metrics self in virtual_desktop_rect left_ top width height.
End WindowsHost.

Definition answered {A} (r : string + A) : outcome string A :=
  match r with inl error => Err error | inr a => Ok a end.
Definition arrived (received : TryRecv (string + H264StreamBatch.t)) : TryRecv (outcome string H264StreamBatch.t) :=
  match received with
  | Received batch => Received (answered batch)
  | WinCapture.Empty => WinCapture.Empty
  | WinCapture.Disconnected => WinCapture.Disconnected
  end.

(** A hundred polls of the display mode and one more ([preparation_returns]). *)
Definition MODE_POLLS : nat := 101.

Section platform.
Context {DW IW : Type} `{DisplayConstants} `{DisplayOs DW} `{InputOs IW}.
Variable host : WindowsHost.t DW IW.

(** The controller of a session acts on the process it found. *)
Definition windows_platform :
  NativePlatform (list (TryRecv (string + H264StreamBatch.t) * bool)) (Process.t IW * NativeInputController.t) := {|
  HostStream.prepare_capture_display_mode display_id width height :=
    snd (WinDisplay.prepare_capture_display_mode MODE_POLLS (WindowsHost.desktop host) display_id width height);
  HostStream.start_capture_stream config _ :=
    let! _ := CapturedH264Stream.start config (answered (WindowsHost.spawned host)) in Ok (WindowsHost.polled host);
  HostStream.try_next_batch polled :=
    match polled with
    | [] => ([], Ok None)
    | (received, cancel) :: polled => (polled, CapturedH264Stream.try_next_batch (arrived received) cancel)
    end;
  HostStream.new_input_controller display_id width height :=
    let! controller := NativeInputController.new (enumerate_monitors (WindowsHost.monitors host))
      (WindowsHost.virtual_desktop host) display_id width height in
    Ok (WindowsHost.process host, controller);
  HostStream.inject device event :=
    let '(process, controller, r) := NativeInputController.inject (fst device) (snd device) event in
    ((process, controller), r);
  HostStream.drop_input_controller device := (NativeInputController.drop_ (fst device) (snd device), snd device);
|}.
End platform.

(** ** The adapters keep the contract of the session *)
Section contract.
Context {DW IW : Type} `{DisplayConstants} `{DisplayOsLaws DW} `{InputOsLaws IW}.
Variable host : WindowsHost.t DW (IW * list Delivered).

(** Nothing was injected before, and the rectangles are of 32-bit integers. *)
Record host_ok : Prop := {
  fo_log : log_of (WindowsHost.process host) = [];
  fo_cell : cell_ok (WindowsHost.process host);
  fo_metrics : forall rect, WindowsHost.virtual_desktop host = Ok rect -> RECT.wf rect;
  fo_monitors : forall ms m, enumerate_monitors (WindowsHost.monitors host) = Ok ms -> m ∈ ms -> RECT.wf (MonitorSource.rect m);
}.
Context (Hhost : host_ok).

(** The controller agrees with Windows; touch stays possible if Windows cooperates. *)
Definition in_control (device : Process.t (IW * list Delivered) * NativeInputController.t) : Prop :=
  agrees (fst device) (snd device) /\ MapperFacts.wf (NativeInputController.mapper (snd device)) /\
  (cooperative (W:=IW) -> touchable (WindowsHost.process host) -> touchable (fst device)).

Lemma virtual_desktop_returns : returns (WindowsHost.virtual_desktop host).
Proof.
  unfold WindowsHost.virtual_desktop. destruct (WindowsHost.metrics host) as [[[l t] w] h]. unfold virtual_desktop_rect, validate_rect.
  repeat (apply returns_obind; [|intros ? _]); auto with rust; by repeat case_match.
Qed.
Lemma controller_is_new display_id width height controller :
  in_u 16 width -> in_u 16 height ->
  NativeInputController.new (enumerate_monitors (WindowsHost.monitors host)) (WindowsHost.virtual_desktop host)
    display_id width height = Ok controller ->
  in_control (WindowsHost.process host, controller).
Proof.
  intros Hw Hh Hnew. destruct Hhost as [Hlog Hcell Hmet Hmon].
  assert (WinInputHeld.reachable (WindowsHost.process host) controller) as [Hag Hwf]%WinInputHeld.reachable_agrees.
  { destruct (WindowsHost.process host) as [[w log] cell]. unfold log_of in Hlog. cbn in Hlog. subst log.
    eapply WinInputHeld.reachable_new; [|exact Hw|exact Hh|exact Hmon|exact Hmet|exact Hnew].
    intros r ->. exact Hcell. }
  by split.
Qed.
Lemma controller_keeps_control device event :
  in_control device -> InputEvent.wf event ->
  let '(process, controller, r) := NativeInputController.inject (fst device) (snd device) event in
  in_control (process, controller) /\ returns r.
Proof.
  intros (Hag & Hwf & Ht) He.
  destruct (NativeInputController.inject (fst device) (snd device) event) as [[p c] r] eqn:Hi.
  pose proof (fun Hc Hp => touchable_inject Hc (fst device) (snd device) event (Ht Hc Hp)) as Ht'. rewrite Hi in Ht'.
  apply inject_agrees in Hi as (Hag' & Hr & Hm & _); [|done..]. split; [|done]. split; [done|]. split; [cbn; by rewrite Hm|].
  intros Hc Hp. by apply Ht'.
Qed.

Definition windows_answers : @NativePlatformAnswers _ _ (windows_platform host).
Proof.
  refine {| HostStream.device_ok := in_control |}.
  - intros d w h. cbn. by apply preparation_returns.
  - intros c d. cbn. unfold CapturedH264Stream.start, H264StreamConfig.new.
    apply returns_obind; [|done]. apply returns_obind; [by repeat case_match|intros config _].
    by destruct (WindowsHost.spawned host).
  - intros [|[received cancel] polled]; [done|]. cbn. unfold CapturedH264Stream.try_next_batch, receive_h264_batch.
    destruct received as [[|]| |]; cbn; try done. by destruct cancel.
  - intros d w h. cbn -[WindowsHost.virtual_desktop]. apply returns_obind; [|done]. unfold NativeInputController.new.
    apply returns_obind; [apply enumerate_monitors_returns|intros ms _].
    apply returns_obind; [apply select_monitor_returns|intros m _].
    apply returns_obind; [apply virtual_desktop_returns|intros rect _].
    apply returns_obind; [|done]. unfold CoordinateMapper.new, validate_rect. by repeat case_match.
  - intros d w h device Hw Hh. cbn -[WindowsHost.virtual_desktop].
    destruct (NativeInputController.new _ _ d w h) as [controller|e|f] eqn:Hn; cbn [obind]; [|done..].
    intros [= <-]. exact (controller_is_new d w h controller Hw Hh Hn).
  - intros device event Hd He. cbn. pose proof (controller_keeps_control device event Hd He) as Hk.
    destruct (NativeInputController.inject _ _ event) as [[p c] r]. exact Hk.
Defined.
End contract.

(** C7: a session on Windows lets go: over any endpoint, whatever the display sends and
    Windows refuses, every frame of touches Windows accepted in the session was legal; the
    events injected were fresh and negotiated; the session never panics; and if Windows
    accepts what it is asked, no button, key or touch contact stays down when the session
    is over, however it ended. *)
Theorem windows_sessions_let_go {DW IW} `{DisplayConstants} `{DisplayOsLaws DW} `{InputOsLaws IW}
  `{Safety : EndpointSafety T} (host : WindowsHost.t DW (IW * list Delivered)) opening turns shared config display_id (t : T) :
  host_ok host -> safe t -> HostState.LoopbackConfig.wf config ->
  (forall nonce, Opening.random opening = inr nonce -> length nonce = 16%nat) ->
  Duration.valid (Opening.started opening + USB_NEGOTIATION_TIMEOUT) -> timely turns -> accounts shared 3 ->
  let '((_, r, device), out) := run_android_control_session_inner (U:=Logged.t _)
    (H0:=@logged_platform _ _ (windows_platform host)) opening turns shared config display_id (Recorder.mk t [] []) in
  out <> Fault Panicked /\
  forall d, device = Some d ->
    let process := fst (Logged.device d) in
    Held.legal (log_of process) /\
    (exists q1 q2 hello caps s last, introduces q1 q2 hello caps s /\
       obeys (shared_input caps) s last (Recorder.received r) (Logged.events d)) /\
    (cooperative (W:=IW) -> touchable (WindowsHost.process host) -> held_by process = Held.nothing).
Proof.
  intros Hhost Ht Hc Hn Hd Hty Ha.
  pose proof (@run_session_spec _ _ _ _ Safety _ (windows_answers host Hhost) opening turns shared config display_id t
    Ht Hc Hn Hd Hty Ha) as Hs.
  destruct (run_android_control_session_inner _ _ _ _ _ _) as [[[s r] device] out].
  destruct Hs as (_ & _ & Hob & Hdev & Hf). split; [intros ->; by destruct (Hf Panicked eq_refl)|].
  intros d Hd'. destruct (Hob d Hd') as (q1 & q2 & hello & caps & x & last & _ & Hin & Hobs).
  destruct (Hdev d Hd') as (u & (Hag & _ & Htouch) & ->). cbn. split; [by apply drop_legal|].
  split; [by exists q1, q2, hello, caps, x, last|]. intros Hcoop Hp. apply drop_at_rest; [done|done|by apply Htouch].
Qed.

(** ** The USB link as a session uses it

    The worker runs beside the calls of the session: before each it makes the next turns
    of the script. What each call did to the devices is logged. The world itself says when
    the cancel flag of a reconnection is seen ([usb_cancelled]). *)
Module LiveUsb.
Record t (W : Type) : Type := mk {
  manager : UsbAccessoryManager.t;
  world : W;
  logs : list (list UsbEntry);
  script : list (list BulkTurn.t);
}.
Arguments mk {W}.
Arguments manager {W}.
Arguments world {W}.
Arguments logs {W}.
Arguments script {W}.

Section calls.
Context {W : Type} `{UsbOs W}.
Implicit Types (self : t W).

Definition after self (s : UsbAccessoryManager.t * (W * list UsbEntry)) : t W :=
  mk (fst s) (fst (snd s)) (logs self ++ [snd (snd s)]) (script self).
Definition advance self : t W :=
  match script self with
  | [] => self
  | turns :: script => after (mk (manager self) (world self) (logs self) script) (work_between turns (manager self) (world self, []))
  end.
Definition perform {A} self (m : io (UsbAccessoryManager.t * (W * list UsbEntry)) string A) : t W * outcome string A :=
  let self := advance self in
  let (s, r) := m (manager self, (world self, [])) in (after self s, r).

Definition connection_state self : ConnectionState.t := UsbAccessoryManager.connection_state (manager self).
Definition try_send self (packet : Packet.t) : t W * outcome SendError.t SendReport.t :=
  let self := advance self in
  let (m, r) := UsbAccessoryManager.try_send (manager self) packet in (after self (m, (world self, [])), r).
Definition try_receive self (channel : Channel.t) : t W * outcome ReceiveError.t (option Packet.t) :=
  let self := advance self in
  let (m, r) := UsbAccessoryManager.try_receive (manager self) channel in (after self (m, (world self, [])), r).
End calls.
End LiveUsb.

Section usb_link.
Context {W : Type} `{UsbOsLaws W}.
Implicit Types (l : LiveUsb.t W).

#[export] Instance live_usb_transport : PacketTransport (LiveUsb.t W) := {
  connection_state := LiveUsb.connection_state;
  try_send := LiveUsb.try_send;
  try_receive := LiveUsb.try_receive;
}.
Definition live_usb_reconnecting (package_version : list byte) (computer_name : option (list byte)) : ReconnectingTransport (LiveUsb.t W) := {|
  HostReconnect.reconnect l _ := LiveUsb.perform l (WinUsbManager.reconnect package_version computer_name);
  HostReconnect.close_runtime_session l := LiveUsb.perform l WinUsbManager.close_runtime_session;
|}.

(** The manager holds exactly what the logs say is open. *)
Definition link_holds (hd : Holding) l : Prop :=
  held NoDevice (LiveUsb.logs l) = Some hd /\ manager_holds (LiveUsb.manager l) hd.

Lemma held_snoc logs log hd : held hd (logs ++ [log]) =
  hd' ← held hd logs; s ← usb_session (mk_usb_state false hd') log; Some (holding s).
Proof.
  revert hd. induction logs as [|l logs IH]; intros hd; [done|]. cbn [held app].
  destruct (usb_session (mk_usb_state false hd) l) as [s|]; [apply IH|done].
Qed.

(** A call of the runtime, or of the worker, logged. *)
Lemma after_call package_version computer_name call l hd script : link_holds hd l ->
  exists hd', link_holds hd' (LiveUsb.after (LiveUsb.mk (LiveUsb.manager l) (LiveUsb.world l) (LiveUsb.logs l) script)
    (usb_call package_version computer_name call (LiveUsb.manager l, (LiveUsb.world l, [])))).
Proof.
  intros [Hheld Hm].
  destruct (call_holds package_version computer_name call (mk_usb_state false hd) (LiveUsb.manager l) hd (LiveUsb.world l, []) Hm eq_refl)
    as (s & Hat & Hh).
  exists (holding s). split; [|exact Hh]. cbn. rewrite held_snoc, Hheld. cbn.
  unfold usb_at in Hat. by rewrite Hat.
Qed.
Lemma advance_holds l hd : link_holds hd l -> exists hd', link_holds hd' (LiveUsb.advance l).
Proof.
  intros Hl. unfold LiveUsb.advance. destruct (LiveUsb.script l) as [|turns script]; [by exists hd|].
  exact (after_call [] None (UsbCall.Work turns) l hd script Hl).
Qed.

(** The queues are in order, or the link is down. *)
Lemma manager_link m hd session : manager_holds m hd -> UsbAccessoryManager.session m = Some session ->
  link_wf (LoopbackEndpoint.link (AccessorySession.host_endpoint session)) \/
  Link.connected (LoopbackEndpoint.link (AccessorySession.host_endpoint session)) = false.
Proof.
  unfold manager_holds, session_holds. intros Hm Hs. rewrite Hs in Hm.
  destruct (AccessorySession.worker session) as [[]|]; [left; apply Hm|right; apply Hm|done..].
Qed.
Lemma manager_send m hd p : manager_holds m hd ->
  returns (snd (UsbAccessoryManager.try_send m p)) /\
  forall m' q d lim, UsbAccessoryManager.try_send m p = (m', Err (SendError.Full q d lim)) -> q = p.
Proof.
  intros Hm. unfold UsbAccessoryManager.try_send. destruct (UsbAccessoryManager.session m) as [session|] eqn:Hs; [|by split].
  destruct (manager_link m hd session Hm Hs) as [Hwf|Hd].
  - pose proof (safe_send (AccessorySession.host_endpoint session) p Hwf) as [_ Hr].
    pose proof (safe_full (AccessorySession.host_endpoint session) p) as Hf. cbn in Hr, Hf.
    destruct (LoopbackEndpoint.try_send _ p) as [e r]. split; [done|].
    intros m' q d lim [= <- ->]. by eapply Hf.
  - unfold LoopbackEndpoint.try_send. by rewrite Hd.
Qed.
Lemma manager_receive m hd c : manager_holds m hd -> returns (snd (UsbAccessoryManager.try_receive m c)).
Proof.
  intros Hm. unfold UsbAccessoryManager.try_receive. destruct (UsbAccessoryManager.session m) as [session|] eqn:Hs; [|done].
  destruct (manager_link m hd session Hm Hs) as [Hwf|Hd].
  - pose proof (safe_receive (AccessorySession.host_endpoint session) c Hwf) as [_ Hr]. cbn in Hr.
    by destruct (LoopbackEndpoint.try_receive _ c).
  - unfold LoopbackEndpoint.try_receive. by rewrite Hd.
Qed.

#[export, refine] Instance live_usb_safety : EndpointSafety (LiveUsb.t W) := {
  safe l := exists hd, link_holds hd l;
}.
Proof.
  - intros l p [hd Hl]. destruct (advance_holds l hd Hl) as [hd1 H1']. cbn. unfold LiveUsb.try_send. cbv zeta.
    pose proof (after_call [] None (UsbCall.Send p) _ hd1 (LiveUsb.script (LiveUsb.advance l)) H1') as Hc.
    pose proof (proj1 (manager_send _ _ p (proj2 H1'))) as Hr. cbn [usb_call fst snd] in Hc.
    destruct (UsbAccessoryManager.try_send _ p) as [m r]. by split.
  - intros l c [hd Hl]. destruct (advance_holds l hd Hl) as [hd1 H1']. cbn. unfold LiveUsb.try_receive. cbv zeta.
    pose proof (after_call [] None (UsbCall.Receive c) _ hd1 (LiveUsb.script (LiveUsb.advance l)) H1') as Hc.
    pose proof (manager_receive _ _ c (proj2 H1')) as Hr. cbn [usb_call fst snd] in Hc.
    destruct (UsbAccessoryManager.try_receive _ c) as [m r]. by split.
  - intros l p l' q d lim [hd Hl]. destruct (advance_holds l hd Hl) as [hd1 H1']. cbn. unfold LiveUsb.try_send. cbv zeta.
    destruct (UsbAccessoryManager.try_send _ p) as [m r] eqn:Hs. intros [= <- ->].
    by eapply (proj2 (manager_send _ _ p (proj2 H1'))).
Defined.

Lemma reconnect_keeps_safe package_version computer_name l polls :
  safe l -> safe (fst (@HostReconnect.reconnect _ _ (live_usb_reconnecting package_version computer_name) l polls)).
Proof.
  intros [hd Hl]. destruct (advance_holds l hd Hl) as [hd1 H1']. cbn. unfold LiveUsb.perform. cbv zeta.
  pose proof (after_call package_version computer_name (UsbCall.Prepare true) _ hd1 (LiveUsb.script (LiveUsb.advance l)) H1') as Hc. cbn [usb_call] in Hc.
  unfold WinUsbManager.reconnect, no_error.
  set (s0 := (LiveUsb.manager (LiveUsb.advance l), (LiveUsb.world (LiveUsb.advance l), []))) in *.
  unfold ibind, imap_err. destruct (prepare_with_cancel package_version computer_name true s0) as [s [report|[]|f]]; cbn [map_err fst] in *; [|exact Hc].
  by destruct (UsbAccessoryProbeReport.passed report).
Qed.
End usb_link.

(** Closing leaves no session and no device. *)
Lemma close_leaves_nothing {W} `{UsbOsLaws W} (l : LiveUsb.t W) hd : link_holds hd l ->
  let l' := fst (LiveUsb.perform l WinUsbManager.close_runtime_session) in
  link_holds NoDevice l' /\ UsbAccessoryManager.session (LiveUsb.manager l') = None /\
  LinkStatus.phase (UsbAccessoryManager.status (LiveUsb.manager l')) = UsbLinkState.Ready.
Proof.
  intros Hl. destruct (advance_holds l hd Hl) as [hd1 [Hheld Hm]]. unfold LiveUsb.perform. cbv zeta.
  set (l1 := LiveUsb.advance l) in *. unfold WinUsbManager.close_runtime_session.
  pose proof (stop_active_ends (mk_usb_state false hd1) false hd1 (LiveUsb.manager l1) (LiveUsb.world l1, []) Hm eq_refl) as Hs.
  destruct (stop_active_session (LiveUsb.manager l1, (LiveUsb.world l1, []))) as [[m1 w1] r] eqn:E.
  destruct Hs as (-> & Hn & Hp & Hat). rewrite (ibind_step _ _ _ _ _ E). cbn.
  split; [|by split]. unfold link_holds. cbn. rewrite held_snoc, Hheld. cbn. unfold usb_at in Hat. rewrite Hat. split; [done|].
  unfold manager_holds. cbn. rewrite Hn. by split.
Qed.

(** C10: a display session over USB closes its device: whatever the runtime did with the
    manager before, and however the devices, the worker, the display and the platform
    behave during the session and its reconnections, when the session's thread ends, even
    by a panic, the manager has no session, every device that was opened is closed again,
    and the status says so; until then at most one device was open at a time. *)
Theorem usb_sessions_close_their_device {W} `{UsbOsLaws W} `{NativePlatform V C} version name calls (w0 : W) script
  rounds shared config display_id :
  let '((m, w), logs) := usb_calls version name calls UsbAccessoryManager.default w0 in
  let '((_, l), _) := run_usb_control_session (H0:=live_usb_reconnecting version name) (V:=V) (U:=C)
    rounds shared config display_id (LiveUsb.mk m w logs script) in
  held NoDevice (LiveUsb.logs l) = Some NoDevice /\
  UsbAccessoryManager.session (LiveUsb.manager l) = None /\
  LinkStatus.phase (UsbAccessoryManager.status (LiveUsb.manager l)) = UsbLinkState.Ready.
Proof.
  pose proof (calls_hold version name calls UsbAccessoryManager.default w0 NoDevice default_holds) as Hc.
  destruct (usb_calls version name calls UsbAccessoryManager.default w0) as [[m w] logs]. destruct Hc as (hd & Hheld & Hm).
  assert (Hsafe : safe (LiveUsb.mk m w logs script)) by (by exists hd).
  pose proof (rounds_safe (Rec:=live_usb_reconnecting version name) (V:=V) (C:=C) (reconnect_keeps_safe version name)
    rounds shared config display_id _ None 1 Hsafe) as Hr.
  unfold run_usb_control_session. destruct (run_rounds _ _ _ _ _ _ _) as [[s l] out]. cbn [fst snd] in Hr.
  destruct Hr as [hd' Hl].
  pose proof (close_leaves_nothing l hd' Hl) as Hx. cbn [HostReconnect.close_runtime_session live_usb_reconnecting].
  destruct (LiveUsb.perform l _) as [l' r]. cbn in Hx. destruct Hx as ([Hh _] & Hn & Hp). by split_and!.
Qed.

(** ** Concrete runs *)
Module WindowsSessionExamples.
Import InputExamples PhoneExamples DisplayExamples HostStream.StreamExamples.

Definition batch : H264StreamBatch.t :=
  H264StreamBatch.mk "Media Foundation" [H264AccessUnit.mk [x00; x00; x00; x01; x65] 0 16666667 true].
Definition windows : WindowsHost.t Desktop.t (unit * list Delivered) :=
  WindowsHost.mk DisplayExamples.start process (DisplayExamples.monitors DisplayExamples.start) (0, 0, 3840, 1080) (inr tt)
    [(Received (inr batch), false); (WinCapture.Empty, false)].
(** The display presses the button and never lets it go. *)
Definition press_button : InputEvent.t :=
  InputEvent.mk 5 (InputEventKind.PointerButton PointerButton.Primary ButtonState.Pressed).
Definition pressing : SharedEndpoint.t :=
  SharedEndpoint.mk Side.First (Link.new (TransportLoopback.LoopbackConfig.new limits limits))
    [[]; []; map (LinkCall.Send Side.Second)
       [HandshakeExamples.first; HandshakeExamples.second; HandshakeExamples.packet_of 9 press_button]].
Definition pressed := run_android_control_session_inner (U:=Logged.t _)
  (H0:=@logged_platform _ _ (windows_platform windows)) opening turns idle config None (Recorder.mk pressing [] []).

Example the_button_goes_up_again : let '((_, _, d), out) := pressed in
  (Logged.events <$> d, (fun d => log_of (fst (Logged.device d))) <$> d, out) =
  (Some [press_button],
   Some [DeliveredInputs [INPUT_MOUSE (MOUSEINPUT.mk 0 0 0 [MOUSEEVENTF_LEFTDOWN])];
         DeliveredInputs [INPUT_MOUSE (MOUSEINPUT.mk 0 0 0 [MOUSEEVENTF_LEFTUP])]], Ok tt).
Proof. vm_compute. reflexivity. Qed.

Lemma windows_ok : host_ok windows.
Proof.
  split; [done|done| |].
  - intros rect Hr. vm_compute in Hr. injection Hr as <-. repeat constructor; cbn; unfold in_i; lia.
  - intros ms m Hms Hm. vm_compute in Hms. injection Hms as <-.
    revert m Hm. apply Forall_forall. do 2 (apply Forall_cons_2; [split; cbn; unfold in_i; lia|]). constructor.
Qed.
Lemma pressing_safe : safe pressing.
Proof. intros s c. destruct s, c; by apply empty_queue_wf; split; cbn; lia. Qed.

Lemma windows_sessions_let_go_witness :
  cooperative (W:=unit) /\ let '((_, _, device), out) := pressed in
  out <> Fault Panicked /\ exists d, device = Some d /\ Logged.events d = [press_button] /\
    held_by (fst (Logged.device d)) = Held.nothing.
Proof.
  split; [exact accepting_cooperates|].
  pose proof (windows_sessions_let_go windows HostStream.StreamExamples.opening turns idle config None pressing windows_ok pressing_safe
    config_wf opening_nonce opening_valid turns_timely idle_accounts) as Hl.
  fold pressed in Hl.
  assert (Hd : Logged.events <$> snd (fst pressed) = Some [press_button]) by (vm_compute; reflexivity).
  destruct pressed as [[[s r] device] out]. cbn in Hd. destruct device as [d|]; [|discriminate Hd].
  injection Hd as Hd. destruct Hl as [Ho Hl]. split; [exact Ho|]. exists d. split; [reflexivity|]. split; [exact Hd|].
  destruct (Hl d eq_refl) as (_ & _ & Hn). apply Hn; [exact accepting_cooperates|left; reflexivity].
Defined.

(** The phone is prepared, the session fails at its first packet, and the device is closed. *)
Definition prepared_phone : (UsbAccessoryManager.t * bench) * list (list UsbEntry) :=
  usb_calls version_ None [UsbCall.Prepare false] UsbAccessoryManager.default (mk_bench 0 None (ms 5000)).
Example the_phone_is_closed :
  let '((m, w), logs) := prepared_phone in
  let '((_, l), r) := run_usb_control_session (H0:=live_usb_reconnecting version_ None) (H1:=ReconnectExamples.portable_platform)
    ReconnectExamples.rounds SharedState.new ReconnectExamples.config None (LiveUsb.mk m w logs []) in
  held NoDevice logs = Some (Claimed 5 accessory 0) /\
  held NoDevice (LiveUsb.logs l) = Some NoDevice.
Proof. vm_compute. done. Qed.
End WindowsSessionExamples.
