(* ===== verification/HostShell.v ===== *)
(** * The desktop shell

    Models [apps/desktop/src-tauri/src/shell.rs], [commands.rs] and the set-up of
    [lib.rs]: the tray menu, the main window, the orderly end of the process, and the
    commands of the user interface over the runtime. Tauri is outside: what the shell
    asks of it is the list of [ShellCall]s; a thread the shell starts goes on one step at
    a time, with other events in between. A step that calls the runtime runs that method
    through ([HostRuntime]); the steps inside it are those of [HostThreads]. *)
From S2P Require Import WinVirtualDisplay.
From S2P Require Export HostPlatform HostRuntime.
Local Open Scope string_scope.
Local Open Scope list_scope.
Local Open Scope Z_scope.

(** ** The virtual display of the platform *)
Class VirtualDisplays (D : Type) : Type := {
  enable_virtual_display : D -> D * outcome string VirtualDisplayActionReport.t;
  disable_virtual_display : D -> D * outcome string VirtualDisplayActionReport.t;
}.
#[export] Instance windows_virtual_displays {W} `{ControllerBuild} `{DisplayOs W} `{ControllerOs W} :
  VirtualDisplays (option CachedStatus.t * W) := {
  enable_virtual_display := WinVirtualDisplay.enable;
  disable_virtual_display := WinVirtualDisplay.disable;
}.

(** Elsewhere, for the system of that name. *)
#[export] Instance portable_virtual_displays : VirtualDisplays string := {
  enable_virtual_display os := (os, Portable.enable_virtual_display os);
  disable_virtual_display os := (os, Portable.disable_virtual_display os);
}.

(** ** The tray menu *)
Definition MAIN_WINDOW_LABEL : string := "main".
Definition OPEN_MENU_ID : string := "open".
Definition DISCONNECT_MENU_ID : string := "disconnect".
Definition QUIT_MENU_ID : string := "quit".

Module TrayAction.
Inductive t : Type :=
| Open
| Disconnect
| Quit
| Unknown.
#[global] Instance t_eq_dec : EqDecision t.
Proof. solve_decision. Defined.
Definition from_id (id : string) : t :=
  if String.eqb id OPEN_MENU_ID then Open
  else if String.eqb id DISCONNECT_MENU_ID then Disconnect
  else if String.eqb id QUIT_MENU_ID then Quit
  else Unknown.
End TrayAction.

(** ** The shell *)
Inductive ShellCall : Type :=
| Unminimize
| ShowWindow
| SetFocus
| PreventClose
| HideWindow
| Complain (message : string)
| Exit (code : Z)
(** The attempt to start the thread of the end, or one of the tray. *)
| Spawned (ending started : bool)
(** By the thread of the end, or by that of the tray. *)
| DisplayDisconnected (ending succeeded : bool)
| VirtualDisplayDisabled (succeeded : bool).

(** What the thread of the end does next. *)
Inductive ExitStage : Type :=
| ToDisconnect
| ToDisable
| ToExit.

Module Shell.
(** [shutdown] is [ShutdownState]; [disconnecting] counts the tray's threads at work,
    [ending] has those that end the process. *)
Record t (U D : Type) : Type := mk {
  runtime : DesktopRuntime.t U;
  displays : D;
  shutdown : bool;
  disconnecting : nat;
  ending : list ExitStage;
  calls : list ShellCall;
}.
Arguments mk {U D}.
Arguments runtime {U D}.
Arguments displays {U D}.
Arguments shutdown {U D}.
Arguments disconnecting {U D}.
Arguments ending {U D}.
Arguments calls {U D}.

Definition new {U D} (runtime : DesktopRuntime.t U) (displays : D) : t U D := mk runtime displays false 0 [] [].
Definition call {U D} (self : t U D) (c : list ShellCall) : t U D :=
  mk (runtime self) (displays self) (shutdown self) (disconnecting self) (ending self) (calls self ++ c).
Definition set_runtime {U D} (self : t U D) (v : DesktopRuntime.t U) : t U D :=
  mk v (displays self) (shutdown self) (disconnecting self) (ending self) (calls self).
Definition set_displays {U D} (self : t U D) (v : D) : t U D :=
  mk (runtime self) v (shutdown self) (disconnecting self) (ending self) (calls self).
Definition set_shutdown {U D} (self : t U D) (v : bool) : t U D :=
  mk (runtime self) (displays self) v (disconnecting self) (ending self) (calls self).
Definition set_disconnecting {U D} (self : t U D) (v : nat) : t U D :=
  mk (runtime self) (displays self) (shutdown self) v (ending self) (calls self).
Definition set_ending {U D} (self : t U D) (v : list ExitStage) : t U D :=
  mk (runtime self) (displays self) (shutdown self) (disconnecting self) v (calls self).
End Shell.

(** The complaint of a thread whose step failed. *)
Definition complaint {A} (label : string) (r : outcome string A) : list ShellCall :=
  match r with Err error => [Complain (label +:+ ": " +:+ error)] | _ => [] end.

Section shell.
Context {U V C W D : Type} `{AccessoryManager U} `{NativePlatform V C} `{Network W} `{VirtualDisplays D}.
Variable windows : bool.
Implicit Types (self : Shell.t U D) (o : Observed.t U).

(** *** The window *)
Definition show_main_window (present : bool) self : Shell.t U D :=
  if present then Shell.call self [Unminimize; ShowWindow; SetFocus] else self.

Definition handle_window_event (label : string) (close_requested : bool) self : Shell.t U D :=
  if negb (String.eqb label MAIN_WINDOW_LABEL) then self
  else if close_requested then Shell.call self [PreventClose; HideWindow] else self.

(** *** The tray *)
Definition disconnect_display (spawned : string + unit) self : Shell.t U D :=
  match spawned with
  | inr _ => Shell.call (Shell.set_disconnecting self (S (Shell.disconnecting self))) [Spawned false true]
  | inl error => Shell.call self [Spawned false false;
      Complain ("LadoFlow could not start the tray disconnect worker: " +:+ error)]
  end.
Definition disconnect_step o (out : Outside.t) self : Shell.t U D :=
  match Shell.disconnecting self with
  | O => self
  | S left_ =>
    let (runtime, r) := disconnect_android_usb (V:=V) (C:=C) o out (Shell.runtime self) in
    Shell.call (Shell.set_disconnecting (Shell.set_runtime self runtime) left_)
      (DisplayDisconnected false (is_ok r) :: complaint "LadoFlow tray disconnect failed" r)
  end.

Definition quit (spawned : string + unit) self : Shell.t U D :=
  if Shell.shutdown self then self
  else
    let self := Shell.set_shutdown self true in
    match spawned with
    | inr _ => Shell.call (Shell.set_ending self (Shell.ending self ++ [ToDisconnect])) [Spawned true true]
    | inl error => Shell.call self [Spawned true false;
        Complain ("LadoFlow could not start its graceful-exit worker: " +:+ error); Exit 1]
    end.

(** A step of the thread number [i]; one that panics is gone. *)
Definition exit_step (i : nat) o (out : Outside.t) self : Shell.t U D :=
  match Shell.ending self !! i with
  | None => self
  | Some ToDisconnect =>
    let (runtime, r) := disconnect_android_usb (V:=V) (C:=C) o out (Shell.runtime self) in
    let self := Shell.set_runtime self runtime in
    match r with
    | Fault _ => Shell.set_ending self (delete i (Shell.ending self))
    | _ => Shell.call (Shell.set_ending self (<[i := if windows then ToDisable else ToExit]> (Shell.ending self)))
             (DisplayDisconnected true (is_ok r) :: complaint "LadoFlow shutdown could not disconnect the display" r)
    end
  | Some ToDisable =>
    let (displays, r) := disable_virtual_display (Shell.displays self) in
    let self := Shell.set_displays self displays in
    match r with
    | Fault _ => Shell.set_ending self (delete i (Shell.ending self))
    | _ => Shell.call (Shell.set_ending self (<[i := ToExit]> (Shell.ending self)))
             (VirtualDisplayDisabled (is_ok r) :: complaint "LadoFlow shutdown could not disable the virtual display" r)
    end
  | Some ToExit => Shell.call (Shell.set_ending self (delete i (Shell.ending self))) [Exit 0]
  end.

Definition on_menu_event (id : string) (present : bool) (spawned : string + unit) self : Shell.t U D :=
  match TrayAction.from_id id with
  | TrayAction.Open => show_main_window present self
  | TrayAction.Disconnect => disconnect_display spawned self
  | TrayAction.Quit => quit spawned self
  | TrayAction.Unknown => self
  end.
Definition on_tray_icon_event (left_button_up : bool) (present : bool) self : Shell.t U D :=
  if left_button_up then show_main_window present self else self.
End shell.

(** ** The commands of the user interface *)

(** [spawn_blocking] and its [await]: a panic is the error of the join. *)
Definition blocking {A} (what join_error : string) (m : outcome string A) : outcome string A :=
  match m with
  | Fault Panicked => Err (what +:+ ": " +:+ join_error)
  | m => m
  end.

Section commands.
Context {U V C W D : Type} `{AccessoryManager U} `{NativePlatform V C} `{Network W} `{VirtualDisplays D}.
Variable hmac : list byte -> list byte -> list byte.
Implicit Types (runtime : DesktopRuntime.t U) (o : Observed.t U).

Definition get_host_snapshot runtime (out : Outside.t) : outcome string HostSnapshot.t := snapshot runtime out.
Definition start_loopback (spawned : string + unit) (config : LoopbackConfig.t) (display_id : option string)
  (out : Outside.t) runtime : DesktopRuntime.t U * outcome string HostSnapshot.t :=
  start spawned config display_id out runtime.
Definition stop_loopback o (out : Outside.t) runtime : DesktopRuntime.t U * outcome string HostSnapshot.t :=
  stop (V:=V) (C:=C) o out runtime.
(** [requested] is the status after the access was asked for; the snapshot has its own. *)
Definition request_screen_capture_access (_requested : PlatformStatus.t) runtime (out : Outside.t)
  : outcome string HostSnapshot.t := snapshot runtime out.
Definition run_screen_capture_probe (join_error : string) (probed : outcome string CaptureProbeReport.t)
  : outcome string CaptureProbeReport.t := blocking "native capture probe worker failed" join_error probed.
Definition prepare_android_usb (join_error : string) runtime : DesktopRuntime.t U * outcome string UsbAccessoryProbeReport.t :=
  let (runtime, report) := HostRuntime.prepare_android_usb runtime in
  (runtime, blocking "Android USB preparation worker failed" join_error (Ok report)).
Definition pair_android_tether (join_error : string) (draws : list (string + list byte)) (request : TetherPairingRequest.t)
  (world : W) runtime : (DesktopRuntime.t U * W) * outcome string TetherPairingReport.t :=
  let (s, r) := HostRuntime.pair_android_tether hmac draws request world runtime in
  (s, blocking "Android USB-tether pairing worker failed" join_error r).
Definition discover_android_tether (join_error : string) (discovered : outcome string TetherDiscoveryReport.t)
  : outcome string TetherDiscoveryReport.t := blocking "Android USB-tether discovery worker failed" join_error discovered.
Definition disconnect_android_usb o (out : Outside.t) runtime : DesktopRuntime.t U * outcome string HostSnapshot.t :=
  HostRuntime.disconnect_android_usb (V:=V) (C:=C) o out runtime.
Definition enable_display (join_error : string) (displays : D) : D * outcome string VirtualDisplayActionReport.t :=
  let (displays, r) := enable_virtual_display displays in
  (displays, blocking "virtual-display enable worker failed" join_error r).
Definition disable_display (join_error : string) o (out : Outside.t) runtime (displays : D)
  : (DesktopRuntime.t U * D) * outcome string VirtualDisplayActionReport.t :=
  let (s, r) :=
    let (runtime, stopped) := stop (V:=V) (C:=C) o out runtime in
    let? _ := stopped keeping (runtime, displays) in
    let (displays, r) := disable_virtual_display displays in
    ((runtime, displays), r) in
  (s, blocking "virtual-display disable worker failed" join_error r).
End commands.

(** ** The life of the process *)

(** What reaches the shell: the window and tray events, a second start of the program,
    a command of the user interface (whatever it leaves), and the steps of the threads. *)
Inductive ShellEvent (U D : Type) : Type :=
| WindowEvent (label : string) (close_requested : bool)
| MenuEvent (id : string) (present : bool) (spawned : string + unit)
| TrayIconEvent (left_button_up present : bool)
| SecondStart (present : bool)
| CommandRun (runtime : DesktopRuntime.t U) (displays : D)
| DisconnectStep (o : Observed.t U) (out : Outside.t)
| ExitStep (i : nat) (o : Observed.t U) (out : Outside.t).
Arguments WindowEvent {U D}.
Arguments MenuEvent {U D}.
Arguments TrayIconEvent {U D}.
Arguments SecondStart {U D}.
Arguments CommandRun {U D}.
Arguments DisconnectStep {U D}.
Arguments ExitStep {U D}.

Definition is_fault {E A} (m : outcome E A) : bool := match m with Fault _ => true | _ => false end.

(** How far the end of the process has come: its thread was started or refused, the
    display was disconnected and the virtual display disabled, well or not, the process
    exited. *)
Inductive ExitPhase : Type :=
| Alive
| Begun
| Refused
| Disconnected
| Disabled
| Exited.

(** The beginning of the message that reports each failure of the end. *)
Definition start_failure : string := "LadoFlow could not start its graceful-exit worker".
Definition disconnect_failure : string := "LadoFlow shutdown could not disconnect the display".
Definition disable_failure : string := "LadoFlow shutdown could not disable the virtual display".
Definition failure_unless (succeeded : bool) (report : string) : option string :=
  if succeeded then None else Some report.

(** The calls that are in order, from a phase and the report that is owed there. The
    thread of the end is started once; then the display is disconnected, the virtual
    display disabled (on Windows only), and the process exits with 0; with 1 it exits
    where the thread could not be started. A failure is reported before the next of
    these, and a report is made of nothing else. *)
Definition exit_call (windows : bool) (x : ExitPhase * option string) (c : ShellCall)
  : option (ExitPhase * option string) :=
  let '(p, owed) := x in
  match c, owed with
  | Complain message, Some report =>
    if String.prefix report message then Some (p, None) else None
  | Complain message, None =>
    if existsb (fun report => String.prefix report message) [start_failure; disconnect_failure; disable_failure]
    then None else Some (p, None)
  | Spawned true started, None =>
    match p with
    | Alive => Some (if started then Begun else Refused, failure_unless started start_failure)
    | _ => None
    end
  | DisplayDisconnected true succeeded, None =>
    match p with
    | Begun => Some (Disconnected, failure_unless succeeded disconnect_failure)
    | _ => None
    end
  | VirtualDisplayDisabled succeeded, None =>
    match p with
    | Disconnected => if windows then Some (Disabled, failure_unless succeeded disable_failure) else None
    | _ => None
    end
  | Exit code, None =>
    match p with
    | Refused => if code =? 1 then Some (Exited, None) else None
    | Disconnected => if (code =? 0) && negb windows then Some (Exited, None) else None
    | Disabled => if code =? 0 then Some (Exited, None) else None
    | _ => None
    end
  | Spawned false _, None | DisplayDisconnected false _, None => Some (p, None)
  | (Unminimize | ShowWindow | SetFocus | PreventClose | HideWindow), None => Some (p, None)
  | _, Some _ => None
  end.
Fixpoint exit_calls (windows : bool) (x : ExitPhase * option string) (cs : list ShellCall)
  : option (ExitPhase * option string) :=
  match cs with
  | [] => Some x
  | c :: cs => x ← exit_call windows x c; exit_calls windows x cs
  end.

Lemma exit_calls_app windows cs cs' x :
  exit_calls windows x (cs ++ cs') = x ← exit_calls windows x cs; exit_calls windows x cs'.
Proof. revert x; induction cs as [|c cs IH]; intros x; [done|]. cbn. destruct (exit_call windows x c); [apply IH|done]. Qed.

(** A finished step and its report. *)
Lemma exit_calls_disconnected windows {A} (r : outcome string A) :
  is_fault r = false ->
  exit_calls windows (Begun, None)
    (DisplayDisconnected true (is_ok r) :: complaint "LadoFlow shutdown could not disconnect the display" r) =
  Some (Disconnected, None).
Proof. by destruct r as [a|[]|f]. Qed.
Lemma exit_calls_disabled {A} (r : outcome string A) :
  is_fault r = false ->
  exit_calls true (Disconnected, None)
    (VirtualDisplayDisabled (is_ok r) :: complaint "LadoFlow shutdown could not disable the virtual display" r) =
  Some (Disabled, None).
Proof. by destruct r as [a|[]|f]. Qed.
Lemma exit_calls_tray windows p {A} (r : outcome string A) :
  exit_calls windows (p, None)
    (DisplayDisconnected false (is_ok r) :: complaint "LadoFlow tray disconnect failed" r) = Some (p, None).
Proof. by destruct r as [a|[]|f]. Qed.

Lemma exited_stays windows cs x :
  exit_calls windows (Exited, None) cs = Some x -> x = (Exited, None) /\ forall code, Exit code ∉ cs.
Proof.
  induction cs as [|c cs IH]; cbn; [intros [= <-]; split; [done|by intros ? ?%not_elem_of_nil]|].
  assert (exit_calls windows (Exited, None) cs = Some x -> forall c', c' = c ->
    (forall code, Exit code <> c') -> x = (Exited, None) /\ forall code, Exit code ∉ c' :: cs) as Hnext.
  { intros Hx c' _ Hne. destruct (IH Hx) as [-> Hno]. split; [done|].
    intros code [?|?]%elem_of_cons; [by eapply Hne|by eapply Hno]. }
  destruct c as [| | | | |message| |[] ?|[] ?|]; cbn; try done; try (intros Hx; by apply Hnext).
  destruct (_ || _); [done|]. intros Hx. by apply Hnext.
Qed.

(** No exit is among the calls of a process that has not exited. *)
Lemma alive_has_not_exited windows cs x y code :
  exit_calls windows x cs = Some y -> fst y <> Exited -> Exit code ∉ cs.
Proof.
  revert x; induction cs as [|c cs IH]; intros x; cbn; [intros _ _; apply not_elem_of_nil|].
  destruct (exit_call windows x c) as [x'|] eqn:Hc; [|done]. cbn. intros Hy Hne.
  apply not_elem_of_cons; split; [|by apply (IH x')].
  intros <-. cut (x' = (Exited, None)).
  { intros ->. destruct (exited_stays _ _ _ Hy) as [-> _]. by apply Hne. }
  destruct x as [p [owed|]], p; cbn in Hc; repeat case_match; congruence.
Qed.

(** The thread of the end is where the calls say it is. *)
Definition stage_of (windows : bool) (p : ExitPhase) : list ExitStage :=
  match p with
  | Begun => [ToDisconnect]
  | Disconnected => [if windows then ToDisable else ToExit]
  | Disabled => [ToExit]
  | _ => []
  end.

Section life.
Context {U V C W D : Type} `{AccessoryManager U} `{NativePlatform V C} `{Network W} `{VirtualDisplays D}.
Variable windows : bool.
Implicit Types (self : Shell.t U D) (e : ShellEvent U D).

Definition shell_step self e : Shell.t U D :=
  match e with
  | WindowEvent label close_requested => handle_window_event label close_requested self
  | MenuEvent id present spawned => on_menu_event id present spawned self
  | TrayIconEvent left_button_up present => on_tray_icon_event left_button_up present self
  | SecondStart present => show_main_window present self
  | CommandRun runtime displays => Shell.set_displays (Shell.set_runtime self runtime) displays
  | DisconnectStep o out => disconnect_step (V:=V) (C:=C) o out self
  | ExitStep i o out => exit_step (V:=V) (C:=C) windows i o out self
  end.
Definition shell_run (es : list (ShellEvent U D)) self : Shell.t U D := fold_left shell_step es self.

Definition orderly self : Prop :=
  exists p, exit_calls windows (Alive, None) (Shell.calls self) = Some (p, None) /\
    (p = Disabled -> windows = true) /\
    if Shell.shutdown self then Shell.ending self = [] \/ Shell.ending self = stage_of windows p
    else p = Alive /\ Shell.ending self = [].

(** A call that is nothing of the end. *)
Lemma orderly_call self cs :
  (forall p, exit_calls windows (p, None) cs = Some (p, None)) -> orderly self -> orderly (Shell.call self cs).
Proof.
  intros Hcs (p & Hp & Hrest). exists p. split; [|done].
  cbn. by rewrite exit_calls_app, Hp; cbn; rewrite Hcs.
Qed.
Lemma orderly_shown present self : orderly self -> orderly (show_main_window present self).
Proof. destruct present; [by apply orderly_call|done]. Qed.
Lemma orderly_quit spawned self : orderly self -> orderly (quit spawned self).
Proof.
  unfold quit. destruct (Shell.shutdown self) eqn:Hs; [done|].
  intros (p & Hp & Hd & Hrest). rewrite Hs in Hrest. destruct Hrest as [-> He].
  destruct spawned as [error|[]]; cbn.
  - exists Exited; repeat split; [|done|by left]; cbn. rewrite exit_calls_app, Hp; cbn.
    by destruct error.
  - exists Begun. repeat split; [|done|]; cbn; [by rewrite exit_calls_app, Hp|]. rewrite He. by right.
Qed.
Lemma orderly_exit_step i o out self : orderly self -> orderly (exit_step (V:=V) (C:=C) windows i o out self).
Proof.
  unfold exit_step. intros Ho. destruct (Shell.ending self !! i) as [stage|] eqn:Hi; [|done].
  destruct Ho as (p & Hp & Hd & Hrest). destruct (Shell.shutdown self) eqn:Hs.
  2: { destruct Hrest as [_ He]. by rewrite He in Hi. }
  destruct Hrest as [He|He]; rewrite He in Hi; [done|].
  assert (i = 0%nat /\ stage_of windows p = [stage]) as [-> Hst].
  { destruct p, i; cbn in Hi |- *; try done; split; congruence. }
  rewrite Hst in He. clear Hi. destruct stage.
  - assert (p = Begun) as -> by (destruct p, windows; cbn in Hst; congruence).
    destruct (HostRuntime.disconnect_android_usb o out (Shell.runtime self)) as [runtime r].
    destruct (is_fault r) eqn:Hr; [destruct r; [done..|]|].
    + exists Begun. repeat split; [done..|]. cbn. rewrite Hs, He. by left.
    + pose proof (exit_calls_disconnected windows r Hr) as Hc.
      destruct r; [..|done]; exists Disconnected; (repeat split; [|done|]; cbn [Shell.call Shell.set_ending
        Shell.set_runtime Shell.calls Shell.shutdown Shell.ending]; rewrite ?Hs, ?He; [|by right]);
        by rewrite exit_calls_app, Hp.
  - assert (p = Disconnected /\ windows = true) as [-> Hw] by (destruct p, windows; cbn in Hst; split; congruence).
    destruct (disable_virtual_display (Shell.displays self)) as [displays r].
    destruct (is_fault r) eqn:Hr; [destruct r; [done..|]|].
    + exists Disconnected. repeat split; [done..|]. cbn. rewrite Hs, He. by left.
    + pose proof (exit_calls_disabled r Hr) as Hc.
      destruct r; [..|done]; exists Disabled; (repeat split; [|done|]; cbn [Shell.call Shell.set_ending
        Shell.set_displays Shell.calls Shell.shutdown Shell.ending]; rewrite ?Hs, ?He; [|by right]);
        by rewrite exit_calls_app, Hp, Hw.
  - exists Exited. repeat split; [|done|]; cbn; rewrite ?Hs, ?He; [|by right].
    rewrite exit_calls_app, Hp. destruct p; cbn in Hst |- *; try done.
    destruct windows; [congruence|done].
Qed.
Lemma orderly_step self e : orderly self -> orderly (shell_step self e).
Proof.
  intros Ho. destruct e as [label []|id present spawned|[] present|present|runtime displays|o out|i o out]; cbn.
  - unfold handle_window_event. destruct (negb _); [done|by apply orderly_call].
  - unfold handle_window_event. by destruct (negb _).
  - unfold on_menu_event. destruct (TrayAction.from_id id); [by apply orderly_shown| |by apply orderly_quit|done].
    destruct spawned as [error|[]]; [|by apply (orderly_call (Shell.set_disconnecting self _))].
    apply orderly_call; [|done]. intros p; cbn. by destruct error.
  - by apply orderly_shown.
  - done.
  - by apply orderly_shown.
  - done.
  - unfold disconnect_step. destruct (Shell.disconnecting self); [done|].
    destruct (HostRuntime.disconnect_android_usb _ _ _) as [runtime r].
    apply orderly_call; [intros p; apply exit_calls_tray|done].
  - by apply orderly_exit_step.
Qed.
Lemma orderly_run es self : orderly self -> orderly (shell_run es self).
Proof. revert self; induction es as [|e es IH]; intros self Ho; [done|]. by apply IH, orderly_step. Qed.

(** Nothing but the quit item of the menu begins the end. *)
Definition asks_to_quit e : bool :=
  match e with MenuEvent id _ _ => bool_decide (TrayAction.from_id id = TrayAction.Quit) | _ => false end.
Lemma shutdown_by_quit self e :
  asks_to_quit e = false -> Shell.shutdown (shell_step self e) = Shell.shutdown self.
Proof.
  destruct e as [label close_requested|id present spawned|lb present|present|runtime displays|o out|i o out]; cbn; intros Hq.
  - unfold handle_window_event. by destruct (negb _), close_requested.
  - unfold on_menu_event. case_bool_decide; [done|].
    destruct (TrayAction.from_id id); [by destruct present|by destruct spawned|done|done].
  - by destruct lb, present.
  - by destruct present.
  - done.
  - unfold disconnect_step. destruct (Shell.disconnecting self); [done|].
    by destruct (HostRuntime.disconnect_android_usb _ _ _).
  - unfold exit_step. destruct (Shell.ending self !! i) as [[]|]; [..|done]; [| |done].
    + by destruct (HostRuntime.disconnect_android_usb _ _ _) as [? []].
    + by destruct (disable_virtual_display _) as [? []].
Qed.
Lemma not_shut_down es self :
  forallb (fun e => negb (asks_to_quit e)) es = true -> Shell.shutdown (shell_run es self) = Shell.shutdown self.
Proof.
  revert self; induction es as [|e es IH]; intros self; cbn; [done|].
  intros [He Hes]%andb_true_iff. rewrite negb_true_iff in He.
  unfold shell_run. cbn. fold (shell_run es (shell_step self e)). rewrite IH by done. by apply shutdown_by_quit.
Qed.
End life.

(** ** The thread of the end gets there *)
Definition steps_left (windows : bool) (stage : ExitStage) : nat :=
  match stage with
  | ToDisconnect => if windows then 3 else 2
  | ToDisable => 2
  | ToExit => 1
  end.

Section ends.
Context {U V C W D : Type} `{AccessoryManager U} `{NativePlatform V C} `{Network W} `{VirtualDisplays D}.
Variable windows : bool.
Implicit Types (self : Shell.t U D) (e : ShellEvent U D).
#[local] Notation step := (shell_step (V:=V) (C:=C) windows).
#[local] Notation run := (shell_run (V:=V) (C:=C) windows).

(** The step of the thread of the end panics. *)
Definition step_panics self e : bool :=
  match e with
  | ExitStep i o out =>
    match Shell.ending self !! i with
    | Some ToDisconnect => is_fault (snd (HostRuntime.disconnect_android_usb (V:=V) (C:=C) o out (Shell.runtime self)))
    | Some ToDisable => is_fault (snd (disable_virtual_display (Shell.displays self)))
    | _ => false
    end
  | _ => false
  end.
Fixpoint no_step_panics (es : list (ShellEvent U D)) self : bool :=
  match es with
  | [] => true
  | e :: es => negb (step_panics self e) && no_step_panics es (step self e)
  end.
Definition first_thread_steps e : bool := match e with ExitStep 0 _ _ => true | _ => false end.

(** The one thread of the end has [k] steps to go, at most. *)
Definition ends_within (k : nat) self : Prop :=
  Shell.shutdown self = true /\
  (Exit 0 ∈ Shell.calls self \/ exists stage, Shell.ending self = [stage] /\ (steps_left windows stage <= k)%nat).

Lemma ends_within_call k self cs : ends_within k self -> ends_within k (Shell.call self cs).
Proof.
  intros [Hs Hk]. split; [done|]. destruct Hk as [Hk|Hk]; [left; cbn; by apply elem_of_app; left|by right].
Qed.
Lemma ends_within_shown k self present : ends_within k self -> ends_within k (show_main_window present self).
Proof. destruct present; [apply ends_within_call|done]. Qed.
Lemma ends_within_other k self e :
  first_thread_steps e = false -> ends_within k self -> ends_within k (step self e).
Proof.
  intros He Hk. pose proof Hk as [Hs Hr].
  destruct e as [label []|id present spawned|[] present|present|runtime displays|o out|[|i] o out]; cbn; try done.
  - unfold handle_window_event. destruct (negb _); [done|by apply ends_within_call].
  - unfold handle_window_event. by destruct (negb _).
  - unfold on_menu_event. destruct (TrayAction.from_id id); [by apply ends_within_shown| | |done].
    + destruct spawned; [by apply ends_within_call|by apply (ends_within_call k (Shell.set_disconnecting self _))].
    + unfold quit. by rewrite Hs.
  - by apply ends_within_shown.
  - by apply ends_within_shown.
  - unfold disconnect_step. destruct (Shell.disconnecting self); [done|].
    destruct (HostRuntime.disconnect_android_usb _ _ _) as [runtime r]. by apply ends_within_call.
  - unfold exit_step. destruct Hr as [Hr|(stage & Hst & Hle)].
    2: { by rewrite Hst; cbn. }
    destruct (Shell.ending self !! S i) as [[]|]; [..|done].
    + destruct (HostRuntime.disconnect_android_usb _ _ _) as [? []]; split; cbn; (done || left; by repeat (apply elem_of_app; left)).
    + destruct (disable_virtual_display _) as [? []]; split; cbn; (done || left; by repeat (apply elem_of_app; left)).
    + split; [done|]. left. cbn. by apply elem_of_app; left.
Qed.
Lemma ends_within_step k self o out :
  step_panics self (ExitStep 0 o out) = false -> ends_within (S k) self -> ends_within k (step self (ExitStep 0 o out)).
Proof.
  cbn. unfold exit_step. intros Hp [Hs [Hr|(stage & Hst & Hle)]].
  - destruct (Shell.ending self !! 0%nat) as [[]|]; [..|by split; [|left]].
    + destruct (HostRuntime.disconnect_android_usb _ _ _) as [? []]; split; cbn; (done || left; by repeat (apply elem_of_app; left)).
    + destruct (disable_virtual_display _) as [? []]; split; cbn; (done || left; by repeat (apply elem_of_app; left)).
    + split; [done|]. left. cbn. by apply elem_of_app; left.
  - rewrite Hst in Hp |- *. destruct stage; cbn in Hp, Hle |- *.
    + destruct (HostRuntime.disconnect_android_usb _ _ _) as [? []]; [..|done].
      all: split; [done|right; eexists; split; [by cbn; rewrite Hst|destruct windows; cbn; lia]].
    + destruct (disable_virtual_display _) as [? []]; [..|done].
      all: split; [done|right; eexists; split; [by cbn; rewrite Hst|cbn; lia]].
    + split; [done|]. left. cbn. by apply elem_of_app; right; left.
Qed.
Lemma ends_within_run k es self :
  no_step_panics es self = true -> (k <= length (List.filter first_thread_steps es))%nat ->
  ends_within k self -> ends_within 0 (run es self).
Proof.
  revert k self; induction es as [|e es IH]; intros k self; cbn.
  { by intros _ ?; assert (k = 0%nat) as -> by lia. }
  intros [Hp Hps]%andb_true_iff Hle Hk. rewrite negb_true_iff in Hp.
  destruct (first_thread_steps e) eqn:He.
  2: { apply (IH k); [done..|]. by apply ends_within_other. }
  cbn in Hle.
  destruct k as [|k].
  - apply (IH 0%nat); [done|lia|]. destruct e as [| | | | | |[|i] o out]; try done.
    apply ends_within_step; [done|]. destruct Hk as [Hs Hr]; split; [done|].
    destruct Hr as [Hr|(stage & Hst & Hz)]; [by left|]. exfalso. destruct stage, windows; cbn in Hz; lia.
  - apply (IH k); [done|lia|]. destruct e as [| | | | | |[|i] o out]; try done. by apply ends_within_step.
Qed.
End ends.

(** ** What the shell does for the user *)

(** C15: the process ends in order: whatever the window, the tray, the commands and the
    threads do, and in whatever order, the calls follow the automaton: one attempt to start
    the thread of the end; where it succeeds, the display is disconnected, then on Windows
    the virtual display is disabled, then the process exits with 0; where it fails, the
    process exits with 1. A disconnection or a disabling that failed is reported before the
    next call of the thread, which goes on and still exits with 0. There is at most one
    exit and at most one thread of the end, and none of them unless the quit item of the
    menu was chosen. *)
Theorem process_ends_in_order `{AccessoryManager U} `{NativePlatform V C} `{Network W} `{VirtualDisplays D}
  windows (runtime : DesktopRuntime.t U) (displays : D) es :
  let self := shell_run (V:=V) (C:=C) windows es (Shell.new runtime displays) in
  (exists p, exit_calls windows (Alive, None) (Shell.calls self) = Some (p, None)) /\
  (length (Shell.ending self) <= 1)%nat /\
  (forallb (fun e => negb (asks_to_quit e)) es = true ->
   Shell.ending self = [] /\ forall code, Exit code ∉ Shell.calls self).
Proof.
  intros self. assert (orderly windows self) as (p & Hp & _ & Hrest) by (apply orderly_run; by exists Alive).
  split; [by exists p|split].
  - destruct (Shell.shutdown self); [destruct Hrest as [->| ->]; [|destruct p]|destruct Hrest as [_ ->]]; cbn; lia.
  - intros Hq. assert (Shell.shutdown self = false) as Hs by by apply not_shut_down.
    rewrite Hs in Hrest. destruct Hrest as [-> He]. split; [done|].
    intros code. by apply (alive_has_not_exited windows _ (Alive, None) (Alive, None)).
Qed.

(** Quitting ends the process: once the quit item was chosen for the first time and
    its thread was started, three steps of the thread, none of which panics, bring the
    process to exit with 0, whatever else happens in between. *)
Theorem quitting_ends_the_process `{AccessoryManager U} `{NativePlatform V C} `{Network W} `{VirtualDisplays D}
  windows (runtime : DesktopRuntime.t U) (displays : D) es present es' :
  forallb (fun e => negb (asks_to_quit e)) es = true ->
  let self := shell_run (V:=V) (C:=C) windows (es ++ [MenuEvent QUIT_MENU_ID present (inr tt)]) (Shell.new runtime displays) in
  no_step_panics (V:=V) (C:=C) windows es' self = true -> (3 <= length (List.filter first_thread_steps es'))%nat ->
  Exit 0 ∈ Shell.calls (shell_run (V:=V) (C:=C) windows es' self).
Proof.
  intros Hes self Hp Hle. set (before := shell_run (V:=V) (C:=C) windows es (Shell.new runtime displays)).
  assert (Shell.shutdown before = false) as Hs by by apply not_shut_down.
  assert (orderly windows before) as (p & _ & _ & Hrest) by (apply orderly_run; by exists Alive).
  rewrite Hs in Hrest. destruct Hrest as [_ Hn].
  assert (ends_within windows 3 self) as Hk.
  { unfold self, shell_run. rewrite fold_left_app. fold (shell_run (V:=V) (C:=C) windows es (Shell.new runtime displays)).
    fold before. cbn. unfold on_menu_event. cbn. unfold quit. rewrite Hs. split; [done|]. right.
    exists ToDisconnect. cbn. rewrite Hn. split; [done|]. destruct windows; cbn; lia. }
  destruct (ends_within_run windows 3 es' self Hp Hle Hk) as [_ [Hx|(stage & _ & Hz)]]; [done|].
  exfalso. destruct stage, windows; cbn in Hz; lia.
Qed.

(** An event of the window or of its icon, and a call about the window. *)
Definition window_event {U D} (e : ShellEvent U D) : Prop :=
  match e with
  | WindowEvent _ _ | TrayIconEvent _ _ | SecondStart _ => True
  | MenuEvent id _ _ => id <> DISCONNECT_MENU_ID /\ id <> QUIT_MENU_ID
  | _ => False
  end.
Definition window_call (c : ShellCall) : Prop :=
  match c with Unminimize | ShowWindow | SetFocus | PreventClose | HideWindow => True | _ => False end.

Lemma call_nil {U D} (self : Shell.t U D) : Shell.call self [] = self.
Proof. destruct self. unfold Shell.call. cbn. by rewrite app_nil_r. Qed.
Lemma call_call {U D} (self : Shell.t U D) cs cs' : Shell.call (Shell.call self cs) cs' = Shell.call self (cs ++ cs').
Proof. unfold Shell.call. cbn. by rewrite app_assoc. Qed.
Lemma window_step `{AccessoryManager U} `{NativePlatform V C} `{Network W} `{VirtualDisplays D}
  windows (self : Shell.t U D) e :
  window_event e -> exists cs, shell_step (V:=V) (C:=C) windows self e = Shell.call self cs /\ Forall window_call cs.
Proof.
  assert (forall present, exists cs, show_main_window present self = Shell.call self cs /\ Forall window_call cs) as Hshow.
  { intros []; [by eexists; split; [done|repeat constructor]|by exists []; rewrite call_nil]. }
  intros He. destruct e as [label []|id present spawned|[] present|present| | |]; cbn in He |- *; try done.
  - unfold handle_window_event. destruct (negb _); [by exists []; rewrite call_nil|by eexists; split; [done|repeat constructor]].
  - unfold handle_window_event. destruct (negb _); by exists []; rewrite call_nil.
  - unfold on_menu_event, TrayAction.from_id. destruct He as [Hd Hq].
    destruct (String.eqb_spec id OPEN_MENU_ID); [done|].
    destruct (String.eqb_spec id DISCONNECT_MENU_ID); [done|].
    destruct (String.eqb_spec id QUIT_MENU_ID); [done|by exists []; rewrite call_nil].
  - by exists []; rewrite call_nil.
Qed.

(** Closing the window, opening it again and starting the program a second time
    leave the session, the displays and the threads of the shell alone. *)
Theorem window_is_independent_of_the_session `{AccessoryManager U} `{NativePlatform V C} `{Network W} `{VirtualDisplays D}
  windows (self : Shell.t U D) es :
  Forall window_event es ->
  let self' := shell_run (V:=V) (C:=C) windows es self in
  exists cs, self' = Shell.call self cs /\
    Forall window_call cs.
Proof.
  intros Hes. cbn. revert self. induction Hes as [|e es He _ IH]; intros self; [by exists []; rewrite call_nil|].
  destruct (window_step (V:=V) (C:=C) windows self e He) as (cs & Hcs & Hin).
  destruct (IH (Shell.call self cs)) as (cs' & Hcs' & Hin').
  exists (cs ++ cs'). cbn. rewrite Hcs. unfold shell_run in Hcs'. rewrite Hcs', call_call.
  split; [done|by apply Forall_app].
Qed.

(** The virtual display is disabled only under a session at rest: the command stops
    the session first; where that fails or panics, the display is left alone and a failure
    is answered as it is; where it succeeds, no worker is left, the display is disabled
    once, from where it was, and that answer is passed on. The command never panics. *)
Theorem displays_are_disabled_at_rest `{AccessoryManager U} `{NativePlatform V C} `{VirtualDisplays D}
  join_error o out (runtime : DesktopRuntime.t U) (displays : D) :
  let '((runtime', displays'), r) := disable_display (V:=V) (C:=C) join_error o out runtime displays in
  let (stopped, s) := stop (V:=V) (C:=C) o out runtime in
  runtime' = stopped /\
  DesktopRuntime.worker runtime' = None /\
  match s with
  | Ok _ => displays' = fst (disable_virtual_display displays) /\
      SharedState.phase (DesktopRuntime.shared runtime') = SessionPhaseView.Stopped /\
      (is_fault (snd (disable_virtual_display displays)) = false ->
       r = snd (disable_virtual_display displays))
  | Err error => displays' = displays /\ r = Err error
  | Fault _ => displays' = displays
  end /\
  r <> Fault Panicked.
Proof.
  unfold disable_display. destruct (stop o out runtime) as [stopped s] eqn:Hs.
  unfold stop in Hs. destruct (join o runtime) as [joined [panicked|e|f]]; cbn in Hs.
  2, 3: by injection Hs as <- <-; cbn; repeat split; try done; destruct f.
  destruct panicked; injection Hs as <- <-; [by cbn|].
  destruct (snapshot _ out) as [s|e|f]; cbn.
  - destruct (disable_virtual_display displays) as [displays' [a|e|[]]]; by cbn.
  - done.
  - by destruct f.
Qed.

(** ** Concrete runs *)
Module ShellExamples.
Import ReconnectExamples TetherExamples RuntimeExamples.

(** A Windows machine whose virtual display counts how often it was disabled. *)
#[local] Instance counted : VirtualDisplays nat := {
  enable_virtual_display n := (n, Err "no monitor");
  disable_virtual_display n := (S n, Err "no monitor");
}.
#[local] Notation event := (ShellEvent Portable.UsbAccessoryManager.t nat).
#[local] Notation started := (Shell.new (runs preview) 0%nat).
#[local] Notation after_events := (shell_run (V:=unit) (C:=unit) true).

(** The window is closed and reopened from the tray while the preview runs. *)
Definition closed : list event := [WindowEvent MAIN_WINDOW_LABEL true; TrayIconEvent true true].
Definition asked : event := MenuEvent QUIT_MENU_ID true (inr tt).
(** The quit item is chosen twice; the second time nothing is started. *)
Definition ending_steps : list event :=
  [ExitStep 0 stop_now outside; asked; ExitStep 0 stop_now outside; ExitStep 1 stop_now outside;
   ExitStep 0 stop_now outside].

Example the_process_ends :
  let self := after_events (closed ++ asked :: ending_steps) started in
  Shell.calls self =
    [PreventClose; HideWindow; Unminimize; ShowWindow; SetFocus; Spawned true true;
     DisplayDisconnected true true; VirtualDisplayDisabled false;
     Complain "LadoFlow shutdown could not disable the virtual display: no monitor"; Exit 0] /\
  Shell.displays self = 1%nat /\ Shell.ending self = [].
Proof. vm_compute. done. Qed.

(** The thread of the end cannot be started. *)
Definition unstarted : list event := [MenuEvent QUIT_MENU_ID true (inl "no memory"); asked].
Example the_process_is_abandoned :
  Shell.calls (after_events unstarted started) =
    [Spawned true false; Complain "LadoFlow could not start its graceful-exit worker: no memory"; Exit 1] /\
  exit_calls true (Alive, None) (Shell.calls (after_events unstarted started)) = Some (Exited, None) /\
  exit_calls true (Alive, None) [Spawned true true; Exit 1] = None /\
  exit_calls true (Alive, None) [Spawned true true; DisplayDisconnected true false; VirtualDisplayDisabled true] = None.
Proof. vm_compute. done. Qed.

Lemma process_ends_in_order_witness :
  (exists p, exit_calls true (Alive, None)
    (Shell.calls (after_events (closed ++ asked :: ending_steps) started)) = Some (p, None)) /\
  Exit 0 ∉ Shell.calls (after_events closed started).
Proof.
  split.
  - apply (process_ends_in_order (V:=unit) (C:=unit) true (runs preview) 0%nat).
  - apply (process_ends_in_order (V:=unit) (C:=unit) true (runs preview) 0%nat closed).
    vm_compute. reflexivity.
Defined.

Lemma quitting_ends_the_process_witness :
  Exit 0 ∈ Shell.calls (after_events ending_steps (after_events (closed ++ [asked]) started)).
Proof.
  apply (quitting_ends_the_process (V:=unit) (C:=unit) true (runs preview) 0%nat closed true
    ending_steps); vm_compute; [reflexivity..|lia].
Defined.

Lemma window_is_independent_of_the_session_witness :
  exists cs, after_events closed started = Shell.call started cs /\ Forall window_call cs.
Proof.
  apply (window_is_independent_of_the_session (V:=unit) (C:=unit) true started closed).
  repeat constructor.
Defined.

Lemma displays_are_disabled_at_rest_witness :
  let '((runtime', displays'), r) := disable_display (V:=unit) (C:=unit) "gone"
    stop_now outside (runs preview) 0%nat in
  DesktopRuntime.worker runtime' = None /\ displays' = 1%nat /\ r = Err "no monitor".
Proof.
  pose proof (displays_are_disabled_at_rest (V:=unit) (C:=unit) "gone" stop_now outside
    (runs preview) 0%nat) as Hx.
  assert (exists s, snd (stop (V:=unit) (C:=unit) stop_now outside (runs preview)) = Ok s) as [s Hs]
    by (vm_compute; by eexists).
  destruct (disable_display _ _ _ _ _) as [[runtime' displays'] r].
  destruct (stop _ _ _) as [stopped s']. cbn in Hs. subst s'.
  destruct Hx as (_ & Hw & (-> & _ & ->) & _); [by repeat split|reflexivity].
Defined.
End ShellExamples.
